(* ===== verification/_CoqProject ===== *)
-Q . S2P
Prelude.v
Text.v
Units.v
MerchantFee.v
Intents.v
ChainAddress.v
Rivals.v
Verifier.v
StellarVerifier.v
SolanaVerifier.v
EvmVerifier.v
Webhooks.v
Links.v
Tokens.v
Signatures.v
PayLinks.v
Programs.v
Store.v
IntentService.v
IntentSafety.v
Observer.v
DepositForwarder.v
IntentPool.v
IntentBehaviour.v
DepositBehaviour.v
LpMath.v
Settlement.v
SettlementSafety.v
SettlementSweeps.v
SorobanEnvelope.v
EscrowEnvelope.v
EscrowCalls.v
EscrowMath.v
EscrowStore.v
EscrowService.v
EscrowJobs.v
EscrowSafety.v
EscrowPool.v
EscrowBehaviour.v
Oidc.v
OidcSafety.v
NodeSample.v
WalletCore.v
WalletStore.v
WalletAuth.v
WalletSafety.v
WalletPool.v
WalletBehaviour.v
EasyRecovery.v
EasyRecoveryPool.v
Jwt.v
RecoveryCore.v
Sep10.v
RecoveryStore.v
Recovery.v
RecoverySafety.v
RecoveryPool.v
AliasCore.v
AliasStore.v
Aliases.v
AliasSafety.v
AliasPool.v
Rlp.v
EvmTransaction.v
SolanaMessage.v
SolanaAppend.v
SolanaWire.v
ChainSwapStore.v
ChainSwapVenues.v
ChainSwapSigning.v
ChainSwapFee.v
ChainSwaps.v
ChainSwapSafety.v
ChainSwapPool.v
Regex.v
CrossChainNetworks.v
CrossChainStore.v
CrossChainSwaps.v
CrossChainSafety.v
CrossChainPool.v
