(* ===== verification/Prelude.v ===== *)
(** * The Cosmos Pay server: payments, settlement, swaps, escrows, webhooks, sign-in, recovery, aliases

    The server (src/src/, NestJS on PostgreSQL through Prisma) takes payments on
    Stellar, Solana and Monad. A merchant creates a payment intent; the payer's
    wallet opens the intent's link and pays on-chain; the intent is settled by a
    request that names the transaction (validate, PATCH), by the observer's scan
    of the chains, or by the forwarder that empties Monad deposit addresses; and
    the merchant is notified by a webhook. A protected payment goes through an
    escrow contract instead, whose provider builds the transactions the parties
    sign. This library models those parts and proves what makes them correct.

    ** Files, bottom up (paths under src/src/)

    - Prelude: errors ([exn], [res]), the state-and-error monad [svc] of one
      database statement or transaction, reflexive-transitive closure, lemmas.
    - Text: JavaScript strings and bigints (common to everything below).
    - Units: chains/units.ts, swaps/swap-math.ts, common/money.ts.
    - MerchantFee: common/merchant-fee/, payment-intents/payment-legs.ts,
      common/plan-commission.ts.
    - Intents: the intent row, its status graph and guard
      (payment-intent-transitions.ts, payment-intent-state-machine.ts),
      transaction ids (tx-id.ts), memo and asset resolution, replay comparison
      (payment-intent-replay.ts).
    - ChainAddress: chains/chain-address.ts.
    - Rivals: payment-intents/settlement-rivals.ts.
    - Verifier: the [PaymentVerifier] interface with the class [VerifierLaws] of
      what a verifier promises the service; StellarVerifier, SolanaVerifier and
      EvmVerifier implement payment-intents/*-verifier.service.ts and discharge
      it.
    - Webhooks: webhooks/ (events, terminal emitter, dispatcher, sweeper), with
      crashes and redeliveries as steps of [hook_step].
    - Links, PayLinks: the three payment URIs (stellar/sep7.ts,
      solana/solana-pay.ts, evm/eip681.ts), the Solana and Monad link builders
      and the deposit addresses they mint.
    - Programs: an asynchronous method is a [prog] of atomic statements; [run]
      runs it alone, [pool_step] interleaves any number of them with arrivals,
      crashes and moves of the outside world, and [wp]/[pool_safe] prove an
      invariant of every interleaving.
    - Store: the tables with their unique indexes, and the statements.
    - IntentService: payment-intents.service.ts, method by method.
    - Observer: payment-intent-observer.service.ts. DepositForwarder:
      evm-deposit-forwarder.service.ts.
    - IntentSafety: the invariant [valid_db] of the tables and the guarantee
      [evolves] of one step, kept by every operation. IntentPool: the pool of all
      requests and jobs, and the theorems about its executions.
    - IntentBehaviour, DepositBehaviour: what operations answer and change, and
      the interleavings and failures that go wrong.
    - LpMath: liquidity-pools/lp-math.ts, lp-merchant-fee.ts.
    - Settlement: swaps and liquidity-pool operations from submission on: the
      compare-and-swap machine (stellar/settlement.repository.ts), the relay
      (stellar/signed-transaction-relay.service.ts), cost-basis capture and the
      settlement observer (observer/). SettlementSafety: the abstract machine
      [op_step] of one operation, whose moves need evidence from Horizon, and the
      pool that follows it. SettlementSweeps: the sweeps run to completion.
    - SorobanEnvelope (stellar/soroban-envelope.ts), EscrowEnvelope
      (native-plugins/trustless-work/trustless-work-envelope.ts): the check an
      envelope of the escrow provider passes before it is recorded or signed, over
      the class [StellarSdk] of what the SDK does, with its laws [SdkLaws].
      EscrowCalls: [requested_call], what an accepted envelope is, without the
      order of the checks.
    - EscrowMath, EscrowStore, EscrowService, EscrowJobs (the rest of
      native-plugins/trustless-work/): fees and splits; the state machine, the two
      tables, the provider's client and the one writer of statuses; the
      transactions and actions; the jobs, and the merchant's, buyer's and admin's
      routes. [EscrowEnv] is the configuration and the libraries around them.
    - EscrowSafety: the relation [later] a payment's row moves along, the
      invariant [escrows_ok] and that every method keeps it. EscrowPool: the pool
      of routes and jobs. EscrowBehaviour: what single operations do.
    - Tokens: the runtime around the sign-in as the class [Node] with its laws
      [NodeLaws] (hashes, HKDF, AES-GCM, base64url, JSON, URLs), the sealed box
      (common/sealed-box.ts) and the at-rest seal of backups
      (wallet-auth/backup-cipher.ts). Signatures: chains/message-signature.ts and
      stellar/account-signers.ts over the class [Curves]. Oidc: common/oidc/.
      OidcSafety: what an accepted ID token attests, under which keys and when it
      was checked, in any world that carries the caches. NodeSample: a concrete [Node] that has the laws, for the witnesses.
    - WalletCore (wallet-auth-core.ts, return-url.ts, oidc-sources.ts,
      recovery-setup.ts), WalletStore (the four tables and [WalletEnv], the
      configuration), WalletAuth (wallet-auth.service.ts and its sweeper).
      WalletSafety: the invariant [wallets_ok], over a history [trail] that no
      method reads, and that every method keeps it. WalletPool: the pool of routes
      and sweeps. WalletBehaviour: what single operations do.
    - EasyRecovery (easy-recovery/), EasyRecoveryPool: the mailbox, and the pool of
      its routes and sweeps.
    - Jwt (common/jwt.ts, over the class [Hmac]), RecoveryCore
      (recovery/recovery-core.ts: tokens, policy, over the class [StellarKeys]),
      Sep10 (sep10-core.ts), RecoveryStore (recovery-network.ts, the four tables,
      the configuration [RecoveryEnv]), Recovery (recovery.service.ts, the shares
      and the sweeper). RecoverySafety: the [evidence] behind each event of a
      history no method reads, and the invariant [recoveries_ok] every method keeps.
      RecoveryPool: the pool of routes and sweeps.
    - AliasCore (aliases/alias-name.ts, alias-signing.ts), AliasStore (the four
      tables and their unique indexes, as the migrations leave them), Aliases
      (aliases.service.ts and alias-challenge-sweeper.service.ts). AliasSafety: the
      [evidence] behind each event of a history, the invariant [aliases_ok] and that
      every method keeps it. AliasPool: the pool of routes, sweeps and operators.
    - Rlp (evm/rlp.ts), EvmTransaction (evm-transaction.ts, erc20.ts,
      merchant-fee-swap-router.ts, what evm-relayer.service.ts signs, over the class
      [Secp]): EVM transactions written, signed and read back.
    - SolanaMessage and SolanaAppend (solana/solana-message.ts): transactions read and
      written, and instructions appended to one. SolanaWire (solana-transaction.ts,
      solana-transaction-builder.ts, associated-token-account.ts,
      payment-intents/solana-pay-transaction.builder.ts, over the classes
      [SolanaCrypto] and [Base64]): signed transactions, and those built here.
    - ChainSwapStore (the row and statements of swaps on Solana and Monad, the world
      around them), ChainSwapVenues (swaps/venues/ over jupiter/ and kuru/, as
      instances of the record [ChainSwapVenue]), ChainSwaps
      (chain-swaps.service.ts, chain-swap-observer.service.ts,
      common/public-record-token.ts). ChainSwapSigning, ChainSwapFee: what a venue
      accepts back, and a merchant fee in its transaction. ChainSwapSafety: the class
      [VenueLaws] of what the service relies on, which both venues keep, the
      invariant [swaps_ok] and the relation [advanced] that every method keeps.
      ChainSwapPool: the pool of requests and ticks.
    - Regex: patterns and their matcher. CrossChainNetworks (cross-chain-swaps/
      cross-chain-networks.ts, deposit-request.ts, cross-chain-assets.ts: addresses,
      transaction ids, deposit links and tokens of every network), CrossChainStore (near-intents/near-intents.types.ts, the row and its
      statements), CrossChainSwaps (cross-chain-swap-transitions.ts, the token list of
      near-intents.client.ts, cross-chain-swaps.service.ts, the observer).
      CrossChainSafety: the invariant [cross_ok] over a history of 1Click's answers,
      which every method keeps. CrossChainPool: the pool of requests and ticks.

    ** What the theorems show

    - Settlement (IntentPool): one payment settles at most one intent, for good;
      settlements are backed by a payment the chain's nodes showed; the audit
      trail replays. IntentBehaviour: the oldest claimant wins, and a lapsed
      intent expires only on the chain's word.
    - Verification: each chain's verifier says valid exactly for a payment of the
      intent, and each scan finds the payments it is meant to find.
    - Creation: creates are idempotent per memo; the link a builder answers asks
      for exactly what the verifier will accept; deposit money can be moved.
    - Webhooks: terminal events are claimed once, with their delivery rows; runs
      of retries end; sweeps neither race a send nor exceed the budget.
    - Swaps and liquidity operations: every interleaving follows [op_step], each
      terminal status has Horizon's word behind it, and sweeps settle everything
      Horizon can decide. A withdrawal is charged on its gain only.
    - Swaps on Solana and Monad (ChainSwapPool): in any interleaving only a swap's own
      transaction, signed by its source, is broadcast, and a row says what the chain
      said of its hash; rows only move forward; a create answers one row per key; a
      tick settles what is due. A signed transaction is accepted exactly when it is
      the one handed out (ChainSwapSigning); a merchant fee rides in it without
      changing the rest (ChainSwapFee).
    - Cross-chain swaps (CrossChainPool): in any interleaving a row's deposit is what
      1Click quoted for the row's own terms, its status what 1Click said of it, and a
      swap that ended stays so; a create answers one row per key and never another
      request's deposit; a tick mirrors 1Click; a merchant fee in whole basis points
      is rounded for the payer. A token is never guessed, and an address has
      one spelling on each network (CrossChainNetworks).
    - Wire formats: RLP is read from its one encoding; signed EVM transactions and
      Solana transactions read back whole; what is built or appended runs on the
      accounts it names, with the rights it asks for.
    - Escrows: in any interleaving a protected payment follows its state machine
      and keeps its terms, buyer and contract; nothing is relayed that the check
      did not accept for an instruction the payment allows, and the check accepts
      exactly the requested calls; a sync reaches what the contract shows; fees
      and splits add up.
    - Wallet sign-in: in any interleaving every session has behind it the proof its
      answer needs, and a handshake is redeemed once (WalletPool); finishing writes
      one account for whoever proved both halves (WalletBehaviour); ID tokens,
      sessions, challenges and backup boxes mean what they say.
    - Recovery: nothing is co-signed and no half of a backup key handed out but for
      whoever proved the key or a registered inbox (RecoveryPool, where [unforged]
      says HMAC tags are not guessed), and only recovery is co-signed (RecoveryCore);
      a mailbox answers five codes at most and trades its secret once
      (EasyRecoveryPool).
    - Aliases (AliasPool): a name resolves only to addresses that signed for it, and
      changes hands only by a claim, a release or a recovery proven by mail and key;
      requests of a former holder still under way are not refused.
    - Arithmetic and texts: units, stroops, fees, base58, checksums, ids, URIs.
    - Defects: [native_fee_replay_refused], [settled_hash_overwritten],
      [confirmed_forward_outcome], [resolve_sends_pending], [create_replays],
      [wrong_guesses_uncounted], [code_redeemed_twice], [second_chain_refused],
      [second_hash_dropped] and [failing_batch_starves] state behaviours the comments of the code do not intend.

    ** Conventions

    Amounts are [Z] (BigInt); times are milliseconds in [Z]; strings are sequences
    of code units below 256, bytes where the source encodes UTF-8. A method that
    throws answers [Throw]; messages and logs are not modelled. A database
    transaction is atomic and rolls back on a throw; statements of different
    requests interleave at every await on the database. Chain nodes, Horizon,
    aggregators, keccak, curves, strkey checks, the Stellar envelope builder, cuid minting and clocks
    are arguments. A world's history (its trail or events) records what happened,
    what nodes answered, as they answered it, and when by the clock; no method reads
    it. An envelope or node may answer or fail at will, and hypotheses
    on them are stated where a theorem needs them (cuids do not repeat; Horizon
    pages run newest first and a short page is the last; a log query answers the
    logs of its range; a transaction's hash fixes its operations). Loops of the source are structural or bounded by the
    source's own constants ([PAYMENT_SCAN_MAX_PAGES], [EVM_LOG_SCAN_MAX_CALLS],
    the retry budget); decimal and base-58 conversions use the logarithm of their
    argument as fuel, which Text and ChainAddress prove to be enough.

    ** Not modelled

    HTTP controllers, DTO validators, guards and rate limits; SDK calls (Stellar
    transactions, signatures, sockets); provider integrations and plugins;
    read-only analytics; configuration. Of Stellar swaps and liquidity pools, pricing
    and the building of envelopes. Of swaps on Solana and Monad, the aggregators' HTTP
    and the cache of Kuru's tokens; a check of the fee router that two requests share
    in flight is one per request here. Of the EVM relayer, its queue. Of escrows,
    listings, the check of the configuration at start and the audit rows;
    configuration is constant and consumers are not deleted. Of the sign-in and the
    recovery servers, the callback page and the mail's text. Of cross-chain swaps,
    1Click's HTTP; USDT0 transfers (usdt0/), shielded payments, the URL validator
    of webhook endpoints. *)

From stdpp Require Import base tactics list option gmap strings.
From Stdlib Require Import ZArith Lia Ascii.


(* stdpp blocks the reduction of string append; the text lemmas compute with it. *)
#[global] Arguments String.append : simpl nomatch.

(** ** Errors

    [ApiErrorCode] of src/src/common/errors/api-error.ts, restricted to the
    codes the modelled components raise. *)
Inductive ApiErrorCode :=
  | NotFound
  | ValidationFailed
  | IdempotencyConflict
  | OperationInFlight
  | InvalidStateTransition
  | InvalidAmount
  | InvalidMemo
  | TransactionRejected
  | TransactionAlreadySettled
  | ProviderUnavailable
  | Misconfigured
  | MerchantFeeUnsupported
  | AssetUnsupported
  | NetworkUnsupported
  | SlippageExceeded
  | ProviderError
  | InsufficientBalance
  | TrustlineMissing
  | ProtectedPaymentBuyerMismatch
  | ProtectedPaymentSignatureInvalid
  | WalletProviderUnavailable
  | WalletReturnUrlNotAllowed
  | WalletVerifierInvalid
  | WalletLoginCodeCooldown
  | WalletSessionInvalid
  | WalletSignatureInvalid
  | WalletBackupInvalid
  | WalletBackupLimit
  | WalletAccountMismatch
  | WalletRecoverySetupRefused
  | EasyRecoveryNotFound
  | EasyRecoveryAlreadyOffered
  | EasyRecoveryNotOffered
  | EasyRecoveryCodeInvalid (attemptsLeft : Z)
  | EasyRecoveryBurned
  | AliasNameInvalid
  | AliasTaken
  | AliasChallengeInvalid
  | AliasSignatureInvalid
  | AliasAddressConflict
  | AliasRecoveryInvalid.

(** What a TypeScript function of the server can throw: an [ApiError] with its
    HTTP status and machine-readable code (with the details a code carries), a
    [SepError] of the recovery routes with its status, Prisma's P2002 with the
    constraint it names, the state machine's own exception, or any other JavaScript
    error. Messages are dropped: no code of the server branches on one. *)
Inductive exn :=
  | ApiError (status : Z) (code : ApiErrorCode)
  | SepError (status : Z)
  | UniqueViolation (constraint_name : string)
  | InvalidTransitionError
  | RangeError
  | JsError.

#[export] Instance ApiErrorCode_eq_dec : EqDecision ApiErrorCode.
Proof. solve_decision. Defined.
#[export] Instance exn_eq_dec : EqDecision exn.
Proof. solve_decision. Defined.

(** The named constructors of [ApiError]. *)
Definition badRequest (c : ApiErrorCode) : exn := ApiError 400 c.
Definition unauthorized (c : ApiErrorCode) : exn := ApiError 401 c.
Definition notFound : exn := ApiError 404 NotFound.
Definition conflict (c : ApiErrorCode) : exn := ApiError 409 c.
Definition badGateway (c : ApiErrorCode) : exn := ApiError 502 c.
Definition unavailable (c : ApiErrorCode) : exn := ApiError 503 c.

(** [isUniqueViolation] of src/src/common/prisma-errors.ts *)
Definition isUniqueViolation (err : exn) : bool :=
  match err with UniqueViolation _ => true | _ => false end.

(** ** Results

    The value of a fallible synchronous function: what it returns or throws. *)
Inductive res (A : Type) :=
  | Ok (a : A)
  | Throw (e : exn).
Arguments Ok {A} a.
Arguments Throw {A} e.

#[export] Instance res_ret : MRet res := @Ok.
#[export] Instance res_bind : MBind res := fun A B f m =>
  match m with Ok a => f a | Throw e => Throw e end.
#[export] Instance res_fmap : FMap res := fun A B f m =>
  match m with Ok a => Ok (f a) | Throw e => Throw e end.

Definition is_ok {A} (r : res A) : bool :=
  match r with Ok _ => true | Throw _ => false end.

(** [try { ... } catch { h }] where the handler ignores what was thrown. *)
Definition res_default {A} (d : A) (r : res A) : A :=
  match r with Ok a => a | Throw _ => d end.

Definition res_of_option {A} (e : exn) (o : option A) : res A :=
  match o with Some a => Ok a | None => Throw e end.

(** [if (cond) throw e] *)
Definition throw_if (cond : bool) (e : exn) : res unit :=
  if cond then Throw e else Ok tt.

(** ** Asynchronous service methods

    A service method reads and writes a world (the tables it touches, the bus)
    and returns or throws. Writes made before a throw stay, as committed
    statements do. *)
Definition svc (W A : Type) := W -> W * res A.

#[export] Instance svc_ret W : MRet (svc W) := fun A a w => (w, Ok a).
#[export] Instance svc_bind W : MBind (svc W) := fun A B f m w =>
  match m w with
  | (w', Ok a) => f a w'
  | (w', Throw e) => (w', Throw e)
  end.

Definition get_world {W} : svc W W := fun w => (w, Ok w).
Definition put_world {W} (w : W) : svc W unit := fun _ => (w, Ok tt).
Definition throw {W A} (e : exn) : svc W A := fun w => (w, Throw e).
Definition lift {W A} (r : res A) : svc W A := fun w => (w, r).
(** [try m catch (err) h(err)] *)
Definition catch {W A} (m : svc W A) (h : exn -> svc W A) : svc W A := fun w =>
  match m w with
  | (w', Ok a) => (w', Ok a)
  | (w', Throw e) => h e w'
  end.
(** A database transaction: a throw rolls every write of [m] back. *)
Definition transaction {W A} (m : svc W A) : svc W A := fun w =>
  match m w with
  | (w', Ok a) => (w', Ok a)
  | (_, Throw e) => (w, Throw e)
  end.

(** ** JavaScript numbers and truthiness *)

(** A JavaScript [number] as [Number.isInteger] sees it: an integer, or a
    fraction, an infinity or NaN. *)
Inductive jsnum :=
  | NumInt (z : Z)
  | NumOther.

#[export] Instance jsnum_eq_dec : EqDecision jsnum.
Proof. solve_decision. Defined.

(** [===] on numbers, for the cases the server compares (NaN never equals). *)
Definition num_strict_eq (a b : jsnum) : bool :=
  match a, b with NumInt x, NumInt y => (x =? y)%Z | _, _ => false end.

(** Truthiness of an optional string: null, undefined and the empty string are
    all falsy. *)
Definition truthy (o : option string) : bool :=
  match o with Some "" => false | Some _ => true | None => false end.

(** [===] on optional strings (null and undefined both as [None]). *)
Definition opt_eqb (a b : option string) : bool := bool_decide (a = b).

(** ** Relations *)

Inductive star {A} (R : A -> A -> Prop) : A -> A -> Prop :=
  | star_refl a : star R a a
  | star_snoc a b c : star R a b -> R b c -> star R a c.

Lemma star_one {A} (R : A -> A -> Prop) a b : R a b -> star R a b.
Proof. intros H. eapply star_snoc; [apply star_refl | exact H]. Qed.

Lemma star_trans {A} (R : A -> A -> Prop) a b c :
  star R a b -> star R b c -> star R a c.
Proof. intros Hab. induction 1; [done | eauto using @star]. Qed.

(** A predicate every step preserves holds along every execution. *)
Lemma star_invariant {A} (R : A -> A -> Prop) (I : A -> Prop) a b :
  (forall x y, I x -> R x y -> I y) -> I a -> star R a b -> I b.
Proof. intros Hstep Ha. induction 1; eauto. Qed.

(** ** Automation *)

Create HintDb cosmos.
#[export] Hint Constructors star : cosmos.
#[export] Hint Resolve star_one star_trans : cosmos.

(** Splits the innermost scrutinee of the first stuck [match] or [if] of a
    hypothesis; the workhorse for computations in [res] and [svc]. *)
Ltac step_match_in H :=
  match type of H with
  | context [ match ?x with _ => _ end ] =>
      lazymatch x with
      | context [ match _ with _ => _ end ] => fail
      | _ => destruct x eqn:?; simplify_eq/=
      end
  end.
Ltac run_in H := repeat (step_match_in H; try discriminate H).

Ltac step_match :=
  match goal with
  | |- context [ match ?x with _ => _ end ] =>
      lazymatch x with
      | context [ match _ with _ => _ end ] => fail
      | _ => destruct x eqn:?; simplify_eq/=
      end
  end.

(** Boolean connectives and decisions to propositions, everywhere. *)
Ltac bool_facts :=
  repeat match goal with
  | H : _ && _ = true |- _ => apply andb_true_iff in H as [? ?]
  | H : _ || _ = false |- _ => apply orb_false_iff in H as [? ?]
  | H : negb _ = true |- _ => apply negb_true_iff in H
  | H : negb _ = false |- _ => apply negb_false_iff in H
  | H : bool_decide _ = true |- _ => apply bool_decide_eq_true in H
  | H : bool_decide _ = false |- _ => apply bool_decide_eq_false in H
  | H : (_ =? _)%Z = true |- _ => apply Z.eqb_eq in H
  | H : (_ =? _)%Z = false |- _ => apply Z.eqb_neq in H
  | H : (_ <? _)%Z = true |- _ => apply Z.ltb_lt in H
  | H : (_ <? _)%Z = false |- _ => apply Z.ltb_ge in H
  | H : (_ <=? _)%Z = true |- _ => apply Z.leb_le in H
  | H : (_ <=? _)%Z = false |- _ => apply Z.leb_gt in H
  end.

Lemma bind_Ok {A B} (f : A -> res B) (m : res A) b :
  m ≫= f = Ok b -> exists a, m = Ok a /\ f a = Ok b.
Proof. destruct m; simpl; [eauto | done]. Qed.

Lemma throw_if_Ok c e u : throw_if c e = Ok u -> c = false.
Proof. by destruct c. Qed.

Lemma opt_eqb_true a b : opt_eqb a b = true <-> a = b.
Proof. apply bool_decide_eq_true. Qed.
Lemma opt_eqb_refl a : opt_eqb a a = true.
Proof. by apply opt_eqb_true. Qed.

(** [Array.prototype.find] over a concatenation. *)
Lemma find_app {A} (p : A -> bool) (l1 l2 : list A) :
  List.find p (l1 ++ l2) =
  match List.find p l1 with Some x => Some x | None => List.find p l2 end.
Proof. induction l1 as [|a l1 IH]; simpl; [done|]. by destruct (p a). Qed.

Lemma existsb_false_forall {A} (p : A -> bool) l : existsb p l = false <-> forall x, x ∈ l -> p x = false.
Proof.
  induction l as [|a l IH]; simpl.
  - split; [by intros _ x ?%not_elem_of_nil | done].
  - rewrite orb_false_iff, IH. split.
    + intros [Ha Hl] x [->|Hx]%elem_of_cons; auto.
    + intros H. split; [apply H; by left | intros x Hx; apply H; by right].
Qed.

(** How many of the entries of a log are of a kind. *)
Definition count_of {E} (p : E -> bool) (h : list E) : nat := length (List.filter p h).

Lemma count_snoc {E} (p : E -> bool) h e : count_of p (h ++ [e]) = (count_of p h + if p e then 1 else 0)%nat.
Proof. unfold count_of. rewrite List.filter_app, length_app. simpl. by destruct (p e). Qed.

Lemma count_zero {E} (p : E -> bool) h : (forall e, e ∈ h -> p e = false) -> count_of p h = 0%nat.
Proof.
  unfold count_of. induction h as [|e h IH]; intros H; [done|]. simpl.
  rewrite (H e) by set_solver. apply IH. set_solver.
Qed.

(** A finite list has an element nothing in it precedes. *)
Lemma minimal_exists {A} (lt : A -> A -> bool) (l : list A) :
  (forall x, lt x x = false) -> (forall x y z, lt x y = true -> lt y z = true -> lt x z = true) ->
  l <> [] -> exists m, m ∈ l /\ forall x, x ∈ l -> lt x m = false.
Proof.
  intros Hirr Htr. induction l as [|a l IH]; [done|]. intros _. destruct l as [|b l].
  - exists a. split; [by left|]. by intros x ->%list_elem_of_singleton.
  - destruct IH as (m & Hm & Hmin); [done|]. destruct (lt a m) eqn:E.
    + exists a. split; [by left|]. intros x [->|Hx]%elem_of_cons; [done|].
      destruct (lt x a) eqn:E'; [|done]. specialize (Hmin x Hx). by rewrite (Htr _ _ _ E' E) in Hmin.
    + exists m. split; [by right|]. intros x [->|Hx]%elem_of_cons; auto.
Qed.
