(* ===== verification/Text.v ===== *)
(** JavaScript strings as the server uses them: a [string] is a sequence of
    code units below 256 (the decimal amounts, hashes, ids and codes the
    modelled code handles are ASCII). Trimming, case, padding, the decimal
    regular expressions and the conversions between digits and bigints. *)

From S2P Require Import Prelude.
From stdpp Require Import base tactics list strings.
From Stdlib Require Import ZArith Lia Ascii OrderedTypeEx.

Open Scope Z_scope.

(** ** Characters *)

Definition code (a : ascii) : Z := Z.of_nat (nat_of_ascii a).
Definition is_digit (a : ascii) : bool := (48 <=? code a) && (code a <=? 57).
Definition digit_val (a : ascii) : Z := code a - 48.
Definition digit_char (d : Z) : ascii := ascii_of_nat (Z.to_nat (48 + d)).

(** ECMAScript WhiteSpace and LineTerminator below 256. *)
Definition is_space (a : ascii) : bool :=
  ((9 <=? code a) && (code a <=? 13)) || (code a =? 32) || (code a =? 160).

(** [String.prototype.toLowerCase] on one code unit below 256. *)
Definition lower_char (a : ascii) : ascii :=
  if ((65 <=? code a) && (code a <=? 90))
     || ((192 <=? code a) && (code a <=? 222) && negb (code a =? 215))
  then ascii_of_nat (Z.to_nat (code a + 32)) else a.

Definition is_hex (a : ascii) : bool :=
  is_digit a || ((97 <=? code a) && (code a <=? 102))
  || ((65 <=? code a) && (code a <=? 70)).

(** ** Strings *)

Fixpoint all_chars (p : ascii -> bool) (s : string) : bool :=
  match s with
  | "" => true
  | String a r => p a && all_chars p r
  end%string.

Fixpoint map_chars (f : ascii -> ascii) (s : string) : string :=
  match s with
  | "" => ""
  | String a r => String (f a) (map_chars f r)
  end%string.

Definition toLowerCase (s : string) : string := map_chars lower_char s.

Fixpoint trim_start (s : string) : string :=
  match s with
  | String a r => if is_space a then trim_start r else s
  | EmptyString => s
  end.

Fixpoint trim_end (s : string) : string :=
  match s with
  | EmptyString => EmptyString
  | String a r =>
      match trim_end r with
      | EmptyString => if is_space a then EmptyString else String a EmptyString
      | r' => String a r'
      end
  end.

(** [s.trim()] *)
Definition trim (s : string) : string := trim_end (trim_start s).

Fixpoint repeat_char (n : nat) (a : ascii) : string :=
  match n with
  | O => EmptyString
  | S m => String a (repeat_char m a)
  end.

Definition zeros (n : nat) : string := repeat_char n "0"%char.

(** [s.padEnd(n, '0')] and [s.padStart(n, '0')] *)
Definition padEnd (n : nat) (s : string) : string :=
  (s +:+ zeros (n - String.length s))%string.
Definition padStart (n : nat) (s : string) : string :=
  (zeros (n - String.length s) +:+ s)%string.

(** [s.slice(0, n)] and [s.slice(n)] for [n] at least 0. *)
Fixpoint slice_to (n : nat) (s : string) : string :=
  match n, s with
  | S m, String a r => String a (slice_to m r)
  | _, _ => EmptyString
  end.
Fixpoint slice_from (n : nat) (s : string) : string :=
  match n, s with
  | S m, String _ r => slice_from m r
  | O, s => s
  | _, EmptyString => EmptyString
  end.

(** [s.replace(/0+$/, '')] *)
Fixpoint strip_zeros (s : string) : string :=
  match s with
  | EmptyString => EmptyString
  | String a r =>
      match strip_zeros r with
      | EmptyString =>
          if Ascii.eqb a "0"%char then EmptyString else String a EmptyString
      | r' => String a r'
      end
  end.

(** [s.split(c)] *)
Fixpoint split_on (c : ascii) (s : string) : list string :=
  match s with
  | EmptyString => [EmptyString]
  | String a r =>
      if Ascii.eqb a c then EmptyString :: split_on c r
      else match split_on c r with
           | h :: t => String a h :: t
           | [] => [String a EmptyString]
           end
  end.

(** ** Numbers as text *)

(** [BigInt(s)] for a string of decimal digits ([0n] for the empty one). *)
Fixpoint digits_acc (acc : Z) (s : string) : Z :=
  match s with
  | EmptyString => acc
  | String a r => digits_acc (10 * acc + digit_val a) r
  end.
Definition BigInt (s : string) : Z := digits_acc 0 s.

Fixpoint digits_of (fuel : nat) (n : Z) (acc : string) : string :=
  match fuel with
  | O => acc
  | S f =>
      let acc' := String (digit_char (n mod 10)) acc in
      if n <? 10 then acc' else digits_of f (n / 10) acc'
  end.

(** [n.toString()] for a bigint at least 0; a decimal digit takes more than one
    bit, so [log2 n + 1] divisions by ten reach zero. *)
Definition nat_toString (n : Z) : string :=
  digits_of (S (Z.to_nat (Z.log2 n))) n EmptyString.

(** [n.toString()] *)
Definition toString (n : Z) : string :=
  if n <? 0 then String "-"%char (nat_toString (- n)) else nat_toString n.

(** [/^\d+$/.test(s)] *)
Definition is_digits (s : string) : bool :=
  match s with EmptyString => false | _ => all_chars is_digit s end.

(** [/^(\d+)(?:\.(\d+))?$/.exec(s)]: the two groups, or null. *)
Fixpoint decimal_exec (s : string) : option (string * option string) :=
  match s with
  | EmptyString => None
  | String a r =>
      if is_digit a then
        match r with
        | EmptyString => Some (String a EmptyString, None)
        | String b f =>
            if Ascii.eqb b "."%char
            then if is_digits f then Some (String a EmptyString, Some f) else None
            else match decimal_exec r with
                 | Some (w, f') => Some (String a w, f')
                 | None => None
                 end
        end
      else None
  end.


(** The value of a hexadecimal digit, of either case. *)
Definition hex_val (a : ascii) : Z :=
  if is_digit a then digit_val a else code (lower_char a) - 87.

Fixpoint radix_acc (r acc : Z) (s : string) : Z :=
  match s with
  | "" => acc
  | String a s => radix_acc r (acc * r + hex_val a) s
  end.

(** A digit below [r]. *)
Definition is_radix_digit (r : Z) (a : ascii) : bool := is_hex a && (hex_val a <? r).

Definition radix_literal (r : Z) (s : string) : option Z :=
  match s with
  | "" => None
  | _ => if all_chars (is_radix_digit r) s then Some (radix_acc r 0 s) else None
  end.

(** [BigInt(s)] on any text: white space around it dropped, nothing read as 0,
    a signed decimal or a prefixed binary, octal or hexadecimal literal;
    [None] for a SyntaxError. *)
Definition BigInt_text (s : string) : option Z :=
  match trim s with
  | "" => Some 0
  | String "0" (String "x" r) | String "0" (String "X" r) => radix_literal 16 r
  | String "0" (String "o" r) | String "0" (String "O" r) => radix_literal 8 r
  | String "0" (String "b" r) | String "0" (String "B" r) => radix_literal 2 r
  | String "-" r => if is_digits r then Some (- BigInt r) else None
  | String "+" r => if is_digits r then Some (BigInt r) else None
  | t => if is_digits t then Some (BigInt t) else None
  end.

(** ** Lemmas *)

Lemma code_range a : 0 <= code a < 256.
Proof. unfold code. pose proof (nat_ascii_bounded a). lia. Qed.

Lemma digit_char_val d : 0 <= d < 10 -> digit_val (digit_char d) = d.
Proof.
  intros H. unfold digit_val, digit_char, code.
  rewrite nat_ascii_embedding by lia. lia.
Qed.

Lemma digit_char_digit d : 0 <= d < 10 -> is_digit (digit_char d) = true.
Proof.
  intros H. unfold is_digit, digit_char, code.
  rewrite nat_ascii_embedding by lia.
  apply andb_true_iff. rewrite !Z.leb_le. lia.
Qed.

Lemma is_digit_val a : is_digit a = true -> 0 <= digit_val a < 10.
Proof. unfold is_digit, digit_val. intros. bool_facts. lia. Qed.

Lemma code_inj a b : code a = code b -> a = b.
Proof.
  unfold code. intros H. apply Nat2Z.inj in H.
  by rewrite <- (ascii_nat_embedding a), <- (ascii_nat_embedding b), H.
Qed.

Lemma digit_val_inj a b : digit_val a = digit_val b -> a = b.
Proof. unfold digit_val. intros. apply code_inj. lia. Qed.

Lemma str_app_nil_r s : (s +:+ "")%string = s.
Proof. induction s; simpl; congruence. Qed.
Lemma str_app_assoc a b c : (a +:+ (b +:+ c) = (a +:+ b) +:+ c)%string.
Proof. induction a; simpl; congruence. Qed.
Lemma str_app_length a b :
  String.length (a +:+ b) = (String.length a + String.length b)%nat.
Proof. induction a; simpl; congruence. Qed.

Lemma str_app_inj_len a b c d :
  (a +:+ b)%string = (c +:+ d)%string ->
  String.length a = String.length c -> a = c /\ b = d.
Proof.
  revert c. induction a as [|x a IH]; intros [|y c] E L; simpl in *; try lia.
  - done.
  - injection E as -> E. injection L as L. destruct (IH _ E L) as [-> ->]. done.
Qed.

Lemma all_chars_app p a b :
  all_chars p (a +:+ b) = all_chars p a && all_chars p b.
Proof. induction a; simpl; [done|]. by rewrite IHa, andb_assoc. Qed.

Lemma repeat_char_length n a : String.length (repeat_char n a) = n.
Proof. induction n; simpl; congruence. Qed.
Lemma zeros_length n : String.length (zeros n) = n.
Proof. apply repeat_char_length. Qed.
Lemma zeros_digits n : all_chars is_digit (zeros n) = true.
Proof. induction n; simpl; [done|]. exact IHn. Qed.
Lemma zeros_add n m : zeros (n + m) = (zeros n +:+ zeros m)%string.
Proof. induction n; simpl; [done|]. unfold zeros in *. simpl. by rewrite IHn. Qed.
Lemma zeros_succ_r n : zeros (S n) = (zeros n +:+ "0")%string.
Proof. rewrite <- Nat.add_1_r. apply zeros_add. Qed.

Lemma padEnd_length n s : (String.length s <= n)%nat -> String.length (padEnd n s) = n.
Proof. intros. unfold padEnd. rewrite str_app_length, zeros_length. lia. Qed.
Lemma padStart_length n s :
  String.length (padStart n s) = Nat.max n (String.length s).
Proof. unfold padStart. rewrite str_app_length, zeros_length. lia. Qed.

Lemma slice_app n s :
  (slice_to n s +:+ slice_from n s)%string = s.
Proof.
  revert s; induction n as [|n IH]; intros [|a s]; simpl; try done.
  by rewrite IH.
Qed.
Lemma slice_to_length n s :
  String.length (slice_to n s) = Nat.min n (String.length s).
Proof.
  revert s; induction n as [|n IH]; intros [|a s]; simpl; try done.
  by rewrite IH.
Qed.
Lemma slice_from_length n s :
  String.length (slice_from n s) = (String.length s - n)%nat.
Proof.
  revert s; induction n as [|n IH]; intros [|a s]; simpl; auto.
Qed.

(** *** Digits and values *)

Lemma digits_acc_app acc a b :
  digits_acc acc (a +:+ b) = digits_acc (digits_acc acc a) b.
Proof. revert acc; induction a; intros acc; simpl; [done|]. apply IHa. Qed.

Lemma digits_acc_shift acc s :
  digits_acc acc s = acc * 10 ^ Z.of_nat (String.length s) + BigInt s.
Proof.
  unfold BigInt. revert acc. induction s as [|a s IH]; intros acc.
  - simpl. lia.
  - change (digits_acc (10 * acc + digit_val a) s =
      acc * 10 ^ Z.of_nat (S (String.length s)) + digits_acc (10 * 0 + digit_val a) s).
    rewrite (IH (10 * acc + digit_val a)), (IH (10 * 0 + digit_val a)). rewrite Nat2Z.inj_succ, Z.pow_succ_r by lia. ring.
Qed.

Lemma BigInt_app a b :
  BigInt (a +:+ b) = BigInt a * 10 ^ Z.of_nat (String.length b) + BigInt b.
Proof. unfold BigInt at 1. rewrite digits_acc_app. apply digits_acc_shift. Qed.

Lemma BigInt_cons a s :
  BigInt (String a s) = digit_val a * 10 ^ Z.of_nat (String.length s) + BigInt s.
Proof.
  unfold BigInt at 1.
  change (digits_acc (10 * 0 + digit_val a) s =
    digit_val a * 10 ^ Z.of_nat (String.length s) + BigInt s).
  rewrite digits_acc_shift. lia.
Qed.

Lemma BigInt_zeros n : BigInt (zeros n) = 0.
Proof.
  induction n; [done|]. change (zeros (S n)) with (String "0" (zeros n)).
  rewrite BigInt_cons, IHn. change (digit_val "0") with 0. lia.
Qed.

Lemma BigInt_range s :
  all_chars is_digit s = true ->
  0 <= BigInt s < 10 ^ Z.of_nat (String.length s).
Proof.
  induction s as [|a s IH]; simpl; intros H; [unfold BigInt; simpl; lia|].
  bool_facts. apply is_digit_val in H. specialize (IH H0).
  rewrite BigInt_cons. change (S (String.length s)) with (String.length (String a s)).
  simpl String.length. rewrite Nat2Z.inj_succ, Z.pow_succ_r by lia. nia.
Qed.

(** Two digit strings of one length and one value are the same string. *)
Lemma BigInt_inj a b :
  all_chars is_digit a = true -> all_chars is_digit b = true ->
  String.length a = String.length b -> BigInt a = BigInt b -> a = b.
Proof.
  revert b. induction a as [|x a IH]; intros [|y b] Ha Hb L E; simpl in *; try lia; [done|].
  injection L as L. bool_facts.
  rewrite !BigInt_cons in E. rewrite <- L in E.
  pose proof (BigInt_range a ltac:(done)) as Ra.
  pose proof (BigInt_range b ltac:(done)) as Rb. rewrite <- L in Rb.
  assert (digit_val x = digit_val y) as Hv by nia.
  assert (BigInt a = BigInt b) as Ev by nia.
  f_equal; [by apply digit_val_inj | auto].
Qed.

Lemma padEnd_value n s :
  (String.length s <= n)%nat ->
  BigInt (padEnd n s) = BigInt s * 10 ^ Z.of_nat (n - String.length s).
Proof.
  intros. unfold padEnd. rewrite BigInt_app, zeros_length, BigInt_zeros. lia.
Qed.
Lemma padStart_value n s : BigInt (padStart n s) = BigInt s.
Proof. unfold padStart. rewrite BigInt_app, BigInt_zeros. lia. Qed.

Lemma padEnd_digits n s :
  all_chars is_digit (padEnd n s) = all_chars is_digit s.
Proof.
  unfold padEnd. rewrite all_chars_app, zeros_digits. by destruct (all_chars _ s).
Qed.
Lemma padStart_digits n s :
  all_chars is_digit (padStart n s) = all_chars is_digit s.
Proof. unfold padStart. by rewrite all_chars_app, zeros_digits. Qed.

(** *** Stripping trailing zeros *)

Lemma strip_zeros_spec s :
  s = (strip_zeros s +:+ zeros (String.length s - String.length (strip_zeros s)))%string
  /\ (String.length (strip_zeros s) <= String.length s)%nat.
Proof.
  induction s as [|a s [IH IHl]]; [done|]. simpl.
  destruct (strip_zeros s) as [|b r] eqn:E; simpl in *.
  - rewrite Nat.sub_0_r in IH.
    destruct (Ascii.eqb_spec a "0") as [->|]; simpl.
    + split; [by rewrite IH at 1 | lia].
    + rewrite Nat.sub_0_r. split; [by rewrite IH at 1 | lia].
  - split; [by f_equal | lia].
Qed.

Lemma padEnd_strip_zeros s : padEnd (String.length s) (strip_zeros s) = s.
Proof. unfold padEnd. symmetry. apply strip_zeros_spec. Qed.

Lemma strip_zeros_length s : (String.length (strip_zeros s) <= String.length s)%nat.
Proof. apply strip_zeros_spec. Qed.

Lemma strip_zeros_all p s : all_chars p s = true -> all_chars p (strip_zeros s) = true.
Proof.
  intros H. destruct (strip_zeros_spec s) as [E _]. rewrite E, all_chars_app in H.
  by bool_facts.
Qed.

Lemma strip_zeros_app_zeros s n : strip_zeros (s +:+ zeros n) = strip_zeros s.
Proof.
  induction s as [|a s IH]; simpl.
  - induction n; simpl; [done|]. unfold zeros in IHn. by rewrite IHn.
  - by rewrite IH.
Qed.

Lemma strip_zeros_idem s : strip_zeros (strip_zeros s) = strip_zeros s.
Proof.
  destruct (strip_zeros_spec s) as [E _].
  rewrite <- (strip_zeros_app_zeros (strip_zeros s)
    (String.length s - String.length (strip_zeros s))). by rewrite <- E.
Qed.

(** *** toString *)

Lemma digits_of_app fuel n acc :
  digits_of fuel n acc = (digits_of fuel n "" +:+ acc)%string.
Proof.
  revert n acc. induction fuel as [|f IH]; intros n acc; simpl; [done|].
  destruct (n <? 10); simpl; [done|].
  rewrite IH. rewrite (IH (n / 10) (String _ "")). by rewrite <- str_app_assoc.
Qed.

(** [fuel] divisions by ten suffice for numbers below [2 ^ fuel]. *)
Lemma digits_of_step fuel n :
  digits_of (S fuel) n "" =
  (if (n <? 10)%Z then String (digit_char (n mod 10)) ""
   else digits_of fuel (n / 10)%Z "" +:+ String (digit_char (n mod 10)) "")%string.
Proof. simpl. destruct (n <? 10); [done|]. apply digits_of_app. Qed.

Lemma digits_of_correct fuel n :
  0 <= n < 2 ^ Z.of_nat fuel -> (0 < fuel)%nat ->
  BigInt (digits_of fuel n "") = n /\
  all_chars is_digit (digits_of fuel n "") = true /\
  (String.length (digits_of fuel n "") > 0)%nat.
Proof.
  revert n. induction fuel as [|f IH]; intros n Hn Hf; [lia|].
  rewrite digits_of_step. destruct (Z.ltb_spec n 10).
  - rewrite Z.mod_small by lia. unfold BigInt. simpl.
    rewrite digit_char_val, digit_char_digit by lia. repeat split; lia.
  - assert (0 <= n / 10 < 2 ^ Z.of_nat f) as Hd.
    { split; [apply Z.div_pos; lia|]. apply Z.div_lt_upper_bound; [lia|].
      rewrite Nat2Z.inj_succ, Z.pow_succ_r in Hn by lia. lia. }
    assert (0 < f)%nat.
    { destruct f; [|lia]. simpl in Hn. lia. }
    destruct (IH _ Hd ltac:(done)) as (Hv & Ha & Hl).
    pose proof (Z.mod_pos_bound n 10 ltac:(lia)).
    rewrite BigInt_app, all_chars_app, str_app_length, Hv, Ha. simpl.
    rewrite digit_char_digit by lia. unfold BigInt. simpl.
    rewrite digit_char_val by lia. repeat split; try lia.
    pose proof (Z.div_mod n 10). lia.
Qed.

Lemma log2_fuel n : 0 <= n -> n < 2 ^ Z.of_nat (S (Z.to_nat (Z.log2 n))).
Proof.
  intros. pose proof (Z.log2_nonneg n).
  rewrite Nat2Z.inj_succ, Z2Nat.id by lia.
  destruct (Z.eq_dec n 0) as [->|]; [done|]. apply Z.log2_spec. lia.
Qed.

Lemma nat_toString_value n : 0 <= n -> BigInt (nat_toString n) = n.
Proof. intros. apply digits_of_correct; [|lia]. split; [lia|]. by apply log2_fuel. Qed.
Lemma nat_toString_digits n : 0 <= n -> all_chars is_digit (nat_toString n) = true.
Proof. intros. apply digits_of_correct; [|lia]. split; [lia|]. by apply log2_fuel. Qed.
Lemma nat_toString_nonempty n : 0 <= n -> nat_toString n <> "".
Proof.
  intros H E. pose proof (digits_of_correct (S (Z.to_nat (Z.log2 n))) n
    (conj H (log2_fuel n H)) ltac:(lia)) as (_ & _ & L).
  unfold nat_toString in E. rewrite E in L. simpl in L. lia.
Qed.

Lemma digits_of_length fuel n k :
  0 <= n < 10 ^ Z.of_nat k -> (0 < k)%nat ->
  (String.length (digits_of fuel n "") <= k)%nat.
Proof.
  revert n k. induction fuel as [|f IH]; intros n k Hn Hk; [simpl; lia|].
  rewrite digits_of_step. destruct (Z.ltb_spec n 10); [simpl; lia|].
  rewrite str_app_length. simpl. destruct k as [|[|k]]; [lia|simpl in Hn; lia|].
  enough (String.length (digits_of f (n / 10) "") <= S k)%nat by lia.
  apply IH; [|lia]. split; [apply Z.div_pos; lia|].
  apply Z.div_lt_upper_bound; [lia|].
  rewrite (Nat2Z.inj_succ (S k)), Z.pow_succ_r in Hn by lia. lia.
Qed.

(** No leading zero: only zero itself starts with the digit 0. *)
Lemma digits_of_lead fuel n s :
  0 <= n < 2 ^ Z.of_nat fuel -> (0 < fuel)%nat ->
  digits_of fuel n "" = String "0" s -> n = 0.
Proof.
  revert n s. induction fuel as [|f IH]; intros n s Hn Hf E; [lia|].
  rewrite digits_of_step in E. destruct (Z.ltb_spec n 10).
  - rewrite Z.mod_small in E by lia. injection E as E _.
    pose proof (digit_char_val n ltac:(lia)) as V. rewrite E in V. simpl in V.
    change (digit_val "0") with 0 in V. lia.
  - assert (0 <= n / 10 < 2 ^ Z.of_nat f) as Hd.
    { split; [apply Z.div_pos; lia|]. apply Z.div_lt_upper_bound; [lia|].
      rewrite Nat2Z.inj_succ, Z.pow_succ_r in Hn by lia. lia. }
    assert (0 < f)%nat by (destruct f; [simpl in Hn; lia | lia]).
    destruct (digits_of_correct f (n / 10) Hd ltac:(done)) as (_ & _ & L).
    destruct (digits_of f (n / 10) "") as [|c r] eqn:D; simpl in *; [lia|].
    injection E as -> _. apply (IH _ _ Hd ltac:(done)) in D.
    pose proof (Z.div_le_lower_bound n 10 1). lia.
Qed.

Lemma nat_toString_lead n s : 0 <= n -> nat_toString n = String "0" s -> n = 0.
Proof. intros H. apply digits_of_lead; [|lia]. split; [lia|]. by apply log2_fuel. Qed.

(** *** The decimal regular expression *)

Lemma is_digits_spec s : is_digits s = true <-> s <> "" /\ all_chars is_digit s = true.
Proof. destruct s; simpl; [by split; [|intros [? _]] | intuition congruence]. Qed.

Lemma is_digit_not_dot a : is_digit a = true -> Ascii.eqb a "." = false.
Proof.
  intros H. apply Ascii.eqb_neq. intros ->. by vm_compute in H.
Qed.

(** *** Canonical numerals: no leading zero *)

Definition canonical (s : string) : Prop :=
  is_digits s = true /\ forall r, s = String "0" r -> r = ""%string.

Lemma nat_toString_canonical n : 0 <= n -> canonical (nat_toString n).
Proof.
  intros H. split.
  - apply is_digits_spec. split; [by apply nat_toString_nonempty | by apply nat_toString_digits].
  - intros r E. pose proof (nat_toString_lead n r H E) as ->.
    change (nat_toString 0) with "0"%string in E. by injection E.
Qed.

Lemma canonical_lower a s :
  canonical (String a s) -> s <> ""%string ->
  10 ^ Z.of_nat (String.length s) <= BigInt (String a s).
Proof.
  intros [Hd Hl] Hs. apply is_digits_spec in Hd as [_ Hd]. simpl in Hd. bool_facts.
  pose proof (is_digit_val _ H) as Hv. pose proof (BigInt_range _ H0).
  assert (digit_val a <> 0).
  { intros E. apply Hs, Hl. f_equal. apply digit_val_inj. by rewrite E. }
  rewrite BigInt_cons. nia.
Qed.

Lemma canonical_length a b :
  canonical a -> canonical b -> BigInt a = BigInt b ->
  (String.length a <= String.length b)%nat.
Proof.
  intros Ha Hb E. destruct a as [|x a]; [simpl; lia|]. destruct (decide (a = ""%string)) as [->|Na].
  - destruct Hb as [Hb _]. destruct b; [done | simpl; lia].
  - pose proof (canonical_lower x a Ha Na) as L.
    destruct Hb as [Hb _]. apply is_digits_spec in Hb as [_ Hb].
    pose proof (BigInt_range _ Hb). rewrite E in L. simpl.
    assert (10 ^ Z.of_nat (String.length a) < 10 ^ Z.of_nat (String.length b)) as P by lia.
    apply Z.pow_lt_mono_r_iff in P; lia.
Qed.

(** One value has one canonical spelling. *)
Lemma canonical_inj a b : canonical a -> canonical b -> BigInt a = BigInt b -> a = b.
Proof.
  intros Ha Hb E. apply BigInt_inj; [| | |done].
  - by apply is_digits_spec, Ha.
  - by apply is_digits_spec, Hb.
  - pose proof (canonical_length a b Ha Hb E).
    pose proof (canonical_length b a Hb Ha (eq_sym E)). lia.
Qed.

Lemma canonical_toString s n : 0 <= n -> canonical s -> BigInt s = n -> s = nat_toString n.
Proof.
  intros Hn Hs <-. apply canonical_inj; [done | by apply nat_toString_canonical|].
  by rewrite nat_toString_value.
Qed.


Definition decimal_text (w : string) (f : option string) : string :=
  match f with Some f => w +:+ "." +:+ f | None => w end.

(** What the match means: a string of digits, optionally a dot and digits. *)
Lemma decimal_exec_spec s w f :
  decimal_exec s = Some (w, f) <->
  s = decimal_text w f /\ is_digits w = true /\ (forall g, f = Some g -> is_digits g = true).
Proof.
  revert w f. induction s as [|a r IH]; intros w f; cbn [decimal_exec].
  - split; [done|]. intros (E & Hw & _). apply is_digits_spec in Hw as [Hne _].
    destruct w; [done|]. by destruct f.
  - split.
    + intros E. destruct (is_digit a) eqn:Da; [|done]. destruct r as [|b g].
      { simplify_eq. simpl. rewrite Da. done. }
      destruct (Ascii.eqb_spec b ".") as [->|Hb].
      * destruct (is_digits g) eqn:Dg; simplify_eq. simpl. rewrite Da.
        repeat split. intros ? [= ->]. done.
      * destruct (decimal_exec (String b g)) as [[w' f']|] eqn:E'; simplify_eq.
        destruct (proj1 (IH _ _) eq_refl) as (Es & Hw & Hf). rewrite Es.
        apply is_digits_spec in Hw as [_ Hw]. repeat split.
        -- by destruct f.
        -- simpl. by rewrite Da, Hw.
        -- done.
    + intros (E & Hw & Hf). apply is_digits_spec in Hw as [Hne Hw].
      destruct w as [|c w]; [done|]. simpl in Hw. bool_facts.
      assert (c = a /\ r = decimal_text w f) as [-> ->].
      { destruct f; simpl in E; by simplify_eq. }
      rewrite H. destruct w as [|d w].
      * destruct f as [g|]; simpl; [|done]. by rewrite (Hf g eq_refl).
      * assert (decimal_exec (decimal_text (String d w) f) = Some (String d w, f)) as E'.
        { apply IH. split; [done|]. split; [|done]. apply is_digits_spec. done. }
        assert (exists g, decimal_text (String d w) f = String d g) as [g Eg]
          by (destruct f; simpl; eauto).
        rewrite Eg in *. simpl in H0. bool_facts.
        rewrite is_digit_not_dot by done. by rewrite E'.
Qed.

Lemma split_on_dot_digits w :
  all_chars is_digit w = true -> split_on "." w = [w].
Proof.
  induction w as [|a w IH]; simpl; [done|]. intros. bool_facts.
  rewrite is_digit_not_dot by done. by rewrite IH.
Qed.

Lemma split_on_dot_decimal w f :
  all_chars is_digit w = true -> all_chars is_digit f = true ->
  split_on "." (w +:+ "." +:+ f) = [w; f].
Proof.
  intros Hw Hf. induction w as [|a w IH]; simpl in *.
  - by rewrite split_on_dot_digits.
  - bool_facts. rewrite is_digit_not_dot by done. by rewrite IH.
Qed.

(** ** Order: [a < b] on text, as the database orders ids. *)

Definition id_lt (a b : string) : bool :=
  match String.compare a b with Lt => true | _ => false end.

Lemma id_lt_asym a b : id_lt a b = true -> id_lt b a = false.
Proof.
  unfold id_lt. rewrite (String.compare_antisym b a).
  by destruct (String.compare a b).
Qed.

Lemma id_lt_total a b : id_lt a b = false -> id_lt b a = false -> a = b.
Proof.
  unfold id_lt. rewrite (String.compare_antisym b a).
  destruct (String.compare a b) eqn:E; try done. intros _ _.
  by apply String.compare_eq_iff.
Qed.

Lemma id_lt_String_lt a b : id_lt a b = true <-> String_as_OT.lt a b.
Proof.
  unfold id_lt. rewrite <- String_as_OT.cmp_lt. unfold String_as_OT.cmp.
  destruct (String.compare a b); naive_solver.
Qed.

Lemma id_lt_trans a b c : id_lt a b = true -> id_lt b c = true -> id_lt a c = true.
Proof. rewrite !id_lt_String_lt. apply String_as_OT.lt_trans. Qed.

Lemma id_lt_irrefl a : id_lt a a = false.
Proof. destruct (id_lt a a) eqn:E; [|done]. pose proof (id_lt_asym _ _ E). congruence. Qed.

#[export] Hint Resolve zeros_digits is_digit_val nat_toString_digits
  nat_toString_value nat_toString_nonempty strip_zeros_all : cosmos.
