(* ===== verification/Units.v ===== *)
(** Decimal amounts and integer base units: src/src/chains/units.ts (any number
    of decimals), src/src/swaps/swap-math.ts (Stellar's stroops, fees and
    slippage) and src/src/common/money.ts (sums that come back from SQL). *)

From S2P Require Import Prelude Text.
From stdpp Require Import base tactics list option strings.
From Stdlib Require Import ZArith Lia Ascii.

Open Scope Z_scope.

(** ** src/chains/units.ts *)

Definition decimalPlaces (amount : string) : nat :=
  match decimal_exec amount with
  | Some (_, Some f) => String.length f
  | _ => 0
  end.

Definition parseUnits (amount : string) (decimals : nat) : res Z :=
  match decimal_exec amount with
  | None => Throw JsError
  | Some (whole, f) =>
      let fraction := default ""%string f in
      if (decimals <? String.length fraction)%nat then Throw JsError
      else Ok (BigInt (whole +:+ padEnd decimals fraction))
  end.

Definition formatUnits (value : Z) (decimals : nat) : string :=
  let negative := value <? 0 in
  let digits := padStart (decimals + 1) (toString (if negative then - value else value)) in
  let whole := slice_to (String.length digits - decimals) digits in
  let fraction := strip_zeros (slice_from (String.length digits - decimals) digits) in
  let body := if bool_decide (fraction <> ""%string) then (whole +:+ "." +:+ fraction)%string else whole in
  if negative then String "-" body else body.

(** ** src/stellar/stellar.constants.ts and src/swaps/swap-math.ts *)

Definition STELLAR_DECIMALS : nat := 7.
Definition STROOP_SCALE : Z := 10000000.
Definition MAX_STROOPS : Z := Z.shiftl 1 63 - 1.

(** [STELLAR_AMOUNT_RE]: [/^\d+(\.\d{1,7})?$/]. *)
Definition STELLAR_AMOUNT_RE_test (amount : string) : bool :=
  match decimal_exec amount with
  | Some (_, Some f) => (String.length f <=? STELLAR_DECIMALS)%nat
  | Some (_, None) => true
  | None => false
  end.

Definition toStroops (amount : string) : res Z :=
  if negb (STELLAR_AMOUNT_RE_test amount) then Throw RangeError
  else
    let parts := split_on "." amount in
    let whole := default ""%string (parts !! 0%nat) in
    let frac := default ""%string (parts !! 1%nat) in
    let fracPadded := padEnd STELLAR_DECIMALS frac in
    let stroops := BigInt whole * STROOP_SCALE + BigInt fracPadded in
    if MAX_STROOPS <? stroops then Throw RangeError else Ok stroops.

Definition fromStroops (stroops : Z) : res string :=
  if stroops <? 0 then Throw RangeError
  else
    let whole := Z.quot stroops STROOP_SCALE in
    let frac := padStart STELLAR_DECIMALS (toString (Z.rem stroops STROOP_SCALE)) in
    let trimmed := strip_zeros frac in
    Ok (if bool_decide (trimmed <> ""%string)
        then (toString whole +:+ "." +:+ trimmed)%string else toString whole).

Definition sameAmount (a b : string) : bool :=
  match toStroops a, toStroops b with
  | Ok x, Ok y => x =? y
  | _, _ => false
  end.

(** [Number.isInteger(n) && 0 <= n <= max], the guard of the basis points. *)
Definition int_in_range (n : jsnum) (max : Z) : option Z :=
  match n with
  | NumInt z => if (0 <=? z) && (z <=? max) then Some z else None
  | NumOther => None
  end.

Definition computeFee (sendStroops : Z) (feeBps : jsnum) : res Z :=
  match int_in_range feeBps 10000 with
  | None => Throw RangeError
  | Some bps => Ok (Z.quot (sendStroops * bps) 10000)
  end.

Definition applySlippage (estimateStroops : Z) (slippageBps : jsnum) : res Z :=
  match int_in_range slippageBps 10000 with
  | None => Throw RangeError
  | Some bps => Ok (Z.quot (estimateStroops * (10000 - bps)) 10000)
  end.

(** ** src/common/money.ts *)

(** What a driver hands back for a [SUM(...::numeric)]: the cases
    [numericToString] tells apart. A number carries its own [toString]; an
    object what its overriding [toString] returns, if it has one. *)
Inductive driver_value :=
  | DNull
  | DString (s : string)
  | DNumber (text : string)
  | DBigint (z : Z)
  | DObject (custom : option (option string))
  | DOther.

(** [/^-?\d+(\.\d+)?$/.test(text)] *)
Definition numeric_re_test (text : string) : bool :=
  match text with
  | String "-" r => bool_decide (is_Some (decimal_exec r))
  | _ => bool_decide (is_Some (decimal_exec text))
  end.

Definition customToString (v : driver_value) : option string :=
  match v with DObject (Some (Some text)) => Some text | _ => None end.

Definition numericToString (v : driver_value) : option string :=
  let text :=
    match v with
    | DNull => None
    | DString s => Some s
    | DNumber t => Some t
    | DBigint z => Some (toString z)
    | DObject _ | DOther => customToString v
    end in
  match text with
  | Some t => if numeric_re_test t then Some t else None
  | None => None
  end.

(** The test for a body of zero: a 0, then optionally a dot and zeros. *)
Definition is_zero_body (body : string) : bool :=
  match body with
  | String "0" EmptyString => true
  | String "0" (String "." r) => all_chars (fun a => Ascii.eqb a "0") r
  | _ => false
  end.

Definition formatNumericAmount (v : driver_value) (places : nat) : string :=
  match numericToString v with
  | None => "0"
  | Some raw =>
      let negative := match raw with String "-" _ => true | _ => false end in
      let unsigned := if negative then slice_from 1 raw else raw in
      let parts := split_on "." unsigned in
      let whole := default ""%string (parts !! 0%nat) in
      let fraction := default ""%string (parts !! 1%nat) in
      let trimmed := strip_zeros (slice_to places fraction) in
      let body := if bool_decide (trimmed <> ""%string)
                  then (whole +:+ "." +:+ trimmed)%string else whole in
      if negative && is_zero_body body then "0"
      else if negative then String "-" body else body
  end.

(** ** Lemmas *)

Lemma decimal_exec_whole w :
  is_digits w = true -> decimal_exec w = Some (w, None).
Proof. intros. by apply decimal_exec_spec. Qed.

Lemma decimal_exec_fraction w f :
  is_digits w = true -> is_digits f = true ->
  decimal_exec (w +:+ "." +:+ f) = Some (w, Some f).
Proof. intros. apply decimal_exec_spec. repeat split; [done|]. by intros g [= <-]. Qed.

Lemma decimal_exec_digits s w f :
  decimal_exec s = Some (w, f) ->
  is_digits w = true /\ all_chars is_digit (default ""%string f) = true.
Proof.
  intros (_ & Hw & Hf)%decimal_exec_spec. split; [done|].
  destruct f as [f|]; [|done]. simpl. by apply is_digits_spec, Hf.
Qed.

Lemma parseUnits_Ok s d z :
  parseUnits s d = Ok z <->
  exists w f, decimal_exec s = Some (w, f)
    /\ (String.length (default "" f) <= d)%nat
    /\ z = BigInt (w +:+ padEnd d (default "" f)).
Proof.
  unfold parseUnits. destruct (decimal_exec s) as [[w f]|];
    [|split; [done | by intros (? & ? & ? & _)]].
  destruct (Nat.ltb_spec d (String.length (default ""%string f))).
  - split; [done|]. intros (? & ? & [= <- <-] & ? & ?). lia.
  - split; [intros [= <-]; eauto | by intros (? & ? & [= <- <-] & _ & ->)].
Qed.

Lemma parseUnits_nonneg s d z : parseUnits s d = Ok z -> 0 <= z.
Proof.
  rewrite parseUnits_Ok. intros (w & f & E & L & ->).
  destruct (decimal_exec_digits _ _ _ E) as [Hw Hf].
  apply BigInt_range. rewrite all_chars_app, padEnd_digits, Hf.
  apply is_digits_spec in Hw as [_ ->]. done.
Qed.

(** The value parsed, as whole units and the fraction scaled. *)
Lemma parseUnits_value w f d :
  (String.length f <= d)%nat ->
  BigInt (w +:+ padEnd d f) =
  BigInt w * 10 ^ Z.of_nat d + BigInt f * 10 ^ Z.of_nat (d - String.length f).
Proof. intros. rewrite BigInt_app, padEnd_length, padEnd_value by done. done. Qed.

(** The digits [formatUnits] splits: at least one before the point. *)
Lemma format_digits v d :
  0 <= v ->
  let digits := padStart (d + 1) (nat_toString v) in
  all_chars is_digit digits = true /\ BigInt digits = v
  /\ (d + 1 <= String.length digits)%nat.
Proof.
  intros H digits. subst digits. repeat split.
  - rewrite padStart_digits. auto with cosmos.
  - rewrite padStart_value. auto with cosmos.
  - rewrite padStart_length. lia.
Qed.

Lemma formatUnits_nonneg v d :
  0 <= v ->
  exists w f,
    formatUnits v d = decimal_text w (if bool_decide (f <> ""%string) then Some f else None)
    /\ is_digits w = true /\ all_chars is_digit f = true
    /\ (String.length f <= d)%nat
    /\ v = BigInt (w +:+ padEnd d f).
Proof.
  intros Hv. destruct (format_digits v d Hv) as (Ha & HB & HL).
  unfold formatUnits, toString.
  destruct (Z.ltb_spec v 0); [lia|].
  destruct (Z.ltb_spec v 0); [lia|].
  set (digits := padStart (d + 1) (nat_toString v)) in *.
  set (k := (String.length digits - d)%nat).
  exists (slice_to k digits), (strip_zeros (slice_from k digits)).
  pose proof (slice_app k digits) as Hs.
  assert (all_chars is_digit (slice_to k digits) = true /\
          all_chars is_digit (slice_from k digits) = true) as [H1 H2].
  { rewrite <- Hs, all_chars_app in Ha. by bool_facts. }
  assert (String.length (slice_from k digits) = d) as Ld.
  { rewrite slice_from_length. subst k. lia. }
  assert (String.length (slice_to k digits) > 0)%nat as Lw.
  { rewrite slice_to_length. subst k. lia. }
  repeat split.
  - by case_bool_decide.
  - apply is_digits_spec. split; [|done]. intros E. rewrite E in Lw. simpl in Lw. lia.
  - auto with cosmos.
  - rewrite <- Ld. apply strip_zeros_length.
  - rewrite <- Ld at 1. rewrite padEnd_strip_zeros, Hs. done.
Qed.

Lemma parse_decimal_text w f d :
  is_digits w = true -> all_chars is_digit f = true ->
  (String.length f <= d)%nat ->
  parseUnits (decimal_text w (if bool_decide (f <> ""%string) then Some f else None)) d
  = Ok (BigInt (w +:+ padEnd d f)).
Proof.
  intros Hw Hf L. apply parseUnits_Ok. case_bool_decide as E; simpl.
  - exists w, (Some f). split; [|done]. apply decimal_exec_fraction; [done|].
    by apply is_digits_spec.
  - subst f. exists w, None. split; [|done].
    by apply decimal_exec_whole.
Qed.

Lemma parse_format_units v d : 0 <= v -> parseUnits (formatUnits v d) d = Ok v.
Proof.
  intros Hv. destruct (formatUnits_nonneg v d Hv) as (w & f & -> & Hw & Hf & L & ->).
  by apply parse_decimal_text.
Qed.

(** The stored spelling is canonical: two spellings of one amount format alike,
    so formatting after parsing is a normal form. *)
Lemma format_parse_idem s d v :
  parseUnits s d = Ok v -> parseUnits (formatUnits v d) d = parseUnits s d.
Proof. intros H. rewrite H. apply parse_format_units. eauto using parseUnits_nonneg. Qed.

(** *** Stroops *)

Lemma stellar_re_parse s :
  STELLAR_AMOUNT_RE_test s = is_ok (parseUnits s STELLAR_DECIMALS).
Proof.
  unfold STELLAR_AMOUNT_RE_test, parseUnits.
  destruct (decimal_exec s) as [[w [f|]]|]; simpl; [|done|done].
  destruct (Nat.leb_spec (String.length f) STELLAR_DECIMALS),
    (Nat.ltb_spec STELLAR_DECIMALS (String.length f)); simpl; (done || lia).
Qed.

Lemma split_on_decimal s w f :
  decimal_exec s = Some (w, f) ->
  default ""%string (split_on "." s !! 0%nat) = w /\
  default ""%string (split_on "." s !! 1%nat) = default ""%string f.
Proof.
  intros E. pose proof (decimal_exec_digits _ _ _ E) as [Hw Hf].
  apply is_digits_spec in Hw as [_ Hw].
  apply decimal_exec_spec in E as (-> & _ & _). destruct f as [f|]; unfold decimal_text.
  - by rewrite split_on_dot_decimal.
  - by rewrite split_on_dot_digits.
Qed.

(** [toStroops] is [parseUnits] at seven decimals, bounded by int64. *)
Lemma toStroops_parseUnits s :
  toStroops s =
  match parseUnits s STELLAR_DECIMALS with
  | Ok v => if MAX_STROOPS <? v then Throw RangeError else Ok v
  | Throw _ => Throw RangeError
  end.
Proof.
  unfold toStroops. rewrite stellar_re_parse.
  destruct (parseUnits s STELLAR_DECIMALS) as [v|e] eqn:E; [|done]. simpl negb. cbv iota.
  apply parseUnits_Ok in E as (w & f & E & L & ->).
  destruct (split_on_decimal _ _ _ E) as [-> ->].
  assert (BigInt w * STROOP_SCALE + BigInt (padEnd STELLAR_DECIMALS (default "" f))
    = BigInt (w +:+ padEnd STELLAR_DECIMALS (default "" f))) as ->; [|done].
  rewrite BigInt_app, padEnd_length by done. done.
Qed.

Lemma toStroops_range s v : toStroops s = Ok v -> 0 <= v <= MAX_STROOPS.
Proof.
  rewrite toStroops_parseUnits. destruct (parseUnits s _) eqn:E; [|done].
  destruct (Z.ltb_spec MAX_STROOPS a); [done|]. intros [= <-].
  apply parseUnits_nonneg in E. lia.
Qed.

Lemma pow_STROOP : 10 ^ Z.of_nat STELLAR_DECIMALS = STROOP_SCALE.
Proof. done. Qed.

(** The fraction of a stroop count always has seven digits. *)
Lemma stroop_fraction_length m :
  0 <= m < STROOP_SCALE ->
  String.length (padStart STELLAR_DECIMALS (nat_toString m)) = STELLAR_DECIMALS.
Proof.
  intros Hm. rewrite padStart_length. unfold nat_toString.
  pose proof (digits_of_length (S (Z.to_nat (Z.log2 m))) m STELLAR_DECIMALS Hm).
  unfold STELLAR_DECIMALS in *. lia.
Qed.

(** The whole part cut from padded digits starts with a zero only when it is 0. *)
Lemma padStart_lead v r :
  0 <= v ->
  let digits := padStart (STELLAR_DECIMALS + 1) (nat_toString v) in
  slice_to (String.length digits - STELLAR_DECIMALS) digits = String "0" r -> r = ""%string.
Proof.
  intros Hv digits. subst digits. rewrite padStart_length.
  destruct (Nat.le_gt_cases (STELLAR_DECIMALS + 1) (String.length (nat_toString v))) as [L|L].
  - rewrite Nat.max_r by done. unfold padStart. rewrite (proj2 (Nat.sub_0_le _ _) L). simpl.
    intros E. destruct (nat_toString v) as [|c s] eqn:D; [done|].
    destruct (String.length (String c s) - STELLAR_DECIMALS)%nat; [done|].
    injection E as -> _. pose proof (nat_toString_lead _ _ Hv D) as ->.
    change (nat_toString 0) with "0"%string in D. injection D as <-.
    simpl in L. unfold STELLAR_DECIMALS in L. lia.
  - rewrite Nat.max_l by lia.
    replace (STELLAR_DECIMALS + 1 - STELLAR_DECIMALS)%nat with 1%nat by lia.
    destruct (padStart _ _) as [|c s]; simpl; [done|]. by intros [= -> <-].
Qed.

(** The text [fromStroops] writes, and what it denotes. *)
Lemma fromStroops_text v :
  0 <= v ->
  exists f,
    fromStroops v = Ok (decimal_text (nat_toString (v / STROOP_SCALE))
      (if bool_decide (f <> ""%string) then Some f else None))
    /\ f = strip_zeros (padStart STELLAR_DECIMALS (nat_toString (v mod STROOP_SCALE)))
    /\ all_chars is_digit f = true /\ (String.length f <= STELLAR_DECIMALS)%nat
    /\ v = BigInt (nat_toString (v / STROOP_SCALE) +:+ padEnd STELLAR_DECIMALS f).
Proof.
  intros Hv. unfold fromStroops, toString.
  assert (0 < STROOP_SCALE) by done.
  rewrite Z.quot_div_nonneg, Z.rem_mod_nonneg by lia.
  pose proof (Z.mod_pos_bound v STROOP_SCALE ltac:(done)) as Hm.
  pose proof (Z.div_pos v STROOP_SCALE Hv ltac:(done)) as Hd.
  destruct (Z.ltb_spec v 0); [lia|].
  destruct (Z.ltb_spec (v mod STROOP_SCALE) 0); [lia|].
  destruct (Z.ltb_spec (v / STROOP_SCALE) 0); [lia|].
  set (fr := padStart STELLAR_DECIMALS (nat_toString (v mod STROOP_SCALE))).
  assert (String.length fr = STELLAR_DECIMALS) as Lf by by apply stroop_fraction_length.
  assert (all_chars is_digit fr = true) as Df.
  { subst fr. rewrite padStart_digits. apply nat_toString_digits. lia. }
  exists (strip_zeros fr). repeat split.
  - by case_bool_decide.
  - auto with cosmos.
  - rewrite <- Lf. apply strip_zeros_length.
  - rewrite <- Lf at 1. rewrite padEnd_strip_zeros, BigInt_app, Lf, pow_STROOP.
    subst fr. rewrite padStart_value, !nat_toString_value by lia.
    pose proof (Z.div_mod v STROOP_SCALE). lia.
Qed.

Lemma nat_toString_is_digits n : 0 <= n -> is_digits (nat_toString n) = true.
Proof. intros. by apply nat_toString_canonical. Qed.
#[export] Hint Resolve nat_toString_is_digits : cosmos.

Lemma fromStroops_parse v :
  0 <= v -> exists s, fromStroops v = Ok s /\ parseUnits s STELLAR_DECIMALS = Ok v.
Proof.
  intros Hv. destruct (fromStroops_text v Hv) as (f & -> & _ & Hf & L & E).
  eexists; split; [done|]. rewrite parse_decimal_text, <- E; [done| |done|done].
  by apply nat_toString_is_digits, Z.div_pos.
Qed.

Lemma to_from_stroops v :
  0 <= v <= MAX_STROOPS -> exists s, fromStroops v = Ok s /\ toStroops s = Ok v.
Proof.
  intros [H1 H2]. destruct (fromStroops_parse v H1) as (s & E & P).
  exists s. split; [done|]. rewrite toStroops_parseUnits, P.
  destruct (Z.ltb_spec MAX_STROOPS v); [lia | done].
Qed.


(** Stellar's formatter is the general one at seven decimals. *)
Lemma fromStroops_formatUnits v s :
  0 <= v -> fromStroops v = Ok s -> s = formatUnits v STELLAR_DECIMALS.
Proof.
  intros Hv E. destruct (fromStroops_text v Hv) as (f & E' & -> & _).
  rewrite E' in E. injection E as <-. clear E'.
  unfold formatUnits. destruct (Z.ltb_spec v 0); [lia|]. unfold toString.
  destruct (Z.ltb_spec v 0); [lia|].
  destruct (format_digits v STELLAR_DECIMALS Hv) as (Ha & HB & HL).
  set (digits := padStart (STELLAR_DECIMALS + 1) (nat_toString v)) in *.
  set (k := (String.length digits - STELLAR_DECIMALS)%nat).
  pose proof (slice_app k digits) as Hs.
  assert (all_chars is_digit (slice_to k digits) = true /\
          all_chars is_digit (slice_from k digits) = true) as [H1 H2].
  { rewrite <- Hs, all_chars_app in Ha. by bool_facts. }
  assert (String.length (slice_from k digits) = STELLAR_DECIMALS) as Ld.
  { rewrite slice_from_length. subst k. lia. }
  assert (String.length (slice_to k digits) = k) as Lk.
  { rewrite slice_to_length. subst k. lia. }
  pose proof (BigInt_range _ H2) as Rf. rewrite Ld, pow_STROOP in Rf.
  assert (v = STROOP_SCALE * BigInt (slice_to k digits) + BigInt (slice_from k digits)) as Ev.
  { rewrite <- HB at 1. rewrite <- Hs at 1. rewrite BigInt_app, Ld, pow_STROOP. lia. }
  assert (v / STROOP_SCALE = BigInt (slice_to k digits)) as Eq by
    (symmetry; eapply Z.div_unique; [left; exact Rf | exact Ev]).
  assert (v mod STROOP_SCALE = BigInt (slice_from k digits)) as Er by
    (symmetry; eapply Z.mod_unique; [left; exact Rf | exact Ev]).
  assert (slice_to k digits = nat_toString (v / STROOP_SCALE)) as ->.
  { apply canonical_toString; [apply Z.div_pos; done| |done]. split.
    - apply is_digits_spec. split; [|done]. intros E. rewrite E in Lk. simpl in Lk.
      unfold STELLAR_DECIMALS in *. lia.
    - intros r E. subst digits. by apply (padStart_lead v r). }
  assert (padStart STELLAR_DECIMALS (nat_toString (v mod STROOP_SCALE))
          = slice_from k digits) as ->.
  { apply BigInt_inj; [| done | |].
    - rewrite padStart_digits. apply nat_toString_digits. by apply Z.mod_pos_bound.
    - rewrite Ld. by apply stroop_fraction_length, Z.mod_pos_bound.
    - rewrite padStart_value, nat_toString_value, Er; [done|]. by apply Z.mod_pos_bound. }
  by case_bool_decide.
Qed.

(** *** Basis points *)

Lemma int_in_range_Some n m z :
  int_in_range n m = Some z <-> n = NumInt z /\ 0 <= z <= m.
Proof.
  unfold int_in_range. destruct n as [y|]; [|by split; [|intros [? _]]].
  destruct (Z.leb_spec 0 y), (Z.leb_spec y m); simpl;
    (split; [intros E; try discriminate E; injection E as ->; auto with lia
            | intros [[= ->] ?]; first [done | lia]]).
Qed.

Lemma quot_bps_bounds x bps :
  0 <= x -> 0 <= bps <= 10000 -> 0 <= Z.quot (x * bps) 10000 <= x.
Proof.
  intros. rewrite Z.quot_div_nonneg by nia. split; [apply Z.div_pos; nia|].
  apply Z.div_le_upper_bound; nia.
Qed.

(** The exact rounding: the largest integer whose 10,000 fold stays within the
    stated rate. *)
Lemma quot_bps_floor x bps :
  0 <= x -> 0 <= bps ->
  10000 * Z.quot (x * bps) 10000 <= x * bps < 10000 * (Z.quot (x * bps) 10000 + 1).
Proof.
  intros. rewrite Z.quot_div_nonneg by nia.
  pose proof (Z.mul_div_le (x * bps) 10000).
  pose proof (Z.mul_succ_div_gt (x * bps) 10000). lia.
Qed.

#[export] Hint Resolve parse_format_units parseUnits_nonneg toStroops_range : cosmos.

(** ** Properties *)

(** Decimal amounts and base units convert without loss. Formatting an
    integer number of base units and parsing it back gives the same integer;
    parsing rejects, instead of truncating, an amount written with more decimals
    than the asset has; and reformatting a parsed amount parses to the same
    integer, so the stored spelling is a normal form. *)
Theorem units_roundtrip (v : Z) (s : string) (d : nat) :
  0 <= v ->
  parseUnits (formatUnits v d) d = Ok v
  /\ formatUnits (- v) d = (if v =? 0 then formatUnits v d
                            else String "-" (formatUnits v d))
  /\ ((d < decimalPlaces s)%nat -> parseUnits s d = Throw JsError)
  /\ (forall u, parseUnits s d = Ok u ->
        (decimalPlaces s <= d)%nat /\ parseUnits (formatUnits u d) d = parseUnits s d).
Proof.
  intros Hv. split; [by apply parse_format_units|]. split.
  { unfold formatUnits. destruct (Z.eqb_spec v 0) as [->|]; [done|].
    destruct (Z.ltb_spec (- v) 0), (Z.ltb_spec v 0); try lia.
    by rewrite Z.opp_involutive. }
  unfold decimalPlaces. split.
  - unfold parseUnits. destruct (decimal_exec s) as [[w [f|]]|]; simpl; intros Hd; [|lia|lia].
    by destruct (Nat.ltb_spec d (String.length f)); [|lia].
  - intros u Hu. split; [|by apply (format_parse_idem s d u)].
    apply parseUnits_Ok in Hu as (w & f & -> & L & _). destruct f; simpl in *; lia.
Qed.

Lemma units_roundtrip_witness :
  0 <= 1500000 /\ parseUnits (formatUnits 1500000 6) 6 = Ok 1500000
  /\ formatUnits 1500000 6 = "1.5"%string.
Proof.
  split; [lia|]. split; [|reflexivity].
  exact (proj1 (units_roundtrip 1500000 "2.50" 6 ltac:(lia))).
Defined.

(** the stroop arithmetic is exact and bounded by int64. An amount is
    accepted exactly when it is a decimal with at most seven places whose value
    is at most 2^63 - 1 stroops, it is then [parseUnits] at seven decimals, every
    representable stroop count survives formatting and parsing, and two amounts
    compare equal exactly when their stroop counts are the same. *)
Theorem stroops_exact (s t : string) (v : Z) :
  (toStroops s = Ok v <-> parseUnits s STELLAR_DECIMALS = Ok v /\ v <= 2 ^ 63 - 1)
  /\ (toStroops s = Ok v -> exists u, fromStroops v = Ok u /\ toStroops u = Ok v
        /\ u = formatUnits v STELLAR_DECIMALS)
  /\ (sameAmount s t = true <-> exists x, toStroops s = Ok x /\ toStroops t = Ok x).
Proof.
  split; [|split].
  - rewrite toStroops_parseUnits. change MAX_STROOPS with (2 ^ 63 - 1).
    destruct (parseUnits s _) as [a|]; [|split; [done | by intros [? _]]].
    destruct (Z.ltb_spec (2 ^ 63 - 1) a); split.
    + by intros [=].
    + intros [[= <-] ?]. lia.
    + intros [= <-]. split; [done | lia].
    + by intros [[= <-] ?].
  - intros H. apply toStroops_range in H as [H0 H1].
    destruct (to_from_stroops v (conj H0 H1)) as (u & E & P). exists u.
    split; [done|]. split; [done|]. by apply fromStroops_formatUnits.
  - unfold sameAmount. destruct (toStroops s), (toStroops t); split;
      try done; try (by intros (x & [=] & _)); try (by intros (x & _ & [=])).
    + intros. bool_facts. naive_solver.
    + intros (x & [= ->] & [= ->]). apply Z.eqb_refl.
Qed.
