(* ===== verification/MerchantFee.v ===== *)
(** The merchant fee and the plan commission: src/src/common/merchant-fee/
    (terms, split, stored record), src/src/payment-intents/payment-legs.ts (what
    an intent's payment carries on-chain) and src/src/common/plan-commission.ts. *)

From S2P Require Import Prelude Text Units.
From stdpp Require Import base tactics list option strings.
From Stdlib Require Import ZArith Lia Ascii.

Open Scope Z_scope.

(** ** JSON columns *)

#[local] Set Warnings "-register-all".
Inductive json :=
  | JNull
  | JBool (b : bool)
  | JNumber (n : jsnum)
  | JString (s : string)
  | JArray (l : list json)
  | JObject (fields : list (string * json)).

(** [r[key]], for the objects a JSON column holds. *)
Fixpoint field (key : string) (fields : list (string * json)) : option json :=
  match fields with
  | [] => None
  | (k, v) :: rest => if bool_decide (k = key) then Some v else field key rest
  end.

(** ** Terms *)

Definition MAX_MERCHANT_FEE_BPS : Z := 1000.
Definition MERCHANT_FEE_BPS_DENOMINATOR : Z := 10000.

Inductive MerchantFeePayer := recipient | payer.
#[export] Instance MerchantFeePayer_eq_dec : EqDecision MerchantFeePayer.
Proof. solve_decision. Defined.
Definition DEFAULT_MERCHANT_FEE_PAYER : MerchantFeePayer := recipient.

Record MerchantFeeDto := mkMerchantFeeDto {
  dto_bps : option jsnum;
  dto_fixed : option string;
  dto_wallet : string;
  dto_paidBy : option MerchantFeePayer
}.

Record MerchantFeeTerms := mkMerchantFeeTerms {
  bps : Z;
  fixed : Z;
  wallet : string;
  paidBy : MerchantFeePayer
}.

Record MerchantFeeWalletRule := mkWalletRule {
  isValid : string -> bool;
  normalize : string -> string
}.

Record MerchantFeeSplit := mkSplit { fee : Z; net : Z; total : Z }.

Record MerchantFeeRecord := mkFeeRecord {
  rec_bps : jsnum;
  rec_fixed : string;
  rec_amount : string;
  rec_asset : string;
  rec_wallet : string;
  rec_paidBy : MerchantFeePayer
}.

#[export] Instance MerchantFeeTerms_eq_dec : EqDecision MerchantFeeTerms.
Proof. solve_decision. Defined.
#[export] Instance MerchantFeeRecord_eq_dec : EqDecision MerchantFeeRecord.
Proof. solve_decision. Defined.

Definition resolveMerchantFee (dto : option MerchantFeeDto) (decimals : nat)
    (rule : MerchantFeeWalletRule) : res (option MerchantFeeTerms) :=
  match dto with
  | None => Ok None
  | Some dto =>
      match int_in_range (default (NumInt 0) (dto_bps dto)) MAX_MERCHANT_FEE_BPS with
      | None => Throw (badRequest ValidationFailed)
      | Some bps =>
          match parseUnits (default "0"%string (dto_fixed dto)) decimals with
          | Throw _ => Throw (badRequest InvalidAmount)
          | Ok fixed =>
              if (bps =? 0) && (fixed =? 0) then Throw (badRequest ValidationFailed)
              else
                let wallet := trim (dto_wallet dto) in
                if negb (isValid rule wallet) then Throw (badRequest ValidationFailed)
                else Ok (Some (mkMerchantFeeTerms bps fixed (normalize rule wallet)
                       (default DEFAULT_MERCHANT_FEE_PAYER (dto_paidBy dto))))
          end
      end
  end.

Definition splitMerchantFee (amount : Z) (terms : option MerchantFeeTerms) : MerchantFeeSplit :=
  match terms with
  | None => mkSplit 0 amount amount
  | Some terms =>
      let fee := Z.quot (amount * bps terms) MERCHANT_FEE_BPS_DENOMINATOR + fixed terms in
      match paidBy terms with
      | payer => mkSplit fee amount (amount + fee)
      | recipient => mkSplit fee (amount - fee) amount
      end
  end.

Definition assertMerchantFeeCovered (split : MerchantFeeSplit)
    (terms : option MerchantFeeTerms) : res unit :=
  match terms with
  | None => Ok tt
  | Some _ =>
      if fee split <=? 0 then Throw (badRequest InvalidAmount)
      else if net split <=? 0 then Throw (badRequest InvalidAmount)
      else Ok tt
  end.

Definition merchantFeeRecord (terms : MerchantFeeTerms) (fee : Z) (decimals : nat)
    (asset : string) : MerchantFeeRecord :=
  mkFeeRecord (NumInt (bps terms)) (formatUnits (fixed terms) decimals)
    (formatUnits fee decimals) asset (wallet terms) (paidBy terms).

(** The record as the JSON column stores it. *)
Definition payer_text (p : MerchantFeePayer) : string :=
  match p with recipient => "recipient" | payer => "payer" end.

Definition record_json (r : MerchantFeeRecord) : json :=
  JObject [("bps", JNumber (rec_bps r)); ("fixed", JString (rec_fixed r));
           ("amount", JString (rec_amount r)); ("asset", JString (rec_asset r));
           ("wallet", JString (rec_wallet r));
           ("paidBy", JString (payer_text (rec_paidBy r)))]%string.

(** [MERCHANT_FEE_PAYERS.includes(value)] *)
Definition read_payer (v : option json) : option MerchantFeePayer :=
  match v with
  | Some (JString "recipient") => Some recipient
  | Some (JString "payer") => Some payer
  | _ => None
  end%string.

Definition readMerchantFeeRecord (value : json) : option MerchantFeeRecord :=
  match value with
  | JObject r =>
      match field "bps" r, field "fixed" r, field "amount" r, field "asset" r,
            field "wallet" r, read_payer (field "paidBy" r) with
      | Some (JNumber b), Some (JString f), Some (JString a), Some (JString s),
        Some (JString w), Some p => Some (mkFeeRecord b f a s w p)
      | _, _, _, _, _, _ => None
      end
  | _ => None
  end.

Definition sameMerchantFee (stored : json) (terms : option MerchantFeeTerms)
    (decimals : nat) : bool :=
  let record := readMerchantFeeRecord stored in
  match terms with
  | None => bool_decide (record = None)
  | Some terms =>
      match record with
      | None => false
      | Some record =>
          match parseUnits (rec_fixed record) decimals with
          | Throw _ => false
          | Ok f =>
              num_strict_eq (rec_bps record) (NumInt (bps terms))
              && (f =? fixed terms)
              && bool_decide (rec_wallet record = wallet terms)
              && bool_decide (rec_paidBy record = paidBy terms)
          end
      end
  end.

(** ** src/src/payment-intents/payment-legs.ts *)

Record PaymentLegs := mkLegs {
  destinationAmount : option string;
  legs_fee : option (string * string)   (* wallet, amount *)
}.

Definition paymentLegs (amount : option string) (merchantFee : json) (decimals : nat)
    : res PaymentLegs :=
  match readMerchantFeeRecord merchantFee, amount with
  | Some record, Some amt =>
      amount ← parseUnits amt decimals;
      fee ← parseUnits (rec_amount record) decimals;
      let destination :=
        match rec_paidBy record with recipient => amount - fee | payer => amount end in
      Ok (mkLegs (Some (formatUnits destination decimals))
                 (Some (rec_wallet record, rec_amount record)))
  | _, _ => Ok (mkLegs amount None)
  end.

(** ** src/src/common/plan-commission.ts *)

Record CommissionConfig := mkCommissionConfig {
  nodeEnv : string;
  swap_feeWallet : string;
  swap_feeBps : Z;
  swapCommissionDevWaiver : bool
}.

Definition resolvePlanCommissionBps (config : CommissionConfig)
    (planSwapFeeBps : option Z) : res Z :=
  match planSwapFeeBps with
  | Some b => Ok b
  | None =>
      if bool_decide (nodeEnv config = "production"%string)
      then Throw (unavailable Misconfigured)
      else Ok (if truthy (Some (swap_feeWallet config)) then swap_feeBps config else 0)
  end.

Definition commissionWithRecipient (config : CommissionConfig) (feeBps : Z)
    (recipient : string) : res Z :=
  if (feeBps =? 0) || truthy (Some recipient) then Ok feeBps
  else if swapCommissionDevWaiver config then Ok 0
  else Throw (unavailable Misconfigured).

(** ** Lemmas *)

Lemma resolve_Some dto d rule t :
  resolveMerchantFee dto d rule = Ok (Some t) ->
  0 <= bps t <= MAX_MERCHANT_FEE_BPS /\ 0 <= fixed t /\ (bps t <> 0 \/ fixed t <> 0)
  /\ exists w, isValid rule w = true /\ wallet t = normalize rule w.
Proof.
  unfold resolveMerchantFee. intros H. destruct dto as [dto|]; [|done].
  destruct (int_in_range _ _) as [b|] eqn:Eb; [|done].
  destruct (parseUnits _ _) as [f|] eqn:Ef; [|done].
  destruct ((b =? 0) && (f =? 0)) eqn:E0; [done|].
  destruct (isValid rule _) eqn:Ev; [|done]. injection H as <-. simpl.
  apply int_in_range_Some in Eb as [_ Hb]. apply parseUnits_nonneg in Ef.
  split; [done|]. split; [done|]. split.
  - apply andb_false_iff in E0 as [?|?]; bool_facts; auto.
  - eauto.
Qed.

Lemma read_record_json r : readMerchantFeeRecord (record_json r) = Some r.
Proof. by destruct r as [? ? ? ? ? []]. Qed.

Lemma split_total a t : total (splitMerchantFee a t) = net (splitMerchantFee a t) + fee (splitMerchantFee a t).
Proof. destruct t as [[b f w []]|]; simpl; lia. Qed.

Lemma covered_Ok s t u :
  assertMerchantFeeCovered s (Some t) = Ok u -> 0 < fee s /\ 0 < net s.
Proof.
  simpl. destruct (Z.leb_spec (fee s) 0); [done|].
  destruct (Z.leb_spec (net s) 0); [done|]. lia.
Qed.

Lemma split_fee_nonneg a t :
  0 <= a -> 0 <= bps t -> 0 <= fixed t -> 0 <= fee (splitMerchantFee a (Some t)).
Proof.
  intros Ha Hb Hf. pose proof (quot_bps_floor a (bps t) Ha Hb) as Hq.
  unfold splitMerchantFee, MERCHANT_FEE_BPS_DENOMINATOR.
  destruct (paidBy t); simpl; nia.
Qed.

#[export] Hint Resolve read_record_json split_total : cosmos.

(** ** Properties *)

(** a merchant fee never creates or loses money and never exceeds its
    stated rate. For terms a request resolves to, the payer's total is exactly
    the net plus the fee; the side that does not pay the fee gets the whole
    amount; the percentage part is the stated basis points (at most 10%) of the
    amount rounded down; and a covered split leaves both a fee and a net above
    zero. *)
Theorem merchant_fee_split (dto : MerchantFeeDto) (d : nat) (rule : MerchantFeeWalletRule)
    (t : MerchantFeeTerms) (amount : Z) :
  resolveMerchantFee (Some dto) d rule = Ok (Some t) ->
  0 <= amount ->
  let s := splitMerchantFee amount (Some t) in
  total s = net s + fee s
  /\ (paidBy t = payer -> net s = amount) /\ (paidBy t = recipient -> total s = amount)
  /\ 10000 * (fee s - fixed t) <= amount * bps t < 10000 * (fee s - fixed t + 1)
  /\ 10 * (fee s - fixed t) <= amount
  /\ (assertMerchantFeeCovered s (Some t) = Ok tt <-> 0 < fee s /\ 0 < net s).
Proof.
  intros H Ha s. apply resolve_Some in H as (Hb & Hf & _ & _).
  pose proof (quot_bps_floor amount (bps t) Ha ltac:(lia)) as Hq.
  assert (fee s - fixed t = Z.quot (amount * bps t) 10000) as Ef.
  { subst s. unfold splitMerchantFee, MERCHANT_FEE_BPS_DENOMINATOR. destruct (paidBy t); simpl; lia. }
  split; [apply split_total|].
  split; [by subst s; unfold splitMerchantFee; intros ->|].
  split; [by subst s; unfold splitMerchantFee; intros ->|].
  rewrite Ef. split; [lia|]. split; [unfold MAX_MERCHANT_FEE_BPS in Hb; nia|]. split.
  - apply covered_Ok.
  - intros [H1 H2]. simpl. destruct (Z.leb_spec (fee s) 0); [lia|].
    destruct (Z.leb_spec (net s) 0); [lia | done].
Qed.

Definition any_wallet : MerchantFeeWalletRule := mkWalletRule (fun w => bool_decide (w <> "")%string) (fun w => w).

Lemma merchant_fee_split_witness :
  fee (splitMerchantFee 1000 (Some (mkMerchantFeeTerms 250 5 "GFEE" recipient))) = 30
  /\ net (splitMerchantFee 1000 (Some (mkMerchantFeeTerms 250 5 "GFEE" recipient))) = 970
  /\ total (splitMerchantFee 1000 (Some (mkMerchantFeeTerms 250 5 "GFEE" recipient))) =
     net (splitMerchantFee 1000 (Some (mkMerchantFeeTerms 250 5 "GFEE" recipient))) +
     fee (splitMerchantFee 1000 (Some (mkMerchantFeeTerms 250 5 "GFEE" recipient))).
Proof.
  split; [reflexivity|]. split; [reflexivity|].
  exact (proj1 (merchant_fee_split
    (mkMerchantFeeDto (Some (NumInt 250)) (Some "0.0000005"%string) " GFEE " None) 7 any_wallet
    (mkMerchantFeeTerms 250 5 "GFEE" recipient) 1000 eq_refl ltac:(lia))).
Defined.

(** The stored record of a merchant fee identifies its terms exactly. The
    record read back from the JSON column is the one written, and a replay
    matches it precisely when it asks for the same percentage, fixed part,
    wallet and payer; a request without a fee matches no row that has one. *)
Theorem merchant_fee_record_identity (t t' : MerchantFeeTerms) (fee : Z) (d : nat) (asset : string) :
  0 <= fixed t ->
  let stored := record_json (merchantFeeRecord t fee d asset) in
  readMerchantFeeRecord stored = Some (merchantFeeRecord t fee d asset)
  /\ (sameMerchantFee stored (Some t') d = true <-> t = t')
  /\ sameMerchantFee stored None d = false
  /\ sameMerchantFee JNull None d = true /\ sameMerchantFee JNull (Some t') d = false.
Proof.
  intros Hf stored. subst stored. split; [apply read_record_json|].
  split; [|by destruct t as [? ? ? []]].
  unfold sameMerchantFee. rewrite read_record_json. unfold merchantFeeRecord. cbn [rec_fixed rec_bps rec_wallet rec_paidBy].
  rewrite parse_format_units by done. destruct t as [b f w p], t' as [b' f' w' p']. simpl.
  split.
  - intros H. bool_facts. by subst.
  - intros [= -> -> -> ->]. rewrite !Z.eqb_refl, !bool_decide_true by done. done.
Qed.

Lemma merchant_fee_record_identity_witness :
  0 <= fixed (mkMerchantFeeTerms 250 5 "GFEE" payer)
  /\ sameMerchantFee (record_json (merchantFeeRecord (mkMerchantFeeTerms 250 5 "GFEE" payer) 30 7 "native")) None 7 = false.
Proof.
  split; [simpl; lia|].
  destruct (merchant_fee_record_identity (mkMerchantFeeTerms 250 5 "GFEE" payer)
    (mkMerchantFeeTerms 250 5 "GFEE" payer) 30 7 "native" ltac:(simpl; lia)) as (_ & _ & H & _).
  exact H.
Defined.

(** what the payer is asked to sign is what settles the intent. For an
    intent stored with the split of its amount, [paymentLegs] gives back exactly
    the split's net to the destination and its fee to the fee wallet, and the two
    legs together are the split's total. *)
Theorem payment_legs_match_split (t : MerchantFeeTerms) (amount : string) (a : Z) (d : nat) (asset : string) :
  parseUnits amount d = Ok a ->
  0 <= bps t -> 0 <= fixed t ->
  let s := splitMerchantFee a (Some t) in
  assertMerchantFeeCovered s (Some t) = Ok tt ->
  let r := merchantFeeRecord t (fee s) d asset in
  exists dest charged,
    paymentLegs (Some amount) (record_json r) d
      = Ok (mkLegs (Some dest) (Some (wallet t, charged)))
    /\ parseUnits dest d = Ok (net s) /\ parseUnits charged d = Ok (fee s)
    /\ net s + fee s = total s /\ dest = formatUnits (net s) d.
Proof.
  intros Ha Hb Hf s Hc r. apply covered_Ok in Hc as [H1 H2].
  exists (formatUnits (net s) d), (formatUnits (fee s) d).
  split; [|split; [|split; [|split]]].
  - unfold paymentLegs. rewrite read_record_json. subst r. unfold merchantFeeRecord.
    cbn [rec_amount rec_paidBy rec_wallet]. rewrite Ha, parse_format_units by lia. cbn.
    do 2 f_equal. subst s. unfold splitMerchantFee. by destruct (paidBy t).
  - apply parse_format_units. lia.
  - apply parse_format_units. lia.
  - symmetry. apply (split_total a (Some t)).
  - done.
Qed.

Lemma payment_legs_match_split_witness :
  exists dest charged,
    paymentLegs (Some "12.5"%string)
      (record_json (merchantFeeRecord (mkMerchantFeeTerms 100 0 "GFEE" recipient) 1250000 7 "native")) 7
      = Ok (mkLegs (Some dest) (Some ("GFEE"%string, charged)))
    /\ parseUnits dest 7 = Ok 123750000 /\ parseUnits charged 7 = Ok 1250000
    /\ 123750000 + 1250000 = 125000000 /\ dest = formatUnits 123750000 7.
Proof.
  exact (payment_legs_match_split (mkMerchantFeeTerms 100 0 "GFEE" recipient) "12.5" 125000000 7
    "native" eq_refl ltac:(simpl; lia) ltac:(simpl; lia) eq_refl).
Defined.
