(* ===== verification/Intents.v ===== *)
(** Payment intents as data: the chains (src/src/chains/chains.constants.ts), the
    row, the status graph and its guard (payment-intent-transitions.ts,
    payment-intent-state-machine.ts), transaction ids (tx-id.ts), where a payer
    pays (pay-to.ts), checkout designs, MEMO_IDs (src/src/stellar/memo.ts) and
    the replay test of an idempotent create (payment-intent-replay.ts). *)

From S2P Require Import Prelude Text Units MerchantFee.
From stdpp Require Import base tactics list option strings.
From Stdlib Require Import ZArith Lia Ascii.

Open Scope Z_scope.

(** ** Chains *)

Inductive Chain := stellar | solana | monad.
#[export] Instance Chain_eq_dec : EqDecision Chain.
Proof. solve_decision. Defined.

Definition chain_name (c : Chain) : string :=
  match c with stellar => "stellar" | solana => "solana" | monad => "monad" end.

Definition DEFAULT_CHAIN : Chain := stellar.

(** [isChain], answering the chain named rather than a boolean. *)
Definition isChain (value : string) : option Chain :=
  match value with
  | "stellar" => Some stellar
  | "solana" => Some solana
  | "monad" => Some monad
  | _ => None
  end%string.

Definition NATIVE_DECIMALS (c : Chain) : nat :=
  match c with stellar => 7 | solana => 9 | monad => 18 end.

(** [chainOf] of payment-intents.service.ts. *)
Definition chainOf (value : option string) : res Chain :=
  match value with
  | None => Ok DEFAULT_CHAIN
  | Some v => match isChain v with Some c => Ok c | None => Throw JsError end
  end.

(** ** Rows *)

Inductive PaymentIntentStatus :=
  PENDING | SUBMITTED | SUCCEEDED | FAILED | CANCELLED | EXPIRED.
#[export] Instance PaymentIntentStatus_eq_dec : EqDecision PaymentIntentStatus.
Proof. solve_decision. Defined.

Inductive PaymentIntentKind := TX | PAY.
#[export] Instance PaymentIntentKind_eq_dec : EqDecision PaymentIntentKind.
Proof. solve_decision. Defined.

(** The columns of [payment_intent] the modelled operations read or write.
    Instants are milliseconds since the epoch. *)
Record PaymentIntent := mkPaymentIntent {
  id : string;
  consumerId : string;
  kind : PaymentIntentKind;
  chain : string;
  network : string;
  source : option string;
  destination : string;
  amount : option string;
  asset : string;
  assetIssuer : option string;
  assetDecimals : option nat;
  memo : string;
  chainReference : option string;
  chainCursor : option string;
  networkFee : option string;
  msg : option string;
  callback : option string;
  status : PaymentIntentStatus;
  xdr : option string;
  uri : string;
  txHash : option string;
  reference : option string;
  checkoutTheme : option string;
  merchantFee : json;
  expiresAt : option Z;
  createdAt : Z
}.

(** ** Status graph *)

Definition TERMINAL_STATUSES : list PaymentIntentStatus :=
  [SUCCEEDED; FAILED; CANCELLED; EXPIRED].

Definition PAYMENT_INTENT_TRANSITIONS (from : PaymentIntentStatus) : list PaymentIntentStatus :=
  match from with
  | PENDING => [SUBMITTED; SUCCEEDED; FAILED; CANCELLED; EXPIRED]
  | SUBMITTED => [SUCCEEDED; FAILED; CANCELLED; EXPIRED]
  | SUCCEEDED => []
  | FAILED => []
  | CANCELLED => []
  | EXPIRED => [SUCCEEDED]
  end.

Definition SUCCESS_REQUIRES_TX_HASH : bool := true.
Definition VERIFIED_SETTLEMENT_ONLY_FROM : list PaymentIntentStatus := [EXPIRED].

Definition canTransition (from to : PaymentIntentStatus) : bool :=
  bool_decide (to ∈ PAYMENT_INTENT_TRANSITIONS from).

Definition isTerminalStatus (s : PaymentIntentStatus) : bool :=
  bool_decide (s ∈ TERMINAL_STATUSES).

Record TransitionEvidence := mkEvidence {
  ev_txHash : option string;
  ev_verifiedOnChain : option bool
}.

Definition hasTxHash (h : option string) : bool :=
  match h with Some s => (0 <? String.length (trim s))%nat | None => false end.

Definition settlesOnlyOnVerifiedPayment (s : PaymentIntentStatus) : bool :=
  bool_decide (s ∈ VERIFIED_SETTLEMENT_ONLY_FROM).

Definition assertTransition (from to : PaymentIntentStatus) (ev : TransitionEvidence) : res unit :=
  if negb (canTransition from to) then Throw InvalidTransitionError
  else if SUCCESS_REQUIRES_TX_HASH && bool_decide (to = SUCCEEDED) && negb (hasTxHash (ev_txHash ev))
  then Throw InvalidTransitionError
  else if bool_decide (to = SUCCEEDED) && settlesOnlyOnVerifiedPayment from
          && negb (bool_decide (ev_verifiedOnChain ev = Some true))
  then Throw InvalidTransitionError
  else Ok tt.

(** ** Transaction ids *)

Definition TX_HASH_RE_test (s : string) : bool :=
  (String.length s =? 64)%nat && all_chars is_hex s.

Definition is_base58 (a : ascii) : bool :=
  ((49 <=? code a) && (code a <=? 57))
  || ((65 <=? code a) && (code a <=? 72)) || ((74 <=? code a) && (code a <=? 78))
  || ((80 <=? code a) && (code a <=? 90))
  || ((97 <=? code a) && (code a <=? 107)) || ((109 <=? code a) && (code a <=? 122)).

Definition SOLANA_TX_ID_RE_test (s : string) : bool :=
  (80 <=? String.length s)%nat && (String.length s <=? 90)%nat && all_chars is_base58 s.

Definition EVM_TX_ID_RE_test (s : string) : bool :=
  match s with
  | String "0" (String "x" r) => TX_HASH_RE_test r
  | _ => false
  end.

Definition isTxIdFor (c : Chain) (s : string) : bool :=
  match c with
  | stellar => TX_HASH_RE_test s
  | solana => SOLANA_TX_ID_RE_test s
  | monad => EVM_TX_ID_RE_test s
  end.

Definition normalizeTxId (c : Chain) (s : string) : string :=
  match c with
  | stellar => toLowerCase s
  | solana => s
  | monad => toLowerCase s
  end.

(** [checkedTxId] of payment-intents.service.ts. *)
Definition checkedTxId (c : Chain) (h : string) : res string :=
  let trimmed := trim h in
  if negb (isTxIdFor c trimmed) then Throw (badRequest ValidationFailed)
  else Ok (normalizeTxId c trimmed).

(** ** Where the payer pays *)

Definition PAY_TO (c : Chain) (destination : string) (chainReference : option string) : string :=
  match c with
  | stellar => destination
  | solana => destination
  | monad => default destination chainReference
  end.

(** ** Checkout designs *)

Definition CHECKOUT_THEMES : list string := ["classic"; "split"; "ticket"; "card"]%string.
Definition DEFAULT_CHECKOUT_THEME : string := "classic".
Definition effectiveCheckoutTheme (stored : option string) : string :=
  match stored with
  | Some t => if bool_decide (t ∈ CHECKOUT_THEMES) then t else DEFAULT_CHECKOUT_THEME
  | None => DEFAULT_CHECKOUT_THEME
  end.

(** ** MEMO_IDs *)

Definition MAX_UINT64 : Z := 18446744073709551615.

Definition resolveMemoId (provided : option string) : res (option string) :=
  match provided with
  | None => Ok None
  | Some p =>
      if negb (is_digits p) || (MAX_UINT64 <? BigInt p)
      then Throw (badRequest InvalidMemo) else Ok (Some p)
  end.

(** [drawn] is the number the eight random bytes spell. *)
Definition resolveOrMintMemoId (drawn : Z) (provided : option string) : res string :=
  r ← resolveMemoId provided;
  Ok (default (toString drawn) r).

(** ** Assets (src/src/stellar/asset.ts) *)

Record ResolvedAsset := mkAsset { asset_code : string; asset_issuer : option string }.

Definition resolveAsset (code issuer : option string) : res ResolvedAsset :=
  let c := default ""%string (trim <$> code) in
  if bool_decide (c = "")%string || bool_decide (toLowerCase c = "xlm")%string
     || bool_decide (toLowerCase c = "native")%string
  then Ok (mkAsset "native" None)
  else if negb (truthy issuer) then Throw (badRequest ValidationFailed)
  else Ok (mkAsset c issuer).

(** ** Replays *)

Record PaymentIntentTerms := mkTerms {
  t_kind : PaymentIntentKind;
  t_chain : string;
  t_network : string;
  t_source : option string;
  t_destination : string;
  t_amount : option string;
  t_asset : string;
  t_assetIssuer : option string;
  t_msg : option string;
  t_callback : option string
}.

Definition terms_of (i : PaymentIntent) : PaymentIntentTerms :=
  mkTerms (kind i) (chain i) (network i) (source i) (destination i) (amount i)
    (asset i) (assetIssuer i) (msg i) (callback i).

(** [sameAmount] of payment-intent-replay.ts. *)
Definition sameIntentAmount (stored requested : option string) : bool :=
  match stored, requested with
  | Some s, Some r =>
      let places := Nat.max (decimalPlaces s) (decimalPlaces r) in
      match parseUnits s places with
      | Throw _ => bool_decide (s = r)
      | Ok x => match parseUnits r places with
                | Throw _ => bool_decide (s = r)
                | Ok y => x =? y
                end
      end
  | _, _ => bool_decide (stored = requested)
  end.

Definition isSameIntentRequest (stored requested : PaymentIntentTerms) : bool :=
  bool_decide (t_kind stored = t_kind requested)
  && bool_decide (t_chain stored = t_chain requested)
  && bool_decide (t_network stored = t_network requested)
  && (negb (bool_decide (t_kind requested = TX)) || opt_eqb (t_source stored) (t_source requested))
  && bool_decide (t_destination stored = t_destination requested)
  && sameIntentAmount (t_amount stored) (t_amount requested)
  && bool_decide (t_asset stored = t_asset requested)
  && opt_eqb (t_assetIssuer stored) (t_assetIssuer requested)
  && opt_eqb (t_msg stored) (t_msg requested)
  && opt_eqb (t_callback stored) (t_callback requested).

(** ** Lemmas *)

Lemma isChain_name c : isChain (chain_name c) = Some c.
Proof. by destruct c. Qed.

Lemma isChain_Some v c : isChain v = Some c -> v = chain_name c.
Proof. unfold isChain. intros H. repeat (case_match; try done); by simplify_eq. Qed.

Lemma chainOf_Ok v c : chainOf (Some v) = Ok c -> v = chain_name c.
Proof. simpl. destruct (isChain v) eqn:E; [|done]. intros [= <-]. by apply isChain_Some. Qed.

Lemma canTransition_spec a b : canTransition a b = true <-> b ∈ PAYMENT_INTENT_TRANSITIONS a.
Proof. apply bool_decide_eq_true. Qed.

(** The guard, decided: the edge, the hash and the proof it asks for. *)
Lemma assertTransition_Ok a b ev u :
  assertTransition a b ev = Ok u <->
  canTransition a b = true
  /\ (b = SUCCEEDED -> hasTxHash (ev_txHash ev) = true)
  /\ (b = SUCCEEDED -> a = EXPIRED -> ev_verifiedOnChain ev = Some true).
Proof.
  unfold assertTransition, SUCCESS_REQUIRES_TX_HASH. destruct u.
  destruct (canTransition a b) eqn:Ec; simpl; [|by split; [|intros [? _]]].
  destruct (decide (b = SUCCEEDED)) as [->|Nb].
  - rewrite bool_decide_true by done. destruct (hasTxHash (ev_txHash ev)); simpl.
    + destruct (decide (a = EXPIRED)) as [->|Na].
      * change (settlesOnlyOnVerifiedPayment EXPIRED) with true. simpl.
        case_bool_decide; simpl; split; [done|done|done|]. by intros (_ & _ & X); specialize (X eq_refl eq_refl).
      * assert (settlesOnlyOnVerifiedPayment a = false) as -> by by destruct a.
        simpl. naive_solver.
    + split; [done|]. intros (_ & H & _). by specialize (H eq_refl).
  - rewrite bool_decide_false by done. simpl. naive_solver.
Qed.

Lemma assertTransition_error a b ev e :
  assertTransition a b ev = Throw e -> e = InvalidTransitionError.
Proof. unfold assertTransition. intros H. by repeat case_match; simplify_eq. Qed.

Lemma hasTxHash_Some h : hasTxHash h = true -> exists s, h = Some s /\ s <> ""%string.
Proof.
  destruct h as [s|]; simpl; [|done]. intros H. exists s. split; [done|]. intros ->. done.
Qed.

(** An amount read with more decimals is the same amount, rescaled. *)
Lemma parseUnits_rescale s d d' x :
  parseUnits s d = Ok x -> (d <= d')%nat ->
  parseUnits s d' = Ok (x * 10 ^ Z.of_nat (d' - d)).
Proof.
  intros (w & f & E & L & ->)%parseUnits_Ok Hd. apply parseUnits_Ok. exists w, f.
  split; [done|]. split; [lia|]. rewrite !parseUnits_value by lia.
  replace (Z.of_nat d') with (Z.of_nat d + Z.of_nat (d' - d)) by lia.
  replace (Z.of_nat (d' - String.length (default ""%string f)))
    with (Z.of_nat (d - String.length (default ""%string f)) + Z.of_nat (d' - d)) by lia.
  rewrite !Z.pow_add_r by lia. ring.
Qed.

Lemma parseUnits_places s d x : parseUnits s d = Ok x -> (decimalPlaces s <= d)%nat.
Proof.
  intros (w & f & E & L & _)%parseUnits_Ok. unfold decimalPlaces. rewrite E. by destruct f.
Qed.

Lemma parseUnits_at_places s d x :
  parseUnits s d = Ok x -> exists y, parseUnits s (decimalPlaces s) = Ok y.
Proof.
  intros (w & f & E & L & _)%parseUnits_Ok. eexists. apply parseUnits_Ok. exists w, f.
  split; [done|]. split; [|done]. unfold decimalPlaces. rewrite E. by destruct f.
Qed.

Lemma sameIntentAmount_refl a : sameIntentAmount a a = true.
Proof.
  unfold sameIntentAmount. destruct a as [a|]; [|by rewrite bool_decide_true].
  destruct (parseUnits a _); [apply Z.eqb_refl | by rewrite bool_decide_true].
Qed.

Lemma isSameIntentRequest_refl t : isSameIntentRequest t t = true.
Proof.
  unfold isSameIntentRequest. rewrite sameIntentAmount_refl, !opt_eqb_refl, orb_true_r.
  by rewrite !bool_decide_true by done.
Qed.

(** Amounts the replay test accepts denote one number in every asset. *)
Lemma sameIntentAmount_value s r d x y :
  sameIntentAmount (Some s) (Some r) = true ->
  parseUnits s d = Ok x -> parseUnits r d = Ok y -> x = y.
Proof.
  intros H Hx Hy. unfold sameIntentAmount in H.
  set (m := Nat.max (decimalPlaces s) (decimalPlaces r)) in H.
  pose proof (parseUnits_places _ _ _ Hx). pose proof (parseUnits_places _ _ _ Hy).
  destruct (parseUnits_at_places _ _ _ Hx) as [x' Hx'].
  destruct (parseUnits_at_places _ _ _ Hy) as [y' Hy'].
  pose proof (parseUnits_rescale _ _ m _ Hx' ltac:(lia)) as Ex.
  pose proof (parseUnits_rescale _ _ m _ Hy' ltac:(lia)) as Ey.
  rewrite Ex, Ey in H. apply Z.eqb_eq in H.
  pose proof (parseUnits_rescale _ _ d _ Ex ltac:(lia)) as Fx.
  pose proof (parseUnits_rescale _ _ d _ Ey ltac:(lia)) as Fy. congruence.
Qed.

Lemma lower_char_hex a : is_hex a = true -> is_hex (lower_char a) = true.
Proof. destruct a as [[] [] [] [] [] [] [] []]; vm_compute; done. Qed.
Lemma lower_char_idem a : lower_char (lower_char a) = lower_char a.
Proof. destruct a as [[] [] [] [] [] [] [] []]; vm_compute; done. Qed.

Lemma toLowerCase_idem s : toLowerCase (toLowerCase s) = toLowerCase s.
Proof. induction s as [|a s IH]; [done|]. unfold toLowerCase in *. simpl. by rewrite lower_char_idem, IH. Qed.
Lemma toLowerCase_length s : String.length (toLowerCase s) = String.length s.
Proof. induction s as [|a s IH]; [done|]. unfold toLowerCase in *. simpl. by rewrite IH. Qed.
Lemma toLowerCase_hex s : all_chars is_hex s = true -> all_chars is_hex (toLowerCase s) = true.
Proof.
  induction s as [|a s IH]; [done|]. unfold toLowerCase in *. simpl. intros. bool_facts.
  by rewrite lower_char_hex, IH.
Qed.

Lemma TX_HASH_lower s : TX_HASH_RE_test s = true -> TX_HASH_RE_test (toLowerCase s) = true.
Proof.
  unfold TX_HASH_RE_test. intros H. bool_facts.
  rewrite toLowerCase_length, H, toLowerCase_hex by done. done.
Qed.

Lemma normalizeTxId_idem c s : normalizeTxId c (normalizeTxId c s) = normalizeTxId c s.
Proof. destruct c; simpl; [apply toLowerCase_idem | done | apply toLowerCase_idem]. Qed.

Lemma isTxIdFor_normalize c s : isTxIdFor c s = true -> isTxIdFor c (normalizeTxId c s) = true.
Proof.
  destruct c; simpl; [apply TX_HASH_lower | done |].
  unfold EVM_TX_ID_RE_test. intros H.
  destruct s as [|a s]; [done|]. destruct s as [|b s].
  { by destruct a as [[] [] [] [] [] [] [] []]. }
  assert (a = "0"%char /\ b = "x"%char) as [-> ->].
  { destruct a as [[] [] [] [] [] [] [] []]; try done;
      destruct b as [[] [] [] [] [] [] [] []]; done. }
  change (toLowerCase (String "0" (String "x" s))) with (String "0" (String "x" (toLowerCase s))).
  by apply TX_HASH_lower.
Qed.

Lemma isTxIdFor_nonempty c s : isTxIdFor c s = true -> s <> ""%string.
Proof. intros H ->. by destruct c. Qed.

Lemma checkedTxId_Ok c h t :
  checkedTxId c h = Ok t -> isTxIdFor c t = true /\ normalizeTxId c t = t.
Proof.
  unfold checkedTxId. destruct (isTxIdFor c (trim h)) eqn:E; [|done]. intros [= <-].
  split; [by apply isTxIdFor_normalize | apply normalizeTxId_idem].
Qed.

(** Ids hold no white space, so a stored id checks to itself. *)
Lemma hex_not_space a : is_hex a = true -> is_space a = false.
Proof. destruct a as [[] [] [] [] [] [] [] []]; vm_compute; done. Qed.
Lemma base58_not_space a : is_base58 a = true -> is_space a = false.
Proof. destruct a as [[] [] [] [] [] [] [] []]; vm_compute; done. Qed.

Lemma all_chars_impl (p q : ascii -> bool) s :
  (forall a, p a = true -> q a = true) -> all_chars p s = true -> all_chars q s = true.
Proof. intros Hpq. induction s; simpl; [done|]. intros. bool_facts. by rewrite Hpq, IHs. Qed.

Lemma trim_no_space s : all_chars (fun a => negb (is_space a)) s = true -> trim s = s.
Proof.
  intros H. unfold trim. destruct s as [|a s]; [done|].
  assert (trim_start (String a s) = String a s) as ->.
  { simpl in *. bool_facts. by rewrite H. }
  remember (String a s) as r eqn:E. clear E a s. revert H.
  induction r as [|a r IH]; simpl; [done|]. intros. bool_facts.
  rewrite IH by done. rewrite H. by destruct r.
Qed.

Lemma isTxIdFor_trim c s : isTxIdFor c s = true -> trim s = s.
Proof.
  intros H. apply trim_no_space. destruct c; simpl in H.
  - unfold TX_HASH_RE_test in H. bool_facts. eapply all_chars_impl; [|done].
    intros a Ha. by rewrite hex_not_space.
  - unfold SOLANA_TX_ID_RE_test in H. bool_facts. eapply all_chars_impl; [|done].
    intros a Ha. by rewrite base58_not_space.
  - unfold EVM_TX_ID_RE_test in H.
    destruct s as [|a s]; [done|]. destruct s as [|b s].
    { by destruct a as [[] [] [] [] [] [] [] []]. }
    assert (a = "0"%char /\ b = "x"%char) as [-> ->].
    { destruct a as [[] [] [] [] [] [] [] []]; try done;
        destruct b as [[] [] [] [] [] [] [] []]; done. }
    unfold TX_HASH_RE_test in H. bool_facts. simpl. eapply all_chars_impl; [|done].
    intros a Ha. by rewrite hex_not_space.
Qed.

Lemma hasTxHash_id c h : isTxIdFor c h = true -> hasTxHash (Some h) = true.
Proof.
  intros H. simpl. rewrite (isTxIdFor_trim _ _ H).
  pose proof (isTxIdFor_nonempty _ _ H). by destruct h.
Qed.

(** ** Properties *)

(** The states a sequence of guarded transitions goes through. *)
Fixpoint run_transitions (s : PaymentIntentStatus)
    (steps : list (PaymentIntentStatus * TransitionEvidence)) : res PaymentIntentStatus :=
  match steps with
  | [] => Ok s
  | (to, ev) :: rest =>
      match assertTransition s to ev with
      | Ok _ => run_transitions to rest
      | Throw e => Throw e
      end
  end.

Definition rank (s : PaymentIntentStatus) : nat :=
  match s with
  | PENDING => 0 | SUBMITTED => 1 | EXPIRED => 2
  | SUCCEEDED => 3 | FAILED => 3 | CANCELLED => 3
  end.

Lemma transition_rank a b ev u : assertTransition a b ev = Ok u -> (rank a < rank b)%nat.
Proof.
  intros (H & _ & _)%assertTransition_Ok. unfold canTransition in H.
  destruct a, b; vm_compute in H; try discriminate H; simpl; lia.
Qed.

(** The lifecycle of a payment intent terminates, and its final statuses are
    final. However its transitions are requested, an intent makes at most three
    of them and never returns to a status it left; SUCCEEDED, FAILED and
    CANCELLED admit none, EXPIRED admits only SUCCEEDED, and SUCCEEDED is
    reached only with a non-blank transaction hash and, out of EXPIRED, only
    with a payment verified on-chain. *)
Theorem lifecycle_terminates (s s' : PaymentIntentStatus)
    (steps : list (PaymentIntentStatus * TransitionEvidence)) :
  run_transitions s steps = Ok s' ->
  (length steps + rank s <= rank s')%nat /\ (length steps <= 3)%nat
  /\ (s' = s -> steps = [])
  /\ (s ∈ [SUCCEEDED; FAILED; CANCELLED] -> steps = [])
  /\ (s = EXPIRED -> steps = [] \/ s' = SUCCEEDED)
  /\ (forall ev, steps = [(SUCCEEDED, ev)] ->
        hasTxHash (ev_txHash ev) = true
        /\ (s = EXPIRED -> ev_verifiedOnChain ev = Some true)).
Proof.
  intros H.
  assert (length steps + rank s <= rank s')%nat as L.
  { clear -H. revert s H. induction steps as [|[to ev] rest IH]; intros s H; simpl in *.
    - injection H as ->. lia.
    - destruct (assertTransition s to ev) eqn:E; [|done].
      apply transition_rank in E. apply IH in H. lia. }
  assert (rank s' <= 3)%nat as R by (destruct s'; simpl; lia).
  assert (forall t, length steps + rank s <= rank t -> rank s = rank t -> steps = [])%nat as Nil.
  { intros t Ht E. destruct steps; [done | simpl in Ht; lia]. }
  repeat split.
  - done.
  - lia.
  - intros ->. by apply (Nil s).
  - intros Hs. apply (Nil SUCCEEDED); [simpl; lia|].
    rewrite !elem_of_cons, elem_of_nil in Hs. by destruct Hs as [->|[->|[->|[]]]].
  - intros ->. destruct steps as [|[to ev] rest]; [by left|right]. simpl in H.
    destruct (assertTransition EXPIRED to ev) eqn:E; [|done].
    apply assertTransition_Ok in E as (E & _ & _).
    destruct to; try (by vm_compute in E).
    destruct rest as [|[? ?] ?]; [by injection H as <-|].
    simpl in L. destruct s'; simpl in L; lia.
  - subst steps. simpl in H. destruct (assertTransition s SUCCEEDED ev) eqn:E; [|done].
    apply assertTransition_Ok in E as (_ & E & _). auto.
  - subst steps. simpl in H. destruct (assertTransition s SUCCEEDED ev) eqn:E; [|done].
    apply assertTransition_Ok in E as (_ & _ & E). auto.
Qed.

Lemma lifecycle_terminates_witness :
  run_transitions PENDING
    [(SUBMITTED, mkEvidence None None); (EXPIRED, mkEvidence None None);
     (SUCCEEDED, mkEvidence (Some "ab") (Some true))]%string = Ok SUCCEEDED
  /\ (3 <= 3)%nat.
Proof.
  split; [reflexivity|].
  destruct (lifecycle_terminates PENDING SUCCEEDED
    [(SUBMITTED, mkEvidence None None); (EXPIRED, mkEvidence None None);
     (SUCCEEDED, mkEvidence (Some "ab") (Some true))]%string eq_refl) as (_ & H & _).
  exact H.
Defined.

(** Transaction ids are stored in one spelling. An accepted id is of the
    intent's chain, survives being sent back unchanged, and any other accepted
    spelling of it that lowercases alike is stored as the same value. *)
Theorem tx_id_canonical (c : Chain) (h t : string) :
  checkedTxId c h = Ok t ->
  isTxIdFor c t = true /\ checkedTxId c t = Ok t /\ hasTxHash (Some t) = true
  /\ (forall h' t', c <> solana -> checkedTxId c h' = Ok t' ->
        toLowerCase (trim h) = toLowerCase (trim h') -> t = t').
Proof.
  intros H. pose proof (checkedTxId_Ok _ _ _ H) as [Hid Hn]. split; [done|]. split; [|split].
  - unfold checkedTxId. rewrite (isTxIdFor_trim _ _ Hid), Hid. simpl. by rewrite Hn.
  - by eapply hasTxHash_id.
  - intros h' t' Hc H' E. unfold checkedTxId in H, H'.
    destruct (isTxIdFor c (trim h)); [|done]. destruct (isTxIdFor c (trim h')); [|done].
    injection H as <-. injection H' as <-. by destruct c.
Qed.

Definition sample_hash : string :=
  "3389e9f0d6b3e3f1c2a1b0c9d8e7f6a5b4c3d2e1f0a9b8c7d6e5f4a3b2c1d0e9".
Lemma tx_id_canonical_witness :
  checkedTxId stellar (" " +:+ sample_hash) = Ok sample_hash
  /\ isTxIdFor stellar sample_hash = true.
Proof.
  split; [reflexivity|].
  exact (proj1 (tx_id_canonical stellar (" " +:+ sample_hash) sample_hash eq_refl)).
Defined.

(** A create that lands on an existing memo is answered with the stored
    intent only when it describes the same payment. Acceptance means the same
    kind, chain, network, destination, asset, issuer, message and callback, the
    same source for a TX intent, and amounts that are the same number of base
    units in any asset; and an identical request is always accepted. *)
Theorem replay_same_payment (stored requested : PaymentIntentTerms) :
  isSameIntentRequest stored requested = true ->
  t_kind stored = t_kind requested /\ t_chain stored = t_chain requested
  /\ t_network stored = t_network requested
  /\ (t_kind requested = TX -> t_source stored = t_source requested)
  /\ t_destination stored = t_destination requested
  /\ t_asset stored = t_asset requested /\ t_assetIssuer stored = t_assetIssuer requested
  /\ t_msg stored = t_msg requested /\ t_callback stored = t_callback requested
  /\ (t_amount stored = None <-> t_amount requested = None)
  /\ (forall a b d x y, t_amount stored = Some a -> t_amount requested = Some b ->
        parseUnits a d = Ok x -> parseUnits b d = Ok y -> x = y)
  /\ isSameIntentRequest requested requested = true.
Proof.
  rewrite isSameIntentRequest_refl. unfold isSameIntentRequest. intros H. bool_facts.
  repeat match goal with E : opt_eqb _ _ = true |- _ => apply opt_eqb_true in E end.
  repeat (split; [done|]). split.
  { intros Ht. match goal with E : _ || _ = true |- _ => 
      destruct (proj1 (orb_true_iff _ _) E) as [X|X] end; [|by apply opt_eqb_true].
    by apply negb_true_iff, bool_decide_eq_false in X. }
  repeat (split; [done|]).
  match goal with E : sameIntentAmount _ _ = true |- _ => rename E into Ha end.
  split; [|split; [|done]].
  - unfold sameIntentAmount in Ha.
    destruct (t_amount stored), (t_amount requested); try done;
      by rewrite bool_decide_false in Ha.
  - intros a b d x y Ea Eb. rewrite Ea, Eb in Ha. by apply sameIntentAmount_value.
Qed.

Definition sample_terms (amount : string) : PaymentIntentTerms :=
  mkTerms PAY "stellar" "public" None "GDEST" (Some amount) "native" None None None.
Lemma replay_same_payment_witness :
  isSameIntentRequest (sample_terms "2") (sample_terms "2.0000000") = true
  /\ isSameIntentRequest (sample_terms "2.0000000") (sample_terms "2.0000000") = true.
Proof.
  split; [reflexivity|].
  destruct (replay_same_payment (sample_terms "2") (sample_terms "2.0000000") eq_refl)
    as (_ & _ & _ & _ & _ & _ & _ & _ & _ & _ & _ & H).
  exact H.
Defined.
