(* ===== verification/ChainAddress.v ===== *)
(** src/src/chains/chain-address.ts: base58, what each chain accepts as an
    account address, and the spelling it is stored in. [StrKey] (the Stellar SDK)
    and [keccak_256] (a hash library) are parameters. *)

From S2P Require Import Prelude Text Units MerchantFee Intents.
From stdpp Require Import base tactics list option strings.
From Stdlib Require Import ZArith Lia Ascii.

Open Scope Z_scope.

(** ** Positional numerals *)

Section numerals.
Context (b : Z).

(** [for (const d of digits) num = num * b + d] *)
Definition value (digits : list Z) : Z :=
  fold_left (fun num d => num * b + d) digits 0.

(** [while (num > 0n) { push(num % b); num = num / b }], most significant
    first: the pushes of the source, reversed. *)
Fixpoint unfold_digits (fuel : nat) (num : Z) (acc : list Z) : list Z :=
  match fuel with
  | O => acc
  | S fuel =>
      if 0 <? num then unfold_digits fuel (Z.quot num b) (Z.rem num b :: acc) else acc
  end.

(** Every turn at least halves [num], so its bit length is enough fuel. *)
Definition digits (num : Z) : list Z :=
  unfold_digits (S (Z.to_nat (Z.log2 num))) num [].
End numerals.

(** ** Base58 *)

Definition BASE58_ALPHABET : string :=
  "123456789ABCDEFGHJKLMNPQRSTUVWXYZabcdefghijkmnopqrstuvwxyz".

Definition MAX_BASE58_LENGTH : nat := 128.

(** [BASE58_ALPHABET.indexOf(char)], [None] for -1. *)
Fixpoint index_of (char : ascii) (s : string) : option Z :=
  match s with
  | "" => None
  | String a s =>
      if Ascii.eqb a char then Some 0 else Z.succ <$> index_of char s
  end%string.

(** [BASE58_ALPHABET[k]] *)
Definition alphabet_at (k : Z) : ascii :=
  default "1"%char (String.get (Z.to_nat k) BASE58_ALPHABET).

Fixpoint base58_indices (s : string) : option (list Z) :=
  match s with
  | "" => Some []
  | String a s =>
      d ← index_of a BASE58_ALPHABET;
      ds ← base58_indices s;
      Some (d :: ds)
  end%string.

(** The bytes unshifted for leading ['1'] characters. *)
Fixpoint leading_ones (s : string) : nat :=
  match s with
  | "" => O
  | String a s => if Ascii.eqb a "1" then S (leading_ones s) else O
  end%string.

Definition decodeBase58 (s : string) : option (list Z) :=
  if (String.length s =? 0)%nat || (MAX_BASE58_LENGTH <? String.length s)%nat then None
  else
    ds ← base58_indices s;
    Some (repeat 0 (leading_ones s) ++ digits 256 (value 58 ds)).

Fixpoint leading_zeros (bytes : list Z) : nat :=
  match bytes with
  | b :: bytes => if b =? 0 then S (leading_zeros bytes) else O
  | [] => O
  end.

Definition string_of_list (l : list ascii) : string := foldr String "" l.

Definition encodeBase58 (bytes : list Z) : string :=
  (repeat_char (leading_zeros bytes) "1" +:+
   string_of_list (alphabet_at <$> digits 58 (value 256 bytes)))%string.

Definition isSolanaAddress (s : string) : bool :=
  if (String.length s <? 32)%nat || (44 <? String.length s)%nat then false
  else match decodeBase58 s with
       | Some bytes => (length bytes =? 32)%nat
       | None => false
       end.

(** ** EVM addresses *)

(** [s.replace(/^0x/, '')] *)
Definition strip_0x (s : string) : string :=
  match s with
  | String "0" (String "x" r) => r
  | _ => s
  end%string.

Definition isEvmAddress (s : string) : bool :=
  match s with
  | String "0" (String "x" r) => (String.length r =? 40)%nat && all_chars is_hex r
  | _ => false
  end%string.

Definition upper_char (a : ascii) : ascii :=
  if (97 <=? code a) && (code a <=? 122) then ascii_of_nat (Z.to_nat (code a - 32)) else a.

(** [parseInt(hash[i], 16) >= 8], for a hash in lower-case hex. *)
Definition nibble_high (a : ascii) : bool :=
  if is_digit a then 8 <=? digit_val a else is_hex a.

Section rules.
(** [StrKey.isValidEd25519PublicKey] and the lower-case hex of [keccak_256]. *)
Context (isValidEd25519PublicKey : string -> bool) (keccak_hex : string -> string).

(** The loop over [lower] and its hash, side by side. *)
Fixpoint checksum_case (lower hash : string) : string :=
  match lower, hash with
  | "", _ => ""
  | String a lower, String h hash =>
      String (if nibble_high h then upper_char a else a) (checksum_case lower hash)
  | String a lower, "" => String a (checksum_case lower "")
  end%string.

Definition toChecksumAddress (address : string) : string :=
  let lower := strip_0x (toLowerCase address) in
  ("0x" +:+ checksum_case lower (keccak_hex lower))%string.

Definition CHAIN_ADDRESS_RULES (c : Chain) : MerchantFeeWalletRule :=
  match c with
  | stellar => mkWalletRule isValidEd25519PublicKey (fun a => a)
  | solana => mkWalletRule isSolanaAddress (fun a => a)
  | monad => mkWalletRule isEvmAddress toChecksumAddress
  end.

Definition isAddressForChain (c : Chain) (a : string) : bool :=
  isValid (CHAIN_ADDRESS_RULES c) a.
Definition normalizeAddress (c : Chain) (a : string) : string :=
  normalize (CHAIN_ADDRESS_RULES c) a.

Definition CHAINS : list Chain := [stellar; solana; monad].

Definition chainOfAddress (address : string) : option Chain :=
  if (64 <? String.length address)%nat then None
  else match base.filter (fun c => isAddressForChain c address = true) CHAINS with
       | [c] => Some c
       | _ => None
       end.

Definition normalizeAnyChainAddress (address : string) : option string :=
  c ← chainOfAddress address; Some (normalizeAddress c address).
End rules.

(** ** Lemmas on numerals *)

Section numeral_lemmas.
Context (b : Z) (Hb : 2 <= b).

Lemma value_snoc l d : value b (l ++ [d]) = value b l * b + d.
Proof. unfold value. by rewrite fold_left_app. Qed.

Lemma value_nonneg l : Forall (fun d => 0 <= d < b) l -> 0 <= value b l.
Proof.
  induction l as [|d l IH] using rev_ind; [done|].
  rewrite Forall_app, Forall_singleton, value_snoc. intros [H ?]. specialize (IH H). nia.
Qed.

Lemma value_zeros k l : value b (repeat 0 k ++ l) = value b l.
Proof.
  unfold value. induction k as [|k IH]; [done|]. exact IH.
Qed.

(** A numeral without a leading zero. *)
Definition minimal (l : list Z) : Prop := forall d, head l = Some d -> d <> 0.

Lemma value_pos l :
  Forall (fun d => 0 <= d < b) l -> minimal l -> l <> [] -> 0 < value b l.
Proof.
  induction l as [|d l IH] using rev_ind; [done|].
  rewrite Forall_app, Forall_singleton, value_snoc. intros [H Hd] Hm _.
  destruct l as [|d' l].
  - specialize (Hm d eq_refl). unfold value. simpl. lia.
  - assert (0 < value b (d' :: l)) by (apply IH; [done | | done]; intros x Hx; by apply Hm). nia.
Qed.

Lemma unfold_digits_acc fuel num acc :
  unfold_digits b fuel num acc = unfold_digits b fuel num [] ++ acc.
Proof.
  revert num acc. induction fuel as [|f IH]; intros num acc; [done|]. simpl.
  destruct (0 <? num); [|done]. rewrite IH, (IH _ [_]), <- app_assoc. done.
Qed.

Lemma unfold_digits_value fuel l :
  Forall (fun d => 0 <= d < b) l -> minimal l -> value b l < 2 ^ Z.of_nat fuel ->
  unfold_digits b fuel (value b l) [] = l.
Proof.
  revert l. induction fuel as [|f IH]; intros l Hl Hm Hv.
  - destruct l as [|x l]; [done|]. pose proof (value_pos (x :: l) Hl Hm ltac:(done)).
    simpl in Hv. lia.
  - destruct l as [|d l _] using rev_ind; [done|]. cbn [unfold_digits].
    pose proof (value_pos (l ++ [d]) Hl Hm ltac:(by destruct l)) as Hp.
    rewrite (proj2 (Z.ltb_lt _ _) Hp).
    rewrite value_snoc in *. apply Forall_app in Hl as [Hl Hd]. rewrite Forall_singleton in Hd.
    pose proof (value_nonneg l Hl) as Hn.
    assert (Z.quot (value b l * b + d) b = value b l) as ->.
    { rewrite Z.quot_div_nonneg by nia.
      rewrite Z.div_add_l, Z.div_small by lia. lia. }
    assert (Z.rem (value b l * b + d) b = d) as ->.
    { rewrite Z.rem_mod_nonneg by nia.
      rewrite Z.add_comm, Z.mod_add, Z.mod_small by lia. done. }
    rewrite unfold_digits_acc, IH; [done|done| |].
    + intros x Hx. apply Hm. destruct l; [done|]. exact Hx.
    + rewrite Nat2Z.inj_succ, Z.pow_succ_r in Hv by lia. nia.
Qed.

Lemma digits_value l :
  Forall (fun d => 0 <= d < b) l -> minimal l -> digits b (value b l) = l.
Proof.
  intros Hl Hm. apply unfold_digits_value; [done|done|].
  apply log2_fuel. by apply value_nonneg.
Qed.

(** The digits produced are digits, without a leading zero, and denote the
    number. *)
Lemma unfold_digits_spec fuel num :
  0 <= num -> num < 2 ^ Z.of_nat fuel ->
  Forall (fun d => 0 <= d < b) (unfold_digits b fuel num [])
  /\ minimal (unfold_digits b fuel num [])
  /\ value b (unfold_digits b fuel num []) = num.
Proof.
  revert num. induction fuel as [|f IH]; intros num H0 Hf.
  - simpl in *. split; [constructor|]. split; [by intros ?|]. unfold value. simpl. lia.
  - cbn [unfold_digits]. destruct (Z.ltb_spec 0 num) as [Hp|Hp].
    2: { split; [constructor|]. split; [by intros ?|]. unfold value. simpl. lia. }
    rewrite unfold_digits_acc.
    rewrite Z.quot_div_nonneg, Z.rem_mod_nonneg by lia.
    rewrite Nat2Z.inj_succ, Z.pow_succ_r in Hf by lia.
    pose proof (Z.div_pos num b ltac:(lia) ltac:(lia)).
    pose proof (Z.mod_pos_bound num b ltac:(lia)). pose proof (Z.div_mod num b ltac:(lia)) as Hdm.
    assert (num / b < 2 ^ Z.of_nat f) as Hlt by (apply Z.div_lt_upper_bound; nia).
    destruct (IH (num / b) ltac:(done) Hlt) as (Hr & Hm & Hv).
    split; [apply Forall_app; split; [done | constructor; [done | constructor]]|]. split.
    + intros d Hd. destruct (unfold_digits b f (num / b) []) as [|x l] eqn:E.
      * injection Hd as <-. unfold value in Hv. simpl in Hv. lia.
      * apply Hm. exact Hd.
    + rewrite value_snoc, Hv. lia.
Qed.

Lemma digits_spec num :
  0 <= num ->
  Forall (fun d => 0 <= d < b) (digits b num) /\ minimal (digits b num)
  /\ value b (digits b num) = num.
Proof. intros H. apply unfold_digits_spec; [done | by apply log2_fuel]. Qed.
End numeral_lemmas.

Lemma strip_leading bytes :
  exists m, bytes = repeat 0 (leading_zeros bytes) ++ m /\ minimal m.
Proof.
  induction bytes as [|x l (m & E & Hm)]; simpl; [by exists []|].
  destruct (Z.eqb_spec x 0) as [->|Hx].
  - exists m. split; [|done]. simpl. by f_equal.
  - exists (x :: l). split; [done|]. by intros d [= <-].
Qed.

(** ** Lemmas on base58 *)

Lemma base58_table :
  forallb (fun k => bool_decide (index_of (alphabet_at k) BASE58_ALPHABET = Some k)
                    && Bool.eqb (Ascii.eqb (alphabet_at k) "1") (k =? 0))
    (Z.of_nat <$> seq 0 58) = true.
Proof. vm_compute. reflexivity. Qed.

Lemma alphabet_at_index k :
  0 <= k < 58 -> index_of (alphabet_at k) BASE58_ALPHABET = Some k
    /\ Ascii.eqb (alphabet_at k) "1" = (k =? 0).
Proof.
  intros Hk. pose proof base58_table as H. rewrite forallb_forall in H.
  specialize (H k). rewrite andb_true_iff, bool_decide_eq_true, Bool.eqb_true_iff in H. apply H.
  apply list_elem_of_In, list_elem_of_fmap. exists (Z.to_nat k). split; [lia|].
  apply elem_of_seq. lia.
Qed.

Lemma index_of_range a s k : index_of a s = Some k -> 0 <= k < Z.of_nat (String.length s).
Proof.
  revert k. induction s as [|x s IH]; intros k; [done|]. simpl. destruct (Ascii.eqb x a).
  - intros [= <-]. lia.
  - destruct (index_of a s) as [j|]; [|done]. intros [= <-]. specialize (IH j eq_refl). lia.
Qed.

Lemma index_of_get a s k :
  index_of a s = Some k -> String.get (Z.to_nat k) s = Some a.
Proof.
  revert k. induction s as [|x s IH]; intros k; [done|]. simpl.
  destruct (Ascii.eqb_spec x a) as [->|]; [by intros [= <-]|].
  destruct (index_of a s) as [j|] eqn:E; [|done]. intros [= <-].
  pose proof (index_of_range _ _ _ E). replace (Z.to_nat (Z.succ j)) with (S (Z.to_nat j)) by lia.
  by apply IH.
Qed.

Lemma base58_indices_encode ds :
  Forall (fun d => 0 <= d < 58) ds ->
  base58_indices (string_of_list (alphabet_at <$> ds)) = Some ds.
Proof.
  induction 1 as [|d ds Hd Hds IH]; [done|].
  change (string_of_list (alphabet_at <$> d :: ds))
    with (String (alphabet_at d) (string_of_list (alphabet_at <$> ds))).
  cbn [base58_indices].
  rewrite (proj1 (alphabet_at_index d Hd)). cbn [mbind option_bind]. by rewrite IH.
Qed.

Lemma base58_indices_spec s ds :
  base58_indices s = Some ds ->
  Forall (fun d => 0 <= d < 58) ds /\ string_of_list (alphabet_at <$> ds) = s.
Proof.
  revert ds. induction s as [|a s IH]; intros ds; cbn [base58_indices].
  - intros [= <-]. by split.
  - destruct (index_of a BASE58_ALPHABET) as [d|] eqn:E; [|done]. cbn [mbind option_bind].
    destruct (base58_indices s) as [l|]; [|done]. cbn [mbind option_bind]. intros [= <-].
    destruct (IH l eq_refl) as [H1 H2]. split.
    + constructor; [|done]. exact (index_of_range _ _ _ E).
    + change (String (alphabet_at d) (string_of_list (alphabet_at <$> l)) = String a s).
      rewrite H2. f_equal. unfold alphabet_at. by rewrite (index_of_get _ _ _ E).
Qed.

Lemma ones_are_zeros n : repeat_char n "1" = string_of_list (alphabet_at <$> repeat 0 n).
Proof. induction n as [|n IH]; [done|]. simpl. by rewrite IH. Qed.

Lemma string_of_list_app l1 l2 :
  string_of_list (l1 ++ l2) = (string_of_list l1 +:+ string_of_list l2)%string.
Proof. induction l1 as [|a l IH]; simpl; [done|]. by rewrite IH. Qed.

Lemma leading_ones_zeros ds :
  Forall (fun d => 0 <= d < 58) ds ->
  leading_ones (string_of_list (alphabet_at <$> ds)) = leading_zeros ds.
Proof.
  induction 1 as [|d ds Hd Hds IH]; [done|].
  change (string_of_list (alphabet_at <$> d :: ds))
    with (String (alphabet_at d) (string_of_list (alphabet_at <$> ds))).
  cbn [leading_ones leading_zeros]. rewrite (proj2 (alphabet_at_index d Hd)), IH. done.
Qed.

Lemma leading_zeros_app k m :
  minimal m -> leading_zeros (repeat 0 k ++ m) = k.
Proof.
  intros Hm. induction k as [|k IH]; simpl; [|by rewrite IH].
  destruct m as [|x m]; [done|]. simpl. specialize (Hm x eq_refl). by destruct (Z.eqb_spec x 0).
Qed.

Lemma encodeBase58_digits bytes :
  Forall (fun d => 0 <= d < 256) bytes ->
  exists ds, Forall (fun d => 0 <= d < 58) ds /\ minimal ds
    /\ value 58 ds = value 256 bytes
    /\ encodeBase58 bytes = string_of_list (alphabet_at <$> (repeat 0 (leading_zeros bytes) ++ ds)).
Proof.
  intros H. pose proof (value_nonneg 256 ltac:(lia) bytes H) as Hn.
  destruct (digits_spec 58 ltac:(lia) _ Hn) as (H1 & H2 & H3).
  exists (digits 58 (value 256 bytes)). split; [done|]. split; [done|]. split; [done|].
  unfold encodeBase58. by rewrite ones_are_zeros, fmap_app, string_of_list_app.
Qed.

(** ** Properties *)

(** base58 is a bijection between byte strings and base58 texts. Decoding
    what was encoded gives back the bytes, leading zero bytes included, for every
    text within the length the decoder accepts; and encoding what a text decodes
    to gives back the text, so an address or signature has one spelling. *)
Theorem base58_roundtrip (bytes : list Z) (s : string) :
  (Forall (fun b => 0 <= b < 256) bytes ->
   bytes <> [] -> (String.length (encodeBase58 bytes) <= MAX_BASE58_LENGTH)%nat ->
   decodeBase58 (encodeBase58 bytes) = Some bytes)
  /\ (decodeBase58 s = Some bytes ->
      Forall (fun b => 0 <= b < 256) bytes /\ encodeBase58 bytes = s).
Proof.
  split.
  - intros Hb Hne Hlen.
    destruct (encodeBase58_digits bytes Hb) as (ds & Hds & Hm & Hv & E).
    assert (Forall (fun d => 0 <= d < 58) (repeat 0 (leading_zeros bytes) ++ ds)) as Hall.
    { apply Forall_app. split; [|done]. apply Forall_forall. intros x Hx.
      apply list_elem_of_In, repeat_spec in Hx. lia. }
    destruct (strip_leading bytes) as (m & Em & Hmm).
    assert (Forall (fun b => 0 <= b < 256) m) as Hm256 by (rewrite Em in Hb; by apply Forall_app in Hb as [_ ?]).
    assert (value 256 bytes = value 256 m) as Evm by (rewrite Em at 1; apply value_zeros).
    unfold decodeBase58.
    replace (String.length (encodeBase58 bytes) =? 0)%nat with false.
    2: { symmetry. apply Nat.eqb_neq. intros H0. rewrite E in H0.
      destruct (repeat 0 (leading_zeros bytes) ++ ds) eqn:E0; [|done].
      apply app_eq_nil in E0 as [E1 ->]. unfold value at 1 in Hv. simpl in Hv.
      destruct m as [|x m]; [rewrite E1 in Em; by rewrite app_nil_r in Em|].
      pose proof (value_pos 256 ltac:(lia) _ Hm256 Hmm ltac:(done)). lia. }
    rewrite (proj2 (Nat.ltb_ge _ _) Hlen). cbn [orb]. rewrite E.
    rewrite base58_indices_encode by done. cbn [mbind option_bind].
    rewrite leading_ones_zeros, leading_zeros_app, value_zeros, Hv, Evm, digits_value by (done || lia).
    by rewrite <- Em.
  - unfold decodeBase58. destruct (_ || _); [done|].
    destruct (base58_indices s) as [ds|] eqn:E; [|done]. cbn [mbind option_bind]. intros [= <-].
    destruct (base58_indices_spec _ _ E) as [Hds <-].
    pose proof (value_nonneg 58 ltac:(lia) ds Hds) as Hn.
    destruct (digits_spec 256 ltac:(lia) _ Hn) as (H1 & H2 & H3).
    split.
    { apply Forall_app. split; [|done]. apply Forall_forall. intros x Hx.
      apply list_elem_of_In, repeat_spec in Hx. lia. }
    rewrite leading_ones_zeros by done. unfold encodeBase58.
    rewrite leading_zeros_app, value_zeros, H3 by done.
    destruct (strip_leading ds) as (m & Em & Hm). rewrite Em at 2 3.
    rewrite value_zeros, digits_value; [|lia| |done].
    + by rewrite ones_are_zeros, fmap_app, string_of_list_app.
    + rewrite Em in Hds. by apply Forall_app in Hds as [_ ?].
Qed.

Lemma base58_roundtrip_witness :
  encodeBase58 [0; 0; 1; 255] = "119p"%string
  /\ decodeBase58 (encodeBase58 [0; 0; 1; 255]) = Some [0; 0; 1; 255].
Proof.
  split; [vm_compute; reflexivity|].
  apply (proj1 (base58_roundtrip [0; 0; 1; 255] "")); [|done|vm_compute; lia].
  repeat (constructor; [lia|]). constructor.
Defined.

Lemma upper_lower a : lower_char a = a -> lower_char (upper_char a) = a.
Proof. destruct a as [[] [] [] [] [] [] [] []]; vm_compute; congruence. Qed.
Lemma upper_hex a : is_hex a = true -> is_hex (upper_char a) = true.
Proof. destruct a as [[] [] [] [] [] [] [] []]; vm_compute; congruence. Qed.

Lemma checksum_case_lower lower hash :
  toLowerCase lower = lower -> toLowerCase (checksum_case lower hash) = lower.
Proof.
  unfold toLowerCase. revert hash. induction lower as [|a l IH]; intros hash; [done|].
  cbn [map_chars]. intros [= Ha Hl]. destruct hash as [|h hash]; cbn [checksum_case map_chars].
  - by rewrite Ha, IH.
  - rewrite IH by done. case_match; [by rewrite upper_lower | by rewrite Ha].
Qed.

Lemma checksum_case_hex lower hash :
  all_chars is_hex lower = true -> all_chars is_hex (checksum_case lower hash) = true.
Proof.
  revert hash. induction lower as [|a l IH]; intros hash; [done|]. simpl. intros. bool_facts.
  destruct hash as [|h hash]; cbn [all_chars]; rewrite IH by done; rewrite andb_true_r; [done|].
  case_match; [by apply upper_hex | done].
Qed.

Lemma isEvmAddress_spec a :
  isEvmAddress a = true ->
  exists r, a = ("0x" +:+ r)%string /\ String.length r = 40%nat /\ all_chars is_hex r = true.
Proof.
  unfold isEvmAddress. destruct a as [|x a]; [done|]. destruct a as [|y r].
  { by destruct x as [[] [] [] [] [] [] [] []]. }
  intros H. assert (x = "0"%char /\ y = "x"%char) as [-> ->].
  { destruct x as [[] [] [] [] [] [] [] []]; try done; destruct y as [[] [] [] [] [] [] [] []]; done. }
  bool_facts. exists r. split; [done|]. split; [by apply Nat.eqb_eq | done].
Qed.

Lemma toChecksum_0x keccak r :
  toChecksumAddress keccak ("0x" +:+ r) =
  ("0x" +:+ checksum_case (toLowerCase r) (keccak (toLowerCase r)))%string.
Proof. reflexivity. Qed.

(** An EVM account has one stored spelling. For an accepted address, the
    checksummed form is an accepted address of the same account, checksumming is
    idempotent, and two addresses get the same stored spelling exactly when they
    differ only in the case of their letters; whatever the hash function answers. *)
Theorem checksum_canonical (keccak_hex : string -> string) (a b : string) :
  isEvmAddress a = true -> isEvmAddress b = true ->
  let c := toChecksumAddress keccak_hex a in
  isEvmAddress c = true /\ toLowerCase c = toLowerCase a
  /\ toChecksumAddress keccak_hex c = c
  /\ (c = toChecksumAddress keccak_hex b <-> toLowerCase a = toLowerCase b).
Proof.
  intros Ha Hb.
  apply isEvmAddress_spec in Ha as (r & -> & Lr & Hr).
  apply isEvmAddress_spec in Hb as (s & -> & _ & _). cbv zeta. rewrite !toChecksum_0x.
  set (k := keccak_hex (toLowerCase r)).
  assert (toLowerCase (checksum_case (toLowerCase r) k) = toLowerCase r) as El
    by apply checksum_case_lower, toLowerCase_idem.
  split; [|split; [|split]].
  - change (((String.length (checksum_case (toLowerCase r) k) =? 40)%nat
             && all_chars is_hex (checksum_case (toLowerCase r) k)) = true).
    rewrite <- (toLowerCase_length (checksum_case _ _)), El, toLowerCase_length, Lr.
    rewrite checksum_case_hex by (by apply toLowerCase_hex). done.
  - change (String "0" (String "x" (toLowerCase (checksum_case (toLowerCase r) k)))
      = String "0" (String "x" (toLowerCase r))). by rewrite El.
  - by rewrite El.
  - split.
    + intros E. change (String "0" (String "x" (toLowerCase r)) = String "0" (String "x" (toLowerCase s))).
      rewrite <- El. injection E as ->. by rewrite checksum_case_lower by apply toLowerCase_idem.
    + intros [= E]. change (toLowerCase r = toLowerCase s) in E. subst k. by rewrite E.
Qed.

Lemma checksum_canonical_witness :
  isEvmAddress "0x52908400098527886E0F7030069857D2E4169EE7" = true
  /\ toLowerCase (toChecksumAddress (fun _ => "8f0000000000000000000000000000000000000000") "0x52908400098527886E0F7030069857D2E4169EE7")
     = "0x52908400098527886e0f7030069857d2e4169ee7"%string.
Proof.
  split; [reflexivity|].
  exact (proj1 (proj2 (checksum_canonical (fun _ => "8f0000000000000000000000000000000000000000"%string)
    "0x52908400098527886E0F7030069857D2E4169EE7" "0x52908400098527886E0F7030069857D2E4169EE7" eq_refl eq_refl))).
Defined.
