(* ===== verification/Rivals.v ===== *)
(** Which older intents outrank one for a payment:
    src/src/payment-intents/settlement-rivals.ts. A Prisma filter is a boolean
    predicate on rows; the query selects, orders oldest first and takes the
    first [SETTLEMENT_RIVALS_MAX]. *)

From S2P Require Import Prelude Text Units MerchantFee Intents.
From stdpp Require Import base tactics list sorting gmap strings.
From Stdlib Require Import ZArith Lia Ascii OrderedTypeEx.

Open Scope Z_scope.

Definition SETTLEMENT_RIVALS_MAX : nat := 5.

(** ** Age *)

Definition older_than (a b : PaymentIntent) : bool :=
  (createdAt a <? createdAt b)
  || ((createdAt a =? createdAt b) && id_lt (id a) (id b)).

(** [orderBy: [{ createdAt: 'asc' }, { id: 'asc' }]] *)
Definition age_le (a b : PaymentIntent) : Prop := older_than b a = false.
#[export] Instance age_le_dec : RelDecision age_le.
Proof. intros a b. unfold age_le. apply _. Defined.

(** ** Filters *)

(** [destinationLeg] *)
Definition destinationLeg (i : PaymentIntent) : option string :=
  match paymentLegs (amount i) (merchantFee i) STELLAR_DECIMALS with
  | Ok l => destinationAmount l
  | Throw _ => amount i
  end.

(** The spellings the loop adds: [places] decimals, for [n] further counts. *)
Fixpoint padded_spellings (whole frac : string) (places n : nat) : list string :=
  match n with
  | O => []
  | S m => (whole +:+ "." +:+ padEnd places frac)%string
           :: padded_spellings whole frac (S places) m
  end.

Definition amountSpellings (a : string) : list string :=
  match (v ← toStroops a; fromStroops v) with
  | Throw _ => [a]
  | Ok canonical =>
      let parts := split_on "." canonical in
      let whole := default ""%string (parts !! 0%nat) in
      let frac := default ""%string (parts !! 1%nat) in
      a :: canonical ::
        padded_spellings whole frac (String.length frac + 1)
          (STELLAR_DECIMALS - String.length frac)
  end.

Definition json_is_null (j : json) : bool := match j with JNull => true | _ => false end.

Definition stellarAmount (a : option string) (row : PaymentIntent) : bool :=
  match a with
  | None => true
  | Some a =>
      bool_decide (amount row = None)
      || match amount row with
         | Some x => bool_decide (x ∈ amountSpellings a)
         | None => false
         end
      || negb (json_is_null (merchantFee row))
  end.

Definition SETTLEMENT_RIVAL_FILTERS (c : Chain) (i row : PaymentIntent) : bool :=
  match c with
  | stellar =>
      bool_decide (memo row = memo i)
      && bool_decide (destination row = destination i)
      && bool_decide (asset row = asset i)
      && opt_eqb (assetIssuer row) (assetIssuer i)
      && stellarAmount (destinationLeg i) row
  | solana =>
      if truthy (chainReference i) then opt_eqb (chainReference row) (chainReference i)
      else false
  | monad =>
      if truthy (chainReference i) then false
      else opt_eqb (chainReference row) (Some (destination i))
           && opt_eqb (assetIssuer row) (assetIssuer i)
  end.

Definition RIVAL_STATUSES : list PaymentIntentStatus := [PENDING; SUBMITTED; SUCCEEDED].

(** The whole [where] of the query. *)
Definition rival_where (c : Chain) (i row : PaymentIntent) : bool :=
  SETTLEMENT_RIVAL_FILTERS c i row
  && bool_decide (chain row = chain_name c)
  && bool_decide (network row = network i)
  && negb (bool_decide (consumerId row = consumerId i))
  && bool_decide (status row ∈ RIVAL_STATUSES)
  && older_than row i.

(** [findMany(settlementRivalsQuery(chain, intent))] over the rows of the table. *)
Definition settlementRivals (c : Chain) (i : PaymentIntent) (rows : list PaymentIntent)
    : list PaymentIntent :=
  take SETTLEMENT_RIVALS_MAX (merge_sort age_le (base.filter (fun r => rival_where c i r = true) rows)).

(** ** Lemmas *)

Lemma older_than_spec a b :
  older_than a b = true <->
  createdAt a < createdAt b \/ (createdAt a = createdAt b /\ id_lt (id a) (id b) = true).
Proof.
  unfold older_than. rewrite orb_true_iff, andb_true_iff, Z.ltb_lt, Z.eqb_eq. done.
Qed.

Lemma older_than_irrefl a : older_than a a = false.
Proof.
  destruct (older_than a a) eqn:E; [|done]. apply older_than_spec in E as [E|[_ E]]; [lia|].
  pose proof (id_lt_asym _ _ E). congruence.
Qed.

Lemma older_than_asym a b : older_than a b = true -> older_than b a = false.
Proof.
  intros H. destruct (older_than b a) eqn:E; [|done].
  apply older_than_spec in H as [H|[H H']], E as [E|[E E']]; try lia.
  apply id_lt_asym in H'. congruence.
Qed.

Lemma older_than_trans a b c : older_than a b = true -> older_than b c = true -> older_than a c = true.
Proof.
  rewrite !older_than_spec. intros [H|[H H']] [E|[E E']]; try (left; lia).
  right. split; [lia|]. by eapply id_lt_trans.
Qed.

Lemma older_than_cotrans a b c : older_than a c = true -> older_than a b = true \/ older_than b c = true.
Proof.
  rewrite !older_than_spec. intros H.
  destruct (Z.lt_total (createdAt a) (createdAt b)) as [L|[L|L]]; [auto | | right; lia].
  destruct H as [H|[H H']]; [right; lia|].
  destruct (id_lt (id a) (id b)) eqn:E1; [auto|].
  destruct (id_lt (id b) (id c)) eqn:E2; [right; lia|]. exfalso.
  destruct (id_lt (id b) (id a)) eqn:E3.
  - pose proof (id_lt_trans _ _ _ E3 H'). congruence.
  - rewrite (id_lt_total _ _ E1 E3) in H'. congruence.
Qed.

#[export] Instance age_le_total : Total age_le.
Proof.
  intros a b. unfold age_le. destruct (older_than b a) eqn:E; [|auto].
  right. by apply older_than_asym.
Qed.
#[export] Instance age_le_trans : Transitive age_le.
Proof.
  intros a b c. unfold age_le. intros H1 H2.
  destruct (older_than c a) eqn:E; [|done].
  destruct (older_than_cotrans c b a E); congruence.
Qed.

Lemma rivals_elem c i rows r :
  r ∈ settlementRivals c i rows -> r ∈ rows /\ rival_where c i r = true.
Proof.
  unfold settlementRivals. intros H.
  apply (subseteq_take SETTLEMENT_RIVALS_MAX) in H.
  rewrite (merge_sort_Permutation age_le), list_elem_of_filter in H. tauto.
Qed.

Lemma rival_where_older c i r : rival_where c i r = true -> older_than r i = true.
Proof. unfold rival_where. intros. by bool_facts. Qed.

(** In a sorted list, what is taken is no greater than what is left. *)
Lemma take_sorted_le {A} (R : A -> A -> Prop) n (l : list A) x y :
  StronglySorted R l -> x ∈ take n l -> y ∈ drop n l -> R x y.
Proof.
  intros Hs Hx Hy. rewrite <- (take_drop n l) in Hs.
  clear -Hs Hx Hy. revert Hs Hx Hy. generalize (take n l), (drop n l). intros l1 l2.
  induction l1 as [|z l1 IH]; intros Hs Hx Hy; [by apply not_elem_of_nil in Hx|].
  simpl in Hs. apply StronglySorted_inv in Hs as [Hs Hz].
  apply elem_of_cons in Hx as [->|Hx]; [|by apply IH].
  rewrite Forall_forall in Hz. apply Hz. apply elem_of_app. by right.
Qed.

(** *** Spellings *)

Lemma padded_spellings_elem whole frac places n s :
  s ∈ padded_spellings whole frac places n <->
  exists k, (places <= k < places + n)%nat /\ s = (whole +:+ "." +:+ padEnd k frac)%string.
Proof.
  revert places. induction n as [|n IH]; intros places; cbn [padded_spellings].
  - rewrite elem_of_nil. split; [done|]. intros (k & ? & _). lia.
  - rewrite elem_of_cons, IH. split.
    + intros [->|(k & ? & ->)]; [exists places | exists k]; (split; [lia | done]).
    + intros (k & Hk & ->). destruct (decide (k = places)) as [->|]; [by left|].
      right. exists k. split; [lia | done].
Qed.

(** The decimal text of a stroop count, cut where [split] cuts it. *)
Lemma amountSpellings_split a v :
  toStroops a = Ok v ->
  exists f,
    f = strip_zeros (padStart STELLAR_DECIMALS (nat_toString (v mod STROOP_SCALE)))
    /\ (String.length f <= STELLAR_DECIMALS)%nat /\ all_chars is_digit f = true
    /\ v = BigInt (nat_toString (v / STROOP_SCALE) +:+ padEnd STELLAR_DECIMALS f)
    /\ amountSpellings a =
       a :: decimal_text (nat_toString (v / STROOP_SCALE))
              (if bool_decide (f <> ""%string) then Some f else None)
         :: padded_spellings (nat_toString (v / STROOP_SCALE)) f
              (String.length f + 1) (STELLAR_DECIMALS - String.length f).
Proof.
  intros Ha. pose proof (toStroops_range _ _ Ha) as [Hv _].
  destruct (fromStroops_text v Hv) as (f & E & Ef & Df & Lf & Ev).
  exists f. repeat (split; [done|]). unfold amountSpellings. rewrite Ha. cbn. rewrite E.
  assert (is_digits (nat_toString (v / STROOP_SCALE)) = true) as Dw.
  { apply nat_toString_is_digits, Z.div_pos; done. }
  set (w := nat_toString _) in *.
  assert (decimal_exec (decimal_text w (if bool_decide (f <> ""%string) then Some f else None))
          = Some (w, if bool_decide (f <> ""%string) then Some f else None)) as Ed.
  { apply decimal_exec_spec. repeat split; [done|]. intros g. case_bool_decide; [|done].
    intros [= <-]. by apply is_digits_spec. }
  destruct (split_on_decimal _ _ _ Ed) as [-> ->].
  case_bool_decide as E0; [done|]. by rewrite E0.
Qed.

(** Every spelling denotes the amount. *)
Lemma amountSpellings_sound a v s :
  toStroops a = Ok v -> s ∈ amountSpellings a -> toStroops s = Ok v.
Proof.
  intros Ha Hs. pose proof (toStroops_range _ _ Ha) as [Hv Hm].
  destruct (amountSpellings_split a v Ha) as (f & _ & Lf & Df & Ev & E). rewrite E in Hs.
  set (w := nat_toString _) in *.
  assert (is_digits w = true) as Dw by (apply nat_toString_is_digits, Z.div_pos; done).
  assert (forall s, parseUnits s STELLAR_DECIMALS = Ok v -> toStroops s = Ok v) as Hp.
  { intros u Hu. rewrite toStroops_parseUnits, Hu. by destruct (Z.ltb_spec MAX_STROOPS v); [lia|]. }
  rewrite !elem_of_cons, padded_spellings_elem in Hs.
  destruct Hs as [->|[->|(k & Hk & ->)]]; [done| |]; apply Hp; clear Hp.
  - rewrite Ev at 1. by apply parse_decimal_text.
  - apply parseUnits_Ok. exists w, (Some (padEnd k f)).
    assert (String.length (padEnd k f) = k) as Lk by (apply padEnd_length; lia).
    split; [|split].
    + apply decimal_exec_fraction; [done|]. apply is_digits_spec. rewrite padEnd_digits.
      split; [|done]. intros E0. rewrite E0 in Lk. simpl in Lk. lia.
    + simpl. lia.
    + rewrite Ev at 1. simpl. f_equal. f_equal. unfold padEnd. rewrite <- str_app_assoc, <- zeros_add.
      do 2 f_equal. rewrite str_app_length, zeros_length. lia.
Qed.

(** Every spelling of the amount without leading zeros is listed. *)
Lemma amountSpellings_complete a v s w f :
  toStroops a = Ok v -> toStroops s = Ok v ->
  decimal_exec s = Some (w, f) -> canonical w -> s ∈ amountSpellings a.
Proof.
  intros Ha Hs Es Hw. pose proof (toStroops_range _ _ Ha) as [Hv _].
  destruct (amountSpellings_split a v Ha) as (g & Eg & Lg & Dg & Ev & ->).
  rewrite toStroops_parseUnits in Hs. destruct (parseUnits s _) as [v'|] eqn:Ep; [|done].
  assert (v' = v) as -> by (destruct (MAX_STROOPS <? v'); congruence). clear Hs.
  apply parseUnits_Ok in Ep as (w' & f' & Es' & Lf & Evf). rewrite Es in Es'. injection Es' as <- <-.
  destruct (decimal_exec_digits _ _ _ Es) as [Dw Df].
  apply is_digits_spec in Dw as [_ Dw].
  set (W := nat_toString (v / STROOP_SCALE)) in *.
  rewrite BigInt_app, padEnd_length in Ev, Evf by done. rewrite pow_STROOP in Ev, Evf.
  pose proof (BigInt_range (padEnd STELLAR_DECIMALS g)) as R1.
  rewrite padEnd_digits, padEnd_length, pow_STROOP in R1 by done. specialize (R1 Dg).
  pose proof (BigInt_range (padEnd STELLAR_DECIMALS (default "" f))) as R2.
  rewrite padEnd_digits, padEnd_length, pow_STROOP in R2 by done. specialize (R2 Df).
  assert (BigInt w = BigInt W /\ BigInt (padEnd STELLAR_DECIMALS (default "" f))
          = BigInt (padEnd STELLAR_DECIMALS g)) as [Ew Ef] by (unfold STROOP_SCALE in *; lia).
  assert (w = W) as ->.
  { apply canonical_inj; [done| |done]. apply nat_toString_canonical, Z.div_pos; done. }
  assert (padEnd STELLAR_DECIMALS (default "" f) = padEnd STELLAR_DECIMALS g) as Epad.
  { apply BigInt_inj; [by rewrite padEnd_digits | by rewrite padEnd_digits | |done].
    by rewrite !padEnd_length. }
  assert (strip_zeros (default "" f) = g) as Estrip.
  { transitivity (strip_zeros (padEnd STELLAR_DECIMALS (default "" f))).
    - unfold padEnd. by rewrite strip_zeros_app_zeros.
    - rewrite Epad. unfold padEnd. rewrite strip_zeros_app_zeros. rewrite Eg.
      by rewrite strip_zeros_idem. }
  apply decimal_exec_spec in Es as (-> & _ & Hf).
  rewrite !elem_of_cons, padded_spellings_elem. right.
  destruct f as [f|]; simpl in *;
    [|subst g; rewrite bool_decide_false by auto; by left].
  pose proof (strip_zeros_length f) as Ls. rewrite Estrip in Ls.
  pose proof (padEnd_strip_zeros f) as Ep. rewrite Estrip in Ep.
  destruct (decide (String.length f = String.length g)) as [El|Nl].
  - left. assert (f = g) as ->.
    { rewrite <- Ep, El. unfold padEnd. by rewrite Nat.sub_diag, str_app_nil_r. }
    specialize (Hf g eq_refl). apply is_digits_spec in Hf as [Hne _].
    by rewrite bool_decide_true.
  - right. exists (String.length f). split; [lia|]. by rewrite Ep.
Qed.

(** ** Properties *)

Lemma rivals_first c i rows r s :
  r ∈ settlementRivals c i rows -> s ∈ rows -> rival_where c i s = true ->
  s ∉ settlementRivals c i rows -> older_than s r = false.
Proof.
  unfold settlementRivals. intros Hr Hs Hw Hn.
  set (l := base.filter _ rows) in *.
  assert (s ∈ merge_sort age_le l) as Hm.
  { rewrite (merge_sort_Permutation age_le). by apply list_elem_of_filter. }
  assert (s ∈ drop SETTLEMENT_RIVALS_MAX (merge_sort age_le l)) as Hd.
  { rewrite <- (take_drop SETTLEMENT_RIVALS_MAX (merge_sort age_le l)), elem_of_app in Hm. tauto. }
  exact (take_sorted_le _ _ _ _ _ (StronglySorted_merge_sort age_le l) Hr Hd).
Qed.

(** the intents that outrank one for a payment. The query answers at most
    five rows of the table, each strictly older, of another consumer, on the
    same chain and network and still open for the payment or credited with it;
    a row it leaves out for the bound is no older than any it answers; and
    precedence never deadlocks: two intents are never rivals of each other, and
    an intent no row is older than has no rival. *)
Theorem rivals_oldest_first (c : Chain) (i r : PaymentIntent) (rows : list PaymentIntent) :
  r ∈ settlementRivals c i rows ->
  (length (settlementRivals c i rows) <= SETTLEMENT_RIVALS_MAX)%nat
  /\ r ∈ rows /\ older_than r i = true /\ consumerId r <> consumerId i
  /\ chain r = chain_name c /\ network r = network i /\ status r ∈ RIVAL_STATUSES
  /\ (forall s, s ∈ rows -> rival_where c i s = true ->
        s ∉ settlementRivals c i rows -> older_than s r = false)
  /\ (forall c' rows', i ∉ settlementRivals c' r rows')
  /\ (exists o, o ∈ rows /\ older_than o i = true).
Proof.
  intros Hr. pose proof (rivals_elem _ _ _ _ Hr) as [Hin Hw].
  pose proof (rival_where_older _ _ _ Hw) as Ho.
  split; [unfold settlementRivals; rewrite length_take; lia|].
  unfold rival_where in Hw. bool_facts. repeat (split; [done|]).
  split; [intros s; by apply rivals_first|]. split; [|by exists r].
  intros c' rows' H'. apply rivals_elem in H' as [_ H']. apply rival_where_older in H'.
  rewrite (older_than_asym _ _ H') in Ho. done.
Qed.

Definition sample_intent (i c a : string) (t : Z) : PaymentIntent :=
  mkPaymentIntent i c PAY "stellar" "public" None "GDEST" (Some a) "native" None None "7"
    None None None None None PENDING None "" None None None JNull None t.
Lemma rivals_oldest_first_witness :
  let original := sample_intent "a" "shop" "25.5" 10 in
  let copy := sample_intent "b" "thief" "25.50" 20 in
  original ∈ settlementRivals stellar copy [copy; original]
  /\ older_than original copy = true
  /\ copy ∉ settlementRivals stellar original [copy; original].
Proof.
  cbv zeta.
  assert (sample_intent "a" "shop" "25.5" 10 ∈ settlementRivals stellar (sample_intent "b" "thief" "25.50" 20)
            [sample_intent "b" "thief" "25.50" 20; sample_intent "a" "shop" "25.5" 10]) as H.
  { match goal with |- _ ∈ ?l => let l' := eval vm_compute in l in change l with l' end.
    vm_compute. by left. }
  split; [exact H|].
  destruct (rivals_oldest_first _ _ _ _ H) as (_ & _ & Ho & _ & _ & _ & _ & _ & Hm & _).
  split; [exact Ho | apply Hm].
Defined.

(** The amounts the Stellar rival filter matches are exactly the spellings of
    one number of stroops: every listed spelling denotes the payment's amount,
    and every decimal text without superfluous leading zeros that denotes it is
    listed. *)
Theorem amount_spellings_exact (a : string) (v : Z) :
  toStroops a = Ok v ->
  (forall s, s ∈ amountSpellings a -> toStroops s = Ok v)
  /\ (forall s w f, toStroops s = Ok v -> decimal_exec s = Some (w, f) -> canonical w ->
        s ∈ amountSpellings a).
Proof.
  intros Ha. split.
  - intros s. by apply amountSpellings_sound.
  - intros s w f Hs. by apply (amountSpellings_complete a v).
Qed.

Lemma amount_spellings_exact_witness :
  toStroops "25.5" = Ok 255000000
  /\ (forall s, s ∈ amountSpellings "25.5" -> toStroops s = Ok 255000000)
  /\ amountSpellings "25.5" =
     ["25.5"; "25.5"; "25.50"; "25.500"; "25.5000"; "25.50000"; "25.500000"; "25.5000000"]%string.
Proof.
  split; [vm_compute; reflexivity|]. split; [|vm_compute; reflexivity].
  exact (proj1 (amount_spellings_exact "25.5" 255000000 ltac:(vm_compute; reflexivity))).
Defined.
