(* ===== verification/Verifier.v ===== *)
(** What confirms that a transaction pays an intent: the interface of
    src/src/payment-intents/payment-verifier.ts, the choice of a verifier by
    chain (payment-verifiers.ts), and the law every chain's verifier owes its
    clients. *)

From S2P Require Import Prelude Text Units MerchantFee Intents.
From stdpp Require Import base tactics list option strings.
From Stdlib Require Import ZArith Lia.

Open Scope Z_scope.

(** Why a verifier refused; the texts of the [reason]s. *)
Inductive Reason :=
  | TransactionNotFound
  | MemoMismatch
  | PredatesIntent
  | NoPaymentMatches
  | MerchantFeeUnpaid
  | FailedOnChain
  | DestinationNotFound
  | NoMatchYet
  | NoMatchAmongNewest (payments : Z)
  | NoReference
  | LacksReference
  | NoTransferPaysDestination
  | TransferAmountMismatch
  | NoPayableAmount
  | AwaitingDeposit
  | NativeNeedsHash.
#[export] Instance Reason_eq_dec : EqDecision Reason.
Proof. solve_decision. Defined.

Record VerificationResult := mkVerification {
  valid : bool;
  v_txHash : option string;
  reason : option Reason;
  payer : option string;
  failedOnChain : option bool;
  nextCursor : option string
}.

(** [{ valid: false, reason }] and [{ valid: false, failedOnChain: true, reason }] *)
Definition mismatch (r : Reason) : VerificationResult :=
  mkVerification false None (Some r) None None None.
Definition failed_on_chain : VerificationResult :=
  mkVerification false None (Some FailedOnChain) None (Some true) None.
(** [{ valid: true, txHash, payer }] *)
Definition confirmed (h : string) (from : option string) : VerificationResult :=
  mkVerification true (Some h) None from None None.

(** [result.failedOnChain] as a condition. *)
Definition reports_failure (r : VerificationResult) : bool := default false (failedOnChain r).

Record PaymentVerifier := mkVerifier {
  verifyByHash : PaymentIntent -> string -> res VerificationResult;
  findMatchingPayment : PaymentIntent -> res VerificationResult
}.

(** [PaymentVerifiers]: the verifier of every chain, and the one a stored chain
    names. *)
Definition PaymentVerifiers := Chain -> PaymentVerifier.

Definition verifier_for (byChain : PaymentVerifiers) (chain : string) : res PaymentVerifier :=
  match isChain chain with
  | Some c => Ok (byChain c)
  | None => Throw JsError
  end.

(** Answers of a remote node: a value, or a failed request with its HTTP status
    when there was a response. *)
Inductive call (A : Type) :=
  | Answered (a : A)
  | Failed (status : option Z).
Arguments Answered {A} a.
Arguments Failed {A} status.

(** [await request] outside any [try]: a failed request is thrown. *)
Definition awaited {A} (c : call A) : res A :=
  match c with Answered a => Ok a | Failed _ => Throw JsError end.

(** What a verifier promises its clients, for a chain where [pays i h] says that
    transaction [h] is a successful payment of [i] and [attempts i h] that it is
    a failed attempt at one: a valid result names a transaction that pays the
    intent (for a lookup by hash, the one asked about, in some spelling), and a reported failure is the intent's own failed payment. *)
Class VerifierLaws (c : Chain) (v : PaymentVerifier)
    (pays attempts : PaymentIntent -> string -> Prop) := {
  verify_sound : forall i h r,
    verifyByHash v i h = Ok r -> valid r = true ->
    pays i h /\ exists h', v_txHash r = Some h' /\ normalizeTxId c h' = normalizeTxId c h;
  verify_failed : forall i h r,
    verifyByHash v i h = Ok r -> reports_failure r = true ->
    valid r = false /\ attempts i h;
  find_sound : forall i r,
    findMatchingPayment v i = Ok r -> valid r = true ->
    exists h, v_txHash r = Some h /\ pays i h;
  find_no_failure : forall i r,
    findMatchingPayment v i = Ok r -> reports_failure r = false
}.

(** The clock-skew rule the three verifiers share. *)
Definition TX_CREATED_AT_SKEW_MS : Z := 60000.

Definition closed_in_time (i : PaymentIntent) (closed : Z) : Prop :=
  createdAt i - TX_CREATED_AT_SKEW_MS <= closed.
