(* ===== verification/StellarVerifier.v ===== *)
(** src/src/payment-intents/stellar-verifier.service.ts: the verifier of Stellar
    payments, over a Horizon server given by its answers. *)

From S2P Require Import Prelude Text Units MerchantFee Intents Verifier.
From stdpp Require Import base tactics list option sorting strings.
From Stdlib Require Import ZArith Lia.

Open Scope Z_scope.

(** ** Horizon records

    The fields the verifier reads. A close time is what [Date.parse] makes of
    its text: [None] for NaN. *)
Record TransactionRecord := mkTxRecord {
  memo_type : option string;
  tx_memo : option string;
  created_at : option Z;
  successful : bool
}.

(** An operation; [op_transaction] is what [op.transaction()] resolves to. *)
Record OperationRecord := mkOpRecord {
  op_type : string;
  op_from : string;
  op_to : string;
  asset_type : string;
  asset_code : option string;
  asset_issuer : option string;
  op_amount : string;
  op_created_at : option Z;
  transaction_hash : string;
  op_transaction : call TransactionRecord
}.

(** The three reads of a server: a transaction, the payments of a transaction,
    and the [n]-th page (from 0, newest first) of an account's payments. *)
Record Horizon := mkHorizon {
  hz_transaction : string -> call TransactionRecord;
  hz_forTransaction : string -> call (list OperationRecord);
  hz_forAccount : string -> nat -> call (list OperationRecord)
}.

(** [StellarService]: a server per network. *)
Definition StellarService := string -> Horizon.

Definition PAYMENT_SCAN_PAGE_SIZE : nat := 200.
Definition PAYMENT_SCAN_MAX_PAGES : nat := 5.

(** ** The rule *)

Definition predatesIntent (i : PaymentIntent) (closedAt : option Z) : bool :=
  match closedAt with
  | None => true
  | Some closed => closed <? createdAt i - TX_CREATED_AT_SKEW_MS
  end.

Definition legsOf (i : PaymentIntent) : PaymentLegs :=
  match paymentLegs (amount i) (merchantFee i) STELLAR_DECIMALS with
  | Ok l => l
  | Throw _ => mkLegs (Some "-1"%string) None
  end.

Definition amountMatches (expected actual : string) : bool :=
  match toStroops actual, toStroops expected with
  | Ok a, Ok e => a =? e
  | _, _ => false
  end.

Definition op_asset_matches (i : PaymentIntent) (op : OperationRecord) : bool :=
  if bool_decide (asset i = "native"%string)
  then bool_decide (asset_type op = "native"%string)
  else bool_decide (asset_code op = Some (asset i))
       && opt_eqb (asset_issuer op) (assetIssuer i).

Definition paymentMatches (i : PaymentIntent) (op : OperationRecord) : bool :=
  if negb (bool_decide (op_type op = "payment"%string)) then false
  else if negb (bool_decide (op_to op = destination i)) then false
  else if negb (op_asset_matches i op) then false
  else match destinationAmount (legsOf i) with
       | Some expected => amountMatches expected (op_amount op)
       | None => true
       end.

Definition paysMerchantFee (i : PaymentIntent) (operations : list OperationRecord) : bool :=
  match legs_fee (legsOf i) with
  | None => true
  | Some (wallet, amount) =>
      existsb (fun op =>
        bool_decide (op_type op = "payment"%string) && bool_decide (op_to op = wallet)
        && op_asset_matches i op && amountMatches amount (op_amount op)) operations
  end.

Definition memoMatches (i : PaymentIntent) (memoType memo_ : option string) : bool :=
  bool_decide (memoType = Some "id"%string)
  && bool_decide (default ""%string memo_ = memo i).

(** ** By hash *)

Definition verifyByHash (stellar : StellarService) (i : PaymentIntent) (txHash : string)
    : res VerificationResult :=
  let server := stellar (network i) in
  match hz_transaction server txHash with
  | Failed (Some 404) => Ok (mismatch TransactionNotFound)
  | Failed _ => Throw JsError
  | Answered tx =>
      if negb (memoMatches i (memo_type tx) (tx_memo tx)) then Ok (mismatch MemoMismatch)
      else if predatesIntent i (created_at tx) then Ok (mismatch PredatesIntent)
      else
        records ← awaited (hz_forTransaction server txHash);
        match List.find (paymentMatches i) records with
        | None => Ok (mismatch NoPaymentMatches)
        | Some match_ =>
            if negb (paysMerchantFee i records) then Ok (mismatch MerchantFeeUnpaid)
            else if negb (successful tx) then Ok failed_on_chain
            else Ok (confirmed txHash (Some (op_from match_)))
        end
  end.

(** ** By scan *)

(** The body of the loop over a page: a verdict, or [None] to read on. *)
Fixpoint scan_page (server : Horizon) (i : PaymentIntent) (ops : list OperationRecord)
    : res (option VerificationResult) :=
  match ops with
  | [] => Ok None
  | op :: rest =>
      if predatesIntent i (op_created_at op) then Ok (Some (mismatch NoMatchYet))
      else if negb (paymentMatches i op) then scan_page server i rest
      else
        tx ← awaited (op_transaction op);
        if negb (successful tx) then scan_page server i rest
        else if negb (memoMatches i (memo_type tx) (tx_memo tx)) then scan_page server i rest
        else
          match legs_fee (legsOf i) with
          | None => Ok (Some (confirmed (transaction_hash op) (Some (op_from op))))
          | Some _ =>
              records ← awaited (hz_forTransaction server (transaction_hash op));
              if negb (paysMerchantFee i records) then scan_page server i rest
              else Ok (Some (confirmed (transaction_hash op) (Some (op_from op))))
          end
  end.

(** The loop over pages, [pages] already counting [page]; [remaining] more may be
    read. *)
Fixpoint scan_pages (server : Horizon) (i : PaymentIntent) (remaining pages : nat)
    (page : list OperationRecord) : res VerificationResult :=
  verdict ← scan_page server i page;
  match verdict with
  | Some r => Ok r
  | None =>
      if (length page <? PAYMENT_SCAN_PAGE_SIZE)%nat then Ok (mismatch NoMatchYet)
      else
        match remaining with
        | O => Ok (mismatch (NoMatchAmongNewest (Z.of_nat (pages * PAYMENT_SCAN_PAGE_SIZE))))
        | S remaining =>
            page ← awaited (hz_forAccount server (destination i) pages);
            scan_pages server i remaining (S pages) page
        end
  end.

Definition findMatchingPayment (stellar : StellarService) (i : PaymentIntent)
    : res VerificationResult :=
  let server := stellar (network i) in
  match hz_forAccount server (destination i) 0 with
  | Failed (Some 404) => Ok (mismatch DestinationNotFound)
  | Failed _ => Throw JsError
  | Answered page => scan_pages server i (PAYMENT_SCAN_MAX_PAGES - 1) 1 page
  end.

Definition StellarVerifierService (stellar : StellarService) : PaymentVerifier :=
  mkVerifier (verifyByHash stellar) (findMatchingPayment stellar).

(** ** Specification

    When an operation of a transaction pays an intent, stated without the code's
    order of checks: by its memo, its age, and the legs of the intent in
    stroops. *)

Definition same_stroops (a b : string) : Prop :=
  exists v, toStroops a = Ok v /\ toStroops b = Ok v.

Definition moves (i : PaymentIntent) (op : OperationRecord) (to : string) (leg : option string) : Prop :=
  op_type op = "payment"%string /\ op_to op = to
  /\ (if decide (asset i = "native"%string) then asset_type op = "native"%string
      else asset_code op = Some (asset i) /\ asset_issuer op = assetIssuer i)
  /\ (forall a, leg = Some a -> same_stroops a (op_amount op)).

Record pays_intent (i : PaymentIntent) (tx : TransactionRecord) (closedAt : option Z)
    (op : OperationRecord) (ops : list OperationRecord) : Prop := {
  pays_memo : memo_type tx = Some "id"%string /\ default ""%string (tx_memo tx) = memo i;
  pays_age : exists t, closedAt = Some t /\ closed_in_time i t;
  pays_legs : exists legs,
    paymentLegs (amount i) (merchantFee i) STELLAR_DECIMALS = Ok legs
    /\ moves i op (destination i) (destinationAmount legs)
    /\ (forall w a, legs_fee legs = Some (w, a) ->
          exists op', op' ∈ ops /\ moves i op' w (Some a))
}.

(** ** Lemmas *)

Lemma amountMatches_spec e a : amountMatches e a = true <-> same_stroops e a.
Proof.
  unfold amountMatches, same_stroops. destruct (toStroops a) as [x|], (toStroops e) as [y|]; simpl.
  - rewrite Z.eqb_eq. split; [intros ->; eauto|]. intros (v & H1 & H2). congruence.
  - split; [done|]. by intros (v & H1 & _).
  - split; [done|]. by intros (v & _ & H2).
  - split; [done|]. by intros (v & _ & H2).
Qed.

Lemma op_asset_matches_spec i op :
  op_asset_matches i op = true <->
  (if decide (asset i = "native"%string) then asset_type op = "native"%string
   else asset_code op = Some (asset i) /\ asset_issuer op = assetIssuer i).
Proof.
  unfold op_asset_matches. destruct (decide (asset i = "native"%string)) as [E|E].
  - rewrite bool_decide_true by done. apply bool_decide_eq_true.
  - rewrite bool_decide_false by done.
    by rewrite andb_true_iff, bool_decide_eq_true, opt_eqb_true.
Qed.

Lemma memoMatches_spec i t m :
  memoMatches i t m = true <-> t = Some "id"%string /\ default ""%string m = memo i.
Proof. unfold memoMatches. by rewrite andb_true_iff, !bool_decide_eq_true. Qed.

Lemma predatesIntent_spec i c :
  predatesIntent i c = false <-> exists t, c = Some t /\ closed_in_time i t.
Proof.
  unfold predatesIntent, closed_in_time. destruct c as [t|].
  - rewrite Z.ltb_ge. split; [eauto|]. by intros (? & [= <-] & ?).
  - split; [done|]. by intros (? & ? & _).
Qed.

Lemma toStroops_minus_one : is_ok (toStroops "-1") = false.
Proof. reflexivity. Qed.

Lemma moves_spec i op to leg :
  (op_type op = "payment"%string /\ op_to op = to /\ op_asset_matches i op = true
   /\ match leg with Some e => amountMatches e (op_amount op) = true | None => True end)
  <-> moves i op to leg.
Proof.
  unfold moves. rewrite op_asset_matches_spec. destruct leg as [e|].
  - rewrite amountMatches_spec. split; intros (? & ? & ? & H); (do 3 (split; [done|])).
    + by intros a [= <-].
    + by apply H.
  - split; intros (? & ? & ? & H); (do 3 (split; [done|])); done.
Qed.

Lemma paymentMatches_spec i op :
  paymentMatches i op = true <->
  exists legs, paymentLegs (amount i) (merchantFee i) STELLAR_DECIMALS = Ok legs
    /\ moves i op (destination i) (destinationAmount legs).
Proof.
  unfold paymentMatches, legsOf. destruct (paymentLegs _ _ _) as [legs|] eqn:El.
  - setoid_rewrite <- moves_spec.
    destruct (bool_decide_reflect (op_type op = "payment"%string)) as [E1|E1]; simpl;
      [|split; [done | by intros (? & [= <-] & ? & _)]].
    destruct (bool_decide_reflect (op_to op = destination i)) as [E2|E2]; simpl;
      [|split; [done | by intros (? & [= <-] & ? & ? & _)]].
    destruct (op_asset_matches i op) eqn:E3; simpl;
      [|split; [done | by intros (? & [= <-] & ? & ? & ? & _)]].
    split.
    + intros H. exists legs. repeat (split; [done|]). by destruct (destinationAmount legs).
    + intros (l & [= <-] & _ & _ & _ & H). by destruct (destinationAmount legs).
  - split.
    + assert (amountMatches "-1" (op_amount op) = false) as Em.
      { unfold amountMatches. pose proof toStroops_minus_one as H0.
        destruct (toStroops "-1"); [done|]. by destruct (toStroops (op_amount op)). }
      simpl. rewrite Em. intros H. by repeat case_match.
    + by intros (? & ? & _).
Qed.

Lemma paysMerchantFee_spec i legs ops :
  paymentLegs (amount i) (merchantFee i) STELLAR_DECIMALS = Ok legs ->
  paysMerchantFee i ops = true <->
  (forall w a, legs_fee legs = Some (w, a) -> exists op, op ∈ ops /\ moves i op w (Some a)).
Proof.
  intros El. unfold paysMerchantFee, legsOf. rewrite El.
  destruct (legs_fee legs) as [[w a]|]; [|by split].
  rewrite existsb_exists. setoid_rewrite <- list_elem_of_In. setoid_rewrite <- moves_spec.
  split.
  - intros (op & Hin & H) w' a' [= <- <-]. exists op. split; [done|]. by bool_facts.
  - intros H. destruct (H w a eq_refl) as (op & Hin & E1 & E2 & E3 & E4).
    exists op. split; [done|]. rewrite E3, E4, !bool_decide_true by done. done.
Qed.

(** The three checks together are the specification. *)
Lemma pays_intent_spec i tx closedAt op ops :
  pays_intent i tx closedAt op ops <->
  memoMatches i (memo_type tx) (tx_memo tx) = true /\ predatesIntent i closedAt = false
  /\ paymentMatches i op = true /\ paysMerchantFee i ops = true.
Proof.
  rewrite memoMatches_spec, predatesIntent_spec, paymentMatches_spec. split.
  - intros [Hm Ha (l & El & Hm1 & Hf)]. split; [done|]. split; [done|]. split; [by exists l|].
    by rewrite (paysMerchantFee_spec _ l).
  - intros (Hm & Ha & (l & El & Hm1) & Hf). split; [done|done|]. exists l. split; [done|].
    split; [done|]. by apply (paysMerchantFee_spec i l ops).
Qed.

(** *** By hash *)

Lemma verifyByHash_answered stellar i h tx ops :
  hz_transaction (stellar (network i)) h = Answered tx ->
  hz_forTransaction (stellar (network i)) h = Answered ops ->
  exists r, verifyByHash stellar i h = Ok r
  /\ ((exists op, op ∈ ops /\ pays_intent i tx (created_at tx) op ops
        /\ r = if successful tx then confirmed h (Some (op_from op)) else failed_on_chain)
     \/ (~ (exists op, op ∈ ops /\ pays_intent i tx (created_at tx) op ops)
        /\ exists why, r = mismatch why)).
Proof.
  intros Ht Ho. unfold verifyByHash. rewrite Ht. cbn zeta.
  setoid_rewrite pays_intent_spec.
  destruct (memoMatches i (memo_type tx) (tx_memo tx)) eqn:Em; simpl;
    [|eexists; split; [done|]; right; split; [by intros (? & _ & ? & _) | eauto]].
  destruct (predatesIntent i (created_at tx)) eqn:Ea;
    [eexists; split; [done|]; right; split; [by intros (? & _ & _ & ? & _) | eauto]|].
  rewrite Ho. simpl. destruct (List.find (paymentMatches i) ops) as [op|] eqn:Ef.
  - apply List.find_some in Ef as [Hin Hp]. apply list_elem_of_In in Hin.
    destruct (paysMerchantFee i ops) eqn:Efee; simpl.
    + exists (if successful tx then confirmed h (Some (op_from op)) else failed_on_chain).
      split; [by destruct (successful tx)|]. left. by exists op.
    + eexists; split; [done|]. right. split; [by intros (? & _ & _ & _ & _ & ?) | eauto].
  - eexists; split; [done|]. right. split; [|eauto]. intros (op & Hin & _ & _ & Hp & _).
    apply list_elem_of_In in Hin. by rewrite (List.find_none _ _ Ef _ Hin) in Hp.
Qed.

(** *** By scan *)

Section scan.
Context (server : Horizon) (i : PaymentIntent).
(** What the joined transactions and the lookups by hash answer. *)
Context (txof : OperationRecord -> TransactionRecord).
Context (opsof : string -> list OperationRecord).

Definition good (op : OperationRecord) : bool :=
  memoMatches i (memo_type (txof op)) (tx_memo (txof op)) && paymentMatches i op
  && paysMerchantFee i (opsof (transaction_hash op)) && successful (txof op).

Definition stops (op : OperationRecord) : bool :=
  predatesIntent i (op_created_at op) || good op.

Definition verdict_on (op : OperationRecord) : VerificationResult :=
  if predatesIntent i (op_created_at op) then mismatch NoMatchYet
  else confirmed (transaction_hash op) (Some (op_from op)).

Definition answers_for (ops : list OperationRecord) : Prop :=
  forall op, op ∈ ops -> op_transaction op = Answered (txof op)
    /\ hz_forTransaction server (transaction_hash op) = Answered (opsof (transaction_hash op)).

Lemma scan_page_spec ops :
  answers_for ops -> scan_page server i ops = Ok (verdict_on <$> List.find stops ops).
Proof.
  induction ops as [|op rest IH]; intros Hans; [done|].
  assert (answers_for rest) as Hrest by (intros ? ?; apply Hans; by right).
  destruct (Hans op) as [Ht Ho]; [by left|]. specialize (IH Hrest).
  cbn [scan_page List.find]. unfold stops at 1.
  destruct (predatesIntent i (op_created_at op)) eqn:Ep.
  { simpl. unfold verdict_on. by rewrite Ep. }
  cbn [orb]. unfold good. destruct (paymentMatches i op); cbn [negb];
    [|by rewrite andb_false_r].
  rewrite Ht. cbn [awaited mbind res_bind].
  destruct (successful (txof op)); cbn [negb]; [|by rewrite andb_false_r].
  destruct (memoMatches i _ _); cbn [negb andb]; [|done].
  assert (legs_fee (legsOf i) = None -> paysMerchantFee i (opsof (transaction_hash op)) = true) as Hn.
  { unfold paysMerchantFee. by intros ->. }
  destruct (legs_fee (legsOf i)) as [fee|].
  - rewrite Ho. cbn [awaited mbind res_bind]. destruct (paysMerchantFee i _); simpl; [|done].
    unfold verdict_on. by rewrite Ep.
  - rewrite Hn by done. simpl. unfold verdict_on. by rewrite Ep.
Qed.

Context (pages : nat -> list OperationRecord).
Hypothesis pages_answered : forall n, hz_forAccount server (destination i) n = Answered (pages n).
Hypothesis short_page_last : forall n m,
  (length (pages n) < PAYMENT_SCAN_PAGE_SIZE)%nat -> (n < m)%nat -> pages m = [].

(** The records of [count] pages from page [from]. *)
Definition records (from count : nat) : list OperationRecord :=
  mjoin (pages <$> seq from count).

Lemma records_empty from count :
  (forall m, (from <= m)%nat -> pages m = []) -> records from count = [].
Proof.
  unfold records. revert from. induction count as [|c IH]; intros from H; [done|].
  simpl. rewrite H by lia. apply IH. intros. apply H. lia.
Qed.

Lemma scan_pages_spec remaining k :
  answers_for (records k (S remaining)) ->
  exists why, scan_pages server i remaining (S k) (pages k)
    = Ok (default (mismatch why) (verdict_on <$> List.find stops (records k (S remaining)))).
Proof.
  revert k. induction remaining as [|n IH]; intros k Hans.
  - unfold records in *. cbn [seq fmap list_fmap mjoin list_join] in *. rewrite app_nil_r in *.
    cbn [scan_pages]. rewrite scan_page_spec by done. cbn [mbind res_bind].
    destruct (List.find stops (pages k)); simpl; [by exists NoMatchYet|].
    case_match; eauto.
  - change (records k (S (S n))) with (pages k ++ records (S k) (S n)) in *.
    assert (answers_for (pages k) /\ answers_for (records (S k) (S n))) as [H1 H2].
    { split; intros op ?; apply Hans; apply elem_of_app; auto. }
    cbn [scan_pages]. rewrite scan_page_spec by done. cbn [mbind res_bind].
    rewrite find_app. destruct (List.find stops (pages k)) as [op|]; simpl; [by exists NoMatchYet|].
    destruct (Nat.ltb_spec (length (pages k)) PAYMENT_SCAN_PAGE_SIZE) as [L|L].
    + rewrite records_empty by (intros; by apply (short_page_last k)). simpl. eauto.
    + rewrite pages_answered. cbn [awaited mbind res_bind]. by apply IH.
Qed.

(** Newest first, and every close time parses. *)
Definition newer (a b : OperationRecord) : Prop :=
  exists ta tb, op_created_at a = Some ta /\ op_created_at b = Some tb /\ tb <= ta.

Lemma newer_predates a b :
  newer a b -> predatesIntent i (op_created_at a) = true -> predatesIntent i (op_created_at b) = true.
Proof.
  intros (ta & tb & -> & -> & L). simpl. rewrite !Z.ltb_lt. lia.
Qed.

Lemma find_in_order ops op :
  StronglySorted newer ops -> op ∈ ops -> good op = true ->
  predatesIntent i (op_created_at op) = false ->
  exists op', List.find stops ops = Some op' /\ predatesIntent i (op_created_at op') = false.
Proof.
  induction ops as [|x ops IH]; intros Hs Hin Hg Hp; [by apply not_elem_of_nil in Hin|].
  apply StronglySorted_inv in Hs as [Hs Hx]. rewrite Forall_forall in Hx.
  cbn [List.find]. unfold stops at 1. destruct (predatesIntent i (op_created_at x)) eqn:Ex.
  - exfalso. apply elem_of_cons in Hin as [->|Hin]; [congruence|].
    pose proof (newer_predates _ _ (Hx _ Hin) Ex). congruence.
  - simpl. destruct (good x) eqn:Eg; [by exists x|].
    apply elem_of_cons in Hin as [->|Hin]; [congruence | by apply IH].
Qed.

Lemma find_good ops op :
  List.find stops ops = Some op -> predatesIntent i (op_created_at op) = false ->
  op ∈ ops /\ good op = true.
Proof.
  intros H Hp. apply List.find_some in H as [Hin H]. apply list_elem_of_In in Hin.
  unfold stops in H. rewrite Hp in H. done.
Qed.
End scan.

Lemma good_spec i txof opsof op :
  good i txof opsof op = true /\ predatesIntent i (op_created_at op) = false <->
  successful (txof op) = true
  /\ pays_intent i (txof op) (op_created_at op) op (opsof (transaction_hash op)).
Proof.
  rewrite pays_intent_spec. unfold good. rewrite !andb_true_iff. tauto.
Qed.

(** *** The verifier's law *)

(** A transaction pays [i] as a lookup by hash sees it, or as a page of the
    destination's payments shows it. *)
Definition stellar_pays (stellar : StellarService) (i : PaymentIntent) (h : string) : Prop :=
  (exists tx ops op, hz_transaction (stellar (network i)) h = Answered tx
    /\ hz_forTransaction (stellar (network i)) h = Answered ops
    /\ op ∈ ops /\ successful tx = true /\ pays_intent i tx (created_at tx) op ops)
  \/ (exists n page op tx ops, hz_forAccount (stellar (network i)) (destination i) n = Answered page
    /\ op ∈ page /\ transaction_hash op = h /\ op_transaction op = Answered tx
    /\ successful tx = true /\ pays_intent i tx (op_created_at op) op ops).

Definition stellar_attempts (stellar : StellarService) (i : PaymentIntent) (h : string) : Prop :=
  exists tx ops op, hz_transaction (stellar (network i)) h = Answered tx
    /\ hz_forTransaction (stellar (network i)) h = Answered ops
    /\ op ∈ ops /\ successful tx = false /\ pays_intent i tx (created_at tx) op ops.

Lemma scan_page_sound server i ops r :
  scan_page server i ops = Ok (Some r) ->
  reports_failure r = false
  /\ (valid r = true -> exists op tx recs, op ∈ ops /\ v_txHash r = Some (transaction_hash op)
        /\ op_transaction op = Answered tx /\ successful tx = true
        /\ pays_intent i tx (op_created_at op) op recs).
Proof.
  induction ops as [|op rest IH]; [done|]. cbn [scan_page].
  assert (scan_page server i rest = Ok (Some r) ->
    reports_failure r = false
    /\ (valid r = true -> exists op' tx recs, op' ∈ op :: rest /\ v_txHash r = Some (transaction_hash op')
        /\ op_transaction op' = Answered tx /\ successful tx = true
        /\ pays_intent i tx (op_created_at op') op' recs)) as Hrest.
  { intros H. destruct (IH H) as [? Hv]. split; [done|]. intros V.
    destruct (Hv V) as (o & tx & recs & ? & ?). exists o, tx, recs. split; [by right | done]. }
  destruct (predatesIntent i (op_created_at op)) eqn:Ep; [by intros [= <-]|].
  destruct (paymentMatches i op) eqn:Em; cbn [negb]; [|done].
  destruct (op_transaction op) as [tx|] eqn:Et; [|done]. cbn [awaited mbind res_bind].
  destruct (successful tx) eqn:Es; cbn [negb]; [|done].
  destruct (memoMatches i _ _) eqn:Ememo; cbn [negb]; [|done].
  destruct (legs_fee (legsOf i)) as [fee|] eqn:El.
  - destruct (hz_forTransaction _ _) as [recs|]; [|done]. cbn [awaited mbind res_bind].
    destruct (paysMerchantFee i recs) eqn:Ef; cbn [negb]; [|done]. intros [= <-].
    split; [done|]. intros _. exists op, tx, recs. split; [by left|].
    do 3 (split; [done|]). by apply pays_intent_spec.
  - intros [= <-]. split; [done|]. intros _. exists op, tx, []. split; [by left|].
    do 3 (split; [done|]). apply pays_intent_spec. unfold paysMerchantFee. by rewrite El.
Qed.

Lemma scan_pages_sound server i remaining k page r :
  hz_forAccount server (destination i) k = Answered page ->
  scan_pages server i remaining (S k) page = Ok r ->
  reports_failure r = false
  /\ (valid r = true -> exists n p op tx recs, hz_forAccount server (destination i) n = Answered p
        /\ op ∈ p /\ v_txHash r = Some (transaction_hash op)
        /\ op_transaction op = Answered tx /\ successful tx = true
        /\ pays_intent i tx (op_created_at op) op recs).
Proof.
  revert k page. induction remaining as [|m IH]; intros k page Hk; cbn [scan_pages];
    (destruct (scan_page server i page) as [[v|]|] eqn:E; cbn [mbind res_bind]; [| |done]).
  1,3: intros [= <-]; destruct (scan_page_sound _ _ _ _ E) as [? Hv]; (split; [done|]); intros V;
    destruct (Hv V) as (op & tx & recs & ?); by exists k, page, op, tx, recs.
  - case_match; by intros [= <-].
  - case_match; [by intros [= <-]|].
    destruct (hz_forAccount server (destination i) (S k)) as [p'|] eqn:E'; [|done].
    cbn [awaited mbind res_bind]. by apply IH.
Qed.

#[export] Instance stellar_verifier_laws stellar :
  VerifierLaws Intents.stellar (StellarVerifierService stellar)
    (stellar_pays stellar) (stellar_attempts stellar).
Proof.
  assert (forall i h r, verifyByHash stellar i h = Ok r -> valid r = true \/ reports_failure r = true ->
    exists tx ops op, hz_transaction (stellar (network i)) h = Answered tx
      /\ hz_forTransaction (stellar (network i)) h = Answered ops
      /\ op ∈ ops /\ pays_intent i tx (created_at tx) op ops
      /\ r = if successful tx then confirmed h (Some (op_from op)) else failed_on_chain) as Hby.
  { intros i h r H Hr. pose proof H as H0. unfold verifyByHash in H0.
    destruct (hz_transaction (stellar (network i)) h) as [tx|] eqn:Et.
    2: { repeat case_match; simplify_eq; by destruct Hr. }
    destruct (hz_forTransaction (stellar (network i)) h) as [ops|] eqn:Eo.
    2: { simpl in H0. repeat case_match; simplify_eq; by destruct Hr. }
    destruct (verifyByHash_answered _ _ _ _ _ Et Eo) as (r' & E & Hc).
    rewrite E in H. injection H as ->.
    destruct Hc as [(op & ? & ? & ?)|[_ [why ->]]]; [by exists tx, ops, op | by destruct Hr]. }
  split.
  - intros i h r H V. destruct (Hby _ _ _ H (or_introl V)) as (tx & ops & op & ? & ? & ? & ? & E).
    destruct (successful tx) eqn:Es; subst r; [|done].
    split; [|by exists h]. left. by exists tx, ops, op.
  - intros i h r H V. destruct (Hby _ _ _ H (or_intror V)) as (tx & ops & op & ? & ? & ? & ? & E).
    destruct (successful tx) eqn:Es; subst r; [done|]. split; [done|]. by exists tx, ops, op.
  - intros i r. cbn. unfold findMatchingPayment.
    destruct (hz_forAccount _ _ 0) as [p|s] eqn:E.
    + intros H V. destruct (scan_pages_sound _ _ _ _ _ _ E H) as [_ Hv].
      destruct (Hv V) as (n & pg & op & tx & recs & ? & ? & ? & ?).
      exists (transaction_hash op). split; [done|]. right. by exists n, pg, op, tx, recs.
    + intros H V. repeat case_match; by simplify_eq.
  - intros i r. cbn. unfold findMatchingPayment.
    destruct (hz_forAccount _ _ 0) as [p|s] eqn:E.
    + intros H. by destruct (scan_pages_sound _ _ _ _ _ _ E H).
    + intros H. repeat case_match; by simplify_eq.
Qed.

(** ** Properties *)

(** C5: a Stellar transaction settles an intent exactly when it pays it. Given
    what the network says of a transaction and its payments, the verifier
    answers; it says valid exactly when the transaction succeeded and carries
    the intent's memo, is no older than the intent (a minute of clock skew
    aside), pays the destination's leg in the intent's asset to the stroop and,
    with a merchant fee, the fee's leg too; it reports a failure exactly when
    that same payment failed on-chain; and the payer it names sent the matching
    payment. *)
Theorem stellar_verify_exact (stellar : StellarService) (i : PaymentIntent) (h : string)
    (tx : TransactionRecord) (ops : list OperationRecord) :
  hz_transaction (stellar (network i)) h = Answered tx ->
  hz_forTransaction (stellar (network i)) h = Answered ops ->
  let paid := exists op, op ∈ ops /\ pays_intent i tx (created_at tx) op ops in
  exists r, verifyByHash stellar i h = Ok r
  /\ (valid r = true <-> successful tx = true /\ paid)
  /\ (reports_failure r = true <-> successful tx = false /\ paid)
  /\ (valid r = true -> v_txHash r = Some h
      /\ exists op, op ∈ ops /\ pays_intent i tx (created_at tx) op ops /\ payer r = Some (op_from op)).
Proof.
  intros Ht Ho paid. destruct (verifyByHash_answered _ _ _ _ _ Ht Ho) as (r & E & H).
  exists r. split; [done|]. destruct H as [(op & Hin & Hp & ->)|[Hno [why ->]]].
  - assert (paid) as Hpaid by (by exists op).
    destruct (successful tx); cbn.
    + split; [done|]. split; [by split; [|intros []]|]. intros _. split; [done|]. by exists op.
    + split; [by split; [|intros []]|]. done.
  - cbn. split; [by split; [|intros [_ ?]] | split; [by split; [|intros [_ ?]] | done]].
Qed.

(** the scan for a Stellar payment finds it. Over a server whose pages run
    newest first, the scan always answers, and it answers valid exactly when one
    of the newest thousand payments to the destination (five full pages) is a
    successful payment of the intent; the transaction and payer it names are
    those of such a payment. Any number of later payments below that bound
    cannot hide it. *)
Theorem stellar_scan_exact (stellar : StellarService) (i : PaymentIntent)
    (txof : OperationRecord -> TransactionRecord) (opsof : string -> list OperationRecord)
    (pages : nat -> list OperationRecord) :
  (forall n, hz_forAccount (stellar (network i)) (destination i) n = Answered (pages n)) ->
  (forall n m, (length (pages n) < PAYMENT_SCAN_PAGE_SIZE)%nat -> (n < m)%nat -> pages m = []) ->
  let seen := records pages 0 PAYMENT_SCAN_MAX_PAGES in
  answers_for (stellar (network i)) txof opsof seen ->
  StronglySorted newer seen ->
  let pays op := op ∈ seen /\ successful (txof op) = true
    /\ pays_intent i (txof op) (op_created_at op) op (opsof (transaction_hash op)) in
  exists r, findMatchingPayment stellar i = Ok r
  /\ (valid r = true <-> exists op, pays op)
  /\ (valid r = true -> exists op, pays op
        /\ v_txHash r = Some (transaction_hash op) /\ payer r = Some (op_from op))
  /\ reports_failure r = false.
Proof.
  intros Hp Hshort seen Hans Hsort pays.
  destruct (scan_pages_spec _ i txof opsof pages Hp Hshort (PAYMENT_SCAN_MAX_PAGES - 1) 0 Hans)
    as [why E].
  change (records pages 0 (S (PAYMENT_SCAN_MAX_PAGES - 1))) with seen in E.
  unfold findMatchingPayment. rewrite Hp, E. eexists. split; [done|].
  destruct (List.find (stops i txof opsof) seen) as [op|] eqn:Ef; cbn [fmap option_fmap option_map default from_option].
  - unfold verdict_on. destruct (predatesIntent i (op_created_at op)) eqn:Eo; simpl.
    + cbn. split; [|split; [discriminate | reflexivity]].
      split; [done|]. intros (op' & Hin & Hs & Hpay).
      pose proof (proj2 (good_spec _ _ _ _) (conj Hs Hpay)) as [Hg Hpre].
      destruct (find_in_order _ _ _ _ _ Hsort Hin Hg Hpre) as (op'' & E' & Hp').
      rewrite Ef in E'. congruence.
    + destruct (find_good _ _ _ _ _ Ef Eo) as [Hin Hg].
      assert (pays op) as Hpay by (split; [done|]; by apply good_spec).
      split; [split; eauto|]. split; [|done]. by exists op.
  - cbn. split; [|split; [discriminate | reflexivity]].
    split; [done|]. intros (op' & Hin & Hs & Hpay).
    pose proof (proj2 (good_spec _ _ _ _) (conj Hs Hpay)) as [Hg Hpre].
    destruct (find_in_order _ _ _ _ _ Hsort Hin Hg Hpre) as (op'' & E' & _). congruence.
Qed.

(** *** Witnesses *)

Definition sample_tx : TransactionRecord :=
  mkTxRecord (Some "id"%string) (Some "7"%string) (Some 100000) true.
Definition sample_op (amount hash : string) (at_ : Z) (tx : TransactionRecord) : OperationRecord :=
  mkOpRecord "payment" "GPAYER" "GDEST" "native" None None amount (Some at_) hash (Answered tx).
Definition sample_stellar_intent : PaymentIntent :=
  mkPaymentIntent "a" "shop" PAY "stellar" "public" None "GDEST" (Some "25.5"%string) "native" None None
    "7" None None None None None PENDING None "" None None None JNull None 90000.
(** The payment, under later dust. *)
Definition sample_page : list OperationRecord :=
  [sample_op "0.0000001" "dust" 100500 (mkTxRecord None None (Some 100500) true);
   sample_op "25.5000000" "paid" 100000 sample_tx].
Definition sample_horizon : StellarService := fun _ =>
  mkHorizon (fun h => if bool_decide (h = "paid")%string then Answered sample_tx else Failed (Some 404))
    (fun _ => Answered [sample_op "25.5000000" "paid" 100000 sample_tx])
    (fun _ n => Answered (match n with O => sample_page | _ => [] end)).

Lemma stellar_verify_exact_witness :
  hz_transaction (sample_horizon "public") "paid" = Answered sample_tx
  /\ (exists r, verifyByHash sample_horizon sample_stellar_intent "paid" = Ok r /\ valid r = true
      /\ v_txHash r = Some "paid"%string).
Proof.
  split; [reflexivity|].
  destruct (stellar_verify_exact sample_horizon sample_stellar_intent "paid" sample_tx _ eq_refl eq_refl)
    as (r & E & _ & _ & H).
  exists r. split; [exact E|].
  assert (valid r = true) as V by (vm_compute in E; injection E as <-; reflexivity).
  split; [exact V | exact (proj1 (H V))].
Defined.

Lemma stellar_scan_exact_witness :
  exists r, findMatchingPayment sample_horizon sample_stellar_intent = Ok r
  /\ reports_failure r = false /\ valid r = true /\ v_txHash r = Some "paid"%string.
Proof.
  destruct (stellar_scan_exact sample_horizon sample_stellar_intent
    (fun op => match op_transaction op with Answered tx => tx | Failed _ => sample_tx end)
    (fun _ => [sample_op "25.5000000" "paid" 100000 sample_tx])
    (fun n => match n with O => sample_page | _ => [] end)) as (r & E & _ & _ & Hf).
  - intros n. reflexivity.
  - intros n m _ Hm. destruct m; [lia | reflexivity].
  - intros op Hin. change (op ∈ sample_page) in Hin. unfold sample_page in Hin. rewrite !elem_of_cons, elem_of_nil in Hin.
    destruct Hin as [->|[->|[]]]; split; reflexivity.
  - vm_compute. repeat constructor. exists 100500, 100000. repeat split; done.
  - exists r. split; [exact E|]. split; [exact Hf|].
    vm_compute in E. injection E as <-. split; reflexivity.
Defined.
