(* ===== verification/SolanaVerifier.v ===== *)
(** src/src/payment-intents/solana-verifier.service.ts: the verifier of Solana
    payments, over an RPC node given by its answers. *)

From S2P Require Import Prelude Text Units MerchantFee Intents Verifier.
From stdpp Require Import base tactics list option strings.
From Stdlib Require Import ZArith Lia Ascii.

Open Scope Z_scope.

(** ** Node records (src/src/solana/solana-rpc.client.ts) *)

Record SolanaTokenBalance := mkTokenBalance {
  accountIndex : Z;
  mint : string;
  owner : option string;
  uiAmount : string
}.

Record SolanaAccountKey := mkAccountKey { pubkey : string; signer : bool }.

(** [meta.err] is kept as its truthiness, an absent list of token balances as
    the empty one ([balances ?? []]). *)
Record SolanaMeta := mkMeta {
  meta_err : bool;
  preBalances : list jsnum;
  postBalances : list jsnum;
  preTokenBalances : list SolanaTokenBalance;
  postTokenBalances : list SolanaTokenBalance
}.

Record SolanaTransaction := mkSolanaTx {
  blockTime : option Z;
  meta : option SolanaMeta;
  accountKeys : list SolanaAccountKey
}.

Record SolanaSignatureInfo := mkSignature { signature : string; sig_err : bool }.

(** The two reads, per network tier; a fault of the node is thrown. *)
Record SolanaRpc := mkSolanaRpc {
  sol_getTransaction : string -> string -> res (option SolanaTransaction);
  sol_getSignaturesForAddress : string -> string -> Z -> res (list SolanaSignatureInfo)
}.

Definition SOLANA_REFERENCE_SIGNATURE_LIMIT : Z := 20.

(** ** What an account received *)

(** [BigInt(n)] on a number: [undefined] and non-integers throw. *)
Definition BigInt_number (n : option jsnum) : res Z :=
  match n with
  | Some (NumInt z) => Ok z
  | Some NumOther => Throw RangeError
  | None => Throw JsError
  end.

Definition BigInt_string (s : string) : res Z := res_of_option JsError (BigInt_text s).

Fixpoint findIndex (p : SolanaAccountKey -> bool) (l : list SolanaAccountKey) : option nat :=
  match l with
  | [] => None
  | k :: l => if p k then Some O else S <$> findIndex p l
  end.

(** [owned(balances)] *)
Definition owned (i : PaymentIntent) (who : string) (balances : list SolanaTokenBalance)
    : list SolanaTokenBalance :=
  List.filter (fun b => opt_eqb (owner b) (Some who) && opt_eqb (Some (mint b)) (assetIssuer i))
    balances.

(** The [for] loop that adds up [delta]. *)
Fixpoint token_delta (pre post : list SolanaTokenBalance) (delta : Z) : res Z :=
  match post with
  | [] => Ok delta
  | balance :: post =>
      let before := List.find (fun b => accountIndex b =? accountIndex balance) pre in
      a ← BigInt_string (uiAmount balance);
      b ← BigInt_string (default "0"%string (uiAmount <$> before));
      token_delta pre post (delta + (a - b))
  end.

Definition received (i : PaymentIntent) (tx : SolanaTransaction) (who : string)
    : res (option Z) :=
  match meta tx with
  | None => Ok None
  | Some m =>
      if bool_decide (asset i = "native"%string) then
        match findIndex (fun k => bool_decide (pubkey k = who)) (accountKeys tx) with
        | None => Ok None
        | Some index =>
            post ← BigInt_number (postBalances m !! index);
            pre ← BigInt_number (preBalances m !! index);
            Ok (Some (post - pre))
        end
      else
        match owned i who (postTokenBalances m) with
        | [] => Ok None
        | post => Some <$> token_delta (owned i who (preTokenBalances m)) post 0
        end
  end.

Definition solana_decimals (i : PaymentIntent) : nat :=
  if bool_decide (asset i = "native"%string) then NATIVE_DECIMALS solana
  else default (NATIVE_DECIMALS solana) (assetDecimals i).

(** [legs]: the destination's base units and the fee's wallet and base units. *)
Definition legs (i : PaymentIntent) : option (Z * option (string * Z)) :=
  match amount i with
  | None => None
  | Some _ =>
      let decimals := solana_decimals i in
      match
        (l ← paymentLegs (amount i) (merchantFee i) decimals;
         destination ← res_of_option JsError (destinationAmount l);
         d ← parseUnits destination decimals;
         match legs_fee l with
         | None => Ok (d, None)
         | Some (w, a) => f ← parseUnits a decimals; Ok (d, Some (w, f))
         end)
      with
      | Ok l => Some l
      | Throw _ => None
      end
  end.

(** ** The rule *)

Definition check (i : PaymentIntent) (sig_ : string) (tx : SolanaTransaction)
    : res VerificationResult :=
  let carries :=
    match chainReference i with
    | Some r => truthy (Some r) && existsb (fun k => bool_decide (pubkey k = r)) (accountKeys tx)
    | None => false
    end in
  if negb carries then Ok (mismatch LacksReference)
  else if match blockTime tx with
          | None => true
          | Some t => t * 1000 <? createdAt i - TX_CREATED_AT_SKEW_MS
          end
  then Ok (mismatch PredatesIntent)
  else if match meta tx with None => true | Some m => meta_err m end
  then Ok failed_on_chain
  else
    got ← received i tx (destination i);
    match got with
    | None => Ok (mismatch NoTransferPaysDestination)
    | Some got =>
        if got <=? 0 then Ok (mismatch NoTransferPaysDestination)
        else
          let l := legs i in
          if bool_decide (is_Some (amount i)) && negb (bool_decide (fst <$> l = Some got))
          then Ok (mismatch TransferAmountMismatch)
          else
            unpaid ← match l with
                     | Some (_, Some (w, a)) =>
                         f ← received i tx w; Ok (negb (bool_decide (f = Some a)))
                     | _ => Ok false
                     end;
            if (unpaid : bool) then Ok (mismatch MerchantFeeUnpaid)
            else Ok (confirmed sig_ (pubkey <$> List.find signer (accountKeys tx)))
    end.

Definition verifyByHash (rpc : SolanaRpc) (i : PaymentIntent) (sig_ : string)
    : res VerificationResult :=
  tx ← sol_getTransaction rpc (network i) sig_;
  match tx with
  | None => Ok (mismatch TransactionNotFound)
  | Some tx => check i sig_ tx
  end.

(** The loop over the signatures, oldest first. *)
Fixpoint scan_signatures (rpc : SolanaRpc) (i : PaymentIntent)
    (entries : list SolanaSignatureInfo) : res VerificationResult :=
  match entries with
  | [] => Ok (mismatch NoMatchYet)
  | entry :: rest =>
      if sig_err entry then scan_signatures rpc i rest
      else
        tx ← sol_getTransaction rpc (network i) (signature entry);
        match tx with
        | None => scan_signatures rpc i rest
        | Some tx =>
            result ← check i (signature entry) tx;
            if valid result then Ok result else scan_signatures rpc i rest
        end
  end.

Definition findMatchingPayment (rpc : SolanaRpc) (i : PaymentIntent) : res VerificationResult :=
  if negb (truthy (chainReference i)) then Ok (mismatch NoReference)
  else
    signatures ← sol_getSignaturesForAddress rpc (network i)
                   (default ""%string (chainReference i)) SOLANA_REFERENCE_SIGNATURE_LIMIT;
    scan_signatures rpc i (rev signatures).

Definition SolanaVerifierService (rpc : SolanaRpc) : PaymentVerifier :=
  mkVerifier (verifyByHash rpc) (findMatchingPayment rpc).

(** ** Specification *)

(** A transaction made from the intent's own link, recent enough. *)
Record attempt_of (i : PaymentIntent) (tx : SolanaTransaction) : Prop := {
  att_reference : exists r k, chainReference i = Some r /\ r <> ""%string
    /\ k ∈ accountKeys tx /\ pubkey k = r;
  att_age : exists t, blockTime tx = Some t /\ closed_in_time i (t * 1000)
}.

(** A token balance of [who] in the intent's own mint. *)
Definition holds (i : PaymentIntent) (who : string) (b : SolanaTokenBalance) : Prop :=
  owner b = Some who /\ assetIssuer i = Some (mint b).

(** What [account] held of it before the transaction: its entry among the
    balances, or nothing when it has none (an account made by the transaction). *)
Inductive opened (i : PaymentIntent) (who : string) (account : Z) : list SolanaTokenBalance -> Z -> Prop :=
  | opened_none pre :
      (forall b, b ∈ pre -> holds i who b -> accountIndex b <> account) -> opened i who account pre 0
  | opened_at before b after n :
      (forall x, x ∈ before -> holds i who x -> accountIndex x <> account) ->
      holds i who b -> accountIndex b = account -> BigInt_text (uiAmount b) = Some n ->
      opened i who account (before ++ b :: after) n.

(** The sum of the rises of [who]'s accounts of the intent's mint; other
    balances do not count. *)
Inductive raised (i : PaymentIntent) (who : string) (pre : list SolanaTokenBalance)
    : list SolanaTokenBalance -> Z -> Prop :=
  | raised_nil : raised i who pre [] 0
  | raised_other b post n :
      ~ holds i who b -> raised i who pre post n -> raised i who pre (b :: post) n
  | raised_own b post after before n :
      holds i who b -> BigInt_text (uiAmount b) = Some after ->
      opened i who (accountIndex b) pre before -> raised i who pre post n ->
      raised i who pre (b :: post) (after - before + n).

(** [who] gained [n] base units of the intent's asset in a transaction. *)
Inductive gained (i : PaymentIntent) (tx : SolanaTransaction) (who : string) : Z -> Prop :=
  | gained_native m before k after x y :
      meta tx = Some m -> asset i = "native"%string ->
      accountKeys tx = before ++ k :: after -> pubkey k = who ->
      (forall k', k' ∈ before -> pubkey k' <> who) ->
      preBalances m !! length before = Some (NumInt x) ->
      postBalances m !! length before = Some (NumInt y) ->
      gained i tx who (y - x)
  | gained_token m n :
      meta tx = Some m -> asset i <> "native"%string ->
      (exists b, b ∈ postTokenBalances m /\ holds i who b) ->
      raised i who (preTokenBalances m) (postTokenBalances m) n ->
      gained i tx who n.

(** The decimals an amount of the intent is written in. *)
Definition written_in (i : PaymentIntent) : nat :=
  if decide (asset i = "native"%string) then 9%nat else default 9%nat (assetDecimals i).

(** What the destination and the fee's wallet are owed, in base units: the
    amount; with a stored merchant fee, the amount less the fee when the
    recipient pays it, and the fee to its wallet. *)
Inductive owed (i : PaymentIntent) : Z -> option (string * Z) -> Prop :=
  | owed_whole a v :
      amount i = Some a -> readMerchantFeeRecord (merchantFee i) = None ->
      parseUnits a (written_in i) = Ok v -> owed i v None
  | owed_recipient a r v f :
      amount i = Some a -> readMerchantFeeRecord (merchantFee i) = Some r -> rec_paidBy r = recipient ->
      parseUnits a (written_in i) = Ok v -> parseUnits (rec_amount r) (written_in i) = Ok f -> f <= v ->
      owed i (v - f) (Some (rec_wallet r, f))
  | owed_payer a r v f :
      amount i = Some a -> readMerchantFeeRecord (merchantFee i) = Some r -> rec_paidBy r = MerchantFee.payer ->
      parseUnits a (written_in i) = Ok v -> parseUnits (rec_amount r) (written_in i) = Ok f ->
      owed i v (Some (rec_wallet r, f)).

(** The balances of a successful transaction show the intent's legs: the
    destination gained what it is owed and the fee's wallet the fee; of an
    intent without an amount, the destination gained something. *)
Record settles (i : PaymentIntent) (tx : SolanaTransaction) : Prop := {
  set_succeeded : exists m, meta tx = Some m /\ meta_err m = false;
  set_legs : exists got, gained i tx (destination i) got /\ 0 < got
    /\ (is_Some (amount i) -> exists fee_leg, owed i got fee_leg
          /\ forall w f, fee_leg = Some (w, f) -> gained i tx w f)
}.

Definition tx_failed (tx : SolanaTransaction) : Prop :=
  meta tx = None \/ exists m, meta tx = Some m /\ meta_err m = true.

(** ** Lemmas *)

Lemma carries_spec i tx :
  match chainReference i with
  | Some r => truthy (Some r) && existsb (fun k => bool_decide (pubkey k = r)) (accountKeys tx)
  | None => false
  end = true <->
  exists r k, chainReference i = Some r /\ r <> ""%string /\ k ∈ accountKeys tx /\ pubkey k = r.
Proof.
  destruct (chainReference i) as [r|]; [|split; [done | by intros (? & ? & ? & _)]].
  rewrite andb_true_iff, existsb_exists. setoid_rewrite <- list_elem_of_In. split.
  - intros [Ht (k & Hin & Hk)]. apply bool_decide_eq_true in Hk. exists r, k.
    split; [done|]. split; [by destruct r|done].
  - intros (r' & k & [= <-] & Hne & Hin & Hk). split; [by destruct r|].
    exists k. split; [done|]. by apply bool_decide_eq_true.
Qed.

Lemma legs_no_amount i : amount i = None -> legs i = None.
Proof. unfold legs. by intros ->. Qed.

(** *** What was gained *)

Lemma opt_eqb_Some a b : opt_eqb a (Some b) = true <-> a = Some b.
Proof. apply opt_eqb_true. Qed.

Lemma owned_spec i who b balances : b ∈ owned i who balances <-> b ∈ balances /\ holds i who b.
Proof.
  unfold owned, holds. rewrite list_elem_of_In, List.filter_In, <- list_elem_of_In, andb_true_iff, !opt_eqb_true.
  naive_solver.
Qed.

Lemma holds_dec i who b : {holds i who b} + {~ holds i who b}.
Proof. unfold holds. destruct (decide (owner b = Some who)), (decide (assetIssuer i = Some (mint b))); first [by left; split | right; by intros [??]]. Qed.

Lemma owned_cons i who b l :
  owned i who (b :: l) = if holds_dec i who b then b :: owned i who l else owned i who l.
Proof.
  unfold owned. cbn [List.filter]. destruct (holds_dec i who b) as [[H1 H2]|H].
  - by rewrite H1, H2, !opt_eqb_refl.
  - destruct (opt_eqb (owner b) (Some who)) eqn:E1; [|done]. destruct (opt_eqb (Some (mint b)) (assetIssuer i)) eqn:E2; [|done].
    apply opt_eqb_true in E1. apply opt_eqb_true in E2. exfalso. apply H. by split.
Qed.

(** The look-up of the account's earlier balance reads what it held. *)
Lemma opened_spec i who account pre n :
  opened i who account pre n <->
  BigInt_string (default "0"%string
    (uiAmount <$> List.find (fun b => accountIndex b =? account) (owned i who pre))) = Ok n.
Proof.
  induction pre as [|b pre IH].
  - split; [|intros [= <-]; apply opened_none; by intros b ?%not_elem_of_nil].
    intros H. inversion H as [? _|before ? ? ? ? ? ? ? E]; [done|]. by destruct before.
  - rewrite owned_cons. destruct (holds_dec i who b) as [Hb|Hb]; cbn [List.find].
    + destruct (Z.eqb_spec (accountIndex b) account) as [Ei|Ei].
      * cbn. unfold BigInt_string. split.
        -- intros H. inversion H as [? Hn|before x after n' Hn Hx Ex En E].
           ++ by destruct (Hn b ltac:(by left) Hb).
           ++ destruct before as [|y before]; injection E as -> E; [by rewrite En|].
              by destruct (Hn b ltac:(by left) Hb).
        -- intros H. destruct (BigInt_text (uiAmount b)) as [x|] eqn:Ex; [|done]. injection H as <-.
           apply (opened_at i who account []); try done. by intros x' ?%not_elem_of_nil.
      * rewrite <- IH. split; intros H.
        -- inversion H as [? Hn|before x after n' Hn Hx Ex En E].
           ++ apply opened_none. intros x Hx. apply Hn. by right.
           ++ destruct before as [|y before]; injection E as -> E; [congruence|]. subst pre.
              apply opened_at; try done. intros z Hz. apply Hn. by right.
        -- inversion H as [? Hn|before x after n' Hn Hx Ex En E]; subst.
           ++ apply opened_none. intros x [->|Hx]%elem_of_cons; [done|by apply Hn].
           ++ apply (opened_at i who (accountIndex x) (b :: before)); try done.
              intros z [->|Hz]%elem_of_cons; [done|by apply Hn].
    + rewrite <- IH. split; intros H.
      * inversion H as [? Hn|before x after n' Hn Hx Ex En E].
        -- apply opened_none. intros x Hx. apply Hn. by right.
        -- destruct before as [|y before]; injection E as -> E; [done|]. subst pre.
           apply opened_at; try done. intros z Hz. apply Hn. by right.
      * inversion H as [? Hn|before x after n' Hn Hx Ex En E]; subst.
        -- apply opened_none. intros x [->|Hx]%elem_of_cons; [done|by apply Hn].
        -- apply (opened_at i who (accountIndex x) (b :: before)); try done.
           intros z [->|Hz]%elem_of_cons; [done|by apply Hn].
Qed.

Lemma raised_spec i who pre post d n :
  raised i who pre post (n - d) <-> token_delta (owned i who pre) (owned i who post) d = Ok n.
Proof.
  revert d. induction post as [|b post IH]; intros d.
  - cbn. split; [|intros [= ->]; rewrite Z.sub_diag; constructor].
    intros H. inversion H as [E| |]. f_equal. lia.
  - rewrite owned_cons. destruct (holds_dec i who b) as [Hb|Hb].
    + cbn [token_delta]. change (BigInt_string (uiAmount b)) with (res_of_option JsError (BigInt_text (uiAmount b))). split.
      * intros H. inversion H as [|? ? ? Hn|? ? x y m _ Ex Ey Hm E]; [by destruct Hn|]; subst. rewrite Ex. cbn [res_of_option mbind res_bind].
        apply opened_spec in Ey. rewrite Ey. cbn [mbind res_bind]. apply IH. replace (n - (d + (x - y))) with m by lia. done.
      * destruct (BigInt_text (uiAmount b)) as [x|] eqn:Ex; [|done]. cbn [res_of_option mbind res_bind].
        destruct (BigInt_string _) as [y|] eqn:Ey; [|done]. cbn [mbind res_bind]. apply opened_spec in Ey. intros H%IH.
        replace (n - d) with (x - y + (n - (d + (x - y)))) by lia. by constructor.
    + rewrite <- IH. split; [|by constructor]. intros H. inversion H; subst; [done|]. done.
Qed.

Lemma findIndex_Some (p : SolanaAccountKey -> bool) l n :
  findIndex p l = Some n <-> exists before k after, l = before ++ k :: after /\ length before = n
    /\ p k = true /\ forall k', k' ∈ before -> p k' = false.
Proof.
  revert n. induction l as [|x l IH]; intros n; cbn [findIndex].
  { split; [done|]. by intros ([|? ?] & ? & ? & ? & _). }
  destruct (p x) eqn:Ex.
  - split.
    + intros [= <-]. exists [], x, l. split_and!; try done. by intros k ?%not_elem_of_nil.
    + intros ([|y before] & k & after & E & <- & Hk & Hb); [done|]. injection E as -> _.
      rewrite (Hb y) in Ex; [done|by left].
  - destruct (findIndex p l) as [m|] eqn:Em; cbn.
    + split.
      * intros [= <-]. destruct (proj1 (IH m) eq_refl) as (before & k & after & -> & <- & Hk & Hb).
        exists (x :: before), k, after. split_and!; try done. by intros k' [->|?]%elem_of_cons; [|apply Hb].
      * intros ([|y before] & k & after & E & <- & Hk & Hb); injection E as -> E; [congruence|].
        assert (Some m = Some (length before)) as [= ->]; [|done]. apply IH. exists before, k, after.
        split_and!; try done. intros k' H. apply Hb. by right.
    + split; [done|]. intros ([|y before] & k & after & E & <- & Hk & Hb); injection E as -> E; [congruence|].
      assert (None = Some (length before)) as [=]. apply IH. exists before, k, after.
      split_and!; try done. intros k' H. apply Hb. by right.
Qed.

Lemma received_gained i tx who n : received i tx who = Ok (Some n) <-> gained i tx who n.
Proof.
  unfold received. destruct (meta tx) as [m|] eqn:Em.
  2: { split; [done|]. intros H. inversion H; congruence. }
  case_bool_decide as Ea.
  - split.
    + destruct (findIndex _ _) as [j|] eqn:Ej; [|done].
      apply findIndex_Some in Ej as (before & k & after & El & <- & Hk%bool_decide_eq_true & Hb).
      destruct (postBalances m !! length before) as [[y|]|] eqn:Ey; try done.
      destruct (preBalances m !! length before) as [[x|]|] eqn:Ex; try done. cbn. intros [= <-].
      eapply gained_native; try done. intros k' Hk'. specialize (Hb k' Hk'). by apply bool_decide_eq_false in Hb.
    + intros H. inversion H as [m' before k after x y Em' _ El Hk Hb Hx Hy|]; [|done]. rewrite Em in Em'. injection Em' as <-.
      assert (findIndex (fun k => bool_decide (pubkey k = who)) (accountKeys tx) = Some (length before)) as ->.
      { apply findIndex_Some. exists before, k, after. split_and!; try done; [by apply bool_decide_eq_true|].
        intros k' Hk'. apply bool_decide_eq_false. by apply Hb. }
      by rewrite Hx, Hy.
  - assert (owned i who (postTokenBalances m) = [] <-> ~ exists b, b ∈ postTokenBalances m /\ holds i who b) as Hnil.
    { split.
      - intros E (b & H). apply owned_spec in H. rewrite E in H. by apply not_elem_of_nil in H.
      - intros H. destruct (owned _ _ _) as [|b l] eqn:E; [done|]. destruct H. exists b. apply owned_spec. rewrite E. by left. }
    destruct (owned i who (postTokenBalances m)) as [|b l] eqn:Eo.
    + split; [done|]. intros H. inversion H; [done|]. simplify_eq. by destruct (proj1 Hnil eq_refl).
    + rewrite <- Eo in *. pose proof (raised_spec i who (preTokenBalances m) (postTokenBalances m) 0 n) as Hr.
      rewrite Z.sub_0_r in Hr. split.
      * intros H. apply gained_token with m; try done.
        -- exists b. apply owned_spec. rewrite Eo. by left.
        -- apply Hr. by destruct (token_delta _ _ 0); [injection H as ->|].
      * intros H. inversion H as [|m' ? Em' _ _ H']; [done|]. rewrite Em in Em'. injection Em' as <-. apply Hr in H'. by rewrite H'.
Qed.

(** *** What is owed *)

Lemma parse_negative v d : v < 0 -> is_ok (parseUnits (formatUnits v d) d) = false.
Proof.
  intros Hv. unfold parseUnits, formatUnits. destruct (Z.ltb_spec v 0); [|lia]. set (body := if bool_decide _ then _ else _).
  destruct (decimal_exec (String "-"%char body)) as [[w f]|] eqn:E; [|done]. apply decimal_exec_spec in E as (E & Hw & _).
  apply is_digits_spec in Hw as [Hne Hw]. destruct w as [|c w]; [done|]. destruct f; injection E as <- _; done.
Qed.

Lemma legs_owed i n fee_leg : legs i = Some (n, fee_leg) <-> owed i n fee_leg.
Proof.
  unfold legs, paymentLegs. assert (solana_decimals i = written_in i) as ->.
  { unfold solana_decimals, written_in. destruct (decide _); [by rewrite bool_decide_true|by rewrite bool_decide_false]. }
  destruct (amount i) as [a|] eqn:Ea; [|split; [done|]; intros H; inversion H; congruence].
  destruct (readMerchantFeeRecord (merchantFee i)) as [r|] eqn:Er; cbn [mbind res_bind res_of_option].
  - destruct (parseUnits a (written_in i)) as [v|] eqn:Ev; cbn [mbind res_bind]; [|split; [done|]; intros H; inversion H; congruence].
    destruct (parseUnits (rec_amount r) (written_in i)) as [f|] eqn:Ef; cbn [mbind res_bind]; [|split; [done|]; intros H; inversion H; congruence].
    cbn [destinationAmount legs_fee res_of_option mbind res_bind]. pose proof (parseUnits_nonneg _ _ _ Ev).
    destruct (rec_paidBy r) eqn:Ep.
    + destruct (decide (f <= v)) as [L|L].
      * rewrite parse_format_units by lia. cbn [mbind res_bind]. rewrite Ef. cbn [mbind res_bind]. split; [intros [= <- <-]; by econstructor|].
        intros H'. inversion H'; simplify_eq; congruence.
      * pose proof (parse_negative (v - f) (written_in i) ltac:(lia)) as Hneg.
        destruct (parseUnits (formatUnits _ _) _); [done|]. split; [done|]. intros H'. exfalso.
        inversion H' as [|? r0 v0 f0 Ea' Er' _ Ev' Ef' L'|]; [congruence| |congruence].
        assert (r0 = r) as -> by congruence. assert (v0 = v) as -> by congruence. assert (f0 = f) as -> by congruence. done.
    + rewrite parse_format_units by lia. cbn [mbind res_bind]. rewrite Ef. cbn [mbind res_bind]. split; [intros [= <- <-]; by econstructor|].
      intros H'. inversion H'; simplify_eq; congruence.
  - cbn [destinationAmount legs_fee res_of_option mbind res_bind]. destruct (parseUnits a (written_in i)) as [v|] eqn:Ev; cbn [mbind res_bind].
    + split; [intros [= <- <-]; by econstructor|]. intros H. inversion H; simplify_eq; congruence.
    + split; [done|]. intros H. inversion H; simplify_eq; congruence.
Qed.

(** The legs as [check] reads them are those of the specification. *)
Lemma settles_spec i tx : settles i tx <->
  (exists m, meta tx = Some m /\ meta_err m = false)
  /\ exists got, received i tx (destination i) = Ok (Some got) /\ 0 < got
    /\ (forall a, amount i = Some a -> exists fee_leg,
          legs i = Some (got, fee_leg)
          /\ forall w f, fee_leg = Some (w, f) -> received i tx w = Ok (Some f)).
Proof.
  split.
  - intros [Hm (got & Hg & Hp & Hl)]. split; [done|]. exists got. split; [by apply received_gained|]. split; [done|].
    intros a Ea. destruct (Hl ltac:(by rewrite Ea)) as (fl & Ho & Hf). exists fl. split; [by apply legs_owed|].
    intros w f E. by apply received_gained, Hf.
  - intros [Hm (got & Hg & Hp & Hl)]. split; [done|]. exists got. split; [by apply received_gained|]. split; [done|].
    intros [a Ea]. destruct (Hl a Ea) as (fl & Ho & Hf). exists fl. split; [by apply legs_owed|].
    intros w f E. by apply received_gained, Hf.
Qed.

(** What [check] answers, by cases of the specification. *)
Lemma check_spec i s tx r :
  check i s tx = Ok r ->
  (valid r = true <-> attempt_of i tx /\ settles i tx)
  /\ (reports_failure r = true <-> attempt_of i tx /\ tx_failed tx)
  /\ (valid r = true -> r = confirmed s (pubkey <$> List.find signer (accountKeys tx))).
Proof.
  unfold check. pose proof (carries_spec i tx) as Hc.
  destruct (match chainReference i with Some r => _ | None => _ end); cbn [negb].
  2: { intros [= <-]. assert (~ attempt_of i tx) by (intros [Hr _]; by apply Hc in Hr).
       split; [by split; [|intros []]|]. split; [by split; [|intros []]|done]. }
  assert (exists r k, chainReference i = Some r /\ r <> ""%string /\ k ∈ accountKeys tx /\ pubkey k = r)
    as Href by by apply Hc. clear Hc.
  assert (match blockTime tx with None => true | Some t => t * 1000 <? createdAt i - TX_CREATED_AT_SKEW_MS end = false
    <-> exists t, blockTime tx = Some t /\ closed_in_time i (t * 1000)) as Ha.
  { unfold closed_in_time. destruct (blockTime tx) as [t|].
    - rewrite Z.ltb_ge. split; [eauto | by intros (? & [= <-] & ?)].
    - split; [done | by intros (? & ? & _)]. }
  destruct (match blockTime tx with None => true | Some t => _ end).
  { intros [= <-]. assert (~ attempt_of i tx) by (intros [_ Hr]; by apply Ha in Hr).
    split; [by split; [|intros []]|]. split; [by split; [|intros []]|done]. }
  assert (attempt_of i tx) as Hatt by (split; [done | by apply Ha]). clear Ha Href.
  assert (match meta tx with None => true | Some m => meta_err m end = true <-> tx_failed tx) as Hf.
  { unfold tx_failed. destruct (meta tx) as [m|]; [|by split; auto].
    split; [eauto|]. by intros [|(? & [= <-] & ?)]. }
  destruct (match meta tx with None => true | Some m => meta_err m end) eqn:Em.
  { intros [= <-]. assert (tx_failed tx) as Hft by by apply Hf.
    split; [|by split]. split; [done|]. intros [_ [(m & E1 & E2) _]%settles_spec].
    destruct Hft as [E|(m' & E & E')]; rewrite E in E1; [done|]. congruence. }
  assert (~ tx_failed tx) as Hok by (intros H; by apply Hf in H). clear Hf.
  assert (exists m, meta tx = Some m /\ meta_err m = false) as Hm
    by (destruct (meta tx) as [m|]; [by exists m | done]). clear Em.
  assert (forall why, r = mismatch why -> ~ settles i tx ->
    (valid r = true <-> attempt_of i tx /\ settles i tx)
    /\ (reports_failure r = true <-> attempt_of i tx /\ tx_failed tx)
    /\ (valid r = true -> r = confirmed s (pubkey <$> List.find signer (accountKeys tx)))) as Hmis.
  { intros why -> Hns. split; [by split; [|intros []]|]. split; [by split; [|intros []]|done]. }
  destruct (received i tx (destination i)) as [[got|]|] eqn:Eg; cbn [mbind res_bind]; [| |done].
  2: { intros [= <-]. eapply Hmis; [done|]. intros [_ (g & ? & _)]%settles_spec. congruence. }
  destruct (Z.leb_spec got 0) as [L|L].
  { intros [= <-]. eapply Hmis; [done|]. intros [_ (g & Hg & ? & _)]%settles_spec. rewrite Eg in Hg. injection Hg as <-. lia. }
  destruct (bool_decide (is_Some (amount i)) && negb (bool_decide (fst <$> legs i = Some got))) eqn:Ea.
  { bool_facts. intros [= <-]. eapply Hmis; [done|]. intros [_ (g & Hg & ? & Hl)]%settles_spec. rewrite Eg in Hg. injection Hg as <-.
    match goal with H : is_Some _ |- _ => destruct H as [a Ea'] end.
    destruct (Hl a Ea') as (fl & E & _). rewrite E in *. done. }
  assert (forall a, amount i = Some a -> exists fl, legs i = Some (got, fl)) as Hlegs.
  { intros a E. apply andb_false_iff in Ea as [Ea|Ea]; bool_facts.
    - destruct Ea. rewrite E. by eexists.
    - destruct (legs i) as [[g fl]|]; [|done]. simpl in *. simplify_eq. by eexists. }
  clear Ea.
  assert ((match legs i with
    | Some (_, Some (w, a)) => f ← received i tx w; Ok (negb (bool_decide (f = Some a)))
    | _ => Ok false end = Ok false) <->
    (forall a, amount i = Some a -> exists fl, legs i = Some (got, fl)
       /\ forall w f, fl = Some (w, f) -> received i tx w = Ok (Some f))) as Hfee.
  { split.
    - intros H a E. destruct (Hlegs a E) as [fl El]. exists fl. split; [done|]. intros w f ->.
      rewrite El in H. destruct (received i tx w) as [o|]; [|done]. simpl in H. injection H as H.
      apply negb_false_iff, bool_decide_eq_true in H. by rewrite H.
    - intros H. destruct (amount i) as [a|] eqn:E; [|by rewrite legs_no_amount].
      destruct (H a eq_refl) as (fl & -> & Hfl). destruct fl as [[w f]|]; [|done].
      rewrite (Hfl w f eq_refl). simpl. by rewrite bool_decide_true. }
  destruct (match legs i with Some (_, Some (w, a)) => _ | _ => _ end) as [[|]|]; cbn [mbind res_bind]; [| |done].
  - intros [= <-]. eapply Hmis; [done|]. intros [_ (g & Hg & ? & Hl)]%settles_spec. rewrite Eg in Hg. injection Hg as <-.
    by apply Hfee in Hl.
  - intros [= <-]. split; [|split; [by split; [|intros []]|done]]. split; [|done]. intros _.
    split; [done|]. apply settles_spec. split; [done|]. exists got. do 2 (split; [done|]). by apply Hfee.
Qed.

Lemma scan_signatures_spec rpc i entries r :
  scan_signatures rpc i entries = Ok r ->
  reports_failure r = false
  /\ (valid r = true -> exists e tx, e ∈ entries /\ sig_err e = false
        /\ sol_getTransaction rpc (network i) (signature e) = Ok (Some tx)
        /\ attempt_of i tx /\ settles i tx
        /\ r = confirmed (signature e) (pubkey <$> List.find signer (accountKeys tx)))
  /\ (valid r = false -> forall e tx, e ∈ entries -> sig_err e = false ->
        sol_getTransaction rpc (network i) (signature e) = Ok (Some tx) ->
        ~ (attempt_of i tx /\ settles i tx)).
Proof.
  induction entries as [|e rest IH]; cbn [scan_signatures].
  { intros [= <-]. split; [done|]. split; [done|]. by intros _ ? ? ?%not_elem_of_nil. }
  assert (scan_signatures rpc i rest = Ok r ->
    (forall tx, sig_err e = false -> sol_getTransaction rpc (network i) (signature e) = Ok (Some tx) ->
       ~ (attempt_of i tx /\ settles i tx)) ->
    reports_failure r = false
    /\ (valid r = true -> exists e' tx, e' ∈ e :: rest /\ sig_err e' = false
          /\ sol_getTransaction rpc (network i) (signature e') = Ok (Some tx)
          /\ attempt_of i tx /\ settles i tx
          /\ r = confirmed (signature e') (pubkey <$> List.find signer (accountKeys tx)))
    /\ (valid r = false -> forall e' tx, e' ∈ e :: rest -> sig_err e' = false ->
          sol_getTransaction rpc (network i) (signature e') = Ok (Some tx) ->
          ~ (attempt_of i tx /\ settles i tx))) as Hskip.
  { intros H He. destruct (IH H) as (H1 & H2 & H3). split; [done|]. split.
    - intros V. destruct (H2 V) as (e' & tx & ? & ?). exists e', tx. split; [by right|done].
    - intros V e' tx [->|Hin]%elem_of_cons; [by apply He | by apply H3]. }
  destruct (sig_err e) eqn:Ee; [intros H; by apply Hskip|].
  destruct (sol_getTransaction rpc (network i) (signature e)) as [[tx|]|] eqn:Et;
    cbn [mbind res_bind]; [| |done].
  2: { intros H. by apply Hskip. }
  destruct (check i (signature e) tx) as [v|] eqn:Ec; cbn [mbind res_bind]; [|done].
  destruct (check_spec _ _ _ _ Ec) as (Hv & Hf & Hr).
  destruct (valid v) eqn:Ev.
  - intros [= <-]. destruct (proj1 Hv eq_refl) as [Ha Hs]. specialize (Hr eq_refl).
    split; [by rewrite Hr|]. split; [|congruence]. intros _. exists e, tx.
    split; [by left|]. done.
  - intros H. apply Hskip; [done|]. intros tx' _ [= <-] Hboth. by apply Hv in Hboth.
Qed.

(** *** The verifier's law *)

Definition solana_pays (rpc : SolanaRpc) (i : PaymentIntent) (h : string) : Prop :=
  exists tx, sol_getTransaction rpc (network i) h = Ok (Some tx)
    /\ attempt_of i tx /\ settles i tx.
Definition solana_attempts (rpc : SolanaRpc) (i : PaymentIntent) (h : string) : Prop :=
  exists tx, sol_getTransaction rpc (network i) h = Ok (Some tx)
    /\ attempt_of i tx /\ tx_failed tx.

Lemma verifyByHash_Ok rpc i h r :
  verifyByHash rpc i h = Ok r ->
  (r = mismatch TransactionNotFound /\ sol_getTransaction rpc (network i) h = Ok None)
  \/ exists tx, sol_getTransaction rpc (network i) h = Ok (Some tx) /\ check i h tx = Ok r.
Proof.
  unfold verifyByHash. destruct (sol_getTransaction rpc (network i) h) as [[tx|]|]; simpl; [| |done].
  - intros H. right. by exists tx.
  - intros [= <-]. by left.
Qed.

#[export] Instance solana_verifier_laws rpc :
  VerifierLaws solana (SolanaVerifierService rpc) (solana_pays rpc) (solana_attempts rpc).
Proof.
  split; cbn.
  - intros i h r H V. destruct (verifyByHash_Ok _ _ _ _ H) as [[-> _]|(tx & Et & Ec)]; [done|].
    destruct (check_spec _ _ _ _ Ec) as (Hv & _ & Hr). apply Hv in V as Hp.
    split; [by exists tx|]. exists h. by rewrite (Hr V).
  - intros i h r H V. destruct (verifyByHash_Ok _ _ _ _ H) as [[-> _]|(tx & Et & Ec)]; [done|].
    destruct (check_spec _ _ _ _ Ec) as (_ & Hf & Hr). apply Hf in V as Hp.
    split; [|by exists tx]. destruct (valid r); [|done]. by rewrite (Hr eq_refl) in V.
  - intros i r. unfold findMatchingPayment. case_match; [by intros [= <-]|].
    destruct (sol_getSignaturesForAddress _ _ _ _) as [l|]; [|done]. cbn [mbind res_bind]. intros Hs V.
    destruct (scan_signatures_spec _ _ _ _ Hs) as (_ & Hv & _).
    destruct (Hv V) as (e & tx & _ & _ & ? & ? & ? & ->). exists (signature e). split; [done|].
    by exists tx.
  - intros i r. unfold findMatchingPayment. case_match; [by intros [= <-]|].
    destruct (sol_getSignaturesForAddress _ _ _ _) as [l|]; [|done]. cbn [mbind res_bind]. intros Hs.
    by destruct (scan_signatures_spec _ _ _ _ Hs).
Qed.

(** ** Properties *)

(** C6: a Solana transaction settles an intent exactly when it pays it. When the
    verifier answers for a transaction the cluster has, it answers valid exactly
    when the transaction carries the intent's reference key, is no older than the
    intent, succeeded, and [gained] its legs: by its balances before and after, in
    lamports or over its accounts of the intent's own mint, the destination got
    exactly what it is [owed] (any positive amount for an open intent) and the fee's
    wallet exactly the fee. It reports a failure exactly for a failed transaction as
    recent carrying the reference, and the two never together. *)
Theorem solana_verify_exact (rpc : SolanaRpc) (i : PaymentIntent) (h : string)
    (tx : SolanaTransaction) (r : VerificationResult) :
  sol_getTransaction rpc (network i) h = Ok (Some tx) ->
  verifyByHash rpc i h = Ok r ->
  (valid r = true <-> attempt_of i tx /\ settles i tx)
  /\ (reports_failure r = true <-> attempt_of i tx /\ tx_failed tx)
  /\ ~ (valid r = true /\ reports_failure r = true)
  /\ (valid r = true -> v_txHash r = Some h).
Proof.
  intros Et H. destruct (verifyByHash_Ok _ _ _ _ H) as [[_ E]|(tx' & E & Ec)]; [congruence|].
  rewrite Et in E. injection E as <-. destruct (check_spec _ _ _ _ Ec) as (Hv & Hf & Hr).
  split; [done|]. split; [done|]. split.
  - intros [V F]. rewrite (Hr V) in F. done.
  - intros V. by rewrite (Hr V).
Qed.

(** of the transactions that touched a Solana intent's reference, the scan
    settles the first successful payment. When it answers valid, what it names is
    such a payment among the signatures the cluster listed; when it answers
    invalid, none of those that it could read is; and a scan never reports a
    failure. *)
Theorem solana_scan_exact (rpc : SolanaRpc) (i : PaymentIntent) (ref : string)
    (sigs : list SolanaSignatureInfo) (r : VerificationResult) :
  chainReference i = Some ref -> ref <> ""%string ->
  sol_getSignaturesForAddress rpc (network i) ref SOLANA_REFERENCE_SIGNATURE_LIMIT = Ok sigs ->
  findMatchingPayment rpc i = Ok r ->
  let pays e := e ∈ sigs /\ sig_err e = false
    /\ exists tx, sol_getTransaction rpc (network i) (signature e) = Ok (Some tx)
       /\ attempt_of i tx /\ settles i tx in
  (valid r = true <-> exists e, pays e)
  /\ (valid r = true -> exists e, pays e /\ v_txHash r = Some (signature e))
  /\ reports_failure r = false.
Proof.
  intros Er Hne Es H pays. unfold findMatchingPayment in H. rewrite Er in H.
  replace (negb (truthy (Some ref))) with false in H by (by destruct ref).
  change (default ""%string (Some ref)) with ref in H. rewrite Es in H. cbn [mbind res_bind] in H.
  destruct (scan_signatures_spec _ _ _ _ H) as (Hf & Hv & Hn).
  assert (forall e, e ∈ rev sigs <-> e ∈ sigs) as Hrev
    by (intros e; rewrite !list_elem_of_In; symmetry; apply in_rev).
  setoid_rewrite Hrev in Hv. setoid_rewrite Hrev in Hn.
  assert (valid r = true -> exists e, pays e /\ v_txHash r = Some (signature e)) as Hv'.
  { intros V. destruct (Hv V) as (e & tx & ? & ? & ? & ? & ? & ->). exists e.
    split; [|done]. split; [done|]. split; [done|]. by exists tx. }
  split; [|split; [exact Hv' | exact Hf]]. split.
  - intros V. destruct (Hv' V) as (e & ? & _). by exists e.
  - intros (e & ? & ? & tx & ? & ?). destruct (valid r) eqn:V; [done|]. exfalso.
    by apply (Hn eq_refl e tx).
Qed.

(** *** Witnesses *)

Definition sample_solana_intent : PaymentIntent :=
  mkPaymentIntent "a" "shop" PAY "solana" "public" None "DEST" (Some "1.5"%string) "native" None None
    "7" (Some "REF"%string) None None None None PENDING None "" None None None JNull None 90000.
Definition sample_solana_tx : SolanaTransaction :=
  mkSolanaTx (Some 100)
    (Some (mkMeta false [NumInt 9000000000; NumInt 5; NumInt 0] [NumInt 7499995000; NumInt 1500000005; NumInt 0] [] []))
    [mkAccountKey "PAYER" true; mkAccountKey "DEST" false; mkAccountKey "REF" false].
Definition sample_solana_rpc : SolanaRpc :=
  mkSolanaRpc (fun _ h => Ok (if bool_decide (h = "sig")%string then Some sample_solana_tx else None))
    (fun _ _ _ => Ok [mkSignature "later" true; mkSignature "sig" false]).

Lemma solana_verify_exact_witness :
  verifyByHash sample_solana_rpc sample_solana_intent "sig" = Ok (confirmed "sig" (Some "PAYER"%string))
  /\ (attempt_of sample_solana_intent sample_solana_tx /\ settles sample_solana_intent sample_solana_tx).
Proof.
  split; [vm_compute; reflexivity|].
  apply (proj1 (proj1 (solana_verify_exact sample_solana_rpc sample_solana_intent "sig" sample_solana_tx
    (confirmed "sig" (Some "PAYER"%string)) eq_refl ltac:(vm_compute; reflexivity)))).
  reflexivity.
Defined.

Lemma solana_scan_exact_witness :
  findMatchingPayment sample_solana_rpc sample_solana_intent = Ok (confirmed "sig" (Some "PAYER"%string))
  /\ reports_failure (confirmed "sig" (Some "PAYER"%string)) = false.
Proof.
  split; [vm_compute; reflexivity|].
  apply (solana_scan_exact sample_solana_rpc sample_solana_intent "REF"
    [mkSignature "later" true; mkSignature "sig" false]); [reflexivity | done | reflexivity |].
  vm_compute; reflexivity.
Defined.
