(* ===== verification/EvmVerifier.v ===== *)
(** src/src/payment-intents/evm-verifier.service.ts: the verifier of Monad
    payments, with the log topics of src/src/evm/eip681.ts, over an RPC node
    given by its answers. *)

From S2P Require Import Prelude Text Units MerchantFee Intents ChainAddress Verifier.
From stdpp Require Import base tactics list option strings.
From Stdlib Require Import ZArith Lia Ascii.

Open Scope Z_scope.

(** ** Node records (src/src/evm/evm-rpc.client.ts) *)

Record EvmLog := mkLog {
  log_address : string;
  topics : list string;
  data : string;
  log_transactionHash : string;
  removed : bool
}.

Record EvmTransaction := mkEvmTx {
  from_ : string;
  to_ : option string;
  value_ : string;
  input : string
}.

Record EvmReceipt := mkReceipt {
  receipt_status : string;
  receipt_blockNumber : string;
  logs : list EvmLog
}.

(** The reads the verifier makes, per network tier; a fault is thrown.
    [evm_getLogs network address topics fromBlock toBlock]. *)
Record EvmRpc := mkEvmRpc {
  evm_getTransaction : string -> string -> res (option EvmTransaction);
  evm_getReceipt : string -> string -> res (option EvmReceipt);
  evm_blockTimestamp : string -> string -> res (option Z);
  evm_blockNumber : string -> res Z;
  evm_logBlockRange : Z;
  evm_getLogs : string -> string -> list (option string) -> Z -> Z -> res (list EvmLog)
}.

Definition ERC20_TRANSFER_TOPIC : string :=
  "0xddf252ad1be2c89b69c2b068fc378daa952ba7f163c4a11628f55a4df523b3ef".
Definition ERC20_TRANSFER_SELECTOR : string := "0xa9059cbb".
Definition EVM_LOG_SCAN_MAX_CALLS : nat := 5.

(** ** src/src/evm/eip681.ts *)

Definition addressTopic (address : string) : string :=
  ("0x" +:+ padStart 64 (strip_0x (toLowerCase address)))%string.

(** [topic.slice(-40)] *)
Definition topicAddress (topic : string) : string :=
  ("0x" +:+ slice_from (String.length topic - 40) topic)%string.

(** ** The rule *)

Definition isDeposit (i : PaymentIntent) : bool := bool_decide (is_Some (chainReference i)).

Definition safeBigInt (hex : string) : option Z :=
  match hex with
  | String "0" (String "x" r) =>
      if negb (String.length r =? 0)%nat && all_chars is_hex r then Some (radix_acc 16 0 r) else None
  | _ => None
  end%string.

Definition amountRule (i : PaymentIntent) (expected : option Z) : option Z -> bool :=
  if negb (isDeposit i) then fun value => bool_decide (value = expected)
  else match expected with
       | None => fun value => match value with Some v => 0 <? v | None => false end
       | Some e => fun value => match value with Some v => e <=? v | None => false end
       end.

Definition expected (i : PaymentIntent) : option Z :=
  match amount i with
  | None => None
  | Some amt =>
      match (if truthy (assetIssuer i) then assetDecimals i else Some (NATIVE_DECIMALS monad)) with
      | None => None
      | Some decimals =>
          match
            (amount ← parseUnits amt decimals;
             match readMerchantFeeRecord (merchantFee i) with
             | Some fee =>
                 if bool_decide (rec_paidBy fee = MerchantFee.payer)
                 then f ← parseUnits (rec_amount fee) decimals; Ok (amount + f)
                 else Ok amount
             | None => Ok amount
             end)
          with
          | Ok v => Some v
          | Throw _ => None
          end
      end
  end.

Definition pay_to (i : PaymentIntent) : string := PAY_TO monad (destination i) (chainReference i).

Definition nativePays (i : PaymentIntent) (tx : EvmTransaction) (accepts : option Z -> bool) : bool :=
  opt_eqb (toLowerCase <$> to_ tx) (Some (toLowerCase (pay_to i)))
  && accepts (safeBigInt (value_ tx)).

(** [input.slice(a, b)] and [input.startsWith(prefix)] *)
Definition slice (a b : nat) (s : string) : string := slice_to (b - a) (slice_from a s).
Definition startsWith (prefix s : string) : bool :=
  String.eqb (slice_to (String.length prefix) s) prefix.

Definition transfer_logged (i : PaymentIntent) (accepts : option Z -> bool) (log : EvmLog) : bool :=
  bool_decide (toLowerCase (log_address log) = toLowerCase (default ""%string (assetIssuer i)))
  && opt_eqb (topics log !! 0%nat) (Some ERC20_TRANSFER_TOPIC)
  && opt_eqb (toLowerCase <$> topics log !! 2%nat) (Some (addressTopic (pay_to i)))
  && accepts (safeBigInt (data log)).

Definition erc20Pays (i : PaymentIntent) (tx : EvmTransaction) (receipt : EvmReceipt)
    (accepts : option Z -> bool) : bool :=
  let token := toLowerCase (default ""%string (assetIssuer i)) in
  let destination := addressTopic (pay_to i) in
  if existsb (transfer_logged i accepts) (logs receipt) then true
  else if bool_decide (receipt_status receipt = "0x1"%string)
          || negb (opt_eqb (toLowerCase <$> to_ tx) (Some token)) then false
  else
    let input := toLowerCase (input tx) in
    startsWith ERC20_TRANSFER_SELECTOR input
    && String.eqb ("0x" +:+ slice 10 74 input) destination
    && accepts (safeBigInt ("0x" +:+ slice 74 138 input)).

Section verifier.
(** The hash behind EIP-55. *)
Context (keccak_hex : string -> string).
Context (rpc : EvmRpc).

Definition paysIntent (i : PaymentIntent) (tx : EvmTransaction) (receipt : EvmReceipt) : bool :=
  let accepts := amountRule i (expected i) in
  if truthy (assetIssuer i) then erc20Pays i tx receipt accepts else nativePays i tx accepts.

Definition verifyByHash (i : PaymentIntent) (hash : string) : res VerificationResult :=
  tx ← evm_getTransaction rpc (network i) hash;
  receipt ← evm_getReceipt rpc (network i) hash;
  match tx, receipt with
  | Some tx, Some receipt =>
      if bool_decide (expected i = None) && negb (isDeposit i) then Ok (mismatch NoPayableAmount)
      else if negb (paysIntent i tx receipt) then Ok (mismatch NoPaymentMatches)
      else
        timestamp ← evm_blockTimestamp rpc (network i) (receipt_blockNumber receipt);
        if match timestamp with
           | None => true
           | Some t => t * 1000 <? createdAt i - TX_CREATED_AT_SKEW_MS
           end
        then Ok (mismatch PredatesIntent)
        else if negb (bool_decide (receipt_status receipt = "0x1"%string)) then Ok failed_on_chain
        else Ok (confirmed (toLowerCase hash) (Some (toChecksumAddress keccak_hex (from_ tx))))
  | _, _ => Ok (mismatch TransactionNotFound)
  end.

(** [calls] more ranges may be asked for. *)
Fixpoint scan_logs (i : PaymentIntent) (issuer : string) (amount head : Z) (calls : nat)
    (cursor : Z) : res VerificationResult :=
  match calls with
  | S calls =>
      if cursor <? head then
        let fromBlock := cursor + 1 in
        let toBlock :=
          if fromBlock + evm_logBlockRange rpc - 1 <? head
          then fromBlock + evm_logBlockRange rpc - 1 else head in
        logs ← evm_getLogs rpc (network i) issuer
                 [Some ERC20_TRANSFER_TOPIC; None; Some (addressTopic (destination i))]
                 fromBlock toBlock;
        match List.find (fun log => negb (removed log)
                  && bool_decide (safeBigInt (data log) = Some amount)) logs with
        | Some m =>
            Ok (mkVerification true (Some (toLowerCase (log_transactionHash m))) None
                  (Some (toChecksumAddress keccak_hex
                     (topicAddress (default ""%string (topics m !! 1%nat)))))
                  None (Some (toString toBlock)))
        | None => scan_logs i issuer amount head calls toBlock
        end
      else Ok (mkVerification false None (Some NoMatchYet) None None (Some (toString cursor)))
  | O => Ok (mkVerification false None (Some NoMatchYet) None None (Some (toString cursor)))
  end.

Definition findMatchingPayment (i : PaymentIntent) : res VerificationResult :=
  if isDeposit i then Ok (mismatch AwaitingDeposit)
  else if negb (truthy (assetIssuer i)) then Ok (mismatch NativeNeedsHash)
  else
    match expected i with
    | None => Ok (mismatch NoPayableAmount)
    | Some amount =>
        head ← evm_blockNumber rpc (network i);
        cursor ← (if truthy (chainCursor i)
                  then res_of_option JsError (BigInt_text (default ""%string (chainCursor i)))
                  else Ok head);
        scan_logs i (default ""%string (assetIssuer i)) amount head EVM_LOG_SCAN_MAX_CALLS cursor
    end.

Definition EvmVerifierService : PaymentVerifier := mkVerifier verifyByHash findMatchingPayment.
End verifier.

(** ** Specification *)

(** The amounts that settle an intent: exactly its own when it is paid
    directly; its own or more, or anything positive when it names none, at a
    deposit address. *)
Definition accepted (i : PaymentIntent) (v : Z) : Prop :=
  match chainReference i, expected i with
  | None, Some e => v = e
  | None, None => False
  | Some _, Some e => e <= v
  | Some _, None => 0 < v
  end.

(** What a transaction moves to the intent's address, in its asset. *)
Inductive transfers (i : PaymentIntent) (tx : EvmTransaction) (receipt : EvmReceipt) (v : Z) : Prop :=
  | transfers_native to :
      truthy (assetIssuer i) = false -> to_ tx = Some to ->
      toLowerCase to = toLowerCase (pay_to i) -> safeBigInt (value_ tx) = Some v ->
      transfers i tx receipt v
  | transfers_logged token log topic :
      assetIssuer i = Some token -> token <> ""%string -> log ∈ logs receipt ->
      toLowerCase (log_address log) = toLowerCase token ->
      topics log !! 0%nat = Some ERC20_TRANSFER_TOPIC ->
      topics log !! 2%nat = Some topic -> toLowerCase topic = addressTopic (pay_to i) ->
      safeBigInt (data log) = Some v ->
      transfers i tx receipt v
  | transfers_reverted token to :
      assetIssuer i = Some token -> token <> ""%string -> receipt_status receipt <> "0x1"%string ->
      to_ tx = Some to -> toLowerCase to = toLowerCase token ->
      startsWith ERC20_TRANSFER_SELECTOR (toLowerCase (input tx)) = true ->
      ("0x" +:+ slice 10 74 (toLowerCase (input tx)))%string = addressTopic (pay_to i) ->
      safeBigInt ("0x" +:+ slice 74 138 (toLowerCase (input tx))) = Some v ->
      transfers i tx receipt v.

(** ** Lemmas *)

Lemma amountRule_spec i v :
  ~ (expected i = None /\ isDeposit i = false) ->
  amountRule i (expected i) v = true <-> exists x, v = Some x /\ accepted i x.
Proof.
  unfold amountRule, isDeposit, accepted. intros Hp. destruct (chainReference i) as [r|]; simpl in *.
  - destruct (expected i) as [e|], v as [x|]; try (by split; [|intros (? & ? & _)]).
    + rewrite Z.leb_le. split; [eauto | by intros (? & [= <-] & ?)].
    + rewrite Z.ltb_lt. split; [eauto | by intros (? & [= <-] & ?)].
  - destruct (expected i) as [e|]; [|by destruct Hp].
    rewrite bool_decide_eq_true. split; [intros ->; eauto | by intros (? & -> & ->)].
Qed.

Lemma truthy_Some o : truthy o = true <-> exists s, o = Some s /\ s <> ""%string.
Proof.
  destruct o as [[|a s]|]; simpl; split; try done.
  - by intros (? & [= <-] & ?).
  - intros _. by exists (String a s).
  - by intros (? & ? & _).
Qed.

Lemma fmap_lower_Some o s :
  opt_eqb (toLowerCase <$> o) (Some s) = true <-> exists t, o = Some t /\ toLowerCase t = s.
Proof.
  rewrite opt_eqb_true. destruct o as [t|]; simpl.
  - split; [intros [= <-]; eauto | by intros (? & [= <-] & <-)].
  - split; [done | by intros (? & ? & _)].
Qed.

Lemma transfer_logged_spec i token accepts log :
  assetIssuer i = Some token ->
  transfer_logged i accepts log = true <->
  toLowerCase (log_address log) = toLowerCase token
  /\ topics log !! 0%nat = Some ERC20_TRANSFER_TOPIC
  /\ (exists t, topics log !! 2%nat = Some t /\ toLowerCase t = addressTopic (pay_to i))
  /\ accepts (safeBigInt (data log)) = true.
Proof.
  intros E. unfold transfer_logged. rewrite E.
  rewrite !andb_true_iff, bool_decide_eq_true, opt_eqb_true, fmap_lower_Some. tauto.
Qed.

Section pays.
Context (i : PaymentIntent) (tx : EvmTransaction) (receipt : EvmReceipt).
Hypothesis payable : ~ (expected i = None /\ isDeposit i = false).

Lemma nativePays_spec :
  truthy (assetIssuer i) = false ->
  nativePays i tx (amountRule i (expected i)) = true <->
  exists v, transfers i tx receipt v /\ accepted i v.
Proof.
  intros Ht. unfold nativePays. rewrite andb_true_iff, fmap_lower_Some, amountRule_spec by done. split.
  - intros [(to & E & El) (v & Ev & Ha)]. exists v. split; [by eapply transfers_native | done].
  - intros (v & [to _ Eto El Ev|token log topic E Hne|token to E Hne] & Ha).
    + split; [by exists to | by exists v].
    + by rewrite E in Ht; destruct token.
    + by rewrite E in Ht; destruct token.
Qed.

Lemma erc20Pays_spec token :
  assetIssuer i = Some token -> token <> ""%string ->
  erc20Pays i tx receipt (amountRule i (expected i)) = true <->
  exists v, transfers i tx receipt v /\ accepted i v.
Proof.
  intros Et Hne. unfold erc20Pays.
  assert (existsb (transfer_logged i (amountRule i (expected i))) (logs receipt) = true <->
    exists v log topic, log ∈ logs receipt /\ toLowerCase (log_address log) = toLowerCase token
      /\ topics log !! 0%nat = Some ERC20_TRANSFER_TOPIC /\ topics log !! 2%nat = Some topic
      /\ toLowerCase topic = addressTopic (pay_to i) /\ safeBigInt (data log) = Some v
      /\ accepted i v) as Hl.
  { rewrite existsb_exists. setoid_rewrite <- list_elem_of_In.
    setoid_rewrite (transfer_logged_spec i token _ _ Et).
    setoid_rewrite amountRule_spec; [|done]. split.
    - intros (log & ? & ? & ? & (t & ? & ?) & v & ? & ?). by exists v, log, t.
    - intros (v & log & t & ? & ? & ? & ? & ? & ? & ?). exists log.
      repeat (split; [done|]). split; [by exists t | by exists v]. }
  destruct (existsb _ (logs receipt)).
  { split; [|done]. intros _.
    destruct (proj1 Hl eq_refl) as (v & log & t & ? & ? & ? & ? & ? & ? & ?).
    exists v. split; [by eapply transfers_logged | done]. }
  assert (forall v, transfers i tx receipt v -> accepted i v ->
    receipt_status receipt <> "0x1"%string /\ (exists to, to_ tx = Some to /\ toLowerCase to = toLowerCase token)
    /\ startsWith ERC20_TRANSFER_SELECTOR (toLowerCase (input tx)) = true
    /\ ("0x" +:+ slice 10 74 (toLowerCase (input tx)))%string = addressTopic (pay_to i)
    /\ safeBigInt ("0x" +:+ slice 74 138 (toLowerCase (input tx))) = Some v) as Hrev.
  { intros v [to Ht _ _ _|token' log topic E' _ Hin|token' to E' _ ? ? ? ? ? ?] Ha.
    - rewrite Et in Ht. by destruct token.
    - rewrite Et in E'. injection E' as <-. exfalso.
      assert (false = true); [|done]. apply Hl. by exists v, log, topic.
    - rewrite Et in E'. injection E' as <-. repeat (split; [done|]). split; [by exists to|done]. }
  rewrite Et. change (default ""%string (Some token)) with token.
  destruct (bool_decide_reflect (receipt_status receipt = "0x1"%string)) as [Es|Es]; cbn [orb].
  { split; [done|]. intros (v & Ht & Ha). by destruct (Hrev v Ht Ha) as [? _]. }
  destruct (opt_eqb (toLowerCase <$> to_ tx) (Some (toLowerCase token))) eqn:Eto; cbn [negb].
  2: { split; [done|]. intros (v & Ht & Ha). destruct (Hrev v Ht Ha) as (_ & H & _).
       apply fmap_lower_Some in H. congruence. }
  apply fmap_lower_Some in Eto as (to & Eto & Elto).
  rewrite !andb_true_iff, String.eqb_eq, amountRule_spec by done. split.
  - intros [[Hs Hd] (v & Hv & Ha)]. exists v. split; [by eapply transfers_reverted | done].
  - intros (v & Ht & Ha). destruct (Hrev v Ht Ha) as (_ & _ & ? & ? & ?). split; [done|by exists v].
Qed.

Lemma paysIntent_spec :
  paysIntent i tx receipt = true <-> exists v, transfers i tx receipt v /\ accepted i v.
Proof.
  unfold paysIntent. destruct (truthy (assetIssuer i)) eqn:Et.
  - apply truthy_Some in Et as (token & E & Hne). by apply (erc20Pays_spec token).
  - by apply nativePays_spec.
Qed.
End pays.

Section scan.
Context (keccak_hex : string -> string) (rpc : EvmRpc) (i : PaymentIntent).
Context (issuer : string) (amt head : Z).
(** The token's logs to the destination, and the block of each: what the node
    answers for a range is the logs of that range. *)
Context (ledger : list EvmLog) (block : EvmLog -> Z) (L : Z -> Z -> list EvmLog).
Hypothesis node_logs : forall a b,
  evm_getLogs rpc (network i) issuer
    [Some ERC20_TRANSFER_TOPIC; None; Some (addressTopic (destination i))] a b = Ok (L a b).
Hypothesis logs_of_range : forall a b log, log ∈ L a b <-> log ∈ ledger /\ a <= block log <= b.
Hypothesis range_pos : 0 < evm_logBlockRange rpc.

(** A log that pays the intent. *)
Definition hit (log : EvmLog) : Prop :=
  log ∈ ledger /\ removed log = false /\ safeBigInt (data log) = Some amt.

Definition hitb (log : EvmLog) : bool :=
  negb (removed log) && bool_decide (safeBigInt (data log) = Some amt).

Lemma hitb_spec log : log ∈ ledger -> hitb log = true <-> hit log.
Proof.
  unfold hitb, hit. rewrite andb_true_iff, negb_true_iff, bool_decide_eq_true. tauto.
Qed.

(** How far [calls] ranges reach. *)
Definition reach (calls : nat) (cursor : Z) : Z :=
  Z.max cursor (Z.min head (cursor + Z.of_nat calls * evm_logBlockRange rpc)).

Definition scan_answer (calls : nat) (cursor : Z) (r : VerificationResult) : Prop :=
  reports_failure r = false
  /\ exists c, nextCursor r = Some (toString c) /\ cursor <= c <= reach calls cursor
  /\ (valid r = true /\ (exists log, hit log /\ cursor < block log <= c
        /\ v_txHash r = Some (toLowerCase (log_transactionHash log)))
      \/ valid r = false /\ c = reach calls cursor
         /\ forall log, hit log -> ~ cursor < block log <= reach calls cursor).

Lemma scan_logs_spec calls cursor :
  exists r, scan_logs keccak_hex rpc i issuer amt head calls cursor = Ok r
    /\ scan_answer calls cursor r.
Proof.
  revert cursor. induction calls as [|n IH]; intros cursor; cbn [scan_logs].
  { eexists. split; [done|]. split; [done|]. exists cursor. unfold reach.
    split; [done|]. split; [lia|]. right. split; [done|]. split; [lia|]. intros ? _. lia. }
  destruct (Z.ltb_spec cursor head) as [Lt|Ge].
  2: { eexists. split; [done|]. split; [done|]. exists cursor. unfold reach.
       split; [done|]. split; [lia|]. right. split; [done|]. split; [nia|]. intros ? _. nia. }
  set (toBlock := if _ <? head then _ else head).
  assert (toBlock = Z.min head (cursor + evm_logBlockRange rpc)) as Eto.
  { subst toBlock. destruct (Z.ltb_spec (cursor + 1 + evm_logBlockRange rpc - 1) head); lia. }
  clearbody toBlock. rewrite node_logs. cbn [mbind res_bind].
  change (fun log => negb (removed log) && bool_decide (safeBigInt (data log) = Some amt)) with hitb.
  destruct (List.find hitb _) as [log|] eqn:Ef.
  - apply List.find_some in Ef as [Hin Hh]. apply list_elem_of_In, logs_of_range in Hin as [Hl Hb].
    apply hitb_spec in Hh; [|done]. eexists. split; [done|]. split; [done|]. exists toBlock.
    unfold reach. split; [done|]. split; [nia|]. left. split; [done|]. exists log.
    split; [done|]. split; [lia|done].
  - destruct (IH toBlock) as (r & E & Hf & c & Hc & Hcr & Hr). exists r. split; [done|].
    split; [done|]. exists c. split; [done|].
    assert (reach n toBlock = reach (S n) cursor) as Er by (unfold reach; nia).
    rewrite <- Er. split; [lia|].
    destruct Hr as [(? & log & ? & ? & ?)|(? & ? & Hno)].
    + left. split; [done|]. exists log. split; [done|]. split; [lia|done].
    + right. split; [done|]. split; [done|]. intros log Hh Hb.
      destruct (Z.le_gt_cases (block log) toBlock) as [Hle|Hgt]; [|apply (Hno log Hh); lia].
      assert (log ∈ L (cursor + 1) toBlock) as Hin by (apply logs_of_range; split; [by destruct Hh | lia]).
      apply list_elem_of_In in Hin. pose proof (List.find_none _ _ Ef _ Hin) as Hn.
      apply hitb_spec in Hh; [congruence | by destruct Hh].
Qed.
End scan.

(** *** The verifier's law *)

Definition paid_in_time (rpc : EvmRpc) (i : PaymentIntent) (tx : EvmTransaction) (receipt : EvmReceipt) : Prop :=
  (exists v, transfers i tx receipt v /\ accepted i v)
  /\ exists t, evm_blockTimestamp rpc (network i) (receipt_blockNumber receipt) = Ok (Some t)
     /\ closed_in_time i (t * 1000).

Definition evm_pays (rpc : EvmRpc) (i : PaymentIntent) (h : string) : Prop :=
  (exists h' tx receipt, toLowerCase h' = toLowerCase h
     /\ evm_getTransaction rpc (network i) h' = Ok (Some tx)
     /\ evm_getReceipt rpc (network i) h' = Ok (Some receipt)
     /\ receipt_status receipt = "0x1"%string /\ paid_in_time rpc i tx receipt)
  \/ (exists token from to_ logs log amt, assetIssuer i = Some token /\ isDeposit i = false
     /\ expected i = Some amt
     /\ evm_getLogs rpc (network i) token
          [Some ERC20_TRANSFER_TOPIC; None; Some (addressTopic (destination i))] from to_ = Ok logs
     /\ log ∈ logs /\ removed log = false /\ safeBigInt (data log) = Some amt
     /\ toLowerCase (log_transactionHash log) = h).

Definition evm_attempts (rpc : EvmRpc) (i : PaymentIntent) (h : string) : Prop :=
  exists tx receipt, evm_getTransaction rpc (network i) h = Ok (Some tx)
    /\ evm_getReceipt rpc (network i) h = Ok (Some receipt)
    /\ receipt_status receipt <> "0x1"%string /\ paid_in_time rpc i tx receipt.

Lemma accepted_payable i v : accepted i v -> ~ (expected i = None /\ isDeposit i = false).
Proof.
  unfold accepted, isDeposit. destruct (chainReference i), (expected i); simpl; by intros ? [? ?].
Qed.

Lemma verifyByHash_spec keccak_hex rpc i h tx receipt ts :
  evm_getTransaction rpc (network i) h = Ok (Some tx) ->
  evm_getReceipt rpc (network i) h = Ok (Some receipt) ->
  evm_blockTimestamp rpc (network i) (receipt_blockNumber receipt) = Ok ts ->
  exists r, verifyByHash keccak_hex rpc i h = Ok r
  /\ (paid_in_time rpc i tx receipt
        /\ r = (if decide (receipt_status receipt = "0x1"%string)
                then confirmed (toLowerCase h) (Some (toChecksumAddress keccak_hex (from_ tx)))
                else failed_on_chain)
      \/ ~ paid_in_time rpc i tx receipt /\ exists why, r = mismatch why).
Proof.
  intros Et Er Eb. unfold verifyByHash. rewrite Et, Er. cbn [mbind res_bind].
  destruct (bool_decide (expected i = None) && negb (isDeposit i)) eqn:Ep.
  { bool_facts. eexists. split; [done|]. right. split; [|eauto].
    intros [(v & _ & Ha) _]. by apply (accepted_payable i v Ha). }
  assert (~ (expected i = None /\ isDeposit i = false)) as Hp.
  { intros [E1 E2]. rewrite bool_decide_true, E2 in Ep by done. done. }
  pose proof (paysIntent_spec i tx receipt Hp) as Hs. destruct (paysIntent i tx receipt); cbn [negb].
  2: { eexists. split; [done|]. right. split; [|eauto]. intros [Hv _]. by apply Hs in Hv. }
  rewrite Eb. cbn [mbind res_bind].
  assert (match ts with None => true | Some t => t * 1000 <? createdAt i - TX_CREATED_AT_SKEW_MS end = false
    <-> exists t, ts = Some t /\ closed_in_time i (t * 1000)) as Ha.
  { unfold closed_in_time. destruct ts as [t|].
    - rewrite Z.ltb_ge. split; [eauto | by intros (? & [= <-] & ?)].
    - split; [done | by intros (? & ? & _)]. }
  destruct (match ts with None => true | Some _ => _ end).
  { eexists. split; [done|]. right. split; [|eauto]. intros [_ (t & E & Ht)].
    rewrite Eb in E. injection E as ->. assert (true = false); [|done]. apply Ha. by exists t. }
  destruct (proj1 Ha eq_refl) as (t & -> & Ht).
  assert (paid_in_time rpc i tx receipt) as Hpaid by (split; [by apply Hs | by exists t]).
  destruct (decide (receipt_status receipt = "0x1"%string)) as [E|E].
  - rewrite bool_decide_true by done. eexists. split; [done|]. by left.
  - rewrite bool_decide_false by done. eexists. split; [done|]. by left.
Qed.

Lemma scan_logs_sound keccak_hex rpc i issuer amt head calls cursor r :
  scan_logs keccak_hex rpc i issuer amt head calls cursor = Ok r ->
  reports_failure r = false
  /\ (valid r = true -> exists a b logs log,
        evm_getLogs rpc (network i) issuer
          [Some ERC20_TRANSFER_TOPIC; None; Some (addressTopic (destination i))] a b = Ok logs
        /\ log ∈ logs /\ removed log = false /\ safeBigInt (data log) = Some amt
        /\ v_txHash r = Some (toLowerCase (log_transactionHash log))).
Proof.
  revert cursor. induction calls as [|n IH]; intros cursor; cbn [scan_logs]; [by intros [= <-]|].
  destruct (cursor <? head); [|by intros [= <-]].
  destruct (evm_getLogs _ _ _ _ _ _) as [l|] eqn:El; cbn [mbind res_bind]; [|done].
  destruct (List.find _ l) as [log|] eqn:Ef; [|apply IH]. intros [= <-]. split; [done|]. intros _.
  apply List.find_some in Ef as [Hin Hh]. apply list_elem_of_In in Hin. bool_facts.
  eexists _, _, l, log. split; [exact El|]. done.
Qed.

#[export] Instance evm_verifier_laws keccak_hex rpc :
  VerifierLaws monad (EvmVerifierService keccak_hex rpc) (evm_pays rpc) (evm_attempts rpc).
Proof.
  assert (forall i h r, verifyByHash keccak_hex rpc i h = Ok r -> valid r = true \/ reports_failure r = true ->
    exists tx receipt, evm_getTransaction rpc (network i) h = Ok (Some tx)
      /\ evm_getReceipt rpc (network i) h = Ok (Some receipt) /\ paid_in_time rpc i tx receipt
      /\ r = (if decide (receipt_status receipt = "0x1"%string)
              then confirmed (toLowerCase h) (Some (toChecksumAddress keccak_hex (from_ tx)))
              else failed_on_chain)) as Hby.
  { intros i h r H Hr. pose proof H as H0. unfold verifyByHash in H0.
    destruct (evm_getTransaction rpc (network i) h) as [[tx|]|] eqn:Et; [| |done].
    2: { destruct (evm_getReceipt _ _ _) as [[]|]; simplify_eq/=; by destruct Hr. }
    destruct (evm_getReceipt rpc (network i) h) as [[rc|]|] eqn:Er; [| |done].
    2: { simplify_eq/=; by destruct Hr. }
    destruct (evm_blockTimestamp rpc (network i) (receipt_blockNumber rc)) as [ts|] eqn:Eb.
    2: { cbn [mbind res_bind] in H0. rewrite Eb in H0. cbn [mbind res_bind] in H0.
         do 2 (case_match; [simplify_eq/=; by destruct Hr|]). done. }
    destruct (verifyByHash_spec keccak_hex _ _ _ _ _ _ Et Er Eb) as (r' & E & Hc).
    rewrite E in H. injection H as ->.
    destruct Hc as [[? ?]|[_ [why ->]]]; [by exists tx, rc | by destruct Hr]. }
  split.
  - intros i h r H V. destruct (Hby _ _ _ H (or_introl V)) as (tx & rc & ? & ? & ? & E).
    destruct (decide _) in E; subst r; [|done]. split; [left; by exists h, tx, rc|].
    exists (toLowerCase h). split; [done|]. apply toLowerCase_idem.
  - intros i h r H V. destruct (Hby _ _ _ H (or_intror V)) as (tx & rc & ? & ? & ? & E).
    destruct (decide _) in E; subst r; [done|]. split; [done|]. by exists tx, rc.
  - intros i r. cbn. unfold findMatchingPayment.
    destruct (isDeposit i) eqn:Ed; [by intros [= <-]|].
    destruct (truthy (assetIssuer i)) eqn:Et; cbn [negb]; [|by intros [= <-]].
    apply truthy_Some in Et as (token & Et & _). rewrite Et.
    destruct (expected i) as [amt|] eqn:Ee; [|by intros [= <-]].
    destruct (evm_blockNumber _ _) as [head|]; cbn [mbind res_bind]; [|done].
    destruct (if truthy _ then _ else _) as [cur|]; cbn [mbind res_bind]; [|done]. intros H V.
    destruct (scan_logs_sound _ _ _ _ _ _ _ _ _ H) as [_ Hv].
    destruct (Hv V) as (a & b & logs & log & ? & ? & ? & ? & ?). eexists. split; [done|].
    right. by exists token, a, b, logs, log, amt.
  - intros i r. cbn. unfold findMatchingPayment.
    destruct (isDeposit i); [by intros [= <-]|].
    destruct (truthy (assetIssuer i)); cbn [negb]; [|by intros [= <-]].
    destruct (expected i) as [amt|]; [|by intros [= <-]].
    destruct (evm_blockNumber _ _) as [head|]; cbn [mbind res_bind]; [|done].
    destruct (if truthy _ then _ else _) as [cur|]; cbn [mbind res_bind]; [|done]. intros H.
    by destruct (scan_logs_sound _ _ _ _ _ _ _ _ _ H).
Qed.

(** ** Properties *)

(** C4: a Monad transaction settles an intent exactly when it pays it. When the
    node has the transaction, its receipt and its block, the verifier answers
    valid exactly when the transaction succeeded no earlier than the intent and
    moved an accepted amount of the intent's asset to the address it is paid at:
    exactly its amount when it is paid directly, its amount or more at its own
    deposit address. It reports a failure exactly for a reverted transaction that
    would have paid it, and answers the hash in lower case. *)
Theorem evm_verify_exact (keccak_hex : string -> string) (rpc : EvmRpc) (i : PaymentIntent) (h : string)
    (tx : EvmTransaction) (receipt : EvmReceipt) (ts : option Z) :
  evm_getTransaction rpc (network i) h = Ok (Some tx) ->
  evm_getReceipt rpc (network i) h = Ok (Some receipt) ->
  evm_blockTimestamp rpc (network i) (receipt_blockNumber receipt) = Ok ts ->
  exists r, verifyByHash keccak_hex rpc i h = Ok r
  /\ (valid r = true <-> receipt_status receipt = "0x1"%string /\ paid_in_time rpc i tx receipt)
  /\ (reports_failure r = true <-> receipt_status receipt <> "0x1"%string /\ paid_in_time rpc i tx receipt)
  /\ (valid r = true -> v_txHash r = Some (toLowerCase h)).
Proof.
  intros Et Er Eb. destruct (verifyByHash_spec keccak_hex _ _ _ _ _ _ Et Er Eb) as (r & E & H).
  exists r. split; [done|]. destruct H as [[Hp ->]|[Hno [why ->]]].
  - destruct (decide _) as [Es|Es]; cbn.
    + split; [done|]. split; [by split; [|intros []]|done].
    + split; [by split; [|intros []]|]. done.
  - cbn. split; [by split; [|intros []]|]. split; [by split; [|intros []]|done].
Qed.

(** the scan for an ERC-20 payment on Monad skips no block. Resuming from the
    intent's cursor on a node that answers log queries, the scan answers valid
    exactly when a log that pays the intent lies within the five ranges it may
    read; the cursor it hands back never goes backwards nor past the head, every
    block up to it has been read for a payment unless one was found, and an
    answer without a payment hands back all it could reach. *)
Theorem evm_scan_exact (keccak_hex : string -> string) (rpc : EvmRpc) (i : PaymentIntent)
    (token c0 : string) (amt head cursor : Z)
    (ledger : list EvmLog) (block : EvmLog -> Z) (L : Z -> Z -> list EvmLog) :
  chainReference i = None -> assetIssuer i = Some token -> token <> ""%string ->
  expected i = Some amt ->
  evm_blockNumber rpc (network i) = Ok head -> 0 < evm_logBlockRange rpc ->
  chainCursor i = Some c0 -> c0 <> ""%string -> BigInt_text c0 = Some cursor ->
  (forall a b, evm_getLogs rpc (network i) token
      [Some ERC20_TRANSFER_TOPIC; None; Some (addressTopic (destination i))] a b = Ok (L a b)) ->
  (forall a b log, log ∈ L a b <-> log ∈ ledger /\ a <= block log <= b) ->
  let limit := reach rpc head EVM_LOG_SCAN_MAX_CALLS cursor in
  exists r c, findMatchingPayment keccak_hex rpc i = Ok r /\ nextCursor r = Some (toString c)
  /\ cursor <= c <= limit /\ (cursor <= head -> limit <= head)
  /\ (valid r = true <-> exists log, hit amt ledger log /\ cursor < block log <= limit)
  /\ (valid r = false -> c = limit)
  /\ (cursor < head -> cursor < limit).
Proof.
  intros Hr Ht Hne He Hh Hp Hc Hcne Hcur Hn Hl limit.
  destruct (scan_logs_spec keccak_hex rpc i token amt head ledger block L Hn Hl Hp
    EVM_LOG_SCAN_MAX_CALLS cursor) as (r & E & _ & c & Ec & Hcr & Hv).
  exists r, c. split; [|split; [done|]; split; [done|]].
  - unfold findMatchingPayment, isDeposit. rewrite Hr, Ht. cbn [bool_decide].
    rewrite (proj2 (truthy_Some (Some token))) by (by exists token). cbn [negb].
    rewrite He, Hh. cbn [mbind res_bind]. rewrite Hc, (proj2 (truthy_Some (Some c0))) by (by exists c0).
    change (default ""%string (Some c0)) with c0. rewrite Hcur. exact E.
  - split; [unfold limit, reach; lia|]. split; [|split].
    + destruct Hv as [(V & log & Hhit & Hb & _)|(V & _ & Hno)]; rewrite V.
      * split; [|done]. intros _. exists log. split; [done|]. unfold limit. lia.
      * split; [done|]. intros (log & Hhit & Hb). by destruct (Hno log Hhit).
    + destruct Hv as [(V & _)|(V & Hc' & _)]; [by rewrite V | done].
    + unfold limit, reach, EVM_LOG_SCAN_MAX_CALLS. lia.
Qed.

(** *** Witnesses *)

Definition sample_monad_intent (cursor : string) : PaymentIntent :=
  mkPaymentIntent "a" "shop" PAY "monad" "public" None "0xD000000000000000000000000000000000000001"
    (Some "1.5"%string) "USDC" (Some "0xA000000000000000000000000000000000000002"%string) (Some 6%nat)
    "7" None (Some cursor) None None None PENDING None "" None None None JNull None 90000.
Definition sample_log : EvmLog :=
  mkLog "0xa000000000000000000000000000000000000002"
    [ERC20_TRANSFER_TOPIC; addressTopic "0xB000000000000000000000000000000000000003";
     addressTopic "0xD000000000000000000000000000000000000001"]
    "0x16e360" "0xFEED" false.
Definition sample_evm_rpc : EvmRpc :=
  mkEvmRpc
    (fun _ h => Ok (Some (mkEvmTx "0xB000000000000000000000000000000000000003"
       (Some "0xA000000000000000000000000000000000000002"%string) "0x0" "0x")))
    (fun _ h => Ok (Some (mkReceipt "0x1" "0x64" [sample_log])))
    (fun _ _ => Ok (Some 100)) (fun _ => Ok 1000) 50
    (fun _ _ _ a b => Ok (if (a <=? 120) && (120 <=? b) then [sample_log] else [])).

Lemma evm_verify_exact_witness :
  exists r, verifyByHash (fun s => s) sample_evm_rpc (sample_monad_intent "1") "0xFEED" = Ok r
  /\ valid r = true /\ v_txHash r = Some "0xfeed"%string.
Proof.
  destruct (evm_verify_exact (fun s => s) sample_evm_rpc (sample_monad_intent "1") "0xFEED"
    (mkEvmTx "0xB000000000000000000000000000000000000003"
       (Some "0xA000000000000000000000000000000000000002"%string) "0x0" "0x")
    (mkReceipt "0x1" "0x64" [sample_log]) (Some 100) eq_refl eq_refl eq_refl) as (r & E & _ & _ & H).
  exists r. split; [exact E|].
  assert (valid r = true) as V by (vm_compute in E; injection E as <-; reflexivity).
  split; [exact V | exact (H V)].
Defined.

Lemma evm_scan_exact_witness :
  exists r c, findMatchingPayment (fun s => s) sample_evm_rpc (sample_monad_intent "10") = Ok r
  /\ nextCursor r = Some (toString c) /\ valid r = true /\ 10 <= c <= 260.
Proof.
  destruct (evm_scan_exact (fun s => s) sample_evm_rpc (sample_monad_intent "10")
    "0xA000000000000000000000000000000000000002" "10" 1500000 1000 10 [sample_log] (fun _ => 120)
    (fun a b => if (a <=? 120) && (120 <=? b) then [sample_log] else []))
    as (r & c & E & Ec & Hc & _ & _ & _ & _);
    [reflexivity | reflexivity | done | vm_compute; reflexivity | reflexivity | simpl; lia
    | reflexivity | done | vm_compute; reflexivity | reflexivity | |].
  - intros a b log. destruct (Z.leb_spec a 120), (Z.leb_spec 120 b); cbn [andb];
      rewrite ?elem_of_nil; split; try tauto; try (intros [_ ?]; lia); intros; split; (done || lia).
  - exists r, c. split; [exact E|]. split; [exact Ec|].
    split; [vm_compute in E; injection E as <-; reflexivity | exact Hc].
Defined.
