(* ===== verification/Webhooks.v ===== *)
(** Webhooks: the events and their dedup key (src/src/webhooks/webhook-events.ts),
    the emitter that claims a terminal event together with its delivery rows
    (webhook-terminal-emitter.service.ts), the dispatcher that sends them
    (webhook-dispatcher.service.ts) and the sweeper that recovers what a dead
    process left behind (webhook-delivery-sweeper.service.ts). *)

From S2P Require Import Prelude Text Units MerchantFee.
From stdpp Require Import base tactics list option sorting gmap strings.
From Stdlib Require Import ZArith Lia Ascii.

Open Scope Z_scope.

(** ** Events *)

Inductive WebhookEventType :=
  | PAYMENT_INTENT_CREATED | PAYMENT_INTENT_UPDATED | PAYMENT_INTENT_SUCCEEDED
  | PAYMENT_INTENT_FAILED | PAYMENT_INTENT_CANCELLED | PAYMENT_INTENT_DELETED
  | RECEIVER_UPDATED | PAYIN_CREATED | PAYIN_UPDATED | PAYIN_COMPLETED
  | PAYOUT_CREATED | PAYOUT_UPDATED | PAYOUT_COMPLETED
  | SWAP_CREATED | SWAP_SUBMITTED | SWAP_SUCCEEDED | SWAP_FAILED
  | LIQUIDITY_CREATED | LIQUIDITY_SUBMITTED | LIQUIDITY_SUCCEEDED | LIQUIDITY_FAILED
  | SWAP_EXPIRED | LIQUIDITY_EXPIRED
  | CROSS_CHAIN_SWAP_CREATED | CROSS_CHAIN_SWAP_UPDATED | CROSS_CHAIN_SWAP_SUCCEEDED
  | CROSS_CHAIN_SWAP_REFUNDED | CROSS_CHAIN_SWAP_FAILED | CROSS_CHAIN_SWAP_EXPIRED
  | ZK_PAYMENT_SUCCEEDED
  | PROTECTED_PAYMENT_CREATED | PROTECTED_PAYMENT_FUNDED | PROTECTED_PAYMENT_SHIPPED
  | PROTECTED_PAYMENT_APPROVED | PROTECTED_PAYMENT_RELEASED | PROTECTED_PAYMENT_DISPUTED
  | PROTECTED_PAYMENT_RESOLVED | PROTECTED_PAYMENT_DEADLINE_PASSED
  | PROTECTED_PAYMENT_EXPIRED | PROTECTED_PAYMENT_CANCELLED.
#[export] Instance WebhookEventType_eq_dec : EqDecision WebhookEventType.
Proof. solve_decision. Defined.

Definition event_name (t : WebhookEventType) : string :=
  match t with
  | PAYMENT_INTENT_CREATED => "PAYMENT_INTENT_CREATED"
  | PAYMENT_INTENT_UPDATED => "PAYMENT_INTENT_UPDATED"
  | PAYMENT_INTENT_SUCCEEDED => "PAYMENT_INTENT_SUCCEEDED"
  | PAYMENT_INTENT_FAILED => "PAYMENT_INTENT_FAILED"
  | PAYMENT_INTENT_CANCELLED => "PAYMENT_INTENT_CANCELLED"
  | PAYMENT_INTENT_DELETED => "PAYMENT_INTENT_DELETED"
  | RECEIVER_UPDATED => "RECEIVER_UPDATED"
  | PAYIN_CREATED => "PAYIN_CREATED"
  | PAYIN_UPDATED => "PAYIN_UPDATED"
  | PAYIN_COMPLETED => "PAYIN_COMPLETED"
  | PAYOUT_CREATED => "PAYOUT_CREATED"
  | PAYOUT_UPDATED => "PAYOUT_UPDATED"
  | PAYOUT_COMPLETED => "PAYOUT_COMPLETED"
  | SWAP_CREATED => "SWAP_CREATED"
  | SWAP_SUBMITTED => "SWAP_SUBMITTED"
  | SWAP_SUCCEEDED => "SWAP_SUCCEEDED"
  | SWAP_FAILED => "SWAP_FAILED"
  | LIQUIDITY_CREATED => "LIQUIDITY_CREATED"
  | LIQUIDITY_SUBMITTED => "LIQUIDITY_SUBMITTED"
  | LIQUIDITY_SUCCEEDED => "LIQUIDITY_SUCCEEDED"
  | LIQUIDITY_FAILED => "LIQUIDITY_FAILED"
  | SWAP_EXPIRED => "SWAP_EXPIRED"
  | LIQUIDITY_EXPIRED => "LIQUIDITY_EXPIRED"
  | CROSS_CHAIN_SWAP_CREATED => "CROSS_CHAIN_SWAP_CREATED"
  | CROSS_CHAIN_SWAP_UPDATED => "CROSS_CHAIN_SWAP_UPDATED"
  | CROSS_CHAIN_SWAP_SUCCEEDED => "CROSS_CHAIN_SWAP_SUCCEEDED"
  | CROSS_CHAIN_SWAP_REFUNDED => "CROSS_CHAIN_SWAP_REFUNDED"
  | CROSS_CHAIN_SWAP_FAILED => "CROSS_CHAIN_SWAP_FAILED"
  | CROSS_CHAIN_SWAP_EXPIRED => "CROSS_CHAIN_SWAP_EXPIRED"
  | ZK_PAYMENT_SUCCEEDED => "ZK_PAYMENT_SUCCEEDED"
  | PROTECTED_PAYMENT_CREATED => "PROTECTED_PAYMENT_CREATED"
  | PROTECTED_PAYMENT_FUNDED => "PROTECTED_PAYMENT_FUNDED"
  | PROTECTED_PAYMENT_SHIPPED => "PROTECTED_PAYMENT_SHIPPED"
  | PROTECTED_PAYMENT_APPROVED => "PROTECTED_PAYMENT_APPROVED"
  | PROTECTED_PAYMENT_RELEASED => "PROTECTED_PAYMENT_RELEASED"
  | PROTECTED_PAYMENT_DISPUTED => "PROTECTED_PAYMENT_DISPUTED"
  | PROTECTED_PAYMENT_RESOLVED => "PROTECTED_PAYMENT_RESOLVED"
  | PROTECTED_PAYMENT_DEADLINE_PASSED => "PROTECTED_PAYMENT_DEADLINE_PASSED"
  | PROTECTED_PAYMENT_EXPIRED => "PROTECTED_PAYMENT_EXPIRED"
  | PROTECTED_PAYMENT_CANCELLED => "PROTECTED_PAYMENT_CANCELLED"
  end.

Definition TERMINAL_WEBHOOK_EVENTS : list WebhookEventType :=
  [SWAP_SUCCEEDED; SWAP_FAILED; LIQUIDITY_SUCCEEDED; LIQUIDITY_FAILED;
   PAYMENT_INTENT_SUCCEEDED; PAYMENT_INTENT_FAILED;
   CROSS_CHAIN_SWAP_SUCCEEDED; CROSS_CHAIN_SWAP_REFUNDED; CROSS_CHAIN_SWAP_FAILED;
   PAYIN_COMPLETED; PAYOUT_COMPLETED; ZK_PAYMENT_SUCCEEDED;
   PROTECTED_PAYMENT_RELEASED; PROTECTED_PAYMENT_RESOLVED; PROTECTED_PAYMENT_EXPIRED;
   PROTECTED_PAYMENT_CANCELLED].

Definition isTerminalWebhookEvent (t : WebhookEventType) : bool :=
  bool_decide (t ∈ TERMINAL_WEBHOOK_EVENTS).

Definition terminalEventDedupKey (type : WebhookEventType) (resourceId : string)
    (settlementEpoch : Z) : string :=
  (event_name type +:+ ":" +:+ resourceId +:+ ":" +:+ toString settlementEpoch)%string.

Record WebhookEventPayload := mkPayload {
  consumerUsername : string;
  type_ : WebhookEventType;
  data : json;
  deliveryIds : option (list string)
}.

(** ** Rows *)

Record WebhookEndpoint := mkEndpoint {
  ep_id : string;
  ep_consumer : string;
  ep_url : string;
  enabled : bool;
  destinationBlocked : bool;
  eventTypes : list WebhookEventType
}.

Inductive WebhookDeliveryStatus := D_PENDING | D_SUCCEEDED | D_FAILED.
#[export] Instance WebhookDeliveryStatus_eq_dec : EqDecision WebhookDeliveryStatus.
Proof. solve_decision. Defined.

Record WebhookDelivery := mkDelivery {
  d_id : string;
  endpointId : string;
  eventType : WebhookEventType;
  eventId : string;
  d_payload : json;
  d_status : WebhookDeliveryStatus;
  attempts : Z;
  responseStatus : option Z;
  lastAttemptAt : option Z;
  d_createdAt : Z
}.

(** The tables the webhooks module touches, and the events published on the bus
    whose listener has not run yet. *)
Record Hooks := mkHooks {
  endpoints : list WebhookEndpoint;
  deliveries : list WebhookDelivery;
  emittedEvents : list string;
  bus : list WebhookEventPayload
}.

Definition set_endpoints (f : list WebhookEndpoint -> list WebhookEndpoint) (h : Hooks) : Hooks :=
  mkHooks (f (endpoints h)) (deliveries h) (emittedEvents h) (bus h).
Definition set_deliveries (f : list WebhookDelivery -> list WebhookDelivery) (h : Hooks) : Hooks :=
  mkHooks (endpoints h) (f (deliveries h)) (emittedEvents h) (bus h).
Definition claim (k : string) (h : Hooks) : Hooks :=
  mkHooks (endpoints h) (deliveries h) (k :: emittedEvents h) (bus h).
Definition publish (p : WebhookEventPayload) (h : Hooks) : Hooks :=
  mkHooks (endpoints h) (deliveries h) (emittedEvents h) (bus h ++ [p]).

(** What the service draws or reads from the clock while it handles one event:
    the event id, the id of the [n]-th row it inserts, the instant and its ISO
    text. *)
Record Draw := mkDraw {
  draw_event : string;
  draw_row : nat -> string;
  draw_now : Z;
  draw_iso : string
}.

(** ** Dispatcher: persisting *)

Definition buildBody (eventId : string) (iso : string) (type : WebhookEventType) (data : json) : json :=
  JObject [("id", JString eventId); ("type", JString (event_name type));
           ("createdAt", JString iso); ("data", data)]%string.

Definition subscribed (p : WebhookEventPayload) (e : WebhookEndpoint) : bool :=
  enabled e && negb (destinationBlocked e)
  && bool_decide (ep_consumer e = consumerUsername p)
  && (bool_decide (eventTypes e = []) || bool_decide (type_ p ∈ eventTypes e)).

(** The loop that creates one row per target. *)
Fixpoint rows_for (p : WebhookEventPayload) (d : Draw) (n : nat) (targets : list WebhookEndpoint)
    : list WebhookDelivery :=
  match targets with
  | [] => []
  | e :: targets =>
      mkDelivery (draw_row d n) (ep_id e) (type_ p) (draw_event d)
        (buildBody (draw_event d) (draw_iso d) (type_ p) (data p))
        D_PENDING 0 None None (draw_now d)
      :: rows_for p d (S n) targets
  end.

Definition targets_of (p : WebhookEventPayload) (h : Hooks) : list WebhookEndpoint :=
  List.filter (subscribed p) (endpoints h).

Definition persistDeliveries (p : WebhookEventPayload) (d : Draw)
    : svc Hooks (list (WebhookEndpoint * WebhookDelivery)) :=
  fun h =>
    let targets := targets_of p h in
    let rows := rows_for p d 0 targets in
    (set_deliveries (fun l => l ++ rows) h, Ok (zip targets rows)).

(** ** Emitter *)

Definition resourceIdOf (data : json) : option string :=
  match data with
  | JObject fields => match field "id" fields with Some (JString s) => Some s | _ => None end
  | _ => None
  end.

(** The columns are integers; a number that is not one never reaches a key. *)
Definition settlementEpochOf (data : json) : Z :=
  match data with
  | JObject fields =>
      match field "settlementEpoch" fields with Some (JNumber (NumInt e)) => e | _ => 0 end
  | _ => 0
  end.

(** [webhookEmittedEvent.create]: the unique index on [dedupKey]. *)
Definition insert_emitted (k : string) : svc Hooks unit := fun h =>
  if bool_decide (k ∈ emittedEvents h) then (h, Throw (UniqueViolation "dedupKey"))
  else (claim k h, Ok tt).

Definition claimAndRecord (p : WebhookEventPayload) (resourceId : string) (epoch : Z) (d : Draw)
    : svc Hooks (option (list string)) :=
  let dedupKey := terminalEventDedupKey (type_ p) resourceId epoch in
  catch
    (transaction
       (_ ← insert_emitted dedupKey;
        pending ← persistDeliveries p d;
        mret (Some ((fun x => d_id (snd x)) <$> pending))))
    (fun err => match err with
                | UniqueViolation _ => mret None
                | _ => throw err
                end).

Definition publishing (p : WebhookEventPayload) : svc Hooks unit :=
  fun h => (publish p h, Ok tt).

Definition emit (username : string) (type : WebhookEventType) (data : json) (d : Draw)
    : svc Hooks bool :=
  let payload := mkPayload username type data None in
  if negb (isTerminalWebhookEvent type) then (_ ← publishing payload; mret true)
  else
    match resourceIdOf data with
    | None | Some "" => throw JsError
    | Some resourceId =>
        ids ← claimAndRecord payload resourceId (settlementEpochOf data) d;
        match ids with
        | None => mret false
        | Some ids => _ ← publishing (mkPayload username type data (Some ids)); mret true
        end
    end%string.

(** ** Dispatcher: sending *)

Record WebhookConfig := mkWebhookConfig {
  maxAttempts : Z;
  backoffMs : Z;
  connectTimeoutMs : Z;
  readTimeoutMs : Z
}.

(** What one POST comes to: a response, a destination refused before a socket
    opens ([WebhookUrlValidationError]), or any other failure. *)
Inductive SendOutcome :=
  | Response (status : Z)
  | DestinationRefused
  | SendError.

Definition res_ok (status : Z) : bool := (200 <=? status) && (status <? 300).

(** The world's answers to the POSTs of one run, in order, and the instant the
    row is finalized at. *)
Record Transport := mkTransport { answer : nat -> SendOutcome; finalized_at : Z }.

(** [webhookDelivery.update({ where: { id } })]: P2025 when the row is gone. *)
Definition update_delivery (i : string) (f : WebhookDelivery -> WebhookDelivery)
    : svc Hooks WebhookDelivery := fun h =>
  match List.find (fun d => bool_decide (d_id d = i)) (deliveries h) with
  | None => (h, Throw JsError)
  | Some d =>
      (set_deliveries (fmap (fun x => if bool_decide (d_id x = i) then f x else x)) h, Ok (f d))
  end.

Definition finalize (i : string) (status : WebhookDeliveryStatus) (n : Z) (resp : option Z) (now : Z)
    : svc Hooks WebhookDelivery :=
  update_delivery i (fun d =>
    mkDelivery (d_id d) (endpointId d) (eventType d) (eventId d) (d_payload d)
      status n resp (Some now) (d_createdAt d)).

Definition markDestinationBlocked (i : string) : svc Hooks unit := fun h =>
  match List.find (fun e => bool_decide (ep_id e = i)) (endpoints h) with
  | None => (h, Throw JsError)
  | Some _ =>
      (set_endpoints (fmap (fun e =>
         if bool_decide (ep_id e = i)
         then mkEndpoint (ep_id e) (ep_consumer e) (ep_url e) false true (eventTypes e)
         else e)) h, Ok tt)
  end.

(** The retry loop, from its [n]-th turn with [turns] to go. *)
Fixpoint attempt_loop (t : Transport) (endpoint : string) (delivery : WebhookDelivery)
    (turns n : nat) (count : Z) (resp : option Z) : svc Hooks WebhookDelivery :=
  match turns with
  | O => finalize (d_id delivery) D_FAILED count resp (finalized_at t)
  | S turns =>
      let count := count + 1 in
      match answer t n with
      | Response s =>
          if res_ok s then finalize (d_id delivery) D_SUCCEEDED count (Some s) (finalized_at t)
          else attempt_loop t endpoint delivery turns (S n) count (Some s)
      | DestinationRefused =>
          _ ← markDestinationBlocked endpoint;
          finalize (d_id delivery) D_FAILED count None (finalized_at t)
      | SendError => attempt_loop t endpoint delivery turns (S n) count None
      end
  end.

Definition attempt (cfg : WebhookConfig) (t : Transport) (endpoint : string)
    (delivery : WebhookDelivery) : svc Hooks WebhookDelivery :=
  attempt_loop t endpoint delivery (Z.to_nat (maxAttempts cfg)) 0 (attempts delivery) None.

Definition redeliver (cfg : WebhookConfig) (t : Transport) (delivery : WebhookDelivery)
    : svc Hooks WebhookDelivery := fun h =>
  match List.find (fun e => bool_decide (ep_id e = endpointId delivery)) (endpoints h) with
  | None => (h, Throw JsError)
  | Some e => attempt cfg t (ep_id e) delivery h
  end.

(** [loadDeliveries]: the rows, with the endpoint each belongs to. *)
Definition loadDeliveries (ids : list string) (h : Hooks) : list WebhookDelivery :=
  List.filter (fun d => bool_decide (d_id d ∈ ids)) (deliveries h).

(** [Promise.all] of the attempts; each runs to its end whatever the others do. *)
Fixpoint attempt_all (cfg : WebhookConfig) (ts : nat -> Transport) (n : nat)
    (pending : list (string * WebhookDelivery)) (h : Hooks) : Hooks :=
  match pending with
  | [] => h
  | (e, d) :: rest => attempt_all cfg ts (S n) rest (fst (attempt cfg (ts n) e d h))
  end.

Definition handleEvent (cfg : WebhookConfig) (ts : nat -> Transport) (p : WebhookEventPayload)
    (d : Draw) (h : Hooks) : Hooks :=
  match deliveryIds p with
  | Some ((_ :: _) as ids) =>
      attempt_all cfg ts 0 ((fun x => (endpointId x, x)) <$> loadDeliveries ids h) h
  | _ =>
      match persistDeliveries p d h with
      | (h, Ok pending) => attempt_all cfg ts 0 ((fun x => (ep_id (fst x), snd x)) <$> pending) h
      | (h, Throw _) => h
      end
  end.

(** ** Sweeper *)

Definition SWEEP_BATCH_SIZE : nat := 25.
Definition RETRY_BUDGET_CYCLES : Z := 3.

Definition isRedactedPayload (payload : json) : bool :=
  match payload with JObject [("redacted", JBool true)] => true | _ => false end%string.

Definition strandedAfterMs (cfg : WebhookConfig) : Z :=
  let attemptBudget := maxAttempts cfg * (connectTimeoutMs cfg + readTimeoutMs cfg) in
  let backoffBudget := (backoffMs cfg * maxAttempts cfg * (maxAttempts cfg - 1)) / 2 in
  Z.max 60000 ((attemptBudget + backoffBudget) * 2).

Definition retryCooldownMs (cfg : WebhookConfig) : Z :=
  Z.max 60000 (backoffMs cfg * maxAttempts cfg * 2).

Definition before (t : option Z) (limit : Z) : bool :=
  match t with Some t => t <? limit | None => false end.

Definition endpoint_open (h : Hooks) (i : string) : bool :=
  match List.find (fun e => bool_decide (ep_id e = i)) (endpoints h) with
  | Some e => enabled e && negb (destinationBlocked e)
  | None => false
  end.

(** The [where] of [claimStranded]. *)
Definition stranded (cfg : WebhookConfig) (now : Z) (h : Hooks) (d : WebhookDelivery) : bool :=
  endpoint_open h (endpointId d) && negb (isRedactedPayload (d_payload d))
  && ((bool_decide (d_status d = D_PENDING)
       && ((bool_decide (lastAttemptAt d = None) && (d_createdAt d <? now - strandedAfterMs cfg))
           || before (lastAttemptAt d) (now - strandedAfterMs cfg)))
      || (bool_decide (d_status d = D_FAILED)
          && (attempts d <? maxAttempts cfg * RETRY_BUDGET_CYCLES)
          && before (lastAttemptAt d) (now - retryCooldownMs cfg))).

Definition created_le (a b : WebhookDelivery) : Prop := d_createdAt a <= d_createdAt b.
#[export] Instance created_le_dec : RelDecision created_le.
Proof. intros a b. unfold created_le. apply _. Defined.

Definition stamp (now : Z) (d : WebhookDelivery) : WebhookDelivery :=
  mkDelivery (d_id d) (endpointId d) (eventType d) (eventId d) (d_payload d) (d_status d)
    (attempts d) (responseStatus d) (Some now) (d_createdAt d).

Definition claimStranded (cfg : WebhookConfig) (now : Z) (h : Hooks) : Hooks * list string :=
  let candidates :=
    take SWEEP_BATCH_SIZE (merge_sort created_le (List.filter (stranded cfg now h) (deliveries h))) in
  let ids := d_id <$> candidates in
  (set_deliveries (fmap (fun d => if bool_decide (d_id d ∈ ids) then stamp now d else d)) h, ids).

(** [recover]: each row as read back, redelivered; a failure costs that row. *)
Fixpoint recover_rows (cfg : WebhookConfig) (ts : nat -> Transport) (n : nat)
    (rows : list WebhookDelivery) (h : Hooks) : Hooks :=
  match rows with
  | [] => h
  | d :: rest => recover_rows cfg ts (S n) rest (fst (redeliver cfg (ts n) d h))
  end.

Definition cycle (cfg : WebhookConfig) (now : Z) (ts : nat -> Transport) (h : Hooks) : Hooks :=
  let '(h, claimed) := claimStranded cfg now h in
  recover_rows cfg ts 0 (loadDeliveries claimed h) h.

(** ** Lemmas: keys *)

Definition colon : ascii := ":"%char.
Definition no_colon (s : string) : bool := all_chars (fun a => negb (Ascii.eqb a colon)) s.

Lemma no_colon_app a b : no_colon (a +:+ b) = no_colon a && no_colon b.
Proof. apply all_chars_app. Qed.

Lemma event_name_no_colon t : no_colon (event_name t) = true.
Proof. by destruct t. Qed.

Lemma event_name_inj t t' : event_name t = event_name t' -> t = t'.
Proof. by destruct t, t'. Qed.

Lemma split_first_colon a a' s s' :
  no_colon a = true -> no_colon a' = true ->
  (a +:+ String colon s)%string = (a' +:+ String colon s')%string -> a = a' /\ s = s'.
Proof.
  revert a'. induction a as [|x a IH]; intros [|y a'] Ha Ha'; simpl; unfold no_colon in *; simpl in *.
  - by intros [= ->].
  - intros [= <- _]. done.
  - intros [= -> _]. done.
  - bool_facts. intros [= -> E]. destruct (IH a') as [-> ->]; done.
Qed.

Lemma split_last_colon r r' s s' :
  no_colon s = true -> no_colon s' = true ->
  (r +:+ String colon s)%string = (r' +:+ String colon s')%string -> r = r' /\ s = s'.
Proof.
  assert (forall t u, (t +:+ String colon u)%string = s -> no_colon s = true -> False) as Hno.
  { intros t u <-. rewrite no_colon_app. unfold no_colon at 2. simpl. by rewrite andb_false_r. }
  assert (forall t u, (t +:+ String colon u)%string = s' -> no_colon s' = true -> False) as Hno'.
  { intros t u <-. rewrite no_colon_app. unfold no_colon at 2. simpl. by rewrite andb_false_r. }
  intros Hs Hs'. revert r'. induction r as [|x r IH]; intros [|y r']; simpl.
  - by intros [= ->].
  - intros [= _ E]. exfalso. by eapply Hno.
  - intros [= _ E]. exfalso. by eapply Hno'.
  - intros [= -> E]. by destruct (IH r' E) as [-> ->].
Qed.

Lemma digits_no_colon s : all_chars is_digit s = true -> no_colon s = true.
Proof.
  unfold no_colon. induction s as [|a s IH]; simpl; [done|]. intros. bool_facts.
  rewrite IH by done. destruct (Ascii.eqb_spec a colon) as [->|]; done.
Qed.

Lemma nat_toString_inj m n : 0 <= m -> 0 <= n -> nat_toString m = nat_toString n -> m = n.
Proof.
  intros Hm Hn E. rewrite <- (nat_toString_value m Hm), <- (nat_toString_value n Hn). by rewrite E.
Qed.

Lemma nat_toString_no_minus n s : 0 <= n -> nat_toString n <> String "-"%char s.
Proof.
  intros Hn E. pose proof (nat_toString_digits n Hn) as H. rewrite E in H. done.
Qed.

Lemma toString_no_colon z : no_colon (toString z) = true.
Proof.
  unfold toString. destruct (Z.ltb_spec z 0).
  - apply (digits_no_colon (nat_toString (- z))), nat_toString_digits. lia.
  - by apply digits_no_colon, nat_toString_digits.
Qed.

Lemma toString_inj m n : toString m = toString n -> m = n.
Proof.
  unfold toString. destruct (Z.ltb_spec m 0), (Z.ltb_spec n 0); intros E.
  - injection E as E. apply nat_toString_inj in E; lia.
  - symmetry in E. by apply nat_toString_no_minus in E.
  - by apply nat_toString_no_minus in E.
  - by apply nat_toString_inj.
Qed.

Lemma dedupKey_inj t r e t' r' e' :
  terminalEventDedupKey t r e = terminalEventDedupKey t' r' e' -> t = t' /\ r = r' /\ e = e'.
Proof.
  unfold terminalEventDedupKey. intros E.
  apply split_first_colon in E as [Et E]; [|apply event_name_no_colon..].
  apply split_last_colon in E as [-> Ee]; [|apply toString_no_colon..].
  split; [by apply event_name_inj|]. split; [done | by apply toString_inj].
Qed.

(** ** Lemmas: frames

    Sending changes neither which deliveries exist, for which event and
    endpoint, nor the claims, nor the bus. *)

(** The key of the terminal event a payload or a delivery is about. *)
Definition data_key (t : WebhookEventType) (data : json) : option string :=
  if isTerminalWebhookEvent t then
    match resourceIdOf data with
    | None | Some "" => None
    | Some r => Some (terminalEventDedupKey t r (settlementEpochOf data))
    end
  else None.

Definition payload_key (p : WebhookEventPayload) : option string := data_key (type_ p) (data p).

Definition delivery_key (d : WebhookDelivery) : option string :=
  match d_payload d with
  | JObject fields =>
      match field "data" fields with Some j => data_key (eventType d) j | None => None end
  | _ => None
  end.

Record skeleton := mkSkeleton { sk_key : option string; sk_endpoint : string; sk_event : string }.

Definition skel (d : WebhookDelivery) : skeleton :=
  mkSkeleton (delivery_key d) (endpointId d) (eventId d).

Record frame (h h' : Hooks) : Prop := mkFrame {
  frame_deliveries : skel <$> deliveries h' = skel <$> deliveries h;
  frame_endpoints : ep_id <$> endpoints h' = ep_id <$> endpoints h;
  frame_claims : emittedEvents h' = emittedEvents h;
  frame_bus : bus h' = bus h
}.

#[export] Instance frame_preorder : PreOrder frame.
Proof.
  split; [by intros h|]. intros a b c [? ? ? ?] [? ? ? ?]. split; congruence.
Qed.

Lemma frame_update_delivery i f h :
  (forall d, skel (f d) = skel d) -> frame h (fst (update_delivery i f h)).
Proof.
  intros Hf. unfold update_delivery. destruct (List.find _ _); [|done]. split; try done. simpl.
  rewrite <- list_fmap_compose. apply list_fmap_ext. intros _ d _. simpl. by case_bool_decide.
Qed.

Lemma frame_finalize i s n r now h : frame h (fst (finalize i s n r now h)).
Proof. by apply frame_update_delivery. Qed.

Lemma frame_markDestinationBlocked i h : frame h (fst (markDestinationBlocked i h)).
Proof.
  unfold markDestinationBlocked. destruct (List.find _ _); [|done]. split; try done. simpl.
  rewrite <- list_fmap_compose. apply list_fmap_ext. intros _ d _. simpl. by case_bool_decide.
Qed.

Lemma frame_attempt_loop t e d turns n count resp h :
  frame h (fst (attempt_loop t e d turns n count resp h)).
Proof.
  revert n count resp. induction turns as [|k IH]; intros n count resp; cbn [attempt_loop].
  - apply frame_finalize.
  - destruct (answer t n) as [s| |]; [| | apply IH].
    + destruct (res_ok s); [apply frame_finalize | apply IH].
    + unfold mbind, svc_bind. pose proof (frame_markDestinationBlocked e h) as F.
      destruct (markDestinationBlocked e h) as [h' [u|err]]; [|exact F].
      etransitivity; [exact F | apply frame_finalize].
Qed.

Lemma frame_attempt cfg t e d h : frame h (fst (attempt cfg t e d h)).
Proof. apply frame_attempt_loop. Qed.

Lemma frame_redeliver cfg t d h : frame h (fst (redeliver cfg t d h)).
Proof. unfold redeliver. destruct (List.find _ _); [apply frame_attempt | done]. Qed.

Lemma frame_attempt_all cfg ts n l h : frame h (attempt_all cfg ts n l h).
Proof.
  revert n h. induction l as [|[e d] l IH]; intros n h; [done|]. cbn [attempt_all].
  etransitivity; [apply frame_attempt | apply IH].
Qed.

Lemma frame_recover_rows cfg ts n l h : frame h (recover_rows cfg ts n l h).
Proof.
  revert n h. induction l as [|d l IH]; intros n h; [done|]. cbn [recover_rows].
  etransitivity; [apply frame_redeliver | apply IH].
Qed.

Lemma frame_claimStranded cfg now h : frame h (fst (claimStranded cfg now h)).
Proof.
  unfold claimStranded. split; try done. simpl.
  rewrite <- list_fmap_compose. apply list_fmap_ext. intros _ d _. simpl. by case_bool_decide.
Qed.

Lemma frame_cycle cfg now ts h : frame h (cycle cfg now ts h).
Proof.
  unfold cycle. pose proof (frame_claimStranded cfg now h) as F.
  destruct (claimStranded cfg now h) as [h' ids]. etransitivity; [exact F | apply frame_recover_rows].
Qed.

(** ** The module as a transition system *)

(** Everything that happens to the tables: an event is emitted, the listener of
    a published event runs, the process dies with events still on its bus, a
    delivery is re-sent, the sweeper runs, endpoints are created, edited or
    deleted (with their deliveries). *)
Inductive hook_step (cfg : WebhookConfig) : Hooks -> Hooks -> Prop :=
  | step_emit u t j d h : hook_step cfg h (fst (emit u t j d h))
  | step_listen l1 p l2 ts d h :
      bus h = l1 ++ p :: l2 ->
      hook_step cfg h
        (handleEvent cfg ts p d (mkHooks (endpoints h) (deliveries h) (emittedEvents h) (l1 ++ l2)))
  | step_crash h : hook_step cfg h (mkHooks (endpoints h) (deliveries h) (emittedEvents h) [])
  | step_redeliver t d h : d ∈ deliveries h -> hook_step cfg h (fst (redeliver cfg t d h))
  | step_sweep now ts h : hook_step cfg h (cycle cfg now ts h)
  | step_endpoints l h :
      NoDup (ep_id <$> l) ->
      hook_step cfg h
        (mkHooks l (List.filter (fun d => bool_decide (endpointId d ∈ ep_id <$> l)) (deliveries h))
           (emittedEvents h) (bus h)).

(** The rows of one event. *)
Definition group (k : string) (l : list skeleton) : list skeleton :=
  List.filter (fun s => bool_decide (sk_key s = Some k)) l.

Record one_fan_out (k : string) (l : list skeleton) : Prop := {
  one_per_endpoint : NoDup (sk_endpoint <$> group k l);
  one_event_id : forall s s', s ∈ group k l -> s' ∈ group k l -> sk_event s = sk_event s'
}.

Record hooks_inv (h : Hooks) : Prop := {
  inv_endpoints : NoDup (ep_id <$> endpoints h);
  inv_claims : NoDup (emittedEvents h);
  inv_rows_claimed : forall k, group k (skel <$> deliveries h) <> [] -> k ∈ emittedEvents h;
  inv_bus_claimed : forall p k, p ∈ bus h -> payload_key p = Some k -> k ∈ emittedEvents h;
  inv_bus_once : NoDup (omap payload_key (bus h));
  inv_bus_rows : forall p k, p ∈ bus h -> payload_key p = Some k ->
    (exists i ids, deliveryIds p = Some (i :: ids)) \/ group k (skel <$> deliveries h) = [];
  inv_fan_out : forall k, one_fan_out k (skel <$> deliveries h)
}.

Lemma hooks_inv_frame h h' : frame h h' -> hooks_inv h -> hooks_inv h'.
Proof.
  intros [Ed Ee Ec Eb] [? ? ? ? ? ? ?]. split; rewrite ?Ed, ?Ee, ?Ec, ?Eb; done.
Qed.

Lemma group_app k l1 l2 : group k (l1 ++ l2) = group k l1 ++ group k l2.
Proof. apply List.filter_app. Qed.

Lemma rows_for_skel p d n targets :
  skel <$> rows_for p d n targets =
  (fun e => mkSkeleton (payload_key p) (ep_id e) (draw_event d)) <$> targets.
Proof.
  revert n. induction targets as [|e l IH]; intros n; [done|]. cbn [rows_for].
  rewrite !fmap_cons, IH. f_equal.
Qed.

Lemma group_rows k p d targets :
  group k ((fun e => mkSkeleton (payload_key p) (ep_id e) (draw_event d)) <$> targets) =
  if decide (payload_key p = Some k)
  then (fun e => mkSkeleton (payload_key p) (ep_id e) (draw_event d)) <$> targets else [].
Proof.
  unfold group. induction targets as [|e l IH]; [by destruct (decide _)|].
  rewrite fmap_cons. cbn [List.filter sk_key]. rewrite IH.
  destruct (decide (payload_key p = Some k)) as [E|E].
  - by rewrite bool_decide_true.
  - by rewrite bool_decide_false.
Qed.

Lemma NoDup_fmap_filter {A B} (f : A -> B) (p : A -> bool) l :
  NoDup (f <$> l) -> NoDup (f <$> List.filter p l).
Proof.
  induction l as [|a l IH]; [done|]. rewrite fmap_cons, NoDup_cons. intros [Hn Hl]. simpl.
  destruct (p a); [|by apply IH]. rewrite fmap_cons, NoDup_cons. split; [|by apply IH].
  rewrite list_elem_of_fmap. intros (x & E & Hx). apply Hn. apply list_elem_of_fmap.
  exists x. split; [done|]. apply list_elem_of_In. apply list_elem_of_In in Hx.
  by apply List.filter_In in Hx as [? _].
Qed.

(** Writing the rows of an event no row is about yet. *)
Lemma fan_out_persist p d h :
  NoDup (ep_id <$> endpoints h) ->
  (forall k, payload_key p = Some k -> group k (skel <$> deliveries h) = []) ->
  (forall k, one_fan_out k (skel <$> deliveries h)) ->
  forall k, one_fan_out k (skel <$> (deliveries h ++ rows_for p d 0 (targets_of p h))).
Proof.
  intros Hn Hempty Hold k. rewrite fmap_app, rows_for_skel. split; rewrite group_app, group_rows.
  - destruct (decide _) as [E|E].
    + rewrite Hempty by done. simpl. rewrite <- list_fmap_compose. by apply NoDup_fmap_filter.
    + rewrite app_nil_r. apply Hold.
  - destruct (decide _) as [E|E].
    + rewrite Hempty by done. simpl. intros s s'. rewrite !list_elem_of_fmap.
      by intros (? & -> & _) (? & -> & _).
    + rewrite app_nil_r. apply Hold.
Qed.

Lemma rows_for_nil p d n targets : rows_for p d n targets = [] -> targets = [].
Proof. by destruct targets. Qed.

(** What [claimAndRecord] does. *)
Lemma claimAndRecord_spec p r e d h :
  let k := terminalEventDedupKey (type_ p) r e in
  claimAndRecord p r e d h =
  if decide (k ∈ emittedEvents h) then (h, Ok None)
  else (mkHooks (endpoints h) (deliveries h ++ rows_for p d 0 (targets_of p h))
          (k :: emittedEvents h) (bus h),
        Ok (Some (d_id <$> rows_for p d 0 (targets_of p h)))).
Proof.
  intros k. unfold claimAndRecord. fold k. unfold catch, transaction, mbind, svc_bind, insert_emitted.
  destruct (decide (k ∈ emittedEvents h)) as [Hin|Hout].
  - by rewrite bool_decide_true.
  - rewrite bool_decide_false by done. simpl. do 4 f_equal.
    change (targets_of p (claim k h)) with (targets_of p h). generalize 0%nat.
    induction (targets_of p h) as [|x l IH]; intros n; [done|]. simpl. by rewrite IH.
Qed.

Lemma data_key_terminal t j r :
  isTerminalWebhookEvent t = true -> resourceIdOf j = Some r -> r <> ""%string ->
  data_key t j = Some (terminalEventDedupKey t r (settlementEpochOf j)).
Proof. unfold data_key. intros -> -> Hr. by destruct r. Qed.

(** What [emit] does, by the key of the event. *)
Lemma emit_spec u t j d h :
  emit u t j d h =
  if isTerminalWebhookEvent t then
    match data_key t j with
    | None => (h, Throw JsError)
    | Some k =>
        if decide (k ∈ emittedEvents h) then (h, Ok false)
        else
          let p := mkPayload u t j None in
          let rows := rows_for p d 0 (targets_of p h) in
          (mkHooks (endpoints h) (deliveries h ++ rows) (k :: emittedEvents h)
             (bus h ++ [mkPayload u t j (Some (d_id <$> rows))]), Ok true)
    end
  else (publish (mkPayload u t j None) h, Ok true).
Proof.
  unfold emit. destruct (isTerminalWebhookEvent t) eqn:Et; [|done]. cbn [negb].
  destruct (resourceIdOf j) as [r|] eqn:Er; [|by unfold data_key; rewrite Et, Er].
  destruct (decide (r = ""%string)) as [->|Hr]; [by unfold data_key; rewrite Et, Er|].
  rewrite (data_key_terminal t j r) by done. destruct r as [|a r]; [done|].
  unfold mbind at 1, svc_bind at 1. rewrite claimAndRecord_spec. cbn zeta. cbn [type_].
  by destruct (decide _).
Qed.

Lemma hooks_inv_emit u t j d h : hooks_inv h -> hooks_inv (fst (emit u t j d h)).
Proof.
  intros [I1 I2 I3 I4 I5 I6 I7]. rewrite emit_spec. destruct (isTerminalWebhookEvent t) eqn:Et.
  - destruct (data_key t j) as [k|] eqn:Ek; [|done]. destruct (decide (k ∈ _)) as [|Hk]; [done|].
    cbn zeta. set (p := mkPayload u t j None).
    assert (payload_key p = Some k) as Hpk by done.
    assert (group k (skel <$> deliveries h) = []) as Hg.
    { destruct (group k _) eqn:E; [done|]. destruct Hk. apply I3. by rewrite E. }
    assert (forall k', payload_key p = Some k' -> group k' (skel <$> deliveries h) = []) as Hg'
      by (intros k'; rewrite Hpk; by intros [= <-]).
    split; cbn [fst endpoints deliveries emittedEvents bus]; [done| | | | | |].
    + by constructor.
    + intros k'. rewrite fmap_app, group_app, rows_for_skel, group_rows. destruct (decide _) as [E|E].
      * rewrite Hpk in E. injection E as ->. intros _. by left.
      * rewrite app_nil_r. intros H. right. by apply I3.
    + intros q k' [Hq| ->%list_elem_of_singleton]%elem_of_app Ek'; [right; by eapply I4|].
      unfold payload_key in Ek'. simpl in Ek'. rewrite Ek in Ek'. injection Ek' as ->. by left.
    + rewrite omap_app. apply NoDup_app. split; [done|]. simpl.
      unfold payload_key at 2 3; simpl. rewrite Ek. split; [|apply NoDup_singleton].
      intros x (q & Hq & Eq)%list_elem_of_omap ->%list_elem_of_singleton. apply Hk. by eapply I4.
    + intros q k' [Hq| ->%list_elem_of_singleton]%elem_of_app Ek'.
      * destruct (I6 q k' Hq Ek') as [|Hg'']; [by left|]. right.
        rewrite fmap_app, group_app, rows_for_skel, group_rows, Hg''. simpl.
        destruct (decide _) as [E|]; [|done]. rewrite Hpk in E. injection E as ->.
        destruct Hk. by eapply I4.
      * simpl. destruct (rows_for p d 0 (targets_of p h)) as [|x l] eqn:E; [|left; by eexists _, _].
        right. rewrite app_nil_r. unfold payload_key in Ek'. simpl in Ek'. rewrite Ek in Ek'. by injection Ek' as <-.
    + by apply fan_out_persist.
  - split; cbn [fst publish endpoints deliveries emittedEvents bus]; try done.
    + intros q k' [Hq| ->%list_elem_of_singleton]%elem_of_app Ek'; [by eapply I4|].
      unfold payload_key, data_key in Ek'. simpl in Ek'. by rewrite Et in Ek'.
    + rewrite omap_app. simpl. unfold payload_key at 2, data_key; simpl. by rewrite Et, app_nil_r.
    + intros q k' [Hq| ->%list_elem_of_singleton]%elem_of_app Ek'; [by eapply I6|].
      unfold payload_key, data_key in Ek'. simpl in Ek'. by rewrite Et in Ek'.
Qed.

(** Taking an event off the bus. *)
Lemma hooks_inv_taken l1 p l2 h :
  bus h = l1 ++ p :: l2 -> hooks_inv h ->
  hooks_inv (mkHooks (endpoints h) (deliveries h) (emittedEvents h) (l1 ++ l2))
  /\ forall k, payload_key p = Some k ->
       k ∈ emittedEvents h /\ (forall q, q ∈ l1 ++ l2 -> payload_key q <> Some k)
       /\ ((exists i ids, deliveryIds p = Some (i :: ids)) \/ group k (skel <$> deliveries h) = []).
Proof.
  intros Eb [I1 I2 I3 I4 I5 I6 I7]. rewrite Eb in *.
  assert (forall q, q ∈ l1 ++ l2 -> q ∈ l1 ++ p :: l2) as Hsub
    by (intros q; rewrite !elem_of_app, elem_of_cons; tauto).
  rewrite omap_app in I5. simpl in I5. split.
  - split; cbn [endpoints deliveries emittedEvents bus]; try done; try (intros; eauto; fail).
    rewrite omap_app. destruct (payload_key p) as [k|]; [|done].
    apply NoDup_app in I5 as (H1 & H2 & H3). apply NoDup_app. split; [done|].
    split; [|by inversion H3]. intros x Hx Hx2. apply (H2 x Hx). by right.
  - intros k Ek. split; [eapply I4; [|done]; apply elem_of_app; right; by left|]. split.
    + intros q Hq Eq. rewrite Ek in I5. apply NoDup_app in I5 as (_ & H2 & H3).
      apply NoDup_cons in H3 as [H3 _]. apply elem_of_app in Hq as [Hq|Hq].
      * apply (H2 k); [apply list_elem_of_omap; by exists q | by left].
      * apply H3. apply list_elem_of_omap. by exists q.
    + apply I6; [|done]. apply elem_of_app. right. by left.
Qed.

Lemma hooks_inv_listen cfg l1 p l2 ts d h :
  bus h = l1 ++ p :: l2 -> hooks_inv h ->
  hooks_inv (handleEvent cfg ts p d (mkHooks (endpoints h) (deliveries h) (emittedEvents h) (l1 ++ l2))).
Proof.
  intros Eb Hi. destruct (hooks_inv_taken _ _ _ _ Eb Hi) as [Hi' Hp].
  set (h' := mkHooks _ _ _ _) in *.
  assert ((forall i ids, deliveryIds p <> Some (i :: ids)) ->
    hooks_inv (set_deliveries (fun l => l ++ rows_for p d 0 (targets_of p h')) h')) as Hpers.
  { intros Hno. assert (forall k, payload_key p = Some k -> group k (skel <$> deliveries h') = []) as Hg.
    { intros k Ek. destruct (Hp k Ek) as (_ & _ & [(i & ids & E)|E]); [by destruct (Hno i ids) | done]. }
    destruct Hi' as [I1 I2 I3 I4 I5 I6 I7].
    split; cbn [set_deliveries endpoints deliveries emittedEvents bus]; try done.
    - intros k. rewrite fmap_app, group_app, rows_for_skel, group_rows. destruct (decide _) as [E|E].
      + intros _. by destruct (Hp k E).
      + rewrite app_nil_r. apply I3.
    - intros q k Hq Ek. destruct (I6 q k Hq Ek) as [|Hg']; [by left|]. right.
      rewrite fmap_app, group_app, rows_for_skel, group_rows, Hg'. simpl.
      destruct (decide _) as [E|]; [|done]. destruct (Hp k E) as (_ & H & _). by destruct (H q Hq).
    - by apply fan_out_persist. }
  unfold handleEvent. destruct (deliveryIds p) as [[|i ids]|] eqn:Ei.
  - simpl. eapply hooks_inv_frame; [apply frame_attempt_all|]. by apply Hpers.
  - eapply hooks_inv_frame; [apply frame_attempt_all | done].
  - simpl. eapply hooks_inv_frame; [apply frame_attempt_all|]. by apply Hpers.
Qed.

Lemma group_fmap_filter k (q : WebhookDelivery -> bool) l :
  forall s, s ∈ group k (skel <$> List.filter q l) -> s ∈ group k (skel <$> l).
Proof.
  intros s. unfold group. rewrite !list_elem_of_In, !List.filter_In, <- !list_elem_of_In.
  rewrite !list_elem_of_fmap. intros [(d & -> & Hd) ?]. split; [|done]. exists d. split; [done|].
  rewrite list_elem_of_In in *. by apply List.filter_In in Hd as [? _].
Qed.

Lemma group_endpoints_filter k (q : WebhookDelivery -> bool) l :
  NoDup (sk_endpoint <$> group k (skel <$> l)) ->
  NoDup (sk_endpoint <$> group k (skel <$> List.filter q l)).
Proof.
  induction l as [|d l IH]; [done|]. cbn [List.filter]. rewrite fmap_cons. unfold group in *. cbn [List.filter].
  destruct (bool_decide (sk_key (skel d) = Some k)) eqn:E.
  - rewrite fmap_cons, NoDup_cons. intros [Hn Hl]. destruct (q d); [|by apply IH].
    rewrite fmap_cons. cbn [List.filter]. rewrite E, fmap_cons, NoDup_cons. split; [|by apply IH].
    intros Hin. apply Hn. apply list_elem_of_fmap in Hin as (s & -> & Hs). apply list_elem_of_fmap.
    exists s. split; [done|]. by eapply group_fmap_filter.
  - intros Hl. destruct (q d); [|by apply IH]. rewrite fmap_cons. cbn [List.filter]. rewrite E. by apply IH.
Qed.

Lemma hooks_inv_step cfg h h' : hooks_inv h -> hook_step cfg h h' -> hooks_inv h'.
Proof.
  intros Hi Hs. revert Hi.
  destruct Hs as [u t j d h0|l1 p l2 ts d h0 Eb|h0|t d h0 _|now ts h0|l h0 Hl]; intros Hi.
  - by apply hooks_inv_emit.
  - by apply hooks_inv_listen.
  - destruct Hi. split; cbn [endpoints deliveries emittedEvents bus]; try done.
    + by intros p k ?%not_elem_of_nil.
    + apply NoDup_nil_2.
    + by intros p k ?%not_elem_of_nil.
  - eapply hooks_inv_frame; [apply frame_redeliver | done].
  - eapply hooks_inv_frame; [apply frame_cycle | done].
  - destruct Hi as [I1 I2 I3 I4 I5 I6 I7].
    assert (forall k q, group k (skel <$> deliveries h0) = [] ->
      group k (skel <$> List.filter q (deliveries h0)) = []) as Hnil.
    { intros k q E. destruct (group k (skel <$> List.filter q _)) as [|s r] eqn:Eg; [done|].
      assert (s ∈ group k (skel <$> deliveries h0)) as Hin
        by (apply (group_fmap_filter k q); rewrite Eg; by left).
      rewrite E in Hin. by apply not_elem_of_nil in Hin. }
    split; cbn [endpoints deliveries emittedEvents bus]; try done.
    + intros k Hne. apply I3. intros E. by apply Hne, Hnil.
    + intros p k Hp Ek. destruct (I6 p k Hp Ek); [by left | right; by apply Hnil].
    + intros k. destruct (I7 k) as [H1 H2]. split; [by apply group_endpoints_filter|].
      intros s s' Hs Hs'. apply H2; by eapply group_fmap_filter.
Qed.

(** ** Lemmas: sending *)

Definition retryable (o : SendOutcome) : bool :=
  match o with Response s => negb (res_ok s) | DestinationRefused => false | SendError => true end.

Lemma find_by_id {A} (f : A -> string) (l : list A) x i :
  x ∈ l -> f x = i -> exists y, List.find (fun y => bool_decide (f y = i)) l = Some y /\ f y = i.
Proof.
  intros Hin Hx. destruct (List.find _ l) as [y|] eqn:E.
  - apply List.find_some in E as [_ E]. exists y. split; [done | by apply bool_decide_eq_true in E].
  - apply list_elem_of_In in Hin. pose proof (List.find_none _ _ E _ Hin) as H.
    by apply bool_decide_eq_false in H.
Qed.

Definition has_row (i : string) (h : Hooks) : Prop := exists d, d ∈ deliveries h /\ d_id d = i.
Definition has_endpoint (i : string) (h : Hooks) : Prop := exists e, e ∈ endpoints h /\ ep_id e = i.

Lemma finalize_row i s n r now h :
  has_row i h -> exists d', finalize i s n r now h =
    (set_deliveries (fmap (fun x => if bool_decide (d_id x = i) then
        mkDelivery (d_id x) (endpointId x) (eventType x) (eventId x) (d_payload x)
          s n r (Some now) (d_createdAt x) else x)) h, Ok d')
  /\ d_status d' = s /\ attempts d' = n /\ responseStatus d' = r /\ d_id d' = i.
Proof.
  intros (d & Hin & Hi). destruct (find_by_id d_id _ _ _ Hin Hi) as (y & E & Ey).
  unfold finalize, update_delivery. rewrite E. by eexists.
Qed.

Lemma blocked_endpoint_closed i h :
  endpoint_open (fst (markDestinationBlocked i h)) i = false.
Proof.
  unfold markDestinationBlocked, endpoint_open.
  destruct (List.find (fun e => bool_decide (ep_id e = i)) (endpoints h)) as [e|] eqn:E; simpl; [|by rewrite E].
  clear E. destruct (List.find _ (_ <$> _)) as [e'|] eqn:E'; [|done].
  apply List.find_some in E' as [Hin Hi]. apply bool_decide_eq_true in Hi.
  apply list_elem_of_In, list_elem_of_fmap in Hin as (x & -> & _).
  destruct (bool_decide_reflect (ep_id x = i)) as [Ex|Ex]; [done|]. by destruct Ex.
Qed.

Lemma markDestinationBlocked_Ok i h :
  has_endpoint i h -> exists h', markDestinationBlocked i h = (h', Ok tt) /\ deliveries h' = deliveries h.
Proof.
  intros (e & Hin & Hi). destruct (find_by_id ep_id _ _ _ Hin Hi) as (y & E & _).
  unfold markDestinationBlocked. rewrite E. by eexists.
Qed.

(** The outcome of a run that used [used] of its turns, the last one [last]. *)
Definition run_outcome (used all : nat) (last : SendOutcome) (e : string) (h' : Hooks)
    (d' : WebhookDelivery) : Prop :=
  match last with
  | Response s =>
      responseStatus d' = Some s
      /\ if res_ok s then d_status d' = D_SUCCEEDED else d_status d' = D_FAILED /\ used = all
  | SendError => responseStatus d' = None /\ d_status d' = D_FAILED /\ used = all
  | DestinationRefused =>
      responseStatus d' = None /\ d_status d' = D_FAILED /\ endpoint_open h' e = false
  end.

Lemma attempt_loop_spec t e d turns n count resp h :
  has_row (d_id d) h -> has_endpoint e h -> (0 < turns)%nat ->
  exists h' d' used, attempt_loop t e d turns n count resp h = (h', Ok d')
  /\ (1 <= used <= turns)%nat /\ attempts d' = count + Z.of_nat used /\ d_id d' = d_id d
  /\ (forall j, (n <= j < n + used - 1)%nat -> retryable (answer t j) = true)
  /\ run_outcome used turns (answer t (n + used - 1)) e h' d'.
Proof.
  intros Hr He. revert n count resp.
  induction turns as [|k IH]; intros n count resp Hk; [lia|]. cbn [attempt_loop].
  assert (forall resp', retryable (answer t n) = true ->
    run_outcome 1 1 (answer t n) e h
      (mkDelivery (d_id d) (endpointId d) (eventType d) (eventId d) (d_payload d) D_FAILED
         (count + 1) resp' None 0) ->
    exists h' d' used, attempt_loop t e d k (S n) (count + 1) resp' h = (h', Ok d')
    /\ (1 <= used <= S k)%nat /\ attempts d' = count + Z.of_nat used /\ d_id d' = d_id d
    /\ (forall j, (n <= j < n + used - 1)%nat -> retryable (answer t j) = true)
    /\ run_outcome used (S k) (answer t (n + used - 1)) e h' d') as Hnext.
  { intros resp' Hretry Hlast. destruct k as [|k].
    - cbn [attempt_loop].
      destruct (finalize_row (d_id d) D_FAILED (count + 1) resp' (finalized_at t) h Hr)
        as (d' & E & E1 & E2 & E3 & E4).
      eexists _, d', 1%nat. split; [exact E|]. split; [lia|]. split; [lia|]. split; [done|].
      split; [intros; lia|]. replace (n + 1 - 1)%nat with n by lia.
      unfold run_outcome in *. destruct (answer t n) as [s| |]; [|done|].
      + simpl in Hretry. apply negb_true_iff in Hretry. rewrite Hretry in *.
        destruct Hlast as [Hl _]. simpl in Hl. by rewrite E1, E3.
      + destruct Hlast as [Hl _]. simpl in Hl. by rewrite E1, E3.
    - destruct (IH (S n) (count + 1) resp' ltac:(lia)) as (h' & d' & used & E & Hu & Ha & Hi & Hj & Ho).
      exists h', d', (S used). split; [exact E|]. split; [lia|]. split; [lia|]. split; [done|]. split.
      + intros j Hjn. destruct (decide (j = n)) as [->|]; [done|]. apply Hj. lia.
      + replace (n + S used - 1)%nat with (S n + used - 1)%nat by lia.
        unfold run_outcome in Ho |- *. destruct (answer t (S n + used - 1)) as [s| |]; [|done|].
        * destruct Ho as [? Ho]. split; [done|]. destruct (res_ok s); [done|]. by destruct Ho as [? ->].
        * destruct Ho as (? & ? & ->). done. }
  destruct (answer t n) as [s| |] eqn:Ea.
  - destruct (res_ok s) eqn:Es.
    + destruct (finalize_row (d_id d) D_SUCCEEDED (count + 1) (Some s) (finalized_at t) h Hr)
        as (d' & E & E1 & E2 & E3 & E4).
      eexists _, d', 1%nat. split; [exact E|]. split; [lia|]. split; [lia|]. split; [done|].
      split; [intros; lia|]. replace (n + 1 - 1)%nat with n by lia. rewrite Ea. simpl.
      by rewrite Es, E1, E3.
    + apply Hnext; simpl; rewrite Es; done.
  - destruct (markDestinationBlocked_Ok e h He) as (h1 & E1 & Ed).
    pose proof (blocked_endpoint_closed e h) as Hc. rewrite E1 in Hc. simpl in Hc.
    unfold mbind, svc_bind. rewrite E1.
    assert (has_row (d_id d) h1) as Hr1 by (unfold has_row; by rewrite Ed).
    destruct (finalize_row (d_id d) D_FAILED (count + 1) None (finalized_at t) h1 Hr1)
      as (d' & E & F1 & F2 & F3 & F4).
    eexists _, d', 1%nat. split; [exact E|]. split; [lia|]. split; [lia|]. split; [done|].
    split; [intros; lia|]. replace (n + 1 - 1)%nat with n by lia. rewrite Ea. simpl.
    split; [done|]. split; [done|]. exact Hc.
  - by apply Hnext.
Qed.

(** ** Lemmas: sweeping *)

Lemma claimed_stranded cfg now h i :
  i ∈ snd (claimStranded cfg now h) ->
  exists d, d ∈ deliveries h /\ d_id d = i /\ stranded cfg now h d = true.
Proof.
  unfold claimStranded. cbn [snd]. rewrite list_elem_of_fmap. intros (d & -> & Hd).
  apply subseteq_take in Hd. rewrite (merge_sort_Permutation created_le) in Hd.
  apply list_elem_of_In, List.filter_In in Hd as [Hd Hs]. apply list_elem_of_In in Hd. by exists d.
Qed.

Lemma cooldowns cfg : 60000 <= strandedAfterMs cfg /\ 60000 <= retryCooldownMs cfg.
Proof. unfold strandedAfterMs, retryCooldownMs. lia. Qed.

Lemma stamped_not_stranded cfg now now' h d :
  now' <= now + 60000 -> stranded cfg now' h (stamp now d) = false.
Proof.
  intros Hn. pose proof (cooldowns cfg) as [H1 H2]. unfold stranded. cbn [stamp lastAttemptAt before].
  replace (now <? now' - strandedAfterMs cfg) with false by (symmetry; apply Z.ltb_ge; lia).
  replace (now <? now' - retryCooldownMs cfg) with false by (symmetry; apply Z.ltb_ge; lia).
  rewrite (bool_decide_false (Some now = None)) by done. simpl. by rewrite !andb_false_r.
Qed.

(** ** Properties *)

(** C33: a terminal event is notified at most once. Whatever sequence of
    emissions, listener runs, crashes, redeliveries, sweeps and endpoint edits
    happens, a dedup key is claimed at most once and at most one published event
    carries it; all delivery rows of one settlement belong to one event id, one
    per endpoint, and every one of them was authorised by the claim. *)
Theorem terminal_event_once (cfg : WebhookConfig) (eps : list WebhookEndpoint) (h : Hooks) :
  NoDup (ep_id <$> eps) ->
  star (hook_step cfg) (mkHooks eps [] [] []) h ->
  NoDup (emittedEvents h)
  /\ NoDup (omap payload_key (bus h))
  /\ (forall k, one_fan_out k (skel <$> deliveries h))
  /\ (forall d k, d ∈ deliveries h -> delivery_key d = Some k -> k ∈ emittedEvents h).
Proof.
  intros Hn Hs. assert (hooks_inv h) as [_ I2 I3 _ I5 _ I7].
  { eapply star_invariant; [apply hooks_inv_step | | exact Hs].
    split; cbn [endpoints deliveries emittedEvents bus]; try done; try apply NoDup_nil_2.
    - by intros p k ?%not_elem_of_nil.
    - by intros p k ?%not_elem_of_nil.
    - intros k. split; [apply NoDup_nil_2 | by intros s s' ?%not_elem_of_nil]. }
  repeat (split; [done|]). intros d k Hd Ek. apply I3. intros E.
  assert (skel d ∈ group k (skel <$> deliveries h)) as Hin.
  { unfold group. apply list_elem_of_In, List.filter_In. split.
    - apply list_elem_of_In, list_elem_of_fmap. by exists d.
    - by apply bool_decide_eq_true. }
  rewrite E in Hin. by apply not_elem_of_nil in Hin.
Qed.

Definition sample_endpoint : WebhookEndpoint := mkEndpoint "ep" "shop" "https://x" true false [].
Definition sample_data : json := JObject [("id", JString "pi_1")]%string.
Definition sample_draw : Draw := mkDraw "evt_1" (fun _ => "dl_1"%string) 0 "1970".
Definition sample_cfg : WebhookConfig := mkWebhookConfig 3 1000 5000 10000.
Definition sample_emitted : Hooks :=
  fst (emit "shop" PAYMENT_INTENT_SUCCEEDED sample_data sample_draw (mkHooks [sample_endpoint] [] [] [])).

Lemma terminal_event_once_witness :
  length (deliveries sample_emitted) = 1%nat /\ length (bus sample_emitted) = 1%nat
  /\ NoDup (emittedEvents sample_emitted).
Proof.
  split; [reflexivity|]. split; [reflexivity|].
  apply (terminal_event_once sample_cfg [sample_endpoint] sample_emitted).
  - apply NoDup_singleton.
  - apply star_one. apply step_emit.
Defined.

(** the claim and the work it authorises are one write. Emitting a terminal
    event whose key is new claims it, stores one PENDING delivery per subscribed,
    enabled, unblocked endpoint of its consumer, all under one event id, and
    publishes exactly those rows; emitting it again, from any path, changes
    nothing and answers [false]; data without an id is refused before any write;
    and two events have one key exactly when they are the same event of the same
    attempt of the same resource. *)
Theorem emit_claims_with_rows (u : string) (t t' : WebhookEventType) (j : json) (d : Draw)
    (r r' : string) (e e' : Z) (h : Hooks) :
  isTerminalWebhookEvent t = true ->
  (forall k, data_key t j = Some k ->
    let p := mkPayload u t j None in
    let rows := rows_for p d 0 (targets_of p h) in
    (k ∈ emittedEvents h -> emit u t j d h = (h, Ok false))
    /\ (k ∉ emittedEvents h -> exists h', emit u t j d h = (h', Ok true)
        /\ emittedEvents h' = k :: emittedEvents h /\ deliveries h' = deliveries h ++ rows
        /\ bus h' = bus h ++ [mkPayload u t j (Some (d_id <$> rows))]
        /\ emit u t j d h' = (h', Ok false)
        /\ (endpointId <$> rows) = (ep_id <$> List.filter (subscribed p) (endpoints h))
        /\ Forall (fun row => d_status row = D_PENDING /\ eventId row = draw_event d
                              /\ delivery_key row = Some k) rows))
  /\ (data_key t j = None -> emit u t j d h = (h, Throw JsError))
  /\ (terminalEventDedupKey t r e = terminalEventDedupKey t' r' e' <-> t = t' /\ r = r' /\ e = e').
Proof.
  intros Ht. split; [|split; [|split; [apply dedupKey_inj | by intros (-> & -> & ->)]]].
  2: { intros Ek. by rewrite emit_spec, Ht, Ek. }
  intros k Ek p rows. split.
  - intros Hin. by rewrite emit_spec, Ht, Ek, decide_True.
  - intros Hout. rewrite emit_spec, Ht, Ek, decide_False by done. fold p. fold rows.
    eexists. split; [done|]. cbn [emittedEvents deliveries bus]. do 3 (split; [done|]). split.
    + rewrite emit_spec, Ht, Ek, decide_True; [done|]. by left.
    + subst rows. unfold targets_of. generalize 0%nat.
      induction (List.filter (subscribed p) (endpoints h)) as [|x l IH]; intros n;
        [split; [done | constructor]|].
      cbn [rows_for]. rewrite !fmap_cons. destruct (IH (S n)) as [IH1 IH2]. split; [by rewrite IH1|].
      constructor; [|done]. done.
Qed.

Lemma emit_claims_with_rows_witness :
  isTerminalWebhookEvent PAYMENT_INTENT_SUCCEEDED = true
  /\ emit "shop" PAYMENT_INTENT_SUCCEEDED sample_data sample_draw sample_emitted = (sample_emitted, Ok false).
Proof.
  split; [reflexivity|].
  refine (proj1 (proj1 (emit_claims_with_rows "shop" PAYMENT_INTENT_SUCCEEDED PAYMENT_INTENT_SUCCEEDED
    sample_data sample_draw "" "" 0 0 sample_emitted eq_refl) "PAYMENT_INTENT_SUCCEEDED:pi_1:0"%string eq_refl) _).
  vm_compute. by left.
Defined.

(** C34: a delivery run ends, and stops when it should. For a stored row and
    endpoint, the retry loop makes at least one POST and at most [maxAttempts];
    it counts every one of them; every POST but the last was a retryable failure;
    it ends SUCCEEDED exactly on a 2xx answer, FAILED with the budget spent
    otherwise, except that a destination refused before a socket opens ends it at
    once with the endpoint disabled. *)
Theorem delivery_run_outcome (cfg : WebhookConfig) (t : Transport) (e : string)
    (d : WebhookDelivery) (h : Hooks) :
  has_row (d_id d) h -> has_endpoint e h -> 0 < maxAttempts cfg ->
  exists h' d' used, attempt cfg t e d h = (h', Ok d')
  /\ 1 <= Z.of_nat used <= maxAttempts cfg
  /\ attempts d' = attempts d + Z.of_nat used /\ d_id d' = d_id d
  /\ (forall j, (j < used - 1)%nat -> retryable (answer t j) = true)
  /\ run_outcome used (Z.to_nat (maxAttempts cfg)) (answer t (used - 1)) e h' d'
  /\ (d_status d' = D_SUCCEEDED <-> exists s, answer t (used - 1) = Response s /\ res_ok s = true).
Proof.
  intros Hr He Hm. unfold attempt.
  destruct (attempt_loop_spec t e d (Z.to_nat (maxAttempts cfg)) 0 (attempts d) None h Hr He ltac:(lia))
    as (h' & d' & used & E & Hu & Ha & Hi & Hj & Ho).
  exists h', d', used. rewrite Nat.add_0_l in Ho. split; [exact E|]. split; [lia|]. split; [done|].
  split; [done|]. split; [intros; apply Hj; lia|]. split; [done|].
  unfold run_outcome in Ho. destruct (answer t (used - 1)) as [s| |].
  - destruct Ho as [_ Ho]. destruct (res_ok s) eqn:Es.
    + split; [by exists s | done].
    + destruct Ho as [-> _]. split; [done|]. intros (? & [= <-] & ?). congruence.
  - destruct Ho as (_ & -> & _). split; [done|]. by intros (? & ? & _).
  - destruct Ho as (_ & -> & _). split; [done|]. by intros (? & ? & _).
Qed.

Definition sample_row : WebhookDelivery :=
  mkDelivery "dl_1" "ep" PAYMENT_INTENT_SUCCEEDED "evt_1" JNull D_PENDING 0 None None 0.
Lemma delivery_run_outcome_witness :
  exists h' d' used,
    attempt sample_cfg (mkTransport (fun n => match n with 1%nat => Response 200 | _ => Response 500 end) 9)
      "ep" sample_row (mkHooks [sample_endpoint] [sample_row] [] []) = (h', Ok d')
    /\ 1 <= Z.of_nat used <= 3 /\ attempts d' = 0 + Z.of_nat used.
Proof.
  destruct (delivery_run_outcome sample_cfg
    (mkTransport (fun n => match n with 1%nat => Response 200 | _ => Response 500 end) 9)
    "ep" sample_row (mkHooks [sample_endpoint] [sample_row] [] []))
    as (h' & d' & used & E & H1 & H2 & _).
  - exists sample_row. split; [by left | reflexivity].
  - exists sample_endpoint. split; [by left | reflexivity].
  - simpl. lia.
  - exists h', d', used. split; [exact E|]. split; [exact H1 | exact H2].
Defined.

(** the sweeper never races a send in flight, never undoes a block, and
    keeps to its budget. A claim takes at most twenty-five rows, each of an open
    endpoint, with its body intact, and either abandoned in PENDING or FAILED with
    fewer than three cycles of attempts; once claimed, no sweep at any instant of
    the next minute, on any replica, finds the row again; and a claimed FAILED
    row sent once more stays below four cycles of attempts. *)
Theorem sweep_claim_exclusive (cfg : WebhookConfig) (now : Z) (h : Hooks) (i : string) :
  i ∈ snd (claimStranded cfg now h) ->
  (length (snd (claimStranded cfg now h)) <= SWEEP_BATCH_SIZE)%nat
  /\ (exists d, d ∈ deliveries h /\ d_id d = i /\ endpoint_open h (endpointId d) = true
      /\ isRedactedPayload (d_payload d) = false
      /\ (d_status d = D_PENDING
          \/ d_status d = D_FAILED /\ attempts d < maxAttempts cfg * RETRY_BUDGET_CYCLES
             /\ forall used, used <= maxAttempts cfg ->
                  attempts d + used < maxAttempts cfg * (RETRY_BUDGET_CYCLES + 1)))
  /\ (forall now', now' <= now + 60000 ->
        let h' := fst (claimStranded cfg now h) in
        forall d, d ∈ deliveries h' -> d_id d = i -> stranded cfg now' h' d = false).
Proof.
  intros Hi. split.
  { unfold claimStranded. cbn [snd]. rewrite length_fmap, length_take. lia. }
  split.
  - destruct (claimed_stranded _ _ _ _ Hi) as (d & Hd & Ei & Hs). exists d.
    unfold stranded in Hs. bool_facts. repeat (split; [done|]).
    match goal with E : _ || _ = true |- _ => apply orb_true_iff in E as [E|E] end; bool_facts; [by left|].
    right. unfold RETRY_BUDGET_CYCLES in *. repeat (split; [done|]). intros. lia.
  - intros now' Hn h' d Hd Ei. subst h'. unfold claimStranded in Hd. cbn [fst set_deliveries deliveries] in Hd.
    apply list_elem_of_fmap in Hd as (x & -> & _).
    change (d_id <$> take SWEEP_BATCH_SIZE
      (merge_sort created_le (List.filter (stranded cfg now h) (deliveries h))))
      with (snd (claimStranded cfg now h)) in *.
    destruct (bool_decide_reflect (d_id x ∈ snd (claimStranded cfg now h))) as [Hx|Hx].
    + by apply stamped_not_stranded.
    + by rewrite Ei in Hx.
Qed.

(** A row whose first run was cut short by a refused destination; the budget of
    three cycles of three still grants it a fourth run, ten attempts in all. *)
Definition sample_failed : WebhookDelivery :=
  mkDelivery "dl_1" "ep" PAYMENT_INTENT_SUCCEEDED "evt_1" JNull D_FAILED 7 None (Some 0) 0.
Lemma sweep_claim_exclusive_witness :
  let h := mkHooks [sample_endpoint] [sample_failed] [] [] in
  "dl_1"%string ∈ snd (claimStranded sample_cfg 100000 h)
  /\ (length (snd (claimStranded sample_cfg 100000 h)) <= SWEEP_BATCH_SIZE)%nat
  /\ attempts (default sample_row (head (deliveries
       (cycle sample_cfg 100000 (fun _ => mkTransport (fun _ => Response 500) 100001) h)))) = 10.
Proof.
  cbv zeta.
  assert ("dl_1"%string ∈ snd (claimStranded sample_cfg 100000 (mkHooks [sample_endpoint] [sample_failed] [] [])))
    as H by (vm_compute; by left).
  split; [exact H|]. split; [|vm_compute; reflexivity].
  exact (proj1 (sweep_claim_exclusive _ _ _ _ H)).
Defined.
