(* ===== verification/Links.v ===== *)
(** The links a payer opens: query strings as [URLSearchParams] writes them, the
    SEP-7 URIs of src/src/stellar/sep7.ts, the Solana Pay URI of
    src/src/solana/solana-pay.ts and the EIP-681 URI of src/src/evm/eip681.ts. A
    text is its UTF-8 bytes. *)

From S2P Require Import Prelude Text Units MerchantFee Intents.
From stdpp Require Import base tactics list option strings.
From Stdlib Require Import ZArith Lia Ascii.

Open Scope Z_scope.

(** ** application/x-www-form-urlencoded (WHATWG URL, used by [URLSearchParams]) *)

Definition hex_digit (n : Z) : ascii :=
  if n <? 10 then ascii_of_nat (Z.to_nat (48 + n)) else ascii_of_nat (Z.to_nat (55 + n)).

(** The bytes written as themselves. *)
Definition form_plain (a : ascii) : bool :=
  is_digit a || ((65 <=? code a) && (code a <=? 90)) || ((97 <=? code a) && (code a <=? 122))
  || Ascii.eqb a "*" || Ascii.eqb a "-" || Ascii.eqb a "." || Ascii.eqb a "_".

Definition form_encode_char (a : ascii) : string :=
  if form_plain a then String a ""
  else if Ascii.eqb a " " then "+"%string
  else String "%" (String (hex_digit (code a / 16)) (String (hex_digit (code a mod 16)) "")).

Fixpoint form_encode (s : string) : string :=
  match s with
  | "" => ""
  | String a s => (form_encode_char a +:+ form_encode s)%string
  end%string.

(** A list of names and values, in order; [set] on a name not yet present
    appends. *)
Definition URLSearchParams := list (string * string).

Fixpoint params_set (k v : string) (p : URLSearchParams) : URLSearchParams :=
  match p with
  | [] => [(k, v)]
  | (k', v') :: p => if String.eqb k' k then (k, v) :: p else (k', v') :: params_set k v p
  end.

Definition set_if (cond : bool) (k v : string) (p : URLSearchParams) : URLSearchParams :=
  if cond then params_set k v p else p.
Definition set_defined (k : string) (v : option string) (p : URLSearchParams) : URLSearchParams :=
  match v with Some v => params_set k v p | None => p end.

Fixpoint params_toString (p : URLSearchParams) : string :=
  match p with
  | [] => ""
  | [(k, v)] => form_encode k +:+ "=" +:+ form_encode v
  | (k, v) :: p => form_encode k +:+ "=" +:+ form_encode v +:+ "&" +:+ params_toString p
  end%string.

(** ** SEP-7 *)

Inductive MemoType := MEMO_ID | MEMO_TEXT.
Definition memo_type_text (t : MemoType) : string :=
  match t with MEMO_ID => "MEMO_ID" | MEMO_TEXT => "MEMO_TEXT" end.

Record Sep7PayTerms := mkSep7PayTerms {
  s7_destination : string;
  s7_amount : option string;
  s7_asset : ResolvedAsset;
  s7_memo : string;
  s7_memoType : option MemoType;
  s7_msg : option string;
  s7_callback : option string
}.

Definition appendExtras (msg callback : option string) (p : URLSearchParams) : URLSearchParams :=
  set_if (truthy msg) "msg" (default "" msg)
    (set_if (truthy callback) "callback" (default "" callback) p)%string.

Definition sep7TxUri (xdr : string) (msg callback : option string) : string :=
  ("web+stellar:tx?" +:+ params_toString (appendExtras msg callback [("xdr", xdr)]))%string.

Definition sep7PayParams (t : Sep7PayTerms) : URLSearchParams :=
  let p := [("destination", s7_destination t)]%string in
  let p := set_if (truthy (s7_amount t)) "amount" (default ""%string (s7_amount t)) p in
  let p :=
    if bool_decide (asset_code (s7_asset t) = "native"%string) then p
    else set_if (truthy (asset_issuer (s7_asset t))) "asset_issuer"
           (default ""%string (asset_issuer (s7_asset t)))
           (params_set "asset_code" (asset_code (s7_asset t)) p) in
  let p := params_set "memo" (s7_memo t) p in
  let p := params_set "memo_type" (memo_type_text (default MEMO_ID (s7_memoType t))) p in
  appendExtras (s7_msg t) (s7_callback t) p.

Definition sep7PayUri (t : Sep7PayTerms) : string :=
  ("web+stellar:pay?" +:+ params_toString (sep7PayParams t))%string.

(** ** Solana Pay *)

Definition SOLANA_PAY_SCHEME : string := "solana:".

Record SolanaPayRequest := mkSolanaPay {
  sp_recipient : string;
  sp_amount : option string;
  sp_splToken : option string;
  sp_reference : option string;
  sp_message : option string;
  sp_memo : option string
}.

Definition solanaPayParams (r : SolanaPayRequest) : URLSearchParams :=
  set_defined "memo" (sp_memo r)
    (set_defined "message" (sp_message r)
      (set_defined "reference" (sp_reference r)
        (set_defined "spl-token" (sp_splToken r)
          (set_defined "amount" (sp_amount r) [])))).

Definition solanaPayUri (r : SolanaPayRequest) : string :=
  (SOLANA_PAY_SCHEME +:+ sp_recipient r +:+ "?" +:+ params_toString (solanaPayParams r))%string.

(** ** EIP-681 *)

Definition EIP681_SCHEME : string := "ethereum:".

Record Eip681Request := mkEip681 {
  chainId : Z;
  eip_recipient : string;
  eip_value : option Z;
  eip_token : option string
}.

Definition eip681Uri (r : Eip681Request) : string :=
  match eip_token r with
  | Some (String _ _ as token) =>
      let amount := match eip_value r with
                    | None => "" | Some v => "&uint256=" +:+ toString v end in
      EIP681_SCHEME +:+ token +:+ "@" +:+ toString (chainId r) +:+ "/transfer"
        +:+ "?address=" +:+ eip_recipient r +:+ amount
  | _ =>
      let value := match eip_value r with
                   | None => "" | Some v => "?value=" +:+ toString v end in
      EIP681_SCHEME +:+ eip_recipient r +:+ "@" +:+ toString (chainId r) +:+ value
  end%string.

(** ** A reader of query strings

    How a wallet reads one back: split at [&], then at the first [=], [+] and
    percent escapes decoded. *)

Definition unhex (a : ascii) : Z := hex_val a.

Fixpoint form_decode (s : string) : string :=
  match s with
  | "" => ""
  | String "+" s => String " " (form_decode s)
  | String "%" (String h (String l s)) =>
      String (ascii_of_nat (Z.to_nat (unhex h * 16 + unhex l))) (form_decode s)
  | String a s => String a (form_decode s)
  end%string.

(** The text before the first [c], and after it. *)
Fixpoint cut (c : ascii) (s : string) : string * option string :=
  match s with
  | "" => ("", None)
  | String a s =>
      if Ascii.eqb a c then ("", Some s)
      else let '(l, r) := cut c s in (String a l, r)
  end%string.

Fixpoint parse_params (fuel : nat) (s : string) : URLSearchParams :=
  match fuel, s with
  | O, _ | _, "" => []
  | S fuel, _ =>
      let '(entry, rest) := cut "&" s in
      let '(k, v) := cut "=" entry in
      (form_decode k, form_decode (default "" v)) ::
      match rest with Some rest => parse_params fuel rest | None => [] end
  end%string.

(** Every pair takes at least two characters. *)
Definition parse_query (s : string) : URLSearchParams := parse_params (String.length s) s.

(** The value of a name. *)
Fixpoint params_get (k : string) (p : URLSearchParams) : option string :=
  match p with
  | [] => None
  | (k', v) :: p => if String.eqb k' k then Some v else params_get k p
  end.

(** ** Lemmas *)

Lemma form_decode_char a s : form_decode (form_encode_char a +:+ s) = String a (form_decode s).
Proof. destruct a as [[] [] [] [] [] [] [] []]; reflexivity. Qed.

Lemma form_decode_encode s : form_decode (form_encode s) = s.
Proof.
  induction s as [|a s IH]; [done|]. cbn [form_encode]. by rewrite form_decode_char, IH.
Qed.

(** Encoded text holds no separator. *)
Definition separator_free (s : string) : bool :=
  all_chars (fun a => negb (Ascii.eqb a "&") && negb (Ascii.eqb a "=")) s.

Lemma form_encode_char_free a : separator_free (form_encode_char a) = true.
Proof. destruct a as [[] [] [] [] [] [] [] []]; reflexivity. Qed.

Lemma form_encode_free s : separator_free (form_encode s) = true.
Proof.
  induction s as [|a s IH]; [done|]. cbn [form_encode]. unfold separator_free in *.
  rewrite all_chars_app, IH. fold (separator_free (form_encode_char a)).
  by rewrite form_encode_char_free.
Qed.

Lemma cut_free c a s :
  all_chars (fun x => negb (Ascii.eqb x c)) a = true -> cut c (a +:+ String c s) = (a, Some s).
Proof.
  induction a as [|x a IH]; simpl; [by rewrite Ascii.eqb_refl|]. intros. bool_facts.
  match goal with E : Ascii.eqb x c = false |- _ => rewrite E end. by rewrite IH.
Qed.

Lemma cut_none c a :
  all_chars (fun x => negb (Ascii.eqb x c)) a = true -> cut c a = (a, None).
Proof.
  induction a as [|x a IH]; simpl; [done|]. intros. bool_facts.
  match goal with E : Ascii.eqb x c = false |- _ => rewrite E end. by rewrite IH.
Qed.

Lemma free_amp s : separator_free s = true -> all_chars (fun x => negb (Ascii.eqb x "&")) s = true.
Proof. apply all_chars_impl. intros a. by intros [? _]%andb_true_iff. Qed.
Lemma free_eq s : separator_free s = true -> all_chars (fun x => negb (Ascii.eqb x "=")) s = true.
Proof. apply all_chars_impl. intros a. by intros [_ ?]%andb_true_iff. Qed.

Lemma pair_free_amp k v :
  all_chars (fun x => negb (Ascii.eqb x "&")) (form_encode k +:+ String "=" (form_encode v)) = true.
Proof.
  rewrite all_chars_app, free_amp by apply form_encode_free. simpl.
  apply free_amp, form_encode_free.
Qed.

Lemma params_toString_cons k v q p :
  params_toString ((k, v) :: q :: p) =
  ((form_encode k +:+ String "=" (form_encode v)) +:+ String "&" (params_toString (q :: p)))%string.
Proof.
  change (params_toString ((k, v) :: q :: p)) with
    (form_encode k +:+ String "=" (form_encode v +:+ String "&" (params_toString (q :: p))))%string.
  by rewrite <- str_app_assoc.
Qed.

Lemma pair_nonempty k v : exists a s, (form_encode k +:+ String "=" (form_encode v))%string = String a s.
Proof. destruct (form_encode k) as [|a s]; simpl; eauto. Qed.

Lemma parse_pair k v :
  cut "=" (form_encode k +:+ String "=" (form_encode v)) = (form_encode k, Some (form_encode v)).
Proof. apply cut_free, free_eq, form_encode_free. Qed.

Lemma parse_params_step fuel s :
  s <> ""%string ->
  parse_params (S fuel) s =
  let '(entry, rest) := cut "&" s in
  let '(k, v) := cut "=" entry in
  (form_decode k, form_decode (default ""%string v)) ::
  match rest with Some rest => parse_params fuel rest | None => [] end.
Proof. by destruct s. Qed.

Lemma pair_length k v :
  (1 <= String.length (form_encode k +:+ String "=" (form_encode v)))%nat.
Proof. destruct (pair_nonempty k v) as (a & s & ->). simpl. lia. Qed.

Lemma nonempty_length s : (1 <= String.length s)%nat -> s <> ""%string.
Proof. intros H ->. simpl in H. lia. Qed.

Lemma parse_params_toString p fuel :
  (String.length (params_toString p) <= fuel)%nat -> parse_params fuel (params_toString p) = p.
Proof.
  revert fuel. induction p as [|[k v] p IH]; intros fuel Hf; [by destruct fuel|].
  pose proof (pair_length k v) as Hl. destruct p as [|q p].
  - change (params_toString [(k, v)]) with (form_encode k +:+ String "=" (form_encode v))%string in *.
    destruct fuel as [|fuel]; [lia|]. rewrite parse_params_step by by apply nonempty_length.
    rewrite cut_none by apply pair_free_amp. rewrite parse_pair.
    change (default ""%string (Some (form_encode v))) with (form_encode v).
    by rewrite !form_decode_encode.
  - rewrite params_toString_cons in *. rewrite str_app_length in Hf. cbn [String.length] in Hf.
    destruct fuel as [|fuel]; [lia|].
    rewrite parse_params_step by (apply nonempty_length; rewrite str_app_length; lia).
    rewrite cut_free by apply pair_free_amp. rewrite parse_pair.
    change (default ""%string (Some (form_encode v))) with (form_encode v).
    rewrite !form_decode_encode, IH; [done|]. lia.
Qed.

Lemma parse_query_toString p : parse_query (params_toString p) = p.
Proof. by apply parse_params_toString. Qed.

(** Names set once are read back. *)
Lemma params_get_set k k' v p :
  params_get k (params_set k' v p) = if String.eqb k' k then Some v else params_get k p.
Proof.
  induction p as [|[k1 v1] p IH]; simpl; [done|].
  destruct (String.eqb_spec k1 k') as [->|N1]; simpl.
  - by destruct (String.eqb_spec k' k).
  - destruct (String.eqb_spec k1 k) as [->|N2]; [|done].
    by destruct (String.eqb_spec k' k) as [->|].
Qed.

Lemma params_get_set_if c k k' v p :
  params_get k (set_if c k' v p) = if c && String.eqb k' k then Some v else params_get k p.
Proof. destruct c; [apply params_get_set | done]. Qed.

Lemma params_get_set_defined k k' v p :
  params_get k (set_defined k' v p) =
  match v with Some v => if String.eqb k' k then Some v else params_get k p | None => params_get k p end.
Proof. destruct v; [apply params_get_set | done]. Qed.

Definition sep7_query (uri : string) : string := slice_from 16 uri.

(** A falsy text, read as absent. *)
Definition present (o : option string) : option string := if truthy o then o else None.

Lemma truthy_default o : (if truthy o then Some (default ""%string o) else None) = present o.
Proof. unfold present. by destruct o as [[]|]. Qed.

(** ** Properties *)

(** a payment link carries exactly the terms of its intent. Reading a SEP-7
    [pay] link, or a Solana Pay link, back as a wallet does gives every term as it
    was stored, whatever characters it holds: the destination, the amount when
    there is one, the asset and issuer unless it is the native coin, the memo and
    always its type, the message and the callback; on Solana the reference key,
    the mint, the message and the memo. *)
Theorem links_carry_terms (t : Sep7PayTerms) (r : SolanaPayRequest) :
  (let q := parse_query (sep7_query (sep7PayUri t)) in
   params_get "destination" q = Some (s7_destination t)
   /\ params_get "amount" q = present (s7_amount t)
   /\ params_get "asset_code" q =
        (if bool_decide (asset_code (s7_asset t) = "native"%string) then None
         else Some (asset_code (s7_asset t)))
   /\ params_get "asset_issuer" q =
        (if bool_decide (asset_code (s7_asset t) = "native"%string) then None
         else present (asset_issuer (s7_asset t)))
   /\ params_get "memo" q = Some (s7_memo t)
   /\ params_get "memo_type" q = Some (memo_type_text (default MEMO_ID (s7_memoType t)))
   /\ params_get "msg" q = present (s7_msg t)
   /\ params_get "callback" q = present (s7_callback t))
  /\ (exists query, solanaPayUri r = (SOLANA_PAY_SCHEME +:+ sp_recipient r +:+ "?" +:+ query)%string
   /\ let q := parse_query query in
      params_get "amount" q = sp_amount r /\ params_get "spl-token" q = sp_splToken r
      /\ params_get "reference" q = sp_reference r /\ params_get "message" q = sp_message r
      /\ params_get "memo" q = sp_memo r).
Proof.
  split.
  - change (sep7_query (sep7PayUri t)) with (params_toString (sep7PayParams t)).
    cbv zeta. rewrite parse_query_toString. unfold sep7PayParams, appendExtras. cbv zeta.
    repeat split;
      repeat (rewrite ?params_get_set_if, ?params_get_set; cbn [String.eqb Ascii.eqb Bool.eqb];
              rewrite ?andb_false_r, ?andb_true_r);
      rewrite <- ?truthy_default;
      try (destruct (bool_decide (asset_code (s7_asset t) = "native"%string)));
      repeat (rewrite ?params_get_set_if, ?params_get_set; cbn [String.eqb Ascii.eqb Bool.eqb];
              rewrite ?andb_false_r, ?andb_true_r); try done.
  - exists (params_toString (solanaPayParams r)). split; [done|].
    cbv zeta. rewrite parse_query_toString. unfold solanaPayParams.
    rewrite !params_get_set_defined. cbn.
    destruct r as [? [] [] [] [] []]; done.
Qed.
