(* ===== verification/Tokens.v ===== *)
(** What the wallet sign-in keeps sealed: src/src/common/sealed-box.ts (tokens a
    caller holds) and src/src/wallet-auth/backup-cipher.ts (backups at rest), over
    the class [Node] of what the runtime does: hashes, AES-GCM, base64url, JSON and
    URL parsing. *)

From S2P Require Import Prelude Text MerchantFee.
From stdpp Require Import base tactics list option strings.
From Stdlib Require Import ZArith Lia Ascii.

Open Scope Z_scope.

(** ** The runtime

    Buffers and texts are their bytes. [aes_gcm key iv aad plain] is the
    ciphertext and its tag; [fraction_le text name n] compares the number under
    [name] in the JSON [text], where it is not an integer, with [n]. *)
Record Url := mkUrl {
  protocol : string;
  username : string;
  password : string;
  hostname : string;
  port : string;
  pathname : string;
  search : string;
  hash : string;
  origin : string
}.

Class Node := mkNode {
  sha256Hex : string -> string;
  sha256_base64url : string -> string;
  hkdf : string -> string -> string -> string;
  aes_gcm : string -> string -> string -> string -> string * string;
  aes_gcm_open : string -> string -> string -> string -> string -> option string;
  base64url : string -> string;
  from_base64url : string -> string;
  JSON_parse : string -> option json;
  JSON_stringify : json -> string;
  fraction_le : string -> string -> Z -> bool;
  fraction_text : string -> string -> string;
  new_URL : string -> option Url;
  Date_parse : string -> option Z
}.

Definition is_b64url (a : ascii) : bool :=
  is_digit a || ((65 <=? code a) && (code a <=? 90)) || ((97 <=? code a) && (code a <=? 122))
  || Ascii.eqb a "-" || Ascii.eqb a "_".

(** The values a payload is made of; those JSON writes and reads back exactly. *)
Definition flat (v : json) : bool :=
  match v with
  | JNull | JBool _ | JString _ => true
  | JNumber (NumInt z) => (-9007199254740991 <=? z) && (z <=? 9007199254740991)
  | _ => false
  end.

Record payload (fields : list (string * json)) : Prop := {
  payload_keys : NoDup fields.*1;
  payload_names : Forall (fun k => is_digits k = false) fields.*1;
  payload_flat : Forall (fun kv => flat (snd kv) = true) fields
}.

(** What the sealing relies on. A ciphertext opens under its own key and
    associated data only, a derived key belongs to one secret and purpose, and
    base64url and JSON can be read back. *)
Class NodeLaws `{Node} : Prop := mkNodeLaws {
  gcm_opens k iv aad p :
    aes_gcm_open k iv aad (fst (aes_gcm k iv aad p)) (snd (aes_gcm k iv aad p)) = Some p;
  gcm_binds k iv aad p k' iv' aad' p' :
    aes_gcm_open k' iv' aad' (fst (aes_gcm k iv aad p)) (snd (aes_gcm k iv aad p)) = Some p' ->
    k' = k /\ aad' = aad /\ p' = p;
  gcm_tag k iv aad p : String.length (snd (aes_gcm k iv aad p)) = 16%nat;
  gcm_body k iv aad p : p <> ""%string -> fst (aes_gcm k iv aad p) <> ""%string;
  hkdf_binds secret purpose secret' purpose' salt :
    hkdf secret salt purpose = hkdf secret' salt purpose' -> secret' = secret /\ purpose' = purpose;
  base64url_back s : from_base64url (base64url s) = s;
  base64url_chars s : all_chars is_b64url (base64url s) = true;
  base64url_empty s : base64url s = ""%string -> s = ""%string;
  JSON_back fields : payload fields -> JSON_parse (JSON_stringify (JObject fields)) = Some (JObject fields);
  JSON_text fields : JSON_stringify (JObject fields) <> ""%string;
  sha256Hex_chars s : all_chars is_hex (sha256Hex s) = true;
  sha256Hex_text s : sha256Hex s <> ""%string
}.

(** ** Values read from outside *)

(** [v.key], for a value of unknown shape that is not null. *)
Definition fields_of (v : json) : list (string * json) :=
  match v with JObject fields => fields | _ => [] end.

(** [typeof v === 'string' && v.trim() ? v.trim() : null] *)
Definition str (v : option json) : option string :=
  match v with
  | Some (JString s) => if bool_decide (trim s = ""%string) then None else Some (trim s)
  | _ => None
  end.

Definition is_true (v : option json) : bool :=
  match v with Some (JBool true) => true | _ => false end.

(** [v === s] for a string [s]. *)
Definition is_text (s : string) (v : option json) : bool :=
  match v with Some (JString x) => bool_decide (x = s) | _ => false end.

(** [v <= n] and [v < n], for the number [v] under [name] in [text]. *)
Definition num_le `{Node} (text name : string) (v : jsnum) (n : Z) : bool :=
  match v with NumInt z => z <=? n | NumOther => fraction_le text name n end.
Definition num_lt `{Node} (text name : string) (v : jsnum) (n : Z) : bool :=
  match v with NumInt z => z <? n | NumOther => fraction_le text name n end.

Definition httpsUrl `{Node} (v : option json) : option string :=
  s ← str v;
  u ← new_URL s;
  if bool_decide (protocol u = "https:"%string) then Some s else None.

(** ** Sealed boxes (sealed-box.ts) *)

Section seal.
Context `{NODE : Node}.

Definition VERSION : string := "v1".
Definition TAG_BYTES : nat := 16.
Definition HKDF_SALT : string := "cosmos-sealed-box".

Definition keyFor (secret purpose : string) : res string :=
  if bool_decide (secret = ""%string) then Throw JsError else Ok (hkdf secret HKDF_SALT purpose).

(** [iv] is what [randomBytes(12)] drew. *)
Definition sealJson (iv : string) (value : json) (secret purpose : string) : res string :=
  key ← keyFor secret purpose;
  let sealed := aes_gcm key iv "" (JSON_stringify value) in
  Ok (VERSION +:+ "." +:+ base64url iv +:+ "." +:+ base64url (snd sealed) +:+ "." +:+ base64url (fst sealed))%string.

Definition openJson (sealed secret purpose : string) : option json :=
  match split_on "." sealed with
  | [version; iv; tag; body] =>
      if negb (bool_decide (version = VERSION)) || bool_decide (iv = "") || bool_decide (tag = "")
         || bool_decide (body = "")
      then None
      else
        let tagBytes := from_base64url tag in
        if negb (String.length tagBytes =? TAG_BYTES)%nat then None
        else match keyFor secret purpose with
             | Ok key => plain ← aes_gcm_open key (from_base64url iv) "" (from_base64url body) tagBytes; JSON_parse plain
             | Throw _ => None
             end
  | _ => None
  end%string.

(** ** Backups at rest (backup-cipher.ts) *)

Definition BACKUP_AT_REST_PREFIX : string := "enc1".
Definition BACKUP_AT_REST_KEY_BYTES : nat := 32.

Record AtRestKey := mkAtRestKey { key_id : string; key_bytes : string }.
Record BackupKeyring := mkKeyring { ring_current : option AtRestKey; ring_previous : list AtRestKey }.

(** [Buffer.from(hex, 'hex')] of an even number of digits. *)
Fixpoint from_hex (s : string) : string :=
  match s with
  | String a (String b r) => String (ascii_of_nat (Z.to_nat (hex_val a * 16 + hex_val b))) (from_hex r)
  | _ => ""
  end%string.

Definition is_b64 (a : ascii) : bool :=
  is_digit a || ((65 <=? code a) && (code a <=? 90)) || ((97 <=? code a) && (code a <=? 122))
  || Ascii.eqb a "+" || Ascii.eqb a "/".

(** [value.replace(/-/g, '+').replace(/_/g, '/')] undone: node reads both alphabets
    alike, so the decoding of the one is that of the other. *)
Definition to_b64url (a : ascii) : ascii :=
  if Ascii.eqb a "+" then "-"%char else if Ascii.eqb a "/" then "_"%char else a.

Definition drop_pad (s : string) : string :=
  if (String.length s =? 44)%nat && bool_decide (slice_from 43 s = "="%string) then slice_to 43 s else s.

Definition parseAtRestKey (raw : string) : option string :=
  let value := trim raw in
  if (String.length value =? 64)%nat && all_chars is_hex value then Some (from_hex value)
  else
    let body := drop_pad value in
    if (String.length body =? 43)%nat && all_chars (fun a => is_b64 a || is_b64url a) body then
      let bytes := from_base64url (map_chars to_b64url body) in
      if (String.length bytes =? BACKUP_AT_REST_KEY_BYTES)%nat then Some bytes else None
    else None.

Definition atRestKeyId (key : string) : string := slice_to 8 (sha256Hex key).

Definition toKey (raw : string) : res AtRestKey :=
  key ← res_of_option JsError (parseAtRestKey raw);
  Ok (mkAtRestKey (atRestKeyId key) key).

Fixpoint toKeys (raws : list string) : res (list AtRestKey) :=
  match raws with
  | [] => Ok []
  | raw :: raws => k ← toKey raw; ks ← toKeys raws; Ok (k :: ks)
  end.

Definition keyringFrom (current previous : string) : res BackupKeyring :=
  c ← (if bool_decide (trim current = ""%string) then Ok None else k ← toKey current; Ok (Some k));
  ks ← toKeys (List.filter (fun s => negb (bool_decide (s = ""%string))) (List.map trim (split_on "," previous)));
  Ok (mkKeyring c ks).

Definition isSealedAtRest (stored : string) : bool :=
  String.prefix (BACKUP_AT_REST_PREFIX +:+ ":") stored.

Definition aadOf (chain address : string) : string := chain +:+ ":" +:+ address.

Definition sealAtRest (iv box chain address : string) (key : AtRestKey) : string :=
  let sealed := aes_gcm (key_bytes key) iv (aadOf chain address) box in
  BACKUP_AT_REST_PREFIX +:+ ":" +:+ key_id key +:+ ":" +:+ base64url iv +:+ ":"
    +:+ base64url (fst sealed +:+ snd sealed).

(** Where [body.length - 16] falls as a bound of [subarray]: from the end, when it
    is negative. *)
Definition tag_at (body : string) : nat :=
  let n := String.length body in
  if (n <? 16)%nat then (2 * n - 16)%nat else (n - 16)%nat.

Definition nth_text (n : nat) (l : list string) : string := nth n l "".

Definition openAtRest (stored chain address : string) (keyring : BackupKeyring) : res string :=
  if negb (isSealedAtRest stored) then Ok stored
  else
    let parts := split_on ":" stored in
    match List.find (fun k => bool_decide (key_id k = nth_text 1 parts))
            (option_list (ring_current keyring) ++ ring_previous keyring) with
    | None => Throw JsError
    | Some key =>
        let body := from_base64url (nth_text 3 parts) in
        res_of_option JsError
          (aes_gcm_open (key_bytes key) (from_base64url (nth_text 2 parts)) (aadOf chain address)
             (slice_to (tag_at body) body) (slice_from (tag_at body) body))
    end.

Definition cipher_seal (keyring : BackupKeyring) (iv box chain address : string) : res string :=
  key ← res_of_option JsError (ring_current keyring);
  Ok (sealAtRest iv box chain address key).

Definition cipher_open (keyring : BackupKeyring) (stored chain address : string) : option string :=
  match openAtRest stored chain address keyring with Ok box => Some box | Throw _ => None end.
End seal.

(** ** Lemmas on separated texts *)

Definition free_of (c : ascii) (s : string) : bool := all_chars (fun a => negb (Ascii.eqb a c)) s.

Lemma split_on_free c s : free_of c s = true -> split_on c s = [s].
Proof.
  induction s as [|a s IH]; [done|]. simpl. intros [Ha Hs]%andb_true_iff.
  apply negb_true_iff in Ha. by rewrite Ha, IH.
Qed.

Lemma split_on_cons c s r : free_of c s = true -> split_on c (s +:+ String c r) = s :: split_on c r.
Proof.
  induction s as [|a s IH]; simpl.
  - intros _. by rewrite Ascii.eqb_refl.
  - intros [Ha Hs]%andb_true_iff. apply negb_true_iff in Ha. by rewrite Ha, IH.
Qed.

Lemma all_chars_weaken (p q : ascii -> bool) s :
  (forall a, p a = true -> q a = true) -> all_chars p s = true -> all_chars q s = true.
Proof.
  intros Hpq. induction s as [|a s IH]; [done|]. simpl.
  intros [Ha Hs]%andb_true_iff. by rewrite Hpq, IH.
Qed.

(** A class of characters without [c]. *)
Lemma free_of_class c (p : ascii -> bool) s : p c = false -> all_chars p s = true -> free_of c s = true.
Proof.
  intros Hc. apply all_chars_weaken. intros a Ha. apply negb_true_iff.
  destruct (Ascii.eqb a c) eqn:E; [|done]. apply Ascii.eqb_eq in E as ->. congruence.
Qed.

Lemma free_of_slice c n s : free_of c s = true -> free_of c (slice_to n s) = true.
Proof.
  revert s. induction n as [|n IH]; intros [|a s]; [done..|]. simpl. unfold free_of. simpl.
  intros [-> Hs]%andb_true_iff. by apply IH.
Qed.

(** Equal texts with the same first separator have the same parts around it. *)
Lemma cut_inj c a b r q :
  free_of c a = true -> free_of c b = true ->
  (a +:+ String c r = b +:+ String c q)%string -> a = b /\ r = q.
Proof.
  unfold free_of. revert b.
  induction a as [|x a IH]; intros [|y b] Ha Hb; simpl in *; intros E; simplify_eq; try done.
  - by rewrite Ascii.eqb_refl in Hb.
  - by rewrite Ascii.eqb_refl in Ha.
  - apply andb_true_iff in Ha as [_ Ha]. apply andb_true_iff in Hb as [_ Hb].
    destruct (IH b Ha Hb) as [-> ->]; [|done]. assumption.
Qed.

(** ** Round trips *)

Section laws.
Context `{NODE : Node} {LAWS : NodeLaws}.

Lemma base64url_free c s : is_b64url c = false -> free_of c (base64url s) = true.
Proof. intros Hc. eapply free_of_class; [exact Hc | apply base64url_chars]. Qed.

Lemma base64url_nonempty s : s <> ""%string -> bool_decide (base64url s = ""%string) = false.
Proof. intros Hs. apply bool_decide_eq_false. contradict Hs. by apply base64url_empty. Qed.

Lemma sealJson_Ok iv v secret purpose : secret <> ""%string ->
  sealJson iv v secret purpose
  = Ok (VERSION +:+ "." +:+ base64url iv
        +:+ "." +:+ base64url (snd (aes_gcm (hkdf secret HKDF_SALT purpose) iv "" (JSON_stringify v)))
        +:+ "." +:+ base64url (fst (aes_gcm (hkdf secret HKDF_SALT purpose) iv "" (JSON_stringify v))))%string.
Proof. intros Hs. unfold sealJson, keyFor. by rewrite bool_decide_eq_false_2. Qed.

(** The parts of a sealed box are read back. *)
Lemma openJson_parts iv tag body secret purpose :
  iv <> ""%string -> body <> ""%string -> String.length tag = 16%nat ->
  openJson (VERSION +:+ "." +:+ base64url iv +:+ "." +:+ base64url tag +:+ "." +:+ base64url body)%string
    secret purpose
  = match keyFor secret purpose with
    | Ok key => plain ← aes_gcm_open key iv "" body tag; JSON_parse plain
    | Throw _ => None
    end.
Proof.
  intros Hiv Hbody Htag. assert (Ht : tag <> ""%string) by by intros ->.
  unfold openJson. cbn [String.append].
  rewrite (split_on_cons "." VERSION), !split_on_cons, split_on_free by (done || by apply base64url_free).
  rewrite bool_decide_eq_true_2 by done. simpl negb. rewrite !base64url_nonempty by done. simpl orb. cbv iota.
  by rewrite !base64url_back, Htag.
Qed.

(** A sealed value opens to itself under its own secret and purpose, and to
    nothing under any other. *)
Lemma sealed_opens iv fields secret purpose :
  payload fields -> iv <> ""%string -> secret <> ""%string ->
  exists box, sealJson iv (JObject fields) secret purpose = Ok box
    /\ openJson box secret purpose = Some (JObject fields)
    /\ forall secret' purpose', (secret', purpose') <> (secret, purpose) -> openJson box secret' purpose' = None.
Proof.
  intros Hp Hiv Hs. eexists. rewrite sealJson_Ok by done. split; [done|].
  rewrite openJson_parts by (done || apply gcm_tag || apply gcm_body, JSON_text).
  unfold keyFor. rewrite bool_decide_eq_false_2 by done. split.
  { rewrite gcm_opens. by apply JSON_back. }
  intros s' p' Hne. rewrite openJson_parts by (done || apply gcm_tag || apply gcm_body, JSON_text).
  unfold keyFor. case_bool_decide; [done|].
  destruct (aes_gcm_open _ _ _ _ _) eqn:E; [|done].
  apply gcm_binds in E as (E & _). apply hkdf_binds in E as [-> ->]. done.
Qed.

Lemma slice_to_app a b : slice_to (String.length a) (a +:+ b)%string = a.
Proof. induction a as [|x a IH]; simpl; [by destruct b | by rewrite IH]. Qed.
Lemma slice_from_app a b : slice_from (String.length a) (a +:+ b)%string = b.
Proof. induction a as [|x a IH]; simpl; [by destruct b | done]. Qed.

Lemma tag_at_app body tag : String.length tag = 16%nat -> tag_at (body +:+ tag) = String.length body.
Proof.
  intros Ht. unfold tag_at. rewrite str_app_length, Ht.
  destruct (Nat.ltb_spec (String.length body + 16) 16); lia.
Qed.

Lemma aadOf_inj chain address chain' address' :
  free_of ":" chain = true -> free_of ":" chain' = true ->
  aadOf chain address = aadOf chain' address' -> chain = chain' /\ address = address'.
Proof. apply cut_inj. Qed.

(** The first of the ring's keys under an id. *)
Definition ring_find (keyring : BackupKeyring) (id : string) : option AtRestKey :=
  List.find (fun k => bool_decide (key_id k = id)) (option_list (ring_current keyring) ++ ring_previous keyring).

(** A backup sealed at rest opens to itself under any ring that finds its key by
    its id, for its own row, and for no other row and under no other key. *)
Lemma at_rest_opens iv box chain address key keyring :
  free_of ":" (key_id key) = true -> free_of ":" chain = true ->
  ring_find keyring (key_id key) = Some key ->
  openAtRest (sealAtRest iv box chain address key) chain address keyring = Ok box
  /\ forall keyring' chain' address' box', free_of ":" chain' = true ->
       openAtRest (sealAtRest iv box chain address key) chain' address' keyring' = Ok box' ->
       chain' = chain /\ address' = address /\ box' = box.
Proof.
  intros Hid Hc Hring.
  assert (Hopen : forall c a kr, openAtRest (sealAtRest iv box chain address key) c a kr
    = match ring_find kr (key_id key) with
      | None => Throw JsError
      | Some k => res_of_option JsError
          (aes_gcm_open (key_bytes k) iv (aadOf c a) (fst (aes_gcm (key_bytes key) iv (aadOf chain address) box))
             (snd (aes_gcm (key_bytes key) iv (aadOf chain address) box)))
      end).
  { intros c a kr. unfold openAtRest, sealAtRest, isSealedAtRest. cbn [String.append BACKUP_AT_REST_PREFIX].
    change (String "e" (String "n" (String "c" (String "1" (String ":" "")))))
      with (BACKUP_AT_REST_PREFIX +:+ ":")%string.
    change (String "e" (String "n" (String "c" (String "1" (String ":" ?r)))))
      with (BACKUP_AT_REST_PREFIX +:+ String ":" r)%string.
    replace (String.prefix _ _) with true by (symmetry; by destruct (key_id key)). simpl negb. cbv iota.
    rewrite (split_on_cons ":" BACKUP_AT_REST_PREFIX) by done.
    rewrite split_on_cons by done. rewrite split_on_cons by by apply base64url_free.
    rewrite split_on_free by by apply base64url_free.
    cbn [nth_text nth]. unfold nth_text. cbn [nth]. fold (ring_find kr (key_id key)).
    destruct (ring_find kr (key_id key)) as [k|]; [|done].
    by rewrite !base64url_back, tag_at_app, slice_to_app, slice_from_app by apply gcm_tag. }
  split.
  - by rewrite Hopen, Hring, gcm_opens.
  - intros kr c a b Hc'. rewrite Hopen. destruct (ring_find kr _) as [k|]; [|done].
    destruct (aes_gcm_open _ _ _ _ _) as [p|] eqn:E; [|done]. simpl. intros [= ->].
    apply gcm_binds in E as (_ & E & ->). apply aadOf_inj in E as [-> ->]; done.
Qed.
End laws.
