(* ===== verification/Signatures.v ===== *)
(** Who signed: messages as each chain's wallets sign them
    (src/src/chains/message-signature.ts), the Stellar signature of a sign-in
    ([verifyWalletSignature] of src/src/wallet-auth/wallet-auth-core.ts) and the
    current signers of a Stellar account (src/src/stellar/account-signers.ts), over
    the class [Curves] of the cryptographic libraries. *)

From S2P Require Import Prelude Text MerchantFee Intents ChainAddress Tokens.
From stdpp Require Import base tactics list option strings.
From Stdlib Require Import ZArith Lia Ascii.

Open Scope Z_scope.

(** The Stellar SDK's strkey and ed25519, noble's secp256k1 and keccak, and node's
    base64. What throws is [None]; a key or a signature is its bytes. *)
Class Curves := mkCurves {
  rawPublicKey : string -> option string;
  ed25519_verify : string -> string -> string -> bool;
  from_base64 : string -> string;
  keccak_256 : string -> string;
  hasHighS : string -> option bool;
  recoverPublicKey : string -> Z -> string -> option string
}.

Definition bytes_of (l : list Z) : string := string_of_list (List.map (fun b => ascii_of_nat (Z.to_nat b)) l).

Definition lower_hex (n : Z) : ascii :=
  if n <? 10 then ascii_of_nat (Z.to_nat (48 + n)) else ascii_of_nat (Z.to_nat (87 + n)).

Fixpoint to_hex (s : string) : string :=
  match s with
  | "" => ""
  | String a r => String (lower_hex (code a / 16)) (String (lower_hex (code a mod 16)) (to_hex r))
  end%string.

Section signatures.
Context `{CURVES : Curves}.

(** ** Messages (message-signature.ts) *)

Definition ed25519Signature (signature : string) : option string :=
  let b64 := from_base64 signature in
  if (String.length b64 =? 64)%nat then Some b64
  else b58 ← decodeBase58 signature;
       if (length b58 =? 64)%nat then Some (bytes_of b58) else None.

Definition verifyEd25519 (publicKey message signature : string) : bool :=
  match ed25519Signature signature with
  | Some sig => if (String.length publicKey =? 32)%nat then ed25519_verify publicKey message sig else false
  | None => false
  end.

Definition eip191Digest (message : string) : string :=
  keccak_256 (String (ascii_of_nat 25) "Ethereum Signed Message:" +:+ String (ascii_of_nat 10) ""
              +:+ toString (Z.of_nat (String.length message)) +:+ message)%string.

Definition evmSignature (signature : string) : option string :=
  match signature with
  | String "0" (String "x" r) =>
      if (String.length r =? 130)%nat && all_chars is_hex r then Some (from_hex r)
      else let b64 := from_base64 signature in if (String.length b64 =? 65)%nat then Some b64 else None
  | _ => let b64 := from_base64 signature in if (String.length b64 =? 65)%nat then Some b64 else None
  end%string.

Definition byte_at (n : nat) (s : string) : Z :=
  match slice_from n s with String a _ => code a | EmptyString => 0 end.

Definition recoverEvmSigner (message signature : string) : option string :=
  sig ← evmSignature signature;
  let v := byte_at 64 sig in
  let recovery := if 27 <=? v then v - 27 else v in
  if negb (recovery =? 0) && negb (recovery =? 1) then None
  else
    high ← hasHighS (slice_to 64 sig);
    if (high : bool) then None
    else
      uncompressed ← recoverPublicKey (slice_to 64 sig) recovery (eip191Digest message);
      Some ("0x" +:+ to_hex (slice_from 12 (keccak_256 (slice_from 1 uncompressed))))%string.

Definition verifyMessageSignature (chain : Chain) (address message signature : string) : bool :=
  match chain with
  | stellar =>
      match rawPublicKey address with
      | Some key => verifyEd25519 key message signature
      | None => false
      end
  | solana =>
      match decodeBase58 address with
      | Some key => verifyEd25519 (bytes_of key) message signature
      | None => false
      end
  | monad =>
      if negb (isEvmAddress address) then false
      else match recoverEvmSigner message signature with
           | Some signer => bool_decide (signer = toLowerCase address)
           | None => false
           end
  end.

(** ** Sign-in signatures (wallet-auth-core.ts) *)

Definition verifyWalletSignature (address message signatureBase64 : string) : bool :=
  let sig := from_base64 signatureBase64 in
  if negb (String.length sig =? 64)%nat then false
  else match rawPublicKey address with
       | Some key => ed25519_verify key message sig
       | None => false
       end.

Definition isStellarAddress (value : string) : bool :=
  match rawPublicKey value with Some _ => true | None => false end.

(** [normalizeAddress] of chain-address.ts, over these libraries. *)
Definition stored_address (chain : Chain) (address : string) : string :=
  normalizeAddress isStellarAddress (fun text => to_hex (keccak_256 text)) chain address.
End signatures.

(** ** The signers an account lists (account-signers.ts)

    An account of Horizon; a key, weight, threshold or list that is missing or not
    of its type is [None] (weights and thresholds are integers), as is a missing
    type. *)
Record SignerEntry := mkSignerEntry {
  se_key : option string;
  se_weight : option Z;
  se_type : option string
}.

Record HorizonAccount := mkHorizonAccount {
  ha_signers : option (list SignerEntry);
  ha_med : option Z;
  ha_high : option Z;
  ha_sequence : option string
}.

Record Signer := mkSigner { signer_key : string; weight : Z }.
Record AccountSigners := mkAccountSigners {
  account_signers : list Signer;
  medThreshold : Z;
  highThreshold : Z
}.

Definition signer_of (s : SignerEntry) : option Signer :=
  match se_key s, se_weight s, se_type s with
  | Some k, Some w, None => Some (mkSigner k w)
  | Some k, Some w, Some t => if bool_decide (t = "ed25519_public_key"%string) then Some (mkSigner k w) else None
  | _, _, _ => None
  end.

Definition threshold (v : option Z) : Z :=
  match v with Some n => if 0 <? n then n else 1 | None => 1 end.

Definition parseAccountSigners (body : HorizonAccount) : AccountSigners :=
  mkAccountSigners (omap signer_of (default [] (ha_signers body)))
    (threshold (ha_med body)) (threshold (ha_high body)).

(** What Horizon answers for an account. *)
Inductive AccountResponse :=
  | AccountBody (body : HorizonAccount)
  | Account404
  | AccountFails.

(** Null for an account that does not exist; throws when Horizon cannot be read. *)
Definition fetchAccountSigners (answer : AccountResponse) : res (option AccountSigners) :=
  match answer with
  | AccountBody body => Ok (Some (parseAccountSigners body))
  | Account404 => Ok None
  | AccountFails => Throw JsError
  end.

Definition signedByCurrentSigner (account : AccountSigners) (verifyAs : string -> bool) : bool :=
  existsb (fun s => negb (weight s <? medThreshold account) && verifyAs (signer_key s)) (account_signers account).

Definition isAccountId `{Curves} (value : option string) : bool :=
  match value with Some v => isStellarAddress v | None => false end.
