(* ===== verification/PayLinks.v ===== *)
(** The payment link of a PAY intent on Solana or Monad:
    src/src/payment-intents/chain-pay-link-builder.service.ts, with the deposit
    addresses of evm-deposit-address.factory.ts and the init code of
    src/src/evm/payment-forwarder.ts. *)

From S2P Require Import Prelude Text Units MerchantFee Intents ChainAddress Verifier EvmVerifier.
From S2P Require Import SolanaVerifier Links.
From stdpp Require Import base tactics list option strings.
From Stdlib Require Import ZArith Lia Ascii.

Open Scope Z_scope.

(** ** Forwarders (src/src/evm/payment-forwarder.ts) *)

Record ForwarderTerms := mkForwarderTerms {
  f_destination : string;
  f_token : option string;
  f_relayer : string;
  f_fee : Z;
  f_merchantFee : option (string * Z)
}.

Definition ZERO_ADDRESS : string := ("0x" +:+ zeros 40)%string.

(** [hex.replace(/^0x/, '').toLowerCase().padStart(64, '0')] *)
Definition word (hex : string) : string := padStart 64 (toLowerCase (strip_0x hex)).

Definition hex_char (d : Z) : ascii :=
  if d <? 10 then digit_char d else ascii_of_nat (Z.to_nat (87 + d)).

(** [n.toString(16)] for a bigint at least 0. *)
Definition toString16 (n : Z) : string :=
  match digits 16 n with
  | [] => "0"%string
  | ds => string_of_list (hex_char <$> ds)
  end.

Section forwarder.
(** The two contracts' creation code, as the compiled artifacts hold it. *)
Context (PAYMENT_FORWARDER PAYMENT_SPLIT_FORWARDER : string).

Definition common_words (t : ForwarderTerms) : string :=
  (word (f_destination t) +:+ word (default ZERO_ADDRESS (f_token t))
    +:+ word (f_relayer t) +:+ word (toString16 (f_fee t)))%string.

Definition forwarderInitCode (t : ForwarderTerms) : string :=
  match f_merchantFee t with
  | None => (PAYMENT_FORWARDER +:+ common_words t)%string
  | Some (wallet, amount) =>
      (PAYMENT_SPLIT_FORWARDER +:+ common_words t +:+ word wallet +:+ word (toString16 amount))%string
  end.
End forwarder.

(** ** What the builder reads *)

Record ChainReads := mkChainReads {
  getAccountOwner : string -> string -> res (option string);
  getMintDecimals : string -> string -> res (option nat);
  erc20Decimals : string -> string -> res (option nat);
  gasPrice : string -> res Z;
  blockNumber : string -> res Z;
  relayer_isEnabled : bool;
  relayer_address : string;
  depositTokenFees : string -> option string
}.

(** What it draws: 32 random bytes for a reference, a salt. *)
Record LinkDraw := mkLinkDraw { random_reference : list Z; random_salt : string }.

Definition MAX_TOKEN_DECIMALS : nat := 18.

Definition NATIVE_ASSET_CODES (c : Chain) : string :=
  match c with stellar => "XLM" | solana => "SOL" | monad => "MON" end.

(** [EVM_CHAIN_IDS.monad] *)
Definition MONAD_CHAIN_IDS (network : string) : Z :=
  if bool_decide (network = "public"%string) then 143 else 10143.

(** ** Deposit addresses *)

Definition FORWARDER_GAS_NATIVE : Z := 450000.
Definition DEPOSIT_FEE_MARGIN_BPS : Z := 12500.
Definition DEPOSIT_FEE_ROUNDING_WEI : Z := 10 ^ 12.

Record EvmDepositTerms := mkDepositTerms {
  dep_address : string;
  dep_salt : string;
  dep_destination : string;
  dep_token : option string;
  dep_relayer : string;
  dep_fee : Z;
  dep_merchantFee : option (string * Z)
}.

(** The native fee for a gas price. *)
Definition native_fee_of (price : Z) : Z :=
  let fee := Z.quot (FORWARDER_GAS_NATIVE * price * DEPOSIT_FEE_MARGIN_BPS) 10000 in
  Z.quot (fee + DEPOSIT_FEE_ROUNDING_WEI - 1) DEPOSIT_FEE_ROUNDING_WEI * DEPOSIT_FEE_ROUNDING_WEI.

Definition nativeFee (reads : ChainReads) (network : string) : res Z :=
  price ← gasPrice reads network; Ok (native_fee_of price).

Definition tokenFee (reads : ChainReads) (token : string) (decimals : nat) : res Z :=
  match depositTokenFees reads (toLowerCase token) with
  | None | Some "" => Ok 0
  | Some configured =>
      let places := Nat.min (decimalPlaces configured) decimals in
      let parts := split_on "." configured in
      let whole := default "" (parts !! 0%nat) in
      let fraction := default "" (parts !! 1%nat) in
      parseUnits (if (0 <? places)%nat then (whole +:+ "." +:+ slice_to places fraction) else whole)
        decimals
  end%string.

Definition displayFee (fee : Z) (decimals : nat) : string := formatUnits fee decimals.

Section builder.
(** The parameters of the address rules and of [CREATE2]: the SDK's address
    check, the hash behind EIP-55, and what the salt and the forwarder's terms
    hash to. *)
Context (isValidEd25519PublicKey : string -> bool) (keccak_hex : string -> string).
Context (depositAddress : string -> ForwarderTerms -> string).
Context (reads : ChainReads).

Definition mint (network destination : string) (token : option (string * nat))
    (merchantFee : option (string * Z)) (d : LinkDraw) : res EvmDepositTerms :=
  fee ← (match token with
         | Some (address, decimals) => tokenFee reads address decimals
         | None => nativeFee reads network
         end);
  let terms := mkForwarderTerms destination (fst <$> token) (relayer_address reads) fee merchantFee in
  Ok (mkDepositTerms (depositAddress (random_salt d) terms) (random_salt d) destination
        (fst <$> token) (relayer_address reads) fee merchantFee).

(** ** The builder *)

Record ChainPayRequest := mkChainPayRequest {
  r_network : string;
  r_destination : string;
  r_amount : option string;
  r_assetCode : option string;
  r_assetIssuer : option string;
  r_memo : string;
  r_msg : option string;
  r_merchantFee : option MerchantFeeDto
}.

Record ChainPayLink := mkChainPayLink {
  l_destination : string;
  l_asset : string;
  l_assetIssuer : option string;
  l_assetDecimals : option nat;
  l_uri : string;
  l_chainReference : option string;
  l_chainCursor : option string;
  l_networkFee : option string;
  l_deposit : option EvmDepositTerms;
  l_merchantFee : option (MerchantFeeTerms * MerchantFeeRecord)
}.

Record ResolvedMerchantFee := mkResolvedFee {
  rm_terms : MerchantFeeTerms;
  rm_record : MerchantFeeRecord;
  rm_split : MerchantFeeSplit
}.

Record ChainAsset := mkChainAsset {
  ca_code : string;
  ca_issuer : option string;
  ca_decimals : nat
}.

Definition toUpperCase (s : string) : string := map_chars upper_char s.

Definition isNative (c : Chain) (assetCode assetIssuer : option string) : bool :=
  match assetCode with
  | None => negb (truthy assetIssuer)
  | Some code =>
      let code := toUpperCase code in
      String.eqb code "NATIVE" || String.eqb code (NATIVE_ASSET_CODES c)
  end.

Definition checkAmount (amount : option string) (asset : ChainAsset) (required : bool)
    : res (option Z) :=
  match amount with
  | None => if required then Throw (badRequest InvalidAmount) else Ok None
  | Some a =>
      if (ca_decimals asset <? decimalPlaces a)%nat then Throw (badRequest InvalidAmount)
      else
        value ← parseUnits a (ca_decimals asset);
        if value <=? 0 then Throw (badRequest InvalidAmount) else Ok (Some value)
  end.

Definition resolveChainAsset (c : Chain) (r : ChainPayRequest)
    (readDecimals : string -> res (option nat)) : res ChainAsset :=
  if isNative c (r_assetCode r) (r_assetIssuer r) then
    if truthy (r_assetIssuer r) then Throw (badRequest ValidationFailed)
    else Ok (mkChainAsset "native" None (NATIVE_DECIMALS c))
  else if negb (truthy (r_assetIssuer r)) then Throw (badRequest ValidationFailed)
  else if negb (truthy (r_assetCode r)) then Throw (badRequest ValidationFailed)
  else
    let issuer := normalizeAddress isValidEd25519PublicKey keccak_hex c
                    (default ""%string (r_assetIssuer r)) in
    decimals ← readDecimals issuer;
    match decimals with
    | None => Throw (badRequest ValidationFailed)
    | Some decimals =>
        if (MAX_TOKEN_DECIMALS <? decimals)%nat then Throw (badRequest ValidationFailed)
        else Ok (mkChainAsset (toUpperCase (default ""%string (r_assetCode r))) (Some issuer) decimals)
    end.

Definition builder_merchantFee (c : Chain) (r : ChainPayRequest) (asset : ChainAsset)
    (destination : string) : res (option ResolvedMerchantFee) :=
  match r_merchantFee r with
  | None => Ok None
  | Some dto =>
      match r_amount r with
      | None => Throw (badRequest ValidationFailed)
      | Some amount =>
          terms ← resolveMerchantFee (Some dto) (ca_decimals asset)
                    (CHAIN_ADDRESS_RULES isValidEd25519PublicKey keccak_hex c);
          terms ← res_of_option JsError terms;
          if bool_decide (wallet terms = destination) then Throw (badRequest ValidationFailed)
          else
            amount ← parseUnits amount (ca_decimals asset);
            let split := splitMerchantFee amount (Some terms) in
            _ ← assertMerchantFeeCovered split (Some terms);
            missing ←
              (if bool_decide (c = solana) && negb (truthy (ca_issuer asset)) then
                 o ← getAccountOwner reads (r_network r) (wallet terms); Ok (bool_decide (o = None))
               else Ok false);
            if (missing : bool) then Throw (badRequest ValidationFailed)
            else Ok (Some (mkResolvedFee terms
                   (merchantFeeRecord terms (fee split) (ca_decimals asset) (ca_code asset)) split))
      end
  end.

Definition fee_of_link (m : option ResolvedMerchantFee) : option (MerchantFeeTerms * MerchantFeeRecord) :=
  (fun m => (rm_terms m, rm_record m)) <$> m.

Definition decimals_column (asset : ChainAsset) : option nat :=
  if truthy (ca_issuer asset) then Some (ca_decimals asset) else None.

Definition solanaPay (r : ChainPayRequest) (d : LinkDraw) : res ChainPayLink :=
  asset ← resolveChainAsset solana r (getMintDecimals reads (r_network r));
  _ ← checkAmount (r_amount r) asset false;
  merchant ← builder_merchantFee solana r asset (r_destination r);
  let reference := encodeBase58 (random_reference d) in
  let uri :=
    match merchant with
    | Some _ => ""%string
    | None => solanaPayUri (mkSolanaPay (r_destination r) (r_amount r) (ca_issuer asset)
                              (Some reference) (r_msg r) (Some (r_memo r)))
    end in
  Ok (mkChainPayLink (r_destination r) (ca_code asset) (ca_issuer asset) (decimals_column asset)
        uri (Some reference) None None None (fee_of_link merchant)).

Definition monadDeposit (r : ChainPayRequest) (destination : string) (asset : ChainAsset)
    (chain_id : Z) (d : LinkDraw) : res ChainPayLink :=
  amount ← checkAmount (r_amount r) asset false;
  merchant ← builder_merchantFee monad r asset destination;
  let value := match merchant with Some m => Some (MerchantFee.total (rm_split m)) | None => amount end in
  deposit ← mint (r_network r) destination
              (if truthy (ca_issuer asset)
               then Some (default ""%string (ca_issuer asset), ca_decimals asset) else None)
              ((fun m => (wallet (rm_terms m), fee (rm_split m))) <$> merchant) d;
  if match merchant, value with
     | Some m, Some v => v <=? dep_fee deposit + fee (rm_split m)
     | _, _ => false
     end
  then Throw (badRequest InvalidAmount)
  else if match value with Some v => v <=? dep_fee deposit | None => false end
  then Throw (badRequest InvalidAmount)
  else
    Ok (mkChainPayLink destination (ca_code asset) (ca_issuer asset) (decimals_column asset)
          (eip681Uri (mkEip681 chain_id (dep_address deposit) value (ca_issuer asset)))
          (Some (dep_address deposit)) None
          (if 0 <? dep_fee deposit then Some (displayFee (dep_fee deposit) (ca_decimals asset)) else None)
          (Some deposit) (fee_of_link merchant)).

Definition monadDirect (r : ChainPayRequest) (destination : string) (asset : ChainAsset)
    (chain_id : Z) : res ChainPayLink :=
  value ← checkAmount (r_amount r) asset true;
  head ← blockNumber reads (r_network r);
  Ok (mkChainPayLink destination (ca_code asset) (ca_issuer asset) (decimals_column asset)
        (eip681Uri (mkEip681 chain_id destination value (ca_issuer asset)))
        None (Some (toString head)) None None None).

Definition monadPay (r : ChainPayRequest) (d : LinkDraw) : res ChainPayLink :=
  match r_msg r with
  | Some _ => Throw (badRequest ValidationFailed)
  | None =>
      let destination := normalizeAddress isValidEd25519PublicKey keccak_hex monad (r_destination r) in
      asset ← resolveChainAsset monad r (erc20Decimals reads (r_network r));
      let chain_id := MONAD_CHAIN_IDS (r_network r) in
      match r_merchantFee r with
      | Some _ =>
          if negb (relayer_isEnabled reads) then Throw (badRequest MerchantFeeUnsupported)
          else monadDeposit r destination asset chain_id d
      | None =>
          if relayer_isEnabled reads then monadDeposit r destination asset chain_id d
          else monadDirect r destination asset chain_id
      end
  end.

(** [build]; Stellar has no builder here. *)
Definition build (c : Chain) (r : ChainPayRequest) (d : LinkDraw) : res ChainPayLink :=
  match c with
  | solana => solanaPay r d
  | monad => monadPay r d
  | stellar => Throw JsError
  end.

Definition normalize_request (c : Chain) (dest : string) (assetCode assetIssuer : option string)
    : string * string * option string :=
  let native := isNative c assetCode assetIssuer in
  (normalizeAddress isValidEd25519PublicKey keccak_hex c dest,
   if native then "native"%string else toUpperCase (default ""%string assetCode),
   if native || negb (truthy assetIssuer) then None
   else Some (normalizeAddress isValidEd25519PublicKey keccak_hex c (default ""%string assetIssuer))).
End builder.

(** ** What the service stores with a link

    The terms come from [normalize], the rest from the link ([createPayOnChain]
    of payment-intents.service.ts). *)
Section stored.
Context (isValidEd25519PublicKey : string -> bool) (keccak_hex : string -> string).

Definition stored_with (c : Chain) (r : ChainPayRequest) (l : ChainPayLink) : PaymentIntent :=
  let '(dest, code, issuer) :=
    normalize_request isValidEd25519PublicKey keccak_hex c (r_destination r) (r_assetCode r)
      (r_assetIssuer r) in
  mkPaymentIntent "" "" PAY (chain_name c) (r_network r) None dest (r_amount r) code issuer
    (l_assetDecimals l) (r_memo r) (l_chainReference l) (l_chainCursor l) (l_networkFee l)
    (r_msg r) None PENDING None (l_uri l) None None None
    (match l_merchantFee l with Some (_, rec) => record_json rec | None => JNull end) None 0.
End stored.

(** ** Lemmas *)

Lemma res_bind_Ok {A B} (m : res A) (f : A -> res B) b :
  (m ≫= f) = Ok b -> exists a, m = Ok a /\ f a = Ok b.
Proof. apply bind_Ok. Qed.

Section built.
Context (isValid : string -> bool) (keccak : string -> string).
Context (depositAddress : string -> ForwarderTerms -> string) (reads : ChainReads).

(** The asset of a request, and the columns [normalize] gives it. *)
Lemma resolveChainAsset_spec c r readDecimals a :
  c <> stellar ->
  resolveChainAsset isValid keccak c r readDecimals = Ok a ->
  exists dest,
    normalize_request isValid keccak c (r_destination r) (r_assetCode r) (r_assetIssuer r)
      = (dest, ca_code a, ca_issuer a)
    /\ dest = normalizeAddress isValid keccak c (r_destination r)
    /\ ((ca_code a = "native"%string /\ ca_issuer a = None /\ ca_decimals a = NATIVE_DECIMALS c)
        \/ truthy (ca_issuer a) = true /\ (ca_decimals a <= MAX_TOKEN_DECIMALS)%nat
           /\ isNative c (r_assetCode r) (r_assetIssuer r) = false).
Proof.
  intros Hc. unfold resolveChainAsset, normalize_request.
  destruct (isNative c (r_assetCode r) (r_assetIssuer r)) eqn:En.
  - destruct (truthy (r_assetIssuer r)); [done|]. intros [= <-]. eexists. split; [done|].
    split; [done|]. by left.
  - destruct (truthy (r_assetIssuer r)) eqn:Ei; cbn [negb orb]; [|done].
    destruct (truthy (r_assetCode r)); cbn [negb]; [|done]. intros H.
    apply res_bind_Ok in H as ([dec|] & _ & H); [|done].
    destruct (Nat.ltb_spec MAX_TOKEN_DECIMALS dec); [done|]. injection H as <-.
    eexists. split; [done|]. split; [done|]. right. simpl. split; [|done].
    apply truthy_Some in Ei as (s & Es & Hs). rewrite Es. simpl.
    destruct c; [done| |done]. by destruct s.
Qed.

Lemma checkAmount_spec amount a required v :
  checkAmount amount a required = Ok v ->
  match amount with
  | None => v = None /\ required = false
  | Some s => exists x, v = Some x /\ parseUnits s (ca_decimals a) = Ok x /\ 0 < x
  end.
Proof.
  unfold checkAmount. destruct amount as [s|]; [|by destruct required; [|intros [= <-]]].
  destruct (_ <? _)%nat; [done|]. intros (x & E & H)%res_bind_Ok.
  destruct (Z.leb_spec x 0); [done|]. injection H as <-. by exists x.
Qed.

Lemma builder_merchantFee_spec c r a dest m :
  builder_merchantFee isValid keccak reads c r a dest = Ok m ->
  match m with
  | None => r_merchantFee r = None
  | Some m => exists s x, r_amount r = Some s /\ parseUnits s (ca_decimals a) = Ok x
      /\ rm_split m = splitMerchantFee x (Some (rm_terms m))
      /\ rm_record m = merchantFeeRecord (rm_terms m) (fee (rm_split m)) (ca_decimals a) (ca_code a)
      /\ 0 < fee (rm_split m) /\ 0 < net (rm_split m) /\ wallet (rm_terms m) <> dest
  end.
Proof.
  unfold builder_merchantFee. destruct (r_merchantFee r) as [dto|]; [|by intros [= <-]].
  destruct (r_amount r) as [s|]; [|done].
  intros (t0 & _ & H)%res_bind_Ok. apply res_bind_Ok in H as (t & _ & H).
  destruct (bool_decide_reflect (wallet t = dest)) as [|Hw]; [done|].
  apply res_bind_Ok in H as (x & Ex & H). apply res_bind_Ok in H as (u & Ec & H).
  apply res_bind_Ok in H as (b & _ & H). destruct b; [done|]. injection H as <-. simpl.
  apply covered_Ok in Ec as [H1 H2]. by exists s, x.
Qed.

Lemma record_amount t x a code :
  0 <= x -> parseUnits (rec_amount (merchantFeeRecord t x a code)) a = Ok x.
Proof. apply parse_format_units. Qed.

(** The amount a payer is asked for on Monad is what the verifier expects. *)
Lemma expected_stored i a s x m :
  amount i = Some s -> assetIssuer i = ca_issuer a ->
  assetDecimals i = decimals_column a ->
  (truthy (ca_issuer a) = false -> ca_decimals a = NATIVE_DECIMALS monad) ->
  parseUnits s (ca_decimals a) = Ok x ->
  merchantFee i = match m with Some m => record_json (rm_record m) | None => JNull end ->
  (forall f, m = Some f -> rm_split f = splitMerchantFee x (Some (rm_terms f))
     /\ rm_record f = merchantFeeRecord (rm_terms f) (fee (rm_split f)) (ca_decimals a) (ca_code a)
     /\ 0 < fee (rm_split f)) ->
  expected i = Some (match m with Some f => MerchantFee.total (rm_split f) | None => x end).
Proof.
  intros Ea Ei Ed Hn Hx Em Hm. unfold expected. rewrite Ea, Ei, Ed. unfold decimals_column.
  assert ((if truthy (ca_issuer a) then if truthy (ca_issuer a) then Some (ca_decimals a) else None
           else Some (NATIVE_DECIMALS monad)) = Some (ca_decimals a)) as ->.
  { destruct (truthy (ca_issuer a)); [done|]. by rewrite Hn. }
  rewrite Hx. cbn [mbind res_bind]. rewrite Em. destruct m as [f|]; [|done].
  destruct (Hm f eq_refl) as (Es & Er & Hf). rewrite read_record_json, Er.
  change (rec_paidBy (merchantFeeRecord _ _ _ _)) with (paidBy (rm_terms f)).
  destruct (paidBy (rm_terms f)) eqn:Ep.
  - rewrite bool_decide_false by done. rewrite Es. unfold splitMerchantFee. by rewrite Ep.
  - rewrite bool_decide_true by done. rewrite record_amount by lia. cbn [mbind res_bind].
    rewrite Es. unfold splitMerchantFee. by rewrite Ep.
Qed.
End built.

(** *** Monad links *)

Section monad.
Context (isValid : string -> bool) (keccak : string -> string).
Context (depositAddress : string -> ForwarderTerms -> string) (reads : ChainReads).

(** The payment an EIP-681 link asks a wallet for, on a chain: of the native coin
    straight to the address, or of a token by its [transfer] to the address. *)
Inductive asks_for (uri chain address : string) (value : option Z) : option string -> Prop :=
  | asks_native token : token = None \/ token = Some ""%string ->
      uri = ("ethereum:" +:+ address +:+ "@" +:+ chain
             +:+ match value with Some v => "?value=" +:+ toString v | None => "" end)%string ->
      asks_for uri chain address value token
  | asks_token token : token <> ""%string ->
      uri = ("ethereum:" +:+ token +:+ "@" +:+ chain +:+ "/transfer?address=" +:+ address
             +:+ match value with Some v => "&uint256=" +:+ toString v | None => "" end)%string ->
      asks_for uri chain address value (Some token).

(** The request's amount, in the asset's base units, and the merchant fee when the
    payer pays it on top. *)
Definition on_top (m : option (MerchantFeeTerms * MerchantFeeRecord)) (x : Z) : Z :=
  match m with
  | Some (t, _) => match paidBy t with MerchantFee.payer => Z.quot (x * bps t) 10000 + fixed t | MerchantFee.recipient => 0 end
  | None => 0
  end.
Definition requested (r : ChainPayRequest) (l : ChainPayLink) (v : option Z) : Prop :=
  match r_amount r with
  | Some s => exists x, parseUnits s (default 18%nat (l_assetDecimals l)) = Ok x /\ v = Some (x + on_top (l_merchantFee l) x)
  | None => v = None
  end.

(** The link of a request and the intent stored with it agree. *)
Definition link_agrees (r : ChainPayRequest) (l : ChainPayLink) : Prop :=
  let i := stored_with isValid keccak monad r l in
  l_destination l = destination i /\ l_asset l = asset i /\ l_assetIssuer l = assetIssuer i
  /\ pay_to i = match l_deposit l with Some dep => dep_address dep | None => l_destination l end
  /\ asks_for (l_uri l) (if decide (r_network r = "public"%string) then "143" else "10143") (pay_to i) (expected i) (assetIssuer i)
  /\ requested r l (expected i)
  /\ (forall v, expected i = Some v -> 0 < v /\ accepted i v
        /\ (forall dep, l_deposit l = Some dep ->
              dep_fee dep < v
              /\ forall w f, dep_merchantFee dep = Some (w, f) -> dep_fee dep + f < v))
  /\ (expected i = None -> isDeposit i = true).

(** An asset resolved for the request. *)
Definition resolved (r : ChainPayRequest) (dest : string) (a : ChainAsset) : Prop :=
  normalize_request isValid keccak monad (r_destination r) (r_assetCode r) (r_assetIssuer r)
    = (dest, ca_code a, ca_issuer a)
  /\ (truthy (ca_issuer a) = false -> ca_decimals a = NATIVE_DECIMALS monad).

Lemma eip681_asks network address value token :
  asks_for (eip681Uri (mkEip681 (MONAD_CHAIN_IDS network) address value token))
    (if decide (network = "public"%string) then "143" else "10143") address value token.
Proof.
  assert (E : (if decide (network = "public"%string) then "143" else "10143")%string = toString (MONAD_CHAIN_IDS network)).
  { unfold MONAD_CHAIN_IDS. by case_bool_decide as En; destruct (decide _). }
  rewrite E. destruct token as [[|a t]|].
  - apply asks_native; [by right|]. by destruct value.
  - by apply asks_token; [|destruct value].
  - apply asks_native; [by left|]. by destruct value.
Qed.

Lemma decimals_asked a (l : ChainPayLink) :
  (truthy (ca_issuer a) = false -> ca_decimals a = NATIVE_DECIMALS monad) -> l_assetDecimals l = decimals_column a ->
  default 18%nat (l_assetDecimals l) = ca_decimals a.
Proof. intros H ->. unfold decimals_column. destruct (truthy _); [done|]. by rewrite H. Qed.

Lemma total_on_top x t rec : MerchantFee.total (splitMerchantFee x (Some t)) = x + on_top (Some (t, rec)) x.
Proof. unfold splitMerchantFee, on_top. unfold MERCHANT_FEE_BPS_DENOMINATOR. destruct (paidBy t); simpl; lia. Qed.

Lemma monadDeposit_agrees r dest a d l :
  resolved r dest a ->
  monadDeposit isValid keccak depositAddress reads r dest a (MONAD_CHAIN_IDS (r_network r)) d = Ok l ->
  link_agrees r l.
Proof.
  intros [En Hnat] H. unfold link_agrees. unfold monadDeposit in H.
  apply res_bind_Ok in H as (v & Ev & H). apply checkAmount_spec in Ev.
  apply res_bind_Ok in H as (mf & Emf & H). apply builder_merchantFee_spec in Emf.
  apply res_bind_Ok in H as (dep & Edep & H).
  assert (dep_merchantFee dep = (fun m => (wallet (rm_terms m), fee (rm_split m))) <$> mf) as Edf.
  { unfold mint in Edep. apply res_bind_Ok in Edep as (? & _ & Edep). by injection Edep as <-. }
  destruct (match mf, _ with Some _, Some _ => _ | _, _ => false end) eqn:E1; [done|].
  destruct (match _ with Some v => v <=? dep_fee dep | None => false end) eqn:E2; [done|].
  injection H as <-. cbv zeta. unfold stored_with. rewrite En.
  set (i := mkPaymentIntent _ _ _ _ _ _ _ _ _ _ _ _ _ _ _ _ _ _ _ _ _ _ _ _ _ _).
  assert (expected i = match mf with Some m => Some (MerchantFee.total (rm_split m)) | None => v end) as Ee.
  { destruct (r_amount r) as [s|] eqn:Er.
    - destruct Ev as (x & -> & Ex & Hx).
      transitivity (Some (match mf with Some f => MerchantFee.total (rm_split f) | None => x end));
        [|by destruct mf].
      apply (expected_stored i a s x mf); try done.
      + by subst i; simpl; destruct mf as [m|].
      + intros f ->. destruct Emf as (s' & x' & [= <-] & Ex' & ? & ? & ? & _).
        rewrite Ex in Ex'. by injection Ex' as <-.
    - destruct mf as [m|]; [by destruct Emf as (? & ? & ? & _)|].
      destruct Ev as [-> _]. unfold expected. by subst i. }
  split; [done|]. split; [done|]. split; [done|]. split; [done|].
  split; [rewrite Ee; apply eip681_asks|]. split.
  { unfold requested. rewrite Ee. rewrite (decimals_asked a) by done. cbn [l_merchantFee fee_of_link].
    destruct (r_amount r) as [s|].
    - destruct Ev as (x & -> & Ex & _). exists x. split; [done|]. destruct mf as [m|]; [|simpl; f_equal; lia].
      destruct Emf as (s' & x' & [= <-] & Ex' & -> & _). rewrite Ex in Ex'. injection Ex' as <-. f_equal. apply total_on_top.
    - destruct mf as [m|]; [by destruct Emf as (? & ? & ? & _)|]. by destruct Ev as [-> _]. }
  split; [|done]. intros w Hw. rewrite Hw in Ee. rewrite <- Ee in E1, E2. apply Z.leb_gt in E2.
  split; [|split].
  - destruct mf as [m|].
    + destruct Emf as (s & x & _ & _ & Es & _ & Hf & Hn & _). injection Ee as ->.
      pose proof (split_total x (Some (rm_terms m))) as Ht. rewrite <- Es in Ht. lia.
    + destruct (r_amount r) as [s|]; [|by destruct Ev as [-> _]].
      destruct Ev as (x & -> & _ & Hx). injection Ee as ->. done.
  - unfold accepted. rewrite Hw. simpl. lia.
  - simpl. intros dep' [= <-]. split; [done|]. intros w' f. rewrite Edf.
    destruct mf as [m|]; [|done]. intros [= <- <-]. by apply Z.leb_gt in E1.
Qed.

Lemma monadDirect_agrees r dest a l :
  resolved r dest a ->
  monadDirect reads r dest a (MONAD_CHAIN_IDS (r_network r)) = Ok l ->
  link_agrees r l.
Proof.
  intros [En Hnat] H. unfold link_agrees, monadDirect in *.
  apply res_bind_Ok in H as (v & Ev & H). apply checkAmount_spec in Ev.
  apply res_bind_Ok in H as (head & _ & H). injection H as <-. cbv zeta. unfold stored_with. rewrite En.
  set (i := mkPaymentIntent _ _ _ _ _ _ _ _ _ _ _ _ _ _ _ _ _ _ _ _ _ _ _ _ _ _).
  destruct (r_amount r) as [s|] eqn:Er; [|by destruct Ev].
  destruct Ev as (x & -> & Ex & Hx).
  assert (expected i = Some x) as Ee.
  { apply (expected_stored i a s x None); try done; by subst i; simpl. }
  rewrite Ee. split; [done|]. split; [done|]. split; [done|]. split; [done|]. split; [apply eip681_asks|].
  split; [unfold requested; rewrite Er, (decimals_asked a) by done; exists x; split; [done|simpl; f_equal; lia]|].
  split; [|done]. intros w [= <-]. split; [done|]. split; [|done].
  unfold accepted. by rewrite Ee.
Qed.
End monad.

(** ** Properties *)

(** C38: what a Monad link asks for settles its intent. Whenever the builder
    answers a link, its URI asks a wallet, on the chain of the request's network, to
    pay the intent's address, the link's own deposit address or else the destination,
    exactly the amount the intent expects, of the native coin or by the token's
    transfer: the request's amount in the asset's base units, and the merchant fee
    when the payer pays it on top. The verifier accepts that amount. It leaves the
    merchant something after the relayer's and the merchant's fees. A link with an
    open amount always has its own deposit address. *)
Theorem monad_link_settles (isValid : string -> bool) (keccak : string -> string)
    (depositAddress : string -> ForwarderTerms -> string) (reads : ChainReads)
    (r : ChainPayRequest) (d : LinkDraw) (l : ChainPayLink) :
  build isValid keccak depositAddress reads monad r d = Ok l ->
  let i := stored_with isValid keccak monad r l in
  l_destination l = destination i /\ l_asset l = asset i /\ l_assetIssuer l = assetIssuer i
  /\ pay_to i = match l_deposit l with Some dep => dep_address dep | None => l_destination l end
  /\ asks_for (l_uri l) (if decide (r_network r = "public"%string) then "143" else "10143") (pay_to i) (expected i) (assetIssuer i)
  /\ requested r l (expected i)
  /\ (forall v, expected i = Some v -> 0 < v /\ accepted i v
        /\ (forall dep, l_deposit l = Some dep ->
              dep_fee dep < v
              /\ forall w f, dep_merchantFee dep = Some (w, f) -> dep_fee dep + f < v))
  /\ (expected i = None -> isDeposit i = true).
Proof.
  intros H. simpl in H. unfold monadPay in H. destruct (r_msg r) eqn:Emsg; [done|].
  apply res_bind_Ok in H as (a & Ea & H).
  destruct (resolveChainAsset_spec isValid keccak monad r _ a ltac:(done) Ea) as (dest & En & Ed & Ha).
  assert (resolved isValid keccak r dest a) as Hr.
  { split; [done|]. destruct Ha as [(_ & _ & ?)|(E & _)]; [done | congruence]. }
  rewrite <- Ed in H. change (link_agrees isValid keccak r l).
  destruct (r_merchantFee r), (relayer_isEnabled reads); cbn [negb] in H; try done;
    by eauto using monadDeposit_agrees, monadDirect_agrees.
Qed.

Definition sample_reads (relayer : bool) : ChainReads :=
  mkChainReads (fun _ _ => Ok (Some "System"%string)) (fun _ _ => Ok (Some 6%nat)) (fun _ _ => Ok (Some 6%nat))
    (fun _ => Ok 100000000000) (fun _ => Ok 1000) relayer "0xE000000000000000000000000000000000000005"
    (fun _ => None).
Definition sample_request : ChainPayRequest :=
  mkChainPayRequest "public" "0xD000000000000000000000000000000000000001" (Some "1.5"%string) None None "7" None
    (Some (mkMerchantFeeDto (Some (NumInt 100)) None "0xF000000000000000000000000000000000000006" (Some MerchantFee.payer))).
Definition sample_linkdraw : LinkDraw := mkLinkDraw [1; 2; 3] "0x01".
Definition sample_deposit_address : string -> ForwarderTerms -> string :=
  fun _ _ => "0xC000000000000000000000000000000000000007"%string.

Lemma monad_link_settles_witness :
  exists l, build (fun _ => true) (fun s => s) sample_deposit_address (sample_reads true) monad
              sample_request sample_linkdraw = Ok l
  /\ l_destination l = "0xD000000000000000000000000000000000000001"%string
  /\ l_uri l = "ethereum:0xC000000000000000000000000000000000000007@143?value=1515000000000000000"%string
  /\ requested sample_request l (Some 1515000000000000000).
Proof.
  eexists. split; [vm_compute; reflexivity|]. split; [reflexivity|]. split; [vm_compute; reflexivity|].
  exact (proj1 (proj2 (proj2 (proj2 (proj2 (proj2 (monad_link_settles (fun _ => true) (fun s => s) sample_deposit_address
    (sample_reads true) sample_request sample_linkdraw _ ltac:(vm_compute; reflexivity)))))))).
Defined.

(** what a Solana link asks for settles its intent. Whenever the builder
    answers a link, the intent stored with it carries a reference key and the
    verifier's legs for it are the request's amount, positive, in the asset's own
    base units: the whole amount to the destination when there is no merchant
    fee, and then the link's URI asks for that amount of that asset with that
    reference; with a fee, its net to the destination and the fee to another
    wallet, both positive, and no transfer link at all. *)
Theorem solana_link_settles (isValid : string -> bool) (keccak : string -> string)
    (depositAddress : string -> ForwarderTerms -> string) (reads : ChainReads)
    (r : ChainPayRequest) (d : LinkDraw) (l : ChainPayLink) :
  build isValid keccak depositAddress reads solana r d = Ok l ->
  let i := stored_with isValid keccak solana r l in
  l_destination l = destination i /\ l_asset l = asset i /\ l_assetIssuer l = assetIssuer i
  /\ chainReference i = Some (encodeBase58 (random_reference d))
  /\ match r_amount r, l_merchantFee l with
     | None, m => legs i = None /\ m = None
     | Some s, None => exists x, parseUnits s (solana_decimals i) = Ok x /\ 0 < x
         /\ legs i = Some (x, None)
         /\ l_uri l = solanaPayUri (mkSolanaPay (destination i) (Some s) (assetIssuer i)
                        (chainReference i) (r_msg r) (Some (r_memo r)))
     | Some s, Some (t, _) => exists x n f, parseUnits s (solana_decimals i) = Ok x
         /\ legs i = Some (n, Some (wallet t, f)) /\ 0 < n /\ 0 < f
         /\ n + f = MerchantFee.total (splitMerchantFee x (Some t))
         /\ wallet t <> destination i /\ l_uri l = ""%string
     end.
Proof.
  intros H. simpl in H. unfold solanaPay in H.
  apply res_bind_Ok in H as (a & Ea & H).
  destruct (resolveChainAsset_spec isValid keccak solana r _ a ltac:(done) Ea) as (dest & En & Ed & Ha).
  simpl in Ed. subst dest. apply res_bind_Ok in H as (v & Ev & H). apply checkAmount_spec in Ev.
  apply res_bind_Ok in H as (mf & Emf & H). apply builder_merchantFee_spec in Emf.
  injection H as <-. cbv zeta. unfold stored_with. rewrite En.
  set (i := mkPaymentIntent _ _ _ _ _ _ _ _ _ _ _ _ _ _ _ _ _ _ _ _ _ _ _ _ _ _).
  assert (amount i = r_amount r -> solana_decimals i = ca_decimals a) as Hdec.
  { intros _. unfold solana_decimals. subst i. cbn [asset assetDecimals l_assetDecimals].
    unfold decimals_column. destruct Ha as [(-> & -> & ->)|(Et & _ & Hn)]; [done|].
    rewrite Et. simpl. unfold normalize_request in En. rewrite Hn in En. injection En as En _.
    case_bool_decide as Ecode; [|done]. exfalso. rewrite Ecode in En.
    unfold isNative in Hn. destruct (r_assetCode r) as [c|]; [|done]. simpl in En.
    assert (toUpperCase (toUpperCase c) = toUpperCase c) as Eu.
    { clear. induction c as [|x c IH]; [done|]. unfold toUpperCase in *. simpl. rewrite IH. f_equal.
      destruct x as [[] [] [] [] [] [] [] []]; reflexivity. }
    rewrite En in Eu. vm_compute in Eu. done. }
  specialize (Hdec eq_refl). do 4 (split; [done|]).
  destruct mf as [m|]; cbn [fee_of_link fmap option_fmap option_map l_merchantFee].
  - destruct Emf as (s & x & Es & Ex & Esp & Er & Hf & Hn & Hw). rewrite Es in *.
    exists x, (net (rm_split m)), (fee (rm_split m)). rewrite Hdec. split; [done|].
    assert (legs i = Some (net (rm_split m), Some (wallet (rm_terms m), fee (rm_split m)))) as ->.
    { unfold legs. rewrite Hdec. subst i. cbn [amount merchantFee l_merchantFee fee_of_link].
      simpl. rewrite Es. unfold paymentLegs. rewrite read_record_json, Ex, Er. cbn [mbind res_bind].
      rewrite record_amount by lia. cbn [mbind res_bind destinationAmount res_of_option legs_fee].
      change (rec_paidBy (merchantFeeRecord _ _ _ _)) with (paidBy (rm_terms m)).
      assert (match paidBy (rm_terms m) with recipient => x - fee (rm_split m) | MerchantFee.payer => x end
              = net (rm_split m)) as ->.
      { rewrite Esp. unfold splitMerchantFee. by destruct (paidBy (rm_terms m)). }
      rewrite parse_format_units by lia. cbn [mbind res_bind].
      by rewrite record_amount by lia. }
    do 3 (split; [done|]). split; [|done]. rewrite Esp. symmetry. apply split_total.
  - destruct (r_amount r) as [s|] eqn:Es.
    + destruct Ev as (x & -> & Ex & Hx). exists x. rewrite Hdec. split; [done|]. split; [done|].
      split; [|done]. unfold legs. rewrite Hdec. subst i. cbn [amount merchantFee l_merchantFee fee_of_link].
      simpl. by rewrite Ex.
    + by subst i.
Qed.

Definition sample_solana_request : ChainPayRequest :=
  mkChainPayRequest "public" "DEST" (Some "1.5"%string) None None "7" None None.
Lemma solana_link_settles_witness :
  exists l, build (fun _ => true) (fun s => s) sample_deposit_address (sample_reads false) solana
              sample_solana_request sample_linkdraw = Ok l
  /\ l_destination l = destination (stored_with (fun _ => true) (fun s => s) solana sample_solana_request l)
  /\ legs (stored_with (fun _ => true) (fun s => s) solana sample_solana_request l) = Some (1500000000, None).
Proof.
  eexists. split; [vm_compute; reflexivity|]. split; [|vm_compute; reflexivity].
  exact (proj1 (solana_link_settles (fun _ => true) (fun s => s) sample_deposit_address (sample_reads false)
    sample_solana_request sample_linkdraw _ ltac:(vm_compute; reflexivity))).
Defined.
