(* ===== verification/Programs.v ===== *)
(** Asynchronous methods as programs of atomic statements, for any world: what a
    method does between two awaits on the database is one statement, and
    statements of concurrent requests interleave. A program runs alone ([run])
    or in a pool with others ([pool_step]); [wp] is the rely-guarantee
    precondition that covers both. *)

From S2P Require Import Prelude.
From stdpp Require Import base tactics list option.

(** [Ret] and [Raise] end the method; [Stmt w k] changes the world it finds by
    [w] and goes on as [k] of the world it found. *)
Inductive prog (W A : Type) :=
  | Ret (a : A)
  | Raise (e : exn)
  | Stmt (w : W -> W) (k : W -> prog W A).
Arguments Ret {W A} a.
Arguments Raise {W A} e.
Arguments Stmt {W A} w k.

Fixpoint prog_bind {W A B} (f : A -> prog W B) (p : prog W A) : prog W B :=
  match p with
  | Ret a => f a
  | Raise e => Raise e
  | Stmt w k => Stmt w (fun s => prog_bind f (k s))
  end.
#[export] Instance prog_mret W : MRet (prog W) := @Ret W.
#[export] Instance prog_mbind W : MBind (prog W) := fun A B f p => prog_bind f p.

(** [try p catch (err) h(err)] *)
Fixpoint catching {W A} (p : prog W A) (h : exn -> prog W A) : prog W A :=
  match p with
  | Ret a => Ret a
  | Raise e => h e
  | Stmt w k => Stmt w (fun s => catching (k s) h)
  end.

(** What is computed without an await. *)
Definition pure {W A} (r : res A) : prog W A :=
  match r with Ok a => Ret a | Throw e => Raise e end.

(** One statement, or one database transaction. *)
Definition stmt {W A} (f : svc W A) : prog W A :=
  Stmt (fun s => fst (f s)) (fun s => pure (snd (f s))).

(** A read. *)
Definition asking {W A} (f : W -> A) : prog W A := Stmt (fun s => s) (fun s => Ret (f s)).

Definition discard {W A} (p : prog W A) : prog W unit := prog_bind (fun _ => Ret tt) p.

(** [for (const x of l) await worker(x)] *)
Fixpoint for_each {W A} (l : list A) (worker : A -> prog W unit) : prog W unit :=
  match l with
  | [] => Ret tt
  | x :: l => prog_bind (fun _ => for_each l worker) (worker x)
  end.

(** [try { p } finally { c }] *)
Definition finally {W A} (p : prog W A) (c : prog W unit) : prog W A :=
  prog_bind (fun r : A + exn => prog_bind (fun _ => match r with inl a => Ret a | inr e => Raise e end) c)
    (catching (prog_bind (fun a => Ret (inl a)) p) (fun e => Ret (inr e))).

(** ** Alone *)

Fixpoint run {W A} (p : prog W A) : svc W A := fun s =>
  match p with
  | Ret a => (s, Ok a)
  | Raise e => (s, Throw e)
  | Stmt w k => run (k s) (w s)
  end.

Lemma run_bind {W A B} (f : A -> prog W B) (p : prog W A) s :
  run (p ≫= f) s = match run p s with
                    | (s', Ok a) => run (f a) s'
                    | (s', Throw e) => (s', Throw e)
                    end.
Proof.
  unfold mbind, prog_mbind. revert s. induction p as [a|e|w k IH]; intros s; [|done|].
  - simpl. done.
  - simpl. apply IH.
Qed.

Lemma run_catching {W A} (p : prog W A) (h : exn -> prog W A) s :
  run (catching p h) s = match run p s with
                         | (s', Ok a) => (s', Ok a)
                         | (s', Throw e) => run (h e) s'
                         end.
Proof. revert s. induction p as [a|e|w k IH]; intros s; simpl; auto. Qed.

Lemma run_stmt {W A} (f : svc W A) s : run (stmt f) s = f s.
Proof. simpl. destruct (f s) as [s' [a|e]]; reflexivity. Qed.

Lemma run_pure {W A} (r : res A) (s : W) : run (pure r) s = (s, r).
Proof. by destruct r. Qed.

Lemma run_asking {W A} (f : W -> A) s : run (asking f) s = (s, Ok (f s)).
Proof. done. Qed.

Lemma run_discard {W A} (p : prog W A) s :
  run (discard p) s = match run p s with
                      | (s', Ok _) => (s', Ok tt)
                      | (s', Throw e) => (s', Throw e)
                      end.
Proof. apply (run_bind (fun _ => Ret tt) p s). Qed.

(** Computes the run of a program along its structure. *)
Ltac runs := repeat first [rewrite run_bind | rewrite run_catching | rewrite run_stmt | rewrite run_pure | rewrite run_asking].

(** ** In a pool *)

Section pool.
Context {W : Type}.
(** What a request can be, and what else happens to the world. *)
Context (request : prog W unit -> Prop) (env : W -> W -> Prop).

Inductive pool_step : list (prog W unit) * W -> list (prog W unit) * W -> Prop :=
  | pool_run l1 w k l2 s : pool_step (l1 ++ Stmt w k :: l2, s) (l1 ++ k s :: l2, w s)
  | pool_arrive p l s : request p -> pool_step (l, s) (p :: l, s)
  | pool_gone l1 p l2 s : pool_step (l1 ++ p :: l2, s) (l1 ++ l2, s)
  | pool_env l s s' : env s s' -> pool_step (l, s) (l, s').
End pool.

(** Requests served one after another are an execution of the pool. *)
Fixpoint run_all {W} (ps : list (prog W unit)) (s : W) : W :=
  match ps with
  | [] => s
  | p :: ps => run_all ps (fst (run p s))
  end.

Lemma pool_run_one {W} (request : prog W unit -> Prop) env (p : prog W unit) l s :
  exists q, star (pool_step request env) (p :: l, s) (q :: l, fst (run p s)).
Proof.
  revert s. induction p as [a|e|w k IH]; intros s; [eexists; apply star_refl ..|].
  destruct (IH s (w s)) as [q Hq]. exists q.
  eapply star_trans; [|exact Hq]. apply star_one. apply (pool_run request env [] w k l s).
Qed.

Lemma pool_run_all {W} (request : prog W unit -> Prop) env ps l s :
  Forall request ps -> exists l', star (pool_step request env) (l, s) (l', run_all ps s).
Proof.
  intros H. revert l s. induction H as [|p ps Hp Hps IH]; intros l s; [eexists; apply star_refl|].
  destruct (pool_run_one request env p l s) as [q Hq].
  destruct (IH (q :: l) (fst (run p s))) as [l' Hl']. exists l'.
  eapply star_trans; [apply star_one, (pool_arrive request env p l s Hp)|]. by eapply star_trans.
Qed.

(** A program runs to its end where it stands in the pool, and so does each of a
    list of them. *)
Lemma pool_run_at {W} (request : prog W unit -> Prop) env (p : prog W unit) l1 l2 s :
  exists q, star (pool_step request env) (l1 ++ p :: l2, s) (l1 ++ q :: l2, fst (run p s)).
Proof.
  revert s. induction p as [a|e|w k IH]; intros s; [eexists; apply star_refl ..|].
  destruct (IH s (w s)) as [q Hq]. exists q.
  eapply star_trans; [|exact Hq]. apply star_one, pool_run.
Qed.

Lemma pool_run_list {W} (request : prog W unit -> Prop) env ps l1 s :
  exists qs, star (pool_step request env) (l1 ++ ps, s) (l1 ++ qs, run_all ps s).
Proof.
  revert l1 s. induction ps as [|p ps IH]; intros l1 s; [exists []; apply star_refl|].
  destruct (pool_run_at request env p l1 ps s) as [q Hq].
  destruct (IH (l1 ++ [q]) (fst (run p s))) as [qs Hqs]. exists (q :: qs).
  eapply star_trans; [exact Hq|]. by rewrite <- !app_assoc in Hqs.
Qed.

(** Programs that begin with a read make it one after another, in the same world. *)
Lemma pool_read_all {W A} (request : prog W unit -> Prop) env (f : A -> W -> prog W unit) xs l1 l2 s :
  star (pool_step request env)
    (l1 ++ map (fun x => Stmt (fun w => w) (f x)) xs ++ l2, s) (l1 ++ map (fun x => f x s) xs ++ l2, s).
Proof.
  revert l1. induction xs as [|x xs IH]; intros l1; [apply star_refl|]. simpl.
  eapply star_trans; [apply star_one, pool_run|].
  specialize (IH (l1 ++ [f x s])). by rewrite <- !app_assoc in IH.
Qed.

(** ** Rely and guarantee *)

Section rely.
Context {W : Type} (Inv : W -> Prop) (R : W -> W -> Prop) `{!PreOrder R}.

(** [wp p Q s0]: started when the world was [s0] and with other programs
    moving it along [R] before each of its statements, [p] keeps [Inv], moves
    the world along [R] itself, and ends in [Q]. *)
Fixpoint wp {A} (p : prog W A) (Q : res A -> W -> Prop) (s0 : W) : Prop :=
  match p with
  | Ret a => Q (Ok a) s0
  | Raise e => Q (Throw e) s0
  | Stmt w k => forall s, R s0 s -> Inv s -> Inv (w s) /\ R s (w s) /\ wp (k s) Q (w s)
  end.

Lemma wp_mono {A} (p : prog W A) (Q Q' : res A -> W -> Prop) s0 :
  wp p Q s0 -> (forall r s, R s0 s -> Q r s -> Q' r s) -> wp p Q' s0.
Proof.
  revert s0. induction p as [a|e|w k IH]; intros s0 H HQ; simpl in *.
  - apply HQ; [reflexivity | done].
  - apply HQ; [reflexivity | done].
  - intros s Hs Hi. destruct (H s Hs Hi) as (? & ? & Hk). split_and!; try done.
    apply (IH s (w s) Hk). intros r s' Hr. apply HQ. etransitivity; [exact Hs|]. by etransitivity.
Qed.

Lemma wp_bind {A B} (f : A -> prog W B) (p : prog W A) Q s0 :
  wp p (fun r s => match r with Ok a => wp (f a) Q s | Throw e => Q (Throw e) s end) s0 ->
  wp (p ≫= f) Q s0.
Proof.
  unfold mbind, prog_mbind. revert s0. induction p as [a|e|w k IH]; intros s0 H; simpl in *; try done.
  intros s Hs Hi. destruct (H s Hs Hi) as (? & ? & Hk). split_and!; auto.
Qed.

Lemma wp_catching {A} (p : prog W A) (h : exn -> prog W A) Q s0 :
  wp p (fun r s => match r with Ok a => Q (Ok a) s | Throw e => wp (h e) Q s end) s0 ->
  wp (catching p h) Q s0.
Proof.
  revert s0. induction p as [a|e|w k IH]; intros s0 H; simpl in *; try done.
  intros s Hs Hi. destruct (H s Hs Hi) as (? & ? & Hk). split_and!; auto.
Qed.

Lemma wp_pure {A} (r : res A) Q s0 : Q r s0 -> wp (pure r) Q s0.
Proof. by destruct r. Qed.

Lemma wp_stmt {A} (f : svc W A) Q s0 :
  (forall s, R s0 s -> Inv s ->
     Inv (fst (f s)) /\ R s (fst (f s)) /\ Q (snd (f s)) (fst (f s))) ->
  wp (stmt f) Q s0.
Proof.
  intros H s Hs Hi. destruct (H s Hs Hi) as (? & ? & ?). split_and!; try done. by apply wp_pure.
Qed.

Lemma wp_asking {A} (f : W -> A) (Q : res A -> W -> Prop) s0 :
  (forall s, R s0 s -> Inv s -> Q (Ok (f s)) s) -> wp (asking f) Q s0.
Proof. intros H s Hs Hi. split_and!; [done | reflexivity | simpl; auto]. Qed.

(** A postcondition that is not wanted. *)
Definition safe {A} (p : prog W A) (s0 : W) : Prop := wp p (fun _ _ => True) s0.

Lemma wp_safe {A} (p : prog W A) Q s0 : wp p Q s0 -> safe p s0.
Proof. intros H. by eapply wp_mono. Qed.

Lemma safe_later {A} (p : prog W A) s0 s : safe p s0 -> R s0 s -> safe p s.
Proof.
  unfold safe. destruct p as [a|e|w k]; simpl; try done.
  intros H Hs s' Hs' Hi. apply H; [by etransitivity | done].
Qed.

Lemma all_later (l : list (prog W unit)) s0 s :
  Forall (fun p => safe p s0) l -> R s0 s -> Forall (fun p => safe p s) l.
Proof.
  intros Hl Hs. induction Hl as [|p l Hp Hl IH]; constructor; [by eapply safe_later | done].
Qed.

Lemma safe_discard {A} (p : prog W A) s0 : safe p s0 -> safe (discard p) s0.
Proof. intros H. apply wp_bind. eapply wp_mono; [exact H|]. by intros [a|e]. Qed.

Lemma safe_bind {A B} (f : A -> prog W B) (p : prog W A) s0 :
  safe p s0 -> (forall a s, R s0 s -> safe (f a) s) -> safe (p ≫= f) s0.
Proof.
  intros Hp Hf. apply wp_bind. eapply wp_mono; [exact Hp|].
  intros [a|e] s Hs _; [by apply Hf | done].
Qed.

Lemma safe_catching {A} (p : prog W A) (h : exn -> prog W A) s0 :
  safe p s0 -> (forall e s, R s0 s -> safe (h e) s) -> safe (catching p h) s0.
Proof.
  intros Hp Hh. apply wp_catching. eapply wp_mono; [exact Hp|].
  intros [a|e] s Hs _; [done | by apply Hh].
Qed.

Lemma safe_pure {A} (r : res A) s0 : safe (pure r) s0.
Proof. by apply wp_pure. Qed.

(** After a computation without an await, its value is known. *)
Lemma safe_pure_bind {A B} (r : res A) (f : A -> prog W B) s0 :
  (forall a, r = Ok a -> safe (f a) s0) -> safe (pure r ≫= f) s0.
Proof. intros H. destruct r as [a|e]; [by apply (H a) | done]. Qed.

Lemma safe_stmt {A} (f : svc W A) s0 :
  (forall s, R s0 s -> Inv s -> Inv (fst (f s)) /\ R s (fst (f s))) -> safe (stmt f) s0.
Proof. intros H. apply wp_stmt. intros s Hs Hi. destruct (H s Hs Hi). by split_and!. Qed.

(** After a read, what was read is known, and so is the invariant then. *)
Lemma safe_asking_bind {A B} (f : W -> A) (g : A -> prog W B) s0 :
  (forall s, R s0 s -> Inv s -> safe (g (f s)) s) -> safe (asking f ≫= g) s0.
Proof. intros H s Hs Hi. split_and!; [done | reflexivity | by apply H]. Qed.

Lemma safe_asking {A} (f : W -> A) s0 : safe (asking f) s0.
Proof. by apply wp_asking. Qed.

Lemma for_each_safe {A} (l : list A) (worker : A -> prog W unit) s s0 :
  R s s0 -> (forall x s', x ∈ l -> R s s' -> safe (worker x) s') -> safe (for_each l worker) s0.
Proof.
  revert s0. induction l as [|x l IH]; intros s0 Hs Hw; [done|].
  apply (safe_bind (fun _ => for_each l worker)); [apply Hw; [apply elem_of_cons; by left | done]|].
  intros u s1 Hs1. apply IH; [by etransitivity|]. intros y s2 Hy. apply Hw. apply elem_of_cons. by right.
Qed.

(** [ensures p P s0]: as [wp], and what [p] returns, when it returns, is in [P]. *)
Definition ensures {A} (p : prog W A) (P : A -> W -> Prop) (s0 : W) : Prop :=
  wp p (fun r s => match r with Ok a => P a s | Throw _ => True end) s0.

Lemma ensures_safe {A} (p : prog W A) P s0 : ensures p P s0 -> safe p s0.
Proof. apply wp_safe. Qed.

Lemma safe_ensures {A} (p : prog W A) s0 : safe p s0 -> ensures p (fun _ _ => True) s0.
Proof. intros H. eapply wp_mono; [exact H|]. by intros [a|e]. Qed.

Lemma ensures_mono {A} (p : prog W A) (P Q : A -> W -> Prop) s0 :
  ensures p P s0 -> (forall a s, R s0 s -> P a s -> Q a s) -> ensures p Q s0.
Proof. intros H HQ. eapply wp_mono; [exact H|]. intros [a|e] s Hs; [by apply HQ | done]. Qed.

Lemma ensures_bind {A B} (P : A -> W -> Prop) (f : A -> prog W B) (p : prog W A) Q s0 :
  ensures p P s0 -> (forall a s, R s0 s -> P a s -> ensures (f a) Q s) -> ensures (p ≫= f) Q s0.
Proof.
  intros Hp Hf. apply wp_bind. eapply wp_mono; [exact Hp|].
  intros [a|e] s Hs Ha; [by apply Hf | done].
Qed.

Lemma ensures_pure {A} (r : res A) (P : A -> W -> Prop) s0 :
  (forall a, r = Ok a -> P a s0) -> ensures (pure r) P s0.
Proof. intros H. apply wp_pure. destruct r; auto. Qed.

Lemma ensures_pure_bind {A B} (r : res A) (f : A -> prog W B) Q s0 :
  (forall a, r = Ok a -> ensures (f a) Q s0) -> ensures (pure r ≫= f) Q s0.
Proof. intros H. destruct r as [a|e]; [by apply (H a) | done]. Qed.

Lemma ensures_asking_bind {A B} (f : W -> A) (g : A -> prog W B) Q s0 :
  (forall s, R s0 s -> Inv s -> ensures (g (f s)) Q s) -> ensures (asking f ≫= g) Q s0.
Proof. intros H s Hs Hi. split_and!; [done | reflexivity | by apply H]. Qed.

Lemma ensures_stmt_bind {A B} (f : svc W A) (g : A -> prog W B) Q s0 :
  (forall s, R s0 s -> Inv s -> Inv (fst (f s)) /\ R s (fst (f s))
     /\ forall a, snd (f s) = Ok a -> ensures (g a) Q (fst (f s))) ->
  ensures (stmt f ≫= g) Q s0.
Proof.
  intros H. apply wp_bind, wp_stmt. intros s Hs Hi. destruct (H s Hs Hi) as (? & ? & Hg).
  split_and!; try done. destruct (snd (f s)) as [a|e]; [by apply Hg | done].
Qed.

Lemma ensures_catching {A} (p : prog W A) (h : exn -> prog W A) P s0 :
  ensures p P s0 -> (forall e s, R s0 s -> ensures (h e) P s) -> ensures (catching p h) P s0.
Proof.
  intros Hp Hh. apply wp_catching. eapply wp_mono; [exact Hp|].
  intros [a|e] s Hs Ha; [done | by apply Hh].
Qed.

Lemma ensures_finally {A} (p : prog W A) (c : prog W unit) (P : A -> W -> Prop) s0 :
  (forall a s s', P a s -> R s s' -> P a s') ->
  ensures p P s0 -> (forall s, R s0 s -> safe c s) -> ensures (finally p c) P s0.
Proof.
  intros HP Hp Hc. unfold finally.
  apply (ensures_bind (fun r s => match r with inl a => P a s | inr _ => True end)
           (fun r : A + exn => prog_bind (fun _ => match r with inl a => Ret a | inr e => Raise e end) c)).
  - apply ensures_catching; [|done].
    apply (ensures_bind P (fun a => Ret (inl a))); [exact Hp | done].
  - intros r s Hs Hr.
    apply (ensures_bind (fun _ _ => True) (fun _ => match r with inl a => Ret a | inr e => Raise e end)).
    + by apply safe_ensures, Hc.
    + intros _ s' Hs' _. destruct r as [a|e]; [|done]. simpl. by eapply HP.
Qed.

(** [total p Q s0]: as [wp], and [p] does not throw. *)
Definition total {A} (p : prog W A) (Q : A -> W -> Prop) (s0 : W) : Prop :=
  wp p (fun r s => match r with Ok a => Q a s | Throw _ => False end) s0.

Lemma total_mono {A} (p : prog W A) (Q Q' : A -> W -> Prop) s0 :
  total p Q s0 -> (forall a s, R s0 s -> Q a s -> Q' a s) -> total p Q' s0.
Proof. intros H HQ. eapply wp_mono; [exact H|]. intros [a|e] s Hs; [by apply HQ | done]. Qed.

Lemma total_bind {A B} (f : A -> prog W B) (p : prog W A) Q s0 :
  total p (fun a s => total (f a) Q s) s0 -> total (p ≫= f) Q s0.
Proof. intros H. apply wp_bind. exact H. Qed.

Lemma total_discard {A} (p : prog W A) (Q : W -> Prop) s0 :
  total p (fun _ => Q) s0 -> total (discard p) (fun _ => Q) s0.
Proof. intros H. apply wp_bind. exact H. Qed.

Lemma total_asking {A} (f : W -> A) (Q : A -> W -> Prop) s0 :
  (forall s, R s0 s -> Inv s -> Q (f s) s) -> total (asking f) Q s0.
Proof. intros H. apply wp_asking. exact H. Qed.

(** A loop establishes for every element what its worker establishes and the
    world keeps. *)
Lemma total_for_each {A} (l : list A) (worker : A -> prog W unit) (P : A -> W -> Prop) s s0 :
  (forall x s s', P x s -> R s s' -> P x s') -> R s s0 ->
  (forall x s', x ∈ l -> R s s' -> total (worker x) (fun _ => P x) s') ->
  total (for_each l worker) (fun _ s' => forall x, x ∈ l -> P x s') s0.
Proof.
  intros HP. revert s0. induction l as [|x l IH]; intros s0 Hs Hw.
  { intros x Hx. by apply not_elem_of_nil in Hx. }
  apply (total_bind (fun _ => for_each l worker)).
  eapply total_mono; [apply (Hw x); [by left | done]|]. intros u s1 Hs1 Hx. simpl in Hx.
  eapply total_mono; [apply IH; [by etransitivity | intros y s2 Hy; apply Hw; by right]|].
  intros u' s2 Hs2 Hl y [->|Hy]%elem_of_cons; [by eapply HP | by apply Hl].
Qed.

(** A loop keeps what its worker keeps. *)
Lemma total_for_each_keep {A} (l : list A) (worker : A -> prog W unit) (P : W -> Prop) s s0 :
  R s s0 -> P s0 -> (forall x s', x ∈ l -> R s s' -> P s' -> total (worker x) (fun _ => P) s') ->
  total (for_each l worker) (fun _ => P) s0.
Proof.
  revert s0. induction l as [|x l IH]; intros s0 Hs H0 Hw; [done|].
  apply (total_bind (fun _ => for_each l worker)).
  eapply total_mono; [by apply Hw; [left|..]|]. intros u s1 Hs1 H1.
  apply IH; [by etransitivity | done|]. intros y s2 Hy. apply Hw. by right.
Qed.

(** Alone, the precondition describes the run. *)
Lemma wp_run {A} (p : prog W A) Q s0 :
  wp p Q s0 -> Inv s0 ->
  Inv (fst (run p s0)) /\ R s0 (fst (run p s0)) /\ Q (snd (run p s0)) (fst (run p s0)).
Proof.
  revert s0. induction p as [a|e|w k IH]; intros s0 H Hi; simpl in *; [by split_and! .. |].
  destruct (H s0 ltac:(reflexivity) Hi) as (Hi' & HR & Hk).
  destruct (IH s0 (w s0) Hk Hi') as (? & ? & ?). split_and!; try done. by etransitivity.
Qed.

Lemma total_run {A} (p : prog W A) Q s0 :
  total p Q s0 -> Inv s0 ->
  exists a, snd (run p s0) = Ok a /\ Inv (fst (run p s0)) /\ R s0 (fst (run p s0)) /\ Q a (fst (run p s0)).
Proof.
  intros H Hi. destruct (wp_run p _ s0 H Hi) as (H1 & H2 & H3).
  destruct (snd (run p s0)) as [a|e]; [by exists a | done].
Qed.

(** In a pool of such programs the invariant and the relation hold between
    any two moments. *)
Lemma pool_safe (request : prog W unit -> Prop) (env : W -> W -> Prop) l0 s0 l s :
  (forall p s, request p -> Inv s -> safe p s) ->
  (forall s s', env s s' -> Inv s -> Inv s' /\ R s s') ->
  Forall (fun p => safe p s0) l0 -> Inv s0 ->
  star (pool_step request env) (l0, s0) (l, s) ->
  Forall (fun p => safe p s) l /\ Inv s /\ R s0 s.
Proof.
  intros Hreq Henv Hl0 Hi0 Hstar.
  remember (l0, s0) as c0 eqn:E0. remember (l, s) as c eqn:E. revert l s E.
  induction Hstar as [c|c0 c1 c Hstar IH Hstep]; intros l s ->.
  - simplify_eq. split_and!; [done | done | reflexivity].
  - destruct c1 as [l1 s1]. destruct (IH E0 l1 s1 eq_refl) as (Hl & Hi & HR). clear IH Hstar.
    inversion Hstep as [p1 w k p2 s2 Ea Eb|p l2 s2 Hp Ea Eb|p1 p p2 s2 Ea Eb|l2 s2 s2' He Ea Eb];
      simplify_eq.
    + apply Forall_app in Hl as [H1 H2]. apply Forall_cons_1 in H2 as [Hp H2].
      destruct (Hp s1 ltac:(reflexivity) Hi) as (Hi' & HR' & Hk). split_and!; [|done|by etransitivity].
      apply Forall_app; split.
      * by eapply all_later.
      * apply Forall_cons_2; [exact Hk | by eapply all_later].
    + split_and!; [constructor; auto | done | done].
    + apply Forall_app in Hl as [H1 H2]. apply Forall_cons_1 in H2 as [Hp H2].
      split_and!; [apply Forall_app; by split | done | done].
    + destruct (Henv _ _ He Hi) as [Hi' HR']. split_and!; [by eapply all_later | done | by etransitivity].
Qed.
End rely.

#[export] Hint Resolve wp_safe safe_later safe_discard safe_pure safe_asking : cosmos.
