(* ===== verification/Store.v ===== *)
(** The tables the payment-intents module reads and writes (prisma/schema.prisma:
    PaymentIntent, PaymentSettlement, PaymentIntentTransition, EvmDepositAddress,
    Consumer), with the statements Prisma runs on them, their unique indexes and
    their referential actions; and the classification of unique violations
    (src/src/common/prisma-errors.ts). *)

From S2P Require Import Prelude Text Units MerchantFee Intents Verifier Webhooks Programs.
From stdpp Require Import base tactics list option gmap strings.
From Stdlib Require Import ZArith Lia Ascii.

(** ** Unique violations (src/src/common/prisma-errors.ts) *)

(** The columns or the constraint a violation names; a client may name none. *)
Definition uniqueViolationColumns (err : exn) : list string :=
  match err with
  | UniqueViolation "" => []
  | UniqueViolation n => [n]
  | _ => []
  end%string.

(** [hay.includes(needle)] *)
Definition includes (hay needle : string) : bool :=
  match String.index 0 needle hay with Some _ => true | None => false end.

Definition uniqueViolationNames (err : exn) (column : string) : bool :=
  existsb (fun name => includes (toLowerCase name) (toLowerCase column)) (uniqueViolationColumns err).

(** ** Rows *)

Inductive Actor := A_api | A_validate | A_observer | A_system.

Record SettlementRow := mkSettlement {
  s_chain : string;
  s_network : string;
  s_txHash : string;
  s_intentId : option string
}.

Record TransitionRow := mkTransition {
  tr_intentId : string;
  fromStatus : PaymentIntentStatus;
  toStatus : PaymentIntentStatus;
  tr_txHash : option string;
  actor : Actor;
  tr_reason : option string
}.

Inductive EvmDepositStatus := AWAITING | FORWARDING | FORWARDED.
#[export] Instance EvmDepositStatus_eq_dec : EqDecision EvmDepositStatus.
Proof. solve_decision. Defined.

Record EvmDepositAddress := mkEvmDeposit {
  ed_id : string;
  ed_intentId : option string;
  ed_chain : string;
  ed_network : string;
  ed_address : string;
  ed_salt : string;
  ed_destination : string;
  ed_token : option string;
  ed_relayer : string;
  ed_fee : string;
  ed_feeWallet : option string;
  ed_merchantFee : option string;
  ed_status : EvmDepositStatus;
  forwardTxHash : option string;
  forwardedAmount : option string;
  forwardSentAt : option Z;
  forwardAttempts : Z;
  ed_createdAt : Z
}.

(** The columns a write to an intent sets; one left [None] keeps its value. *)
Record Patch := mkPatch {
  p_status : option PaymentIntentStatus;
  p_txHash : option string;
  p_source : option string;
  p_reference : option string;
  p_checkoutTheme : option string;
  p_chainCursor : option string;
  p_uri : option string
}.
Definition no_patch : Patch := mkPatch None None None None None None None.

(** A given value, or the column's. *)
Definition over {A} (new old : option A) : option A :=
  match new with Some a => Some a | None => old end.

Definition apply_patch (p : Patch) (i : PaymentIntent) : PaymentIntent :=
  mkPaymentIntent (id i) (consumerId i) (kind i) (chain i) (network i)
    (over (p_source p) (source i)) (destination i) (amount i) (asset i) (assetIssuer i)
    (assetDecimals i) (memo i) (chainReference i) (over (p_chainCursor p) (chainCursor i))
    (networkFee i) (msg i) (callback i) (default (status i) (p_status p)) (xdr i)
    (default (uri i) (p_uri p)) (over (p_txHash p) (txHash i)) (over (p_reference p) (reference i))
    (over (p_checkoutTheme p) (checkoutTheme i)) (merchantFee i) (expiresAt i) (createdAt i).

(** The database, the calls made to the customers module, the webhooks module's
    tables, and what the chains' verifiers answer at this moment. [minted] is the
    number of ids drawn so far. *)
Record DB := mkDB {
  intents : gmap string PaymentIntent;
  consumers : list (string * string);
  settlements : list SettlementRow;
  transitions : list TransitionRow;
  deposits : list EvmDepositAddress;
  payers : list (string * Chain * string);
  hooks : Hooks;
  ledger : PaymentVerifiers;
  minted : nat
}.

Definition set_intents (f : gmap string PaymentIntent -> gmap string PaymentIntent) (db : DB) : DB :=
  mkDB (f (intents db)) (consumers db) (settlements db) (transitions db) (deposits db)
    (payers db) (hooks db) (ledger db) (minted db).
Definition set_settlements (f : list SettlementRow -> list SettlementRow) (db : DB) : DB :=
  mkDB (intents db) (consumers db) (f (settlements db)) (transitions db) (deposits db)
    (payers db) (hooks db) (ledger db) (minted db).
Definition set_transitions (f : list TransitionRow -> list TransitionRow) (db : DB) : DB :=
  mkDB (intents db) (consumers db) (settlements db) (f (transitions db)) (deposits db)
    (payers db) (hooks db) (ledger db) (minted db).
Definition set_deposits (f : list EvmDepositAddress -> list EvmDepositAddress) (db : DB) : DB :=
  mkDB (intents db) (consumers db) (settlements db) (transitions db) (f (deposits db))
    (payers db) (hooks db) (ledger db) (minted db).
Definition add_payer (p : string * Chain * string) (db : DB) : DB :=
  mkDB (intents db) (consumers db) (settlements db) (transitions db) (deposits db)
    (payers db ++ [p]) (hooks db) (ledger db) (minted db).
Definition set_hooks (h : Hooks) (db : DB) : DB :=
  mkDB (intents db) (consumers db) (settlements db) (transitions db) (deposits db)
    (payers db) h (ledger db) (minted db).
Definition set_ledger (v : PaymentVerifiers) (db : DB) : DB :=
  mkDB (intents db) (consumers db) (settlements db) (transitions db) (deposits db)
    (payers db) (hooks db) v (minted db).
Definition mint_id (db : DB) : DB :=
  mkDB (intents db) (consumers db) (settlements db) (transitions db) (deposits db)
    (payers db) (hooks db) (ledger db) (S (minted db)).
Definition add_consumer (c : string * string) (db : DB) : DB :=
  mkDB (intents db) (consumers db ++ [c]) (settlements db) (transitions db) (deposits db)
    (payers db) (hooks db) (ledger db) (minted db).

(** ** Statements on payment_intent *)

Definition rows (db : DB) : list PaymentIntent := snd <$> map_to_list (intents db).

(** The two unique indexes: (consumerId, memo) and (consumerId, txHash), the
    second without the rows whose hash is null. *)
Definition same_memo (i r : PaymentIntent) : bool :=
  bool_decide (consumerId r = consumerId i) && bool_decide (memo r = memo i).
Definition same_hash (i r : PaymentIntent) : bool :=
  bool_decide (consumerId r = consumerId i)
  && match txHash i, txHash r with Some h, Some h' => bool_decide (h = h') | _, _ => false end.

Definition violated (i : PaymentIntent) (db : DB) : option string :=
  let others := List.filter (fun r => negb (bool_decide (id r = id i))) (rows db) in
  if existsb (same_memo i) others then Some "payment_intent_consumerId_memo_key"%string
  else if existsb (same_hash i) others then Some "payment_intent_consumerId_txHash_key"%string
  else None.

Definition write (i : PaymentIntent) : svc DB PaymentIntent := fun db =>
  match violated i db with
  | Some n => (db, Throw (UniqueViolation n))
  | None => (set_intents (fun m => <[id i := i]> m) db, Ok i)
  end.

Definition findUnique (i : string) (db : DB) : option PaymentIntent := intents db !! i.

(** The consumer behind a gateway username, and back. *)
Definition consumer_id (username : string) (db : DB) : option string :=
  snd <$> List.find (fun c => bool_decide (fst c = username)) (consumers db).
Definition consumer_username (cid : string) (db : DB) : option string :=
  fst <$> List.find (fun c => bool_decide (snd c = cid)) (consumers db).

(** [where: { id, consumer: { apisixUsername } }] *)
Definition findOwned (username i : string) (db : DB) : option PaymentIntent :=
  match intents db !! i with
  | Some r => if bool_decide (consumer_id username db = Some (consumerId r)) then Some r else None
  | None => None
  end.

Definition findByMemo (cid m : string) (db : DB) : option PaymentIntent :=
  List.find (fun r => bool_decide (consumerId r = cid) && bool_decide (memo r = m)) (rows db).

(** [update({ where: { id }, data })]: the row must exist. *)
Definition update_row (i : string) (p : Patch) : svc DB PaymentIntent := fun db =>
  match intents db !! i with
  | Some r => write (apply_patch p r) db
  | None => (db, Throw JsError)
  end.

(** [updateMany({ where: { id, status }, data })]: how many rows it changed. *)
Definition updateMany (i : string) (st : PaymentIntentStatus) (p : Patch) : svc DB nat := fun db =>
  match intents db !! i with
  | Some r =>
      if bool_decide (status r = st) then (_ ← write (apply_patch p r); mret 1%nat) db
      else (db, Ok 0%nat)
  | None => (db, Ok 0%nat)
  end.

(** [deleteMany({ where: { id, consumer, status } })], with the referential
    actions: transitions cascade, a settlement and a deposit address forget the
    intent. *)
Definition delete_row (i : string) (db : DB) : DB :=
  set_intents (delete i)
    (set_transitions (List.filter (fun t => negb (bool_decide (tr_intentId t = i))))
       (set_settlements (fmap (fun s =>
            if bool_decide (s_intentId s = Some i)
            then mkSettlement (s_chain s) (s_network s) (s_txHash s) None else s))
          (set_deposits (fmap (fun d =>
               if bool_decide (ed_intentId d = Some i)
               then mkEvmDeposit (ed_id d) None (ed_chain d) (ed_network d) (ed_address d) (ed_salt d)
                      (ed_destination d) (ed_token d) (ed_relayer d) (ed_fee d) (ed_feeWallet d)
                      (ed_merchantFee d) (ed_status d) (forwardTxHash d) (forwardedAmount d)
                      (forwardSentAt d) (forwardAttempts d) (ed_createdAt d)
               else d)) db))).

Definition deleteMany (username i : string) (st : PaymentIntentStatus) : svc DB nat := fun db =>
  match findOwned username i db with
  | Some r =>
      if bool_decide (status r = st) then (delete_row i db, Ok 1%nat) else (db, Ok 0%nat)
  | None => (db, Ok 0%nat)
  end.

(** ** Statements on the other tables *)

(** Its primary key is (chain, network, txHash); [intentId] is unique. *)
Definition settlement_create (s : SettlementRow) : svc DB unit := fun db =>
  if existsb (fun r => bool_decide (s_chain r = s_chain s) && bool_decide (s_network r = s_network s)
                       && bool_decide (s_txHash r = s_txHash s)) (settlements db)
  then (db, Throw (UniqueViolation "payment_settlement_pkey"))
  else if existsb (fun r => bool_decide (is_Some (s_intentId r)) && bool_decide (s_intentId r = s_intentId s))
            (settlements db)
  then (db, Throw (UniqueViolation "payment_settlement_intentId_key"))
  else (set_settlements (fun l => s :: l) db, Ok tt).

Definition transition_create (t : TransitionRow) : svc DB unit := fun db =>
  (set_transitions (fun l => l ++ [t]) db, Ok tt).

(** A statement of the webhooks module. *)
Definition on_hooks {A} (m : svc Hooks A) : svc DB A := fun db =>
  (set_hooks (fst (m (hooks db))) db, snd (m (hooks db))).

Section ids.
(** The ids Prisma's client draws for new rows. *)
Context (cuid : nat -> string).

(** [paymentIntent.create]: [data] of the drawn id, with the deposit address of
    the same insert. *)
Definition create_row (data : string -> PaymentIntent)
    (deposit : option (string -> EvmDepositAddress)) : svc DB PaymentIntent := fun db =>
  let i := cuid (minted db) in
  match violated (data i) db, deposit with
  | Some n, _ => (db, Throw (UniqueViolation n))
  | None, Some d =>
      if existsb (fun e => bool_decide (ed_address e = ed_address (d i))) (deposits db)
      then (db, Throw (UniqueViolation "evm_deposit_address_address_key"))
      else (mint_id (set_deposits (fun l => l ++ [d i])
              (set_intents (fun m => <[i := data i]> m) db)), Ok (data i))
  | None, None => (mint_id (set_intents (fun m => <[i := data i]> m) db), Ok (data i))
  end.

(** [ConsumerResolverService.resolve]: the upsert; the credential it also
    stores is not read by the modelled parts. *)
Definition resolve_consumer (username : string) : svc DB string := fun db =>
  match consumer_id username db with
  | Some c => (db, Ok c)
  | None => let c := cuid (minted db) in (mint_id (add_consumer (username, c) db), Ok c)
  end.
End ids.
