(* ===== verification/IntentService.v ===== *)
(** src/src/payment-intents/payment-intents.service.ts: the idempotent creates,
    reads, the guarded status transitions with their audit trail, settlement
    claims and webhooks, chain-verified settlement, and deletion. Every method is
    a program of atomic statements over the tables of Store.v. *)

From S2P Require Import Prelude Text Units MerchantFee Intents ChainAddress Rivals Verifier.
From S2P Require Import Webhooks Links PayLinks Programs Store.
From stdpp Require Import base tactics list option gmap strings sorting.
From Stdlib Require Import ZArith Lia Ascii.

Open Scope Z_scope.

(** ** What the service is built with and what each request draws *)

(** The configuration and the collaborators that answer the same for the same
    question. *)
Record Env := mkEnv {
  cuid : nat -> string;
  config_network : string;
  ttlSeconds : Z;
  checkoutUrl : string;
  apiUrl : option string;
  isValidEd25519PublicKey : string -> bool;
  keccak_hex : string -> string;
  depositAddress : string -> ForwarderTerms -> string;
  qr : string -> res string
}.

Record GatewayConsumer := mkConsumer { username : string; environment : option string }.

Record Sep7TxPayment := mkTxPayment {
  tp_source : string;
  tp_destination : string;
  tp_amount : string;
  tp_asset : ResolvedAsset;
  tp_memo : string;
  tp_msg : option string;
  tp_callback : option string;
  tp_fee : option (string * string)
}.

(** What one create reads from outside the database: random bytes, the clock,
    whether the merchant-fee wallet can receive ([assertWalletCanReceive]), the
    envelope the SDK builds over the source's account ([Sep7LinkBuilder.tx]), the
    other chains' nodes, and the draws of its webhook event. *)
Record CreateDraw := mkCreateDraw {
  drawn_memo : Z;
  now : Z;
  wallet_can_receive : res unit;
  envelope : Sep7TxPayment -> res string;
  chain_reads : ChainReads;
  link_draw : LinkDraw;
  deposit_row_id : string;
  event_draw : Draw
}.

(** src/src/common/stellar-network.ts *)
Definition resolveNetwork (env : Env) (c : GatewayConsumer) : string :=
  if bool_decide (environment c = Some "prod"%string) then "public"%string
  else if bool_decide (environment c = Some "dev"%string) then "testnet"%string
  else config_network env.

(** ** Views *)

(** [PAYMENT_INTENT_PUBLIC_SELECT]: the columns that leave the service, with the
    checkout design and the merchant fee resolved. *)
Record PublicPaymentIntent := mkPublic {
  pub_id : string;
  pub_kind : PaymentIntentKind;
  pub_status : PaymentIntentStatus;
  pub_chain : string;
  pub_network : string;
  pub_source : option string;
  pub_destination : string;
  pub_amount : option string;
  pub_asset : string;
  pub_assetIssuer : option string;
  pub_memo : string;
  pub_chainReference : option string;
  pub_networkFee : option string;
  pub_msg : option string;
  pub_callback : option string;
  pub_xdr : option string;
  pub_uri : string;
  pub_txHash : option string;
  pub_reference : option string;
  pub_checkoutTheme : string;
  pub_merchantFee : option MerchantFeeRecord;
  pub_expiresAt : option Z;
  pub_createdAt : Z
}.

Definition toPublicPaymentIntent (row : PaymentIntent) : PublicPaymentIntent :=
  mkPublic (id row) (kind row) (status row) (chain row) (network row) (source row) (destination row)
    (amount row) (asset row) (assetIssuer row) (memo row) (chainReference row) (networkFee row)
    (msg row) (callback row) (xdr row) (uri row) (txHash row) (reference row)
    (effectiveCheckoutTheme (checkoutTheme row)) (readMerchantFeeRecord (merchantFee row))
    (expiresAt row) (createdAt row).

Record PaymentIntentView := mkView { public : PublicPaymentIntent; view_qr : string }.

Record ValidationOutcome := mkOutcome {
  o_valid : bool;
  o_status : PaymentIntentStatus;
  o_reason : option Reason;
  o_paymentIntent : option PaymentIntentView
}.

(** ** Events *)

Definition status_text (s : PaymentIntentStatus) : string :=
  match s with
  | PENDING => "PENDING" | SUBMITTED => "SUBMITTED" | SUCCEEDED => "SUCCEEDED"
  | FAILED => "FAILED" | CANCELLED => "CANCELLED" | EXPIRED => "EXPIRED"
  end.

Definition json_of_option (o : option string) : json :=
  match o with Some s => JString s | None => JNull end.

(** The row as an event carries it. *)
Definition intent_json (i : PaymentIntent) : json :=
  JObject [("id", JString (id i)); ("consumerId", JString (consumerId i));
           ("kind", JString (match kind i with TX => "TX" | PAY => "PAY" end));
           ("chain", JString (chain i)); ("network", JString (network i));
           ("source", json_of_option (source i)); ("destination", JString (destination i));
           ("amount", json_of_option (amount i)); ("asset", JString (asset i));
           ("assetIssuer", json_of_option (assetIssuer i)); ("memo", JString (memo i));
           ("status", JString (status_text (status i))); ("xdr", json_of_option (xdr i));
           ("uri", JString (uri i)); ("txHash", json_of_option (txHash i));
           ("reference", json_of_option (reference i)); ("merchantFee", merchantFee i)]%string.

Definition statusEvent (s : PaymentIntentStatus) : WebhookEventType :=
  match s with
  | SUCCEEDED => PAYMENT_INTENT_SUCCEEDED
  | FAILED => PAYMENT_INTENT_FAILED
  | CANCELLED => PAYMENT_INTENT_CANCELLED
  | _ => PAYMENT_INTENT_UPDATED
  end.

Definition emit (user : string) (type : WebhookEventType) (data : PaymentIntent) (d : Draw)
    : prog DB bool :=
  stmt (on_hooks (Webhooks.emit user type (intent_json data) d)).

(** ** Errors *)

Definition transactionAlreadySettled : exn := conflict TransactionAlreadySettled.

Definition txHashConflict (err : exn) : option exn :=
  if negb (isUniqueViolation err) then None
  else
    let columns := uniqueViolationColumns err in
    if (0 <? length columns)%nat && negb (uniqueViolationNames err "txHash") then None
    else Some (conflict IdempotencyConflict).

(** [throw txHashConflict(err) ?? err] *)
Definition rethrow {A} (err : exn) : prog DB A := Raise (default err (txHashConflict err)).

(** ** Settlement and transitions *)

Definition claimSettlement (intent : PaymentIntent) (h : string) : svc DB unit :=
  c ← lift (chainOf (Some (chain intent)));
  catch
    (settlement_create
       (mkSettlement (chain_name c) (network intent) (normalizeTxId c h) (Some (id intent))))
    (fun err => if negb (isUniqueViolation err) then throw err else throw transactionAlreadySettled).

Record TransitionOptions := mkOptions {
  consumer_user : string;
  opt_actor : Actor;
  opt_reason : option string;
  opt_txHash : option string;
  opt_payer : option string;
  verifiedOnChain : option bool
}.

(** The body of [transition]'s database transaction. *)
Definition transition_body (current : PaymentIntent) (to : PaymentIntentStatus)
    (h : option string) (setSource : option string) (opts : TransitionOptions) : svc DB PaymentIntent :=
  count ← updateMany (id current) (status current)
            (mkPatch (Some to) h setSource None None None None);
  if (count =? 0)%nat then throw (conflict OperationInFlight)
  else
    _ ← (if bool_decide (to = SUCCEEDED) then claimSettlement current (default ""%string h)
         else mret tt);
    _ ← transition_create (mkTransition (id current) (status current) to h (opt_actor opts)
          (opt_reason opts));
    db ← get_world;
    lift (res_of_option JsError (findUnique (id current) db)).

(** [setSource] of [transition]. *)
Definition payer_source (current : PaymentIntent) (payer : option string) : option string :=
  if truthy payer && negb (truthy (source current)) then payer else None.

(** The state machine's refusal as the API answers it. *)
Definition checked_transition (from to : PaymentIntentStatus) (ev : TransitionEvidence) : res unit :=
  match assertTransition from to ev with
  | Throw InvalidTransitionError => Throw (badRequest InvalidStateTransition)
  | r => r
  end.

(** The call to [CustomersService.ensureForPayer] is not awaited; it is recorded. *)
Definition recordPayer (intent : PaymentIntent) (payer : option string) : prog DB unit :=
  let account := over payer (source intent) in
  match isChain (chain intent) with
  | Some c =>
      if truthy account
      then stmt (fun db => (add_payer (consumerId intent, c, default ""%string account) db, Ok tt))
      else Ret tt
  | None => Ret tt
  end.

Definition transition (intentId : string) (to : PaymentIntentStatus) (opts : TransitionOptions)
    (d : Draw) : prog DB PaymentIntent :=
  current ← asking (findUnique intentId);
  match current with
  | None => Raise notFound
  | Some current =>
      let h := over (opt_txHash opts) (txHash current) in
      _ ← pure (checked_transition (status current) to (mkEvidence h (verifiedOnChain opts)));
      let setSource := payer_source current (opt_payer opts) in
      updated ← catching (stmt (transaction (transition_body current to h setSource opts))) rethrow;
      _ ← emit (consumer_user opts) (statusEvent to) updated d;
      _ ← (if bool_decide (to = SUCCEEDED) then recordPayer updated (opt_payer opts) else Ret tt);
      Ret updated
  end.

(** A verifier's answer at this moment. *)
Definition verify_now (c : Chain) (i : PaymentIntent) (h : string) : prog DB VerificationResult :=
  r ← asking (fun db => verifyByHash (ledger db c) i h); pure r.

(** The loop over the rivals. *)
Fixpoint ask_rivals (c : Chain) (h : string) (rivals : list PaymentIntent) : prog DB unit :=
  match rivals with
  | [] => Ret tt
  | rival :: rest =>
      result ← verify_now c rival h;
      if valid result then Raise transactionAlreadySettled else ask_rivals c h rest
  end.

Definition assertOldestClaimant (intentId : string) (h : string) : prog DB unit :=
  intent ← asking (findUnique intentId);
  match intent with
  | None => Ret tt
  | Some intent =>
      c ← pure (chainOf (Some (chain intent)));
      rivals ← asking (fun db => settlementRivals c intent (rows db));
      ask_rivals c (normalizeTxId c h) rivals
  end.

Definition markSucceeded (intentId user h : string) (from : option string) (a : Actor) (d : Draw)
    : prog DB PaymentIntent :=
  _ ← assertOldestClaimant intentId h;
  transition intentId SUCCEEDED
    (mkOptions user a (Some "on-chain payment confirmed"%string) (Some h) from (Some true)) d.

Definition markFailed (intentId user : string) (h : option string) (a : Actor) (d : Draw)
    : prog DB PaymentIntent :=
  transition intentId FAILED
    (mkOptions user a (Some "on-chain payment failed or rejected"%string) h None None) d.

Definition markExpired (intentId user : string) (a : Actor) (d : Draw) : prog DB PaymentIntent :=
  transition intentId EXPIRED
    (mkOptions user a (Some "intent lifetime elapsed before settlement"%string) None None None) d.

Definition advanceCursor (intentId cursor : string) : prog DB unit :=
  discard (stmt (updateMany intentId PENDING
    (mkPatch None None None None None (Some cursor) None))).

(** ** The HTTP operations *)

Definition view (env : Env) (i : PaymentIntent) : res PaymentIntentView :=
  q ← qr env (uri i); Ok (mkView (toPublicPaymentIntent i) q).

Definition withQr (env : Env) (i : PaymentIntent) : prog DB PaymentIntentView := pure (view env i).

Definition assertOwned (user i : string) : prog DB Chain :=
  owned ← asking (findOwned user i);
  match owned with
  | None => Raise notFound
  | Some owned => pure (chainOf (Some (chain owned)))
  end.

Definition findOne (env : Env) (user i : string) : prog DB PaymentIntentView :=
  intent ← asking (findOwned user i);
  match intent with
  | None => Raise notFound
  | Some intent => withQr env intent
  end.

Definition listTransitions (user i : string) : prog DB (list TransitionRow) :=
  _ ← assertOwned user i;
  asking (fun db => List.filter (fun t => bool_decide (tr_intentId t = i)) (transitions db)).

Definition validate (env : Env) (user i h : string) (d : Draw) : prog DB ValidationOutcome :=
  intent ← asking (findOwned user i);
  match intent with
  | None => Raise notFound
  | Some intent =>
      c ← pure (chainOf (Some (chain intent)));
      h ← pure (checkedTxId c h);
      if bool_decide (status intent = SUCCEEDED) then
        v ← withQr env intent;
        Ret (mkOutcome true SUCCEEDED None (Some v))
      else
        result ← verify_now c intent h;
        if valid result then
          updated ← markSucceeded (id intent) user (default h (v_txHash result)) (payer result)
                      A_validate d;
          v ← withQr env updated;
          Ret (mkOutcome true SUCCEEDED None (Some v))
        else if reports_failure result && canTransition (status intent) FAILED then
          updated ← markFailed (id intent) user (Some h) A_validate d;
          v ← withQr env updated;
          Ret (mkOutcome false FAILED (reason result) (Some v))
        else Ret (mkOutcome false (status intent) (reason result) None)
  end.

(** The fields of the PATCH body. *)
Record UpdatePaymentIntentDto := mkUpdate {
  u_status : option PaymentIntentStatus;
  u_txHash : option string;
  u_reference : option string;
  u_checkoutTheme : option string
}.

Definition merchantFieldsOf (dto : UpdatePaymentIntentDto) : option Patch :=
  match u_reference dto, u_checkoutTheme dto with
  | None, None => None
  | r, t => Some (mkPatch None None None r t None None)
  end.

(** [{ txHash, ...fields }] *)
Definition with_hash (h : string) (fields : option Patch) : Patch :=
  let f := default no_patch fields in
  mkPatch None (Some h) None (p_reference f) (p_checkoutTheme f) None None.

Definition patchTxHash (i h : string) (fields : option Patch) : prog DB PaymentIntent :=
  current ← asking (findUnique i);
  match current with
  | None => Raise notFound
  | Some current =>
      if bool_decide (txHash current = Some h) then stmt (update_row i (with_hash h fields))
      else if isTerminalStatus (status current) then Raise (badRequest InvalidStateTransition)
      else
        count ← catching (stmt (updateMany i (status current) (with_hash h fields))) rethrow;
        if (count =? 0)%nat then Raise (conflict OperationInFlight)
        else found ← asking (findUnique i); pure (res_of_option JsError found)
  end.

Definition settleFromApi (env : Env) (user i : string) (dto : UpdatePaymentIntentDto) (d : Draw)
    : prog DB PaymentIntentView :=
  current ← asking (findUnique i);
  match current with
  | None => Raise notFound
  | Some current =>
      _ ← pure (checked_transition (status current) SUCCEEDED (mkEvidence (u_txHash dto) (Some true)));
      h ← pure (res_of_option JsError (u_txHash dto));
      outcome ← validate env user i (trim h) d;
      if negb (o_valid outcome) then Raise (badRequest TransactionRejected)
      else
        match merchantFieldsOf dto with
        | Some fields => patched ← stmt (update_row i fields); withQr env patched
        | None => pure (res_of_option JsError (o_paymentIntent outcome))
        end
  end.

Definition update (env : Env) (user i : string) (dto : UpdatePaymentIntentDto) (d : Draw)
    : prog DB PaymentIntentView :=
  c ← assertOwned user i;
  h ← pure (match u_txHash dto with
            | Some h => h ← checkedTxId c h; Ok (Some h)
            | None => Ok None
            end);
  let dto := mkUpdate (u_status dto) h (u_reference dto) (u_checkoutTheme dto) in
  match u_status dto with
  | Some SUCCEEDED => settleFromApi env user i dto d
  | Some to =>
      updated ← transition i to
                  (mkOptions user A_api (Some "PATCH /payment-intents/:id"%string) (u_txHash dto)
                     None None) d;
      match merchantFieldsOf dto with
      | Some fields => patched ← stmt (update_row i fields); withQr env patched
      | None => withQr env updated
      end
  | None =>
      updated ← (match u_txHash dto with
                 | Some h => patchTxHash i h (merchantFieldsOf dto)
                 | None => stmt (update_row i (default no_patch (merchantFieldsOf dto)))
                 end);
      _ ← emit user PAYMENT_INTENT_UPDATED updated d;
      withQr env updated
  end.

Definition remove (user i : string) (d : Draw) : prog DB string :=
  existing ← asking (findOwned user i);
  match existing with
  | None => Raise notFound
  | Some existing =>
      if bool_decide (status existing = SUCCEEDED) then Raise (badRequest InvalidStateTransition)
      else
        count ← stmt (deleteMany user i (status existing));
        if (count =? 0)%nat then Raise (conflict OperationInFlight)
        else _ ← emit user PAYMENT_INTENT_DELETED existing d; Ret i
  end.

(** The list: the consumer's rows on its key's network, newest first. *)
Record QueryPaymentIntents := mkQuery {
  q_status : option PaymentIntentStatus;
  q_chain : option string;
  q_createdFrom : option Z;
  q_take : nat;
  q_skip : nat
}.

Definition newer_first (a b : PaymentIntent) : Prop := createdAt b <= createdAt a.
#[export] Instance newer_first_dec : RelDecision newer_first.
Proof. intros a b. unfold newer_first. apply _. Defined.

Definition listed (net : string) (cid : option string) (q : QueryPaymentIntents) (r : PaymentIntent) : bool :=
  bool_decide (cid = Some (consumerId r)) && bool_decide (network r = net)
  && match q_status q with Some s => bool_decide (status r = s) | None => true end
  && match q_chain q with Some c => bool_decide (chain r = c) | None => true end
  && match q_createdFrom q with Some t => t <=? createdAt r | None => true end.

Definition where_clause (env : Env) (consumer : GatewayConsumer) (q : QueryPaymentIntents) (db : DB)
    : list PaymentIntent :=
  List.filter (listed (resolveNetwork env consumer) (consumer_id (username consumer) db) q) (rows db).

Definition findAll (env : Env) (consumer : GatewayConsumer) (q : QueryPaymentIntents)
    : prog DB (list PublicPaymentIntent * nat) :=
  page ← asking (fun db => take (q_take q) (drop (q_skip q)
           (merge_sort newer_first (where_clause env consumer q db))));
  total ← asking (fun db => length (where_clause env consumer q db));
  Ret (List.map toPublicPaymentIntent page, total).

(** ** Creates *)

(** [encodeURIComponent]: the marks it leaves alone beside letters and digits. *)
Definition uri_plain (a : ascii) : bool :=
  is_digit a || ((65 <=? code a) && (code a <=? 90)) || ((97 <=? code a) && (code a <=? 122))
  || bool_decide (a ∈ ["-"; "_"; "."; "!"; "~"; "*"; "'"; "("; ")"]%char).

Fixpoint encodeURIComponent (s : string) : string :=
  match s with
  | EmptyString => EmptyString
  | String a r =>
      if uri_plain a then String a (encodeURIComponent r)
      else String "%" (String (hex_digit (code a / 16)) (String (hex_digit (code a mod 16))
             (encodeURIComponent r)))
  end.

Definition solanaPayLink (env : Env) (i : string) : string :=
  ("solana:" +:+ encodeURIComponent
     (default "undefined" (apiUrl env) +:+ "/v1/payment-links/" +:+ i +:+ "/solana-pay"))%string.

Definition checkoutLink (env : Env) (i : string) : string :=
  (checkoutUrl env +:+ "/" +:+ i)%string.

(** The columns of a new row beside its terms. *)
Record NewColumns := mkColumns {
  n_consumerId : string;
  n_memo : string;
  n_xdr : option string;
  n_uri : string;
  n_checkoutTheme : option string;
  n_merchantFee : json;
  n_assetDecimals : option nat;
  n_chainReference : option string;
  n_chainCursor : option string;
  n_networkFee : option string
}.

(** [withTtl], with the defaults of the columns a create leaves out. *)
Definition new_row (env : Env) (terms : PaymentIntentTerms) (n : NewColumns) (at_ : Z) (i : string)
    : PaymentIntent :=
  mkPaymentIntent i (n_consumerId n) (t_kind terms) (t_chain terms) (t_network terms) (t_source terms)
    (t_destination terms) (t_amount terms) (t_asset terms) (t_assetIssuer terms) (n_assetDecimals n)
    (n_memo n) (n_chainReference n) (n_chainCursor n) (n_networkFee n) (t_msg terms) (t_callback terms)
    PENDING (n_xdr n) (n_uri n) None None (n_checkoutTheme n) (n_merchantFee n)
    (Some (at_ + ttlSeconds env * 1000)) at_.

Definition persist (env : Env) (terms : PaymentIntentTerms) (n : NewColumns) (at_ : Z)
    (deposit : option (string -> EvmDepositAddress)) : prog DB (option PaymentIntent) :=
  catching
    (i ← stmt (create_row (cuid env) (new_row env terms n at_) deposit); Ret (Some i))
    (fun err => if isUniqueViolation err then Ret None else Raise err).

(** The stored intent, or the 409, of a create that landed on an existing memo. *)
Definition replayOf (env : Env) (stored : option PaymentIntent) (terms : PaymentIntentTerms)
    (merchant : option MerchantFeeTerms) : res PaymentIntentView :=
  match stored with
  | None => Throw (conflict OperationInFlight)
  | Some stored =>
      if negb (isSameIntentRequest (terms_of stored) terms)
         || negb (sameMerchantFee (merchantFee stored) merchant
                    (default STELLAR_DECIMALS (assetDecimals stored)))
      then Throw (conflict IdempotencyConflict)
      else view env stored
  end.

Definition merchantFeeColumn (r : option MerchantFeeRecord) : json :=
  match r with Some r => record_json r | None => JNull end.

Record StellarMerchantFee := mkStellarFee {
  sm_terms : MerchantFeeTerms;
  sm_record : MerchantFeeRecord;
  sm_destinationAmount : string
}.

Definition stellarMerchantFee (env : Env) (dto : option MerchantFeeDto) (asset : ResolvedAsset)
    (amount : string) (others : list string) : res (option StellarMerchantFee) :=
  terms ← resolveMerchantFee dto STELLAR_DECIMALS
            (CHAIN_ADDRESS_RULES (isValidEd25519PublicKey env) (keccak_hex env) stellar);
  match terms with
  | None => Ok None
  | Some terms =>
      if bool_decide (wallet terms ∈ others) then Throw (badRequest ValidationFailed)
      else
        a ← toStroops amount;
        let split := splitMerchantFee a (Some terms) in
        _ ← assertMerchantFeeCovered split (Some terms);
        let record := merchantFeeRecord terms (fee split) STELLAR_DECIMALS (asset_code asset) in
        d ← fromStroops (net split);
        Ok (Some (mkStellarFee terms record d))
  end.

(** The fields of the two create bodies; [c_source] is the TX create's. *)
Record CreatePaymentIntentDto := mkCreate {
  c_chain : option Chain;
  c_source : string;
  c_destination : string;
  c_amount : option string;
  c_assetCode : option string;
  c_assetIssuer : option string;
  c_memo : option string;
  c_msg : option string;
  c_callback : option string;
  c_checkoutTheme : option string;
  c_merchantFee : option MerchantFeeDto
}.

Definition stellar_terms (k : PaymentIntentKind) (net : string) (src : option string)
    (dto : CreatePaymentIntentDto) (asset : ResolvedAsset) : PaymentIntentTerms :=
  mkTerms k "stellar" net src (c_destination dto) (c_amount dto) (asset_code asset)
    (asset_issuer asset) (c_msg dto) (c_callback dto).

Definition createTx (env : Env) (consumer : GatewayConsumer) (amount : string)
    (dto : CreatePaymentIntentDto) (d : CreateDraw) : prog DB PaymentIntentView :=
  let net := resolveNetwork env consumer in
  cid ← stmt (resolve_consumer (cuid env) (username consumer));
  asset ← pure (resolveAsset (c_assetCode dto) (c_assetIssuer dto));
  m ← pure (resolveOrMintMemoId (drawn_memo d) (c_memo dto));
  let terms := mkTerms TX "stellar" net (Some (c_source dto)) (c_destination dto) (Some amount)
                 (asset_code asset) (asset_issuer asset) (c_msg dto) (c_callback dto) in
  merchant ← pure (stellarMerchantFee env (c_merchantFee dto) asset amount
                     [c_destination dto; c_source dto]);
  existing ← asking (findByMemo cid m);
  match existing with
  | Some _ => pure (replayOf env existing terms (sm_terms <$> merchant))
  | None =>
      _ ← pure (match merchant with Some _ => wallet_can_receive d | None => Ok tt end);
      xdr ← pure (envelope d (mkTxPayment (c_source dto) (c_destination dto)
                    (default amount (sm_destinationAmount <$> merchant)) asset m (c_msg dto)
                    (c_callback dto)
                    ((fun s => (wallet (sm_terms s), rec_amount (sm_record s))) <$> merchant)));
      let n := mkColumns cid m (Some xdr) (sep7TxUri xdr (c_msg dto) (c_callback dto))
                 (c_checkoutTheme dto) (merchantFeeColumn (sm_record <$> merchant)) None None None None in
      intent ← persist env terms n (now d) None;
      match intent with
      | None =>
          stored ← asking (findByMemo cid m);
          pure (replayOf env stored terms (sm_terms <$> merchant))
      | Some intent =>
          _ ← emit (username consumer) PAYMENT_INTENT_CREATED intent (event_draw d);
          withQr env intent
      end
  end.

(** The row an insert of a Monad deposit adds beside its intent. *)
Definition deposit_row (c : Chain) (net : string) (d : CreateDraw) (t : EvmDepositTerms) (i : string)
    : EvmDepositAddress :=
  mkEvmDeposit (deposit_row_id d) (Some i) (chain_name c) net (dep_address t) (dep_salt t)
    (dep_destination t) (dep_token t) (dep_relayer t) (toString (dep_fee t))
    (fst <$> dep_merchantFee t) (toString <$> (snd <$> dep_merchantFee t)) AWAITING None None None 0
    (now d).

Definition createPayOnChain (env : Env) (consumer : GatewayConsumer) (c : Chain)
    (dto : CreatePaymentIntentDto) (d : CreateDraw) : prog DB PaymentIntentView :=
  _ ← pure (throw_if (bool_decide (is_Some (c_callback dto))) (badRequest ValidationFailed));
  _ ← pure (throw_if (bool_decide (is_Some (c_merchantFee dto)) && bool_decide (c_amount dto = None))
        (badRequest ValidationFailed));
  _ ← pure (throw_if (bool_decide (c = solana) && bool_decide (is_Some (c_merchantFee dto))
                && negb (truthy (apiUrl env))) (unavailable Misconfigured));
  let net := resolveNetwork env consumer in
  cid ← stmt (resolve_consumer (cuid env) (username consumer));
  m ← pure (resolveOrMintMemoId (drawn_memo d) (c_memo dto));
  let '(dest, code, issuer) :=
    normalize_request (isValidEd25519PublicKey env) (keccak_hex env) c (c_destination dto)
      (c_assetCode dto) (c_assetIssuer dto) in
  let terms := mkTerms PAY (chain_name c) net None dest (c_amount dto) code issuer (c_msg dto) None in
  existing ← asking (findByMemo cid m);
  match existing with
  | Some stored =>
      merchant ← pure (resolveMerchantFee (c_merchantFee dto)
        (default (NATIVE_DECIMALS c) (assetDecimals stored))
        (CHAIN_ADDRESS_RULES (isValidEd25519PublicKey env) (keccak_hex env) c));
      pure (replayOf env existing terms merchant)
  | None =>
      link ← pure (build (isValidEd25519PublicKey env) (keccak_hex env) (depositAddress env)
                     (chain_reads d) c
                     (mkChainPayRequest net (c_destination dto) (c_amount dto) (c_assetCode dto)
                        (c_assetIssuer dto) m (c_msg dto) (c_merchantFee dto)) (link_draw d));
      let transactionRequest := bool_decide (c = solana) && bool_decide (is_Some (l_merchantFee link)) in
      let n := mkColumns cid m None (if transactionRequest then ""%string else l_uri link)
                 (c_checkoutTheme dto) (merchantFeeColumn (snd <$> l_merchantFee link))
                 (l_assetDecimals link) (l_chainReference link) (l_chainCursor link)
                 (l_networkFee link) in
      intent ← persist env terms n (now d) (deposit_row c net d <$> l_deposit link);
      match intent with
      | None =>
          stored ← asking (findByMemo cid m);
          pure (replayOf env stored terms (fst <$> l_merchantFee link))
      | Some intent =>
          intent ← (if transactionRequest
                    then stmt (update_row (id intent)
                           (mkPatch None None None None None None (Some (solanaPayLink env (id intent)))))
                    else Ret intent);
          _ ← emit (username consumer) PAYMENT_INTENT_CREATED intent (event_draw d);
          withQr env intent
      end
  end.

Definition createPay (env : Env) (consumer : GatewayConsumer) (dto : CreatePaymentIntentDto)
    (d : CreateDraw) : prog DB PaymentIntentView :=
  match default DEFAULT_CHAIN (c_chain dto) with
  | stellar =>
      let net := resolveNetwork env consumer in
      cid ← stmt (resolve_consumer (cuid env) (username consumer));
      asset ← pure (resolveAsset (c_assetCode dto) (c_assetIssuer dto));
      m ← pure (resolveOrMintMemoId (drawn_memo d) (c_memo dto));
      let terms := stellar_terms PAY net None dto asset in
      _ ← pure (throw_if (bool_decide (is_Some (c_merchantFee dto)) && bool_decide (c_amount dto = None))
            (badRequest ValidationFailed));
      merchant ← pure (match c_amount dto with
                       | None => Ok None
                       | Some a => stellarMerchantFee env (c_merchantFee dto) asset a [c_destination dto]
                       end);
      existing ← asking (findByMemo cid m);
      match existing with
      | Some _ => pure (replayOf env existing terms (sm_terms <$> merchant))
      | None =>
          _ ← pure (match merchant with Some _ => wallet_can_receive d | None => Ok tt end);
          let link := match merchant with
                      | Some _ => ""%string
                      | None => sep7PayUri (mkSep7PayTerms (c_destination dto) (c_amount dto) asset m
                                              None (c_msg dto) (c_callback dto))
                      end in
          let n := mkColumns cid m None link (c_checkoutTheme dto)
                     (merchantFeeColumn (sm_record <$> merchant)) None None None None in
          intent ← persist env terms n (now d) None;
          match intent with
          | None =>
              stored ← asking (findByMemo cid m);
              pure (replayOf env stored terms (sm_terms <$> merchant))
          | Some intent =>
              intent ← (match merchant with
                        | Some _ => stmt (update_row (id intent)
                            (mkPatch None None None None None None (Some (checkoutLink env (id intent)))))
                        | None => Ret intent
                        end);
              _ ← emit (username consumer) PAYMENT_INTENT_CREATED intent (event_draw d);
              withQr env intent
          end
      end
  | c => createPayOnChain env consumer c dto d
  end.
