(* ===== verification/IntentSafety.v ===== *)
(** What holds of the tables whatever the requests do and however their
    statements interleave: one settled intent per payment and one payment per
    settled intent, settlements backed by a verifier, settled intents that stay,
    and an audit trail that replays. *)

From S2P Require Import Prelude Text Units MerchantFee Intents ChainAddress Rivals Verifier.
From S2P Require Import Webhooks Links PayLinks Programs Store IntentService.
From stdpp Require Import base tactics list option gmap strings.
From Stdlib Require Import ZArith Lia Ascii.

Open Scope Z_scope.

(** ** Patches *)

Definition then_patch (q p : Patch) : Patch :=
  mkPatch (over (p_status q) (p_status p)) (over (p_txHash q) (p_txHash p))
    (over (p_source q) (p_source p)) (over (p_reference q) (p_reference p))
    (over (p_checkoutTheme q) (p_checkoutTheme p)) (over (p_chainCursor q) (p_chainCursor p))
    (over (p_uri q) (p_uri p)).

Lemma over_over {A} (a b c : option A) : over a (over b c) = over (over a b) c.
Proof. by destruct a. Qed.

Lemma default_default {A} (a b : option A) x : default (default x b) a = default x (over a b).
Proof. by destruct a. Qed.

Lemma apply_then_patch q p i : apply_patch q (apply_patch p i) = apply_patch (then_patch q p) i.
Proof.
  unfold apply_patch at 1. unfold apply_patch at 2, then_patch.
  cbn -[over default]. by rewrite !over_over, !default_default.
Qed.

Lemma apply_no_patch i : apply_patch no_patch i = i.
Proof. by destruct i. Qed.

(** [r'] is [r] after some writes. *)
Definition same_intent (r r' : PaymentIntent) : Prop := exists p, r' = apply_patch p r.

#[export] Instance same_intent_preorder : PreOrder same_intent.
Proof.
  split; [intros r; exists no_patch; by rewrite apply_no_patch|].
  intros a b c [p ->] [q ->]. exists (then_patch q p). by rewrite apply_then_patch.
Qed.

Lemma same_intent_columns r r' :
  same_intent r r' ->
  id r' = id r /\ consumerId r' = consumerId r /\ memo r' = memo r /\ chain r' = chain r
  /\ network r' = network r /\ destination r' = destination r /\ amount r' = amount r
  /\ merchantFee r' = merchantFee r /\ createdAt r' = createdAt r.
Proof. intros [p ->]. by split_and!. Qed.

(** ** Unique indexes *)

Lemma elem_of_rows r db : r ∈ rows db <-> exists i, intents db !! i = Some r.
Proof.
  unfold rows. rewrite list_elem_of_fmap. split.
  - intros ([i r'] & -> & H). exists i. by apply elem_of_map_to_list.
  - intros (i & H). exists (i, r). split; [done|]. by apply elem_of_map_to_list.
Qed.

Lemma elem_of_lfilter {A} (p : A -> bool) l x : x ∈ List.filter p l <-> x ∈ l /\ p x = true.
Proof. rewrite !list_elem_of_In. apply filter_In. Qed.

Lemma violated_None i db :
  violated i db = None ->
  forall j r, intents db !! j = Some r -> id r <> id i ->
    (consumerId r = consumerId i -> memo r <> memo i)
    /\ (forall h, consumerId r = consumerId i -> txHash i = Some h -> txHash r <> Some h).
Proof.
  unfold violated. intros H j r Hr Hne.
  destruct (existsb (same_memo i) _) eqn:Em; [done|]. destruct (existsb (same_hash i) _) eqn:Eh; [done|].
  rewrite existsb_false_forall in Em, Eh.
  assert (r ∈ List.filter (fun r => negb (bool_decide (id r = id i))) (rows db)) as Hin.
  { apply elem_of_lfilter. split; [apply elem_of_rows; eauto|]. by rewrite bool_decide_false. }
  specialize (Em r Hin). specialize (Eh r Hin). unfold same_memo in Em. unfold same_hash in Eh. split.
  - intros Hc Hm. by rewrite !bool_decide_true in Em.
  - intros h Hc Hi Hh. rewrite bool_decide_true, Hi, Hh, bool_decide_true in Eh; done.
Qed.

(** ** What a statement may do to the rows another request has read *)

Section safety.
Context (cuid : nat -> string).
(** [vouched c i h]: the verifier of chain [c] confirms that [h] pays [i]. *)
Context (vouched attempts : Chain -> PaymentIntent -> string -> Prop).

Definition lawful (v : PaymentVerifiers) : Prop :=
  forall c, VerifierLaws c (v c) (vouched c) (attempts c).

Definition claim_key (s : SettlementRow) : string * string * string :=
  (s_chain s, s_network s, s_txHash s).

Record evolves (s s' : DB) : Prop := {
  ev_minted : (minted s <= minted s')%nat;
  ev_rows : forall i r', intents s' !! i = Some r' ->
    (exists r, intents s !! i = Some r /\ same_intent r r')
    \/ (exists n, i = cuid n /\ (minted s <= n)%nat);
  ev_settled : forall i r, intents s !! i = Some r -> status r = SUCCEEDED ->
    exists r', intents s' !! i = Some r' /\ status r' = SUCCEEDED;
  ev_claims : claim_key <$> settlements s ⊆ claim_key <$> settlements s'
}.

Lemma evolves_preorder : PreOrder evolves.
Proof.
  split.
  - intros s. split; [done | | eauto | done]. intros i r Hr. left. exists r. split; [done|reflexivity].
  - intros a b c [Hm Hr Hs Hc] [Hm' Hr' Hs' Hc']. split; [lia | | | set_solver].
    + intros i r'' H''. destruct (Hr' i r'' H'') as [(r' & H' & S')|(n & -> & Hn)].
      * destruct (Hr i r' H') as [(r & H & S)|(n & -> & Hn)]; [left|right; eauto].
        exists r. split; [done|]. by etransitivity.
      * right. exists n. split; [done | lia].
    + intros i r H E. destruct (Hs i r H E) as (r' & H' & E'). eauto.
Qed.

#[local] Existing Instance evolves_preorder.

(** The audit rows of one intent, and the path they spell. *)
Definition audit (i : string) (s : DB) : list TransitionRow :=
  List.filter (fun t => bool_decide (tr_intentId t = i)) (transitions s).

Fixpoint trail (from : PaymentIntentStatus) (l : list TransitionRow) (to : PaymentIntentStatus) : Prop :=
  match l with
  | [] => from = to
  | t :: l => fromStatus t = from /\ canTransition from (toStatus t) = true
              /\ (toStatus t = SUCCEEDED -> hasTxHash (tr_txHash t) = true)
              /\ trail (toStatus t) l to
  end.

Record valid_db (s : DB) : Prop := {
  v_ids : forall i r, intents s !! i = Some r ->
    id r = i /\ exists n, i = cuid n /\ (n < minted s)%nat;
  v_memo : forall i j r r', intents s !! i = Some r -> intents s !! j = Some r' ->
    consumerId r = consumerId r' -> memo r = memo r' -> i = j;
  v_hash : forall i j r r' h, intents s !! i = Some r -> intents s !! j = Some r' ->
    consumerId r = consumerId r' -> txHash r = Some h -> txHash r' = Some h -> i = j;
  v_claim_keys : NoDup (claim_key <$> settlements s);
  v_claim_intents : NoDup (omap s_intentId (settlements s));
  v_claims : forall c i, c ∈ settlements s -> s_intentId c = Some i ->
    exists r r0 ch h, intents s !! i = Some r /\ status r = SUCCEEDED
      /\ s_chain c = chain_name ch /\ chain r = chain_name ch /\ s_network c = network r
      /\ same_intent r0 r /\ vouched ch r0 h /\ s_txHash c = normalizeTxId ch h;
  v_settled : forall i r, intents s !! i = Some r -> status r = SUCCEEDED ->
    exists c, c ∈ settlements s /\ s_intentId c = Some i;
  v_audit : forall i r, intents s !! i = Some r -> trail PENDING (audit i s) (status r);
  v_audit_minted : forall t, t ∈ transitions s ->
    exists n, tr_intentId t = cuid n /\ (n < minted s)%nat;
  v_ledger : lawful (ledger s)
}.

Lemma trail_snoc from l mid t :
  trail from l mid -> fromStatus t = mid -> canTransition mid (toStatus t) = true ->
  (toStatus t = SUCCEEDED -> hasTxHash (tr_txHash t) = true) ->
  trail from (l ++ [t]) (toStatus t).
Proof.
  revert from. induction l as [|u l IH]; intros from H Hf Hc Hh; simpl in *.
  - subst. by split_and!.
  - destruct H as (? & ? & ? & ?). split_and!; auto.
Qed.

(** *** Statements that leave these tables alone *)

Lemma ok_elsewhere s s' :
  intents s' = intents s -> settlements s' = settlements s -> transitions s' = transitions s ->
  (minted s <= minted s')%nat -> lawful (ledger s') -> valid_db s -> valid_db s' /\ evolves s s'.
Proof.
  intros Ei Es Et Hm Hl [? ? ? ? ? ? ? ? ? ?]. split.
  - split; unfold audit; rewrite ?Ei, ?Es, ?Et; try done.
    + intros i r Hr. destruct (v_ids0 i r Hr) as (? & n & ? & ?). split; [done|].
      exists n. split; [done | lia].
    + intros t Ht. destruct (v_audit_minted0 t Ht) as (n & ? & ?). exists n. split; [done | lia].
  - split; rewrite ?Ei, ?Es; try done; [|eauto].
    intros i r Hr. left. exists r. split; [done | reflexivity].
Qed.

(** *** Reads stay true *)

Context `{!Inj (=) (=) cuid}.

Lemma read_later s0 s i r0 r :
  valid_db s0 -> evolves s0 s -> intents s0 !! i = Some r0 -> intents s !! i = Some r ->
  same_intent r0 r.
Proof.
  intros V [_ Hr _ _] H0 H. destruct (Hr i r H) as [(r1 & H1 & S)|(n & -> & Hn)].
  - by simplify_eq.
  - destruct (v_ids _ V _ _ H0) as (_ & m & E & Hm). apply (inj cuid) in E. lia.
Qed.

(** *** Writes to one row *)

Lemma write_fst i s :
  fst (write i s) = match violated i s with
                    | Some _ => s
                    | None => set_intents (fun m => <[id i := i]> m) s
                    end.
Proof. unfold write. by destruct (violated i s). Qed.

Lemma ids_insert s i r r' :
  valid_db s -> intents s !! i = Some r -> same_intent r r' ->
  forall j x, <[i := r']> (intents s) !! j = Some x ->
    id x = j /\ exists n, j = cuid n /\ (n < minted s)%nat.
Proof.
  intros V Hi S j x. destruct (decide (i = j)) as [<-|Hne].
  - rewrite lookup_insert_eq. intros [= <-]. destruct (same_intent_columns _ _ S) as (-> & _).
    by apply (v_ids _ V).
  - rewrite lookup_insert_ne by done. apply (v_ids _ V).
Qed.

Lemma memo_insert s i r r' :
  valid_db s -> intents s !! i = Some r -> same_intent r r' -> violated r' s = None ->
  forall j k x y, <[i := r']> (intents s) !! j = Some x -> <[i := r']> (intents s) !! k = Some y ->
    consumerId x = consumerId y ->
    (memo x = memo y -> j = k)
    /\ (forall h, txHash x = Some h -> txHash y = Some h -> j = k).
Proof.
  intros V Hi S Hv. pose proof (violated_None _ _ Hv) as Hv'.
  destruct (same_intent_columns _ _ S) as (Eid & _). destruct (v_ids _ V _ _ Hi) as (Eid' & _).
  assert (forall k y, k <> i -> intents s !! k = Some y -> consumerId r' = consumerId y ->
    memo r' <> memo y /\ (forall h, txHash r' = Some h -> txHash y <> Some h)) as Hother.
  { intros k y Hk Hy Hc. destruct (v_ids _ V _ _ Hy) as (Ey & _).
    destruct (Hv' k y Hy ltac:(congruence)) as [Hm Hh]. split; [|intros h; auto]. intros E. by apply Hm. }
  intros j k x y Hx Hy Hc. destruct (decide (i = j)) as [<-|Hj], (decide (i = k)) as [<-|Hk]; [done| | |].
  - rewrite lookup_insert_eq in Hx. rewrite lookup_insert_ne in Hy by done. simplify_eq.
    destruct (Hother k y ltac:(done) Hy Hc) as [Hm Hh]. split; [done|]. intros h Hx Hy'. by destruct (Hh h Hx).
  - rewrite lookup_insert_eq in Hy. rewrite lookup_insert_ne in Hx by done. simplify_eq.
    destruct (Hother j x ltac:(done) Hx ltac:(done)) as [Hm Hh]. split; [done|].
    intros h Hx' Hy. by destruct (Hh h Hy).
  - rewrite lookup_insert_ne in Hx, Hy by done. split.
    + by eapply (v_memo _ V).
    + intros h. by eapply (v_hash _ V).
Qed.

Lemma patch_ok s i r p :
  valid_db s -> intents s !! i = Some r -> p_status p = None ->
  valid_db (fst (write (apply_patch p r) s)) /\ evolves s (fst (write (apply_patch p r) s)).
Proof.
  intros V Hi Hp. rewrite write_fst. destruct (violated _ s) eqn:Hv; [by split|].
  set (r' := apply_patch p r). assert (same_intent r r') as S by by exists p.
  assert (status r' = status r) as Est by (unfold r'; simpl; by rewrite Hp).
  destruct (same_intent_columns _ _ S) as (Eid & _ & _ & Ech & Enet & _).
  destruct (v_ids _ V _ _ Hi) as (Er & _). rewrite Eid, Er.
  pose proof (ids_insert s i r r' V Hi S) as Hids.
  pose proof (memo_insert s i r r' V Hi S Hv) as Hmemo.
  split.
  - destruct V as [? ? ? ? ? ? ? ? ? ?]. split; unfold audit; simpl; try done.
    + intros j k x y Hx Hy Hc. by apply (proj1 (Hmemo j k x y Hx Hy Hc)).
    + intros j k x y h Hx Hy Hc. by apply (proj2 (Hmemo j k x y Hx Hy Hc)).
    + intros c j Hc Hj. destruct (v_claims0 c j Hc Hj) as (x & x0 & ch & h & Hx & ? & ? & ? & ? & ? & ? & ?).
      destruct (decide (i = j)) as [<-|Hne].
      * rewrite lookup_insert_eq. simplify_eq. exists r', x0, ch, h. split_and!; try congruence.
        by etransitivity.
      * rewrite lookup_insert_ne by done. eauto 12.
    + intros j x. destruct (decide (i = j)) as [<-|Hne].
      * rewrite lookup_insert_eq. intros [= <-] E. apply (v_settled0 i r Hi). congruence.
      * rewrite lookup_insert_ne by done. apply v_settled0.
    + intros j x. destruct (decide (i = j)) as [<-|Hne].
      * rewrite lookup_insert_eq. intros [= <-]. rewrite Est. by apply v_audit0.
      * rewrite lookup_insert_ne by done. apply v_audit0.
  - split; simpl; try done.
    + intros j x. destruct (decide (i = j)) as [<-|Hne].
      * rewrite lookup_insert_eq. intros [= <-]. left. eauto.
      * rewrite lookup_insert_ne by done. intros Hx. left. exists x. split; [done|reflexivity].
    + intros j x Hx E. destruct (decide (i = j)) as [<-|Hne].
      * rewrite lookup_insert_eq. simplify_eq. exists r'. split; [done|congruence].
      * rewrite lookup_insert_ne by done. eauto.
Qed.

Lemma update_row_ok s i p :
  valid_db s -> p_status p = None ->
  valid_db (fst (update_row i p s)) /\ evolves s (fst (update_row i p s)).
Proof.
  intros V Hp. unfold update_row. destruct (intents s !! i) as [r|] eqn:Hi; [|by split].
  by apply (patch_ok s i r p).
Qed.

Lemma updateMany_ok s i st p :
  valid_db s -> p_status p = None ->
  valid_db (fst (updateMany i st p s)) /\ evolves s (fst (updateMany i st p s)).
Proof.
  intros V Hp. unfold updateMany. destruct (intents s !! i) as [r|] eqn:Hi; [|by split].
  case_bool_decide; [|by split]. pose proof (patch_ok s i r p V Hi Hp) as H'.
  unfold mbind, svc_bind. by destruct (write (apply_patch p r) s) as [s' [x|e]].
Qed.

(** *** The transition *)

Lemma settlement_create_Ok c s s' u :
  settlement_create c s = (s', Ok u) ->
  s' = set_settlements (fun l => c :: l) s
  /\ ~ (claim_key c ∈ claim_key <$> settlements s)
  /\ forall i, s_intentId c = Some i -> i ∉ omap s_intentId (settlements s).
Proof.
  unfold settlement_create. destruct (existsb _ _) eqn:Ek; [done|].
  destruct (existsb (fun r => bool_decide (is_Some _) && _) _) eqn:Ei; [done|].
  rewrite existsb_false_forall in Ek, Ei. intros [= <-]. split_and!; [done| |].
  - intros (x & E & Hx)%list_elem_of_fmap. specialize (Ek x Hx). unfold claim_key in E. simplify_eq.
    by rewrite !bool_decide_true in Ek by congruence.
  - intros i Hi (x & Hx & E)%list_elem_of_omap. specialize (Ei x Hx).
    rewrite E, Hi in Ei. rewrite !bool_decide_true in Ei by eauto. done.
Qed.

Lemma claimSettlement_Ok cur h s s' u :
  claimSettlement cur h s = (s', Ok u) ->
  exists c, chain cur = chain_name c
  /\ s' = set_settlements (fun l => mkSettlement (chain_name c) (network cur) (normalizeTxId c h)
                                      (Some (id cur)) :: l) s
  /\ ~ ((chain_name c, network cur, normalizeTxId c h) ∈ claim_key <$> settlements s)
  /\ id cur ∉ omap s_intentId (settlements s).
Proof.
  unfold claimSettlement, lift, catch, mbind, svc_bind, throw.
  destruct (chainOf (Some (chain cur))) as [c|e] eqn:Ec; [|done].
  destruct (settlement_create _ s) as [s1 [a|e]] eqn:E; [|by destruct (isUniqueViolation e)].
  intros [= <- _]. apply settlement_create_Ok in E as (-> & Hk & Hi).
  exists c. split; [by apply chainOf_Ok | cbn zeta; split_and!; auto].
Qed.

(** The database after a transition that commits. *)
Definition moved (current : PaymentIntent) (to : PaymentIntentStatus) (h : option string)
    (opts : TransitionOptions) (r' : PaymentIntent) (claims : list SettlementRow) (s : DB) : DB :=
  set_transitions (fun l => l ++ [mkTransition (id current) (status current) to h (opt_actor opts)
                                    (opt_reason opts)])
    (set_settlements (fun l => claims ++ l) (set_intents (fun m => <[id current := r']> m) s)).

Definition fresh_claim (current : PaymentIntent) (h : string) (s : DB) (row : SettlementRow) : Prop :=
  exists c, chain current = chain_name c
  /\ row = mkSettlement (chain_name c) (network current) (normalizeTxId c h) (Some (id current))
  /\ ~ (claim_key row ∈ claim_key <$> settlements s)
  /\ id current ∉ omap s_intentId (settlements s).

Lemma transition_body_Ok current to h src opts s s' u :
  valid_db s ->
  transition_body current to h src opts s = (s', Ok u) ->
  exists r claims, intents s !! id current = Some r /\ status r = status current
  /\ u = apply_patch (mkPatch (Some to) h src None None None None) r
  /\ violated u s = None
  /\ s' = moved current to h opts u claims s
  /\ (to = SUCCEEDED -> exists row, claims = [row] /\ fresh_claim current (default "" h)%string s row)
  /\ (to <> SUCCEEDED -> claims = []).
Proof.
  intros V. unfold transition_body, updateMany, lift, get_world, mbind, svc_bind, throw.
  destruct (intents s !! id current) as [r|] eqn:Hr; [|done].
  case_bool_decide as Est; [|done]. set (r' := apply_patch _ r).
  destruct (v_ids _ V _ _ Hr) as (Eid & _).
  unfold write. destruct (violated r' s) eqn:Hv; [done|]. simpl.
  rewrite Eid. set (s1 := set_intents _ s). case_bool_decide as Eto.
  - destruct (claimSettlement current _ s1) as [s2 [[]|e]] eqn:Ec; [|done].
    apply claimSettlement_Ok in Ec as (c & Hc & -> & Hk & Hi). cbn [transition_create].
    subst s1. unfold findUnique. simpl. rewrite lookup_insert_eq. intros [= <- <-].
    exists r, [mkSettlement (chain_name c) (network current)
                (normalizeTxId c (default ""%string h)) (Some (id current))].
    split_and!; try done. intros _. eexists. split; [done|]. exists c. by split_and!.
  - subst s1. unfold findUnique. simpl. rewrite lookup_insert_eq. intros [= <- <-]. exists r, []. by split_and!.
Qed.

Lemma audit_moved current to h opts r' claims s i :
  audit i (moved current to h opts r' claims s) =
  audit i s ++ (if bool_decide (id current = i)
                then [mkTransition (id current) (status current) to h (opt_actor opts) (opt_reason opts)]
                else []).
Proof.
  unfold audit, moved. simpl. by rewrite List.filter_app.
Qed.

(** What settles an intent: its chain's verifier vouched for the payment. *)
Definition evidence (current : PaymentIntent) (h : string) : Prop :=
  forall ch, chain current = chain_name ch ->
  exists r0 k, same_intent r0 current /\ vouched ch r0 k /\ normalizeTxId ch k = normalizeTxId ch h.

Lemma moved_claims s s0 current r r' to h claims c i :
  valid_db s -> same_intent current r -> intents s !! id current = Some r ->
  same_intent r r' -> status r <> SUCCEEDED -> status r' = to ->
  (to = SUCCEEDED -> exists row, claims = [row] /\ fresh_claim current h s row) ->
  (to <> SUCCEEDED -> claims = []) -> (to = SUCCEEDED -> evidence current h) ->
  s0 = <[id current := r']> (intents s) ->
  c ∈ claims ++ settlements s -> s_intentId c = Some i ->
  exists x r0 ch k, s0 !! i = Some x /\ status x = SUCCEEDED
      /\ s_chain c = chain_name ch /\ chain x = chain_name ch /\ s_network c = network x
      /\ same_intent r0 x /\ vouched ch r0 k /\ s_txHash c = normalizeTxId ch k.
Proof.
  intros V S0 Hr S Hst Hst' Hs Hn He -> [Hc|Hc]%elem_of_app Hi.
  - destruct (decide (to = SUCCEEDED)) as [Eto|Hne]; [|rewrite Hn in Hc by done; by apply not_elem_of_nil in Hc].
    destruct (Hs Eto) as (row & -> & ch & Ech & -> & _ & _). apply list_elem_of_singleton in Hc as ->.
    simpl in Hi. injection Hi as <-. destruct (He Eto ch Ech) as (r0 & k & Sr0 & Hv & Hk).
    destruct (same_intent_columns _ _ S0) as (_ & _ & _ & Ec1 & En1 & _).
    destruct (same_intent_columns _ _ S) as (_ & _ & _ & Ec2 & En2 & _).
    exists r', r0, ch, k. rewrite lookup_insert_eq. simpl. split_and!; try congruence.
    etransitivity; [exact Sr0|]. by etransitivity.
  - destruct (v_claims _ V c i Hc Hi) as (x & x0 & ch & k & Hx & Ex & Hrest).
    destruct (decide (id current = i)) as [<-|Hne]; [by simplify_eq|].
    exists x, x0, ch, k. by rewrite lookup_insert_ne.
Qed.

Lemma nodup_claims s current h to claims :
  valid_db s ->
  (to = SUCCEEDED -> exists row, claims = [row] /\ fresh_claim current h s row) ->
  (to <> SUCCEEDED -> claims = []) ->
  NoDup (claim_key <$> (claims ++ settlements s)) /\ NoDup (omap s_intentId (claims ++ settlements s)).
Proof.
  intros V Hs Hn. destruct (decide (to = SUCCEEDED)) as [E|E].
  - destruct (Hs E) as (row & -> & ch & _ & -> & Hk & Hi). simpl.
    split; (constructor; [done|]); apply V.
  - rewrite (Hn E). simpl. split; apply V.
Qed.

Lemma moved_ok s s0 current r to h src opts claims :
  valid_db s0 -> valid_db s -> evolves s0 s -> intents s0 !! id current = Some current ->
  intents s !! id current = Some r -> status r = status current ->
  canTransition (status current) to = true ->
  (to = SUCCEEDED -> hasTxHash h = true /\ evidence current (default "" h)%string) ->
  let u := apply_patch (mkPatch (Some to) h src None None None None) r in
  violated u s = None ->
  (to = SUCCEEDED -> exists row, claims = [row] /\ fresh_claim current (default "" h)%string s row) ->
  (to <> SUCCEEDED -> claims = []) ->
  valid_db (moved current to h opts u claims s) /\ evolves s (moved current to h opts u claims s).
Proof.
  intros V0 V Hev H0 Hr Est Hcan Hev' u Hv Hs Hn.
  pose proof (read_later s0 s _ _ _ V0 Hev H0 Hr) as S0.
  assert (same_intent r u) as S by by eexists.
  assert (status r <> SUCCEEDED) as Hne by (rewrite Est; intros E; by rewrite E in Hcan).
  assert (status u = to) as Eu by done.
  pose proof (ids_insert s (id current) r u V Hr S) as Hids.
  pose proof (memo_insert s (id current) r u V Hr S Hv) as Hmemo.
  destruct (nodup_claims s current _ to claims V Hs Hn) as [Hnk Hni].
  split.
  - split; try first [exact Hids | exact Hnk | exact Hni | exact (v_ledger _ V)].
    + intros j k x y Hx Hy Hc. by apply (proj1 (Hmemo j k x y Hx Hy Hc)).
    + intros j k x y k' Hx Hy Hc. by apply (proj2 (Hmemo j k x y Hx Hy Hc)).
    + intros c i Hc Hi. eapply (moved_claims s _ current r u to); try done.
      by intros E; apply Hev'.
    + intros j x. unfold moved. simpl. destruct (decide (id current = j)) as [<-|Hj].
      * rewrite lookup_insert_eq. intros [= <-] E. rewrite Eu in E.
        destruct (Hs E) as (row & -> & ch & _ & -> & _). eexists. split; [by apply elem_of_cons; left|done].
      * rewrite lookup_insert_ne by done. intros Hx E. destruct (v_settled _ V _ _ Hx E) as (c & ? & ?).
        exists c. split; [|done]. apply elem_of_app. by right.
    + intros j x. rewrite audit_moved. unfold moved. simpl. destruct (decide (id current = j)) as [<-|Hj].
      * rewrite lookup_insert_eq, bool_decide_true by done. intros [= <-]. rewrite Eu.
        pose proof (v_audit _ V _ _ Hr) as Ht. rewrite Est in Ht.
        apply (trail_snoc PENDING _ (status current)
                 (mkTransition (id current) (status current) to h (opt_actor opts) (opt_reason opts)));
          try done. intros E. by apply Hev'.
      * rewrite lookup_insert_ne, bool_decide_false, app_nil_r by done. apply (v_audit _ V).
    + unfold moved. simpl. intros t [Ht|Ht%list_elem_of_singleton]%elem_of_app; [by apply (v_audit_minted _ V)|].
      subst t. by destruct (v_ids _ V _ _ Hr) as (_ & ?).
  - split; unfold moved; simpl; try done.
    + intros j x. destruct (decide (id current = j)) as [<-|Hj].
      * rewrite lookup_insert_eq. intros [= <-]. left. eauto.
      * rewrite lookup_insert_ne by done. intros Hx. left. exists x. split; [done | reflexivity].
    + intros j x Hx E. destruct (decide (id current = j)) as [<-|Hj]; [by simplify_eq|].
      rewrite lookup_insert_ne by done. eauto.
    + rewrite fmap_app. set_solver.
Qed.

Lemma checked_transition_Ok from to ev u :
  checked_transition from to ev = Ok u ->
  canTransition from to = true /\ (to = SUCCEEDED -> hasTxHash (ev_txHash ev) = true).
Proof.
  unfold checked_transition, assertTransition.
  destruct (canTransition from to); [|done]. simpl.
  case_bool_decide as E; [|done]. simpl. destruct (hasTxHash _); [done|]. simpl. done.
Qed.

Lemma transition_stmt_ok s s0 current to h src opts ev :
  valid_db s0 -> valid_db s -> evolves s0 s -> intents s0 !! id current = Some current ->
  checked_transition (status current) to ev = Ok tt -> ev_txHash ev = h ->
  (to = SUCCEEDED -> evidence current (default "" h)%string) ->
  let out := transaction (transition_body current to h src opts) s in
  valid_db (fst out) /\ evolves s (fst out)
  /\ forall u, snd out = Ok u -> same_intent current u /\ status u = to /\ intents (fst out) !! id u = Some u.
Proof.
  intros V0 V Hev H0 Hc <- He. unfold transaction. cbn zeta.
  destruct (transition_body _ _ _ _ _ s) as [s' [u|e]] eqn:Eb; [|by split_and!].
  apply checked_transition_Ok in Hc as [Hc Hh].
  apply transition_body_Ok in Eb as (r & claims & Hr & Est & -> & Hv & -> & Hs & Hn); [|done].
  destruct (moved_ok s s0 current r to (ev_txHash ev) src opts claims) as [? ?]; try done; [auto|].
  cbn [fst snd]. split_and!; [done | done |]. intros u [= <-].
  pose proof (read_later s0 s _ _ _ V0 Hev H0 Hr) as S0. split_and!; [|done|].
  - etransitivity; [exact S0 | by eexists].
  - unfold moved. simpl. destruct (v_ids _ V _ _ Hr) as (-> & _). by rewrite lookup_insert_eq.
Qed.

(** *** Deleting and creating *)

Lemma delete_keeps_claims s i r :
  valid_db s -> intents s !! i = Some r -> status r <> SUCCEEDED ->
  settlements (delete_row i s) = settlements s.
Proof.
  intros V Hr Hne. unfold delete_row. simpl.
  transitivity ((fun c => c) <$> settlements s); [|apply list_fmap_id].
  apply list_fmap_ext. intros k c Hc. case_bool_decide as E; [|done].
  apply list_elem_of_lookup_2 in Hc. destruct (v_claims _ V c i Hc E) as (x & _ & _ & _ & Hx & Ex & _).
  by simplify_eq.
Qed.

Lemma audit_delete s i j :
  i <> j -> audit j (delete_row i s) = audit j s.
Proof.
  intros Hne. unfold audit, delete_row. simpl. induction (transitions s) as [|t l IH]; [done|]. simpl.
  destruct (decide (tr_intentId t = i)) as [Ei|Ei].
  - rewrite (bool_decide_true (_ = i)) by done. simpl. rewrite IH.
    by rewrite (bool_decide_false (_ = j)) by congruence.
  - rewrite (bool_decide_false (_ = i)) by done. simpl. by rewrite IH.
Qed.

Lemma delete_ok s i r :
  valid_db s -> intents s !! i = Some r -> status r <> SUCCEEDED ->
  valid_db (delete_row i s) /\ evolves s (delete_row i s).
Proof.
  intros V Hr Hne. pose proof (delete_keeps_claims s i r V Hr Hne) as Es.
  assert (forall j x, intents (delete_row i s) !! j = Some x -> i <> j /\ intents s !! j = Some x) as Hd.
  { intros j x. unfold delete_row. simpl. by rewrite lookup_delete_Some. }
  assert (forall j x, i <> j -> intents s !! j = Some x -> intents (delete_row i s) !! j = Some x) as Hk.
  { intros j x Hj Hx. unfold delete_row. simpl. by rewrite lookup_delete_ne. }
  assert (forall c, c ∈ settlements s -> s_intentId c <> Some i) as Hc.
  { intros c Hin E. destruct (v_claims _ V c i Hin E) as (x & _ & _ & _ & Hx & Ex & _). by simplify_eq. }
  split.
  - split; rewrite ?Es; try apply V.
    + intros j x [_ Hx]%Hd. by apply (v_ids _ V).
    + intros j k x y [_ Hx]%Hd [_ Hy]%Hd. by apply (v_memo _ V).
    + intros j k x y h [_ Hx]%Hd [_ Hy]%Hd. by apply (v_hash _ V).
    + intros c j Hin Hj. destruct (v_claims _ V c j Hin Hj) as (x & x0 & ch & h & Hx & Hrest).
      exists x, x0, ch, h. split; [|done]. apply Hk; [|done]. intros <-. by apply (Hc c Hin).
    + intros j x [_ Hx]%Hd. by apply (v_settled _ V).
    + intros j x [Hj Hx]%Hd. rewrite audit_delete by done. by apply (v_audit _ V).
    + intros t Ht. apply (v_audit_minted _ V). unfold delete_row in Ht. simpl in Ht.
      by apply elem_of_lfilter in Ht as [Ht _].
  - split; rewrite ?Es; try done.
    + intros j x [_ Hx]%Hd. left. exists x. split; [done | reflexivity].
    + intros j x Hx E. exists x. split; [|done]. apply Hk; [|done]. intros <-. by simplify_eq.
Qed.

Lemma deleteMany_ok s0 s user i r :
  valid_db s0 -> valid_db s -> evolves s0 s -> intents s0 !! i = Some r -> status r <> SUCCEEDED ->
  valid_db (fst (deleteMany user i (status r) s)) /\ evolves s (fst (deleteMany user i (status r) s)).
Proof.
  intros V0 V Hev H0 Hne. unfold deleteMany, findOwned.
  destruct (intents s !! i) as [x|] eqn:Hx; [|by split]. case_bool_decide; [|by split].
  case_bool_decide as E; [|by split]. apply (delete_ok s i x V Hx). congruence.
Qed.

Lemma fresh_row s : valid_db s -> intents s !! cuid (minted s) = None.
Proof.
  intros V. destruct (intents s !! _) as [r|] eqn:Hr; [|done].
  destruct (v_ids _ V _ _ Hr) as (_ & n & E & Hn). apply (inj cuid) in E. lia.
Qed.

Lemma fresh_audit s : valid_db s -> audit (cuid (minted s)) s = [].
Proof.
  intros V. destruct (audit _ s) as [|t l] eqn:E; [done|].
  assert (t ∈ audit (cuid (minted s)) s) as Ht by (rewrite E; apply elem_of_cons; by left).
  apply elem_of_lfilter in Ht as [Ht Ei%bool_decide_eq_true].
  destruct (v_audit_minted _ V _ Ht) as (n & En & Hn). rewrite Ei in En. apply (inj cuid) in En. lia.
Qed.

Lemma insert_ok s r f :
  valid_db s -> id r = cuid (minted s) -> status r = PENDING -> violated r s = None ->
  let s' := mint_id (set_deposits f (set_intents (fun m => <[cuid (minted s) := r]> m) s)) in
  valid_db s' /\ evolves s s'.
Proof.
  intros V Eid Est Hv s'. pose proof (fresh_row s V) as Hfresh. pose proof (fresh_audit s V) as Haudit.
  pose proof (violated_None _ _ Hv) as Hv'.
  assert (forall j x, intents s' !! j = Some x ->
    (j = cuid (minted s) /\ x = r) \/ (j <> cuid (minted s) /\ intents s !! j = Some x)) as Hd.
  { intros j x. unfold s'. simpl. rewrite lookup_insert_Some. naive_solver. }
  assert (forall j x, intents s !! j = Some x -> intents s' !! j = Some x) as Hk.
  { intros j x Hx. unfold s'. simpl. rewrite lookup_insert_ne; [done|]. intros <-. by rewrite Hfresh in Hx. }
  assert (forall j x, intents s !! j = Some x -> id x <> id r) as Hid.
  { intros j x Hx. destruct (v_ids _ V _ _ Hx) as (-> & _). rewrite Eid. intros ->. by rewrite Hfresh in Hx. }
  split.
  - split; try apply V.
    + intros j x [[-> ->]|[_ Hx]]%Hd; [split; [done|]; exists (minted s); split; [done | simpl; lia]|].
      destruct (v_ids _ V _ _ Hx) as (? & n & ? & ?). split; [done|]. exists n. split; [done | simpl; lia].
    + intros j k x y [[-> ->]|[Hj Hx]]%Hd [[-> ->]|[Hk' Hy]]%Hd Hc Hm; [done| | |by apply (v_memo _ V j k x y)].
      * destruct (Hv' k y Hy (Hid _ _ Hy)) as [Hm' _]. by destruct (Hm' ltac:(done)).
      * destruct (Hv' j x Hx (Hid _ _ Hx)) as [Hm' _]. by destruct (Hm' ltac:(done)).
    + intros j k x y h [[-> ->]|[Hj Hx]]%Hd [[-> ->]|[Hk' Hy]]%Hd Hc Hh Hh'; [done| | |by apply (v_hash _ V j k x y h)].
      * destruct (Hv' k y Hy (Hid _ _ Hy)) as [_ Hm']. by destruct (Hm' h ltac:(done) Hh).
      * destruct (Hv' j x Hx (Hid _ _ Hx)) as [_ Hm']. by destruct (Hm' h ltac:(done) Hh').
    + intros c i Hc Hi. destruct (v_claims _ V c i Hc Hi) as (x & x0 & ch & h & Hx & Hrest).
      exists x, x0, ch, h. split; [by apply Hk | done].
    + intros j x [[-> ->]|[_ Hx]]%Hd E; [by rewrite Est in E|]. by apply (v_settled _ V j x).
    + intros j x [[-> ->]|[_ Hx]]%Hd; [|by apply (v_audit _ V)].
      change (audit (cuid (minted s)) s') with (audit (cuid (minted s)) s). by rewrite Haudit, Est.
    + intros t Ht. destruct (v_audit_minted _ V t Ht) as (n & ? & ?). exists n. split; [done | simpl; lia].
  - split; try done.
    + simpl. lia.
    + intros j x [[-> ->]|[_ Hx]]%Hd; [right; eauto|left; exists x; split; [done|reflexivity]].
    + intros j x Hx E. exists x. auto.
Qed.

Lemma create_row_ok s data deposit :
  valid_db s -> (forall i, id (data i) = i /\ status (data i) = PENDING) ->
  let out := create_row cuid data deposit s in valid_db (fst out) /\ evolves s (fst out).
Proof.
  intros V Hd. unfold create_row. destruct (Hd (cuid (minted s))) as [Hi Hs].
  destruct (violated _ s) eqn:Hv; [by split|].
  destruct deposit as [f|].
  - destruct (existsb _ _); [by split|]. by apply insert_ok.
  - apply (insert_ok s _ (fun l => l)) in Hv; done.
Qed.

Lemma resolve_consumer_ok s user :
  valid_db s ->
  valid_db (fst (resolve_consumer cuid user s)) /\ evolves s (fst (resolve_consumer cuid user s)).
Proof.
  intros V. unfold resolve_consumer. destruct (consumer_id user s); [by split|].
  apply (ok_elsewhere s); try done; simpl; [lia | apply V].
Qed.

Lemma on_hooks_ok {A} (m : svc Hooks A) s :
  valid_db s -> valid_db (fst (on_hooks m s)) /\ evolves s (fst (on_hooks m s)).
Proof. intros V. apply ok_elsewhere; try done. apply V. Qed.

(** ** Programs *)

#[local] Abbreviation ok := (safe valid_db evolves).

Lemma emit_safe user t i d s0 : ok (emit user t i d) s0.
Proof. apply safe_stmt. intros s _ V. by apply on_hooks_ok. Qed.

Lemma update_row_safe i p s0 : p_status p = None -> ok (stmt (update_row i p)) s0.
Proof. intros Hp. apply safe_stmt. intros s _ V. by apply update_row_ok. Qed.

Lemma updateMany_safe i st p s0 : p_status p = None -> ok (stmt (updateMany i st p)) s0.
Proof. intros Hp. apply safe_stmt. intros s _ V. by apply updateMany_ok. Qed.

Lemma recordPayer_safe i p s0 : ok (recordPayer i p) s0.
Proof.
  unfold recordPayer. destruct (isChain _); [|done]. destruct (truthy _); [|done].
  apply safe_stmt. intros s _ V. simpl. apply (ok_elsewhere s); try done. apply V.
Qed.

Lemma withQr_safe env i s0 : ok (withQr env i) s0.
Proof. apply safe_pure. Qed.

(** Evidence read once is evidence later. *)
Lemma evidence_later s0 s current r h :
  valid_db s0 -> evolves s0 s -> intents s0 !! id current = Some current ->
  intents s !! id current = Some r -> evidence current h -> evidence r h.
Proof.
  intros V0 Hev H0 Hr He ch Hch. pose proof (read_later s0 s _ _ _ V0 Hev H0 Hr) as S.
  destruct (same_intent_columns _ _ S) as (_ & _ & _ & Ec & _).
  destruct (He ch ltac:(congruence)) as (r0 & k & S0 & Hv & Hk).
  exists r0, k. split_and!; [by etransitivity | done | done].
Qed.

Lemma transition_safe i to opts d s0 :
  (to = SUCCEEDED -> exists h, opt_txHash opts = Some h /\
     forall s current, evolves s0 s -> valid_db s -> intents s !! i = Some current -> evidence current h) ->
  ok (transition i to opts d) s0.
Proof.
  intros He. unfold transition. apply (safe_asking_bind valid_db evolves). intros s Hs V. unfold findUnique.
  destruct (intents s !! i) as [current|] eqn:Hi; [|done].
  destruct (v_ids _ V _ _ Hi) as (Eid & _). subst i.
  apply (safe_pure_bind valid_db evolves). intros [] Hc. apply (safe_bind valid_db evolves).
  - apply (safe_catching valid_db evolves); [|done]. apply safe_stmt. intros s' Hs' V'.
    destruct (transition_stmt_ok s' s current to (over (opt_txHash opts) (txHash current))
      (payer_source current (opt_payer opts)) opts _ V V' Hs' Hi Hc eq_refl) as (? & ? & _); [|done].
    intros E. destruct (He E) as (h & Eh & Hev). rewrite Eh. by apply (Hev s).
  - intros u s' Hs'. apply (safe_bind valid_db evolves); [apply emit_safe|]. intros b s'' Hs''.
    apply (safe_bind valid_db evolves); [|done]. case_bool_decide; [apply recordPayer_safe | done].
Qed.

Lemma verify_now_bind {B} c i h (f : VerificationResult -> prog DB B) s0 :
  (forall s r, evolves s0 s -> valid_db s -> verifyByHash (ledger s c) i h = Ok r -> ok (f r) s) ->
  ok (verify_now c i h ≫= f) s0.
Proof.
  intros H s Hs V. split_and!; [done | reflexivity|].
  pose proof (safe_pure_bind valid_db evolves (verifyByHash (ledger s c) i h) f s) as P.
  unfold safe in *. apply P. intros r Hr. by apply H.
Qed.

Lemma ask_rivals_safe c h l s0 : ok (ask_rivals c h l) s0.
Proof.
  revert s0. induction l as [|r l IH]; intros s0; simpl; [done|].
  apply verify_now_bind. intros s x Hs V Hx. destruct (valid x); [done | apply IH].
Qed.

Lemma assertOldestClaimant_safe i h s0 : ok (assertOldestClaimant i h) s0.
Proof.
  apply (safe_asking_bind valid_db evolves). intros s Hs V. destruct (findUnique i s); [|done].
  apply (safe_pure_bind valid_db evolves). intros c Hc. apply (safe_asking_bind valid_db evolves). intros s' Hs' V'. apply ask_rivals_safe.
Qed.

Lemma markSucceeded_safe i user h from a d s0 :
  (forall s current, evolves s0 s -> valid_db s -> intents s !! i = Some current -> evidence current h) ->
  ok (markSucceeded i user h from a d) s0.
Proof.
  intros He. apply (safe_bind valid_db evolves); [apply assertOldestClaimant_safe|]. intros u s Hs.
  apply transition_safe. intros _. exists h. split; [done|]. intros s' current Hs'.
  apply He. by etransitivity.
Qed.

Lemma other_transition_safe i to opts d s0 : to <> SUCCEEDED -> ok (transition i to opts d) s0.
Proof. intros Hne. by apply transition_safe. Qed.

(** A verified intent has its evidence, at any later moment. *)
Lemma verified_evidence s s' c intent h r :
  valid_db s -> intents s !! id intent = Some intent -> chain intent = chain_name c ->
  lawful (ledger s') -> verifyByHash (ledger s' c) intent h = Ok r -> valid r = true ->
  evidence intent (default h (v_txHash r)) /\ evidence intent h.
Proof.
  intros V Hi Hc L Hr Hv. destruct (L c) as [Hsound _ _ _]. destruct (Hsound _ _ _ Hr Hv) as (Hp & h' & -> & Hn).
  split; intros ch Hch; assert (ch = c) as -> by (rewrite Hc in Hch; by destruct ch, c);
    exists intent, h; by split_and!.
Qed.

Lemma findOwned_Some user i s r :
  findOwned user i s = Some r -> intents s !! i = Some r.
Proof. unfold findOwned. destruct (intents s !! i); [|done]. by case_bool_decide; intros [= ->]. Qed.

Lemma validate_safe env user i h d s0 : ok (validate env user i h d) s0.
Proof.
  apply (safe_asking_bind valid_db evolves). intros s Hs V. destruct (findOwned user i s) as [intent|] eqn:Ho; [|done].
  apply findOwned_Some in Ho. destruct (v_ids _ V _ _ Ho) as (Eid & _).
  apply (safe_pure_bind valid_db evolves). intros c Hc%chainOf_Ok. apply (safe_pure_bind valid_db evolves). intros h' Hh.
  case_bool_decide; [apply (safe_bind valid_db evolves); [apply withQr_safe | done]|].
  apply verify_now_bind. intros s1 r Hs1 V1 Hr. destruct (valid r) eqn:Ev.
  - destruct (verified_evidence s s1 c intent h' r) as [He _]; try done; [congruence | apply V1 |].
    apply (safe_bind valid_db evolves); [|intros u s2 Hs2; apply (safe_bind valid_db evolves); [apply withQr_safe | done]].
    apply markSucceeded_safe. intros s2 current Hs2 V2 Hcur. rewrite Eid in Hcur.
    apply (evidence_later s s2 intent); rewrite ?Eid; try done. by etransitivity.
  - destruct (_ && _); [|done].
    apply (safe_bind valid_db evolves); [by apply other_transition_safe|].
    intros u s2 Hs2. apply (safe_bind valid_db evolves); [apply withQr_safe | done].
Qed.

(** One bind of a safe program. *)
Ltac then_ := apply (safe_bind valid_db evolves); [|intros ?a ?s ?Hs].

Lemma patchTxHash_safe i h fields s0 : ok (patchTxHash i h fields) s0.
Proof.
  apply (safe_asking_bind valid_db evolves). intros s Hs V. destruct (findUnique i s); [|done].
  case_bool_decide; [by apply update_row_safe|]. destruct (isTerminalStatus _); [done|].
  then_; [apply (safe_catching valid_db evolves); [by apply updateMany_safe | done]|].
  destruct (_ =? _)%nat; [done|]. then_; [apply (safe_asking valid_db evolves) | apply safe_pure].
Qed.

Lemma merchant_fields_no_status dto p : merchantFieldsOf dto = Some p -> p_status p = None.
Proof. unfold merchantFieldsOf. destruct (u_reference dto), (u_checkoutTheme dto); by intros [= <-]. Qed.

Lemma settleFromApi_safe env user i dto d s0 : ok (settleFromApi env user i dto d) s0.
Proof.
  apply (safe_asking_bind valid_db evolves). intros s Hs V. destruct (findUnique i s); [|done].
  apply (safe_pure_bind valid_db evolves). intros [] _. apply (safe_pure_bind valid_db evolves).
  intros h _. then_; [apply validate_safe|]. destruct (o_valid a); cbn [negb]; [|done].
  destruct (merchantFieldsOf dto) eqn:E; [|apply safe_pure].
  then_; [apply update_row_safe; by eapply merchant_fields_no_status | apply withQr_safe].
Qed.

Lemma assertOwned_safe user i s0 : ok (assertOwned user i) s0.
Proof.
  apply (safe_asking_bind valid_db evolves). intros s Hs V.
  destruct (findOwned user i s); [apply safe_pure | done].
Qed.

Lemma update_safe env user i dto d s0 : ok (update env user i dto d) s0.
Proof.
  then_; [apply assertOwned_safe|]. apply (safe_pure_bind valid_db evolves). intros h _.
  cbn [u_status u_txHash]. destruct (u_status dto) as [to|].
  - destruct (decide (to = SUCCEEDED)) as [->|Hne]; [apply settleFromApi_safe|].
    assert (ok (updated ← transition i to
                (mkOptions user A_api (Some "PATCH /payment-intents/:id"%string) h None None) d;
      match merchantFieldsOf (mkUpdate (Some to) h (u_reference dto) (u_checkoutTheme dto)) with
      | Some fields => patched ← stmt (update_row i fields); withQr env patched
      | None => withQr env updated
      end) s) as H; [|by destruct to].
    then_; [by apply other_transition_safe|].
    destruct (merchantFieldsOf _) eqn:E; [|apply withQr_safe].
    then_; [apply update_row_safe; by eapply merchant_fields_no_status | apply withQr_safe].
  - then_; [destruct h; [apply patchTxHash_safe|]|then_; [apply emit_safe | apply withQr_safe]].
    apply update_row_safe. destruct (merchantFieldsOf _) eqn:E; [|done].
    by eapply merchant_fields_no_status.
Qed.

Lemma remove_safe user i d s0 : ok (IntentService.remove user i d) s0.
Proof.
  apply (safe_asking_bind valid_db evolves). intros s Hs V.
  destruct (findOwned user i s) as [r|] eqn:Ho; [|done]. apply findOwned_Some in Ho.
  case_bool_decide; [done|]. then_.
  - apply safe_stmt. intros s' Hs' V'. by apply (deleteMany_ok s s' user i r).
  - destruct (_ =? _)%nat; [done|]. then_; [apply emit_safe | done].
Qed.

Lemma findOne_safe env user i s0 : ok (findOne env user i) s0.
Proof.
  apply (safe_asking_bind valid_db evolves). intros s Hs V.
  destruct (findOwned user i s); [apply withQr_safe | done].
Qed.

Lemma listTransitions_safe user i s0 : ok (listTransitions user i) s0.
Proof. then_; [apply assertOwned_safe | apply (safe_asking valid_db evolves)]. Qed.

Lemma findAll_safe env consumer q s0 : ok (findAll env consumer q) s0.
Proof. then_; [apply (safe_asking valid_db evolves)|]. then_; [apply (safe_asking valid_db evolves) | done]. Qed.

Lemma advanceCursor_safe i c s0 : ok (advanceCursor i c) s0.
Proof. apply (safe_discard valid_db evolves). by apply updateMany_safe. Qed.

Section creates.
Context (env : Env) (Henv : IntentService.cuid env = cuid).

Lemma persist_safe terms n t dep s0 : ok (persist env terms n t dep) s0.
Proof.
  apply (safe_catching valid_db evolves).
  - then_; [|done]. apply safe_stmt. intros s _ V. rewrite Henv. by apply create_row_ok.
  - intros e s _. by destruct (isUniqueViolation e).
Qed.

Lemma resolve_safe user s0 : ok (stmt (resolve_consumer (IntentService.cuid env) user)) s0.
Proof. apply safe_stmt. intros s _ V. rewrite Henv. by apply resolve_consumer_ok. Qed.

Lemma set_uri_safe i u s0 :
  ok (stmt (update_row i (mkPatch None None None None None None (Some u)))) s0.
Proof. by apply update_row_safe. Qed.

Lemma announce_safe user i d s0 :
  ok (_ ← emit user PAYMENT_INTENT_CREATED i d; withQr env i) s0.
Proof. then_; [apply emit_safe | apply withQr_safe]. Qed.

(** Whether the insert won. *)
Ltac inserted := match goal with x : option PaymentIntent |- _ => destruct x end.
Ltac pures := repeat (apply (safe_pure_bind valid_db evolves); intros ? ?).

Lemma createTx_safe consumer amount dto d s0 : ok (createTx env consumer amount dto d) s0.
Proof.
  then_; [apply resolve_safe|]. pures. apply (safe_asking_bind valid_db evolves). intros s' Hs' V.
  destruct (findByMemo _ _ s'); [apply safe_pure|]. pures. then_; [apply persist_safe|].
  inserted; [apply announce_safe|]. then_; [apply (safe_asking valid_db evolves) | apply safe_pure].
Qed.

Lemma createPayOnChain_safe consumer c dto d s0 : ok (createPayOnChain env consumer c dto d) s0.
Proof.
  unfold createPayOnChain. pures. then_; [apply resolve_safe|]. pures.
  destruct (normalize_request _ _ _ _ _ _) as [[dest code] issuer].
  apply (safe_asking_bind valid_db evolves). intros s' Hs' V.
  destruct (findByMemo _ _ s'); pures; [apply safe_pure|]. then_; [apply persist_safe|].
  inserted; [|then_; [apply (safe_asking valid_db evolves) | apply safe_pure]].
  then_; [case_match; [apply set_uri_safe | done] | apply announce_safe].
Qed.

Lemma createPay_safe consumer dto d s0 : ok (createPay env consumer dto d) s0.
Proof.
  unfold createPay. destruct (default _ _); try apply createPayOnChain_safe.
  then_; [apply resolve_safe|]. pures. apply (safe_asking_bind valid_db evolves). intros s' Hs' V.
  destruct (findByMemo _ _ s'); [apply safe_pure|]. pures. then_; [apply persist_safe|].
  inserted; [|then_; [apply (safe_asking valid_db evolves) | apply safe_pure]].
  then_; [case_match; [apply set_uri_safe | done] | apply announce_safe].
Qed.
End creates.
End safety.
#[export] Existing Instance evolves_preorder.
