(* ===== verification/Observer.v ===== *)
(** src/src/payment-intents/payment-intent-observer.service.ts: the job that asks
    the chains about open intents, settles the paid ones and expires the lapsed
    ones the chain says are unpaid. *)

From stdpp Require Import base tactics list option gmap strings sorting.
From Stdlib Require Import ZArith Lia Ascii.
From S2P Require Import Prelude Text Units MerchantFee Intents ChainAddress Rivals Verifier.
From S2P Require Import Webhooks Links PayLinks Programs Store IntentService IntentSafety.

Open Scope Z_scope.

Definition OBSERVER_MAX_INTENTS_PER_CONSUMER : nat := 10.
Definition RECONCILE_CONCURRENCY : nat := 5.

(** An intent with the username its webhooks go to ([include: { consumer }]). *)
Record ObservedIntent := mkObserved { observed : PaymentIntent; apisixUsername : string }.

(** The relation is required: every row's consumer exists. *)
Definition with_consumer (db : DB) (i : PaymentIntent) : ObservedIntent :=
  mkObserved i (default ""%string (consumer_username (consumerId i) db)).

(** ** What the chain says *)

Definition find_now (v : PaymentVerifiers) (i : PaymentIntent) : res VerificationResult :=
  verifier ← verifier_for v (chain i); findMatchingPayment verifier i.

(** Whether the reported hash is looked up rather than the payment looked for. *)
Definition reported (i : PaymentIntent) : option (Chain * string) :=
  match txHash i, isChain (chain i) with
  | Some h, Some c => if truthy (Some h) && isTxIdFor c h then Some (c, h) else None
  | _, _ => None
  end.

Definition verify (i : PaymentIntent) : prog DB VerificationResult :=
  match reported i with
  | Some (c, h) => verify_now c i (normalizeTxId c h)
  | None =>
      r ← asking (fun db => find_now (ledger db) i);
      result ← pure r;
      _ ← (match valid result, nextCursor result with
           | false, Some c => advanceCursor (id i) c
           | _, _ => Ret tt
           end);
      Ret result
  end.

Definition isAlreadySettled (err : exn) : bool :=
  match err with ApiError _ TransactionAlreadySettled => true | _ => false end.

(** The other settlement failure no later tick clears. *)
Definition isHashConflict (err : exn) : bool :=
  match err with ApiError _ IdempotencyConflict => true | _ => false end.

(** [result.valid && result.txHash] *)
Definition payment_found (r : VerificationResult) : option string :=
  if valid r && truthy (v_txHash r) then v_txHash r else None.

(** ** One intent *)

(** [now] is the clock when the worker reaches the intent. *)
Definition lapsed_at (i : PaymentIntent) (now : Z) : bool :=
  match expiresAt i with Some e => e <=? now | None => false end.

Definition reconcile (o : ObservedIntent) (now : Z) (d : Draw) : prog DB unit :=
  let i := observed o in
  if lapsed_at i now then Ret tt
  else
    result ← verify i;
    match payment_found result with
    | None => Ret tt
    | Some h =>
        catching
          (discard (markSucceeded (id i) (apisixUsername o) h (payer result) A_observer d))
          (fun err => if isAlreadySettled err then Ret tt else Raise err)
    end.

(** Tries to settle; answers whether the intent is still to be expired. *)
Definition settle_lapsed (o : ObservedIntent) (h : string) (from : option string) (d : Draw)
    : prog DB bool :=
  catching
    (_ ← markSucceeded (id (observed o)) (apisixUsername o) h from A_observer d; Ret false)
    (fun err => if isAlreadySettled err || isHashConflict err then Ret true else Raise err).

Definition settleOrExpire (o : ObservedIntent) (d : Draw) : prog DB unit :=
  let i := observed o in
  result ← verify i;
  expire ← (match payment_found result with
            | None => Ret true
            | Some h => settle_lapsed o h (payer result) d
            end : prog DB bool);
  if (expire : bool) then discard (markExpired (id i) (apisixUsername o) A_observer d) else Ret tt.

(** ** Batches *)

(** The expiry pass's query; Postgres is free to choose among more rows than
    [batchSize]. *)
Definition lapsed_rows (batchSize : nat) (now : Z) (db : DB) : list ObservedIntent :=
  take batchSize
    (List.map (with_consumer db)
       (List.filter (fun i => bool_decide (status i ∈ [PENDING; SUBMITTED])
                              && match expiresAt i with Some e => e <? now | None => false end)
          (rows db))).

(** The rows the ranking query considers. *)
Definition eligible (now : Z) (i : PaymentIntent) : bool :=
  bool_decide (status i = PENDING)
  && match expiresAt i with Some e => now <? e | None => true end.

(** [ROW_NUMBER() OVER (PARTITION BY "consumerId" ORDER BY "createdAt", "id")] *)
Definition rank_in (l : list PaymentIntent) (i : PaymentIntent) : nat :=
  S (length (List.filter (fun j => bool_decide (consumerId j = consumerId i) && older_than j i) l)).

Definition ranked_le (l : list PaymentIntent) (a b : PaymentIntent) : Prop :=
  (rank_in l a < rank_in l b)%nat \/ (rank_in l a = rank_in l b /\ age_le a b).
#[export] Instance ranked_le_dec l : RelDecision (ranked_le l).
Proof. intros a b. unfold ranked_le. apply _. Defined.

(** The ranking query: ids in the order of the batch. *)
Definition ranked (batchSize : nat) (now : Z) (l : list PaymentIntent) : list PaymentIntent :=
  let rows := List.filter (eligible now) l in
  take batchSize
    (merge_sort (ranked_le rows)
       (List.filter (fun i => (rank_in rows i <=? OBSERVER_MAX_INTENTS_PER_CONSUMER)%nat) rows)).

Definition selectPending (batchSize : nat) (now : Z) : prog DB (list ObservedIntent) :=
  ids ← asking (fun db => List.map id (ranked batchSize now (rows db)));
  match ids with
  | [] => Ret []
  | _ => asking (fun db => List.map (with_consumer db)
           (List.filter (fun i => bool_decide (id i ∈ ids) && bool_decide (status i = PENDING)) (rows db)))
  end.

(** One worker of [mapLimited]: its failure is logged and the next item goes on. *)
Definition logged (p : prog DB unit) : prog DB unit := catching p (fun _ => Ret tt).

(** One cycle, with the workers of each pass one after another; [d i] are the
    draws of intent [i]'s event. Workers that overlap are programs of their own
    ([observe_lapsed], [observe_pending]). *)
Definition observer_run (batchSize : nat) (now : Z) (d : string -> Draw) : prog DB unit :=
  lapsed ← asking (lapsed_rows batchSize now);
  _ ← for_each lapsed (fun o => logged (settleOrExpire o (d (id (observed o)))));
  pending ← selectPending batchSize now;
  for_each pending (fun o => logged (reconcile o now (d (id (observed o))))).

(** The worker of the [n]-th intent of a pass. *)
Definition observe_lapsed (batchSize n : nat) (now : Z) (d : Draw) : prog DB unit :=
  lapsed ← asking (lapsed_rows batchSize now);
  match lapsed !! n with Some o => logged (settleOrExpire o d) | None => Ret tt end.

Definition observe_pending (batchSize n : nat) (started now : Z) (d : Draw) : prog DB unit :=
  pending ← selectPending batchSize started;
  match pending !! n with Some o => logged (reconcile o now d) | None => Ret tt end.

(** ** The observer keeps the tables *)

Section safety.
Context (cuid : nat -> string) `{!Inj (=) (=) cuid}.
Context (vouched attempts : Chain -> PaymentIntent -> string -> Prop).
#[local] Abbreviation valid_db := (valid_db cuid vouched attempts).
#[local] Abbreviation evolves := (evolves cuid).
#[local] Abbreviation ok := (safe valid_db evolves).
#[local] Abbreviation proved := (evidence vouched).

Lemma chain_of_name i c c' : isChain (chain i) = Some c -> chain i = chain_name c' -> c' = c.
Proof. intros ->%isChain_Some. by destruct c, c'. Qed.

(** A valid answer of [verify] is evidence for the hash it names. *)
Lemma verify_bind {B} i (f : VerificationResult -> prog DB B) s0 :
  (forall s r, evolves s0 s -> (forall h, payment_found r = Some h -> proved i h) -> ok (f r) s) ->
  ok (verify i ≫= f) s0.
Proof.
  intros Hf. unfold verify, reported.
  assert (forall r c h k, payment_found r = Some h -> isChain (chain i) = Some c ->
    (valid r = true -> vouched c i k /\ exists h', v_txHash r = Some h' /\ normalizeTxId c h' = normalizeTxId c k) ->
    proved i h) as Hp.
  { intros r c h k Hh Hc Hr. unfold payment_found in Hh. destruct (valid r); [|done].
    destruct (truthy (v_txHash r)); simplify_eq/=. destruct (Hr eq_refl) as (Hv & h' & E & En).
    intros ch Hch. rewrite (chain_of_name i c ch Hc Hch). exists i, k. rewrite Hh in E. simplify_eq.
    by split_and!. }
  assert (ok ((r ← asking (fun db => find_now (ledger db) i); result ← pure r;
    _ ← (match valid result, nextCursor result with
         | false, Some c => advanceCursor (id i) c
         | _, _ => Ret tt
         end); Ret result) ≫= f) s0) as Hfind.
  { apply wp_bind, wp_bind, wp_asking; [apply _|]. intros s Hs V.
    apply wp_bind, wp_pure. destruct (find_now (ledger s) i) as [r|e] eqn:Er; [|done].
    assert (forall h, payment_found r = Some h -> proved i h) as He.
    { intros h Hh. unfold find_now, verifier_for in Er. destruct (isChain (chain i)) as [c|] eqn:Ec; [|done].
      cbn [mbind res_bind] in Er. pose proof Hh as Hh'. unfold payment_found in Hh'. destruct (valid r) eqn:Ev; [|done].
      pose proof (v_ledger _ _ _ _ V c) as L. destruct (find_sound _ _ Er Ev) as (k & E & Hk).
      apply (Hp r c h k Hh eq_refl). intros _. eauto. }
    destruct (valid r); [by apply Hf|]. destruct (nextCursor r); [|by apply Hf].
    apply wp_bind. eapply wp_mono; [apply _ | apply (advanceCursor_safe cuid vouched attempts)|].
    intros [u|e] s' Hs' _; [|done]. apply Hf; [by etransitivity | done]. }
  destruct (txHash i) as [h|]; [|exact Hfind]. destruct (isChain (chain i)) as [c|] eqn:Ec; [|exact Hfind].
  destruct (truthy (Some h) && isTxIdFor c h); [|exact Hfind].
  apply verify_now_bind. intros s r Hs V Hr. apply Hf; [done|]. intros k Hk.
  apply (Hp r c k (normalizeTxId c h) Hk eq_refl). intros Ev.
  pose proof (v_ledger _ _ _ _ V c) as L. by destruct (verify_sound i _ r Hr Ev).
Qed.

(** A settlement of an intent that was read and verified. *)
Lemma settle_read_safe s s0 i user h from a d :
  valid_db s -> evolves s s0 -> intents s !! id i = Some i -> proved i h ->
  ok (markSucceeded (id i) user h from a d) s0.
Proof.
  intros V Hs Hi He. apply markSucceeded_safe; [apply _|]. intros s' current Hs' V' Hc.
  apply (evidence_later cuid vouched attempts s s' i); try done. by etransitivity.
Qed.

Lemma reconcile_safe s s0 o now d :
  valid_db s -> evolves s s0 -> intents s !! id (observed o) = Some (observed o) ->
  ok (reconcile o now d) s0.
Proof.
  intros V Hs Hi. unfold reconcile. destruct (lapsed_at _ _); [done|].
  apply verify_bind. intros s1 r Hs1 He. destruct (payment_found r) as [h|]; [|done].
  apply (safe_catching valid_db evolves).
  - apply (safe_discard valid_db evolves). eapply (settle_read_safe s); eauto. by etransitivity.
  - intros e s2 _. by destruct (isAlreadySettled e).
Qed.

Lemma settleOrExpire_safe s s0 o d :
  valid_db s -> evolves s s0 -> intents s !! id (observed o) = Some (observed o) ->
  ok (settleOrExpire o d) s0.
Proof.
  intros V Hs Hi. apply verify_bind. intros s1 r Hs1 He.
  apply (safe_bind valid_db evolves).
  - destruct (payment_found r) as [h|]; [|done]. apply (safe_catching valid_db evolves).
    + apply (safe_bind valid_db evolves); [|done]. eapply (settle_read_safe s); eauto. by etransitivity.
    + intros e s2 _. by destruct (_ || _).
  - intros [] s2 _; [|done]. apply (safe_discard valid_db evolves). by apply other_transition_safe.
Qed.

Lemma rows_read s i : valid_db s -> i ∈ rows s -> intents s !! id i = Some i.
Proof. intros V (j & Hj)%elem_of_rows. by destruct (v_ids _ _ _ _ V _ _ Hj) as (-> & _). Qed.

Lemma lapsed_rows_read batch now s o :
  valid_db s -> o ∈ lapsed_rows batch now s -> intents s !! id (observed o) = Some (observed o).
Proof.
  intros V Ho%elem_of_take. destruct Ho as (k & Ho & _). apply list_elem_of_lookup_2 in Ho.
  apply list_elem_of_In, in_map_iff in Ho as (i & <- & Hi%list_elem_of_In).
  apply elem_of_lfilter in Hi as [Hi _]. by apply rows_read.
Qed.

Lemma selectPending_bind {B} batch now (f : list ObservedIntent -> prog DB B) s0 :
  (forall s l, evolves s0 s -> valid_db s ->
     (forall o, o ∈ l -> intents s !! id (observed o) = Some (observed o)) -> ok (f l) s) ->
  ok (selectPending batch now ≫= f) s0.
Proof.
  intros Hf. apply wp_bind. unfold selectPending. apply wp_bind, wp_asking; [apply _|]. intros s Hs V.
  destruct (List.map id _) as [|i l]; [apply Hf; try done; by intros o Ho%not_elem_of_nil|].
  apply wp_asking; [apply _|]. intros s' Hs' V'. apply Hf; [by etransitivity | done |].
  intros o Ho. apply list_elem_of_In, in_map_iff in Ho as (x & <- & Hx%list_elem_of_In).
  apply elem_of_lfilter in Hx as [Hx _]. by apply rows_read.
Qed.

Lemma logged_safe p s0 : ok p s0 -> ok (logged p) s0.
Proof. intros H. by apply (safe_catching valid_db evolves). Qed.

Lemma observer_run_safe batch now d s0 : ok (observer_run batch now d) s0.
Proof.
  apply (safe_asking_bind valid_db evolves). intros s Hs V.
  apply (safe_bind valid_db evolves).
  - apply (for_each_safe valid_db evolves _ _ s); [reflexivity|]. intros o s' Ho Hs'. apply logged_safe.
    apply (settleOrExpire_safe s); try done. by apply (lapsed_rows_read batch now).
  - intros u s1 Hs1. apply selectPending_bind. intros s2 l Hs2 V2 Hl.
    apply (for_each_safe valid_db evolves _ _ s2); [reflexivity|]. intros o s' Ho Hs'. apply logged_safe.
    apply (reconcile_safe s2); auto.
Qed.

Lemma observe_lapsed_safe batch n now d s0 : ok (observe_lapsed batch n now d) s0.
Proof.
  apply (safe_asking_bind valid_db evolves). intros s Hs V.
  destruct (_ !! n) as [o|] eqn:Ho; [|done]. apply logged_safe, (settleOrExpire_safe s); try done.
  apply list_elem_of_lookup_2 in Ho. by apply (lapsed_rows_read batch now).
Qed.

Lemma observe_pending_safe batch n started now d s0 : ok (observe_pending batch n started now d) s0.
Proof.
  apply selectPending_bind. intros s l Hs V Hl. destruct (_ !! n) as [o|] eqn:Ho; [|done].
  apply logged_safe, (reconcile_safe s); try done. apply Hl. by apply list_elem_of_lookup_2 in Ho.
Qed.
End safety.
