(* ===== verification/DepositForwarder.v ===== *)
(** src/src/payment-intents/evm-deposit-forwarder.service.ts, with the calldata of
    src/src/evm/payment-forwarder.ts: the job that moves money from Monad deposit
    addresses to merchants and settles the intents it paid. *)

From stdpp Require Import base tactics list option gmap strings sorting.
From Stdlib Require Import ZArith Lia Ascii.
From S2P Require Import Prelude Text Units MerchantFee Intents ChainAddress Rivals Verifier.
From S2P Require Import Webhooks Links PayLinks Programs Store IntentService IntentSafety Observer.

Open Scope Z_scope.

Definition DETERMINISTIC_DEPLOYER : string := "0x4e59b44847b379578588920ca78fbf26c0b4956c".
Definition DEPOSIT_FORWARD_BATCH : nat := 50.
Definition DEPOSIT_WATCH_WINDOW_MS : Z := 30 * 24 * 60 * 60 * 1000.
Definition DEPOSIT_FORWARD_RESEND_MS : Z := 5 * 60 * 1000.

(** ** Calldata *)

Definition deployCalldata (salt initCode : string) : string :=
  ("0x" +:+ word salt +:+ strip_0x initCode)%string.
Definition FLUSH_CALLDATA : string := "0x6b9f96ea".
Definition flushTokenCalldata (token : string) : string := ("0x9cee789f" +:+ word token)%string.

(** ** What one tick is answered *)

(** The node and the relayer: balances by (network, token, address), code by
    (network, address), the receipt's status by (network, hash), and the hash of
    a transaction the relayer sent to an address with some calldata. *)
Record EvmNode := mkNode {
  balance_of : string -> option string -> string -> res Z;
  hasCode : string -> string -> res bool;
  receipt_status : string -> string -> res (option string);
  relayer_send : string -> string -> string -> res string
}.

Record WatchedDeposit := mkWatched { row : EvmDepositAddress; w_intent : option ObservedIntent }.

Definition CLOSED : list PaymentIntentStatus := [SUCCEEDED; FAILED; CANCELLED; EXPIRED].

(** [expectedAmount] *)
Definition expectedAmount (i : PaymentIntent) : res (option Z) :=
  match amount i with
  | None => Ok None
  | Some a =>
      let decimals := if truthy (assetIssuer i) then default (NATIVE_DECIMALS monad) (assetDecimals i)
                      else NATIVE_DECIMALS monad in
      x ← parseUnits a decimals;
      match readMerchantFeeRecord (merchantFee i) with
      | Some f =>
          if bool_decide (rec_paidBy f = MerchantFee.payer)
          then y ← parseUnits (rec_amount f) decimals; Ok (Some (x + y))
          else Ok (Some x)
      | None => Ok (Some x)
      end
  end.

(** [expected === null ? x > 0n : x >= expected] *)
Definition covers (e : option Z) (x : Z) : bool :=
  match e with None => 0 <? x | Some e => e <=? x end.

(** A bigint stored as text. *)
Definition BigInt_of (s : string) : res Z := res_of_option JsError (BigInt_text s).

Definition shouldForward (w : WatchedDeposit) (balance now : Z) : res bool :=
  match w_intent w with
  | None => Ok true
  | Some o =>
      e ← expectedAmount (observed o);
      Ok (covers e balance
          || bool_decide (status (observed o) ∈ CLOSED) || lapsed_at (observed o) now)
  end.

(** ** Writes to evm_deposit_address *)

Definition update_deposit (i : string) (f : EvmDepositAddress -> EvmDepositAddress) : svc DB unit :=
  fun db =>
    if existsb (fun d => bool_decide (ed_id d = i)) (deposits db)
    then (set_deposits (fmap (fun d => if bool_decide (ed_id d = i) then f d else d)) db, Ok tt)
    else (db, Throw JsError).

Definition set_status (st : EvmDepositStatus) (d : EvmDepositAddress) : EvmDepositAddress :=
  mkEvmDeposit (ed_id d) (ed_intentId d) (ed_chain d) (ed_network d) (ed_address d) (ed_salt d)
    (ed_destination d) (ed_token d) (ed_relayer d) (ed_fee d) (ed_feeWallet d) (ed_merchantFee d)
    st (forwardTxHash d) (forwardedAmount d) (forwardSentAt d) (forwardAttempts d) (ed_createdAt d).

Definition set_forwarding (hash : string) (balance now : Z) (d : EvmDepositAddress) : EvmDepositAddress :=
  mkEvmDeposit (ed_id d) (ed_intentId d) (ed_chain d) (ed_network d) (ed_address d) (ed_salt d)
    (ed_destination d) (ed_token d) (ed_relayer d) (ed_fee d) (ed_feeWallet d) (ed_merchantFee d)
    FORWARDING (Some hash) (Some (toString balance)) (Some now) (forwardAttempts d + 1) (ed_createdAt d).

Section forwarder.
(** The address a salt and the forwarder's terms hash to, the creation code of
    the forwarder with those terms, and the node. *)
Context (depositAddress : string -> ForwarderTerms -> string) (initCode : ForwarderTerms -> string).
Context (node : EvmNode).

Definition terms_of_row (d : EvmDepositAddress) (fee merchantFee : Z) : ForwarderTerms :=
  mkForwarderTerms (ed_destination d) (ed_token d) (ed_relayer d) fee
    (match ed_feeWallet d with
     | Some w => if truthy (ed_feeWallet d) && truthy (ed_merchantFee d)
                 then Some (w, merchantFee) else None
     | None => None
     end).

(** The transaction that forwards, or none when the row does not match the
    current forwarder. *)
Definition forward_call (d : EvmDepositAddress) (deployed : bool) (fee merchantFee : Z)
    : option (string * string) :=
  if deployed then
    Some (ed_address d, match ed_token d with
                        | Some t => if truthy (ed_token d) then flushTokenCalldata t else FLUSH_CALLDATA
                        | None => FLUSH_CALLDATA
                        end)
  else
    let terms := terms_of_row d fee merchantFee in
    if bool_decide (depositAddress (ed_salt d) terms = ed_address d)
    then Some (DETERMINISTIC_DEPLOYER, deployCalldata (ed_salt d) (initCode terms))
    else None.

(** What [forwardIfFunded] sends, or none when it waits: the call and the
    balance it moves. *)
Definition forward_decision (w : WatchedDeposit) (now : Z) : res (option (string * string * Z)) :=
  let d := row w in
  balance ← balance_of node (ed_network d)
              (if truthy (ed_token d) then ed_token d else None) (ed_address d);
  if balance =? 0 then Ok None
  else
    fee ← BigInt_of (ed_fee d);
    merchantFee ← (match ed_merchantFee d with
                   | Some m => if truthy (ed_merchantFee d) then BigInt_of m else Ok 0
                   | None => Ok 0
                   end);
    deployed ← hasCode node (ed_network d) (ed_address d);
    if negb deployed && (balance <=? fee + merchantFee) then Ok None
    else
      due ← (if bool_decide (ed_status d = AWAITING) then shouldForward w balance now else Ok true);
      if negb due then Ok None
      else Ok ((fun call => (call, balance)) <$> forward_call d deployed fee merchantFee).

Definition forwardIfFunded (w : WatchedDeposit) (now : Z) : prog DB unit :=
  decision ← pure (forward_decision w now);
  match decision with
  | None => Ret tt
  | Some (to, data, balance) =>
      hash ← pure (relayer_send node (ed_network (row w)) to data);
      stmt (update_deposit (ed_id (row w)) (set_forwarding hash balance now))
  end.

Definition backToAwaiting (w : WatchedDeposit) : prog DB unit :=
  stmt (update_deposit (ed_id (row w)) (set_status AWAITING)).

Definition settle (w : WatchedDeposit) (d : Draw) : prog DB unit :=
  match w_intent w, forwardTxHash (row w), forwardedAmount (row w) with
  | Some o, Some h, Some amt =>
      if negb (truthy (Some h)) || negb (truthy (Some amt)) then Ret tt
      else if bool_decide (status (observed o) ∈ [SUCCEEDED; FAILED; CANCELLED]) then Ret tt
      else
        e ← pure (expectedAmount (observed o));
        forwarded ← pure (BigInt_of amt);
        if negb (covers e forwarded) then Ret tt
        else discard (markSucceeded (id (observed o)) (apisixUsername o) h None A_observer d)
  | _, _, _ => Ret tt
  end.

Definition confirm (w : WatchedDeposit) (now : Z) (d : Draw) : prog DB unit :=
  receipt ← pure (match forwardTxHash (row w) with
                  | Some h => if truthy (Some h) then receipt_status node (ed_network (row w)) h
                              else Ok None
                  | None => Ok None
                  end);
  match receipt with
  | None =>
      if DEPOSIT_FORWARD_RESEND_MS <? now - default 0 (forwardSentAt (row w))
      then backToAwaiting w else Ret tt
  | Some st =>
      if negb (bool_decide (st = "0x1"%string)) then backToAwaiting w
      else
        _ ← stmt (update_deposit (ed_id (row w)) (set_status FORWARDED));
        settle w d
  end.

(** The tick's query, with each row's intent joined in. *)
Definition watched_row (now : Z) (d : EvmDepositAddress) : bool :=
  (now - DEPOSIT_WATCH_WINDOW_MS <=? ed_createdAt d)
  && (bool_decide (ed_status d ∈ [AWAITING; FORWARDING])
      || (bool_decide (ed_status d = FORWARDED) && bool_decide (is_Some (ed_token d)))).

Definition oldest_deposit (a b : EvmDepositAddress) : Prop := ed_createdAt a <= ed_createdAt b.
#[local] Instance oldest_deposit_dec : RelDecision oldest_deposit.
Proof. intros a b. unfold oldest_deposit. apply _. Defined.

Definition join_intent (db : DB) (d : EvmDepositAddress) : WatchedDeposit :=
  mkWatched d (i ← ed_intentId d; with_consumer db <$> intents db !! i).

Definition watched (now : Z) (db : DB) : list WatchedDeposit :=
  List.map (join_intent db)
    (take DEPOSIT_FORWARD_BATCH (merge_sort oldest_deposit (List.filter (watched_row now) (deposits db)))).

Definition forward_one (w : WatchedDeposit) (now : Z) (d : Draw) : prog DB unit :=
  if bool_decide (ed_status (row w) = FORWARDING) then confirm w now d else forwardIfFunded w now.

(** One tick; [d i] are the draws of the event of deposit [i]'s intent. *)
Definition forwarder_run (now : Z) (d : string -> Draw) : prog DB unit :=
  batch ← asking (watched now);
  for_each batch (fun w => logged (forward_one w now (d (ed_id (row w))))).
End forwarder.
