(* ===== verification/IntentPool.v ===== *)
(** The payment-intents module under concurrency: requests, observer passes and
    forwarder ticks whose statements interleave in any order, processes that die
    between two statements, verifiers that answer differently as the chains move,
    and the webhooks module at work on its own tables. *)

From stdpp Require Import base tactics list option gmap strings sorting.
From Stdlib Require Import ZArith Lia Ascii.
From S2P Require Import Prelude Text Units MerchantFee Intents ChainAddress Rivals Verifier.
From S2P Require Import Webhooks StellarVerifier SolanaVerifier EvmVerifier Links PayLinks.
From S2P Require Import Programs Store IntentService IntentSafety Observer DepositForwarder.

Open Scope Z_scope.

(** ** Requests *)

(** What an HTTP route or an observer worker runs. *)
Inductive intent_request (env : Env) : prog DB unit -> Prop :=
  | rq_createTx c amount dto d : intent_request env (discard (createTx env c amount dto d))
  | rq_createPay c dto d : intent_request env (discard (createPay env c dto d))
  | rq_findAll c q : intent_request env (discard (findAll env c q))
  | rq_findOne u i : intent_request env (discard (findOne env u i))
  | rq_update u i dto d : intent_request env (discard (update env u i dto d))
  | rq_remove u i d : intent_request env (discard (IntentService.remove u i d))
  | rq_validate u i h d : intent_request env (discard (validate env u i h d))
  | rq_transitions u i : intent_request env (discard (listTransitions u i))
  | rq_observe_lapsed b n t d : intent_request env (observe_lapsed b n t d)
  | rq_observe_pending b n t t' d : intent_request env (observe_pending b n t t' d)
  | rq_observe b t d : intent_request env (observer_run b t d).

(** ... and what the deposit forwarder runs. *)
Inductive any_request (env : Env) (initCode : ForwarderTerms -> string) : prog DB unit -> Prop :=
  | rq_intent p : intent_request env p -> any_request env initCode p
  | rq_forward node t d :
      any_request env initCode (forwarder_run (depositAddress env) initCode node t d).

(** ** The chains

    The nodes the three verifiers ask, and the verifiers over them. *)
Record Nodes := mkNodes {
  horizons : StellarService;
  solana_rpc : SolanaRpc;
  evm_rpc : EvmRpc
}.

Definition verifiers_of (keccak : string -> string) (n : Nodes) : PaymentVerifiers := fun c =>
  match c with
  | stellar => StellarVerifierService (horizons n)
  | solana => SolanaVerifierService (solana_rpc n)
  | monad => EvmVerifierService keccak (evm_rpc n)
  end.

(** At one of the [moments], the nodes of chain [c] show that [h] pays [i], or
    that it is a failed attempt to. *)
Definition paid (moments : Nodes -> Prop) (c : Chain) (i : PaymentIntent) (h : string) : Prop :=
  exists n, moments n /\
  match c with
  | stellar => stellar_pays (horizons n) i h
  | solana => solana_pays (solana_rpc n) i h
  | monad => evm_pays (evm_rpc n) i h
  end.
Definition attempted (moments : Nodes -> Prop) (c : Chain) (i : PaymentIntent) (h : string) : Prop :=
  exists n, moments n /\
  match c with
  | stellar => stellar_attempts (horizons n) i h
  | solana => solana_attempts (solana_rpc n) i h
  | monad => evm_attempts (evm_rpc n) i h
  end.

Lemma laws_weaken c v (P P' Q Q' : PaymentIntent -> string -> Prop) :
  (forall i h, P i h -> P' i h) -> (forall i h, Q i h -> Q' i h) ->
  VerifierLaws c v P Q -> VerifierLaws c v P' Q'.
Proof.
  intros HP HQ [L1 L2 L3 L4]. split; [| | |done].
  - intros i h r H V. destruct (L1 i h r H V) as [? ?]. auto.
  - intros i h r H V. destruct (L2 i h r H V) as [? ?]. auto.
  - intros i r H V. destruct (L3 i r H V) as (h & ? & ?). eauto.
Qed.

Lemma verifiers_lawful moments keccak n :
  moments n -> lawful (paid moments) (attempted moments) (verifiers_of keccak n).
Proof.
  intros Hn [| |]; (eapply laws_weaken; [| |apply _]); intros i h H; by exists n.
Qed.

(** What else happens: the chains move on, the webhooks module works. *)
Inductive world_step (moments : Nodes -> Prop) (keccak : string -> string) : DB -> DB -> Prop :=
  | nodes_move n db : moments n -> world_step moments keccak db (set_ledger (verifiers_of keccak n) db)
  | hooks_work cfg h db : hook_step cfg (hooks db) h -> world_step moments keccak db (set_hooks h db).

(** The same, for verifiers known only by their law. *)
Inductive outside (vouched attempts : Chain -> PaymentIntent -> string -> Prop) : DB -> DB -> Prop :=
  | chains_move v db : lawful vouched attempts v -> outside vouched attempts db (set_ledger v db)
  | hooks_move cfg h db : hook_step cfg (hooks db) h -> outside vouched attempts db (set_hooks h db).

Section pool.
Context (env : Env) `{!Inj (=) (=) (cuid env)}.
Context (vouched attempts : Chain -> PaymentIntent -> string -> Prop).
#[local] Abbreviation valid_db := (valid_db (cuid env) vouched attempts).
#[local] Abbreviation evolves := (evolves (cuid env)).
#[local] Abbreviation ok := (safe valid_db evolves).

Lemma intent_request_safe p s : intent_request env p -> ok p s.
Proof.
  destruct 1; try (apply (safe_discard valid_db evolves)).
  - by apply createTx_safe.
  - by apply createPay_safe.
  - apply findAll_safe.
  - apply findOne_safe.
  - by apply update_safe.
  - by apply remove_safe.
  - by apply validate_safe.
  - apply listTransitions_safe.
  - by apply observe_lapsed_safe.
  - by apply observe_pending_safe.
  - by apply observer_run_safe.
Qed.

Lemma outside_ok s s' :
  outside vouched attempts s s' -> valid_db s -> valid_db s' /\ evolves s s'.
Proof.
  destruct 1; intros V; apply (ok_elsewhere (cuid env) vouched attempts db); try done; apply V.
Qed.

(** *** The forwarder, when every settlement counts as vouched for *)

Context (Hall : forall c i h, vouched c i h).

Lemma any_evidence i h : evidence vouched i h.
Proof. intros ch _. exists i, h. split_and!; [reflexivity | apply Hall | done]. Qed.

Lemma update_deposit_safe i f s : ok (stmt (update_deposit i f)) s.
Proof.
  apply safe_stmt. intros s' _ V. unfold update_deposit. destruct (existsb _ _); [|by split].
  apply (ok_elsewhere (cuid env) vouched attempts s'); try done. apply V.
Qed.

Lemma settle_safe w d s : ok (settle w d) s.
Proof.
  unfold settle. destruct (w_intent w) as [o|]; [|done]. destruct (forwardTxHash (row w)); [|done].
  destruct (forwardedAmount (row w)); [|done]. destruct (_ || _); [done|]. case_bool_decide; [done|].
  apply (safe_pure_bind valid_db evolves). intros e _. apply (safe_pure_bind valid_db evolves).
  intros x _. destruct (covers e x); simpl negb; cbn iota; [|done].
  apply (safe_discard valid_db evolves), markSucceeded_safe; [done|].
  intros s' c _ _ _. apply any_evidence.
Qed.

Lemma forward_one_safe da ic node w t d s : ok (forward_one da ic node w t d) s.
Proof.
  unfold forward_one. case_bool_decide.
  - apply (safe_pure_bind valid_db evolves). intros [st|] _; [|case_match; [apply update_deposit_safe|done]].
    destruct (negb _); [apply update_deposit_safe|].
    apply (safe_bind valid_db evolves); [apply update_deposit_safe|]. intros u s' _. apply settle_safe.
  - apply (safe_pure_bind valid_db evolves). intros [[[to data] b]|] _; [|done].
    apply (safe_pure_bind valid_db evolves). intros h _. apply update_deposit_safe.
Qed.

Lemma forwarder_run_safe da ic node t d s : ok (forwarder_run da ic node t d) s.
Proof.
  apply (safe_asking_bind valid_db evolves). intros s' Hs V. apply (for_each_safe valid_db evolves _ _ s'); [reflexivity|].
  intros w s'' _ _. apply logged_safe, forward_one_safe.
Qed.

Lemma any_request_safe ic p s : any_request env ic p -> ok p s.
Proof. destruct 1; [by apply intent_request_safe | apply forwarder_run_safe]. Qed.
End pool.

(** ** Executions *)

Definition empty_db (v : PaymentVerifiers) : DB :=
  mkDB ∅ [] [] [] [] [] (mkHooks [] [] [] []) v 0.

(** From an empty database and nodes of a first moment, with [request]s arriving. *)
Definition executes (env : Env) (moments : Nodes -> Prop) (request : prog DB unit -> Prop)
    (l : list (prog DB unit)) (s : DB) : Prop :=
  exists n, moments n /\
  star (pool_step request (world_step moments (keccak_hex env)))
    ([], empty_db (verifiers_of (keccak_hex env) n)) (l, s).

Definition everything (c : Chain) (i : PaymentIntent) (h : string) : Prop := True.

Section executions.
Context (env : Env) `{!Inj (=) (=) (cuid env)} (moments : Nodes -> Prop).

Lemma empty_valid vouched attempts v :
  lawful vouched attempts v -> valid_db (cuid env) vouched attempts (empty_db v).
Proof.
  intros L. split; simpl; try done.
  all: try constructor.
  all: intros; exfalso; by eapply not_elem_of_nil.
Qed.

Lemma world_step_outside (vouched attempts : Chain -> PaymentIntent -> string -> Prop) s s' :
  (forall c i h, paid moments c i h -> vouched c i h) ->
  (forall c i h, attempted moments c i h -> attempts c i h) ->
  world_step moments (keccak_hex env) s s' -> outside vouched attempts s s'.
Proof.
  intros Hp Ha. destruct 1 as [n db Hn|cfg h db Hh]; [apply chains_move | by eapply hooks_move].
  intros c. eapply laws_weaken; [by apply Hp | by apply Ha|]. by apply verifiers_lawful.
Qed.

(** With the forwarder, every settlement counts as vouched for. *)
Lemma any_execution ic l s l' s' :
  executes env moments (any_request env ic) l s ->
  star (pool_step (any_request env ic) (world_step moments (keccak_hex env))) (l, s) (l', s') ->
  valid_db (cuid env) everything everything s
  /\ valid_db (cuid env) everything everything s' /\ evolves (cuid env) s s'.
Proof.
  intros (n & Hn & Hrun) Hrun'.
  assert (forall s s', world_step moments (keccak_hex env) s s' ->
    valid_db (cuid env) everything everything s ->
    valid_db (cuid env) everything everything s' /\ evolves (cuid env) s s') as Hw.
  { intros a b Hab. apply outside_ok. by eapply world_step_outside; [..|exact Hab]. }
  destruct (pool_safe (valid_db (cuid env) everything everything) (evolves (cuid env))
    (any_request env ic) (world_step moments (keccak_hex env)) [] (empty_db (verifiers_of (keccak_hex env) n)) l s) as (Hl & V & _); try done.
  { intros p s1 Hp _. by eapply any_request_safe. }
  { apply empty_valid. intros c. by eapply laws_weaken, (verifiers_lawful moments). }
  destruct (pool_safe (valid_db (cuid env) everything everything) (evolves (cuid env))
    (any_request env ic) (world_step moments (keccak_hex env)) l s l' s') as (_ & V' & Hev) ; try done.
  intros p s1 Hp _. by eapply any_request_safe.
Qed.

Lemma verified_execution l s :
  executes env moments (intent_request env) l s ->
  valid_db (cuid env) (paid moments) (attempted moments) s.
Proof.
  intros (n & Hn & Hrun).
  destruct (pool_safe (valid_db (cuid env) (paid moments) (attempted moments)) (evolves (cuid env))
    (intent_request env) (world_step moments (keccak_hex env)) []
    (empty_db (verifiers_of (keccak_hex env) n)) l s) as (_ & V & _); try done.
  - intros p s1 Hp _. by apply intent_request_safe.
  - intros a b Hab. apply outside_ok. by eapply world_step_outside; [..|exact Hab].
  - by apply empty_valid, verifiers_lawful.
Qed.
End executions.

Lemma nodup_fmap_eq {A B} (f : A -> B) (l : list A) x y :
  NoDup (f <$> l) -> x ∈ l -> y ∈ l -> f x = f y -> x = y.
Proof.
  induction l as [|a l IH]; [by intros _ H%not_elem_of_nil|].
  rewrite fmap_cons, NoDup_cons. intros [Ha Hl] [->|Hx]%elem_of_cons [->|Hy]%elem_of_cons E; auto.
  - destruct Ha. rewrite E. by apply list_elem_of_fmap_2.
  - destruct Ha. rewrite <- E. by apply list_elem_of_fmap_2.
Qed.

Lemma nodup_omap_eq {A B} (f : A -> option B) (l : list A) x y b :
  NoDup (omap f l) -> x ∈ l -> y ∈ l -> f x = Some b -> f y = Some b -> x = y.
Proof.
  induction l as [|a l IH]; [by intros _ H%not_elem_of_nil|]. simpl.
  assert (forall z, z ∈ l -> f z = Some b -> b ∈ omap f l) as Hin.
  { intros z Hz E. apply list_elem_of_omap. eauto. }
  intros Hn [->|Hx]%elem_of_cons [->|Hy]%elem_of_cons Ex Ey; [done| | |].
  - rewrite Ex in Hn. apply NoDup_cons in Hn as [Hb _]. destruct Hb. eauto.
  - rewrite Ey in Hn. apply NoDup_cons in Hn as [Hb _]. destruct Hb. eauto.
  - apply IH; try done. destruct (f a); [by apply NoDup_cons in Hn as [_ ?] | done].
Qed.

(** ** Properties *)

(** C1: one payment, one intent, for good. However the requests of any number of
    consumers, the observer, the forwarder, the webhooks module and the movement
    of the chains interleave, and wherever processes die: a SUCCEEDED intent
    holds exactly one settlement claim, on its own chain and network; no
    (chain, network, transaction) is claimed twice; and an intent once SUCCEEDED
    is never deleted, never leaves SUCCEEDED and keeps its payment terms. *)
Theorem settlement_exclusive (env : Env) (moments : Nodes -> Prop) (initCode : ForwarderTerms -> string)
    (l l' : list (prog DB unit)) (s s' : DB) :
  Inj (=) (=) (cuid env) ->
  executes env moments (any_request env initCode) l s ->
  star (pool_step (any_request env initCode) (world_step moments (keccak_hex env))) (l, s) (l', s') ->
  (forall i r, intents s' !! i = Some r -> status r = SUCCEEDED ->
     exists c, c ∈ settlements s' /\ s_intentId c = Some i /\ s_chain c = chain r /\ s_network c = network r
     /\ forall c', c' ∈ settlements s' -> s_intentId c' = Some i -> c' = c)
  /\ (forall c c', c ∈ settlements s' -> c' ∈ settlements s' -> claim_key c = claim_key c' -> c = c')
  /\ (forall i r, intents s !! i = Some r -> status r = SUCCEEDED ->
       exists r', intents s' !! i = Some r' /\ status r' = SUCCEEDED /\ same_intent r r').
Proof.
  intros Hinj Hrun Hrun'. destruct (any_execution env moments initCode l s l' s' Hrun Hrun') as (V & V' & Hev).
  split_and!.
  - intros i r Hr E. destruct (v_settled _ _ _ _ V' i r Hr E) as (c & Hc & Hi).
    destruct (v_claims _ _ _ _ V' c i Hc Hi) as (x & _ & ch & _ & Hx & _ & Ech & Ech' & En & _).
    simplify_eq. exists c. split_and!; try done; [congruence|]. intros c' Hc' Hi'.
    by eapply nodup_omap_eq; [apply (v_claim_intents _ _ _ _ V')|..].
  - intros c c' Hc Hc'. by apply nodup_fmap_eq with (l := settlements s'); [apply (v_claim_keys _ _ _ _ V')|..].
  - intros i r Hr E. destruct (ev_settled _ _ _ Hev i r Hr E) as (r' & Hr' & E').
    exists r'. split_and!; try done. by eapply (read_later (cuid env) everything everything s s').
Qed.

(** C2: a settlement is backed by the chain. Whatever the interleaving of HTTP
    requests and observer passes, every SUCCEEDED intent holds a claim on a
    transaction that, at one of the moments of the chains the service has seen,
    its own chain's nodes showed as a successful payment of that very intent (the
    same row but for its mutable columns): the memo, destination, amount, asset,
    fee and age conditions of that chain's verifier. *)
Theorem settlement_paid_on_chain (env : Env) (moments : Nodes -> Prop) (l : list (prog DB unit)) (s : DB)
    (i : string) (r : PaymentIntent) :
  Inj (=) (=) (cuid env) ->
  executes env moments (intent_request env) l s ->
  intents s !! i = Some r -> status r = SUCCEEDED ->
  exists c ch h r0, c ∈ settlements s /\ s_intentId c = Some i
  /\ chain r = chain_name ch /\ s_chain c = chain_name ch /\ s_network c = network r
  /\ s_txHash c = normalizeTxId ch h /\ same_intent r0 r /\ paid moments ch r0 h.
Proof.
  intros Hinj Hrun Hr E. pose proof (verified_execution env moments l s Hrun) as V.
  destruct (v_settled _ _ _ _ V i r Hr E) as (c & Hc & Hi).
  destruct (v_claims _ _ _ _ V c i Hc Hi) as (x & r0 & ch & h & Hx & _ & ? & ? & ? & ? & ? & ?).
  simplify_eq. exists c, ch, h, r0. by split_and!.
Qed.

(** C3: the audit trail replays. Whatever the interleaving, the transition rows
    of an intent, in the order they were written, spell a path of the declared
    status graph from PENDING to the status the row has, and every step into
    SUCCEEDED carries a transaction hash. *)
Theorem audit_trail_replays (env : Env) (moments : Nodes -> Prop) (initCode : ForwarderTerms -> string)
    (l : list (prog DB unit)) (s : DB) (i : string) (r : PaymentIntent) :
  Inj (=) (=) (cuid env) ->
  executes env moments (any_request env initCode) l s ->
  intents s !! i = Some r -> trail PENDING (audit i s) (status r).
Proof.
  intros Hinj Hrun Hr.
  destruct (any_execution env moments initCode l s l s Hrun (star_refl _ _)) as (V & _ & _).
  by apply (v_audit _ _ _ _ V).
Qed.

(** ** Witnesses: a shop's intent, a copy of it by another consumer, the payment
    reported for the copy first and then for the original *)

Definition sample_env : Env :=
  mkEnv (fun n => repeat_char (S n) "c"%char) "public" 3600 "https://pay" None (fun _ => true)
    (fun s => s) sample_deposit_address (fun u => Ok u).

#[export] Instance sample_ids : Inj (=) (=) (cuid sample_env).
Proof.
  intros a b E. apply (f_equal String.length) in E. simpl in E. rewrite !repeat_char_length in E. lia.
Qed.

Definition sample_nodes : Nodes :=
  mkNodes (fun _ => mkHorizon
      (fun h => if bool_decide (h = sample_hash) then Answered sample_tx else Failed (Some 404))
      (fun _ => Answered [sample_op "25.5000000" sample_hash 100000 sample_tx])
      (fun _ n => Answered (match n with O => [sample_op "25.5000000" sample_hash 100000 sample_tx] | _ => [] end)))
    sample_solana_rpc sample_evm_rpc.

Definition sample_create (t : Z) : CreateDraw :=
  mkCreateDraw 7 t (Ok tt) (fun _ => Ok "AAAA"%string) (sample_reads false) sample_linkdraw "dep" sample_draw.
Definition sample_dto : CreatePaymentIntentDto :=
  mkCreate None "" "GDEST" (Some "25.5"%string) None None (Some "7"%string) None None None None.

Definition sample_requests : list (prog DB unit) :=
  [discard (createPay sample_env (mkConsumer "shop" None) sample_dto (sample_create 90000));
   discard (createPay sample_env (mkConsumer "copy" None) sample_dto (sample_create 95000));
   discard (validate sample_env "copy" "cccc" sample_hash sample_draw);
   discard (validate sample_env "shop" "cc" sample_hash sample_draw)].

Definition sample_db : DB := run_all sample_requests (empty_db (verifiers_of (fun s => s) sample_nodes)).

Lemma sample_requested : Forall (intent_request sample_env) sample_requests.
Proof.
  apply Forall_cons_2; [apply rq_createPay|]. apply Forall_cons_2; [apply rq_createPay|].
  apply Forall_cons_2; [apply rq_validate|]. apply Forall_cons_2; [apply rq_validate|].
  apply Forall_nil_2.
Qed.

Lemma sample_executes ic :
  exists l, executes sample_env (fun n => n = sample_nodes) (any_request sample_env ic) l sample_db.
Proof.
  destruct (pool_run_all (any_request sample_env ic)
    (world_step (fun n => n = sample_nodes) (keccak_hex sample_env)) sample_requests []
    (empty_db (verifiers_of (fun s => s) sample_nodes))) as [l Hl].
  { eapply Forall_impl; [exact sample_requested|]. intros p Hp. exact (rq_intent _ _ p Hp). }
  exists l, sample_nodes. split; [done | exact Hl].
Qed.

Lemma sample_executes_verified :
  exists l, executes sample_env (fun n => n = sample_nodes) (intent_request sample_env) l sample_db.
Proof.
  destruct (pool_run_all (intent_request sample_env)
    (world_step (fun n => n = sample_nodes) (keccak_hex sample_env)) sample_requests []
    (empty_db (verifiers_of (fun s => s) sample_nodes))) as [l Hl].
  { exact sample_requested. }
  exists l, sample_nodes. split; [done | exact Hl].
Qed.

(** The original settled, although the copy was asked about first. *)
Definition settled_row : PaymentIntent := default (sample_intent "" "" "" 0) (intents sample_db !! "cc"%string).

Lemma sample_settled :
  intents sample_db !! "cc"%string = Some settled_row /\ status settled_row = SUCCEEDED
  /\ (status <$> intents sample_db !! "cccc"%string) = Some PENDING.
Proof. split_and!; vm_compute; reflexivity. Qed.

Lemma settlement_exclusive_witness :
  exists c, c ∈ settlements sample_db /\ s_intentId c = Some "cc"%string
  /\ s_chain c = "stellar"%string /\ s_network c = "public"%string
  /\ forall c', c' ∈ settlements sample_db -> s_intentId c' = Some "cc"%string -> c' = c.
Proof.
  destruct (sample_executes (fun _ => ""%string)) as [l Hl].
  exact (proj1 (settlement_exclusive sample_env _ (fun _ => ""%string) l l sample_db sample_db _ Hl
    (star_refl _ _)) "cc"%string settled_row (proj1 sample_settled) (proj1 (proj2 sample_settled))).
Defined.

Lemma settlement_paid_on_chain_witness :
  exists c ch h r0, c ∈ settlements sample_db /\ s_intentId c = Some "cc"%string
  /\ chain settled_row = chain_name ch /\ s_chain c = chain_name ch /\ s_network c = network settled_row
  /\ s_txHash c = normalizeTxId ch h /\ same_intent r0 settled_row
  /\ paid (fun n => n = sample_nodes) ch r0 h.
Proof.
  destruct sample_executes_verified as [l Hl].
  exact (settlement_paid_on_chain sample_env _ l sample_db "cc" settled_row _ Hl
    (proj1 sample_settled) (proj1 (proj2 sample_settled))).
Defined.

Lemma audit_trail_replays_witness :
  trail PENDING (audit "cc" sample_db) SUCCEEDED /\ length (audit "cc" sample_db) = 1%nat.
Proof.
  destruct (sample_executes (fun _ => ""%string)) as [l Hl].
  split; [|vm_compute; reflexivity].
  rewrite <- (proj1 (proj2 sample_settled)).
  exact (audit_trail_replays sample_env _ (fun _ => ""%string) l sample_db "cc" settled_row _ Hl
    (proj1 sample_settled)).
Defined.
