(* ===== verification/IntentBehaviour.v ===== *)
(** What the operations of the payment-intents service answer and change when
    they run alone: idempotent creates, settlement in favour of the oldest
    claimant, expiry only on the chain's word and the fairness of the observer's
    batch; and one interleaving that loses a settled hash. *)

From stdpp Require Import base tactics list option gmap strings sorting.
From Stdlib Require Import ZArith Lia Ascii.
From S2P Require Import Prelude Text Units MerchantFee Intents ChainAddress Rivals Verifier.
From S2P Require Import Webhooks StellarVerifier SolanaVerifier EvmVerifier Links PayLinks.
From S2P Require Import Programs Store IntentService IntentSafety Observer DepositForwarder.
From S2P Require Import IntentPool.

Open Scope Z_scope.

(** ** Runs *)

Lemma run_emit user t i d s :
  exists h, run (emit user t i d) s = (set_hooks h s, snd (Webhooks.emit user t (intent_json i) d (hooks s)))
  /\ h = fst (Webhooks.emit user t (intent_json i) d (hooks s)).
Proof. eexists. split; [|done]. unfold emit. by rewrite run_stmt. Qed.

(** An event of a row with an id is always accepted. *)
Lemma emit_intent_Ok user t i d h :
  id i <> ""%string -> exists b, snd (Webhooks.emit user t (intent_json i) d h) = Ok b.
Proof.
  intros Hi. unfold Webhooks.emit. destruct (isTerminalWebhookEvent t); [|by eexists].
  cbn [negb]. assert (resourceIdOf (intent_json i) = Some (id i)) as -> by done.
  destruct (id i) as [|a r] eqn:E; [done|]. unfold claimAndRecord, catch, transaction, mbind, svc_bind, insert_emitted.
  case_bool_decide; simpl; by eexists.
Qed.

Lemma sameMerchantFee_stored t fee d asset :
  0 <= fixed t ->
  sameMerchantFee (record_json (merchantFeeRecord t fee d asset)) (Some t) d = true.
Proof.
  intros Hf. unfold sameMerchantFee. rewrite read_record_json. unfold merchantFeeRecord.
  cbn [rec_fixed rec_bps rec_wallet rec_paidBy]. rewrite parse_format_units by done. simpl.
  by rewrite !Z.eqb_refl, !bool_decide_true.
Qed.

(** ** Replays on the chain's own coin *)

(** an identical retry is refused. A PAY intent in a chain's native coin on
    Solana or Monad whose merchant fee has a fixed part is stored without asset
    decimals; its replay reads the request's fixed part in the coin's decimals
    but compares it with the stored one in Stellar's seven, so a retry of the
    very request that made it answers 409 [idempotency_conflict]. *)
Theorem native_fee_replay_refused (env : Env) (c : Chain) (stored : PaymentIntent)
    (t : MerchantFeeTerms) (fee : Z) (code : string) :
  c <> stellar -> assetDecimals stored = None -> 0 < fixed t ->
  merchantFee stored = record_json (merchantFeeRecord t fee (NATIVE_DECIMALS c) code) ->
  replayOf env (Some stored) (terms_of stored) (Some t) = Throw (conflict IdempotencyConflict).
Proof.
  intros Hc Hd Hf Hm. unfold replayOf. rewrite isSameIntentRequest_refl, Hd, Hm.
  change (default STELLAR_DECIMALS None) with STELLAR_DECIMALS.
  assert (sameMerchantFee (record_json (merchantFeeRecord t fee (NATIVE_DECIMALS c) code)) (Some t)
    STELLAR_DECIMALS = false) as ->; [|done].
  unfold sameMerchantFee. rewrite read_record_json. unfold merchantFeeRecord. cbn [rec_fixed].
  destruct (parseUnits (formatUnits (fixed t) (NATIVE_DECIMALS c)) STELLAR_DECIMALS) as [x|] eqn:E; [|done].
  pose proof (parse_format_units (fixed t) (NATIVE_DECIMALS c) ltac:(lia)) as E'.
  pose proof (parseUnits_nonneg _ _ _ E) as Hx.
  apply (parseUnits_rescale _ _ (NATIVE_DECIMALS c)) in E; [|destruct c; [done | vm_compute; lia ..]].
  rewrite E in E'. injection E' as E'.
  assert ((x =? fixed t) = false) as ->; [|by rewrite andb_false_r].
  apply Z.eqb_neq. intros ->. destruct c; [done | |]; vm_compute (10 ^ _) in E'; lia.
Qed.

(** ** Idempotent creates *)

Lemma resolve_again cuid u s s0 cid s' :
  resolve_consumer cuid u s = (s0, Ok cid) -> consumers s' = consumers s0 ->
  resolve_consumer cuid u s' = (s', Ok cid).
Proof.
  unfold resolve_consumer, consumer_id. intros H ->.
  destruct (snd <$> List.find _ (consumers s)) as [c|] eqn:E.
  - injection H as <- <-. by rewrite E.
  - injection H as <- <-. simpl. rewrite find_app. destruct (List.find _ (consumers s)); [done|].
    simpl. by rewrite bool_decide_true.
Qed.

Lemma findByMemo_Some cid m s r : findByMemo cid m s = Some r -> consumerId r = cid /\ memo r = m.
Proof. intros H%List.find_some. destruct H as [_ H]. by bool_facts. Qed.

Lemma findByMemo_unique cuid vouched attempts cid m s i r :
  valid_db cuid vouched attempts s -> intents s !! i = Some r -> consumerId r = cid -> memo r = m ->
  findByMemo cid m s = Some r.
Proof.
  intros V Hr Hc Hm. unfold findByMemo. destruct (List.find _ (rows s)) as [x|] eqn:E.
  - apply List.find_some in E as [Hx E]. bool_facts. apply list_elem_of_In, elem_of_rows in Hx as [j Hx].
    assert (j = i) as -> by (eapply (v_memo _ _ _ _ V); [done..| |]; congruence). congruence.
  - assert (r ∈ rows s) as Hin by (apply elem_of_rows; eauto). apply list_elem_of_In in Hin.
    apply (List.find_none _ _ E) in Hin. by rewrite !bool_decide_true in Hin.
Qed.

Lemma run_persist env terms n t s :
  run (persist env terms n t None) s =
  match violated (new_row env terms n t (cuid env (minted s))) s with
  | Some _ => (s, Ok None)
  | None => (mint_id (set_intents (fun m =>
               <[cuid env (minted s) := new_row env terms n t (cuid env (minted s))]> m) s),
             Ok (Some (new_row env terms n t (cuid env (minted s)))))
  end.
Proof.
  unfold persist. rewrite run_catching, run_bind, run_stmt. unfold create_row.
  by destruct (violated _ s).
Qed.

(** The stored fee answers the request that made it. *)
Lemma stellarMerchantFee_same env dto asset a others sm :
  stellarMerchantFee env dto asset a others = Ok sm ->
  sameMerchantFee (merchantFeeColumn (sm_record <$> sm)) (sm_terms <$> sm) STELLAR_DECIMALS = true.
Proof.
  unfold stellarMerchantFee. destruct (resolveMerchantFee _ _ _) as [[t|]|] eqn:Et; [| |done].
  - cbn [mbind res_bind]. case_bool_decide; [done|]. destruct (toStroops a) as [x|]; [|done].
    cbn [mbind res_bind]. destruct (assertMerchantFeeCovered _ _); [|done]. cbn [mbind res_bind].
    destruct (fromStroops _); [|done]. intros [= <-]. cbn.
    apply resolve_Some in Et as (_ & Hf & _). by apply sameMerchantFee_stored.
  - by intros [= <-].
Qed.

Lemma replay_stored env stored terms merchant :
  terms_of stored = terms -> assetDecimals stored = None ->
  sameMerchantFee (merchantFee stored) merchant STELLAR_DECIMALS = true ->
  replayOf env (Some stored) terms merchant = view env stored.
Proof.
  intros <- Hd Hs. unfold replayOf. rewrite isSameIntentRequest_refl, Hd.
  change (default STELLAR_DECIMALS None) with STELLAR_DECIMALS. by rewrite Hs.
Qed.

Lemma replay_Ok env stored terms merchant v :
  replayOf env stored terms merchant = Ok v ->
  exists r, stored = Some r /\ view env r = Ok v /\ replayOf env (Some r) terms merchant = Ok v.
Proof.
  intros H. pose proof H as H'. unfold replayOf in H. destruct stored as [r|]; [|done].
  destruct (_ || _); [done|]. eauto.
Qed.

(** After a create that answered [v], its memo finds an intent that answers its
    replays with [v]. *)
Definition answers_replays (env : Env) (cid m : string) (terms : PaymentIntentTerms)
    (merchant : option MerchantFeeTerms) (v : PaymentIntentView) (s : DB) : Prop :=
  exists stored, findByMemo cid m s = Some stored /\ replayOf env (Some stored) terms merchant = Ok v.

(** The announcement of a new row changes no table of the module. *)
Lemma run_announce env user i d s s1 v :
  run (_ ← emit user PAYMENT_INTENT_CREATED i d; withQr env i) s = (s1, Ok v) ->
  view env i = Ok v /\ intents s1 = intents s /\ consumers s1 = consumers s.
Proof.
  rewrite run_bind. destruct (run_emit user PAYMENT_INTENT_CREATED i d s) as (h & -> & _).
  destruct (snd _); [|done]. unfold withQr. rewrite run_pure. by intros [= <- ->].
Qed.

(** The part of a Stellar create after its validation. *)
Definition insert_and_announce (env : Env) (user cid m : string) (terms : PaymentIntentTerms)
    (merchant : option MerchantFeeTerms) (n : NewColumns) (t : Z) (link : option (string -> string))
    (d : Draw) : prog DB PaymentIntentView :=
  intent ← persist env terms n t None;
  match intent with
  | None => stored ← asking (findByMemo cid m); pure (replayOf env stored terms merchant)
  | Some intent =>
      intent ← (match link with
                | Some f => stmt (update_row (id intent)
                    (mkPatch None None None None None None (Some (f (id intent)))))
                | None => Ret intent
                end);
      _ ← emit user PAYMENT_INTENT_CREATED intent d;
      withQr env intent
  end.

Lemma update_row_Ok i p s s1 u :
  update_row i p s = (s1, Ok u) ->
  exists r, intents s !! i = Some r /\ u = apply_patch p r /\ s1 = set_intents (fun m => <[id r := u]> m) s.
Proof.
  unfold update_row, write. destruct (intents s !! i) as [r|]; [|done].
  destruct (violated _ s); [done|]. intros [= <- <-]. by exists r.
Qed.

Lemma insert_answers env user cid m terms merchant n t link d s s1 v vouched attempts :
  valid_db (cuid env) vouched attempts s1 ->
  findByMemo cid m s = None -> n_consumerId n = cid -> n_memo n = m -> n_assetDecimals n = None ->
  sameMerchantFee (n_merchantFee n) merchant STELLAR_DECIMALS = true ->
  run (insert_and_announce env user cid m terms merchant n t link d) s = (s1, Ok v) ->
  answers_replays env cid m terms merchant v s1 /\ consumers s1 = consumers s.
Proof.
  intros V1 Hnone Hc Hm Hd Hsame H. unfold insert_and_announce in H. rewrite run_bind, run_persist in H.
  set (r := new_row env terms n t (cuid env (minted s))) in H.
  assert (terms_of r = terms) as Ht by by destruct terms.
  destruct (violated r s).
  { rewrite run_bind, run_asking, Hnone in H. done. }
  rewrite run_bind in H. set (s2 := mint_id _) in H.
  assert (intents s2 !! id r = Some r) as Hr.
  { unfold s2. simpl. by rewrite lookup_insert_eq. }
  assert (forall u s3, intents s3 !! id r = Some u -> consumerId u = cid -> memo u = m ->
    terms_of u = terms -> assetDecimals u = None -> merchantFee u = n_merchantFee n ->
    view env u = Ok v -> intents s1 = intents s3 -> consumers s1 = consumers s3 -> consumers s3 = consumers s ->
    answers_replays env cid m terms merchant v s1 /\ consumers s1 = consumers s) as Hdone.
  { intros u s3 Hu Ec Em Et Ed Ef Hv Ei Ecs Ecs'. split; [|congruence]. exists u. split.
    - eapply (findByMemo_unique (cuid env) vouched attempts); try done. by rewrite Ei.
    - rewrite (replay_stored env u terms merchant); try done. by rewrite Ef. }
  destruct link as [f|].
  - rewrite run_stmt in H. destruct (update_row _ _ s2) as [s3 [u|e]] eqn:Eu; [|done].
    apply update_row_Ok in Eu as (x & Hx & -> & ->). rewrite Hr in Hx. injection Hx as <-.
    apply run_announce in H as (Hv & Ei & Ecs).
    eapply Hdone; [|..|exact Hv|exact Ei|exact Ecs|]; try done.
    cbn [intents set_intents]. by rewrite lookup_insert_eq.
  - apply run_announce in H as (Hv & Ei & Ecs). by eapply (Hdone r s2).
Qed.

Lemma memo_given x y m : resolveOrMintMemoId x (Some m) = resolveOrMintMemoId y (Some m).
Proof. unfold resolveOrMintMemoId. simpl. by destruct (negb (is_digits m) || _). Qed.

(** Steps a run that ended in a value through one bind. *)
Ltac through H :=
  rewrite run_bind in H; rewrite ?run_stmt, ?run_pure, ?run_asking in H.

(** What a Stellar create that answered [v] leaves: its consumer, its row, and
    an identical request's answer. *)
Lemma createPay_lands env consumer dto d d' s s1 v m vouched attempts :
  valid_db (cuid env) vouched attempts s1 ->
  default DEFAULT_CHAIN (c_chain dto) = stellar -> c_memo dto = Some m ->
  run (createPay env consumer dto d) s = (s1, Ok v) ->
  run (createPay env consumer dto d') s1 = (s1, Ok v)
  /\ exists cid stored, resolve_consumer (cuid env) (username consumer) s1 = (s1, Ok cid)
     /\ findByMemo cid m s1 = Some stored /\ view env stored = Ok v.
Proof.
  intros V1 Hch Hm H. unfold createPay in *. rewrite Hch, Hm in *. cbv zeta in *.
  through H. destruct (resolve_consumer _ _ s) as [s0 [cid|]] eqn:Ec; [|done].
  through H. destruct (resolveAsset _ _) as [asset|] eqn:Ea; [|done].
  through H. rewrite (memo_given (drawn_memo d) (drawn_memo d')) in H.
  destruct (resolveOrMintMemoId (drawn_memo d') (Some m)) as [mm|] eqn:Em; [|done].
  assert (mm = m) as -> by (unfold resolveOrMintMemoId in Em; simpl in Em; by destruct (_ || _); simplify_eq/=).
  through H. destruct (throw_if _ _) eqn:Eth; [|done].
  through H. set (sm := match c_amount dto with None => _ | Some _ => _ end) in *.
  destruct sm as [merchant|] eqn:Esm; [|done]. subst sm.
  assert (sameMerchantFee (merchantFeeColumn (sm_record <$> merchant)) (sm_terms <$> merchant)
    STELLAR_DECIMALS = true) as Hsame.
  { destruct (c_amount dto); [by eapply stellarMerchantFee_same | by injection Esm as <-]. }
  set (terms := stellar_terms _ _ _ _ _) in *.
  assert (answers_replays env cid m terms (sm_terms <$> merchant) v s1 /\ consumers s1 = consumers s0)
    as [(stored & Hfind & Hreplay) Hcs].
  { through H. destruct (findByMemo cid m s0) as [stored|] eqn:Ef.
    - rewrite run_pure in H. injection H as <- Hr. split; [|done]. by exists stored.
    - through H. destruct (match merchant with Some _ => _ | None => _ end); [|done].
      set (n := mkColumns _ _ _ _ _ _ _ _ _ _) in H.
      apply (insert_answers env (username consumer) cid m terms (sm_terms <$> merchant) n (now d)
        ((fun _ => checkoutLink env) <$> merchant) (event_draw d) s0 s1 v vouched attempts); try done.
      unfold insert_and_announce. rewrite <- H. by destruct merchant. }
  pose proof (resolve_again _ _ s s0 cid s1 Ec Hcs) as Hagain. split.
  - rewrite run_bind, run_stmt, Hagain. do 4 (rewrite run_bind, run_pure).
    rewrite Esm. rewrite run_bind, run_asking, Hfind, run_pure. f_equal. exact Hreplay.
  - exists cid, stored. split_and!; [done | done|]. by destruct (replay_Ok _ _ _ _ _ Hreplay) as (? & [= <-] & ? & _).
Qed.

(** ** What a request describes *)

(** The same text, or the same number of base units of an asset. *)
Definition same_amount (a b : option string) : Prop :=
  match a, b with
  | None, None => True
  | Some a, Some b => a = b \/ exists d n, parseUnits a d = Ok n /\ parseUnits b d = Ok n
  | _, _ => False
  end.

Lemma sameIntentAmount_spec s r : sameIntentAmount s r = true -> same_amount s r.
Proof.
  unfold sameIntentAmount, same_amount. destruct s as [s|], r as [r|]; try (intros H; by bool_facts).
  destruct (parseUnits s _) as [x|] eqn:Ex; [|by intros ?%bool_decide_eq_true; left].
  destruct (parseUnits r _) as [y|] eqn:Ey; [|by intros ?%bool_decide_eq_true; left].
  intros ->%Z.eqb_eq. right. by eexists _, _.
Qed.

(** The fee a request asks for is the one a row stores. *)
Definition charges (env : Env) (dto : CreatePaymentIntentDto) (r : PaymentIntent) : Prop :=
  exists t, resolveMerchantFee (c_merchantFee dto) STELLAR_DECIMALS
              (CHAIN_ADDRESS_RULES (isValidEd25519PublicKey env) (keccak_hex env) stellar) = Ok t
  /\ match t with
     | None => readMerchantFeeRecord (merchantFee r) = None
     | Some t => exists x, readMerchantFeeRecord (merchantFee r) = Some x
         /\ rec_bps x = NumInt (bps t) /\ rec_wallet x = wallet t /\ rec_paidBy x = paidBy t
         /\ parseUnits (rec_fixed x) (default STELLAR_DECIMALS (assetDecimals r)) = Ok (fixed t)
     end.

(** A Stellar payment link request describes the payment of a row. *)
Record describes (env : Env) (consumer : GatewayConsumer) (dto : CreatePaymentIntentDto) (r : PaymentIntent)
    : Prop := mkDescribes {
  de_kind : kind r = PAY;
  de_chain : chain r = "stellar"%string;
  de_network : network r = resolveNetwork env consumer;
  de_destination : destination r = c_destination dto;
  de_amount : same_amount (amount r) (c_amount dto);
  de_asset : resolveAsset (c_assetCode dto) (c_assetIssuer dto) = Ok (mkAsset (asset r) (assetIssuer r));
  de_msg : msg r = c_msg dto;
  de_callback : callback r = c_callback dto;
  de_fee : charges env dto r
}.

(** What an accepted replay compared. *)
Lemma replay_accepted env stored terms merchant v :
  replayOf env (Some stored) terms merchant = Ok v ->
  isSameIntentRequest (terms_of stored) terms = true
  /\ sameMerchantFee (merchantFee stored) merchant (default STELLAR_DECIMALS (assetDecimals stored)) = true
  /\ view env stored = Ok v.
Proof.
  unfold replayOf. destruct (isSameIntentRequest _ _); [|done]. by destruct (sameMerchantFee _ _ _).
Qed.

Lemma sameMerchantFee_spec stored t d : sameMerchantFee stored t d = true ->
  match t with
  | None => readMerchantFeeRecord stored = None
  | Some t => exists x, readMerchantFeeRecord stored = Some x
      /\ rec_bps x = NumInt (bps t) /\ rec_wallet x = wallet t /\ rec_paidBy x = paidBy t
      /\ parseUnits (rec_fixed x) d = Ok (fixed t)
  end.
Proof.
  unfold sameMerchantFee. destruct t as [t|]; [|by intros ?%bool_decide_eq_true].
  destruct (readMerchantFeeRecord stored) as [x|]; [|done].
  destruct (parseUnits (rec_fixed x) d) as [f|] eqn:Ef; [|done]. rewrite !andb_true_iff, !bool_decide_eq_true, Z.eqb_eq.
  intros [[[Hb ->] Hw] Hp]. exists x. destruct (rec_bps x) as [n|] eqn:En; [|done]. apply Z.eqb_eq in Hb as ->. by split_and!.
Qed.

Lemma merchant_terms env dto asset others (sm : option StellarMerchantFee) :
  throw_if (bool_decide (is_Some (c_merchantFee dto)) && bool_decide (c_amount dto = None))
    (badRequest ValidationFailed) = Ok tt ->
  (match c_amount dto with
   | None => Ok None
   | Some a => stellarMerchantFee env (c_merchantFee dto) asset a others
   end) = Ok sm ->
  resolveMerchantFee (c_merchantFee dto) STELLAR_DECIMALS
    (CHAIN_ADDRESS_RULES (isValidEd25519PublicKey env) (keccak_hex env) stellar) = Ok (sm_terms <$> sm).
Proof.
  destruct (c_amount dto) as [a|].
  - intros _. unfold stellarMerchantFee. destruct (resolveMerchantFee _ _ _) as [[t|]|]; [| |done].
    + cbn [mbind res_bind]. case_bool_decide; [done|]. destruct (toStroops a); [|done]. cbn [mbind res_bind].
      destruct (assertMerchantFeeCovered _ _); [|done]. cbn [mbind res_bind]. destruct (fromStroops _); [|done].
      by intros [= <-].
    + by intros [= <-].
  - intros H [= <-]. destruct (c_merchantFee dto); [|done].
    by rewrite !bool_decide_true in H by done.
Qed.

Lemma replay_describes env consumer dto asset sm stored v :
  resolveAsset (c_assetCode dto) (c_assetIssuer dto) = Ok asset ->
  resolveMerchantFee (c_merchantFee dto) STELLAR_DECIMALS
    (CHAIN_ADDRESS_RULES (isValidEd25519PublicKey env) (keccak_hex env) stellar) = Ok (sm_terms <$> sm) ->
  replayOf env (Some stored) (stellar_terms PAY (resolveNetwork env consumer) None dto asset) (sm_terms <$> sm) = Ok v ->
  describes env consumer dto stored.
Proof.
  intros Ha Hm (Hs & Hf & _)%replay_accepted. unfold isSameIntentRequest in Hs. cbn in Hs. bool_facts.
  repeat match goal with E : opt_eqb _ _ = true |- _ => apply opt_eqb_true in E end.
  match goal with E : sameIntentAmount _ _ = true |- _ => apply sameIntentAmount_spec in E end.
  split; try done.
  - rewrite Ha. destruct asset. simpl in *. congruence.
  - exists (sm_terms <$> sm). split; [done|]. by apply sameMerchantFee_spec in Hf.
Qed.

(** A create whose memo is taken changes nothing, and answers the stored intent,
    which it describes, or an error. *)
Lemma createPay_taken env consumer dto d s cid m stored v :
  default DEFAULT_CHAIN (c_chain dto) = stellar -> c_memo dto = Some m ->
  resolve_consumer (cuid env) (username consumer) s = (s, Ok cid) ->
  findByMemo cid m s = Some stored -> view env stored = Ok v ->
  exists r, run (createPay env consumer dto d) s = (s, r)
    /\ (forall v', r = Ok v' -> v' = v /\ describes env consumer dto stored).
Proof.
  intros Hch Hm Hc Hf Hv. unfold createPay. rewrite Hch, Hm. cbv zeta.
  rewrite run_bind, run_stmt, Hc. rewrite run_bind, run_pure.
  destruct (resolveAsset _ _) as [asset|] eqn:Ea; [|by eexists]. rewrite run_bind, run_pure.
  destruct (resolveOrMintMemoId _ _) as [mm|] eqn:Em; [|by eexists].
  assert (mm = m) as -> by (unfold resolveOrMintMemoId in Em; simpl in Em; by destruct (_ || _); simplify_eq/=).
  rewrite run_bind, run_pure. destruct (throw_if _ _) as [[]|] eqn:Et; [|by eexists].
  rewrite run_bind, run_pure. destruct (match c_amount dto with None => _ | Some _ => _ end) as [sm|] eqn:Esm; [|by eexists].
  rewrite run_bind, run_asking, Hf, run_pure. eexists. split; [done|]. intros v' H.
  split; [apply replay_accepted in H as (_ & _ & ?); congruence|].
  eapply replay_describes; [done| |exact H]. by eapply merchant_terms.
Qed.

(** A transaction request never describes a payment link. *)
Lemma createTx_taken env consumer amt dto d s cid m stored :
  c_memo dto = Some m -> resolve_consumer (cuid env) (username consumer) s = (s, Ok cid) ->
  findByMemo cid m s = Some stored -> kind stored = PAY ->
  exists e, run (createTx env consumer amt dto d) s = (s, Throw e).
Proof.
  intros Hm Hc Hf Hk. unfold createTx. rewrite Hm. cbv zeta. rewrite run_bind, run_stmt, Hc. rewrite run_bind, run_pure.
  destruct (resolveAsset _ _); [|by eexists]. rewrite run_bind, run_pure.
  destruct (resolveOrMintMemoId _ _) as [mm|] eqn:Em; [|by eexists].
  assert (mm = m) as -> by (unfold resolveOrMintMemoId in Em; simpl in Em; by destruct (_ || _); simplify_eq/=).
  rewrite run_bind, run_pure. destruct (stellarMerchantFee _ _ _ _ _); [|by eexists].
  rewrite run_bind, run_asking, Hf, run_pure. eexists. f_equal. unfold replayOf, isSameIntentRequest. cbn. by rewrite Hk.
Qed.

(** Nor does one for another chain. *)
Lemma createPayOnChain_taken env consumer c dto d s cid m stored :
  default DEFAULT_CHAIN (c_chain dto) = c -> c <> stellar -> c_memo dto = Some m ->
  resolve_consumer (cuid env) (username consumer) s = (s, Ok cid) ->
  findByMemo cid m s = Some stored -> chain stored = "stellar"%string ->
  exists e, run (createPay env consumer dto d) s = (s, Throw e).
Proof.
  intros Hch Hc Hm Hr Hf Hst. assert (createPay env consumer dto d = createPayOnChain env consumer c dto d) as ->.
  { unfold createPay. rewrite Hch. by destruct c. }
  unfold createPayOnChain. rewrite Hm. do 3 (rewrite run_bind, run_pure; destruct (throw_if _ _); [|by eexists]). cbv zeta.
  rewrite run_bind, run_stmt, Hr, run_bind, run_pure. destruct (resolveOrMintMemoId _ _) as [mm|] eqn:Em; [|by eexists].
  assert (mm = m) as -> by (unfold resolveOrMintMemoId in Em; simpl in Em; by destruct (_ || _); simplify_eq/=).
  destruct (normalize_request _ _ _ _ _ _) as [[dest code] issuer]. rewrite run_bind, run_asking, Hf, run_bind, run_pure.
  destruct (resolveMerchantFee _ _ _); [|by eexists]. rewrite run_pure. eexists. f_equal.
  unfold replayOf, isSameIntentRequest. cbn. rewrite Hst. rewrite (bool_decide_false ("stellar"%string = chain_name c)) by by destruct c.
  by rewrite andb_false_r.
Qed.

(** C7: creating a Stellar payment link is idempotent. In any state the service
    can reach, when a create that names its memo has answered [v], that is the
    view of the consumer's one row under the memo, and the row is for the payment
    the request [describes]: its network, destination, amount, asset, message,
    callback and merchant fee. Sending the request again (whatever is drawn or
    read meanwhile) answers [v] and changes nothing: no second row, no second
    event. Any other create of the consumer under that memo changes nothing
    either: a payment link on Stellar that does not describe that row's payment, a
    link on another chain and a transaction are all answered an error. *)
Theorem create_idempotent (env : Env) (moments : Nodes -> Prop) (initCode : ForwarderTerms -> string)
    (l : list (prog DB unit)) (consumer : GatewayConsumer) (dto : CreatePaymentIntentDto)
    (d : CreateDraw) (s s1 : DB) (v : PaymentIntentView) (m : string) :
  Inj (=) (=) (cuid env) ->
  executes env moments (any_request env initCode) l s ->
  default DEFAULT_CHAIN (c_chain dto) = stellar -> c_memo dto = Some m ->
  run (createPay env consumer dto d) s = (s1, Ok v) ->
  (forall d', run (createPay env consumer dto d') s1 = (s1, Ok v))
  /\ exists row, view env row = Ok v /\ describes env consumer dto row
     /\ memo row = m /\ consumer_id (username consumer) s1 = Some (consumerId row)
     /\ (forall i r, intents s1 !! i = Some r -> consumerId r = consumerId row -> memo r = m -> r = row)
     /\ forall consumer' dto' d', username consumer' = username consumer -> c_memo dto' = Some m ->
        (default DEFAULT_CHAIN (c_chain dto') = stellar ->
           exists r, run (createPay env consumer' dto' d') s1 = (s1, r)
           /\ forall v', r = Ok v' -> v' = v /\ describes env consumer' dto' row)
        /\ (default DEFAULT_CHAIN (c_chain dto') <> stellar ->
              exists e, run (createPay env consumer' dto' d') s1 = (s1, Throw e))
        /\ (forall amt, exists e, run (createTx env consumer' amt dto' d') s1 = (s1, Throw e)).
Proof.
  intros Hinj Hrun Hch Hm H.
  destruct (any_execution env moments initCode l s l s Hrun (star_refl _ _)) as (V & _ & _).
  assert (valid_db (cuid env) everything everything s1) as V1.
  { destruct (wp_run (valid_db (cuid env) everything everything) (evolves (cuid env))
      (createPay env consumer dto d) (fun _ _ => True) s) as (V1 & _); [by apply createPay_safe | done |].
    by rewrite H in V1. }
  assert (Hagain := fun d' => createPay_lands env consumer dto d d' s s1 v m _ _ V1 Hch Hm H).
  split; [intros d'; apply Hagain|]. destruct (Hagain d) as (Hsame & cid & row & Hcid & Hf & Hv).
  destruct (findByMemo_Some _ _ _ _ Hf) as [Ec Em].
  destruct (createPay_taken env consumer dto d s1 cid m row v Hch Hm Hcid Hf Hv) as (r & Hr & Hd).
  rewrite Hsame in Hr. injection Hr as <-. destruct (Hd v eq_refl) as [_ Hdesc].
  exists row. split; [done|]. split; [done|]. split; [done|]. split; [|split].
  - unfold resolve_consumer in Hcid. destruct (consumer_id _ _) as [c|]; [|].
    + injection Hcid as ->. by rewrite Ec.
    + exfalso. injection Hcid as Hs _. apply (f_equal minted) in Hs. simpl in Hs. lia.
  - intros i r Hi Hc Hmr. rewrite Ec in Hc. rewrite (findByMemo_unique (cuid env) everything everything cid m s1 i r V1 Hi Hc Hmr) in Hf.
    by injection Hf.
  - intros consumer' dto' d' Hu Hm'. rewrite <- Hu in Hcid. split_and!.
    + intros Hch'. by eapply createPay_taken.
    + intros Hch'. eapply createPayOnChain_taken; try done. apply Hdesc.
    + intros amt. eapply createTx_taken; try done. apply Hdesc.
Qed.

Definition sample_dto_other : CreatePaymentIntentDto :=
  mkCreate None "" "GOTHER" (Some "25.5"%string) None None (Some "7"%string) None None None None.
Definition sample_empty : DB := empty_db (verifiers_of (fun s => s) sample_nodes).
Definition sample_shop : GatewayConsumer := mkConsumer "shop" None.

Lemma create_idempotent_witness :
  exists s1 v, run (createPay sample_env sample_shop sample_dto (sample_create 90000)) sample_empty = (s1, Ok v)
  /\ run (createPay sample_env sample_shop sample_dto (sample_create 95000)) s1 = (s1, Ok v)
  /\ exists r, run (createPay sample_env sample_shop sample_dto_other (sample_create 95000)) s1 = (s1, r)
     /\ (forall v', r = Ok v' -> v' = v).
Proof.
  assert (is_ok (snd (run (createPay sample_env sample_shop sample_dto (sample_create 90000)) sample_empty)) = true)
    as Hok by (vm_compute; reflexivity).
  destruct (run (createPay sample_env sample_shop sample_dto (sample_create 90000)) sample_empty)
    as [s1 [v|e]] eqn:E; [|discriminate Hok].
  exists s1, v. split; [reflexivity|].
  destruct (create_idempotent sample_env (fun n => n = sample_nodes) (fun _ => ""%string) []
    sample_shop sample_dto (sample_create 90000)
    sample_empty s1 v "7" _ (ex_intro _ sample_nodes (conj eq_refl (star_refl _ _)))
    eq_refl eq_refl E) as (Hsame & row & _ & _ & _ & _ & _ & Hother).
  split; [exact (Hsame (sample_create 95000))|].
  destruct (proj1 (Hother sample_shop sample_dto_other (sample_create 95000) eq_refl eq_refl) eq_refl) as (r & Hr & Hv).
  exists r. split; [exact Hr|]. intros v' Ev. exact (proj1 (Hv v' Ev)).
Defined.

(** *** A retry of the same request *)

Definition solana_env : Env :=
  mkEnv (cuid sample_env) "public" 3600 "https://pay" (Some "https://api"%string) (fun _ => true)
    (fun s => s) sample_deposit_address (fun u => Ok u).
Definition fee_wallet : string := "So11111111111111111111111111111111111111112".
Definition solana_dto : CreatePaymentIntentDto :=
  mkCreate (Some solana) "" "11111111111111111111111111111111" (Some "1.5"%string) None None
    (Some "7"%string) None None None
    (Some (mkMerchantFeeDto None (Some "0.01"%string) fee_wallet None)).
Definition solana_first : DB * res PaymentIntentView :=
  run (createPay solana_env sample_shop solana_dto (sample_create 90000)) sample_empty.
Definition solana_stored : PaymentIntent :=
  default (sample_intent "" "" "" 0) (intents (fst solana_first) !! "cc"%string).

Lemma native_fee_replay_refused_witness :
  is_ok (snd solana_first) = true
  /\ replayOf solana_env (Some solana_stored) (terms_of solana_stored)
       (Some (mkMerchantFeeTerms 0 10000000 fee_wallet recipient)) = Throw (conflict IdempotencyConflict)
  /\ snd (run (createPay solana_env sample_shop solana_dto (sample_create 90000)) (fst solana_first))
     = Throw (conflict IdempotencyConflict).
Proof.
  split; [vm_compute; reflexivity|]. split; [|vm_compute; reflexivity].
  exact (native_fee_replay_refused solana_env solana solana_stored
    (mkMerchantFeeTerms 0 10000000 fee_wallet recipient) 10000000 "native"
    ltac:(discriminate) ltac:(vm_compute; reflexivity) ltac:(vm_compute; reflexivity)
    ltac:(vm_compute; reflexivity)).
Defined.

(** ** Settlement goes to the oldest claimant, and completes *)

Lemma run_verify_now c i h s : run (verify_now c i h) s = (s, Verifier.verifyByHash (ledger s c) i h).
Proof. unfold verify_now. by rewrite run_bind, run_asking, run_pure. Qed.

(** The rivals asked about in turn: the first that throws or is paid decides. *)
Lemma run_ask_rivals c h rivals s :
  (forall r, r ∈ rivals -> exists v, Verifier.verifyByHash (ledger s c) r h = Ok v) ->
  run (ask_rivals c h rivals) s =
  (s, if existsb (fun r => match Verifier.verifyByHash (ledger s c) r h with Ok v => valid v | Throw _ => false end) rivals
      then Throw transactionAlreadySettled else Ok tt).
Proof.
  induction rivals as [|r rivals IH]; intros Hall; [done|]. cbn [ask_rivals existsb].
  rewrite run_bind, run_verify_now. destruct (Hall r ltac:(apply elem_of_cons; by left)) as [v ->].
  destruct (valid v); [done|]. simpl orb. apply IH. intros x Hx. apply Hall. apply elem_of_cons. by right.
Qed.

(** A transition that commits, alone: the row, its audit row, its claim, its
    event. *)
Lemma run_transition i to opts d s r u claims :
  id r = i -> i <> ""%string -> intents s !! i = Some r ->
  let h := over (opt_txHash opts) (txHash r) in
  checked_transition (status r) to (mkEvidence h (verifiedOnChain opts)) = Ok tt ->
  u = apply_patch (mkPatch (Some to) h (payer_source r (opt_payer opts)) None None None None) r ->
  violated u s = None ->
  (if bool_decide (to = SUCCEEDED)
   then exists c, isChain (chain r) = Some c
     /\ claims = [mkSettlement (chain_name c) (network r) (normalizeTxId c (default "" h)%string) (Some i)]
     /\ forall row, row ∈ settlements s -> claim_key row <> (chain_name c, network r, normalizeTxId c (default "" h)%string)
          /\ s_intentId row <> Some i
   else claims = []) ->
  exists s', run (transition i to opts d) s = (s', Ok u)
  /\ intents s' = <[i := u]> (intents s) /\ settlements s' = claims ++ settlements s
  /\ transitions s' = transitions s ++ [mkTransition i (status r) to h (opt_actor opts) (opt_reason opts)]
  /\ hooks s' = fst (Webhooks.emit (consumer_user opts) (statusEvent to) (intent_json u) d (hooks s)).
Proof.
  intros <- Hne Hr h Hc -> Hv Hcl. unfold transition. rewrite run_bind, run_asking. unfold findUnique at 1.
  rewrite Hr. fold h. rewrite run_bind, run_pure, Hc. rewrite run_bind, run_catching, run_stmt.
  set (u := apply_patch _ r) in *.
  assert (transaction (transition_body r to h (payer_source r (opt_payer opts)) opts) s
          = (moved r to h opts u claims s, Ok u)) as ->.
  { unfold transaction, transition_body, updateMany, lift, get_world, mbind, svc_bind, throw.
    rewrite Hr, bool_decide_true by done. fold u. unfold write. rewrite Hv. simpl.
    assert (intents (set_intents (fun m => <[id r := u]> m) s) !! id r = Some u) as Hu
      by (simpl; by rewrite lookup_insert_eq).
    case_bool_decide as Eto.
    - destruct Hcl as (c & Hch & -> & Hfresh). unfold claimSettlement, lift, catch, mbind, svc_bind, chainOf.
      rewrite Hch. unfold settlement_create. simpl settlements.
      assert (forall f : SettlementRow -> bool, (forall row, row ∈ settlements s -> f row = false) ->
        existsb f (settlements s) = false) as Hex by (intros f; apply existsb_false_forall).
      rewrite Hex, Hex.
      + unfold findUnique. simpl. by rewrite lookup_insert_eq.
      + intros row Hrow. destruct (Hfresh row Hrow) as [_ Hi]. simpl.
        rewrite (bool_decide_false (s_intentId row = _)) by done. apply andb_false_r.
      + intros row Hrow. destruct (Hfresh row Hrow) as [Hk _]. unfold claim_key in Hk. simpl.
        destruct (decide (s_chain row = chain_name c)); [|by rewrite bool_decide_false].
        destruct (decide (s_network row = network r)); [|by rewrite andb_comm, (bool_decide_false (s_network _ = _)), !andb_false_r].
        rewrite (bool_decide_false (s_txHash row = _)) by congruence. apply andb_false_r.
    - subst claims. unfold findUnique. simpl. by rewrite lookup_insert_eq. }
  rewrite run_bind. destruct (run_emit (consumer_user opts) (statusEvent to) u d (moved r to h opts u claims s))
    as (hk & -> & Hhk).
  destruct (emit_intent_Ok (consumer_user opts) (statusEvent to) u d (hooks (moved r to h opts u claims s)) Hne) as [b ->].
  rewrite run_bind.
  assert (exists s', run (if bool_decide (to = SUCCEEDED) then recordPayer u (opt_payer opts) else Ret tt)
      (set_hooks hk (moved r to h opts u claims s)) = (s', Ok tt)
    /\ intents s' = <[id r := u]> (intents s) /\ settlements s' = claims ++ settlements s
    /\ transitions s' = transitions s ++ [mkTransition (id r) (status r) to h (opt_actor opts) (opt_reason opts)]
    /\ hooks s' = hk) as (s' & -> & ? & ? & ? & Hks).
  { case_bool_decide; [|by eexists]. unfold recordPayer. destruct (isChain _); [|by eexists].
    destruct (truthy _); by eexists. }
  exists s'. split_and!; try done. by rewrite Hks, Hhk.
Qed.

Lemma not_violated i db :
  (forall j r, intents db !! j = Some r -> id r <> id i -> consumerId r = consumerId i ->
     memo r <> memo i /\ forall h, txHash i = Some h -> txHash r <> Some h) ->
  violated i db = None.
Proof.
  intros H. unfold violated.
  assert (forall r, r ∈ List.filter (fun r => negb (bool_decide (id r = id i))) (rows db) ->
    same_memo i r = false /\ same_hash i r = false) as Hr.
  { intros r [(j & Hj)%elem_of_rows Hne]%elem_of_lfilter. apply negb_true_iff, bool_decide_eq_false in Hne.
    unfold same_memo, same_hash. destruct (decide (consumerId r = consumerId i)) as [Hc|Hc];
      [|by rewrite bool_decide_false].
    destruct (H j r Hj Hne Hc) as [Hm Hh]. rewrite (bool_decide_false (memo r = _)) by done.
    rewrite andb_false_r. split; [done|]. destruct (txHash i) as [h|]; [|by rewrite andb_false_r].
    destruct (txHash r) as [h'|]; [|by rewrite andb_false_r].
    rewrite (bool_decide_false (h = h')), andb_false_r; [done|]. intros ->. by apply (Hh h'). }
  rewrite (proj2 (existsb_false_forall (same_memo i) _)); [|intros x Hx; apply Hr; exact Hx].
  by rewrite (proj2 (existsb_false_forall (same_hash i) _)) by (intros x Hx; apply Hr; exact Hx).
Qed.

(** one payment settles the oldest intent it pays. In any reachable state, for
    an intent [r] reported paid by [h] whose older rivals' verifiers all answer:
    if one of the rivals asked about is paid by [h] too, settling [r] is refused
    with the 409 of a used transaction and changes nothing. Otherwise, from any
    status that may still settle, with the hash on no other intent of the
    consumer and not yet claimed, the settlement completes: the row is SUCCEEDED
    with that hash, one claim and one audit row are added and nothing else in
    these tables changes, and PAYMENT_INTENT_SUCCEEDED is emitted. *)
Theorem settlement_to_oldest (env : Env) (moments : Nodes -> Prop) (initCode : ForwarderTerms -> string)
    (l : list (prog DB unit)) (s : DB) (i user h : string) (from : option string) (a : Actor) (d : Draw)
    (c : Chain) (r : PaymentIntent) :
  Inj (=) (=) (cuid env) ->
  executes env moments (any_request env initCode) l s ->
  intents s !! i = Some r -> i <> ""%string -> chain r = chain_name c ->
  let rivals := settlementRivals c r (rows s) in
  let paid_by_h x := match Verifier.verifyByHash (ledger s c) x (normalizeTxId c h) with
                     | Ok v => valid v | Throw _ => false end in
  (forall x, x ∈ rivals -> exists v, Verifier.verifyByHash (ledger s c) x (normalizeTxId c h) = Ok v) ->
  (existsb paid_by_h rivals = true ->
     run (markSucceeded i user h from a d) s = (s, Throw transactionAlreadySettled))
  /\ (existsb paid_by_h rivals = false ->
      canTransition (status r) SUCCEEDED = true -> isTxIdFor c h = true ->
      (forall j r', intents s !! j = Some r' -> j <> i -> consumerId r' = consumerId r ->
         txHash r' <> Some h) ->
      (forall row, row ∈ settlements s -> claim_key row <> (chain_name c, network r, normalizeTxId c h)) ->
      exists s' u, run (markSucceeded i user h from a d) s = (s', Ok u)
      /\ status u = SUCCEEDED /\ txHash u = Some h /\ same_intent r u
      /\ intents s' = <[i := u]> (intents s)
      /\ settlements s' = mkSettlement (chain_name c) (network r) (normalizeTxId c h) (Some i) :: settlements s
      /\ transitions s' = transitions s ++ [mkTransition i (status r) SUCCEEDED (Some h) a
                            (Some "on-chain payment confirmed"%string)]
      /\ hooks s' = fst (Webhooks.emit user PAYMENT_INTENT_SUCCEEDED (intent_json u) d (hooks s))).
Proof.
  intros Hinj Hrun Hr Hne Hc rivals paid_by_h Hall.
  destruct (any_execution env moments initCode l s l s Hrun (star_refl _ _)) as (V & _ & _).
  destruct (v_ids _ _ _ _ V _ _ Hr) as (Eid & _).
  assert (run (assertOldestClaimant i h) s =
    (s, if existsb paid_by_h rivals then Throw transactionAlreadySettled else Ok tt)) as Hold.
  { unfold assertOldestClaimant. rewrite run_bind, run_asking. unfold findUnique. rewrite Hr, run_bind, run_pure.
    assert (chainOf (Some (chain r)) = Ok c) as -> by (rewrite Hc; by destruct c).
    rewrite run_bind, run_asking. by apply run_ask_rivals. }
  unfold markSucceeded. rewrite run_bind, Hold. split; intros ->; [done|]. intros Hcan Htx Hhash Hclaim.
  set (opts := mkOptions _ _ _ _ _ _). set (u := apply_patch (mkPatch (Some SUCCEEDED) (Some h)
    (payer_source r from) None None None None) r).
  destruct (run_transition i SUCCEEDED opts d s r u
    [mkSettlement (chain_name c) (network r) (normalizeTxId c h) (Some i)]) as (s' & -> & ? & ? & ? & ?); try done.
  - unfold checked_transition, assertTransition, opts. cbn [ev_txHash ev_verifiedOnChain verifiedOnChain opt_txHash over].
    rewrite Hcan, (hasTxHash_id c h Htx). simpl. by rewrite andb_false_r.
  - apply not_violated. intros j x Hx Hid Hcid. destruct (v_ids _ _ _ _ V _ _ Hx) as (Ex & _).
    assert (j <> i) as Hj by (simpl in Hid; congruence). split.
    + intros Hm. apply Hj. by eapply (v_memo _ _ _ _ V).
    + intros h' [= <-]. by apply (Hhash j).
  - rewrite bool_decide_true by done. exists c. split; [rewrite Hc; apply isChain_name|]. split; [done|].
    intros row Hrow. split; [by apply Hclaim|]. intros Ei.
    destruct (v_claims _ _ _ _ V row i Hrow Ei) as (x & _ & _ & _ & Hx & Ex & _). simplify_eq.
    by rewrite Ex in Hcan.
  - exists s', u. split_and!; try done. by eexists.
Qed.

(** The state after both creates: the original "cc" and its copy "cccc". *)
Definition sample_open : DB := run_all (take 2 sample_requests) sample_empty.
Definition row_of (i : string) (db : DB) : PaymentIntent := default (sample_intent "" "" "" 0) (intents db !! i).

Lemma sample_open_executes ic :
  exists l, executes sample_env (fun n => n = sample_nodes) (any_request sample_env ic) l sample_open.
Proof.
  destruct (pool_run_all (any_request sample_env ic)
    (world_step (fun n => n = sample_nodes) (keccak_hex sample_env)) (take 2 sample_requests) []
    sample_empty) as [l Hl].
  { apply Forall_take. eapply Forall_impl; [exact sample_requested|]. intros p Hp. exact (rq_intent _ _ p Hp). }
  exists l, sample_nodes. split; [done | exact Hl].
Qed.

Lemma settlement_to_oldest_witness :
  run (markSucceeded "cccc" "copy" sample_hash None A_validate sample_draw) sample_open
  = (sample_open, Throw transactionAlreadySettled)
  /\ exists s' u, run (markSucceeded "cc" "shop" sample_hash None A_validate sample_draw) sample_open = (s', Ok u)
     /\ status u = SUCCEEDED.
Proof.
  destruct (sample_open_executes (fun _ => ""%string)) as [l Hl]. split.
  - refine (proj1 (settlement_to_oldest sample_env _ (fun _ => ""%string) l sample_open "cccc" "copy"
      sample_hash None A_validate sample_draw stellar (row_of "cccc" sample_open) _ Hl _ _ _ _) _).
    + vm_compute; reflexivity.
    + discriminate.
    + vm_compute; reflexivity.
    + assert (settlementRivals stellar (row_of "cccc" sample_open) (rows sample_open) = [row_of "cc" sample_open])
        as -> by (vm_compute; reflexivity).
      intros x ->%list_elem_of_singleton. eexists. vm_compute. reflexivity.
    + vm_compute; reflexivity.
  - destruct (proj2 (settlement_to_oldest sample_env _ (fun _ => ""%string) l sample_open "cc" "shop"
      sample_hash None A_validate sample_draw stellar (row_of "cc" sample_open) _ Hl
      ltac:(vm_compute; reflexivity) ltac:(discriminate) ltac:(vm_compute; reflexivity)
      ltac:(assert (settlementRivals stellar (row_of "cc" sample_open) (rows sample_open) = []) as ->
              by (vm_compute; reflexivity); intros x Hx; by apply not_elem_of_nil in Hx))
      ltac:(vm_compute; reflexivity) ltac:(vm_compute; reflexivity) ltac:(vm_compute; reflexivity))
      as (s' & u & H & Hu & _).
    + intros j r' Hj Hne Hc. assert (map_Forall (fun _ x => txHash x = None) (intents sample_open)) as Hnone
        by (apply (bool_decide_unpack _); vm_compute; exact I).
      rewrite (Hnone j r' Hj). discriminate.
    + intros row Hrow. exfalso. assert (settlements sample_open = []) as E by (vm_compute; reflexivity).
      rewrite E in Hrow. by apply not_elem_of_nil in Hrow.
    + exists s', u. split; [exact H | exact Hu].
Defined.

(** ** Expiry *)

Section expiry.
Context (env : Env) (Hinj : Inj (=) (=) (cuid env)).
#[local] Abbreviation valid_db := (valid_db (cuid env) everything everything).

(** Writing other columns than the hash violates no index. *)
Lemma self_not_violated s i r u :
  valid_db s -> intents s !! i = Some r -> same_intent r u -> txHash u = txHash r -> violated u s = None.
Proof.
  intros V Hr S Eh. destruct (same_intent_columns _ _ S) as (Ei & Ec & Em & _).
  destruct (v_ids _ _ _ _ V _ _ Hr) as (Er & _).
  apply not_violated. intros j x Hx Hne Hc. destruct (v_ids _ _ _ _ V _ _ Hx) as (Ex & _).
  assert (j <> i) as Hj by congruence. split.
  - intros Hm. apply Hj. eapply (v_memo _ _ _ _ V); [done|done|congruence|congruence].
  - intros h Hh Hh'. apply Hj. eapply (v_hash _ _ _ _ V); [done|done|congruence|done|congruence].
Qed.

Lemma run_advanceCursor s i r c :
  valid_db s -> intents s !! i = Some r ->
  exists u s', run (advanceCursor i c) s = (s', Ok tt) /\ intents s' = <[i := u]> (intents s)
  /\ same_intent r u /\ status u = status r /\ txHash u = txHash r
  /\ settlements s' = settlements s /\ transitions s' = transitions s /\ hooks s' = hooks s
  /\ valid_db s'.
Proof.
  intros V Hr.
  assert (valid_db (fst (run (advanceCursor i c) s))) as V'.
  { apply (wp_run valid_db (evolves (cuid env)) (advanceCursor i c) (fun _ _ => True)); [|done].
    by apply advanceCursor_safe. }
  revert V'. unfold advanceCursor. rewrite run_discard, run_stmt. unfold updateMany. rewrite Hr. case_bool_decide.
  - set (u := apply_patch _ r). unfold mbind, svc_bind, write.
    assert (same_intent r u) as S by by eexists.
    rewrite (self_not_violated s i r u V Hr S ltac:(done)). simpl. intros V'.
    exists u, (set_intents (fun m => <[id r := u]> m) s). destruct (v_ids _ _ _ _ V _ _ Hr) as (E & _).
    rewrite E in V' |- *. by split_and!.
  - simpl. intros V'. exists r, s. rewrite insert_id by done. by split_and!.
Qed.

(** The audit row of an expiry. *)
Definition expiry_record (r : PaymentIntent) : TransitionRow :=
  mkTransition (id r) (status r) EXPIRED (txHash r) A_observer
    (Some "intent lifetime elapsed before settlement"%string).

Lemma run_markExpired s i r user d :
  valid_db s -> intents s !! i = Some r -> i <> ""%string -> status r ∈ [PENDING; SUBMITTED] ->
  exists s' u, run (markExpired i user A_observer d) s = (s', Ok u)
  /\ intents s' = <[i := u]> (intents s) /\ status u = EXPIRED /\ txHash u = txHash r /\ same_intent r u
  /\ settlements s' = settlements s /\ transitions s' = transitions s ++ [expiry_record r].
Proof.
  intros V Hr Hne Hst. destruct (v_ids _ _ _ _ V _ _ Hr) as (E & _).
  set (opts := mkOptions user A_observer (Some "intent lifetime elapsed before settlement"%string) None None None).
  set (u := apply_patch (mkPatch (Some EXPIRED) (txHash r) (payer_source r None) None None None None) r).
  assert (txHash u = txHash r) as Eu by (simpl; by destruct (txHash r)).
  destruct (run_transition i EXPIRED opts d s r u []) as (s' & Hrun & Hi & Hs & Ht & _); try done.
  - unfold checked_transition, assertTransition. rewrite !elem_of_cons, elem_of_nil in Hst.
    by destruct Hst as [-> |[-> |[]]].
  - apply (self_not_violated s i r); try done. by eexists.
  - exists s', u. split_and!; try done; [by eexists|]. rewrite Ht. unfold expiry_record. rewrite E. by destruct (txHash r).
Qed.

(** A refused settlement changes nothing. *)
Lemma refused_transition s i to opts d s1 e :
  valid_db s -> i <> ""%string -> run (transition i to opts d) s = (s1, Throw e) -> s1 = s.
Proof.
  intros V Hne. unfold transition. rewrite run_bind, run_asking. unfold findUnique.
  destruct (intents s !! i) as [r|] eqn:Hr; [|by intros [= <- _]].
  destruct (v_ids _ _ _ _ V _ _ Hr) as (E & _).
  rewrite run_bind, run_pure. destruct (checked_transition _ _ _); [|by intros [= <- _]].
  rewrite run_bind, run_catching, run_stmt. unfold transaction.
  destruct (transition_body _ _ _ _ _ s) as [s' [u|e']] eqn:Eb; [|by intros [= <- _]].
  apply (transition_body_Ok (cuid env) everything everything) in Eb as (x & claims & Hx & _ & -> & _); [|done].
  rewrite run_bind. set (u := apply_patch _ x).
  destruct (run_emit (consumer_user opts) (statusEvent to) u d s') as (hk & -> & _).
  destruct (emit_intent_Ok (consumer_user opts) (statusEvent to) u d (hooks s')) as [b ->].
  { destruct (v_ids _ _ _ _ V _ _ Hx) as (E' & _). simpl. congruence. }
  rewrite run_bind. case_bool_decide; [|done]. unfold recordPayer.
  destruct (isChain _); [|done]. by destruct (truthy _).
Qed.

Lemma run_ask_rivals_state c h rivals s : fst (run (ask_rivals c h rivals) s) = s.
Proof.
  induction rivals as [|x l IH]; [done|]. cbn [ask_rivals]. rewrite run_bind, run_verify_now.
  destruct (Verifier.verifyByHash _ _ _) as [v|]; [|done]. by destruct (valid v).
Qed.

Lemma run_assertOldest_state i h s : fst (run (assertOldestClaimant i h) s) = s.
Proof.
  unfold assertOldestClaimant. rewrite run_bind, run_asking. destruct (findUnique i s); [|done].
  rewrite run_bind, run_pure. destruct (chainOf _); [|done]. rewrite run_bind, run_asking.
  apply run_ask_rivals_state.
Qed.

Lemma refused_settlement s i user h from a d s1 e :
  valid_db s -> i <> ""%string -> run (markSucceeded i user h from a d) s = (s1, Throw e) -> s1 = s.
Proof.
  intros V Hne. unfold markSucceeded. rewrite run_bind.
  pose proof (run_assertOldest_state i h s) as Hs.
  destruct (run (assertOldestClaimant i h) s) as [s' [u|e']]; simpl in Hs; subst s'; [|by intros [= <- _]].
  by apply refused_transition.
Qed.
End expiry.

(** What the chain answers about an intent now. *)
Definition chain_answer (v : PaymentVerifiers) (i : PaymentIntent) : res VerificationResult :=
  match reported i with
  | Some (c, h) => Verifier.verifyByHash (v c) i (normalizeTxId c h)
  | None => find_now v i
  end.

(** The intent of [o] expired: of the intents only its row changed, which keeps
    its terms and hash; no claim was made, and one audit row tells of it. *)
Definition expired_now (o : ObservedIntent) (s : DB) (out : DB * res unit) : Prop :=
  exists u, snd out = Ok tt /\ intents (fst out) = <[id (observed o) := u]> (intents s)
  /\ status u = EXPIRED /\ txHash u = txHash (observed o) /\ same_intent (observed o) u
  /\ settlements (fst out) = settlements s
  /\ transitions (fst out) = transitions s ++ [expiry_record (observed o)].

(** The outcome, in terms of the settlement it tries. *)
Lemma lapsed_outcome_run (env : Env) (moments : Nodes -> Prop) (initCode : ForwarderTerms -> string)
    (l : list (prog DB unit)) (s : DB) (o : ObservedIntent) (d : Draw) :
  Inj (=) (=) (cuid env) ->
  executes env moments (any_request env initCode) l s ->
  intents s !! id (observed o) = Some (observed o) -> id (observed o) <> ""%string ->
  status (observed o) ∈ [PENDING; SUBMITTED] ->
  let out := run (settleOrExpire o d) s in
  match chain_answer (ledger s) (observed o) with
  | Throw e => out = (s, Throw e)
  | Ok r =>
      match payment_found r with
      | None => expired_now o s out
      | Some h =>
          match run (markSucceeded (id (observed o)) (apisixUsername o) h (payer r) A_observer d) s with
          | (s', Ok u) => out = (s', Ok tt)
          | (s', Throw e) =>
              if isAlreadySettled e || isHashConflict e then expired_now o s out
              else s' = s /\ out = (s, Throw e)
          end
      end
  end.
Proof.
  intros Hinj Hrun Hr Hne Hst.
  destruct (any_execution env moments initCode l s l s Hrun (star_refl _ _)) as (V & _ & _).
  set (i := observed o) in *. cbv zeta. unfold settleOrExpire. fold i. rewrite run_bind.
  assert (forall s1 u1, valid_db (cuid env) everything everything s1 ->
    intents s1 = <[id i := u1]> (intents s) -> settlements s1 = settlements s ->
    status u1 = status i -> txHash u1 = txHash i -> same_intent i u1 -> transitions s1 = transitions s ->
    expired_now o s (run (discard (markExpired (id i) (apisixUsername o) A_observer d)) s1)) as Hexp.
  { intros s1 u1 V1 Hi1 Hs1 E1 Eh1 S1 Ht1. rewrite run_discard.
    destruct (run_markExpired env s1 (id i) u1 (apisixUsername o) d) as (s' & u & -> & Hi & Eu & Ehu & Su & Hs & Ht); try done.
    - rewrite Hi1. by rewrite lookup_insert_eq.
    - by rewrite E1.
    - unfold expired_now. fold i. exists u. cbn [fst snd]. rewrite Hi, Hi1, insert_insert_eq. split_and!; try done; [congruence|by etransitivity|congruence|].
      rewrite Ht, Ht1. unfold expiry_record. destruct (same_intent_columns _ _ S1) as (Ei & _). by rewrite Ei, E1, Eh1. }
  assert (forall r h, payment_found r = Some h ->
    let out := run (expire ← (match payment_found r with
                     | None => Ret true | Some h => settle_lapsed o h (payer r) d end : prog DB bool);
                   if (expire : bool) then discard (markExpired (id i) (apisixUsername o) A_observer d)
                   else Ret tt) s in
    match run (markSucceeded (id i) (apisixUsername o) h (payer r) A_observer d) s with
    | (s', Ok u) => out = (s', Ok tt)
    | (s', Throw e) => if isAlreadySettled e || isHashConflict e then expired_now o s out
                       else s' = s /\ out = (s, Throw e)
    end) as Hsettle.
  { intros r h ->. cbv zeta. rewrite run_bind. unfold settle_lapsed. fold i.
    rewrite run_catching, run_bind.
    destruct (run (markSucceeded _ _ _ _ _ _) s) as [s' [u|e]] eqn:Em; [done|].
    apply (refused_settlement env) in Em as ->; try done.
    destruct (isAlreadySettled e || isHashConflict e); [|done]. cbn [run].
    apply (Hexp s i); try done. by rewrite insert_id. }
  unfold verify, chain_answer. destruct (reported i) as [[c h]|] eqn:Erep.
  - rewrite run_verify_now. destruct (Verifier.verifyByHash _ _ _) as [r|e]; [|done].
    destruct (payment_found r) as [k|] eqn:Ek.
    + specialize (Hsettle r k Ek). by rewrite Ek in Hsettle.
    + rewrite run_bind. apply (Hexp s i); try done. by rewrite insert_id.
  - rewrite run_bind, run_asking, run_bind, run_pure. destruct (find_now _ _) as [r|e]; [|done].
    rewrite run_bind. destruct (payment_found r) as [k|] eqn:Ek.
    + assert (valid r = true) as -> by (unfold payment_found in Ek; by destruct (valid r)).
      specialize (Hsettle r k Ek). rewrite Ek in Hsettle. cbn [run]. rewrite Ek. exact Hsettle.
    + assert (forall s1 u1, valid_db (cuid env) everything everything s1 ->
        intents s1 = <[id i := u1]> (intents s) -> settlements s1 = settlements s ->
        status u1 = status i -> txHash u1 = txHash i -> same_intent i u1 -> transitions s1 = transitions s ->
        expired_now o s (run (expire ← (match payment_found r with
                     | None => Ret true | Some h => settle_lapsed o h (payer r) d end : prog DB bool);
                   if (expire : bool) then discard (markExpired (id i) (apisixUsername o) A_observer d)
                   else Ret tt) s1)) as Hexp' by (intros s1 u1; rewrite Ek, run_bind; apply Hexp).
      assert (<[id i := i]> (intents s) = intents s) as Hself by by rewrite insert_id.
      destruct (valid r); [by apply (Hexp' s i)|].
      destruct (nextCursor r) as [cur|]; [|by apply (Hexp' s i)].
      destruct (run_advanceCursor env s (id i) i cur V Hr) as (u & s' & -> & Hi & S & Est & Eh & Hs & Ht & _ & V').
      by apply (Hexp' s' u).
Qed.

(** *** The chain's answer, the rivals and the refusals, stated on their own *)

(** What is asked about an intent: a reported hash that is one of its chain is
    looked up, otherwise its payment is looked for. *)
Inductive asked_of (v : PaymentVerifiers) (i : PaymentIntent) : res VerificationResult -> Prop :=
  | asked_hash c h :
      chain i = chain_name c -> txHash i = Some h -> isTxIdFor c h = true ->
      asked_of v i (Verifier.verifyByHash (v c) i (normalizeTxId c h))
  | asked_search c :
      chain i = chain_name c -> (forall h, txHash i = Some h -> isTxIdFor c h = false) ->
      asked_of v i (Verifier.findMatchingPayment (v c) i)
  | asked_nobody : (forall c, chain i <> chain_name c) -> asked_of v i (Throw JsError).

(** The transaction an answer names as the payment. *)
Definition names (r : VerificationResult) (h : string) : Prop :=
  valid r = true /\ v_txHash r = Some h /\ h <> ""%string.

(** [x] came before [i]. *)
Definition came_before (x i : PaymentIntent) : Prop :=
  createdAt x < createdAt i \/ createdAt x = createdAt i /\ id_lt (id x) (id i) = true.

(** The same payment could also pay the older row [x] of another consumer. *)
Definition may_outrank (c : Chain) (i x : PaymentIntent) : Prop :=
  chain x = chain_name c /\ network x = network i /\ consumerId x <> consumerId i
  /\ status x ∈ [PENDING; SUBMITTED; SUCCEEDED] /\ came_before x i
  /\ match c with
     | stellar => memo x = memo i /\ destination x = destination i /\ asset x = asset i
         /\ assetIssuer x = assetIssuer i /\ stellarAmount (destinationLeg i) x = true
     | solana => exists ref, ref <> ""%string /\ chainReference i = Some ref /\ chainReference x = Some ref
     | monad => (chainReference i = None \/ chainReference i = Some ""%string)
         /\ chainReference x = Some (destination i) /\ assetIssuer x = assetIssuer i
     end.

(** The five oldest of them, oldest first. *)
Record oldest_rivals (c : Chain) (i : PaymentIntent) (table asked : list PaymentIntent) : Prop := {
  or_sorted : StronglySorted (fun a b => ~ came_before b a) asked;
  or_rivals : forall x, x ∈ asked -> x ∈ table /\ may_outrank c i x;
  or_most : (length asked <= 5)%nat;
  or_left : forall x, x ∈ table -> may_outrank c i x -> x ∉ asked ->
    length asked = 5%nat /\ forall y, y ∈ asked -> ~ came_before x y
}.

(** What asking them in order about a transaction comes to: one of them is paid by
    it, or none is, or a verifier failed before that was known. *)
Inductive rivals_answer (v : PaymentVerifier) (h : string) : list PaymentIntent -> res bool -> Prop :=
  | ra_none : rivals_answer v h [] (Ok false)
  | ra_paid x rest r : Verifier.verifyByHash v x h = Ok r -> valid r = true -> rivals_answer v h (x :: rest) (Ok true)
  | ra_failed x rest e : Verifier.verifyByHash v x h = Throw e -> rivals_answer v h (x :: rest) (Throw e)
  | ra_next x rest r a : Verifier.verifyByHash v x h = Ok r -> valid r = false ->
      rivals_answer v h rest a -> rivals_answer v h (x :: rest) a.

(** A transaction already settled an intent, or another intent of the consumer
    records it. *)
Definition spoken_for (c : Chain) (i : PaymentIntent) (h : string) (s : DB) : Prop :=
  (exists row, row ∈ settlements s /\ s_chain row = chain_name c /\ s_network row = network i
     /\ s_txHash row = normalizeTxId c h)
  \/ exists j r, intents s !! j = Some r /\ j <> id i /\ consumerId r = consumerId i /\ txHash r = Some h.

(** The refusals that no later pass clears. *)
Definition lasting (e : exn) : Prop :=
  exists st, e = ApiError st TransactionAlreadySettled \/ e = ApiError st IdempotencyConflict.

(** Nothing changed and the failure is the worker's. *)
Definition untouched_by (s : DB) (out : DB * res unit) : Prop := exists e, out = (s, Throw e).

(** The intent of [o] settled on [h]. *)
Definition settled_now (c : Chain) (o : ObservedIntent) (h : string) (d : Draw) (s : DB) (out : DB * res unit) : Prop :=
  let i := observed o in
  exists u, snd out = Ok tt /\ intents (fst out) = <[id i := u]> (intents s)
  /\ status u = SUCCEEDED /\ txHash u = Some h /\ same_intent i u
  /\ settlements (fst out) = mkSettlement (chain_name c) (network i) (normalizeTxId c h) (Some (id i)) :: settlements s
  /\ transitions (fst out) = transitions s
       ++ [mkTransition (id i) (status i) SUCCEEDED (Some h) A_observer (Some "on-chain payment confirmed"%string)]
  /\ hooks (fst out) = fst (Webhooks.emit (apisixUsername o) PAYMENT_INTENT_SUCCEEDED (intent_json u) d (hooks s)).

(** *** The code meets them *)

Lemma chain_answer_asked v i : asked_of v i (chain_answer v i).
Proof.
  unfold chain_answer, reported, find_now, verifier_for. destruct (isChain (chain i)) as [c|] eqn:Ec.
  2: { replace (match txHash i with Some _ => None | None => None end) with (@None (Chain * string)) by by destruct (txHash i).
       apply asked_nobody. intros c E. by rewrite E, isChain_name in Ec. }
  apply isChain_Some in Ec. cbn [mbind res_bind].
  destruct (txHash i) as [h|] eqn:Eh; [|by apply asked_search; [|rewrite Eh]].
  destruct (truthy (Some h) && isTxIdFor c h) eqn:Et.
  - apply andb_true_iff in Et as [_ Et]. by apply asked_hash.
  - apply asked_search; [done|]. rewrite Eh. intros h' [= <-]. destruct (isTxIdFor c h) eqn:E; [|done].
    rewrite andb_true_r in Et. destruct h; [by destruct c|done].
Qed.

Lemma payment_found_names r h : payment_found r = Some h <-> names r h.
Proof.
  unfold payment_found, names. destruct (valid r); [|by split; [|intros [? _]]]. cbn [andb].
  destruct (v_txHash r) as [[|a k]|]; cbn; (split; [|by intros (_ & [= <-] & ?)]); [done|by intros [= <-]|done].
Qed.

Lemma came_before_spec x i : came_before x i <-> older_than x i = true.
Proof. unfold came_before. by rewrite older_than_spec. Qed.

Lemma may_outrank_spec c i x : may_outrank c i x <-> rival_where c i x = true.
Proof.
  unfold may_outrank, rival_where, RIVAL_STATUSES. rewrite !andb_true_iff, !bool_decide_eq_true, negb_true_iff, bool_decide_eq_false, <- came_before_spec.
  assert ((match c with
     | stellar => memo x = memo i /\ destination x = destination i /\ asset x = asset i
         /\ assetIssuer x = assetIssuer i /\ stellarAmount (destinationLeg i) x = true
     | solana => exists ref, ref <> ""%string /\ chainReference i = Some ref /\ chainReference x = Some ref
     | monad => (chainReference i = None \/ chainReference i = Some ""%string)
         /\ chainReference x = Some (destination i) /\ assetIssuer x = assetIssuer i
     end) <-> SETTLEMENT_RIVAL_FILTERS c i x = true) as ->; [|tauto].
  unfold SETTLEMENT_RIVAL_FILTERS. destruct c.
  - rewrite !andb_true_iff, !bool_decide_eq_true, opt_eqb_true. tauto.
  - destruct (chainReference i) as [[|a k]|]; cbn [truthy].
    + split; [intros (f & Hf & [= <-] & _)|]; done.
    + rewrite opt_eqb_true. split; [by intros (f & _ & [= <-] & ?)|]. intros E. by exists (String a k).
    + split; [intros (f & _ & Hf & _)|]; done.
  - rewrite <- (opt_eqb_true (chainReference x)), <- (opt_eqb_true (assetIssuer x)).
    destruct (chainReference i) as [[|a k]|]; cbn [truthy]; rewrite ?andb_true_iff; split;
      first [by intros [_ ?]; auto | by intros [[?|?] _] | by intros ?; auto | done].
Qed.

Lemma oldest_rivals_spec c i table : oldest_rivals c i table (settlementRivals c i table).
Proof.
  split.
  - unfold settlementRivals. set (l := merge_sort age_le _).
    assert (StronglySorted age_le l) as Hs by apply (StronglySorted_merge_sort age_le).
    assert (StronglySorted (fun a b => ~ came_before b a) l) as Hs'.
    { clear -Hs. induction Hs as [|a l Hs IH Ha]; constructor; [done|]. eapply Forall_impl; [exact Ha|].
      intros b Hb Hc. apply came_before_spec in Hc. unfold age_le in Hb. congruence. }
    rewrite <- (take_drop SETTLEMENT_RIVALS_MAX l) in Hs'. apply StronglySorted_app in Hs'. apply Hs'.
  - intros x [Hx Hw]%rivals_elem. split; [done|]. by apply may_outrank_spec.
  - unfold settlementRivals. rewrite length_take. unfold SETTLEMENT_RIVALS_MAX. lia.
  - intros x Hx Hm%may_outrank_spec Hn. split.
    + unfold settlementRivals in *. rewrite length_take. set (l := merge_sort age_le _) in *.
      destruct (decide (5 <= length l)%nat) as [L|L]; [unfold SETTLEMENT_RIVALS_MAX; lia|]. destruct Hn.
      rewrite take_ge by (unfold SETTLEMENT_RIVALS_MAX; lia). unfold l.
      rewrite (merge_sort_Permutation age_le). by apply list_elem_of_filter.
    + intros y Hy Hc%came_before_spec. pose proof (rivals_first c i table y x Hy Hx Hm Hn). congruence.
Qed.

Lemma rivals_answer_run c h asked s : exists a, rivals_answer (ledger s c) h asked a
  /\ run (ask_rivals c h asked) s = (s, match a with
       | Ok true => Throw transactionAlreadySettled | Ok false => Ok tt | Throw e => Throw e end).
Proof.
  induction asked as [|x rest (a & IH & IHr)]; [by exists (Ok false); split; [constructor|]|].
  cbn [ask_rivals]. rewrite run_bind, run_verify_now.
  destruct (Verifier.verifyByHash (ledger s c) x h) as [r|e] eqn:Er; [|exists (Throw e); split; [by constructor|done]].
  destruct (valid r) eqn:Ev; [exists (Ok true); split; [by econstructor|done]|].
  exists a. split; [by eapply ra_next|done].
Qed.

Lemma lasting_spec e : lasting e <-> isAlreadySettled e || isHashConflict e = true.
Proof.
  unfold lasting. destruct e as [st code| | | | |]; [|by split; [intros (? & [?|?])|]..].
  destruct code; cbn; (split; [by intros (st' & [E|E]); try discriminate E|try done]); intros _; exists st; by auto.
Qed.

Section settling.
Context (env : Env) (Hinj : Inj (=) (=) (cuid env)).
Context (s : DB) (i : string) (r : PaymentIntent) (c : Chain) (user h : string) (from : option string) (d : Draw).
Context (V : valid_db (cuid env) everything everything s) (Hr : intents s !! i = Some r) (Hne : i <> ""%string).
Context (Hc : chain r = chain_name c) (Hst : status r ∈ [PENDING; SUBMITTED]).

Let settling_options : TransitionOptions :=
  mkOptions user A_observer (Some "on-chain payment confirmed"%string) (Some h) from (Some true).

Lemma settling_checked :
  trim h <> ""%string -> checked_transition (status r) SUCCEEDED (mkEvidence (Some h) (Some true)) = Ok tt.
Proof.
  intros Hh. unfold checked_transition, assertTransition. cbn [ev_txHash ev_verifiedOnChain hasTxHash].
  assert ((0 <? String.length (trim h))%nat = true) as -> by (destruct (trim h); done).
  rewrite !elem_of_cons, elem_of_nil in Hst. by destruct Hst as [-> |[-> |[]]].
Qed.

Lemma settling_unchecked :
  trim h = ""%string -> exists e, checked_transition (status r) SUCCEEDED (mkEvidence (Some h) (Some true)) = Throw e
    /\ ~ lasting e.
Proof.
  intros Hh. unfold checked_transition, assertTransition. cbn [ev_txHash ev_verifiedOnChain hasTxHash]. rewrite Hh.
  rewrite !elem_of_cons, elem_of_nil in Hst.
  destruct Hst as [-> |[-> |[]]]; cbn; (eexists; split; [done|]); by intros (? & [[=]|[=]]).
Qed.

(** The body of the database transaction refuses what is spoken for. *)
Lemma body_refused src : spoken_for c r h s ->
  exists e, snd (transition_body r SUCCEEDED (Some h) src settling_options s) = Throw e
  /\ (e = UniqueViolation "payment_intent_consumerId_txHash_key" \/ e = transactionAlreadySettled).
Proof.
  intros Hsp. destruct (v_ids _ _ _ _ V _ _ Hr) as (Eid & _).
  unfold transition_body, updateMany, mbind, svc_bind. rewrite Eid, Hr, bool_decide_true by done. unfold write.
  set (u := apply_patch _ r). destruct (violated u s) as [n|] eqn:Ev; cbn [snd].
  - exists (UniqueViolation n). split; [done|]. left. f_equal. unfold violated in Ev.
    destruct (existsb (same_memo u) _) eqn:Em; [|destruct (existsb (same_hash u) _); congruence]. exfalso.
    apply existsb_exists in Em as (x & Hx & Em). apply list_elem_of_In, elem_of_lfilter in Hx as [(j & Hj)%elem_of_rows Hx].
    apply negb_true_iff, bool_decide_eq_false in Hx. apply andb_true_iff in Em as [E1%bool_decide_eq_true E2%bool_decide_eq_true].
    destruct (v_ids _ _ _ _ V _ _ Hj) as (Ej & _). apply Hx. cbn. rewrite Ej, Eid. by eapply (v_memo _ _ _ _ V).
  - exists transactionAlreadySettled. split; [|by right]. destruct Hsp as [(row & Hrow & E1 & E2 & E3)|(j & x & Hj & Hne' & Ec & Eh)].
    + cbn [mret svc_ret Nat.eqb]. rewrite bool_decide_true by done. unfold claimSettlement, lift, catch, mbind, svc_bind, chainOf.
      rewrite Hc, isChain_name. cbn [default fst snd]. unfold settlement_create at 1. cbn [settlements set_intents].
      match goal with |- context [existsb ?f (settlements s)] => assert (existsb f (settlements s) = true) as -> end; [|done].
      apply existsb_exists. exists row. split; [by apply list_elem_of_In|]. cbn. by rewrite E1, E2, E3, !bool_decide_true.
    + exfalso. unfold violated in Ev. destruct (existsb (same_memo u) _); [done|].
      destruct (existsb (same_hash u) _) eqn:Eh'; [done|]. apply not_true_iff_false in Eh'. apply Eh', existsb_exists.
      exists x. destruct (v_ids _ _ _ _ V _ _ Hj) as (Ej & _). split.
      * apply list_elem_of_In, elem_of_lfilter. split; [apply elem_of_rows; by exists j|].
        apply negb_true_iff, bool_decide_eq_false. cbn. congruence.
      * unfold same_hash. cbn. by rewrite Ec, Eh, !bool_decide_true.
Qed.

(** A settlement past the rivals: completed, or refused as spoken for. *)
Lemma run_settling : let out := run (transition i SUCCEEDED settling_options d) s in
  (trim h = ""%string -> exists e, out = (s, Throw e) /\ ~ lasting e)
  /\ (trim h <> ""%string -> spoken_for c r h s -> exists e, out = (s, Throw e) /\ lasting e)
  /\ (trim h <> ""%string -> ~ spoken_for c r h s -> exists s' u, out = (s', Ok u)
        /\ settled_now c (mkObserved r user) h d s (s', Ok tt)).
Proof.
  destruct (v_ids _ _ _ _ V _ _ Hr) as (Eid & _). cbv zeta. split; [|split].
  - intros Hh. destruct (settling_unchecked Hh) as (e & He & Hl). exists e. split; [|done].
    unfold transition. rewrite run_bind, run_asking. unfold findUnique. rewrite Hr, run_bind, run_pure.
    cbn [settling_options opt_txHash over verifiedOnChain]. by rewrite He.
  - intros Hh Hsp. unfold transition. rewrite run_bind, run_asking. unfold findUnique. rewrite Hr, run_bind, run_pure.
    cbn [settling_options opt_txHash over verifiedOnChain]. rewrite settling_checked by done.
    rewrite run_bind, run_catching, run_stmt. unfold transaction.
    destruct (body_refused (payer_source r from) Hsp) as (e & He & Hcase). cbn [opt_payer].
    destruct (transition_body _ _ _ _ _ s) as [s' o]. cbn [snd] in He. subst o. eexists. split; [reflexivity|].
    destruct Hcase as [-> | ->]; exists 409; [right|left]; reflexivity.
  - intros Hh Hsp. set (u := apply_patch (mkPatch (Some SUCCEEDED) (Some h) (payer_source r from) None None None None) r).
    destruct (run_transition i SUCCEEDED settling_options d s r u
      [mkSettlement (chain_name c) (network r) (normalizeTxId c h) (Some i)]) as (s' & -> & ? & ? & ? & ?); try done.
    + by apply settling_checked.
    + apply not_violated. intros j x Hx Hid Hcid. destruct (v_ids _ _ _ _ V _ _ Hx) as (Ex & _).
      assert (j <> i) as Hj by (simpl in Hid; congruence). split.
      * intros Hm. apply Hj. by eapply (v_memo _ _ _ _ V).
      * intros h' [= <-] E. apply Hsp. right. exists j, x. split_and!; try done. congruence.
    + rewrite bool_decide_true by done. exists c. split; [rewrite Hc; apply isChain_name|]. split; [done|].
      intros row Hrow. split.
      * intros E. apply Hsp. left. exists row. unfold claim_key in E. injection E as E1 E2 E3. by split_and!.
      * intros Ei. destruct (v_claims _ _ _ _ V row i Hrow Ei) as (x & _ & _ & _ & Hx & Ex & _). simplify_eq.
        rewrite Ex in Hst. rewrite !elem_of_cons, elem_of_nil in Hst. by destruct Hst as [?|[?|[]]].
    + exists s', u. split; [done|]. exists u. cbn [fst snd observed apisixUsername]. rewrite Eid. split_and!; try done.
      by eexists.
Qed.
End settling.


Definition sample_observed : ObservedIntent := mkObserved (row_of "cc" sample_open) "shop".


(** ** The observer's batch *)

Section batch.
Context (l : list PaymentIntent) (Hl : NoDup (id <$> l)).

#[local] Instance ranked_total : Total (ranked_le l).
Proof.
  intros a b. unfold ranked_le. destruct (Nat.lt_trichotomy (rank_in l a) (rank_in l b)) as [?|[E|?]]; auto.
  destruct (age_le_total a b); auto.
Qed.
#[local] Instance ranked_trans : Transitive (ranked_le l).
Proof.
  intros a b c [H1|[E1 H1]] [H2|[E2 H2]]; unfold ranked_le; [left; lia..|].
  right. split; [lia | by etransitivity].
Qed.

Lemma filter_length_lt {A} (p q : A -> bool) (k : list A) x :
  (forall y, y ∈ k -> p y = true -> q y = true) -> x ∈ k -> p x = false -> q x = true ->
  (length (List.filter p k) < length (List.filter q k))%nat.
Proof.
  assert (forall k, (forall y, y ∈ k -> p y = true -> q y = true) ->
    (length (List.filter p k) <= length (List.filter q k))%nat) as Hle.
  { intros k'. induction k' as [|y k' IH]; intros Hpq; [done|]. simpl.
    pose proof (Hpq y ltac:(apply elem_of_cons; by left)) as Hy.
    specialize (IH (fun z Hz => Hpq z ltac:(apply elem_of_cons; by right))).
    destruct (p y); [rewrite (Hy eq_refl); simpl; lia|]. destruct (q y); simpl; lia. }
  induction k as [|y k IH]; intros Hpq Hx Hp Hq; [by apply not_elem_of_nil in Hx|]. simpl.
  assert (forall z, z ∈ k -> p z = true -> q z = true) as Hpq'.
  { intros z Hz. apply Hpq. apply elem_of_cons. by right. }
  apply elem_of_cons in Hx as [->|Hx].
  - rewrite Hp, Hq. simpl. specialize (Hle k Hpq'). lia.
  - specialize (IH Hpq' Hx Hp Hq). pose proof (Hpq y ltac:(apply elem_of_cons; by left)) as Hy.
    destruct (p y); [rewrite (Hy eq_refl); simpl; lia|]. destruct (q y); simpl; lia.
Qed.

(** Within a consumer, the older row has the smaller rank. *)
Lemma rank_older a b :
  a ∈ l -> consumerId a = consumerId b -> older_than a b = true -> (rank_in l a < rank_in l b)%nat.
Proof.
  intros Ha Hc Ho. unfold rank_in. apply -> Nat.succ_lt_mono. apply (filter_length_lt _ _ _ a); [|done| |].
  - intros y _ Hy. bool_facts. rewrite bool_decide_true by congruence. simpl. by eapply older_than_trans.
  - by rewrite older_than_irrefl, andb_false_r.
  - by rewrite bool_decide_true, Ho.
Qed.

Lemma rank_inj a b :
  a ∈ l -> b ∈ l -> consumerId a = consumerId b -> rank_in l a = rank_in l b -> a = b.
Proof.
  intros Ha Hb Hc E. destruct (decide (id a = id b)) as [Ei|Hi]; [by eapply nodup_fmap_eq|].
  destruct (older_than a b) eqn:E1; [apply rank_older in E1; [lia|done..]|].
  destruct (older_than b a) eqn:E2; [apply rank_older in E2; [lia|done|done]|].
  exfalso. unfold older_than in E1, E2. bool_facts. assert (createdAt a = createdAt b) as Et by lia.
  rewrite Et, Z.eqb_refl in *. simpl in *. by apply Hi, id_lt_total.
Qed.
End batch.

(** The observer's batch is dealt fairly. Of rows with distinct ids, a batch
    holds only PENDING, unexpired ones, each once, at most ten of any consumer;
    and an eligible row that ranks among its consumer's ten oldest is left out
    only when the batch is full of rows that rank no later with their own
    consumers, so every consumer's oldest comes before anyone's second. *)
Theorem batch_dealt_fairly (batchSize : nat) (now : Z) (l : list PaymentIntent) :
  NoDup (id <$> l) ->
  let rows := List.filter (eligible now) l in
  let batch := ranked batchSize now l in
  NoDup (id <$> batch)
  /\ (forall i, i ∈ batch -> i ∈ l /\ eligible now i = true)
  /\ (forall c, (length (List.filter (fun i => bool_decide (consumerId i = c)) batch)
                 <= OBSERVER_MAX_INTENTS_PER_CONSUMER)%nat)
  /\ (forall i, i ∈ l -> eligible now i = true -> (rank_in rows i <= OBSERVER_MAX_INTENTS_PER_CONSUMER)%nat ->
        i ∉ batch -> length batch = batchSize
        /\ forall j, j ∈ batch -> (rank_in rows j <= rank_in rows i)%nat)
  /\ (forall i j, i ∈ rows -> j ∈ rows -> consumerId i = consumerId j -> older_than i j = true ->
        (rank_in rows i < rank_in rows j)%nat).
Proof.
  intros Hl rows batch.
  assert (forall p (k : list PaymentIntent), NoDup (id <$> k) -> NoDup (id <$> List.filter p k)) as Hnf.
  { intros p k. induction k as [|x k IH]; [done|]. rewrite fmap_cons, NoDup_cons. intros [Hx Hk]. simpl.
    destruct (p x); [|by apply IH]. rewrite fmap_cons, NoDup_cons. split; [|by apply IH].
    intros (y & E & Hy)%list_elem_of_fmap. apply elem_of_lfilter in Hy as [Hy _]. apply Hx.
    rewrite E. by apply list_elem_of_fmap_2. }
  pose proof (Hnf (eligible now) l Hl) as Hrows. fold rows in Hrows.
  set (cand := List.filter (fun i => (rank_in rows i <=? OBSERVER_MAX_INTENTS_PER_CONSUMER)%nat) rows).
  pose proof (Hnf (fun i => (rank_in rows i <=? OBSERVER_MAX_INTENTS_PER_CONSUMER)%nat) rows Hrows) as Hcand.
  fold cand in Hcand. set (sorted := merge_sort (ranked_le rows) cand).
  assert (batch = take batchSize sorted) as Eb by done.
  pose proof (merge_sort_Permutation (ranked_le rows) cand) as Hperm. fold sorted in Hperm.
  assert (NoDup (id <$> sorted)) as Hsorted by by rewrite Hperm.
  assert (forall i, i ∈ batch -> i ∈ cand) as Hbc.
  { intros i Hi. rewrite Eb in Hi. apply (subseteq_take batchSize) in Hi. by rewrite Hperm in Hi. }
  assert (NoDup (id <$> batch)) as Hbatch.
  { rewrite <- (take_drop batchSize sorted), fmap_app, NoDup_app in Hsorted. rewrite Eb. apply Hsorted. }
  split; [done|]. split; [|split; [|split]].
  - intros i [Hi _]%Hbc%elem_of_lfilter. by apply elem_of_lfilter in Hi.
  - intros c. set (k := List.filter _ batch).
    assert (forall i, i ∈ k -> i ∈ rows /\ consumerId i = c /\ (1 <= rank_in rows i <= OBSERVER_MAX_INTENTS_PER_CONSUMER)%nat) as Hk.
    { intros i [Hi Hc]%elem_of_lfilter. apply Hbc, elem_of_lfilter in Hi as [Hi Hr]. bool_facts.
      apply Nat.leb_le in Hr. split_and!; try done. unfold rank_in. lia. }
    assert (NoDup (rank_in rows <$> k)) as Hnd.
    { apply NoDup_fmap_2_strong; [|by eapply NoDup_fmap_1, Hnf].
      intros x y Hx Hy E. destruct (Hk x Hx) as (? & ? & _), (Hk y Hy) as (? & ? & _).
      apply (rank_inj rows Hrows); congruence. }
    rewrite <- (length_fmap (rank_in rows)). rewrite <- (length_seq OBSERVER_MAX_INTENTS_PER_CONSUMER 1).
    apply submseteq_length, NoDup_submseteq; [done|]. intros n (x & -> & Hx)%list_elem_of_fmap.
    destruct (Hk x Hx) as (_ & _ & ?). apply elem_of_seq. lia.
  - intros i Hi He Hr Hnot.
    assert (i ∈ sorted) as Hs.
    { rewrite Hperm. apply elem_of_lfilter. split; [by apply elem_of_lfilter|]. by apply Nat.leb_le. }
    rewrite <- (take_drop batchSize sorted), elem_of_app in Hs. rewrite <- Eb in Hs.
    destruct Hs as [Hs|Hs]; [done|]. split.
    + rewrite Eb, length_take. assert (drop batchSize sorted <> []) as Hne by (intros E; rewrite E in Hs; by apply not_elem_of_nil in Hs).
      destruct (decide (batchSize <= length sorted)%nat); [lia|]. destruct Hne. apply drop_ge. lia.
    + intros j Hj. rewrite Eb in Hj.
      assert (ranked_le rows j i) as [?|[-> _]]; [|lia|done].
      eapply (take_sorted_le (ranked_le rows) batchSize sorted); [|exact Hj|exact Hs].
      apply StronglySorted_merge_sort; [apply ranked_trans | apply ranked_total].
  - intros i j Hi Hj Hc Ho. by apply rank_older.
Qed.

(** Eleven rows of a flooding consumer and one of another, in a batch of five. *)
Definition flood : list PaymentIntent :=
  List.map (fun n => let i := repeat_char (S n) "a" in
              mkPaymentIntent i "flood" PAY "stellar" "public" None "GDEST" None "native" None None i
                None None None None None PENDING None "" None None None JNull None (Z.of_nat n))
    (seq 0 11) ++ [sample_intent "z" "quiet" "1" 1000].

Lemma batch_dealt_fairly_witness :
  NoDup (id <$> flood) /\ NoDup (id <$> ranked 5 50 flood)
  /\ (id <$> take 2 (ranked 5 50 flood)) = ["a"; "z"]%string.
Proof.
  assert (NoDup (id <$> flood)) as H by (apply (bool_decide_unpack _); vm_compute; exact I).
  split; [exact H|]. split; [|vm_compute; reflexivity].
  exact (proj1 (batch_dealt_fairly 5 50 flood H)).
Defined.

(** ** A retried hash after a settlement *)

(** A retried PATCH can replace the hash an intent was settled on. The owner
    sends again, without a status, the hash its intent carries. The two reads of
    that request may find the intent still open; whatever settles the intent
    meanwhile on another transaction, the write that follows is not conditional on
    the status: it keeps the row's status, SUCCEEDED by then, and puts the retried
    hash in the place of the one the settlement was verified against, with no
    audit row. *)
Theorem settled_hash_overwritten (env : Env) (request : prog DB unit -> Prop) (world : DB -> DB -> Prop)
    (user i h' h : string) (c : Chain) (dto : UpdatePaymentIntentDto) (d : Draw) (l : list (prog DB unit))
    (s0 : DB) (r0 : PaymentIntent) :
  intents s0 !! i = Some r0 -> consumer_id user s0 = Some (consumerId r0) ->
  u_status dto = None -> u_txHash dto = Some h' ->
  chainOf (Some (chain r0)) = Ok c -> checkedTxId c h' = Ok h -> txHash r0 = Some h ->
  exists retry, star (pool_step request world) (discard (update env user i dto d) :: l, s0) (retry :: l, s0)
  /\ forall s1 r1,
       intents s1 !! i = Some r1 -> id r1 = i ->
       (forall j r', intents s1 !! j = Some r' -> id r' <> i -> consumerId r' = consumerId r1 ->
          memo r' <> memo r1 /\ txHash r' <> Some h) ->
       exists retry' s2 r2, star (pool_step request world) (retry :: l, s1) (retry' :: l, s2)
       /\ intents s2 !! i = Some r2 /\ status r2 = status r1 /\ txHash r2 = Some h
       /\ settlements s2 = settlements s1 /\ transitions s2 = transitions s1.
Proof.
  intros Hi Hc Hst Hh Hch Hck Hr0.
  assert (findOwned user i s0 = Some r0) as Hown.
  { unfold findOwned. by rewrite Hi, bool_decide_true. }
  set (dto' := mkUpdate (u_status dto) (Some h) (u_reference dto) (u_checkoutTheme dto)).
  set (fields := with_hash h (merchantFieldsOf dto')).
  exists (discard (updated ← stmt (update_row i fields); _ ← emit user PAYMENT_INTENT_UPDATED updated d;
                   withQr env updated)). split.
  - eapply star_trans; [apply star_one, (pool_run request world [])|].
    cbn [app]. cbn -[findOwned findUnique chainOf checkedTxId]. rewrite Hown.
    cbn -[findUnique chainOf checkedTxId]. rewrite Hch. cbn -[findUnique checkedTxId].
    rewrite Hh, Hck, Hst. cbn -[findUnique].
    eapply star_trans; [apply star_one, (pool_run request world [])|]. cbn -[findUnique].
    unfold findUnique. rewrite Hi, bool_decide_true by done. unfold fields, dto'. rewrite Hst. apply star_refl.
  - intros s1 r1 Hr1 Hid Hother. set (r2 := apply_patch fields r1).
    assert (violated r2 s1 = None) as Hv.
    { apply not_violated. intros j x Hx Hne Hcid. cbn in Hne, Hcid. rewrite Hid in Hne.
      destruct (Hother j x Hx Hne Hcid) as [Hm Hx']. split; [exact Hm|]. by intros k [= <-]. }
    assert (update_row i fields s1 = (set_intents (fun m => <[i := r2]> m) s1, Ok r2)) as Hw.
    { unfold update_row, write. rewrite Hr1. fold r2. rewrite Hv. cbn. by rewrite Hid. }
    eexists _, _, r2. split; [apply star_one, (pool_run request world [])|]. rewrite Hw.
    cbn. by rewrite lookup_insert_eq.
Qed.

Definition parked_hash : string := repeat_char 64 "a"%char.
Definition sample_patch : UpdatePaymentIntentDto := mkUpdate None (Some parked_hash) None None.
Definition race_before : DB :=
  run_all [discard (createPay sample_env sample_shop sample_dto (sample_create 90000));
           discard (update sample_env "shop" "cc" sample_patch sample_draw)]
    (empty_db (verifiers_of (fun s => s) sample_nodes)).
Definition race_settled : DB := run_all [discard (validate sample_env "shop" "cc" sample_hash sample_draw)] race_before.

Lemma settled_hash_overwritten_witness :
  let step := pool_step (intent_request sample_env) (fun _ _ => False) in
  let row s := default (sample_intent "" "" "" 0) (intents s !! "cc"%string) in
  status (row race_settled) = SUCCEEDED /\ txHash (row race_settled) = Some sample_hash
  /\ exists retry retry' s2,
       star step ([discard (update sample_env "shop" "cc" sample_patch sample_draw)], race_before) ([retry], race_before)
       /\ star step ([retry], race_settled) ([retry'], s2)
       /\ (exists r2, intents s2 !! "cc"%string = Some r2 /\ status r2 = SUCCEEDED /\ txHash r2 = Some parked_hash)
       /\ List.map s_txHash (settlements s2) = [sample_hash].
Proof.
  intros step row. split; [vm_compute; reflexivity|]. split; [vm_compute; reflexivity|].
  destruct (settled_hash_overwritten sample_env (intent_request sample_env) (fun _ _ => False) "shop" "cc"
    parked_hash parked_hash stellar sample_patch sample_draw [] race_before (row race_before)
    ltac:(vm_compute; reflexivity) ltac:(vm_compute; reflexivity) eq_refl eq_refl
    ltac:(vm_compute; reflexivity) ltac:(vm_compute; reflexivity) ltac:(vm_compute; reflexivity))
    as (retry & Hreads & Hwrite).
  destruct (Hwrite race_settled (row race_settled) ltac:(vm_compute; reflexivity) ltac:(vm_compute; reflexivity))
    as (retry' & s2 & r2 & Hs2 & Hr2 & Hst & Hh & Hcl & _).
  { assert (map_Forall (fun _ r => id r = "cc"%string) (intents race_settled)) as Hall
      by (refine (bool_decide_unpack _ _); vm_compute; exact I).
    intros j r' Hr' Hne. by destruct (Hne (Hall j r' Hr')). }
  exists retry, retry', s2. split; [exact Hreads|]. split; [exact Hs2|]. split.
  - exists r2. split; [exact Hr2|]. split; [|exact Hh]. rewrite Hst. vm_compute. reflexivity.
  - rewrite Hcl. vm_compute. reflexivity.
Defined.
