(* ===== verification/DepositBehaviour.v ===== *)
(** The deposit addresses of Monad links over time: the row of a minted address
    rebuilds the terms it was derived from, so its money can always be moved, and
    what becomes of an intent when its forward is confirmed. *)

From stdpp Require Import base tactics list option gmap strings sorting.
From Stdlib Require Import ZArith Lia Ascii.
From S2P Require Import Prelude Text Units MerchantFee Intents ChainAddress Rivals Verifier.
From S2P Require Import Webhooks StellarVerifier SolanaVerifier EvmVerifier Links PayLinks.
From S2P Require Import Programs Store IntentService IntentSafety Observer DepositForwarder.
From S2P Require Import IntentPool IntentBehaviour.

Open Scope Z_scope.

(** ** Deposit addresses *)

Lemma digit_no_space a : is_digit a = true -> negb (is_space a) = true.
Proof. intros H. apply negb_true_iff, hex_not_space. unfold is_hex. by rewrite H. Qed.

Lemma digits_no_space s : all_chars is_digit s = true -> trim s = s.
Proof.
  intros H. apply trim_no_space. eapply all_chars_impl; [|exact H]. exact digit_no_space.
Qed.

Lemma BigInt_text_digits n : 0 <= n -> BigInt_text (nat_toString n) = Some n.
Proof.
  intros Hn. unfold BigInt_text. pose proof (nat_toString_digits n Hn) as Hd.
  rewrite digits_no_space by done. pose proof (nat_toString_value n Hn) as Hv.
  pose proof (nat_toString_lead n) as Hlead. pose proof (nat_toString_nonempty n Hn) as Hne.
  destruct (nat_toString n) as [|a r] eqn:E; [done|].
  assert (is_digits (String a r) = true) as Hds by (apply is_digits_spec; by split).
  destruct (decide (a = "0"%char)) as [->|Ha].
  - rewrite (Hlead r Hn eq_refl) in E, Hv |- *. vm_compute in E. by injection E as <-.
  - simpl in Hd. apply andb_true_iff in Hd as [Hd _].
    destruct a as [[] [] [] [] [] [] [] []]; try discriminate Hd; try done; by rewrite Hds, Hv.
Qed.

Lemma BigInt_of_toString n : BigInt_of (toString n) = Ok n.
Proof.
  unfold BigInt_of, toString. destruct (n <? 0) eqn:E; [|rewrite BigInt_text_digits by lia; done].
  apply Z.ltb_lt in E. unfold BigInt_text.
  assert (trim (String "-" (nat_toString (- n))) = String "-" (nat_toString (- n))) as ->.
  { apply trim_no_space. simpl. apply all_chars_impl with (p := is_digit); [|apply nat_toString_digits; lia].
    exact digit_no_space. }
  assert (is_digits (nat_toString (- n)) = true) as Hd.
  { apply is_digits_spec. split; [apply nat_toString_nonempty; lia | apply nat_toString_digits; lia]. }
  rewrite Hd, nat_toString_value by lia. simpl. f_equal. lia.
Qed.

Lemma toChecksumAddress_nonempty keccak a : toChecksumAddress keccak a <> ""%string.
Proof. done. Qed.

Lemma nonempty_truthy s : s <> ""%string -> truthy (Some s) = true.
Proof. by destruct s. Qed.

(** The forwarder's terms of a minted deposit, and the fee wallet in them. *)
Definition minted_terms (dep : EvmDepositTerms) : ForwarderTerms :=
  mkForwarderTerms (dep_destination dep) (dep_token dep) (dep_relayer dep) (dep_fee dep) (dep_merchantFee dep).

Section deposits.
Context (isValid : string -> bool) (keccak : string -> string).
Context (depositAddress : string -> ForwarderTerms -> string) (reads : ChainReads).

Lemma builder_merchantFee_wallet r a dest m :
  builder_merchantFee isValid keccak reads monad r a dest = Ok (Some m) -> wallet (rm_terms m) <> ""%string.
Proof.
  unfold builder_merchantFee. destruct (r_merchantFee r) as [dto|]; [|done].
  destruct (r_amount r); [|done]. intros (o & Eo & H)%res_bind_Ok. apply res_bind_Ok in H as (t & Et & H).
  destruct (bool_decide (wallet t = dest)); [done|]. apply res_bind_Ok in H as (x & _ & H).
  apply res_bind_Ok in H as (u & _ & H). apply res_bind_Ok in H as (b & _ & H). destruct b; [done|].
  injection H as <-. simpl. destruct o as [t'|]; [|done]. injection Et as ->.
  apply resolve_Some in Eo as (_ & _ & _ & w & _ & ->). apply toChecksumAddress_nonempty.
Qed.

(** What [mint] answers within a link. *)
Lemma minted_spec r d l dep :
  build isValid keccak depositAddress reads monad r d = Ok l -> l_deposit l = Some dep ->
  dep_address dep = depositAddress (dep_salt dep) (minted_terms dep)
  /\ (forall w f, dep_merchantFee dep = Some (w, f) -> w <> ""%string).
Proof.
  intros H Hd. simpl in H. unfold monadPay in H. destruct (r_msg r); [done|].
  apply res_bind_Ok in H as (a & _ & H).
  assert (forall dest, monadDeposit isValid keccak depositAddress reads r dest a (MONAD_CHAIN_IDS (r_network r)) d = Ok l ->
    dep_address dep = depositAddress (dep_salt dep) (minted_terms dep)
    /\ (forall w f, dep_merchantFee dep = Some (w, f) -> w <> ""%string)) as Hdep.
  { intros dest Hm. unfold monadDeposit in Hm. apply res_bind_Ok in Hm as (v & _ & Hm).
    apply res_bind_Ok in Hm as (mf & Emf & Hm). apply res_bind_Ok in Hm as (dep' & Edep & Hm).
    assert (dep' = dep) as ->.
    { destruct (match mf, _ with Some _, Some _ => _ | _, _ => false end); [done|].
      destruct (match _ with Some v => v <=? dep_fee dep' | None => false end); [done|].
      injection Hm as <-. by injection Hd. }
    unfold mint in Edep. apply res_bind_Ok in Edep as (fee_ & _ & Edep). injection Edep as <-.
    split; [done|]. intros w f. simpl. destruct mf as [m|]; [|done]. intros [= <- _].
    by eapply builder_merchantFee_wallet. }
  destruct (r_merchantFee r), (relayer_isEnabled reads); cbn in H; [exact (Hdep _ H) | done | exact (Hdep _ H) |]. unfold monadDirect in H.
  apply res_bind_Ok in H as (? & _ & H). apply res_bind_Ok in H as (? & _ & H). by injection H as <-.
Qed.
End deposits.

(** money at a minted deposit address can always be moved. The row stored for
    the deposit of any Monad link rebuilds exactly the forwarder terms its
    address was derived from, so the forwarder never takes it for another
    artifact's: once the address, not yet deployed, holds more than the two fees
    and the forward is due, the forwarder sends the deterministic deployer the
    stored salt with the creation code for those terms. *)
Theorem minted_deposit_forwardable (isValid : string -> bool) (keccak : string -> string)
    (depositAddress : string -> ForwarderTerms -> string) (reads : ChainReads) (r : ChainPayRequest)
    (d : LinkDraw) (l : ChainPayLink) (dep : EvmDepositTerms) (cd : CreateDraw) (i : string)
    (initCode : ForwarderTerms -> string) (node : EvmNode) (o : option ObservedIntent) (balance now : Z) :
  build isValid keccak depositAddress reads monad r d = Ok l -> l_deposit l = Some dep ->
  let stored := deposit_row monad (r_network r) cd dep i in
  let w := mkWatched stored o in
  balance_of node (r_network r) (if truthy (dep_token dep) then dep_token dep else None) (dep_address dep)
    = Ok balance ->
  hasCode node (r_network r) (dep_address dep) = Ok false ->
  balance <> 0 -> dep_fee dep + default 0 (snd <$> dep_merchantFee dep) < balance ->
  shouldForward w balance now = Ok true ->
  terms_of_row stored (dep_fee dep) (default 0 (snd <$> dep_merchantFee dep)) = minted_terms dep
  /\ forward_decision depositAddress initCode node w now
     = Ok (Some (DETERMINISTIC_DEPLOYER, deployCalldata (dep_salt dep) (initCode (minted_terms dep)), balance)).
Proof.
  intros H Hd stored w Hbal Hcode Hb0 Hb Hdue.
  destruct (minted_spec _ _ _ _ _ _ _ _ H Hd) as [Haddr Hw].
  assert (forall m, truthy (Some (toString m)) = true) as Htruthy.
  { intros m. apply nonempty_truthy. unfold toString. destruct (m <? 0) eqn:E; [done|].
    apply nat_toString_nonempty. lia. }
  assert (terms_of_row stored (dep_fee dep) (default 0 (snd <$> dep_merchantFee dep)) = minted_terms dep) as Ht.
  { unfold terms_of_row, stored, deposit_row, minted_terms. cbn [ed_destination ed_token ed_relayer ed_feeWallet ed_merchantFee].
    f_equal. destruct (dep_merchantFee dep) as [[wa f]|]; [|done]. cbn [fmap option_fmap option_map fst snd default].
    by rewrite (nonempty_truthy wa (Hw wa f eq_refl)), Htruthy. }
  split; [done|]. unfold forward_decision. cbn [row w stored deposit_row ed_network ed_token ed_address ed_fee ed_merchantFee ed_status].
  rewrite Hbal. cbn [mbind res_bind]. rewrite (proj2 (Z.eqb_neq balance 0) Hb0), BigInt_of_toString.
  cbn [mbind res_bind].
  assert (match toString <$> (snd <$> dep_merchantFee dep) with
          | Some m => if truthy (toString <$> (snd <$> dep_merchantFee dep)) then BigInt_of m else Ok 0
          | None => Ok 0
          end = Ok (default 0 (snd <$> dep_merchantFee dep))) as ->.
  { destruct (dep_merchantFee dep) as [[wa f]|]; [|done]. cbn [fmap option_fmap option_map fst snd default].
    by rewrite Htruthy, BigInt_of_toString. }
  cbn [mbind res_bind]. rewrite Hcode. cbn [mbind res_bind negb andb].
  rewrite (proj2 (Z.leb_gt balance _) Hb). rewrite bool_decide_true by done.
  fold stored w. rewrite Hdue. cbn [mbind res_bind negb]. unfold forward_call. fold stored. rewrite Ht.
  rewrite bool_decide_true by (symmetry; exact Haddr). done.
Qed.

Definition sample_watched_node : EvmNode :=
  mkNode (fun _ _ _ => Ok 1500000000000000000) (fun _ _ => Ok false) (fun _ _ => Ok None) (fun _ _ _ => Ok "0xabc"%string).

Lemma minted_deposit_forwardable_witness :
  exists l dep,
    build (fun _ => true) (fun s => s) sample_deposit_address (sample_reads true) monad
      sample_request sample_linkdraw = Ok l
    /\ l_deposit l = Some dep
    /\ forward_decision sample_deposit_address (fun _ => "0x60"%string) sample_watched_node
         (mkWatched (deposit_row monad "public" (sample_create 5) dep "cc") None) 9
       = Ok (Some (DETERMINISTIC_DEPLOYER, deployCalldata (dep_salt dep) "0x60", 1500000000000000000)).
Proof.
  eexists _, _. split; [vm_compute; reflexivity|]. split; [vm_compute; reflexivity|].
  refine (proj2 (minted_deposit_forwardable (fun _ => true) (fun s => s) sample_deposit_address (sample_reads true)
    sample_request sample_linkdraw _ _ (sample_create 5) "cc" (fun _ => "0x60"%string) sample_watched_node None
    1500000000000000000 9 _ _ _ _ _ _ _)); try (vm_compute; reflexivity).
  - vm_compute; discriminate.
Defined.

(** ** A forward that is confirmed *)

Lemma never_watched dep now db :
  ed_status dep = FORWARDED -> ed_token dep = None -> ~ (join_intent db dep ∈ watched now db).
Proof.
  intros Hs Ht (x & E & Hx)%list_elem_of_fmap. assert (x = dep) as -> by by apply (f_equal row) in E.
  apply elem_of_take in Hx as (n & Hx & _). apply list_elem_of_lookup_2 in Hx.
  rewrite (merge_sort_Permutation oldest_deposit) in Hx. apply elem_of_lfilter in Hx as [_ Hw].
  unfold watched_row in Hw. rewrite Hs, Ht in Hw. by rewrite andb_false_r in Hw.
Qed.

(** a confirmed forward settles its intent at once or, for a native deposit,
    never. In any reachable state, for a deposit whose forward has a successful
    receipt and covered its open intent, [confirm] first commits FORWARDED and
    then settles: when the settlement succeeds that is the outcome; when it fails,
    the row stays FORWARDED, nothing else has changed, and no later tick reads a
    row in that state that holds the native coin, so the settlement is not tried
    again. *)
Theorem confirmed_forward_outcome (env : Env) (moments : Nodes -> Prop) (initCode : ForwarderTerms -> string)
    (l : list (prog DB unit)) (s : DB) (node : EvmNode) (dep : EvmDepositAddress) (o : ObservedIntent)
    (h amt : string) (e : option Z) (v now : Z) (d : Draw) :
  Inj (=) (=) (cuid env) ->
  executes env moments (any_request env initCode) l s ->
  dep ∈ deposits s -> w_intent (join_intent s dep) = Some o -> id (observed o) <> ""%string ->
  status (observed o) ∈ [PENDING; SUBMITTED; EXPIRED] ->
  forwardTxHash dep = Some h -> h <> ""%string -> receipt_status node (ed_network dep) h = Ok (Some "0x1"%string) ->
  forwardedAmount dep = Some amt -> amt <> ""%string -> BigInt_of amt = Ok v ->
  expectedAmount (observed o) = Ok e -> covers e v = true ->
  exists s1, intents s1 = intents s /\ settlements s1 = settlements s /\ transitions s1 = transitions s
  /\ set_status FORWARDED dep ∈ deposits s1
  /\ match run (markSucceeded (id (observed o)) (apisixUsername o) h None A_observer d) s1 with
     | (s', Ok _) => run (confirm node (join_intent s dep) now d) s = (s', Ok tt)
     | (_, Throw x) => run (confirm node (join_intent s dep) now d) s = (s1, Throw x)
         /\ (ed_token dep = None -> forall later db, ~ (join_intent db (set_status FORWARDED dep) ∈ watched later db))
     end.
Proof.
  intros Hinj Hrun Hdep Ho Hne Hst Hh Hh0 Hrec Hamt Hamt0 Hv He Hcov.
  destruct (any_execution env moments initCode l s l s Hrun (star_refl _ _)) as (V & _ & _).
  set (s1 := set_deposits (fmap (fun x => if bool_decide (ed_id x = ed_id dep) then set_status FORWARDED x else x)) s).
  assert (valid_db (cuid env) everything everything s1) as V1.
  { apply (ok_elsewhere (cuid env) everything everything s); try done. apply V. }
  exists s1. split_and!; try done.
  { apply list_elem_of_fmap. exists dep. by rewrite bool_decide_true. }
  assert (run (confirm node (join_intent s dep) now d) s
          = run (discard (markSucceeded (id (observed o)) (apisixUsername o) h None A_observer d)) s1) as ->.
  { unfold confirm. cbn [row join_intent]. rewrite Hh, (nonempty_truthy h Hh0), Hrec. cbn [pure].
    rewrite run_bind. cbn [run]. rewrite bool_decide_true by done. cbn [negb].
    rewrite run_bind, run_stmt. unfold update_deposit.
    assert (existsb (fun x => bool_decide (ed_id x = ed_id dep)) (deposits s) = true) as ->.
    { apply existsb_exists. exists dep. split; [by apply list_elem_of_In | by apply bool_decide_true]. }
    fold s1. unfold settle. rewrite Ho. cbn [row join_intent].
    rewrite Hh, Hamt, (nonempty_truthy h Hh0), (nonempty_truthy amt Hamt0). cbn [negb orb].
    rewrite bool_decide_false.
    2:{ intros Hc. rewrite !elem_of_cons, elem_of_nil in Hst, Hc.
        destruct Hst as [E|[E|[E|[]]]]; rewrite E in Hc; destruct Hc as [?|[?|[?|[]]]]; done. }
    rewrite He, Hv. cbn [pure]. rewrite run_bind. cbn [run]. rewrite run_bind. cbn [run]. by rewrite Hcov. }
  rewrite run_discard.
  destruct (run (markSucceeded _ _ _ _ _ _) s1) as [s' [u|x]] eqn:Em; [done|].
  apply (refused_settlement env) in Em as ->; try done. split; [done|].
  intros Htok later db. by apply never_watched.
Qed.

Definition forward_hash : string := ("0x" +:+ repeat_char 64 "f"%char)%string.
Definition monad_create (relayer : bool) : CreateDraw :=
  mkCreateDraw 7 90000 (Ok tt) (fun _ => Ok "AAAA"%string) (sample_reads relayer) sample_linkdraw "dep" sample_draw.
Definition monad_dto (m : string) : CreatePaymentIntentDto :=
  mkCreate (Some monad) "" "0xD000000000000000000000000000000000000001" (Some "1.5"%string) None None (Some m)
    None None None None.
Definition forwarding_node : EvmNode :=
  mkNode (fun _ _ _ => Ok 1500000000000000000) (fun _ _ => Ok false) (fun _ _ => Ok (Some "0x1"%string))
    (fun _ _ _ => Ok forward_hash).

(** A link with a deposit address, a second link whose reported hash is the
    forward's, and a tick that sends the forward. *)
Definition forward_requests : list (prog DB unit) :=
  [discard (createPay sample_env sample_shop (monad_dto "7") (monad_create true));
   discard (createPay sample_env sample_shop (monad_dto "8") (monad_create false));
   discard (update sample_env "shop" "ccc" (mkUpdate None (Some forward_hash) None None) sample_draw);
   forwarder_run sample_deposit_address (fun _ => "0x60"%string) forwarding_node 91000 (fun _ => sample_draw)].
Definition forward_db : DB := run_all forward_requests sample_empty.
Definition forward_row : EvmDepositAddress :=
  default (deposit_row monad "" (monad_create true) (mkDepositTerms "" "" "" None "" 0 None) "")
    (head (deposits forward_db)).
Definition forward_observed : ObservedIntent :=
  mkObserved (default (sample_intent "" "" "" 0) (intents forward_db !! "cc"%string)) "shop".

Lemma forward_executes ic :
  ic = (fun _ => "0x60"%string) ->
  exists l, executes sample_env (fun n => n = sample_nodes) (any_request sample_env ic) l forward_db.
Proof.
  intros ->.
  destruct (pool_run_all (any_request sample_env (fun _ => "0x60"%string))
    (world_step (fun n => n = sample_nodes) (keccak_hex sample_env)) forward_requests [] sample_empty) as [l Hl].
  { apply Forall_cons_2; [apply rq_intent, rq_createPay|]. apply Forall_cons_2; [apply rq_intent, rq_createPay|].
    apply Forall_cons_2; [apply rq_intent, rq_update|].
    apply Forall_cons_2; [apply (rq_forward sample_env) | apply Forall_nil_2]. }
  exists l, sample_nodes. split; [done | exact Hl].
Qed.

Lemma confirmed_forward_outcome_witness :
  exists s1, set_status FORWARDED forward_row ∈ deposits s1 /\ intents s1 = intents forward_db
  /\ run (confirm forwarding_node (join_intent forward_db forward_row) 92000 sample_draw) forward_db
     = (s1, Throw (conflict IdempotencyConflict))
  /\ forall later db, ~ (join_intent db (set_status FORWARDED forward_row) ∈ watched later db).
Proof.
  destruct (forward_executes (fun _ => "0x60"%string) eq_refl) as [l Hl].
  assert (forward_row ∈ deposits forward_db) as Hrow
    by (apply list_elem_of_lookup_2 with (i := 0%nat); vm_compute; reflexivity).
  assert (status (observed forward_observed) ∈ [PENDING; SUBMITTED; EXPIRED]) as Hopen
    by (refine (bool_decide_unpack _ _); vm_compute; exact I).
  destruct (confirmed_forward_outcome sample_env (fun n => n = sample_nodes) (fun _ => "0x60"%string) l forward_db
    forwarding_node forward_row forward_observed forward_hash "1500000000000000000" (Some 1500000000000000000)
    1500000000000000000 92000 sample_draw sample_ids Hl Hrow ltac:(vm_compute; reflexivity)
    ltac:(vm_compute; discriminate) Hopen ltac:(vm_compute; reflexivity) ltac:(discriminate) eq_refl
    ltac:(vm_compute; reflexivity) ltac:(discriminate) ltac:(vm_compute; reflexivity)
    ltac:(vm_compute; reflexivity) eq_refl) as (s1 & Hi & _ & _ & Hd & Hout).
  exists s1. split; [exact Hd|]. split; [exact Hi|].
  assert (snd (run (confirm forwarding_node (join_intent forward_db forward_row) 92000 sample_draw) forward_db)
          = Throw (conflict IdempotencyConflict)) as Hc by (vm_compute; reflexivity).
  destruct (run (markSucceeded _ _ _ _ _ _) s1) as [s' [u|x]].
  - rewrite Hout in Hc. discriminate.
  - destruct Hout as [Hout Hnever]. rewrite Hout in Hc. cbn [snd] in Hc. rewrite Hout. split; [by rewrite Hc|].
    apply Hnever. vm_compute. reflexivity.
Defined.
