(* ===== verification/LpMath.v ===== *)
(** Liquidity pools: the integer mathematics of src/src/liquidity-pools/lp-math.ts
    (price bounds, deposit ratio, proportional redemption, average cost basis,
    the commission on a withdrawal's gain) and the two-legged merchant fee of
    lp-merchant-fee.ts. Amounts are stroops. *)

From stdpp Require Import base tactics list option strings sorting.
From Stdlib Require Import ZArith Lia Ascii.
From S2P Require Import Prelude Text Units MerchantFee Intents ChainAddress.

Open Scope Z_scope.

(** ** lp-math.ts *)

Definition priceBounds (reserveA reserveB : Z) (slippageBps : jsnum) : res (string * string) :=
  match int_in_range slippageBps 10000 with
  | None => Throw RangeError
  | Some bps =>
      if (reserveA <=? 0) || (reserveB <=? 0) then Throw RangeError
      else
        let price := Z.quot (reserveA * STROOP_SCALE) reserveB in
        let min := Z.quot (price * (10000 - bps)) 10000 in
        let maxNum := price * (10000 + bps) in
        let max := Z.quot (maxNum + 9999) 10000 in
        if min <=? 0 then Throw RangeError
        else
          minPrice ← fromStroops min;
          maxPrice ← fromStroops max;
          Ok (minPrice, maxPrice)
  end.

Definition matchDeposit (amountA reserveA reserveB : Z) : res Z :=
  if reserveA <=? 0 then Throw RangeError else Ok (Z.quot (amountA * reserveB) reserveA).

Definition proportionalShare (shares totalShares reserve : Z) : res Z :=
  if totalShares <=? 0 then Throw RangeError
  else if (shares <? 0) || (totalShares <? shares) then Throw RangeError
  else Ok (Z.quot (shares * reserve) totalShares).

Inductive LiquidityOperationKind := DEPOSIT | WITHDRAW.
#[export] Instance LiquidityOperationKind_eq_dec : EqDecision LiquidityOperationKind.
Proof. solve_decision. Defined.

Record CostBasisOp := mkCostBasisOp {
  cb_kind : LiquidityOperationKind;
  cb_shares : option string;
  cb_sharesReceived : option string;
  cb_settledAmountA : option string;
  cb_settledAmountB : option string;
  cb_amountA : string;
  cb_amountB : string
}.

Record CostBasis := mkCostBasis {
  depositedShares : Z;
  remainingShares : Z;
  costA : Z;
  costB : Z
}.

(** The running sums of the loop: deposited, withdrawn, cost of A, cost of B. *)
Definition basis_step (acc : Z * Z * Z * Z) (o : CostBasisOp) : res (Z * Z * Z * Z) :=
  let '(deposited, withdrawn, a, b) := acc in
  match cb_kind o with
  | DEPOSIT =>
      match cb_sharesReceived o with
      | Some received =>
          if truthy (cb_sharesReceived o) then
            s ← toStroops received;
            x ← toStroops (default (cb_amountA o) (cb_settledAmountA o));
            y ← toStroops (default (cb_amountB o) (cb_settledAmountB o));
            Ok (deposited + s, withdrawn, a + x, b + y)
          else Ok acc
      | None => Ok acc
      end
  | WITHDRAW =>
      match cb_shares o with
      | Some shares =>
          if truthy (cb_shares o) then s ← toStroops shares; Ok (deposited, withdrawn + s, a, b)
          else Ok acc
      | None => Ok acc
      end
  end.

Fixpoint basis_sums (acc : Z * Z * Z * Z) (ops : list CostBasisOp) : res (Z * Z * Z * Z) :=
  match ops with
  | [] => Ok acc
  | o :: ops => acc ← basis_step acc o; basis_sums acc ops
  end.

Definition aggregateCostBasis (ops : list CostBasisOp) : res CostBasis :=
  sums ← basis_sums (0, 0, 0, 0) ops;
  let '(deposited, withdrawn, a, b) := sums in
  let remaining := deposited - withdrawn in
  Ok (mkCostBasis deposited (if 0 <? remaining then remaining else 0) a b).

(** The rates are integers: a plan's column and a validated request field. *)
Record WithdrawTerms := mkWithdrawTerms {
  w_shares : Z;
  w_totalShares : Z;
  w_reserveA : Z;
  w_reserveB : Z;
  w_slippageBps : Z;
  w_feeBps : Z
}.

(** One asset's leg: the redeemed amount, and the commission on its gain. *)
Definition redeemed (i : WithdrawTerms) (covered reserve : Z) : res Z :=
  share ← proportionalShare covered (w_totalShares i) reserve;
  applySlippage share (NumInt (w_slippageBps i)).

Definition gain_fee (feeBps redeemed basis : Z) : res Z :=
  computeFee (if basis <? redeemed then redeemed - basis else 0) (NumInt feeBps).

Definition computeWithdrawCommission (i : WithdrawTerms) (c : CostBasis) : res (Z * Z) :=
  if w_feeBps i <=? 0 then Ok (0, 0)
  else
    let covered := if w_shares i <? remainingShares c then w_shares i else remainingShares c in
    if (covered <=? 0) || (depositedShares c <=? 0) then Ok (0, 0)
    else
      redeemedA ← redeemed i covered (w_reserveA i);
      redeemedB ← redeemed i covered (w_reserveB i);
      let basisA := Z.quot (costA c * covered) (depositedShares c) in
      let basisB := Z.quot (costB c * covered) (depositedShares c) in
      feeA ← gain_fee (w_feeBps i) redeemedA basisA;
      feeB ← gain_fee (w_feeBps i) redeemedB basisB;
      Ok (feeA, feeB).

(** ** lp-merchant-fee.ts *)

Record LiquidityMerchantFeeRecord := mkLpFeeRecord {
  lp_base : MerchantFeeRecord;
  lp_amountB : string;
  lp_assetB : string
}.

Definition resolveLiquidityMerchantFee (isValidEd25519PublicKey : string -> bool)
    (keccak_hex : string -> string) (dto : option MerchantFeeDto) : res (option MerchantFeeTerms) :=
  terms ← resolveMerchantFee dto STELLAR_DECIMALS
            (CHAIN_ADDRESS_RULES isValidEd25519PublicKey keccak_hex stellar);
  match terms with
  | Some t => if 0 <? fixed t then Throw (badRequest ValidationFailed) else Ok terms
  | None => Ok terms
  end.

Definition liquidityMerchantFee (terms : MerchantFeeTerms) (amountA amountB : Z) : res (Z * Z) :=
  let feeA := Z.quot (amountA * bps terms) MERCHANT_FEE_BPS_DENOMINATOR in
  let feeB := Z.quot (amountB * bps terms) MERCHANT_FEE_BPS_DENOMINATOR in
  if (feeA <=? 0) && (feeB <=? 0) then Throw (badRequest InvalidAmount) else Ok (feeA, feeB).

Definition liquidityMerchantFeeRecord (terms : MerchantFeeTerms) (feeA feeB : Z)
    (assetA assetB : string) : res LiquidityMerchantFeeRecord :=
  b ← fromStroops feeB;
  Ok (mkLpFeeRecord (merchantFeeRecord terms feeA STELLAR_DECIMALS assetA) b assetB).

Definition readLiquidityMerchantFee (value : json) : option LiquidityMerchantFeeRecord :=
  match readMerchantFeeRecord value, value with
  | Some base, JObject r =>
      match field "amountB" r, field "assetB" r with
      | Some (JString b), Some (JString a) => Some (mkLpFeeRecord base b a)
      | _, _ => None
      end
  | _, _ => None
  end.

(** ** The cost basis is a sum *)

Definition sums_add (x y : Z * Z * Z * Z) : Z * Z * Z * Z :=
  (x.1.1.1 + y.1.1.1, x.1.1.2 + y.1.1.2, x.1.2 + y.1.2, x.2 + y.2).

(** What one operation adds. *)
Definition counted (o : CostBasisOp) : res (Z * Z * Z * Z) := basis_step (0, 0, 0, 0) o.

Lemma basis_step_add acc o : basis_step acc o = (d ← counted o; Ok (sums_add acc d)).
Proof.
  destruct acc as [[[d w] a] b]. unfold counted, basis_step.
  assert (Ok (d, w, a, b) = Ok (sums_add (d, w, a, b) (0, 0, 0, 0))) as E
    by (unfold sums_add; simpl; by rewrite !Z.add_0_r).
  destruct (cb_kind o); [destruct (cb_sharesReceived o)|destruct (cb_shares o)]; try exact E;
    (destruct (truthy _); [|exact E]).
  - destruct (toStroops s); simpl; [|done].
    destruct (toStroops (default (cb_amountA o) (cb_settledAmountA o))); simpl; [|done].
    destruct (toStroops (default (cb_amountB o) (cb_settledAmountB o))); simpl; [|done].
    unfold sums_add. simpl. by rewrite ?Z.add_0_r.
  - destruct (toStroops s); [|done]. simpl. unfold sums_add. simpl. by rewrite ?Z.add_0_r.
Qed.

Lemma counted_nonneg o d :
  counted o = Ok d -> 0 <= d.1.1.1 /\ 0 <= d.1.1.2 /\ 0 <= d.1.2 /\ 0 <= d.2.
Proof.
  unfold counted, basis_step.
  destruct (cb_kind o); [destruct (cb_sharesReceived o)|destruct (cb_shares o)];
    try (intros [= <-]; simpl; lia); (destruct (truthy _); [|intros [= <-]; simpl; lia]).
  - intros (s' & Es & H)%bind_Ok. apply bind_Ok in H as (x & Ex & H). apply bind_Ok in H as (y & Ey & H).
    injection H as <-. apply toStroops_range in Es, Ex, Ey. simpl. lia.
  - intros (s' & Es & H)%bind_Ok. injection H as <-. apply toStroops_range in Es. simpl. lia.
Qed.

Lemma basis_sums_perm l l' acc r :
  l ≡ₚ l' -> basis_sums acc l = Ok r -> basis_sums acc l' = Ok r.
Proof.
  intros H. revert acc. induction H as [|o l l' H IH|o o' l|l l' l'' H IH H' IH']; intros acc; [done| | |by eauto].
  - simpl. destruct (basis_step acc o); [apply IH | done].
  - cbn [basis_sums]. intros Hr. rewrite basis_step_add in *.
    destruct (counted o') as [y|] eqn:Ey; [|done]. destruct (counted o) as [x|] eqn:Ex.
    + cbn [mbind res_bind] in *. rewrite basis_step_add, ?Ex, ?Ey in *. cbn [mbind res_bind] in *.
      replace (sums_add (sums_add acc x) y) with (sums_add (sums_add acc y) x) in *; [done|].
      unfold sums_add. simpl. rewrite !pair_equal_spec. lia.
    + cbn [mbind res_bind] in *. by rewrite basis_step_add, ?Ex in Hr.
Qed.

Lemma basis_sums_nonneg l acc r :
  basis_sums acc l = Ok r ->
  acc.1.1.1 <= r.1.1.1 /\ acc.1.1.2 <= r.1.1.2 /\ acc.1.2 <= r.1.2 /\ acc.2 <= r.2.
Proof.
  revert acc. induction l as [|o l IH]; intros acc; simpl; [intros [= <-]; lia|].
  rewrite basis_step_add. destruct (counted o) as [d|] eqn:Ed; [|done]. simpl. intros H%IH.
  apply counted_nonneg in Ed. unfold sums_add in H. simpl in H. lia.
Qed.

Lemma aggregate_range l c :
  aggregateCostBasis l = Ok c ->
  0 <= remainingShares c <= depositedShares c /\ 0 <= costA c /\ 0 <= costB c.
Proof.
  unfold aggregateCostBasis. intros (r & H & E)%bind_Ok. apply basis_sums_nonneg in H. simpl in H.
  destruct r as [[[d w] a] b]. injection E as <-. simpl in *. destruct (Z.ltb_spec 0 (d - w)); lia.
Qed.

Lemma aggregate_perm l l' c : l ≡ₚ l' -> aggregateCostBasis l = Ok c -> aggregateCostBasis l' = Ok c.
Proof.
  intros Hp. unfold aggregateCostBasis. intros (r & H & E)%bind_Ok. by rewrite (basis_sums_perm l l' _ r Hp H).
Qed.

(** What a holder's operations come to: the shares deposited and withdrawn and what
    the deposits cost in A and in B, as settled or else as asked. A deposit counts
    once its shares are known, a withdrawal when it names shares. *)
Definition amount_known (text : option string) (n : Z) : Prop :=
  exists t, text = Some t /\ t <> ""%string /\ toStroops t = Ok n.
Definition amount_missing (text : option string) : Prop := text = None \/ text = Some ""%string.
Definition cost_of (settled : option string) (asked : string) (n : Z) : Prop :=
  match settled with Some t => toStroops t = Ok n | None => toStroops asked = Ok n end.

Inductive comes_to : list CostBasisOp -> Z -> Z -> Z -> Z -> Prop :=
  | nothing_yet : comes_to [] 0 0 0 0
  | a_deposit o ops s x y d w a b :
      cb_kind o = DEPOSIT -> amount_known (cb_sharesReceived o) s ->
      cost_of (cb_settledAmountA o) (cb_amountA o) x -> cost_of (cb_settledAmountB o) (cb_amountB o) y ->
      comes_to ops d w a b -> comes_to (o :: ops) (s + d) w (x + a) (y + b)
  | a_withdrawal o ops s d w a b :
      cb_kind o = WITHDRAW -> amount_known (cb_shares o) s -> comes_to ops d w a b -> comes_to (o :: ops) d (s + w) a b
  | not_counted o ops d w a b :
      match cb_kind o with DEPOSIT => amount_missing (cb_sharesReceived o) | WITHDRAW => amount_missing (cb_shares o) end ->
      comes_to ops d w a b -> comes_to (o :: ops) d w a b.

Lemma sums_come_to l acc r : basis_sums acc l = Ok r ->
  exists d w a b, comes_to l d w a b /\ r = sums_add acc (d, w, a, b).
Proof.
  revert acc. induction l as [|o l IH]; intros acc.
  { intros [= <-]. exists 0, 0, 0, 0. split; [constructor|]. destruct acc as [[[? ?] ?] ?]. unfold sums_add. simpl. by rewrite !Z.add_0_r. }
  simpl. rewrite basis_step_add. destruct (counted o) as [[[[s1 s2] s3] s4]|] eqn:Ed; [|done]. simpl.
  intros (d & w & a & b & Hl & ->)%IH. unfold sums_add. simpl.
  exists (s1 + d), (s2 + w), (s3 + a), (s4 + b). split; [|rewrite !pair_equal_spec; split_and!; lia].
  unfold counted, basis_step in Ed.
  destruct (cb_kind o) eqn:Ek.
  - destruct (cb_sharesReceived o) as [t|] eqn:Es; [destruct t as [|c t]|]; simpl in Ed; try (injection Ed as <- <- <- <-;
      rewrite !Z.add_0_l; apply not_counted; [rewrite Ek, Es; by (left + right)|done]).
    apply bind_Ok in Ed as (s & Hs & Ed). apply bind_Ok in Ed as (x & Hx & Ed). apply bind_Ok in Ed as (y & Hy & Ed).
    injection Ed as <- <- <- <-. rewrite !Z.add_0_l. apply a_deposit; try done; [by eexists|unfold cost_of..].
    + by destruct (cb_settledAmountA o).
    + by destruct (cb_settledAmountB o).
  - destruct (cb_shares o) as [t|] eqn:Es; [destruct t as [|c t]|]; simpl in Ed; try (injection Ed as <- <- <- <-;
      rewrite !Z.add_0_l; apply not_counted; [rewrite Ek, Es; by (left + right)|done]).
    apply bind_Ok in Ed as (s & Hs & Ed). injection Ed as <- <- <- <-. rewrite !Z.add_0_l. apply a_withdrawal; [done|by eexists|done].
Qed.

Lemma aggregate_comes_to l c : aggregateCostBasis l = Ok c ->
  exists w, comes_to l (depositedShares c) w (costA c) (costB c) /\ remainingShares c = Z.max 0 (depositedShares c - w).
Proof.
  unfold aggregateCostBasis. intros (r & (d & w & a & b & Hl & ->)%sums_come_to & E)%bind_Ok.
  unfold sums_add in E. simpl in E. injection E as <-. exists w. split; [done|]. cbn [remainingShares depositedShares]. match goal with |- context [0 <? ?x] => destruct (Z.ltb_spec 0 x) end; lia.
Qed.

(** ** One leg of the commission *)

(** [q] is [a] over [b], rounded down. *)
Definition floor_of (q a b : Z) : Prop := b * q <= a < b * (q + 1).

(** The commission in integers: the rate of what [covered] of all the shares redeem
    for, after slippage, above the part of [cost] that [covered] of [deposited]
    carry; each rounded down. *)
Definition commission (fee : Z) (i : WithdrawTerms) (covered reserve cost deposited : Z) : Prop :=
  exists share redeemed basis,
    floor_of share (covered * reserve) (w_totalShares i)
    /\ floor_of redeemed (share * (10000 - w_slippageBps i)) 10000
    /\ floor_of basis (cost * covered) deposited
    /\ floor_of fee (Z.max 0 (redeemed - basis) * w_feeBps i) 10000.

(** [fee] is at most [bps] of the gain of redeeming [covered] of [total] shares of
    [reserve], against the proportional part of [cost], counted up to a stroop;
    nothing on a loss; and never more than what is redeemed. *)
Definition on_gain_only (fee bps covered total reserve cost deposited : Z) : Prop :=
  0 <= fee
  /\ 10000 * fee * (total * deposited)
     <= bps * Z.max 0 (covered * reserve * deposited - cost * covered * total + total * deposited)
  /\ (covered * reserve * deposited <= cost * covered * total -> fee = 0)
  /\ fee * total <= covered * reserve.

Lemma quot_lower a b : 0 <= a -> 0 < b -> b * Z.quot a b <= a < b * (Z.quot a b + 1).
Proof.
  intros. rewrite Z.quot_div_nonneg by lia. pose proof (Z.div_mod a b ltac:(lia)).
  pose proof (Z.mod_pos_bound a b ltac:(lia)). lia.
Qed.

Lemma gain_leg i covered reserve cost deposited :
  0 < covered <= w_totalShares i -> 0 <= reserve -> 0 <= cost -> 0 < deposited ->
  0 <= w_slippageBps i <= 10000 -> 0 <= w_feeBps i <= 10000 ->
  exists r fee, redeemed i covered reserve = Ok r
  /\ gain_fee (w_feeBps i) r (Z.quot (cost * covered) deposited) = Ok fee
  /\ on_gain_only fee (w_feeBps i) covered (w_totalShares i) reserve cost deposited
  /\ commission fee i covered reserve cost deposited.
Proof.
  intros Hc Hr Hcost Hd Hs Hf. unfold redeemed, proportionalShare.
  rewrite (proj2 (Z.leb_gt (w_totalShares i) 0)) by lia.
  rewrite (proj2 (Z.ltb_ge covered 0)), (proj2 (Z.ltb_ge (w_totalShares i) covered)) by lia. simpl.
  unfold applySlippage, gain_fee, computeFee, int_in_range.
  rewrite (proj2 (Z.leb_le 0 (w_slippageBps i))), (proj2 (Z.leb_le (w_slippageBps i) 10000)) by lia.
  rewrite (proj2 (Z.leb_le 0 (w_feeBps i))), (proj2 (Z.leb_le (w_feeBps i) 10000)) by lia. simpl.
  set (share := Z.quot (covered * reserve) (w_totalShares i)).
  set (r := Z.quot (share * (10000 - w_slippageBps i)) 10000).
  set (basis := Z.quot (cost * covered) deposited).
  pose proof (quot_lower (covered * reserve) (w_totalShares i) ltac:(nia) ltac:(lia)) as Hshare. fold share in Hshare.
  assert (0 <= share) as Hs0 by (unfold share; apply Z.quot_pos; nia).
  pose proof (quot_bps_bounds share (10000 - w_slippageBps i) Hs0 ltac:(lia)) as Hred. fold r in Hred.
  pose proof (quot_lower (cost * covered) deposited ltac:(nia) ltac:(lia)) as Hbasis. fold basis in Hbasis.
  eexists r, _. split; [done|]. split; [done|].
  set (g := if basis <? r then r - basis else 0).
  assert (Hg : g = Z.max 0 (r - basis)) by (unfold g; destruct (Z.ltb_spec basis r); lia).
  assert (0 <= g /\ g <= r /\ (basis < r -> g = r - basis) /\ (r <= basis -> g = 0)) as (Hg0 & Hgr & Hg1 & Hg2).
  { assert (0 <= basis) by (unfold basis; apply Z.quot_pos; nia). unfold g. destruct (Z.ltb_spec basis r); lia. }
  pose proof (quot_bps_bounds g (w_feeBps i) Hg0 ltac:(lia)) as Hfee.
  pose proof (quot_bps_floor g (w_feeBps i) Hg0 ltac:(lia)) as Hrate.
  pose proof (quot_lower (g * w_feeBps i) 10000 ltac:(nia) ltac:(lia)) as Hexact.
  set (fee := Z.quot (g * w_feeBps i) 10000) in *.
  pose proof (quot_lower (share * (10000 - w_slippageBps i)) 10000 ltac:(nia) ltac:(lia)) as Hslip. fold r in Hslip.
  assert (commission fee i covered reserve cost deposited) as Hcom
    by (exists share, r, basis; unfold floor_of; rewrite <- Hg; split_and!; lia).
  split; [|exact Hcom]. clear Hexact Hslip Hcom. clearbody fee. clearbody g r share basis.
  set (T := w_totalShares i) in *. set (D := deposited) in *. set (K := cost * covered) in *.
  assert (covered * reserve * D <= K * T -> r <= basis) as Hloss.
  { intros H. assert (share * D <= K) by nia. assert (share < basis + 1) by nia. lia. }
  unfold on_gain_only. fold T D K. split; [lia|]. split; [|split].
  - destruct (Z.ltb_spec basis r) as [Hbr|Hbr].
    + assert ((r - basis) * (T * D) <= covered * reserve * D - K * T + T * D) as Hgain.
      { assert (r * T <= covered * reserve) as H1 by nia. assert (K - D <= D * basis) as H2 by lia.
        pose proof (Z.mul_le_mono_nonneg_r _ _ D ltac:(lia) H1).
        pose proof (Z.mul_le_mono_nonneg_r _ _ T ltac:(lia) H2). lia. }
      assert (0 < T * D) as Htd by nia. rewrite (Hg1 Hbr) in Hrate.
      pose proof (Z.mul_le_mono_nonneg_r _ _ (T * D) ltac:(lia) (proj1 Hrate)) as Hfees.
      transitivity (w_feeBps i * ((r - basis) * (T * D))); [lia|].
      apply Z.mul_le_mono_nonneg_l; [lia|]. lia.
    + rewrite (Hg2 Hbr) in *. assert (fee = 0) as -> by lia. nia.
  - intros H%Hloss. rewrite (Hg2 H) in *. lia.
  - nia.
Qed.

(** C40: the commission on a withdrawal is charged on the gain only. A holder's
    operations come to the shares deposited and withdrawn and what the deposits cost,
    in whatever order they come; the shares still held are what was deposited less
    what was withdrawn, and a withdrawal covers at most those. Withdrawing shares of
    the pool is then always priced: the rate of what the covered shares redeem for,
    after slippage, above their part of what the deposits cost, each rounded down;
    so nothing on a loss, nothing without a basis or a rate, and never more than what
    is redeemed; for each asset. *)
Theorem lp_commission_on_gain_only (ops ops' : list CostBasisOp) (c : CostBasis) (i : WithdrawTerms) :
  aggregateCostBasis ops = Ok c ->
  0 <= w_shares i <= w_totalShares i -> 0 <= w_reserveA i -> 0 <= w_reserveB i ->
  0 <= w_slippageBps i <= 10000 -> w_feeBps i <= 10000 ->
  (ops ≡ₚ ops' -> aggregateCostBasis ops' = Ok c)
  /\ exists deposited withdrawn a b feeA feeB,
     comes_to ops deposited withdrawn a b /\ computeWithdrawCommission i c = Ok (feeA, feeB)
     /\ let covered := Z.min (w_shares i) (Z.max 0 (deposited - withdrawn)) in
        (w_feeBps i <= 0 \/ covered = 0 -> feeA = 0 /\ feeB = 0)
        /\ (0 < w_feeBps i -> 0 < covered ->
            commission feeA i covered (w_reserveA i) a deposited /\ commission feeB i covered (w_reserveB i) b deposited
            /\ on_gain_only feeA (w_feeBps i) covered (w_totalShares i) (w_reserveA i) a deposited
            /\ on_gain_only feeB (w_feeBps i) covered (w_totalShares i) (w_reserveB i) b deposited).
Proof.
  intros Hc Hsh HA HB Hs Hf. destruct (aggregate_range _ _ Hc) as (Hrem & HcA & HcB).
  split; [intros Hp; by apply (aggregate_perm ops)|]. destruct (aggregate_comes_to _ _ Hc) as (w & Hsum & Er).
  unfold computeWithdrawCommission.
  assert ((if w_shares i <? remainingShares c then w_shares i else remainingShares c)
          = Z.min (w_shares i) (remainingShares c)) as -> by (destruct (Z.ltb_spec (w_shares i) (remainingShares c)); lia).
  exists (depositedShares c), w, (costA c), (costB c). rewrite <- Er.
  set (covered := Z.min _ _).
  destruct (Z.leb_spec (w_feeBps i) 0); [exists 0, 0; split_and!; try done; intros; exfalso; lia|].
  destruct (Z.leb_spec covered 0); [exists 0, 0; split_and!; try done; intros; exfalso; lia|].
  destruct (Z.leb_spec (depositedShares c) 0); [unfold covered in *; lia|]. simpl.
  destruct (gain_leg i covered (w_reserveA i) (costA c) (depositedShares c)) as (rA & fA & -> & EA & GA & CA);
    [unfold covered in *; lia..|].
  destruct (gain_leg i covered (w_reserveB i) (costB c) (depositedShares c)) as (rB & fB & -> & EB & GB & CB);
    [unfold covered in *; lia..|].
  simpl. rewrite EA, EB. simpl. exists fA, fB. split; [done|]. split; [done|]. split; [lia|]. intros _ _. exact (conj CA (conj CB (conj GA GB))).
Qed.

Definition sample_deposit : CostBasisOp :=
  mkCostBasisOp DEPOSIT None (Some "100"%string) (Some "50"%string) None "60" "200".
Definition sample_withdrawal : CostBasisOp := mkCostBasisOp WITHDRAW (Some "40"%string) None None None "0" "0".
Definition sample_withdraw : WithdrawTerms := mkWithdrawTerms 500000000 10000000000 8000000000 20000000000 100 500.

Lemma lp_commission_on_gain_only_witness :
  exists c, aggregateCostBasis [sample_deposit; sample_withdrawal] = Ok c
  /\ aggregateCostBasis [sample_withdrawal; sample_deposit] = Ok c
  /\ exists d w a b feeA feeB, comes_to [sample_deposit; sample_withdrawal] d w a b
     /\ computeWithdrawCommission sample_withdraw c = Ok (feeA, feeB) /\ 0 < feeA.
Proof.
  eexists. split; [vm_compute; reflexivity|].
  destruct (lp_commission_on_gain_only [sample_deposit; sample_withdrawal] [sample_withdrawal; sample_deposit]
    _ sample_withdraw ltac:(vm_compute; reflexivity) ltac:(simpl; lia) ltac:(simpl; lia) ltac:(simpl; lia)
    ltac:(simpl; lia) ltac:(simpl; lia)) as (Hp & d & w & a & b & fA & fB & Hsum & Hfee & _).
  split; [apply Hp, Permutation_swap|]. exists d, w, a, b, fA, fB. split; [exact Hsum|]. split; [exact Hfee|].
  revert Hfee. vm_compute. intros [= <- <-]. reflexivity.
Defined.
