(* ===== verification/Settlement.v ===== *)
(** Settlement of swaps and liquidity-pool operations on Stellar: the
    compare-and-swap machine of src/src/stellar/settlement.repository.ts, the relay
    of a signed envelope (signed-transaction-relay.service.ts), the look-up of a
    transaction (transaction-settlement.ts, horizon-errors.ts), a deposit's cost
    basis (src/src/liquidity-pools/lp-cost-basis.service.ts) and the observer that
    sweeps both tables (src/src/observer/). Horizon, the SDK's envelope parser and
    the ids of webhook events are given by their answers. *)

From stdpp Require Import base tactics list option gmap strings sorting.
From Stdlib Require Import ZArith Lia Ascii.
From S2P Require Import Prelude Text Units MerchantFee Intents Webhooks Programs LpMath.

Open Scope Z_scope.

(** ** Statuses (swap-transitions.ts, lp-operation-transitions.ts) *)

Inductive SwapStatus := S_PENDING | S_SUBMITTED | S_SUCCEEDED | S_FAILED | S_EXPIRED.
#[export] Instance SwapStatus_eq_dec : EqDecision SwapStatus.
Proof. solve_decision. Defined.

Definition SWAP_IN_FLIGHT_STATUSES : list SwapStatus := [S_PENDING; S_SUBMITTED].
Definition SWAP_CAN_SUCCEED_STATUSES : list SwapStatus := [S_PENDING; S_SUBMITTED; S_FAILED; S_EXPIRED].
Definition LP_IN_FLIGHT_STATUSES : list SwapStatus := [S_PENDING; S_SUBMITTED].
Definition LP_CAN_SUCCEED_STATUSES : list SwapStatus := [S_PENDING; S_SUBMITTED; S_FAILED; S_EXPIRED].

Definition LP_OPERATION_TRANSITIONS (s : SwapStatus) : list SwapStatus :=
  match s with
  | S_PENDING => [S_SUBMITTED; S_SUCCEEDED; S_FAILED; S_EXPIRED]
  | S_SUBMITTED => [S_SUCCEEDED; S_FAILED; S_EXPIRED]
  | S_FAILED => [S_SUBMITTED; S_SUCCEEDED]
  | S_SUCCEEDED => []
  | S_EXPIRED => [S_SUCCEEDED; S_FAILED]
  end.

Definition canTransitionLp (from to : SwapStatus) : bool :=
  bool_decide (to ∈ LP_OPERATION_TRANSITIONS from).

(** ** Rows: the columns the swap and liquidity_pool_operation tables share, and
    those of a liquidity operation *)

Record LpColumns := mkLpColumns {
  lp_kind : LiquidityOperationKind;
  lp_assetA : string;
  lp_assetAIssuer : option string;
  lp_assetB_ : string;
  lp_assetBIssuer : option string;
  lp_amountA : string;
  lp_amountB_ : string;
  sharesReceived : option string;
  settledAmountA : option string;
  settledAmountB : option string
}.

Record Operation := mkOperation {
  op_id : string;
  op_consumer : string;
  op_network : string;
  op_txHash : string;
  op_status : SwapStatus;
  settlementEpoch : Z;
  op_expiresAt : option Z;
  op_createdAt : Z;
  op_lp : option LpColumns
}.

Definition with_status (st : SwapStatus) (o : Operation) : Operation :=
  mkOperation (op_id o) (op_consumer o) (op_network o) (op_txHash o) st (settlementEpoch o)
    (op_expiresAt o) (op_createdAt o) (op_lp o).
Definition with_txHash (h : string) (o : Operation) : Operation :=
  mkOperation (op_id o) (op_consumer o) (op_network o) h (op_status o) (settlementEpoch o)
    (op_expiresAt o) (op_createdAt o) (op_lp o).
(** [{ status: 'SUBMITTED', settlementEpoch: { increment: 1 } }] *)
Definition resubmitted (o : Operation) : Operation :=
  mkOperation (op_id o) (op_consumer o) (op_network o) (op_txHash o) S_SUBMITTED (settlementEpoch o + 1)
    (op_expiresAt o) (op_createdAt o) (op_lp o).
Definition with_basis (shares a b : string) (o : Operation) : Operation :=
  mkOperation (op_id o) (op_consumer o) (op_network o) (op_txHash o) (op_status o) (settlementEpoch o)
    (op_expiresAt o) (op_createdAt o)
    ((fun c => mkLpColumns (lp_kind c) (lp_assetA c) (lp_assetAIssuer c) (lp_assetB_ c) (lp_assetBIssuer c)
                 (lp_amountA c) (lp_amountB_ c) (Some shares) (Some a) (Some b)) <$> op_lp o).

(** What a webhook carries of a row, as far as its emitter reads it. *)
Definition status_name (s : SwapStatus) : string :=
  match s with
  | S_PENDING => "PENDING" | S_SUBMITTED => "SUBMITTED" | S_SUCCEEDED => "SUCCEEDED"
  | S_FAILED => "FAILED" | S_EXPIRED => "EXPIRED"
  end.
Definition operation_json (o : Operation) : json :=
  JObject [("id", JString (op_id o)); ("network", JString (op_network o));
           ("status", JString (status_name (op_status o)));
           ("settlementEpoch", JNumber (NumInt (settlementEpoch o)));
           ("txHash", JString (op_txHash o))]%string.

(** ** Horizon *)

Record ResultCodes := mkResultCodes { rc_transaction : option string; rc_operations : option (list string) }.

(** A failed call: the response's status, and its result codes in the two places
    the SDK may put them. *)
Record HorizonError := mkHorizonError {
  err_status : option Z;
  err_data_codes : option ResultCodes;
  err_codes : option ResultCodes
}.

Definition horizonStatus (err : HorizonError) : option Z := err_status err.
Definition isHorizonNotFound (err : HorizonError) : bool := bool_decide (horizonStatus err = Some 404).

Definition extractResultCodes (err : HorizonError) : option (list string) :=
  match match err_data_codes err with Some rc => Some rc | None => err_codes err end with
  | None => None
  | Some rc =>
      let first := match rc_transaction rc with
                   | Some t => if truthy (rc_transaction rc) then [t] else []
                   | None => []
                   end in
      match first ++ default [] (rc_operations rc) with
      | [] => None
      | codes => Some codes
      end
  end.

(** An envelope the SDK parsed: its hash under the network's passphrase, how many
    signatures it carries, and [maxTime] in seconds, 0 when it has no upper bound
    or is a fee bump. *)
Record Envelope := mkEnvelope { env_hash : string; env_signatures : nat; env_maxTime : Z }.

Record Effect := mkEffect {
  eff_type : string;
  reserves_deposited : option (list (string * string));
  shares_received : option string
}.

Record HorizonNode := mkHorizonNode {
  transaction_successful : string -> string -> bool + HorizonError;
  effects_forTransaction : string -> string -> list Effect + HorizonError;
  submitTransaction : string -> Envelope -> string + HorizonError
}.

Inductive TransactionSettlement := T_succeeded | T_failed | T_absent | T_unknown.

Definition transactionSettlement (n : HorizonNode) (network txHash : string) : TransactionSettlement :=
  match transaction_successful n network txHash with
  | inl successful => if successful : bool then T_succeeded else T_failed
  | inr err => if isHorizonNotFound err then T_absent else T_unknown
  end.

(** ** The world *)

Inductive SettlementKind := Swaps | Liquidity.
#[export] Instance SettlementKind_eq_dec : EqDecision SettlementKind.
Proof. solve_decision. Defined.

(** The two tables, the webhooks module's, what Horizon answers at this moment,
    and every envelope broadcast so far, with its network. *)
Record Ledgers := mkLedgers {
  table : SettlementKind -> gmap string Operation;
  l_hooks : Hooks;
  horizon : HorizonNode;
  broadcasts : list (string * Envelope)
}.

Definition set_table (k : SettlementKind) (f : gmap string Operation -> gmap string Operation)
    (s : Ledgers) : Ledgers :=
  mkLedgers (fun k' => if bool_decide (k' = k) then f (table s k') else table s k')
    (l_hooks s) (horizon s) (broadcasts s).
Definition set_l_hooks (h : Hooks) (s : Ledgers) : Ledgers :=
  mkLedgers (table s) h (horizon s) (broadcasts s).
Definition log_broadcast (network : string) (tx : Envelope) (s : Ledgers) : Ledgers :=
  mkLedgers (table s) (l_hooks s) (horizon s) (broadcasts s ++ [(network, tx)]).

(** [updateMany({ where: { id, ... }, data })] *)
Definition update_ops (k : SettlementKind) (i : string) (guard : Operation -> bool)
    (data : Operation -> Operation) : svc Ledgers nat := fun s =>
  match table s k !! i with
  | Some o => if guard o then (set_table k (fun m => <[i := data o]> m) s, Ok 1%nat) else (s, Ok 0%nat)
  | None => (s, Ok 0%nat)
  end.

Definition findUniqueOrThrow (k : SettlementKind) (i : string) : prog Ledgers Operation :=
  o ← asking (fun s => table s k !! i); pure (res_of_option JsError o).

Definition emit_operation (user : string) (t : WebhookEventType) (o : Operation) (d : Draw)
    : prog Ledgers bool :=
  stmt (fun s => let '(h, r) := emit user t (operation_json o) d (l_hooks s) in (set_l_hooks h s, r)).

(** ** The machine (settlement.repository.ts) *)

Definition SETTLEMENT_MAX_RESUBMITS : Z := 3.

(** What the two services configure it with. *)
Definition canSucceed (k : SettlementKind) : list SwapStatus :=
  match k with Swaps => SWAP_CAN_SUCCEED_STATUSES | Liquidity => LP_CAN_SUCCEED_STATUSES end.
Definition inFlight (k : SettlementKind) : list SwapStatus :=
  match k with Swaps => SWAP_IN_FLIGHT_STATUSES | Liquidity => LP_IN_FLIGHT_STATUSES end.
Definition succeededEvent (k : SettlementKind) : WebhookEventType :=
  match k with Swaps => SWAP_SUCCEEDED | Liquidity => LIQUIDITY_SUCCEEDED end.
Definition failedEvent (k : SettlementKind) : WebhookEventType :=
  match k with Swaps => SWAP_FAILED | Liquidity => LIQUIDITY_FAILED end.
Definition submittedEvent (k : SettlementKind) : WebhookEventType :=
  match k with Swaps => SWAP_SUBMITTED | Liquidity => LIQUIDITY_SUBMITTED end.

Record SettlementOutcome := mkOutcome { applied : bool; outcome_row : Operation }.

Definition guardedUpdate (k : SettlementKind) (i : string) (from : list SwapStatus)
    (data : Operation -> Operation) : prog Ledgers SettlementOutcome :=
  count ← stmt (update_ops k i (fun o => bool_decide (op_status o ∈ from)) data);
  o ← findUniqueOrThrow k i;
  Ret (mkOutcome (0 <? count)%nat o).

Definition markSubmitted (k : SettlementKind) (i : string) : prog Ledgers SettlementOutcome :=
  resent ← stmt (update_ops k i
                   (fun o => bool_decide (op_status o = S_FAILED) && (settlementEpoch o <? SETTLEMENT_MAX_RESUBMITS))
                   resubmitted);
  if (0 <? resent)%nat then o ← findUniqueOrThrow k i; Ret (mkOutcome true o)
  else guardedUpdate k i [S_PENDING] (with_status S_SUBMITTED).

(** [{ status: 'SUCCEEDED', ...(txHash ? { txHash } : {}) }] *)
Definition succeeded_data (txHash : option string) (o : Operation) : Operation :=
  match txHash with
  | Some h => if truthy txHash then with_txHash h (with_status S_SUCCEEDED o) else with_status S_SUCCEEDED o
  | None => with_status S_SUCCEEDED o
  end.

Definition finalizeSucceeded (k : SettlementKind) (i user : string) (txHash : option string) (d : Draw)
    : prog Ledgers SettlementOutcome :=
  outcome ← guardedUpdate k i (canSucceed k) (succeeded_data txHash);
  if applied outcome then
    _ ← emit_operation user (succeededEvent k) (outcome_row outcome) d; Ret outcome
  else Ret outcome.

Definition finalizeSucceededQuiet (k : SettlementKind) (i : string) (txHash : option string)
    : prog Ledgers SettlementOutcome := guardedUpdate k i (canSucceed k) (succeeded_data txHash).

Definition finalizeFailed (k : SettlementKind) (i user : string) (d : Draw) : prog Ledgers SettlementOutcome :=
  outcome ← guardedUpdate k i (inFlight k) (with_status S_FAILED);
  if applied outcome then
    _ ← emit_operation user (failedEvent k) (outcome_row outcome) d; Ret outcome
  else Ret outcome.

Definition finalizeFailedQuiet (k : SettlementKind) (i : string) : prog Ledgers SettlementOutcome :=
  guardedUpdate k i (inFlight k) (with_status S_FAILED).

Definition finalizeExpired (k : SettlementKind) (i : string) : prog Ledgers SettlementOutcome :=
  guardedUpdate k i (inFlight k) (with_status S_EXPIRED).

(** ** The cost basis of a deposit (lp-cost-basis.service.ts) *)

(** What the effect of a settled deposit says of its shares and amounts. *)
Definition asset_key (code : string) (issuer : option string) : string :=
  if bool_decide (code = "native"%string) then "native"
  else (code +:+ ":" +:+ default "null" issuer)%string.

Definition deposited_effect (c : LpColumns) (effects : list Effect) : option (string * string * string) :=
  eff ← List.find (fun e => bool_decide (eff_type e = "liquidity_pool_deposited"%string)) effects;
  match shares_received eff with
  | Some shares =>
      if truthy (shares_received eff) then
        let reserves := default [] (reserves_deposited eff) in
        let amount_of key fallback :=
          default fallback (snd <$> List.find (fun r => bool_decide (fst r = key)) reserves) in
        Some (shares,
              amount_of (asset_key (lp_assetA c) (lp_assetAIssuer c)) (lp_amountA c),
              amount_of (asset_key (lp_assetB_ c) (lp_assetBIssuer c)) (lp_amountB_ c))
      else None
  | None => None
  end.

Definition basis_missing (o : Operation) : bool :=
  match op_lp o with
  | Some c => bool_decide (lp_kind c = DEPOSIT) && bool_decide (sharesReceived c = None)
  | None => false
  end.

Definition captureDepositBasis (o : Operation) : prog Ledgers unit :=
  match op_lp o with
  | Some c =>
      if negb (basis_missing o) then Ret tt
      else if negb (bool_decide (op_status o = S_SUCCEEDED)) then Ret tt
      else
        catching
          (page ← asking (fun s => effects_forTransaction (horizon s) (op_network o) (op_txHash o));
           match page with
           | inr _ => Raise JsError
           | inl effects =>
               match deposited_effect c effects with
               | None => Ret tt
               | Some (shares, a, b) =>
                   discard (stmt (update_ops Liquidity (op_id o)
                     (fun o => basis_missing o && bool_decide (op_status o = S_SUCCEEDED))
                     (with_basis shares a b)))
               end
           end)
          (fun _ => Ret tt)
  | None => Ret tt
  end.

(** [withDepositBasis] of the liquidity-pools service *)
Definition withDepositBasis (o : Operation) : prog Ledgers Operation :=
  if negb (bool_decide (op_status o = S_SUCCEEDED)) then Ret o
  else _ ← captureDepositBasis o; findUniqueOrThrow Liquidity (op_id o).

(** The hook after a settlement: only liquidity operations have one. *)
Definition afterSucceeded (k : SettlementKind) (o : Operation) : prog Ledgers Operation :=
  match k with Swaps => Ret o | Liquidity => withDepositBasis o end.

(** [finalizeSucceeded] of the swaps and of the liquidity-pools service, which is
    what the observer calls. *)
Definition service_finalizeSucceeded (k : SettlementKind) (i user : string) (d : Draw)
    : prog Ledgers SettlementOutcome :=
  outcome ← finalizeSucceeded k i user None d;
  o ← afterSucceeded k (outcome_row outcome);
  Ret (mkOutcome (applied outcome) o).

(** ** The relay (signed-transaction-relay.service.ts) *)

Definition RELAYABLE_STATUSES : list SwapStatus := [S_PENDING; S_SUBMITTED; S_FAILED].
Definition NOT_APPLIED_REJECTION_CODES : list string :=
  ["tx_bad_auth"; "tx_bad_auth_extra"; "tx_insufficient_balance"]%string.

Definition resubmitsExhausted (o : Operation) : bool :=
  bool_decide (op_status o = S_FAILED) && (SETTLEMENT_MAX_RESUBMITS <=? settlementEpoch o).

Definition hasLapsed (tx : Envelope) (o : Operation) (now : Z) : bool :=
  ((0 <? env_maxTime tx) && (env_maxTime tx * 1000 <? now))
  || match op_expiresAt o with Some e => e <? now | None => false end.

Inductive RelayOutcome :=
  | Relayed (txHash : string) (view : Operation)
  | NotRelayed (status : SwapStatus) (resultCodes : list string) (view : Operation).

(** The draws of the two events one submission may emit. *)
Record RelayDraws := mkRelayDraws { d_submitted : Draw; d_terminal : Draw }.

Section relay.
(** [TransactionBuilder.fromXDR] under the network's passphrase. *)
Context (fromXDR : string -> string -> option Envelope).

Definition verifiedEnvelope (o : Operation) (signedXdr : string) : res Envelope :=
  match fromXDR (op_network o) signedXdr with
  | None => Throw (badRequest ValidationFailed)
  | Some tx =>
      if negb (bool_decide (env_hash tx = op_txHash o)) then Throw (badRequest ValidationFailed)
      else if (env_signatures tx =? 0)%nat then Throw (badRequest ValidationFailed)
      else Ok tx
  end.

Definition settleSucceeded (k : SettlementKind) (i user txHash : string) (d : Draw) : prog Ledgers RelayOutcome :=
  succeeded ← finalizeSucceeded k i user (Some txHash) d;
  settled ← afterSucceeded k (outcome_row succeeded);
  Ret (Relayed (op_txHash settled) settled).

Definition settleRejected (k : SettlementKind) (o : Operation) (user : string) (codes : list string) (d : Draw)
    : prog Ledgers RelayOutcome :=
  onChain ← asking (fun s => transactionSettlement (horizon s) (op_network o) (op_txHash o));
  match onChain with
  | T_succeeded => settleSucceeded k (op_id o) user (op_txHash o) d
  | _ =>
      let neverApplied := existsb (fun code => bool_decide (code ∈ NOT_APPLIED_REJECTION_CODES)) codes in
      if match onChain with T_unknown => true | T_absent => negb neverApplied | _ => false end
      then Ret (NotRelayed S_SUBMITTED codes o)
      else
        failed ← finalizeFailed k (op_id o) user d;
        if bool_decide (op_status (outcome_row failed) = S_SUCCEEDED)
        then Ret (Relayed (op_txHash (outcome_row failed)) (outcome_row failed))
        else Ret (NotRelayed S_FAILED codes (outcome_row failed))
  end.

(** One call to the network: it is made, and answers. *)
Definition broadcast (network : string) (tx : Envelope) : prog Ledgers (string + HorizonError) :=
  Stmt (log_broadcast network tx) (fun s => Ret (submitTransaction (horizon s) network tx)).

(** [now] is the clock when the envelope's bounds are read. *)
Definition relay_submit (k : SettlementKind) (o : Operation) (user signedXdr : string) (now : Z) (d : RelayDraws)
    : prog Ledgers RelayOutcome :=
  tx ← pure (verifiedEnvelope o signedXdr);
  if bool_decide (op_status o = S_SUCCEEDED) then Ret (Relayed (op_txHash o) o)
  else if negb (bool_decide (op_status o ∈ RELAYABLE_STATUSES)) then Raise (badRequest InvalidStateTransition)
  else if resubmitsExhausted o then Raise (badRequest InvalidStateTransition)
  else if hasLapsed tx o now then Raise (badRequest InvalidStateTransition)
  else
    submitted ← markSubmitted k (op_id o);
    let row := outcome_row submitted in
    if bool_decide (op_status row = S_SUCCEEDED) then Ret (Relayed (op_txHash row) row)
    else if resubmitsExhausted row then Raise (badRequest InvalidStateTransition)
    else if negb (bool_decide (op_status row = S_SUBMITTED)) then Raise (badRequest InvalidStateTransition)
    else
      _ ← (if applied submitted then discard (emit_operation user (submittedEvent k) row (d_submitted d))
           else Ret tt);
      res ← broadcast (op_network o) tx;
      match res with
      | inl hash =>
          catching (settleSucceeded k (op_id o) user hash (d_terminal d))
            (fun _ => Raise (unavailable ProviderUnavailable))
      | inr err =>
          match extractResultCodes err with
          | Some codes => settleRejected k row user codes (d_terminal d)
          | None => Raise (unavailable ProviderUnavailable)
          end
      end.

(** [findOwned] of the two services; [admitted] is what the shared public key's
    record-token check answers (always true for liquidity operations). *)
Definition findOwnedOp (k : SettlementKind) (user i : string) (s : Ledgers) : option Operation :=
  match table s k !! i with
  | Some o => if bool_decide (op_consumer o = user) then Some o else None
  | None => None
  end.

Definition submit (k : SettlementKind) (user i signedXdr : string) (admitted : bool) (now : Z) (d : RelayDraws)
    : prog Ledgers RelayOutcome :=
  if negb admitted then Raise notFound
  else
    o ← asking (findOwnedOp k user i);
    match o with
    | None => Raise notFound
    | Some o => relay_submit k o user signedXdr now d
    end.
End relay.

(** ** The observer (settlement-observer.service.ts, settlement-resources.ts) *)

Definition SETTLEMENT_MAX_ROWS_PER_CONSUMER : nat := 10.
Definition SETTLEMENT_FAILED_LOOKBACK_MS : Z := 24 * 60 * 60 * 1000.
Definition SETTLEMENT_FAILED_RECHECK_MAX_ROWS : nat := 10.

Definition op_rows (k : SettlementKind) (s : Ledgers) : list Operation := (map_to_list (table s k)).*2.

(** [ORDER BY "createdAt", "id"], and [ORDER BY "createdAt" DESC, "id"] *)
Definition op_older (a b : Operation) : bool :=
  (op_createdAt a <? op_createdAt b)
  || ((op_createdAt a =? op_createdAt b) && id_lt (op_id a) (op_id b)).
Definition op_newer (a b : Operation) : bool :=
  (op_createdAt b <? op_createdAt a)
  || ((op_createdAt a =? op_createdAt b) && id_lt (op_id a) (op_id b)).

(** [ROW_NUMBER() OVER (PARTITION BY "consumerId" ORDER BY ...)] *)
Definition deal_rank (before : Operation -> Operation -> bool) (l : list Operation) (o : Operation) : nat :=
  S (length (List.filter (fun x => bool_decide (op_consumer x = op_consumer o) && before x o) l)).

Definition deal_le (before : Operation -> Operation -> bool) (l : list Operation) (a b : Operation) : Prop :=
  (deal_rank before l a < deal_rank before l b)%nat
  \/ deal_rank before l a = deal_rank before l b /\ before b a = false.
#[export] Instance deal_le_dec before l : RelDecision (deal_le before l).
Proof. intros a b. unfold deal_le. apply _. Defined.

Definition dealt (before : Operation -> Operation -> bool) (limit : nat) (l : list Operation) : list Operation :=
  take limit
    (merge_sort (deal_le before l)
       (List.filter (fun o => (deal_rank before l o <=? SETTLEMENT_MAX_ROWS_PER_CONSUMER)%nat) l)).

Definition created_asc (a b : Operation) : Prop := op_createdAt a <= op_createdAt b.
Definition created_desc (a b : Operation) : Prop := op_createdAt b <= op_createdAt a.
#[export] Instance created_asc_dec : RelDecision created_asc.
Proof. intros a b. unfold created_asc. apply _. Defined.
#[export] Instance created_desc_dec : RelDecision created_desc.
Proof. intros a b. unfold created_desc. apply _. Defined.

(** Two reads: the ranked ids, then the rows still in the statuses asked for. *)
Definition select_dealt (k : SettlementKind) (before : Operation -> Operation -> bool) (limit : nat)
    (eligible still : Operation -> bool) (order : list Operation -> list Operation)
    : prog Ledgers (list Operation) :=
  ids ← asking (fun s => op_id <$> dealt before limit (List.filter eligible (op_rows k s)));
  match ids with
  | [] => Ret []
  | _ => asking (fun s => order (List.filter (fun o => bool_decide (op_id o ∈ ids) && still o) (op_rows k s)))
  end.

Definition in_flight (o : Operation) : bool := bool_decide (op_status o ∈ [S_PENDING; S_SUBMITTED]).

Definition selectInFlight (k : SettlementKind) (batchSize : nat) : prog Ledgers (list Operation) :=
  select_dealt k op_older batchSize in_flight in_flight (merge_sort created_asc).

Definition selectRecentlyFailed (k : SettlementKind) (limit : nat) (since : Z) : prog Ledgers (list Operation) :=
  select_dealt k op_newer limit
    (fun o => bool_decide (op_status o = S_FAILED) && (since <=? op_createdAt o))
    (fun o => bool_decide (op_status o = S_FAILED)) (merge_sort created_desc).

(** The map keyed by network and hash, in insertion order. *)
Definition hash_key (o : Operation) : string := (op_network o +:+ ":" +:+ op_txHash o)%string.
Fixpoint add_to_group (o : Operation) (groups : list (string * list Operation)) : list (string * list Operation) :=
  match groups with
  | [] => [(hash_key o, [o])]
  | (key, rows) :: rest =>
      if bool_decide (key = hash_key o) then (key, rows ++ [o]) :: rest
      else (key, rows) :: add_to_group o rest
  end.
Definition byHash (rows : list Operation) : list (string * list Operation) :=
  fold_left (fun groups o => add_to_group o groups) rows [].

Definition reconcile_group (k : SettlementKind) (now : Z) (d : string -> Draw) (group : list Operation)
    : prog Ledgers unit :=
  match group with
  | [] => Ret tt
  | primary :: others =>
      settlement ← asking (fun s => transactionSettlement (horizon s) (op_network primary) (op_txHash primary));
      match settlement with
      | T_succeeded =>
          _ ← discard (service_finalizeSucceeded k (op_id primary) (op_consumer primary) (d (op_id primary)));
          for_each others (fun o => discard (finalizeSucceededQuiet k (op_id o) None))
      | T_failed =>
          _ ← discard (finalizeFailed k (op_id primary) (op_consumer primary) (d (op_id primary)));
          for_each others (fun o => discard (finalizeFailedQuiet k (op_id o)))
      | T_absent =>
          for_each group (fun o =>
            match op_expiresAt o with
            | Some e => if e <? now then discard (finalizeExpired k (op_id o)) else Ret tt
            | None => Ret tt
            end)
      | T_unknown => Ret tt
      end
  end.

Definition reconcile_ops (k : SettlementKind) (batchSize : nat) (now : Z) (d : string -> Draw) : prog Ledgers unit :=
  rows ← selectInFlight k batchSize;
  for_each (byHash rows) (fun group => reconcile_group k now d (snd group)).

Definition heal (k : SettlementKind) (now : Z) (d : string -> Draw) : prog Ledgers unit :=
  rows ← selectRecentlyFailed k SETTLEMENT_FAILED_RECHECK_MAX_ROWS (now - SETTLEMENT_FAILED_LOOKBACK_MS);
  for_each rows (fun o =>
    settlement ← asking (fun s => transactionSettlement (horizon s) (op_network o) (op_txHash o));
    match settlement with
    | T_succeeded => discard (service_finalizeSucceeded k (op_id o) (op_consumer o) (d (op_id o)))
    | _ => Ret tt
    end).

Definition backfillDepositBasis (batchSize : nat) : prog Ledgers unit :=
  missing ← asking (fun s => take batchSize (merge_sort created_asc
              (List.filter (fun o => bool_decide (op_status o = S_SUCCEEDED) && basis_missing o) (op_rows Liquidity s))));
  for_each missing captureDepositBasis.

(** One sweep: [now] is read at the start of each pass. *)
Definition settlement_run (batchSize : nat) (now : Z) (d : string -> Draw) : prog Ledgers unit :=
  _ ← for_each [Swaps; Liquidity] (fun k => reconcile_ops k batchSize now d);
  _ ← for_each [Swaps; Liquidity] (fun k => heal k now d);
  backfillDepositBasis batchSize.
