(* ===== verification/SettlementSafety.v ===== *)
(** Swaps and liquidity operations under concurrency: an abstract machine of one
    operation whose every move needs evidence Horizon gave, and the proof that
    relays, sweeps and their interleavings follow it. *)

From stdpp Require Import base tactics list option gmap strings sorting.
From Stdlib Require Import ZArith Lia Ascii.
From S2P Require Import Prelude Text Units MerchantFee Intents Webhooks Programs LpMath Settlement.

Open Scope Z_scope.

(** ** The machine of one operation *)

Section machine.
(** Horizon's answers at the moments the service has seen. *)
Context (moments : HorizonNode -> Prop).

(** Horizon showed the transaction as successful, or answered its broadcast. *)
Definition landed (network h : string) : Prop :=
  exists n, moments n /\
    (transaction_successful n network h = inl true
     \/ exists tx, env_hash tx = h /\ submitTransaction n network tx = inl h).
(** Horizon showed the transaction as failed. *)
Definition reverted (network h : string) : Prop :=
  exists n, moments n /\ transaction_successful n network h = inl false.
(** Horizon answered 404. *)
Definition missing (network h : string) : Prop :=
  exists n err, moments n /\ transaction_successful n network h = inr err /\ isHorizonNotFound err = true.
(** A broadcast was refused with a code that means it was never applied. *)
Definition refused (network h : string) : Prop :=
  exists n tx err codes, moments n /\ env_hash tx = h /\ submitTransaction n network tx = inr err
    /\ extractResultCodes err = Some codes
    /\ existsb (fun code => bool_decide (code ∈ NOT_APPLIED_REJECTION_CODES)) codes = true.
Definition unsettled (network h : string) : Prop :=
  reverted network h \/ (missing network h /\ refused network h).
(** The effects of the transaction credit these shares and amounts. *)
Definition credited (network h : string) (c : LpColumns) (shares a b : string) : Prop :=
  exists n effects, moments n /\ effects_forTransaction n network h = inl effects
    /\ deposited_effect c effects = Some (shares, a, b).

Inductive op_step : Operation -> Operation -> Prop :=
  | op_submit o : op_status o = S_PENDING -> op_step o (with_status S_SUBMITTED o)
  | op_resubmit o : op_status o = S_FAILED -> settlementEpoch o < SETTLEMENT_MAX_RESUBMITS ->
      op_step o (resubmitted o)
  | op_succeed o : op_status o <> S_SUCCEEDED -> landed (op_network o) (op_txHash o) ->
      op_step o (with_status S_SUCCEEDED o)
  | op_fail o : in_flight o = true -> unsettled (op_network o) (op_txHash o) ->
      op_step o (with_status S_FAILED o)
  | op_expire o : in_flight o = true -> is_Some (op_expiresAt o) -> missing (op_network o) (op_txHash o) ->
      op_step o (with_status S_EXPIRED o)
  | op_basis o c shares a b : op_status o = S_SUCCEEDED -> op_lp o = Some c -> basis_missing o = true ->
      credited (op_network o) (op_txHash o) c shares a b -> op_step o (with_basis shares a b o).

#[local] Abbreviation follows := (star op_step).

(** A row as its create wrote it. *)
Definition fresh (o : Operation) : Prop :=
  op_status o = S_PENDING /\ settlementEpoch o = 0
  /\ match op_lp o with
     | Some c => sharesReceived c = None /\ settledAmountA c = None /\ settledAmountB c = None
     | None => True
     end.

Definition same_terms (o o' : Operation) : Prop :=
  op_id o' = op_id o /\ op_consumer o' = op_consumer o /\ op_network o' = op_network o
  /\ op_txHash o' = op_txHash o /\ op_expiresAt o' = op_expiresAt o /\ op_createdAt o' = op_createdAt o.

Lemma follows_terms o o' : follows o o' -> same_terms o o'.
Proof.
  induction 1 as [o|a b c _ (? & ? & ? & ? & ? & ?) Hs]; [done|].
  unfold same_terms. destruct Hs; simpl; by split_and!.
Qed.

Lemma follows_epoch o o' : follows o o' -> settlementEpoch o <= settlementEpoch o'.
Proof. induction 1 as [|a b c _ IH Hs]; [lia|]. destruct Hs; simpl; lia. Qed.

(** SUCCEEDED is final, with the epoch it was reached in. *)
Lemma follows_settled o o' :
  follows o o' -> op_status o = S_SUCCEEDED ->
  op_status o' = S_SUCCEEDED /\ settlementEpoch o' = settlementEpoch o.
Proof.
  intros H Hs. induction H as [|a b c _ IH Hst]; [done|]. destruct (IH Hs) as [E1 E2].
  destruct Hst; unfold in_flight in *; simpl in *; try congruence; try done;
    rewrite E1 in *; by rewrite bool_decide_false in * by set_solver.
Qed.

Lemma with_basis_found shares a b o : basis_missing (with_basis shares a b o) = false.
Proof. unfold basis_missing. simpl. destruct (op_lp o); [|done]. simpl. by rewrite andb_false_r. Qed.

(** Until its basis is captured an operation's own columns stay as they were;
    once captured they stay so. *)
Lemma follows_basis o o' :
  follows o o' ->
  (basis_missing o' = true -> op_lp o' = op_lp o)
  /\ (basis_missing o = false -> op_lp o' = op_lp o).
Proof.
  induction 1 as [o|a b c _ [IH1 IH2] Hs]; [done|].
  destruct Hs; simpl in *; try (split; [exact IH1 | exact IH2]).
  split; [by rewrite with_basis_found|]. intros Ha. specialize (IH2 Ha). exfalso.
  unfold basis_missing in *. rewrite IH2 in *. congruence.
Qed.

Lemma follows_path o o' :
  follows o o' -> star (fun s s' => canTransitionLp s s' = true) (op_status o) (op_status o').
Proof.
  induction 1 as [o|a b c _ IH Hs]; [apply star_refl|].
  destruct Hs as [b E|b E|b E|b E|b E|b]; unfold in_flight in *; simpl; [ | | | | |exact IH];
    (eapply star_snoc; [exact IH|]); destruct (op_status b); try done; by vm_compute.
Qed.

(** What the columns of an operation that follows the machine say. *)
Record op_sound (o : Operation) : Prop := {
  sound_epoch : 0 <= settlementEpoch o <= SETTLEMENT_MAX_RESUBMITS;
  sound_succeeded : op_status o = S_SUCCEEDED -> landed (op_network o) (op_txHash o);
  sound_failed : op_status o = S_FAILED -> unsettled (op_network o) (op_txHash o);
  sound_expired : op_status o = S_EXPIRED ->
    is_Some (op_expiresAt o) /\ missing (op_network o) (op_txHash o);
  sound_retried : 0 < settlementEpoch o -> unsettled (op_network o) (op_txHash o);
  sound_basis : forall c shares, op_lp o = Some c -> sharesReceived c = Some shares ->
    op_status o = S_SUCCEEDED /\ exists c0 a b, sharesReceived c0 = None
      /\ settledAmountA c = Some a /\ settledAmountB c = Some b
      /\ lp_amountA c0 = lp_amountA c /\ lp_amountB_ c0 = lp_amountB_ c
      /\ credited (op_network o) (op_txHash o) c0 shares a b
}.

Lemma fresh_sound o : fresh o -> op_sound o.
Proof.
  intros (E & Ee & Hb). split; rewrite ?E, ?Ee; try done; try lia.
  intros c shares Ec Es. rewrite Ec in Hb. destruct Hb as [Hb _]. congruence.
Qed.

Lemma step_sound o o' : op_sound o -> op_step o o' -> op_sound o'.
Proof.
  intros [S1 S2 S3 S4 S5 S6] Hs.
  destruct Hs as [o E|o E He|o E Hl|o E Hu|o E Hx Hm|o c shares a b E Hc Hb Hcr];
    split; simpl; try done; auto; unfold SETTLEMENT_MAX_RESUBMITS in *;
    try (intros c' s' Ec Es; destruct (S6 c' s' Ec Es) as [Est Hx']; first [congruence | split; [done|exact Hx'] |
      unfold in_flight in *; rewrite Est in *; by rewrite bool_decide_false in * by set_solver]).
  - lia.
  - intros c' s' Ec Es. rewrite Hc in Ec. simpl in Ec. injection Ec as <-. simpl in *. injection Es as <-.
    split; [done|]. exists c, a, b. split_and!; try done.
    unfold basis_missing in Hb. rewrite Hc in Hb. apply andb_true_iff in Hb as [_ Hb].
    by apply bool_decide_eq_true in Hb.
Qed.

Lemma follows_sound o o' : fresh o -> follows o o' -> op_sound o'.
Proof. intros Hf. apply star_invariant; [apply step_sound | by apply fresh_sound]. Qed.
End machine.

(** ** The tables *)

Section safety.
Context (moments : HorizonNode -> Prop).
#[local] Abbreviation op_step := (op_step moments).
#[local] Abbreviation follows := (star (op_step)).

(** What a claimed event says of the tables. *)
Definition settled_at (s : Ledgers) (k : SettlementKind) (i : string) (e : Z) : Prop :=
  exists o, table s k !! i = Some o /\ op_status o = S_SUCCEEDED /\ settlementEpoch o = e.
Definition failed_at (s : Ledgers) (k : SettlementKind) (i : string) (e : Z) : Prop :=
  exists o, table s k !! i = Some o /\ 0 <= e <= settlementEpoch o
  /\ unsettled moments (op_network o) (op_txHash o).
Definition warranted (s : Ledgers) (t : WebhookEventType) (i : string) (e : Z) : Prop :=
  forall k, (t = succeededEvent k -> settled_at s k i e) /\ (t = failedEvent k -> failed_at s k i e).

Definition ours (s : Ledgers) (network : string) (tx : Envelope) : Prop :=
  exists k i o, table s k !! i = Some o /\ op_network o = network
  /\ env_hash tx = op_txHash o /\ env_signatures tx <> 0%nat.

Record ledgers_ok (s : Ledgers) : Prop := {
  ok_rows : forall k i o, table s k !! i = Some o ->
    op_id o = i /\ no_colon (op_network o) = true /\ exists o0, fresh o0 /\ follows o0 o;
  ok_claims : forall t i e, terminalEventDedupKey t i e ∈ emittedEvents (l_hooks s) -> warranted s t i e;
  ok_broadcasts : forall network tx, (network, tx) ∈ broadcasts s -> ours s network tx;
  ok_moment : moments (horizon s)
}.

(** Every operation is still there, further along the machine. *)
Definition onward (s s' : Ledgers) : Prop :=
  forall k i o, table s k !! i = Some o -> exists o', table s' k !! i = Some o' /\ follows o o'.

#[export] Instance onward_preorder : PreOrder onward.
Proof.
  split; [intros s k i o H; exists o; split; [done | apply star_refl]|].
  intros a b c Hab Hbc k i o H. destruct (Hab k i o H) as (o1 & H1 & F1).
  destruct (Hbc k i o1 H1) as (o2 & H2 & F2). exists o2. split; [done|]. by eapply star_trans.
Qed.

#[local] Abbreviation ok := (safe ledgers_ok onward).
#[local] Abbreviation wpl := (wp ledgers_ok onward).

(** *** What later states keep *)

Lemma settled_onward s s' k i e : onward s s' -> settled_at s k i e -> settled_at s' k i e.
Proof.
  intros Hs (o & H & E & Ee). destruct (Hs k i o H) as (o' & H' & F).
  destruct (follows_settled moments o o' F E) as [E' Ee']. exists o'. split_and!; [done | done | congruence].
Qed.

Lemma failed_onward s s' k i e : onward s s' -> failed_at s k i e -> failed_at s' k i e.
Proof.
  intros Hs (o & H & E & U). destruct (Hs k i o H) as (o' & H' & F).
  destruct (follows_terms moments o o' F) as (_ & _ & En & Eh & _).
  pose proof (follows_epoch moments o o' F). exists o'. rewrite En, Eh. split_and!; [done | lia | lia | done].
Qed.

Lemma warranted_onward s s' t i e : onward s s' -> warranted s t i e -> warranted s' t i e.
Proof.
  intros Hs W k. destruct (W k) as [W1 W2].
  split; intros E; [eapply settled_onward | eapply failed_onward]; eauto.
Qed.

Lemma ours_onward s s' network tx : onward s s' -> ours s network tx -> ours s' network tx.
Proof.
  intros Hs (k & i & o & H & En & Eh & Es). destruct (Hs k i o H) as (o' & H' & F).
  destruct (follows_terms moments o o' F) as (_ & _ & En' & Eh' & _).
  exists k, i, o'. split_and!; [done | congruence | congruence | done].
Qed.

(** A step that moves no row backwards, claims what is warranted and broadcasts
    what is ours keeps the invariant. *)
Lemma ledgers_step s s' :
  ledgers_ok s -> onward s s' ->
  (forall k i o, table s' k !! i = Some o -> table s k !! i = None ->
     op_id o = i /\ no_colon (op_network o) = true /\ fresh o) ->
  (forall t i e, terminalEventDedupKey t i e ∈ emittedEvents (l_hooks s') ->
     terminalEventDedupKey t i e ∈ emittedEvents (l_hooks s) \/ warranted s' t i e) ->
  (forall network tx, (network, tx) ∈ broadcasts s' ->
     (network, tx) ∈ broadcasts s \/ ours s' network tx) ->
  moments (horizon s') ->
  ledgers_ok s' /\ onward s s'.
Proof.
  intros [O1 O2 O3 O4] Hs Hnew Hclaims Hbc Hm. split; [|done]. split; [| | |done].
  - intros k i o H. destruct (table s k !! i) as [o1|] eqn:E1.
    + destruct (Hs k i o1 E1) as (o' & H' & F). simplify_eq.
      destruct (O1 k i o1 E1) as (Ei & En & o0 & F0 & F1).
      destruct (follows_terms moments o1 o F) as (Ei' & _ & En' & _).
      split_and!; [congruence | congruence|]. exists o0. split; [done|]. by eapply star_trans.
    + destruct (Hnew k i o H E1) as (? & ? & ?). split_and!; [done..|]. exists o. split; [done | apply star_refl].
  - intros t i e H. destruct (Hclaims t i e H) as [H'|]; [|done]. eapply warranted_onward; eauto.
  - intros network tx H. destruct (Hbc network tx H) as [H'|]; [|done]. eapply ours_onward; eauto.
Qed.

Lemma lookup_table k k' f s :
  table (set_table k f s) k' = if bool_decide (k' = k) then f (table s k') else table s k'.
Proof. done. Qed.

Lemma onward_insert s k i o o' :
  table s k !! i = Some o -> follows o o' -> onward s (set_table k (fun m => <[i := o']> m) s).
Proof.
  intros H F k' j x Hx. rewrite lookup_table. case_bool_decide as Ek; [subst k'|].
  - destruct (decide (i = j)) as [<-|Hne].
    + rewrite lookup_insert_eq. simplify_eq. eauto.
    + rewrite lookup_insert_ne by done. exists x. split; [done | apply star_refl].
  - exists x. split; [done | apply star_refl].
Qed.

Lemma update_ops_ok k i guard data s :
  ledgers_ok s ->
  (forall o, table s k !! i = Some o -> guard o = true -> op_step o (data o)) ->
  ledgers_ok (fst (update_ops k i guard data s)) /\ onward s (fst (update_ops k i guard data s)).
Proof.
  intros V Hd. unfold update_ops. destruct (table s k !! i) as [o|] eqn:Ho; [|by split].
  destruct (guard o) eqn:Hg; [|by split]. cbn [fst].
  apply ledgers_step; [done | apply (onward_insert s k i o); eauto with cosmos | | by auto | by auto | apply V].
  intros k' j x. rewrite lookup_table. case_bool_decide as Ek; [subst k'|congruence].
  destruct (decide (i = j)) as [<-|Hne]; [congruence|]. rewrite lookup_insert_ne by done. congruence.
Qed.

(** The rest of an update: which row it wrote. *)
Lemma update_ops_wrote k i guard data s n :
  snd (update_ops k i guard data s) = Ok n -> (0 < n)%nat ->
  exists o, table s k !! i = Some o /\ guard o = true
  /\ table (fst (update_ops k i guard data s)) k !! i = Some (data o).
Proof.
  unfold update_ops. destruct (table s k !! i) as [o|]; [|intros [= <-]; lia].
  destruct (guard o) eqn:Hg; [|intros [= <-]; lia]. intros _ _. exists o. cbn [fst].
  rewrite lookup_table, bool_decide_true, lookup_insert_eq by done. done.
Qed.

(** *** Rows once read *)

Definition seen (k : SettlementKind) (i : string) (o : Operation) (s : Ledgers) : Prop :=
  op_id o = i /\ 0 <= settlementEpoch o /\ exists o', table s k !! i = Some o' /\ follows o o'.

Lemma seen_now k i o s : ledgers_ok s -> table s k !! i = Some o -> seen k i o s.
Proof.
  intros V H. destruct (ok_rows _ V k i o H) as (Ei & _ & o0 & (_ & E0 & _) & F).
  pose proof (follows_epoch moments o0 o F). split_and!; [done | lia|]. exists o. split; [done | apply star_refl].
Qed.

Lemma seen_onward k i o s s' : seen k i o s -> onward s s' -> seen k i o s'.
Proof.
  intros (Ei & He & o1 & H1 & F1) Hs. destruct (Hs k i o1 H1) as (o2 & H2 & F2). split_and!; [done..|]. exists o2. split; [done|].
  by eapply star_trans.
Qed.

Lemma seen_terms k i o s o' : seen k i o s -> table s k !! i = Some o' -> same_terms o o'.
Proof. intros (_ & _ & o1 & H1 & F1) H. simplify_eq. by eapply follows_terms. Qed.

#[local] Hint Resolve seen_now seen_onward : core.

(** Two readings of one row name one transaction. *)
Lemma seen_twice k i o o' s s' :
  seen k i o s -> onward s s' -> seen k i o' s' ->
  op_network o' = op_network o /\ op_txHash o' = op_txHash o.
Proof.
  intros H Hs H'. destruct H' as (_ & _ & x & Hx & F).
  destruct (seen_terms k i o s' x (seen_onward _ _ _ _ _ H Hs) Hx) as (_ & _ & En & Eh & _).
  destruct (follows_terms moments o' x F) as (_ & _ & En' & Eh' & _). split; congruence.
Qed.

(** *** The statements of the machine *)

Lemma wp_find k i Q s0 :
  (forall s o, onward s0 s -> ledgers_ok s -> table s k !! i = Some o -> Q (Ok o) s) ->
  (forall s, Q (Throw JsError) s) -> wpl (findUniqueOrThrow k i) Q s0.
Proof.
  intros Hf Hn. unfold findUniqueOrThrow. apply wp_bind, wp_asking; [apply _|]. intros s Hs V.
  apply wp_pure. destruct (table s k !! i) as [o|] eqn:Ho; simpl; [by apply Hf | apply Hn].
Qed.

(** What a guarded update answers: the row as read back, at or past the row the
    statement wrote. *)
Definition read_back (k : SettlementKind) (i : string) (data : Operation -> Operation)
    (r : res SettlementOutcome) (s : Ledgers) : Prop :=
  match r with
  | Ok out => seen k i (outcome_row out) s
      /\ (applied out = true -> exists o, follows (data o) (outcome_row out))
  | Throw _ => True
  end.

Lemma wp_update k i guard data s0 :
  (forall s o, onward s0 s -> ledgers_ok s -> table s k !! i = Some o -> guard o = true -> op_step o (data o)) ->
  wpl (stmt (update_ops k i guard data))
    (fun r s => forall n, r = Ok n -> (0 < n)%nat -> exists o, table s k !! i = Some (data o)) s0.
Proof.
  intros Hd. apply wp_stmt. intros s Hs V.
  destruct (update_ops_ok k i guard data s V (fun o => Hd s o Hs V)) as [V' Hs'].
  split_and!; [done | done|]. intros n En Hn.
  destruct (update_ops_wrote k i guard data s n En Hn) as (o & _ & _ & H). eauto.
Qed.

Lemma wp_read_back k i data (n : nat) s0 :
  (forall x, x = n -> (0 < x)%nat -> exists o, table s0 k !! i = Some (data o)) ->
  wpl (o ← findUniqueOrThrow k i; Ret (mkOutcome (0 <? n)%nat o)) (read_back k i data) s0.
Proof.
  intros Hn. apply wp_bind. apply wp_find; [|done]. intros s o Hs V Ho. split; [by apply seen_now|].
  cbn [applied outcome_row]. intros E%Nat.ltb_lt. destruct (Hn n eq_refl E) as (o1 & H1).
  destruct (Hs k i _ H1) as (o2 & H2 & F). simplify_eq. eauto.
Qed.

Lemma wp_guardedUpdate k i from data s0 :
  (forall s o, onward s0 s -> ledgers_ok s -> table s k !! i = Some o -> op_status o ∈ from -> op_step o (data o)) ->
  wpl (guardedUpdate k i from data) (read_back k i data) s0.
Proof.
  intros Hd. unfold guardedUpdate. apply wp_bind. eapply wp_mono; [apply _ | apply wp_update |].
  - intros s o Hs V Ho Hg%bool_decide_eq_true. by eapply Hd.
  - intros [n|e] s Hs Hr; [|done]. apply wp_read_back. intros x -> Hx. by apply (Hr n).
Qed.

Lemma wp_markSubmitted k i s0 :
  wpl (markSubmitted k i)
    (fun r s => match r with Ok out => seen k i (outcome_row out) s | Throw _ => True end) s0.
Proof.
  unfold markSubmitted. apply wp_bind. eapply wp_mono; [apply _ | apply wp_update |].
  - intros s o Hs V Ho [H1%bool_decide_eq_true H2%Z.ltb_lt]%andb_true_iff. by constructor.
  - intros [n|e] s Hs Hr; [|done]. destruct (0 <? n)%nat eqn:En.
    + apply wp_bind. apply wp_find; [|done]. intros s' o Hs' V Ho. by apply seen_now.
    + eapply wp_mono; [apply _ | apply wp_guardedUpdate |].
      * intros s' o Hs' V Ho E%list_elem_of_singleton. by constructor.
      * intros [out|e] s' Hs' H; [apply H | done].
Qed.

(** Emitting what is warranted. *)
Lemma emitted_claims u t o d h k :
  k ∈ emittedEvents (fst (emit u t (operation_json o) d h)) ->
  k ∈ emittedEvents h
  \/ (isTerminalWebhookEvent t = true /\ k = terminalEventDedupKey t (op_id o) (settlementEpoch o)).
Proof.
  rewrite emit_spec. destruct (isTerminalWebhookEvent t) eqn:Et; [|by left].
  destruct (data_key t (operation_json o)) as [k'|] eqn:Ek; [|by left].
  destruct (decide _); [by left|]. cbn [fst emittedEvents].
  intros [->|H]%elem_of_cons; [|by left]. right. split; [done|].
  unfold data_key in Ek. rewrite Et in Ek. cbn in Ek. destruct (op_id o); [done|]. by injection Ek as <-.
Qed.

Lemma emit_operation_safe u t o d s0 :
  (forall s, onward s0 s -> ledgers_ok s -> isTerminalWebhookEvent t = true ->
     warranted s t (op_id o) (settlementEpoch o)) ->
  ok (emit_operation u t o d) s0.
Proof.
  intros W. unfold emit_operation. apply safe_stmt. intros s Hs V.
  destruct (emit u t (operation_json o) d (l_hooks s)) as [h r] eqn:E. cbn [fst].
  apply ledgers_step; [done | exact (reflexivity (R := onward) s) | | | by auto | apply V].
  - intros k i x Hx Hn. simpl in Hx. congruence.
  - intros t' i e H. simpl in H. assert (h = fst (emit u t (operation_json o) d (l_hooks s))) as -> by by rewrite E.
    apply emitted_claims in H as [H|(Et & Ek)]; [by left|]. right.
    apply dedupKey_inj in Ek as (-> & -> & ->). exact (W s Hs V Et).
Qed.

Lemma kinds_of_events k :
  isTerminalWebhookEvent (succeededEvent k) = true /\ isTerminalWebhookEvent (failedEvent k) = true
  /\ isTerminalWebhookEvent (submittedEvent k) = false.
Proof. by destruct k. Qed.

(** *** Finalizers *)

Lemma succeeded_data_status h o :
  h = None \/ h = Some (op_txHash o) -> succeeded_data h o = with_status S_SUCCEEDED o.
Proof. intros [->| ->]; [done|]. unfold succeeded_data. destruct o. by destruct (truthy _). Qed.

Lemma succeeded_not_canSucceed k : S_SUCCEEDED ∉ canSucceed k.
Proof. destruct k; by apply (bool_decide_unpack _). Qed.

Lemma succeed_step k h o o0 :
  op_status o ∈ canSucceed k -> same_terms o0 o -> landed moments (op_network o0) (op_txHash o0) ->
  (h = None \/ h = Some (op_txHash o0)) ->
  op_step o (succeeded_data h o).
Proof.
  intros Hs (_ & _ & En & Eh & _) L Hh. rewrite succeeded_data_status by (rewrite Eh; done).
  constructor; [|congruence]. intros E. rewrite E in Hs. by apply (succeeded_not_canSucceed k).
Qed.

Lemma fail_step k o o0 :
  op_status o ∈ inFlight k -> same_terms o0 o -> unsettled moments (op_network o0) (op_txHash o0) ->
  op_step o (with_status S_FAILED o).
Proof.
  intros Hs (_ & _ & En & Eh & _) U. constructor; [|congruence].
  unfold in_flight. apply bool_decide_eq_true. by destruct k.
Qed.

Lemma succeeded_status (h : option string) (o : Operation) : op_status (succeeded_data h o) = S_SUCCEEDED.
Proof. destruct h as [h|]; [|done]. unfold succeeded_data. by destruct (truthy _). Qed.

Lemma succeeded_warranted s k i o :
  seen k i o s -> op_status o = S_SUCCEEDED ->
  warranted s (succeededEvent k) (op_id o) (settlementEpoch o).
Proof.
  intros (-> & _ & o' & H' & F) E.
  destruct (follows_settled moments o o' F E) as [E' Ee']. intros k'. split; intros Ek; [|by destruct k, k'].
  assert (k' = k) as -> by by destruct k, k'. by exists o'.
Qed.

Lemma failed_warranted s k i o :
  seen k i o s -> unsettled moments (op_network o) (op_txHash o) ->
  warranted s (failedEvent k) (op_id o) (settlementEpoch o).
Proof.
  intros (-> & He & o' & H' & F) U.
  pose proof (follows_epoch moments o o' F). destruct (follows_terms moments o o' F) as (_ & _ & En & Eh & _).
  intros k'. split; intros Ek; [by destruct k, k'|]. assert (k' = k) as -> by by destruct k, k'.
  exists o'. rewrite En, Eh. split_and!; [done..|done].
Qed.

Lemma finalizeSucceeded_wp k i user h d s0 o0 :
  seen k i o0 s0 -> landed moments (op_network o0) (op_txHash o0) ->
  (h = None \/ h = Some (op_txHash o0)) ->
  wpl (finalizeSucceeded k i user h d)
    (fun r s => match r with Ok out => seen k i (outcome_row out) s | Throw _ => True end) s0.
Proof.
  intros Hseen L Hh. unfold finalizeSucceeded. apply wp_bind.
  eapply wp_mono; [apply _ | apply (wp_guardedUpdate k i (canSucceed k) (succeeded_data h)) |].
  { intros s o Hs V Ho E. apply (succeed_step k _ o o0); eauto using seen_terms. }
  intros [out|e] s Hs H; [|done]. destruct H as [Hrow Happ]. destruct (applied out); [|done].
  destruct (Happ eq_refl) as (o & F). apply wp_bind.
  eapply wp_mono; [apply _ | apply (emit_operation_safe user (succeededEvent k) (outcome_row out) d s) |].
  - intros s1 Hs1 V1 _. apply (succeeded_warranted s1 k i); [eauto|].
    apply (follows_settled moments _ _ F), succeeded_status.
  - intros [b|e] s1 Hs1 _; [|done]. cbn [wp]. eauto.
Qed.

Lemma finalizeFailed_safe k i user d s0 o0 :
  seen k i o0 s0 -> unsettled moments (op_network o0) (op_txHash o0) -> ok (finalizeFailed k i user d) s0.
Proof.
  intros Hseen U. unfold finalizeFailed. apply wp_bind.
  eapply wp_mono; [apply _ | apply (wp_guardedUpdate k i (inFlight k) (with_status S_FAILED)) |].
  { intros s o Hs V Ho E. apply (fail_step k o o0); eauto using seen_terms. }
  intros [out|e] s Hs H; [|done]. destruct H as [Hrow _]. destruct (applied out); [|done].
  apply (safe_bind ledgers_ok onward (fun _ => Ret out)); [|done].
  apply emit_operation_safe. intros s1 Hs1 V1 _. apply (failed_warranted s1 k i); [eauto|].
  destruct (seen_twice k i o0 (outcome_row out) s0 s) as [-> ->]; done.
Qed.

Lemma quiet_safe k i from data s0 :
  (forall s o, onward s0 s -> ledgers_ok s -> table s k !! i = Some o -> op_status o ∈ from -> op_step o (data o)) ->
  ok (guardedUpdate k i from data) s0.
Proof. intros H. eapply wp_safe; [apply _ | by apply wp_guardedUpdate]. Qed.

Lemma finalizeSucceededQuiet_safe k i s0 o0 :
  seen k i o0 s0 -> landed moments (op_network o0) (op_txHash o0) -> ok (finalizeSucceededQuiet k i None) s0.
Proof.
  intros Hseen L. apply quiet_safe. intros s o Hs V Ho E. apply (succeed_step k _ o o0); eauto using seen_terms.
Qed.

Lemma finalizeFailedQuiet_safe k i s0 o0 :
  seen k i o0 s0 -> unsettled moments (op_network o0) (op_txHash o0) -> ok (finalizeFailedQuiet k i) s0.
Proof. intros Hseen U. apply quiet_safe. intros s o Hs V Ho E. apply (fail_step k o o0); eauto using seen_terms. Qed.

Lemma finalizeExpired_safe k i s0 o0 :
  seen k i o0 s0 -> is_Some (op_expiresAt o0) -> missing moments (op_network o0) (op_txHash o0) ->
  ok (finalizeExpired k i) s0.
Proof.
  intros Hseen He M. apply quiet_safe. intros s o Hs V Ho E.
  destruct (seen_terms k i o0 s o) as (_ & _ & En & Eh & Ee & _); [eauto..|].
  constructor; [|congruence..]. unfold in_flight. apply bool_decide_eq_true. by destruct k.
Qed.

(** *** The cost basis *)

Lemma op_basis_step o o' c shares a b :
  follows o o' -> op_lp o = Some c -> basis_missing o' = true -> op_status o' = S_SUCCEEDED ->
  credited moments (op_network o) (op_txHash o) c shares a b -> op_step o' (with_basis shares a b o').
Proof.
  intros F Ec Hb E Hc. destruct (follows_terms moments o o' F) as (_ & _ & En & Eh & _).
  apply (op_basis _ _ c); [done | |done|by rewrite En, Eh].
  rewrite (proj1 (follows_basis moments o o' F) Hb). done.
Qed.

Lemma captureDepositBasis_safe o s0 : seen Liquidity (op_id o) o s0 -> ok (captureDepositBasis o) s0.
Proof.
  intros Hseen. unfold captureDepositBasis. destruct (op_lp o) as [c|] eqn:Ec; [|done].
  destruct (negb (basis_missing o)); [done|]. destruct (negb _); [done|].
  apply (safe_catching ledgers_ok onward); [|done].
  apply (safe_asking_bind ledgers_ok onward). intros s Hs V.
  destruct (effects_forTransaction (horizon s) (op_network o) (op_txHash o)) as [effects|] eqn:Ee; [|done].
  destruct (deposited_effect c effects) as [[[shares a] b]|] eqn:Ed; [|done].
  apply (safe_discard ledgers_ok onward), safe_stmt. intros s1 Hs1 V1.
  apply update_ops_ok; [done|]. intros o' Ho' [Hb E%bool_decide_eq_true]%andb_true_iff.
  destruct Hseen as (_ & _ & x & Hx & F). destruct (Hs _ _ _ Hx) as (y & Hy & F').
  destruct (Hs1 _ _ _ Hy) as (z & Hz & F''). simplify_eq.
  apply (op_basis_step o o' c); [|done..|].
  - eapply star_trans; [exact F|]. by eapply star_trans.
  - exists (horizon s), effects. split_and!; [apply V | done..].
Qed.

Lemma afterSucceeded_safe k o s0 : seen k (op_id o) o s0 -> ok (afterSucceeded k o) s0.
Proof.
  intros Hseen. destruct k; [done|]. simpl. unfold withDepositBasis. destruct (negb _); [done|].
  apply (safe_bind ledgers_ok onward); [by apply captureDepositBasis_safe|].
  intros u s Hs. apply wp_find; auto.
Qed.

(** After a finalization, its row. *)
Lemma after_finalize_safe {A} k i user h d (f : SettlementOutcome -> Operation -> A) s0 o0 :
  seen k i o0 s0 -> landed moments (op_network o0) (op_txHash o0) ->
  (h = None \/ h = Some (op_txHash o0)) ->
  ok (outcome ← finalizeSucceeded k i user h d;
      o ← afterSucceeded k (outcome_row outcome); Ret (f outcome o)) s0.
Proof.
  intros Hseen L Hh. apply wp_bind.
  eapply wp_mono; [apply _ | by apply (finalizeSucceeded_wp k i user h d s0 o0) |].
  intros [out|e] s Hs H; [|done].
  apply (safe_bind ledgers_ok onward); [|done].
  apply afterSucceeded_safe. by rewrite (proj1 H).
Qed.

(** *** The relay *)

(** Horizon answers a broadcast with the hash of the envelope. *)
Context (Hanswers : forall n network tx h,
  moments n -> submitTransaction n network tx = inl h -> h = env_hash tx).
Context (fromXDR : string -> string -> option Envelope).

Lemma settleSucceeded_safe k i user h d s0 o0 :
  seen k i o0 s0 -> landed moments (op_network o0) (op_txHash o0) -> h = op_txHash o0 ->
  ok (settleSucceeded k i user h d) s0.
Proof. intros Hseen L ->. unfold settleSucceeded. eapply after_finalize_safe; eauto. Qed.

Lemma settlement_evidence n network h :
  moments n ->
  match transactionSettlement n network h with
  | T_succeeded => landed moments network h
  | T_failed => reverted moments network h
  | T_absent => missing moments network h
  | T_unknown => True
  end.
Proof.
  intros Hn. unfold transactionSettlement.
  destruct (transaction_successful n network h) as [[|]|err] eqn:E.
  - exists n. by auto.
  - by exists n.
  - destruct (isHorizonNotFound err) eqn:E'; [|done]. by exists n, err.
Qed.

Lemma settleRejected_safe k o user codes d s0 :
  seen k (op_id o) o s0 ->
  (existsb (fun code => bool_decide (code ∈ NOT_APPLIED_REJECTION_CODES)) codes = true ->
   refused moments (op_network o) (op_txHash o)) ->
  ok (settleRejected k o user codes d) s0.
Proof.
  intros Hseen Hr. unfold settleRejected. apply (safe_asking_bind ledgers_ok onward). intros s Hs V.
  pose proof (settlement_evidence (horizon s) (op_network o) (op_txHash o) (ok_moment _ V)) as He.
  assert (forall U : unsettled moments (op_network o) (op_txHash o),
    ok (failed ← finalizeFailed k (op_id o) user d;
        if bool_decide (op_status (outcome_row failed) = S_SUCCEEDED)
        then Ret (Relayed (op_txHash (outcome_row failed)) (outcome_row failed))
        else Ret (NotRelayed S_FAILED codes (outcome_row failed))) s) as Hfail.
  { intros U. apply (safe_bind ledgers_ok onward); [eapply finalizeFailed_safe; eauto|].
    intros out s' _. by case_bool_decide. }
  destruct (transactionSettlement _ _ _); [by eapply settleSucceeded_safe; eauto | | |done].
  - apply Hfail. by left.
  - destruct (existsb _ codes); [|done]. apply Hfail. right. by auto.
Qed.

Lemma verifiedEnvelope_Ok o x tx :
  verifiedEnvelope fromXDR o x = Ok tx ->
  fromXDR (op_network o) x = Some tx /\ env_hash tx = op_txHash o /\ env_signatures tx <> 0%nat.
Proof.
  unfold verifiedEnvelope. destruct (fromXDR _ x) as [t|]; [|done].
  case_bool_decide; [|done]. destruct (env_signatures t =? 0)%nat eqn:E; [done|]. intros [= <-].
  split_and!; [done..|]. by apply Nat.eqb_neq.
Qed.

Lemma broadcast_ok k i o tx s :
  ledgers_ok s -> seen k i o s -> env_hash tx = op_txHash o -> env_signatures tx <> 0%nat ->
  ledgers_ok (log_broadcast (op_network o) tx s) /\ onward s (log_broadcast (op_network o) tx s).
Proof.
  intros V (_ & _ & o' & H' & F) Eh En.
  destruct (follows_terms moments o o' F) as (_ & _ & En' & Eh' & _).
  apply ledgers_step; [done | exact (reflexivity (R := onward) s) | | by auto | | apply V].
  - intros k' j x Hx Hn. simpl in Hx. congruence.
  - intros network t [H|H]%elem_of_app; [by left|]. apply list_elem_of_singleton in H. simplify_eq. right.
    exists k, i, o'. split_and!; [done | done | congruence | done].
Qed.

Lemma relay_submit_safe k o user x now d s0 :
  seen k (op_id o) o s0 -> ok (relay_submit fromXDR k o user x now d) s0.
Proof.
  intros Hseen. unfold relay_submit. apply (safe_pure_bind ledgers_ok onward). intros tx Htx.
  apply verifiedEnvelope_Ok in Htx as (_ & Eh & En).
  case_bool_decide; [done|]. destruct (negb _); [done|]. destruct (resubmitsExhausted o); [done|].
  destruct (hasLapsed tx o now); [done|]. apply wp_bind.
  eapply wp_mono; [apply _ | apply wp_markSubmitted |]. intros [out|e] s Hs Hout; [|done].
  cbv zeta. case_bool_decide; [done|]. destruct (resubmitsExhausted _); [done|]. destruct (negb _); [done|].
  destruct (seen_twice k (op_id o) o (outcome_row out) s0 s Hseen Hs Hout) as [Enet Ehash].
  apply (safe_bind ledgers_ok onward).
  { destruct (applied out); [|done]. apply (safe_discard ledgers_ok onward), emit_operation_safe.
    intros s1 _ _ Et. by rewrite (proj2 (proj2 (kinds_of_events k))) in Et. }
  intros u s1 Hs1. intros s2 Hs2 V2.
  assert (onward s0 s2) as H02 by (etransitivity; [exact Hs|]; by etransitivity).
  destruct (broadcast_ok k (op_id o) o tx s2 V2 (seen_onward _ _ _ _ _ Hseen H02) Eh En) as [V3 H23].
  split_and!; [done | done|]. set (s3 := log_broadcast (op_network o) tx s2) in *.
  assert (seen k (op_id o) o s3) as Hseen3 by (eapply seen_onward; [exact Hseen|]; by etransitivity).
  change (ok (match submitTransaction (horizon s2) (op_network o) tx with
    | inl hash => catching (settleSucceeded k (op_id o) user hash (d_terminal d))
                    (fun _ => Raise (unavailable ProviderUnavailable))
    | inr err => match extractResultCodes err with
                 | Some codes => settleRejected k (outcome_row out) user codes (d_terminal d)
                 | None => Raise (unavailable ProviderUnavailable)
                 end
    end) s3).
  destruct (submitTransaction (horizon s2) (op_network o) tx) as [h|err] eqn:Esub.
  - apply (safe_catching ledgers_ok onward); [|done].
    assert (h = env_hash tx) as -> by by eapply Hanswers; [apply V2|].
    eapply settleSucceeded_safe; [exact Hseen3 | |done]. exists (horizon s2). split; [apply V2|].
    right. exists tx. split; [done|]. by rewrite <- Eh.
  - destruct (extractResultCodes err) as [codes|] eqn:Ec; [|done].
    apply settleRejected_safe.
    + rewrite (proj1 Hout). eapply seen_onward; [exact Hout|].
      etransitivity; [exact Hs1|]. by etransitivity.
    + intros Hc. rewrite Enet, Ehash. exists (horizon s2), tx, err, codes. split_and!; [apply V2 | done..].
Qed.

Lemma submit_safe k user i x admitted now d s0 : ok (submit fromXDR k user i x admitted now d) s0.
Proof.
  unfold submit. destruct (negb admitted); [done|]. apply (safe_asking_bind ledgers_ok onward).
  intros s Hs V. unfold findOwnedOp. destruct (table s k !! i) as [o|] eqn:Ho; [|done].
  case_bool_decide; [|done]. apply relay_submit_safe.
  destruct (ok_rows _ V k i o Ho) as (-> & _). by apply seen_now.
Qed.

(** *** The observer *)

Lemma service_finalizeSucceeded_safe k i user d s0 o0 :
  seen k i o0 s0 -> landed moments (op_network o0) (op_txHash o0) ->
  ok (service_finalizeSucceeded k i user d) s0.
Proof. intros Hseen L. unfold service_finalizeSucceeded. eapply after_finalize_safe; eauto. Qed.

Lemma elem_of_op_rows k s o : o ∈ op_rows k s <-> exists i, table s k !! i = Some o.
Proof.
  unfold op_rows. rewrite list_elem_of_fmap. split.
  - intros ([i o'] & -> & H). exists i. by apply elem_of_map_to_list.
  - intros (i & H). exists (i, o). split; [done|]. by apply elem_of_map_to_list.
Qed.

Definition all_seen (k : SettlementKind) (l : list Operation) (s : Ledgers) : Prop :=
  forall o, o ∈ l -> seen k (op_id o) o s.

Lemma all_seen_onward k l s s' : all_seen k l s -> onward s s' -> all_seen k l s'.
Proof. intros H Hs o Ho. eauto. Qed.

Lemma rows_seen k s o : ledgers_ok s -> o ∈ op_rows k s -> seen k (op_id o) o s.
Proof.
  intros V (i & H)%elem_of_op_rows. destruct (ok_rows _ V k i o H) as (-> & _). by apply seen_now.
Qed.

(** A read of the observer, and the pass over what it answered. *)
Lemma select_dealt_safe {A} k before limit eligible still order (pass : list Operation -> prog Ledgers A) s0 :
  (forall l, order l ≡ₚ l) ->
  (forall l s, all_seen k l s -> onward s0 s -> ledgers_ok s -> ok (pass l) s) ->
  ok (rows ← select_dealt k before limit eligible still order; pass rows) s0.
Proof.
  intros Ho Hp. apply wp_bind. unfold select_dealt. apply wp_bind, wp_asking; [apply _|]. intros s Hs V.
  destruct (op_id <$> _) as [|i ids]; [apply Hp; [by intros o ?%not_elem_of_nil | done | done]|].
  apply wp_asking; [apply _|]. intros s' Hs' V'. apply Hp; [|by etransitivity|done].
  intros o. rewrite Ho. intros [H _]%list_elem_of_In%List.filter_In. apply rows_seen; [done|].
  by apply list_elem_of_In.
Qed.

Definition keyed (rows : list Operation) (gs : list (string * list Operation)) : Prop :=
  forall key g o, (key, g) ∈ gs -> o ∈ g -> o ∈ rows /\ hash_key o = key.

Lemma add_to_group_keyed rows x gs : x ∈ rows -> keyed rows gs -> keyed rows (add_to_group x gs).
Proof.
  intros Hx. induction gs as [|[key' g'] gs IH]; intros Hgs key g o; simpl.
  - intros E%list_elem_of_singleton. injection E as -> ->. by intros ->%list_elem_of_singleton.
  - assert (keyed rows gs) as Hgs' by (intros ? ? ? H; apply Hgs; by right).
    assert (forall o, o ∈ g' -> o ∈ rows /\ hash_key o = key') as Hg' by (intros o'; apply Hgs; by left).
    case_bool_decide as Ek; (intros [E|E]%elem_of_cons; [injection E as -> ->|]).
    + intros [Ho|Ho%list_elem_of_singleton]%elem_of_app; [by apply Hg' | by subst].
    + by apply Hgs'.
    + apply Hg'.
    + by apply IH.
Qed.

Lemma group_members rows key g o :
  (key, g) ∈ byHash rows -> o ∈ g -> o ∈ rows /\ hash_key o = key.
Proof.
  unfold byHash. assert (forall l gs, l ⊆ rows -> keyed rows gs ->
    keyed rows (fold_left (fun groups o => add_to_group o groups) l gs)) as H.
  { induction l as [|x l IH]; intros gs Hl Hgs; [done|]. simpl. apply IH.
    - intros y Hy. apply Hl. by right.
    - apply add_to_group_keyed; [|done]. apply Hl. by left. }
  apply H; [done|]. by intros ? ? ? ?%not_elem_of_nil.
Qed.

Lemma same_transaction a b :
  no_colon (op_network a) = true -> no_colon (op_network b) = true -> hash_key a = hash_key b ->
  op_network b = op_network a /\ op_txHash b = op_txHash a.
Proof.
  unfold hash_key. intros Ha Hb E. apply split_first_colon in E as [E1 E2]; [|done..]. by split.
Qed.

Lemma seen_no_colon k i o s : ledgers_ok s -> seen k i o s -> no_colon (op_network o) = true.
Proof.
  intros V (_ & _ & o' & H' & F). destruct (ok_rows _ V k i o' H') as (_ & En & _).
  destruct (follows_terms moments o o' F) as (_ & _ & <- & _). done.
Qed.

(** The rows of a group are of one transaction. *)
Definition one_transaction (network h : string) (l : list Operation) : Prop :=
  forall o, o ∈ l -> op_network o = network /\ op_txHash o = h.

Lemma group_one_transaction k rows key g p s :
  ledgers_ok s -> all_seen k rows s -> (key, g) ∈ byHash rows -> p ∈ g ->
  all_seen k g s /\ one_transaction (op_network p) (op_txHash p) g.
Proof.
  intros V Hseen Hg Hp. destruct (group_members _ _ _ _ Hg Hp) as [Hpr Ep]. split.
  - intros o Ho. apply Hseen. by destruct (group_members _ _ _ _ Hg Ho).
  - intros o Ho. destruct (group_members _ _ _ _ Hg Ho) as [Hor Eo].
    apply same_transaction; [eapply seen_no_colon; [done|by apply Hseen] .. | congruence].
Qed.

Lemma others_safe k l (worker : Operation -> prog Ledgers unit) s0 :
  all_seen k l s0 ->
  (forall o s, o ∈ l -> seen k (op_id o) o s -> ok (worker o) s) -> ok (for_each l worker) s0.
Proof.
  intros Hl Hw. apply (for_each_safe ledgers_ok onward l worker s0); [reflexivity|].
  intros o s Ho Hs. apply Hw; eauto.
Qed.

Lemma reconcile_group_safe k now d g network h s0 :
  all_seen k g s0 -> one_transaction network h g -> ok (reconcile_group k now d g) s0.
Proof.
  intros Hseen Hone. destruct g as [|p others]; [done|]. unfold reconcile_group.
  destruct (Hone p) as [Ep1 Ep2]; [by left|]. apply (safe_asking_bind ledgers_ok onward). intros s Hs V.
  pose proof (settlement_evidence (horizon s) (op_network p) (op_txHash p) (ok_moment _ V)) as He.
  pose proof (all_seen_onward _ _ _ _ Hseen Hs) as Hseen'.
  assert (all_seen k others s) as Hothers by (intros o Ho; apply Hseen'; by right).
  assert (forall o, o ∈ others -> op_network o = op_network p /\ op_txHash o = op_txHash p) as Hsame.
  { intros o Ho. destruct (Hone o) as [-> ->]; [by right | done]. }
  destruct (transactionSettlement _ _ _); [ | | |done].
  - apply (safe_bind ledgers_ok onward).
    { apply (safe_discard ledgers_ok onward). eapply service_finalizeSucceeded_safe; [|done]. apply Hseen'; by left. }
    intros u s1 Hs1. apply (others_safe k); [by eapply all_seen_onward|]. intros o s2 Ho Ho2.
    apply (safe_discard ledgers_ok onward). eapply finalizeSucceededQuiet_safe; [done|].
    by destruct (Hsame o Ho) as [-> ->].
  - apply (safe_bind ledgers_ok onward).
    { apply (safe_discard ledgers_ok onward). eapply finalizeFailed_safe; [|by left]. apply Hseen'; by left. }
    intros u s1 Hs1. apply (others_safe k); [by eapply all_seen_onward|]. intros o s2 Ho Ho2.
    apply (safe_discard ledgers_ok onward). eapply finalizeFailedQuiet_safe; [done|].
    destruct (Hsame o Ho) as [-> ->]. by left.
  - apply (others_safe k); [done|]. intros o s2 Ho Ho2. destruct (op_expiresAt o) eqn:Ex; [|done].
    destruct (_ <? now); [|done]. apply (safe_discard ledgers_ok onward).
    eapply finalizeExpired_safe; [done | by rewrite Ex|]. by destruct (Hone o Ho) as [-> ->]; rewrite <- Ep1, <- Ep2.
Qed.

Lemma reconcile_ops_safe k batch now d s0 : ok (reconcile_ops k batch now d) s0.
Proof.
  apply select_dealt_safe; [intros l; apply merge_sort_Permutation|]. intros rows s Hseen Hs V.
  apply (for_each_safe ledgers_ok onward _ _ s); [reflexivity|]. intros [key g] s' Hg Hs'. simpl.
  destruct g as [|p g]; [done|].
  destruct (group_one_transaction k rows key (p :: g) p s) as [H1 H2]; [done|done|done|by left|].
  eapply reconcile_group_safe; [by eapply all_seen_onward | exact H2].
Qed.

Lemma heal_safe k now d s0 : ok (heal k now d) s0.
Proof.
  apply select_dealt_safe; [intros l; apply merge_sort_Permutation|]. intros rows s Hseen Hs V.
  apply (others_safe k); [done|]. intros o s1 Ho Hseen1. apply (safe_asking_bind ledgers_ok onward).
  intros s2 Hs2 V2.
  pose proof (settlement_evidence (horizon s2) (op_network o) (op_txHash o) (ok_moment _ V2)) as He.
  destruct (transactionSettlement _ _ _); try done.
  apply (safe_discard ledgers_ok onward). eapply service_finalizeSucceeded_safe; eauto.
Qed.

Lemma backfill_safe batch s0 : ok (backfillDepositBasis batch) s0.
Proof.
  apply (safe_asking_bind ledgers_ok onward). intros s Hs V. apply (others_safe Liquidity).
  - intros o H%elem_of_take. destruct H as (j & H%list_elem_of_lookup_2 & _).
    rewrite merge_sort_Permutation in H. apply list_elem_of_In, List.filter_In in H as [H _].
    apply rows_seen; [done|]. by apply list_elem_of_In.
  - intros o s1 _ Ho. by apply captureDepositBasis_safe.
Qed.

Lemma settlement_run_safe batch now d s0 : ok (settlement_run batch now d) s0.
Proof.
  unfold settlement_run. apply (safe_bind ledgers_ok onward); [|intros u s _; apply (safe_bind ledgers_ok onward)].
  - apply (for_each_safe ledgers_ok onward _ _ s0); [reflexivity|]. intros k s _ _. apply reconcile_ops_safe.
  - apply (for_each_safe ledgers_ok onward _ _ s); [reflexivity|]. intros k s' _ _. apply heal_safe.
  - intros u' s' _. apply backfill_safe.
Qed.

(** ** The pool *)

(** What a submit route or the settlement observer runs. *)
Inductive settlement_request : prog Ledgers unit -> Prop :=
  | rq_submit k user i x admitted now d :
      settlement_request (discard (submit fromXDR k user i x admitted now d))
  | rq_sweep batch now d : settlement_request (settlement_run batch now d).

Definition settlement_event (t : WebhookEventType) : bool :=
  bool_decide (t ∈ [SWAP_SUCCEEDED; SWAP_FAILED; LIQUIDITY_SUCCEEDED; LIQUIDITY_FAILED]).

(** What else happens: the ledger closes, the webhooks module and the other
    emitters work, a swap or an operation is created. *)
Inductive settlement_outside : Ledgers -> Ledgers -> Prop :=
  | horizon_moves n s : moments n -> settlement_outside s (mkLedgers (table s) (l_hooks s) n (broadcasts s))
  | hooks_move h s :
      (forall t i e, settlement_event t = true -> terminalEventDedupKey t i e ∈ emittedEvents h ->
         terminalEventDedupKey t i e ∈ emittedEvents (l_hooks s)) ->
      settlement_outside s (set_l_hooks h s)
  | op_created k o s : table s k !! op_id o = None -> fresh o -> no_colon (op_network o) = true ->
      settlement_outside s (set_table k (fun m => <[op_id o := o]> m) s).

Lemma settlement_request_safe p s : settlement_request p -> ok p s.
Proof.
  destruct 1; [apply (safe_discard ledgers_ok onward), submit_safe | apply settlement_run_safe].
Qed.

Lemma others_warranted s t i e : settlement_event t = false -> warranted s t i e.
Proof. intros H k. split; intros ->; by destruct k. Qed.

Lemma settlement_outside_ok s s' : settlement_outside s s' -> ledgers_ok s -> ledgers_ok s' /\ onward s s'.
Proof.
  intros Hs V. destruct Hs as [n s Hn|h s Hh|k o s Hnew Hf Hc].
  - apply ledgers_step; [done | exact (reflexivity (R := onward) s) | | by auto | by auto | done].
    intros k i x Hx Hx'. simpl in Hx. congruence.
  - apply ledgers_step; [done | exact (reflexivity (R := onward) s) | | | by auto | apply V].
    + intros k i x Hx Hx'. simpl in Hx. congruence.
    + intros t i e H. destruct (settlement_event t) eqn:Et; [left; by apply Hh | right; by apply others_warranted].
  - apply ledgers_step; [done | | | by auto | by auto | apply V].
    + intros k' j x Hx. rewrite lookup_table. exists x. split; [|apply star_refl].
      case_bool_decide as Ek; [subst k'|done]. rewrite lookup_insert_ne; [done|]. intros E. congruence.
    + intros k' j x. rewrite lookup_table. case_bool_decide as Ek; [subst k'|congruence].
      destruct (decide (op_id o = j)) as [<-|Hne]; [|rewrite lookup_insert_ne by done; congruence].
      rewrite lookup_insert_eq. by intros [= <-].
Qed.

(** Before any settlement: rows as their creates wrote them. *)
Definition opening (s : Ledgers) : Prop :=
  (forall k i o, table s k !! i = Some o -> op_id o = i /\ no_colon (op_network o) = true /\ fresh o)
  /\ emittedEvents (l_hooks s) = [] /\ broadcasts s = [] /\ moments (horizon s).

Definition settles (l : list (prog Ledgers unit)) (s : Ledgers) : Prop :=
  exists s0, opening s0 /\ star (pool_step settlement_request settlement_outside) ([], s0) (l, s).

Lemma opening_ok s : opening s -> ledgers_ok s.
Proof.
  intros (Ho & Ee & Eb & Hm). split; [| | |done].
  - intros k i o H. destruct (Ho k i o H) as (? & ? & ?). split_and!; [done..|]. exists o. split; [done | apply star_refl].
  - rewrite Ee. by intros t i e ?%not_elem_of_nil.
  - rewrite Eb. by intros network tx ?%not_elem_of_nil.
Qed.

Lemma settles_ok l s l' s' :
  settles l s -> star (pool_step settlement_request settlement_outside) (l, s) (l', s') ->
  ledgers_ok s' /\ onward s s'.
Proof.
  intros (s0 & Ho & H) H'.
  destruct (pool_safe ledgers_ok onward settlement_request settlement_outside [] s0 l s) as (Hl & V & _);
    [intros; by apply settlement_request_safe | intros; by apply settlement_outside_ok | constructor
    | by apply opening_ok | done|].
  destruct (pool_safe ledgers_ok onward settlement_request settlement_outside l s l' s') as (_ & V' & R);
    [intros; by apply settlement_request_safe | intros; by apply settlement_outside_ok | done..|]. done.
Qed.
End safety.

(** C9: refinement. Whatever submits, sweeps, crashes, creates and ledger closes
    interleave, every operation goes through the abstract machine [op_step] from
    the row its create wrote: between any two moments it stays in its table with
    its id, owner, network and hash, its status follows declared transitions, its
    epoch counts at most three resubmissions and never goes back, SUCCEEDED is
    final in its epoch, and a captured cost basis is never rewritten. *)
Theorem operations_follow_machine (moments : HorizonNode -> Prop)
    (fromXDR : string -> string -> option Envelope) l s l' s' k i o :
  (forall n network tx h, moments n -> submitTransaction n network tx = inl h -> h = env_hash tx) ->
  settles moments fromXDR l s ->
  star (pool_step (settlement_request fromXDR) (settlement_outside moments)) (l, s) (l', s') ->
  table s k !! i = Some o ->
  (exists o0, fresh o0 /\ star (op_step moments) o0 o)
  /\ exists o', table s' k !! i = Some o' /\ star (op_step moments) o o' /\ same_terms o o'
  /\ star (fun a b => canTransitionLp a b = true) (op_status o) (op_status o')
  /\ settlementEpoch o <= settlementEpoch o' <= SETTLEMENT_MAX_RESUBMITS
  /\ (op_status o = S_SUCCEEDED -> op_status o' = S_SUCCEEDED /\ settlementEpoch o' = settlementEpoch o)
  /\ (basis_missing o = false -> op_lp o' = op_lp o).
Proof.
  intros Ha Hs Hstar Ho.
  destruct (settles_ok moments Ha fromXDR l s l s Hs (star_refl _ _)) as [V _].
  destruct (settles_ok moments Ha fromXDR l s l' s' Hs Hstar) as [V' Hon].
  destruct (ok_rows _ _ V k i o Ho) as (_ & _ & o0 & Hf & F0). split; [by exists o0|].
  destruct (Hon k i o Ho) as (o' & Ho' & F). exists o'. split_and!; [done | done | | | | | |].
  - by eapply follows_terms.
  - by eapply follows_path.
  - by eapply follows_epoch.
  - apply (follows_sound moments o0 o' Hf). by eapply star_trans.
  - by eapply follows_settled.
  - by eapply follows_basis.
Qed.

(** C10: safety. In every reachable state an operation is SUCCEEDED only if Horizon
    showed its transaction as successful, FAILED or ever resubmitted only if
    Horizon showed it failed, or absent after a refusal that means it was never
    applied, EXPIRED only if it had a deadline and Horizon answered 404, and
    carries a cost basis only if its effects credited it; every envelope ever
    broadcast is a signed envelope of a stored operation; a SUCCEEDED event is
    claimed only for a SUCCEEDED row and in one epoch, a FAILED event only for an
    epoch reached and with that same evidence. *)
Theorem settlement_needs_evidence (moments : HorizonNode -> Prop)
    (fromXDR : string -> string -> option Envelope) l s :
  (forall n network tx h, moments n -> submitTransaction n network tx = inl h -> h = env_hash tx) ->
  settles moments fromXDR l s ->
  (forall k i o, table s k !! i = Some o -> op_sound moments o)
  /\ (forall network tx, (network, tx) ∈ broadcasts s -> ours s network tx)
  /\ (forall k i e, terminalEventDedupKey (succeededEvent k) i e ∈ emittedEvents (l_hooks s) ->
       settled_at s k i e /\
       forall e', terminalEventDedupKey (succeededEvent k) i e' ∈ emittedEvents (l_hooks s) -> e' = e)
  /\ (forall k i e, terminalEventDedupKey (failedEvent k) i e ∈ emittedEvents (l_hooks s) ->
       failed_at moments s k i e).
Proof.
  intros Ha Hs. destruct (settles_ok moments Ha fromXDR l s l s Hs (star_refl _ _)) as [V _].
  split_and!.
  - intros k i o Ho. destruct (ok_rows _ _ V k i o Ho) as (_ & _ & o0 & Hf & F). by eapply follows_sound.
  - apply (ok_broadcasts _ _ V).
  - intros k i e H. pose proof (proj1 (ok_claims _ _ V _ _ _ H k) eq_refl) as W. split; [done|].
    intros e' H'. destruct W as (o & Ho & _ & <-).
    destruct (proj1 (ok_claims _ _ V _ _ _ H' k) eq_refl) as (o' & Ho' & _ & <-). congruence.
  - intros k i e H. by apply (proj2 (ok_claims _ _ V _ _ _ H k)).
Qed.

(** ** Witnesses: a swap refused once and settled when it is sent again, and a
    deposit the observer settles *)

Definition sample_swap : Operation :=
  mkOperation "sw1" "shop" "public" "aa" S_PENDING 0 (Some 900000) 1000 None.
Definition sample_deposit : Operation :=
  mkOperation "lp1" "shop" "public" "bb" S_SUBMITTED 0 (Some 900000) 2000
    (Some (mkLpColumns DEPOSIT "native" None "USDC" (Some "GISSUER"%string) "10.0000000" "5.0000000" None None None)).

Definition sample_horizon (accepts : bool) : HorizonNode :=
  mkHorizonNode
    (fun _ h => if bool_decide (h = "bb"%string) then inl true else inr (mkHorizonError (Some 404) None None))
    (fun _ h => inl [mkEffect "liquidity_pool_deposited" (Some [("native", "9.5000000")]) (Some "7.0000000")])%string
    (fun _ tx => if accepts then inl (env_hash tx)
                 else inr (mkHorizonError (Some 400) (Some (mkResultCodes (Some "tx_bad_auth"%string) None)) None)).
Definition sample_moments (n : HorizonNode) : Prop := exists b, n = sample_horizon b.
Definition sample_xdr (network x : string) : option Envelope := Some (mkEnvelope x 1 0).
Definition sample_draws : RelayDraws :=
  mkRelayDraws (mkDraw "e1" (fun _ => "r") 5 "iso") (mkDraw "e2" (fun _ => "r") 5 "iso").

Definition sample_opening : Ledgers :=
  mkLedgers (fun k => match k with
                      | Swaps => {["sw1" := sample_swap]}
                      | Liquidity => {["lp1" := with_status S_PENDING sample_deposit]}
                      end)%string
    (mkHooks [] [] [] []) (sample_horizon false) [].

(** The swap is refused and the sweep settles the deposit; then Horizon accepts. *)
Definition sample_refused : list (prog Ledgers unit) :=
  [discard (submit sample_xdr Swaps "shop" "sw1" "aa" true 5000 sample_draws);
   settlement_run 5 6000 (fun _ => d_terminal sample_draws)].
Definition sample_again : list (prog Ledgers unit) :=
  [discard (submit sample_xdr Swaps "shop" "sw1" "aa" true 7000 sample_draws)].
Definition sample_middle : Ledgers := run_all sample_refused sample_opening.
Definition sample_end : Ledgers :=
  run_all sample_again
    (mkLedgers (table sample_middle) (l_hooks sample_middle) (sample_horizon true) (broadcasts sample_middle)).

Lemma sample_answers n network tx h :
  sample_moments n -> submitTransaction n network tx = inl h -> h = env_hash tx.
Proof. intros [[|] ->]; simpl; [by intros [= <-] | done]. Qed.

Lemma sample_opens : opening sample_moments sample_opening.
Proof.
  split_and!; [|done|done|by exists false]. intros [|] i o H; unfold sample_opening in H; cbn [table] in H;
    apply lookup_singleton_Some in H as [<- <-]; (split_and!; [done | done|]); by split_and!.
Qed.

Lemma sample_settles : exists l, settles sample_moments sample_xdr l sample_middle.
Proof.
  destruct (pool_run_all (settlement_request sample_xdr) (settlement_outside sample_moments) sample_refused []
    sample_opening) as [l Hl].
  { apply Forall_cons_2; [apply rq_submit|]. apply Forall_cons_2; [apply rq_sweep | apply Forall_nil_2]. }
  exists l, sample_opening. split; [exact sample_opens | exact Hl].
Qed.

Lemma sample_goes_on l : exists l',
  star (pool_step (settlement_request sample_xdr) (settlement_outside sample_moments))
    (l, sample_middle) (l', sample_end).
Proof.
  destruct (pool_run_all (settlement_request sample_xdr) (settlement_outside sample_moments) sample_again l
    (mkLedgers (table sample_middle) (l_hooks sample_middle) (sample_horizon true) (broadcasts sample_middle)))
    as [l' Hl'].
  { apply Forall_cons_2; [apply rq_submit | apply Forall_nil_2]. }
  exists l'. eapply star_trans; [|exact Hl']. apply star_one, pool_env, horizon_moves. by exists true.
Qed.

Definition refused_swap : Operation := default sample_swap (table sample_middle Swaps !! "sw1"%string).

Lemma operations_follow_machine_witness :
  op_status refused_swap = S_FAILED
  /\ exists o', table sample_end Swaps !! "sw1"%string = Some o'
     /\ star (op_step sample_moments) refused_swap o' /\ op_status o' = S_SUCCEEDED /\ settlementEpoch o' = 1.
Proof.
  split; [vm_compute; reflexivity|].
  destruct sample_settles as [l Hl]. destruct (sample_goes_on l) as [l' Hl'].
  destruct (proj2 (operations_follow_machine sample_moments sample_xdr l sample_middle l' sample_end Swaps "sw1"
    refused_swap sample_answers Hl Hl' ltac:(vm_compute; reflexivity))) as (o' & Ho' & F & _).
  exists o'. split; [exact Ho'|]. split; [exact F|].
  assert (fmap (fun o => (op_status o, settlementEpoch o)) (table sample_end Swaps !! "sw1"%string)
    = Some (S_SUCCEEDED, 1)) as E by (vm_compute; reflexivity).
  rewrite Ho' in E. injection E as -> ->. split; reflexivity.
Defined.

Lemma settlement_needs_evidence_witness :
  refused sample_moments "public" "aa"
  /\ settled_at sample_middle Liquidity "lp1" 0
  /\ failed_at sample_moments sample_middle Swaps "sw1" 0.
Proof.
  destruct sample_settles as [l Hl].
  destruct (settlement_needs_evidence sample_moments sample_xdr l sample_middle sample_answers Hl)
    as (_ & _ & Hs & Hf).
  split_and!.
  - exists (sample_horizon false), (mkEnvelope "aa" 1 0), (mkHorizonError (Some 400) (Some (mkResultCodes (Some "tx_bad_auth"%string) None)) None), ["tx_bad_auth"%string].
    split; [by exists false|]. split_and!; vm_compute; reflexivity.
  - apply Hs. apply (bool_decide_unpack _). vm_compute. exact I.
  - apply Hf. apply (bool_decide_unpack _). vm_compute. exact I.
Defined.
