(* ===== verification/SettlementSweeps.v ===== *)
(** Sweeps of the settlement observer make progress: while Horizon can say what
    became of every operation in flight, each sweep settles at least one, so
    finitely many sweeps settle them all, each as Horizon says. *)

From stdpp Require Import base tactics list option gmap strings sorting.
From Stdlib Require Import ZArith Lia Ascii.
From S2P Require Import Prelude Text Units MerchantFee Intents Webhooks Programs LpMath Settlement.
From S2P Require Import SettlementSafety.

Open Scope Z_scope.

(** What a settled Horizon makes of an operation. *)
Definition outcome (n : HorizonNode) (o : Operation) : SwapStatus :=
  match transactionSettlement n (op_network o) (op_txHash o) with
  | T_succeeded => S_SUCCEEDED
  | T_failed => S_FAILED
  | _ => S_EXPIRED
  end.

(** Horizon can say what became of it: its transaction is on the ledger, or
    absent when its time is over. *)
Definition decided (n : HorizonNode) (t : Z) (o : Operation) : bool :=
  match transactionSettlement n (op_network o) (op_txHash o) with
  | T_unknown => false
  | T_absent => match op_expiresAt o with Some e => e <? t | None => false end
  | _ => true
  end.

Section sweeps.
Context (n : HorizonNode) (t0 : Z).

Record sweepable (s : Ledgers) : Prop := {
  sw_horizon : horizon s = n;
  sw_rows : forall k i o, table s k !! i = Some o ->
    op_id o = i /\ i <> ""%string /\ no_colon (op_network o) = true;
  sw_decided : forall k i o, table s k !! i = Some o -> in_flight o = true -> decided n t0 o = true
}.

(** A row stays as it is or takes its outcome; one not in flight only when that
    is success. *)
Definition toward (o o' : Operation) : Prop :=
  same_terms o o'
  /\ (op_status o' = op_status o
      \/ (op_status o' = outcome n o /\ (in_flight o = true \/ outcome n o = S_SUCCEEDED))).

Record swept (s s' : Ledgers) : Prop := {
  swept_horizon : horizon s' = horizon s;
  swept_rows : forall k i o, table s k !! i = Some o -> exists o', table s' k !! i = Some o' /\ toward o o';
  swept_none : forall k i, table s k !! i = None -> table s' k !! i = None
}.

Lemma same_terms_refl o : same_terms o o.
Proof. by split_and!. Qed.

Lemma same_terms_trans a b c : same_terms a b -> same_terms b c -> same_terms a c.
Proof. intros (? & ? & ? & ? & ? & ?) (? & ? & ? & ? & ? & ?). split_and!; congruence. Qed.

Lemma outcome_terms a b : same_terms a b -> outcome n b = outcome n a.
Proof. intros (_ & _ & En & Eh & _). unfold outcome. by rewrite En, Eh. Qed.

Lemma decided_terms a b : same_terms a b -> decided n t0 b = decided n t0 a.
Proof. intros (_ & _ & En & Eh & Ee & _). unfold decided. by rewrite En, Eh, Ee. Qed.

Lemma toward_refl o : toward o o.
Proof. split; [apply same_terms_refl | by left]. Qed.

Lemma in_flight_same o o' : op_status o' = op_status o -> in_flight o' = in_flight o.
Proof. unfold in_flight. by intros ->. Qed.

Lemma toward_trans a b c : toward a b -> toward b c -> toward a c.
Proof.
  intros [T1 S1] [T2 S2]. split; [by eapply same_terms_trans|]. rewrite (outcome_terms a b T1) in S2.
  destruct S2 as [->|[E2 W2]]; [done|]. destruct S1 as [E1|[E1 W1]]; right; split; try done.
  by rewrite <- (in_flight_same a b).
Qed.

#[export] Instance swept_preorder : PreOrder swept.
Proof.
  split; [intros s; split; [done | |done]; intros k i o H; exists o; split; [done | apply toward_refl]|].
  intros a b c [H1 R1 N1] [H2 R2 N2]. split; [congruence | |auto].
  intros k i o H. destruct (R1 k i o H) as (o1 & E1 & T1). destruct (R2 k i o1 E1) as (o2 & E2 & T2).
  exists o2. split; [done|]. by eapply toward_trans.
Qed.

Lemma in_flight_status o : in_flight o = true <-> op_status o ∈ [S_PENDING; S_SUBMITTED].
Proof. unfold in_flight. apply bool_decide_eq_true. Qed.

Lemma outcome_landed o : outcome n o ∉ [S_PENDING; S_SUBMITTED].
Proof. unfold outcome. destruct (transactionSettlement _ _ _); by apply (bool_decide_unpack _). Qed.

Lemma toward_in_flight o o' : toward o o' -> in_flight o' = true -> in_flight o = true /\ op_status o' = op_status o.
Proof.
  rewrite !in_flight_status. intros [_ [->|[-> _]]]; [done|]. intros H. by destruct (outcome_landed o).
Qed.

(** A row is resolved for good. *)
Definition resolved (k : SettlementKind) (i : string) (s : Ledgers) : Prop :=
  exists o, table s k !! i = Some o /\ in_flight o = false.

Lemma resolved_swept k i s s' : resolved k i s -> swept s s' -> resolved k i s'.
Proof.
  intros (o & H & E) Hs. destruct (swept_rows _ _ Hs k i o H) as (o' & H' & T). exists o'. split; [done|].
  destruct (in_flight o') eqn:E'; [|done]. apply (toward_in_flight o o' T) in E' as [E' _]. congruence.
Qed.

Lemma sweepable_swept s s' : sweepable s -> swept s s' -> sweepable s'.
Proof.
  intros [H1 H2 H3] Hs.
  assert (forall k i o', table s' k !! i = Some o' -> exists o, table s k !! i = Some o /\ toward o o') as Hback.
  { intros k i o' H'. destruct (table s k !! i) as [o|] eqn:H.
    - destruct (swept_rows _ _ Hs k i o H) as (o1 & E1 & T). simplify_eq. eauto.
    - rewrite (swept_none _ _ Hs k i H) in H'. done. }
  split.
  - rewrite (swept_horizon _ _ Hs). done.
  - intros k i o' H'. destruct (Hback k i o' H') as (o & H & [T _]). destruct (H2 k i o H) as (Ei & Hne & Hc).
    destruct T as (-> & _ & -> & _). done.
  - intros k i o' H' E'. destruct (Hback k i o' H') as (o & H & T).
    rewrite (decided_terms o o' (proj1 T)). apply (H3 k i o H). by apply (toward_in_flight o o' T).
Qed.

(** What is written keeps rows on their way. *)
Lemma update_ops_swept k i guard data s :
  sweepable s -> (forall o, table s k !! i = Some o -> guard o = true -> toward o (data o)) ->
  sweepable (fst (update_ops k i guard data s)) /\ swept s (fst (update_ops k i guard data s)).
Proof.
  intros V Hd. assert (swept s (fst (update_ops k i guard data s))) as Hs.
  { unfold update_ops. destruct (table s k !! i) as [o|] eqn:Ho; [|done]. destruct (guard o) eqn:Hg; [|done].
    cbn [fst]. split; [done| |].
    - intros k' j x Hx. rewrite lookup_table. case_bool_decide as Ek; [subst k'|].
      + destruct (decide (i = j)) as [<-|Hne]; [|rewrite lookup_insert_ne by done; eauto using toward_refl].
        rewrite lookup_insert_eq. simplify_eq. eauto.
      + eauto using toward_refl.
    - intros k' j Hx. rewrite lookup_table. case_bool_decide as Ek; [subst k'|done].
      rewrite lookup_insert_ne; [done|]. congruence. }
  split; [by eapply sweepable_swept | done].
Qed.

#[local] Abbreviation totals := (total sweepable swept).

(** *** Finalizers *)

Definition here (k : SettlementKind) (i : string) (o : Operation) (s : Ledgers) : Prop :=
  exists o', table s k !! i = Some o' /\ same_terms o o'.

Lemma here_swept k i o s s' : here k i o s -> swept s s' -> here k i o s'.
Proof.
  intros (o1 & H & T) Hs. destruct (swept_rows _ _ Hs k i o1 H) as (o2 & H2 & [T2 _]). exists o2.
  split; [done|]. by eapply same_terms_trans.
Qed.

Lemma total_find k i (P : Ledgers -> Prop) s0 :
  (forall s s', P s -> swept s s' -> P s') -> P s0 -> (forall s, P s -> is_Some (table s k !! i)) ->
  totals (findUniqueOrThrow k i) (fun o s => P s /\ op_id o = i /\ i <> ""%string) s0.
Proof.
  intros HP H0 Hi. unfold findUniqueOrThrow. apply total_bind, total_asking; [apply _|]. intros s Hs V.
  destruct (Hi s) as [o Ho]; [by eapply HP|]. rewrite Ho. cbn.
  destruct (sw_rows _ V k i o Ho) as (? & ? & _). split_and!; [by eapply HP | done..].
Qed.

(** What a finalizer leaves behind. *)
Definition finished (k : SettlementKind) (i : string) (out : SettlementOutcome) (s : Ledgers) : Prop :=
  resolved k i s /\ op_id (outcome_row out) = i /\ i <> ""%string.

Lemma resolved_row k i s : resolved k i s -> is_Some (table s k !! i).
Proof. intros (o & -> & _). eauto. Qed.

Lemma total_guardedUpdate k i from data s0 o0 :
  here k i o0 s0 ->
  (forall o, same_terms o0 o -> op_status o ∈ from -> toward o (data o) /\ in_flight (data o) = false) ->
  (forall st, st ∈ [S_PENDING; S_SUBMITTED] -> st ∈ from) ->
  totals (guardedUpdate k i from data) (finished k i) s0.
Proof.
  intros Hh Hd Hfrom. unfold guardedUpdate. apply total_bind.
  assert (totals (stmt (update_ops k i (fun o => bool_decide (op_status o ∈ from)) data))
    (fun _ => resolved k i) s0) as H.
  { apply wp_stmt. intros s Hs V. destruct (here_swept _ _ _ _ _ Hh Hs) as (o & Ho & T).
    destruct (update_ops_swept k i (fun o => bool_decide (op_status o ∈ from)) data s V) as [V' Hs'].
    { intros o' Ho' E%bool_decide_eq_true. simplify_eq. by apply Hd. }
    split_and!; [done | done|]. unfold update_ops. rewrite Ho. case_bool_decide as E; cbn [fst snd].
    - exists (data o). rewrite lookup_table, bool_decide_true, lookup_insert_eq by done.
      split; [done|]. by apply Hd.
    - exists o. split; [done|]. destruct (in_flight o) eqn:Ef; [|done]. apply in_flight_status in Ef.
      destruct E. by apply Hfrom. }
  eapply total_mono; [apply _ | exact H|]. intros c s Hs Hr. apply total_bind.
  eapply total_mono; [apply _ | apply (total_find k i (resolved k i)); [intros; by eapply resolved_swept | done | apply resolved_row]|].
  intros o s' _ (? & ? & ?). done.
Qed.

Lemma emit_operation_total u t o d (P : Ledgers -> Prop) s0 :
  (forall s s', P s -> swept s s' -> P s') -> P s0 -> op_id o <> ""%string ->
  totals (emit_operation u t o d) (fun _ => P) s0.
Proof.
  intros HP H0 Hne. apply wp_stmt. intros s Hs V.
  destruct (emit u t (operation_json o) d (l_hooks s)) as [h r] eqn:E. cbn [fst snd].
  assert (swept s (set_l_hooks h s)) as Hs'.
  { split; [done | |done]. intros k i x Hx. exists x. split; [done | apply toward_refl]. }
  split_and!; [by eapply sweepable_swept | done|].
  assert (is_ok r = true) as Hr.
  { rewrite emit_spec in E. destruct (isTerminalWebhookEvent t) eqn:Et; [|by injection E as _ <-].
    rewrite (data_key_terminal t _ (op_id o) Et) in E by done.
    destruct (decide (terminalEventDedupKey _ _ _ ∈ _)); by injection E as _ <-. }
  destruct r; [|done]. eapply HP; [|exact Hs']. by eapply HP.
Qed.

Lemma emitting_total k i u t d out s0 :
  finished k i out s0 ->
  totals (if applied out then _ ← emit_operation u t (outcome_row out) d; Ret out else Ret out)
    (finished k i) s0.
Proof.
  intros (Hr & Ei & Hne). destruct (applied out); [|done]. apply total_bind.
  eapply total_mono; [apply _ | apply (emit_operation_total u t (outcome_row out) d (resolved k i)) |].
  - intros. by eapply resolved_swept.
  - done.
  - congruence.
  - intros b s Hs H. done.
Qed.

Lemma canSucceed_in_flight k st : st ∈ [S_PENDING; S_SUBMITTED] -> st ∈ canSucceed k.
Proof.
  intros H. apply (bool_decide_eq_true_2 (st ∈ [S_PENDING; S_SUBMITTED])) in H. apply (bool_decide_eq_true (st ∈ canSucceed k)). by destruct st, k.
Qed.

Lemma succeeded_toward o0 o :
  outcome n o0 = S_SUCCEEDED -> same_terms o0 o ->
  toward o (succeeded_data None o) /\ in_flight (succeeded_data None o) = false.
Proof.
  intros E T. split; [|done]. split; [by split_and!|]. right. rewrite (outcome_terms o0 o T). by auto.
Qed.

Lemma failed_toward o0 o :
  outcome n o0 = S_FAILED -> same_terms o0 o -> in_flight o = true ->
  toward o (with_status S_FAILED o) /\ in_flight (with_status S_FAILED o) = false.
Proof.
  intros E T Ef. split; [|done]. split; [by split_and!|]. right. rewrite (outcome_terms o0 o T). by auto.
Qed.

Lemma expired_toward o0 o :
  outcome n o0 = S_EXPIRED -> same_terms o0 o -> in_flight o = true ->
  toward o (with_status S_EXPIRED o) /\ in_flight (with_status S_EXPIRED o) = false.
Proof.
  intros E T Ef. split; [|done]. split; [by split_and!|]. right. rewrite (outcome_terms o0 o T). by auto.
Qed.

Lemma finalizeSucceededQuiet_total k i s0 o0 :
  here k i o0 s0 -> outcome n o0 = S_SUCCEEDED -> totals (finalizeSucceededQuiet k i None) (finished k i) s0.
Proof.
  intros Hh E. eapply total_guardedUpdate; [done | intros; by eapply succeeded_toward | apply canSucceed_in_flight].
Qed.

Lemma finalizeFailedQuiet_total k i s0 o0 :
  here k i o0 s0 -> outcome n o0 = S_FAILED -> totals (finalizeFailedQuiet k i) (finished k i) s0.
Proof. intros Hh E. eapply total_guardedUpdate; [done | | by destruct k]. intros o T Ef.
  eapply failed_toward; [done..|]. apply in_flight_status. by destruct k. Qed.

Lemma finalizeExpired_total k i s0 o0 :
  here k i o0 s0 -> outcome n o0 = S_EXPIRED -> totals (finalizeExpired k i) (finished k i) s0.
Proof. intros Hh E. eapply total_guardedUpdate; [done | | by destruct k]. intros o T Ef.
  eapply expired_toward; [done..|]. apply in_flight_status. by destruct k. Qed.

Lemma finalizeSucceeded_total k i u d s0 o0 :
  here k i o0 s0 -> outcome n o0 = S_SUCCEEDED -> totals (finalizeSucceeded k i u None d) (finished k i) s0.
Proof.
  intros Hh E. unfold finalizeSucceeded. apply total_bind.
  eapply total_mono; [apply _ | by eapply finalizeSucceededQuiet_total|]. intros out s _. apply emitting_total.
Qed.

Lemma finalizeFailed_total k i u d s0 o0 :
  here k i o0 s0 -> outcome n o0 = S_FAILED -> totals (finalizeFailed k i u d) (finished k i) s0.
Proof.
  intros Hh E. unfold finalizeFailed. apply total_bind.
  eapply total_mono; [apply _ | by eapply finalizeFailedQuiet_total|]. intros out s _. apply emitting_total.
Qed.

(** *** The cost basis *)

Lemma total_catching {A} (p : prog Ledgers A) h Q s0 : totals p Q s0 -> totals (catching p h) Q s0.
Proof.
  intros H. apply wp_catching. eapply wp_mono; [apply _ | exact H|]. by intros [a|e].
Qed.

Lemma captureDepositBasis_total o (P : Ledgers -> Prop) s0 :
  (forall s s', P s -> swept s s' -> P s') -> P s0 -> totals (captureDepositBasis o) (fun _ => P) s0.
Proof.
  intros HP H0. unfold captureDepositBasis. destruct (op_lp o) as [c|]; [|done].
  destruct (negb _); [done|]. destruct (negb _); [done|]. apply wp_catching, wp_bind, wp_asking; [apply _|].
  intros s Hs V. destruct (effects_forTransaction _ _ _) as [effects|]; [|by cbn; eapply HP].
  destruct (deposited_effect c effects) as [[[shares a] b]|]; [|by cbn; eapply HP]. apply wp_bind, wp_stmt.
  intros s1 Hs1 V1. destruct (update_ops_swept Liquidity (op_id o)
    (fun o => basis_missing o && bool_decide (op_status o = S_SUCCEEDED)) (with_basis shares a b) s1 V1) as [V2 Hs2].
  { intros o' _ _. split; [by split_and!|]. by left. }
  split_and!; [done | done|]. assert (is_ok (snd (update_ops Liquidity (op_id o)
    (fun o => basis_missing o && bool_decide (op_status o = S_SUCCEEDED)) (with_basis shares a b) s1)) = true) as Hok.
  { unfold update_ops. destruct (table s1 Liquidity !! op_id o); [|done]. by destruct (_ && _). }
  destruct (snd _); [|done]. cbn. eapply HP; [|exact Hs2]. eapply HP; [|exact Hs1]. by eapply HP.
Qed.

Lemma service_finalizeSucceeded_total k i u d s0 o0 :
  here k i o0 s0 -> outcome n o0 = S_SUCCEEDED ->
  totals (service_finalizeSucceeded k i u d) (fun _ => resolved k i) s0.
Proof.
  intros Hh E. unfold service_finalizeSucceeded. apply total_bind.
  eapply total_mono; [apply _ | by eapply finalizeSucceeded_total|]. intros out s _ (Hr & Ei & Hne).
  apply total_bind. destruct k; [done|]. simpl. unfold withDepositBasis. destruct (negb _); [done|].
  apply total_bind. eapply total_mono;
    [apply _ | apply (captureDepositBasis_total _ (resolved Liquidity i)); [intros; by eapply resolved_swept | done] |].
  intros [] s1 _ Hr1. rewrite Ei. eapply total_mono; [apply _ | apply (total_find _ _ (resolved Liquidity i)) |].
  - intros. by eapply resolved_swept.
  - done.
  - apply resolved_row.
  - intros o s2 _ (? & _). done.
Qed.

(** *** The passes *)

Lemma outcome_of_settlement o st :
  transactionSettlement n (op_network o) (op_txHash o) = st ->
  outcome n o = match st with T_succeeded => S_SUCCEEDED | T_failed => S_FAILED | _ => S_EXPIRED end.
Proof. by intros <-. Qed.

Lemma group_total k l (worker : Operation -> prog Ledgers unit) s0 :
  (forall o s, o ∈ l -> swept s0 s -> totals (worker o) (fun _ => resolved k (op_id o)) s) ->
  totals (for_each l worker) (fun _ s => forall o, o ∈ l -> resolved k (op_id o) s) s0.
Proof.
  intros Hw. apply (total_for_each sweepable swept l worker (fun o => resolved k (op_id o)) s0);
    [intros; by eapply resolved_swept | reflexivity | exact Hw].
Qed.

Lemma finished_total k i (p : prog Ledgers SettlementOutcome) s0 :
  totals p (finished k i) s0 -> totals (discard p) (fun _ => resolved k i) s0.
Proof.
  intros H. apply total_discard. eapply total_mono; [apply _ | exact H|]. by intros out s _ (? & _).
Qed.

Lemma led_group_total k p others (first : prog Ledgers unit) (worker : Operation -> prog Ledgers unit) s0 :
  totals first (fun _ => resolved k (op_id p)) s0 ->
  (forall o s, o ∈ others -> swept s0 s -> totals (worker o) (fun _ => resolved k (op_id o)) s) ->
  totals (_ ← first; for_each others worker) (fun _ s => forall o, o ∈ p :: others -> resolved k (op_id o) s) s0.
Proof.
  intros Hf Hw. apply total_bind. eapply total_mono; [apply _ | exact Hf|]. intros u s1 Hs1 Hp.
  eapply total_mono; [apply _ | apply (group_total k others) |].
  - intros o s2 Ho Hs2. apply Hw; [done|]. by etransitivity.
  - intros u' s2 Hs2 Hothers o [->|Ho]%elem_of_cons; [exact (resolved_swept _ _ _ _ Hp Hs2) | by apply Hothers].
Qed.

Lemma reconcile_group_total k now d g network h s0 :
  t0 <= now -> one_transaction network h g ->
  (forall o, o ∈ g -> here k (op_id o) o s0 /\ decided n t0 o = true) ->
  totals (reconcile_group k now d g) (fun _ s => forall o, o ∈ g -> resolved k (op_id o) s) s0.
Proof.
  intros Hnow Hone Hg. destruct g as [|p others]; [intros o Ho; by apply not_elem_of_nil in Ho|].
  unfold reconcile_group. apply total_bind, total_asking; [apply _|]. intros s Hs V.
  rewrite (sw_horizon _ V).
  assert (forall o, o ∈ p :: others -> transactionSettlement n (op_network o) (op_txHash o)
    = transactionSettlement n (op_network p) (op_txHash p)) as Hsame.
  { intros o Ho. destruct (Hone o Ho) as [-> ->]. destruct (Hone p) as [-> ->]; [by left | done]. }
  assert (forall o s', o ∈ p :: others -> swept s s' -> here k (op_id o) o s') as Hhere.
  { intros o s' Ho Hs'. eapply here_swept; [by apply Hg | by etransitivity]. }
  destruct (transactionSettlement n (op_network p) (op_txHash p)) eqn:E.
  - apply led_group_total.
    + apply total_discard. eapply service_finalizeSucceeded_total; [apply Hhere; [by left | done]|].
      by rewrite (outcome_of_settlement p T_succeeded).
    + intros o s2 Ho Hs2. apply finished_total. eapply finalizeSucceededQuiet_total; [apply Hhere; [by right | done]|].
      rewrite (outcome_of_settlement o T_succeeded); [done|]. apply Hsame. by right.
  - apply led_group_total.
    + apply finished_total. eapply finalizeFailed_total; [apply Hhere; [by left | done]|].
      by rewrite (outcome_of_settlement p T_failed).
    + intros o s2 Ho Hs2. apply finished_total. eapply finalizeFailedQuiet_total; [apply Hhere; [by right | done]|].
      rewrite (outcome_of_settlement o T_failed); [done|]. apply Hsame. by right.
  - apply (group_total k (p :: others)). intros o s2 Ho Hs2.
    destruct (Hg o Ho) as [_ Hd]. unfold decided in Hd. rewrite (Hsame o Ho) in Hd.
    destruct (op_expiresAt o) as [e|]; [|done]. apply Z.ltb_lt in Hd.
    rewrite (proj2 (Z.ltb_lt e now)) by lia. apply finished_total.
    eapply finalizeExpired_total; [by apply Hhere|].
    by rewrite (outcome_of_settlement o T_absent) by by apply Hsame.
  - destruct (Hg p) as [_ Hd]; [by left|]. unfold decided in Hd. by rewrite E in Hd.
Qed.

(** *** Selection *)

Lemma op_older_spec a b :
  op_older a b = true <->
  op_createdAt a < op_createdAt b \/ (op_createdAt a = op_createdAt b /\ id_lt (op_id a) (op_id b) = true).
Proof. unfold op_older. rewrite orb_true_iff, andb_true_iff, Z.ltb_lt, Z.eqb_eq. done. Qed.

Lemma op_older_irrefl a : op_older a a = false.
Proof. unfold op_older. by rewrite Z.ltb_irrefl, id_lt_irrefl, andb_false_r. Qed.

Lemma op_older_trans a b c : op_older a b = true -> op_older b c = true -> op_older a c = true.
Proof.
  rewrite !op_older_spec. intros [H|[H H']] [E|[E E']]; try (left; lia).
  right. split; [lia|]. by eapply id_lt_trans.
Qed.

(** A batch of some rows is some rows. *)
Lemma dealt_some limit l :
  l <> [] -> (0 < limit)%nat -> exists o, o ∈ dealt op_older limit l.
Proof.
  intros Hl Hlim. destruct (minimal_exists op_older l op_older_irrefl op_older_trans Hl) as (m & Hm & Hmin).
  assert (deal_rank op_older l m = 1%nat) as Hr.
  { unfold deal_rank. f_equal. apply List.length_zero_iff_nil, elem_of_nil_inv. intros x Hx.
    apply list_elem_of_In, List.filter_In in Hx as [Hx Hb]. apply andb_true_iff in Hb as [_ Hb].
    rewrite Hmin in Hb; [done|]. by apply list_elem_of_In. }
  unfold dealt. set (cand := List.filter _ l).
  assert (m ∈ merge_sort (deal_le op_older l) cand) as Hin.
  { rewrite merge_sort_Permutation. apply list_elem_of_In, List.filter_In.
    split; [by apply list_elem_of_In|]. by rewrite Hr. }
  destruct (merge_sort _ cand) as [|x rest]; [by apply not_elem_of_nil in Hin|].
  exists x. destruct limit; [lia|]. by left.
Qed.

Lemma dealt_elem limit l o : o ∈ dealt op_older limit l -> o ∈ l.
Proof.
  intros H%elem_of_take. destruct H as (j & H%list_elem_of_lookup_2 & _).
  rewrite merge_sort_Permutation in H. apply list_elem_of_In, List.filter_In in H as [H _].
  by apply list_elem_of_In.
Qed.

Lemma byHash_covers rows o : o ∈ rows -> exists g, g ∈ byHash rows /\ o ∈ snd g.
Proof.
  unfold byHash. assert (forall x gs, exists g, g ∈ add_to_group x gs /\ x ∈ snd g) as Hin.
  { intros x. induction gs as [|[key g] gs (g' & H1 & H2)]; simpl.
    - eexists. split; [by left | by left].
    - case_bool_decide.
      + eexists. split; [by left|]. apply elem_of_app. right. by left.
      + exists g'. split; [by right | done]. }
  assert (forall x gs g y, g ∈ gs -> y ∈ snd g -> exists g', g' ∈ add_to_group x gs /\ y ∈ snd g') as Hkeep.
  { intros x. induction gs as [|[key g0] gs IH]; intros g y Hg Hy; [by apply not_elem_of_nil in Hg|]. simpl.
    apply elem_of_cons in Hg as [->|Hg].
    - case_bool_decide; eexists; (split; [by left|]); [apply elem_of_app; by left | done].
    - case_bool_decide; [exists g; split; [by right | done]|].
      destruct (IH g y Hg Hy) as (g' & H1 & H2). exists g'. split; [by right | done]. }
  assert (forall l gs, (exists g, g ∈ gs /\ o ∈ snd g) \/ o ∈ l ->
    exists g, g ∈ fold_left (fun groups x => add_to_group x groups) l gs /\ o ∈ snd g) as H.
  { induction l as [|x l IH]; intros gs; simpl; [by intros [?|?%not_elem_of_nil]|].
    intros [(g & Hg & Ho)|[->|Ho]%elem_of_cons]; apply IH; eauto. }
  intros Ho. apply H. by right.
Qed.

(** Some row in flight then is resolved now. *)
Definition progress (k : SettlementKind) (s0 s : Ledgers) : Prop :=
  forall i o, table s0 k !! i = Some o -> in_flight o = true ->
  exists j x, table s0 k !! j = Some x /\ in_flight x = true /\ resolved k j s.

Lemma progress_swept k s0 s s' : progress k s0 s -> swept s s' -> progress k s0 s'.
Proof.
  intros H Hs i o Hi E. destruct (H i o Hi E) as (j & x & Hj & Ex & Hr). exists j, x.
  split_and!; [done..|]. by eapply resolved_swept.
Qed.

(** A row met along the way was there before, and in flight if it is now. *)
Lemma in_flight_before k s0 s j x :
  swept s0 s -> table s k !! j = Some x -> in_flight x = true ->
  exists x0, table s0 k !! j = Some x0 /\ in_flight x0 = true.
Proof.
  intros Hs Hj E. destruct (table s0 k !! j) as [x0|] eqn:H0.
  - destruct (swept_rows _ _ Hs k j x0 H0) as (x1 & H1 & T). simplify_eq. exists x0. split; [done|].
    by apply (toward_in_flight x0 x T).
  - rewrite (swept_none _ _ Hs k j H0) in Hj. done.
Qed.

Lemma reconcile_rows_total k now d rows s0 :
  t0 <= now -> sweepable s0 ->
  (forall o, o ∈ rows -> table s0 k !! op_id o = Some o /\ in_flight o = true) ->
  totals (for_each (byHash rows) (fun group => reconcile_group k now d (snd group)))
    (fun _ s => forall o, o ∈ rows -> resolved k (op_id o) s) s0.
Proof.
  intros Hnow V Hrows. eapply total_mono; [apply _ |
    apply (total_for_each sweepable swept (byHash rows) _ (fun g s => forall o, o ∈ snd g -> resolved k (op_id o) s) s0) |].
  - intros g s s' H Hs o Ho. eapply resolved_swept; eauto.
  - reflexivity.
  - intros [key g] s Hg Hs. simpl. destruct g as [|p g]; [intros o Ho; by apply not_elem_of_nil in Ho|].
    apply (reconcile_group_total k now d (p :: g) (op_network p) (op_txHash p)); [done| |].
    + intros o Ho. destruct (group_members _ _ _ _ Hg Ho) as [Hor Eo].
      destruct (group_members rows key (p :: g) p Hg) as [Hpr Ep]; [by left|].
      destruct (Hrows o Hor) as [Ho' _], (Hrows p Hpr) as [Hp' _].
      apply same_transaction; [by apply (sw_rows _ V _ _ _ Hp') | by apply (sw_rows _ V _ _ _ Ho') | congruence].
    + intros o Ho. destruct (group_members _ _ _ _ Hg Ho) as [Hor _]. destruct (Hrows o Hor) as [Ho' Ef].
      split; [|by apply (sw_decided _ V k (op_id o))]. eapply here_swept; [|exact Hs].
      exists o. split; [done | apply same_terms_refl].
  - intros u s Hs H o Ho. destruct (byHash_covers rows o Ho) as (g & Hg & Hog). by apply (H g).
Qed.

Lemma elem_of_in_flight_rows k s o :
  sweepable s -> o ∈ List.filter in_flight (op_rows k s) ->
  table s k !! op_id o = Some o /\ in_flight o = true.
Proof.
  intros V [Ho E]%list_elem_of_In%List.filter_In.
  apply list_elem_of_In, elem_of_op_rows in Ho as (j & Hj). split; [|done].
  by destruct (sw_rows _ V k j o Hj) as (-> & _).
Qed.

Lemma reconcile_ops_total k batch now d s0 :
  t0 <= now -> (0 < batch)%nat -> totals (reconcile_ops k batch now d) (fun _ => progress k s0) s0.
Proof.
  intros Hnow Hb. unfold reconcile_ops, selectInFlight, select_dealt. apply total_bind, total_bind, total_asking; [apply _|].
  intros s Hs V. set (l := List.filter in_flight (op_rows k s)).
  destruct (op_id <$> dealt op_older batch l) as [|i ids] eqn:Ei.
  { cbn. intros j x Hj Ex. exists j, x. split_and!; [done..|].
    destruct (swept_rows _ _ Hs k j x Hj) as (x' & Hx' & T). exists x'. split; [done|].
    destruct (in_flight x') eqn:Ef; [|done]. exfalso.
    destruct (dealt_some batch l) as [o Ho]; [|done|].
    - intros El. assert (x' ∈ l) as Hin; [|rewrite El in Hin; by apply not_elem_of_nil in Hin].
      apply list_elem_of_In, List.filter_In. split; [|done]. apply list_elem_of_In, elem_of_op_rows. eauto.
    - apply fmap_nil_inv in Ei. rewrite Ei in Ho. by apply not_elem_of_nil in Ho. }
  apply total_asking; [apply _|]. intros s1 Hs1 V1.
  assert (exists x, x ∈ l /\ op_id x = i) as (x & Hx & Exi).
  { assert (i ∈ op_id <$> dealt op_older batch l) as H by (rewrite Ei; by left).
    apply list_elem_of_fmap in H as (x & -> & H). exists x. split; [by eapply dealt_elem | done]. }
  apply elem_of_in_flight_rows in Hx as [Hx Ex]; [|done]. rewrite Exi in Hx.
  eapply total_mono; [apply _ | apply reconcile_rows_total; [done | done|] |].
  - intros o. rewrite merge_sort_Permutation. intros [Ho E]%list_elem_of_In%List.filter_In.
    apply elem_of_in_flight_rows; [done|]. apply list_elem_of_In, List.filter_In. split; [done|].
    by apply andb_true_iff in E as [_ E].
  - intros u s2 Hs2 Hres j o Hj Ej.
    destruct (in_flight_before k s0 s i x) as (x0 & H0 & E0); [done..|].
    exists i, x0. split_and!; [done..|].
    destruct (swept_rows _ _ Hs1 k i x Hx) as (x1 & H1 & T1). destruct (in_flight x1) eqn:Ef.
    + destruct (sw_rows _ V1 k i x1 H1) as (<- & _). apply Hres. rewrite merge_sort_Permutation.
      apply list_elem_of_In, List.filter_In. split; [apply list_elem_of_In, elem_of_op_rows; eauto|].
      rewrite Ef, andb_true_r. apply bool_decide_eq_true. destruct T1 as [(E1 & _) _].
      apply elem_of_cons. left. congruence.
    + apply (resolved_swept k i s1 s2); [|done]. by exists x1.
Qed.

(** *** One sweep *)

Lemma heal_total k now d (P : Ledgers -> Prop) s0 :
  (forall s s', P s -> swept s s' -> P s') -> P s0 -> totals (heal k now d) (fun _ => P) s0.
Proof.
  intros HP H0. unfold heal. apply total_bind. unfold selectRecentlyFailed, select_dealt.
  apply total_bind, total_asking; [apply _|]. intros s Hs V.
  assert (forall rows s1, (forall o, o ∈ rows -> here k (op_id o) o s1) -> P s1 ->
    totals (for_each rows (fun o =>
      settlement ← asking (fun s => transactionSettlement (horizon s) (op_network o) (op_txHash o));
      match settlement with
      | T_succeeded => discard (service_finalizeSucceeded k (op_id o) (op_consumer o) (d (op_id o)))
      | _ => Ret tt
      end)) (fun _ => P) s1) as Hloop.
  { intros rows s1 Hh H1. apply (total_for_each_keep sweepable swept _ _ P s1); [reflexivity | done|].
    intros o s2 Ho Hs2 H2. apply total_bind, total_asking; [apply _|]. intros s3 Hs3 V3.
    rewrite (sw_horizon _ V3). destruct (transactionSettlement _ _ _) eqn:E; [|by eapply HP..].
    apply total_discard. eapply total_mono; [apply _ | eapply (service_finalizeSucceeded_total k (op_id o)) |].
    - eapply here_swept; [by apply Hh|]. by etransitivity.
    - by rewrite (outcome_of_settlement o T_succeeded).
    - intros out s4 Hs4 _. eapply HP; [|exact Hs4]. by eapply HP. }
  destruct (op_id <$> _) as [|i ids]; [apply Hloop; [by intros o ?%not_elem_of_nil | by eapply HP]|].
  apply total_asking; [apply _|]. intros s1 Hs1 V1. apply Hloop.
  - intros o. rewrite merge_sort_Permutation. intros [Ho _]%list_elem_of_In%List.filter_In.
    apply list_elem_of_In, elem_of_op_rows in Ho as (j & Hj).
    destruct (sw_rows _ V1 k j o Hj) as (-> & _). exists o. split; [done | apply same_terms_refl].
  - eapply HP; [|exact Hs1]. by eapply HP.
Qed.

Lemma backfill_total batch (P : Ledgers -> Prop) s0 :
  (forall s s', P s -> swept s s' -> P s') -> P s0 -> totals (backfillDepositBasis batch) (fun _ => P) s0.
Proof.
  intros HP H0. apply total_bind, total_asking; [apply _|]. intros s Hs V.
  apply (total_for_each_keep sweepable swept _ _ P s); [reflexivity | by eapply HP|].
  intros o s1 _ _ H1. by apply captureDepositBasis_total.
Qed.

Lemma progress_earlier k s0 s1 s : swept s0 s1 -> swept s1 s -> progress k s1 s -> progress k s0 s.
Proof.
  intros H01 H1 Hp i o Hi E. destruct (swept_rows _ _ H01 k i o Hi) as (o1 & Ho1 & T).
  destruct (in_flight o1) eqn:E1.
  - destruct (Hp i o1 Ho1 E1) as (j & x & Hj & Ex & Hr).
    destruct (in_flight_before k s0 s1 j x H01 Hj Ex) as (x0 & ? & ?). eauto.
  - exists i, o. split_and!; [done..|]. eapply resolved_swept; [|exact H1]. by exists o1.
Qed.

Lemma settlement_run_total batch now d s0 :
  t0 <= now -> (0 < batch)%nat ->
  totals (settlement_run batch now d) (fun _ s => forall k, progress k s0 s) s0.
Proof.
  intros Hnow Hb. unfold settlement_run. apply total_bind.
  assert (forall s s', (forall k, progress k s0 s) -> swept s s' -> forall k, progress k s0 s') as HP
    by (intros; by eapply progress_swept).
  eapply total_mono with (Q := fun _ s => forall k, progress k s0 s); [apply _ | |].
  - apply total_bind. eapply total_mono; [apply _ | by apply reconcile_ops_total|]. intros u s Hs H1.
    apply total_bind. eapply total_mono; [apply _ | by apply reconcile_ops_total|]. intros u' s' Hs' H2.
    intros [|]; [exact (progress_swept _ _ _ _ H1 Hs') | exact (progress_earlier _ _ _ _ Hs Hs' H2)].
  - intros u s Hs H. apply total_bind.
    eapply total_mono with (Q := fun _ s => forall k, progress k s0 s); [apply _ | |].
    + apply (total_for_each_keep sweepable swept _ _ _ s); [reflexivity | done|].
      intros k s1 _ _ H1. by apply heal_total.
    + intros u' s1 Hs1 H1. by apply backfill_total.
Qed.

(** *** Many sweeps *)

Definition flights (k : SettlementKind) (s : Ledgers) : gset string :=
  dom (base.filter (fun p => in_flight (snd p) = true) (table s k)).

Lemma elem_of_flights k s i :
  i ∈ flights k s <-> exists o, table s k !! i = Some o /\ in_flight o = true.
Proof.
  unfold flights. rewrite elem_of_dom. split.
  - intros [o H]. apply map_lookup_filter_Some in H as [H E]. by exists o.
  - intros (o & H & E). exists o. by apply map_lookup_filter_Some.
Qed.

Definition flying (s : Ledgers) : nat := (size (flights Swaps s) + size (flights Liquidity s))%nat.

Lemma flights_swept k s s' : swept s s' -> flights k s' ⊆ flights k s.
Proof.
  intros Hs i. rewrite !elem_of_flights. intros (o & H & E). by eapply in_flight_before.
Qed.

Lemma flights_progress k s s' :
  swept s s' -> progress k s s' -> flights k s <> ∅ -> (size (flights k s') < size (flights k s))%nat.
Proof.
  intros Hs Hp Hne. apply set_choose_L in Hne as [i Hi]. apply elem_of_flights in Hi as (o & Ho & E).
  destruct (Hp i o Ho E) as (j & x & Hj & Ex & (y & Hy & Ey)). apply subset_size. split; [by apply flights_swept|].
  intros Hsub. assert (j ∈ flights k s') as Hin by (apply Hsub, elem_of_flights; eauto).
  apply elem_of_flights in Hin as (z & Hz & Ez). congruence.
Qed.

Lemma flying_progress s s' :
  swept s s' -> (forall k, progress k s s') -> flying s = 0%nat \/ (flying s' < flying s)%nat.
Proof.
  intros Hs Hp. unfold flying.
  pose proof (subseteq_size _ _ (flights_swept Swaps s s' Hs)).
  pose proof (subseteq_size _ _ (flights_swept Liquidity s s' Hs)).
  destruct (decide (flights Swaps s = ∅)) as [E1|N1].
  - destruct (decide (flights Liquidity s = ∅)) as [E2|N2].
    + left. by rewrite E1, E2, size_empty.
    + right. pose proof (flights_progress Liquidity s s' Hs (Hp _) N2). lia.
  - right. pose proof (flights_progress Swaps s s' Hs (Hp _) N1). lia.
Qed.

Definition sweeps (batch : nat) (d : string -> Draw) (times : list Z) : list (prog Ledgers unit) :=
  (fun now => settlement_run batch now d) <$> times.

Lemma sweeps_swept batch d times s :
  (0 < batch)%nat -> Forall (fun now => t0 <= now) times -> sweepable s ->
  swept s (run_all (sweeps batch d times) s)
  /\ (flying (run_all (sweeps batch d times) s) <= flying s - length times)%nat.
Proof.
  intros Hb Ht. revert s. induction Ht as [|now times Hnow Ht IH]; intros s V; [split; [done|simpl; lia]|].
  change (run_all (sweeps batch d (now :: times)) s)
    with (run_all (sweeps batch d times) (fst (run (settlement_run batch now d) s))).
  rewrite length_cons.
  destruct (total_run sweepable swept _ _ s (settlement_run_total batch now d s Hnow Hb) V) as (u & _ & V' & Hs & Hp).
  destruct (IH _ V') as [Hs' Hf]. split; [by etransitivity|].
  destruct (flying_progress _ _ Hs Hp) as [E|L]; [|lia].
  pose proof (subseteq_size _ _ (flights_swept Swaps _ _ Hs)).
  pose proof (subseteq_size _ _ (flights_swept Liquidity _ _ Hs)). unfold flying in *. lia.
Qed.
End sweeps.

(** C11: liveness. While Horizon answers for every operation in flight (its
    transaction is on the ledger, or absent past its expiry), as many sweeps as
    there are operations in flight, whatever the batch, settle every one as
    Horizon says: SUCCEEDED, FAILED or EXPIRED. Rows not in flight stay, except
    that a FAILED or EXPIRED one whose transaction succeeded may become SUCCEEDED. *)
Theorem sweeps_settle_everything (n : HorizonNode) (t0 : Z) (batch : nat) (d : string -> Draw)
    (times : list Z) (s : Ledgers) :
  (0 < batch)%nat -> sweepable n t0 s -> Forall (fun now => t0 <= now) times ->
  (flying s <= length times)%nat ->
  forall k i o, table s k !! i = Some o ->
  exists o', table (run_all (sweeps batch d times) s) k !! i = Some o' /\ same_terms o o'
  /\ (in_flight o = true -> op_status o' = outcome n o)
  /\ (in_flight o = false -> op_status o' = op_status o
       \/ (op_status o' = S_SUCCEEDED /\ outcome n o = S_SUCCEEDED)).
Proof.
  intros Hb V Ht Hf k i o Ho. destruct (sweeps_swept n t0 batch d times s Hb Ht V) as [Hs Hleft].
  set (s' := run_all _ s) in *. destruct (swept_rows _ _ _ Hs k i o Ho) as (o' & Ho' & [T W]).
  exists o'. split_and!; [done | done | |].
  - intros Ef. destruct W as [E|[E _]]; [|done]. exfalso.
    assert (i ∈ flights k s') as Hin.
    { apply elem_of_flights. exists o'. split; [done|]. by rewrite (in_flight_same o o'). }
    assert (size (flights k s') <> 0%nat) by (intros E0%size_empty_inv; set_solver).
    unfold flying in Hleft, Hf. destruct k; lia.
  - intros Ef. destruct W as [E|[E [W|W]]]; [by left | congruence|]. right. by rewrite E, W.
Qed.

(** ** Witness: a swap that lapsed and a deposit that landed, one row a sweep *)

Lemma sweeps_settle_everything_witness :
  flying sample_opening = 2%nat
  /\ exists o o', table (run_all (sweeps 1 (fun _ => d_terminal sample_draws) [950000; 990000]) sample_opening)
       Swaps !! "sw1"%string = Some o
  /\ op_status o = S_EXPIRED
  /\ table (run_all (sweeps 1 (fun _ => d_terminal sample_draws) [950000; 990000]) sample_opening)
       Liquidity !! "lp1"%string = Some o'
  /\ op_status o' = S_SUCCEEDED.
Proof.
  assert (flying sample_opening = 2%nat) as Hf by (vm_compute; reflexivity). split; [exact Hf|].
  assert (sweepable (sample_horizon false) 910000 sample_opening) as V.
  { split; [reflexivity| |]; intros [|] i o H; unfold sample_opening in H; cbn [table] in H;
      apply lookup_singleton_Some in H as [<- <-]; [by split_and! .. | |]; intros _; vm_compute; reflexivity. }
  pose proof (sweeps_settle_everything (sample_horizon false) 910000 1 (fun _ => d_terminal sample_draws)
    [950000; 990000] sample_opening ltac:(lia) V ltac:(repeat constructor; lia)
    ltac:(rewrite Hf; simpl; lia)) as H.
  destruct (H Swaps "sw1"%string sample_swap ltac:(vm_compute; reflexivity)) as (o & Ho & _ & E & _).
  destruct (H Liquidity "lp1"%string (with_status S_PENDING sample_deposit) ltac:(vm_compute; reflexivity))
    as (o' & Ho' & _ & E' & _).
  exists o, o'. split; [exact Ho|]. split; [by rewrite E|]. split; [exact Ho'|]. by rewrite E'.
Defined.
