(* ===== verification/SorobanEnvelope.v ===== *)
(** The rules every Soroban envelope a provider builds is held to, and the rules
    a signed copy is held to on its way back
    (src/src/stellar/soroban-envelope.ts). Parsing, addresses and XDR belong to
    stellar-sdk: they are the operations of the class [StellarSdk], with its
    documented behaviour in [SdkLaws]. *)

From S2P Require Import Prelude Text.
From stdpp Require Import base tactics list option gmap strings.
From Stdlib Require Import ZArith Lia.

Open Scope Z_scope.

(** ** Refusals

    A check answers what it read, or the reason it refuses. *)
Inductive check (A : Type) :=
  | Accepted (a : A)
  | Refused (reason : string).
Arguments Accepted {A} a.
Arguments Refused {A} reason.

#[export] Instance check_ret : MRet check := @Accepted.
#[export] Instance check_bind : MBind check := fun A B f m =>
  match m with Accepted a => f a | Refused r => Refused r end.

#[export] Instance check_fmap : FMap check := fun A B f m =>
  match m with Accepted a => Accepted (f a) | Refused r => Refused r end.

(** [if (cond) return refuse(reason)] *)
Definition refuse_if (cond : bool) (reason : string) : check unit :=
  if cond then Refused reason else Accepted tt.

(** A helper that returns a reason or null, then [if (r) return refuse(r)]. *)
Definition refuse_with (r : option string) : check unit :=
  match r with Some reason => Refused reason | None => Accepted tt end.

(** [if (!v) return refuse(reason)] *)
Definition need {A} (o : option A) (reason : string) : check A :=
  match o with Some a => Accepted a | None => Refused reason end.

(** Why a check refuses, null when it accepts. *)
Definition refusal {A} (c : check A) : option string :=
  match c with Accepted _ => None | Refused r => Some r end.

(** ** Contract values and envelopes, as stellar-sdk hands them over

    [ScVal] with the tags the checks read; [ScvOther] is any other, by its XDR.
    An address is its XDR, a string its raw bytes. *)
Inductive ScVal :=
  | ScvBool (b : bool)
  | ScvU32 (n : Z)
  | ScvI128 (n : Z)
  | ScvBytes (b : string)
  | ScvString (raw : string)
  | ScvSymbol (sym : string)
  | ScvVec (vec : option (list ScVal))
  | ScvMap (map : option (list (ScVal * ScVal)))
  | ScvAddress (address : string)
  | ScvOther (xdr : string).

(** What [scValToNative] makes of a value: the JavaScript types told apart. *)
Inductive native :=
  | NativeString (s : string)
  | NativeBigint (n : Z)
  | NativeNumber (n : Z)
  | NativeBoolean (b : bool)
  | NativeBytes (b : string)
  | NativeOther.

(** [InvokeContractArgs] as plain data; a field may be missing. *)
Record InvokeArgs := mkInvokeArgs {
  contractAddress : option string;
  functionName : string;
  ic_args : option (list ScVal)
}.

Record ContractCall := mkCall {
  c_contract : string;
  c_function : string;
  c_args : list ScVal
}.

Record AuthorizedFunction := mkAuthFunction {
  af_type : option string;
  contractFn : option InvokeArgs
}.

Inductive AuthorizedInvocation :=
  | mkInvocation (function_ : option AuthorizedFunction)
      (subInvocations_ : option (list AuthorizedInvocation)).

Definition function (i : AuthorizedInvocation) : option AuthorizedFunction :=
  match i with mkInvocation f _ => f end.
Definition subInvocations (i : AuthorizedInvocation) : option (list AuthorizedInvocation) :=
  match i with mkInvocation _ s => s end.

Record Credentials := mkCredentials {
  cr_type : option string;
  cr_address : option string
}.

Record AuthorizationEntry := mkAuthEntry {
  credentials : option Credentials;
  rootInvocation : option AuthorizedInvocation
}.

Record Operation := mkOperation {
  op_source : option string;
  op_type : string;
  invokeContract : option InvokeArgs;
  op_auth : option (list AuthorizationEntry)
}.

(** The parts of a v1 envelope's transaction: its preconditions' kind, and the
    resource fee of its Soroban data. *)
Record EnvelopeBody := mkBody {
  cond_type : string;
  sorobanData : option Z
}.

Record TimeBounds := mkTimeBounds { minTime : Z; maxTime : Z }.

(** A parsed transaction. Times and fees are integers of at most 64 bits; the
    source reads the times as doubles, whose rounding above 2^53 stays on the
    refused side of every bound below. *)
Record Transaction := mkTransaction {
  tx_source : string;
  memo_type : string;
  tx_body : option EnvelopeBody;
  timeBounds : option TimeBounds;
  tx_fee : Z;
  operations : list Operation;
  signatures : list string;
  tx_hash : string
}.

Inductive ParsedEnvelope :=
  | PlainTransaction (tx : Transaction)
  | FeeBump.

(** ** The SDK *)

Class StellarSdk := mkSdk {
  fromXDR : string -> string -> option ParsedEnvelope;
  addressText : string -> option string;
  scValToNative : ScVal -> option native;
  toXDR : ScVal -> string;
  sha256 : string -> string;
  contractIdPreimage : string -> string -> string -> string;
  encodeContract : string -> string
}.

(** What the SDK documents: a value's native form by its tag, and no empty
    address. *)
Class SdkLaws `{SDK : StellarSdk} := {
  native_bool b : scValToNative (ScvBool b) = Some (NativeBoolean b);
  native_u32 n : scValToNative (ScvU32 n) = Some (NativeNumber n);
  native_i128 n : scValToNative (ScvI128 n) = Some (NativeBigint n);
  native_bytes b : scValToNative (ScvBytes b) = Some (NativeBytes b);
  native_address a : scValToNative (ScvAddress a) = NativeString <$> addressText a;
  address_not_empty a : addressText a <> Some ""%string;
  toXDR_inj v w : toXDR v = toXDR w -> v = w
}.

(** ** The checks *)

Record BuiltEnvelopeLimits := mkLimits {
  maxFeeStroops : Z;
  maxValidityMs : Z;
  clockSkewMs : Z;
  limits_now : Z
}.

Record SingleContractCall := mkSingle {
  sc_tx : Transaction;
  sc_call : ContractCall;
  sc_auth : list AuthorizationEntry
}.

Definition timeBoundsRefusal (tx : Transaction) (limits : BuiltEnvelopeLimits) : option string :=
  let now := limits_now limits in
  let max := default 0 (maxTime <$> timeBounds tx) * 1000 in
  let min := default 0 (minTime <$> timeBounds tx) * 1000 in
  if max <=? 0 then Some "it has no upper time bound"%string
  else if max <=? now then Some "its time bounds already closed"%string
  else if now + maxValidityMs limits + clockSkewMs limits <? max
  then Some "its time bounds stay open too long"%string
  else if now + clockSkewMs limits <? min then Some "it is not valid yet"%string
  else None.

Section sdk.
Context `{SDK : StellarSdk}.

Definition scAddressText (address : string) : option string := addressText address.

Definition contractCallOf (value : option InvokeArgs) : option ContractCall :=
  call ← value;
  a ← contractAddress call;
  args ← ic_args call;
  contract ← scAddressText a;
  if bool_decide (contract = ""%string) then None
  else Some (mkCall contract (functionName call) args).

Definition scNative (value : ScVal) : option native := scValToNative value.

Definition addressOf (value : ScVal) : option string :=
  match value with
  | ScvAddress _ =>
      match scNative value with Some (NativeString s) => Some s | _ => None end
  | _ => None
  end.

Definition sameXdr (a b : list ScVal) : bool :=
  bool_decide (length a = length b)
  && forallb (fun p => bool_decide (toXDR (fst p) = toXDR (snd p))) (combine a b).

Definition checkSingleContractCall (envelope passphrase source : string)
    (limits : BuiltEnvelopeLimits) : check SingleContractCall :=
  parsed ← need (fromXDR envelope passphrase) "it is not a transaction envelope";
  match parsed with
  | FeeBump => Refused "it is a fee bump"
  | PlainTransaction tx =>
      body ← need (tx_body tx) "it is not a v1 transaction envelope";
      _ ← refuse_if (negb (bool_decide (tx_source tx = source))) "its source is not the caller";
      _ ← refuse_if (negb (bool_decide (memo_type tx = "none"%string))) "it carries a memo";
      _ ← refuse_if (negb (bool_decide (cond_type body = "precondTime"%string)))
            "it carries preconditions beyond time bounds";
      _ ← refuse_with (timeBoundsRefusal tx limits);
      resourceFee ← need (sorobanData body) "it carries no Soroban resources";
      let fee := tx_fee tx in
      _ ← refuse_if (maxFeeStroops limits <? fee)
            ("its fee " +:+ toString fee +:+ " exceeds " +:+ toString (maxFeeStroops limits)
               +:+ " stroops");
      _ ← refuse_if ((resourceFee <? 0) || (fee <? resourceFee))
            ("its resource fee " +:+ toString resourceFee +:+ " is not within its fee");
      match operations tx with
      | [op] =>
          _ ← refuse_if (match op_source op with
                         | Some s => negb (bool_decide (s = source)) | None => false end)
                "its operation has another source";
          _ ← refuse_if (negb (bool_decide (op_type op = "invokeHostFunction"%string)))
                "its operation is not a contract call";
          call ← need (contractCallOf (invokeContract op)) "its operation is not a contract call";
          mret (mkSingle tx call (default [] (op_auth op)))
      | _ => Refused "it does not make exactly one operation"
      end
  end.

Definition rootAuthorizationRefusal (entries : list AuthorizationEntry) (signer : string)
    (call : ContractCall) : option string :=
  match entries with
  | [entry] =>
      refusal (
        _ ← (match credentials entry with
             | Some c =>
                 if bool_decide (cr_type c = Some "sorobanCredentialsAddress"%string) then
                   refuse_if (negb (bool_decide (cr_address c ≫= scAddressText = Some signer)))
                     "its authorization is for another address"
                 else
                   refuse_if
                     (negb (bool_decide (cr_type c = Some "sorobanCredentialsSourceAccount"%string)))
                     "its authorization has unknown credentials"
             | None => Refused "its authorization has unknown credentials"
             end);
        let f := rootInvocation entry ≫= function in
        refuse_if
          (match contractCallOf (f ≫= contractFn) with
           | Some rootCall =>
               negb (bool_decide (f ≫= af_type = Some "sorobanAuthorizedFunctionTypeContractFn"%string))
               || negb (bool_decide (c_contract rootCall = c_contract call))
               || negb (bool_decide (c_function rootCall = c_function call))
               || negb (sameXdr (c_args rootCall) (c_args call))
           | None => true
           end)
          "its authorization is not for the requested call")
  | _ =>
      Some ("it carries " +:+ toString (Z.of_nat (length entries))
              +:+ " authorization entries, not one")%string
  end.

Definition rootSubInvocations (entries : list AuthorizationEntry) : list AuthorizedInvocation :=
  default [] (e ← head entries; r ← rootInvocation e; subInvocations r).

Definition signedEnvelope (envelope passphrase : string) : res Transaction :=
  match fromXDR envelope passphrase with
  | None => Throw (badRequest ValidationFailed)
  | Some FeeBump => Throw (badRequest ValidationFailed)
  | Some (PlainTransaction tx) =>
      match signatures tx with
      | [] => Throw (badRequest ValidationFailed)
      | _ => Ok tx
      end
  end.
End sdk.

Definition transactionHash (tx : Transaction) : string := tx_hash tx.

Definition submittableUntil (tx : Transaction) (builtAt ttlMs : Z) : Z :=
  let cap := builtAt + ttlMs in
  let max := default 0 (maxTime <$> timeBounds tx) * 1000 in
  if 0 <? max then Z.min max cap else cap.

(** ** What the checks mean *)

Lemma refuse_if_bind {A} c r (k : unit -> check A) a :
  (refuse_if c r ≫= k) = Accepted a <-> c = false /\ k tt = Accepted a.
Proof. destruct c; simpl; split; [done | by intros [] | by intros H | by intros [_ H]]. Qed.

Lemma refuse_with_bind {A} o (k : unit -> check A) a :
  (refuse_with o ≫= k) = Accepted a <-> o = None /\ k tt = Accepted a.
Proof. destruct o; simpl; split; [done | by intros [] | by intros H | by intros [_ H]]. Qed.

Lemma need_bind {A B} (o : option A) r (k : A -> check B) b :
  (need o r ≫= k) = Accepted b <-> exists x, o = Some x /\ k x = Accepted b.
Proof. destruct o; simpl; split; [eauto | by intros (? & [= ->] & ?) | done | by intros (? & ? & ?)]. Qed.

Lemma refusal_None {A} (c : check A) : refusal c = None <-> exists a, c = Accepted a.
Proof. destruct c; simpl; split; [eauto | done | done | by intros (? & ?)]. Qed.

Lemma refuse_if_Accepted c r u : refuse_if c r = Accepted u <-> c = false.
Proof. destruct c, u; simpl; done. Qed.

Create Rewrite HintDb checks.
#[export] Hint Rewrite @refuse_if_bind @refuse_with_bind @need_bind @refuse_if_Accepted : checks.
#[export] Hint Rewrite negb_false_iff bool_decide_eq_true orb_false_iff Z.ltb_ge Z.leb_gt : checks.

(** The window an envelope's time bounds must fall in. *)
Definition window_open (tx : Transaction) (limits : BuiltEnvelopeLimits) : Prop :=
  exists tb, timeBounds tx = Some tb
    /\ 0 < maxTime tb
    /\ limits_now limits < maxTime tb * 1000 <= limits_now limits + maxValidityMs limits + clockSkewMs limits
    /\ minTime tb * 1000 <= limits_now limits + clockSkewMs limits.

Lemma timeBoundsRefusal_None tx limits :
  timeBoundsRefusal tx limits = None <-> window_open tx limits.
Proof.
  unfold timeBoundsRefusal, window_open. destruct (timeBounds tx) as [tb|]; simpl.
  - repeat (case_match; bool_facts); split; try done; try (intros (? & [= <-] & ?); lia).
    intros _. exists tb. split; [done|lia].
  - split; [done | by intros (? & ? & ?)].
Qed.

Section meaning.
Context `{SDK : StellarSdk}.

(** A value that names an address, as text. *)
Definition names_call (v : option InvokeArgs) (c : ContractCall) : Prop :=
  exists a, v = Some (mkInvokeArgs (Some a) (c_function c) (Some (c_args c)))
    /\ addressText a = Some (c_contract c) /\ c_contract c <> ""%string.

Lemma contractCallOf_Some v c : contractCallOf v = Some c <-> names_call v c.
Proof.
  unfold contractCallOf, names_call, scAddressText. split.
  - intros H. destruct v as [[[a|] f [l|]]|]; simpl in H; try done.
    destruct (addressText a) as [t|] eqn:E; simpl in H; [|done].
    case_bool_decide; [done|]. simplify_eq/=. eauto.
  - intros (a & -> & H & Hne). simpl. rewrite H. simpl. rewrite bool_decide_eq_false_2 by done. by destruct c.
Qed.

Lemma sameXdr_eq `{LAWS : !SdkLaws} a b : sameXdr a b = true <-> a = b.
Proof.
  unfold sameXdr. split.
  - intros [Hl Hf]%andb_true_iff. apply bool_decide_eq_true in Hl. revert b Hl Hf.
    induction a as [|x a IH]; intros [|y b] Hl Hf; simplify_eq/=; [done|].
    apply andb_true_iff in Hf as [Hx Hf]. apply bool_decide_eq_true, toXDR_inj in Hx.
    f_equal; [done | by apply IH; [lia|]].
  - intros <-. rewrite bool_decide_eq_true_2 by done. simpl.
    induction a as [|x a IH]; simpl; [done|]. by rewrite bool_decide_eq_true_2.
Qed.

(** An envelope that is one contract call of [source], within the limits, and
    nothing else. *)
Definition one_call (envelope passphrase source : string) (limits : BuiltEnvelopeLimits)
    (s : SingleContractCall) : Prop :=
  exists body resourceFee op,
    fromXDR envelope passphrase = Some (PlainTransaction (sc_tx s))
    /\ tx_body (sc_tx s) = Some body
    /\ tx_source (sc_tx s) = source
    /\ memo_type (sc_tx s) = "none"%string
    /\ cond_type body = "precondTime"%string
    /\ window_open (sc_tx s) limits
    /\ sorobanData body = Some resourceFee
    /\ 0 <= resourceFee <= tx_fee (sc_tx s)
    /\ tx_fee (sc_tx s) <= maxFeeStroops limits
    /\ operations (sc_tx s) = [op]
    /\ (op_source op = None \/ op_source op = Some source)
    /\ op_type op = "invokeHostFunction"%string
    /\ names_call (invokeContract op) (sc_call s)
    /\ sc_auth s = default [] (op_auth op).

Lemma checkSingleContractCall_exact envelope passphrase source limits s :
  checkSingleContractCall envelope passphrase source limits = Accepted s
  <-> one_call envelope passphrase source limits s.
Proof.
  unfold checkSingleContractCall, one_call. rewrite need_bind. split.
  - intros (parsed & Hp & H). destruct parsed as [tx|]; [|done].
    autorewrite with checks in H. destruct H as (body & Hb & H). autorewrite with checks in H.
    destruct H as (Hs & Hm & Hc & Ht & rf & Hrf & H). autorewrite with checks in H.
    destruct H as (Hfee & [Hr0 Hr1] & H). destruct (operations tx) as [|op [|]] eqn:Eo; try done.
    autorewrite with checks in H. destruct H as (Hop & Hty & c & Hcall & [= <-]). simpl.
    exists body, rf, op. rewrite <- timeBoundsRefusal_None, <- contractCallOf_Some.
    split_and!; try done. destruct (op_source op) as [x|]; [right; f_equal | by left].
    by autorewrite with checks in Hop.
  - intros (body & rf & op & Hp & Hb & Hs & Hm & Hc & Ht & Hrf & Hr & Hmax & Ho & Hop & Hty & Hcall & Hau).
    destruct s as [tx call auth]; simpl in *. exists (PlainTransaction tx). split; [done|].
    autorewrite with checks. exists body. autorewrite with checks.
    rewrite timeBoundsRefusal_None. split_and!; try done. exists rf. autorewrite with checks.
    split_and!; try done; try lia. rewrite Ho. autorewrite with checks.
    split_and!; [destruct Hop as [->| ->]; by autorewrite with checks | done |].
    exists call. rewrite contractCallOf_Some. by rewrite Hau.
Qed.

(** The one authorization entry of [signer], rooted at exactly [call]; [subs]
    is what it covers under the root. *)
Definition authorizes (signer : string) (call : ContractCall) (entries : list AuthorizationEntry)
    (subs : list AuthorizedInvocation) : Prop :=
  exists cr root v,
    entries = [mkAuthEntry (Some cr) (Some root)]
    /\ (cr_type cr = Some "sorobanCredentialsSourceAccount"%string
        \/ cr_type cr = Some "sorobanCredentialsAddress"%string
           /\ exists a, cr_address cr = Some a /\ addressText a = Some signer)
    /\ function root = Some (mkAuthFunction (Some "sorobanAuthorizedFunctionTypeContractFn"%string) v)
    /\ names_call v call
    /\ subs = default [] (subInvocations root).

Lemma rootAuthorization_exact `{LAWS : !SdkLaws} entries signer call subs :
  rootAuthorizationRefusal entries signer call = None /\ rootSubInvocations entries = subs
  <-> authorizes signer call entries subs.
Proof.
  unfold rootAuthorizationRefusal, rootSubInvocations, authorizes, scAddressText. split.
  - intros [H <-]. destruct entries as [|[[cr|] root] [|]]; try done. simpl in H.
    apply refusal_None in H as [u H].
    destruct root as [root|];
      [|destruct (if bool_decide _ then _ else _) as [?|?]; simpl in H; done].
    simpl in H. destruct (function root) as [[ty v]|] eqn:Ef;
      [|destruct (if bool_decide (cr_type cr = _) then _ else _) as [?|?]; simpl in H; done].
    simpl in H. exists cr, root, v. simpl.
    destruct (contractCallOf v) as [rc|] eqn:Ec;
      [|destruct (if bool_decide (cr_type cr = _) then _ else _) as [?|?]; simpl in H; done].
    assert (Hc : (cr_type cr = Some "sorobanCredentialsSourceAccount"%string
        \/ cr_type cr = Some "sorobanCredentialsAddress"%string
           /\ exists a, cr_address cr = Some a /\ addressText a = Some signer)
       /\ ty = Some "sorobanAuthorizedFunctionTypeContractFn"%string /\ rc = call).
    { destruct (decide (cr_type cr = Some "sorobanCredentialsAddress"%string)) as [E|E];
        [rewrite (bool_decide_eq_true_2 _ E) in H | rewrite (bool_decide_eq_false_2 _ E) in H].
      - autorewrite with checks in H. destruct H as (Ha & [[[Ht H1] H2] H3]).
        apply sameXdr_eq in H3. apply bind_Some in Ha as (a & ? & ?).
        split_and!; [by right; eauto | done | by destruct rc, call; simplify_eq/=].
      - autorewrite with checks in H. destruct H as (Ha & [[[Ht H1] H2] H3]).
        apply sameXdr_eq in H3.
        split_and!; [by left | done | by destruct rc, call; simplify_eq/=]. }
    destruct Hc as (? & -> & <-). apply contractCallOf_Some in Ec. by split_and!.
  - intros (cr & root & v & -> & Hcr & Hf & Hc & ->). simpl. split; [|done].
    rewrite Hf. simpl. apply contractCallOf_Some in Hc. rewrite Hc. apply refusal_None. exists tt.
    assert (Hs : sameXdr (c_args call) (c_args call) = true) by by apply sameXdr_eq.
    destruct Hcr as [E|(E & a & -> & Ha)].
    + rewrite (bool_decide_eq_false_2 (cr_type cr = Some "sorobanCredentialsAddress"%string)) by (rewrite E; done).
      autorewrite with checks. split_and!; try done.
    + rewrite (bool_decide_eq_true_2 _ E).
      autorewrite with checks. split_and!; try done.
Qed.
End meaning.
