(* ===== verification/EscrowEnvelope.v ===== *)
(** The rules an envelope Trustless Work built is held to before it is recorded
    for a submit or signed with one of the server's own keys
    (src/src/native-plugins/trustless-work/trustless-work-envelope.ts): the
    decoder of the contract's structs, the per-action argument checks and
    the whole check. EscrowCalls says what they mean. *)

From S2P Require Import Prelude Text SorobanEnvelope.
From stdpp Require Import base tactics list option gmap strings.
From Stdlib Require Import ZArith Lia.

Open Scope Z_scope.

(** ** What a build is asked for *)

Record ContractRoles := mkRoles {
  approver : string;
  serviceProvider : string;
  platform : string;
  releaseSigner : string;
  disputeResolver : string;
  receiver : string
}.

#[export] Instance ContractRoles_eq_dec : EqDecision ContractRoles.
Proof. solve_decision. Defined.

Record ExpectedContract := mkExpected {
  ex_engagementId : string;
  ex_title : string;
  ex_description : string;
  ex_roles : ContractRoles;
  ex_amount : Z;
  ex_platformFeeBps : Z;
  ex_milestoneDescription : string;
  ex_token : string
}.

Record Distribution := mkDistribution { d_address : string; d_amount : Z }.

Inductive ExpectedTrustlessWorkCall :=
  | Deploy (signer : string) (contract : ExpectedContract) (pinDeployer pinWasm : string)
  | Fund (signer contractId : string) (contract : ExpectedContract) (amount : Z)
  | Ship (signer contractId : string) (milestoneIndex : Z) (status evidence : string)
  | Approve (signer contractId : string) (milestoneIndex : Z)
  | Release (signer contractId : string)
  | Dispute (signer contractId : string)
  | Resolve (signer contractId : string) (distributions : list Distribution)
      (buyer merchant : string) (balance : Z).

Definition call_signer (e : ExpectedTrustlessWorkCall) : string :=
  match e with
  | Deploy s _ _ _ | Fund s _ _ _ | Ship s _ _ _ _ | Approve s _ _ | Release s _
  | Dispute s _ | Resolve s _ _ _ _ _ => s
  end.

Inductive ProtectedPaymentAction :=
  | DEPLOY | FUND | SHIP | APPROVE | RELEASE | DISPUTE | RESOLVE.

#[export] Instance ProtectedPaymentAction_eq_dec : EqDecision ProtectedPaymentAction.
Proof. solve_decision. Defined.

Definition call_action (e : ExpectedTrustlessWorkCall) : ProtectedPaymentAction :=
  match e with
  | Deploy _ _ _ _ => DEPLOY | Fund _ _ _ _ => FUND | Ship _ _ _ _ _ => SHIP
  | Approve _ _ _ => APPROVE | Release _ _ => RELEASE | Dispute _ _ => DISPUTE
  | Resolve _ _ _ _ _ _ => RESOLVE
  end.

Definition TRUSTLESS_WORK_DEPLOY_FN : string := "tw_new_single_release_escrow".
Definition TRUSTLESS_WORK_INIT_FN : string := "initialize_escrow".
Definition TRUSTLESS_WORK_MAX_STATUS_LENGTH : nat := 32.

Definition ACTION_FUNCTIONS (a : ProtectedPaymentAction) : string :=
  match a with
  | DEPLOY => TRUSTLESS_WORK_DEPLOY_FN
  | FUND => "fund_escrow"
  | SHIP => "change_milestone_status"
  | APPROVE => "approve_milestone"
  | RELEASE => "release_funds"
  | DISPUTE => "dispute_escrow"
  | RESOLVE => "resolve_dispute"
  end.

Record DeployFacts := mkDeployFacts {
  df_deployer : string;
  df_wasmHash : string;
  df_contractId : string
}.

Record TrustlessWorkEnvelope := mkChecked {
  ck_tx : Transaction;
  ck_deploy : option DeployFacts
}.

(** ** Decoding *)

Record DecodedMilestone := mkMilestone {
  m_description : string;
  m_status : string;
  m_evidence : string;
  m_approved : bool
}.

Record DecodedContract := mkDecoded {
  engagementId : string;
  title : string;
  description : string;
  roles : ContractRoles;
  dc_amount : Z;
  platformFeeBps : Z;
  milestones : list DecodedMilestone;
  disputed : bool;
  released : bool;
  resolved : bool;
  token : string;
  receiverMemo : Z
}.

Definition CONTRACT_FIELDS : list string :=
  ["amount"; "description"; "engagement_id"; "flags"; "milestones"; "platform_fee";
   "receiver_memo"; "roles"; "title"; "trustline"]%string.
Definition ROLE_FIELDS : list string :=
  ["approver"; "dispute_resolver"; "platform"; "receiver"; "release_signer";
   "service_provider"]%string.
Definition MILESTONE_FIELDS : list string := ["approved"; "description"; "evidence"; "status"]%string.
Definition FLAG_FIELDS : list string := ["disputed"; "released"; "resolved"]%string.

(** The entries of an [ScMap] keyed by distinct symbols. *)
Fixpoint symbol_map (entries : list (ScVal * ScVal)) (out : gmap string ScVal)
    : option (gmap string ScVal) :=
  match entries with
  | [] => Some out
  | (ScvSymbol key, val) :: entries =>
      match out !! key with
      | Some _ => None
      | None => symbol_map entries (<[key := val]> out)
      end
  | _ => None
  end.

Definition structOf (value : ScVal) (fields : list string) : option (gmap string ScVal) :=
  match value with
  | ScvMap (Some entries) =>
      out ← symbol_map entries ∅;
      if negb (bool_decide (size out = length fields))
         || existsb (fun f => negb (bool_decide (is_Some (out !! f)))) fields
      then None else Some out
  | _ => None
  end.

Definition vecOf (value : ScVal) : option (list ScVal) :=
  match value with ScvVec (Some items) => Some items | _ => None end.

Section decode.
Context `{SDK : StellarSdk}.

Definition text (value : ScVal) : option string :=
  match value with
  | ScvString _ => match scNative value with Some (NativeString s) => Some s | _ => None end
  | _ => None
  end.

Definition i128 (value : ScVal) : option Z :=
  match value with
  | ScvI128 _ => match scNative value with Some (NativeBigint n) => Some n | _ => None end
  | _ => None
  end.

Definition u32 (value : ScVal) : option Z :=
  match value with
  | ScvU32 _ => match scNative value with Some (NativeNumber n) => Some n | _ => None end
  | _ => None
  end.

Definition bool_of (value : ScVal) : option bool :=
  match value with
  | ScvBool _ => match scNative value with Some (NativeBoolean b) => Some b | _ => None end
  | _ => None
  end.

Definition bytes32 (value : ScVal) : option string :=
  match value with
  | ScvBytes _ =>
      match scNative value with
      | Some (NativeBytes b) => if bool_decide (String.length b = 32%nat) then Some b else None
      | _ => None
      end
  | _ => None
  end.

(** A role's address; the empty text counts as none. *)
Definition role_of (m : gmap string ScVal) (field : string) : option string :=
  a ← m !! field ≫= addressOf;
  if bool_decide (a = ""%string) then None else Some a.

Definition decode_milestone (item : ScVal) : option DecodedMilestone :=
  m ← structOf item MILESTONE_FIELDS;
  description ← m !! "description" ≫= text;
  status ← m !! "status" ≫= text;
  evidence ← m !! "evidence" ≫= text;
  approved ← m !! "approved" ≫= bool_of;
  Some (mkMilestone description status evidence approved).

Definition decode_roles (m : gmap string ScVal) : option ContractRoles :=
  approver ← role_of m "approver";
  serviceProvider ← role_of m "service_provider";
  platform ← role_of m "platform";
  releaseSigner ← role_of m "release_signer";
  disputeResolver ← role_of m "dispute_resolver";
  receiver ← role_of m "receiver";
  Some (mkRoles approver serviceProvider platform releaseSigner disputeResolver receiver).

Definition decodeContract (value : ScVal) : option DecodedContract :=
  fields ← structOf value CONTRACT_FIELDS;
  roles ← fields !! "roles" ≫= fun v => structOf v ROLE_FIELDS;
  flags ← fields !! "flags" ≫= fun v => structOf v FLAG_FIELDS;
  trustline ← fields !! "trustline" ≫= fun v => structOf v ["address"%string];
  milestones ← fields !! "milestones" ≫= vecOf;
  decodedRoles ← decode_roles roles;
  decodedMilestones ← mapM decode_milestone milestones;
  engagementId ← fields !! "engagement_id" ≫= text;
  title ← fields !! "title" ≫= text;
  description ← fields !! "description" ≫= text;
  amount ← fields !! "amount" ≫= i128;
  platformFeeBps ← fields !! "platform_fee" ≫= u32;
  receiverMemo ← fields !! "receiver_memo" ≫= u32;
  token ← trustline !! "address" ≫= addressOf;
  disputed ← flags !! "disputed" ≫= bool_of;
  released ← flags !! "released" ≫= bool_of;
  resolved ← flags !! "resolved" ≫= bool_of;
  Some (mkDecoded engagementId title description decodedRoles amount platformFeeBps
          decodedMilestones disputed released resolved token receiverMemo).

(** The first role whose address differs, in the order of the expected object's keys. *)
Definition role_mismatch (d e : ContractRoles) : option string :=
  fst <$> List.find (fun r => negb (bool_decide (fst (snd r) = snd (snd r))))
    [("approver", (approver d, approver e));
     ("serviceProvider", (serviceProvider d, serviceProvider e));
     ("platform", (platform d, platform e));
     ("releaseSigner", (releaseSigner d, releaseSigner e));
     ("disputeResolver", (disputeResolver d, disputeResolver e));
     ("receiver", (receiver d, receiver e))]%string.

Definition contractMismatch (value : ScVal) (expected : ExpectedContract) (which : string)
    : option string :=
  let label := ("its " +:+ which +:+ " contract")%string in
  refusal (
    d ← need (decodeContract value) (label +:+ " is not a single-release contract struct");
    _ ← refuse_if (negb (bool_decide (engagementId d = ex_engagementId expected)))
          (label +:+ " names another engagement id");
    _ ← refuse_if (negb (bool_decide (title d = ex_title expected))
                   || negb (bool_decide (description d = ex_description expected)))
          (label +:+ " has another title or description");
    _ ← refuse_with ((fun role => label +:+ " has another " +:+ role)%string
                       <$> role_mismatch (roles d) (ex_roles expected));
    _ ← refuse_if (negb (bool_decide (dc_amount d = ex_amount expected)))
          (label +:+ " has another amount");
    _ ← refuse_if (negb (bool_decide (platformFeeBps d = ex_platformFeeBps expected)))
          (label +:+ " has another platform fee");
    _ ← refuse_if (negb (bool_decide (token d = ex_token expected)))
          (label +:+ " holds another token");
    _ ← refuse_if (negb (bool_decide (receiverMemo d = 0))) (label +:+ " sets a receiver memo");
    _ ← refuse_if (disputed d || released d || resolved d) (label +:+ " has a flag set");
    match milestones d with
    | [m] =>
        refuse_if (negb (bool_decide (m_description m = ex_milestoneDescription expected))
                   || negb (bool_decide (m_evidence m = ""%string))
                   || m_approved m
                   || (TRUSTLESS_WORK_MAX_STATUS_LENGTH <? String.length (m_status m))%nat)
          (label +:+ " has another milestone")
    | _ => Refused (label +:+ " does not have exactly one milestone")
    end).

(** ** Per-action arguments *)

Definition deployedContractId (deployer salt passphrase : string) : string :=
  encodeContract (sha256 (contractIdPreimage (sha256 passphrase) deployer salt)).

(** [wasm.toString('hex')] *)
Fixpoint hex (s : string) : string :=
  match s with
  | EmptyString => EmptyString
  | String a r =>
      let d n := String.get (Z.to_nat n) "0123456789abcdef" in
      match d (code a / 16), d (code a mod 16) with
      | Some h, Some l => String h (String l (hex r))
      | _, _ => EmptyString
      end
  end.

Definition deployArgs (args : list ScVal) (deployer signer : string) (contract : ExpectedContract)
    (pinWasm passphrase : string) : check DeployFacts :=
  match args with
  | [signerArg; wasmArg; saltArg; initFn; initArgs; constructorArgs] =>
      _ ← refuse_if (negb (bool_decide (addressOf signerArg = Some signer)))
            "its deploy is not signed by the platform";
      wasm ← need (bytes32 wasmArg) "its wasm hash is not 32 bytes";
      _ ← refuse_if (negb (bool_decide (pinWasm = ""%string))
                     && negb (bool_decide (hex wasm = pinWasm)))
            "it installs another wasm than the pinned one";
      salt ← need (bytes32 saltArg) "its salt is not 32 bytes";
      _ ← refuse_if (match initFn with
                     | ScvSymbol sym => negb (bool_decide (sym = TRUSTLESS_WORK_INIT_FN))
                     | _ => true end)
            ("its init function is not " +:+ TRUSTLESS_WORK_INIT_FN);
      init ← need (match vecOf initArgs with Some [i] => Some i | _ => None end)
               "its init arguments are not the one contract struct";
      _ ← refuse_if (match vecOf constructorArgs with Some [] => false | _ => true end)
            "it passes constructor arguments";
      _ ← refuse_with (contractMismatch init contract "initialized");
      mret (mkDeployFacts deployer (hex wasm) (deployedContractId deployer salt passphrase))
  | _ => Refused "its deploy does not take six arguments"
  end.

Definition fundArgsRefusal (args : list ScVal) (signer : string) (contract : ExpectedContract)
    (expectedAmount : Z) : option string :=
  match args with
  | [signerArg; contractArg; amount] =>
      refusal (
        _ ← refuse_if (negb (bool_decide (addressOf signerArg = Some signer)))
              "its fund is not from the buyer";
        _ ← refuse_with (contractMismatch contractArg contract "expected");
        refuse_if (negb (bool_decide (i128 amount = Some expectedAmount)))
          "its amount differs from the protected payment")
  | _ => Some "its fund does not take three arguments"%string
  end.

Definition shipArgsRefusal (args : list ScVal) (signer : string) (milestoneIndex : Z)
    (expectedStatus expectedEvidence : string) : option string :=
  match args with
  | [index; status; evidence; provider] =>
      refusal (
        _ ← refuse_if (negb (bool_decide (u32 index = Some milestoneIndex)))
              "it changes another milestone";
        _ ← refuse_if (negb (bool_decide (text status = Some expectedStatus)))
              "it writes another milestone status";
        _ ← refuse_if (negb (bool_decide (text evidence = Some expectedEvidence)))
              "it writes other evidence than the request";
        refuse_if (negb (bool_decide (addressOf provider = Some signer)))
          "its service provider is not the merchant")
  | _ => Some "its milestone change does not take four arguments"%string
  end.

Definition approveArgsRefusal (args : list ScVal) (signer : string) (milestoneIndex : Z)
    : option string :=
  match args with
  | [index; approverArg] =>
      refusal (
        _ ← refuse_if (negb (bool_decide (u32 index = Some milestoneIndex)))
              "it approves another milestone";
        refuse_if (negb (bool_decide (addressOf approverArg = Some signer)))
          "its approver is not the signer")
  | _ => Some "its approval does not take two arguments"%string
  end.

Definition singleAddressRefusal (args : list ScVal) (signer : string) : option string :=
  match args with
  | [a] =>
      if bool_decide (addressOf a = Some signer) then None
      else Some "its address argument is not the signer"%string
  | _ => Some "it does not take one argument"%string
  end.

(** The loop over a resolution's entries: what is paid so far, and its sum. *)
Fixpoint read_distributions (buyer merchant : string) (entries : list (ScVal * ScVal))
    (paid : gmap string Z) (total : Z) : check (gmap string Z * Z) :=
  match entries with
  | [] => mret (paid, total)
  | (key, val) :: entries =>
      p ← need (address ← addressOf key; amount ← i128 val;
                if bool_decide (address = ""%string) then None else Some (address, amount))
            "its distributions are not addresses to amounts";
      let '(address, amount) := p in
      _ ← refuse_if (negb (bool_decide (address = buyer)) && negb (bool_decide (address = merchant)))
            "it pays an address that is neither the buyer nor the merchant";
      _ ← refuse_if (amount <=? 0) "it distributes a non-positive amount";
      _ ← refuse_if (bool_decide (is_Some (paid !! address))) "it pays one address twice";
      read_distributions buyer merchant entries (<[address := amount]> paid) (total + amount)
  end.

Definition resolveArgsRefusal (args : list ScVal) (signer : string)
    (distributions : list Distribution) (buyer merchant : string) (balance : Z) : option string :=
  match args with
  | [resolver; mapArg] =>
      refusal (
        _ ← refuse_if (negb (bool_decide (addressOf resolver = Some signer)))
              "its resolver is not the signer";
        entries ← need (match mapArg with ScvMap o => o | _ => None end)
                    "its distributions are not a map";
        r ← read_distributions buyer merchant entries ∅ 0;
        let '(paid, total) := r in
        let decided := List.filter (fun d => 0 <? d_amount d) distributions in
        _ ← refuse_if (negb (bool_decide (size paid = length decided))
                       || existsb (fun d => negb (bool_decide (paid !! d_address d = Some (d_amount d))))
                            decided)
              "its distributions differ from the decided split";
        refuse_if (negb (bool_decide (total = balance)))
          "its distributions do not add up to the balance")
  | _ => Some "its resolution does not take two arguments"%string
  end.

Definition fundTransferRefusal (subs : list AuthorizedInvocation) (signer contractId : string)
    (contract : ExpectedContract) (expectedAmount : Z) : option string :=
  match subs with
  | [sub] =>
      let f := function sub in
      match contractCallOf (f ≫= contractFn) with
      | Some (mkCall transferContract transferFunction [from; to; amount]) =>
          refusal (
            _ ← refuse_if
                  (negb (bool_decide (f ≫= af_type = Some "sorobanAuthorizedFunctionTypeContractFn"%string))
                   || negb (bool_decide (transferContract = ex_token contract))
                   || negb (bool_decide (transferFunction = "transfer"%string))
                   || (0 <? length (default [] (subInvocations sub)))%nat)
                  "its authorization covers a call that is not the deposit transfer";
            refuse_if
              (negb (bool_decide (addressOf from = Some signer))
               || negb (bool_decide (addressOf to = Some contractId))
               || negb (bool_decide (i128 amount = Some expectedAmount)))
              "its authorization covers a transfer the fund did not ask for")
      | _ => Some "its authorization covers a call that is not the deposit transfer"%string
      end
  | _ => Some "its authorization does not cover exactly one transfer"%string
  end.

(** ** The whole check *)

Definition checkTrustlessWorkEnvelope (envelope passphrase : string)
    (expected : ExpectedTrustlessWorkCall) (limits : BuiltEnvelopeLimits)
    : check TrustlessWorkEnvelope :=
  single ← checkSingleContractCall envelope passphrase (call_signer expected) limits;
  let '(mkSingle tx call auth) := single in
  _ ← match expected with
      | Deploy _ _ pinDeployer _ =>
          refuse_if (negb (bool_decide (pinDeployer = ""%string))
                     && negb (bool_decide (c_contract call = pinDeployer)))
            "it calls another deployer than the pinned one"
      | Fund _ c _ _ | Ship _ c _ _ _ | Approve _ c _ | Release _ c | Dispute _ c
      | Resolve _ c _ _ _ _ =>
          refuse_if (negb (bool_decide (c_contract call = c))) "it calls another contract"
      end;
  _ ← refuse_if (negb (bool_decide (c_function call = ACTION_FUNCTIONS (call_action expected))))
        ("it calls " +:+ c_function call);
  deploy ← match expected with
           | Deploy s c _ w => Some <$> deployArgs (c_args call) (c_contract call) s c w passphrase
           | Fund s _ c a => _ ← refuse_with (fundArgsRefusal (c_args call) s c a); mret None
           | Ship s _ i st ev => _ ← refuse_with (shipArgsRefusal (c_args call) s i st ev); mret None
           | Approve s _ i => _ ← refuse_with (approveArgsRefusal (c_args call) s i); mret None
           | Release s _ | Dispute s _ => _ ← refuse_with (singleAddressRefusal (c_args call) s); mret None
           | Resolve s _ ds b m bal =>
               _ ← refuse_with (resolveArgsRefusal (c_args call) s ds b m bal); mret None
           end;
  _ ← refuse_with (rootAuthorizationRefusal auth (call_signer expected) call);
  let subs := rootSubInvocations auth in
  _ ← match expected with
      | Fund s cid c a => refuse_with (fundTransferRefusal subs s cid c a)
      | _ => refuse_if (0 <? length subs)%nat
               "its authorization covers calls this action does not make"
      end;
  mret (mkChecked tx deploy).
End decode.
