(* ===== verification/EscrowCalls.v ===== *)
(** What the envelope check means: the call an accepted envelope makes,
    described field by field ([requested_call]), and the proof that the check
    accepts exactly those envelopes. *)

From S2P Require Import Prelude Text SorobanEnvelope EscrowEnvelope.
From stdpp Require Import base tactics list option gmap strings fin_maps.
From Stdlib Require Import ZArith Lia Ascii.

Open Scope Z_scope.

(** ** Structs

    An [ScMap] whose entries are, in some order, one per field, the field's name
    as a symbol and a value with the field's property. *)
Definition struct_with (fields : list (string * (ScVal -> Prop))) (value : ScVal) : Prop :=
  exists entries sorted,
    value = ScvMap (Some entries) /\ entries ≡ₚ sorted
    /\ Forall2 (fun e f => fst e = ScvSymbol (fst f) /\ snd f (snd e)) sorted fields.

(** The entries of a list of symbols and values. *)
Definition symbols (l : list (string * ScVal)) : list (ScVal * ScVal) :=
  (fun p => (ScvSymbol (fst p), snd p)) <$> l.

Lemma symbol_map_Some entries out m :
  symbol_map entries out = Some m <->
  exists l, entries = symbols l /\ NoDup l.*1 /\ (forall k, k ∈ l.*1 -> out !! k = None)
    /\ m = list_to_map l ∪ out.
Proof.
  revert out. induction entries as [|[key v] entries IH]; intros out; simpl.
  - split.
    + intros [= <-]. exists []. split_and!; [done | apply NoDup_nil_2 | by intros k ?%not_elem_of_nil |].
      simpl. by rewrite (left_id_L ∅ (∪)).
    + intros (l & H & _ & _ & ->). symmetry in H. apply fmap_nil_inv in H as ->. simpl.
      by rewrite (left_id_L ∅ (∪)).
  - split.
    + intros H. destruct key as [| | | | |k| | | |]; try done. destruct (out !! k) eqn:E; [done|].
      apply IH in H as (l & -> & Hnd & Hout & ->). exists ((k, v) :: l). split_and!; [done | | |].
      * simpl. apply NoDup_cons. split; [|done]. intros Hk. specialize (Hout k Hk).
        by rewrite lookup_insert_eq in Hout.
      * simpl. intros k' [->|Hk]%elem_of_cons; [done|]. specialize (Hout k' Hk).
        apply lookup_insert_None in Hout. tauto.
      * simpl. rewrite <- insert_union_r, insert_union_l; [done|].
        apply not_elem_of_list_to_map_1. intros Hk. specialize (Hout k Hk).
        by rewrite lookup_insert_eq in Hout.
    + intros (l & H & Hnd & Hout & ->). destruct l as [|[k v'] l]; simpl in H; [done|].
      injection H as -> -> He. simpl in *. apply NoDup_cons in Hnd as [Hk Hnd].
      rewrite Hout by (by left). apply IH. exists l. split_and!; [done | done | |].
      * intros k' Hk'. rewrite lookup_insert_ne by (intros ->; done). apply Hout. by right.
      * rewrite <- insert_union_l, insert_union_r; [done|]. by apply not_elem_of_list_to_map_1.
Qed.

Lemma structOf_Some value fields m : NoDup fields ->
  structOf value fields = Some m <->
  exists l, value = ScvMap (Some (symbols l)) /\ l.*1 ≡ₚ fields /\ m = list_to_map l.
Proof.
  intros Hnd. split.
  - intros H. destruct value as [| | | | | | |[entries|]| |]; try done. simpl in H.
    apply bind_Some in H as (out & Hs & H). apply symbol_map_Some in Hs as (l & -> & Hl & _ & ->).
    rewrite (right_id_L ∅ (∪)) in H. case_match eqn:E; [done|]. injection H as <-.
    exists l. split_and!; [done | | done]. apply orb_false_iff in E as [E1 E2].
    apply negb_false_iff, bool_decide_eq_true in E1.
    rewrite map_size_list_to_map in E1 by done. symmetry.
    apply submseteq_length_Permutation; [|rewrite length_fmap; lia].
    apply NoDup_submseteq; [done|]. intros f Hf.
    assert (Hf' : negb (bool_decide (is_Some ((list_to_map l : gmap string ScVal) !! f))) = false).
    { rewrite existsb_false_forall in E2. by apply (E2 f). }
    apply negb_false_iff, bool_decide_eq_true in Hf' as [v Hv].
    apply list_elem_of_fmap. exists (f, v). split; [done|]. by apply elem_of_list_to_map_2.
  - intros (l & -> & Hp & ->). simpl.
    assert (Hl : NoDup l.*1) by by rewrite Hp.
    assert (Hs : symbol_map (symbols l) ∅ = Some (list_to_map l ∪ ∅)).
    { apply symbol_map_Some. exists l. split_and!; [done | done | | done]. intros. apply lookup_empty. }
    rewrite Hs, (right_id_L ∅ (∪)). simpl.
    rewrite bool_decide_eq_true_2 by (rewrite map_size_list_to_map by done; rewrite <- Hp, length_fmap; done).
    simpl. rewrite (proj2 (existsb_false_forall _ fields)); [done|].
    intros f Hf. apply negb_false_iff, bool_decide_eq_true. rewrite <- Hp in Hf.
    apply list_elem_of_fmap in Hf as ([k v] & -> & Hv). exists v. by apply elem_of_list_to_map_1.
Qed.

(** A struct, as [structOf] reads it. *)
Lemma struct_with_structOf fields value : NoDup fields.*1 ->
  struct_with fields value <->
  exists m, structOf value fields.*1 = Some m
    /\ Forall (fun f => exists w, m !! fst f = Some w /\ snd f w) fields.
Proof.
  intros Hnd. split.
  - intros (entries & sorted & -> & Hp & Hf).
    assert (exists l, sorted = symbols l /\ l.*1 = fields.*1 /\ Forall2 (fun e f => snd f (snd e)) l fields)
      as (l & -> & Hl & Hs).
    { clear Hp Hnd. induction Hf as [|[k v] [f P] sorted fields [Hk Hv] _ (l & -> & Hl & Hs)].
      - exists []. by split_and!.
      - simpl in *. exists ((f, v) :: l). subst k. split_and!; [done | simpl; by f_equal | by constructor]. }
    unfold symbols in Hp. apply Permutation.Permutation_map_inv in Hp as (l' & -> & Hl').
    exists (list_to_map l'). split.
    + apply structOf_Some; [done|]. exists l'. split_and!; [done | by rewrite <- Hl', Hl | done].
    + rewrite <- (list_to_map_proper l l') by (by rewrite ?Hl). clear -Hl Hs Hnd.
      apply Forall_forall. intros [k P] Hk. apply list_elem_of_lookup in Hk as [i Hi].
      destruct (Forall2_lookup_r _ _ _ _ _ Hs Hi) as ([k' v] & Hv & HP). simpl in *. exists v.
      assert (k' = k) as ->.
      { assert (Hk : l.*1 !! i = Some k') by by rewrite list_lookup_fmap, Hv.
        rewrite Hl, list_lookup_fmap, Hi in Hk. by injection Hk. }
      split; [|done]. apply elem_of_list_to_map_1; [by rewrite Hl|]. by eapply list_elem_of_lookup_2.
  - intros (m & Hs & Hf). apply structOf_Some in Hs as (l & -> & Hl & ->); [|done].
    exists (symbols l).
    assert (Hl' : NoDup l.*1) by by rewrite Hl.
    exists ((fun f => (ScvSymbol (fst f), default (ScvOther "") ((list_to_map l : gmap string ScVal) !! fst f))) <$> fields).
    split_and!; [done | |].
    + apply NoDup_Permutation.
      * apply (NoDup_fmap_1 fst). unfold symbols. rewrite <- list_fmap_compose.
        change (NoDup ((ScvSymbol ∘ fst) <$> l)). rewrite list_fmap_compose.
        apply NoDup_fmap_2; [by intros ?? [= ->] | done].
      * apply (NoDup_fmap_1 fst). rewrite <- list_fmap_compose.
        change (NoDup ((ScvSymbol ∘ fst) <$> fields)). rewrite list_fmap_compose.
        apply NoDup_fmap_2; [by intros ?? [= ->] | done].
      * intros [k v]. unfold symbols. rewrite !list_elem_of_fmap. split.
        -- intros ([k' v'] & [= -> ->] & Hin).
           assert (Hk : k' ∈ fields.*1).
           { rewrite <- Hl. apply list_elem_of_fmap. by exists (k', v'). }
           apply list_elem_of_fmap in Hk as ([k P] & Hk & HP). simpl in Hk. subst k'. exists (k, P).
           split; [|done]. simpl. by rewrite (elem_of_list_to_map_1 l k v').
        -- intros ([k' P] & [= -> ->] & Hin). rewrite Forall_forall in Hf.
           destruct (Hf _ Hin) as (w & Hw & _). simpl in *. exists (k', w). rewrite Hw. simpl.
           split; [done|]. by apply elem_of_list_to_map_2.
    + apply Forall2_fmap_l. apply Forall_Forall2_diag.
      eapply Forall_impl; [exact Hf|]. intros [k P] (w & Hw & HP). simpl in *. by rewrite Hw.
Qed.

(** ** Values *)

Section meaning.
Context `{SDK : StellarSdk} {LAWS : SdkLaws}.

Definition is_text (t : string) (v : ScVal) : Prop :=
  exists raw, v = ScvString raw /\ scValToNative v = Some (NativeString t).
Definition is_i128 (n : Z) (v : ScVal) : Prop := v = ScvI128 n.
Definition is_u32 (n : Z) (v : ScVal) : Prop := v = ScvU32 n.
Definition is_bool (b : bool) (v : ScVal) : Prop := v = ScvBool b.
Definition is_bytes32 (b : string) (v : ScVal) : Prop := v = ScvBytes b /\ String.length b = 32%nat.
Definition is_address (a : string) (v : ScVal) : Prop :=
  exists x, v = ScvAddress x /\ addressText x = Some a.

Lemma text_Some v t : text v = Some t <-> is_text t v.
Proof.
  unfold text, is_text, scNative. split.
  - intros H. destruct v as [| | | |raw| | | | |]; try done. exists raw. split; [done|]. by repeat (case_match; simplify_eq/=).
  - intros (raw & -> & H). by rewrite H.
Qed.

Lemma i128_Some v n : i128 v = Some n <-> is_i128 n v.
Proof.
  unfold i128, is_i128, scNative. destruct v; try done. rewrite native_i128. split; by intros [= ->].
Qed.

Lemma u32_Some v n : u32 v = Some n <-> is_u32 n v.
Proof. unfold u32, is_u32, scNative. destruct v; try done. rewrite native_u32. split; by intros [= ->]. Qed.

Lemma bool_of_Some v b : bool_of v = Some b <-> is_bool b v.
Proof.
  unfold bool_of, is_bool, scNative. destruct v; try done. rewrite native_bool. split; by intros [= ->].
Qed.

Lemma bytes32_Some v b : bytes32 v = Some b <-> is_bytes32 b v.
Proof.
  unfold bytes32, is_bytes32, scNative. destruct v; try (split; [done | intros [Hb _]; discriminate Hb]).
  rewrite native_bytes. case_bool_decide as E; split; [by intros [= <-] | by intros [[= <-] _] | done |].
  by intros [[= <-] ?].
Qed.

Lemma addressOf_Some v a : addressOf v = Some a <-> is_address a v.
Proof.
  unfold addressOf, is_address, scNative. destruct v as [| | | | | | | |x|]; try (split; [done | intros (y & Hy & _); discriminate Hy]).
  rewrite native_address. destruct (addressText x) as [t|] eqn:E; simpl; split.
  - intros [= <-]. eauto.
  - intros (y & [= <-] & H). congruence.
  - done.
  - intros (y & [= <-] & H). congruence.
Qed.

Lemma is_address_not_empty a v : is_address a v -> a <> ""%string.
Proof. intros (x & _ & H) ->. by apply address_not_empty in H. Qed.

Lemma is_address_fun a b v : is_address a v -> is_address b v -> a = b.
Proof. intros H%addressOf_Some H'%addressOf_Some. congruence. Qed.

(** A field of a struct, read by one of the readers above. *)
Lemma field_Some {A} (read : ScVal -> option A) (P : A -> ScVal -> Prop) (o : option ScVal) a :
  (forall v, read v = Some a <-> P a v) ->
  (o ≫= read) = Some a <-> exists w, o = Some w /\ P a w.
Proof. intros H. rewrite bind_Some. by setoid_rewrite H. Qed.

Lemma text_field o t : (o ≫= text) = Some t <-> exists w, o = Some w /\ is_text t w.
Proof. apply (field_Some text is_text). intros. apply text_Some. Qed.
Lemma i128_field o n : (o ≫= i128) = Some n <-> exists w, o = Some w /\ is_i128 n w.
Proof. apply (field_Some i128 is_i128). intros. apply i128_Some. Qed.
Lemma u32_field o n : (o ≫= u32) = Some n <-> exists w, o = Some w /\ is_u32 n w.
Proof. apply (field_Some u32 is_u32). intros. apply u32_Some. Qed.
Lemma bool_field o b : (o ≫= bool_of) = Some b <-> exists w, o = Some w /\ is_bool b w.
Proof. apply (field_Some bool_of is_bool). intros. apply bool_of_Some. Qed.
Lemma address_field o a : (o ≫= addressOf) = Some a <-> exists w, o = Some w /\ is_address a w.
Proof. apply (field_Some addressOf is_address). intros. apply addressOf_Some. Qed.

Lemma role_field m k a : role_of m k = Some a <-> exists w, m !! k = Some w /\ is_address a w.
Proof.
  unfold role_of. rewrite <- address_field, bind_Some. split.
  - intros (b & H & Hb). case_bool_decide; [done|]. by injection Hb as ->.
  - intros H. exists a. split; [done|]. apply address_field in H as (w & _ & Hw%is_address_not_empty).
    by rewrite bool_decide_eq_false_2.
Qed.

(** ** The contract's structs *)

Definition milestone_value (m : DecodedMilestone) : ScVal -> Prop :=
  struct_with [("approved", is_bool (m_approved m)); ("description", is_text (m_description m));
               ("evidence", is_text (m_evidence m)); ("status", is_text (m_status m))]%string.

Definition roles_value (r : ContractRoles) : ScVal -> Prop :=
  struct_with [("approver", is_address (approver r)); ("dispute_resolver", is_address (disputeResolver r));
               ("platform", is_address (platform r)); ("receiver", is_address (receiver r));
               ("release_signer", is_address (releaseSigner r));
               ("service_provider", is_address (serviceProvider r))]%string.

Definition flags_value (d : DecodedContract) : ScVal -> Prop :=
  struct_with [("disputed", is_bool (disputed d)); ("released", is_bool (released d));
               ("resolved", is_bool (resolved d))]%string.

Definition contract_struct (d : DecodedContract) : ScVal -> Prop :=
  struct_with [("amount", is_i128 (dc_amount d)); ("description", is_text (description d));
               ("engagement_id", is_text (engagementId d)); ("flags", flags_value d);
               ("milestones", fun v => exists items, v = ScvVec (Some items)
                   /\ Forall2 milestone_value (milestones d) items);
               ("platform_fee", is_u32 (platformFeeBps d)); ("receiver_memo", is_u32 (receiverMemo d));
               ("roles", roles_value (roles d)); ("title", is_text (title d));
               ("trustline", struct_with [("address", is_address (token d))])]%string.

(** Opens a struct specification into the lookups of its fields. *)
Ltac open_struct :=
  rewrite struct_with_structOf by (apply (bool_decide_unpack _); vm_compute; exact I);
  simpl; repeat setoid_rewrite Forall_cons; simpl.

(** Proves that a decoder in the option monad yields the record whose fields
    the struct specification, turned back into reads, holds. *)
Ltac decodes :=
  split;
  [ intros H; repeat (apply bind_Some in H as (? & ? & H)); simplify_eq/=; split_and!; auto
  | intros H; destruct_and? H;
    repeat (apply bind_Some; eexists; split; [eassumption|]); try reflexivity ].

Lemma decode_milestone_Some v m : decode_milestone v = Some m <-> milestone_value m v.
Proof.
  unfold decode_milestone, milestone_value. open_struct. fold MILESTONE_FIELDS.
  rewrite bind_Some. apply exist_proper. intros s. apply and_iff_compat_l.
  rewrite <- !text_field, <- bool_field, Forall_nil. destruct m; simpl. decodes.
Qed.

Lemma decode_roles_Some v r :
  (exists m, structOf v ROLE_FIELDS = Some m /\ decode_roles m = Some r) <-> roles_value r v.
Proof.
  unfold decode_roles, roles_value. open_struct. fold ROLE_FIELDS.
  apply exist_proper. intros s. apply and_iff_compat_l.
  rewrite <- !role_field, Forall_nil. destruct r; simpl. decodes.
Qed.
(** A field that is itself a struct, or a vector. *)
Lemma nested_field {A M} (o : option ScVal) (read : ScVal -> option M) (Q : M -> A -> Prop)
    (P : A -> ScVal -> Prop) a :
  (forall v, P a v <-> exists m, read v = Some m /\ Q m a) ->
  (exists w, o = Some w /\ P a w) <-> (exists m, (o ≫= read) = Some m /\ Q m a).
Proof.
  intros H. split.
  - intros (w & -> & (m & Hm & HQ)%H). exists m. by rewrite <- Hm.
  - intros (m & (w & Hw & Hm)%bind_Some & HQ). exists w. split; [done|]. apply H. eauto.
Qed.

Definition flags_read (m : gmap string ScVal) (d : DecodedContract) : Prop :=
  (m !! "disputed"%string ≫= bool_of) = Some (disputed d)
  /\ (m !! "released"%string ≫= bool_of) = Some (released d)
  /\ (m !! "resolved"%string ≫= bool_of) = Some (resolved d).

Lemma flags_value_read d v :
  flags_value d v <-> exists m, structOf v FLAG_FIELDS = Some m /\ flags_read m d.
Proof.
  unfold flags_value, flags_read. open_struct. fold FLAG_FIELDS.
  apply exist_proper. intros m. apply and_iff_compat_l. rewrite <- !bool_field, Forall_nil. tauto.
Qed.

Lemma trustline_read a v :
  struct_with [("address"%string, is_address a)] v
  <-> exists m, structOf v ["address"%string] = Some m /\ (m !! "address"%string ≫= addressOf) = Some a.
Proof.
  open_struct. apply exist_proper. intros m. apply and_iff_compat_l. rewrite <- address_field, Forall_nil. tauto.
Qed.

Lemma milestones_read ms v :
  (exists items, v = ScvVec (Some items) /\ Forall2 milestone_value ms items)
  <-> exists items, vecOf v = Some items /\ mapM decode_milestone items = Some ms.
Proof.
  apply exist_proper. intros items. split.
  - intros [-> H]. split; [done|]. apply mapM_Some. apply Forall2_flip.
    eapply Forall2_impl; [exact H|]. intros m i. simpl. apply decode_milestone_Some.
  - intros [Hv H]. destruct v as [| | | | | |[l|]| | |]; simplify_eq/=. split; [done|].
    apply mapM_Some, Forall2_flip in H. eapply Forall2_impl; [exact H|]. intros m i. simpl.
    apply decode_milestone_Some.
Qed.

Lemma roles_read r v :
  roles_value r v <-> exists m, structOf v ROLE_FIELDS = Some m /\ decode_roles m = Some r.
Proof. symmetry. apply decode_roles_Some. Qed.

Lemma decodeContract_Some v d : decodeContract v = Some d <-> contract_struct d v.
Proof.
  unfold decodeContract, contract_struct. open_struct. fold CONTRACT_FIELDS.
  rewrite bind_Some. apply exist_proper. intros s. apply and_iff_compat_l.
  rewrite <- !text_field, <- i128_field, <- !u32_field, Forall_nil.
  rewrite (nested_field _ _ (fun m r => decode_roles m = Some r) roles_value (roles d) (roles_read (roles d))).
  rewrite (nested_field _ _ flags_read flags_value d (flags_value_read d)).
  rewrite (nested_field _ _ (fun m a => (m !! "address"%string ≫= addressOf) = Some a)
             (fun a => struct_with [("address"%string, is_address a)]) (token d) (trustline_read (token d))).
  rewrite (nested_field _ _ (fun items ms => mapM decode_milestone items = Some ms)
             (fun ms v => exists items, v = ScvVec (Some items) /\ Forall2 milestone_value ms items)
             (milestones d) (milestones_read (milestones d))).
  unfold flags_read. destruct d; simpl. split.
  - intros H; repeat (apply bind_Some in H as (? & ? & H)); injection H; intros; subst. split_and!; eauto 10.
  - intros H. destruct_and? H.
    repeat match goal with H : exists _, _ |- _ => destruct H end. destruct_and?.
    repeat (apply bind_Some; eexists; split; [eassumption|]). reflexivity.
Qed.
(** The [Escrow] struct [e] describes: its one milestone unapproved, without
    evidence, in any short initial status; no flag, no memo. *)
Definition contract_value (e : ExpectedContract) (v : ScVal) : Prop :=
  exists status, (String.length status <= TRUSTLESS_WORK_MAX_STATUS_LENGTH)%nat
    /\ contract_struct
         (mkDecoded (ex_engagementId e) (ex_title e) (ex_description e) (ex_roles e) (ex_amount e)
            (ex_platformFeeBps e) [mkMilestone (ex_milestoneDescription e) status "" false]
            false false false (ex_token e) 0) v.

Lemma role_mismatch_None d e : role_mismatch d e = None <-> d = e.
Proof.
  unfold role_mismatch. split.
  - intros H. destruct d, e; simpl in H. repeat (case_bool_decide; [subst; simpl in H | done]). done.
  - intros ->. simpl. by repeat rewrite bool_decide_eq_true_2 by done.
Qed.

Lemma contractMismatch_exact v e which : contractMismatch v e which = None <-> contract_value e v.
Proof.
  unfold contractMismatch, contract_value. rewrite refusal_None. setoid_rewrite <- decodeContract_Some.
  split.
  - intros [u H]. autorewrite with checks in H. destruct H as (d & Hd & H).
    autorewrite with checks in H. rewrite fmap_None, role_mismatch_None in H.
    destruct H as (He & (Ht & Hde) & Hr & Ha & Hf & Hto & Hm & ((Hdi & Hre) & Hrs) & H).
    destruct (milestones d) as [|m [|]] eqn:Em; try done. autorewrite with checks in H.
    destruct H as (((H1 & H2) & H3) & H4%Nat.ltb_ge). exists (m_status m). split; [done|].
    rewrite Hd. destruct d, m; simpl in *. by subst.
  - intros (st & Hst & Hd). exists tt. rewrite Hd. simpl.
    autorewrite with checks. simpl. rewrite fmap_None, role_mismatch_None.
    apply Nat.ltb_ge in Hst. by split_and!.
Qed.

(** ** Arguments *)

Definition deploy_arguments (signer : string) (c : ExpectedContract) (pinWasm passphrase deployer : string)
    (args : list ScVal) (facts : DeployFacts) : Prop :=
  exists signerArg wasmArg saltArg init wasm salt,
    args = [signerArg; wasmArg; saltArg; ScvSymbol TRUSTLESS_WORK_INIT_FN; ScvVec (Some [init]);
            ScvVec (Some [])]
    /\ is_address signer signerArg /\ is_bytes32 wasm wasmArg
    /\ (pinWasm = ""%string \/ hex wasm = pinWasm) /\ is_bytes32 salt saltArg
    /\ contract_value c init
    /\ facts = mkDeployFacts deployer (hex wasm) (deployedContractId deployer salt passphrase).

Lemma vecOf_Some v l : vecOf v = Some l <-> v = ScvVec (Some l).
Proof. destruct v as [| | | | | |[l'|]| | |]; simpl; split; try done; by intros [= ->]. Qed.

Lemma pin_test (pin x : string) :
  negb (bool_decide (pin = ""%string)) && negb (bool_decide (x = pin)) = false
  <-> pin = ""%string \/ x = pin.
Proof. rewrite andb_false_iff, !negb_false_iff, !bool_decide_eq_true. done. Qed.

Lemma deployArgs_exact args deployer signer c pinWasm passphrase facts :
  deployArgs args deployer signer c pinWasm passphrase = Accepted facts
  <-> deploy_arguments signer c pinWasm passphrase deployer args facts.
Proof.
  unfold deployArgs, deploy_arguments. split.
  - intros H. do 6 (destruct args as [|? args]; [done|]). destruct args; [|done].
    autorewrite with checks in H. rewrite addressOf_Some in H.
    destruct H as (Hs & wasm & Hw & H). autorewrite with checks in H. rewrite pin_test in H.
    destruct H as (Hp & salt & Hsa & H). autorewrite with checks in H.
    destruct H as (Hf & init & Hi & H). autorewrite with checks in H.
    rewrite contractMismatch_exact in H. destruct H as (Hc & Hv & [= <-]).
    destruct (vecOf s3) as [[|i [|]]|] eqn:E3; simplify_eq. apply vecOf_Some in E3 as ->.
    destruct (vecOf s4) as [[|]|] eqn:E4; simplify_eq. apply vecOf_Some in E4 as ->.
    destruct s2; try done. autorewrite with checks in Hf. subst.
    apply bytes32_Some in Hw, Hsa. unfold TRUSTLESS_WORK_INIT_FN. eauto 20.
  - intros (sA & wA & saA & init & wasm & salt & -> & Hs & Hw & Hp & Hsa & Hc & ->).
    autorewrite with checks. rewrite addressOf_Some. split; [done|].
    apply bytes32_Some in Hw, Hsa. rewrite Hw, Hsa. exists wasm. split; [done|].
    autorewrite with checks. rewrite pin_test. split; [done|]. exists salt. split; [done|].
    autorewrite with checks. split; [done|]. exists init. split; [done|].
    autorewrite with checks. split; [done|]. by rewrite contractMismatch_exact.
Qed.

(** What a resolution's map pays: each of its entries an address and an amount. *)
Definition pays (entries : list (ScVal * ScVal)) (paid : list (string * Z)) : Prop :=
  Forall2 (fun e p => is_address (fst p) (fst e) /\ is_i128 (snd p) (snd e)) entries paid.

Definition sum_paid (paid : list (string * Z)) : Z := foldr (fun p n => snd p + n) 0 paid.

Definition payable (buyer merchant : string) (p : string * Z) : Prop :=
  (fst p = buyer \/ fst p = merchant) /\ 0 < snd p.

Lemma read_distributions_Accepted buyer merchant entries paid total r :
  read_distributions buyer merchant entries paid total = Accepted r <->
  exists l, pays entries l /\ NoDup l.*1 /\ (forall k, k ∈ l.*1 -> paid !! k = None)
    /\ Forall (payable buyer merchant) l /\ r = (list_to_map l ∪ paid, total + sum_paid l).
Proof.
  revert paid total. induction entries as [|[key val] entries IH]; intros paid total; simpl.
  - split.
    + intros [= <-]. exists []. simpl. rewrite (left_id_L ∅ (∪)), Z.add_0_r.
      split_and!; try done; [by constructor | apply NoDup_nil_2 | by intros k ?%not_elem_of_nil].
    + intros (l & Hl & _ & _ & _ & ->). inversion Hl; subst. simpl. by rewrite (left_id_L ∅ (∪)), Z.add_0_r.
  - rewrite need_bind. split.
    + intros ([a n] & Hr & H). apply bind_Some in Hr as (a' & Ha & Hr).
      apply bind_Some in Hr as (n' & Hn & Hr).
      destruct (bool_decide (a' = ""%string)) eqn:Ee; [discriminate Hr|]. injection Hr as -> ->.
      autorewrite with checks in H. rewrite andb_false_iff, !negb_false_iff, !bool_decide_eq_true in H.
      destruct H as (Hp & Hpos & Hnew & H). apply bool_decide_eq_false, eq_None_not_Some in Hnew.
      apply IH in H as (l & Hl & Hnd & Hout & Hall & ->). exists ((a, n) :: l).
      apply addressOf_Some in Ha. apply i128_Some in Hn. split_and!.
      * by constructor.
      * simpl. apply NoDup_cons. split; [|done]. intros Hk. specialize (Hout a Hk).
        by rewrite lookup_insert_eq in Hout.
      * simpl. intros k [->|Hk]%elem_of_cons; [done|]. specialize (Hout k Hk).
        apply lookup_insert_None in Hout. tauto.
      * by constructor.
      * simpl. rewrite <- insert_union_r, insert_union_l; [f_equal; lia|].
        apply not_elem_of_list_to_map_1. intros Hk. specialize (Hout a Hk).
        by rewrite lookup_insert_eq in Hout.
    + intros (l & Hl & Hnd & Hout & Hall & ->). inversion Hl as [|? [a n] ? l' [Ha Hn] Hl' E1 E2]; subst.
      simpl in *. apply NoDup_cons in Hnd as [Hk Hnd]. apply Forall_cons in Hall as [[Hp Hpos] Hall].
      exists (a, n). simpl in *. pose proof (is_address_not_empty _ _ Ha).
      apply addressOf_Some in Ha. apply i128_Some in Hn. rewrite Ha, Hn. simpl.
      rewrite bool_decide_eq_false_2 by done. split; [done|]. autorewrite with checks.
      rewrite andb_false_iff, !negb_false_iff, !bool_decide_eq_true. split_and!; [done | done | |].
      * apply bool_decide_eq_false, eq_None_not_Some, Hout. by left.
      * apply IH. exists l'. split_and!; try done.
        -- intros k' Hk'. rewrite lookup_insert_ne by (intros ->; done). apply Hout. by right.
        -- rewrite <- insert_union_l, insert_union_r; [f_equal; lia|]. by apply not_elem_of_list_to_map_1.
Qed.

(** The shares of a decided split that are paid. *)
Definition decided_shares (ds : list Distribution) : list (string * Z) :=
  (fun d => (d_address d, d_amount d)) <$> List.filter (fun d => 0 <? d_amount d) ds.

(** A resolution that pays exactly the decided shares, to the buyer and the
    merchant only, the whole balance. *)
Definition resolution_value (ds : list Distribution) (buyer merchant : string) (balance : Z)
    (v : ScVal) : Prop :=
  exists entries paid,
    v = ScvMap (Some entries) /\ pays entries paid /\ NoDup paid.*1
    /\ Forall (payable buyer merchant) paid /\ paid ≡ₚ decided_shares ds /\ sum_paid paid = balance.

Lemma same_shares (l : list (string * Z)) ds : NoDup l.*1 -> NoDup (decided_shares ds).*1 ->
  size (list_to_map l : gmap string Z) = length (List.filter (fun d => 0 <? d_amount d) ds)
  /\ existsb (fun d => negb (bool_decide ((list_to_map l : gmap string Z) !! d_address d = Some (d_amount d))))
       (List.filter (fun d => 0 <? d_amount d) ds) = false
  <-> l ≡ₚ decided_shares ds.
Proof.
  intros Hl Hd. rewrite existsb_false_forall, map_size_list_to_map by done.
  assert (Hlen : length (List.filter (fun d => 0 <? d_amount d) ds) = length (decided_shares ds))
    by (unfold decided_shares; by rewrite length_fmap).
  rewrite Hlen. split.
  - intros [Hs Hin]. symmetry. apply submseteq_length_Permutation; [|lia].
    apply NoDup_submseteq; [by eapply NoDup_fmap_1|]. intros [a n] Hx.
    unfold decided_shares in Hx. apply list_elem_of_fmap in Hx as (d & [= -> ->] & Hx).
    specialize (Hin d Hx). apply negb_false_iff, bool_decide_eq_true in Hin.
    by apply elem_of_list_to_map_2.
  - intros Hp. split; [by rewrite Hp|]. intros d Hx. apply negb_false_iff, bool_decide_eq_true.
    apply elem_of_list_to_map_1; [done|]. rewrite Hp. unfold decided_shares.
    apply list_elem_of_fmap. by exists d.
Qed.

Lemma resolveArgsRefusal_exact args signer ds buyer merchant balance :
  NoDup (decided_shares ds).*1 ->
  resolveArgsRefusal args signer ds buyer merchant balance = None
  <-> exists resolver v, args = [resolver; v] /\ is_address signer resolver
        /\ resolution_value ds buyer merchant balance v.
Proof.
  intros Hds. unfold resolveArgsRefusal, resolution_value. split.
  - intros H. do 2 (destruct args as [|? args]; [done|]). destruct args; [|done].
    apply refusal_None in H as [u H]. autorewrite with checks in H. rewrite addressOf_Some in H.
    destruct H as (Hs & entries & He & H).
    destruct (read_distributions _ _ _ _ _) as [r|] eqn:Er; [|done].
    apply read_distributions_Accepted in Er as (l & Hl & Hnd & _ & Hall & ->).
    change (mbind ?f (Accepted ?x)) with (f x) in H. cbv beta iota zeta in H.
    rewrite (right_id_L ∅ (∪)) in H. autorewrite with checks in H. destruct H as (Hsh & Hsum).
    rewrite same_shares in Hsh by done.
    destruct_or?. destruct s0 as [| | | | | | |o| |]; simplify_eq/=. eauto 20.
  - intros (resolver & v & -> & Hs & entries & l & -> & Hl & Hnd & Hall & Hp & Hsum).
    apply refusal_None. exists tt. autorewrite with checks. rewrite addressOf_Some. split; [done|].
    exists entries. split; [done|].
    rewrite (proj2 (read_distributions_Accepted _ _ _ _ _ (list_to_map l ∪ ∅, 0 + sum_paid l)));
      [|exists l; split_and!; try done; intros; apply lookup_empty].
    change (mbind ?f (Accepted ?x)) with (f x). cbv beta iota zeta.
    rewrite (right_id_L ∅ (∪)). autorewrite with checks. rewrite same_shares by done.
    split; [done | lia].
Qed.
(** The arguments of each call, exactly. *)
Definition call_arguments (e : ExpectedTrustlessWorkCall) (passphrase : string) (call : ContractCall)
    (deploy : option DeployFacts) : Prop :=
  match e with
  | Deploy signer c _ pinWasm =>
      exists facts, deploy = Some facts
        /\ deploy_arguments signer c pinWasm passphrase (c_contract call) (c_args call) facts
  | Fund signer _ c amount =>
      deploy = None /\ exists s v n, c_args call = [s; v; n]
        /\ is_address signer s /\ contract_value c v /\ is_i128 amount n
  | Ship signer _ index status evidence =>
      deploy = None /\ exists i st ev p, c_args call = [i; st; ev; p]
        /\ is_u32 index i /\ is_text status st /\ is_text evidence ev /\ is_address signer p
  | Approve signer _ index =>
      deploy = None /\ exists i a, c_args call = [i; a] /\ is_u32 index i /\ is_address signer a
  | Release signer _ | Dispute signer _ =>
      deploy = None /\ exists a, c_args call = [a] /\ is_address signer a
  | Resolve signer _ ds buyer merchant balance =>
      deploy = None /\ exists a v, c_args call = [a; v] /\ is_address signer a
        /\ resolution_value ds buyer merchant balance v
  end.

(** The contract each action may call: the payment's own, or a deployer. *)
Definition called_contract (e : ExpectedTrustlessWorkCall) (contract : string) : Prop :=
  match e with
  | Deploy _ _ pin _ => pin = ""%string \/ contract = pin
  | Fund _ c _ _ | Ship _ c _ _ _ | Approve _ c _ | Release _ c | Dispute _ c
  | Resolve _ c _ _ _ _ => contract = c
  end.

(** What the signer's authorization covers under its root: nothing, or, for a
    fund, the token's transfer of the amount from the buyer into the contract. *)
Definition covered (e : ExpectedTrustlessWorkCall) (subs : list AuthorizedInvocation) : Prop :=
  match e with
  | Fund signer contractId c amount =>
      exists sub v from to n, subs = [sub]
        /\ function sub = Some (mkAuthFunction (Some "sorobanAuthorizedFunctionTypeContractFn"%string) v)
        /\ names_call v (mkCall (ex_token c) "transfer" [from; to; n])
        /\ is_address signer from /\ is_address contractId to /\ is_i128 amount n
        /\ default [] (subInvocations sub) = []
  | _ => subs = []
  end.

(** The envelope that makes the requested call and nothing else. *)
Definition requested_call (envelope passphrase : string) (e : ExpectedTrustlessWorkCall)
    (limits : BuiltEnvelopeLimits) (r : TrustlessWorkEnvelope) : Prop :=
  exists call auth subs,
    one_call envelope passphrase (call_signer e) limits (mkSingle (ck_tx r) call auth)
    /\ called_contract e (c_contract call)
    /\ c_function call = ACTION_FUNCTIONS (call_action e)
    /\ call_arguments e passphrase call (ck_deploy r)
    /\ authorizes (call_signer e) call auth subs
    /\ covered e subs.

(** A decided split names each address once. *)
Definition well_posed (e : ExpectedTrustlessWorkCall) : Prop :=
  match e with Resolve _ _ ds _ _ _ => NoDup (decided_shares ds).*1 | _ => True end.

Lemma fundTransfer_exact subs signer contractId c amount :
  fundTransferRefusal subs signer contractId c amount = None <-> covered (Fund signer contractId c amount) subs.
Proof.
  unfold fundTransferRefusal, covered. split.
  - intros H. destruct subs as [|sub [|]]; try done.
    destruct (contractCallOf _) as [[tc tf [|from [|to [|n [|]]]]]|] eqn:Ec; try done.
    apply refusal_None in H as [u H]. autorewrite with checks in H.
    rewrite !addressOf_Some, i128_Some in H. destruct H as ((((Hty & Hc) & Hf) & Hl%Nat.ltb_ge) & (Hfr & Ht) & Hn).
    destruct (function sub) as [[ty v]|] eqn:Es; simpl in *; [|done]. subst.
    apply contractCallOf_Some in Ec. exists sub, v, from, to, n. split_and!; try done.
    destruct (default [] _); [done | simpl in Hl; lia].
  - intros (sub & v & from & to & n & -> & Hs & Hc & Hfr & Ht & Hn & He). rewrite Hs. simpl.
    apply contractCallOf_Some in Hc. rewrite Hc. apply refusal_None. exists tt.
    rewrite He. autorewrite with checks. rewrite !addressOf_Some, i128_Some. by split_and!.
Qed.

(** Reads a refusal's checks, once its arguments are known. *)
Ltac read_checks := rewrite refusal_None; split;
  [ intros [u H]; autorewrite with checks in H
  | intros H; exists tt; autorewrite with checks ].

Lemma fundArgs_exact args signer c amount :
  fundArgsRefusal args signer c amount = None
  <-> exists s v n, args = [s; v; n] /\ is_address signer s /\ contract_value c v /\ is_i128 amount n.
Proof.
  unfold fundArgsRefusal. destruct args as [|s [|v [|n [|]]]]; try (split; [done | by intros (? & ? & ? & ? & _)]).
  read_checks; rewrite addressOf_Some, contractMismatch_exact, i128_Some in *.
  - destruct H as (? & ? & ?). eauto 10.
  - destruct H as (? & ? & ? & [= <- <- <-] & H). tauto.
Qed.

Lemma shipArgs_exact args signer index status evidence :
  shipArgsRefusal args signer index status evidence = None
  <-> exists i st ev p, args = [i; st; ev; p] /\ is_u32 index i /\ is_text status st
        /\ is_text evidence ev /\ is_address signer p.
Proof.
  unfold shipArgsRefusal.
  destruct args as [|i [|st [|ev [|p [|]]]]]; try (split; [done | by intros (? & ? & ? & ? & ? & _)]).
  read_checks; rewrite addressOf_Some, u32_Some, !text_Some in *.
  - destruct H as (? & ? & ? & ?). eauto 10.
  - destruct H as (? & ? & ? & ? & [= <- <- <- <-] & H). tauto.
Qed.

Lemma approveArgs_exact args signer index :
  approveArgsRefusal args signer index = None
  <-> exists i a, args = [i; a] /\ is_u32 index i /\ is_address signer a.
Proof.
  unfold approveArgsRefusal. destruct args as [|i [|a [|]]]; try (split; [done | by intros (? & ? & ? & _)]).
  read_checks; rewrite addressOf_Some, u32_Some in *.
  - destruct H as (? & ?). eauto 10.
  - destruct H as (? & ? & [= <- <-] & H). tauto.
Qed.

Lemma singleAddress_exact args signer :
  singleAddressRefusal args signer = None <-> exists a, args = [a] /\ is_address signer a.
Proof.
  unfold singleAddressRefusal. destruct args as [|a [|]]; try (split; [done | by intros (? & ? & _)]).
  case_bool_decide as E; rewrite addressOf_Some in E.
  - split; [eauto | done].
  - split; [done | by intros (? & [= <-] & ?)].
Qed.

Lemma arguments_exact e passphrase call deploy : well_posed e ->
  match e with
  | Deploy s c _ w => Some <$> deployArgs (c_args call) (c_contract call) s c w passphrase
  | Fund s _ c a => _ ← refuse_with (fundArgsRefusal (c_args call) s c a); mret None
  | Ship s _ i st ev => _ ← refuse_with (shipArgsRefusal (c_args call) s i st ev); mret None
  | Approve s _ i => _ ← refuse_with (approveArgsRefusal (c_args call) s i); mret None
  | Release s _ | Dispute s _ => _ ← refuse_with (singleAddressRefusal (c_args call) s); mret None
  | Resolve s _ ds b m bal =>
      _ ← refuse_with (resolveArgsRefusal (c_args call) s ds b m bal); mret None
  end = Accepted deploy <-> call_arguments e passphrase call deploy.
Proof.
  assert (Hnone : forall (P : Prop), P /\ mret None = Accepted deploy <-> deploy = None /\ P).
  { intros P. split; [intros [HP [= <-]] | intros [-> HP]]; by split. }
  intros Hw. destruct e; simpl in *; autorewrite with checks; rewrite ?Hnone;
    try apply and_iff_compat_l.
  - setoid_rewrite <- deployArgs_exact. destruct (deployArgs _ _ _ _ _ _) as [f|r]; simpl; split.
    + intros [= <-]. eauto.
    + intros (? & -> & [= ->]). done.
    + done.
    + by intros (? & _ & ?).
  - apply fundArgs_exact.
  - apply shipArgs_exact.
  - apply approveArgs_exact.
  - apply singleAddress_exact.
  - apply singleAddress_exact.
  - by apply resolveArgsRefusal_exact.
Qed.

Lemma called_contract_exact e call :
  match e with
  | Deploy _ _ pinDeployer _ =>
      refuse_if (negb (bool_decide (pinDeployer = ""%string))
                 && negb (bool_decide (c_contract call = pinDeployer)))
        "it calls another deployer than the pinned one"
  | Fund _ c _ _ | Ship _ c _ _ _ | Approve _ c _ | Release _ c | Dispute _ c
  | Resolve _ c _ _ _ _ =>
      refuse_if (negb (bool_decide (c_contract call = c))) "it calls another contract"
  end = Accepted tt <-> called_contract e (c_contract call).
Proof. destruct e; autorewrite with checks; [apply pin_test | done ..]. Qed.

Lemma covered_exact e subs :
  match e with
  | Fund s cid c a => refuse_with (fundTransferRefusal subs s cid c a)
  | _ => refuse_if (0 <? length subs)%nat "its authorization covers calls this action does not make"
  end = Accepted tt <-> covered e subs.
Proof.
  assert (Hnil : refuse_if (0 <? length subs)%nat "its authorization covers calls this action does not make"
                 = Accepted tt <-> subs = []).
  { autorewrite with checks. rewrite Nat.ltb_ge. destruct subs; simpl; [done|]. split; [lia | done]. }
  destruct e; try done. rewrite <- fundTransfer_exact. by destruct (fundTransferRefusal _ _ _ _ _).
Qed.

Lemma check_unit_bind {A} (c : check unit) (k : unit -> check A) a :
  (c ≫= k) = Accepted a <-> c = Accepted tt /\ k tt = Accepted a.
Proof. destruct c as [[]|]; simpl; split; [done | by intros [] | done | by intros [? _]]. Qed.

Lemma check_bind_iff {A B} (c : check A) (k : A -> check B) b :
  (c ≫= k) = Accepted b <-> exists a, c = Accepted a /\ k a = Accepted b.
Proof. destruct c; simpl; split; [eauto | by intros (? & [= ->] & ?) | done | by intros (? & ? & _)]. Qed.

(** The check and the description, component by component. *)
Lemma checkTrustlessWorkEnvelope_exact envelope passphrase e limits r :
  well_posed e ->
  checkTrustlessWorkEnvelope envelope passphrase e limits = Accepted r
  <-> requested_call envelope passphrase e limits r.
Proof.
  intros Hw. unfold checkTrustlessWorkEnvelope, requested_call. rewrite check_bind_iff.
  setoid_rewrite checkSingleContractCall_exact. split.
  - intros ([tx call auth] & Hone & H). rewrite check_unit_bind, called_contract_exact, refuse_if_bind in H.
    destruct H as (Hc & Hf & H). apply check_bind_iff in H as (deploy & Hd & H).
    rewrite arguments_exact in Hd by done. rewrite refuse_with_bind, check_unit_bind, covered_exact in H.
    destruct H as (Ha & Hs & [= <-]). exists call, auth, (rootSubInvocations auth).
    autorewrite with checks in Hf. split_and!; try done. by apply rootAuthorization_exact.
  - intros (call & auth & subs & Hone & Hc & Hf & Hd & Ha & Hs).
    exists (mkSingle (ck_tx r) call auth). split; [done|].
    rewrite check_unit_bind, called_contract_exact, refuse_if_bind. split; [done|].
    autorewrite with checks. split; [done|]. apply check_bind_iff. exists (ck_deploy r).
    rewrite arguments_exact, refuse_with_bind, check_unit_bind, covered_exact by done. split; [done|].
    apply rootAuthorization_exact in Ha as [Ha <-]. split_and!; try done. by destruct r.
Qed.
(** C23: The envelope check is exact: it accepts an envelope Trustless Work built,
    with the deploy facts it answers, exactly when the envelope makes the
    requested call and nothing else: one plain v1 transaction of the signer
    within the fee and time limits, whose one operation calls the payment's
    contract (or the pinned deployer) with the requested arguments (the contract
    struct field by field, a resolution paying exactly the decided shares to the
    buyer and the merchant), authorized by one entry of the signer that covers
    nothing more, except a fund's transfer of the amount into the contract. *)
Theorem envelope_check_exact envelope passphrase e limits r :
  well_posed e ->
  checkTrustlessWorkEnvelope envelope passphrase e limits = Accepted r
  <-> requested_call envelope passphrase e limits r.
Proof. apply checkTrustlessWorkEnvelope_exact. Qed.
End meaning.

(** ** A resolution accepted

    An SDK whose addresses and strings are their own text, and whose serialization
    is injective. *)
Fixpoint value_tree (v : ScVal) : gen_tree (string + Z) :=
  match v with
  | ScvBool b => GenNode 0 [GenLeaf (inr (if b then 1 else 0))]
  | ScvU32 n => GenNode 1 [GenLeaf (inr n)]
  | ScvI128 n => GenNode 2 [GenLeaf (inr n)]
  | ScvBytes b => GenNode 3 [GenLeaf (inl b)]
  | ScvString s => GenNode 4 [GenLeaf (inl s)]
  | ScvSymbol s => GenNode 5 [GenLeaf (inl s)]
  | ScvVec None => GenNode 6 []
  | ScvVec (Some l) => GenNode 7 (value_tree <$> l)
  | ScvMap None => GenNode 8 []
  | ScvMap (Some l) => GenNode 9 ((fun p => GenNode 10 [value_tree (fst p); value_tree (snd p)]) <$> l)
  | ScvAddress a => GenNode 11 [GenLeaf (inl a)]
  | ScvOther x => GenNode 12 [GenLeaf (inl x)]
  end.

Lemma value_tree_inj : forall v w, value_tree v = value_tree w -> v = w.
Proof.
  fix IH 1. intros v w. destruct v as [b|n|n|b|s|s|[l|]|[l|]|a|x];
    destruct w as [b'|n'|n'|b'|s'|s'|[l'|]|[l'|]|a'|x']; intros H; simpl in H; try discriminate H;
    try (injection H as ->; reflexivity); try reflexivity.
  - destruct b, b'; done.
  - assert (l = l') as ->; [|done]. injection H as H. revert l' H.
    induction l as [|x l IHl]; intros [|x' l'] H; simpl in H; try discriminate H; [done|].
    injection H as Hx Hl. f_equal; [by apply IH | by apply IHl].
  - assert (l = l') as ->; [|done]. injection H as H. revert l' H.
    induction l as [|[x y] l IHl]; intros [|[x' y'] l'] H; simpl in H; try discriminate H; [done|].
    injection H as Hx Hy Hl. f_equal; [f_equal; by apply IH | by apply IHl].
Qed.

Fixpoint bits (p : positive) : string :=
  match p with
  | xH => "1"
  | xO p => String "0"%char (bits p)
  | xI p => String "1"%char (bits p)
  end%string.

Lemma bits_inj p q : bits p = bits q -> p = q.
Proof.
  revert q. induction p as [p IH|p IH|]; intros [q|q|] H; simpl in H; try discriminate H;
    try (injection H as H); try (f_equal; auto); try done.
  - by destruct p.
  - by destruct q.
Qed.

Definition sample_tx : Transaction :=
  mkTransaction "resolver" "none" (Some (mkBody "precondTime" (Some 900))) (Some (mkTimeBounds 0 600)) 1000
    [mkOperation None "invokeHostFunction"
       (Some (mkInvokeArgs (Some "contract") "resolve_dispute"
                (Some [ScvAddress "resolver";
                       ScvMap (Some [(ScvAddress "merchant", ScvI128 40); (ScvAddress "buyer", ScvI128 60)])])))
       (Some [mkAuthEntry (Some (mkCredentials (Some "sorobanCredentialsSourceAccount") None))
                (Some (mkInvocation
                   (Some (mkAuthFunction (Some "sorobanAuthorizedFunctionTypeContractFn")
                      (Some (mkInvokeArgs (Some "contract") "resolve_dispute"
                         (Some [ScvAddress "resolver";
                                ScvMap (Some [(ScvAddress "merchant", ScvI128 40);
                                              (ScvAddress "buyer", ScvI128 60)])])))))
                   None))])]
    [] "hash"%string.

Definition text_sdk (parse : string -> option ParsedEnvelope) : StellarSdk :=
  mkSdk (fun e _ => parse e)
    (fun a => if bool_decide (a = ""%string) then None else Some a)
    (fun v => match v with
              | ScvBool b => Some (NativeBoolean b)
              | ScvU32 n => Some (NativeNumber n)
              | ScvI128 n => Some (NativeBigint n)
              | ScvBytes b => Some (NativeBytes b)
              | ScvString s | ScvSymbol s => Some (NativeString s)
              | ScvAddress a => NativeString <$> (if bool_decide (a = ""%string) then None else Some a)
              | _ => Some NativeOther
              end)
    (fun v => bits (encode (value_tree v)))
    (fun s => s) (fun n d s => n +:+ d +:+ s)%string (fun h => h).

Lemma text_laws parse : @SdkLaws (text_sdk parse).
Proof.
  constructor; try done.
  - intros a. simpl. case_bool_decide; [done | by intros [= ->]].
  - intros v w H%bits_inj%(inj encode). by apply value_tree_inj.
Qed.

#[local] Instance sample_sdk : StellarSdk :=
  text_sdk (fun e => if bool_decide (e = "envelope"%string) then Some (PlainTransaction sample_tx) else None).
#[local] Instance sample_laws : @SdkLaws sample_sdk := text_laws _.

Definition sample_resolution : ExpectedTrustlessWorkCall :=
  Resolve "resolver" "contract" [mkDistribution "buyer" 60; mkDistribution "merchant" 40]
    "buyer" "merchant" 100.

Lemma envelope_check_exact_witness :
  well_posed sample_resolution
  /\ requested_call "envelope" "Test Network" sample_resolution (mkLimits 2000 900000 60000 0)
       (mkChecked sample_tx None).
Proof.
  assert (Hw : well_posed sample_resolution) by (apply (bool_decide_unpack _); vm_compute; exact I).
  split; [exact Hw|].
  apply (envelope_check_exact "envelope" "Test Network" sample_resolution (mkLimits 2000 900000 60000 0)
           (mkChecked sample_tx None) Hw).
  vm_compute. reflexivity.
Defined.
