(* ===== verification/EscrowMath.v ===== *)
(** The money arithmetic of a protected payment, the way the contract does it
    (src/src/native-plugins/trustless-work/protected-payment-math.ts): the two
    fees of a release, a resolution's shares, the indexer's balances and the
    split a resolution may pay. Amounts are in the token's minor units; BigInt
    division truncates. *)

From S2P Require Import Prelude Text Units.
From stdpp Require Import base tactics list option strings.
From Stdlib Require Import ZArith Lia.

Open Scope Z_scope.

Definition TRUSTLESS_WORK_FEE_BPS : Z := 30.
Definition TRUSTLESS_WORK_BPS_DENOMINATOR : Z := 10000.

Record FeeSplit := mkFeeSplit { trustlessWork : Z; fs_platform : Z; fs_net : Z }.

Definition feeSplit (amount platformFeeBps : Z) : FeeSplit :=
  let trustlessWork := Z.quot (amount * TRUSTLESS_WORK_FEE_BPS) TRUSTLESS_WORK_BPS_DENOMINATOR in
  let platform := Z.quot (amount * platformFeeBps) TRUSTLESS_WORK_BPS_DENOMINATOR in
  mkFeeSplit trustlessWork platform (amount - trustlessWork - platform).

Definition distributionNet (amount total platformFeeBps : Z) : Z :=
  if total <=? 0 then 0
  else
    let fees := feeSplit total platformFeeBps in
    let tw := Z.quot (amount * trustlessWork fees) total in
    let platform := Z.quot (amount * fs_platform fees) total in
    amount - tw - platform.

Definition totalFeeBps (platformFeeBps : Z) : Z := TRUSTLESS_WORK_FEE_BPS + platformFeeBps.

(** What the indexer reports as a balance: a text, a number (a finite one at
    least 0 by its [toFixed(7)] text), or anything else. *)
Inductive reported :=
  | ReportedText (s : string)
  | ReportedNumber (fixed7 : option string)
  | ReportedOther.

(** The text is read when it matches [/^\d+(\.\d{1,7})?$/], the expression
    [STELLAR_AMOUNT_RE] also is. *)
Definition balanceStroops (value : reported) : res (option Z) :=
  match value with
  | ReportedText s => if STELLAR_AMOUNT_RE_test s then Some <$> toStroops s else Ok None
  | ReportedNumber (Some fixed) => Some <$> toStroops fixed
  | _ => Ok None
  end.

Record Split := mkSplitDecision { sp_buyer : Z; sp_merchant : Z }.

Definition checkedSplit (split : Split) (balance : Z) : res Split :=
  _ ← throw_if ((sp_buyer split <? 0) || (sp_merchant split <? 0)) (badRequest InvalidAmount);
  _ ← throw_if (balance <=? 0) (badRequest InvalidStateTransition);
  _ ← throw_if (negb (sp_buyer split + sp_merchant split =? balance)) (badRequest InvalidAmount);
  Ok split.

Inductive party := BUYER | MERCHANT.

Definition wholeBalanceTo (p : party) (balance : Z) : Split :=
  match p with BUYER => mkSplitDecision balance 0 | MERCHANT => mkSplitDecision 0 balance end.

(** ** Properties *)

Definition BPS : Z := TRUSTLESS_WORK_BPS_DENOMINATOR.

Lemma feeSplit_sum amount bps :
  trustlessWork (feeSplit amount bps) + fs_platform (feeSplit amount bps) + fs_net (feeSplit amount bps)
  = amount.
Proof. unfold feeSplit. simpl. lia. Qed.

Lemma feeSplit_range amount bps :
  0 <= amount -> 0 <= bps -> totalFeeBps bps <= BPS ->
  0 <= trustlessWork (feeSplit amount bps) /\ 0 <= fs_platform (feeSplit amount bps)
  /\ 0 <= fs_net (feeSplit amount bps).
Proof.
  unfold feeSplit, totalFeeBps, BPS, TRUSTLESS_WORK_FEE_BPS, TRUSTLESS_WORK_BPS_DENOMINATOR. simpl.
  intros Ha Hb Ht.
  pose proof (quot_bps_floor amount 30 Ha ltac:(lia)). pose proof (quot_bps_floor amount bps Ha Hb).
  pose proof (quot_bps_bounds amount 30 Ha ltac:(lia)).
  pose proof (quot_bps_bounds amount bps Ha ltac:(lia)). nia.
Qed.

(** A share's part of a fee, and the parts of two shares. *)
Lemma part_range a t f : 0 <= a <= t -> 0 < t -> 0 <= f -> 0 <= Z.quot (a * f) t <= f.
Proof.
  intros Ha Ht Hf. rewrite Z.quot_div_nonneg by nia. split; [apply Z.div_pos; nia|].
  apply Z.div_le_upper_bound; nia.
Qed.

Lemma parts_sum a b f : 0 <= a -> 0 <= b -> 0 < a + b -> 0 <= f ->
  f - 1 <= Z.quot (a * f) (a + b) + Z.quot (b * f) (a + b) <= f.
Proof.
  intros Ha Hb Ht Hf. rewrite !Z.quot_div_nonneg by nia.
  pose proof (Z.mul_div_le (a * f) (a + b) Ht). pose proof (Z.mul_div_le (b * f) (a + b) Ht).
  pose proof (Z.mul_succ_div_gt (a * f) (a + b) Ht). pose proof (Z.mul_succ_div_gt (b * f) (a + b) Ht).
  set (x := a * f / (a + b)) in *. set (y := b * f / (a + b)) in *. nia.
Qed.

(** A share covers its parts of fees that the whole covers. *)
Lemma share_fees a t f g : 0 <= a -> 0 < t -> 0 <= f -> 0 <= g -> f + g <= t ->
  Z.quot (a * f) t + Z.quot (a * g) t <= a.
Proof.
  intros Ha Ht Hf Hg Hfg. rewrite !Z.quot_div_nonneg by nia.
  pose proof (Z.mul_div_le (a * f) t Ht). pose proof (Z.mul_div_le (a * g) t Ht).
  assert (t * (a * f / t + a * g / t) <= t * a) by nia. nia.
Qed.

Lemma checkedSplit_Ok split balance s :
  checkedSplit split balance = Ok s <->
  s = split /\ 0 <= sp_buyer split /\ 0 <= sp_merchant split /\ 0 < balance
  /\ sp_buyer split + sp_merchant split = balance.
Proof.
  unfold checkedSplit, throw_if. destruct split as [b m]; simpl.
  destruct (Z.ltb_spec b 0), (Z.ltb_spec m 0); simpl;
    try (split; [done | intros (_ & ? & ? & _); lia]).
  destruct (Z.leb_spec balance 0); simpl; [split; [done | intros (_ & _ & _ & ? & _); lia]|].
  destruct (Z.eqb_spec (b + m) balance); simpl; split; try done.
  - intros [= <-]. auto.
  - by intros (-> & _).
  - by intros (_ & _ & _ & _ & ?).
Qed.

(** C25: The escrow's money adds up. Of any amount, the two fees and the net are
    the whole of it, each fee the largest integer within its rate, and the net
    is not negative while the rates add up to at most 100%. A split that passes
    the check pays the two parties exactly the contract's balance; after the
    fees they receive between them what a release of the balance would pay, plus
    at most two units of rounding, and neither receives less than nothing or
    more than its share. *)
Theorem escrow_money_adds_up amount bps split balance :
  0 <= bps -> totalFeeBps bps <= BPS -> 0 <= amount ->
  checkedSplit split balance = Ok split ->
  (let s := feeSplit amount bps in
   trustlessWork s + fs_platform s + fs_net s = amount /\ 0 <= fs_net s
   /\ BPS * trustlessWork s <= amount * TRUSTLESS_WORK_FEE_BPS < BPS * (trustlessWork s + 1)
   /\ BPS * fs_platform s <= amount * bps < BPS * (fs_platform s + 1))
  /\ (let net x := distributionNet x balance bps in
      sp_buyer split + sp_merchant split = balance
      /\ 0 <= net (sp_buyer split) <= sp_buyer split
      /\ 0 <= net (sp_merchant split) <= sp_merchant split
      /\ fs_net (feeSplit balance bps) <= net (sp_buyer split) + net (sp_merchant split)
         <= fs_net (feeSplit balance bps) + 2).
Proof.
  intros Hb Ht Ha Hs. apply checkedSplit_Ok in Hs as (_ & H1 & H2 & Hpos & Hsum). split; cbv zeta.
  - pose proof (feeSplit_sum amount bps). destruct (feeSplit_range amount bps Ha Hb Ht) as (? & ? & ?).
    split_and!; [done | done | ..];
      first [apply (quot_bps_floor amount 30); lia | apply (quot_bps_floor amount bps); lia].
  - unfold distributionNet. rewrite (proj2 (Z.leb_gt balance 0)) by done.
    destruct (feeSplit_range balance bps ltac:(lia) Hb Ht) as (Hf1 & Hf2 & Hn).
    pose proof (feeSplit_sum balance bps) as Hfs. destruct (feeSplit balance bps) as [tw pf n].
    cbn [trustlessWork fs_platform fs_net] in *. destruct split as [b m].
    cbn [sp_buyer sp_merchant] in *. subst balance.
    pose proof (parts_sum b m tw H1 H2 Hpos Hf1).
    pose proof (parts_sum b m pf H1 H2 Hpos Hf2).
    pose proof (share_fees b (b + m) _ _ H1 Hpos Hf1 Hf2 ltac:(lia)).
    pose proof (share_fees m (b + m) _ _ H2 Hpos Hf1 Hf2 ltac:(lia)).
    pose proof (part_range b (b + m) _ ltac:(lia) Hpos Hf1). pose proof (part_range m (b + m) _ ltac:(lia) Hpos Hf1).
    pose proof (part_range b (b + m) _ ltac:(lia) Hpos Hf2). pose proof (part_range m (b + m) _ ltac:(lia) Hpos Hf2).
    lia.
Qed.

Lemma escrow_money_adds_up_witness :
  0 <= 165 /\ checkedSplit (mkSplitDecision 33333333 66666668) 100000001 = Ok (mkSplitDecision 33333333 66666668)
  /\ distributionNet 33333333 100000001 165 + distributionNet 66666668 100000001 165
     <= fs_net (feeSplit 100000001 165) + 2.
Proof.
  assert (H : checkedSplit (mkSplitDecision 33333333 66666668) 100000001
              = Ok (mkSplitDecision 33333333 66666668)) by (vm_compute; reflexivity).
  split_and!; [lia | exact H |].
  apply (escrow_money_adds_up 5 165 _ _ ltac:(lia) ltac:(vm_compute; discriminate) ltac:(lia) H).
Defined.
