(* ===== verification/EscrowStore.v ===== *)
(** Protected payments (escrows held by Trustless Work's contracts): the state
    machine (src/src/native-plugins/trustless-work/protected-payment-transitions.ts),
    roles (protected-payment-roles.ts), the two tables (prisma/schema.prisma:
    ProtectedPayment, ProtectedPaymentTransaction) with their statements, the
    provider's client (trustless-work.client.ts) and the one writer of statuses
    (protected-payment-lifecycle.service.ts). *)

From S2P Require Import Prelude Text Units MerchantFee Webhooks Programs SorobanEnvelope EscrowEnvelope EscrowMath.
From stdpp Require Import base tactics list option gmap strings sorting.
From Stdlib Require Import ZArith Lia Ascii.

Open Scope Z_scope.

(** ** The state machine (protected-payment-transitions.ts) *)

Inductive ProtectedPaymentStatus :=
  | P_CREATED | P_AWAITING_FUNDING | P_FUNDED | P_SHIPPED | P_APPROVED | P_RELEASED
  | P_DISPUTED | P_RESOLVED | P_EXPIRED | P_CANCELLED.
#[export] Instance ProtectedPaymentStatus_eq_dec : EqDecision ProtectedPaymentStatus.
Proof. solve_decision. Defined.

Definition all_statuses : list ProtectedPaymentStatus :=
  [P_CREATED; P_AWAITING_FUNDING; P_FUNDED; P_SHIPPED; P_APPROVED; P_DISPUTED; P_RELEASED;
   P_RESOLVED; P_EXPIRED; P_CANCELLED].

Definition PROTECTED_PAYMENT_TRANSITIONS (s : ProtectedPaymentStatus) : list ProtectedPaymentStatus :=
  match s with
  | P_CREATED => [P_AWAITING_FUNDING; P_EXPIRED; P_CANCELLED]
  | P_AWAITING_FUNDING =>
      [P_FUNDED; P_SHIPPED; P_APPROVED; P_RELEASED; P_DISPUTED; P_RESOLVED; P_EXPIRED; P_CANCELLED]
  | P_FUNDED => [P_SHIPPED; P_APPROVED; P_RELEASED; P_DISPUTED; P_RESOLVED]
  | P_SHIPPED => [P_APPROVED; P_RELEASED; P_DISPUTED; P_RESOLVED]
  | P_APPROVED => [P_RELEASED; P_DISPUTED; P_RESOLVED]
  | P_DISPUTED => [P_RESOLVED]
  | P_RELEASED | P_RESOLVED | P_EXPIRED | P_CANCELLED => []
  end.

Definition TERMINAL_PROTECTED_PAYMENT_STATUSES : list ProtectedPaymentStatus :=
  [P_RELEASED; P_RESOLVED; P_EXPIRED; P_CANCELLED].
Definition OPEN_PROTECTED_PAYMENT_STATUSES : list ProtectedPaymentStatus :=
  [P_AWAITING_FUNDING; P_FUNDED; P_SHIPPED; P_APPROVED; P_DISPUTED].
Definition IN_DELIVERY_STATUSES : list ProtectedPaymentStatus := [P_FUNDED; P_SHIPPED; P_APPROVED].

Definition canTransitionPP (from to : ProtectedPaymentStatus) : bool :=
  bool_decide (to ∈ PROTECTED_PAYMENT_TRANSITIONS from).

Definition statusesReaching (to : ProtectedPaymentStatus) : list ProtectedPaymentStatus :=
  List.filter (fun from => canTransitionPP from to) all_statuses.

Definition isTerminalPP (s : ProtectedPaymentStatus) : bool :=
  bool_decide (s ∈ TERMINAL_PROTECTED_PAYMENT_STATUSES).

Definition ACTION_BUILDABLE_FROM (a : ProtectedPaymentAction) : list ProtectedPaymentStatus :=
  match a with
  | DEPLOY => [P_CREATED]
  | FUND => [P_CREATED; P_AWAITING_FUNDING]
  | SHIP => [P_FUNDED]
  | APPROVE => [P_FUNDED; P_SHIPPED]
  | RELEASE => [P_APPROVED]
  | DISPUTE => [P_FUNDED; P_SHIPPED; P_APPROVED]
  | RESOLVE => [P_DISPUTED]
  end.

Definition canBuild (a : ProtectedPaymentAction) (s : ProtectedPaymentStatus) : bool :=
  bool_decide (s ∈ ACTION_BUILDABLE_FROM a).

(** The timestamp columns a step writes once. *)
Inductive Stamp :=
  | fundedAt | shippedAt | approvedAt | releasedAt | disputedAt | resolvedAt | cancelledAt
  | deadlinePassedAt.
#[export] Instance Stamp_eq_dec : EqDecision Stamp.
Proof. solve_decision. Defined.

Inductive LifecycleStepName :=
  | ST_FUNDED | ST_SHIPPED | ST_APPROVED | ST_RELEASED | ST_DISPUTED | ST_RESOLVED | ST_EXPIRED
  | ST_CANCELLED | ST_DEADLINE_PASSED.
#[export] Instance LifecycleStepName_eq_dec : EqDecision LifecycleStepName.
Proof. solve_decision. Defined.

Record LifecycleStep := mkStep {
  stamp : option Stamp;
  step_to : option ProtectedPaymentStatus;
  step_event : WebhookEventType
}.

Definition LIFECYCLE_STEPS (n : LifecycleStepName) : LifecycleStep :=
  match n with
  | ST_FUNDED => mkStep (Some fundedAt) (Some P_FUNDED) PROTECTED_PAYMENT_FUNDED
  | ST_SHIPPED => mkStep (Some shippedAt) (Some P_SHIPPED) PROTECTED_PAYMENT_SHIPPED
  | ST_APPROVED => mkStep (Some approvedAt) (Some P_APPROVED) PROTECTED_PAYMENT_APPROVED
  | ST_RELEASED => mkStep (Some releasedAt) (Some P_RELEASED) PROTECTED_PAYMENT_RELEASED
  | ST_DISPUTED => mkStep (Some disputedAt) (Some P_DISPUTED) PROTECTED_PAYMENT_DISPUTED
  | ST_RESOLVED => mkStep (Some resolvedAt) (Some P_RESOLVED) PROTECTED_PAYMENT_RESOLVED
  | ST_EXPIRED => mkStep None (Some P_EXPIRED) PROTECTED_PAYMENT_EXPIRED
  | ST_CANCELLED => mkStep (Some cancelledAt) (Some P_CANCELLED) PROTECTED_PAYMENT_CANCELLED
  | ST_DEADLINE_PASSED => mkStep (Some deadlinePassedAt) None PROTECTED_PAYMENT_DEADLINE_PASSED
  end.

Definition stepFrom (s : LifecycleStep) : list ProtectedPaymentStatus :=
  match step_to s with Some to => statusesReaching to | None => IN_DELIVERY_STATUSES end.

(** The step a landed transaction takes; a deploy has its own write. *)
Definition ACTION_STEP (a : ProtectedPaymentAction) : option LifecycleStepName :=
  match a with
  | DEPLOY => None
  | FUND => Some ST_FUNDED
  | SHIP => Some ST_SHIPPED
  | APPROVE => Some ST_APPROVED
  | RELEASE => Some ST_RELEASED
  | DISPUTE => Some ST_DISPUTED
  | RESOLVE => Some ST_RESOLVED
  end.

(** ** Roles (protected-payment-roles.ts); a party is [EscrowMath.party] *)

Inductive ReleaseModel := BUYER_RELEASES | MERCHANT_RELEASES | BUYER_APPROVES_MERCHANT_RELEASES.
Inductive DeadlinePolicy := MANUAL_REVIEW | REFUND_BUYER | RELEASE_MERCHANT.
#[export] Instance party_eq_dec : EqDecision party.
Proof. solve_decision. Defined.
#[export] Instance ReleaseModel_eq_dec : EqDecision ReleaseModel.
Proof. solve_decision. Defined.
#[export] Instance DeadlinePolicy_eq_dec : EqDecision DeadlinePolicy.
Proof. solve_decision. Defined.

(** The approver and the release signer of a model. *)
Definition RELEASE_MODEL_ROLES (m : ReleaseModel) : party * party :=
  match m with
  | BUYER_RELEASES => (BUYER, BUYER)
  | MERCHANT_RELEASES => (MERCHANT, MERCHANT)
  | BUYER_APPROVES_MERCHANT_RELEASES => (BUYER, MERCHANT)
  end.

Definition contractRoles (m : ReleaseModel) (buyer merchant platform disputeResolver : string)
    : ContractRoles :=
  let parties := RELEASE_MODEL_ROLES m in
  let address p := match p with BUYER => buyer | MERCHANT => merchant end in
  mkRoles (address (fst parties)) merchant platform (address (snd parties)) disputeResolver merchant.

Definition approvesUnder (m : ReleaseModel) (p : party) : bool := bool_decide (fst (RELEASE_MODEL_ROLES m) = p).
Definition releasesUnder (m : ReleaseModel) (p : party) : bool := bool_decide (snd (RELEASE_MODEL_ROLES m) = p).
Definition holdsRole (m : ReleaseModel) (p : party) : bool :=
  bool_decide (p = MERCHANT) || approvesUnder m p || releasesUnder m p.

Definition DEADLINE_POLICY_BENEFICIARY (p : DeadlinePolicy) : option party :=
  match p with MANUAL_REVIEW => None | REFUND_BUYER => Some BUYER | RELEASE_MERCHANT => Some MERCHANT end.

Definition resolvesAutomatically (p : DeadlinePolicy) : bool :=
  match DEADLINE_POLICY_BENEFICIARY p with Some _ => true | None => false end.

(** ** Rows

    A payment's columns in three groups: the terms its create wrote, what the
    deploy binds, and how far it got. *)
Record Terms := mkTerms {
  pp_id : string;
  pp_consumerId : string;
  pp_network : string;
  releaseModel : ReleaseModel;
  deadlinePolicy : DeadlinePolicy;
  pp_title : string;
  pp_description : option string;
  pp_reference : option string;
  pp_amount : string;
  pp_assetIssuer : string;
  merchantAddress : string;
  pp_platformFeeBps : Z;
  idempotencyKey : option string;
  fundingExpiresAt : Z;
  deliveryWindowHours : Z
}.

Record Binding := mkBinding {
  buyerAddress : option string;
  platformAddress : string;
  disputeResolverAddress : option string;
  contractId : option string;
  deployClaimedAt : option Z
}.

Record Progress := mkProgress {
  pp_status : ProtectedPaymentStatus;
  stamps : Stamp -> option Z;
  deliveryDeadlineAt : option Z;
  pp_evidence : option string;
  disputedBy : option string;
  disputeReason : option string;
  resolution : option json
}.

Record ProtectedPayment := mkPayment {
  terms : Terms;
  bound : Binding;
  progress : Progress;
  lastSyncedAt : option Z
}.

Definition set_bound (b : Binding) (p : ProtectedPayment) : ProtectedPayment :=
  mkPayment (terms p) b (progress p) (lastSyncedAt p).
Definition set_progress (g : Progress) (p : ProtectedPayment) : ProtectedPayment :=
  mkPayment (terms p) (bound p) g (lastSyncedAt p).
Definition set_synced (t : Z) (p : ProtectedPayment) : ProtectedPayment :=
  mkPayment (terms p) (bound p) (progress p) (Some t).

Abbreviation status_of p := (pp_status (progress p)).
Abbreviation id_of p := (pp_id (terms p)).
Abbreviation network_of p := (pp_network (terms p)).

Inductive BuiltStatus := BUILT | SUBMITTING | SUBMITTED.
#[export] Instance BuiltStatus_eq_dec : EqDecision BuiltStatus.
Proof. solve_decision. Defined.

Record BuiltRow := mkBuilt {
  b_id : string;
  b_payment : string;
  b_consumerId : string;
  b_network : string;
  b_action : ProtectedPaymentAction;
  b_status : BuiltStatus;
  b_signer : string;
  b_xdr : string;
  b_txHash : string;
  b_context : option json;
  b_expiresAt : Z;
  b_claimedAt : option Z;
  b_submittedAt : option Z;
  b_result : option json;
  b_createdAt : Z
}.

Definition set_claim (st : BuiltStatus) (claimed : option Z) (r : BuiltRow) : BuiltRow :=
  mkBuilt (b_id r) (b_payment r) (b_consumerId r) (b_network r) (b_action r) st (b_signer r) (b_xdr r)
    (b_txHash r) (b_context r) (b_expiresAt r) claimed (b_submittedAt r) (b_result r) (b_createdAt r).
Definition set_answer (at_ : Z) (result : json) (r : BuiltRow) : BuiltRow :=
  mkBuilt (b_id r) (b_payment r) (b_consumerId r) (b_network r) (b_action r) SUBMITTED (b_signer r) (b_xdr r)
    (b_txHash r) (b_context r) (b_expiresAt r) (b_claimedAt r) (Some at_) (Some result) (b_createdAt r).

(** ** What surrounds the service

    The plugin's configuration, the SDK's keys and contracts, and ISO dates. *)
Record TwNetworkConfig := mkTwNetwork {
  apiKey : string;
  platformSecret : string;
  resolverSecret : string;
  opsResolver : string;
  deployerContract : string;
  contractWasmHash : string
}.

Class EscrowEnv := mkEscrowEnv {
  networks : string -> TwNetworkConfig;
  timeoutMs : Z;
  env_maxFeeStroops : Z;
  env_platformFeeBps : Z;
  publicKey : string -> string;
  signature_of : string -> string -> string;
  passphrase_of : string -> string;
  assetContract : string -> string -> string;
  usdcIssuer : string -> option string;
  checkoutOrigin : string;
  parseDate : string -> option Z;
  toISOString : Z -> string;
  cuid : nat -> string;
  draw : nat -> Draw
}.

(** ** The provider (trustless-work.client.ts)

    One contract as the sync reads it; a field that is missing, or not of its
    type, is [None]. *)
Record MilestoneRead := mkMilestoneRead {
  mr_status : option string;
  mr_evidence : option string;
  mr_approved : bool
}.

Record ContractRead := mkRead {
  rd_contractId : option string;
  rd_balance : reported;
  rd_milestones : option (list MilestoneRead);
  rd_disputed : bool;
  rd_released : bool;
  rd_resolved : bool
}.

(** The bodies of the builds; amounts are the decimal text of their number. *)
Inductive TwBuild :=
  | BuildDeploy (signer engagementId title description : string) (roles : ContractRoles)
      (amount : string) (platformFeeBps : Z) (milestone token : string)
  | BuildFund (contractId signer amount : string)
  | BuildShip (contractId newStatus newEvidence serviceProvider : string)
  | BuildApprove (contractId approver : string)
  | BuildRelease (contractId releaseSigner : string)
  | BuildDispute (contractId signer : string)
  | BuildResolve (contractId disputeResolver : string) (distributions : list (string * string)).

(** What a call to the provider comes to. *)
Inductive Upstream (A : Type) :=
  | Answered (a : A)
  | UpstreamNotFound
  | UpstreamError (e : exn).
Arguments Answered {A} a.
Arguments UpstreamNotFound {A}.
Arguments UpstreamError {A} e.

(** Its answers at one moment: to a build, to a submitted envelope, and to a read
    of contracts (null when it is not an array). *)
Record TrustlessWork := mkTrustlessWork {
  tw_build : string -> TwBuild -> Upstream json;
  tw_send : string -> ParsedEnvelope -> Upstream json;
  tw_contracts : string -> list string -> Upstream (option (list ContractRead))
}.

(** A Horizon account as the preflight reads it. *)
Record BalanceEntry := mkBalance {
  bal_code : option string;
  bal_issuer : option string;
  bal_balance : option string
}.

Inductive AccountAnswer :=
  | Account (balances : list BalanceEntry)
  | AccountNotFound
  | AccountError.

(** ** The world

    The two tables, who each consumer is, the webhooks module's tables, the
    provider and Horizon at this moment, every envelope sent to the provider so
    far with its network, the clock and the ids drawn. *)
Record Escrows := mkEscrows {
  payments : gmap string ProtectedPayment;
  builts : gmap string BuiltRow;
  e_consumers : gmap string string;
  e_hooks : Hooks;
  provider : TrustlessWork;
  loadAccount : string -> string -> AccountAnswer;
  relayed : list (string * ParsedEnvelope);
  clock : Z;
  drawn : nat
}.

Definition set_payments (f : gmap string ProtectedPayment -> gmap string ProtectedPayment) (s : Escrows) : Escrows :=
  mkEscrows (f (payments s)) (builts s) (e_consumers s) (e_hooks s) (provider s) (loadAccount s) (relayed s)
    (clock s) (drawn s).
Definition set_builts (f : gmap string BuiltRow -> gmap string BuiltRow) (s : Escrows) : Escrows :=
  mkEscrows (payments s) (f (builts s)) (e_consumers s) (e_hooks s) (provider s) (loadAccount s) (relayed s)
    (clock s) (drawn s).
Definition set_e_hooks (h : Hooks) (s : Escrows) : Escrows :=
  mkEscrows (payments s) (builts s) (e_consumers s) h (provider s) (loadAccount s) (relayed s) (clock s) (drawn s).
Definition log_relay (network : string) (tx : ParsedEnvelope) (s : Escrows) : Escrows :=
  mkEscrows (payments s) (builts s) (e_consumers s) (e_hooks s) (provider s) (loadAccount s)
    (relayed s ++ [(network, tx)]) (clock s) (drawn s).
Definition set_drawn (n : nat) (s : Escrows) : Escrows :=
  mkEscrows (payments s) (builts s) (e_consumers s) (e_hooks s) (provider s) (loadAccount s) (relayed s)
    (clock s) n.

Abbreviation method := (prog Escrows).

(** [new Date()] *)
Definition new_Date : method Z := asking clock.

(** ** Statements *)

(** [protectedPayment.updateMany({ where: { id, ... }, data })] *)
Definition update_payment (i : string) (guard : ProtectedPayment -> bool)
    (data : ProtectedPayment -> ProtectedPayment) : svc Escrows nat := fun s =>
  match payments s !! i with
  | Some p => if guard p then (set_payments (fun m => <[i := data p]> m) s, Ok 1%nat) else (s, Ok 0%nat)
  | None => (s, Ok 0%nat)
  end.

(** [protectedPaymentTransaction.updateMany({ where: { id, ... }, data })] *)
Definition update_built (i : string) (guard : BuiltRow -> bool) (data : BuiltRow -> BuiltRow)
    : svc Escrows nat := fun s =>
  match builts s !! i with
  | Some r => if guard r then (set_builts (fun m => <[i := data r]> m) s, Ok 1%nat) else (s, Ok 0%nat)
  | None => (s, Ok 0%nat)
  end.

Definition findPayment (i : string) : method ProtectedPayment :=
  p ← asking (fun s => payments s !! i); pure (res_of_option JsError p).

Definition payment_rows (s : Escrows) : list ProtectedPayment := (map_to_list (payments s)).*2.
Definition built_rows (s : Escrows) : list BuiltRow := (map_to_list (builts s)).*2.

(** [where: { consumerId_txHash }] *)
Definition findBuilt (consumerId txHash : string) (s : Escrows) : option BuiltRow :=
  List.find (fun r => bool_decide (b_consumerId r = consumerId) && bool_decide (b_txHash r = txHash))
    (built_rows s).

(** [create], under the unique index on (consumerId, txHash): [data] of the drawn
    id and the moment. *)
Definition create_built `{EscrowEnv} (data : string -> Z -> BuiltRow) : svc Escrows BuiltRow := fun s =>
  let i := cuid (drawn s) in
  let r := data i (clock s) in
  match findBuilt (b_consumerId r) (b_txHash r) s with
  | Some _ => (s, Throw (UniqueViolation "consumerId_txHash"))
  | None => (set_drawn (S (drawn s)) (set_builts (fun m => <[i := r]> m) s), Ok r)
  end.

(** ** The client *)

Section client.
Context `{ENV : EscrowEnv}.

Definition call_settings (network : string) : res TwNetworkConfig :=
  let cfg := networks network in
  if bool_decide (apiKey cfg = ""%string) then Throw (unavailable Misconfigured) else Ok cfg.

Definition client_build (network : string) (body : TwBuild) : method string :=
  _ ← pure (call_settings network);
  answer ← asking (fun s => tw_build (provider s) network body);
  match answer with
  | Answered (JObject fields) =>
      match field "status" fields, field "unsignedTransaction" fields with
      | Some (JString st), Some (JString x) =>
          if negb (bool_decide (st = "SUCCESS")) || bool_decide (x = "")
          then Raise (badGateway ProviderError) else Ret x
      | _, _ => Raise (badGateway ProviderError)
      end
  | Answered _ => Raise (badGateway ProviderError)
  | UpstreamNotFound => Raise (badGateway ProviderError)
  | UpstreamError e => Raise e
  end%string.

(** The envelope is sent whatever comes back. *)
Definition client_send (network : string) (tx : ParsedEnvelope) : method json :=
  _ ← pure (call_settings network);
  answer ← Stmt (log_relay network tx) (fun s => Ret (tw_send (provider s) network tx));
  match answer with
  | Answered (JObject fields) =>
      match field "status" fields with
      | Some (JString _) => Ret (JObject fields)
      | _ => Raise (badGateway ProviderError)
      end
  | Answered _ => Raise (badGateway ProviderError)
  | UpstreamNotFound => Raise JsError
  | UpstreamError e => Raise e
  end%string.

Definition client_contracts (network : string) (contractIds : list string) : method (list ContractRead) :=
  match contractIds with
  | [] => Ret []
  | _ =>
      _ ← pure (call_settings network);
      answer ← asking (fun s => tw_contracts (provider s) network contractIds);
      match answer with
      | Answered reads => Ret (default [] reads)
      | UpstreamNotFound => Ret []
      | UpstreamError e => Raise e
      end
  end.

(** ** Views (protected-payment-views.ts)

    A row's columns as JSON (a date by its ISO text); the rows' [createdAt] and
    [updatedAt] are not modelled. *)

Definition status_text (st : ProtectedPaymentStatus) : string :=
  match st with
  | P_CREATED => "CREATED" | P_AWAITING_FUNDING => "AWAITING_FUNDING" | P_FUNDED => "FUNDED"
  | P_SHIPPED => "SHIPPED" | P_APPROVED => "APPROVED" | P_RELEASED => "RELEASED"
  | P_DISPUTED => "DISPUTED" | P_RESOLVED => "RESOLVED" | P_EXPIRED => "EXPIRED"
  | P_CANCELLED => "CANCELLED"
  end.

Definition model_text (m : ReleaseModel) : string :=
  match m with
  | BUYER_RELEASES => "BUYER_RELEASES" | MERCHANT_RELEASES => "MERCHANT_RELEASES"
  | BUYER_APPROVES_MERCHANT_RELEASES => "BUYER_APPROVES_MERCHANT_RELEASES"
  end.

Definition policy_text (p : DeadlinePolicy) : string :=
  match p with
  | MANUAL_REVIEW => "MANUAL_REVIEW" | REFUND_BUYER => "REFUND_BUYER" | RELEASE_MERCHANT => "RELEASE_MERCHANT"
  end.

Definition json_of_option (o : option string) : json :=
  match o with Some s => JString s | None => JNull end.

Definition json_of_date (o : option Z) : json := json_of_option (toISOString <$> o).

Definition json_of_int (n : Z) : json := JNumber (NumInt n).

Definition columns (p : ProtectedPayment) : list (string * json) :=
  let t := terms p in let b := bound p in let g := progress p in
  let at_ st := json_of_date (stamps g st) in
  [("id", JString (pp_id t)); ("network", JString (pp_network t)); ("status", JString (status_text (pp_status g)));
   ("releaseModel", JString (model_text (releaseModel t))); ("deadlinePolicy", JString (policy_text (deadlinePolicy t)));
   ("title", JString (pp_title t)); ("description", json_of_option (pp_description t));
   ("reference", json_of_option (pp_reference t)); ("amount", JString (pp_amount t)); ("asset", JString "USDC");
   ("assetIssuer", JString (pp_assetIssuer t)); ("merchantAddress", JString (merchantAddress t));
   ("buyerAddress", json_of_option (buyerAddress b)); ("platformAddress", JString (platformAddress b));
   ("disputeResolverAddress", json_of_option (disputeResolverAddress b));
   ("platformFeeBps", json_of_int (pp_platformFeeBps t)); ("contractId", json_of_option (contractId b));
   ("fundingExpiresAt", json_of_date (Some (fundingExpiresAt t)));
   ("deliveryWindowHours", json_of_int (deliveryWindowHours t));
   ("deliveryDeadlineAt", json_of_date (deliveryDeadlineAt g)); ("deadlinePassedAt", at_ deadlinePassedAt);
   ("evidence", json_of_option (pp_evidence g)); ("fundedAt", at_ fundedAt); ("shippedAt", at_ shippedAt);
   ("approvedAt", at_ approvedAt); ("releasedAt", at_ releasedAt); ("disputedAt", at_ disputedAt);
   ("disputedBy", json_of_option (disputedBy g)); ("disputeReason", json_of_option (disputeReason g));
   ("resolvedAt", at_ resolvedAt); ("resolution", default JNull (resolution g));
   ("cancelledAt", at_ cancelledAt); ("lastSyncedAt", json_of_date (lastSyncedAt p))]%string.

Definition PROTECTED_PAYMENT_LINK_SELECT : list string :=
  ["id"; "network"; "status"; "releaseModel"; "deadlinePolicy"; "title"; "description"; "amount"; "asset";
   "assetIssuer"; "merchantAddress"; "buyerAddress"; "platformFeeBps"; "contractId"; "fundingExpiresAt";
   "deliveryWindowHours"; "deliveryDeadlineAt"; "deadlinePassedAt"; "evidence"; "fundedAt"; "shippedAt";
   "approvedAt"; "releasedAt"; "disputedAt"; "resolvedAt"; "resolution"; "cancelledAt"]%string.

(** [project(row, select)] *)
Definition project (row : list (string * json)) (select : list string) : list (string * json) :=
  omap (fun k => pair k <$> field k row) select.

(** What the fees take, with what the merchant receives on a release. *)
Definition fees (p : ProtectedPayment) : res json :=
  let bps := pp_platformFeeBps (terms p) in
  amount ← toStroops (pp_amount (terms p));
  receives ← fromStroops (fs_net (feeSplit amount bps));
  Ok (JObject [("trustlessWorkBps", json_of_int TRUSTLESS_WORK_FEE_BPS); ("platformBps", json_of_int bps);
               ("totalBps", json_of_int (totalFeeBps bps)); ("merchantReceives", JString receives)])%string.

Definition checkoutUrl (i : string) : string := (checkoutOrigin +:+ "/protected/" +:+ i)%string.

Definition merchantView (p : ProtectedPayment) : res json :=
  f ← fees p;
  Ok (JObject (columns p ++ [("fees", f); ("checkoutUrl", JString (checkoutUrl (id_of p)))]))%string.

Inductive BuyerAction := b_fund | b_approve | b_release | b_dispute.
#[export] Instance BuyerAction_eq_dec : EqDecision BuyerAction.
Proof. solve_decision. Defined.

Definition action_text (a : BuyerAction) : string :=
  match a with b_fund => "fund" | b_approve => "approve" | b_release => "release" | b_dispute => "dispute" end.

Definition buyerActions (p : ProtectedPayment) (now : Z) : list BuyerAction :=
  let st := status_of p in
  let m := releaseModel (terms p) in
  (if canBuild FUND st && (now <=? fundingExpiresAt (terms p)) then [b_fund] else []) ++
  (if truthy (buyerAddress (bound p)) then
     (if approvesUnder m BUYER && canBuild APPROVE st then [b_approve] else []) ++
     (if releasesUnder m BUYER && canBuild RELEASE st then [b_release] else []) ++
     (if canBuild DISPUTE st then [b_dispute] else [])
   else []).

(** ** The lifecycle (protected-payment-lifecycle.service.ts) *)

(** The columns a step may set besides its own. *)
Inductive StepData :=
  | NoData
  | DeadlineData (at_ : Z)
  | EvidenceData (evidence : option string)
  | DisputeData (by_ reason : option string)
  | ResolutionData (r : json).

Definition apply_data (d : StepData) (g : Progress) : Progress :=
  match d with
  | NoData => g
  | DeadlineData t =>
      mkProgress (pp_status g) (stamps g) (Some t) (pp_evidence g) (disputedBy g) (disputeReason g) (resolution g)
  | EvidenceData e =>
      mkProgress (pp_status g) (stamps g) (deliveryDeadlineAt g) e (disputedBy g) (disputeReason g) (resolution g)
  | DisputeData b r =>
      mkProgress (pp_status g) (stamps g) (deliveryDeadlineAt g) (pp_evidence g) b r (resolution g)
  | ResolutionData r =>
      mkProgress (pp_status g) (stamps g) (deliveryDeadlineAt g) (pp_evidence g) (disputedBy g)
        (disputeReason g) (Some r)
  end.

Definition set_stamp (st : Stamp) (t : Z) (f : Stamp -> option Z) : Stamp -> option Z :=
  fun st' => if bool_decide (st' = st) then Some t else f st'.

Definition step_guard (n : LifecycleStepName) (p : ProtectedPayment) : bool :=
  let step := LIFECYCLE_STEPS n in
  bool_decide (status_of p ∈ stepFrom step)
  && match stamp step with Some st => bool_decide (stamps (progress p) st = None) | None => true end.

Definition step_data (n : LifecycleStepName) (d : StepData) (at_ : Z) (p : ProtectedPayment) : ProtectedPayment :=
  let step := LIFECYCLE_STEPS n in
  let g := apply_data d (progress p) in
  set_progress
    (mkProgress (default (pp_status g) (step_to step))
       (match stamp step with Some st => set_stamp st at_ (stamps g) | None => stamps g end)
       (deliveryDeadlineAt g) (pp_evidence g) (disputedBy g) (disputeReason g) (resolution g)) p.

Definition emit_escrow (user : string) (t : WebhookEventType) (view : json) : method bool :=
  stmt (fun s => let '(h, r) := emit user t view (draw (drawn s)) (e_hooks s) in
                 (set_drawn (S (drawn s)) (set_e_hooks h s), r)).

Definition notify (p : ProtectedPayment) (t : WebhookEventType) : method unit :=
  consumer ← asking (fun s => e_consumers s !! pp_consumerId (terms p));
  match consumer with
  | None => Ret tt
  | Some user => view ← pure (merchantView p); discard (emit_escrow user t view)
  end.

Definition lifecycle_step (i : string) (n : LifecycleStepName) (d : StepData) (at_ : Z)
    : method (option ProtectedPayment) :=
  taken ← stmt (update_payment i (step_guard n) (step_data n d at_));
  if (taken =? 0)%nat then Ret None
  else
    p ← findPayment i;
    _ ← notify p (step_event (LIFECYCLE_STEPS n));
    Ret (Some p).

Definition adopt (c : string) (p : ProtectedPayment) : ProtectedPayment :=
  mkPayment (terms p)
    (mkBinding (buyerAddress (bound p)) (platformAddress (bound p)) (disputeResolverAddress (bound p))
       (Some c) None)
    (let g := progress p in
     mkProgress P_AWAITING_FUNDING (stamps g) (deliveryDeadlineAt g) (pp_evidence g) (disputedBy g)
       (disputeReason g) (resolution g))
    (lastSyncedAt p).

(** [updateMany({ where: { id, contractId: null, status: 'CREATED' } })]; the
    column is unique, so a second payment may not adopt a contract. *)
Definition adopt_contract (i c : string) : svc Escrows nat := fun s =>
  match payments s !! i with
  | Some p =>
      if bool_decide (contractId (bound p) = None) && bool_decide (status_of p = P_CREATED) then
        if existsb (fun q => bool_decide (contractId (bound q) = Some c)) (payment_rows s)
        then (s, Throw (UniqueViolation "contractId"))
        else (set_payments (fun m => <[i := adopt c p]> m) s, Ok 1%nat)
      else (s, Ok 0%nat)
  | None => (s, Ok 0%nat)
  end.

Definition lifecycle_deployed (i c : string) : method ProtectedPayment :=
  _ ← stmt (adopt_contract i c); findPayment i.

Definition lifecycle_created (p : ProtectedPayment) : method unit := notify p PROTECTED_PAYMENT_CREATED.
End client.
