(* ===== verification/EscrowService.v ===== *)
(** Protected payments, method by method (src/src/native-plugins/trustless-work/):
    the server's keys (trustless-work-keys.ts), the transactions it hands out and
    relays (protected-payment-transactions.service.ts), what moves a payment
    on-chain (protected-payment-actions.service.ts) and the signed challenge of a
    dispute (protected-payment-dispute-challenge.ts). *)

From S2P Require Import Intents Signatures Prelude Text Units MerchantFee Webhooks Programs SorobanEnvelope EscrowEnvelope EscrowMath EscrowStore.
From stdpp Require Import base tactics list option gmap strings sorting.
From Stdlib Require Import ZArith Lia Ascii.

Open Scope Z_scope.

Definition TRUSTLESS_WORK_BUILD_TTL_MS : Z := 15 * 60 * 1000.
Definition TRUSTLESS_WORK_CLOCK_SKEW_MS : Z := 60 * 1000.
Definition TRUSTLESS_WORK_SUBMIT_LEASE_MARGIN_MS : Z := 30 * 1000.
Definition PROTECTED_PAYMENT_DEPLOY_CALLS : Z := 2.
Definition PROTECTED_PAYMENT_MILESTONE_INDEX : Z := 0.
Definition PROTECTED_PAYMENT_MILESTONE_DESCRIPTION : string := "Order delivered".
Definition PROTECTED_PAYMENT_SHIPPED_STATUS : string := "shipped".
Definition PROTECTED_PAYMENT_ASSET_CODE : string := "USDC".
Definition PROTECTED_PAYMENT_MIN_AMOUNT : string := "1".
Definition PROTECTED_PAYMENT_MAX_AMOUNT : string := "1000000".
Definition PROTECTED_PAYMENT_DEFAULT_FUNDING_HOURS : Z := 72.
Definition PROTECTED_PAYMENT_DISPUTE_CHALLENGE_TTL_MS : Z := 10 * 60 * 1000.
Definition PROTECTED_PAYMENT_JOB_BATCH : nat := 20.
Definition TRUSTLESS_WORK_READ_BATCH : nat := 20.
Definition PROTECTED_PAYMENT_SYNC_MAX_READS : nat := 5.

(** [Number(fromStroops(stroops))], by its decimal text. *)
Definition apiAmount (stroops : Z) : res string := fromStroops stroops.

(** A row's context, as an object; none reads as empty. *)
Definition contextOf (r : BuiltRow) : list (string * json) :=
  match b_context r with Some (JObject fields) => fields | _ => [] end.

Definition stringOrNull (v : option json) : option string :=
  match v with Some (JString s) => Some s | _ => None end.

Definition is_status (st : string) (fields : list (string * json)) : bool :=
  match field "status" fields with Some (JString x) => bool_decide (x = st) | _ => false end.

Section keys.
Context `{SDK : StellarSdk} `{CURVES : Curves} `{ENV : EscrowEnv}.

(** ** Keys (trustless-work-keys.ts); a keypair is its secret *)

Definition isConfigured (network : string) : bool :=
  negb (bool_decide (apiKey (networks network) = ""%string))
  && negb (bool_decide (platformSecret (networks network) = ""%string)).

Definition platform_key (network : string) : res string :=
  let secret := platformSecret (networks network) in
  if bool_decide (secret = ""%string) then Throw (unavailable Misconfigured) else Ok secret.

Definition resolver_key (network : string) : option string :=
  let secret := resolverSecret (networks network) in
  if bool_decide (secret = ""%string) then None else Some secret.

Definition opsResolver_of (network : string) : option string :=
  let ops := opsResolver (networks network) in
  if bool_decide (ops = ""%string) then None else Some ops.

Definition disputeResolverFor (network : string) (policy : DeadlinePolicy) : res string :=
  match policy with
  | MANUAL_REVIEW => res_of_option (unavailable Misconfigured) (opsResolver_of network)
  | _ => res_of_option (unavailable Misconfigured) (publicKey <$> resolver_key network)
  end.

Definition serverKeyFor (network address : string) : option string :=
  let secret := platformSecret (networks network) in
  if negb (bool_decide (secret = ""%string)) && bool_decide (publicKey secret = address) then Some secret
  else match resolver_key network with
       | Some k => if bool_decide (publicKey k = address) then Some k else None
       | None => None
       end.

Definition serverAccounts (network : string) : list string :=
  let cfg := networks network in
  List.filter (fun a => negb (bool_decide (a = ""%string)))
    [if bool_decide (platformSecret cfg = ""%string) then "" else publicKey (platformSecret cfg);
     match resolver_key network with Some k => publicKey k | None => "" end;
     opsResolver cfg]%string.

(** ** Transactions (protected-payment-transactions.service.ts) *)

Record SubmitScope := mkScope {
  scope_consumerId : option string;
  scope_signer : string;
  scope_actions : option (list ProtectedPaymentAction)
}.

Record RelayOutcome := mkRelayOutcome {
  out_row : BuiltRow;
  out_result : list (string * json);
  succeeded : bool
}.

Definition outcome (r : BuiltRow) (stored : option json) : RelayOutcome :=
  let result := match stored with
                | Some (JObject fields) => fields
                | _ => [("status"%string, JString "FAILED")]
                end in
  mkRelayOutcome r result (is_status "SUCCESS" result).

Definition notBuiltHere : exn := notFound.
Definition expired : exn := badRequest InvalidStateTransition.

Definition deploy_json (d : DeployFacts) : list (string * json) :=
  [("deployer", JString (df_deployer d)); ("wasmHash", JString (df_wasmHash d));
   ("contractId", JString (df_contractId d))]%string.

(** The upsert on (consumerId, txHash), which keeps a row that is there. *)
Definition upsert_built (consumerId txHash : string) (data : string -> Z -> BuiltRow) : method BuiltRow :=
  found ← asking (findBuilt consumerId txHash);
  match found with Some r => Ret r | None => stmt (create_built data) end.

Definition record (p : ProtectedPayment) (expected : ExpectedTrustlessWorkCall) (envelope : string)
    (context : option (list (string * json))) : method (BuiltRow * TrustlessWorkEnvelope) :=
  let network := network_of p in
  builtAt ← new_Date;
  match checkTrustlessWorkEnvelope envelope (passphrase_of network) expected
          (mkLimits env_maxFeeStroops TRUSTLESS_WORK_BUILD_TTL_MS TRUSTLESS_WORK_CLOCK_SKEW_MS builtAt) with
  | Refused _ => Raise (badGateway ProviderError)
  | Accepted checked =>
      let txHash := transactionHash (ck_tx checked) in
      let cid := pp_consumerId (terms p) in
      let fullContext := match ck_deploy checked with
                         | Some d => Some (JObject (default [] context ++ deploy_json d))
                         | None => JObject <$> context
                         end in
      let data i created :=
        mkBuilt i (id_of p) cid network (call_action expected) BUILT (call_signer expected) envelope txHash
          fullContext (submittableUntil (ck_tx checked) builtAt TRUSTLESS_WORK_BUILD_TTL_MS)
          None None None created in
      row ← catching (upsert_built cid txHash data)
              (fun err => if negb (isUniqueViolation err) then Raise err
                          else r ← asking (findBuilt cid txHash); pure (res_of_option JsError r));
      Ret (row, checked)
  end.

Definition leaseMs : Z := timeoutMs + TRUSTLESS_WORK_SUBMIT_LEASE_MARGIN_MS.

Definition answerLostClaim (i : string) : method RelayOutcome :=
  current ← asking (fun s => builts s !! i);
  match current with
  | Some r =>
      match b_status r with
      | SUBMITTED => Ret (outcome r (b_result r))
      | SUBMITTING => Raise (conflict OperationInFlight)
      | BUILT => Raise expired
      end
  | None => Raise expired
  end.

(** Whether a submit may claim the row: unsent, or claimed and abandoned. *)
Definition claimable (now : Z) (r : BuiltRow) : bool :=
  (now <=? b_expiresAt r)
  && (bool_decide (b_status r = BUILT)
      || bool_decide (b_status r = SUBMITTING)
         && match b_claimedAt r with Some t => t <? now - leaseMs | None => false end).

Definition claimed_by (claimedAt : Z) (r : BuiltRow) : bool :=
  bool_decide (b_status r = SUBMITTING) && bool_decide (b_claimedAt r = Some claimedAt).

(** [{ ...row, status: 'SUBMITTED', result }] *)
Definition answered (result : json) (r : BuiltRow) : BuiltRow :=
  mkBuilt (b_id r) (b_payment r) (b_consumerId r) (b_network r) (b_action r) SUBMITTED (b_signer r) (b_xdr r)
    (b_txHash r) (b_context r) (b_expiresAt r) (b_claimedAt r) (b_submittedAt r) (Some result) (b_createdAt r).

Definition relay (r : BuiltRow) (tx : ParsedEnvelope) : method RelayOutcome :=
  if bool_decide (b_status r = SUBMITTED) then Ret (outcome r (b_result r))
  else
    now ← new_Date;
    if b_expiresAt r <? now then Raise expired
    else
      claim ← stmt (update_built (b_id r) (claimable now) (set_claim SUBMITTING (Some now)));
      if (claim =? 0)%nat then answerLostClaim (b_id r)
      else
        result ← catching (client_send (b_network r) tx)
                   (fun error =>
                      _ ← stmt (update_built (b_id r) (claimed_by now) (set_claim BUILT None));
                      Raise error);
        submittedAt ← new_Date;
        stored ← stmt (update_built (b_id r) (claimed_by now) (set_answer submittedAt result));
        settled ← (if (stored =? 0)%nat then asking (fun s => builts s !! b_id r) else Ret None);
        match settled with
        | Some r' =>
            if bool_decide (b_status r' = SUBMITTED) then Ret (outcome r' (b_result r'))
            else Ret (outcome (answered result r) (Some result))
        | None => Ret (outcome (answered result r) (Some result))
        end.

(** [findFirst] within the caller's scope. *)
Definition in_scope (pid network txHash : string) (scope : SubmitScope) (r : BuiltRow) : bool :=
  bool_decide (b_payment r = pid) && bool_decide (b_network r = network)
  && bool_decide (b_txHash r = txHash) && bool_decide (b_signer r = scope_signer scope)
  && match scope_consumerId scope with
     | Some c => bool_decide (c = ""%string) || bool_decide (b_consumerId r = c) | None => true end
  && match scope_actions scope with Some l => bool_decide (b_action r ∈ l) | None => true end.

Definition submitSigned (pid network : string) (scope : SubmitScope) (signedXdr : string)
    : method RelayOutcome :=
  tx ← pure (signedEnvelope signedXdr (passphrase_of network));
  row ← asking (fun s => List.find (in_scope pid network (transactionHash tx) scope) (built_rows s));
  match row with
  | None => Raise notBuiltHere
  | Some r => relay r (PlainTransaction tx)
  end.

(** [tx.sign(key)] *)
Definition sign (secret : string) (p : ParsedEnvelope) : ParsedEnvelope :=
  match p with
  | PlainTransaction tx =>
      PlainTransaction
        (mkTransaction (tx_source tx) (memo_type tx) (tx_body tx) (timeBounds tx) (tx_fee tx)
           (operations tx) (signatures tx ++ [signature_of secret (tx_hash tx)]) (tx_hash tx))
  | FeeBump => FeeBump
  end.

Definition relayServerSigned (r : BuiltRow) (secret : string) : method RelayOutcome :=
  if negb (bool_decide (publicKey secret = b_signer r)) then Raise JsError
  else
    tx ← pure (res_of_option JsError (fromXDR (b_xdr r) (passphrase_of (b_network r))));
    relay r (sign secret tx).

Definition newest (rows : list BuiltRow) : option BuiltRow :=
  foldr (fun r acc =>
           match acc with
           | Some a => if b_createdAt a <? b_createdAt r then Some r else acc
           | None => Some r
           end) None rows.

Definition latest (pid : string) (a : ProtectedPaymentAction) : method (option BuiltRow) :=
  asking (fun s => newest (List.filter (fun r => bool_decide (b_payment r = pid)
                                                 && bool_decide (b_action r = a)) (built_rows s))).

Definition outstanding (pid : string) (a : ProtectedPaymentAction) (now : Z) : method bool :=
  asking (fun s => existsb (fun r => bool_decide (b_payment r = pid) && bool_decide (b_action r = a)
                                     && negb (bool_decide (b_status r = SUBMITTED))
                                     && (now <=? b_expiresAt r)) (built_rows s)).

(** ** Actions (protected-payment-actions.service.ts) *)

Record BuiltTransaction := mkBuiltTransaction {
  bt_row : BuiltRow;
  bt_payment : ProtectedPayment
}.

Record SubmittedTransaction := mkSubmitted {
  su_action : ProtectedPaymentAction;
  su_txHash : string;
  su_status : option string;
  su_payment : ProtectedPayment
}.

(** A dispute or a resolution is handed out to sign, or sent by the server. *)
Definition DisputeOutcome : Type := BuiltTransaction + SubmittedTransaction.

Record DisputeProof := mkProof { proof_signature : string; proof_expiresAt : string }.

Record DisputeContext := mkDisputeContext { dc_by : string; dc_reason : option string }.

Definition dispute_json (c : DisputeContext) : list (string * json) :=
  [("by", JString (dc_by c)); ("reason", json_of_option (dc_reason c))]%string.

Definition party_text (p : party) : string := match p with BUYER => "BUYER" | MERCHANT => "MERCHANT" end.

(** A contract id or a bound address that must be there; the check refuses an
    empty one as it refuses null. *)
Definition must (o : option string) : string := default ""%string o.

Definition assertBuildable (p : ProtectedPayment) (a : ProtectedPaymentAction) : res unit :=
  _ ← throw_if (negb (canBuild a (status_of p))) (badRequest InvalidStateTransition);
  throw_if (negb (bool_decide (a = FUND)) && negb (bool_decide (a = DEPLOY))
            && negb (truthy (contractId (bound p)))) (badRequest InvalidStateTransition).

Definition assertBuyer (p : ProtectedPayment) (buyer : string) : res unit :=
  _ ← throw_if (truthy (buyerAddress (bound p)) && negb (bool_decide (buyerAddress (bound p) = Some buyer)))
        (conflict ProtectedPaymentBuyerMismatch);
  _ ← throw_if (bool_decide (buyer = merchantAddress (terms p))) (badRequest ValidationFailed);
  throw_if (bool_decide (buyer ∈ serverAccounts (network_of p))) (badRequest ValidationFailed).

Definition partyAddress (p : ProtectedPayment) (who : party) : res string :=
  match who with
  | MERCHANT => Ok (merchantAddress (terms p))
  | BUYER => if truthy (buyerAddress (bound p)) then Ok (must (buyerAddress (bound p)))
             else Throw (badRequest InvalidStateTransition)
  end.

Definition expectedContract (p : ProtectedPayment) : res ExpectedContract :=
  let t := terms p in
  if negb (truthy (buyerAddress (bound p))) || negb (truthy (disputeResolverAddress (bound p)))
  then Throw JsError
  else
    amount ← toStroops (pp_amount t);
    Ok (mkExpected (pp_id t) (pp_title t) (default (pp_title t) (pp_description t))
          (contractRoles (releaseModel t) (must (buyerAddress (bound p))) (merchantAddress t)
             (platformAddress (bound p)) (must (disputeResolverAddress (bound p))))
          amount (pp_platformFeeBps t) PROTECTED_PAYMENT_MILESTONE_DESCRIPTION
          (assetContract (pp_assetIssuer t) (passphrase_of (pp_network t)))).

(** [StellarAccountLoader.load], its two failures told apart. *)
Definition load (network address : string) : method (list BalanceEntry) :=
  answer ← asking (fun s => loadAccount s network address);
  match answer with
  | Account l => Ret l
  | AccountNotFound => Raise (badRequest ValidationFailed)
  | AccountError => Raise (unavailable ProviderUnavailable)
  end.

Definition is_asset (code issuer : string) (b : BalanceEntry) : bool :=
  bool_decide (bal_code b = Some code) && bool_decide (bal_issuer b = Some issuer).

Definition hasTrustline (balances : list BalanceEntry) (code issuer : string) (holder : option string) : bool :=
  bool_decide (holder = Some issuer) || existsb (is_asset code issuer) balances.

Definition preflight (p : ProtectedPayment) (buyer : string) : method unit :=
  let network := network_of p in
  let issuer := pp_assetIssuer (terms p) in
  _ ← pure (throw_if (bool_decide (issuer = ""%string)) (badRequest ValidationFailed));
  balances ← load network buyer;
  _ ← pure (throw_if (negb (hasTrustline balances PROTECTED_PAYMENT_ASSET_CODE issuer None))
              (badRequest TrustlineMissing));
  let held := b ← List.find (is_asset PROTECTED_PAYMENT_ASSET_CODE issuer) balances; bal_balance b in
  amount ← pure (toStroops (pp_amount (terms p)));
  holds ← pure (toStroops (default "0"%string held));
  _ ← pure (throw_if (holds <? amount) (badRequest InsufficientBalance));
  merchant ← load network (merchantAddress (terms p));
  pure (throw_if (negb (hasTrustline merchant PROTECTED_PAYMENT_ASSET_CODE issuer
                          (Some (merchantAddress (terms p))))) (badRequest TrustlineMissing)).

Definition deploy_lease : Z :=
  timeoutMs * PROTECTED_PAYMENT_DEPLOY_CALLS + TRUSTLESS_WORK_SUBMIT_LEASE_MARGIN_MS.

Definition deploy_claimable (now : Z) (buyer : string) (p : ProtectedPayment) : bool :=
  bool_decide (status_of p = P_CREATED) && bool_decide (contractId (bound p) = None)
  && (bool_decide (buyerAddress (bound p) = None) || bool_decide (buyerAddress (bound p) = Some buyer))
  && match deployClaimedAt (bound p) with Some t => t <? now - deploy_lease | None => true end.

Definition bind_buyer (buyer platform resolver : string) (now : Z) (p : ProtectedPayment) : ProtectedPayment :=
  set_bound (mkBinding (Some buyer) platform (Some resolver) (contractId (bound p)) (Some now)) p.

Definition claimDeploy (p : ProtectedPayment) (buyer platform : string) : method ProtectedPayment :=
  now ← new_Date;
  resolver ← pure (disputeResolverFor (network_of p) (deadlinePolicy (terms p)));
  claim ← stmt (update_payment (id_of p) (deploy_claimable now buyer) (bind_buyer buyer platform resolver now));
  current ← findPayment (id_of p);
  if (claim =? 1)%nat then Ret current
  else if truthy (contractId (bound current)) then Ret current
  else
    _ ← pure (if truthy (buyerAddress (bound current))
                 && negb (bool_decide (buyerAddress (bound current) = Some buyer))
              then assertBuyer current buyer else Ok tt);
    _ ← pure (if negb (bool_decide (status_of current = P_CREATED)) then assertBuildable current FUND else Ok tt);
    Raise (conflict OperationInFlight).

Definition finishDeploy (p : ProtectedPayment) (r : BuiltRow) (platform : string) : method ProtectedPayment :=
  out ← relayServerSigned r platform;
  match succeeded out, stringOrNull (field "contractId" (contextOf (out_row out))) with
  | true, Some derived => lifecycle_deployed (id_of p) derived
  | _, _ => Raise (badGateway ProviderError)
  end.

Definition recoverDeploy (p : ProtectedPayment) : method (option ProtectedPayment) :=
  last ← latest (id_of p) DEPLOY;
  match last with
  | None => Ret None
  | Some r =>
      match stringOrNull (field "contractId" (contextOf r)) with
      | None => Ret None
      | Some derived =>
          if bool_decide (b_status r = SUBMITTED)
             && is_status "SUCCESS" (match b_result r with Some (JObject l) => l | _ => [] end)
          then q ← lifecycle_deployed (id_of p) derived; Ret (Some q)
          else
            now ← new_Date;
            if negb (bool_decide (b_status r = SUBMITTED)) && (now <? b_expiresAt r) then
              platform ← pure (platform_key (network_of p));
              q ← finishDeploy p r platform; Ret (Some q)
            else
              onChain ← client_contracts (network_of p) [derived];
              if existsb (fun c => bool_decide (rd_contractId c = Some derived)) onChain
              then q ← lifecycle_deployed (id_of p) derived; Ret (Some q)
              else Ret None
      end
  end.

(** The claim's release, in the [finally]. *)
Definition unclaim (p : ProtectedPayment) : ProtectedPayment :=
  set_bound (mkBinding (buyerAddress (bound p)) (platformAddress (bound p)) (disputeResolverAddress (bound p))
               (contractId (bound p)) None) p.

Definition deploy (p : ProtectedPayment) (buyer : string) : method ProtectedPayment :=
  recovered ← recoverDeploy p;
  match recovered with
  | Some q => Ret q
  | None =>
      _ ← preflight p buyer;
      let network := network_of p in
      platform ← pure (platform_key network);
      claimed ← claimDeploy p buyer (publicKey platform);
      if truthy (contractId (bound claimed)) then Ret claimed
      else
        finally
          (contract ← pure (expectedContract claimed);
           amount ← pure (apiAmount (ex_amount contract));
           xdr ← client_build network
                   (BuildDeploy (publicKey platform) (id_of claimed) (ex_title contract)
                      (ex_description contract) (ex_roles contract) amount (ex_platformFeeBps contract)
                      (ex_milestoneDescription contract) (ex_token contract));
           r ← record claimed
                 (Deploy (publicKey platform) contract (deployerContract (networks network))
                    (contractWasmHash (networks network))) xdr None;
           finishDeploy claimed (fst r) platform)
          (discard (stmt (update_payment (id_of claimed)
             (fun q => bool_decide (deployClaimedAt (bound q) = deployClaimedAt (bound claimed))) unclaim)))
  end.

Definition fund (p : ProtectedPayment) (buyer : string) : method BuiltTransaction :=
  _ ← pure (assertBuildable p FUND);
  now ← new_Date;
  _ ← pure (throw_if (fundingExpiresAt (terms p) <? now) (badRequest InvalidStateTransition));
  _ ← pure (assertBuyer p buyer);
  current ← (if truthy (contractId (bound p)) then Ret p else deploy p buyer);
  _ ← pure (assertBuyer current buyer);
  amount ← pure (toStroops (pp_amount (terms current)));
  text ← pure (apiAmount amount);
  let c := must (contractId (bound current)) in
  xdr ← client_build (network_of current) (BuildFund c buyer text);
  contract ← pure (expectedContract current);
  r ← record current (Fund buyer c contract amount) xdr None;
  Ret (mkBuiltTransaction (fst r) current).

Definition ship (p : ProtectedPayment) (evidence : string) : method BuiltTransaction :=
  _ ← pure (assertBuildable p SHIP);
  let c := must (contractId (bound p)) in
  let merchant := merchantAddress (terms p) in
  xdr ← client_build (network_of p) (BuildShip c PROTECTED_PAYMENT_SHIPPED_STATUS evidence merchant);
  r ← record p (Ship merchant c PROTECTED_PAYMENT_MILESTONE_INDEX PROTECTED_PAYMENT_SHIPPED_STATUS evidence) xdr
        (Some [("evidence"%string, JString evidence)]);
  Ret (mkBuiltTransaction (fst r) p).

Definition approve (p : ProtectedPayment) (who : party) : method BuiltTransaction :=
  _ ← pure (throw_if (negb (approvesUnder (releaseModel (terms p)) who)) (badRequest InvalidStateTransition));
  _ ← pure (assertBuildable p APPROVE);
  signer ← pure (partyAddress p who);
  let c := must (contractId (bound p)) in
  xdr ← client_build (network_of p) (BuildApprove c signer);
  r ← record p (Approve signer c PROTECTED_PAYMENT_MILESTONE_INDEX) xdr None;
  Ret (mkBuiltTransaction (fst r) p).

Definition release (p : ProtectedPayment) (who : party) : method BuiltTransaction :=
  _ ← pure (throw_if (negb (releasesUnder (releaseModel (terms p)) who)) (badRequest InvalidStateTransition));
  _ ← pure (assertBuildable p RELEASE);
  signer ← pure (partyAddress p who);
  let c := must (contractId (bound p)) in
  xdr ← client_build (network_of p) (BuildRelease c signer);
  r ← record p (Release signer c) xdr None;
  Ret (mkBuiltTransaction (fst r) p).

Definition buildDispute (p : ProtectedPayment) (signer : string) (context : DisputeContext) : method BuiltRow :=
  let c := must (contractId (bound p)) in
  xdr ← client_build (network_of p) (BuildDispute c signer);
  r ← record p (Dispute signer c) xdr (Some (dispute_json context));
  Ret (fst r).

(** What a landed transaction does to the row; applied on a replay too. *)
Definition apply_outcome_data (p : ProtectedPayment) (r : BuiltRow) (at_ : Z) : StepData :=
  let context := contextOf r in
  match b_action r with
  | FUND => DeadlineData (at_ + deliveryWindowHours (terms p) * 3600000)
  | SHIP => EvidenceData (stringOrNull (field "evidence" context))
  | DISPUTE => DisputeData (stringOrNull (field "by" context)) (stringOrNull (field "reason" context))
  | RESOLVE => ResolutionData (JObject context)
  | _ => NoData
  end.

Definition apply (p : ProtectedPayment) (out : RelayOutcome) : method SubmittedTransaction :=
  let r := out_row out in
  current ← (match ACTION_STEP (b_action r) with
             | Some name =>
                 if succeeded out then
                   at_ ← new_Date;
                   taken ← lifecycle_step (id_of p) name (apply_outcome_data p r at_) at_;
                   match taken with Some q => Ret q | None => findPayment (id_of p) end
                 else Ret p
             | None => Ret p
             end);
  Ret (mkSubmitted (b_action r) (b_txHash r) (stringOrNull (field "status" (out_result out))) current).

(** A server-signed row of [a] still waiting to go out. *)
Definition pendingServerRow (pid : string) (a : ProtectedPaymentAction) (signer : string)
    : method (option BuiltRow) :=
  last ← latest pid a;
  now ← new_Date;
  Ret (match last with
       | Some r => if bool_decide (b_signer r = signer) && negb (bool_decide (b_status r = SUBMITTED))
                      && (now <? b_expiresAt r) then Some r else None
       | None => None
       end).

Definition platformDispute (p : ProtectedPayment) (context : DisputeContext) : method SubmittedTransaction :=
  platform ← pure (platform_key (network_of p));
  pending ← pendingServerRow (id_of p) DISPUTE (publicKey platform);
  row ← (match pending with Some r => Ret r | None => buildDispute p (publicKey platform) context end);
  out ← relayServerSigned row platform;
  apply p out.

(** ** The signed challenge (protected-payment-dispute-challenge.ts) *)

Definition newline : string := String (ascii_of_nat 10) EmptyString.

Definition disputeChallengeMessage (pid buyer network expiresAt : string) : string :=
  ("Cosmos Pay protected payment dispute" +:+ newline +:+ "payment: " +:+ pid +:+ newline
     +:+ "account: " +:+ buyer +:+ newline +:+ "network: " +:+ network +:+ newline
     +:+ "expires: " +:+ expiresAt)%string.

Definition disputeChallenge (pid buyer network : string) (now : Z) : string * string :=
  let expiresAt := toISOString (now + PROTECTED_PAYMENT_DISPUTE_CHALLENGE_TTL_MS) in
  (disputeChallengeMessage pid buyer network expiresAt, expiresAt).

(** The buyer's page (protected-payment-views.ts): the buyer may ask the platform
    for a dispute with the challenge when it holds no role. *)
Definition buyerView (p : ProtectedPayment) (now : Z) : res json :=
  let actions := buyerActions p now in
  f ← fees p;
  Ok (JObject (project (columns p) PROTECTED_PAYMENT_LINK_SELECT ++
    [("fees", f); ("buyerActions", JArray ((fun a => JString (action_text a)) <$> actions));
     ("disputeChallenge",
      if bool_decide (b_dispute ∈ actions) && truthy (buyerAddress (bound p))
         && negb (holdsRole (releaseModel (terms p)) BUYER)
      then let '(message, expiresAt) :=
             disputeChallenge (id_of p) (must (buyerAddress (bound p))) (network_of p) now in
           JObject [("message", JString message); ("expiresAt", JString expiresAt)]
      else JNull)]))%string.

Definition assertDisputeChallengeSigned (pid buyer network : string) (proof : DisputeProof) (now : Z) : res unit :=
  let invalid := badRequest ProtectedPaymentSignatureInvalid in
  expires ← res_of_option invalid (parseDate (proof_expiresAt proof));
  _ ← throw_if (negb (bool_decide (toISOString expires = proof_expiresAt proof))) invalid;
  _ ← throw_if (expires <=? now) invalid;
  _ ← throw_if (now + PROTECTED_PAYMENT_DISPUTE_CHALLENGE_TTL_MS <? expires) invalid;
  throw_if (negb (verifyMessageSignature stellar buyer
                    (disputeChallengeMessage pid buyer network (proof_expiresAt proof))
                    (proof_signature proof))) invalid.

Definition dispute (p : ProtectedPayment) (who : party) (reason : option string) (proof : option DisputeProof)
    : method DisputeOutcome :=
  _ ← pure (assertBuildable p DISPUTE);
  signer ← pure (partyAddress p who);
  let context := mkDisputeContext (party_text who) reason in
  if holdsRole (releaseModel (terms p)) who then
    row ← buildDispute p signer context; Ret (inl (mkBuiltTransaction row p))
  else
    match proof with
    | None => Raise (badRequest ProtectedPaymentSignatureInvalid)
    | Some proof =>
        now ← new_Date;
        _ ← pure (assertDisputeChallengeSigned (id_of p) signer (network_of p) proof now);
        sent ← platformDispute p context; Ret (inr sent)
    end.

(** ** Resolution *)

Definition balanceOf (p : ProtectedPayment) : method Z :=
  reads ← client_contracts (network_of p) [must (contractId (bound p))];
  match head reads with
  | None => Raise (badGateway ProviderError)
  | Some read =>
      balance ← pure (balanceStroops (rd_balance read));
      pure (res_of_option (badGateway ProviderError) balance)
  end.

Definition buildResolve (p : ProtectedPayment) (resolver : string) (split : Split) (balance : Z) (decidedBy : string)
    : method BuiltRow :=
  let buyer := must (buyerAddress (bound p)) in
  let merchant := merchantAddress (terms p) in
  let distributions := List.filter (fun d => 0 <? d_amount d)
                         [mkDistribution buyer (sp_buyer split); mkDistribution merchant (sp_merchant split)] in
  let c := must (contractId (bound p)) in
  amounts ← pure (mapM (fun d => a ← apiAmount (d_amount d); Ok (d_address d, a)) distributions);
  xdr ← client_build (network_of p) (BuildResolve c resolver amounts);
  b ← pure (fromStroops (sp_buyer split));
  m ← pure (fromStroops (sp_merchant split));
  r ← record p (Resolve resolver c distributions buyer merchant balance) xdr
        (Some [("buyer", JString b); ("merchant", JString m); ("decidedBy", JString decidedBy)]%string);
  Ret (fst r).

Definition resolve (p : ProtectedPayment) (split : Split) (decidedBy : string) : method DisputeOutcome :=
  _ ← pure (assertBuildable p RESOLVE);
  if negb (truthy (disputeResolverAddress (bound p))) || negb (truthy (buyerAddress (bound p)))
  then Raise (badRequest InvalidStateTransition)
  else
    let resolver := must (disputeResolverAddress (bound p)) in
    balance ← balanceOf p;
    decided ← pure (checkedSplit split balance);
    let serverKey := serverKeyFor (network_of p) resolver in
    pending ← (match serverKey with
               | Some _ => pendingServerRow (id_of p) RESOLVE resolver
               | None => Ret None
               end);
    row ← (match pending with Some r => Ret r | None => buildResolve p resolver decided balance decidedBy end);
    match serverKey with
    | None => Ret (inl (mkBuiltTransaction row p))
    | Some key =>
        out ← relayServerSigned row key;
        sent ← apply p out;
        Ret (inr sent)
    end.

Definition submit (p : ProtectedPayment) (scope : SubmitScope) (signedXdr : string) : method SubmittedTransaction :=
  out ← submitSigned (id_of p) (network_of p) scope signedXdr;
  apply p out.
End keys.
