(* ===== verification/EscrowJobs.v ===== *)
(** Who calls the actions on protected payments: the merchant's service
    (protected-payments.service.ts), the buyer's payment link
    (protected-payment-links.service.ts), the admin route
    (admin/protected-payments-admin.service.ts), and the jobs that follow the chain
    and the deadlines (protected-payment-chain-state.ts,
    protected-payment-sync.service.ts, -expiry.service.ts, -deadline.service.ts). *)

From S2P Require Import Intents Signatures Prelude Text Units MerchantFee Webhooks Programs SorobanEnvelope EscrowEnvelope EscrowMath EscrowStore EscrowService.
From stdpp Require Import base tactics list option gmap strings sorting.
From Stdlib Require Import ZArith Lia Ascii.

Open Scope Z_scope.

(** ** The chain's state (protected-payment-chain-state.ts) *)

Record ChainState := mkChainState {
  cs_balance : option Z;
  cs_funded : bool;
  cs_shipped : bool;
  cs_evidence : option string;
  cs_approved : bool;
  cs_disputed : bool;
  cs_released : bool;
  cs_resolved : bool
}.

Definition chainStateOf (read : ContractRead) : res ChainState :=
  let milestone := rd_milestones read ≫= head in
  balance ← balanceStroops (rd_balance read);
  let evidence := m ← milestone; e ← mr_evidence m;
                  if bool_decide (e = ""%string) then None else Some e in
  Ok (mkChainState balance
        (match balance with Some b => 0 <? b | None => false end || rd_released read || rd_resolved read)
        (match evidence with Some _ => true | None => false end
         || match m ← milestone; mr_status m with
            | Some st => bool_decide (toLowerCase st = PROTECTED_PAYMENT_SHIPPED_STATUS)
            | None => false
            end)
        evidence
        (match milestone with Some m => mr_approved m | None => false end)
        (rd_disputed read) (rd_released read) (rd_resolved read)).

(** The steps the contract took and the row has not, in the order they happen. *)
Definition chainSteps (g : Progress) (cs : ChainState) : list LifecycleStepName :=
  let missing (b : bool) st name := if b && bool_decide (stamps g st = None) then [name] else [] in
  missing (cs_funded cs) fundedAt ST_FUNDED ++ missing (cs_shipped cs) shippedAt ST_SHIPPED
  ++ missing (cs_approved cs) approvedAt ST_APPROVED ++ missing (cs_disputed cs) disputedAt ST_DISPUTED
  ++ missing (cs_released cs) releasedAt ST_RELEASED ++ missing (cs_resolved cs) resolvedAt ST_RESOLVED.

(** [orderBy] a date, ascending; a null comes first. *)
Definition date_le (key : ProtectedPayment -> option Z) (a b : ProtectedPayment) : Prop :=
  default (-1) (key a) <= default (-1) (key b).
#[export] Instance date_le_dec key : RelDecision (date_le key).
Proof. intros a b. unfold date_le. apply _. Defined.

(** [findMany({ where, orderBy, take })] *)
Definition findMany (where_ : ProtectedPayment -> bool) (key : ProtectedPayment -> option Z) (n : nat)
    : method (list ProtectedPayment) :=
  asking (fun s => take n (merge_sort (date_le key) (List.filter where_ (payment_rows s)))).

(** [rows.slice(i, i + n)] for [i] stepping by [n]; every step takes a row. *)
Fixpoint batches {A} (fuel n : nat) (l : list A) : list (list A) :=
  match fuel, l with
  | S f, _ :: _ => take n l :: batches f n (drop n l)
  | _, _ => []
  end.

Section jobs.
Context `{SDK : StellarSdk} `{CURVES : Curves} `{ENV : EscrowEnv}.

(** ** Sync *)

Definition dataFor (p : ProtectedPayment) (n : LifecycleStepName) (cs : ChainState) : method StepData :=
  match n with
  | ST_FUNDED => now ← new_Date; Ret (DeadlineData (now + deliveryWindowHours (terms p) * 3600000))
  | ST_SHIPPED => Ret (EvidenceData (cs_evidence cs))
  | ST_DISPUTED =>
      last ← latest (id_of p) DISPUTE;
      let context := match last with
                     | Some r => if bool_decide (b_status r = BUILT) then [] else contextOf r
                     | None => []
                     end in
      Ret (DisputeData (stringOrNull (field "by" context)) (stringOrNull (field "reason" context)))
  | _ => Ret NoData
  end%string.

Definition sync_apply (p : ProtectedPayment) (cs : ChainState) : method unit :=
  for_each (chainSteps (progress p) cs) (fun n =>
    d ← dataFor p n cs;
    now ← new_Date;
    discard (lifecycle_step (id_of p) n d now)).

(** A later answer about the same contract replaces an earlier one. *)
Definition byId (reads : list ContractRead) (c : string) : option ContractRead :=
  List.find (fun r => bool_decide (rd_contractId r = Some c)) (rev reads).

Definition sync_batch (network : string) (batch : list ProtectedPayment) : method unit :=
  reads ← client_contracts network ((fun p => must (contractId (bound p))) <$> batch);
  for_each batch (fun p =>
    match byId reads (must (contractId (bound p))) with
    | Some read => cs ← pure (chainStateOf read); sync_apply p cs
    | None => Ret tt
    end).

(** [updateMany({ where: { id: { in } }, data: { lastSyncedAt } })] *)
Definition stamp_synced (ids : list string) (now : Z) : svc Escrows unit := fun s =>
  (set_payments (fmap (fun p => if bool_decide (id_of p ∈ ids) then set_synced now p else p)) s, Ok tt).

Fixpoint sync_batches (network : string) (l : list (list ProtectedPayment)) : method unit :=
  match l with
  | [] => Ret tt
  | batch :: rest =>
      done ← catching (_ ← sync_batch network batch; Ret true) (fun _ => Ret false);
      if done : bool then
        now ← new_Date;
        _ ← stmt (stamp_synced ((fun p => id_of p) <$> batch) now);
        sync_batches network rest
      else Ret tt
  end.

Definition syncNetwork (network : string) : method unit :=
  rows ← findMany
    (fun p => bool_decide (network_of p = network)
              && bool_decide (status_of p ∈ OPEN_PROTECTED_PAYMENT_STATUSES)
              && negb (bool_decide (contractId (bound p) = None)))
    lastSyncedAt (TRUSTLESS_WORK_READ_BATCH * PROTECTED_PAYMENT_SYNC_MAX_READS);
  sync_batches network (batches (length rows) TRUSTLESS_WORK_READ_BATCH rows).

Definition job_networks : list string := ["testnet"; "public"]%string.

Definition sync_run : method unit :=
  for_each job_networks (fun network => if isConfigured network then syncNetwork network else Ret tt).

(** ** Expiry *)

Definition mayExpire (p : ProtectedPayment) (now : Z) : method bool :=
  out ← outstanding (id_of p) FUND now;
  if out : bool then Ret false
  else if negb (truthy (contractId (bound p))) then Ret true
  else if negb (isConfigured (network_of p)) then Ret false
  else
    reads ← client_contracts (network_of p) [must (contractId (bound p))];
    match head reads with
    | None => Ret false
    | Some read =>
        cs ← pure (chainStateOf read);
        Ret (bool_decide (cs_balance cs = Some 0) && negb (cs_funded cs))
    end.

Definition expiry_run : method unit :=
  now ← new_Date;
  rows ← findMany
    (fun p => bool_decide (status_of p ∈ [P_CREATED; P_AWAITING_FUNDING])
              && (fundingExpiresAt (terms p) <? now - TRUSTLESS_WORK_BUILD_TTL_MS))
    (fun p => Some (fundingExpiresAt (terms p))) PROTECTED_PAYMENT_JOB_BATCH;
  for_each rows (fun p =>
    catching
      (may ← mayExpire p now;
       if may : bool then at_ ← new_Date; discard (lifecycle_step (id_of p) ST_EXPIRED NoData at_) else Ret tt)
      (fun _ => Ret tt)).

(** ** Deadlines *)

Definition guard (work : method unit) : method unit := catching work (fun _ => Ret tt).

Definition markPassed (network : string) : method unit :=
  now ← new_Date;
  rows ← findMany
    (fun p => bool_decide (network_of p = network) && bool_decide (status_of p ∈ IN_DELIVERY_STATUSES)
              && match deliveryDeadlineAt (progress p) with Some t => t <? now | None => false end
              && bool_decide (stamps (progress p) deadlinePassedAt = None))
    (fun p => deliveryDeadlineAt (progress p)) PROTECTED_PAYMENT_JOB_BATCH;
  for_each rows (fun p =>
    guard (at_ ← new_Date; discard (lifecycle_step (id_of p) ST_DEADLINE_PASSED NoData at_))).

Definition disputeAuto (network : string) : method unit :=
  rows ← findMany
    (fun p => bool_decide (network_of p = network) && bool_decide (status_of p ∈ IN_DELIVERY_STATUSES)
              && negb (bool_decide (stamps (progress p) deadlinePassedAt = None))
              && resolvesAutomatically (deadlinePolicy (terms p)))
    (fun p => stamps (progress p) deadlinePassedAt) PROTECTED_PAYMENT_JOB_BATCH;
  for_each rows (fun p => guard (discard (platformDispute p (mkDisputeContext "DEADLINE" None)))).

Definition resolveAuto (network : string) : method unit :=
  rows ← findMany
    (fun p => bool_decide (network_of p = network) && bool_decide (status_of p = P_DISPUTED)
              && bool_decide (disputedBy (progress p) = Some "DEADLINE"%string)
              && resolvesAutomatically (deadlinePolicy (terms p)))
    (fun p => stamps (progress p) disputedAt) PROTECTED_PAYMENT_JOB_BATCH;
  for_each rows (fun p =>
    match DEADLINE_POLICY_BENEFICIARY (deadlinePolicy (terms p)) with
    | None => Ret tt
    | Some who =>
        guard (balance ← balanceOf p; discard (resolve p (wholeBalanceTo who balance) "DEADLINE"))
    end).

Definition deadline_run : method unit :=
  for_each job_networks (fun network =>
    if isConfigured network then
      _ ← markPassed network; _ ← disputeAuto network; resolveAuto network
    else Ret tt).

(** ** The merchant (protected-payments.service.ts)

    [cid] and [network] are the caller's consumer and its key's network. *)

Definition findOwned (cid network i : string) : method ProtectedPayment :=
  p ← asking (fun s => payments s !! i);
  match p with
  | Some p => if bool_decide (pp_consumerId (terms p) = cid) && bool_decide (network_of p = network)
              then Ret p else Raise notFound
  | None => Raise notFound
  end.

Definition merchant_ship (cid network i evidence : string) : method BuiltTransaction :=
  p ← findOwned cid network i; ship p evidence.
Definition merchant_approve (cid network i : string) : method BuiltTransaction :=
  p ← findOwned cid network i; approve p MERCHANT.
Definition merchant_release (cid network i : string) : method BuiltTransaction :=
  p ← findOwned cid network i; release p MERCHANT.
Definition merchant_dispute (cid network i : string) (reason : option string) : method BuiltTransaction :=
  p ← findOwned cid network i;
  out ← dispute p MERCHANT reason None;
  match out with inl b => Ret b | inr _ => Raise JsError end.

Definition cancel (cid network i : string) : method ProtectedPayment :=
  p ← findOwned cid network i;
  if negb (bool_decide (status_of p = P_CREATED)) && negb (bool_decide (status_of p = P_AWAITING_FUNDING))
  then Raise (badRequest InvalidStateTransition)
  else
    now ← new_Date;
    out ← outstanding (id_of p) FUND now;
    if out : bool then Raise (conflict OperationInFlight)
    else
      _ ← (if truthy (contractId (bound p)) then
             balance ← balanceOf p;
             pure (throw_if (0 <? balance) (badRequest InvalidStateTransition))
           else Ret tt);
      at_ ← new_Date;
      cancelled ← lifecycle_step (id_of p) ST_CANCELLED NoData at_;
      match cancelled with Some q => Ret q | None => findOwned cid network i end.

Definition merchant_submit (cid network i xdr : string) : method SubmittedTransaction :=
  p ← findOwned cid network i;
  submit p (mkScope (Some (pp_consumerId (terms p))) (merchantAddress (terms p)) None) xdr.

(** What the validated body of a create holds. *)
Record CreateDto := mkCreateDto {
  dto_amount : string;
  dto_releaseModel : ReleaseModel;
  dto_deadlinePolicy : DeadlinePolicy;
  dto_deliveryWindowHours : Z;
  dto_fundingWindowHours : option Z;
  dto_merchantAddress : string;
  dto_buyerAddress : option string;
  dto_title : string;
  dto_description : option string;
  dto_reference : option string;
  dto_key : option string
}.

Definition normalizedAmount (amount : string) : res string :=
  stroops ← toStroops amount;
  low ← toStroops PROTECTED_PAYMENT_MIN_AMOUNT;
  high ← toStroops PROTECTED_PAYMENT_MAX_AMOUNT;
  _ ← throw_if ((stroops <? low) || (high <? stroops)) (badRequest InvalidAmount);
  fromStroops stroops.

Definition assertParties (network merchant : string) (buyer : option string) : res unit :=
  _ ← throw_if (truthy buyer && bool_decide (buyer = Some merchant)) (badRequest ValidationFailed);
  let server := serverAccounts network in
  throw_if (bool_decide (merchant ∈ server)
            || truthy buyer && bool_decide (must buyer ∈ server)) (badRequest ValidationFailed).

(** [(header ?? body)?.trim()], blank as absent. *)
Definition resolveIdempotencyKey (header body : option string) : option string :=
  raw ← trim <$> match header with Some h => Some h | None => body end;
  if bool_decide (raw = ""%string) then None else Some raw.

(** The terms a replayed create is compared on ([REPLAY_TERMS]); the buyer is the
    one the row has now. *)
Definition replay_terms (t : Terms) (buyer : option string)
    : string * string * ReleaseModel * DeadlinePolicy * Z * string * option string * string * option string * option string :=
  (pp_network t, pp_amount t, releaseModel t, deadlinePolicy t, deliveryWindowHours t, merchantAddress t, buyer,
   pp_title t, pp_description t, pp_reference t).

Definition replay (existing : ProtectedPayment) (t : Terms) (buyer : option string) : res ProtectedPayment :=
  if bool_decide (replay_terms (terms existing) (buyerAddress (bound existing)) = replay_terms t buyer)
  then Ok existing else Throw (conflict IdempotencyConflict).

Definition findKey (cid key : string) (s : Escrows) : option ProtectedPayment :=
  List.find (fun p => bool_decide (pp_consumerId (terms p) = cid) && bool_decide (idempotencyKey (terms p) = Some key))
    (payment_rows s).

(** [create], under the unique index on (consumerId, idempotencyKey). *)
Definition create_payment (data : string -> ProtectedPayment) : svc Escrows ProtectedPayment := fun s =>
  let p := data (cuid (drawn s)) in
  match idempotencyKey (terms p) ≫= fun k => findKey (pp_consumerId (terms p)) k s with
  | Some _ => (s, Throw (UniqueViolation "consumerId_idempotencyKey"))
  | None => (set_drawn (S (drawn s)) (set_payments (fun m => <[id_of p := p]> m) s), Ok p)
  end.

Definition create (cid network : string) (dto : CreateDto) (header : option string) : method ProtectedPayment :=
  _ ← pure (throw_if (negb (isConfigured network)) (unavailable Misconfigured));
  platform ← pure (platform_key network);
  resolver ← pure (disputeResolverFor network (dto_deadlinePolicy dto));
  amount ← pure (normalizedAmount (dto_amount dto));
  _ ← pure (assertParties network (dto_merchantAddress dto) (dto_buyerAddress dto));
  let key := resolveIdempotencyKey header (dto_key dto) in
  let t issuer i funding :=
    mkTerms i cid network (dto_releaseModel dto) (dto_deadlinePolicy dto) (dto_title dto) (dto_description dto)
      (dto_reference dto) amount issuer (dto_merchantAddress dto) env_platformFeeBps key funding
      (dto_deliveryWindowHours dto) in
  let wanted := t ""%string ""%string 0 in
  existing ← match key with Some k => asking (findKey cid k) | None => Ret None end;
  match existing with
  | Some p => pure (replay p wanted (dto_buyerAddress dto))
  | None =>
      issuer ← pure (res_of_option (unavailable Misconfigured) (usdcIssuer network));
      now ← new_Date;
      let funding := now + default PROTECTED_PAYMENT_DEFAULT_FUNDING_HOURS (dto_fundingWindowHours dto) * 3600000 in
      let data i :=
        mkPayment (t issuer i funding)
          (mkBinding (dto_buyerAddress dto) (publicKey platform) (Some resolver) None None)
          (mkProgress P_CREATED (fun _ => None) None None None None None) None in
      made ← catching (p ← stmt (create_payment data); Ret (inl p))
               (fun err =>
                  match key with
                  | Some k =>
                      if negb (isUniqueViolation err) then Raise err
                      else raced ← asking (findKey cid k);
                           match raced with Some q => Ret (inr q) | None => Raise err end
                  | None => Raise err
                  end);
      match made with
      | inl p => _ ← lifecycle_created p; Ret p
      | inr q => pure (replay q wanted (dto_buyerAddress dto))
      end
  end.

(** ** The buyer's link and the admin route *)

Definition findLink (is_uuid : string -> bool) (i : string) : method ProtectedPayment :=
  if negb (is_uuid i) then Raise notFound
  else p ← asking (fun s => payments s !! i); pure (res_of_option notFound p).

Definition link_findPublic (is_uuid : string -> bool) (i : string) : method json :=
  p ← findLink is_uuid i; now ← new_Date; pure (buyerView p now).
Definition link_fund (is_uuid : string -> bool) (i buyer : string) : method BuiltTransaction :=
  p ← findLink is_uuid i; fund p buyer.
Definition link_approve (is_uuid : string -> bool) (i : string) : method BuiltTransaction :=
  p ← findLink is_uuid i; approve p BUYER.
Definition link_release (is_uuid : string -> bool) (i : string) : method BuiltTransaction :=
  p ← findLink is_uuid i; release p BUYER.
Definition link_dispute (is_uuid : string -> bool) (i : string) (reason signature expiresAt : option string)
    : method DisputeOutcome :=
  p ← findLink is_uuid i;
  dispute p BUYER reason
    (if truthy signature && truthy expiresAt then Some (mkProof (must signature) (must expiresAt)) else None).
Definition link_submit (is_uuid : string -> bool) (i xdr : string) : method SubmittedTransaction :=
  p ← findLink is_uuid i;
  if negb (truthy (buyerAddress (bound p))) then Raise notFound
  else submit p (mkScope None (must (buyerAddress (bound p))) None) xdr.

Definition admin_find (i : string) : method ProtectedPayment :=
  p ← asking (fun s => payments s !! i); pure (res_of_option notFound p).

Definition admin_resolve (i buyerAmount merchantAmount actor : string) : method DisputeOutcome :=
  p ← admin_find i;
  b ← pure (toStroops buyerAmount);
  m ← pure (toStroops merchantAmount);
  resolve p (mkSplitDecision b m) actor.

Definition admin_submit (i xdr : string) : method SubmittedTransaction :=
  p ← admin_find i;
  if negb (truthy (disputeResolverAddress (bound p))) then Raise notFound
  else submit p (mkScope None (must (disputeResolverAddress (bound p))) (Some [RESOLVE])) xdr.
End jobs.
