(* ===== verification/EscrowSafety.v ===== *)
(** Protected payments under concurrency: what a payment's row may become
    ([later]), what a transaction handed out for it was checked to be
    ([instructed]), and the invariant every request and job keeps in any
    interleaving. *)

From S2P Require Import Intents Signatures Prelude Text Units MerchantFee Webhooks Programs SorobanEnvelope EscrowEnvelope EscrowCalls EscrowMath EscrowStore EscrowService EscrowJobs.
From stdpp Require Import base tactics list option gmap strings sorting.
From Stdlib Require Import ZArith Lia Ascii.

Open Scope Z_scope.

(** ** One payment *)

(** The moves of the state machine. *)
Definition status_step (a b : ProtectedPaymentStatus) : Prop := canTransitionPP a b = true.

Record later (p p' : ProtectedPayment) : Prop := {
  later_terms : terms p' = terms p;
  later_status : star status_step (status_of p) (status_of p');
  later_stamps : forall st t, stamps (progress p) st = Some t -> stamps (progress p') st = Some t;
  later_buyer : forall b, buyerAddress (bound p) = Some b -> buyerAddress (bound p') = Some b;
  later_contract : forall c, contractId (bound p) = Some c -> contractId (bound p') = Some c;
  later_platform : platformAddress (bound p') = platformAddress (bound p);
  later_resolver : disputeResolverAddress (bound p') = disputeResolverAddress (bound p)
}.

#[export] Instance later_preorder : PreOrder later.
Proof.
  split; [intros p; split; auto with cosmos|].
  intros p q r [] []. split; eauto with cosmos; congruence.
Qed.

(** The timestamp that goes with a status. *)
Definition status_stamp (st : ProtectedPaymentStatus) : option Stamp :=
  match st with
  | P_FUNDED => Some fundedAt | P_SHIPPED => Some shippedAt | P_APPROVED => Some approvedAt
  | P_RELEASED => Some releasedAt | P_DISPUTED => Some disputedAt | P_RESOLVED => Some resolvedAt
  | P_CANCELLED => Some cancelledAt
  | P_CREATED | P_AWAITING_FUNDING | P_EXPIRED => None
  end.

(** What a row's columns say of each other. *)
Record stamped (p : ProtectedPayment) : Prop := {
  stamped_status : forall st, status_stamp (status_of p) = Some st -> is_Some (stamps (progress p) st);
  stamped_contract : status_of p ∉ [P_CREATED; P_EXPIRED; P_CANCELLED] -> is_Some (contractId (bound p));
  stamped_past : forall n st to, stamp (LIFECYCLE_STEPS n) = Some st -> step_to (LIFECYCLE_STEPS n) = Some to ->
    is_Some (stamps (progress p) st) -> star status_step to (status_of p)
}.

Lemma reaching_not_created n st :
  st ∈ stepFrom (LIFECYCLE_STEPS n) -> st = P_CREATED -> n = ST_EXPIRED \/ n = ST_CANCELLED.
Proof. intros H ->. destruct n; auto; exfalso; apply (bool_decide_eq_true_2 _) in H; by vm_compute in H. Qed.

Lemma reaching_step n st to :
  st ∈ stepFrom (LIFECYCLE_STEPS n) -> step_to (LIFECYCLE_STEPS n) = Some to -> status_step st to.
Proof.
  unfold stepFrom. intros H E. rewrite E in H. unfold statusesReaching in H.
  apply list_elem_of_In, filter_In in H. apply H.
Qed.

Lemma apply_data_keeps d g :
  pp_status (apply_data d g) = pp_status g /\ stamps (apply_data d g) = stamps g.
Proof. by destruct d. Qed.

Lemma set_stamp_eq st t f : set_stamp st t f st = Some t.
Proof. unfold set_stamp. by rewrite bool_decide_eq_true_2. Qed.
Lemma set_stamp_keeps st t f st' t' : f st = None -> f st' = Some t' -> set_stamp st t f st' = Some t'.
Proof. unfold set_stamp. intros Hn H. case_bool_decide; congruence. Qed.
Lemma set_stamp_Some st t f st' : is_Some (f st') -> is_Some (set_stamp st t f st').
Proof. unfold set_stamp. case_bool_decide; eauto. Qed.

Lemma step_later n d t p : step_guard n p = true -> later p (step_data n d t p).
Proof.
  unfold step_guard. intros [Hs Hst]%andb_true_iff. apply bool_decide_eq_true in Hs.
  destruct (apply_data_keeps d (progress p)) as [E1 E2].
  split; simpl; try done.
  - destruct (step_to (LIFECYCLE_STEPS n)) as [to|] eqn:Et; simpl; [|rewrite E1; apply star_refl].
    apply star_one. by eapply reaching_step.
  - intros st x Hx. destruct (stamp (LIFECYCLE_STEPS n)) as [st'|]; rewrite E2; [|done].
    apply bool_decide_eq_true in Hst. by apply set_stamp_keeps.
Qed.

Lemma step_stamped n d t p : step_guard n p = true -> stamped p -> stamped (step_data n d t p).
Proof.
  unfold step_guard. intros [Hs Hst]%andb_true_iff [H1 H2 H3]. apply bool_decide_eq_true in Hs.
  destruct (apply_data_keeps d (progress p)) as [E1 E2].
  assert (Hto : forall to, step_to (LIFECYCLE_STEPS n) = Some to -> status_stamp to = stamp (LIFECYCLE_STEPS n))
    by (destruct n; simpl; by intros ? [= <-]).
  split; simpl.
  - intros st Hst'. destruct (step_to (LIFECYCLE_STEPS n)) as [to|] eqn:Et; simpl in Hst'.
    + rewrite (Hto to eq_refl) in Hst'. rewrite Hst'. rewrite set_stamp_eq. eauto.
    + rewrite E1 in Hst'. specialize (H1 _ Hst'). rewrite E2.
      destruct (stamp (LIFECYCLE_STEPS n)); [by apply set_stamp_Some | done].
  - intros Hn. apply H2. intros Hin. apply Hn.
    destruct (decide (status_of p = P_CREATED)) as [Ec|Ec].
    + destruct (reaching_not_created n _ Hs Ec) as [-> | ->]; simpl; repeat constructor.
    + exfalso. assert (status_of p = P_EXPIRED \/ status_of p = P_CANCELLED) as Ht.
      { apply elem_of_cons in Hin as [?|Hin]; [done|]. apply elem_of_cons in Hin as [?|Hin]; [by left|].
        apply list_elem_of_singleton in Hin. by right. }
      clear -Hs Ht. destruct Ht as [E|E]; rewrite E in Hs; destruct n; apply (bool_decide_eq_true_2 _) in Hs; by vm_compute in Hs.
  - intros m st to Hm Hto' Hset.
    assert (Hmove : forall x, star status_step x (status_of p) ->
      star status_step x (default (pp_status (apply_data d (progress p))) (step_to (LIFECYCLE_STEPS n)))).
    { intros x Hx. destruct (step_to (LIFECYCLE_STEPS n)) as [to'|] eqn:En; simpl; [|by rewrite E1].
      eapply star_trans; [exact Hx|]. apply star_one. by eapply reaching_step. }
    destruct (stamp (LIFECYCLE_STEPS n)) as [st'|] eqn:En; rewrite E2 in Hset; [|by eapply Hmove, H3].
    unfold set_stamp in Hset. case_bool_decide as Est; [|by eapply Hmove, H3]. subst st'.
    assert (m = n) as -> by (destruct m, n; simpl in *; congruence). rewrite Hto'. apply star_refl.
Qed.

(** Nothing leaves a terminal status. *)
Lemma terminal_final p p' : later p p' -> isTerminalPP (status_of p) = true -> status_of p' = status_of p.
Proof.
  intros [_ H _ _ _ _ _] Ht. induction H as [a|a b c _ IH Hbc]; [done|].
  specialize (IH Ht). subst b. destruct a; by vm_compute in Ht, Hbc.
Qed.

Section safety.
Context `{SDK : StellarSdk} {LAWS : SdkLaws} `{CURVES : Curves} `{ENV : EscrowEnv}.

(** ** What is handed out to sign *)

(** A row's accounts: as configured, and the buyer not the merchant. *)
Record bound_ok (p : ProtectedPayment) : Prop := {
  bound_platform : platformAddress (bound p) = publicKey (platformSecret (networks (network_of p)));
  bound_resolver : exists r, disputeResolverAddress (bound p) = Some r
    /\ disputeResolverFor (network_of p) (deadlinePolicy (terms p)) = Ok r;
  bound_buyer : forall b, buyerAddress (bound p) = Some b -> b <> ""%string -> b <> merchantAddress (terms p);
  bound_contract : is_Some (contractId (bound p)) -> is_Some (buyerAddress (bound p))
}.

(** The call [e] is one the payment [p] allows: on its own contract, with its own
    terms, signed by the account the roles name. *)
Definition instructed (p : ProtectedPayment) (e : ExpectedTrustlessWorkCall) : Prop :=
  let buyer := buyerAddress (bound p) in
  let merchant := merchantAddress (terms p) in
  let own c := contractId (bound p) = Some c in
  let signs (who : party) s := match who with BUYER => buyer = Some s | MERCHANT => s = merchant end in
  match e with
  | Deploy s c pinDeployer pinWasm =>
      s = platformAddress (bound p) /\ expectedContract p = Ok c /\ is_Some buyer
      /\ pinDeployer = deployerContract (networks (network_of p))
      /\ pinWasm = contractWasmHash (networks (network_of p))
  | Fund s cid c amount =>
      own cid /\ buyer = Some s /\ expectedContract p = Ok c /\ toStroops (pp_amount (terms p)) = Ok amount
  | Ship s cid i _ _ => own cid /\ s = merchant /\ i = PROTECTED_PAYMENT_MILESTONE_INDEX
  | Approve s cid i =>
      own cid /\ i = PROTECTED_PAYMENT_MILESTONE_INDEX
      /\ exists who, approvesUnder (releaseModel (terms p)) who = true /\ signs who s
  | Release s cid =>
      own cid /\ exists who, releasesUnder (releaseModel (terms p)) who = true /\ signs who s
  | Dispute s cid =>
      own cid /\ (s = platformAddress (bound p)
                  \/ exists who, holdsRole (releaseModel (terms p)) who = true /\ signs who s)
  | Resolve s cid ds b m balance =>
      own cid /\ disputeResolverAddress (bound p) = Some s /\ buyer = Some b /\ m = merchant /\ b <> m
      /\ 0 < balance
      /\ exists x y, 0 <= x /\ 0 <= y /\ x + y = balance
           /\ ds = List.filter (fun d => 0 <? d_amount d) [mkDistribution b x; mkDistribution m y]
  end.

Lemma expected_later p p' c : later p p' -> expectedContract p = Ok c -> expectedContract p' = Ok c.
Proof.
  intros [Et _ _ Hb _ Hp Hr]. unfold expectedContract. rewrite Et, Hp, Hr.
  destruct (buyerAddress (bound p)) as [b|] eqn:E; [|done]. by rewrite (Hb b eq_refl).
Qed.

Lemma signs_later p p' who s : later p p' ->
  match who with BUYER => buyerAddress (bound p) = Some s | MERCHANT => s = merchantAddress (terms p) end ->
  match who with BUYER => buyerAddress (bound p') = Some s | MERCHANT => s = merchantAddress (terms p') end.
Proof. intros L. destruct who; [apply L | by rewrite (later_terms _ _ L)]. Qed.

Lemma instructed_later p p' e : later p p' -> instructed p e -> instructed p' e.
Proof.
  intros L. pose proof (later_terms _ _ L) as Et. pose proof (later_platform _ _ L) as Ep.
  pose proof (later_resolver _ _ L) as Er. pose proof (later_contract _ _ L) as Hc.
  pose proof (later_buyer _ _ L) as Hb. pose proof (fun c => expected_later p p' c L) as He.
  pose proof (fun who s => signs_later p p' who s L) as Hs.
  destruct e; simpl; rewrite ?Et, ?Ep, ?Er.
  - intros (? & ? & [b ?] & ? & ?). split_and!; eauto.
  - intros (? & ? & ? & ?). split_and!; eauto.
  - intros (? & ? & ?). split_and!; eauto.
  - intros (? & ? & who & ? & Hw). split_and!; eauto. exists who. split; [done|].
    specialize (Hs who signer Hw). by rewrite Et in Hs.
  - intros (? & who & ? & Hw). split_and!; eauto. exists who. split; [done|].
    specialize (Hs who signer Hw). by rewrite Et in Hs.
  - intros (? & [?|(who & ? & Hw)]); split_and!; eauto. right. exists who. split; [done|].
    specialize (Hs who signer Hw). by rewrite Et in Hs.
  - intros (? & ? & ? & ? & ? & ? & Hx). split_and!; eauto.
Qed.

(** A decided split of two parties names each once: [envelope_check_exact]
    applies to every instruction. *)
Lemma instructed_well_posed p e : instructed p e -> well_posed e.
Proof.
  destruct e; simpl; try done. intros (_ & _ & _ & _ & Hne & _ & x & y & _ & _ & _ & ->).
  unfold decided_shares. simpl. destruct (0 <? x) eqn:Ex, (0 <? y) eqn:Ey; simpl; rewrite ?Ex, ?Ey; simpl.
  all: repeat apply NoDup_cons_2; try apply NoDup_nil_2; try apply not_elem_of_nil.
  by intros H%list_elem_of_singleton.
Qed.

(** The row records an envelope the check accepted for an instruction of [p]. *)
Definition vetted (p : ProtectedPayment) (r : BuiltRow) : Prop :=
  exists e limits chk,
    checkTrustlessWorkEnvelope (b_xdr r) (passphrase_of (b_network r)) e limits = Accepted chk
    /\ transactionHash (ck_tx chk) = b_txHash r
    /\ call_action e = b_action r /\ call_signer e = b_signer r
    /\ instructed p e
    /\ forall facts, ck_deploy chk = Some facts ->
         stringOrNull (field "contractId" (contextOf r)) = Some (df_contractId facts).

Lemma vetted_later p p' r : later p p' -> vetted p r -> vetted p' r.
Proof.
  intros L (e & lim & chk & ? & ? & ? & ? & Hi & ?). exists e, lim, chk. split_and!; try done.
  by eapply instructed_later.
Qed.

(** The columns of a row that never change, and its answer once it has one. *)
Record same_row (r r' : BuiltRow) : Prop := {
  same_id : b_id r' = b_id r;
  same_payment : b_payment r' = b_payment r;
  same_consumer : b_consumerId r' = b_consumerId r;
  same_network : b_network r' = b_network r;
  same_action : b_action r' = b_action r;
  same_signer : b_signer r' = b_signer r;
  same_xdr : b_xdr r' = b_xdr r;
  same_txHash : b_txHash r' = b_txHash r;
  same_context : b_context r' = b_context r;
  same_expiry : b_expiresAt r' = b_expiresAt r;
  same_answer : b_status r = SUBMITTED -> b_status r' = SUBMITTED /\ b_result r' = b_result r
}.

#[export] Instance same_row_preorder : PreOrder same_row.
Proof.
  split; [intros r; by split|]. intros a b c [] []. split; try congruence.
  intros Hx. destruct same_answer0 as [? ?]; [done|]. destruct same_answer1 as [? ?]; [done|].
  split; congruence.
Qed.

Lemma vetted_same p r r' : same_row r r' -> vetted p r -> vetted p r'.
Proof.
  intros [] (e & lim & chk & ? & ? & ? & ? & ? & Hf). exists e, lim, chk. unfold contextOf in *.
  split_and!; try congruence; try done. intros facts Hx. rewrite same_context0. by apply Hf.
Qed.

(** ** The tables *)

(** The contract [c] is what a deploy handed out for the payment creates. *)
Definition backed (s : Escrows) (i c : string) : Prop :=
  exists j r, builts s !! j = Some r /\ b_payment r = i /\ b_action r = DEPLOY
    /\ stringOrNull (field "contractId" (contextOf r)) = Some c.

Record payment_ok (p : ProtectedPayment) : Prop := {
  pay_bound : bound_ok p;
  pay_stamped : stamped p
}.

Definition row_ok (s : Escrows) (r : BuiltRow) : Prop :=
  exists p, payments s !! b_payment r = Some p /\ pp_consumerId (terms p) = b_consumerId r
    /\ network_of p = b_network r /\ vetted p r.

(** [tx] is what the row recorded, but for its signatures. *)
Definition recorded (r : BuiltRow) (tx : Transaction) : Prop :=
  tx_hash tx = b_txHash r
  /\ exists t0, fromXDR (b_xdr r) (passphrase_of (b_network r)) = Some (PlainTransaction t0)
       /\ operations tx = operations t0.

Definition sent_ok (s : Escrows) (network : string) (env : ParsedEnvelope) : Prop :=
  exists tx j r, env = PlainTransaction tx /\ builts s !! j = Some r /\ b_network r = network /\ recorded r tx.

Record escrows_ok (s : Escrows) : Prop := {
  ok_payments : forall i p, payments s !! i = Some p -> id_of p = i /\ payment_ok p;
  ok_backed : forall i p c, payments s !! i = Some p -> contractId (bound p) = Some c -> backed s i c;
  ok_unique : forall i j p q c, payments s !! i = Some p -> payments s !! j = Some q ->
    contractId (bound p) = Some c -> contractId (bound q) = Some c -> i = j;
  ok_rows : forall j r, builts s !! j = Some r -> b_id r = j /\ row_ok s r;
  ok_sent : forall network env, (network, env) ∈ relayed s -> sent_ok s network env;
  ok_fresh : forall n, (drawn s <= n)%nat -> payments s !! cuid n = None /\ builts s !! cuid n = None
}.

(** Payments and rows are still there, further on. *)
Record moved (s s' : Escrows) : Prop := {
  moved_payments : forall i p, payments s !! i = Some p -> exists p', payments s' !! i = Some p' /\ later p p';
  moved_rows : forall j r, builts s !! j = Some r -> exists r', builts s' !! j = Some r' /\ same_row r r'
}.

#[export] Instance moved_preorder : PreOrder moved.
Proof.
  split.
  - intros s. split; [intros i p H; exists p | intros j r H; exists r]; (split; [done | reflexivity]).
  - intros a b c [P1 R1] [P2 R2]. split.
    + intros i p H. destruct (P1 i p H) as (p1 & H1 & L1). destruct (P2 i p1 H1) as (p2 & H2 & L2).
      exists p2. split; [done|]. by etransitivity.
    + intros j r H. destruct (R1 j r H) as (r1 & H1 & L1). destruct (R2 j r1 H1) as (r2 & H2 & L2).
      exists r2. split; [done|]. by etransitivity.
Qed.

Lemma backed_moved s s' i c : moved s s' -> backed s i c -> backed s' i c.
Proof.
  intros [_ R] (j & r & H & Hp & Ha & Hc). destruct (R j r H) as (r' & H' & []).
  exists j, r'. unfold contextOf in *. split_and!; try congruence. by rewrite same_context0.
Qed.

Lemma recorded_same r r' tx : same_row r r' -> recorded r tx -> recorded r' tx.
Proof. intros [] [Hh (t & Ht & Ho)]. split; [congruence|]. exists t. split; [congruence | done]. Qed.

Lemma sent_moved s s' n env : moved s s' -> sent_ok s n env -> sent_ok s' n env.
Proof.
  intros [_ R] (tx & j & r & -> & H & Hn & Hh). destruct (R j r H) as (r' & H' & S).
  exists tx, j, r'. split_and!; [done | done | by rewrite (same_network _ _ S) | by eapply recorded_same].
Qed.

Lemma row_moved s s' r r' : moved s s' -> same_row r r' -> row_ok s r -> row_ok s' r'.
Proof.
  intros [P _] Hr (p & Hp & Hc & Hn & Hv). destruct (P _ p Hp) as (p' & Hp' & L).
  exists p'. rewrite (same_payment _ _ Hr), (same_consumer _ _ Hr), (same_network _ _ Hr), (later_terms _ _ L).
  split_and!; try done. eapply vetted_same; [done|]. by eapply vetted_later.
Qed.

(** A step that moves no payment and no row backwards keeps the invariant, when
    what is new is sound. *)
Lemma escrows_step s s' :
  escrows_ok s -> moved s s' ->
  (forall i p', payments s' !! i = Some p' -> id_of p' = i /\ payment_ok p') ->
  (forall i p' c, payments s' !! i = Some p' -> contractId (bound p') = Some c ->
     (exists p, payments s !! i = Some p /\ contractId (bound p) = Some c) \/
     (backed s' i c /\ forall j q, payments s !! j = Some q -> contractId (bound q) <> Some c)) ->
  (forall i i' p p' c, payments s' !! i = Some p -> payments s' !! i' = Some p' ->
     contractId (bound p) = Some c -> contractId (bound p') = Some c ->
     (forall j q, payments s !! j = Some q -> contractId (bound q) <> Some c) -> i = i') ->
  (forall j r', builts s' !! j = Some r' ->
     (exists r, builts s !! j = Some r) \/ (b_id r' = j /\ row_ok s' r')) ->
  (forall network env, (network, env) ∈ relayed s' ->
     (network, env) ∈ relayed s \/ sent_ok s' network env) ->
  (drawn s <= drawn s')%nat ->
  (forall n, (drawn s' <= n)%nat -> (payments s !! cuid n = None -> payments s' !! cuid n = None)
     /\ (builts s !! cuid n = None -> builts s' !! cuid n = None)) ->
  escrows_ok s' /\ moved s s'.
Proof.
  intros V M Hp Hc Hu Hr Hs Hd Hf. split; [|done]. split.
  - exact Hp.
  - intros i p c H E. destruct (Hc i p c H E) as [(q & Hq & Eq)|[? _]]; [|done].
    eapply backed_moved; [done|]. by eapply ok_backed.
  - intros i j p q c Hi Hj Ei Ej.
    destruct (Hc i p c Hi Ei) as [(p0 & Hp0 & E0)|[_ Hn]]; [|by eapply Hu].
    destruct (Hc j q c Hj Ej) as [(q0 & Hq0 & Eq0)|[_ Hn]]; [by eapply (ok_unique _ V)|].
    by destruct (Hn i p0 Hp0).
  - intros j r' H. destruct (Hr j r' H) as [(r & Hr0)|?]; [|done].
    destruct (moved_rows _ _ M j r Hr0) as (r1 & Hr1 & Hsame). simplify_eq.
    destruct (ok_rows _ V j r Hr0) as [Hid Hok].
    split; [rewrite (same_id _ _ Hsame); done | by eapply row_moved].
  - intros n env H. destruct (Hs n env H) as [H'|?]; [|done].
    eapply sent_moved; [done|]. by apply (ok_sent _ V).
  - intros n Hn. destruct (ok_fresh _ V n ltac:(lia)). destruct (Hf n Hn). auto.
Qed.

(** ** Statements *)

(** The parts of [escrows_step] a statement leaves alone. *)
Lemma replace_payment s i p p' :
  escrows_ok s -> payments s !! i = Some p -> later p p' -> payment_ok p' ->
  (forall c, contractId (bound p') = Some c -> contractId (bound p) = Some c
     \/ backed s i c /\ forall j q, payments s !! j = Some q -> contractId (bound q) <> Some c) ->
  escrows_ok (set_payments (fun m => <[i := p']> m) s) /\ moved s (set_payments (fun m => <[i := p']> m) s).
Proof.
  intros V Hp L Hok Hc.
  assert (M : moved s (set_payments (fun m => <[i := p']> m) s)).
  { split; [|intros j r Hr; exists r; by split]. intros j q Hq. simpl.
    destruct (decide (i = j)) as [<-|Hne].
    - simplify_eq. exists p'. by rewrite lookup_insert_eq.
    - exists q. by rewrite lookup_insert_ne. }
  apply escrows_step; try done; simpl; auto.
  - intros j q. destruct (decide (i = j)) as [<-|Hne].
    + rewrite lookup_insert_eq. intros [= <-]. rewrite (later_terms _ _ L).
      destruct (ok_payments _ V i p Hp). by split.
    + rewrite lookup_insert_ne by done. by apply ok_payments.
  - intros j q c. destruct (decide (i = j)) as [<-|Hne].
    + rewrite lookup_insert_eq. intros [= <-] E. destruct (Hc c E) as [?|[? ?]]; [left; eauto|].
      right. split; [|done]. by eapply backed_moved.
    + rewrite lookup_insert_ne by done. intros Hq E. left. eauto.
  - intros j j' q q' c Hq Hq' E E' Hn.
    destruct (decide (i = j)) as [<-|Hne], (decide (i = j')) as [<-|Hne']; try done.
    + rewrite lookup_insert_ne in Hq' by done. by destruct (Hn j' q' Hq').
    + rewrite lookup_insert_ne in Hq by done. by destruct (Hn j q Hq).
    + rewrite lookup_insert_ne in Hq by done. by destruct (Hn j q Hq).
  - eauto.
  - intros n Hn. split; [|done]. intros Hnone. destruct (decide (i = cuid n)) as [->|Hne]; [congruence|].
    by rewrite lookup_insert_ne.
Qed.

Lemma update_payment_ok i guard data s :
  escrows_ok s ->
  (forall p, payments s !! i = Some p -> guard p = true -> payment_ok p ->
     later p (data p) /\ payment_ok (data p) /\ contractId (bound (data p)) = contractId (bound p)) ->
  escrows_ok (fst (update_payment i guard data s)) /\ moved s (fst (update_payment i guard data s)).
Proof.
  intros V H. unfold update_payment. destruct (payments s !! i) as [p|] eqn:Hp; [|by split].
  destruct (guard p) eqn:Hg; [|by split]. cbn [fst].
  destruct (ok_payments _ V i p Hp) as [_ Hok]. destruct (H p eq_refl Hg Hok) as (L & Hok' & Ec).
  eapply replace_payment; try done. intros c. rewrite Ec. by left.
Qed.

Lemma update_built_ok j guard data s :
  escrows_ok s -> (forall r, builts s !! j = Some r -> guard r = true -> same_row r (data r)) ->
  escrows_ok (fst (update_built j guard data s)) /\ moved s (fst (update_built j guard data s)).
Proof.
  intros V H. unfold update_built. destruct (builts s !! j) as [r|] eqn:Hr; [|by split].
  destruct (guard r) eqn:Hg; [|by split]. cbn [fst]. specialize (H r eq_refl Hg).
  apply escrows_step; try done; simpl; auto.
  - split; [intros i p Hp; exists p; by split|]. intros j' r' Hr'. simpl.
    destruct (decide (j = j')) as [<-|Hne].
    + simplify_eq. exists (data r). by rewrite lookup_insert_eq.
    + exists r'. by rewrite lookup_insert_ne.
  - apply V.
  - eauto.
  - intros i i' p p' c Hp Hp' E E' Hn. by destruct (Hn i p Hp).
  - intros j' r'. destruct (decide (j = j')) as [<-|Hne]; [eauto|].
    rewrite lookup_insert_ne by done. eauto.
  - intros n Hn. split; [done|]. intros Hnone. destruct (decide (j = cuid n)) as [->|Hne]; [congruence|].
    by rewrite lookup_insert_ne.
Qed.

(** A step that leaves both tables alone. *)
Lemma tables_kept s s' :
  escrows_ok s -> payments s' = payments s -> builts s' = builts s -> (drawn s <= drawn s')%nat ->
  (forall network env, (network, env) ∈ relayed s' -> (network, env) ∈ relayed s \/ sent_ok s' network env) ->
  escrows_ok s' /\ moved s s'.
Proof.
  intros V Ep Eb Hd Hs. apply escrows_step; try done; rewrite ?Ep, ?Eb; auto.
  - split; [intros i p; rewrite Ep | intros j r; rewrite Eb]; intros Hx; eexists; by split.
  - apply V.
  - eauto.
  - intros i i' p p' c Hp _ E _ Hn. by destruct (Hn i p Hp).
  - eauto.
Qed.

Context (cuid_inj : forall m n, cuid m = cuid n -> m = n).

Lemma create_built_ok data s :
  escrows_ok s -> b_id (data (cuid (drawn s)) (clock s)) = cuid (drawn s) ->
  row_ok s (data (cuid (drawn s)) (clock s)) ->
  escrows_ok (fst (create_built data s)) /\ moved s (fst (create_built data s)).
Proof.
  intros V Hid Hr. unfold create_built. set (r := data (cuid (drawn s)) (clock s)) in *.
  destruct (findBuilt _ _ _); [by split|]. cbn [fst].
  destruct (ok_fresh _ V (drawn s) ltac:(lia)) as [_ Hfree].
  assert (M : moved s (set_drawn (S (drawn s)) (set_builts (fun m => <[cuid (drawn s) := r]> m) s))).
  { split; [intros i p Hp; exists p; by split|]. intros j r0 Hr0. simpl. exists r0. split; [|done].
    by rewrite lookup_insert_ne by (intros <-; congruence). }
  apply escrows_step; try done; simpl; auto.
  - apply V.
  - eauto.
  - intros i i' p p' c Hp _ E _ Hn. by destruct (Hn i p Hp).
  - intros j r'. destruct (decide (cuid (drawn s) = j)) as [<-|Hne].
    + rewrite lookup_insert_eq. intros [= <-]. right. split; [done|]. by eapply row_moved.
    + rewrite lookup_insert_ne by done. eauto.
  - intros n Hn. split; [done|]. intros Hnone.
    rewrite lookup_insert_ne; [done|]. intros E%cuid_inj. lia.
Qed.

Lemma create_payment_ok data s :
  escrows_ok s -> id_of (data (cuid (drawn s))) = cuid (drawn s) -> payment_ok (data (cuid (drawn s))) ->
  contractId (bound (data (cuid (drawn s)))) = None ->
  escrows_ok (fst (create_payment data s)) /\ moved s (fst (create_payment data s)).
Proof.
  intros V Hid Hok Hc. unfold create_payment. set (p := data (cuid (drawn s))) in *.
  destruct (idempotencyKey _ ≫= _); [by split|]. cbn [fst].
  destruct (ok_fresh _ V (drawn s) ltac:(lia)) as [Hfree _].
  assert (M : moved s (set_drawn (S (drawn s)) (set_payments (fun m => <[id_of p := p]> m) s))).
  { split; [|intros j r Hr; exists r; by split]. intros i q Hq. simpl. exists q. split; [|done].
    rewrite Hid, lookup_insert_ne; [done|]. intros <-. congruence. }
  apply escrows_step; try done; simpl; rewrite ?Hid; auto.
  - intros i q. destruct (decide (cuid (drawn s) = i)) as [<-|Hne].
    + rewrite lookup_insert_eq. intros [= <-]. by split.
    + rewrite lookup_insert_ne by done. by apply ok_payments.
  - intros i q c. destruct (decide (cuid (drawn s) = i)) as [<-|Hne].
    + rewrite lookup_insert_eq. intros [= <-]. congruence.
    + rewrite lookup_insert_ne by done. eauto.
  - intros i i' q q' c Hq Hq' E E' Hn.
    destruct (decide (cuid (drawn s) = i)) as [<-|Hne];
      [rewrite lookup_insert_eq in Hq; congruence|]. rewrite lookup_insert_ne in Hq by done.
    by destruct (Hn i q Hq).
  - eauto.
  - intros n Hn. split; [|done]. intros Hnone.
    rewrite lookup_insert_ne; [done|]. intros E%cuid_inj. lia.
Qed.

Lemma stamp_synced_ok ids now s :
  escrows_ok s -> escrows_ok (fst (stamp_synced ids now s)) /\ moved s (fst (stamp_synced ids now s)).
Proof.
  intros V. unfold stamp_synced. cbn [fst]. set (f := fun p => if bool_decide (id_of p ∈ ids) then set_synced now p else p).
  assert (Hf : forall p, terms (f p) = terms p /\ bound (f p) = bound p /\ progress (f p) = progress p).
  { intros p. unfold f. by case_bool_decide. }
  assert (Hl : forall p, later p (f p)).
  { intros p. destruct (Hf p) as (E1 & E2 & E3). split; rewrite ?E1, ?E2, ?E3; auto with cosmos. }
  apply escrows_step; try done; simpl; auto.
  - split; [|intros j r Hr; exists r; by split]. intros i p Hp. exists (f p). simpl. by rewrite lookup_fmap, Hp.
  - intros i p'. rewrite lookup_fmap, fmap_Some. intros (p & Hp & ->).
    destruct (ok_payments _ V i p Hp) as [Hid [[] []]]. destruct (Hf p) as (E1 & E2 & E3).
    split; [by rewrite E1|]. split; split; rewrite ?E1, ?E2, ?E3; auto.
  - intros i p' c. rewrite lookup_fmap, fmap_Some. intros (p & Hp & ->). destruct (Hf p) as (_ & -> & _). eauto.
  - intros i i' q q' c. rewrite !lookup_fmap, !fmap_Some. intros (p & Hp & ->) _.
    destruct (Hf p) as (_ & -> & _). intros E _ Hn. by destruct (Hn i p Hp).
  - eauto.
  - intros n _. split; [|done]. rewrite lookup_fmap. by intros ->.
Qed.

(** ** Methods *)

#[local] Abbreviation ok := (safe escrows_ok moved).
#[local] Abbreviation yields := (ensures escrows_ok moved).

(** A payment, or a row, read at some moment. *)
Definition known (p : ProtectedPayment) (s : Escrows) : Prop :=
  (exists p', payments s !! id_of p = Some p' /\ later p p') /\ bound_ok p.
Definition held (r : BuiltRow) (s : Escrows) : Prop :=
  (exists r', builts s !! b_id r = Some r' /\ same_row r r') /\ exists p, vetted p r.

Lemma known_now i p s : escrows_ok s -> payments s !! i = Some p -> known p s.
Proof.
  intros V H. destruct (ok_payments _ V i p H) as [Hid [Hb _]]. split; [|done].
  exists p. rewrite Hid. by split.
Qed.

Lemma known_moved p s s' : moved s s' -> known p s -> known p s'.
Proof.
  intros M [(p1 & H1 & L1) Hb]. split; [|done]. destruct (moved_payments _ _ M _ _ H1) as (p2 & H2 & L2).
  exists p2. split; [done|]. by etransitivity.
Qed.

Lemma held_now j r s : escrows_ok s -> builts s !! j = Some r -> held r s.
Proof.
  intros V H. destruct (ok_rows _ V j r H) as [<- (p & _ & _ & _ & Hv)]. split; [by exists r | by exists p].
Qed.

Lemma held_moved r s s' : moved s s' -> held r s -> held r s'.
Proof.
  intros M [(r1 & H1 & S1) Hv]. split; [|done]. destruct (moved_rows _ _ M _ _ H1) as (r2 & H2 & S2).
  exists r2. split; [done|]. by etransitivity.
Qed.

#[local] Hint Resolve known_now known_moved held_now held_moved : core.

Lemma built_rows_elem s r : r ∈ built_rows s -> exists j, builts s !! j = Some r.
Proof.
  unfold built_rows. intros ([j r'] & -> & H)%list_elem_of_fmap. exists j. by apply elem_of_map_to_list.
Qed.

Lemma payment_rows_elem s p : p ∈ payment_rows s <-> exists i, payments s !! i = Some p.
Proof.
  unfold payment_rows. rewrite list_elem_of_fmap. split.
  - intros ([i p'] & -> & H). exists i. by apply elem_of_map_to_list.
  - intros (i & H). exists (i, p). split; [done|]. by apply elem_of_map_to_list.
Qed.

Lemma find_elem {A} (f : A -> bool) l x : List.find f l = Some x -> x ∈ l /\ f x = true.
Proof. intros H. apply find_some in H as [H ?]. split; [by apply list_elem_of_In | done]. Qed.

Lemma newest_elem l r : newest l = Some r -> r ∈ l.
Proof.
  revert r. induction l as [|a l IH]; intros r H; simpl in H; [done|].
  destruct (newest l) as [b|]; [|injection H as ->; by left].
  case_match; injection H as ->; [by left | right; by apply IH].
Qed.

Lemma findPayment_yields i s0 : yields (findPayment i) (fun p s => known p s /\ id_of p = i) s0.
Proof.
  unfold findPayment. apply (ensures_asking_bind _ _ _ (fun p => pure (res_of_option JsError p))).
  intros s _ V. apply ensures_pure. intros p Hp. destruct (payments s !! i) as [q|] eqn:Hq; simplify_eq/=.
  split; [eauto|]. by apply (ok_payments _ V).
Qed.

(** *** The lifecycle *)

Lemma emit_ok user t view s0 : ok (emit_escrow user t view) s0.
Proof.
  apply safe_stmt. intros s _ V. destruct (emit user t view (draw (drawn s)) (e_hooks s)) as [h r] eqn:E.
  cbn [fst]. apply tables_kept; simpl; auto.
Qed.

Lemma notify_ok p t s0 : ok (notify p t) s0.
Proof.
  unfold notify. apply (safe_asking_bind escrows_ok moved). intros s _ V.
  destruct (e_consumers s !! _) as [user|]; [|done].
  apply (safe_pure_bind escrows_ok moved). intros view _. apply (safe_discard escrows_ok moved), emit_ok.
Qed.

Lemma lifecycle_step_yields i n d t s0 :
  yields (lifecycle_step i n d t) (fun o s => forall q, o = Some q -> known q s) s0.
Proof.
  unfold lifecycle_step. apply (ensures_stmt_bind escrows_ok moved). intros s _ V.
  destruct (update_payment_ok i (step_guard n) (step_data n d t) s V) as [V' M].
  { intros p _ Hg [Hb Hs]. split_and!; [by apply step_later | | done]. split; [|by apply step_stamped].
    destruct Hb. by split. }
  split_and!; try done. intros count _. destruct (count =? 0)%nat; [done|].
  apply (ensures_bind escrows_ok moved (fun p s => known p s /\ id_of p = i)).
  { apply findPayment_yields. }
  intros p s1 _ [Hp _]. apply (ensures_bind escrows_ok moved (fun _ s => known p s)).
  - eapply wp_mono; [apply _ | apply notify_ok | ]. intros [u|e] s2 M2 _; [|done]. eauto.
  - intros _ s2 _ Hp2. intros q [= <-]. exact Hp2.
Qed.

Lemma adopt_contract_ok i c s :
  escrows_ok s -> backed s i c ->
  escrows_ok (fst (adopt_contract i c s)) /\ moved s (fst (adopt_contract i c s)).
Proof.
  intros V Hb. unfold adopt_contract. destruct (payments s !! i) as [p|] eqn:Hp; [|by split].
  destruct (bool_decide _ && _) eqn:Eg; [|by split]. apply andb_true_iff in Eg as [Ec Es]. bool_facts.
  destruct (existsb _ _) eqn:Ex; [by split|]. cbn [fst].
  destruct (ok_payments _ V i p Hp) as [_ [[B1 B2 B3 B4] [S1 S2 S3]]].
  assert (is_Some (buyerAddress (bound p))) as Hbuyer.
  { destruct Hb as (j & r & Hr & Hi & Ha & _). destruct (ok_rows _ V j r Hr) as [_ (p' & Hp' & _ & _ & Hv)].
    destruct Hv as (e & lim & chk & _ & _ & He & _ & Hin & _). rewrite Hi in Hp'. simplify_eq.
    rewrite Ha in He. destruct e; try done. apply Hin. }
  eapply replace_payment; try done.
  - split; simpl; auto with cosmos; [|congruence]. apply star_one. by rewrite Es.
  - split; [done|]. split; simpl; try done. intros n st to Hn Ht Hset.
    eapply star_trans; [by eapply S3|]. rewrite Es. by apply star_one.
  - simpl. intros c' [= <-]. right. split; [done|]. intros j q Hq E.
    rewrite existsb_false_forall in Ex. specialize (Ex q (proj2 (payment_rows_elem s q) (ex_intro _ j Hq))).
    by apply bool_decide_eq_false in Ex.
Qed.

Lemma deployed_yields i c s0 :
  backed s0 i c -> yields (lifecycle_deployed i c) (fun p s => known p s /\ id_of p = i) s0.
Proof.
  intros Hb. apply (ensures_stmt_bind escrows_ok moved). intros s M V.
  destruct (adopt_contract_ok i c s V (backed_moved _ _ _ _ M Hb)) as [V' M'].
  split_and!; [exact V' | exact M'|]. intros n _. apply findPayment_yields.
Qed.

(** *** Recording and relaying *)

Lemma accepted_plain envelope pass e lim chk : well_posed e ->
  checkTrustlessWorkEnvelope envelope pass e lim = Accepted chk ->
  fromXDR envelope pass = Some (PlainTransaction (ck_tx chk)).
Proof.
  intros Hw. rewrite checkTrustlessWorkEnvelope_exact by done.
  intros (call & auth & subs & (body & fee & op & Hx & _) & _). exact Hx.
Qed.

(** An accepted call is on a contract that has an id. *)
Lemma accepted_contract envelope pass e lim chk c : well_posed e ->
  checkTrustlessWorkEnvelope envelope pass e lim = Accepted chk ->
  match e with
  | Deploy _ _ _ _ => False
  | Fund _ c' _ _ | Ship _ c' _ _ _ | Approve _ c' _ | Release _ c' | Dispute _ c' | Resolve _ c' _ _ _ _ => c = c'
  end -> c <> ""%string.
Proof.
  intros Hw. rewrite checkTrustlessWorkEnvelope_exact by done.
  intros (call & auth & subs & (body & fee & op & _ & _ & _ & _ & _ & _ & _ & _ & _ & _ & _ & _ & (x & _ & _ & Hne) & _) & Hc & _).
  simpl in Hne. destruct e; simpl in Hc; try done; by intros ->; rewrite <- Hc.
Qed.

Lemma instructed_vetted p envelope net e lim chk r : instructed p e ->
  checkTrustlessWorkEnvelope envelope (passphrase_of net) e lim = Accepted chk ->
  b_xdr r = envelope -> b_network r = net -> b_txHash r = transactionHash (ck_tx chk) ->
  b_action r = call_action e -> b_signer r = call_signer e ->
  (forall facts, ck_deploy chk = Some facts ->
     stringOrNull (field "contractId" (contextOf r)) = Some (df_contractId facts)) ->
  vetted p r.
Proof. intros Hi Hc <- <- Ht Ha Hs Hf. exists e, lim, chk. by split_and!. Qed.

Lemma vetted_parses p r : vetted p r ->
  exists tx, fromXDR (b_xdr r) (passphrase_of (b_network r)) = Some (PlainTransaction tx) /\ tx_hash tx = b_txHash r.
Proof.
  intros (e & lim & chk & Hc & Ht & _ & _ & Hi & _). exists (ck_tx chk). split; [|done].
  eapply accepted_plain; [|done]. by eapply instructed_well_posed.
Qed.

(** The hash of a transaction fixes its operations. *)
Context (hash_binds : forall x y n m t u,
  fromXDR x n = Some (PlainTransaction t) -> fromXDR y m = Some (PlainTransaction u) ->
  tx_hash t = tx_hash u -> operations t = operations u).

Lemma names_call_fun v c d : names_call v c -> names_call v d -> c = d.
Proof.
  intros H%contractCallOf_Some H'%contractCallOf_Some. congruence.
Qed.

Lemma expected_id q c : expectedContract q = Ok c ->
  ex_engagementId c = id_of q /\ exists b, buyerAddress (bound q) = Some b /\ b <> ""%string.
Proof.
  unfold expectedContract. destruct (buyerAddress (bound q)) as [b|]; simpl; [|done].
  destruct b as [|a b]; simpl; [done|]. destruct (negb _); [done|].
  intros (amount & _ & E)%bind_Ok. injection E as <-. split; [done|]. by eexists.
Qed.

(** Two deploys with one hash are the same payment's. *)
Lemma deploy_row_of p p' r envelope s c pin wasm lim chk :
  vetted p' r -> instructed p (Deploy s c pin wasm) ->
  checkTrustlessWorkEnvelope envelope (passphrase_of (network_of p)) (Deploy s c pin wasm) lim = Accepted chk ->
  b_txHash r = transactionHash (ck_tx chk) ->
  b_action r = DEPLOY /\ id_of p' = id_of p.
Proof.
  intros (e & lim' & chk' & Hck' & Ht' & Ha & _ & Hi' & _) Hi Hck Ht.
  assert (Hw : well_posed e) by by eapply instructed_well_posed.
  rewrite checkTrustlessWorkEnvelope_exact in Hck' by done.
  rewrite checkTrustlessWorkEnvelope_exact in Hck by done.
  destruct Hck' as (call' & auth' & subs' & Hone' & _ & Hf' & Hargs' & _).
  destruct Hck as (call & auth & subs & Hone & _ & Hf & Hargs & _).
  destruct Hone' as (body' & fee' & op' & Hx' & _ & _ & _ & _ & _ & _ & _ & _ & Hop' & _ & _ & Hn' & _).
  destruct Hone as (body & fee & op & Hx & _ & _ & _ & _ & _ & _ & _ & _ & Hop & _ & _ & Hn & _).
  simpl in *.
  assert (Eop : operations (ck_tx chk') = operations (ck_tx chk)).
  { eapply hash_binds; [exact Hx' | exact Hx|]. unfold transactionHash in *. congruence. }
  rewrite Hop', Hop in Eop. injection Eop as ->. pose proof (names_call_fun _ _ _ Hn' Hn) as ->.
  rewrite Hf in Hf'. destruct e as [s' c' pin' wasm'| | | | | |]; try discriminate Hf'. simpl in Ha. split; [done|].
  destruct Hargs as (facts & _ & x1 & x2 & x3 & init & w & sa & Ea & _ & _ & _ & _ & (st & _ & Hv) & _).
  destruct Hargs' as (facts' & _ & y1 & y2 & y3 & init' & w' & sa' & Ea' & _ & _ & _ & _ & (st' & _ & Hv') & _).
  rewrite Ea in Ea'. injection Ea' as _ _ _ ->.
  apply decodeContract_Some in Hv, Hv'. rewrite Hv in Hv'. injection Hv' as E _.
  destruct Hi as (_ & He & _). destruct Hi' as (_ & He' & _).
  apply expected_id in He as [He _], He' as [He' _]. congruence.
Qed.

(** What a row handed out, or re-read, has of the row it came from. *)
Definition like (r r' : BuiltRow) : Prop :=
  b_id r' = b_id r /\ b_payment r' = b_payment r /\ b_action r' = b_action r /\ b_context r' = b_context r.

Lemma same_like r r' : same_row r r' -> like r r'.
Proof. by intros []. Qed.

Lemma findBuilt_Some cid h s r : findBuilt cid h s = Some r ->
  (exists j, builts s !! j = Some r) /\ b_consumerId r = cid /\ b_txHash r = h.
Proof.
  intros [Hr [E1 E2]%andb_true_iff]%find_elem. bool_facts. split; [by apply built_rows_elem | done].
Qed.

Lemma field_app k (l m : list (string * json)) : field k l = None -> field k (l ++ m) = field k m.
Proof. induction l as [|[k' v] l IH]; simpl; [done|]. by case_bool_decide. Qed.

Lemma record_yields p e envelope context s0 :
  known p s0 ->
  (forall lim chk, checkTrustlessWorkEnvelope envelope (passphrase_of (network_of p)) e lim = Accepted chk ->
     instructed p e) ->
  field "contractId" (default [] context) = None ->
  yields (record p e envelope context)
    (fun x s => held (fst x) s /\ (call_action e = DEPLOY -> b_action (fst x) = DEPLOY /\ b_payment (fst x) = id_of p))
    s0.
Proof.
  intros Hk Hin Hctx. unfold record.
  apply (ensures_asking_bind escrows_ok moved). intros s1 M1 V1.
  destruct (checkTrustlessWorkEnvelope _ _ _ _) as [chk|reason] eqn:Eck; [|done].
  specialize (Hin _ _ Eck). set (fullContext := match ck_deploy chk with Some _ => _ | None => _ end).
  match goal with |- context [upsert_built _ _ ?d] => set (data := d) end.
  assert (Hfresh : forall i created, vetted p (data i created)).
  { intros i created. eapply (instructed_vetted p envelope _ e _ chk); try done.
    intros facts Hf. unfold contextOf, data, fullContext. simpl. rewrite Hf.
    rewrite field_app by done. done. }
  assert (Hfound : forall r s, moved s1 s -> escrows_ok s ->
    findBuilt (pp_consumerId (terms p)) (transactionHash (ck_tx chk)) s = Some r ->
    held r s /\ (call_action e = DEPLOY -> b_action r = DEPLOY /\ b_payment r = id_of p)).
  { intros r s M V ((j & Hj) & _ & Ht)%findBuilt_Some. split; [by eapply held_now|]. intros Hd.
    destruct (ok_rows _ V j r Hj) as [_ (q & Hq & _ & _ & Hv)].
    destruct e as [sg c pin wasm| | | | | |]; try discriminate Hd.
    destruct (deploy_row_of p q r _ _ _ _ _ _ _ Hv Hin Eck Ht) as [? Eid]. split; [done|].
    rewrite <- Eid. symmetry. by apply (ok_payments _ V). }
  apply (ensures_bind escrows_ok moved (fun r s => held r s /\ (call_action e = DEPLOY -> b_action r = DEPLOY /\ b_payment r = id_of p))).
  - apply (ensures_catching escrows_ok moved).
    + unfold upsert_built. apply (ensures_asking_bind escrows_ok moved). intros s2 M2 V2.
      destruct (findBuilt _ _ s2) as [r|] eqn:Ef; [by apply Hfound|].
      apply wp_stmt. intros s3 M3 V3.
      assert (Hk3 : known p s3) by (eapply known_moved; [|exact Hk]; etransitivity; [exact M1|]; by etransitivity).
      destruct Hk3 as [(p' & Hp' & L) _].
      assert (Hrow : row_ok s3 (data (cuid (drawn s3)) (clock s3))).
      { exists p'. unfold data. simpl. rewrite (later_terms _ _ L). split_and!; try done.
        eapply vetted_later; [exact L|]. apply Hfresh. }
      destruct (create_built_ok data s3 V3 eq_refl Hrow) as [V' M']. split_and!; [exact V' | exact M'|].
      unfold create_built. destruct (findBuilt _ _ s3); [done|]. cbn [fst snd].
      split; [|by intros]. split; [|by exists p]. simpl. eexists. rewrite lookup_insert_eq. by split.
    + intros err s2 M2. destruct (negb (isUniqueViolation err)); [done|].
      apply (ensures_asking_bind escrows_ok moved _ (fun r => pure (res_of_option JsError r))). intros s3 M3 V3.
      apply ensures_pure. intros r Hr.
      destruct (findBuilt _ _ s3) as [r'|] eqn:Ef; simplify_eq/=. apply Hfound; [by etransitivity | done | done].
  - intros r s2 M2 Hr. exact Hr.
Qed.

(** *** Relaying *)

Lemma claim_row r now t : claimable now r = true -> same_row r (set_claim SUBMITTING t r).
Proof.
  unfold claimable. intros [_ H]%andb_true_iff. split; try done. simpl. intros E.
  rewrite E in H. done.
Qed.

Lemma claimed_not_submitted t r : claimed_by t r = true -> b_status r <> SUBMITTED.
Proof. unfold claimed_by. intros [H _]%andb_true_iff. bool_facts. congruence. Qed.

Lemma client_send_ok network tx s0 :
  (forall s, moved s0 s -> escrows_ok s -> sent_ok s network tx) -> ok (client_send network tx) s0.
Proof.
  intros H. unfold client_send. apply (safe_pure_bind escrows_ok moved). intros cfg _.
  intros s Ms V. pose proof (H s Ms V) as Hs.
  destruct (tables_kept s (log_relay network tx s) V eq_refl eq_refl ltac:(simpl; lia)) as [V' M'].
  { simpl. intros n env Hin. apply elem_of_app in Hin as [?|Hin]; [by left|].
    apply list_elem_of_singleton in Hin as [= -> ->]. right.
    destruct Hs as (t & j & r & ? & ? & ? & ?). by exists t, j, r. }
  split_and!; [exact V' | exact M'|]. simpl.
  destruct (tw_send (provider s) network tx) as [j| |err]; try done. destruct j; try done.
  destruct (field _ fields) as [[]|]; done.
Qed.

Lemma relay_yields r tx s0 :
  held r s0 -> recorded r tx ->
  yields (relay r (PlainTransaction tx)) (fun out s => like r (out_row out)) s0.
Proof.
  intros Hr Htx. unfold relay. destruct (bool_decide _); [by split_and!|].
  apply (ensures_asking_bind escrows_ok moved). intros s1 M1 V1. destruct (_ <? _); [done|].
  apply (ensures_stmt_bind escrows_ok moved). intros s2 M2 V2.
  destruct (update_built_ok (b_id r) (claimable (clock s1)) (set_claim SUBMITTING (Some (clock s1))) s2 V2) as [V3 M3].
  { intros r' _ Hg. by eapply claim_row. }
  split_and!; [exact V3 | exact M3|]. intros count _. set (s3 := fst _) in *.
  assert (Hr3 : held r s3) by (eapply held_moved; [|exact Hr]; etransitivity; [exact M1|]; by etransitivity).
  assert (Hre : forall s r', moved s3 s -> builts s !! b_id r = Some r' -> like r r').
  { intros s r' M H. destruct (held_moved _ _ _ M Hr3) as [(r'' & H' & S) _]. simplify_eq. by apply same_like. }
  destruct (count =? 0)%nat.
  { unfold answerLostClaim. apply (ensures_asking_bind escrows_ok moved). intros s4 M4 V4.
    destruct (builts s4 !! b_id r) as [r'|] eqn:E; [|done]. destruct (b_status r'); try done. simpl.
    by eapply Hre. }
  apply (ensures_bind escrows_ok moved (fun _ _ => True)).
  { apply (safe_ensures escrows_ok moved). apply (safe_catching escrows_ok moved).
    - apply client_send_ok. intros s M V. destruct (held_moved _ _ _ M Hr3) as [(r' & H & S) _].
      exists tx, (b_id r), r'. split_and!; [done | done | apply S | by eapply recorded_same].
    - intros err s4 M4. apply (safe_bind escrows_ok moved); [|done].
      apply safe_stmt. intros s5 M5 V5. apply update_built_ok; [done|].
      intros r' _ Hg%claimed_not_submitted. by split. }
  intros result s4 M4 _. apply (ensures_asking_bind escrows_ok moved). intros s5 M5 V5.
  apply (ensures_stmt_bind escrows_ok moved). intros s6 M6 V6.
  destruct (update_built_ok (b_id r) (claimed_by (clock s1)) (set_answer (clock s5) result) s6 V6) as [V7 M7].
  { intros r' _ Hg%claimed_not_submitted. by split. }
  split_and!; [exact V7 | exact M7|]. intros stored _.
  match goal with |- context [fst (update_built ?i ?g ?d s6)] => set (s7 := fst (update_built i g d s6)) in * end.
  assert (M37 : moved s3 s7) by (etransitivity; [exact M4|]; etransitivity; [exact M5|]; by etransitivity).
  apply (ensures_bind escrows_ok moved (fun o _ => forall r', o = Some r' -> like r r')).
  - destruct (stored =? 0)%nat; [|by intros ? ?].
    apply wp_asking; [apply _|]. intros s8 M8 V8 r' E. eapply Hre; [|exact E]. by etransitivity.
  - intros o s8 M8 Ho. destruct o as [r'|]; [|by split_and!]. destruct (bool_decide _); [by apply (Ho r') | by split_and!].
Qed.

Lemma relayServerSigned_yields r k s0 :
  held r s0 -> yields (relayServerSigned r k) (fun out s => like r (out_row out)) s0.
Proof.
  intros Hr. unfold relayServerSigned. destruct (negb _); [done|].
  apply (ensures_pure_bind escrows_ok moved). intros env Henv.
  destruct Hr as [Hr (p & Hv)]. destruct (vetted_parses p r Hv) as (tx & Htx & Hh). rewrite Htx in Henv.
  injection Henv as <-. apply relay_yields; [split; [done | by exists p]|]. split; [done|]. by exists tx.
Qed.

Lemma signedEnvelope_parses x n tx : signedEnvelope x n = Ok tx -> fromXDR x n = Some (PlainTransaction tx).
Proof. unfold signedEnvelope. destruct (fromXDR x n) as [[t|]|]; try done. destruct (signatures t); [done|]. by intros [= ->]. Qed.

Lemma submitSigned_yields pid network scope xdr s0 :
  yields (submitSigned pid network scope xdr) (fun _ _ => True) s0.
Proof.
  unfold submitSigned. apply (ensures_pure_bind escrows_ok moved). intros tx Htx%signedEnvelope_parses.
  apply (ensures_asking_bind escrows_ok moved). intros s M V.
  destruct (List.find _ _) as [r|] eqn:Er; [|done]. apply find_elem in Er as [Hin Hsc].
  destruct (built_rows_elem _ _ Hin) as [j Hj].
  eapply ensures_mono; [apply _ | apply relay_yields | done]; [by eapply held_now|].
  unfold in_scope in Hsc. do 3 apply andb_true_iff in Hsc as [Hsc _]. apply andb_true_iff in Hsc as [_ Hsc].
  apply bool_decide_eq_true in Hsc. destruct (held_now _ _ _ V Hj) as [_ (p & Hv)].
  destruct (vetted_parses p r Hv) as (t & Ht & Hh). split; [done|]. exists t. split; [done|].
  eapply hash_binds; [exact Htx | exact Ht|]. unfold transactionHash in Hsc. congruence.
Qed.

Lemma latest_yields pid a s0 :
  yields (latest pid a) (fun o s => forall r, o = Some r -> held r s /\ b_payment r = pid /\ b_action r = a) s0.
Proof.
  apply wp_asking; [apply _|]. intros s M V r Hr. apply newest_elem in Hr.
  apply list_elem_of_In, filter_In in Hr as [Hin [E1 E2]%andb_true_iff]. bool_facts.
  apply list_elem_of_In in Hin. destruct (built_rows_elem _ _ Hin) as [j Hj]. split; [by eapply held_now | done].
Qed.

Lemma pending_yields pid a signer s0 :
  yields (pendingServerRow pid a signer) (fun o s => forall r, o = Some r -> held r s) s0.
Proof.
  unfold pendingServerRow. eapply (ensures_bind escrows_ok moved); [apply latest_yields|].
  intros o s1 M1 Ho. apply (ensures_asking_bind escrows_ok moved). intros s2 M2 V2 r Hr.
  destruct o as [r'|]; [|done]. case_match; [|done]. injection Hr as <-.
  destruct (Ho r' eq_refl) as [H' _]. eapply held_moved; [|exact H']. done.
Qed.

(** *** The deploy *)

#[local] Hint Resolve safe_ensures : core.

Lemma findPayment_like p s0 :
  known p s0 -> yields (findPayment (id_of p)) (fun q s => known q s /\ terms q = terms p) s0.
Proof.
  intros Hp. apply (ensures_asking_bind escrows_ok moved _ (fun q => pure (res_of_option JsError q))).
  intros s M V. apply ensures_pure. intros q Hq. destruct (known_moved _ _ _ M Hp) as [(p' & Hp' & L) _].
  rewrite Hp' in Hq. simplify_eq/=. split; [by eapply known_now | apply L].
Qed.

Lemma held_backed r s c : held r s -> b_action r = DEPLOY ->
  stringOrNull (field "contractId" (contextOf r)) = Some c -> backed s (b_payment r) c.
Proof.
  intros [(r' & H & []) _] Ha Hc. exists (b_id r), r'. unfold contextOf in *. rewrite same_context0.
  split_and!; congruence.
Qed.

Lemma client_contracts_ok network ids s0 : ok (client_contracts network ids) s0.
Proof.
  unfold client_contracts. destruct ids as [|c ids]; [done|]. apply (safe_pure_bind escrows_ok moved). intros cfg _.
  apply (safe_asking_bind escrows_ok moved). intros s _ _. by destruct (tw_contracts _ _ _).
Qed.

Lemma client_build_ok network body s0 : ok (client_build network body) s0.
Proof.
  unfold client_build. apply (safe_pure_bind escrows_ok moved). intros cfg _.
  apply (safe_asking_bind escrows_ok moved). intros s _ _.
  destruct (tw_build _ _ _) as [j| |]; try done. destruct j; try done.
  destruct (field "status" fields) as [[]|]; try done.
  destruct (field "unsignedTransaction" fields) as [[]|]; try done. by destruct (_ || _).
Qed.

Lemma finishDeploy_yields p r k s0 :
  held r s0 -> b_payment r = id_of p -> b_action r = DEPLOY ->
  yields (finishDeploy p r k) (fun q s => known q s /\ id_of q = id_of p) s0.
Proof.
  intros Hr Ei Ha. unfold finishDeploy.
  eapply (ensures_bind escrows_ok moved); [by apply relayServerSigned_yields|].
  intros out s1 M1 (_ & _ & _ & Ec). destruct (succeeded out); [|done].
  destruct (stringOrNull _) as [c|] eqn:E; [|done]. apply deployed_yields. rewrite <- Ei.
  apply held_backed; [by eapply held_moved | done|]. unfold contextOf in *. by rewrite Ec in E.
Qed.

Lemma recoverDeploy_yields p s0 :
  yields (recoverDeploy p) (fun o s => forall q, o = Some q -> known q s /\ id_of q = id_of p) s0.
Proof.
  assert (Hret : forall m s, yields m (fun q s => known q s /\ id_of q = id_of p) s ->
    yields (q ← m; Ret (Some q)) (fun o s => forall q, o = Some q -> known q s /\ id_of q = id_of p) s).
  { intros m s H. eapply (ensures_bind escrows_ok moved); [exact H|]. intros q s' _ Hq q' [= <-]. exact Hq. }
  unfold recoverDeploy. eapply (ensures_bind escrows_ok moved); [apply latest_yields|].
  intros o s1 M1 Ho. destruct o as [r|]; [|done]. destruct (Ho r eq_refl) as (Hr & Ei & Ha).
  destruct (stringOrNull _) as [c|] eqn:Ec; [|done].
  assert (Hb : forall s, moved s1 s -> backed s (id_of p) c).
  { intros s M. rewrite <- Ei. apply held_backed; [by eapply held_moved | done | done]. }
  destruct (_ && _); [apply Hret, deployed_yields; by apply Hb|].
  apply (ensures_asking_bind escrows_ok moved). intros s2 M2 _. destruct (_ && _).
  - apply (ensures_pure_bind escrows_ok moved). intros k _.
    apply Hret, finishDeploy_yields; [by eapply held_moved | done | done].
  - eapply (ensures_bind escrows_ok moved); [apply (safe_ensures escrows_ok moved), client_contracts_ok|].
    intros reads s3 M3 _. destruct (existsb _ reads); [|done]. apply Hret, deployed_yields, Hb. by etransitivity.
Qed.

Lemma bind_later p buyer platform resolver now :
  bound_ok p -> deploy_claimable now buyer p = true ->
  platform = publicKey (platformSecret (networks (network_of p))) ->
  disputeResolverFor (network_of p) (deadlinePolicy (terms p)) = Ok resolver ->
  (buyer <> ""%string -> buyer <> merchantAddress (terms p)) ->
  later p (bind_buyer buyer platform resolver now p) /\ bound_ok (bind_buyer buyer platform resolver now p).
Proof.
  intros [B1 (r & B2 & B3) B4 B5] Hg -> Hr Hne. unfold deploy_claimable in Hg.
  apply andb_true_iff in Hg as [Hg _]. apply andb_true_iff in Hg as [Hg Hb].
  apply andb_true_iff in Hg as [_ Hc]. apply bool_decide_eq_true in Hc.
  assert (r = resolver) as -> by congruence. split; split; simpl; eauto with cosmos; try congruence.
  - intros b E. apply orb_true_iff in Hb as [Hb|Hb]; apply bool_decide_eq_true in Hb; congruence.
  - intros b [= <-]. exact Hne.
Qed.

Lemma claimDeploy_yields p buyer platform s0 :
  known p s0 -> platform = publicKey (platformSecret (networks (network_of p))) ->
  (buyer <> ""%string -> buyer <> merchantAddress (terms p)) ->
  yields (claimDeploy p buyer platform) (fun q s => known q s /\ terms q = terms p) s0.
Proof.
  intros Hp Hpl Hne. unfold claimDeploy. apply (ensures_asking_bind escrows_ok moved). intros s1 M1 _.
  apply (ensures_pure_bind escrows_ok moved). intros resolver Hres.
  apply (ensures_stmt_bind escrows_ok moved). intros s2 M2 V2.
  assert (Hp2 : known p s2) by (eapply known_moved; [|exact Hp]; by etransitivity).
  destruct (update_payment_ok (id_of p) (deploy_claimable (clock s1) buyer)
              (bind_buyer buyer platform resolver (clock s1)) s2 V2) as [V3 M3].
  { intros p' Hp' Hg [Hb [S1 S2]]. destruct Hp2 as [(p2 & E & L) _]. simplify_eq.
    pose proof (later_terms _ _ L) as Et.
    destruct (bind_later p2 buyer (publicKey (platformSecret (networks (network_of p)))) resolver (clock s1)) as [L' B'];
      rewrite ?Et; try done. }
  split_and!; [exact V3 | exact M3|]. intros count _.
  eapply (ensures_bind escrows_ok moved); [apply findPayment_like; by eapply known_moved|].
  intros q s4 M4 Hq. destruct (count =? 1)%nat; [exact Hq|]. destruct (truthy _); [exact Hq|].
  apply (ensures_pure_bind escrows_ok moved). intros [] _.
  by apply (ensures_pure_bind escrows_ok moved).
Qed.

Lemma load_ok network a s0 : ok (load network a) s0.
Proof. apply (safe_asking_bind escrows_ok moved). intros s _ _. by destruct (loadAccount s network a). Qed.

Lemma preflight_ok p buyer s0 : ok (preflight p buyer) s0.
Proof.
  unfold preflight. apply (safe_pure_bind escrows_ok moved). intros [] _.
  apply (safe_bind escrows_ok moved); [apply load_ok|]. intros balances s1 _.
  apply (safe_pure_bind escrows_ok moved). intros [] _. apply (safe_pure_bind escrows_ok moved). intros x _.
  apply (safe_pure_bind escrows_ok moved). intros y _. apply (safe_pure_bind escrows_ok moved). intros [] _.
  apply (safe_bind escrows_ok moved); [apply load_ok|]. intros merchant s2 _. apply safe_pure.
Qed.

Lemma platform_key_public network k : platform_key network = Ok k -> k = platformSecret (networks network).
Proof. unfold platform_key. case_bool_decide; [done|]. by intros [= <-]. Qed.

Lemma deploy_yields p buyer s0 :
  known p s0 -> (buyer <> ""%string -> buyer <> merchantAddress (terms p)) ->
  yields (deploy p buyer) (fun q s => known q s) s0.
Proof.
  intros Hp Hne. unfold deploy. eapply (ensures_bind escrows_ok moved); [apply recoverDeploy_yields|].
  intros o s1 M1 Ho. destruct o as [q|]; [by apply (Ho q)|].
  eapply (ensures_bind escrows_ok moved); [apply (safe_ensures escrows_ok moved), preflight_ok|].
  intros [] s2 M2 _. apply (ensures_pure_bind escrows_ok moved). intros k Hk%platform_key_public.
  eapply (ensures_bind escrows_ok moved).
  { apply claimDeploy_yields; [|by rewrite Hk | done]. eapply known_moved; [|exact Hp]. by etransitivity. }
  intros q s3 M3 [Hq Et]. destruct (truthy _); [exact Hq|].
  apply (ensures_finally escrows_ok moved).
  - intros a s s' Ha M. by eapply known_moved.
  - apply (ensures_pure_bind escrows_ok moved). intros c Hc.
    apply (ensures_pure_bind escrows_ok moved). intros amount _.
    eapply (ensures_bind escrows_ok moved); [apply (safe_ensures escrows_ok moved), client_build_ok|].
    intros xdr s4 M4 _. eapply (ensures_bind escrows_ok moved).
    { apply record_yields; [by eapply known_moved | | done]. intros lim chk _. simpl.
      destruct (expected_id q c Hc) as (_ & b & Hb & _). destruct Hq as [_ [Bp _ _ _]].
      rewrite Et in *. split_and!; try done. by rewrite Bp, Hk. }
    intros [r chk] s5 M5 [Hr Hd]. destruct (Hd eq_refl) as [Ha Ei].
    eapply ensures_mono; [apply _ | by apply finishDeploy_yields|]. intros q' s6 _ [H' _]. exact H'.
  - intros s4 M4. apply (safe_discard escrows_ok moved), safe_stmt. intros s5 M5 V5.
    apply update_payment_ok; [done|]. intros q' _ _ [Hb Hs]. split; [|split; [|done]].
    + split; simpl; auto with cosmos.
    + destruct Hb, Hs. split; by split.
Qed.

(** *** Builds *)

Lemma assertBuyer_Ok p buyer u : assertBuyer p buyer = Ok u ->
  buyer <> merchantAddress (terms p)
  /\ forall b, buyerAddress (bound p) = Some b -> b <> ""%string -> b = buyer.
Proof.
  unfold assertBuyer. intros (v & H1 & (w & H2 & _)%bind_Ok)%bind_Ok.
  apply throw_if_Ok in H1, H2. apply bool_decide_eq_false in H2. split; [done|].
  intros b E Hb. rewrite E in H1. apply andb_false_iff in H1 as [H1|H1].
  - by destruct b.
  - apply negb_false_iff, bool_decide_eq_true in H1. congruence.
Qed.

Lemma truthy_must o : truthy o = true -> o = Some (must o).
Proof. by destruct o. Qed.

Lemma buildable_contract p a u : assertBuildable p a = Ok u -> a <> FUND -> a <> DEPLOY ->
  contractId (bound p) = Some (must (contractId (bound p))).
Proof.
  unfold assertBuildable. intros (v & _ & H)%bind_Ok Hf Hd. apply throw_if_Ok in H.
  rewrite !bool_decide_eq_false_2 in H by done. simpl in H. apply negb_false_iff in H. by apply truthy_must.
Qed.

Lemma partyAddress_signs p who s : partyAddress p who = Ok s ->
  match who with BUYER => buyerAddress (bound p) = Some s | MERCHANT => s = merchantAddress (terms p) end.
Proof.
  destruct who; simpl; [|by intros [= <-]]. destruct (truthy _) eqn:E; [|done].
  intros [= <-]. by apply truthy_must.
Qed.

(** Builds an envelope and records it. *)
Lemma build_record_ok {A} p body e context (k : BuiltRow * TrustlessWorkEnvelope -> method A) network s0 :
  known p s0 -> well_posed e ->
  (forall lim envelope chk,
     checkTrustlessWorkEnvelope envelope (passphrase_of (network_of p)) e lim = Accepted chk -> instructed p e) ->
  field "contractId" (default [] context) = None ->
  (forall x s, moved s0 s -> held (fst x) s -> ok (k x) s) ->
  ok (xdr ← client_build network body; x ← record p e xdr context; k x) s0.
Proof.
  intros Hp _ Hi Hc Hk. apply (safe_bind escrows_ok moved); [apply client_build_ok|]. intros xdr s1 M1.
  apply (ensures_safe escrows_ok moved _ (fun _ _ => True)).
  eapply (ensures_bind escrows_ok moved).
  - apply record_yields; [by eapply known_moved | | exact Hc]. intros lim chk. apply Hi.
  - intros x s2 M2 [Hx _]. apply (safe_ensures escrows_ok moved), Hk; [by etransitivity | done].
Qed.

Lemma fund_ok p buyer s0 : known p s0 -> ok (fund p buyer) s0.
Proof.
  intros Hp. unfold fund. apply (safe_pure_bind escrows_ok moved). intros [] _.
  apply (safe_asking_bind escrows_ok moved). intros s1 M1 _.
  apply (safe_pure_bind escrows_ok moved). intros [] _.
  apply (safe_pure_bind escrows_ok moved). intros [] [Hne _]%assertBuyer_Ok.
  apply (ensures_safe escrows_ok moved _ (fun _ _ => True)).
  apply (ensures_bind escrows_ok moved (fun q s => known q s)).
  { destruct (truthy _); [by eapply known_moved | apply deploy_yields; [by eapply known_moved | done]]. }
  intros q s2 M2 Hq. apply (ensures_pure_bind escrows_ok moved). intros [] [_ Hb]%assertBuyer_Ok.
  apply (ensures_pure_bind escrows_ok moved). intros amount Ha.
  apply (ensures_pure_bind escrows_ok moved). intros text _.
  eapply (ensures_bind escrows_ok moved); [apply (safe_ensures escrows_ok moved), client_build_ok|].
  intros xdr s3 M3 _. apply (ensures_pure_bind escrows_ok moved). intros c Hc.
  eapply (ensures_bind escrows_ok moved).
  - apply record_yields; [by eapply known_moved | | done]. intros lim chk Hck. simpl.
    pose proof (accepted_contract _ _ (Fund buyer (must (contractId (bound q))) c amount) _ _ (must (contractId (bound q))) I Hck eq_refl) as Hne'.
    destruct (expected_id q c Hc) as (_ & b & Eb & Hbn). split_and!; try done.
    + destruct (contractId (bound q)); [done | by destruct Hne'].
    + rewrite Eb. f_equal. by apply Hb.
  - by intros x s4 M4 _.
Qed.

Lemma ship_ok p evidence s0 : known p s0 -> ok (ship p evidence) s0.
Proof.
  intros Hp. unfold ship. apply (safe_pure_bind escrows_ok moved). intros u Hu.
  apply (build_record_ok p); [done | done | | done | done].
  intros lim envelope chk _. simpl. split_and!; try done. by apply (buildable_contract p SHIP u).
Qed.

Lemma approve_ok p who s0 : known p s0 -> ok (approve p who) s0.
Proof.
  intros Hp. unfold approve. apply (safe_pure_bind escrows_ok moved). intros [] Hw%throw_if_Ok%negb_false_iff.
  apply (safe_pure_bind escrows_ok moved). intros u Hu.
  apply (safe_pure_bind escrows_ok moved). intros sg Hs%partyAddress_signs.
  apply (build_record_ok p); [done | done | | done | done].
  intros lim envelope chk _. simpl. split_and!; try done; [by apply (buildable_contract p APPROVE u) | by exists who].
Qed.

Lemma release_ok p who s0 : known p s0 -> ok (release p who) s0.
Proof.
  intros Hp. unfold release. apply (safe_pure_bind escrows_ok moved). intros [] Hw%throw_if_Ok%negb_false_iff.
  apply (safe_pure_bind escrows_ok moved). intros u Hu.
  apply (safe_pure_bind escrows_ok moved). intros sg Hs%partyAddress_signs.
  apply (build_record_ok p); [done | done | | done | done].
  intros lim envelope chk _. simpl. split; [by apply (buildable_contract p RELEASE u) | by exists who].
Qed.

Lemma buildDispute_yields p sg context s0 :
  known p s0 -> (forall c, contractId (bound p) = Some c -> instructed p (Dispute sg c)) ->
  yields (buildDispute p sg context) (fun r s => held r s) s0.
Proof.
  intros Hp Hi. unfold buildDispute.
  eapply (ensures_bind escrows_ok moved); [apply (safe_ensures escrows_ok moved), client_build_ok|].
  intros xdr s1 M1 _. eapply (ensures_bind escrows_ok moved).
  - apply record_yields; [by eapply known_moved | | done]. intros lim chk Hck.
    pose proof (accepted_contract _ _ (Dispute sg (must (contractId (bound p)))) _ _ (must (contractId (bound p))) I Hck eq_refl) as Hne.
    apply Hi. destruct (contractId (bound p)); [done | by destruct Hne].
  - intros x s2 M2 [Hx _]. exact Hx.
Qed.

(** *** What a landed transaction does *)

Lemma apply_ok p out s0 : ok (EscrowService.apply p out) s0.
Proof.
  unfold EscrowService.apply. apply (safe_bind escrows_ok moved); [|done].
  destruct (ACTION_STEP _) as [n|]; [|done]. destruct (succeeded out); [|done].
  apply (safe_asking_bind escrows_ok moved). intros s1 _ _.
  apply (safe_bind escrows_ok moved); [eapply ensures_safe; [apply _ | apply lifecycle_step_yields]|].
  intros o s2 _. destruct o; [done|]. eapply ensures_safe; [apply _ | apply findPayment_yields].
Qed.

Lemma relayed_apply p r k s0 : held r s0 -> ok (out ← relayServerSigned r k; EscrowService.apply p out) s0.
Proof.
  intros Hr. apply (safe_bind escrows_ok moved); [eapply ensures_safe; [apply _ | by apply relayServerSigned_yields]|].
  intros out s1 _. apply apply_ok.
Qed.

Lemma platformDispute_ok p context s0 : known p s0 -> ok (platformDispute p context) s0.
Proof.
  intros Hp. unfold platformDispute. apply (safe_pure_bind escrows_ok moved). intros k Hk%platform_key_public.
  apply (ensures_safe escrows_ok moved _ (fun _ _ => True)).
  eapply (ensures_bind escrows_ok moved); [apply pending_yields|]. intros o s1 M1 Ho.
  apply (ensures_bind escrows_ok moved (fun r s => held r s)).
  - destruct o as [r|]; [by apply (Ho r)|]. apply buildDispute_yields; [by eapply known_moved|].
    intros c Ec. simpl. split; [done|]. left. destruct Hp as [_ [Bp _ _ _]]. by rewrite Bp, Hk.
  - intros r s2 M2 Hr. apply (safe_ensures escrows_ok moved). by apply relayed_apply.
Qed.

Lemma dispute_ok p who reason proof s0 : known p s0 -> ok (dispute p who reason proof) s0.
Proof.
  intros Hp. unfold dispute. apply (safe_pure_bind escrows_ok moved). intros u _.
  apply (safe_pure_bind escrows_ok moved). intros sg Hs%partyAddress_signs.
  destruct (holdsRole _ _) eqn:Hr.
  - apply (safe_bind escrows_ok moved); [|done]. eapply ensures_safe; [apply _|].
    apply buildDispute_yields; [done|]. intros c Ec. simpl. split; [done|]. right. by exists who.
  - destruct proof as [proof|]; [|done]. apply (safe_asking_bind escrows_ok moved). intros s1 M1 _.
    apply (safe_pure_bind escrows_ok moved). intros [] _.
    apply (safe_bind escrows_ok moved); [|done]. apply platformDispute_ok. by eapply known_moved.
Qed.

Lemma balanceOf_ok p s0 : ok (balanceOf p) s0.
Proof.
  unfold balanceOf. apply (safe_bind escrows_ok moved); [apply client_contracts_ok|]. intros reads s1 _.
  destruct (head reads); [|done]. apply (safe_pure_bind escrows_ok moved). intros b _. apply safe_pure.
Qed.

Lemma resolve_ok p split decidedBy s0 : known p s0 -> ok (resolve p split decidedBy) s0.
Proof.
  intros Hp. unfold resolve. apply (safe_pure_bind escrows_ok moved). intros u Hu.
  destruct (negb (truthy (disputeResolverAddress (bound p)))) eqn:E1; [done|].
  destruct (negb (truthy (buyerAddress (bound p)))) eqn:E2; [done|]. cbn [orb].
  apply negb_false_iff in E1, E2.
  apply (safe_bind escrows_ok moved); [apply balanceOf_ok|]. intros balance s1 M1.
  apply (safe_pure_bind escrows_ok moved). intros decided Hd%checkedSplit_Ok.
  destruct Hd as (-> & Hb & Hm & Hpos & Hsum).
  apply (ensures_safe escrows_ok moved _ (fun _ _ => True)).
  apply (ensures_bind escrows_ok moved (fun o s => forall r, o = Some r -> held r s)).
  { destruct (serverKeyFor _ _); [apply pending_yields | done]. }
  intros o s2 M2 Ho. apply (ensures_bind escrows_ok moved (fun r s => held r s)).
  - destruct o as [r|]; [by apply (Ho r)|]. unfold buildResolve.
    apply (ensures_pure_bind escrows_ok moved). intros amounts _.
    eapply (ensures_bind escrows_ok moved); [apply (safe_ensures escrows_ok moved), client_build_ok|].
    intros xdr s3 M3 _. apply (ensures_pure_bind escrows_ok moved). intros bt _.
    apply (ensures_pure_bind escrows_ok moved). intros mt _. eapply (ensures_bind escrows_ok moved).
    + apply record_yields; [|intros lim chk _ | done].
      { eapply known_moved; [|exact Hp]. etransitivity; [exact M1|]. by etransitivity. }
      pose proof (truthy_must _ E2) as Eb. destruct Hp as [_ [_ _ Hne _]]. simpl.
      split_and!; try done; [by apply (buildable_contract p RESOLVE u) | by apply truthy_must | |].
      * apply (Hne _ Eb). intros E. rewrite Eb, E in E2. done.
      * by exists (sp_buyer split), (sp_merchant split).
    + intros x s4 M4 [Hx _]. exact Hx.
  - intros r s3 M3 Hr. apply (safe_ensures escrows_ok moved). destruct (serverKeyFor _ _) as [k|]; [|done].
    apply (safe_bind escrows_ok moved); [eapply ensures_safe; [apply _ | by apply relayServerSigned_yields]|].
    intros out s4 _. apply (safe_bind escrows_ok moved); [apply apply_ok | done].
Qed.

Lemma submit_ok p scope xdr s0 : ok (submit p scope xdr) s0.
Proof.
  unfold submit. apply (safe_bind escrows_ok moved); [eapply ensures_safe; [apply _ | apply submitSigned_yields]|].
  intros out s1 _. apply apply_ok.
Qed.
End safety.
