(* ===== verification/EscrowPool.v ===== *)
(** The protected payments' routes and jobs in any interleaving: every entry
    point keeps the invariant of [EscrowSafety], hence what an execution may do to
    a payment's row ([payment_history]) and what the service ever relays
    ([relayed_instructed]). *)

From S2P Require Import Intents Signatures Prelude Text Units MerchantFee Webhooks Programs SorobanEnvelope EscrowEnvelope EscrowCalls EscrowMath EscrowStore EscrowService EscrowJobs EscrowSafety.
From stdpp Require Import base tactics list option gmap strings sorting.
From Stdlib Require Import ZArith Lia Ascii.

Open Scope Z_scope.

(** ** Requests

    What reaches the service: the merchant's routes, the buyer's link, the admin
    routes and the three jobs. *)
Inductive escrow_request `{StellarSdk} `{Curves} `{EscrowEnv} : method unit -> Prop :=
  | rq_create cid network dto header : escrow_request (discard (create cid network dto header))
  | rq_ship cid network i evidence : escrow_request (discard (merchant_ship cid network i evidence))
  | rq_approve cid network i : escrow_request (discard (merchant_approve cid network i))
  | rq_release cid network i : escrow_request (discard (merchant_release cid network i))
  | rq_dispute cid network i reason : escrow_request (discard (merchant_dispute cid network i reason))
  | rq_cancel cid network i : escrow_request (discard (EscrowJobs.cancel cid network i))
  | rq_submit cid network i xdr : escrow_request (discard (merchant_submit cid network i xdr))
  | rq_link_fund is_uuid i buyer : escrow_request (discard (link_fund is_uuid i buyer))
  | rq_link_approve is_uuid i : escrow_request (discard (link_approve is_uuid i))
  | rq_link_release is_uuid i : escrow_request (discard (link_release is_uuid i))
  | rq_link_dispute is_uuid i reason signature expiresAt :
      escrow_request (discard (link_dispute is_uuid i reason signature expiresAt))
  | rq_link_submit is_uuid i xdr : escrow_request (discard (link_submit is_uuid i xdr))
  | rq_admin_resolve i b m actor : escrow_request (discard (admin_resolve i b m actor))
  | rq_admin_submit i xdr : escrow_request (discard (admin_submit i xdr))
  | rq_sync : escrow_request sync_run
  | rq_expiry : escrow_request expiry_run
  | rq_deadline : escrow_request deadline_run.

(** What else moves: the provider, Horizon, the clock, the consumers and the
    webhooks' tables. *)
Definition escrow_world (s s' : Escrows) : Prop :=
  payments s' = payments s /\ builts s' = builts s /\ relayed s' = relayed s /\ (drawn s <= drawn s')%nat.

(** From empty tables, with requests arriving. *)
Definition escrow_execution `{StellarSdk} `{Curves} `{EscrowEnv} (l : list (method unit)) (s : Escrows) : Prop :=
  exists s0, payments s0 = ∅ /\ builts s0 = ∅ /\ relayed s0 = []
    /\ star (pool_step escrow_request escrow_world) ([], s0) (l, s).

Section pool.
Context `{SDK : StellarSdk} {LAWS : SdkLaws} `{CURVES : Curves} `{ENV : EscrowEnv}.
Context (cuid_inj : forall m n, cuid m = cuid n -> m = n).
Context (hash_binds : forall x y n m t u,
  fromXDR x n = Some (PlainTransaction t) -> fromXDR y m = Some (PlainTransaction u) ->
  tx_hash t = tx_hash u -> operations t = operations u).

#[local] Abbreviation ok := (safe escrows_ok moved).
#[local] Abbreviation yields := (ensures escrows_ok moved).
#[local] Hint Resolve known_now known_moved held_now held_moved : core.

(** ** The three services *)

Lemma findOwned_yields cid network i s0 :
  yields (findOwned cid network i) (fun p s => known p s) s0.
Proof.
  apply (ensures_asking_bind escrows_ok moved). intros s _ V.
  destruct (payments s !! i) as [p|] eqn:Hp; [|done]. case_match; [|done]. by eapply known_now.
Qed.

Lemma findLink_yields is_uuid i s0 : yields (findLink is_uuid i) (fun p s => known p s) s0.
Proof.
  unfold findLink. destruct (negb _); [done|].
  apply (ensures_asking_bind escrows_ok moved _ (fun p => pure (res_of_option notFound p))). intros s _ V.
  apply ensures_pure. intros p Hp. destruct (payments s !! i) as [q|] eqn:Hq; simplify_eq/=. by eapply known_now.
Qed.

Lemma admin_find_yields i s0 : yields (admin_find i) (fun p s => known p s) s0.
Proof.
  apply (ensures_asking_bind escrows_ok moved _ (fun p => pure (res_of_option notFound p))). intros s _ V.
  apply ensures_pure. intros p Hp. destruct (payments s !! i) as [q|] eqn:Hq; simplify_eq/=. by eapply known_now.
Qed.

(** A route finds its payment, then acts on it. *)
Lemma found_ok {A} (find : method ProtectedPayment) (k : ProtectedPayment -> method A) s0 :
  yields find (fun p s => known p s) s0 -> (forall p s, known p s -> ok (k p) s) -> ok (p ← find; k p) s0.
Proof.
  intros Hf Hk. eapply ensures_safe; [apply _|]. eapply (ensures_bind escrows_ok moved); [exact Hf|].
  intros p s _ Hp. by apply (safe_ensures escrows_ok moved), Hk.
Qed.

Lemma cancel_ok cid network i s0 : ok (EscrowJobs.cancel cid network i) s0.
Proof.
  apply found_ok; [apply findOwned_yields|]. intros p s Hp. destruct (_ && _); [done|].
  apply (safe_asking_bind escrows_ok moved). intros s1 _ _.
  apply (safe_asking_bind escrows_ok moved). intros s2 _ _. case_match; [done|].
  apply (safe_bind escrows_ok moved).
  { destruct (truthy _); [|done]. apply (safe_bind escrows_ok moved); [by apply balanceOf_ok|].
    intros b s3 _. apply safe_pure. }
  intros _ s3 _. apply (safe_asking_bind escrows_ok moved). intros s4 _ _.
  apply (safe_bind escrows_ok moved).
  { eapply ensures_safe; [apply _ | by apply lifecycle_step_yields]. }
  intros [q|] s5 _; [done|]. eapply ensures_safe; [apply _ | apply findOwned_yields].
Qed.

Lemma platform_key_Ok network k : platform_key network = Ok k -> k = platformSecret (networks network).
Proof. unfold platform_key. case_bool_decide; [done|]. by intros [= <-]. Qed.

Lemma assertParties_buyer network merchant buyer u : assertParties network merchant buyer = Ok u ->
  forall b, buyer = Some b -> b <> ""%string -> b <> merchant.
Proof.
  intros ([] & H%throw_if_Ok & _)%bind_Ok b -> Hb ->. apply andb_false_iff in H as [H|H].
  - by destruct merchant.
  - by apply bool_decide_eq_false in H.
Qed.

Lemma create_ok cid network dto header s0 : ok (create cid network dto header) s0.
Proof.
  unfold create. apply (safe_pure_bind escrows_ok moved). intros [] _.
  apply (safe_pure_bind escrows_ok moved). intros platform ->%platform_key_Ok.
  apply (safe_pure_bind escrows_ok moved). intros resolver Hres.
  apply (safe_pure_bind escrows_ok moved). intros amount _.
  apply (safe_pure_bind escrows_ok moved). intros u Hu.
  apply (safe_bind escrows_ok moved); [destruct (resolveIdempotencyKey _ _); [apply safe_asking; apply _ | done]|].
  intros [p|] s1 _; [apply safe_pure|].
  apply (safe_pure_bind escrows_ok moved). intros issuer _.
  apply (safe_asking_bind escrows_ok moved). intros s2 _ _.
  apply (safe_bind escrows_ok moved).
  - apply (safe_catching escrows_ok moved).
    + apply (safe_bind escrows_ok moved); [|done]. apply safe_stmt. intros s3 _ V.
      apply create_payment_ok; try done. split; split; simpl.
      * reflexivity.
      * by exists resolver.
      * by eapply assertParties_buyer.
      * by intros [].
      * done.
      * intros H. destruct H. by left.
      * by intros n st to _ _ [].
    + intros err s3 _. destruct (resolveIdempotencyKey _ _); [|done]. destruct (negb _); [done|].
      apply (safe_asking_bind escrows_ok moved). intros s4 _ _. by destruct (findKey _ _ _).
  - intros [p|q] s3 _; [|apply safe_pure]. apply (safe_bind escrows_ok moved); [|done]. apply notify_ok.
Qed.

(** ** The jobs *)

Lemma findMany_yields where_ key n s0 :
  yields (findMany where_ key n) (fun l s => forall p, p ∈ l -> known p s) s0.
Proof.
  apply wp_asking; [apply _|]. intros s _ V p Hp.
  apply (subseteq_take _ _) in Hp. rewrite merge_sort_Permutation in Hp.
  apply list_elem_of_In, filter_In in Hp as [Hp _]. apply list_elem_of_In, payment_rows_elem in Hp as [i Hi].
  by eapply known_now.
Qed.

(** A job reads rows, and does the same to each. *)
Lemma rows_ok where_ key n (worker : ProtectedPayment -> method unit) s0 :
  (forall p s, known p s -> ok (worker p) s) ->
  ok (rows ← findMany where_ key n; for_each rows worker) s0.
Proof.
  intros Hw. eapply ensures_safe; [apply _|].
  eapply (ensures_bind escrows_ok moved); [apply findMany_yields|]. intros rows s _ Hrows.
  apply (safe_ensures escrows_ok moved). apply (for_each_safe escrows_ok moved _ _ s); [reflexivity|].
  intros p s' Hp M. apply Hw. eapply known_moved; [exact M|]. by apply Hrows.
Qed.

Lemma step_discard_ok i n d t s0 : ok (discard (lifecycle_step i n d t)) s0.
Proof. apply (safe_discard escrows_ok moved). eapply ensures_safe; [apply _ | by apply lifecycle_step_yields]. Qed.

Lemma dataFor_ok p n cs s0 : ok (dataFor p n cs) s0.
Proof. by destruct n. Qed.

Lemma sync_apply_ok p cs s0 : ok (sync_apply p cs) s0.
Proof.
  apply (for_each_safe escrows_ok moved _ _ s0); [reflexivity|]. intros n s _ _.
  apply (safe_bind escrows_ok moved); [apply dataFor_ok|]. intros d s1 _.
  apply (safe_asking_bind escrows_ok moved). intros s2 _ _. apply step_discard_ok.
Qed.

Lemma sync_batch_ok network batch s0 : ok (sync_batch network batch) s0.
Proof.
  apply (safe_bind escrows_ok moved); [by apply client_contracts_ok|]. intros reads s1 _.
  apply (for_each_safe escrows_ok moved _ _ s1); [reflexivity|]. intros p s _ _.
  destruct (byId _ _); [|done]. apply (safe_pure_bind escrows_ok moved). intros cs _. apply sync_apply_ok.
Qed.

Lemma sync_batches_ok network l s0 : ok (sync_batches network l) s0.
Proof.
  revert s0. induction l as [|batch l IH]; intros s0; [done|]. cbn [sync_batches].
  apply (safe_bind escrows_ok moved).
  - apply (safe_catching escrows_ok moved); [|done].
    apply (safe_bind escrows_ok moved); [apply sync_batch_ok | done].
  - intros [] s1 _; [|done]. apply (safe_asking_bind escrows_ok moved). intros s2 _ _.
    apply (safe_bind escrows_ok moved); [|intros _ s3 _; apply IH].
    apply safe_stmt. intros s3 _ V. by apply stamp_synced_ok.
Qed.

Lemma sync_run_ok s0 : ok sync_run s0.
Proof.
  apply (for_each_safe escrows_ok moved _ _ s0); [reflexivity|]. intros network s _ _.
  destruct (isConfigured network); [|done]. apply (safe_bind escrows_ok moved).
  - eapply ensures_safe; [apply _ | apply findMany_yields].
  - intros rows s1 _. apply sync_batches_ok.
Qed.

Lemma guard_ok work s0 : ok work s0 -> ok (EscrowJobs.guard work) s0.
Proof. intros H. by apply (safe_catching escrows_ok moved). Qed.

Lemma mayExpire_ok p now s0 : ok (mayExpire p now) s0.
Proof.
  apply (safe_asking_bind escrows_ok moved). intros s _ _. case_match; [done|]. destruct (negb _); [done|].
  destruct (negb _); [done|]. apply (safe_bind escrows_ok moved); [by apply client_contracts_ok|].
  intros reads s1 _. destruct (head reads); [|done]. by apply (safe_pure_bind escrows_ok moved).
Qed.

Lemma expiry_run_ok s0 : ok expiry_run s0.
Proof.
  apply (safe_asking_bind escrows_ok moved). intros s _ _. apply rows_ok. intros p s1 _.
  apply (safe_catching escrows_ok moved); [|done]. apply (safe_bind escrows_ok moved); [apply mayExpire_ok|].
  intros [] s2 _; [|done]. apply (safe_asking_bind escrows_ok moved). intros s3 _ _. apply step_discard_ok.
Qed.

Lemma deadline_run_ok s0 : ok deadline_run s0.
Proof.
  apply (for_each_safe escrows_ok moved _ _ s0); [reflexivity|]. intros network s _ _.
  destruct (isConfigured network); [|done].
  apply (safe_bind escrows_ok moved).
  { apply (safe_asking_bind escrows_ok moved). intros s1 _ _. apply rows_ok. intros p s2 _. apply guard_ok.
    apply (safe_asking_bind escrows_ok moved). intros s3 _ _. apply step_discard_ok. }
  intros _ s1 _. apply (safe_bind escrows_ok moved).
  { apply rows_ok. intros p s2 Hp. apply guard_ok, (safe_discard escrows_ok moved). by apply platformDispute_ok. }
  intros _ s2 _. apply rows_ok. intros p s3 Hp. destruct (DEADLINE_POLICY_BENEFICIARY _); [|done].
  apply guard_ok. apply (safe_bind escrows_ok moved); [by apply balanceOf_ok|]. intros b s4 M.
  apply (safe_discard escrows_ok moved). apply resolve_ok; try done. by eapply known_moved.
Qed.

Lemma escrow_request_ok p s0 : escrow_request p -> ok p s0.
Proof.
  intros H. destruct H; try (apply (safe_discard escrows_ok moved)).
  - apply create_ok.
  - apply found_ok; [apply findOwned_yields|]. intros p s Hp. by apply ship_ok.
  - apply found_ok; [apply findOwned_yields|]. intros p s Hp. by apply approve_ok.
  - apply found_ok; [apply findOwned_yields|]. intros p s Hp. by apply release_ok.
  - apply found_ok; [apply findOwned_yields|]. intros.
    apply (safe_bind escrows_ok moved); [by apply dispute_ok | by intros []].
  - apply cancel_ok.
  - apply found_ok; [apply findOwned_yields|]. intros p s Hp. by apply submit_ok.
  - apply found_ok; [apply findLink_yields|]. intros p s Hp. by apply fund_ok.
  - apply found_ok; [apply findLink_yields|]. intros p s Hp. by apply approve_ok.
  - apply found_ok; [apply findLink_yields|]. intros p s Hp. by apply release_ok.
  - apply found_ok; [apply findLink_yields|]. intros p s Hp. by apply dispute_ok.
  - apply found_ok; [apply findLink_yields|]. intros p s Hp. destruct (negb _); [done|]. by apply submit_ok.
  - apply found_ok; [apply admin_find_yields|]. intros p s Hp.
    apply (safe_pure_bind escrows_ok moved). intros x _. apply (safe_pure_bind escrows_ok moved). intros y _.
    by apply resolve_ok.
  - apply found_ok; [apply admin_find_yields|]. intros p s Hp. destruct (negb _); [done|]. by apply submit_ok.
  - apply sync_run_ok.
  - apply expiry_run_ok.
  - apply deadline_run_ok.
Qed.

(** ** Executions *)

Lemma escrow_world_ok s s' : escrow_world s s' -> escrows_ok s -> escrows_ok s' /\ moved s s'.
Proof.
  intros (Ep & Eb & Er & Hd) V. apply tables_kept; try done. intros network env. rewrite Er. by left.
Qed.

Lemma started_ok s : payments s = ∅ -> builts s = ∅ -> relayed s = [] -> escrows_ok s.
Proof.
  intros Ep Eb Er. split; rewrite ?Ep, ?Eb, ?Er; try (intros *; rewrite ?lookup_empty; done).
  intros network env H. by apply not_elem_of_nil in H.
Qed.

Lemma escrow_run l s l' s' :
  escrow_execution l s -> star (pool_step escrow_request escrow_world) (l, s) (l', s') ->
  escrows_ok s /\ escrows_ok s' /\ moved s s'.
Proof.
  intros (s0 & Ep & Eb & Er & Hrun) Hrun'.
  assert (V0 : escrows_ok s0) by by apply started_ok.
  destruct (pool_safe escrows_ok moved escrow_request escrow_world [] s0 l s) as (Hl & V & _); try done.
  { intros p s1 Hp _. by apply escrow_request_ok. }
  { apply escrow_world_ok. }
  destruct (pool_safe escrows_ok moved escrow_request escrow_world l s l' s') as (_ & V' & M); try done.
  { intros p s1 Hp _. by apply escrow_request_ok. }
  apply escrow_world_ok.
Qed.

(** C21: A protected payment's history. However the merchants', buyers' and admins'
    requests, the sync, the expiry and the deadline jobs interleave, and wherever
    processes die: a payment is never lost, its terms never change, its status
    only moves along the transition table and never leaves a terminal status;
    every timestamp, the buyer, the contract and the two server accounts are
    written once; a status carries its timestamp, a timestamp is that of a status
    the payment reached, and a payment under way has its contract; and the contract is
    the one a deploy recorded for this very payment creates, and no other payment's. *)
Theorem payment_history l s l' s' i p :
  escrow_execution l s -> star (pool_step escrow_request escrow_world) (l, s) (l', s') ->
  payments s !! i = Some p ->
  exists p', payments s' !! i = Some p' /\ later p p' /\ stamped p'
  /\ (isTerminalPP (status_of p) = true -> status_of p' = status_of p)
  /\ (forall c, contractId (bound p') = Some c ->
       backed s' i c /\ forall j q, payments s' !! j = Some q -> contractId (bound q) = Some c -> j = i).
Proof.
  intros Hrun Hrun' Hp. destruct (escrow_run l s l' s' Hrun Hrun') as (V & V' & M).
  destruct (moved_payments _ _ M i p Hp) as (p' & Hp' & L).
  destruct (ok_payments _ V' i p' Hp') as [_ [_ Hs]]. exists p'. split_and!; try done.
  - by apply terminal_final.
  - intros c Hc. split; [by eapply ok_backed|]. intros j q Hq E. by eapply (ok_unique _ V').
Qed.

(** C22: Nothing unchecked is relayed. Every envelope the service ever sent to the
    provider, in any interleaving, has the hash and the operations of an envelope
    that the check accepted, when it was recorded, for an instruction the payment
    allows: a deploy of its own terms and roles, a fund of its amount by its
    buyer, a shipment by its merchant, an approval, a release or a dispute by an
    account its release model names, or a resolution that pays the whole balance
    to its buyer and its merchant. *)
Theorem relayed_instructed l s network env :
  escrow_execution l s -> (network, env) ∈ relayed s ->
  exists tx j r p e limits chk,
    env = PlainTransaction tx /\ builts s !! j = Some r /\ payments s !! b_payment r = Some p
    /\ network_of p = network /\ call_action e = b_action r /\ call_signer e = b_signer r
    /\ checkTrustlessWorkEnvelope (b_xdr r) (passphrase_of network) e limits = Accepted chk
    /\ instructed p e
    /\ tx_hash tx = tx_hash (ck_tx chk) /\ operations tx = operations (ck_tx chk).
Proof.
  intros Hrun Hin. destruct (escrow_run l s l s Hrun (star_refl _ _)) as (V & _ & _).
  destruct (ok_sent _ V network env Hin) as (tx & j & r & -> & Hj & <- & Hh & t0 & Ht0 & Ho).
  destruct (ok_rows _ V j r Hj) as [_ (p & Hp & _ & Hn & e & lim & chk & Hck & Hth & Ha & Hs & Hi & _)].
  assert (Hpl := accepted_plain _ _ e _ _ (instructed_well_posed p e Hi) Hck).
  rewrite Ht0 in Hpl. injection Hpl as ->.
  exists tx, j, r, p, e, lim, chk. split_and!; try done. unfold transactionHash in Hth. congruence.
Qed.
End pool.

(** ** Witnesses: a payment created by its merchant, then funded from its link up
    to the deploy of its contract *)

Definition struct (fields : list (string * ScVal)) : ScVal := ScvMap (Some (symbols fields)).

Definition sample_contract : ScVal :=
  struct [("amount", ScvI128 1000000000); ("description", ScvString "Shoes"); ("engagement_id", ScvString "c");
          ("flags", struct [("disputed", ScvBool false); ("released", ScvBool false); ("resolved", ScvBool false)]);
          ("milestones", ScvVec (Some [struct
             [("approved", ScvBool false); ("description", ScvString "Order delivered");
              ("evidence", ScvString ""); ("status", ScvString "pending")]]));
          ("platform_fee", ScvU32 30); ("receiver_memo", ScvU32 0);
          ("roles", struct
             [("approver", ScvAddress "GBUYER"); ("dispute_resolver", ScvAddress "GOPS");
              ("platform", ScvAddress "Gpsecret"); ("receiver", ScvAddress "GMERCHANT");
              ("release_signer", ScvAddress "GBUYER"); ("service_provider", ScvAddress "GMERCHANT")]);
          ("title", ScvString "Shoes"); ("trustline", struct [("address", ScvAddress "CUSDC")])]%string.

Definition sample_deploy : InvokeArgs :=
  mkInvokeArgs (Some "DEPLOYER"%string) TRUSTLESS_WORK_DEPLOY_FN
    (Some [ScvAddress "Gpsecret"; ScvBytes "0123456789abcdef0123456789abcdef";
           ScvBytes "salt-salt-salt-salt-salt-salt-32"; ScvSymbol TRUSTLESS_WORK_INIT_FN;
           ScvVec (Some [sample_contract]); ScvVec (Some [])])%string.

Definition sample_deploy_tx : Transaction :=
  mkTransaction "Gpsecret" "none" (Some (mkBody "precondTime" (Some 900))) (Some (mkTimeBounds 0 600)) 1000
    [mkOperation None "invokeHostFunction" (Some sample_deploy)
       (Some [mkAuthEntry (Some (mkCredentials (Some "sorobanCredentialsSourceAccount") None))
                (Some (mkInvocation
                   (Some (mkAuthFunction (Some "sorobanAuthorizedFunctionTypeContractFn") (Some sample_deploy)))
                   None))])]
    [] "deploy-hash"%string.

#[local] Instance escrow_sdk : StellarSdk :=
  text_sdk (fun e => if bool_decide (e = "deploy-xdr"%string) then Some (PlainTransaction sample_deploy_tx) else None).
#[local] Instance escrow_laws : @SdkLaws escrow_sdk := text_laws _.

#[local] Instance escrow_curves : Curves := {|
  rawPublicKey _ := None;
  ed25519_verify _ _ _ := false;
  from_base64 s := s;
  keccak_256 s := s;
  hasHighS _ := None;
  recoverPublicKey _ _ _ := None
|}.

#[local] Instance escrow_env : EscrowEnv := {|
  networks := fun _ => mkTwNetwork "key" "psecret" "rsecret" "GOPS" "DEPLOYER" "";
  timeoutMs := 10000;
  env_maxFeeStroops := 100000;
  env_platformFeeBps := 30;
  publicKey := fun k => ("G" +:+ k)%string;
  signature_of := fun k h => (k +:+ h)%string;
  passphrase_of := fun n => n;
  assetContract := fun _ _ => "CUSDC"%string;
  usdcIssuer := fun _ => Some "GISSUER"%string;
  checkoutOrigin := "https://pay";
  parseDate := fun _ => None;
  toISOString := toString;
  cuid := fun n => repeat_char (S n) "c"%char;
  draw := fun _ => sample_draw
|}.

(** A provider that builds deploys and accepts what it is sent. *)
Definition sample_provider : TrustlessWork :=
  mkTrustlessWork
    (fun _ b => match b with
                | BuildDeploy _ _ _ _ _ _ _ _ _ =>
                    Answered (JObject [("status", JString "SUCCESS"); ("unsignedTransaction", JString "deploy-xdr")])
                | _ => UpstreamNotFound
                end)
    (fun _ _ => Answered (JObject [("status", JString "SUCCESS")]))
    (fun _ _ => Answered (Some []))%string.

Definition sample_world : Escrows :=
  mkEscrows ∅ ∅ ∅ (mkHooks [] [] [] []) sample_provider
    (fun _ _ => Account [mkBalance (Some "USDC"%string) (Some "GISSUER"%string) (Some "250"%string)])
    [] 1000 0.

Definition escrow_dto : CreateDto :=
  mkCreateDto "100" BUYER_RELEASES MANUAL_REVIEW 48 None "GMERCHANT" None "Shoes" None None (Some "order-7"%string).

Definition sample_created : Escrows :=
  run_all [discard (create "shop" "testnet" escrow_dto None)] sample_world.
Definition sample_deployed : Escrows :=
  run_all [discard (link_fund (fun _ => true) "c" "GBUYER")] sample_created.

Lemma sample_cuid_inj m n : cuid m = cuid n -> m = n.
Proof. intros E. apply (f_equal String.length) in E. simpl in E. rewrite !repeat_char_length in E. lia. Qed.

Lemma sample_hash_binds x y n m t u :
  fromXDR x n = Some (PlainTransaction t) -> fromXDR y m = Some (PlainTransaction u) ->
  tx_hash t = tx_hash u -> operations t = operations u.
Proof. simpl. repeat case_bool_decide; by intros [= <-] [= <-]. Qed.

Definition sample_row (s : Escrows) : ProtectedPayment :=
  default (mkPayment (mkTerms "" "" "" BUYER_RELEASES MANUAL_REVIEW "" None None "" "" "" 0 None 0 0)
             (mkBinding None "" None None None) (mkProgress P_CREATED (fun _ => None) None None None None None) None)
    (payments s !! "c"%string).

Definition sample_relayed : string * ParsedEnvelope := default (""%string, FeeBump) (head (relayed sample_deployed)).

Lemma sample_relayed_one : relayed sample_deployed = [(fst sample_relayed, snd sample_relayed)].
Proof. vm_compute. reflexivity. Qed.

Lemma sample_contract_adopted :
  contractId (bound (sample_row sample_deployed)) = Some "testnetDEPLOYERsalt-salt-salt-salt-salt-salt-32"%string
  /\ buyerAddress (bound (sample_row sample_deployed)) = Some "GBUYER"%string
  /\ status_of (sample_row sample_deployed) = P_AWAITING_FUNDING.
Proof. split_and!; vm_compute; reflexivity. Qed.

(** The two requests, one after the other. *)
Lemma sample_execution :
  exists l l', escrow_execution l sample_created
  /\ star (pool_step escrow_request escrow_world) (l, sample_created) (l', sample_deployed).
Proof.
  destruct (pool_run_all escrow_request escrow_world [discard (create "shop" "testnet" escrow_dto None)]
              [] sample_world) as [l Hl].
  { apply Forall_singleton, rq_create. }
  destruct (pool_run_all escrow_request escrow_world [discard (link_fund (fun _ => true) "c" "GBUYER")]
              l sample_created) as [l' Hl'].
  { apply Forall_singleton, rq_link_fund. }
  exists l, l'. split; [|exact Hl']. exists sample_world. split_and!; [done | done | done | exact Hl].
Qed.

Lemma sample_execution_deployed : exists l, escrow_execution l sample_deployed.
Proof.
  destruct sample_execution as (l & l' & (s0 & H1 & H2 & H3 & Hl) & Hl'). exists l', s0. split_and!; try done.
  by eapply star_trans.
Qed.

Lemma payment_history_witness :
  exists p', payments sample_deployed !! "c"%string = Some p' /\ later (sample_row sample_created) p'
  /\ stamped p'
  /\ (isTerminalPP (status_of (sample_row sample_created)) = true ->
       status_of p' = status_of (sample_row sample_created))
  /\ (forall c, contractId (bound p') = Some c ->
       backed sample_deployed "c" c
       /\ forall j q, payments sample_deployed !! j = Some q -> contractId (bound q) = Some c -> j = "c"%string).
Proof.
  destruct sample_execution as (l & l' & Hl & Hl').
  exact (payment_history sample_cuid_inj sample_hash_binds l sample_created l' sample_deployed "c"
           (sample_row sample_created) Hl Hl' ltac:(vm_compute; reflexivity)).
Defined.

Lemma relayed_instructed_witness :
  exists tx j r p e limits chk,
    snd sample_relayed = PlainTransaction tx /\ builts sample_deployed !! j = Some r
    /\ payments sample_deployed !! b_payment r = Some p
    /\ network_of p = fst sample_relayed /\ call_action e = b_action r /\ call_signer e = b_signer r
    /\ checkTrustlessWorkEnvelope (b_xdr r) (passphrase_of (fst sample_relayed)) e limits = Accepted chk
    /\ instructed p e
    /\ tx_hash tx = tx_hash (ck_tx chk) /\ operations tx = operations (ck_tx chk).
Proof.
  destruct sample_execution_deployed as (l & Hl).
  apply (relayed_instructed sample_cuid_inj sample_hash_binds l sample_deployed (fst sample_relayed)
           (snd sample_relayed) Hl).
  rewrite sample_relayed_one. by apply list_elem_of_singleton.
Defined.
