(* ===== verification/EscrowBehaviour.v ===== *)
(** Protected payments, what single operations do: a sync brings a payment to the
    steps its contract shows, a retried resolution, a replayed create. *)

From S2P Require Import Intents Signatures Prelude Text Units MerchantFee Webhooks Programs SorobanEnvelope EscrowEnvelope EscrowCalls EscrowMath EscrowStore EscrowService EscrowJobs EscrowSafety EscrowPool.
From stdpp Require Import base tactics list option gmap strings sorting.
From Stdlib Require Import ZArith Lia Ascii.

Open Scope Z_scope.

(** ** Steps that stay taken *)

(** The statuses of a payment that a step is still ahead of. *)
Definition ahead_of (n : LifecycleStepName) : list ProtectedPaymentStatus :=
  match n with
  | ST_FUNDED => [P_CREATED; P_AWAITING_FUNDING]
  | ST_SHIPPED => [P_CREATED; P_AWAITING_FUNDING; P_FUNDED]
  | ST_APPROVED => [P_CREATED; P_AWAITING_FUNDING; P_FUNDED; P_SHIPPED]
  | ST_RELEASED | ST_DISPUTED => [P_CREATED; P_AWAITING_FUNDING; P_FUNDED; P_SHIPPED; P_APPROVED]
  | ST_RESOLVED => [P_CREATED; P_AWAITING_FUNDING; P_FUNDED; P_SHIPPED; P_APPROVED; P_DISPUTED]
  | ST_EXPIRED | ST_CANCELLED => [P_CREATED; P_AWAITING_FUNDING]
  | ST_DEADLINE_PASSED => []
  end.

(** The payment has reached the step [n], or gone past it. *)
Definition reached (n : LifecycleStepName) (p : ProtectedPayment) : Prop := status_of p ∉ ahead_of n.

(** A status past a step stays past it. *)
Lemma reached_step n a b : status_step a b -> a ∉ ahead_of n -> b ∉ ahead_of n.
Proof.
  intros Hab Ha. assert (bool_decide (a ∉ ahead_of n) = true) as Ha' by by apply bool_decide_eq_true.
  apply (bool_decide_eq_true_1 _). unfold status_step in Hab. clear Ha.
  destruct n, a, b; vm_compute in Hab, Ha' |- *; done.
Qed.

Lemma reached_later n p p' : later p p' -> reached n p -> reached n p'.
Proof.
  intros [_ H _ _ _ _ _]. unfold reached. induction H as [a|a b c _ IH Hbc]; [done|]. intros Ha.
  eapply reached_step; [exact Hbc|by apply IH].
Qed.

Lemma later_not_created p p' : later p p' -> status_of p <> P_CREATED -> status_of p' <> P_CREATED.
Proof.
  intros [_ H _ _ _ _ _] Hc. induction H as [a|a b c _ IH Hbc]; [done|]. specialize (IH Hc).
  unfold status_step in Hbc. destruct b, c; try done; by vm_compute in Hbc.
Qed.

(** A step just taken is reached. *)
Lemma step_reaches n d t p : reached n (step_data n d t p).
Proof.
  unfold reached. apply (bool_decide_eq_true_1 _). unfold step_data. destruct n; try (vm_compute; reflexivity).
Qed.

(** A timestamp is that of a step reached. *)
Lemma stamped_reached n st p : stamped p -> stamp (LIFECYCLE_STEPS n) = Some st -> is_Some (stamps (progress p) st) -> reached n p.
Proof.
  intros Hp Hst Hset. destruct (step_to (LIFECYCLE_STEPS n)) as [to|] eqn:Et; [|by destruct n; try done; apply not_elem_of_nil].
  pose proof (stamped_past p Hp n st to Hst Et Hset) as H. unfold reached.
  assert (to ∉ ahead_of n) as Hto by (apply (bool_decide_eq_true_1 _); destruct n; simpl in Et; simplify_eq; vm_compute; reflexivity).
  induction H as [a|a b c _ IH Hbc]; [done|]. eapply reached_step; [exact Hbc|by apply IH].
Qed.

(** A step that is not taken was reached. *)
Lemma refused_reached n p : stamped p -> status_of p <> P_CREATED -> n <> ST_DEADLINE_PASSED -> step_guard n p = false -> reached n p.
Proof.
  intros Hp Hc Hn. unfold step_guard. intros [H|H]%andb_false_iff.
  - unfold reached. apply (bool_decide_eq_true_1 _). destruct n, (status_of p); try done; by vm_compute in H.
  - destruct (stamp (LIFECYCLE_STEPS n)) as [st|] eqn:Est; [|done]. apply bool_decide_eq_false in H.
    eapply stamped_reached; [done|exact Est|]. by destruct (stamps (progress p) st); [eexists|].
Qed.

(** Whether a contract's state shows a step. *)
Definition shows (cs : ChainState) (n : LifecycleStepName) : bool :=
  match n with
  | ST_FUNDED => cs_funded cs
  | ST_SHIPPED => cs_shipped cs
  | ST_APPROVED => cs_approved cs
  | ST_DISPUTED => cs_disputed cs
  | ST_RELEASED => cs_released cs
  | ST_RESOLVED => cs_resolved cs
  | ST_EXPIRED | ST_CANCELLED | ST_DEADLINE_PASSED => false
  end.

(** The missing steps are those shown whose timestamp is not there. *)
Lemma chainSteps_elem n g cs :
  n ∈ chainSteps g cs <-> shows cs n = true /\ exists st, stamp (LIFECYCLE_STEPS n) = Some st /\ stamps g st = None.
Proof.
  assert (H1 : forall (b : bool) st m, n ∈ (if b && bool_decide (stamps g st = None) then [m] else [])
    <-> n = m /\ b = true /\ stamps g st = None).
  { intros b st m. destruct b; simpl; [case_bool_decide as E; rewrite ?list_elem_of_singleton|].
    all: split; [|intros (-> & ? & ?)]; try done; try (intros H; by apply not_elem_of_nil in H). }
  unfold chainSteps. rewrite !elem_of_app, !H1. split.
  - intros H; destruct_or? H; destruct H as (-> & Hb & Hs); simpl; eauto.
  - intros (Hb & st & Hst & Hs). destruct n; simpl in Hb, Hst; simplify_eq; tauto.
Qed.

Section behaviour.
Context `{SDK : StellarSdk} {LAWS : SdkLaws} `{CURVES : Curves} `{ENV : EscrowEnv}.

#[local] Abbreviation must_end := (Programs.total escrows_ok moved).

(** ** Sync *)

(** A payment whose terms its create checked. *)
Record sound_terms (t : Terms) : Prop := {
  sound_id : pp_id t <> ""%string;
  sound_amount : exists a, toStroops (pp_amount t) = Ok a;
  sound_fee : 0 <= pp_platformFeeBps t /\ totalFeeBps (pp_platformFeeBps t) <= BPS
}.

Lemma merchantView_Ok p : sound_terms (terms p) ->
  exists j, merchantView p = Ok j /\ resourceIdOf j = Some (id_of p).
Proof.
  intros [Hid [a Ha] [Hf Ht]]. unfold merchantView, fees. rewrite Ha. cbn [mbind res_bind].
  destruct (toStroops_range _ _ Ha) as [H0 _].
  destruct (feeSplit_range a _ H0 Hf Ht) as (_ & _ & Hn).
  destruct (fromStroops_parse _ Hn) as (x & -> & _). cbn [mbind res_bind]. by eexists.
Qed.

Lemma emit_Ok user t j d h r : resourceIdOf j = Some r -> r <> ""%string ->
  exists h' b, emit user t j d h = (h', Ok b).
Proof.
  intros Hr Hne. rewrite emit_spec. destruct (isTerminalWebhookEvent t) eqn:Et; [|by do 2 eexists].
  rewrite (data_key_terminal t j r) by done. destruct (decide _); by do 2 eexists.
Qed.

Lemma notify_total p t s0 : sound_terms (terms p) -> must_end (notify p t) (fun _ _ => True) s0.
Proof.
  intros Hp. unfold notify. apply (total_bind escrows_ok moved), (total_asking escrows_ok moved). intros s _ V.
  destruct (e_consumers s !! _) as [user|]; [|done].
  destruct (merchantView_Ok p Hp) as (j & -> & Hj). apply (total_bind escrows_ok moved), wp_pure.
  apply (total_discard escrows_ok moved). apply wp_stmt. intros s1 _ V1.
  destruct (emit_Ok user t j (draw (drawn s1)) (e_hooks s1) _ Hj (sound_id _ Hp)) as (h & b & ->).
  cbn [fst snd]. apply and_assoc. split; [|done]. apply tables_kept; simpl; auto.
Qed.

(** The payment read at the start, as it is at [s]. *)
Definition still (p : ProtectedPayment) (s : Escrows) : Prop :=
  exists p', payments s !! id_of p = Some p' /\ later p p'.

Definition reached_at (p : ProtectedPayment) (n : LifecycleStepName) (s : Escrows) : Prop :=
  exists p', payments s !! id_of p = Some p' /\ later p p' /\ reached n p'.

Lemma still_moved p s s' : moved s s' -> still p s -> still p s'.
Proof.
  intros M (q & Hq & L). destruct (moved_payments _ _ M _ _ Hq) as (q' & Hq' & L').
  exists q'. split; [done|]. by etransitivity.
Qed.

Lemma reached_at_moved p n s s' : moved s s' -> reached_at p n s -> reached_at p n s'.
Proof.
  intros M (q & Hq & L & Hcl). destruct (moved_payments _ _ M _ _ Hq) as (q' & Hq' & L').
  exists q'. split_and!; [done | by etransitivity|]. by eapply reached_later.
Qed.

Lemma findPayment_total i s0 : (forall s, moved s0 s -> is_Some (payments s !! i)) ->
  must_end (findPayment i) (fun p s => payments s !! i = Some p) s0.
Proof.
  intros H. apply (total_bind escrows_ok moved), (total_asking escrows_ok moved). intros s M _.
  destruct (H s M) as [p Hp]. rewrite Hp. by apply wp_pure.
Qed.

Lemma lifecycle_step_total p n d t s0 :
  sound_terms (terms p) -> n <> ST_DEADLINE_PASSED -> status_of p <> P_CREATED -> still p s0 ->
  must_end (lifecycle_step (id_of p) n d t) (fun _ => reached_at p n) s0.
Proof.
  intros Ht Hn Hc Hs0. unfold lifecycle_step. apply (total_bind escrows_ok moved).
  apply wp_stmt. intros s M V.
  destruct (update_payment_ok (id_of p) (step_guard n) (step_data n d t) s V) as [V' M'].
  { intros q _ Hg [Hb Hst]. split_and!; [by apply step_later | | done]. split; [|by apply step_stamped].
    destruct Hb. by split. }
  split; [exact V'|]. split; [exact M'|]. destruct (still_moved _ _ _ M Hs0) as (q & Hq & L).
  assert (Hcl : reached_at p n (fst (update_payment (id_of p) (step_guard n) (step_data n d t) s))).
  { unfold update_payment. rewrite Hq. destruct (step_guard n q) eqn:Eg; cbn [fst].
    - exists (step_data n d t q). unfold set_payments. cbn [payments]. rewrite lookup_insert_eq. split_and!; [done | | apply step_reaches].
      etransitivity; [exact L|]. by apply step_later.
    - exists q. split_and!; [done|done|]. apply refused_reached; try done; [apply (ok_payments _ V _ _ Hq)|].
      by eapply later_not_created. }
  revert Hcl. generalize (fst (update_payment (id_of p) (step_guard n) (step_data n d t) s)) as s1. intros s1 Hcl.
  destruct (snd _) as [count|e] eqn:Es; [|by unfold update_payment in Es; rewrite Hq in Es; destruct (step_guard n q)].
  destruct (count =? 0)%nat; [exact Hcl|]. apply (total_bind escrows_ok moved).
  eapply (total_mono escrows_ok moved).
  { apply findPayment_total. intros s2 M2. destruct (reached_at_moved p n _ _ M2 Hcl) as (q2 & Hq2 & _).
    by exists q2. }
  intros q2 s2 M2 Hq2. pose proof (reached_at_moved p n _ _ M2 Hcl) as Hcl2.
  apply (total_bind escrows_ok moved). eapply (total_mono escrows_ok moved); [apply notify_total|].
  - destruct Hcl2 as (q3 & Hq3 & L3 & _). simpl in Hq2. assert (q3 = q2) as -> by congruence. by rewrite (later_terms _ _ L3).
  - intros _ s3 M3 _. by eapply reached_at_moved.
Qed.

Lemma dataFor_total p n cs s0 : must_end (dataFor p n cs) (fun _ _ => True) s0.
Proof. by destruct n. Qed.

(** C24: A sync catches up. When the sync applies a contract's state to an open
    payment, from any state that keeps the invariant, it ends without an error,
    whatever other requests and jobs do to the tables between its statements; and
    then the payment is, with its terms, on the path of its status, and has
    [reached] every step the contract shows: it is no longer in a status the step
    is ahead of. *)
Theorem sync_catches_up p cs s0 :
  escrows_ok s0 -> sound_terms (terms p) -> status_of p <> P_CREATED -> still p s0 ->
  must_end (sync_apply p cs) (fun _ s => exists p', payments s !! id_of p = Some p' /\ later p p'
    /\ forall n, shows cs n = true -> status_of p' ∉ ahead_of n) s0.
Proof.
  intros V0 Ht Hc Hs. eapply (total_mono escrows_ok moved).
  - apply (total_for_each escrows_ok moved _ _ (fun n s => n <> ST_DEADLINE_PASSED -> reached_at p n s) s0);
      [intros n s s' H M Hn; eapply reached_at_moved; [exact M | by apply H] | reflexivity |].
    intros n s Hin M. apply (total_bind escrows_ok moved).
    eapply (total_mono escrows_ok moved); [apply dataFor_total|]. intros d s1 M1 _.
    apply (total_bind escrows_ok moved), (total_asking escrows_ok moved). intros s2 M2 _.
    eapply (total_mono escrows_ok moved).
    + apply (total_discard escrows_ok moved), lifecycle_step_total; try done; [by intros ->; apply chainSteps_elem in Hin as []|].
      eapply still_moved; [exact M2|]. eapply still_moved; [exact M1|]. by eapply still_moved.
    + intros u s3 M3 H3 H4. exact H3.
  - intros u s M H. destruct (still_moved _ _ _ M Hs) as (q & Hq & L). exists q. split_and!; [done|done|]. intros n Hn.
    assert (Hm : n <> ST_DEADLINE_PASSED) by by intros ->.
    assert (exists st, stamp (LIFECYCLE_STEPS n) = Some st) as [st Est] by (destruct n; eauto; done).
    destruct (stamps (progress p) st) as [t|] eqn:E.
    + destruct Hs as (q0 & Hq0 & L0). destruct (moved_payments _ _ M _ _ Hq0) as (q1 & Hq1 & L1).
      assert (q1 = q) as -> by congruence. apply (reached_later n q0 q L1).
      apply (stamped_reached n st); [apply (ok_payments _ V0 _ _ Hq0)|done|]. exists t. by apply (later_stamps _ _ L0).
    + destruct (H n ltac:(apply chainSteps_elem; eauto) Hm) as (q' & Hq' & _ & Hr). congruence.
Qed.

(** ** A retried resolution *)

Lemma run_pending pid a signer s r :
  newest (List.filter (fun r => bool_decide (b_payment r = pid) && bool_decide (b_action r = a)) (built_rows s)) = Some r ->
  b_signer r = signer -> b_status r <> SUBMITTED -> clock s < b_expiresAt r ->
  run (pendingServerRow pid a signer) s = (s, Ok (Some r)).
Proof.
  intros Hn Hs Hst Hc. unfold pendingServerRow, latest, new_Date. runs. rewrite Hn. simpl.
  rewrite bool_decide_eq_true_2, bool_decide_eq_false_2 by done. simpl.
  by rewrite (proj2 (Z.ltb_lt _ _) Hc).
Qed.

(** A retried resolution sends the first decision. While a resolution the
    server signs is recorded and not yet sent (its first submit failed), a
    [resolve] with any split that passes the check relays that recorded envelope,
    and stores and answers its amounts; the split now asked for has no effect. *)
Theorem resolve_sends_pending p split decidedBy s r key balance :
  assertBuildable p RESOLVE = Ok tt ->
  truthy (disputeResolverAddress (bound p)) = true -> truthy (buyerAddress (bound p)) = true ->
  serverKeyFor (network_of p) (must (disputeResolverAddress (bound p))) = Some key ->
  run (balanceOf p) s = (s, Ok balance) -> checkedSplit split balance = Ok split ->
  newest (List.filter (fun r => bool_decide (b_payment r = id_of p) && bool_decide (b_action r = RESOLVE))
            (built_rows s)) = Some r ->
  b_signer r = must (disputeResolverAddress (bound p)) -> b_status r <> SUBMITTED -> clock s < b_expiresAt r ->
  run (resolve p split decidedBy) s
  = run (out ← relayServerSigned r key; sent ← EscrowService.apply p out; Ret (inr sent)) s.
Proof.
  intros Hb Hd Hbuyer Hk Hbal Hs Hn Hsg Hst Hc. unfold resolve. rewrite Hb, Hd, Hbuyer, Hk.
  cbn [negb orb]. rewrite run_bind. cbn [pure run]. rewrite run_bind, Hbal, run_bind, run_pure, Hs.
  by rewrite run_bind, (run_pending _ _ _ _ r), run_bind.
Qed.

(** ** A replayed create *)

(** A create replayed under its idempotency key. With the key of a payment
    whose stored terms are the request's own, a create changes nothing; it
    answers the stored payment while that payment has the buyer the request
    names, and 409 otherwise. A payment created without a buyer, whose buyer its
    first funding bound, is such a case: the same request answers 409 then. *)
Theorem create_replays cid network dto header s k p amount resolver :
  isConfigured network = true -> disputeResolverFor network (dto_deadlinePolicy dto) = Ok resolver ->
  normalizedAmount (dto_amount dto) = Ok amount ->
  assertParties network (dto_merchantAddress dto) (dto_buyerAddress dto) = Ok tt ->
  resolveIdempotencyKey header (dto_key dto) = Some k -> findKey cid k s = Some p ->
  replay_terms (terms p) None
  = (network, amount, dto_releaseModel dto, dto_deadlinePolicy dto, dto_deliveryWindowHours dto,
     dto_merchantAddress dto, None, dto_title dto, dto_description dto, dto_reference dto) ->
  run (create cid network dto header) s
  = (s, if bool_decide (buyerAddress (bound p) = dto_buyerAddress dto) then Ok p
        else Throw (conflict IdempotencyConflict)).
Proof.
  intros Hc Hr Ha Hp Hk Hf Ht. unfold create. rewrite Hc, Hr, Ha, Hp, Hk. cbn [negb throw_if].
  apply andb_true_iff in Hc as [_ Hc]. unfold platform_key. apply negb_true_iff in Hc. rewrite Hc.
  runs. rewrite Hf. runs. unfold replay. 
  f_equal. unfold replay_terms in Ht |- *. injection Ht as -> -> -> -> -> -> -> -> ->. simpl.
  destruct (decide (buyerAddress (bound p) = dto_buyerAddress dto)) as [E|E].
  - rewrite E. by rewrite !bool_decide_eq_true_2.
  - rewrite !bool_decide_eq_false_2; [done | done|]. by intros [= ?].
Qed.
End behaviour.

(** ** Witnesses *)

#[local] Existing Instance EscrowPool.escrow_sdk.
#[local] Existing Instance EscrowPool.escrow_laws.
#[local] Existing Instance EscrowPool.escrow_env.

Definition sample_chain : ChainState := mkChainState (Some 0) true true (Some "TRACK-1"%string) true false true false.

Lemma sync_catches_up_witness :
  Programs.total escrows_ok moved (sync_apply (sample_row sample_deployed) sample_chain)
    (fun _ s => exists p', payments s !! id_of (sample_row sample_deployed) = Some p' /\ later (sample_row sample_deployed) p'
      /\ forall n, shows sample_chain n = true -> status_of p' ∉ ahead_of n) sample_deployed.
Proof.
  assert (Hrow : payments sample_deployed !! id_of (sample_row sample_deployed) = Some (sample_row sample_deployed))
    by (vm_compute; reflexivity).
  apply (sync_catches_up (sample_row sample_deployed) sample_chain sample_deployed).
  - destruct sample_execution_deployed as [l Hl]. exact (proj1 (escrow_run EscrowPool.sample_cuid_inj EscrowPool.sample_hash_binds l sample_deployed l sample_deployed Hl (star_refl _ _))).
  - split; [vm_compute; discriminate | | split; [vm_compute; discriminate | vm_compute; discriminate]].
    exists 1000000000. vm_compute. reflexivity.
  - vm_compute. discriminate.
  - exists (sample_row sample_deployed). split; [exact Hrow | reflexivity].
Defined.

(** A disputed payment whose deadline refunds the buyer, its refund recorded but
    not sent. *)
Definition disputed_payment : ProtectedPayment :=
  mkPayment
    (mkTerms "c" "shop" "testnet" BUYER_RELEASES REFUND_BUYER "Shoes" None None "100" "GISSUER" "GMERCHANT" 30 None
       9000 48)
    (mkBinding (Some "GBUYER") "Gpsecret" (Some "Grsecret") (Some "CONTRACT") None)
    (mkProgress P_DISPUTED (fun _ => None) None None (Some "DEADLINE") None None) None.

Definition refund_row : BuiltRow :=
  mkBuilt "b" "c" "shop" "testnet" RESOLVE BUILT "Grsecret" "refund-xdr" "refund-hash"
    (Some (JObject [("buyer", JString "100"); ("merchant", JString "0"); ("decidedBy", JString "DEADLINE")]))
    5000 None None None 900.

Definition disputed_world : Escrows :=
  mkEscrows {["c" := disputed_payment]} {["b" := refund_row]} ∅ (mkHooks [] [] [] [])
    (mkTrustlessWork (fun _ _ => UpstreamNotFound) (fun _ _ => UpstreamNotFound)
       (fun _ _ => Answered (Some [mkRead (Some "CONTRACT") (ReportedText "100") None true false false])))
    (fun _ _ => AccountNotFound) [] 1000 5.

(** An even split has the effect of the refund. *)
Lemma resolve_sends_pending_witness :
  run (resolve disputed_payment (mkSplitDecision 500000000 500000000) "admin") disputed_world
  = run (resolve disputed_payment (mkSplitDecision 1000000000 0) "DEADLINE") disputed_world.
Proof.
  etransitivity; [|symmetry].
  - apply (resolve_sends_pending disputed_payment (mkSplitDecision 500000000 500000000) "admin" disputed_world
             refund_row "rsecret" 1000000000); first [vm_compute; reflexivity | vm_compute; discriminate].
  - apply (resolve_sends_pending disputed_payment (mkSplitDecision 1000000000 0) "DEADLINE" disputed_world
             refund_row "rsecret" 1000000000); first [vm_compute; reflexivity | vm_compute; discriminate].
Defined.

(** The create replayed after the deploy bound the buyer. *)
Lemma create_replays_witness :
  run (create "shop" "testnet" escrow_dto None) sample_deployed
  = (sample_deployed, Throw (conflict IdempotencyConflict)).
Proof.
  etransitivity.
  - apply (create_replays "shop" "testnet" escrow_dto None sample_deployed "order-7" (sample_row sample_deployed)
             "100" "GOPS"); vm_compute; reflexivity.
  - rewrite bool_decide_eq_false_2; [done|]. vm_compute. discriminate.
Defined.
