(* ===== verification/Oidc.v ===== *)
(** OpenID Connect: the check of an ID token (src/src/common/oidc/oidc-core.ts) and
    the cached discovery document and key sets of a provider
    (src/src/common/oidc/oidc.service.ts). *)

From S2P Require Import Prelude Text MerchantFee Programs Tokens.
From stdpp Require Import base tactics list option gmap strings.
From Stdlib Require Import ZArith Lia Ascii.

Open Scope Z_scope.

(** ** Data *)

Inductive IdTokenFailure :=
  | malformed | unsupported_alg | unknown_key | bad_signature | wrong_issuer | wrong_audience
  | expired | not_yet_valid | too_old | wrong_nonce | email_missing | email_unverified.
#[export] Instance IdTokenFailure_eq_dec : EqDecision IdTokenFailure.
Proof. solve_decision. Defined.

Record IdTokenClaims := mkClaims {
  cl_iss : string;
  cl_sub : string;
  cl_email : string;
  cl_name : option string;
  cl_picture : option string;
  cl_iat : jsnum;
  cl_exp : jsnum;
  cl_authTime : jsnum;
  cl_emailVerified : bool
}.

Inductive IdTokenResult :=
  | Verified (claims : IdTokenClaims)
  | Refused (error : IdTokenFailure).

Record IdTokenExpectations := mkExpectations {
  issuer : string;
  audiences : list string;
  expected_nonce : option string;
  maxAgeSeconds : option Z;
  skewSeconds : option Z;
  allowUnverifiedEmail : bool
}.

(** A public key: the members of its JSON object. *)
Definition Jwk := list (string * json).

Definition DEFAULT_SKEW_S : Z := 60.

(** The key type an algorithm needs, and its curve. *)
Definition ALGORITHMS (alg : string) : option (string * option string) :=
  match alg with
  | "RS256" => Some ("RSA", None)
  | "PS256" => Some ("RSA", None)
  | "ES256" => Some ("EC", Some "P-256")
  | "EdDSA" => Some ("OKP", Some "Ed25519")
  | _ => None
  end%string.

(** How [node:crypto]'s [verify] is called: the digest, PSS padding, and r||s
    signatures. [node_verify] also stands for [createPublicKey] on the JWK; [None]
    is a throw. *)
Record VerifyOptions := mkVerify { vf_digest : option string; vf_pss : bool; vf_p1363 : bool }.
Class NodeVerify := node_verify : VerifyOptions -> Jwk -> string -> string -> option bool.

Section core.
Context `{NODE : Node} `{VERIFY : NodeVerify}.

Definition decodeSegment (segment : string) : option (list (string * json)) :=
  match JSON_parse (from_base64url segment) with Some (JObject fields) => Some fields | _ => None end.

Definition text_of (v : option json) : option string :=
  match v with Some (JString s) => Some s | _ => None end.

Definition peekHeader (token : string) : option (string * option string) :=
  match split_on "." token with
  | [h; _; _] =>
      header ← decodeSegment h;
      alg ← text_of (field "alg" header);
      Some (alg, text_of (field "kid" header))
  | _ => None
  end.

(** [v === undefined || v === s] *)
Definition absent_or (s : string) (v : option json) : bool :=
  match v with None => true | Some _ => is_text s v end.

Definition usable_key (alg : string) (want : string * option string) (k : Jwk) : bool :=
  is_text (fst want) (field "kty" k)
  && match snd want with Some crv => is_text crv (field "crv" k) | None => true end
  && absent_or "sig" (field "use" k)
  && absent_or alg (field "alg" k).

Definition selectKey (keys : list Jwk) (alg : string) (kid : option string) : option Jwk :=
  match ALGORITHMS alg with
  | None => None
  | Some want =>
      let usable := List.filter (usable_key alg want) keys in
      match kid with
      | Some kid => List.find (fun k => is_text kid (field "kid" k)) usable
      | None => match usable with [k] => Some k | _ => None end
      end
  end.

Definition verifySignature (alg : string) (key : Jwk) (data signature : string) : bool :=
  default false
    match alg with
    | "RS256" => node_verify (mkVerify (Some "sha256") false false) key data signature
    | "PS256" => node_verify (mkVerify (Some "sha256") true false) key data signature
    | "ES256" => node_verify (mkVerify (Some "sha256") false true) key data signature
    | "EdDSA" => node_verify (mkVerify None false false) key data signature
    | _ => Some false
    end%string.

(** The audiences a token names. *)
Definition audience_of (c : list (string * json)) : list string :=
  match field "aud" c with
  | Some (JString a) => [a]
  | Some (JArray l) => omap (fun v => text_of (Some v)) l
  | _ => []
  end.

Definition number_of (v : option json) : option jsnum :=
  match v with Some (JNumber n) => Some n | _ => None end.

(** When the person signed in: [auth_time], or [iat]; with the name it stands
    under. *)
Definition auth_time_of (c : list (string * json)) (iat : jsnum) : string * jsnum :=
  match number_of (field "auth_time" c) with Some t => ("auth_time"%string, t) | None => ("iat"%string, iat) end.

Definition verifyIdToken (token : string) (keys : list Jwk) (expect : IdTokenExpectations) (nowSeconds : Z)
    : IdTokenResult :=
  match peekHeader token, split_on "." token with
  | Some (alg, kid), [h; p; s] =>
      match ALGORITHMS alg, selectKey keys alg kid with
      | None, _ => Refused unsupported_alg
      | Some _, None => Refused unknown_key
      | Some _, Some jwk =>
          if negb (verifySignature alg jwk (h +:+ "." +:+ p)%string (from_base64url s)) then Refused bad_signature
          else
            match decodeSegment p with
            | None => Refused malformed
            | Some c =>
                let skew := default DEFAULT_SKEW_S (skewSeconds expect) in
                let aud := audience_of c in
                if negb (is_text (issuer expect) (field "iss" c)) then Refused wrong_issuer
                else if negb (existsb (fun a => bool_decide (a ∈ audiences expect)) aud) then Refused wrong_audience
                else if (1 <? length aud)%nat
                        && negb match text_of (field "azp" c) with
                                | Some azp => bool_decide (azp ∈ audiences expect)
                                | None => false
                                end
                then Refused wrong_audience
                else
                  match number_of (field "exp" c) with
                  | None => Refused expired
                  | Some exp =>
                      if num_le p "exp" exp (nowSeconds - skew) then Refused expired
                      else
                        match number_of (field "iat" c) with
                        | None => Refused not_yet_valid
                        | Some iat =>
                            if negb (num_le p "iat" iat (nowSeconds + skew)) then Refused not_yet_valid
                            else if match field "nbf" c with
                                    | None => false
                                    | Some (JNumber nbf) => negb (num_le p "nbf" nbf (nowSeconds + skew))
                                    | Some _ => true
                                    end
                            then Refused not_yet_valid
                            else
                              let authTime := auth_time_of c iat in
                              if match maxAgeSeconds expect with
                                 | Some age => num_lt p (fst authTime) (snd authTime) (nowSeconds - (age + skew))
                                 | None => false
                                 end
                              then Refused too_old
                              else if match expected_nonce expect with
                                      | Some nonce => negb (is_text nonce (field "nonce" c))
                                      | None => false
                                      end
                              then Refused wrong_nonce
                              else
                                match str (field "sub" c), str (field "email" c) with
                                | Some sub, Some email =>
                                    let emailVerified := is_true (field "email_verified" c) in
                                    if negb emailVerified && negb (allowUnverifiedEmail expect)
                                    then Refused email_unverified
                                    else
                                      Verified (mkClaims (issuer expect) sub (toLowerCase email)
                                        (match str (field "name" c) with
                                         | Some n => Some n
                                         | None => str (field "preferred_username" c)
                                         end)
                                        (httpsUrl (field "picture" c)) iat exp (snd authTime) emailVerified)
                                | _, _ => Refused email_missing
                                end
                        end
                  end
            end
      end
  | _, _ => Refused malformed
  end.

(** ** Discovery *)

Record OidcDiscovery := mkDiscovery {
  authorizationEndpoint : string;
  tokenEndpoint : string;
  jwksUri : string
}.

Definition isProviderUrl (value : string) : bool :=
  match new_URL value with
  | Some url =>
      bool_decide (protocol url = "https:")
      || (bool_decide (protocol url = "http:") && bool_decide (hostname url ∈ ["localhost"; "127.0.0.1"; "[::1]"]))
  | None => false
  end%string.

(** [s.replace(/\/+$/, '')] *)
Fixpoint strip_slashes (s : string) : string :=
  match s with
  | EmptyString => EmptyString
  | String a r =>
      match strip_slashes r with
      | EmptyString => if Ascii.eqb a "/"%char then EmptyString else String a EmptyString
      | r' => String a r'
      end
  end.

Definition discoveryUrl (iss : string) : string :=
  (strip_slashes iss +:+ "/.well-known/openid-configuration")%string.

Definition provider_url (v : option json) : option string :=
  u ← text_of v; if isProviderUrl u then Some u else None.

Definition parseDiscovery (doc : json) (expectedIssuer : string) : option OidcDiscovery :=
  let d := fields_of doc in
  if negb (is_text expectedIssuer (field "issuer" d)) then None
  else
    authz ← provider_url (field "authorization_endpoint" d);
    token ← provider_url (field "token_endpoint" d);
    jwks ← provider_url (field "jwks_uri" d);
    Some (mkDiscovery authz token jwks).

Definition jwk_of (v : json) : option Jwk :=
  match v with
  | JObject k =>
      match text_of (field "kty" k), field "d" k with Some _, None => Some k | _, _ => None end
  | _ => None
  end.

Definition parseJwks (doc : json) : list Jwk :=
  match field "keys" (fields_of doc) with Some (JArray l) => omap jwk_of l | _ => [] end.
End core.

(** ** The service (oidc.service.ts) *)

Definition OIDC_DISCOVERY_TTL_MS : Z := 60 * 60 * 1000.
Definition OIDC_JWKS_TTL_MS : Z := 10 * 60 * 1000.
Definition OIDC_JWKS_REFRESH_MIN_MS : Z := 60 * 1000.

Record Cached (A : Type) := mkCached { cached : A; fetchedAt : Z }.
Arguments mkCached {A} cached fetchedAt.
Arguments cached {A} c.
Arguments fetchedAt {A} c.

(** An HTTP answer: its status and its body, or none at all. *)
Inductive HttpAnswer :=
  | Response (status : Z) (body : string)
  | NetworkError.

(** [if (!res.ok) throw ...; return res.json()] *)
Definition json_answer `{Node} (a : HttpAnswer) : res json :=
  match a with
  | Response st body =>
      if (200 <=? st) && (st <=? 299) then res_of_option JsError (JSON_parse body) else Throw JsError
  | NetworkError => Throw JsError
  end.

(** The two per-process caches. *)
Record OidcCaches := mkCaches {
  discoveries : gmap string (Cached OidcDiscovery);
  keySets : gmap string (Cached (list Jwk))
}.

(** A world that has them, a clock, the providers' answers and a record, which no
    method reads, of the tokens that were accepted and when. *)
Class OidcWorld (W : Type) := mkOidcWorld {
  caches : W -> OidcCaches;
  set_caches : OidcCaches -> W -> W;
  oidc_get : W -> string -> HttpAnswer;
  oidc_clock : W -> Z;
  note_checked : string -> Z -> W -> W
}.

Section service.
Context `{NODE : Node} `{VERIFY : NodeVerify} {W : Type} `{OW : OidcWorld W}.

Definition add_discovery (iss : string) (d : OidcDiscovery) : W -> W := fun w =>
  set_caches (mkCaches (<[iss := mkCached d (oidc_clock w)]> (discoveries (caches w))) (keySets (caches w))) w.
Definition add_keys (uri : string) (ks : list Jwk) : W -> W := fun w =>
  set_caches (mkCaches (discoveries (caches w)) (<[uri := mkCached ks (oidc_clock w)]> (keySets (caches w)))) w.

(** A cached value younger than [ttl]. *)
Definition fresh {A} (ttl now : Z) (hit : option (Cached A)) : option A :=
  match hit with Some c => if now - fetchedAt c <? ttl then Some (cached c) else None | None => None end.

Definition discover (iss : string) : prog W OidcDiscovery :=
  hit ← asking (fun w => fresh OIDC_DISCOVERY_TTL_MS (oidc_clock w) (discoveries (caches w) !! iss));
  match hit with
  | Some d => Ret d
  | None =>
      stmt (fun w =>
        match doc ← json_answer (oidc_get w (discoveryUrl iss)); res_of_option JsError (parseDiscovery doc iss) with
        | Ok d => (add_discovery iss d w, Ok d)
        | Throw e => (w, Throw e)
        end)
  end.

Definition keys_of (d : OidcDiscovery) (force : bool) : prog W (list Jwk) :=
  hit ← asking (fun w => fresh OIDC_JWKS_TTL_MS (oidc_clock w) (keySets (caches w) !! jwksUri d));
  match (if force then None else hit) with
  | Some ks => Ret ks
  | None =>
      stmt (fun w =>
        match json_answer (oidc_get w (jwksUri d)) with
        | Ok doc => (add_keys (jwksUri d) (parseJwks doc) w, Ok (parseJwks doc))
        | Throw e => (w, Throw e)
        end)
  end.

(** [Math.floor(Date.now() / 1000)] *)
Definition now_seconds (w : W) : Z := oidc_clock w / 1000.

(** [verifyIdToken(token, keys, expect, nowSeconds)] at this moment. *)
Definition check_token (token : string) (ks : list Jwk) (expect : IdTokenExpectations) : prog W IdTokenResult :=
  stmt (fun w =>
    let result := verifyIdToken token ks expect (now_seconds w) in
    (match result with Verified _ => note_checked token (now_seconds w) w | Refused _ => w end, Ok result)).

Definition oidc_verify (token : string) (expect : IdTokenExpectations) : prog W IdTokenResult :=
  d ← discover (issuer expect);
  ks ← keys_of d false;
  result ← check_token token ks expect;
  match result with
  | Refused unknown_key =>
      stale ← asking (fun w =>
        match keySets (caches w) !! jwksUri d with
        | Some c => negb (oidc_clock w - fetchedAt c <? OIDC_JWKS_REFRESH_MIN_MS)
        | None => true
        end);
      match h ← peekHeader token; snd h with
      | Some kid =>
          if negb (bool_decide (kid = ""%string)) && stale && negb (existsb (fun k => is_text kid (field "kid" k)) ks)
          then
            ks' ← keys_of d true;
            check_token token ks' expect
          else Ret result
      | None => Ret result
      end
  | _ => Ret result
  end.
End service.

(** ** What an accepted token is, without the order of the checks *)

Lemma is_text_true s v : is_text s v = true <-> v = Some (JString s).
Proof.
  destruct v as [[]|]; simpl; try done. rewrite bool_decide_eq_true. split; [by intros -> | by intros [= ->]].
Qed.

Lemma is_true_true v : is_true v = true <-> v = Some (JBool true).
Proof. by destruct v as [[| [] | | | |]|]. Qed.

Lemma number_of_Some v n : number_of v = Some n <-> v = Some (JNumber n).
Proof. destruct v as [[]|]; simpl; try done. split; by intros [= ->]. Qed.

Lemma text_of_Some v s : text_of v = Some s <-> v = Some (JString s).
Proof. destruct v as [[]|]; simpl; try done. split; by intros [= ->]. Qed.

Section exact.
Context `{NODE : Node} `{VERIFY : NodeVerify}.

(** The four algorithms (RFC 7518, RFC 8037), how [node:crypto] checks their
    signatures, and the members their keys have. *)
Definition SCHEMES : list (string * VerifyOptions * list (string * string)) :=
  [("RS256", mkVerify (Some "sha256") false false, [("kty", "RSA")]);
   ("PS256", mkVerify (Some "sha256") true false, [("kty", "RSA")]);
   ("ES256", mkVerify (Some "sha256") false true, [("kty", "EC"); ("crv", "P-256")]);
   ("EdDSA", mkVerify None false false, [("kty", "OKP"); ("crv", "Ed25519")])]%string.

(** A key with those members, for signatures if it says what it is for, and of the
    algorithm if it names one. *)
Record suits (alg : string) (members : list (string * string)) (k : Jwk) : Prop := {
  su_members : forall name value, (name, value) ∈ members -> field name k = Some (JString value);
  su_use : field "use" k = None \/ field "use" k = Some (JString "sig");
  su_alg : field "alg" k = None \/ field "alg" k = Some (JString alg)
}.

(** [k] is the first suitable key under the key id the header names; a header that
    names none leaves no choice among the suitable keys. *)
Definition meant (suitable : Jwk -> Prop) (header : list (string * json)) (keys : list Jwk) (k : Jwk) : Prop :=
  exists earlier later, keys = earlier ++ k :: later /\ suitable k
    /\ (forall kid, field "kid" header = Some (JString kid) ->
          field "kid" k = Some (JString kid)
          /\ Forall (fun k' => suitable k' -> field "kid" k' <> Some (JString kid)) earlier)
    /\ ((forall kid, field "kid" header <> Some (JString kid)) -> Forall (fun k' => ~ suitable k') (earlier ++ later)).

(** The token [h.p.s] is signed, by its own algorithm, with the key of the set it
    means. *)
Record signed_token (token : string) (keys : list Jwk) (p : string) : Prop := {
  st_parts : exists h s header alg options members jwk,
    split_on "." token = [h; p; s] /\ decodeSegment h = Some header
    /\ field "alg" header = Some (JString alg) /\ (alg, options, members) ∈ SCHEMES
    /\ meant (suits alg members) header keys jwk
    /\ node_verify options jwk (h +:+ "." +:+ p)%string (from_base64url s) = Some true
}.

(** [a] is an audience the claims name, alone or in the [i]th place of a list. *)
Inductive names_audience (c : list (string * json)) : nat -> string -> Prop :=
  | one_audience a : field "aud" c = Some (JString a) -> names_audience c 0 a
  | listed_audience l i a : field "aud" c = Some (JArray l) -> l !! i = Some (JString a) -> names_audience c i a.

(** When the person signed in, and the claim that says so. *)
Inductive signed_in (c : list (string * json)) : string -> jsnum -> Prop :=
  | by_auth_time t : field "auth_time" c = Some (JNumber t) -> signed_in c "auth_time" t
  | by_issue t : (forall n, field "auth_time" c <> Some (JNumber n)) -> field "iat" c = Some (JNumber t) -> signed_in c "iat" t.

Section claims.
Context (p : string) (c : list (string * json)) (expect : IdTokenExpectations) (now : Z).
#[local] Abbreviation skew := (default 60 (skewSeconds expect)).

(** What the claims say. *)
Record claims_hold : Prop := {
  ch_issuer : field "iss" c = Some (JString (issuer expect));
  ch_audience : exists i a, names_audience c i a /\ a ∈ audiences expect;
  ch_party : (exists i j a b, i <> j /\ names_audience c i a /\ names_audience c j b) ->
    exists azp, field "azp" c = Some (JString azp) /\ azp ∈ audiences expect;
  ch_alive : exists e, field "exp" c = Some (JNumber e) /\ num_le p "exp" e (now - skew) = false;
  ch_issued : exists i, field "iat" c = Some (JNumber i) /\ num_le p "iat" i (now + skew) = true;
  ch_age : forall age, maxAgeSeconds expect = Some age ->
    exists name t, signed_in c name t /\ num_lt p name t (now - (age + skew)) = false;
  ch_begun : forall v, field "nbf" c = Some v ->
    exists b, v = JNumber b /\ num_le p "nbf" b (now + skew) = true;
  ch_nonce : forall nonce, expected_nonce expect = Some nonce -> field "nonce" c = Some (JString nonce);
  ch_inbox : field "email_verified" c = Some (JBool true) \/ allowUnverifiedEmail expect = true
}.

(** A text claim, without the white space around it, that is not empty. *)
Definition says (name text : string) : Prop :=
  exists raw, field name c = Some (JString raw) /\ text = trim raw /\ text <> ""%string.

(** What is read from them. *)
Record claims_are (cl : IdTokenClaims) : Prop := {
  ca_iss : cl_iss cl = issuer expect;
  ca_sub : says "sub" (cl_sub cl);
  ca_email : exists email, says "email" email /\ cl_email cl = toLowerCase email;
  ca_name : match cl_name cl with
            | Some n => says "name" n \/ (forall x, ~ says "name" x) /\ says "preferred_username" n
            | None => forall x, ~ says "name" x /\ ~ says "preferred_username" x
            end;
  ca_picture : cl_picture cl = httpsUrl (field "picture" c);
  ca_iat : field "iat" c = Some (JNumber (cl_iat cl));
  ca_exp : field "exp" c = Some (JNumber (cl_exp cl));
  ca_authTime : exists name, signed_in c name (cl_authTime cl);
  ca_emailVerified : cl_emailVerified cl = true <-> field "email_verified" c = Some (JBool true)
}.
End claims.

(** The token attests the claims, to who expects them, at a moment. *)
Definition attests (token : string) (keys : list Jwk) (expect : IdTokenExpectations) (now : Z) (cl : IdTokenClaims) : Prop :=
  exists p c, signed_token token keys p /\ decodeSegment p = Some c /\ claims_hold p c expect now /\ claims_are c expect cl.

Lemma existsb_audience (l aud : list string) :
  existsb (fun a => bool_decide (a ∈ aud)) l = true <-> exists a, a ∈ l /\ a ∈ aud.
Proof.
  rewrite existsb_exists. split; intros (a & Ha & Hb); exists a; (split; [by apply list_elem_of_In|]).
  - by apply bool_decide_eq_true in Hb.
  - by apply bool_decide_eq_true.
Qed.

Lemma ALGORITHMS_four alg : is_Some (ALGORITHMS alg) -> alg ∈ ["RS256"; "PS256"; "ES256"; "EdDSA"]%string.
Proof.
  intros [w H]. unfold ALGORITHMS in H.
  repeat match type of H with context [match ?x with _ => _ end] => destruct x; try discriminate H end.
  all: rewrite !elem_of_cons; auto.
Qed.

Lemma find_filter {A} (g q : A -> bool) l : List.find g (List.filter q l) = List.find (fun x => q x && g x) l.
Proof. induction l as [|x l IH]; simpl; [done|]. destruct (q x); simpl; [by destruct (g x)|done]. Qed.

Lemma find_first {A} (f : A -> bool) l k :
  List.find f l = Some k <-> exists earlier later, l = earlier ++ k :: later /\ f k = true /\ Forall (fun x => f x = false) earlier.
Proof.
  split.
  - induction l as [|x l IH]; simpl; [done|]. destruct (f x) eqn:E.
    + intros [= ->]. by exists [], l.
    + intros (e & la & -> & Hk & He)%IH. exists (x :: e), la. split_and!; [done|done|by constructor].
  - intros (e & la & -> & Hk & He). induction He as [|x e Hx He IH]; simpl; [by rewrite Hk|by rewrite Hx].
Qed.

Lemma filter_one {A} (q : A -> bool) l k :
  List.filter q l = [k] <-> exists earlier later, l = earlier ++ k :: later /\ q k = true /\ Forall (fun x => q x = false) (earlier ++ later).
Proof.
  assert (Hnil : forall l, List.filter q l = [] <-> Forall (fun x => q x = false) l).
  { induction l0 as [|x l0 IH]; simpl; [done|]. rewrite Forall_cons, <- IH. destruct (q x); split; [done|by intros []|by split|by intros []]. }
  split.
  - induction l as [|x l IH]; simpl; [done|]. destruct (q x) eqn:E.
    + intros [= -> H%Hnil]. by exists [], l.
    + intros (e & la & -> & Hk & He)%IH. exists (x :: e), la. split_and!; [done|done|by constructor].
  - intros (e & la & -> & Hk & [He Hla]%Forall_app). rewrite List.filter_app. simpl. rewrite Hk.
    by rewrite (proj2 (Hnil e)), (proj2 (Hnil la)).
Qed.

Lemma absent_or_iff t v : absent_or t v = true <-> v = None \/ v = Some (JString t).
Proof. destruct v as [v|]; simpl; [|naive_solver]. rewrite (is_text_true t (Some v)). naive_solver. Qed.

Lemma suits_iff alg kty crv k :
  usable_key alg (kty, crv) k = true
  <-> suits alg (("kty"%string, kty) :: match crv with Some c => [("crv"%string, c)] | None => [] end) k.
Proof.
  unfold usable_key. cbn [fst snd]. rewrite !andb_true_iff, !absent_or_iff, is_text_true. split.
  - intros [[[H1 H2] H3] H4]. split; [|done|done]. intros name value. destruct crv as [c|].
    + apply is_text_true in H2. by intros [[= -> ->]|[= -> ->]%list_elem_of_singleton]%elem_of_cons.
    + by intros [= -> ->]%list_elem_of_singleton.
  - intros [H1 H2 H3]. split_and!; try done; [apply H1; by left|]. destruct crv as [c|]; [|done].
    apply is_text_true, H1. right. by left.
Qed.

(** An algorithm's row of the table: its keys and how its signatures are checked. *)
Lemma scheme_of alg :
  match ALGORITHMS alg with
  | None => forall o m, (alg, o, m) ∉ SCHEMES
  | Some want =>
      exists o m, (forall o' m', (alg, o', m') ∈ SCHEMES <-> o' = o /\ m' = m)
        /\ (forall k, usable_key alg want k = true <-> suits alg m k)
        /\ forall k d sig, verifySignature alg k d sig = true <-> node_verify o k d sig = Some true
  end.
Proof.
  assert (Hrow : forall o m, (alg, o, m) ∈ SCHEMES -> alg ∈ ["RS256"; "PS256"; "ES256"; "EdDSA"]%string).
  { intros o m H. unfold SCHEMES in H.
    repeat (apply elem_of_cons in H as [[= -> _ _]|H]; [rewrite !elem_of_cons; tauto|]). by apply not_elem_of_nil in H. }
  assert (Hd : forall o k d sig, default false (node_verify o k d sig) = true <-> node_verify o k d sig = Some true).
  { intros o k d sig. destruct (node_verify o k d sig) as [[]|]; naive_solver. }
  assert (Hall : forall o m o' m', (alg, o, m) ∈ SCHEMES -> (alg, o', m') ∈ SCHEMES -> o' = o /\ m' = m).
  { intros o m o' m' H1 H2. unfold SCHEMES in H1, H2.
    repeat (apply elem_of_cons in H1 as [E1|H1];
      [repeat (apply elem_of_cons in H2 as [E2|H2]; [by simplify_eq|]); by apply not_elem_of_nil in H2|]).
    by apply not_elem_of_nil in H1. }
  destruct (ALGORITHMS alg) as [want|] eqn:E.
  - assert (Hin : alg ∈ ["RS256"; "PS256"; "ES256"; "EdDSA"]%string) by (apply ALGORITHMS_four; by exists want).
    rewrite !elem_of_cons in Hin.
    destruct Hin as [-> |[-> |[-> |[-> |[]%not_elem_of_nil]]]]; injection E as <-.
    all: do 2 eexists; split_and!; [|intros k; apply suits_iff|intros k d sig; apply Hd].
    all: intros o' m'; split; [|intros [-> ->]; unfold SCHEMES; rewrite !elem_of_cons; tauto].
    all: intros H; refine (Hall _ _ _ _ _ H); unfold SCHEMES; rewrite !elem_of_cons; tauto.
  - intros o m H. assert (Hin := Hrow o m H). rewrite !elem_of_cons in Hin.
    by destruct Hin as [-> |[-> |[-> |[-> |[]%not_elem_of_nil]]]].
Qed.

(** The key that is selected is the one the header means. *)
Lemma selectKey_meant keys alg want (suitable : Jwk -> Prop) header k :
  ALGORITHMS alg = Some want -> (forall k, usable_key alg want k = true <-> suitable k) ->
  selectKey keys alg (text_of (field "kid" header)) = Some k <-> meant suitable header keys k.
Proof.
  intros Hw Hs. unfold selectKey, meant. rewrite Hw. cbv zeta.
  assert (Hn : forall k, usable_key alg want k = false <-> ~ suitable k) by (intros k'; by rewrite <- Hs, not_true_iff_false).
  destruct (text_of (field "kid" header)) as [kid|] eqn:Ek.
  - apply text_of_Some in Ek. rewrite find_filter, find_first. split; intros (e & la & -> & Hk & H); exists e, la.
    + apply andb_true_iff in Hk as [Hu Hi%is_text_true]. split_and!; [done|by apply Hs| |by intros []%(fun X => X kid)].
      intros kid' E. rewrite Ek in E. injection E as <-. split; [done|]. eapply Forall_impl; [exact H|]. intros k' Hk' Hs' E'.
      apply Hs in Hs'. apply is_text_true in E'.
      cbv beta in Hk'. by rewrite Hs', E' in Hk'.
    + destruct H as [H _]. destruct (H kid Ek) as [Hi He]. split_and!; [done| |].
      * apply andb_true_iff. split; [by apply Hs|by apply is_text_true].
      * eapply Forall_impl; [exact He|]. intros k' Hk'. apply not_true_iff_false. intros [Hu%Hs Ht%is_text_true]%andb_true_iff.
        by apply Hk'.
  - assert (Hno : forall kid, field "kid" header <> Some (JString kid)) by (intros kid E; by rewrite E in Ek).
    assert (Hf : match List.filter (usable_key alg want) keys with [k'] => Some k' | _ => None end = Some k
                 <-> List.filter (usable_key alg want) keys = [k]).
    { destruct (List.filter _ _) as [|k' [|? ?]]; split; congruence. }
    rewrite Hf, filter_one. split; intros (e & la & -> & Hk & H); exists e, la.
    + split_and!; [done|by apply Hs|by intros kid ?%Hno|]. intros _. eapply Forall_impl; [exact H|]. intros k'. apply Hn.
    + destruct H as [_ H]. split_and!; [done|by apply Hs|]. eapply Forall_impl; [by apply H|]. intros k'. apply Hn.
Qed.

(** The refusals as the conditions they refuse. *)
Lemma party_iff (aud l : list string) azp :
  (1 <? length aud)%nat
  && negb match text_of azp with Some x => bool_decide (x ∈ l) | None => false end = false
  <-> ((1 < length aud)%nat -> exists x, azp = Some (JString x) /\ x ∈ l).
Proof.
  destruct (Nat.ltb_spec 1 (length aud)); simpl; [|split; [lia | done]].
  rewrite negb_false_iff. destruct (text_of azp) as [x|] eqn:E.
  - apply text_of_Some in E as ->. rewrite bool_decide_eq_true. split; [by eauto|].
    intros Hx. by destruct (Hx ltac:(done)) as (? & [= ->] & ?).
  - split; [done|]. intros Hx. destruct (Hx ltac:(done)) as (y & -> & _). done.
Qed.

Lemma begun_iff p v n :
  match v with None => false | Some (JNumber b) => negb (num_le p "nbf" b n) | Some _ => true end = false
  <-> forall x, v = Some x -> exists b, x = JNumber b /\ num_le p "nbf" b n = true.
Proof.
  destruct v as [v|]; [|done]. split.
  - intros Hv x [= <-]. destruct v; try done. apply negb_false_iff in Hv. eauto.
  - intros Hv. destruct (Hv v eq_refl) as (b & -> & ->). done.
Qed.

Lemma nonce_iff (o : option string) v :
  match o with Some nonce => negb (is_text nonce v) | None => false end = false
  <-> forall nonce, o = Some nonce -> v = Some (JString nonce).
Proof.
  destruct o as [n|]; [|done]. rewrite negb_false_iff, is_text_true.
  split; [by intros ? ? [= <-] | auto].
Qed.

Lemma inbox_iff v b : negb (is_true v) && negb b = false <-> v = Some (JBool true) \/ b = true.
Proof. rewrite <- is_true_true. destruct (is_true v), b; simpl; naive_solver. Qed.

(** Turns a hypothesis along an equivalence whose other side is an implication. *)
Tactic Notation "have_iff" uconstr(lem) hyp(E) := let E' := fresh E in assert (E' := proj1 lem E); clear E.

(** The audiences by place. *)
Lemma audience_places c a : a ∈ audience_of c <-> exists i, names_audience c i a.
Proof.
  unfold audience_of. split.
  - destruct (field "aud" c) as [[| | |x|l|]|] eqn:E; try (by intros []%not_elem_of_nil).
    + intros ->%list_elem_of_singleton. exists 0%nat. by constructor.
    + intros (v & Hv & ->%text_of_Some%(inj Some))%list_elem_of_omap. apply list_elem_of_lookup in Hv as [i Hi].
      exists i. by eapply listed_audience.
  - intros [i H]. destruct H as [x H|l i x H Hi]; rewrite H; [by left|]. apply list_elem_of_omap.
    exists (JString x). split; [by eapply list_elem_of_lookup_2|done].
Qed.

Lemma omap_places {A B} (f : A -> option B) l :
  (1 < length (omap f l))%nat <-> exists i j a b, i <> j /\ l !! i = Some a /\ l !! j = Some b /\ is_Some (f a) /\ is_Some (f b).
Proof.
  assert (Hone : forall l, (0 < length (omap f l))%nat <-> exists i a, l !! i = Some a /\ is_Some (f a)).
  { induction l0 as [|x l0 IH]; simpl; [split; [lia | by intros (i & a & ? & _)]|]. destruct (f x) as [fx|] eqn:E; simpl.
    - split; [intros _; exists 0%nat, x; by split|lia].
    - rewrite IH. split; [by intros (i & a & ? & ?); exists (S i), a|]. intros ([|i] & a & Hi & [y Hy]); simplify_eq/=. by exists i, a. }
  induction l as [|x l IH]; simpl; [split; [lia | by intros (i & j & a & b & _ & ? & _)]|].
  destruct (f x) as [fx|] eqn:E; simpl.
  - rewrite <- Nat.succ_lt_mono, Hone. split.
    + intros (i & a & Hi & Ha). exists 0%nat, (S i), x, a. split_and!; [done|done|done|by eexists|done].
    + intros (i & j & a & b & Hij & Ha & Hb & Fa & Fb). destruct i as [|i]; [|by exists i, a].
      destruct j as [|j]; [done|]. by exists j, b.
  - rewrite IH. split.
    + intros (i & j & a & b & Hij & H). exists (S i), (S j), a, b. split; [congruence|done].
    + intros ([|i] & [|j] & a & b & Hij & Ha & Hb & [y Fa] & [z Fb]); simplify_eq/=. exists i, j, a, b. split_and!; [congruence|done|done|by eexists..].
Qed.

Lemma several_audiences c :
  (1 < length (audience_of c))%nat <-> exists i j a b, i <> j /\ names_audience c i a /\ names_audience c j b.
Proof.
  split.
  - unfold audience_of. destruct (field "aud" c) as [[| | |x|l|]|] eqn:E; simpl; try lia.
    intros (i & j & u & v & Hij & Hu & Hv & [a Ha] & [b Hb])%omap_places. destruct u, v; try done. simplify_eq.
    do 4 eexists. split_and!; [exact Hij|by eapply listed_audience..].
  - intros (i & j & a & b & Hij & Ha & Hb). unfold audience_of.
    destruct Ha as [a Ha|l i a Ha Hi], Hb as [b Hb|l' j b Hb Hj]; rewrite Ha in Hb |- *; simplify_eq.
    apply omap_places. exists i, j, (JString a), (JString b). split_and!; try done; by eexists.
Qed.

Lemma signed_in_of c i name t : field "iat" c = Some (JNumber i) -> signed_in c name t <-> auth_time_of c i = (name, t).
Proof.
  intros Hi. unfold auth_time_of. destruct (number_of (field "auth_time" c)) as [x|] eqn:E.
  - apply number_of_Some in E. split; [intros []; congruence|]. intros [= <- <-]. by constructor.
  - assert (Hn : forall n, field "auth_time" c <> Some (JNumber n)) by (intros n E'; by rewrite E' in E).
    split; [intros [x H|x _ H]; [by apply Hn in H|congruence]|]. intros [= <- <-]. by constructor.
Qed.

Lemma says_str c name t : says c name t <-> str (field name c) = Some t.
Proof.
  unfold says, str. split.
  - intros (raw & -> & -> & H). by rewrite bool_decide_eq_false_2.
  - destruct (field name c) as [[| | |s| |]|]; try done. case_bool_decide; [done|]. intros [= <-]. by exists s.
Qed.

Lemma says_nothing c name : (forall t, ~ says c name t) <-> str (field name c) = None.
Proof.
  split; [|intros E t; by rewrite says_str, E]. intros H. destruct (str _) as [t|] eqn:E; [|done].
  apply says_str in E. by destruct (H t).
Qed.

(** The claims that are answered. *)
Lemma claims_are_iff c expect cl sub email e i :
  str (field "sub" c) = Some sub -> str (field "email" c) = Some email ->
  field "exp" c = Some (JNumber e) -> field "iat" c = Some (JNumber i) ->
  claims_are c expect cl <->
  mkClaims (issuer expect) sub (toLowerCase email)
    (match str (field "name" c) with Some n => Some n | None => str (field "preferred_username" c) end)
    (httpsUrl (field "picture" c)) i e (snd (auth_time_of c i)) (is_true (field "email_verified" c)) = cl.
Proof.
  intros Hs Hm He Hi. split.
  - destruct cl as [iss sub' email' name pic iat exp at_ ev]. intros [H1 H2 (em & H3 & H4) H5 H6 H7 H8 [nm H9] H10]. simpl in *.
    apply says_str in H2, H3. rewrite (signed_in_of _ i) in H9 by done. rewrite H9.
    assert (Hn : name = match str (field "name" c) with Some n => Some n | None => str (field "preferred_username" c) end).
    { destruct name as [n|].
      - rewrite says_str in H5. destruct H5 as [-> | [E%says_nothing H5]]; [done|]. rewrite E. symmetry. by apply says_str.
      - destruct (str (field "name" c)) as [n|] eqn:E; [apply says_str in E; by destruct (H5 n)|].
        symmetry. apply says_nothing. intros t. apply H5. }
    assert (Hb : ev = is_true (field "email_verified" c)).
    { rewrite <- is_true_true in H10. destruct ev, (is_true _); naive_solver. }
    rewrite Hi in H7. rewrite He in H8. simplify_eq. simpl. f_equal; congruence.
  - intros <-. split; simpl; try done; [by apply says_str|exists email; by rewrite says_str| | |apply is_true_true].
    + destruct (str (field "name" c)) as [n|] eqn:E; [left; by apply says_str|].
      destruct (str (field "preferred_username" c)) as [n|] eqn:E'; [right; split; [by apply says_nothing|by apply says_str]|].
      intros x. split; [revert x; by apply says_nothing|revert x; by apply says_nothing].
    + destruct (auth_time_of c i) as [name t] eqn:E. exists name. by apply (signed_in_of _ i).
Qed.

Lemma age_iff c (o : option Z) p i now sk : field "iat" c = Some (JNumber i) ->
  match o with Some age => num_lt p (fst (auth_time_of c i)) (snd (auth_time_of c i)) (now - (age + sk)) | None => false end = false
  <-> forall age, o = Some age -> exists name t, signed_in c name t /\ num_lt p name t (now - (age + sk)) = false.
Proof.
  intros Hi. split.
  - intros H age ->. do 2 eexists. split; [|exact H]. apply (signed_in_of _ i); [done|]. by destruct (auth_time_of c i).
  - intros H. destruct o as [age|]; [|done]. destruct (H age eq_refl) as (name & t & Hs & Ht).
    apply (signed_in_of _ i) in Hs; [|done]. by rewrite Hs.
Qed.

(** The signature, segment by segment. *)
Lemma signed_iff token keys h p s header alg want :
  split_on "." token = [h; p; s] -> decodeSegment h = Some header -> field "alg" header = Some (JString alg) ->
  ALGORITHMS alg = Some want ->
  signed_token token keys p <-> exists k, selectKey keys alg (text_of (field "kid" header)) = Some k
    /\ verifySignature alg k (h +:+ "." +:+ p)%string (from_base64url s) = true.
Proof.
  intros Es Eh Ea Ew. assert (Hsch := scheme_of alg). rewrite Ew in Hsch. destruct Hsch as (o & m & Ho & Hk & Hv).
  split.
  - intros [(h' & s' & hd & alg' & o' & m' & k & E1 & E2 & E3 & E4 & E5 & E6)].
    rewrite Es in E1. simplify_eq.
    apply Ho in E4 as [-> ->]. exists k. split; [by apply (selectKey_meant _ alg want (suits alg m))|by apply Hv].
  - intros (k & E5 & E6). split. exists h, s, header, alg, o, m, k. split_and!; try done; [by apply Ho| |by apply Hv].
    by apply (selectKey_meant _ alg want (suits alg m)).
Qed.

Lemma signed_alg token keys p h s header alg :
  split_on "." token = [h; p; s] -> decodeSegment h = Some header -> field "alg" header = Some (JString alg) ->
  signed_token token keys p -> is_Some (ALGORITHMS alg).
Proof.
  intros Es Eh Ea [(h' & s' & hd & alg' & o & m & k & E1 & E2 & E3 & E4 & _)].
  rewrite Es in E1. simplify_eq.
  assert (H := scheme_of alg). destruct (ALGORITHMS alg); [by eexists|]. by apply H in E4.
Qed.

Lemma verified_attests token keys expect now cl :
  verifyIdToken token keys expect now = Verified cl <-> attests token keys expect now cl.
Proof.
  unfold verifyIdToken, peekHeader, DEFAULT_SKEW_S.
  destruct (split_on "." token) as [|h [|p [|s [|? ?]]]] eqn:Es;
    try (split; [done | intros (? & ? & [(? & ? & ? & ? & ? & ? & ? & E & _)] & _); congruence]).
  split.
  - destruct (decodeSegment h) as [header|] eqn:Eh; simpl; [|done].
    destruct (text_of (field "alg" header)) as [alg|] eqn:Ea; simpl; [|done]. intros H. apply text_of_Some in Ea.
    repeat (match type of H with match ?x with _ => _ end = _ => destruct x eqn:? end; try discriminate H).
    repeat match goal with E : negb _ = false |- _ => apply negb_false_iff in E end.
    repeat match goal with
    | E : number_of _ = Some _ |- _ => apply number_of_Some in E
    | E : is_text _ _ = true |- _ => apply is_text_true in E
    | E : existsb _ _ = true |- _ => apply existsb_audience in E
    | E : (1 <? _)%nat && _ = false |- _ => have_iff (party_iff _ _ _) E
    | E : match field "nbf" _ with _ => _ end = false |- _ => have_iff (begun_iff _ _ _) E
    | E : match expected_nonce _ with _ => _ end = false |- _ => have_iff (nonce_iff _ _) E
    | E : negb (is_true _) && _ = false |- _ => have_iff (inbox_iff _ _) E
    end.
    exists p. eexists. split_and!; [|eassumption| |].
    + eapply signed_iff; eauto.
    + split; eauto.
      * match goal with E : exists a, a ∈ audience_of _ /\ _ |- _ => destruct E as (a & [i Hi]%audience_places & ?) end. eauto.
      * rewrite <- several_audiences. auto.
      * eapply age_iff; eauto.
    + injection H as <-. by eapply claims_are_iff.
  - intros (p' & c & Hsig & Ec & Hc & Hcl). assert (Hsig' := Hsig).
    destruct Hsig' as [(h' & s' & header & alg & ? & ? & ? & Es' & Eh & Ea & _)].
    rewrite Es in Es'. simplify_eq. destruct (signed_alg _ _ _ _ _ _ _ Es Eh Ea Hsig) as [want Ew].
    apply (signed_iff _ _ _ _ _ _ _ _ Es Eh Ea Ew) in Hsig as (jwk & Ek & Ev).
    simpl in Ev. rewrite Eh. simpl. rewrite Ea. simpl. rewrite Ew, Ek, Ev, Ec. simpl.
    destruct Hc as [Hi (ia & a & Ha & Ha') Hz (e & He & He') (i & Hi1 & Hi2) Hg Hb Hn Hv].
    apply is_text_true in Hi as ->. rewrite (proj2 (existsb_audience _ _)) by (exists a; split; [apply audience_places; eauto|done]).
    rewrite <- several_audiences in Hz. apply party_iff in Hz as ->.
    simpl. rewrite He, Hi1. simpl. rewrite He', Hi2. simpl.
    apply begun_iff in Hb as ->. apply (age_iff _ _ _ _ _ _ Hi1) in Hg as ->. apply nonce_iff in Hn as ->.
    destruct (ca_sub _ _ _ Hcl) as (rs & Hs), (ca_email _ _ _ Hcl) as (em & Hm & _).
    assert (Hs' : str (field "sub" c) = Some (cl_sub cl)) by (apply says_str; by exists rs).
    apply says_str in Hm. rewrite Hs', Hm. apply inbox_iff in Hv as ->. f_equal. by apply claims_are_iff.
Qed.

(** C35: The check of an ID token accepts exactly the tokens that are signed, by one
    of the four asymmetric algorithms as each of them signs, with a key of the
    published set that suits it, the first under the key id of the header or, without
    one, the only one, and whose claims hold: the issuer, an audience and, among
    several, the authorized party, the expiry, the times of issue, of validity and of
    the sign-in within the skew (a minute unless the caller says), the nonce, a
    subject and an email, confirmed unless the caller proves the inbox itself. What
    it answers then are those claims. *)
Theorem id_token_exact token keys expect now cl :
  verifyIdToken token keys expect now = Verified cl <->
  exists p c, signed_token token keys p /\ decodeSegment p = Some c
    /\ claims_hold p c expect now /\ claims_are c expect cl.
Proof. apply verified_attests. Qed.
End exact.
