(* ===== verification/OidcSafety.v ===== *)
(** What the service of ID tokens answers rests on, in any world that carries its
    caches: the keys an accepted token verifies under were read from the key set the
    issuer's own document names. The users of the service instantiate it with the
    invariant of their world. *)

From S2P Require Import Prelude Text MerchantFee Programs Tokens Oidc.
From stdpp Require Import base tactics list option gmap strings.
From Stdlib Require Import ZArith Lia Ascii.

Open Scope Z_scope.

Section provenance.
Context `{NODE : Node} `{VERIFY : NodeVerify}.

(** What was ever answered to a request for a document. *)
Context (answered : string -> HttpAnswer -> Prop).

Definition described (iss : string) (d : OidcDiscovery) : Prop :=
  exists a doc, answered (discoveryUrl iss) a /\ json_answer a = Ok doc /\ parseDiscovery doc iss = Some d.
Definition served (uri : string) (ks : list Jwk) : Prop :=
  exists a doc, answered uri a /\ json_answer a = Ok doc /\ ks = parseJwks doc.
(** The keys of an issuer. *)
Definition published (iss : string) (ks : list Jwk) : Prop := exists d, described iss d /\ served (jwksUri d) ks.

Record caches_ok (c : OidcCaches) : Prop := {
  ck_discoveries : map_Forall (fun iss x => described iss (cached x)) (discoveries c);
  ck_keySets : map_Forall (fun uri x => served uri (cached x)) (keySets c)
}.

Lemma empty_caches_ok : caches_ok (mkCaches ∅ ∅).
Proof. by split. Qed.

(** A token that was accepted attests its claims under the issuer's keys at the
    moment it was checked. *)
Definition checked (noted : string -> Z -> Prop) (token : string) (expect : IdTokenExpectations) (r : IdTokenResult) : Prop :=
  forall cl, r = Verified cl ->
    exists ks now, noted token now /\ published (issuer expect) ks /\ attests token ks expect now cl.

Section world.
Context {W : Type} `{OW : OidcWorld W} (Inv : W -> Prop) (R : W -> W -> Prop) `{!PreOrder R}.

(** The invariant of the world covers its caches, and lets them grow. *)
Context (noted : W -> string -> Z -> Prop)
  (note_ok : forall w t now, Inv w ->
     Inv (note_checked t now w) /\ R w (note_checked t now w) /\ noted (note_checked t now w) t now).
Context (inv_caches : forall w, Inv w -> caches_ok (caches w))
  (inv_answered : forall w url, Inv w -> answered url (oidc_get w url))
  (set_caches_ok : forall w c, caches_ok c -> Inv w -> Inv (set_caches c w) /\ R w (set_caches c w)).

#[local] Abbreviation yields := (ensures Inv R).

Lemma fresh_Some {A} ttl now (o : option (Cached A)) a :
  Oidc.fresh ttl now o = Some a -> exists c, o = Some c /\ cached c = a.
Proof. destruct o as [c|]; simpl; [|done]. destruct (_ <? _); [|done]. intros [= <-]. eauto. Qed.

Lemma discover_yields iss s0 : yields (discover iss) (fun d _ => described iss d) s0.
Proof.
  unfold discover. apply (ensures_asking_bind Inv R). intros s _ V. cbv beta.
  destruct (Oidc.fresh _ _ _) as [d|] eqn:Ef.
  { apply fresh_Some in Ef as (c & Hc & <-). by apply (ck_discoveries _ (inv_caches _ V)) in Hc. }
  apply (wp_stmt Inv R). intros t _ V'. assert (Ha := inv_answered t (discoveryUrl iss) V').
  destruct (json_answer _) as [doc|] eqn:Ej; simpl; [|by split_and!].
  destruct (parseDiscovery doc iss) as [d|] eqn:Ed; simpl; [|by split_and!].
  assert (Hd : described iss d) by by eexists _, doc.
  destruct (set_caches_ok t (mkCaches (<[iss:=mkCached d (oidc_clock t)]> (discoveries (caches t))) (keySets (caches t))))
    as [Vc Rc]; [|done|by split_and!].
  destruct (inv_caches _ V'). split; [|done]. by apply map_Forall_insert_2.
Qed.

Lemma keys_of_yields d force s0 : yields (keys_of d force) (fun ks _ => served (jwksUri d) ks) s0.
Proof.
  unfold keys_of. apply (ensures_asking_bind Inv R). intros s _ V. cbv beta.
  destruct (if force then None else _) as [ks|] eqn:Ef.
  { destruct force; [done|]. apply fresh_Some in Ef as (c & Hc & <-). by apply (ck_keySets _ (inv_caches _ V)) in Hc. }
  apply (wp_stmt Inv R). intros t _ V'. assert (Ha := inv_answered t (jwksUri d) V').
  destruct (json_answer _) as [doc|] eqn:Ej; simpl; [|by split_and!].
  assert (Hd : served (jwksUri d) (parseJwks doc)) by by eexists _, doc.
  destruct (set_caches_ok t (mkCaches (discoveries (caches t)) (<[jwksUri d:=mkCached (parseJwks doc) (oidc_clock t)]> (keySets (caches t)))))
    as [Vc Rc]; [|done|by split_and!].
  destruct (inv_caches _ V'). split; [done|]. by apply map_Forall_insert_2.
Qed.

Lemma check_token_yields token ks expect s0 : published (issuer expect) ks ->
  yields (check_token token ks expect) (fun r w => checked (noted w) token expect r) s0.
Proof.
  intros Hp. apply (wp_stmt Inv R). intros w _ V. cbv zeta. cbn [fst snd].
  destruct (verifyIdToken token ks expect (now_seconds w)) as [cl|e] eqn:Ev; [|by split_and!].
  destruct (note_ok w token (now_seconds w) V) as (V' & Rw & Hn). split_and!; [done|done|].
  intros cl' [= <-]. exists ks, (now_seconds w). split_and!; [done|done|by apply verified_attests].
Qed.

(** What a token that is accepted attests. *)
Lemma oidc_verify_yields token expect s0 :
  yields (oidc_verify token expect) (fun r w => checked (noted w) token expect r) s0.
Proof.
  unfold oidc_verify. eapply (ensures_bind Inv R); [apply discover_yields|]. intros d s1 _ Hd.
  eapply (ensures_bind Inv R); [apply keys_of_yields|]. intros ks s2 _ Hk.
  eapply (ensures_bind Inv R); [by apply check_token_yields; exists d|]. intros result s3 _ Hr.
  destruct result as [cl|e]; [done|]. destruct e; try done.
  apply (ensures_asking_bind Inv R). intros s4 _ _. cbv beta.
  destruct (h ← peekHeader token; snd h) as [kid|]; [|done].
  destruct (_ && _ && _); [|done].
  eapply (ensures_bind Inv R); [apply keys_of_yields|]. intros ks' s5 _ Hk'. by apply check_token_yields; exists d.
Qed.
End world.
End provenance.
