(* ===== verification/NodeSample.v ===== *)
(** A runtime for examples: the class [Node] of Tokens with every law it states,
    built from length-free encodings instead of cryptography. *)

From S2P Require Import Prelude Text MerchantFee Tokens Signatures.
From stdpp Require Import base tactics list option strings.
From Stdlib Require Import ZArith Lia Ascii.

Open Scope Z_scope.

(** ** Hexadecimal *)

Lemma hex_pair a : ascii_of_nat (Z.to_nat (hex_val (lower_hex (code a / 16)) * 16 + hex_val (lower_hex (code a mod 16)))) = a.
Proof. by destruct a as [[] [] [] [] [] [] [] []]. Qed.

Lemma hex_pair_chars a : is_hex (lower_hex (code a / 16)) = true /\ is_hex (lower_hex (code a mod 16)) = true.
Proof. by destruct a as [[] [] [] [] [] [] [] []]. Qed.

Lemma hex_back s : from_hex (to_hex s) = s.
Proof.
  induction s as [|a s IH]; [done|]. cbn [to_hex from_hex]. by rewrite hex_pair, IH.
Qed.

Lemma hex_chars s : all_chars is_hex (to_hex s) = true.
Proof.
  induction s as [|a s IH]; [done|]. cbn [to_hex all_chars]. destruct (hex_pair_chars a) as [-> ->]. by rewrite IH.
Qed.

Lemma hex_b64url s : all_chars is_b64url (to_hex s) = true.
Proof.
  eapply all_chars_weaken; [|apply hex_chars]. intros a. unfold is_hex, is_b64url.
  rewrite !orb_true_iff, !andb_true_iff, !Z.leb_le. intros [[?|?]|?]; [by repeat left| |].
  - left; left; right. lia.
  - left; left; left; right. lia.
Qed.

(** ** Self-delimiting texts *)

Fixpoint ser (s : string) : string :=
  match s with
  | "" => "."
  | String a r => String "x" (String a (ser r))
  end%string.

Fixpoint unser (s : string) : option (string * string) :=
  match s with
  | String "." r => Some (""%string, r)
  | String "x" (String a r) => '(t, q) ← unser r; Some (String a t, q)
  | _ => None
  end%string.

Lemma unser_ser s r : unser (ser s +:+ r) = Some (s, r).
Proof. induction s as [|a s IH]; [done|]. simpl. by rewrite IH. Qed.

Lemma ser_inj s t r q : (ser s +:+ r = ser t +:+ q)%string -> s = t /\ r = q.
Proof. intros E. assert (H := unser_ser s r). rewrite E, unser_ser in H. by simplify_eq. Qed.

(** ** JSON *)

Definition number_ser (z : Z) : string :=
  if 0 <=? z then (String "i" (ser (nat_toString z)))%string else String "m" (ser (nat_toString (- z))).

Fixpoint value_ser (v : json) : string :=
  match v with
  | JNull => "n"
  | JBool true => "t"
  | JBool false => "f"
  | JNumber (NumInt z) => number_ser z
  | JNumber NumOther => "o"
  | JString s => String "s" (ser s)
  | JArray l => "[" +:+ foldr (fun x r => value_ser x +:+ r) "]" l
  | JObject f => "{" +:+ foldr (fun kv r => ser (fst kv) +:+ value_ser (snd kv) +:+ r) "}" f
  end%string.

Fixpoint value_parse (fuel : nat) (s : string) : option (json * string) :=
  match fuel with
  | O => None
  | S fuel =>
      match s with
      | String "n" r => Some (JNull, r)
      | String "t" r => Some (JBool true, r)
      | String "f" r => Some (JBool false, r)
      | String "o" r => Some (JNumber NumOther, r)
      | String "i" r => '(t, q) ← unser r; Some (JNumber (NumInt (BigInt t)), q)
      | String "m" r => '(t, q) ← unser r; Some (JNumber (NumInt (- BigInt t)), q)
      | String "s" r => '(t, q) ← unser r; Some (JString t, q)
      | String "[" r => '(l, q) ← items fuel r; Some (JArray l, q)
      | String "{" r => '(l, q) ← members fuel r; Some (JObject l, q)
      | _ => None
      end
  end%string
with items (fuel : nat) (s : string) : option (list json * string) :=
  match fuel with
  | O => None
  | S fuel =>
      match s with
      | String "]" r => Some ([], r)
      | _ => '(v, q) ← value_parse fuel s; '(l, t) ← items fuel q; Some (v :: l, t)
      end
  end%string
with members (fuel : nat) (s : string) : option (list (string * json) * string) :=
  match fuel with
  | O => None
  | S fuel =>
      match s with
      | String "}" r => Some ([], r)
      | _ => '(k, p) ← unser s; '(v, q) ← value_parse fuel p; '(l, t) ← members fuel q; Some ((k, v) :: l, t)
      end
  end%string.

Definition parse_text (s : string) : option json :=
  match value_parse (S (String.length s)) s with Some (v, ""%string) => Some v | _ => None end.

Lemma value_flat v r fuel : flat v = true -> value_parse (S fuel) (value_ser v +:+ r) = Some (v, r).
Proof.
  destruct v as [|[]|[z|]|s| |]; try done; intros Hz; simpl in Hz; unfold value_ser, number_ser.
  - destruct (0 <=? z) eqn:E; simpl; rewrite unser_ser; simpl; bool_facts.
    + by rewrite nat_toString_value.
    + rewrite nat_toString_value by lia. do 3 f_equal. f_equal. lia.
  - simpl. by rewrite unser_ser.
Qed.

Lemma members_flat f fuel :
  Forall (fun kv => flat (snd kv) = true) f -> (length f < fuel)%nat ->
  members (S fuel) (foldr (fun kv r => ser (fst kv) +:+ value_ser (snd kv) +:+ r) "}" f)%string = Some (f, ""%string).
Proof.
  intros H. revert fuel. induction H as [|[k v] f Hv Hf IH]; intros fuel Hl; [done|].
  destruct fuel as [|fuel]; [simpl in Hl; lia|]. simpl in Hl.
  assert (E : forall s n, members (S n) (ser k +:+ s)
    = '(k, p) ← unser (ser k +:+ s); '(v, q) ← value_parse n p; '(l, t) ← members n q; Some ((k, v) :: l, t)).
  { intros s n. by destruct k. }
  cbn [foldr fst snd]. rewrite E, unser_ser. cbn [mbind option_bind].
  rewrite value_flat by done. cbn [mbind option_bind]. rewrite IH by lia. done.
Qed.

Lemma ser_length s r : (0 < String.length (ser s +:+ r))%nat.
Proof. destruct s; simpl; lia. Qed.

Lemma object_length f :
  (length f < String.length (foldr (fun kv r => ser (fst kv) +:+ value_ser (snd kv) +:+ r) "}" f)%string)%nat.
Proof.
  induction f as [|[k v] f IH]; [simpl; lia|]. simpl foldr. rewrite !str_app_length.
  assert (H := ser_length k ""). rewrite str_app_nil_r in H. simpl length. lia.
Qed.

Lemma parse_back fields : payload fields -> parse_text (value_ser (JObject fields)) = Some (JObject fields).
Proof.
  intros [_ _ Hf]. unfold parse_text. cbn [value_ser String.append].
  set (t := foldr _ _ _). assert (H := object_length fields). fold t in H.
  cbn [String.length]. destruct (String.length t) as [|n] eqn:E; [lia|].
  change (value_parse (S (S (S n))) (String "{" t)) with ('(l, q) ← members (S (S n)) t; Some (JObject l, q)).
  unfold t. rewrite members_flat by (done || lia). done.
Qed.

(** ** The instance *)

Fixpoint strip_prefix (p s : string) : option string :=
  match p, s with
  | "", _ => Some s
  | String a p, String b s => if Ascii.eqb a b then strip_prefix p s else None
  | _, _ => None
  end%string.

Lemma strip_prefix_Some p s r : strip_prefix p s = Some r <-> s = (p +:+ r)%string.
Proof.
  revert s. induction p as [|a p IH]; intros s; simpl; [split; congruence|].
  destruct s as [|b s]; [done|]. destruct (Ascii.eqb a b) eqn:E.
  - apply Ascii.eqb_eq in E as ->. rewrite IH. split; [by intros -> | by intros [= ->]].
  - split; [done|]. intros [= -> ->]. by rewrite Ascii.eqb_refl in E.
Qed.

Definition sample_url (s : string) : option Url :=
  match strip_prefix "https://" s with
  | Some h => Some (mkUrl "https:" "" "" h "" "/" "" "" s)
  | None => None
  end%string.

#[local] Instance sample_node : Node := {
  sha256Hex s := String "0" (to_hex s);
  sha256_base64url := to_hex;
  hkdf secret _ purpose := (ser secret +:+ ser purpose)%string;
  aes_gcm key _ aad plain := ((ser key +:+ ser aad +:+ plain)%string, zeros 16);
  aes_gcm_open key _ aad body _ := strip_prefix (ser key +:+ ser aad)%string body;
  base64url := to_hex;
  from_base64url := from_hex;
  JSON_parse := parse_text;
  JSON_stringify := value_ser;
  fraction_le _ _ _ := false;
  fraction_text _ _ := ""%string;
  new_URL := sample_url;
  Date_parse _ := Some 0
}.

#[local] Instance sample_laws : NodeLaws.
Proof.
  split; simpl.
  - intros. apply strip_prefix_Some. by rewrite <- str_app_assoc.
  - intros k iv aad p k' iv' aad' p' H. apply strip_prefix_Some in H.
    rewrite <- str_app_assoc in H. apply ser_inj in H as [-> H]. by apply ser_inj in H as [-> ->].
  - done.
  - intros k ? ? ? ? E. by destruct k.
  - intros s p s' p' _ E. apply ser_inj in E as [-> E].
    rewrite <- (str_app_nil_r (ser p)), <- (str_app_nil_r (ser p')) in E. by apply ser_inj in E as [-> _].
  - apply hex_back.
  - apply hex_b64url.
  - intros s E. by destruct s.
  - apply parse_back.
  - done.
  - intros s. apply hex_chars.
  - done.
Qed.
