(* ===== verification/WalletCore.v ===== *)
(** The rules of the wallet's sign-in, without storage or network:
    src/src/wallet-auth/wallet-auth-core.ts and wallet-auth.constants.ts, the return
    URLs of src/src/common/return-url.ts, the sources of
    src/src/wallet-auth/oidc-sources.ts and the recovery setup of
    src/src/wallet-auth/recovery-setup.ts. *)

From S2P Require Import Prelude Text MerchantFee Intents Links Tokens Signatures Oidc NodeSample.
From stdpp Require Import base tactics list option strings.
From Stdlib Require Import ZArith Lia Ascii.

Open Scope Z_scope.

(** ** Constants *)

Definition HANDSHAKE_TTL_MS : Z := 10 * 60 * 1000.
Definition OIDC_MAX_AGE_S : Z := 5 * 60.
Definition AUTHENTIK_MFA_SETTINGS_PATH : string :=
  ("/if/user/#/settings;{" +:+ String (ascii_of_nat 34) ("page" +:+ String (ascii_of_nat 34)
   (":" +:+ String (ascii_of_nat 34) ("page-credentials" +:+ String (ascii_of_nat 34) "}"))))%string.
Definition AUTHENTIK_SOURCE_FLOW_PREFIX : string := "wallet-source-".
Definition AUTHENTIK_SOURCE_LABEL_MAX : nat := 40.
Definition AUTHENTIK_INBOX_PROVEN_CLAIM : string := "cosmos_inbox_proven".
Definition LOGIN_CODE_TTL_MS : Z := 15 * 60 * 1000.
Definition LOGIN_CODE_MAX_ATTEMPTS : Z := 5.
Definition LOGIN_CODE_RESEND_MS : Z := 60 * 1000.
Definition LOGIN_CODE_DAILY_CAP : nat := 10.
Definition SESSION_TTL_MS : Z := 30 * 60 * 1000.
Definition SIGNED_AT_SKEW_MS : Z := 10 * 60 * 1000.
Definition WALLET_AUTH_SWEEP_GRACE_MS : Z := 24 * 60 * 60 * 1000.
Definition BACKUP_BOX_MAX_CHARS : Z := 8192.
Definition BACKUP_MIN_ITERATIONS : Z := 600000.
Definition BACKUP_MAX_ITERATIONS : Z := 4000000.
Definition BACKUP_ARGON2_MIN_MEMORY_KIB : Z := 19456.
Definition BACKUP_ARGON2_MAX_MEMORY_KIB : Z := 262144.
Definition BACKUP_ARGON2_MIN_PASSES : Z := 2.
Definition BACKUP_ARGON2_MAX_PASSES : Z := 10.
Definition BACKUP_ARGON2_MAX_PARALLELISM : Z := 4.
Definition BACKUP_MAX_SLOTS : nat := 8.
Definition BACKUP_WRAPPED_KEY_BYTES : Z := 48.
Definition BACKUP_PASSKEY_ID_MAX_CHARS : Z := 1364.
Definition WALLET_AUTH_SWEEP_BATCH_SIZE : nat := 500.
Definition RECOVERY_DEVICE_WEIGHT : Z := 10.
Definition RECOVERY_SERVER_WEIGHT : Z := 5.
Definition RECOVERY_SETUP_TIMEOUT_S : Z := 300.
Definition WALLET_MAX_BACKUPS : nat := 20.

(** ** Providers *)

Inductive WalletAuthProvider := GOOGLE | GITHUB | AUTHENTIK.
#[export] Instance WalletAuthProvider_eq_dec : EqDecision WalletAuthProvider.
Proof. solve_decision. Defined.

Inductive WalletAuthMethod := M_GOOGLE | M_GITHUB | M_AUTHENTIK | M_EMAIL.
#[export] Instance WalletAuthMethod_eq_dec : EqDecision WalletAuthMethod.
Proof. solve_decision. Defined.

Definition PROVIDER_WIRE (p : WalletAuthProvider) : string :=
  match p with GOOGLE => "google" | GITHUB => "github" | AUTHENTIK => "authentik" end.

Definition WIRE_TO_PROVIDER (s : string) : option WalletAuthProvider :=
  if bool_decide (s = "google") then Some GOOGLE
  else if bool_decide (s = "github") then Some GITHUB
  else if bool_decide (s = "authentik") then Some AUTHENTIK
  else None.

Definition providerFromWire (value : string) : option WalletAuthProvider := WIRE_TO_PROVIDER (toLowerCase value).

Definition methodOfProvider (p : WalletAuthProvider) : WalletAuthMethod :=
  match p with GOOGLE => M_GOOGLE | GITHUB => M_GITHUB | AUTHENTIK => M_AUTHENTIK end.

Definition method_text (m : WalletAuthMethod) : string :=
  match m with M_GOOGLE => "GOOGLE" | M_GITHUB => "GITHUB" | M_AUTHENTIK => "AUTHENTIK" | M_EMAIL => "EMAIL" end.

Definition isOidcProvider (p : WalletAuthProvider) : bool := bool_decide (p = AUTHENTIK).

Record ProviderEndpoints := mkEndpoints {
  ep_authorize : string;
  ep_token : string;
  ep_scope : string;
  ep_profile : string;
  ep_emails : option string
}.

Definition GOOGLE_ENDPOINTS : ProviderEndpoints :=
  mkEndpoints "https://accounts.google.com/o/oauth2/v2/auth" "https://oauth2.googleapis.com/token"
    "openid email profile" "https://openidconnect.googleapis.com/v1/userinfo" None.
Definition GITHUB_ENDPOINTS : ProviderEndpoints :=
  mkEndpoints "https://github.com/login/oauth/authorize" "https://github.com/login/oauth/access_token"
    "read:user user:email" "https://api.github.com/user" (Some "https://api.github.com/user/emails"%string).

Definition PROVIDER_ENDPOINTS (p : WalletAuthProvider) : option ProviderEndpoints :=
  match p with GOOGLE => Some GOOGLE_ENDPOINTS | GITHUB => Some GITHUB_ENDPOINTS | AUTHENTIK => None end.

Definition callbackUrl (baseUrl : string) (p : WalletAuthProvider) : string :=
  strip_slashes baseUrl +:+ "/v1/wallet/auth/oauth/callback/" +:+ PROVIDER_WIRE p.

Definition OIDC_SCOPE : string := "openid email profile".

(** [encodeURIComponent] of a text's UTF-8 bytes. *)
Definition component_plain (a : ascii) : bool :=
  form_plain a || Ascii.eqb a "!" || Ascii.eqb a "~" || Ascii.eqb a "'" || Ascii.eqb a "(" || Ascii.eqb a ")".
Fixpoint encodeURIComponent (s : string) : string :=
  match s with
  | "" => ""
  | String a s =>
      (if component_plain a then String a ""
       else String "%" (String (hex_digit (code a / 16)) (String (hex_digit (code a mod 16)) "")))
      +:+ encodeURIComponent s
  end%string.

Record OidcAuthorization := mkOidcAuthorization {
  oa_endpoint : string;
  oa_codeChallenge : string;
  oa_nonce : string
}.

(** Throws for an OIDC provider without its discovery endpoints. *)
Definition authorizationUrl (p : WalletAuthProvider) (clientId redirectUri state : string)
    (oidc : option OidcAuthorization) : res string :=
  match PROVIDER_ENDPOINTS p with
  | None =>
      o ← res_of_option JsError oidc;
      Ok (oa_endpoint o +:+ "?" +:+ params_toString
        [("client_id", clientId); ("redirect_uri", redirectUri); ("response_type", "code");
         ("scope", OIDC_SCOPE); ("state", state); ("nonce", oa_nonce o);
         ("code_challenge", oa_codeChallenge o); ("code_challenge_method", "S256");
         ("max_age", toString OIDC_MAX_AGE_S)])%string
  | Some ep =>
      let q := [("client_id", clientId); ("redirect_uri", redirectUri); ("response_type", "code");
                ("scope", ep_scope ep); ("state", state)]%string in
      let q := if bool_decide (p = GOOGLE) then params_set "prompt" "select_account" q else q in
      let q := if bool_decide (p = GITHUB) then params_set "allow_signup" "true" q else q in
      Ok (ep_authorize ep +:+ "?" +:+ params_toString q)%string
  end.

(** ** Identities *)

Record ProviderIdentity := mkProviderIdentity {
  pi_email : string;
  pi_name : option string;
  pi_avatar : option string;
  pi_subject : string
}.

Inductive IdentityFailure := email_unverified_failure | profile_invalid.

Definition failure_text (f : IdentityFailure) : string :=
  match f with email_unverified_failure => "email_unverified" | profile_invalid => "profile_invalid" end.

Record WalletAuthIdentity := mkIdentity {
  id_email : string;
  id_name : option string;
  id_avatar : option string;
  id_method : WalletAuthMethod
}.

Definition normalizeEmail (email : string) : string := toLowerCase (trim email).

(** [name?.trim() || email.split('@')[0] || 'Cosmos user'] *)
Definition fallbackName (email : string) (name : option string) : string :=
  let trimmed := default "" (trim <$> name) in
  if negb (bool_decide (trimmed = "")) then trimmed
  else let local := nth_text 0 (split_on "@" email) in
       if negb (bool_decide (local = "")) then local else "Cosmos user".

Section core.
Context `{NODE : Node}.

Definition mfaSettingsUrl (iss path : string) : option string :=
  url ← new_URL iss;
  if bool_decide (origin url = "null") then None else Some (origin url +:+ path).

Definition sourceFlowUrl (iss source authorization : string) : option string :=
  url ← new_URL iss;
  target ← new_URL authorization;
  if bool_decide (origin url = "null") || negb (bool_decide (origin target = origin url)) then None
  else Some (origin url +:+ "/if/flow/" +:+ AUTHENTIK_SOURCE_FLOW_PREFIX +:+ source +:+ "/?next="
             +:+ encodeURIComponent (pathname target +:+ search target)).

(** The claim, in a token this service verified. *)
Definition authentikProvedInbox (verifiedIdToken : option string) : bool :=
  match verifiedIdToken with
  | None => false
  | Some token =>
      let seg := nth_text 1 (split_on "." token) in
      if bool_decide (seg = "") then false
      else match JSON_parse (from_base64url seg) with
           | Some claims => is_true (field AUTHENTIK_INBOX_PROVEN_CLAIM (fields_of claims))
           | None => false
           end
  end.

Definition bindingMatches (presented storedHash : option string) : bool :=
  match presented, storedHash with
  | Some p, Some h =>
      if bool_decide (p = "") || bool_decide (h = "") then false else bool_decide (sha256Hex p = h)
  | _, _ => false
  end.

(** [randomInt(0, 1_000_000).toString().padStart(6, '0')], for what was drawn. *)
Definition sixDigitCode (drawn : Z) : string := padStart 6 (toString drawn).

Definition pkceMatches (verifier challenge : string) : bool := bool_decide (sha256_base64url verifier = challenge).

Definition googleIdentity (userinfo : json) : ProviderIdentity + IdentityFailure :=
  let u := fields_of userinfo in
  match str (field "email" u), str (field "sub" u) with
  | Some email, Some subject =>
      if negb (is_true (field "email_verified" u)) then inr email_unverified_failure
      else inl (mkProviderIdentity (toLowerCase email) (str (field "name" u)) (httpsUrl (field "picture" u)) subject)
  | _, _ => inr profile_invalid
  end.

(** [typeof id === 'number' || typeof id === 'string' ? String(id) : null], empty
    being refused; [text] is the answer the id stands in. *)
Definition id_text (text : string) (v : option json) : option string :=
  match v with
  | Some (JNumber (NumInt z)) => Some (toString z)
  | Some (JNumber NumOther) => Some (fraction_text text "id")
  | Some (JString s) => if bool_decide (s = "") then None else Some s
  | _ => None
  end.

Definition githubIdentity (user_text : string) (user emails : json) : ProviderIdentity + IdentityFailure :=
  let u := fields_of user in
  match id_text user_text (field "id" u) with
  | None => inr profile_invalid
  | Some subject =>
      let list := match emails with JArray l => l | _ => [] end in
      let verified := List.filter (fun e => is_true (field "verified" (fields_of e))
                                            && bool_decide (is_Some (str (field "email" (fields_of e))))) list in
      let chosen := match List.find (fun e => is_true (field "primary" (fields_of e))) verified with
                    | Some e => Some e
                    | None => head verified
                    end in
      match chosen with
      | None => inr email_unverified_failure
      | Some e =>
          inl (mkProviderIdentity (toLowerCase (default "" (str (field "email" (fields_of e)))))
                 (match str (field "name" u) with Some n => Some n | None => str (field "login" u) end)
                 (httpsUrl (field "avatar_url" u)) subject)
      end
  end.
End core.

(** ** Session tokens *)

Definition SESSION_PURPOSE : string := "wallet-auth-session".

Definition method_of_text (s : string) : option WalletAuthMethod :=
  if bool_decide (s = "GOOGLE") then Some M_GOOGLE
  else if bool_decide (s = "GITHUB") then Some M_GITHUB
  else if bool_decide (s = "AUTHENTIK") then Some M_AUTHENTIK
  else if bool_decide (s = "EMAIL") then Some M_EMAIL
  else None.

Definition json_of_text (o : option string) : json := match o with Some s => JString s | None => JNull end.

Definition session_payload (identity : WalletAuthIdentity) (exp : Z) : list (string * json) :=
  [("v", JNumber (NumInt 1)); ("email", JString (id_email identity)); ("name", json_of_text (id_name identity));
   ("avatar", json_of_text (id_avatar identity)); ("method", JString (method_text (id_method identity)));
   ("exp", JNumber (NumInt exp))]%string.

Section sessions.
Context `{NODE : Node}.

Definition issueSessionToken (iv : string) (identity : WalletAuthIdentity) (secret : string) (now : Z) : res string :=
  sealJson iv (JObject (session_payload identity (now + SESSION_TTL_MS))) secret SESSION_PURPOSE.

(** Only this service seals a box for this purpose, so its members have the types
    [session_payload] gives them. *)
Definition readSessionToken (token secret : string) (now : Z) : option WalletAuthIdentity :=
  p ← openJson token secret SESSION_PURPOSE;
  let p := fields_of p in
  match field "v" p, field "exp" p with
  | Some (JNumber v), Some (JNumber exp) =>
      if negb (num_strict_eq v (NumInt 1)) || num_lt token "exp" exp now then None
      else
        match field "email" p with
        | Some (JString email) =>
            if bool_decide (email = ""%string) then None
            else m ← text_of (field "method" p); m ← method_of_text m;
                 Some (mkIdentity email (text_of (field "name" p)) (text_of (field "avatar" p)) m)
        | _ => None
        end
  | _, _ => None
  end.

(** ** Challenges *)

Definition newline : string := String (ascii_of_nat 10) "".

Definition chainLine (chain : Chain) : string :=
  match chain with stellar => "" | _ => "chain: " +:+ chain_name chain +:+ newline end%string.

Definition finishMessage (email address signedAt : string) (chain : Chain) : string :=
  "Cosmos Pay Wallet sign-in" +:+ newline +:+ chainLine chain
  +:+ "email: " +:+ normalizeEmail email +:+ newline
  +:+ "account: " +:+ address +:+ newline
  +:+ "at: " +:+ signedAt.

Definition backupMessage (address box signedAt : string) (chain : Chain) : string :=
  "Cosmos Pay Wallet backup" +:+ newline +:+ chainLine chain
  +:+ "account: " +:+ address +:+ newline
  +:+ "box: " +:+ sha256Hex box +:+ newline
  +:+ "at: " +:+ signedAt.

Definition recoverySetupMessage (stellarAddress a b signedAt : string) : string :=
  "Cosmos Pay Wallet recovery setup" +:+ newline
  +:+ "account: " +:+ stellarAddress +:+ newline
  +:+ "signers: " +:+ a +:+ "," +:+ b +:+ newline
  +:+ "at: " +:+ signedAt.

(** [/^\d{4}-\d{2}-\d{2}T\d{2}:\d{2}:\d{2}(\.\d{1,3})?Z$/] *)
Fixpoint digits_then (n : nat) (k : string -> bool) (s : string) : bool :=
  match n, s with
  | O, _ => k s
  | S n, String a r => is_digit a && digits_then n k r
  | S _, EmptyString => false
  end.
Definition char_then (c : ascii) (k : string -> bool) (s : string) : bool :=
  match s with String a r => Ascii.eqb a c && k r | EmptyString => false end.
Definition iso_end (s : string) : bool := bool_decide (s = "Z"%string).
Definition iso_shape : string -> bool :=
  digits_then 4 (char_then "-" (digits_then 2 (char_then "-" (digits_then 2 (char_then "T"
   (digits_then 2 (char_then ":" (digits_then 2 (char_then ":" (digits_then 2 (fun s =>
     iso_end s
     || char_then "." (fun f => digits_then 1 iso_end f || digits_then 2 iso_end f || digits_then 3 iso_end f) s)))))))))))%char.

Definition signedAtFresh (signedAt : string) (now : Z) : bool :=
  if negb (iso_shape signedAt) then false
  else match Date_parse signedAt with Some t => Z.abs (now - t) <=? SIGNED_AT_SKEW_MS | None => false end.

(** ** Backup boxes *)

(** [/^[A-Za-z0-9+/]+={0,2}$/], and the bytes [Buffer.from(v, 'base64')] then has:
    six bits a character, whole bytes only. *)
Fixpoint b64_chars (s : string) : option Z :=
  match s with
  | "" | "=" | "==" => Some 0
  | String a r => if is_b64 a then n ← b64_chars r; Some (n + 1) else None
  end%string.

Definition b64Bytes (v : option json) : option Z :=
  match v with
  | Some (JString s) =>
      n ← b64_chars s;
      if n =? 0 then None else Some (n * 6 / 8)
  | _ => None
  end.

(** [Number.isInteger(v) && v >= min && v <= max] *)
Definition within (v : option json) (min max : Z) : bool :=
  match v with Some (JNumber (NumInt n)) => (min <=? n) && (n <=? max) | _ => false end.

Definition saltOk (salt : option json) : bool :=
  match b64Bytes salt with Some n => 16 <=? n | None => false end.

Definition passwordCostOk (salt iter : option json) : bool :=
  saltOk salt && within iter BACKUP_MIN_ITERATIONS BACKUP_MAX_ITERATIONS.

Definition argon2CostOk (salt m t p : option json) : bool :=
  saltOk salt
  && within m BACKUP_ARGON2_MIN_MEMORY_KIB BACKUP_ARGON2_MAX_MEMORY_KIB
  && within t BACKUP_ARGON2_MIN_PASSES BACKUP_ARGON2_MAX_PASSES
  && within p 1 BACKUP_ARGON2_MAX_PARALLELISM.

Definition opt_Z_eqb (o : option Z) (n : Z) : bool := match o with Some m => m =? n | None => false end.

(** A box of version 3 or 4. *)
Inductive SlotVersion := V3 | V4.

Definition isBackupSlot (slot : json) (version : SlotVersion) : bool :=
  match slot with
  | JObject s =>
      if negb (opt_Z_eqb (b64Bytes (field "iv" s)) 12) then false
      else if negb (opt_Z_eqb (b64Bytes (field "data" s)) BACKUP_WRAPPED_KEY_BYTES) then false
      else if is_text "password" (field "kind" s) then
        match version with
        | V4 => is_text "argon2id" (field "kdf" s)
                && argon2CostOk (field "salt" s) (field "m" s) (field "t" s) (field "p" s)
        | V3 => passwordCostOk (field "salt" s) (field "iter" s)
        end
      else if is_text "recovery" (field "kind" s) then
        match version with V4 => (length s =? 3)%nat | V3 => false end
      else if is_text "passkey" (field "kind" s) then
        match field "id" s with
        | Some (JString i) =>
            negb (bool_decide (i = ""%string))
            && (Z.of_nat (String.length i) <=? BACKUP_PASSKEY_ID_MAX_CHARS)
            && all_chars is_b64url i
        | _ => false
        end
      else false
  | _ => false
  end.

Definition is_recovery (slot : json) : bool := is_text "recovery" (field "kind" (fields_of slot)).

Definition recoveryDoorsOk (slots : list json) : bool :=
  let recovery := length (List.filter is_recovery slots) in
  (recovery <=? 1)%nat && (recovery <? length slots)%nat.

Definition is_number (v : option json) (n : Z) : bool :=
  match v with Some (JNumber x) => num_strict_eq x (NumInt n) | _ => false end.

Definition slotsOk (slots : option json) (version : SlotVersion) : bool :=
  match slots with
  | Some (JArray l) =>
      (0 <? length l)%nat && (length l <=? BACKUP_MAX_SLOTS)%nat
      && forallb (fun slot => isBackupSlot slot version) l && recoveryDoorsOk l
  | _ => false
  end.

Definition isBackupBox (box : string) : bool :=
  if bool_decide (box = ""%string) || (BACKUP_BOX_MAX_CHARS <? Z.of_nat (String.length box)) then false
  else
    match JSON_parse box with
    | Some (JObject b) =>
        if negb (opt_Z_eqb (b64Bytes (field "iv" b)) 12) then false
        else match b64Bytes (field "data" b) with
             | None => false
             | Some _ =>
                 if is_number (field "v" b) 2 then passwordCostOk (field "salt" b) (field "iter" b)
                 else if is_number (field "v" b) 3 then slotsOk (field "slots" b) V3
                 else if is_number (field "v" b) 4 then slotsOk (field "slots" b) V4
                 else false
             end
    | _ => false
    end.
End sessions.

(** ** Return URLs (return-url.ts) *)

Definition FORBIDDEN_RETURN_SCHEMES : list string :=
  ["javascript:"; "data:"; "file:"; "blob:"; "vbscript:"; "about:"]%string.
Definition LOOPBACK_RETURN_HOSTS : list string := ["127.0.0.1"; "[::1]"]%string.

(** The callback's redirect: the wallet's URL with [state], an [error] that is not
    'ok', and the binding in its fragment. *)
Record Redirect := mkRedirect {
  rd_to : string;
  rd_state : string;
  rd_error : option string;
  rd_binding : option string
}.

Section return_urls.
Context `{NODE : Node}.

Definition isLoopback (url : Url) : bool :=
  bool_decide (protocol url = "http:"%string) && bool_decide (hostname url ∈ LOOPBACK_RETURN_HOSTS).

(** Null ([false]) when the URL can be a return URL. *)
Definition returnUrlProblem (value : string) : bool :=
  match new_URL value with
  | None => true
  | Some url =>
      bool_decide (protocol url ∈ FORBIDDEN_RETURN_SCHEMES)
      || (negb (bool_decide (username url = "")) || negb (bool_decide (password url = "")))
      || (negb (bool_decide (search url = "")) || negb (bool_decide (hash url = "")))
      || (bool_decide (protocol url = "http:") && negb (isLoopback url))
  end%string.

Definition isReturnUrlAllowed (candidate : string) (allowlist : list string) : bool :=
  if returnUrlProblem candidate then false
  else
    match new_URL candidate with
    | None => false
    | Some url =>
        existsb (fun entry =>
          match new_URL entry with
          | None => false
          | Some allowed =>
              negb (returnUrlProblem entry)
              && bool_decide (protocol allowed = protocol url)
              && bool_decide (hostname allowed = hostname url)
              && bool_decide (pathname allowed = pathname url)
              && (isLoopback allowed || bool_decide (port allowed = port url))
          end) allowlist
    end.

Definition returnRedirectUrl (returnTo state reason : string) (binding : option string) : Redirect :=
  mkRedirect returnTo state (if bool_decide (reason = "ok"%string) then None else Some reason)
    (if truthy binding then binding else None).

Definition filled (l : list string) : list string := List.filter (fun s => negb (bool_decide (s = ""%string))) l.

Definition parseReturnUrls (raw : option string) : list string :=
  filled (List.map trim (split_on "," (default ""%string raw))).
End return_urls.

(** ** Sources (oidc-sources.ts) *)

Record OidcSource := mkSource { slug : string; source_name : string }.

(** The text before the first [c] and the text after it. *)
Fixpoint cut_at (c : ascii) (s : string) : option (string * string) :=
  match s with
  | "" => None
  | String a r =>
      if Ascii.eqb a c then Some (""%string, r)
      else '(h, t) ← cut_at c r; Some (String a h, t)
  end%string.

Definition parseOidcSources (raw : option string) : list OidcSource :=
  List.map (fun entry =>
    match cut_at ":" entry with
    | None => mkSource entry ""
    | Some (s, n) => mkSource (trim s) (trim n)
    end) (filled (List.map trim (split_on "," (default ""%string raw)))).

Definition is_slug_head (a : ascii) : bool := is_digit a || ((97 <=? code a) && (code a <=? 122)).
Definition is_slug_char (a : ascii) : bool := is_slug_head a || Ascii.eqb a "-".

(** [/^[a-z0-9][a-z0-9-]{0,49}$/] *)
Definition AUTHENTIK_SOURCE_SLUG (s : string) : bool :=
  match s with
  | String a r => is_slug_head a && all_chars is_slug_char r && (String.length r <=? 49)%nat
  | EmptyString => false
  end.

(** [true] when the entry can be offered. *)
Definition oidcSourceOk (s : OidcSource) : bool :=
  AUTHENTIK_SOURCE_SLUG (slug s) && negb (bool_decide (source_name s = ""%string))
  && (String.length (source_name s) <=? AUTHENTIK_SOURCE_LABEL_MAX)%nat.

(** ** The sponsored recovery setup (recovery-setup.ts) *)

(** The operations of the transaction, with their sources. *)
Inductive SetupOperation :=
  | BeginSponsoring (source sponsored : string)
  | AddSigner (source key : string) (weight : Z)
  | EndSponsoring (source : string)
  | SetThresholds (source : string) (masterWeight : option Z) (low med high : Z).

Record SetupTransaction := mkSetup {
  su_source : string;
  su_sequence : string;
  su_fee : Z;
  su_passphrase : string;
  su_timeout : Z;
  su_operations : list SetupOperation;
  su_signedBy : string
}.

Definition BASE_FEE : Z := 100.

(** [sponsor] is the sponsor's public key, which signs. *)
Definition buildSponsoredRecoverySetup (account deviceKey a b passphrase sequence sponsor : string)
    : SetupTransaction :=
  mkSetup account sequence (BASE_FEE * 5) passphrase RECOVERY_SETUP_TIMEOUT_S
    ([BeginSponsoring sponsor account]
     ++ List.map (fun key => AddSigner account key RECOVERY_SERVER_WEIGHT) [a; b]
     ++ [EndSponsoring account;
         SetThresholds account (if bool_decide (deviceKey = account) then Some RECOVERY_DEVICE_WEIGHT else None)
           RECOVERY_DEVICE_WEIGHT RECOVERY_DEVICE_WEIGHT RECOVERY_DEVICE_WEIGHT])
    sponsor.

Definition sponsorableDeviceKey (account : string) (signers : list Signer) : option string :=
  match List.filter (fun s => 0 <? weight s) signers with
  | [only] =>
      if bool_decide (signer_key only = account) then Some (signer_key only)
      else
        let master := match List.find (fun s => bool_decide (signer_key s = account)) signers with
                      | Some s => weight s
                      | None => 0
                      end in
        if (master =? 0) && (weight only =? RECOVERY_DEVICE_WEIGHT) then Some (signer_key only) else None
  | _ => None
  end.

(** ** Session tokens are read back by nothing else *)

Section token_theorems.
Context `{NODE : Node} {LAWS : NodeLaws}.

Definition safe_integer (n : Z) : Prop := -9007199254740991 <= n <= 9007199254740991.

Lemma session_payload_ok identity exp : safe_integer exp -> payload (session_payload identity exp).
Proof.
  intros He. split.
  - apply (bool_decide_eq_true_1 (NoDup _)). by vm_compute.
  - repeat constructor.
  - unfold session_payload. repeat constructor; simpl.
    + by destruct (id_name identity).
    + by destruct (id_avatar identity).
    + destruct He. rewrite andb_true_iff, !Z.leb_le. done.
Qed.

Lemma method_of_text_back m : method_of_text (method_text m) = Some m.
Proof. by destruct m. Qed.
Lemma text_of_json_of_text o : text_of (Some (json_of_text o)) = o.
Proof. by destruct o. Qed.

Lemma session_fields i exp :
  field "v" (session_payload i exp) = Some (JNumber (NumInt 1))
  /\ field "exp" (session_payload i exp) = Some (JNumber (NumInt exp))
  /\ field "email" (session_payload i exp) = Some (JString (id_email i))
  /\ field "method" (session_payload i exp) = Some (JString (method_text (id_method i)))
  /\ field "name" (session_payload i exp) = Some (json_of_text (id_name i))
  /\ field "avatar" (session_payload i exp) = Some (json_of_text (id_avatar i)).
Proof. done. Qed.

(** C37: A session token carries its identity, and only to this service. What
    [issueSessionToken] seals is read back as the same identity until its lifetime
    is over and as nothing after, nor under another secret; and a box sealed for
    another purpose, such as the ID token of a sign-in, is never a session, nor a
    session that box. *)
Theorem session_token_roundtrip iv identity secret now :
  iv <> ""%string -> secret <> ""%string -> id_email identity <> ""%string ->
  safe_integer (now + SESSION_TTL_MS) ->
  exists token, issueSessionToken iv identity secret now = Ok token
    /\ (forall at_, readSessionToken token secret at_ = if now + SESSION_TTL_MS <? at_ then None else Some identity)
    /\ (forall secret' at_, secret' <> secret -> readSessionToken token secret' at_ = None)
    /\ (forall purpose, purpose <> SESSION_PURPOSE ->
          openJson token secret purpose = None
          /\ forall iv' fields box at_, payload fields -> iv' <> ""%string ->
               sealJson iv' (JObject fields) secret purpose = Ok box -> readSessionToken box secret at_ = None).
Proof.
  intros Hiv Hs He Hi.
  destruct (sealed_opens iv _ secret SESSION_PURPOSE (session_payload_ok identity _ Hi) Hiv Hs)
    as (token & Hseal & Hopen & Hother).
  exists token. split; [exact Hseal|]. split_and!.
  - intros t. unfold readSessionToken. rewrite Hopen. cbn [mbind option_bind fields_of].
    destruct (session_fields identity (now + SESSION_TTL_MS)) as (-> & -> & -> & -> & -> & ->).
    cbn [num_lt num_strict_eq Z.eqb Pos.eqb negb orb]. destruct (_ <? t); [done|].
    rewrite bool_decide_eq_false_2 by done. rewrite !text_of_json_of_text. cbn [text_of mbind option_bind].
    rewrite method_of_text_back. by destruct identity.
  - intros s' t Hne. unfold readSessionToken. by rewrite Hother by congruence.
  - intros purpose Hp. split; [apply Hother; congruence|].
    intros iv' fields box t Hf Hiv' Hbox.
    destruct (sealed_opens iv' fields secret purpose Hf Hiv' Hs) as (box' & Hbox' & _ & Hother').
    rewrite Hbox in Hbox'. simplify_eq. unfold readSessionToken. by rewrite Hother' by congruence.
Qed.
End token_theorems.

(** ** Challenges *)

Lemma free_of_String c a s : free_of c (String a s) = negb (Ascii.eqb a c) && free_of c s.
Proof. done. Qed.
Lemma free_of_app c a b : free_of c (a +:+ b) = free_of c a && free_of c b.
Proof. apply all_chars_app. Qed.

(** Equal texts with the same last separator have the same parts around it. *)
Lemma cut_last_inj c a b r q :
  free_of c a = true -> free_of c b = true ->
  (r +:+ String c a = q +:+ String c b)%string -> r = q /\ a = b.
Proof.
  intros Ha Hb. revert q. induction r as [|x r IH]; intros [|y q]; simpl; intros E; simplify_eq; try done.
  - by rewrite free_of_app, free_of_String, Ascii.eqb_refl, andb_false_r in Ha.
  - by rewrite free_of_app, free_of_String, Ascii.eqb_refl, andb_false_r in Hb.
  - assert (E' : (r +:+ String c a = q +:+ String c b)%string) by assumption.
    by destruct (IH q E') as [-> ->].
Qed.

(** What a device is asked to sign. *)
Inductive Challenge :=
  | FinishChallenge (email address signedAt : string) (chain : Chain)
  | BackupChallenge (address box signedAt : string) (chain : Chain)
  | SetupChallenge (account a b signedAt : string).

Definition NL : ascii := ascii_of_nat 10.

Section challenges.
Context `{NODE : Node} {LAWS : NodeLaws}.

Definition message_of (c : Challenge) : string :=
  match c with
  | FinishChallenge e a t ch => finishMessage e a t ch
  | BackupChallenge a b t ch => backupMessage a b t ch
  | SetupChallenge acc a b t => recoverySetupMessage acc a b t
  end.

(** Addresses and timestamps have one line; a signer's key has no comma. *)
Definition well_posed (c : Challenge) : Prop :=
  match c with
  | FinishChallenge e a t _ => free_of NL a = true /\ free_of NL t = true
  | BackupChallenge a _ t _ => free_of NL a = true /\ free_of NL t = true
  | SetupChallenge acc a b t =>
      free_of NL acc = true /\ free_of NL t = true /\ free_of NL a = true /\ free_of NL b = true
      /\ free_of "," a = true
  end.

(** The same consent: an email in its stored form, a box by its hash. *)
Definition same_consent (c d : Challenge) : Prop :=
  match c, d with
  | FinishChallenge e a t ch, FinishChallenge e' a' t' ch' =>
      normalizeEmail e = normalizeEmail e' /\ a = a' /\ t = t' /\ ch = ch'
  | BackupChallenge a b t ch, BackupChallenge a' b' t' ch' =>
      a = a' /\ sha256Hex b = sha256Hex b' /\ t = t' /\ ch = ch'
  | SetupChallenge acc a b t, SetupChallenge acc' a' b' t' => acc = acc' /\ a = a' /\ b = b' /\ t = t'
  | _, _ => False
  end.

Lemma app_cons_inj p a b : (p +:+ a = p +:+ b)%string -> a = b.
Proof. induction p as [|x p IH]; simpl; [done|]. intros E. simplify_eq. by apply IH. Qed.

(** The first and the last line. *)
Lemma first_line a b r q : free_of NL a = true -> free_of NL b = true ->
  (a +:+ newline +:+ r = b +:+ newline +:+ q)%string -> a = b /\ r = q.
Proof. apply cut_inj. Qed.
Lemma last_line a b r q : free_of NL a = true -> free_of NL b = true ->
  (r +:+ newline +:+ a = q +:+ newline +:+ b)%string -> r = q /\ a = b.
Proof. apply cut_last_inj. Qed.

(** The chain line and what follows it, where that begins differently. *)
Lemma chainLine_inj c c' r r' :
  (forall a s, r = String a s -> a <> "c"%char) -> (forall a s, r' = String a s -> a <> "c"%char) ->
  r <> ""%string -> r' <> ""%string ->
  (chainLine c +:+ r = chainLine c' +:+ r')%string -> c = c' /\ r = r'.
Proof.
  intros H1 H2 N1 N2 E. destruct r as [|a s]; [done|]. destruct r' as [|a' s']; [done|].
  specialize (H1 a s eq_refl). specialize (H2 a' s' eq_refl).
  destruct c, c'; unfold chainLine, chain_name, newline in E; simpl in E; simplify_eq; try done.
Qed.

Lemma sha_line b : free_of NL ("box: " +:+ sha256Hex b) = true.
Proof. rewrite free_of_app. simpl. eapply free_of_class; [|apply sha256Hex_chars]. done. Qed.

Lemma labelled label x : free_of NL label = true -> free_of NL x = true -> free_of NL (label +:+ x) = true.
Proof. intros Hl Hx. by rewrite free_of_app, Hl, Hx. Qed.

Lemma finish_inj e a t c e' a' t' c' :
  free_of NL a = true -> free_of NL t = true -> free_of NL a' = true -> free_of NL t' = true ->
  finishMessage e a t c = finishMessage e' a' t' c' ->
  normalizeEmail e = normalizeEmail e' /\ a = a' /\ t = t' /\ c = c'.
Proof.
  unfold finishMessage. intros Ha Ht Ha' Ht' E.
  apply app_cons_inj, app_cons_inj in E.
  apply chainLine_inj in E as [-> E]; [|by intros ? ? [= <- _] ..| done | done].
  apply app_cons_inj in E.
  assert (E1 : ((normalizeEmail e +:+ newline +:+ "account: " +:+ a) +:+ newline +:+ "at: " +:+ t
    = (normalizeEmail e' +:+ newline +:+ "account: " +:+ a') +:+ newline +:+ "at: " +:+ t')%string)
    by (rewrite <- !str_app_assoc; exact E).
  apply last_line in E1 as [E1 E2]; [|by apply labelled ..].
  apply last_line in E1 as [E1 E3]; [|by apply labelled ..].
  apply app_cons_inj in E2, E3. by subst.
Qed.

Lemma backup_inj a b t c a' b' t' c' :
  free_of NL a = true -> free_of NL t = true -> free_of NL a' = true -> free_of NL t' = true ->
  backupMessage a b t c = backupMessage a' b' t' c' ->
  a = a' /\ sha256Hex b = sha256Hex b' /\ t = t' /\ c = c'.
Proof.
  unfold backupMessage. intros Ha Ht Ha' Ht' E.
  apply app_cons_inj, app_cons_inj in E.
  apply chainLine_inj in E as [-> E]; [|by intros ? ? [= <- _] ..| done | done].
  apply app_cons_inj, first_line in E as [-> E]; [|done..].
  apply app_cons_inj, first_line in E as [-> E]; [|eapply free_of_class; [|apply sha256Hex_chars]; done ..].
  by apply app_cons_inj in E as ->.
Qed.

Lemma setup_inj acc a b t acc' a' b' t' :
  well_posed (SetupChallenge acc a b t) -> well_posed (SetupChallenge acc' a' b' t') ->
  recoverySetupMessage acc a b t = recoverySetupMessage acc' a' b' t' ->
  acc = acc' /\ a = a' /\ b = b' /\ t = t'.
Proof.
  unfold recoverySetupMessage. intros (H1 & H2 & H3 & H4 & H5) (K1 & K2 & K3 & K4 & K5) E.
  apply app_cons_inj, app_cons_inj, app_cons_inj, first_line in E as [-> E]; [|done..].
  apply app_cons_inj in E. apply (cut_inj "," a a') in E as [-> E]; [|done..].
  apply first_line in E as [-> E]; [|done..]. by apply app_cons_inj in E as ->.
Qed.

(** A signature is worth one consent. Two challenges with the same text are of
    the same kind and name the same email, account, box hash, signers, moment and
    chain, so what a device signs to finish a sign-in can be presented neither for
    another account, moment or chain, nor to store a backup or to pay for a
    recovery setup. *)
Theorem challenges_distinct c d :
  well_posed c -> well_posed d -> message_of c = message_of d -> same_consent c d.
Proof.
  destruct c, d; simpl; intros Hc Hd E.
  1: by apply finish_inj in E; try apply Hc; try apply Hd.
  4: by apply backup_inj in E; try apply Hc; try apply Hd.
  all: try (apply setup_inj in E; [exact E | exact Hc | exact Hd]).
  all: exfalso; revert E; unfold finishMessage, backupMessage, recoverySetupMessage; simpl; discriminate.
Qed.
End challenges.

(** ** Backup boxes *)

Section boxes.
Context `{NODE : Node}.

(** A member that is [n] bytes of base64: at least one character of the alphabet, and
    up to two of padding. *)
Definition bytes_in (name : string) (s : list (string * json)) (n : Z) : Prop :=
  exists text pad, field name s = Some (JString (text +:+ pad)) /\ all_chars is_b64 text = true /\ text <> ""%string
    /\ pad ∈ [""; "="; "=="]%string /\ n = Z.of_nat (String.length text) * 6 / 8.

(** A password door whose key costs what this service asks. *)
Definition costly (version : SlotVersion) (s : list (string * json)) : Prop :=
  (exists n, bytes_in "salt" s n /\ 16 <= n)
  /\ match version with
     | V3 => exists i, field "iter" s = Some (JNumber (NumInt i)) /\ 600000 <= i <= 4000000
     | V4 => field "kdf" s = Some (JString "argon2id")
             /\ (exists m, field "m" s = Some (JNumber (NumInt m)) /\ 19456 <= m <= 262144)
             /\ (exists t, field "t" s = Some (JNumber (NumInt t)) /\ 2 <= t <= 10)
             /\ (exists p, field "p" s = Some (JNumber (NumInt p)) /\ 1 <= p <= 4)
     end.

(** A door: the box's key of 32 bytes, sealed with its 16-byte tag under a twelve-byte
    initialization vector, behind a password, a passkey or, in version 4, the
    recovery servers. *)
Inductive door_kind (version : SlotVersion) (s : list (string * json)) : Prop :=
  | password_door : field "kind" s = Some (JString "password") -> costly version s -> door_kind version s
  | passkey_door i : field "kind" s = Some (JString "passkey") -> field "id" s = Some (JString i) ->
      (1 <= String.length i <= Z.to_nat 1364)%nat -> all_chars is_b64url i = true -> door_kind version s
  | recovery_door : field "kind" s = Some (JString "recovery") -> version = V4 -> length s = 3%nat -> door_kind version s.
Definition door (version : SlotVersion) (slot : json) : Prop :=
  exists s, slot = JObject s /\ bytes_in "iv" s 12 /\ bytes_in "data" s 48 /\ door_kind version s.

Definition recovers (slot : json) : Prop := exists s, slot = JObject s /\ field "kind" s = Some (JString "recovery").

(** How a box is locked: by one password, or by doors. *)
Inductive locked (b : list (string * json)) : Prop :=
  | box_v2 : field "v" b = Some (JNumber (NumInt 2)) -> costly V3 b -> locked b
  | box_slots version slots :
      field "v" b = Some (JNumber (NumInt match version with V3 => 3 | V4 => 4 end)) ->
      field "slots" b = Some (JArray slots) -> (1 <= length slots <= 8)%nat ->
      (forall slot, slot ∈ slots -> door version slot) ->
      (forall i j x y, slots !! i = Some x -> slots !! j = Some y -> recovers x -> recovers y -> i = j) ->
      (exists slot, slot ∈ slots /\ ~ recovers slot) -> locked b.

(** A box of one of the three shapes: a ciphertext, its twelve-byte initialization
    vector, and a lock. *)
Record sound_box (b : list (string * json)) : Prop := {
  sb_iv : bytes_in "iv" b 12;
  sb_data : exists n, bytes_in "data" b n;
  sb_lock : locked b
}.

Lemma within_Some v lo hi : within v lo hi = true -> exists n, v = Some (JNumber (NumInt n)) /\ lo <= n <= hi.
Proof.
  destruct v as [[| |[n|]| | |]|]; try done. simpl. rewrite andb_true_iff, !Z.leb_le. eauto.
Qed.

Lemma b64_chars_text t n : b64_chars t = Some n ->
  exists text pad, t = (text +:+ pad)%string /\ all_chars is_b64 text = true /\ pad ∈ [""; "="; "=="]%string
    /\ n = Z.of_nat (String.length text).
Proof.
  revert n. induction t as [|a r IH]; intros n.
  { intros [= <-]. exists ""%string, ""%string. split_and!; [done|done|by left|done]. }
  assert (Hpad : b64_chars (String a r) = Some n ->
    String a r ∈ ["="; "=="]%string /\ n = 0 \/ is_b64 a = true /\ exists m, b64_chars r = Some m /\ n = m + 1).
  { destruct (decide (String a r ∈ ["="; "=="]%string)) as [Hin|Hn].
    - rewrite !elem_of_cons in Hin. destruct Hin as [-> |[-> |[]%not_elem_of_nil]]; intros [= <-]; left; (split; [|done]); rewrite !elem_of_cons; auto.
    - intros H. right.
      assert (E : b64_chars (String a r) = if is_b64 a then n ← b64_chars r; Some (n + 1) else None).
      { simpl. repeat match goal with |- context [match ?x with _ => _ end] => is_var x; destruct x end; try done; exfalso; apply Hn; rewrite !elem_of_cons; auto. }
      rewrite E in H. destruct (is_b64 a); [|done]. split; [done|]. destruct (b64_chars r) as [m|]; simplify_eq/=. by exists m. }
  intros [[Hin ->]|(Ha & m & Hm & ->)]%Hpad.
  - exists ""%string, (String a r). split_and!; [done|done|by right|done].
  - apply IH in Hm as (text & pad & -> & Hall & Hp & ->). exists (String a text), pad. simpl. rewrite Ha, Hall.
    split_and!; [done|done|done|lia].
Qed.

Lemma b64Bytes_in name s n : b64Bytes (field name s) = Some n -> bytes_in name s n.
Proof.
  unfold b64Bytes, bytes_in. destruct (field name s) as [[| | |t| |]|]; try done.
  destruct (b64_chars t) as [k|] eqn:E; [|done]. simpl. destruct (Z.eqb_spec k 0); [done|]. intros [= <-].
  apply b64_chars_text in E as (text & pad & -> & H1 & H2 & ->). exists text, pad. split_and!; try done. by intros ->.
Qed.

Lemma b64Bytes_eq name s n : opt_Z_eqb (b64Bytes (field name s)) n = true -> bytes_in name s n.
Proof.
  unfold opt_Z_eqb. destruct (b64Bytes _) as [m|] eqn:E; [|done]. intros Hm. apply Z.eqb_eq in Hm as <-. by apply b64Bytes_in.
Qed.

Lemma saltOk_Some s : saltOk (field "salt" s) = true -> exists n, bytes_in "salt" s n /\ 16 <= n.
Proof.
  unfold saltOk. destruct (b64Bytes _) as [n|] eqn:E; [|done]. rewrite Z.leb_le. exists n. by split; [apply b64Bytes_in|].
Qed.

Lemma is_number_Some v n : is_number v n = true -> v = Some (JNumber (NumInt n)).
Proof. destruct v as [[| |[m|]| | |]|]; try done. simpl. intros E. apply Z.eqb_eq in E. by subst. Qed.

Lemma passwordCostOk_costly s : passwordCostOk (field "salt" s) (field "iter" s) = true -> costly V3 s.
Proof. unfold passwordCostOk. intros [H1 H2]%andb_true_iff. split; [by apply saltOk_Some | by apply within_Some in H2]. Qed.

Lemma slot_kind s version :
  (if is_text "password" (field "kind" s) then
     match version with
     | V4 => is_text "argon2id" (field "kdf" s) && argon2CostOk (field "salt" s) (field "m" s) (field "t" s) (field "p" s)
     | V3 => passwordCostOk (field "salt" s) (field "iter" s)
     end
   else if is_text "recovery" (field "kind" s) then match version with V4 => (length s =? 3)%nat | V3 => false end
   else if is_text "passkey" (field "kind" s) then
     match field "id" s with
     | Some (JString i) =>
         negb (bool_decide (i = ""%string)) && (Z.of_nat (String.length i) <=? BACKUP_PASSKEY_ID_MAX_CHARS)
         && all_chars is_b64url i
     | _ => false
     end
   else false) = true -> door_kind version s.
Proof.
  destruct (is_text "password" _) eqn:Ep.
  { apply is_text_true in Ep. intros H. apply password_door; [done|]. destruct version.
    - by apply passwordCostOk_costly.
    - unfold argon2CostOk in H. bool_facts. split; [by apply saltOk_Some|].
      split_and!; [by apply is_text_true | by apply within_Some ..]. }
  destruct (is_text "recovery" _) eqn:Er.
  { apply is_text_true in Er. destruct version; [done|]. intros H%Nat.eqb_eq. by apply recovery_door. }
  destruct (is_text "passkey" _) eqn:Ek; [|done]. apply is_text_true in Ek.
  destruct (field "id" s) as [[| | |i| |]|] eqn:Ei; try done. intros H. unfold BACKUP_PASSKEY_ID_MAX_CHARS in H. bool_facts.
  eapply passkey_door; [done|done|split; [by destruct i; [|simpl; lia]|lia]|done].
Qed.

Lemma slot_door version slot : isBackupSlot slot version = true -> door version slot.
Proof.
  destruct slot as [| | | | |s]; try done. unfold isBackupSlot.
  destruct (opt_Z_eqb (b64Bytes (field "iv" s)) 12) eqn:Ei; cbn [negb]; [|done].
  destruct (opt_Z_eqb (b64Bytes (field "data" s)) BACKUP_WRAPPED_KEY_BYTES) eqn:Ed; cbn [negb]; [|done].
  intros H%slot_kind. exists s. split_and!; [done|by apply b64Bytes_eq..|done].
Qed.

Lemma recovers_iff slot : recovers slot <-> is_recovery slot = true.
Proof.
  unfold recovers, is_recovery. rewrite is_text_true. split; [by intros (s & -> & H)|].
  destruct slot as [| | | | |s]; try done. by exists s.
Qed.

Lemma filter_one_place {A} (f : A -> bool) l i j x y :
  (length (List.filter f l) <= 1)%nat -> l !! i = Some x -> l !! j = Some y -> f x = true -> f y = true -> i = j.
Proof.
  revert i j. induction l as [|z l IH]; intros i j Hl Hi Hj Hx Hy; [done|]. simpl in Hl.
  assert (Hnone : forall k u, f z = true -> l !! k = Some u -> f u = true -> False).
  { intros k u Hz Hk Hu. rewrite Hz in Hl. simpl in Hl.
    assert (Hin : In u (List.filter f l)) by (apply filter_In; split; [by apply list_elem_of_In, (list_elem_of_lookup_2 _ k)|done]).
    destruct (List.filter f l); simpl in *; [done|lia]. }
  destruct i as [|i], j as [|j]; simplify_eq/=; [done|by destruct (Hnone j y)|by destruct (Hnone i x)|].
  f_equal. apply IH; try done. destruct (f z); simpl in Hl; lia.
Qed.

Lemma slotsOk_sound b version :
  field "v" b = Some (JNumber (NumInt match version with V3 => 3 | V4 => 4 end)) ->
  slotsOk (field "slots" b) version = true -> locked b.
Proof.
  unfold slotsOk, recoveryDoorsOk. intros Hv H. destruct (field "slots" b) as [[| | | |l|]|] eqn:El; try done.
  bool_facts. rewrite Nat.ltb_lt, !Nat.leb_le in *.
  repeat match goal with E : (_ <? _)%nat = true |- _ => apply Nat.ltb_lt in E | E : (_ <=? _)%nat = true |- _ => apply Nat.leb_le in E end.
  apply (box_slots b version l); try done.
  - intros slot Hin. apply slot_door.
    apply (proj1 (forallb_forall _ _) H2 slot). by apply list_elem_of_In.
  - intros i j x y Hi Hj Hx%recovers_iff Hy%recovers_iff. by eapply (filter_one_place is_recovery l).
  - destruct (existsb (fun x => negb (is_recovery x)) l) eqn:E.
    + apply existsb_exists in E as (x & Hx & Hn). exists x. split; [by apply list_elem_of_In|].
      rewrite recovers_iff. apply negb_true_iff in Hn. by rewrite Hn.
    + exfalso. assert (Hall : List.filter is_recovery l = l).
      { apply forallb_filter_id, forallb_forall. intros x Hx. apply negb_false_iff.
        by apply (proj1 (existsb_false_forall _ _) E), list_elem_of_In. }
      apply (f_equal length) in Hall. lia.
Qed.

(** C36: What is kept as a backup. An accepted box is an object of at most 8192
    characters of one of three versions, with a ciphertext and its twelve-byte
    initialization vector; every password door of it costs at least the floor of its
    version's derivation, whichever version carries it; and a box of doors has one to
    eight, of a known kind each, each with its own twelve-byte vector and a sealed key
    of 48 bytes, at most one of them a recovery door and never that one alone. *)
Theorem accepted_box_sound box : isBackupBox box = true ->
  (String.length box <= Z.to_nat 8192)%nat /\ exists b, JSON_parse box = Some (JObject b) /\ sound_box b.
Proof.
  unfold isBackupBox. destruct (_ || _) eqn:El; [done|]. bool_facts.
  destruct (JSON_parse box) as [[| | | | |b]|]; try done. intros Hv.
  destruct (opt_Z_eqb (b64Bytes (field "iv" b)) 12) eqn:Ei; cbn [negb] in Hv; [|done].
  destruct (b64Bytes (field "data" b)) as [n|] eqn:Ed; [|done].
  split; [unfold BACKUP_BOX_MAX_CHARS in *; lia|]. exists b. split; [done|].
  split; [by apply b64Bytes_eq|exists n; by apply b64Bytes_in|].
  destruct (is_number _ 2) eqn:E2; [apply box_v2; [by apply is_number_Some | by apply passwordCostOk_costly]|].
  destruct (is_number _ 3) eqn:E3; [by apply (slotsOk_sound b V3); [apply is_number_Some|]|].
  destruct (is_number _ 4) eqn:E4; [|done]. by apply (slotsOk_sound b V4); [apply is_number_Some|].
Qed.
End boxes.

(** ** Witnesses *)

#[local] Existing Instance sample_node.
#[local] Existing Instance sample_laws.

Definition sample_identity : WalletAuthIdentity := mkIdentity "ana@example.com" (Some "Ana"%string) None M_EMAIL.

Lemma session_token_roundtrip_witness :
  exists token, issueSessionToken "iv" sample_identity "secret" 5 = Ok token
    /\ readSessionToken token "secret" 5 = Some sample_identity
    /\ readSessionToken token "secret" (6 + SESSION_TTL_MS) = None
    /\ readSessionToken token "other" 5 = None.
Proof.
  destruct (session_token_roundtrip "iv" sample_identity "secret" 5) as (token & H1 & H2 & H3 & _);
    [done.. | by unfold safe_integer, SESSION_TTL_MS | ].
  exists token. split_and!; [done | by rewrite H2 | by rewrite H2 | by apply H3].
Defined.

Lemma challenges_distinct_witness :
  message_of (FinishChallenge "Ana@example.com " "GA" "t" stellar) = message_of (FinishChallenge "ana@example.com" "GA" "t" stellar)
  /\ same_consent (FinishChallenge "Ana@example.com " "GA" "t" stellar) (FinishChallenge "ana@example.com" "GA" "t" stellar).
Proof. split; [by vm_compute|]. apply challenges_distinct; by vm_compute. Defined.

Definition sample_box_json : list (string * json) :=
  [("v", JNumber (NumInt 4)); ("iv", JString "AAAAAAAAAAAAAAAA"); ("data", JString "AAAA");
   ("slots", JArray
     [JObject [("kind", JString "password"); ("kdf", JString "argon2id");
        ("iv", JString "AAAAAAAAAAAAAAAA");
        ("data", JString "AAAAAAAAAAAAAAAAAAAAAAAAAAAAAAAAAAAAAAAAAAAAAAAAAAAAAAAAAAAAAAAA");
        ("salt", JString "AAAAAAAAAAAAAAAAAAAAAA=="); ("m", JNumber (NumInt 65536)); ("t", JNumber (NumInt 3));
        ("p", JNumber (NumInt 1))];
      JObject [("kind", JString "recovery"); ("iv", JString "AAAAAAAAAAAAAAAA");
        ("data", JString "AAAAAAAAAAAAAAAAAAAAAAAAAAAAAAAAAAAAAAAAAAAAAAAAAAAAAAAAAAAAAAAA")]])]%string.

Definition sample_box : string := JSON_stringify (JObject sample_box_json).

Lemma accepted_box_sound_witness :
  isBackupBox sample_box = true /\ exists b, JSON_parse sample_box = Some (JObject b) /\ sound_box b.
Proof.
  assert (H : isBackupBox sample_box = true) by by vm_compute.
  split; [exact H|]. apply (accepted_box_sound sample_box H).
Defined.

(** A recovery door alone is refused. *)
Example recovery_door_alone :
  isBackupBox (JSON_stringify (JObject
    [("v", JNumber (NumInt 4)); ("iv", JString "AAAAAAAAAAAAAAAA"); ("data", JString "AAAA");
     ("slots", JArray [JObject [("kind", JString "recovery"); ("iv", JString "AAAAAAAAAAAAAAAA");
        ("data", JString "AAAAAAAAAAAAAAAAAAAAAAAAAAAAAAAAAAAAAAAAAAAAAAAAAAAAAAAAAAAAAAAA")]])]%string)) = false.
Proof. by vm_compute. Qed.
