(* ===== verification/WalletStore.v ===== *)
(** The wallet sign-in's tables (prisma/schema.prisma: WalletAuthHandshake,
    WalletLoginCode, WalletAccount, WalletBackup), its configuration, the world its
    methods run in and the statements they make. *)

From S2P Require Import Prelude Text MerchantFee Intents Links ChainAddress Programs Tokens Signatures Oidc WalletCore.
From stdpp Require Import base tactics list option gmap strings sorting.
From Stdlib Require Import ZArith Lia Ascii.

Open Scope Z_scope.

(** ** Rows *)

Inductive WalletAuthHandshakeStatus := H_PENDING | H_AUTHORIZED | H_REDEEMED | H_FAILED | H_EXPIRED.
#[export] Instance WalletAuthHandshakeStatus_eq_dec : EqDecision WalletAuthHandshakeStatus.
Proof. solve_decision. Defined.

Inductive WalletLoginCodeStatus := L_PENDING | L_CLAIMED | L_LOCKED | L_EXPIRED.
#[export] Instance WalletLoginCodeStatus_eq_dec : EqDecision WalletLoginCodeStatus.
Proof. solve_decision. Defined.

(** A handshake's columns in three groups: what opened it, what the callback
    learned, and the provider's leg. *)
Record Opening := mkOpening {
  hs_state : string;
  hs_provider : WalletAuthProvider;
  codeChallenge : string;
  returnTo : option string;
  hs_expiresAt : Z
}.

Record Profile := mkProfile {
  hs_email : option string;
  hs_name : option string;
  hs_avatar : option string;
  hs_subject : option string;
  hs_emailVerified : bool;
  hs_idToken : option string;
  bindingHash : option string
}.

Record Leg := mkLeg { providerVerifier : option string; hs_nonce : option string }.

Record Handshake := mkHandshake {
  opening : Opening;
  hs_status : WalletAuthHandshakeStatus;
  profile : Profile;
  leg : Leg;
  failure : option string;
  hs_updatedAt : Z
}.

Definition no_profile : Profile := mkProfile None None None None true None None.
Definition no_leg : Leg := mkLeg None None.

Record LoginCode := mkLoginCode {
  lc_email : string;
  lc_name : option string;
  lc_avatar : option string;
  via : WalletAuthMethod;
  claimHash : string;
  codeHash : string;
  attempts : Z;
  lc_status : WalletLoginCodeStatus;
  sentAt : Z;
  lc_expiresAt : Z;
  lc_idToken : option string
}.

Definition set_guess (n : Z) (st : WalletLoginCodeStatus) (r : LoginCode) : LoginCode :=
  mkLoginCode (lc_email r) (lc_name r) (lc_avatar r) (via r) (claimHash r) (codeHash r) n st (sentAt r)
    (lc_expiresAt r) (lc_idToken r).
(** With [codeHash: '', idToken: null]. *)
Definition set_spent (n : Z) (st : WalletLoginCodeStatus) (r : LoginCode) : LoginCode :=
  mkLoginCode (lc_email r) (lc_name r) (lc_avatar r) (via r) (claimHash r) "" n st (sentAt r) (lc_expiresAt r) None.

Record WalletAccount := mkWalletAccount {
  wa_id : string;
  wa_email : string;
  wa_name : string;
  wa_avatar : option string;
  wa_method : WalletAuthMethod;
  wa_chain : Chain;
  wa_address : string
}.

Record WalletBackup := mkWalletBackup {
  bk_account : string;
  bk_chain : Chain;
  bk_address : string;
  bk_box : string;
  bk_updatedAt : Z
}.

(** ** Configuration *)

Record Credentials := mkCredentials { clientId : string; clientSecret : string }.
Record SponsorLedger := mkSponsorLedger { networkPassphrase : string; horizonUrl : string }.

Class WalletEnv := mkWalletEnv {
  ws_google : Credentials;
  ws_github : Credentials;
  ws_oidc : Credentials;
  ws_issuer : string;
  ws_sources : option (list OidcSource);
  ws_returnUrls : list string;
  ws_publicBaseUrl : string;
  ws_sessionSecret : string;
  ws_keyring : BackupKeyring;
  signersHorizonUrls : string -> string;
  signersNetwork : string;
  sponsorSecret : string;
  sponsorLedger : SponsorLedger;
  sponsorNetworks : string -> option SponsorLedger;
  sponsorPublicKey : string;
  mailer_configured : bool;
  walletKeys_configured : bool;
  randomToken : nat -> string;
  randomCode : nat -> Z;
  randomIv : nat -> string;
  wallet_cuid : nat -> string
}.

(** ** What surrounds the service *)

(** The requests it makes: a read under a bearer token, and a code exchange. *)
Inductive HttpRequest :=
  | GetJson (url accessToken : string)
  | ExchangeCode (url : string) (body : URLSearchParams).

(** What the key service mints for an account (gateway-keys/wallet-keys.service.ts). *)
Record WalletKeys := mkWalletKeys { organizationId : string; dev_key : string; prod_key : string }.

(** The answers at one moment: to HTTP requests, to OIDC documents, to an account
    on a Horizon, to a message for an address, and to a request for keys. *)
Record Outside := mkOutside {
  http : HttpRequest -> HttpAnswer;
  oidc_document : string -> HttpAnswer;
  horizon : string -> string -> AccountResponse;
  mail_sent : string -> bool;
  provision : string -> string -> res WalletKeys
}.

(** ** Requests and answers the safety of a sign-in is about *)

Record ClaimWalletOauthDto := mkClaimDto {
  cd_state : string;
  cd_codeVerifier : string;
  cd_recovery : bool;
  cd_binding : option string
}.

Record VerifyWalletEmailDto := mkVerifyDto { vd_claimToken : string; vd_code : string }.

Record BackupView := mkBackupView { bv_chain : Chain; bv_address : string; bv_box : string; bv_updatedAt : Z }.

(** [readyPayload]: [rd_existing] is [account: 'existing']. *)
Record ReadyPayload := mkReady {
  rp_identity : WalletAuthIdentity;
  rp_existing : bool;
  rp_backups : list BackupView;
  rp_sessionToken : string;
  rp_idToken : option string
}.

Inductive ClaimReply :=
  | ClaimExpired
  | ClaimPending
  | ClaimFailed (error : string)
  | ClaimVerifyEmail (claimToken email : string)
  | ClaimReady (r : ReadyPayload).

Inductive VerifyReply :=
  | VerifyExpired
  | VerifyLocked
  | VerifyInvalid (attemptsLeft : Z)
  | VerifyReady (r : ReadyPayload).

(** What became of rows the sweeper may since have deleted. No method reads it. *)
Inductive Event :=
  | Opened (o : Opening) (l : Leg)
  | Authorized (state code : string) (p : Profile) (binding : option string)
  | Redeemed (state : string)
  | Minted (claimToken : string) (code : Z) (r : LoginCode)
  | Claimed (claimHash : string)
  | TokenChecked (idToken : string) (now : Z)
  | AnsweredClaim (dto : ClaimWalletOauthDto) (r : ClaimReply)
  | AnsweredVerify (dto : VerifyWalletEmailDto) (r : VerifyReply).

(** ** The world

    Handshakes by their unique state, login codes by their unique claim hash,
    accounts by their unique email, backups by their unique account, chain and
    address; the messages sent with their codes, what happened so far, the clock and
    the count of random draws. *)
Record Wallets := mkWallets {
  handshakes : gmap string Handshake;
  codes : gmap string LoginCode;
  accounts : gmap string WalletAccount;
  backups : gmap (string * string * string) WalletBackup;
  w_caches : OidcCaches;
  outside : Outside;
  mailed : list (string * string);
  trail : list Event;
  w_clock : Z;
  w_drawn : nat
}.

Definition set_handshakes (f : gmap string Handshake -> gmap string Handshake) (s : Wallets) : Wallets :=
  mkWallets (f (handshakes s)) (codes s) (accounts s) (backups s) (w_caches s) (outside s) (mailed s) (trail s)
    (w_clock s) (w_drawn s).
Definition set_codes (f : gmap string LoginCode -> gmap string LoginCode) (s : Wallets) : Wallets :=
  mkWallets (handshakes s) (f (codes s)) (accounts s) (backups s) (w_caches s) (outside s) (mailed s) (trail s)
    (w_clock s) (w_drawn s).
Definition set_accounts (f : gmap string WalletAccount -> gmap string WalletAccount) (s : Wallets) : Wallets :=
  mkWallets (handshakes s) (codes s) (f (accounts s)) (backups s) (w_caches s) (outside s) (mailed s) (trail s)
    (w_clock s) (w_drawn s).
Definition set_backups (f : gmap (string * string * string) WalletBackup -> gmap (string * string * string) WalletBackup)
    (s : Wallets) : Wallets :=
  mkWallets (handshakes s) (codes s) (accounts s) (f (backups s)) (w_caches s) (outside s) (mailed s) (trail s)
    (w_clock s) (w_drawn s).
Definition set_w_caches (c : OidcCaches) (s : Wallets) : Wallets :=
  mkWallets (handshakes s) (codes s) (accounts s) (backups s) c (outside s) (mailed s) (trail s) (w_clock s)
    (w_drawn s).
Definition log_mail (to_ code : string) (s : Wallets) : Wallets :=
  mkWallets (handshakes s) (codes s) (accounts s) (backups s) (w_caches s) (outside s) (mailed s ++ [(to_, code)])
    (trail s) (w_clock s) (w_drawn s).
Definition log_event (e : Event) (s : Wallets) : Wallets :=
  mkWallets (handshakes s) (codes s) (accounts s) (backups s) (w_caches s) (outside s) (mailed s) (trail s ++ [e])
    (w_clock s) (w_drawn s).
Definition set_w_drawn (n : nat) (s : Wallets) : Wallets :=
  mkWallets (handshakes s) (codes s) (accounts s) (backups s) (w_caches s) (outside s) (mailed s) (trail s)
    (w_clock s) n.

Abbreviation method := (prog Wallets).

#[export] Instance wallets_oidc : OidcWorld Wallets :=
  {| caches := w_caches; set_caches := set_w_caches; oidc_get s url := oidc_document (outside s) url;
     oidc_clock := w_clock; note_checked t now s := log_event (TokenChecked t now) s |}.

(** ** Statements *)

(** The next random draw. *)
Definition draw : method nat := stmt (fun s => (set_w_drawn (S (w_drawn s)) s, Ok (w_drawn s))).

(** [walletAuthHandshake.create]: [state] is unique. *)
Definition create_handshake (o : Opening) (l : Leg) : svc Wallets unit := fun s =>
  match handshakes s !! hs_state o with
  | Some _ => (s, Throw (UniqueViolation "state"))
  | None =>
      (log_event (Opened o l)
         (set_handshakes (fun m => <[hs_state o := mkHandshake o H_PENDING no_profile l None (w_clock s)]> m) s), Ok tt)
  end.

(** [walletAuthHandshake.updateMany({ where: { state, status }, data })] *)
Definition update_handshake (state : string) (st : WalletAuthHandshakeStatus) (data : Z -> Handshake -> Handshake)
    (e : option Event) : svc Wallets nat := fun s =>
  match handshakes s !! state with
  | Some h =>
      if bool_decide (hs_status h = st)
      then (let s' := set_handshakes (fun m => <[state := data (w_clock s) h]> m) s in
            match e with Some e => log_event e s' | None => s' end, Ok 1%nat)
      else (s, Ok 0%nat)
  | None => (s, Ok 0%nat)
  end.

(** [walletLoginCode.create]: [claimHash] is unique, [sentAt] the moment, [attempts] 0. *)
Definition create_code `{Node} (claimToken : string) (code : Z) (email : string) (name avatar : option string)
    (m : WalletAuthMethod) (idToken : option string) (expiresAt : Z) : svc Wallets unit := fun s =>
  let r := mkLoginCode email name avatar m (sha256Hex claimToken) (sha256Hex (sixDigitCode code)) 0 L_PENDING
             (w_clock s) expiresAt idToken in
  match codes s !! claimHash r with
  | Some _ => (s, Throw (UniqueViolation "claimHash"))
  | None => (log_event (Minted claimToken code r) (set_codes (fun m => <[claimHash r := r]> m) s), Ok tt)
  end.

(** [walletLoginCode.update({ where: { id }, data })]; throws when the row is gone. *)
Definition update_code (key : string) (data : LoginCode -> LoginCode) : svc Wallets unit := fun s =>
  match codes s !! key with
  | Some r => (set_codes (fun m => <[key := data r]> m) s, Ok tt)
  | None => (s, Throw JsError)
  end.

(** [walletLoginCode.updateMany({ where: { id, status: PENDING }, data })] of a claim. *)
Definition claim_code (key : string) (n : Z) : svc Wallets nat := fun s =>
  match codes s !! key with
  | Some r =>
      if bool_decide (lc_status r = L_PENDING)
      then (log_event (Claimed key) (set_codes (fun m => <[key := set_spent n L_CLAIMED r]> m) s), Ok 1%nat)
      else (s, Ok 0%nat)
  | None => (s, Ok 0%nat)
  end.

Definition code_rows (s : Wallets) : list LoginCode := (map_to_list (codes s)).*2.
Definition backup_rows (s : Wallets) : list WalletBackup := (map_to_list (backups s)).*2.

Definition newest_first (a b : WalletBackup) : Prop := bk_updatedAt b <= bk_updatedAt a.
#[export] Instance newest_first_dec a b : Decision (newest_first a b).
Proof. unfold newest_first. apply _. Defined.

(** [backups: { orderBy: { updatedAt: 'desc' } }] of an account. *)
Definition backups_of (s : Wallets) (account : string) : list WalletBackup :=
  merge_sort newest_first (List.filter (fun b => bool_decide (bk_account b = account)) (backup_rows s)).

(** [walletAccount.findUnique({ where: { email }, include: { backups } })] *)
Definition find_account (email : string) : method (option (WalletAccount * list WalletBackup)) :=
  asking (fun s => a ← accounts s !! email; Some (a, backups_of s (wa_id a))).

Definition backup_key (account : string) (chain : Chain) (address : string) : string * string * string :=
  (account, chain_name chain, address).

(** [walletBackup.upsert] *)
Definition upsert_backup (account : string) (chain : Chain) (address box : string) : svc Wallets unit := fun s =>
  (set_backups (fun m => <[backup_key account chain address := mkWalletBackup account chain address box (w_clock s)]> m) s,
   Ok tt).
