(* ===== verification/WalletAuth.v ===== *)
(** The wallet sign-in, method by method:
    src/src/wallet-auth/wallet-auth.service.ts and
    wallet-auth-sweeper.service.ts. *)

From S2P Require Import Prelude Text MerchantFee Intents Links ChainAddress Programs Tokens Signatures Oidc WalletCore WalletStore.
From stdpp Require Import base tactics list option gmap strings sorting.
From Stdlib Require Import ZArith Lia Ascii.

Open Scope Z_scope.

Section service.
Context `{NODE : Node} `{VERIFY : NodeVerify} `{CURVES : Curves} `{ENV : WalletEnv}.

(** ** Configuration *)

Definition credentials (p : WalletAuthProvider) : option Credentials :=
  let pair := match p with
              | AUTHENTIK => if bool_decide (ws_issuer = ""%string) then mkCredentials "" "" else ws_oidc
              | GOOGLE => ws_google
              | GITHUB => ws_github
              end in
  if bool_decide (clientId pair = ""%string) || bool_decide (clientSecret pair = ""%string) then None else Some pair.

Definition configured (p : WalletAuthProvider) : bool :=
  match credentials p with Some _ => true | None => false end.

Definition emailAvailable : bool := mailer_configured && walletKeys_configured.

Record Providers := mkProviders {
  pv_providers : list string;
  pv_sources : list OidcSource;
  pv_email : bool;
  pv_mfaSettingsUrl : option string
}.

Definition providers : Providers :=
  mkProviders (List.map PROVIDER_WIRE (List.filter configured [AUTHENTIK; GOOGLE; GITHUB]))
    (if configured AUTHENTIK then default [] ws_sources else [])
    emailAvailable
    (if configured AUTHENTIK then mfaSettingsUrl ws_issuer AUTHENTIK_MFA_SETTINGS_PATH else None).

Definition requireBaseUrl : res string :=
  if bool_decide (ws_publicBaseUrl = ""%string) then Throw (unavailable Misconfigured) else Ok ws_publicBaseUrl.
Definition requireSessionSecret : res string :=
  if bool_decide (ws_sessionSecret = ""%string) then Throw (unavailable Misconfigured) else Ok ws_sessionSecret.

Definition discoverOidc : method OidcDiscovery :=
  if bool_decide (ws_issuer = ""%string) then Raise (unavailable WalletProviderUnavailable) else discover ws_issuer.

(** ** Opening a handshake *)

Record StartWalletOauthDto := mkStartDto {
  sd_provider : string;
  sd_codeChallenge : string;
  sd_source : option string;
  sd_returnTo : option string
}.

(** [v?.trim() || null] *)
Definition trimmed (v : option string) : option string :=
  match v with Some s => if bool_decide (trim s = ""%string) then None else Some (trim s) | None => None end.

Record OidcLeg := mkOidcLeg { ol_verifier : string; ol_nonce : string; ol_endpoint : string; ol_challenge : string }.

Definition startOauth (dto : StartWalletOauthDto) : method (string * string * Z) :=
  provider ← pure (res_of_option (badRequest WalletProviderUnavailable) (providerFromWire (sd_provider dto)));
  creds ← pure (res_of_option (unavailable WalletProviderUnavailable) (credentials provider));
  let source := trimmed (sd_source dto) in
  _ ← pure (throw_if
        match source with
        | Some s => negb (bool_decide (provider = AUTHENTIK))
                    || negb (existsb (fun x => bool_decide (slug x = s)) (default [] ws_sources))
        | None => false
        end (badRequest WalletProviderUnavailable));
  baseUrl ← pure requireBaseUrl;
  let to_ := trimmed (sd_returnTo dto) in
  _ ← pure (throw_if match to_ with Some u => negb (isReturnUrlAllowed u ws_returnUrls) | None => false end
              (badRequest WalletReturnUrlNotAllowed));
  n ← draw;
  let state := randomToken n in
  now ← asking w_clock;
  let expiresAt := now + HANDSHAKE_TTL_MS in
  oidc ← (if isOidcProvider provider then
            discovery ← discoverOidc;
            v ← draw;
            k ← draw;
            Ret (Some (mkOidcLeg (randomToken v) (randomToken k) (authorizationEndpoint discovery)
                         (sha256_base64url (randomToken v))))
          else Ret None);
  _ ← stmt (create_handshake (mkOpening state provider (sd_codeChallenge dto) to_ expiresAt)
              (mkLeg (ol_verifier <$> oidc) (ol_nonce <$> oidc)));
  request ← pure (authorizationUrl provider (clientId creds) (callbackUrl baseUrl provider) state
                    ((fun o => mkOidcAuthorization (ol_endpoint o) (ol_challenge o) (ol_nonce o)) <$> oidc));
  url ← pure (res_of_option (unavailable WalletProviderUnavailable)
                match source with Some s => sourceFlowUrl ws_issuer s request | None => Some request end);
  Ret (state, url, expiresAt).

(** ** Reading an identity *)

Record ReadIdentity := mkReadIdentity {
  ri_identity : ProviderIdentity;
  ri_emailVerified : bool;
  ri_idToken : option string
}.

(** [this.getJson]: the answer's text and value. *)
Definition getJson (url accessToken : string) : method (string * json) :=
  answer ← asking (fun s => http (outside s) (GetJson url accessToken));
  v ← pure (json_answer answer);
  Ret (match answer with Response _ body => body | NetworkError => ""%string end, v).

Definition exchangeCode (p : WalletAuthProvider) (endpoint code : string) (creds : Credentials)
    (codeVerifier : option string) : method (string * option string) :=
  base ← pure requireBaseUrl;
  answer ← asking (fun s => http (outside s) (ExchangeCode endpoint
    (app [("client_id", clientId creds); ("client_secret", clientSecret creds); ("code", code);
          ("grant_type", "authorization_code"); ("redirect_uri", callbackUrl base p)]
       (if truthy codeVerifier then [("code_verifier", default "" codeVerifier)] else []))%string));
  v ← pure (json_answer answer);
  token ← pure (res_of_option JsError (text_of (field "access_token" (fields_of v))));
  if bool_decide (token = ""%string) then Raise JsError
  else Ret (token, text_of (field "id_token" (fields_of v))).

Definition withoutIdToken (r : ProviderIdentity + IdentityFailure) : ReadIdentity + IdentityFailure :=
  match r with inl i => inl (mkReadIdentity i true None) | inr e => inr e end.

(** What the check of an ID token expects of a sign-in. *)
Definition sign_in_expectations (creds : Credentials) (nonce : string) : IdTokenExpectations :=
  mkExpectations ws_issuer [clientId creds] (Some nonce) (Some OIDC_MAX_AGE_S) None true.

Definition identity_of_claims (c : IdTokenClaims) : ProviderIdentity :=
  mkProviderIdentity (cl_email c) (cl_name c) (cl_picture c) (cl_sub c).

Definition readOidcIdentity (code : string) (creds : Credentials) (l : Leg)
    : method (ReadIdentity + IdentityFailure) :=
  match providerVerifier l, hs_nonce l with
  | Some verifier, Some nonce =>
      if bool_decide (verifier = ""%string) || bool_decide (nonce = ""%string) then Ret (inr profile_invalid)
      else
        discovery ← discoverOidc;
        token ← exchangeCode AUTHENTIK (tokenEndpoint discovery) code creds (Some verifier);
        match snd token with
        | None => Ret (inr profile_invalid)
        | Some idToken =>
            if bool_decide (idToken = ""%string) then Ret (inr profile_invalid)
            else
              result ← oidc_verify idToken (sign_in_expectations creds nonce);
              match result with
              | Refused _ => Ret (inr profile_invalid)
              | Verified claims =>
                  Ret (inl (mkReadIdentity (identity_of_claims claims) (cl_emailVerified claims)
                              (if cl_emailVerified claims then Some idToken else None)))
              end
        end
  | _, _ => Ret (inr profile_invalid)
  end.

Definition readIdentity (p : WalletAuthProvider) (code : string) (l : Leg)
    : method (ReadIdentity + IdentityFailure) :=
  match credentials p with
  | None => Ret (inr profile_invalid)
  | Some creds =>
      match p with
      | AUTHENTIK => readOidcIdentity code creds l
      | GOOGLE =>
          token ← exchangeCode GOOGLE (ep_token GOOGLE_ENDPOINTS) code creds None;
          profile ← getJson (ep_profile GOOGLE_ENDPOINTS) (fst token);
          Ret (withoutIdToken (googleIdentity (snd profile)))
      | GITHUB =>
          token ← exchangeCode GITHUB (ep_token GITHUB_ENDPOINTS) code creds None;
          profile ← getJson (ep_profile GITHUB_ENDPOINTS) (fst token);
          emails ← getJson (default "" (ep_emails GITHUB_ENDPOINTS)) (fst token);
          Ret (withoutIdToken (githubIdentity (fst profile) (snd profile) (snd emails)))
      end
  end.

(** ** ID tokens at rest *)

Definition ID_TOKEN_PURPOSE : string := "wallet-auth-id-token".

Definition sealIdToken (idToken : string) : method string :=
  secret ← pure requireSessionSecret;
  n ← draw;
  pure (sealJson (randomIv n) (JObject [("idToken"%string, JString idToken)]) secret ID_TOKEN_PURPOSE).

Definition openIdToken (sealed : option string) : res (option string) :=
  if truthy sealed then
    secret ← requireSessionSecret;
    Ok (box ← openJson (default "" sealed) secret ID_TOKEN_PURPOSE; text_of (field "idToken" (fields_of box)))
  else Ok None.

(** ** The provider's callback *)

Record CallbackParams := mkCallback { cb_code : option string; cb_state : option string; cb_error : option string }.
Record CallbackOutcome := mkOutcome { oc_reason : string; redirectTo : option Redirect }.
Definition oc_ok (o : CallbackOutcome) : bool := bool_decide (oc_reason o = "ok"%string).

Definition returnTarget (to_ : option string) : option string :=
  match to_ with
  | Some u => if negb (bool_decide (u = ""%string)) && isReturnUrlAllowed u ws_returnUrls then Some u else None
  | None => None
  end.

Definition callbackOutcome (target : option string) (state reason : string) (binding : option string) : CallbackOutcome :=
  mkOutcome reason ((fun t => returnRedirectUrl t state reason binding) <$> target).

Definition failHandshake (state reason : string) : method unit :=
  discard (stmt (update_handshake state H_PENDING
    (fun now h => mkHandshake (opening h) H_FAILED (profile h) no_leg (Some reason) now) None)).

Definition authorize (p : Profile) (now : Z) (h : Handshake) : Handshake :=
  mkHandshake (opening h) H_AUTHORIZED p no_leg (failure h) now.

Definition handleCallback (providerWire : string) (params : CallbackParams) : method CallbackOutcome :=
  match providerFromWire providerWire, trimmed (cb_state params) with
  | Some provider, Some state =>
      found ← asking (fun s => (handshakes s !! state, w_clock s));
      let handshake := fst found in
      let target := returnTarget (h ← handshake;
                                  if bool_decide (hs_provider (opening h) = provider) then returnTo (opening h) else None) in
      let outcome := callbackOutcome target state in
      match handshake with
      | None => Ret (outcome "expired"%string None)
      | Some h =>
          if negb (bool_decide (hs_provider (opening h) = provider)) || negb (bool_decide (hs_status h = H_PENDING))
             || (hs_expiresAt (opening h) <? snd found)
          then Ret (outcome "expired"%string None)
          else if truthy (cb_error params) || negb (truthy (cb_code params)) then
            _ ← failHandshake state "denied"; Ret (outcome "denied"%string None)
          else
            identity ← catching
              (r ← readIdentity provider (default "" (cb_code params)) (leg h); Ret (Some r)) (fun _ => Ret None);
            match identity with
            | None => _ ← failHandshake state "failed"; Ret (outcome "failed"%string None)
            | Some (inr e) => _ ← failHandshake state (failure_text e); Ret (outcome (failure_text e) None)
            | Some (inl r) =>
                binding ← (if bool_decide (is_Some target) && bool_decide (provider = AUTHENTIK) && ri_emailVerified r
                              && authentikProvedInbox (ri_idToken r)
                           then n ← draw; Ret (Some (randomToken n)) else Ret None);
                sealed ← (if truthy (ri_idToken r)
                          then x ← sealIdToken (default "" (ri_idToken r)); Ret (Some x) else Ret None);
                let i := ri_identity r in
                let p := mkProfile (Some (pi_email i)) (pi_name i) (pi_avatar i) (Some (pi_subject i))
                           (ri_emailVerified r) sealed (sha256Hex <$> binding) in
                count ← stmt (update_handshake state H_PENDING (authorize p)
                                (Some (Authorized state (default "" (cb_code params)) p binding)));
                if negb (count =? 1)%nat then Ret (outcome "expired"%string None) else Ret (outcome "ok"%string binding)
            end
      end
  | _, _ => Ret (mkOutcome "expired" None)
  end.

(** ** Polling *)

Inductive PollStatus :=
  | PollExpired | PollPending | PollAuthorized (bound : bool) | PollRedeemed | PollFailed (error : string).

Definition pollStatus (state : string) : method PollStatus :=
  found ← asking (fun s => (handshakes s !! state, w_clock s));
  match fst found with
  | None => Ret PollExpired
  | Some h =>
      Ret match hs_status h with
          | H_PENDING => if hs_expiresAt (opening h) <? snd found then PollExpired else PollPending
          | H_AUTHORIZED => PollAuthorized (truthy (bindingHash (profile h)))
          | H_REDEEMED => PollRedeemed
          | H_FAILED => PollFailed (default "failed"%string (failure h))
          | H_EXPIRED => PollExpired
          end
  end.

(** ** Codes by mail *)

Definition assertCanSendCode (email : string) : method unit :=
  recent ← asking (fun s => existsb (fun r => bool_decide (lc_email r = email) && bool_decide (lc_status r = L_PENDING)
                                              && (w_clock s - LOGIN_CODE_RESEND_MS <? sentAt r)) (code_rows s));
  if (recent : bool) then Raise (badRequest WalletLoginCodeCooldown)
  else
    today ← asking (fun s => length (List.filter (fun r => bool_decide (lc_email r = email)
                                                          && (w_clock s - 24 * 60 * 60 * 1000 <? sentAt r)) (code_rows s)));
    if (LOGIN_CODE_DAILY_CAP <=? today)%nat then Raise (badRequest WalletLoginCodeCooldown) else Ret tt.

(** The message carries [code]; a failure to send it fails the call. *)
Definition deliverCode (email code : string) : method unit :=
  if negb mailer_configured then Raise (unavailable Misconfigured)
  else stmt (fun s => if mail_sent (outside s) email then (log_mail email code s, Ok tt)
                      else (s, Throw (unavailable Misconfigured))).

Definition mintLoginCode (identity : WalletAuthIdentity) (idToken : option string) : method string :=
  n ← draw;
  c ← draw;
  now ← asking w_clock;
  _ ← stmt (create_code (randomToken n) (randomCode c) (id_email identity) (id_name identity) (id_avatar identity)
              (id_method identity) idToken (now + LOGIN_CODE_TTL_MS));
  _ ← deliverCode (id_email identity) (sixDigitCode (randomCode c));
  Ret (randomToken n).

Definition startEmail (email : string) : method string :=
  let email := normalizeEmail email in
  _ ← assertCanSendCode email;
  existing ← asking (fun s => accounts s !! email);
  mintLoginCode (mkIdentity email (wa_name <$> existing) (a ← existing; wa_avatar a) M_EMAIL) None.

(** ** A proven email *)

Definition view_of (b : WalletBackup) : option BackupView :=
  box ← cipher_open ws_keyring (bk_box b) (chain_name (bk_chain b)) (bk_address b);
  Some (mkBackupView (bk_chain b) (bk_address b) box (bk_updatedAt b)).

Definition readyPayload (identity : WalletAuthIdentity) (account : option (WalletAccount * list WalletBackup))
    (idToken : option string) : method ReadyPayload :=
  let boxes := omap view_of (default [] (snd <$> account)) in
  secret ← pure requireSessionSecret;
  n ← draw;
  now ← asking w_clock;
  token ← pure (issueSessionToken (randomIv n) identity secret now);
  Ret (mkReady identity (bool_decide (is_Some account)) boxes token (if truthy idToken then idToken else None)).

(** ** Redeeming a handshake *)

Definition redeem (now : Z) (h : Handshake) : Handshake :=
  let p := profile h in
  mkHandshake (opening h) H_REDEEMED
    (mkProfile (hs_email p) (hs_name p) (hs_avatar p) (hs_subject p) (hs_emailVerified p) None None)
    (leg h) (failure h) now.

Definition claimOauth (dto : ClaimWalletOauthDto) : method ClaimReply :=
  found ← asking (fun s => (handshakes s !! cd_state dto, w_clock s));
  match fst found with
  | None => Ret ClaimExpired
  | Some h =>
      match hs_status h with
      | H_PENDING => Ret (if hs_expiresAt (opening h) <? snd found then ClaimExpired else ClaimPending)
      | H_FAILED => Ret (ClaimFailed (default "failed"%string (failure h)))
      | H_REDEEMED | H_EXPIRED => Ret ClaimExpired
      | H_AUTHORIZED =>
          if negb (pkceMatches (cd_codeVerifier dto) (codeChallenge (opening h)))
          then Raise (badRequest WalletVerifierInvalid)
          else
            let p := profile h in
            _ ← (if negb (hs_emailVerified p) && truthy (hs_email p)
                 then assertCanSendCode (normalizeEmail (default "" (hs_email p))) else Ret tt);
            count ← stmt (update_handshake (cd_state dto) H_AUTHORIZED redeem (Some (Redeemed (cd_state dto))));
            if negb (count =? 1)%nat then Ret ClaimExpired
            else
              let email := normalizeEmail (default "" (hs_email p)) in
              if bool_decide (email = ""%string) then Ret (ClaimFailed "profile_invalid")
              else
                let identity := mkIdentity email (hs_name p) (hs_avatar p) (methodOfProvider (hs_provider (opening h))) in
                account ← find_account email;
                idToken ← pure (openIdToken (hs_idToken p));
                if bool_decide (is_Some account) && hs_emailVerified p && authentikProvedInbox idToken
                   && bindingMatches (cd_binding dto) (bindingHash p)
                then r ← readyPayload identity account idToken; Ret (ClaimReady r)
                else if bool_decide (is_Some account) || cd_recovery dto || negb (hs_emailVerified p) then
                  claimToken ← mintLoginCode identity (hs_idToken p);
                  Ret (ClaimVerifyEmail claimToken email)
                else r ← readyPayload identity None None; Ret (ClaimReady r)
      end
  end.

(** ** Answering a code *)

Definition verifyEmail (dto : VerifyWalletEmailDto) : method VerifyReply :=
  let key := sha256Hex (vd_claimToken dto) in
  found ← asking (fun s => (codes s !! key, w_clock s));
  match fst found with
  | None => Ret VerifyExpired
  | Some row =>
      if bool_decide (lc_status row = L_LOCKED) then Ret VerifyLocked
      else if negb (bool_decide (lc_status row = L_PENDING)) || (lc_expiresAt row <? snd found) then Ret VerifyExpired
      else
        let n := attempts row + 1 in
        if negb (bool_decide (sha256Hex (vd_code dto) = codeHash row)) then
          let locked := LOGIN_CODE_MAX_ATTEMPTS <=? n in
          _ ← stmt (update_code key (set_guess n (if locked then L_LOCKED else L_PENDING)));
          Ret (if locked then VerifyLocked else VerifyInvalid (LOGIN_CODE_MAX_ATTEMPTS - n))
        else
          count ← stmt (claim_code key n);
          if negb (count =? 1)%nat then Ret VerifyExpired
          else
            let identity := mkIdentity (lc_email row) (lc_name row) (lc_avatar row) (via row) in
            account ← find_account (lc_email row);
            idToken ← pure (openIdToken (lc_idToken row));
            r ← readyPayload identity account idToken;
            Ret (VerifyReady r)
  end.
End service.

Section accounts.
Context `{NODE : Node} `{CURVES : Curves} `{ENV : WalletEnv}.

(** ** The account a request names *)

Record AccountNamed := mkNamed {
  nd_chain : option Chain;
  nd_address : option string;
  nd_stellarAddress : option string
}.

Definition accountOf (dto : AccountNamed) : res (Chain * string) :=
  let chain := default stellar (nd_chain dto) in
  match nd_stellarAddress dto with
  | Some a =>
      if negb (bool_decide (chain = stellar))
         || match nd_address dto with Some b => negb (bool_decide (b = a)) | None => false end
      then Throw (badRequest ValidationFailed)
      else Ok (chain, a)
  | None =>
      match nd_address dto with
      | None => Throw (badRequest ValidationFailed)
      | Some a => Ok (chain, stored_address chain a)
      end
  end.

(** ** Who signed *)

Definition signedForAccount (chain : Chain) (address message signature : string) (network : option string)
    : method bool :=
  if negb (bool_decide (chain = stellar)) then Ret (verifyMessageSignature chain address message signature)
  else if verifyWalletSignature address message signature then Ret true
  else if negb (isStellarAddress address) then Ret false
  else
    account ← catching
      (answer ← asking (fun s => horizon (outside s) (signersHorizonUrls (default signersNetwork network)) address);
       pure (fetchAccountSigners answer))
      (fun _ => Raise (unavailable ProviderUnavailable));
    match account with
    | None => Ret false
    | Some a => Ret (signedByCurrentSigner a (fun key => verifyWalletSignature key message signature))
    end.

(** ** Finishing a sign-in *)

Record FinishWalletSignInDto := mkFinishDto {
  fd_account : AccountNamed;
  fd_signedAt : string;
  fd_signature : string;
  fd_backup : option string;
  fd_network : option string
}.

Inductive FinishReply := Finished (linked : bool) (keys : WalletKeys).

(** [walletAccount.upsert]; what [update] writes moves the address with [moves]. *)
Definition upsert_account (identity : WalletAuthIdentity) (chain : Chain) (address : string) (moves : bool)
    : svc Wallets WalletAccount := fun s =>
  let name := fallbackName (id_email identity) (id_name identity) in
  let a := match accounts s !! id_email identity with
           | None => mkWalletAccount (wallet_cuid (w_drawn s)) (id_email identity) name (id_avatar identity)
                       (id_method identity) chain address
           | Some a => mkWalletAccount (wa_id a) (wa_email a) name (id_avatar identity) (id_method identity)
                         (if moves then chain else wa_chain a) (if moves then address else wa_address a)
           end in
  (set_w_drawn (S (w_drawn s)) (set_accounts (fun m => <[id_email identity := a]> m) s), Ok a).

Definition sealed_backup (box : string) (chain : Chain) (address : string) : method string :=
  n ← draw; pure (cipher_seal ws_keyring (randomIv n) box (chain_name chain) address).

Definition is_backup_for (chain : Chain) (address : string) (b : WalletBackup) : bool :=
  bool_decide (bk_chain b = chain) && bool_decide (bk_address b = address).

Definition finish (sessionToken : string) (dto : FinishWalletSignInDto) : method FinishReply :=
  secret ← pure requireSessionSecret;
  now ← asking w_clock;
  identity ← pure (res_of_option (unauthorized WalletSessionInvalid) (readSessionToken sessionToken secret now));
  _ ← pure (throw_if (negb (signedAtFresh (fd_signedAt dto) now)) (badRequest WalletSignatureInvalid));
  named ← pure (accountOf (fd_account dto));
  let chain := fst named in
  let address := snd named in
  signed ← signedForAccount chain address (finishMessage (id_email identity) address (fd_signedAt dto) chain)
             (fd_signature dto) (fd_network dto);
  _ ← pure (throw_if (negb signed) (badRequest WalletSignatureInvalid));
  _ ← pure (throw_if match fd_backup dto with Some b => negb (isBackupBox b) | None => false end
              (badRequest WalletBackupInvalid));
  existing ← find_account (id_email identity);
  let writesBackup := bool_decide (is_Some (fd_backup dto)) in
  _ ← pure (throw_if
        (writesBackup && match existing with
                         | Some (_, bs) => negb (existsb (is_backup_for chain address) bs)
                                           && (WALLET_MAX_BACKUPS <=? length bs)%nat
                         | None => false
                         end) (badRequest WalletBackupLimit));
  account ← stmt (upsert_account identity chain address (writesBackup || negb (bool_decide (is_Some existing))));
  _ ← match fd_backup dto with
      | Some box => sealed ← sealed_backup box chain address; stmt (upsert_backup (wa_id account) chain address sealed)
      | None => Ret tt
      end;
  answer ← asking (fun s => provision (outside s) (wa_id account) (id_email identity));
  keys ← pure answer;
  Ret (Finished (bool_decide (is_Some existing)) keys).

(** ** Replacing a box *)

Record ReplaceWalletBackupDto := mkReplaceDto {
  rb_account : AccountNamed;
  rb_box : string;
  rb_signedAt : string;
  rb_signature : string;
  rb_network : option string
}.

(** [walletBackup.update({ where: { id }, data: { box } })]; throws when it is gone. *)
Definition update_backup (key : string * string * string) (box : string) : svc Wallets (Chain * string * Z) := fun s =>
  match backups s !! key with
  | Some b =>
      (set_backups (fun m => <[key := mkWalletBackup (bk_account b) (bk_chain b) (bk_address b) box (w_clock s)]> m) s,
       Ok (bk_chain b, bk_address b, w_clock s))
  | None => (s, Throw JsError)
  end.

Definition replaceBackupBox (dto : ReplaceWalletBackupDto) : method (Chain * string * Z) :=
  now ← asking w_clock;
  _ ← pure (throw_if (negb (signedAtFresh (rb_signedAt dto) now)) (badRequest WalletSignatureInvalid));
  _ ← pure (throw_if (negb (isBackupBox (rb_box dto))) (badRequest WalletBackupInvalid));
  named ← pure (accountOf (rb_account dto));
  let chain := fst named in
  let address := snd named in
  signed ← signedForAccount chain address (backupMessage address (rb_box dto) (rb_signedAt dto) chain)
             (rb_signature dto) (rb_network dto);
  _ ← pure (throw_if (negb signed) (badRequest WalletSignatureInvalid));
  backup ← asking (fun s => List.find (is_backup_for chain address) (backup_rows s));
  backup ← pure (res_of_option (ApiError 404 WalletAccountMismatch) backup);
  sealed ← sealed_backup (rb_box dto) chain address;
  stmt (update_backup (backup_key (bk_account backup) chain address) sealed).

(** ** Paying for a recovery setup *)

Record SponsorRecoverySetupDto := mkSponsorDto {
  sr_stellarAddress : string;
  sr_signers : string * string;
  sr_signedAt : string;
  sr_signature : string;
  sr_network : option string
}.

Definition sponsor_ledger (network : option string) : res SponsorLedger :=
  res_of_option (unavailable Misconfigured)
    match network with Some n => sponsorNetworks n | None => Some sponsorLedger end.

Definition sponsorRecoverySetup (sessionToken : string) (dto : SponsorRecoverySetupDto) : method SetupTransaction :=
  _ ← pure (throw_if (bool_decide (sponsorSecret = ""%string)) (unavailable Misconfigured));
  ledger ← pure (sponsor_ledger (sr_network dto));
  secret ← pure requireSessionSecret;
  now ← asking w_clock;
  identity ← pure (res_of_option (unauthorized WalletSessionInvalid) (readSessionToken sessionToken secret now));
  let account := sr_stellarAddress dto in
  let a := fst (sr_signers dto) in
  let b := snd (sr_signers dto) in
  _ ← pure (throw_if (bool_decide (a = b) || bool_decide (a = account) || bool_decide (b = account)
                      || negb (isStellarAddress a) || negb (isStellarAddress b)) (badRequest WalletSignatureInvalid));
  _ ← pure (throw_if (negb (signedAtFresh (sr_signedAt dto) now)) (badRequest WalletSignatureInvalid));
  answer ← asking (fun s => horizon (outside s) (horizonUrl ledger) account);
  body ← pure match answer with
              | AccountBody body => Ok body
              | Account404 => Throw (conflict WalletRecoverySetupRefused)
              | AccountFails => Throw (unavailable ProviderUnavailable)
              end;
  sequence ← pure (res_of_option (unavailable Misconfigured)
                     (s ← ha_sequence body; if is_digits s then Some s else None));
  deviceKey ← pure (res_of_option (conflict WalletRecoverySetupRefused)
                      (sponsorableDeviceKey account (account_signers (parseAccountSigners body))));
  _ ← pure (throw_if (bool_decide (a = deviceKey) || bool_decide (b = deviceKey)) (badRequest WalletSignatureInvalid));
  _ ← pure (throw_if (negb (verifyWalletSignature deviceKey (recoverySetupMessage account a b (sr_signedAt dto))
                              (sr_signature dto))) (badRequest WalletSignatureInvalid));
  Ret (buildSponsoredRecoverySetup account deviceKey a b (networkPassphrase ledger) sequence sponsorPublicKey).
End accounts.

(** ** The sweeper (wallet-auth-sweeper.service.ts) *)

Definition handshake_rows (s : Wallets) : list (string * Handshake) := map_to_list (handshakes s).

Definition stale_handshake (now : Z) (h : Handshake) : bool :=
  (bool_decide (hs_status h = H_PENDING) || bool_decide (hs_status h = H_AUTHORIZED))
  && (hs_expiresAt (opening h) <? now).
Definition stale_code (now : Z) (r : LoginCode) : bool :=
  bool_decide (lc_status r = L_PENDING) && (lc_expiresAt r <? now).

Definition older_handshake (a b : string * Handshake) : Prop :=
  hs_expiresAt (opening (snd a)) <= hs_expiresAt (opening (snd b)).
#[export] Instance older_handshake_dec a b : Decision (older_handshake a b).
Proof. unfold older_handshake. apply _. Defined.
Definition older_code (a b : string * LoginCode) : Prop := lc_expiresAt (snd a) <= lc_expiresAt (snd b).
#[export] Instance older_code_dec a b : Decision (older_code a b).
Proof. unfold older_code. apply _. Defined.

(** [data] of the expiry; the binding's hash stays. *)
Definition expired_handshake (now : Z) (h : Handshake) : Handshake :=
  mkHandshake (opening h) H_EXPIRED
    (mkProfile None None None None (hs_emailVerified (profile h)) None (bindingHash (profile h))) no_leg (failure h) now.

(** [updateMany({ where: { id: { in: keys } }, data })] *)
Definition update_many {A} (keys : list string) (f : A -> A) (m : gmap string A) : gmap string A :=
  map_imap (fun k x => Some (if bool_decide (k ∈ keys) then f x else x)) m.

Definition expireHandshakes : method unit :=
  stale ← asking (fun s => (take WALLET_AUTH_SWEEP_BATCH_SIZE
    (merge_sort older_handshake (List.filter (fun x => stale_handshake (w_clock s) (snd x)) (handshake_rows s)))).*1);
  match stale with
  | [] => Ret tt
  | _ => stmt (fun s => (set_handshakes (update_many stale (expired_handshake (w_clock s))) s, Ok tt))
  end.

Definition expireLoginCodes : method unit :=
  stale ← asking (fun s => (take WALLET_AUTH_SWEEP_BATCH_SIZE
    (merge_sort older_code (List.filter (fun x => stale_code (w_clock s) (snd x)) (map_to_list (codes s))))).*1);
  match stale with
  | [] => Ret tt
  | _ => stmt (fun s => (set_codes (update_many stale (fun r => set_spent (attempts r) L_EXPIRED r)) s, Ok tt))
  end.

Definition spent_handshake (cutoff : Z) (h : Handshake) : bool :=
  bool_decide (hs_status h ∈ [H_REDEEMED; H_FAILED; H_EXPIRED]) && (hs_updatedAt h <? cutoff).
Definition spent_code (cutoff : Z) (r : LoginCode) : bool :=
  bool_decide (lc_status r ∈ [L_CLAIMED; L_LOCKED; L_EXPIRED]) && (lc_expiresAt r <? cutoff).

Definition deleteSpent : method unit :=
  now ← asking w_clock;
  let cutoff := now - WALLET_AUTH_SWEEP_GRACE_MS in
  _ ← stmt (fun s => (set_handshakes (filter (fun x => spent_handshake cutoff (snd x) = false)) s, Ok tt));
  stmt (fun s => (set_codes (filter (fun x => spent_code cutoff (snd x) = false)) s, Ok tt)).

Definition wallet_sweep : method unit :=
  _ ← expireHandshakes;
  _ ← expireLoginCodes;
  deleteSpent.
