(* ===== verification/WalletSafety.v ===== *)
(** The wallet sign-in under concurrency: what stands behind an identity read from
    a provider ([provider_said]), behind a session answered to a claim
    ([claim_rests]) or to a code ([verify_proof]), and the invariant every request
    and sweep keeps in any interleaving. *)

From S2P Require Import Prelude Text MerchantFee Intents Links ChainAddress Programs Tokens Signatures Oidc OidcSafety WalletCore WalletStore WalletAuth.
From stdpp Require Import base tactics list option gmap strings sorting.
From Stdlib Require Import ZArith Lia Ascii.

Open Scope Z_scope.

Section safety.
Context `{NODE : Node} {LAWS : NodeLaws} `{VERIFY : NodeVerify} `{CURVES : Curves} `{ENV : WalletEnv}.

(** The states of the outside the service has met; an initialization vector is
    never empty. *)
Context (moment : Outside -> Prop) (iv_drawn : forall n, randomIv n <> ""%string).

(** The emails that had an account before. *)
Context (holder : string -> Prop).

(** ** Evidence *)

Definition document_answered (url : string) (a : HttpAnswer) : Prop := exists w, moment w /\ a = oidc_document w url.
(** The keys of the configured issuer. *)
Definition published (ks : list Jwk) : Prop := OidcSafety.published document_answered ws_issuer ks.
(** A JSON document the service was answered, with its text. *)
Definition heard (rq : HttpRequest) (text : string) (v : json) : Prop :=
  exists w st, moment w /\ http w rq = Response st text /\ 200 <= st <= 299 /\ JSON_parse text = Some v.

(** The tokens an authorization code was exchanged for. *)
Definition exchanged (endpoint code : string) (form : list (string * string)) (tokens : json) : Prop :=
  exists body text, heard (ExchangeCode endpoint body) text tokens /\ ("code"%string, code) ∈ body /\ form ⊆ body.

(** An account read with the access token a code was exchanged for. *)
Definition read_as (endpoint code url : string) (v : json) : Prop :=
  exists tokens access text, exchanged endpoint code [] tokens
    /\ field "access_token" (fields_of tokens) = Some (JString access) /\ access <> ""%string
    /\ heard (GetJson url access) text v.

(** A verified address in GitHub's list of them. *)
Definition verified_address (e : json) (email : string) : Prop :=
  field "verified" (fields_of e) = Some (JBool true) /\ says (fields_of e) "email" email.
Definition primary (e : json) : Prop := field "primary" (fields_of e) = Some (JBool true).

(** The provider's word, for the code its callback brought: an identity, whether
    the provider confirmed its email, and the ID token that says so. Google's and
    GitHub's account is read with the access token of that code, Google's email is
    one it calls verified, GitHub's a verified address, the primary one if that is
    verified; Authentik's ID token comes with the exchange of that code under the
    handshake's own verifier, and when it was checked it attested the sign-in to
    this client, with the handshake's nonce, at most five minutes old. *)
Inductive provider_said (tr : list Event) : WalletAuthProvider -> string -> Leg -> ProviderIdentity -> bool -> option string -> Prop :=
  | google_said code l u i email :
      read_as "https://oauth2.googleapis.com/token" code "https://openidconnect.googleapis.com/v1/userinfo" u ->
      field "email_verified" (fields_of u) = Some (JBool true) ->
      says (fields_of u) "email" email -> pi_email i = toLowerCase email -> says (fields_of u) "sub" (pi_subject i) ->
      provider_said tr GOOGLE code l i true None
  | github_said code l addresses e i email :
      read_as "https://github.com/login/oauth/access_token" code "https://api.github.com/user/emails" (JArray addresses) ->
      e ∈ addresses -> verified_address e email -> pi_email i = toLowerCase email ->
      (forall e' email', e' ∈ addresses -> verified_address e' email' -> primary e' -> primary e) ->
      provider_said tr GITHUB code l i true None
  | authentik_said code l d tokens verifier nonce ks token now claims :
      OidcSafety.described document_answered ws_issuer d -> hs_nonce l = Some nonce -> providerVerifier l = Some verifier ->
      exchanged (tokenEndpoint d) code [("code_verifier"%string, verifier)] tokens ->
      field "id_token" (fields_of tokens) = Some (JString token) -> published ks -> TokenChecked token now ∈ tr ->
      attests token ks (mkExpectations ws_issuer [clientId ws_oidc] (Some nonce) (Some 300) None true) now claims ->
      provider_said tr AUTHENTIK code l
        (mkProviderIdentity (cl_email claims) (cl_name claims) (cl_picture claims) (cl_sub claims)) (cl_emailVerified claims)
        (if cl_emailVerified claims then Some token else None).

(** An ID token whose claims mark the inbox proven. *)
Definition marks_inbox (token : string) : Prop :=
  exists h p sig c, split_on "." token = [h; p; sig] /\ JSON_parse (from_base64url p) = Some (JObject c)
    /\ field "cosmos_inbox_proven" c = Some (JBool true).

(** A URL of a wallet: the origin and path of one of the configured ones, whatever
    the port of a loopback one. *)
Definition wallet_url (url : string) : Prop :=
  exists entry e u, entry ∈ ws_returnUrls /\ new_URL entry = Some e /\ new_URL url = Some u
    /\ protocol e = protocol u /\ hostname e = hostname u /\ pathname e = pathname u
    /\ (port e = port u \/ protocol e = "http:"%string /\ hostname e ∈ ["127.0.0.1"; "[::1]"]%string).

Definition sealed_from (raw sealed : string) : Prop :=
  exists iv, iv <> ""%string /\ sealJson iv (JObject [("idToken"%string, JString raw)]) ws_sessionSecret ID_TOKEN_PURPOSE = Ok sealed.

(** What a callback with [code] may write on the handshake [o] opened. *)
Definition vouched (tr : list Event) (o : Opening) (l : Leg) (code : string) (p : Profile) (binding : option string) : Prop :=
  exists i raw,
    provider_said tr (hs_provider o) code l i (hs_emailVerified p) raw /\ hs_email p = Some (pi_email i)
    /\ match raw with Some t => exists x, hs_idToken p = Some x /\ sealed_from t x | None => hs_idToken p = None end
    /\ bindingHash p = sha256Hex <$> binding
    /\ (is_Some binding -> (exists t, raw = Some t /\ marks_inbox t)
          /\ exists url, returnTo o = Some url /\ wallet_url url).

(** [t] is the ID token a row carries, and [out] the one an answer hands out. *)
Definition carried (sealed t out : option string) : Prop :=
  openIdToken sealed = Ok t /\ out = if truthy t then t else None.

(** The session an answer hands out is for the identity it names. *)
Definition session_for (r : ReadyPayload) : Prop :=
  exists iv now, issueSessionToken iv (rp_identity r) ws_sessionSecret now = Ok (rp_sessionToken r).

Definition claim_rests (tr : list Event) (dto : ClaimWalletOauthDto) (r : ReadyPayload) : Prop :=
  exists o l code p b,
    Opened o l ∈ tr /\ hs_state o = cd_state dto /\ codeChallenge o = sha256_base64url (cd_codeVerifier dto)
    /\ Authorized (cd_state dto) code p b ∈ tr /\ Redeemed (cd_state dto) ∈ tr
    /\ hs_emailVerified p = true /\ id_email (rp_identity r) = normalizeEmail (default "" (hs_email p))
    /\ session_for r /\ (holder (id_email (rp_identity r)) -> rp_existing r = true)
    /\ (rp_existing r = true \/ rp_backups r <> [] \/ is_Some (rp_idToken r) ->
        exists t, carried (hs_idToken p) t (rp_idToken r) /\ authentikProvedInbox t = true
          /\ bindingMatches (cd_binding dto) (bindingHash p) = true).

Definition verify_proof (tr : list Event) (dto : VerifyWalletEmailDto) (r : ReadyPayload) : Prop :=
  exists ct code row,
    Minted ct code row ∈ tr /\ sha256Hex (vd_claimToken dto) = sha256Hex ct
    /\ sha256Hex (vd_code dto) = sha256Hex (padStart 6 (toString code))
    /\ id_email (rp_identity r) = lc_email row /\ session_for r /\ exists t, carried (lc_idToken row) t (rp_idToken r).

(** ** The invariant *)

Definition event_ok (tr : list Event) (e : Event) : Prop :=
  match e with
  | Authorized st code p b => exists o l, Opened o l ∈ tr /\ hs_state o = st /\ vouched tr o l code p b
  | Minted ct code r => claimHash r = sha256Hex ct /\ codeHash r = sha256Hex (sixDigitCode code)
  | AnsweredClaim dto (ClaimReady r) => claim_rests tr dto r
  | AnsweredVerify dto (VerifyReady r) => verify_proof tr dto r
  | _ => True
  end.

Record handshake_ok (tr : list Event) (st : string) (h : Handshake) : Prop := {
  hk_state : hs_state (opening h) = st;
  hk_opened : exists l, Opened (opening h) l ∈ tr;
  hk_leg : hs_status h = H_PENDING -> Opened (opening h) (leg h) ∈ tr;
  hk_authorized : hs_status h = H_AUTHORIZED -> exists code b, Authorized st code (profile h) b ∈ tr
}.

(** A code's row is the one minted, or has lost its hash. *)
Definition code_ok (tr : list Event) (key : string) (r : LoginCode) : Prop :=
  exists ct code r0, Minted ct code r0 ∈ tr /\ claimHash r0 = key /\ lc_email r = lc_email r0
    /\ (codeHash r = ""%string \/ codeHash r = codeHash r0 /\ lc_idToken r = lc_idToken r0).

Definition mail_ok (tr : list Event) (m : string * string) : Prop :=
  exists ct code r, Minted ct code r ∈ tr /\ lc_email r = fst m /\ snd m = sixDigitCode code.

Definition tally (p : Event -> bool) (tr : list Event) : nat := length (List.filter p tr).
Definition opens (st : string) (e : Event) : bool :=
  match e with Opened o _ => bool_decide (hs_state o = st) | _ => false end.
Definition redeems (st : string) (e : Event) : bool :=
  match e with Redeemed x => bool_decide (x = st) | _ => false end.
(** A row that may still be redeemed. *)
Definition live (o : option Handshake) : nat :=
  match o with
  | Some h => match hs_status h with H_PENDING | H_AUTHORIZED => 1 | _ => 0 end
  | None => 0
  end.

Record wallets_ok (s : Wallets) : Prop := {
  ok_moment : moment (outside s);
  ok_caches : caches_ok document_answered (w_caches s);
  ok_handshakes : map_Forall (handshake_ok (trail s)) (handshakes s);
  ok_codes : map_Forall (code_ok (trail s)) (codes s);
  ok_events : Forall (event_ok (trail s)) (trail s);
  ok_mail : Forall (mail_ok (trail s)) (mailed s);
  ok_once : forall st, (tally (redeems st) (trail s) + live (handshakes s !! st) <= tally (opens st) (trail s))%nat;
  ok_holders : forall email, holder email -> is_Some (accounts s !! email)
}.

Definition moved (s s' : Wallets) : Prop := forall e, e ∈ trail s -> e ∈ trail s'.
#[export] Instance moved_preorder : PreOrder moved.
Proof. split; [by intros s e | intros s t u H1 H2 e He; by apply H2, H1]. Qed.

(** ** More history keeps it *)

Lemma said_mono tr tr' p code l i v raw : tr ⊆ tr' -> provider_said tr p code l i v raw -> provider_said tr' p code l i v raw.
Proof. intros H. destruct 1; [by eapply google_said|by eapply github_said|eapply authentik_said; eauto]. Qed.

Lemma vouched_mono tr tr' o l code p b : tr ⊆ tr' -> vouched tr o l code p b -> vouched tr' o l code p b.
Proof. intros H (i & raw & Hs & Hr). exists i, raw. split; [by eapply said_mono|done]. Qed.

Lemma event_mono tr tr' e : tr ⊆ tr' -> event_ok tr e -> event_ok tr' e.
Proof.
  intros H. destruct e as [|st code p b| | | | |dto []|dto []]; simpl; try done; unfold claim_rests, verify_proof.
  2-3: naive_solver.
  intros (o & l & Ho & Hs & Hv). exists o, l. split_and!; [by apply H|done|by eapply vouched_mono].
Qed.

Lemma handshake_mono tr tr' st h : tr ⊆ tr' -> handshake_ok tr st h -> handshake_ok tr' st h.
Proof. intros H [H1 [l H2] H3 H4]. split; [done | by eauto | by eauto |]. naive_solver. Qed.

Lemma code_mono tr tr' k r : tr ⊆ tr' -> code_ok tr k r -> code_ok tr' k r.
Proof. unfold code_ok. naive_solver. Qed.

Lemma mail_mono tr tr' m : tr ⊆ tr' -> mail_ok tr m -> mail_ok tr' m.
Proof. unfold mail_ok. naive_solver. Qed.

Lemma tally_snoc p tr e : tally p (tr ++ [e]) = (tally p tr + if p e then 1 else 0)%nat.
Proof. unfold tally. rewrite List.filter_app, length_app. simpl. by destruct (p e). Qed.

(** A statement that leaves history, rows and messages alone. *)
Lemma same_ok s s' :
  handshakes s' = handshakes s -> codes s' = codes s -> trail s' = trail s -> mailed s' = mailed s ->
  (forall email, is_Some (accounts s !! email) -> is_Some (accounts s' !! email)) ->
  moment (outside s') -> caches_ok document_answered (w_caches s') -> wallets_ok s -> wallets_ok s' /\ moved s s'.
Proof.
  intros E1 E2 E3 E4 Ha Hm Hc [_ _ H1 H2 H3 H4 H5 H6].
  split; [split; rewrite ?E1, ?E2, ?E3, ?E4; try done | intros e; by rewrite E3].
  intros email He. by apply Ha, H6.
Qed.

(** One more event, with the rows then. *)
Lemma event_logged s s' e :
  trail s' = trail s ++ [e] -> outside s' = outside s -> w_caches s' = w_caches s -> mailed s' = mailed s ->
  accounts s' = accounts s -> event_ok (trail s') e ->
  map_Forall (handshake_ok (trail s')) (handshakes s') -> map_Forall (code_ok (trail s')) (codes s') ->
  (forall st, ((if redeems st e then 1 else 0) + live (handshakes s' !! st)
               <= (if opens st e then 1 else 0) + live (handshakes s !! st))%nat) ->
  wallets_ok s -> wallets_ok s' /\ moved s s'.
Proof.
  intros Et Eo Ec Em Ea He Hh Hc Hl [H1 H2 _ _ H3 H4 H5 H6].
  assert (Hsub : trail s ⊆ trail s') by (rewrite Et; set_solver).
  split; [split | exact Hsub]; rewrite ?Eo, ?Ec, ?Em, ?Ea; try done.
  - rewrite Et at 2. apply Forall_app. split; [|by constructor].
    eapply Forall_impl; [exact H3|]. intros x. by apply event_mono.
  - eapply Forall_impl; [exact H4|]. intros x. by apply mail_mono.
  - intros st. rewrite Et, !tally_snoc. specialize (H5 st). specialize (Hl st). lia.
Qed.

(** New rows of handshakes without a new event. *)
Lemma handshakes_changed s f :
  map_Forall (handshake_ok (trail s)) (f (handshakes s)) ->
  (forall st, (live (f (handshakes s) !! st) <= live (handshakes s !! st))%nat) ->
  wallets_ok s -> wallets_ok (set_handshakes f s) /\ moved s (set_handshakes f s).
Proof.
  intros Hf Hl [H1 H2 _ H3 H4 H5 H6 H7]. split; [|by intros e]. split; try done. simpl.
  intros st. specialize (H6 st). specialize (Hl st). lia.
Qed.

Lemma codes_changed s f :
  map_Forall (code_ok (trail s)) (f (codes s)) ->
  wallets_ok s -> wallets_ok (set_codes f s) /\ moved s (set_codes f s).
Proof. intros Hf [H1 H2 H3 _ H4 H5 H6 H7]. by split; [split | intros e]. Qed.

(** ** The statements *)

#[local] Abbreviation ok := (safe wallets_ok moved).
#[local] Abbreviation yields := (ensures wallets_ok moved).

Lemma kept_ok (f : svc Wallets unit) s0 :
  (forall s, wallets_ok s -> wallets_ok (fst (f s)) /\ moved s (fst (f s))) -> ok (stmt f) s0.
Proof. intros H. apply (safe_stmt wallets_ok moved). intros s _. apply H. Qed.

Lemma draw_kept s : wallets_ok s -> wallets_ok (set_w_drawn (S (w_drawn s)) s) /\ moved s (set_w_drawn (S (w_drawn s)) s).
Proof. intros V. apply same_ok; try done; apply V. Qed.

Lemma draw_then {A} (k : nat -> method A) P s0 :
  (forall n s, moved s0 s -> yields (k n) P s) -> yields (n ← draw; k n) P s0.
Proof.
  intros H. apply (ensures_stmt_bind wallets_ok moved). intros s Hs V. destruct (draw_kept s V) as [V' M].
  split_and!; [done..|]. simpl. intros n [= <-]. apply H. by etransitivity.
Qed.

Lemma ask_then {A B} (f : Wallets -> A) (k : A -> method B) P s0 :
  (forall s, moved s0 s -> wallets_ok s -> yields (k (f s)) P s) -> yields (x ← asking f; k x) P s0.
Proof. apply (ensures_asking_bind wallets_ok moved). Qed.

Lemma pure_then {A B} (r : res A) (k : A -> method B) P s0 :
  (forall a, r = Ok a -> yields (k a) P s0) -> yields (x ← pure r; k x) P s0.
Proof. apply (ensures_pure_bind wallets_ok moved). Qed.

Lemma then_yields {A B} (m : method A) (P : A -> Wallets -> Prop) (k : A -> method B) Q s0 :
  yields m P s0 -> (forall a s, moved s0 s -> P a s -> yields (k a) Q s) -> yields (x ← m; k x) Q s0.
Proof. apply (ensures_bind wallets_ok moved). Qed.

Lemma then_ok {A B} (m : method A) (k : A -> method B) Q s0 :
  ok m s0 -> (forall a s, moved s0 s -> yields (k a) Q s) -> yields (x ← m; k x) Q s0.
Proof.
  intros Hm Hk. apply (then_yields m (fun _ _ => True)); [by apply (safe_ensures wallets_ok moved)|].
  intros a s M _. by apply Hk.
Qed.

Lemma yields_ok {A} (m : method A) P s0 : yields m P s0 -> ok m s0.
Proof. apply (ensures_safe wallets_ok moved). Qed.

Lemma create_handshake_ok o l s0 : ok (stmt (create_handshake o l)) s0.
Proof.
  apply kept_ok. intros s V. unfold create_handshake.
  destruct (handshakes s !! hs_state o) eqn:Eo; [by split|].
  apply (event_logged s _ (Opened o l)); try done; simpl.
  - apply map_Forall_insert_2.
    + split; simpl; [done | exists l; set_solver | intros _; set_solver | done].
    + eapply map_Forall_impl; [apply V|]. intros k h. apply handshake_mono. set_solver.
  - eapply map_Forall_impl; [apply V|]. intros k r. apply code_mono. set_solver.
  - intros st. destruct (decide (hs_state o = st)) as [<-|Hne].
    + rewrite lookup_insert_eq, bool_decide_eq_true_2 by done. simpl. lia.
    + rewrite lookup_insert_ne by done. lia.
Qed.

(** An update of a handshake that keeps what its row says, at least as spent. *)
Lemma update_handshake_ok state st data :
  (forall tr now h, handshake_ok tr state h -> hs_status h = st ->
     handshake_ok tr state (data now h) /\ (live (Some (data now h)) <= live (Some h))%nat) ->
  forall s0, ok (discard (stmt (update_handshake state st data None))) s0.
Proof.
  intros H s0. apply (safe_discard wallets_ok moved), (safe_stmt wallets_ok moved). intros s _ V.
  unfold update_handshake. destruct (handshakes s !! state) as [h|] eqn:Eh; [|by split].
  case_bool_decide as Es; [|by split]. simpl.
  destruct (H (trail s) (w_clock s) h) as [H1 H2]; [by apply (ok_handshakes _ V) | done |].
  apply handshakes_changed; [| |done].
  - apply map_Forall_insert_2; [done | apply V].
  - intros k. destruct (decide (state = k)) as [<-|Hne]; [by rewrite lookup_insert_eq, Eh | by rewrite lookup_insert_ne].
Qed.

(** One that is recorded. *)
Lemma update_handshake_event state st data e :
  (forall tr now h, e ∈ tr -> handshake_ok tr state h -> hs_status h = st -> handshake_ok tr state (data now h)) ->
  (forall now h k, hs_status h = st ->
     ((if redeems k e then 1 else 0) + (if bool_decide (state = k) then live (Some (data now h)) else 0)
      <= (if opens k e then 1 else 0) + (if bool_decide (state = k) then live (Some h) else 0))%nat) ->
  forall s s0, moved s s0 -> event_ok (trail s) e ->
  yields (stmt (update_handshake state st data (Some e))) (fun n s => n = 1%nat -> e ∈ trail s) s0.
Proof.
  intros Hd Hl s s0 M He. apply (wp_stmt wallets_ok moved). intros t Ht V. unfold update_handshake.
  destruct (handshakes t !! state) as [h|] eqn:Eh; [|by split_and!].
  case_bool_decide as Es; [|by split_and!]. simpl.
  assert (Hsub : trail t ⊆ trail t ++ [e]) by set_solver.
  match goal with |- wallets_ok ?t' /\ _ => assert (Hk : wallets_ok t' /\ moved t t'); [|destruct Hk; split_and!; [done..|set_solver]] end.
  apply (event_logged t _ e); try done; simpl.
  - eapply event_mono; [|exact He]. intros x Hx. apply Hsub, Ht, M, Hx.
  - apply map_Forall_insert_2; [apply Hd; [set_solver| |done]|]; [eapply handshake_mono; [exact Hsub|]; by apply (ok_handshakes _ V)|].
    eapply map_Forall_impl; [apply V|]. intros k x. by apply handshake_mono.
  - eapply map_Forall_impl; [apply V|]. intros k x. by apply code_mono.
  - intros k. specialize (Hl (w_clock t) h k Es). destruct (decide (state = k)) as [<-|Hne].
    + rewrite lookup_insert_eq, Eh. by rewrite !bool_decide_eq_true_2 in Hl.
    + rewrite lookup_insert_ne by done. rewrite !bool_decide_eq_false_2 in Hl by done. lia.
Qed.

Lemma create_code_yields ct code email name avatar m idToken t s0 :
  yields (stmt (create_code ct code email name avatar m idToken t))
    (fun _ s => exists r, Minted ct code r ∈ trail s /\ lc_email r = email) s0.
Proof.
  apply (wp_stmt wallets_ok moved). intros s Hs V. unfold create_code. simpl.
  destruct (codes s !! _) eqn:Eo; [by split_and!|]. simpl.
  set (r := mkLoginCode _ _ _ _ _ _ _ _ _ _ _).
  match goal with |- wallets_ok ?t' /\ _ => assert (Hk : wallets_ok t' /\ moved s t'); [|destruct Hk; split_and!; [done..|]] end.
  - apply (event_logged s _ (Minted ct code r)); try done; simpl.
    + eapply map_Forall_impl; [apply V|]. intros k x. apply handshake_mono. set_solver.
    + apply map_Forall_insert_2.
      * exists ct, code, r. split_and!; try done; [set_solver|]. by right.
      * eapply map_Forall_impl; [apply V|]. intros k x. apply code_mono. set_solver.
  - exists r. split; [set_solver | done].
Qed.

Lemma update_code_ok key data s0 :
  (forall tr r, code_ok tr key r -> code_ok tr key (data r)) -> ok (stmt (update_code key data)) s0.
Proof.
  intros H. apply kept_ok. intros s V. unfold update_code.
  destruct (codes s !! key) as [r|] eqn:Er; [|by split]. apply codes_changed; [|done].
  apply map_Forall_insert_2; [|apply V]. apply H. by apply (ok_codes _ V).
Qed.

Lemma guess_code_ok n st tr key r : code_ok tr key r -> code_ok tr key (set_guess n st r).
Proof. done. Qed.
Lemma spent_code_ok n st tr key r : code_ok tr key r -> code_ok tr key (set_spent n st r).
Proof. intros (ct & code & r0 & H1 & H2 & H3 & _). exists ct, code, r0. split_and!; try done. by left. Qed.

Lemma claim_code_ok key n s0 : ok (stmt (claim_code key n)) s0.
Proof.
  apply (safe_stmt wallets_ok moved). intros s _ V. unfold claim_code.
  destruct (codes s !! key) as [r|] eqn:Er; [|by split]. case_bool_decide; [|by split]. simpl.
  apply (event_logged s _ (Claimed key)); try done; simpl.
  - eapply map_Forall_impl; [apply V|]. intros k x. apply handshake_mono. set_solver.
  - apply map_Forall_insert_2.
    + apply spent_code_ok. eapply code_mono; [|by apply (ok_codes _ V)]. set_solver.
    + eapply map_Forall_impl; [apply V|]. intros k x. apply code_mono. set_solver.
Qed.

Lemma event_noted s e :
  event_ok (trail s ++ [e]) e -> (forall st, redeems st e = false) ->
  wallets_ok s -> wallets_ok (log_event e s) /\ moved s (log_event e s).
Proof.
  intros He Hr V. apply (event_logged s _ e); try done; simpl.
  - eapply map_Forall_impl; [apply V|]. intros k x. apply handshake_mono. set_solver.
  - eapply map_Forall_impl; [apply V|]. intros k x. apply code_mono. set_solver.
  - intros st. rewrite Hr. lia.
Qed.

Lemma log_event_ok e s s0 :
  moved s s0 -> event_ok (trail s) e -> (forall st, redeems st e = false) ->
  ok (stmt (fun w => (log_event e w, Ok tt))) s0.
Proof.
  intros M He Hr. apply (safe_stmt wallets_ok moved). intros t Ht V. apply event_noted; [|done|done].
  eapply event_mono; [|exact He]. intros x Hx. assert (x ∈ trail t) by by apply Ht, M. set_solver.
Qed.

Lemma deliverCode_ok email code ct n r s s0 :
  moved s s0 -> Minted ct n r ∈ trail s -> lc_email r = email -> code = sixDigitCode n -> ok (deliverCode email code) s0.
Proof.
  intros M Hr He Hc. unfold deliverCode. destruct (negb _); [done|].
  apply (safe_stmt wallets_ok moved). intros t Ht V. destruct (mail_sent _ _); [|by split]. simpl.
  split; [|by intros e]. destruct V. split; try done. simpl. apply Forall_app. split; [done|].
  constructor; [|done]. exists ct, n, r. split_and!; try done. by apply Ht, M.
Qed.

Lemma mintLoginCode_ok identity idToken s0 : ok (mintLoginCode identity idToken) s0.
Proof.
  apply (yields_ok _ (fun _ _ => True)). unfold mintLoginCode.
  apply draw_then. intros n s1 M1. apply draw_then. intros c s2 M2. apply ask_then. intros s3 M3 _.
  eapply then_yields; [apply create_code_yields|]. intros u s4 M4 (r & Hr & He).
  apply then_ok; [by eapply (deliverCode_ok _ _ _ _ _ s4 s4)|]. done.
Qed.
(** ** Identities *)

Lemma ret_yields {A} (a : A) (P : A -> Wallets -> Prop) s : P a s -> yields (Ret a) P s.
Proof. done. Qed.

Lemma caches_step s c : caches_ok document_answered c -> wallets_ok s -> wallets_ok (set_w_caches c s) /\ moved s (set_w_caches c s).
Proof. intros Hc V. apply same_ok; try done; apply V. Qed.

Lemma document_heard s url : wallets_ok s -> document_answered url (oidc_document (outside s) url).
Proof. intros V. exists (outside s). split; [apply V | done]. Qed.

Lemma note_step s t now : wallets_ok s ->
  wallets_ok (log_event (TokenChecked t now) s) /\ moved s (log_event (TokenChecked t now) s)
  /\ TokenChecked t now ∈ trail (log_event (TokenChecked t now) s).
Proof.
  intros V. destruct (event_noted s (TokenChecked t now)) as [V' M]; try done. split_and!; [done|done|]. simpl. set_solver.
Qed.

Lemma wallet_verify_yields token expect s0 :
  yields (oidc_verify token expect)
    (fun r s => checked document_answered (fun t now => TokenChecked t now ∈ trail s) token expect r) s0.
Proof.
  apply (oidc_verify_yields (OW := wallets_oidc) document_answered wallets_ok moved
    (fun s t now => TokenChecked t now ∈ trail s) note_step ok_caches document_heard caches_step).
Qed.

Lemma json_heard w rq v : moment w -> json_answer (http w rq) = Ok v ->
  heard rq (match http w rq with Response _ text => text | NetworkError => ""%string end) v.
Proof.
  intros Hw. unfold json_answer. destruct (http w rq) as [st text|] eqn:E; [|done].
  destruct (_ && _) eqn:Es; [|done]. bool_facts. destruct (JSON_parse text) eqn:Ej; [|done]. intros [= <-].
  exists w, st. split_and!; try done; lia.
Qed.

Lemma getJson_yields url token s0 : yields (getJson url token) (fun r _ => heard (GetJson url token) (fst r) (snd r)) s0.
Proof.
  unfold getJson. apply ask_then. intros s _ V. apply pure_then. intros v Hv. apply ret_yields.
  apply json_heard; [apply V | done].
Qed.

(** What an exchange brings: an access token, and the ID token beside it. *)
Lemma exchangeCode_yields p url code creds v s0 :
  yields (exchangeCode p url code creds v)
    (fun r _ => exists tokens, exchanged url code (if truthy v then [("code_verifier"%string, default "" v)%string] else []) tokens
       /\ field "access_token" (fields_of tokens) = Some (JString (fst r)) /\ fst r <> ""%string
       /\ snd r = text_of (field "id_token" (fields_of tokens))) s0.
Proof.
  unfold exchangeCode. apply pure_then. intros base _.
  apply ask_then. intros s _ V. apply pure_then. intros j Hj. apply pure_then. intros t Ht. case_bool_decide; [done|].
  apply ret_yields. exists j. simpl. split_and!; [|apply text_of_Some; by destruct (text_of _); simplify_eq/=|done|done].
  eexists _, _. split; [apply json_heard; [apply V | exact Hj]|]. split.
  - rewrite !elem_of_app, !elem_of_cons. tauto.
  - set_solver.
Qed.

Lemma discoverOidc_yields s0 : yields discoverOidc (fun d _ => OidcSafety.described document_answered ws_issuer d) s0.
Proof. unfold discoverOidc. case_bool_decide; [done|]. eapply (discover_yields (OW := wallets_oidc) document_answered wallets_ok moved ok_caches document_heard caches_step). Qed.
Lemma discoverOidc_ok s0 : ok discoverOidc s0.
Proof. eapply yields_ok, discoverOidc_yields. Qed.

Definition believed (p : WalletAuthProvider) (code : string) (l : Leg) (r : ReadIdentity + IdentityFailure) (s : Wallets) : Prop :=
  forall x, r = inl x -> provider_said (trail s) p code l (ri_identity x) (ri_emailVerified x) (ri_idToken x).

Lemma credentials_oidc creds : credentials AUTHENTIK = Some creds -> creds = ws_oidc.
Proof.
  unfold credentials. cbv zeta. destruct (bool_decide (ws_issuer = _)); [done|].
  repeat case_bool_decide; try done. by intros [= <-].
Qed.

Lemma readOidcIdentity_yields code creds l s0 :
  credentials AUTHENTIK = Some creds -> yields (readOidcIdentity code creds l) (fun r s => believed AUTHENTIK code l r s) s0.
Proof.
  intros ->%credentials_oidc. unfold readOidcIdentity.
  destruct (providerVerifier l) as [v|] eqn:Ev, (hs_nonce l) as [nonce|] eqn:En; try (by apply ret_yields).
  destruct (_ || _) eqn:Eb; [by apply ret_yields|].
  eapply then_yields; [apply discoverOidc_yields|]. intros d s1 _ Hd.
  eapply then_yields; [apply exchangeCode_yields|]. intros t s2 _ (tokens & Hx & _ & _ & Hid).
  destruct (snd t) as [token|] eqn:Est; [|by apply ret_yields]. cbn beta iota.
  destruct (bool_decide (token = _)); [by apply ret_yields|].
  eapply then_yields; [apply wallet_verify_yields|]. intros [cl|e] s3 _ H; [|by apply ret_yields].
  apply ret_yields. intros x [= <-]. simpl. destruct (H cl eq_refl) as (ks & now & Hc & Hp & Hv).
  symmetry in Hid. apply text_of_Some in Hid.
  assert (Ht : truthy (Some v) = true) by (by destruct v). rewrite Ht in Hx.
  by apply (authentik_said (trail s3) code l d tokens v nonce ks token now cl).
Qed.

(** What an identity read from a profile comes from. *)
Lemma google_profile u i : googleIdentity u = inl i ->
  exists email, field "email_verified" (fields_of u) = Some (JBool true) /\ says (fields_of u) "email" email
    /\ pi_email i = toLowerCase email /\ says (fields_of u) "sub" (pi_subject i).
Proof.
  unfold googleIdentity. cbv zeta.
  destruct (str (field "email" _)) as [email|] eqn:Ee; [|done]. destruct (str (field "sub" _)) as [sub|] eqn:Es; [|done].
  destruct (negb _) eqn:Ev; [done|]. intros [= <-]. exists email. simpl.
  split_and!; [by apply is_true_true, negb_false_iff|by apply says_str|done|by apply says_str].
Qed.

Lemma github_profile text u addresses i : githubIdentity text u addresses = inl i ->
  exists l e email, addresses = JArray l /\ e ∈ l /\ verified_address e email /\ pi_email i = toLowerCase email
    /\ forall e' email', e' ∈ l -> verified_address e' email' -> primary e' -> primary e.
Proof.
  unfold githubIdentity. cbv zeta. destruct (id_text _ _) as [subject|]; [|done].
  set (good := fun e => is_true (field "verified" (fields_of e)) && bool_decide (is_Some (str (field "email" (fields_of e))))).
  set (l := match addresses with JArray l => l | _ => [] end).
  assert (Hgood : forall e, e ∈ List.filter good l <-> e ∈ l /\ exists email, verified_address e email).
  { intros e. rewrite !list_elem_of_In, List.filter_In. unfold good, verified_address.
    rewrite andb_true_iff, bool_decide_eq_true, is_true_true. unfold is_Some. setoid_rewrite <- says_str. naive_solver. }
  destruct (match List.find _ (List.filter good l) with Some e => Some e | None => _ end) as [e|] eqn:Ec; [|done].
  intros [= <-]. simpl.
  assert (He : e ∈ List.filter good l
      /\ forall e', e' ∈ List.filter good l -> primary e' -> primary e).
  { destruct (List.find _ _) as [x|] eqn:Ef.
    - injection Ec as ->. apply find_some in Ef as [Hin%list_elem_of_In Hp%is_true_true]. by split.
    - assert (Hnone := find_none _ _ Ef). split; [destruct (List.filter good l); [done|]; simplify_eq/=; by left|].
      intros e' He' Hp. apply list_elem_of_In, Hnone, not_true_iff_false in He'. destruct He'. by apply is_true_true. }
  destruct He as [[Hl (email & Hv)]%Hgood Hp]. exists l, e, email.
  split_and!; [|done|done| |].
  - unfold l in *. destruct addresses; try (by apply not_elem_of_nil in Hl). done.
  - destruct Hv as [_ Hv%says_str]. by rewrite Hv.
  - intros e' email' Hin Hv' Hpr. apply (Hp e'); [|done]. apply Hgood. by split; [|exists email'].
Qed.

Lemma readIdentity_yields p code l s0 : yields (readIdentity p code l) (fun r s => believed p code l r s) s0.
Proof.
  unfold readIdentity. destruct (credentials p) as [creds|] eqn:Ec; [|by apply ret_yields].
  destruct p; [| |by apply readOidcIdentity_yields].
  - eapply then_yields; [apply exchangeCode_yields|]. intros t s1 _ (tokens & Hx & Ha & Hn & _).
    eapply then_yields; [apply getJson_yields|]. intros [text v] s2 _ Hv. apply ret_yields. intros x.
    destruct (googleIdentity (snd (text, v))) as [i|e] eqn:Eg; simpl; [|done]. intros [= <-].
    apply google_profile in Eg as (email & H1 & H2 & H3 & H4).
    eapply google_said; [|done..]. by exists tokens, (fst t), text.
  - eapply then_yields; [apply exchangeCode_yields|]. intros t s1 _ (tokens & Hx & Ha & Hn & _).
    eapply then_yields; [apply getJson_yields|]. intros [text u] s2 _ _.
    eapply then_yields; [apply getJson_yields|]. intros [text' e] s3 _ He. apply ret_yields. intros x.
    destruct (githubIdentity _ _ _) as [i|f] eqn:Eg; simpl; [|done]. intros [= <-].
    apply github_profile in Eg as (al & a & email & E & H1 & H2 & H3 & H4). simpl in *. subst e.
    eapply github_said; [|done..]. by exists tokens, (fst t), text'.
Qed.

Lemma sealIdToken_yields raw s0 : yields (sealIdToken raw) (fun x _ => sealed_from raw x) s0.
Proof.
  unfold sealIdToken. apply pure_then. intros secret Hs. unfold requireSessionSecret in Hs. case_bool_decide; [done|].
  injection Hs as <-. apply draw_then. intros n s _. apply (ensures_pure wallets_ok moved). intros x Hx. by exists (randomIv n).
Qed.

(** ** The callback *)

Lemma failHandshake_ok state reason s0 : ok (failHandshake state reason) s0.
Proof.
  unfold failHandshake. apply update_handshake_ok. intros tr now h [H1 H2 _ _] Es.
  split; [by split; simpl | simpl; lia].
Qed.

Lemma after_fail state reason (o : CallbackOutcome) s0 : ok (_ ← failHandshake state reason; Ret o) s0.
Proof. apply (safe_bind wallets_ok moved); [apply failHandshake_ok | done]. Qed.

(** An ID token that was attested has three segments. *)
Lemma attested_parts token ks expect now cl : attests token ks expect now cl ->
  exists h p sig c, split_on "." token = [h; p; sig] /\ JSON_parse (from_base64url p) = Some (JObject c).
Proof.
  intros (p & c & [(h & sig & hd & alg & o & m & k & Es & _)] & Ec & _). exists h, p, sig, c. split; [done|].
  unfold decodeSegment in Ec. destruct (JSON_parse _) as [[]|]; by simplify_eq.
Qed.

Lemma proved_marks token ks expect now cl :
  attests token ks expect now cl -> authentikProvedInbox (Some token) = true -> marks_inbox token.
Proof.
  intros (h & p & sig & c & Es & Ec)%attested_parts. unfold authentikProvedInbox. rewrite Es. cbn [nth_text nth]. cbv zeta.
  case_bool_decide; [done|]. rewrite Ec. intros Hm%is_true_true. by exists h, p, sig, c.
Qed.

Lemma said_token tr p code l i v raw : provider_said tr p code l i v raw -> raw <> Some ""%string.
Proof.
  destruct 1 as [| |? ? ? ? ? ? ? ? ? claims ? ? ? ? ? ? ? Ha]; [done..|]. destruct (cl_emailVerified claims); [|done].
  intros [= ->]. by apply attested_parts in Ha as (? & ? & ? & ? & ? & _).
Qed.

(** Only Authentik sends an ID token. *)
Lemma said_proved tr p code l i v raw :
  provider_said tr p code l i v raw -> authentikProvedInbox raw = true -> exists t, raw = Some t /\ marks_inbox t.
Proof.
  destruct 1 as [| |? ? ? ? ? ? ? ? ? claims ? ? ? ? ? ? ? Ha]; [done..|]. destruct (cl_emailVerified claims); [|done].
  intros Hp. eexists. split; [done|]. by eapply proved_marks.
Qed.

Lemma allowed_wallet_url url : isReturnUrlAllowed url ws_returnUrls = true -> wallet_url url.
Proof.
  unfold isReturnUrlAllowed. destruct (returnUrlProblem url); [done|]. destruct (new_URL url) as [u|] eqn:Eu; [|done].
  intros (entry & Hin%list_elem_of_In & He)%existsb_exists. destruct (new_URL entry) as [e|] eqn:Ee; [|done].
  rewrite !andb_true_iff, orb_true_iff, !bool_decide_eq_true in He. destruct He as ((((_ & H1) & H2) & H3) & H4).
  exists entry, e, u. split_and!; try done. destruct H4 as [H4|H4]; [right|by left].
  unfold isLoopback in H4. apply andb_true_iff in H4 as [H4%bool_decide_eq_true H5%bool_decide_eq_true]. by split.
Qed.

Lemma target_wallet_url to_ url : returnTarget to_ = Some url -> to_ = Some url /\ wallet_url url.
Proof.
  unfold returnTarget. destruct to_ as [u|]; [|done]. destruct (_ && _) eqn:E; [|done]. intros [= ->].
  apply andb_true_iff in E as [_ E]. split; [done|by apply allowed_wallet_url].
Qed.

Lemma vouched_profile tr h l code r binding sealed :
  provider_said tr (hs_provider h) code l (ri_identity r) (ri_emailVerified r) (ri_idToken r) ->
  (is_Some binding -> authentikProvedInbox (ri_idToken r) = true /\ is_Some (returnTarget (returnTo h))) ->
  (if truthy (ri_idToken r) then exists x, sealed = Some x /\ sealed_from (default "" (ri_idToken r)) x else sealed = None) ->
  vouched tr h l code (mkProfile (Some (pi_email (ri_identity r))) (pi_name (ri_identity r)) (pi_avatar (ri_identity r))
                (Some (pi_subject (ri_identity r))) (ri_emailVerified r) sealed (sha256Hex <$> binding)) binding.
Proof.
  intros Hs Hb Hx. exists (ri_identity r), (ri_idToken r). simpl. split_and!; try done.
  2: { intros [Hp [url Hu]]%Hb. split; [by eapply said_proved|]. exists url. by apply target_wallet_url. }
  destruct (ri_idToken r) as [t|] eqn:Et; [|done]. apply said_token in Hs. by destruct t.
Qed.

Lemma authorize_event_ok s state h code p binding s0 :
  moved s s0 -> Opened (opening h) (leg h) ∈ trail s -> hs_state (opening h) = state ->
  vouched (trail s) (opening h) (leg h) code p binding ->
  ok (stmt (update_handshake state H_PENDING (authorize p) (Some (Authorized state code p binding)))) s0.
Proof.
  intros M Ho Es Hv. eapply yields_ok, (update_handshake_event _ _ _ _ _ _ s); [done|]. simpl. eauto.
  Unshelve.
  - intros tr now h' He [H1 H2 _ _] _. split; simpl; [done | done | done | by eauto].
  - intros now h' k E. simpl. rewrite E. by case_bool_decide.
Qed.

Lemma handleCallback_ok wire params s0 : ok (handleCallback wire params) s0.
Proof.
  unfold handleCallback. destruct (providerFromWire wire) as [p|]; [|done].
  destruct (trimmed (cb_state params)) as [state|]; [|done].
  apply (yields_ok _ (fun _ _ => True)). apply ask_then. intros s M V. cbn [fst snd].
  destruct (handshakes s !! state) as [h|] eqn:Eh; [|done].
  destruct (_ || _ || _) eqn:Eg; [done|]. bool_facts.
  assert (Hp : hs_provider (opening h) = p) by done.
  assert (Hst : hs_status h = H_PENDING) by done.
  destruct (ok_handshakes _ V state h Eh) as [Hs _ Hleg _]. specialize (Hleg Hst).
  assert (Et : (Some h ≫= fun h => if bool_decide (hs_provider (opening h) = p) then returnTo (opening h) else None)
               = returnTo (opening h)) by (simpl; by rewrite bool_decide_eq_true_2).
  destruct (_ || negb _); [by apply (safe_ensures wallets_ok moved), after_fail|].
  apply (then_yields _ (fun r s => forall x, r = Some x -> believed p (default "" (cb_code params))%string (leg h) x s)).
  { apply (ensures_catching wallets_ok moved); [|done]. eapply then_yields; [apply readIdentity_yields|].
    intros r s1 _ Hr. apply ret_yields. by intros x [= <-]. }
  intros [[r|e]|] s1 M1 Hr; [|by apply (safe_ensures wallets_ok moved), after_fail ..].
  specialize (Hr _ eq_refl r eq_refl).
  apply (then_yields _ (fun b _ => is_Some b -> authentikProvedInbox (ri_idToken r) = true /\ is_Some (returnTarget (returnTo (opening h))))).
  { destruct (_ && _ && _ && _) eqn:Eb; [|apply ret_yields; by intros [? ?]]. bool_facts.
    apply draw_then. intros n s2 _. apply ret_yields. intros _. split; [done|].
    match goal with Ht : is_Some (returnTarget _) |- _ => by rewrite Et in Ht end. }
  intros binding s2 M2 Hb.
  apply (then_yields _ (fun x _ => if truthy (ri_idToken r) then exists y, x = Some y /\ sealed_from (default "" (ri_idToken r)) y else x = None)).
  { destruct (truthy (ri_idToken r)); [|by apply ret_yields]. eapply then_yields; [apply sealIdToken_yields|].
    intros x s3 _ Hx. apply ret_yields. by exists x. }
  intros sealed s3 M3 Hx. apply then_ok.
  { apply (authorize_event_ok s1 _ h); [by etransitivity|by apply M1|done|].
    apply vouched_profile; [by rewrite Hp | done..]. }
  intros n s4 _. by destruct (negb _).
Qed.
(** ** Sessions *)

Lemma readyPayload_yields identity account idToken s0 :
  yields (readyPayload identity account idToken)
    (fun r _ => rp_identity r = identity /\ session_for r /\ rp_existing r = bool_decide (is_Some account)
       /\ (account = None -> rp_backups r = []) /\ rp_idToken r = if truthy idToken then idToken else None) s0.
Proof.
  unfold readyPayload. apply pure_then. intros secret Hs. apply draw_then. intros n s1 _.
  apply ask_then. intros s2 _ _. apply pure_then. intros token Ht. apply ret_yields. simpl.
  split_and!; try done; [|by intros ->]. exists (randomIv n), (w_clock s2).
  unfold requireSessionSecret in Hs. case_bool_decide; [done|]. by injection Hs as <-.
Qed.

Lemma assertCanSendCode_ok email s0 : ok (assertCanSendCode email) s0.
Proof.
  apply (yields_ok _ (fun _ _ => True)). unfold assertCanSendCode. apply ask_then. intros s1 _ _.
  destruct (existsb _ _); [done|]. apply ask_then. intros s2 _ _. by destruct (_ <=? _)%nat.
Qed.

Lemma redeem_yields st s0 :
  yields (stmt (update_handshake st H_AUTHORIZED redeem (Some (Redeemed st))))
    (fun n s => n = 1%nat -> Redeemed st ∈ trail s) s0.
Proof.
  apply (update_handshake_event _ _ _ _ ) with (s := s0); [| |done|done].
  - intros tr now h _ [H1 H2 _ _] _. by split.
  - intros now h k E. simpl. rewrite E. by case_bool_decide.
Qed.

Lemma claim_rests_mono tr tr' dto r : tr ⊆ tr' -> claim_rests tr dto r -> claim_rests tr' dto r.
Proof. intros H. apply (event_mono tr tr' (AnsweredClaim dto (ClaimReady r)) H). Qed.
Lemma verify_proof_mono tr tr' dto r : tr ⊆ tr' -> verify_proof tr dto r -> verify_proof tr' dto r.
Proof. intros H. apply (event_mono tr tr' (AnsweredVerify dto (VerifyReady r)) H). Qed.

Definition claim_answer (dto : ClaimWalletOauthDto) (r : ClaimReply) (s : Wallets) : Prop :=
  event_ok (trail s) (AnsweredClaim dto r).
Definition verify_answer (dto : VerifyWalletEmailDto) (r : VerifyReply) (s : Wallets) : Prop :=
  event_ok (trail s) (AnsweredVerify dto r).

Lemma claimOauth_yields dto s0 : yields (claimOauth dto) (claim_answer dto) s0.
Proof.
  unfold claimOauth. apply ask_then. intros s M V. cbn [fst snd].
  destruct (handshakes s !! cd_state dto) as [h|] eqn:Eh; [|done].
  destruct (ok_handshakes _ V _ h Eh) as [Hst (l & Ho) _ Ha].
  destruct (hs_status h) eqn:Es; try done; [by apply ret_yields; destruct (_ <? _)|].
  destruct (Ha eq_refl) as (code & b & Hau). destruct (negb (pkceMatches _ _)) eqn:Ep; [done|].
  apply negb_false_iff in Ep. unfold pkceMatches in Ep. apply bool_decide_eq_true, eq_sym in Ep. apply then_ok.
  { destruct (_ && _); [apply assertCanSendCode_ok | done]. }
  intros u s1 M1. eapply then_yields; [apply redeem_yields|]. intros n s2 M2 Hr.
  destruct (negb (n =? 1)%nat) eqn:En; [done|]. apply negb_false_iff, Nat.eqb_eq in En. specialize (Hr En).
  case_bool_decide as Ee; [done|]. set (identity := mkIdentity _ _ _ _).
  apply ask_then. intros s3 M3 V3.
  set (account := a ← accounts s3 !! _; Some (a, backups_of s3 (wa_id a))).
  assert (Hold : holder (id_email identity) -> is_Some account).
  { intros [x Hx]%(ok_holders _ V3). unfold account. change (normalizeEmail _) with (id_email identity). rewrite Hx. by eexists. }
  clearbody account. apply pure_then. intros t Ht.
  assert (Hsub : forall s', moved s3 s' -> trail s ⊆ trail s' /\ Redeemed (cd_state dto) ∈ trail s').
  { intros s' M'. split; [intros e He; by apply M', M3, M2, M1 | by apply M', M3]. }
  assert (Hproof : forall s' r, moved s3 s' -> rp_identity r = identity -> hs_emailVerified (profile h) = true ->
    session_for r -> rp_existing r = bool_decide (is_Some account) ->
    (rp_existing r = true \/ rp_backups r <> [] \/ is_Some (rp_idToken r) ->
        exists t, carried (hs_idToken (profile h)) t (rp_idToken r) /\ authentikProvedInbox t = true
          /\ bindingMatches (cd_binding dto) (bindingHash (profile h)) = true) -> claim_rests (trail s') dto r).
  { intros s' r M' Hi Hv Hse He Hx. destruct (Hsub s' M') as [Hs' Hr'].
    exists (opening h), l, code, (profile h), b. rewrite Hi. split_and!; auto.
    intros ?%Hold. rewrite He. by apply bool_decide_eq_true. }
  destruct (_ && _ && _ && _) eqn:E1.
  - bool_facts. eapply then_yields; [apply readyPayload_yields|]. intros r s4 M4 (Hi & Hse & He & _ & Hid).
    apply ret_yields. apply Hproof; try done. intros _. by exists t.
  - destruct (_ || _ || _) eqn:E2.
    { apply then_ok; [apply mintLoginCode_ok|]. done. }
    bool_facts. eapply then_yields; [apply readyPayload_yields|]. intros r s4 M4 (Hi & Hse & He & Hb & Hid).
    assert (Hno : account = None) by (destruct account; [|done]; by match goal with H : ~ is_Some _ |- _ => destruct H end).
    apply ret_yields. apply Hproof; try done; [by rewrite Hno|]. rewrite He, Hb, Hid by done. intros [?|[?|[? ?]]]; done.
Qed.

Lemma verifyEmail_yields dto s0 : yields (verifyEmail dto) (verify_answer dto) s0.
Proof.
  unfold verifyEmail. apply ask_then. intros s M V. cbn [fst snd].
  destruct (codes s !! _) as [row|] eqn:Er; [|done].
  destruct (ok_codes _ V _ row Er) as (ct & code & r0 & Hm & Hk & He & Hc).
  case_bool_decide; [done|]. destruct (_ || _); [done|].
  destruct (negb _) eqn:Eg.
  { apply then_ok; [apply update_code_ok; intros *; apply guess_code_ok|]. intros u s1 _. by destruct (_ <=? _). }
  bool_facts. apply then_ok; [apply claim_code_ok|]. intros n s1 M1. destruct (negb _); [done|].
  apply ask_then. intros s2 M2 _. apply pure_then. intros t Ht.
  eapply then_yields; [apply readyPayload_yields|]. intros r s3 M3 (Hi & Hse & _ & _ & Hid). apply ret_yields.
  destruct Hc as [Hc|[Hc Hid0]]; [exfalso; eapply sha256Hex_text; by rewrite <- Hc|].
  assert (Hev := proj1 (Forall_forall _ _) (ok_events _ V) _ Hm). destruct Hev as [Hev1 Hev2].
  exists ct, code, r0. split_and!.
  - by apply M3, M2, M1.
  - congruence.
  - unfold sixDigitCode in *. congruence.
  - by rewrite Hi.
  - done.
  - exists t. split; [congruence | by rewrite Hid].
Qed.

(** ** The other routes *)

Lemma startOauth_ok dto s0 : ok (startOauth dto) s0.
Proof.
  apply (yields_ok _ (fun _ _ => True)). unfold startOauth.
  apply pure_then. intros p _. apply pure_then. intros creds _. apply pure_then. intros u1 _.
  apply pure_then. intros base _. apply pure_then. intros u2 _. apply draw_then. intros n s1 _.
  apply ask_then. intros s2 _ _. apply then_ok.
  { destruct (isOidcProvider p); [|done]. apply (yields_ok _ (fun _ _ => True)).
    apply then_ok; [apply discoverOidc_ok|]. intros d s3 _. apply draw_then. intros v s4 _. apply draw_then. by intros k s5 _. }
  intros oidc s3 _. apply then_ok; [apply create_handshake_ok|]. intros u s4 _.
  apply pure_then. intros rq _. by apply pure_then.
Qed.

Lemma startEmail_ok email s0 : ok (startEmail email) s0.
Proof.
  apply (yields_ok _ (fun _ _ => True)). unfold startEmail. apply then_ok; [apply assertCanSendCode_ok|].
  intros u s1 _. apply ask_then. intros s2 _ _. apply (safe_ensures wallets_ok moved), mintLoginCode_ok.
Qed.

Lemma pollStatus_ok st s0 : ok (pollStatus st) s0.
Proof.
  apply (yields_ok _ (fun _ _ => True)). unfold pollStatus. apply ask_then. intros s1 _ _. by destruct (fst _).
Qed.

Lemma signedForAccount_ok chain address message signature network s0 :
  ok (signedForAccount chain address message signature network) s0.
Proof.
  apply (yields_ok _ (fun _ _ => True)). unfold signedForAccount. destruct (negb _); [done|].
  destruct (verifyWalletSignature _ _ _); [done|]. destruct (negb _); [done|]. apply then_ok.
  { apply (safe_catching wallets_ok moved); [|done]. apply (yields_ok _ (fun _ _ => True)).
    apply ask_then. intros s1 _ _. by apply (ensures_pure wallets_ok moved). }
  by intros [a|] s1 _.
Qed.

Lemma upsert_account_ok identity chain address moves s0 : ok (stmt (upsert_account identity chain address moves)) s0.
Proof.
  apply (safe_stmt wallets_ok moved). intros s _ V. simpl. apply same_ok; try done; [|apply V..]. simpl.
  intros email He. destruct (decide (id_email identity = email)) as [<-|Hne].
  - rewrite lookup_insert_eq. by eexists.
  - by rewrite lookup_insert_ne.
Qed.

Lemma sealed_backup_ok box chain address s0 : ok (sealed_backup box chain address) s0.
Proof.
  apply (yields_ok _ (fun _ _ => True)). unfold sealed_backup. apply draw_then. intros n s1 _.
  by apply (ensures_pure wallets_ok moved).
Qed.

Lemma upsert_backup_ok account chain address box s0 : ok (stmt (upsert_backup account chain address box)) s0.
Proof. apply kept_ok. intros s V. simpl. apply same_ok; try done; apply V. Qed.

Lemma update_backup_ok key box s0 : ok (stmt (update_backup key box)) s0.
Proof.
  apply (safe_stmt wallets_ok moved). intros s _ V. unfold update_backup. destruct (backups s !! key); [|by split].
  simpl. apply same_ok; try done; apply V.
Qed.

Lemma finish_ok token dto s0 : ok (finish token dto) s0.
Proof.
  apply (yields_ok _ (fun _ _ => True)). unfold finish. apply pure_then. intros secret _.
  apply ask_then. intros s1 _ _. apply pure_then. intros identity _. apply pure_then. intros u1 _.
  apply pure_then. intros named _. apply then_ok; [apply signedForAccount_ok|]. intros signed s2 _.
  apply pure_then. intros u2 _. apply pure_then. intros u3 _. apply ask_then. intros s3 _ _.
  apply pure_then. intros u4 _. apply then_ok; [apply upsert_account_ok|]. intros account s4 _.
  apply then_ok.
  { destruct (fd_backup dto); [|done]. apply (yields_ok _ (fun _ _ => True)).
    apply then_ok; [apply sealed_backup_ok|]. intros x s5 _. apply (safe_ensures wallets_ok moved), upsert_backup_ok. }
  intros u5 s5 _. apply ask_then. intros s6 _ _. by apply pure_then.
Qed.

Lemma replaceBackupBox_ok dto s0 : ok (replaceBackupBox dto) s0.
Proof.
  apply (yields_ok _ (fun _ _ => True)). unfold replaceBackupBox. apply ask_then. intros s1 _ _.
  apply pure_then. intros u1 _. apply pure_then. intros u2 _. apply pure_then. intros named _.
  apply then_ok; [apply signedForAccount_ok|]. intros signed s2 _. apply pure_then. intros u3 _.
  apply ask_then. intros s3 _ _. apply pure_then. intros b _. apply then_ok; [apply sealed_backup_ok|].
  intros x s4 _. apply (safe_ensures wallets_ok moved), update_backup_ok.
Qed.

Lemma sponsorRecoverySetup_ok token dto s0 : ok (sponsorRecoverySetup token dto) s0.
Proof.
  apply (yields_ok _ (fun _ _ => True)). unfold sponsorRecoverySetup.
  apply pure_then. intros u1 _. apply pure_then. intros ledger _. apply pure_then. intros secret _.
  apply ask_then. intros s1 _ _. apply pure_then. intros identity _. apply pure_then. intros u2 _.
  apply pure_then. intros u3 _. apply ask_then. intros s2 _ _. do 5 (apply pure_then; intros ? _). done.
Qed.

(** ** The sweeper *)

Lemma update_many_Forall {A} (P : string -> A -> Prop) keys f m :
  (forall k x, P k x -> P k (f x)) -> map_Forall P m -> map_Forall P (update_many keys f m).
Proof.
  intros Hf Hm k x. unfold update_many. rewrite map_lookup_imap. destruct (m !! k) as [y|] eqn:Ey; [|done].
  simpl. intros [= <-]. case_bool_decide; [apply Hf|]; by apply Hm.
Qed.

Lemma expired_handshake_ok tr now st h :
  handshake_ok tr st h -> handshake_ok tr st (expired_handshake now h).
Proof. intros [H1 H2 _ _]. by split. Qed.

Lemma expireHandshakes_ok s0 : ok expireHandshakes s0.
Proof.
  apply (yields_ok _ (fun _ _ => True)). unfold expireHandshakes. apply ask_then. intros s1 _ _.
  set (stale := (take _ _).*1). clearbody stale. destruct stale as [|k keys]; [done|].
  apply (safe_ensures wallets_ok moved), kept_ok. intros s V. cbn [fst]. apply handshakes_changed; [| |done].
  - apply update_many_Forall; [|apply V]. intros k' h. apply expired_handshake_ok.
  - intros st. unfold update_many. rewrite map_lookup_imap. destruct (handshakes s !! st) as [h|]; [|done]. simpl.
    case_bool_decide; simpl; lia.
Qed.

Lemma expireLoginCodes_ok s0 : ok expireLoginCodes s0.
Proof.
  apply (yields_ok _ (fun _ _ => True)). unfold expireLoginCodes. apply ask_then. intros s1 _ _.
  set (stale := (take _ _).*1). clearbody stale. destruct stale as [|k keys]; [done|].
  apply (safe_ensures wallets_ok moved), kept_ok. intros s V. cbn [fst]. apply codes_changed; [|done].
  apply update_many_Forall; [|apply V]. intros k' r. apply spent_code_ok.
Qed.

Lemma deleteSpent_ok s0 : ok deleteSpent s0.
Proof.
  apply (yields_ok _ (fun _ _ => True)). unfold deleteSpent. apply ask_then. intros s1 _ _. apply then_ok.
  { apply kept_ok. intros s V. cbn [fst]. apply handshakes_changed; [| |done].
    - intros k h Hk. apply map_lookup_filter_Some in Hk as [Hk _]. by apply (ok_handshakes _ V).
    - intros st. destruct (filter _ (handshakes s) !! st) as [h|] eqn:Eh; [|simpl; lia].
      apply map_lookup_filter_Some in Eh as [-> _]. done. }
  intros u s2 _. apply (safe_ensures wallets_ok moved), kept_ok. intros s V. cbn [fst]. apply codes_changed; [|done].
  intros k r Hk. apply map_lookup_filter_Some in Hk as [Hk _]. by apply (ok_codes _ V).
Qed.

Lemma wallet_sweep_ok s0 : ok wallet_sweep s0.
Proof.
  apply (yields_ok _ (fun _ _ => True)). unfold wallet_sweep. apply then_ok; [apply expireHandshakes_ok|].
  intros u s1 _. apply then_ok; [apply expireLoginCodes_ok|]. intros u' s2 _.
  apply (safe_ensures wallets_ok moved), deleteSpent_ok.
Qed.
End safety.
