(* ===== verification/WalletPool.v ===== *)
(** The wallet sign-in's routes and sweeper in any interleaving: what stands behind
    every session it hands out ([sessions_rest_on_proof]) and how often a handshake
    is redeemed ([handshake_redeemed_once]). *)

From S2P Require Import Prelude Text MerchantFee Intents Links ChainAddress Programs Tokens Signatures Oidc OidcSafety NodeSample WalletCore WalletStore WalletAuth WalletSafety.
From stdpp Require Import base tactics list option gmap strings sorting.
From Stdlib Require Import ZArith Lia Ascii.

Open Scope Z_scope.

(** ** Requests

    The routes, answering as they return, and the sweeper. *)
Definition answer_claim `{NODE : Node} `{VERIFY : NodeVerify} `{CURVES : Curves} `{ENV : WalletEnv}
    (dto : ClaimWalletOauthDto) : method unit :=
  r ← claimOauth dto; stmt (fun s => (log_event (AnsweredClaim dto r) s, Ok tt)).
Definition answer_verify `{NODE : Node} `{VERIFY : NodeVerify} `{CURVES : Curves} `{ENV : WalletEnv}
    (dto : VerifyWalletEmailDto) : method unit :=
  r ← verifyEmail dto; stmt (fun s => (log_event (AnsweredVerify dto r) s, Ok tt)).

Inductive wallet_request `{NODE : Node} `{VERIFY : NodeVerify} `{CURVES : Curves} `{ENV : WalletEnv}
    : method unit -> Prop :=
  | rq_start dto : wallet_request (discard (startOauth dto))
  | rq_callback wire params : wallet_request (discard (handleCallback wire params))
  | rq_poll st : wallet_request (discard (pollStatus st))
  | rq_claim dto : wallet_request (answer_claim dto)
  | rq_email email : wallet_request (discard (startEmail email))
  | rq_verify dto : wallet_request (answer_verify dto)
  | rq_finish token dto : wallet_request (discard (finish token dto))
  | rq_replace dto : wallet_request (discard (replaceBackupBox dto))
  | rq_sponsor token dto : wallet_request (discard (sponsorRecoverySetup token dto))
  | rq_sweep : wallet_request wallet_sweep.

(** What else moves: the outside, within [moment], the clock, and a restart that
    empties the caches. *)
Definition wallet_world (moment : Outside -> Prop) (s s' : Wallets) : Prop :=
  handshakes s' = handshakes s /\ codes s' = codes s /\ accounts s' = accounts s /\ backups s' = backups s
  /\ mailed s' = mailed s /\ trail s' = trail s /\ moment (outside s')
  /\ (w_caches s' = w_caches s \/ w_caches s' = mkCaches ∅ ∅).

(** From no sign-in under way, whatever the accounts, with requests arriving. *)
Definition wallet_start (moment : Outside -> Prop) (s : Wallets) : Prop :=
  handshakes s = ∅ /\ codes s = ∅ /\ trail s = [] /\ mailed s = [] /\ w_caches s = mkCaches ∅ ∅ /\ moment (outside s).

Definition wallet_execution_from `{NODE : Node} `{VERIFY : NodeVerify} `{CURVES : Curves} `{ENV : WalletEnv}
    (moment : Outside -> Prop) (s0 : Wallets) (l : list (method unit)) (s : Wallets) : Prop :=
  wallet_start moment s0 /\ star (pool_step wallet_request (wallet_world moment)) ([], s0) (l, s).

Definition wallet_execution `{NODE : Node} `{VERIFY : NodeVerify} `{CURVES : Curves} `{ENV : WalletEnv}
    (moment : Outside -> Prop) (l : list (method unit)) (s : Wallets) : Prop :=
  exists s0, wallet_execution_from moment s0 l s.

(** An account there is under [email]. *)
Definition has_account (s : Wallets) (email : string) : Prop := is_Some (accounts s !! email).

Section pool.
Context `{NODE : Node} {LAWS : NodeLaws} `{VERIFY : NodeVerify} `{CURVES : Curves} `{ENV : WalletEnv}.
Context (moment : Outside -> Prop) (iv_drawn : forall n, randomIv n <> ""%string) (holder : string -> Prop).

#[local] Abbreviation inv := (wallets_ok moment holder).

Lemma wallet_request_ok p s0 : wallet_request p -> safe inv moved p s0.
Proof.
  intros H. destruct H; try apply (safe_discard inv moved).
  - by apply startOauth_ok.
  - by apply handleCallback_ok.
  - by apply pollStatus_ok.
  - unfold answer_claim. eapply yields_ok, then_yields; [by apply claimOauth_yields|]. intros r s M Hr.
    apply (safe_ensures inv moved). by apply (log_event_ok moment iv_drawn holder (AnsweredClaim dto r) s).
  - by apply startEmail_ok.
  - unfold answer_verify. eapply yields_ok, then_yields; [by apply verifyEmail_yields|]. intros r s M Hr.
    apply (safe_ensures inv moved). by apply (log_event_ok moment iv_drawn holder (AnsweredVerify dto r) s).
  - by apply finish_ok.
  - by apply replaceBackupBox_ok.
  - by apply sponsorRecoverySetup_ok.
  - by apply wallet_sweep_ok.
Qed.

Lemma wallet_world_ok s s' : wallet_world moment s s' -> inv s -> inv s' /\ moved s s'.
Proof.
  intros (E1 & E2 & E5 & _ & E3 & E4 & Hm & Hc) V. apply same_ok; try done; [by rewrite E5|].
  destruct Hc as [-> | ->]; [apply V|]. by split.
Qed.

Lemma wallet_start_ok s : (forall email, holder email -> has_account s email) -> wallet_start moment s -> inv s.
Proof.
  intros Hh (E1 & E2 & E3 & E4 & E5 & Hm). split; rewrite ?E1, ?E2, ?E3, ?E4, ?E5; try done; by constructor.
Qed.

Lemma wallet_run s0 l s :
  (forall email, holder email -> has_account s0 email) -> wallet_execution_from moment s0 l s -> inv s.
Proof.
  intros Hh (H0 & Hrun).
  destruct (pool_safe inv moved wallet_request (wallet_world moment) [] s0 l s) as (_ & V & _); try done.
  - intros p s1 Hp _. by apply wallet_request_ok.
  - apply wallet_world_ok.
  - by apply wallet_start_ok.
Qed.
End pool.

Section proofs.
Context `{NODE : Node} {LAWS : NodeLaws} `{VERIFY : NodeVerify} `{CURVES : Curves} `{ENV : WalletEnv}.
Context (moment : Outside -> Prop) (iv_drawn : forall n, randomIv n <> ""%string).

(** ** What a session rests on *)

(** A claim of a handshake: burned by this claim's state, opened with the challenge
    of the verifier presented, and confirmed by its provider, in the callback with
    [code], for the email the session is for. *)
Record claim_proof (tr : list Event) (dto : ClaimWalletOauthDto) (r : ReadyPayload) : Prop := {
  cp_redeemed : Redeemed (cd_state dto) ∈ tr;
  cp_challenge : exists o l, Opened o l ∈ tr /\ hs_state o = cd_state dto
    /\ codeChallenge o = sha256_base64url (cd_codeVerifier dto);
  cp_email : exists o l code p binding i raw,
    Opened o l ∈ tr /\ hs_state o = cd_state dto /\ Authorized (cd_state dto) code p binding ∈ tr
    /\ provider_said moment tr (hs_provider o) code l i true raw
    /\ id_email (rp_identity r) = normalizeEmail (pi_email i);
  cp_session : session_for r
}.

(** Beyond that, the inbox: an ID token of Authentik's, checked against its issuer's
    published keys, for this client, this handshake's nonce and a sign-in at most
    five minutes old, confirms the email and marks the inbox proven; and the claim
    presents the binding the callback drew for a wallet's own return URL. *)
Record inbox_proof (tr : list Event) (dto : ClaimWalletOauthDto) (r : ReadyPayload) : Prop := {
  ip_proof : exists o l code p binding presented url nonce ks token now claims,
    Opened o l ∈ tr /\ hs_state o = cd_state dto /\ hs_provider o = AUTHENTIK
    /\ returnTo o = Some url /\ wallet_url url
    /\ Authorized (cd_state dto) code p (Some binding) ∈ tr
    /\ cd_binding dto = Some presented /\ sha256Hex presented = sha256Hex binding
    /\ hs_nonce l = Some nonce /\ published moment ks /\ TokenChecked token now ∈ tr
    /\ attests token ks (mkExpectations ws_issuer [clientId ws_oidc] (Some nonce) (Some 300) None true) now claims
    /\ cl_emailVerified claims = true /\ marks_inbox token
    /\ id_email (rp_identity r) = normalizeEmail (cl_email claims) /\ rp_idToken r = Some token
}.

Lemma opened_token raw sealed t :
  sealed_from raw sealed -> openIdToken (Some sealed) = Ok t -> t = Some raw.
Proof.
  intros (iv & Hiv & Hs). unfold openIdToken.
  assert (Ht : truthy (Some sealed) = true).
  { unfold sealJson in Hs. destruct (keyFor _ _); simpl in Hs; [|done]. by injection Hs as <-. }
  rewrite Ht. unfold requireSessionSecret. case_bool_decide as Es; [done|].
  destruct (sealed_opens iv [("idToken"%string, JString raw)] ws_sessionSecret ID_TOKEN_PURPOSE) as (box & Hb & Ho & _);
    [|done|done|].
  { split; [by apply NoDup_singleton | by repeat constructor | by repeat constructor]. }
  rewrite Hs in Hb. injection Hb as <-. simpl. rewrite Ho. by intros [= <-].
Qed.

Section trail.
Context (holder : string -> Prop) (tr : list Event) (Htr : Forall (event_ok moment holder tr) tr).

Lemma authorized_vouched st code p b : Authorized st code p b ∈ tr ->
  exists o l, Opened o l ∈ tr /\ hs_state o = st /\ vouched moment tr o l code p b.
Proof. apply (proj1 (Forall_forall _ _) Htr (Authorized st code p b)). Qed.

Lemma claim_proven dto r : claim_rests holder tr dto r -> claim_proof tr dto r.
Proof.
  intros (o & l & code & p & b & Ho & Hst & Hc & Ha & Hr & Hv & He & Hse & _).
  destruct (authorized_vouched _ _ _ _ Ha) as (o' & l' & Ho' & Hst' & i & raw & Hsaid & Hem & _).
  split; [done|by exists o, l| |done]. exists o', l', code, p, b, i, raw. rewrite Hv in Hsaid. rewrite Hem in He. by split_and!.
Qed.

Lemma claim_inbox dto r : claim_rests holder tr dto r ->
  holder (id_email (rp_identity r)) \/ rp_existing r = true \/ rp_backups r <> [] \/ is_Some (rp_idToken r) ->
  inbox_proof tr dto r.
Proof.
  intros (o & l & code & p & b & Ho & Hst & _ & Ha & _ & Hv & He & _ & Hh & Hx) Hpriv.
  assert (Hpriv' : rp_existing r = true \/ rp_backups r <> [] \/ is_Some (rp_idToken r)).
  { destruct Hpriv as [H|H]; [left; by apply Hh|done]. }
  destruct (Hx Hpriv') as (t & [Ht Hout] & Hin & Hbind).
  destruct (authorized_vouched _ _ _ _ Ha) as (o' & l' & Ho' & Hst' & i & raw & Hsaid & Hem & Hseal & Hhash & Hb).
  destruct raw as [tok|]; [|rewrite Hseal in Ht; simpl in Ht; injection Ht as <-; done].
  destruct Hseal as (x & Hx' & Hsf). rewrite Hx' in Ht. apply (opened_token tok) in Ht as ->; [|done].
  rewrite Hhash in Hbind. unfold bindingMatches in Hbind.
  destruct (cd_binding dto) as [pr|] eqn:Ed; [|done]. destruct b as [bind|]; [|done]. simpl in Hbind.
  destruct (_ || _); [done|]. apply bool_decide_eq_true in Hbind.
  destruct (Hb ltac:(done)) as [(? & [= <-] & Hmark) (url & Hret & Hurl)].
  assert (Hne : truthy (Some tok) = true) by (assert (X := said_token _ _ _ _ _ _ _ _ Hsaid); by destruct tok).
  inversion Hsaid as [| |c lg d tokens verifier nonce ks token now claims Hd Hn Hw Hex Hid Hk Hck Hat E1 E2 E3 E4 E5 E6]; subst.
  destruct (cl_emailVerified claims) eqn:Ecv; [|done]. injection E6 as <-.
  split. exists o', l', code, p, bind, pr, url, nonce, ks, token, now, claims.
  split_and!; try done.
  - rewrite He, Hem. done.
  - rewrite Hout. by rewrite Hne.
Qed.
End trail.

(** C26: Every session rests on a proof. In any interleaving of the routes, the
    sweeper, restarts and the outside: a session answered to a claim comes from a
    handshake opened with the challenge of the verifier presented, whose provider,
    asked with the code of the callback, confirmed the email it is for: Google and
    GitHub as an address they verified, Authentik by an ID token its published keys
    sign for this client and this handshake's nonce. When there is an account under
    that email from before, or the session carries a backup or an ID token, that ID
    token also marks the inbox proven and the claim presents the binding the
    callback drew for a wallet's own return URL. A session answered to a code is for
    the address the code was minted for, under the claim token minted with it; and a
    code is mailed to that address only. *)
Theorem sessions_rest_on_proof s0 l s : wallet_execution_from moment s0 l s ->
  (forall dto r, AnsweredClaim dto (ClaimReady r) ∈ trail s ->
     claim_proof (trail s) dto r
     /\ (has_account s0 (id_email (rp_identity r)) \/ rp_existing r = true \/ rp_backups r <> [] \/ is_Some (rp_idToken r) ->
           inbox_proof (trail s) dto r))
  /\ (forall st code p b, Authorized st code p b ∈ trail s ->
        exists o lg, Opened o lg ∈ trail s /\ hs_state o = st /\ vouched moment (trail s) o lg code p b)
  /\ (forall dto r, AnsweredVerify dto (VerifyReady r) ∈ trail s -> verify_proof (trail s) dto r)
  /\ (forall email code, (email, code) ∈ mailed s ->
        exists ct n row, Minted ct n row ∈ trail s /\ lc_email row = email /\ code = padStart 6 (toString n)).
Proof.
  intros Hrun. assert (V := wallet_run moment iv_drawn (has_account s0) s0 l s (fun _ H => H) Hrun).
  assert (Htr := ok_events _ _ _ V). assert (Hev := proj1 (Forall_forall _ _) Htr).
  split_and!.
  - intros dto r Hin. specialize (Hev _ Hin). split; [by apply (claim_proven _ _ Htr)|by apply (claim_inbox _ _ Htr)].
  - intros st code p b. by apply (authorized_vouched _ _ Htr).
  - intros dto r Hin. exact (Hev _ Hin).
  - intros email code Hin. exact (proj1 (Forall_forall _ _) (ok_mail _ _ _ V) _ Hin).
Qed.

(** A handshake is redeemed at most once. In any interleaving, the claims that
    burned a handshake's state, and the row while it can still be redeemed, are
    together no more than the times that state was opened. *)
Theorem handshake_redeemed_once l s st : wallet_execution moment l s ->
  (tally (redeems st) (trail s) + live (handshakes s !! st) <= tally (opens st) (trail s))%nat.
Proof. intros [s0 Hrun]. apply (ok_once _ _ _ (wallet_run moment iv_drawn (fun _ => False) s0 l s (fun _ H => False_ind _ H) Hrun)). Qed.
End proofs.

(** ** A sign-in through Authentik's emailed link, by a wallet with an account *)

#[local] Existing Instance sample_node.
#[local] Existing Instance sample_laws.
Definition sample_verify : NodeVerify := fun _ _ _ _ => Some true.
#[local] Existing Instance sample_verify.
Definition sample_curves : Curves := {|
  rawPublicKey s := Some s;
  ed25519_verify _ _ _ := true;
  from_base64 s := s;
  keccak_256 s := s;
  hasHighS _ := Some false;
  recoverPublicKey _ _ _ := None
|}.
#[local] Existing Instance sample_curves.
Definition sample_key : AtRestKey := mkAtRestKey "k1" "key".
Definition sample_env : WalletEnv := {|
  ws_google := mkCredentials "g" "gs";
  ws_github := mkCredentials "" "";
  ws_oidc := mkCredentials "client" "cs";
  ws_issuer := "https://idp/";
  ws_sources := None;
  ws_returnUrls := ["https://wallet"%string];
  ws_publicBaseUrl := "https://api";
  ws_sessionSecret := "secret";
  ws_keyring := mkKeyring (Some sample_key) [];
  signersHorizonUrls _ := "https://horizon"%string;
  signersNetwork := "public";
  sponsorSecret := "";
  sponsorLedger := mkSponsorLedger "" "";
  sponsorNetworks _ := None;
  sponsorPublicKey := "";
  mailer_configured := true;
  walletKeys_configured := true;
  randomToken n := String "t" (toString (Z.of_nat n));
  randomCode n := Z.of_nat n;
  randomIv n := String "v" (toString (Z.of_nat n));
  wallet_cuid n := String "c" (toString (Z.of_nat n))
|}%string.
#[local] Existing Instance sample_env.

Definition sample_text (fields : list (string * json)) : string := JSON_stringify (JObject fields).

Definition sample_claims : list (string * json) :=
  [("iss", JString "https://idp/"); ("aud", JString "client"); ("exp", JNumber (NumInt 1000));
   ("iat", JNumber (NumInt 0)); ("nonce", JString "t2"); ("sub", JString "s1");
   ("email", JString "ana@example.com"); ("email_verified", JBool true); ("cosmos_inbox_proven", JBool true)]%string.

Definition sample_token : string :=
  (base64url (sample_text [("alg", JString "RS256")]) +:+ "." +:+ base64url (sample_text sample_claims) +:+ ".sig")%string.

Definition sample_outside : Outside := {|
  http rq := match rq with
             | ExchangeCode _ _ =>
                 Response 200 (sample_text [("access_token", JString "at"); ("id_token", JString sample_token)])
             | GetJson _ _ => NetworkError
             end;
  oidc_document url :=
    if bool_decide (url = "https://idp/jwks") then
      Response 200 (sample_text [("keys", JArray [JObject [("kty", JString "RSA")]])])
    else Response 200 (sample_text [("issuer", JString "https://idp/");
           ("authorization_endpoint", JString "https://idp/auth"); ("token_endpoint", JString "https://idp/token");
           ("jwks_uri", JString "https://idp/jwks")]);
  horizon _ _ := Account404;
  mail_sent _ := true;
  provision _ _ := Ok (mkWalletKeys "org" "dev" "prod")
|}%string.

Definition sample_account : WalletAccount := mkWalletAccount "c0" "ana@example.com" "Ana" None M_EMAIL stellar "GA".

Definition sample_start : Wallets :=
  mkWallets ∅ ∅ {["ana@example.com"%string := sample_account]} ∅ (mkCaches ∅ ∅) sample_outside [] [] 0 0.

Definition sample_claim : ClaimWalletOauthDto := mkClaimDto "t0" "verifier" false (Some "t3"%string).

Definition sample_requests : list (method unit) :=
  [discard (startOauth (mkStartDto "authentik" (to_hex "verifier") None (Some "https://wallet"%string)));
   discard (handleCallback "authentik" (mkCallback (Some "code"%string) (Some "t0"%string) None));
   answer_claim sample_claim].

Definition sample_done : Wallets := run_all sample_requests sample_start.

Definition is_ready (e : Event) : bool :=
  match e with AnsweredClaim dto (ClaimReady r) => rp_existing r | _ => false end.

Lemma sample_sign_in : exists l, wallet_execution_from (fun w => w = sample_outside) sample_start l sample_done.
Proof.
  destruct (pool_run_all wallet_request (wallet_world (fun w => w = sample_outside)) sample_requests [] sample_start)
    as [l Hl]; [repeat constructor|].
  exists l. by split.
Qed.

Lemma sample_iv n : randomIv n <> ""%string.
Proof. done. Qed.

Lemma sample_answered : exists r,
  trail sample_done !! 4%nat = Some (AnsweredClaim sample_claim (ClaimReady r)) /\ rp_existing r = true.
Proof. eexists. split; [vm_compute; reflexivity | reflexivity]. Qed.

Lemma sessions_rest_on_proof_witness : exists l r,
  wallet_execution_from (fun w => w = sample_outside) sample_start l sample_done
  /\ AnsweredClaim sample_claim (ClaimReady r) ∈ trail sample_done
  /\ inbox_proof (fun w => w = sample_outside) (trail sample_done) sample_claim r.
Proof.
  destruct sample_sign_in as [l Hl]. destruct sample_answered as (r & Hr & He). exists l, r.
  assert (Hin : AnsweredClaim sample_claim (ClaimReady r) ∈ trail sample_done) by (by eapply list_elem_of_lookup_2).
  split_and!; [exact Hl | exact Hin|].
  destruct (sessions_rest_on_proof (fun w => w = sample_outside) sample_iv sample_start l sample_done Hl) as (Hc & _).
  apply (proj2 (Hc sample_claim r Hin)). right. left. exact He.
Defined.

Lemma handshake_redeemed_once_witness : exists l,
  wallet_execution (fun w => w = sample_outside) l sample_done
  /\ tally (opens "t0") (trail sample_done) = 1%nat
  /\ (tally (redeems "t0") (trail sample_done) + live (handshakes sample_done !! "t0"%string)
      <= tally (opens "t0") (trail sample_done))%nat.
Proof.
  destruct sample_sign_in as [l Hl]. exists l.
  assert (Hx : wallet_execution (fun w => w = sample_outside) l sample_done) by (exists sample_start; exact Hl).
  split_and!; [exact Hx | by vm_compute|].
  apply (handshake_redeemed_once (fun w => w = sample_outside) sample_iv l sample_done "t0" Hx).
Defined.
