(* ===== verification/WalletBehaviour.v ===== *)
(** What single operations of the wallet sign-in do, and the interleavings of
    answers to a code that go wrong. *)

From S2P Require Import Prelude Text MerchantFee Intents Links ChainAddress Programs Tokens Signatures Oidc NodeSample WalletCore WalletStore WalletAuth WalletSafety WalletPool.
From stdpp Require Import base tactics list option gmap strings sorting.
From Stdlib Require Import ZArith Lia Ascii.

Open Scope Z_scope.

Section guesses.
Context `{NODE : Node} `{VERIFY : NodeVerify} `{CURVES : Curves} `{ENV : WalletEnv}.

(** ** Answers to a code, from the row as they read it *)

Definition verify_rest (dto : VerifyWalletEmailDto) (w : Wallets) : method unit :=
  match answer_verify dto with Stmt _ k => k w | p => p end.

Lemma answer_verify_read dto : answer_verify dto = Stmt (fun w => w) (verify_rest dto).
Proof. reflexivity. Qed.

Lemma answer_verify_map dtos :
  List.map answer_verify dtos = List.map (fun dto => Stmt (fun w => w) (verify_rest dto)) dtos.
Proof. apply map_ext. intros dto. apply answer_verify_read. Qed.

Definition named (key : string) (dto : VerifyWalletEmailDto) : Prop := sha256Hex (vd_claimToken dto) = key.

(** The row a request read is a code still to be answered. *)
Definition open_code (s : Wallets) (key : string) (row : LoginCode) : Prop :=
  codes s !! key = Some row /\ lc_status row = L_PENDING /\ w_clock s <= lc_expiresAt row.

Definition put_code (key : string) (row : LoginCode) (s : Wallets) : Wallets :=
  set_codes (fun m => <[key := row]> m) s.

Definition guess_reply (n : Z) : VerifyReply :=
  if LOGIN_CODE_MAX_ATTEMPTS <=? n then VerifyLocked else VerifyInvalid (LOGIN_CODE_MAX_ATTEMPTS - n).
Definition guess_status (n : Z) : WalletLoginCodeStatus :=
  if LOGIN_CODE_MAX_ATTEMPTS <=? n then L_LOCKED else L_PENDING.

(** A wrong guess writes the count and the status it computed from the row it
    read, whatever the row is by then. *)
Lemma wrong_guess s t key row row' dto :
  open_code s key row -> named key dto -> sha256Hex (vd_code dto) <> codeHash row -> codes t !! key = Some row' ->
  fst (run (verify_rest dto s) t)
  = log_event (AnsweredVerify dto (guess_reply (attempts row + 1)))
      (put_code key (set_guess (attempts row + 1) (guess_status (attempts row + 1)) row') t).
Proof.
  intros (Hr & Hp & Hx) Hn Hc Ht. unfold named in Hn. unfold verify_rest, answer_verify, verifyEmail.
  cbn [mbind prog_mbind prog_bind asking]. rewrite Hn. cbn [fst snd].
  rewrite Hr. cbn [prog_bind]. rewrite Hp. rewrite bool_decide_eq_false_2 by done.
  rewrite bool_decide_eq_true_2 by done. destruct (Z.ltb_spec (lc_expiresAt row) (w_clock s)); [lia|].
  cbn [negb orb]. cbv iota. rewrite bool_decide_eq_false_2 by done. cbn [negb]. cbv iota.
  change (prog_bind ?f ?p) with (p ≫= f). runs. unfold update_code. rewrite Ht. cbn.
  unfold guess_reply, guess_status. by destruct (_ <=? attempts row + 1).
Qed.

Lemma secret_Ok : ws_sessionSecret <> ""%string -> requireSessionSecret = Ok ws_sessionSecret.
Proof. intros Hs. unfold requireSessionSecret. by rewrite bool_decide_eq_false_2. Qed.

Lemma openIdToken_Ok sealed : ws_sessionSecret <> ""%string -> exists t, openIdToken sealed = Ok t.
Proof.
  intros Hs. unfold openIdToken. rewrite secret_Ok by done. destruct (truthy sealed); eexists; reflexivity.
Qed.

Lemma run_readyPayload identity account idToken s : ws_sessionSecret <> ""%string -> exists r,
  run (readyPayload identity account idToken) s = (set_w_drawn (S (w_drawn s)) s, Ok r)
  /\ rp_identity r = identity /\ rp_idToken r = (if truthy idToken then idToken else None).
Proof.
  intros Hs. unfold readyPayload. rewrite secret_Ok by done.
  runs. unfold draw. runs. unfold issueSessionToken. rewrite sealJson_Ok by done. cbn. eauto.
Qed.

(** A right one claims the row while its status is PENDING, whatever else it has
    become, and hands out the identity and the ID token of the row it read. *)
Lemma right_guess s t key row row' dto :
  ws_sessionSecret <> ""%string ->
  open_code s key row -> named key dto -> sha256Hex (vd_code dto) = codeHash row ->
  codes t !! key = Some row' -> lc_status row' = L_PENDING ->
  exists r, let t' := fst (run (verify_rest dto s) t) in
    codes t' = <[key := set_spent (attempts row + 1) L_CLAIMED row']> (codes t)
    /\ trail t' = trail t ++ [Claimed key; AnsweredVerify dto (VerifyReady r)]
    /\ id_email (rp_identity r) = lc_email row /\ exists i, carried (lc_idToken row) i (rp_idToken r).
Proof.
  intros Hs (Hr & Hp & Hx) Hn Hc Ht Hp'. unfold named in Hn. unfold verify_rest, answer_verify, verifyEmail.
  cbn [mbind prog_mbind prog_bind asking]. rewrite Hn. cbn [fst snd].
  rewrite Hr. cbn [prog_bind]. rewrite Hp. rewrite bool_decide_eq_false_2 by done.
  rewrite bool_decide_eq_true_2 by done. destruct (Z.ltb_spec (lc_expiresAt row) (w_clock s)); [lia|].
  cbn [negb orb]. cbv iota. rewrite bool_decide_eq_true_2 by done. cbn [negb]. cbv iota.
  change (prog_bind ?f ?p) with (p ≫= f). runs. unfold claim_code. rewrite Ht, bool_decide_eq_true_2 by done.
  cbn [Nat.eqb negb]. runs. destruct (openIdToken_Ok (lc_idToken row) Hs) as [i Hi].
  unfold find_account. runs. rewrite Hi. runs.
  match goal with |- context [run (readyPayload ?a ?b ?c) ?w] =>
    destruct (run_readyPayload a b c w Hs) as (r & -> & Hid & Htok) end.
  exists r. cbn. rewrite Hid, Htok, <- app_assoc. split_and!; try done. by exists i.
Qed.
(** ** Wrong guesses *)

Lemma run_answer dto w : run (answer_verify dto) w = run (verify_rest dto w) w.
Proof. by rewrite answer_verify_read. Qed.

(** Guesses that read the same row leave the count of one. *)
Lemma stale_guesses s key row dtos t row' :
  open_code s key row -> Forall (named key) dtos ->
  Forall (fun dto => sha256Hex (vd_code dto) <> codeHash row) dtos -> codes t !! key = Some row' ->
  let t' := run_all (List.map (fun dto => verify_rest dto s) dtos) t in
  codes t' !! key = Some match dtos with [] => row'
                                       | _ => set_guess (attempts row + 1) (guess_status (attempts row + 1)) row' end
  /\ moved t t' /\ forall dto, dto ∈ dtos -> AnsweredVerify dto (guess_reply (attempts row + 1)) ∈ trail t'.
Proof.
  intros Ho Hn Hw. revert t row'. induction dtos as [|dto dtos IH]; intros t row' Ht.
  { split_and!; [done | by intros e | by intros dto ?%not_elem_of_nil]. }
  apply Forall_cons in Hn as [Hn1 Hn]. apply Forall_cons in Hw as [Hw1 Hw].
  cbn [List.map run_all]. rewrite (wrong_guess s t key row row' dto) by done.
  set (t1 := log_event _ _).
  destruct (IH Hn Hw t1 (set_guess (attempts row + 1) (guess_status (attempts row + 1)) row')) as (H1 & H2 & H3).
  { apply lookup_insert_eq. }
  assert (Hm : moved t t1) by (intros e He; simpl; set_solver).
  split_and!.
  - rewrite H1. by destruct dtos.
  - by etransitivity.
  - intros d [->|Hd]%elem_of_cons; [|by apply H3]. apply H2. simpl. set_solver.
Qed.

Lemma guesses_in_turn key dtos : forall s row,
  open_code s key row -> Forall (named key) dtos ->
  Forall (fun dto => sha256Hex (vd_code dto) <> codeHash row) dtos -> dtos <> [] ->
  attempts row + Z.of_nat (length dtos) = LOGIN_CODE_MAX_ATTEMPTS ->
  exists r, codes (run_all (List.map answer_verify dtos) s) !! key = Some r /\ lc_status r = L_LOCKED.
Proof.
  induction dtos as [|dto dtos IH]; intros s row Ho Hn Hw Hne Hl; [done|].
  apply Forall_cons in Hn as [Hn1 Hn]. apply Forall_cons in Hw as [Hw1 Hw]. cbn [List.map run_all].
  rewrite run_answer, (wrong_guess s s key row row dto) by (done || apply Ho).
  unfold guess_status. cbn [length] in Hl. destruct (Z.leb_spec LOGIN_CODE_MAX_ATTEMPTS (attempts row + 1)).
  - destruct dtos; [|cbn [length] in Hl; lia]. simpl. rewrite lookup_insert_eq. by eexists.
  - apply (IH _ (set_guess (attempts row + 1) L_PENDING row)); try done.
    + destruct Ho as (_ & _ & Hx). split_and!; [apply lookup_insert_eq | done | done].
    + destruct dtos; [cbn [length] in Hl; lia | done].
    + cbn [attempts set_guess]. lia.
Qed.

(** Wrong guesses in flight together count as one. Of any number of wrong answers
    to a code, sent at once, each may be compared with the code and answered as the
    first wrong attempt of five, and the code is then pending with one attempt
    counted; five of them sent one after another lock it. The comment in verifyEmail
    says the attempt is counted before the comparison, in one conditional update, so
    that concurrent guesses cannot both read a clean counter. *)
Theorem wrong_guesses_uncounted (moment : Outside -> Prop) s key row dtos :
  open_code s key row -> attempts row = 0 -> dtos <> [] -> Forall (named key) dtos ->
  Forall (fun dto => sha256Hex (vd_code dto) <> codeHash row) dtos ->
  (exists l s', star (pool_step wallet_request (wallet_world moment)) (List.map answer_verify dtos, s) (l, s')
     /\ codes s' !! key = Some (set_guess 1 L_PENDING row)
     /\ forall dto, dto ∈ dtos -> AnsweredVerify dto (VerifyInvalid 4) ∈ trail s')
  /\ (length dtos = 5%nat ->
      exists r, codes (run_all (List.map answer_verify dtos) s) !! key = Some r /\ lc_status r = L_LOCKED).
Proof.
  intros Ho Ha Hne Hn Hw. split.
  - destruct (stale_guesses s key row dtos s row) as (H1 & _ & H3); [done..|apply Ho|].
    rewrite Ha in H1, H3.
    destruct (pool_run_list wallet_request (wallet_world moment) (List.map (fun dto => verify_rest dto s) dtos) [] s)
      as [l Hl].
    exists l, (run_all (List.map (fun dto => verify_rest dto s) dtos) s). split_and!.
    + eapply star_trans; [|exact Hl]. rewrite answer_verify_map.
      assert (Hr := pool_read_all wallet_request (wallet_world moment) verify_rest dtos [] [] s).
      by rewrite !app_nil_r in Hr.
    + rewrite H1. by destruct dtos.
    + exact H3.
  - intros Hl. apply (guesses_in_turn key dtos s row); try done. rewrite Ha, Hl. done.
Qed.

(** ** Two right answers *)

(** A code is redeemed twice. When two answers with the right code and one with a
    wrong code have read a pending row, the wrong one's write puts the row, claimed by
    the first right one, back to pending, and the second right one claims it again:
    both get a session, and the ID token of the row. The comments in verifyEmail call
    the claim single-shot, and the ID token is said to leave the row with it. *)
Theorem code_redeemed_twice (moment : Outside -> Prop) s key row good bad :
  ws_sessionSecret <> ""%string -> open_code s key row -> attempts row + 1 < LOGIN_CODE_MAX_ATTEMPTS ->
  named key good -> named key bad ->
  sha256Hex (vd_code good) = codeHash row -> sha256Hex (vd_code bad) <> codeHash row ->
  exists l s' r1 r2,
    star (pool_step wallet_request (wallet_world moment))
      ([answer_verify good; answer_verify good; answer_verify bad], s) (l, s')
    /\ trail s' = trail s ++ [Claimed key; AnsweredVerify good (VerifyReady r1);
                              AnsweredVerify bad (guess_reply (attempts row + 1));
                              Claimed key; AnsweredVerify good (VerifyReady r2)]
    /\ forall r, r ∈ [r1; r2] ->
         id_email (rp_identity r) = lc_email row /\ exists i, carried (lc_idToken row) i (rp_idToken r).
Proof.
  intros Hs Ho Ha Hg Hb Hcg Hcb. assert (Hr := Ho). destruct Hr as (Hr & Hp & _).
  destruct (right_guess s s key row row good) as (r1 & C1 & T1 & E1 & I1); try done.
  set (s1 := fst (run (verify_rest good s) s)) in *.
  assert (G2 := wrong_guess s s1 key row (set_spent (attempts row + 1) L_CLAIMED row) bad Ho Hb Hcb).
  rewrite C1, lookup_insert_eq in G2. specialize (G2 eq_refl).
  set (s2 := fst (run (verify_rest bad s) s1)) in *.
  assert (Hs2 : codes s2 !! key = Some (set_guess (attempts row + 1) L_PENDING (set_spent (attempts row + 1) L_CLAIMED row))).
  { rewrite G2. simpl. rewrite lookup_insert_eq. unfold guess_status.
    destruct (Z.leb_spec LOGIN_CODE_MAX_ATTEMPTS (attempts row + 1)); [lia | done]. }
  destruct (right_guess s s2 key row _ good Hs Ho Hg Hcg Hs2 eq_refl) as (r2 & C3 & T3 & E3 & I3).
  destruct (pool_run_at wallet_request (wallet_world moment) (verify_rest good s) [] [verify_rest good s; verify_rest bad s] s)
    as [q1 Q1].
  destruct (pool_run_at wallet_request (wallet_world moment) (verify_rest bad s) [q1; verify_rest good s] [] s1) as [q2 Q2].
  destruct (pool_run_at wallet_request (wallet_world moment) (verify_rest good s) [q1] [q2] s2) as [q3 Q3].
  exists [q1; q3; q2], (fst (run (verify_rest good s) s2)), r1, r2. split_and!.
  - eapply star_trans; [|eapply star_trans; [exact Q1|eapply star_trans; [exact Q2 | exact Q3]]].
    apply (pool_read_all wallet_request (wallet_world moment) verify_rest [good; good; bad] [] [] s).
  - rewrite T3, G2. simpl. rewrite T1, <- !app_assoc. done.
  - intros r [->|[->|Hin]%elem_of_cons]%elem_of_cons; [done..|]. by apply not_elem_of_nil in Hin.
Qed.
End guesses.

(** ** Finishing a sign-in *)

Section finishing.
Context `{NODE : Node} {LAWS : NodeLaws} `{CURVES : Curves} `{ENV : WalletEnv}.

(** Asking who signed writes nothing. *)
Lemma run_signedForAccount chain address message signature network s :
  fst (run (signedForAccount chain address message signature network) s) = s.
Proof.
  unfold signedForAccount. destruct (negb _); [done|]. destruct (verifyWalletSignature _ _ _); [done|].
  destruct (negb _); [done|]. rewrite run_bind, run_catching, run_bind, run_asking, run_pure.
  destruct (fetchAccountSigners _) as [[a|]|e]; done.
Qed.

(** What a sign-in is finished with: a session not yet expired, a fresh signature by
    the account named over the challenge of the session's email, and, with a backup,
    a box that is kept and room for it. *)
Record finish_accepted (s : Wallets) (token : string) (dto : FinishWalletSignInDto)
    (identity : WalletAuthIdentity) (chain : Chain) (address : string) : Prop := {
  fa_session : readSessionToken token ws_sessionSecret (w_clock s) = Some identity;
  fa_fresh : signedAtFresh (fd_signedAt dto) (w_clock s) = true;
  fa_named : accountOf (fd_account dto) = Ok (chain, address);
  fa_signed : run (signedForAccount chain address (finishMessage (id_email identity) address (fd_signedAt dto) chain)
                     (fd_signature dto) (fd_network dto)) s = (s, Ok true);
  fa_box : forall box, fd_backup dto = Some box -> isBackupBox box = true;
  fa_room : forall box a, fd_backup dto = Some box -> accounts s !! id_email identity = Some a ->
    (length (backups_of s (wa_id a)) < WALLET_MAX_BACKUPS)%nat
    \/ exists b, b ∈ backups_of s (wa_id a) /\ bk_chain b = chain /\ bk_address b = address
}.

(** The account after it: it keeps its id, and the wallet it is for moves only with a
    backup. *)
Definition account_finished (s : Wallets) (identity : WalletAuthIdentity) (chain : Chain) (address : string)
    (backup : bool) (a : WalletAccount) : Prop :=
  wa_name a = fallbackName (id_email identity) (id_name identity)
  /\ match accounts s !! id_email identity with
     | Some old => wa_id a = wa_id old
         /\ (wa_chain a, wa_address a) = if backup then (chain, address) else (wa_chain old, wa_address old)
     | None => (wa_chain a, wa_address a) = (chain, address)
     end.

(** The box given, as it is sealed at rest, in the one row of the account, chain and
    address; or no row touched. *)
Definition backup_written (s s' : Wallets) (dto : FinishWalletSignInDto) (chain : Chain) (address id : string) : Prop :=
  match fd_backup dto with
  | None => backups s' = backups s
  | Some box => exists iv key, ring_current ws_keyring = Some key
      /\ backups s' = <[backup_key id chain address :=
           mkWalletBackup id chain address (sealAtRest iv box (chain_name chain) address key) (w_clock s)]> (backups s)
  end.

Lemma run_finish_store s dto chain address id :
  let p := match fd_backup dto with
           | Some box => sealed ← sealed_backup box chain address; stmt (upsert_backup id chain address sealed)
           | None => Ret tt
           end in
  let s' := fst (run p s) in
  accounts s' = accounts s /\ handshakes s' = handshakes s /\ codes s' = codes s /\ outside s' = outside s
  /\ match snd (run p s) with
     | Ok _ => backup_written s s' dto chain address id
     | Throw e => ring_current ws_keyring = None /\ is_Some (fd_backup dto) /\ backups s' = backups s
     end.
Proof.
  unfold backup_written. destruct (fd_backup dto) as [box|]; [|done]. cbv zeta. runs. unfold sealed_backup. runs.
  unfold draw. runs. unfold cipher_seal. destruct (ring_current ws_keyring) as [key|] eqn:Ek; simpl; [|done].
  split_and!; try done. by exists (randomIv (w_drawn s)), key.
Qed.

Lemma has_backup_for chain address (bs : list WalletBackup) :
  existsb (is_backup_for chain address) bs = true <-> exists b, b ∈ bs /\ bk_chain b = chain /\ bk_address b = address.
Proof.
  rewrite existsb_exists. unfold is_backup_for.
  assert (E : forall b, bool_decide (bk_chain b = chain) && bool_decide (bk_address b = address) = true
              <-> bk_chain b = chain /\ bk_address b = address) by (intros b; by rewrite andb_true_iff, !bool_decide_eq_true).
  split; intros (b & Hin & Hb); exists b; [rewrite list_elem_of_In|rewrite <- list_elem_of_In]; split; try apply E; auto.
Qed.

(** The writes of a sign-in whose checks passed. *)
Definition finish_writes (identity : WalletAuthIdentity) (chain : Chain) (address : string)
    (dto : FinishWalletSignInDto) (existing : bool) : method FinishReply :=
  account ← stmt (upsert_account identity chain address (bool_decide (is_Some (fd_backup dto)) || negb existing));
  _ ← match fd_backup dto with
      | Some box => sealed ← sealed_backup box chain address; stmt (upsert_backup (wa_id account) chain address sealed)
      | None => Ret tt
      end;
  answer ← asking (fun s => provision (outside s) (wa_id account) (id_email identity));
  keys ← pure answer;
  Ret (Finished existing keys).

(** The check of the room for one more box. *)
Definition no_room (s : Wallets) (dto : FinishWalletSignInDto) (i : WalletAuthIdentity) (c : Chain) (a : string) : bool :=
  bool_decide (is_Some (fd_backup dto))
  && match accounts s !! id_email i with
     | Some acc => negb (existsb (is_backup_for c a) (backups_of s (wa_id acc)))
                   && (WALLET_MAX_BACKUPS <=? length (backups_of s (wa_id acc)))%nat
     | None => false
     end.

Lemma no_room_exact s dto i c a : no_room s dto i c a = false <->
  forall box acc, fd_backup dto = Some box -> accounts s !! id_email i = Some acc ->
    (length (backups_of s (wa_id acc)) < WALLET_MAX_BACKUPS)%nat
    \/ exists b, b ∈ backups_of s (wa_id acc) /\ bk_chain b = c /\ bk_address b = a.
Proof.
  unfold no_room. destruct (fd_backup dto) as [box|]; [|by split].
  rewrite bool_decide_eq_true_2 by by eexists. destruct (accounts s !! id_email i) as [acc|]; [|by split].
  rewrite andb_true_l, andb_false_iff, negb_false_iff, has_backup_for, Nat.leb_gt. split.
  - intros H ? ? _ [= <-]. tauto.
  - intros H. specialize (H box acc eq_refl eq_refl). tauto.
Qed.

Ltac check := cbv beta iota; rewrite run_bind, run_pure.

(** Either a check refuses, nothing written, or all are passed and the writes follow. *)
Lemma run_finish_checks s token dto :
  ((exists e, run (finish token dto) s = (s, Throw e))
   /\ (forall i c a, ~ (ws_sessionSecret <> ""%string /\ finish_accepted s token dto i c a)))
  \/ exists i c a, ws_sessionSecret <> ""%string /\ finish_accepted s token dto i c a
       /\ run (finish token dto) s
          = run (finish_writes i c a dto (bool_decide (is_Some (accounts s !! id_email i)))) s.
Proof.
  unfold finish, requireSessionSecret. check. case_bool_decide as Hs; [left; split; [eexists; reflexivity | by intros ??? []]|].
  cbv beta iota. rewrite run_bind, run_asking. check.
  destruct (readSessionToken token ws_sessionSecret (w_clock s)) as [i|] eqn:Ei; cbn [res_of_option];
    [|left; split; [eexists; reflexivity | intros ??? [_ [? ? ? ? _ _]]; congruence]].
  check. destruct (signedAtFresh (fd_signedAt dto) (w_clock s)) eqn:Ef; cbn [negb throw_if];
    [|left; split; [eexists; reflexivity | intros ??? [_ [? ? ? ? _ _]]; congruence]].
  check. destruct (accountOf (fd_account dto)) as [[c a]|e] eqn:Ea;
    [|left; split; [eexists; reflexivity | intros ??? [_ [? ? ? ? _ _]]; congruence]].
  cbv beta iota zeta. cbn [fst snd]. rewrite run_bind.
  assert (Hsame := run_signedForAccount c a (finishMessage (id_email i) a (fd_signedAt dto) c) (fd_signature dto)
                     (fd_network dto) s).
  destruct (run (signedForAccount _ _ _ _ _) s) as [s0 [signed|e]] eqn:Es; simpl in Hsame; subst s0;
    [|left; split; [eexists; reflexivity | intros ??? [_ [F1 _ F3 F4 _ _]]; simplify_eq; congruence]].
  check. destruct signed; cbn [negb throw_if];
    [|left; split; [eexists; reflexivity | intros ??? [_ [F1 _ F3 F4 _ _]]; simplify_eq; congruence]].
  check. destruct (match fd_backup dto with Some b => negb (isBackupBox b) | None => false end) eqn:Eb; cbn [throw_if].
  { left. split; [eexists; reflexivity|]. intros ??? [_ [_ _ _ _ F _]]. destruct (fd_backup dto) as [box|]; [|done].
    by rewrite (F box eq_refl) in Eb. }
  assert (Hbox : forall box, fd_backup dto = Some box -> isBackupBox box = true).
  { intros box Hx. rewrite Hx in Eb. by destruct (isBackupBox box). }
  cbv beta iota. unfold find_account. rewrite run_bind, run_asking. check.
  assert (Hn : (bool_decide (is_Some (fd_backup dto))
             && match (acc ← accounts s !! id_email i; Some (acc, backups_of s (wa_id acc))) with
                | Some (_, bs) => negb (existsb (is_backup_for c a) bs) && (WALLET_MAX_BACKUPS <=? length bs)%nat
                | None => false
                end) = no_room s dto i c a).
  { unfold no_room. by destruct (accounts s !! id_email i). }
  rewrite Hn. destruct (no_room s dto i c a) eqn:Er; cbn [throw_if].
  { left. split; [eexists; reflexivity|]. intros i' c' a' [_ [F1 _ F3 _ _ F6]].
    assert (i' = i) as -> by congruence. assert (c' = c /\ a' = a) as [-> ->] by (split; congruence).
    rewrite (proj2 (no_room_exact s dto i c a) F6) in Er. done. }
  right. exists i, c, a. split_and!; [done | by split; try apply no_room_exact|].
  unfold finish_writes. by destruct (accounts s !! id_email i).
Qed.

(** The account of the email is written, and nothing else but the count of draws. *)
Lemma upsert_account_writes s i c a backup : exists acc t,
  upsert_account i c a (backup || negb (bool_decide (is_Some (accounts s !! id_email i)))) s = (t, Ok acc)
  /\ account_finished s i c a backup acc /\ accounts t = <[id_email i := acc]> (accounts s)
  /\ handshakes t = handshakes s /\ codes t = codes s /\ outside t = outside s /\ backups t = backups s
  /\ w_clock t = w_clock s.
Proof.
  unfold upsert_account, account_finished. eexists _, _. split; [reflexivity|]. split_and!; try done.
  - by destruct (accounts s !! id_email i).
  - destruct (accounts s !! id_email i) as [old|]; [|done]. rewrite bool_decide_eq_true_2 by by eexists.
    rewrite orb_false_r. by destruct backup.
Qed.

(** A sign-in finishes one account, for whoever proved both halves. Run alone,
    finishing either throws with nothing written, or the session is live and its
    signature fresh and by the account named, over the challenge of that session's
    email, chain and address; then exactly the account of the email is written
    (keeping its id, and its wallet unless a backup came with it) and, with a backup,
    exactly the box of that account, chain and address, sealed; it answers linked for
    an account there was, with the keys APISIX provisioned, or throws only when
    provisioning throws or the deployment has no sealing key. Whatever is accepted is
    written. *)
Theorem finish_outcome s token dto :
  let s' := fst (run (finish token dto) s) in
  let answer := snd (run (finish token dto) s) in
  ((exists e, answer = Throw e) /\ s' = s /\ (forall i c a, ~ (ws_sessionSecret <> ""%string /\ finish_accepted s token dto i c a)))
  \/ exists identity chain address a,
       ws_sessionSecret <> ""%string /\ finish_accepted s token dto identity chain address
       /\ account_finished s identity chain address (bool_decide (is_Some (fd_backup dto))) a
       /\ accounts s' = <[id_email identity := a]> (accounts s)
       /\ handshakes s' = handshakes s /\ codes s' = codes s
       /\ match answer with
          | Ok (Finished linked keys) =>
              linked = bool_decide (is_Some (accounts s !! id_email identity))
              /\ provision (outside s) (wa_id a) (id_email identity) = Ok keys
              /\ backup_written s s' dto chain address (wa_id a)
          | Throw e =>
              (ring_current ws_keyring = None /\ is_Some (fd_backup dto) /\ backups s' = backups s)
              \/ (provision (outside s) (wa_id a) (id_email identity) = Throw e
                  /\ backup_written s s' dto chain address (wa_id a))
          end.
Proof.
  cbv zeta. destruct (run_finish_checks s token dto) as [[[e ->] Hno] | (i & c & a & Hs & Hacc & ->)].
  { left. split_and!; [by exists e | done | exact Hno]. }
  right. exists i, c, a. unfold finish_writes.
  destruct (upsert_account_writes s i c a (bool_decide (is_Some (fd_backup dto)))) as (acc & t & E & Ha & Hw & Hr).
  exists acc. rewrite run_bind, run_stmt, E.
  rewrite run_bind. destruct (run_finish_store t dto c a (wa_id acc)) as (A1 & A2 & A3 & A4 & A5).
  destruct (run _ t) as [t2 [u|e]]; cbn [fst snd] in *; destruct Hr as (R1 & R2 & R3 & R4 & R5).
  - rewrite run_bind, run_asking, run_bind, run_pure, A4, R3.
    assert (Hb : backup_written s t2 dto c a (wa_id acc)).
    { unfold backup_written in *. by rewrite R4, R5 in A5. }
    destruct (provision (outside s) (wa_id acc) (id_email i)) as [keys|e]; cbn [fst snd run];
      rewrite ?A1, ?A2, ?A3; split_and!; try done. by right.
  - cbn [fst snd]. rewrite A1, A2, A3. rewrite R4 in A5. split_and!; try done. by left.
Qed.
End finishing.

(** ** A code under attack, and one redeemed twice *)

#[local] Existing Instance sample_node.
#[local] Existing Instance sample_laws.
#[local] Existing Instance sample_verify.
#[local] Existing Instance sample_curves.
#[local] Existing Instance sample_env.

Definition sample_guess (n : Z) : VerifyWalletEmailDto := mkVerifyDto "claim" (sixDigitCode n).

Definition sample_code : LoginCode :=
  mkLoginCode "ana@example.com" None None M_EMAIL (sha256Hex "claim") (sha256Hex (sixDigitCode 42)) 0 L_PENDING 0 600
    None.

Definition sample_coded : Wallets :=
  mkWallets ∅ {[sha256Hex "claim" := sample_code]} ∅ ∅ (mkCaches ∅ ∅) sample_outside [] [] 100 7.

Definition sample_wrong : list VerifyWalletEmailDto := List.map sample_guess [1; 2; 3; 4; 5].

Lemma sample_open : open_code sample_coded (sha256Hex "claim") sample_code.
Proof. split_and!; [reflexivity | reflexivity | simpl; lia]. Qed.

Lemma sample_wrong_named : Forall (named (sha256Hex "claim")) sample_wrong.
Proof. by repeat constructor. Qed.

Lemma sample_wrong_codes : Forall (fun dto => sha256Hex (vd_code dto) <> codeHash sample_code) sample_wrong.
Proof. by repeat constructor. Qed.

Lemma wrong_guesses_uncounted_witness :
  (exists l s', star (pool_step wallet_request (wallet_world (fun _ => True))) (List.map answer_verify sample_wrong, sample_coded) (l, s')
     /\ codes s' !! sha256Hex "claim" = Some (set_guess 1 L_PENDING sample_code)
     /\ forall dto, dto ∈ sample_wrong -> AnsweredVerify dto (VerifyInvalid 4) ∈ trail s')
  /\ exists r, codes (run_all (List.map answer_verify sample_wrong) sample_coded) !! sha256Hex "claim" = Some r
               /\ lc_status r = L_LOCKED.
Proof.
  destruct (wrong_guesses_uncounted (fun _ => True) sample_coded (sha256Hex "claim") sample_code sample_wrong)
    as [H1 H2];
    [exact sample_open | reflexivity | done | exact sample_wrong_named | exact sample_wrong_codes|].
  split; [exact H1 | exact (H2 eq_refl)].
Defined.

Lemma code_redeemed_twice_witness : exists l s' r1 r2,
  star (pool_step wallet_request (wallet_world (fun _ => True)))
    ([answer_verify (sample_guess 42); answer_verify (sample_guess 42); answer_verify (sample_guess 1)], sample_coded)
    (l, s')
  /\ AnsweredVerify (sample_guess 42) (VerifyReady r1) ∈ trail s'
  /\ trail s' = [Claimed (sha256Hex "claim"); AnsweredVerify (sample_guess 42) (VerifyReady r1);
                 AnsweredVerify (sample_guess 1) (VerifyInvalid 4);
                 Claimed (sha256Hex "claim"); AnsweredVerify (sample_guess 42) (VerifyReady r2)].
Proof.
  destruct (code_redeemed_twice (fun _ => True) sample_coded (sha256Hex "claim") sample_code (sample_guess 42)
              (sample_guess 1)) as (l & s' & r1 & r2 & Hs & Ht & _);
    [done | exact sample_open | simpl; unfold LOGIN_CODE_MAX_ATTEMPTS; lia | done | done | done | done|].
  exists l, s', r1, r2. split_and!; [exact Hs | | exact Ht]. rewrite Ht. simpl. set_solver.
Defined.

(** ** A sign-in finished *)

Definition sample_person : WalletAuthIdentity := mkIdentity "ana@example.com" (Some "Ana"%string) None M_EMAIL.
Definition sample_session : string :=
  match issueSessionToken (randomIv 0) sample_person ws_sessionSecret 0 with Ok t => t | Throw _ => ""%string end.
Definition sample_finish : FinishWalletSignInDto :=
  mkFinishDto (mkNamed None None (Some "GA"%string)) "1970-01-01T00:00:00Z" (to_hex "0123456789abcdef0123456789abcdef") None None.

Example sample_finished : snd (run (finish sample_session sample_finish) sample_start)
                          = Ok (Finished true (mkWalletKeys "org" "dev" "prod")).
Proof. vm_compute. reflexivity. Qed.
