(* ===== verification/EasyRecovery.v ===== *)
(** Easy recovery (src/src/easy-recovery/): the five-minute mailbox that moves a
    wallet from an old device to a new one, with its sweeper, in any interleaving of
    its routes over several replicas. *)

From S2P Require Import Prelude Text Programs Tokens NodeSample.
From stdpp Require Import base tactics list option gmap strings sorting.
From Stdlib Require Import ZArith Lia Ascii.

Open Scope Z_scope.

(** ** The rules (easy-recovery-core.ts, easy-recovery.constants.ts) *)

Definition EASY_RECOVERY_TTL_MS : Z := 300000.
Definition EASY_RECOVERY_MAX_ATTEMPTS : Z := 5.
Definition EASY_RECOVERY_SESSION_ID_CHARS : nat := 22.
Definition EASY_RECOVERY_RECEIVER_KEY_BYTES : nat := 32.
Definition EASY_RECOVERY_RECEIVER_KEY_CHARS : nat := 43.
Definition EASY_RECOVERY_SWEEP_BATCH_SIZE : nat := 500.
Definition EASY_RECOVERY_SWEEP_MAX_PER_CYCLE : nat := 20000.

Inductive EasyRecoveryStatus := OPEN | OFFERED | CLAIMED.
#[export] Instance EasyRecoveryStatus_eq_dec : EqDecision EasyRecoveryStatus.
Proof. solve_decision. Defined.

Definition EASY_RECOVERY_WIRE_STATUS (st : EasyRecoveryStatus) : string :=
  match st with OPEN => "open" | OFFERED => "offered" | CLAIMED => "claimed" end.

(** [EasyRecoverySession] (prisma/schema.prisma), by its id. *)
Record EasyRecoverySession := mkSession {
  receiverKey : string;
  es_status : EasyRecoveryStatus;
  ciphertext : option string;
  es_codeHash : option string;
  es_attempts : Z;
  es_expiresAt : Z
}.

(** The ids the CSPRNG gives, and whether x25519 takes the bytes of a public key. *)
Class EasyEnv := mkEasyEnv {
  newSessionId : nat -> string;
  sharedSecret : string -> bool
}.

(** [Buffer.from(s, 'hex')]: up to the first pair that is not one. *)
Fixpoint hex_buffer (s : string) : string :=
  match s with
  | String a (String b r) =>
      if is_hex a && is_hex b
      then String (ascii_of_nat (Z.to_nat (hex_val a * 16 + hex_val b))) (hex_buffer r)
      else ""
  | _ => ""
  end%string.

Section rules.
Context `{NODE : Node} `{ENV : EasyEnv}.

Definition isSessionId (id : string) : bool :=
  (String.length id =? EASY_RECOVERY_SESSION_ID_CHARS)%nat && all_chars is_b64url id.

Definition isReceiverKey (value : string) : bool :=
  if negb (String.length value =? EASY_RECOVERY_RECEIVER_KEY_CHARS)%nat then false
  else
    let bytes := from_base64url value in
    if negb (String.length bytes =? EASY_RECOVERY_RECEIVER_KEY_BYTES)%nat
       || negb (bool_decide (base64url bytes = value))
    then false
    else sharedSecret bytes.

Definition easyRecoveryCodeHash (id code : string) : string := sha256Hex (id +:+ ":" +:+ code)%string.

Definition easyRecoveryCodeMatches (id code : string) (storedHash : option string) : bool :=
  match storedHash with
  | None => false
  | Some stored =>
      if bool_decide (stored = ""%string) then false
      else bool_decide (hex_buffer (easyRecoveryCodeHash id code) = hex_buffer stored)
  end.

Definition isLiveSession (row : option EasyRecoverySession) (now : Z) : bool :=
  match row with
  | Some r => (now <? es_expiresAt r) && (es_attempts r <? EASY_RECOVERY_MAX_ATTEMPTS)
  | None => false
  end.
End rules.

(** ** The table, and what happened

    [GuessedWrong] and [GuessedRight] are the claims whose code was decided: counted,
    or traded for the secret; [Answered] is what a claim was answered. No method
    reads the history. *)
Inductive MailboxEvent :=
  | Opened (id : string) (at_ : Z)
  | Offered (id secret code : string)
  | GuessedWrong (id code : string)
  | GuessedRight (id code secret : string) (at_ : Z)
  | Answered (id code : string) (reply : res string).

Record Mailbox := mkMailbox {
  sessions : gmap string EasyRecoverySession;
  m_history : list MailboxEvent;
  m_clock : Z;
  m_drawn : nat
}.

Abbreviation mailbox := (prog Mailbox).

Definition set_sessions (f : gmap string EasyRecoverySession -> gmap string EasyRecoverySession) (s : Mailbox) : Mailbox :=
  mkMailbox (f (sessions s)) (m_history s) (m_clock s) (m_drawn s).
Definition m_log (e : MailboxEvent) (s : Mailbox) : Mailbox :=
  mkMailbox (sessions s) (m_history s ++ [e]) (m_clock s) (m_drawn s).

(** [updateMany({ where: { id, ...where }, data })]: how many rows it wrote. *)
Definition update_session (id : string) (where_ : EasyRecoverySession -> bool)
    (data : EasyRecoverySession -> EasyRecoverySession) (e : MailboxEvent) : svc Mailbox nat := fun s =>
  match sessions s !! id with
  | Some r => if where_ r then (m_log e (set_sessions (fun m => <[id := data r]> m) s), Ok 1%nat) else (s, Ok 0%nat)
  | None => (s, Ok 0%nat)
  end.

(** [deleteMany({ where })] *)
Definition delete_sessions (where_ : string -> EasyRecoverySession -> bool) : svc Mailbox unit := fun s =>
  (set_sessions (filter (fun x => where_ (fst x) (snd x) = false)) s, Ok tt).

(** ** The service (easy-recovery.service.ts) *)

Definition session_not_found : exn := ApiError 404 EasyRecoveryNotFound.
Definition gone_burned : exn := ApiError 410 EasyRecoveryBurned.
Definition code_invalid (left_ : Z) : exn := ApiError 422 (EasyRecoveryCodeInvalid left_).

Section service.
Context `{NODE : Node} `{ENV : EasyEnv}.

(** [create] with an id drawn for it, the primary key. *)
Definition create_session (receiver : string) (now : Z) : svc Mailbox string := fun s =>
  let id := newSessionId (m_drawn s) in
  let s := mkMailbox (sessions s) (m_history s) (m_clock s) (S (m_drawn s)) in
  match sessions s !! id with
  | Some _ => (s, Throw (UniqueViolation "id"))
  | None => (m_log (Opened id now)
               (set_sessions (fun m => <[id := mkSession receiver OPEN None None 0 (now + EASY_RECOVERY_TTL_MS)]> m) s), Ok id)
  end.

Definition createSession (receiver : string) : mailbox (string * Z) :=
  now ← asking m_clock;
  id ← stmt (create_session receiver now);
  Ret (id, now + EASY_RECOVERY_TTL_MS).

Definition findLive (id : string) (now : Z) : mailbox EasyRecoverySession :=
  if negb (isSessionId id) then Raise session_not_found
  else
    row ← asking (fun s => sessions s !! id);
    match row with
    | Some r => if isLiveSession row now then Ret r else Raise session_not_found
    | None => Raise session_not_found
    end.

Definition status (id : string) : mailbox (string * Z) :=
  now ← asking m_clock;
  row ← findLive id now;
  Ret (EASY_RECOVERY_WIRE_STATUS (es_status row), es_expiresAt row).

Definition offer (id secret code : string) : mailbox unit :=
  if negb (isSessionId id) then Raise session_not_found
  else
    now ← asking m_clock;
    offered ← stmt (update_session id
      (fun r => bool_decide (es_status r = OPEN) && (now <? es_expiresAt r))
      (fun r => mkSession (receiverKey r) OFFERED (Some secret) (Some (easyRecoveryCodeHash id code)) (es_attempts r)
                  (es_expiresAt r))
      (Offered id secret code));
    if (offered =? 1)%nat then Ret tt
    else
      _ ← findLive id now;
      Raise (conflict EasyRecoveryAlreadyOffered).

(** The row of an update that decides a code. *)
Definition answerable (now : Z) (r : EasyRecoverySession) : bool :=
  bool_decide (es_status r = OFFERED) && (es_attempts r <? EASY_RECOVERY_MAX_ATTEMPTS) && (now <? es_expiresAt r).

Definition one_more (r : EasyRecoverySession) : EasyRecoverySession :=
  mkSession (receiverKey r) (es_status r) (ciphertext r) (es_codeHash r) (es_attempts r + 1) (es_expiresAt r).
Definition claimed (r : EasyRecoverySession) : EasyRecoverySession :=
  mkSession (receiverKey r) CLAIMED None None (es_attempts r) (es_expiresAt r).

Definition refuseCode (id code : string) (now : Z) : mailbox string :=
  counted ← stmt (update_session id (answerable now) one_more (GuessedWrong id code));
  if (counted =? 0)%nat then Raise session_not_found
  else
    after_ ← asking (fun s => sessions s !! id);
    let attempts := default EASY_RECOVERY_MAX_ATTEMPTS (es_attempts <$> after_) in
    if EASY_RECOVERY_MAX_ATTEMPTS <=? attempts then
      _ ← stmt (delete_sessions (fun k r => bool_decide (k = id) && (EASY_RECOVERY_MAX_ATTEMPTS <=? es_attempts r)));
      Raise gone_burned
    else Raise (code_invalid (EASY_RECOVERY_MAX_ATTEMPTS - attempts)).

Definition claim (id code : string) : mailbox string :=
  if negb (isSessionId id) then Raise session_not_found
  else
    now ← asking m_clock;
    row ← asking (fun s => sessions s !! id);
    match row with
    | None => Raise session_not_found
    | Some r =>
        if negb (isLiveSession row now) || bool_decide (es_status r = CLAIMED) then Raise session_not_found
        else if bool_decide (es_status r = OPEN) then Raise (conflict EasyRecoveryNotOffered)
        else
          match ciphertext r, es_codeHash r with
          | Some secret, Some h =>
              if negb (easyRecoveryCodeMatches id code (Some h)) then refuseCode id code now
              else
                count ← stmt (update_session id (answerable now) claimed (GuessedRight id code secret now));
                if (count =? 1)%nat then Ret secret else Raise session_not_found
          | _, _ => Raise session_not_found
          end
    end.
End service.

(** ** The sweeper (easy-recovery-sweeper.service.ts) *)

Definition session_rows (s : Mailbox) : list (string * EasyRecoverySession) := map_to_list (sessions s).

Definition earlier_expiry (a b : string * EasyRecoverySession) : Prop :=
  es_expiresAt (snd a) <= es_expiresAt (snd b).
#[export] Instance earlier_expiry_dec a b : Decision (earlier_expiry a b).
Proof. unfold earlier_expiry. apply _. Defined.

Definition expired_page (now : Z) (s : Mailbox) : list string :=
  (take EASY_RECOVERY_SWEEP_BATCH_SIZE
     (merge_sort earlier_expiry (List.filter (fun x => es_expiresAt (snd x) <? now) (session_rows s)))).*1.

(** Full pages only go on, so the cap is met after forty of them: [rounds] is what
    is left of the cap in pages. *)
Fixpoint sweep_pages (rounds : nat) (now : Z) : mailbox unit :=
  match rounds with
  | O => Ret tt
  | S rounds =>
      page ← asking (expired_page now);
      if (length page =? 0)%nat then Ret tt
      else
        _ ← stmt (delete_sessions (fun k r => bool_decide (k ∈ page) && (es_expiresAt r <? now)));
        if (length page <? EASY_RECOVERY_SWEEP_BATCH_SIZE)%nat then Ret tt else sweep_pages rounds now
  end.

Definition easy_sweep : mailbox unit :=
  now ← asking m_clock;
  sweep_pages (EASY_RECOVERY_SWEEP_MAX_PER_CYCLE / EASY_RECOVERY_SWEEP_BATCH_SIZE) now.
