(* ===== verification/EasyRecoveryPool.v ===== *)
(** Easy recovery in any interleaving of its routes, sweeps and expiries: at most
    five codes of a session are ever told right or wrong
    ([five_codes_answered]), and the secret is handed out once, for the code it was
    offered under ([secret_traded_once]). *)

From S2P Require Import Prelude Text Programs Tokens NodeSample EasyRecovery.
From stdpp Require Import base tactics list option gmap strings sorting.
From Stdlib Require Import ZArith Lia Ascii.

Open Scope Z_scope.

(** ** Requests *)

Definition answer_guess `{NODE : Node} `{ENV : EasyEnv} (id code : string) : mailbox unit :=
  reply ← catching (secret ← claim id code; Ret (Ok secret)) (fun e => Ret (Throw e));
  stmt (fun s => (m_log (Answered id code reply) s, Ok tt)).

Inductive easy_request `{NODE : Node} `{ENV : EasyEnv} : mailbox unit -> Prop :=
  | rq_create receiver : easy_request (discard (createSession receiver))
  | rq_status id : easy_request (discard (status id))
  | rq_offer id secret code : easy_request (offer id secret code)
  | rq_claim id code : easy_request (answer_guess id code)
  | rq_sweep : easy_request easy_sweep.

(** Time passes. *)
Definition easy_world (s s' : Mailbox) : Prop :=
  sessions s' = sessions s /\ m_history s' = m_history s /\ m_drawn s' = m_drawn s.

Definition easy_execution `{NODE : Node} `{ENV : EasyEnv} (l : list (mailbox unit)) (s : Mailbox) : Prop :=
  exists s0, sessions s0 = ∅ /\ m_history s0 = [] /\ star (pool_step easy_request easy_world) ([], s0) (l, s).

Section pool.
Context `{NODE : Node} `{ENV : EasyEnv} (ids_fresh : forall n m, newSessionId n = newSessionId m -> n = m).

(** ** The invariant *)

Definition offers_of (id : string) (e : MailboxEvent) : bool :=
  match e with Offered i _ _ => bool_decide (i = id) | _ => false end.
Definition wrong_of (id : string) (e : MailboxEvent) : bool :=
  match e with GuessedWrong i _ => bool_decide (i = id) | _ => false end.
Definition right_of (id : string) (e : MailboxEvent) : bool :=
  match e with GuessedRight i _ _ _ => bool_decide (i = id) | _ => false end.

(** The session an event is about. *)
Definition event_id (e : MailboxEvent) : option string :=
  match e with
  | Opened i _ | Offered i _ _ | GuessedWrong i _ | GuessedRight i _ _ _ => Some i
  | Answered _ _ _ => None
  end.

Record row_ok (h : list MailboxEvent) (id : string) (r : EasyRecoverySession) : Prop := {
  rw_opened : exists at_, Opened id at_ ∈ h /\ es_expiresAt r = at_ + EASY_RECOVERY_TTL_MS;
  rw_attempts : es_attempts r = Z.of_nat (count_of (wrong_of id) h);
  rw_open : es_status r = OPEN ->
    ciphertext r = None /\ count_of (offers_of id) h = 0%nat /\ count_of (right_of id) h = 0%nat;
  rw_offered : es_status r = OFFERED -> count_of (right_of id) h = 0%nat
    /\ exists secret code, Offered id secret code ∈ h /\ ciphertext r = Some secret
         /\ es_codeHash r = Some (easyRecoveryCodeHash id code)
}.

(** An answer that tells whether the code is right. *)
Definition tells (reply : res string) : bool :=
  match reply with
  | Ok _ => true
  | Throw (ApiError 410 _) => true
  | Throw (ApiError 422 _) => true
  | Throw _ => false
  end.

Definition traded (h : list MailboxEvent) (id code secret : string) (at_ : Z) : Prop :=
  exists code0 opened, Offered id secret code0 ∈ h /\ Opened id opened ∈ h
    /\ easyRecoveryCodeMatches id code (Some (easyRecoveryCodeHash id code0)) = true
    /\ at_ < opened + EASY_RECOVERY_TTL_MS.

Definition decided (h : list MailboxEvent) (id code : string) (reply : res string) : Prop :=
  match reply with
  | Ok secret => exists at_, GuessedRight id code secret at_ ∈ h
  | Throw e => if tells reply then GuessedWrong id code ∈ h else True
  end.

Definition mail_event_ok (h : list MailboxEvent) (e : MailboxEvent) : Prop :=
  match e with
  | GuessedRight id code secret at_ => traded h id code secret at_
  | Answered id code reply => decided h id code reply
  | _ => True
  end.

Record mailbox_ok (s : Mailbox) : Prop := {
  mb_drawn : forall e i, e ∈ m_history s -> event_id e = Some i -> exists n, (n < m_drawn s)%nat /\ i = newSessionId n;
  mb_rows : map_Forall (row_ok (m_history s)) (sessions s);
  mb_events : Forall (mail_event_ok (m_history s)) (m_history s);
  mb_once : forall id, (count_of (offers_of id) (m_history s) <= 1)%nat /\ (count_of (right_of id) (m_history s) <= 1)%nat
    /\ Z.of_nat (count_of (wrong_of id) (m_history s) + count_of (right_of id) (m_history s)) <= EASY_RECOVERY_MAX_ATTEMPTS
}.

Definition mail_later (s s' : Mailbox) : Prop := forall e, e ∈ m_history s -> e ∈ m_history s'.
#[export] Instance mail_later_preorder : PreOrder mail_later.
Proof. split; [by intros s e | intros s t u H1 H2 e He; by apply H2, H1]. Qed.

#[local] Abbreviation ok := (safe mailbox_ok mail_later).
#[local] Abbreviation yields := (ensures mailbox_ok mail_later).

Lemma decided_mono h h' id code reply : h ⊆ h' -> decided h id code reply -> decided h' id code reply.
Proof. unfold decided. intros H. destruct reply as [x|e]; [naive_solver|]. destruct (tells _); [apply H | done]. Qed.

Lemma mail_event_mono h h' e : h ⊆ h' -> mail_event_ok h e -> mail_event_ok h' e.
Proof.
  intros H. destruct e as [| | |id code secret at_|id code reply]; simpl; try done; [unfold traded; naive_solver|].
  by apply decided_mono.
Qed.

(** A row keeps well while events of other sessions, or answers, are added. *)
Lemma row_mono h e id r : event_id e <> Some id -> row_ok h id r -> row_ok (h ++ [e]) id r.
Proof.
  intros Hne [[a [H1 H2]] H3 H4 H5].
  assert (E : wrong_of id e = false /\ right_of id e = false /\ offers_of id e = false).
  { destruct e; simpl in *; try done; split_and!; try done; apply bool_decide_eq_false_2; congruence. }
  destruct E as (E1 & E2 & E3). split.
  - exists a. split; [set_solver | done].
  - by rewrite count_snoc, E1, Nat.add_0_r.
  - intros Hst. rewrite !count_snoc, E2, E3, !Nat.add_0_r. by apply H4.
  - intros Hst. rewrite count_snoc, E2, Nat.add_0_r. destruct (H5 Hst) as (? & x & c & ? & ?). split; [done|].
    exists x, c. split; [set_solver | done].
Qed.
(** ** The statements *)

Definition once_at (h : list MailboxEvent) (id : string) : Prop :=
  (count_of (offers_of id) h <= 1)%nat /\ (count_of (right_of id) h <= 1)%nat
  /\ Z.of_nat (count_of (wrong_of id) h + count_of (right_of id) h) <= EASY_RECOVERY_MAX_ATTEMPTS.

Lemma once_other h e id : event_id e <> Some id -> once_at h id -> once_at (h ++ [e]) id.
Proof.
  intros Hne H. unfold once_at. rewrite !count_snoc.
  assert (E : wrong_of id e = false /\ right_of id e = false /\ offers_of id e = false).
  { destruct e; simpl in *; try done; split_and!; try done; apply bool_decide_eq_false_2; congruence. }
  destruct E as (-> & -> & ->). by rewrite !Nat.add_0_r.
Qed.

(** A statement that records [e], an event of [id], and writes that row only. *)
Lemma recorded s s' id r e :
  sessions s' = <[id := r]> (sessions s) -> m_history s' = m_history s ++ [e] ->
  event_id e = Some id -> (m_drawn s <= m_drawn s')%nat -> (exists n, (n < m_drawn s')%nat /\ id = newSessionId n) ->
  row_ok (m_history s') id r -> mail_event_ok (m_history s') e -> once_at (m_history s') id ->
  mailbox_ok s -> mailbox_ok s' /\ mail_later s s'.
Proof.
  intros Es Eh He Hd Hid Hr Hev Ho [D R E O].
  assert (Hsub : m_history s ⊆ m_history s') by (rewrite Eh; set_solver).
  split; [|exact Hsub]. split.
  - intros x i. rewrite Eh, elem_of_app, list_elem_of_singleton. intros [Hx | ->] Hi; [|by simplify_eq].
    destruct (D x i Hx Hi) as (n & ? & ->). exists n. split; [lia | done].
  - rewrite Es. intros k x [[<- <-]|[Hne Hk]]%lookup_insert_Some; [done|]. rewrite Eh.
    apply row_mono; [congruence | by apply R].
  - rewrite Eh at 2. apply Forall_app. split; [|by constructor].
    eapply Forall_impl; [exact E|]. intros x. by apply mail_event_mono.
  - intros k. destruct (decide (k = id)) as [->|Hne]; [done|]. rewrite Eh. apply once_other; [congruence | apply O].
Qed.

Lemma answered_ok s s0 id code reply :
  mail_later s s0 -> decided (m_history s) id code reply ->
  ok (stmt (fun w => (m_log (Answered id code reply) w, Ok tt))) s0.
Proof.
  intros M Hd. apply (safe_stmt mailbox_ok mail_later). intros t Ht [D R E O]. simpl.
  split; [|intros e He; simpl; set_solver]. split; simpl.
  - intros x i. rewrite elem_of_app, list_elem_of_singleton. intros [Hx | ->] Hi; [by apply (D x i) | done].
  - intros k x Hk. apply row_mono; [done | by apply R].
  - apply Forall_app. split.
    + eapply Forall_impl; [exact E|]. intros x. apply mail_event_mono. set_solver.
    + constructor; [|done]. simpl. eapply decided_mono; [|exact Hd]. intros x Hx. apply elem_of_app. left. by apply Ht, M.
  - intros k. apply once_other; [done | apply O].
Qed.

Lemma sessions_deleted_ok where_ s0 :
  wp mailbox_ok mail_later (stmt (delete_sessions where_)) (fun r _ => r = Ok tt) s0.
Proof.
  apply (wp_stmt mailbox_ok mail_later). intros s _ [D R E O]. split_and!; [|by intros e | done]. split; simpl; try done.
  intros k r [Hk _]%map_lookup_filter_Some. by apply R.
Qed.

Lemma session_updated_ok id where_ data e s0 (P : nat -> Mailbox -> Prop) :
  event_id e = Some id -> (forall s, P 0%nat s) ->
  (forall s r, mail_later s0 s -> mailbox_ok s -> sessions s !! id = Some r -> where_ r = true ->
     row_ok (m_history s ++ [e]) id (data r) /\ mail_event_ok (m_history s ++ [e]) e /\ once_at (m_history s ++ [e]) id) ->
  (forall s, e ∈ m_history s -> P 1%nat s) ->
  wp mailbox_ok mail_later (stmt (update_session id where_ data e))
    (fun r s => match r with Ok n => P n s | Throw _ => False end) s0.
Proof.
  intros He H0 H H1. apply (wp_stmt mailbox_ok mail_later). intros s Hs V. unfold update_session.
  destruct (sessions s !! id) as [r|] eqn:Er; [|split_and!; [done | done | apply H0]].
  destruct (where_ r) eqn:Ew; [|split_and!; [done | done | apply H0]]. cbn [fst snd].
  destruct (H s r Hs V Er Ew) as (A & B & C).
  destruct (recorded s (m_log e (set_sessions (fun m => <[id := data r]> m) s)) id (data r) e) as [V' M]; try done.
  - destruct (rw_opened _ _ _ (mb_rows _ V id r Er)) as (a & Ha & _). by apply (mb_drawn _ V (Opened id a)).
  - split_and!; [done | done|]. apply H1. simpl. set_solver.
Qed.
(** ** The methods *)

Lemma fresh_id s e : mailbox_ok s -> e ∈ m_history s -> event_id e <> Some (newSessionId (m_drawn s)).
Proof. intros V He Hi. destruct (mb_drawn _ V e _ He Hi) as (n & Hn & E). apply ids_fresh in E. lia. Qed.

Lemma no_events s p : mailbox_ok s ->
  (forall e, p e = true -> event_id e = Some (newSessionId (m_drawn s))) -> count_of p (m_history s) = 0%nat.
Proof.
  intros V H. apply count_zero. intros e He. destruct (p e) eqn:Ep; [|done]. by destruct (fresh_id s e V He), (H e Ep).
Qed.

Lemma createSession_ok receiver s0 : ok (createSession receiver) s0.
Proof.
  apply (ensures_safe mailbox_ok mail_later _ (fun _ _ => True)). unfold createSession.
  apply (ensures_asking_bind mailbox_ok mail_later). intros s1 _ _.
  apply (ensures_stmt_bind mailbox_ok mail_later). intros s _ V.
  match goal with |- ?A /\ ?B /\ ?C => cut (A /\ B); [intros [? ?]; split_and!; [done..|]; by intros|] end.
  unfold create_session. cbn [sessions]. destruct (sessions s !! _) eqn:Es.
  { split; [|by intros x]. destruct V as [D R E O]. split; simpl; try done.
    intros x i He Hi. destruct (D x i He Hi) as (n & ? & ?). exists n. split; [lia | done]. }
  set (id := newSessionId (m_drawn s)) in *.
  assert (Z1 : count_of (wrong_of id) (m_history s) = 0%nat).
  { apply no_events; [done|]. intros [] H; simpl in *; try done. by apply bool_decide_eq_true in H as ->. }
  assert (Z2 : count_of (right_of id) (m_history s) = 0%nat).
  { apply no_events; [done|]. intros [] H; simpl in *; try done. by apply bool_decide_eq_true in H as ->. }
  assert (Z3 : count_of (offers_of id) (m_history s) = 0%nat).
  { apply no_events; [done|]. intros [] H; simpl in *; try done. by apply bool_decide_eq_true in H as ->. }
  eapply (recorded s _ id _ (Opened id (m_clock s1))); simpl; try done; [lia | by exists (m_drawn s); split; [lia|] | |].
  - split; simpl; try done.
    + exists (m_clock s1). split; [set_solver | done].
    + by rewrite count_snoc, Z1.
    + intros _. by rewrite !count_snoc, Z2, Z3.
  - unfold once_at. rewrite !count_snoc, Z1, Z2, Z3. simpl. unfold EASY_RECOVERY_MAX_ATTEMPTS. lia.
Qed.

Lemma findLive_ok id now s0 : ok (findLive id now) s0.
Proof.
  unfold findLive. destruct (negb _); [done|]. apply (safe_asking_bind mailbox_ok mail_later). intros s _ _.
  destruct (sessions s !! id); [|done]. by destruct (isLiveSession _ _).
Qed.

Lemma status_ok id s0 : ok (status id) s0.
Proof.
  unfold status. apply (safe_asking_bind mailbox_ok mail_later). intros s1 _ _.
  apply (safe_bind mailbox_ok mail_later); [apply findLive_ok | done].
Qed.

Lemma offer_ok id secret code s0 : ok (offer id secret code) s0.
Proof.
  apply (ensures_safe mailbox_ok mail_later _ (fun _ _ => True)). unfold offer. destruct (negb _); [done|].
  apply (ensures_asking_bind mailbox_ok mail_later). intros s1 _ _.
  apply (ensures_bind mailbox_ok mail_later (fun _ _ => True)).
  - eapply (wp_mono mailbox_ok mail_later); [apply (session_updated_ok id _ _ (Offered id secret code) s1 (fun _ _ => True)); try done | by intros [n|x]].
    intros s r _ V Er [Hst _]%andb_true_iff. apply bool_decide_eq_true in Hst.
    destruct (mb_rows _ V id r Er) as [[a [Ha Hx]] H2 H3 _]. destruct (H3 Hst) as (_ & Z1 & Z2).
    destruct (mb_once _ V id) as (_ & _ & Hw).
    split_and!; [|done|].
    + split; simpl; try done.
      * exists a. split; [set_solver | done].
      * by rewrite H2, count_snoc, Nat.add_0_r.
      * intros _. rewrite count_snoc, Z2. split; [done|]. exists secret, code. split_and!; [set_solver | done | done].
    + unfold once_at. rewrite !count_snoc, Z1, Z2. simpl. rewrite bool_decide_eq_true_2 by done. lia.
  - intros n s _ _. destruct (n =? 1)%nat; [done|]. apply (ensures_bind mailbox_ok mail_later (fun _ _ => True)).
    + apply (safe_ensures mailbox_ok mail_later), findLive_ok.
    + done.
Qed.

(** A wrong code is answered once it is counted, or not at all. *)
Definition answer_ok (id code : string) (r : res string) (s : Mailbox) : Prop := decided (m_history s) id code r.

Lemma answerable_facts now r :
  answerable now r = true -> es_status r = OFFERED /\ es_attempts r < EASY_RECOVERY_MAX_ATTEMPTS /\ now < es_expiresAt r.
Proof. unfold answerable. rewrite !andb_true_iff, bool_decide_eq_true, !Z.ltb_lt. tauto. Qed.

Lemma refuseCode_ok id code now s0 :
  wp mailbox_ok mail_later (refuseCode id code now) (answer_ok id code) s0.
Proof.
  unfold refuseCode. apply (wp_bind mailbox_ok mail_later).
  eapply (wp_mono mailbox_ok mail_later).
  - apply (session_updated_ok id (answerable now) one_more (GuessedWrong id code) s0
             (fun n s => n = 0%nat \/ GuessedWrong id code ∈ m_history s)); [done | by left | | by right].
    intros s r _ V Er Hw. apply answerable_facts in Hw as (Hst & Hlt & _).
    destruct (mb_rows _ V id r Er) as [[a [Ha Hx]] H2 _ H4]. destruct (H4 Hst) as (Z2 & x & c & Hc & Hct & Hh).
    destruct (mb_once _ V id) as (Hof & _ & _). split_and!; [|done|].
    + split; simpl.
      * exists a. split; [set_solver | done].
      * rewrite H2, count_snoc. simpl. rewrite bool_decide_eq_true_2 by done. lia.
      * congruence.
      * intros _. rewrite count_snoc, Z2. split; [done|]. exists x, c. split_and!; [set_solver | done | done].
    + unfold once_at. rewrite !count_snoc, Z2. simpl. rewrite bool_decide_eq_true_2 by done.
      rewrite Nat.add_0_r. lia.
  - intros [n|x] s _ H; [|done]. destruct H as [->|Hin]; [exact I|]. destruct (n =? 0)%nat; [exact I|].
    apply (wp_bind mailbox_ok mail_later), (wp_asking mailbox_ok mail_later). intros s1 M1 _. cbv zeta.
    destruct (EASY_RECOVERY_MAX_ATTEMPTS <=? _).
    + apply (wp_bind mailbox_ok mail_later). eapply (wp_mono mailbox_ok mail_later); [apply sessions_deleted_ok|].
      intros r s2 M2 ->. simpl. by apply M2, M1.
    + simpl. by apply M1.
Qed.
Lemma trade_ok id code secret now s s0 :
  mail_later s s0 -> (exists c, Offered id secret c ∈ m_history s
    /\ easyRecoveryCodeMatches id code (Some (easyRecoveryCodeHash id c)) = true) ->
  wp mailbox_ok mail_later
    (stmt (update_session id (answerable now) claimed (GuessedRight id code secret now)))
    (fun r s => match r with Ok n => n = 0%nat \/ GuessedRight id code secret now ∈ m_history s | Throw _ => False end) s0.
Proof.
  intros M (c & Hc & Hm).
  apply (session_updated_ok id _ _ _ s0 (fun n s => n = 0%nat \/ GuessedRight id code secret now ∈ m_history s));
    [done | by left | | by right].
  intros t r Mt V Er Hw. apply answerable_facts in Hw as (Hst & Hlt & Hnow).
  destruct (mb_rows _ V id r Er) as [[a [Ha Hx]] H2 _ H4]. destruct (H4 Hst) as (Z2 & _).
  destruct (mb_once _ V id) as (Hof & _ & _). split_and!.
  - split; simpl; try done.
    + exists a. split; [set_solver | done].
    + by rewrite H2, count_snoc, Nat.add_0_r.
  - exists c, a. split_and!; [|set_solver | done | lia]. apply elem_of_app. left. by apply Mt, M.
  - unfold once_at. rewrite !count_snoc, Z2. simpl. rewrite bool_decide_eq_true_2 by done. lia.
Qed.

Lemma claim_ok id code s0 : wp mailbox_ok mail_later (claim id code) (answer_ok id code) s0.
Proof.
  unfold claim. destruct (negb _); [exact I|].
  apply (wp_bind mailbox_ok mail_later), (wp_asking mailbox_ok mail_later). intros s1 _ _.
  apply (wp_bind mailbox_ok mail_later), (wp_asking mailbox_ok mail_later). intros s M V.
  destruct (sessions s !! id) as [r|] eqn:Er; [|exact I].
  destruct (negb _ || bool_decide (es_status r = CLAIMED)) eqn:El; [exact I|].
  apply orb_false_iff in El as [_ Hncl]. apply bool_decide_eq_false in Hncl.
  destruct (bool_decide (es_status r = OPEN)) eqn:Eo; [exact I|]. apply bool_decide_eq_false in Eo.
  assert (Hst : es_status r = OFFERED) by by destruct (es_status r).
  destruct (rw_offered _ _ _ (mb_rows _ V id r Er) Hst) as (_ & x & c & Hc & -> & ->).
  destruct (easyRecoveryCodeMatches id code _) eqn:Em; cbn [negb]; cbv iota; [|apply refuseCode_ok].
  apply (wp_bind mailbox_ok mail_later). eapply (wp_mono mailbox_ok mail_later); [apply (trade_ok id code x (m_clock s1) s); [done|by exists c]|].
  intros [n|e] s2 _ H; [|done]. destruct H as [->|Hin]; [exact I|]. destruct (n =? 1)%nat; [|exact I].
  simpl. by exists (m_clock s1).
Qed.

Lemma answer_guess_ok id code s0 : ok (answer_guess id code) s0.
Proof.
  unfold answer_guess. apply (wp_bind mailbox_ok mail_later), (wp_catching mailbox_ok mail_later), (wp_bind mailbox_ok mail_later).
  eapply (wp_mono mailbox_ok mail_later); [apply claim_ok|].
  intros [x|e] s M H; simpl; by apply (answered_ok s s).
Qed.

Lemma sweep_pages_ok rounds now s0 : ok (sweep_pages rounds now) s0.
Proof.
  revert s0. induction rounds as [|rounds IH]; intros s0; [done|]. cbn [sweep_pages].
  apply (safe_asking_bind mailbox_ok mail_later). intros s _ _. destruct (_ =? 0)%nat; [done|].
  apply (safe_bind mailbox_ok mail_later).
  - eapply (wp_safe mailbox_ok mail_later), sessions_deleted_ok.
  - intros u s1 _. by destruct (_ <? _)%nat.
Qed.

Lemma easy_request_ok p s0 : easy_request p -> ok p s0.
Proof.
  intros H. destruct H.
  - apply (safe_discard mailbox_ok mail_later), createSession_ok.
  - apply (safe_discard mailbox_ok mail_later), status_ok.
  - apply offer_ok.
  - apply answer_guess_ok.
  - unfold easy_sweep. apply (safe_asking_bind mailbox_ok mail_later). intros s _ _. apply sweep_pages_ok.
Qed.

Lemma easy_run l s : easy_execution l s -> mailbox_ok s.
Proof.
  intros (s0 & E1 & E2 & Hrun).
  destruct (pool_safe mailbox_ok mail_later easy_request easy_world [] s0 l s) as (_ & V & _); try done.
  - intros p s1 Hp _. by apply easy_request_ok.
  - intros s1 s2 (H1 & H2 & H3) [D R E O]. split; [|intros e; by rewrite H2].
    split; rewrite ?H1, ?H2, ?H3; done.
  - split; rewrite ?E1, ?E2; try done.
    + by intros e i ?%not_elem_of_nil.
    + intros id. unfold EASY_RECOVERY_MAX_ATTEMPTS, count_of. simpl. lia.
Qed.

(** ** Executions *)

Definition guess_code (id : string) (e : MailboxEvent) : list string :=
  match e with
  | GuessedWrong i c | GuessedRight i c _ _ => if bool_decide (i = id) then [c] else []
  | _ => []
  end.

Lemma guess_codes_length id h :
  length (flat_map (guess_code id) h) = (count_of (wrong_of id) h + count_of (right_of id) h)%nat.
Proof.
  unfold count_of. induction h as [|e h IH]; [done|]. cbn [flat_map List.filter]. rewrite length_app, IH.
  destruct e; simpl; try lia; case_bool_decide; simpl; lia.
Qed.

(** C30: At most five codes of a session are tried. In any interleaving of the routes,
    of sweeps and of time, over any number of replicas: whatever different codes of
    one session were answered by anything that tells them right or wrong (the
    secret, attempts left, or burned), they are at most five. *)
Theorem five_codes_answered l s id codes : easy_execution l s ->
  NoDup codes -> (forall c, c ∈ codes -> exists reply, Answered id c reply ∈ m_history s /\ tells reply = true) ->
  (length codes <= 5)%nat.
Proof.
  intros Hrun Hnd H. assert (V := easy_run l s Hrun).
  assert (Hincl : incl codes (flat_map (guess_code id) (m_history s))).
  { intros c Hc%list_elem_of_In. apply in_flat_map. destruct (H c Hc) as (reply & Hin & Ht).
    assert (Hd := proj1 (Forall_forall _ _) (mb_events _ V) _ Hin). simpl in Hd. unfold decided in Hd.
    destruct reply as [x|e].
    - destruct Hd as (a & Ha). exists (GuessedRight id c x a). split; [by apply list_elem_of_In|].
      simpl. rewrite bool_decide_eq_true_2 by done. by left.
    - rewrite Ht in Hd. exists (GuessedWrong id c). split; [by apply list_elem_of_In|].
      simpl. rewrite bool_decide_eq_true_2 by done. by left. }
  apply NoDup_ListNoDup in Hnd. assert (Hlen := NoDup_incl_length Hnd Hincl). rewrite guess_codes_length in Hlen.
  destruct (mb_once _ V id) as (_ & _ & Hw). unfold EASY_RECOVERY_MAX_ATTEMPTS in Hw. lia.
Qed.

(** The secret is traded once, for its own code and in time. In any interleaving:
    a session takes at most one offer and hands out its secret at most once; what a
    claim was answered is the secret of that offer, its code matches the hash of the
    offer's code, and the claim came within the five minutes of the session. *)
Theorem secret_traded_once l s id : easy_execution l s ->
  (count_of (offers_of id) (m_history s) <= 1)%nat /\ (count_of (right_of id) (m_history s) <= 1)%nat
  /\ forall code secret, Answered id code (Ok secret) ∈ m_history s -> exists at_, traded (m_history s) id code secret at_.
Proof.
  intros Hrun. assert (V := easy_run l s Hrun). destruct (mb_once _ V id) as (H1 & H2 & _). split_and!; [done..|].
  intros code secret Hin. assert (Hd := proj1 (Forall_forall _ _) (mb_events _ V) _ Hin). simpl in Hd.
  destruct Hd as (a & Ha). exists a. exact (proj1 (Forall_forall _ _) (mb_events _ V) _ Ha).
Qed.
End pool.

(** ** One claim alone *)

Section alone.
Context `{NODE : Node} `{ENV : EasyEnv}.

(** A claim of a live offered session trades the right code for the secret, once,
    counts a wrong one, and the fifth wrong one deletes the session; nothing else
    changes. *)
Theorem claim_outcome s id code r secret h :
  isSessionId id = true -> sessions s !! id = Some r -> isLiveSession (Some r) (m_clock s) = true ->
  es_status r = OFFERED -> ciphertext r = Some secret -> es_codeHash r = Some h ->
  let s' := fst (run (claim id code) s) in
  let answer := snd (run (claim id code) s) in
  if easyRecoveryCodeMatches id code (Some h) then
    answer = Ok secret /\ sessions s' = <[id := claimed r]> (sessions s)
  else if es_attempts r + 1 =? EASY_RECOVERY_MAX_ATTEMPTS then
    answer = Throw gone_burned /\ sessions s' = delete id (sessions s)
  else
    answer = Throw (code_invalid (EASY_RECOVERY_MAX_ATTEMPTS - (es_attempts r + 1)))
    /\ sessions s' = <[id := one_more r]> (sessions s).
Proof.
  intros Hid Hr Hl Hst Hct Hh. cbv zeta. unfold claim. rewrite Hid. cbn [negb]. cbv iota.
  rewrite run_bind, run_asking, run_bind, run_asking, Hr, Hl, Hst, Hct, Hh.
  cbn [negb orb]. rewrite (bool_decide_eq_false_2 (OFFERED = CLAIMED)), (bool_decide_eq_false_2 (OFFERED = OPEN)) by done.
  cbv iota. unfold isLiveSession in Hl. apply andb_true_iff in Hl as [Hx Ha].
  assert (Hw : answerable (m_clock s) r = true).
  { unfold answerable. by rewrite Hst, bool_decide_eq_true_2, Ha, Hx. }
  destruct (easyRecoveryCodeMatches id code (Some h)); cbn [negb]; cbv iota.
  - rewrite run_bind, run_stmt. unfold update_session. by rewrite Hr, Hw.
  - unfold refuseCode. rewrite run_bind, run_stmt. unfold update_session. rewrite Hr, Hw. cbv beta iota. cbn [Nat.eqb]. cbv iota.
    rewrite run_bind, run_asking. cbn [sessions m_log set_sessions]. rewrite lookup_insert_eq. cbn [fmap option_fmap option_map default es_attempts one_more]. unfold Datatypes.id.
    apply Z.ltb_lt in Ha. destruct (Z.leb_spec EASY_RECOVERY_MAX_ATTEMPTS (es_attempts r + 1)).
    + replace (es_attempts r + 1 =? _) with true by lia. rewrite run_bind, run_stmt. cbn. split; [done|].
      apply map_eq. intros k. rewrite map_lookup_filter. destruct (decide (k = id)) as [->|Hne].
      * rewrite lookup_insert_eq, lookup_delete_eq. cbn. rewrite bool_decide_eq_true_2 by done.
        replace (_ <=? _) with true by (simpl; lia). done.
      * rewrite lookup_insert_ne, lookup_delete_ne by done. destruct (sessions s !! k) as [x|]; [|done]. cbn.
        by rewrite bool_decide_eq_false_2.
    + replace (es_attempts r + 1 =? _) with false by lia. done.
Qed.
End alone.

(** ** A wallet moved after one mistyped code *)

#[local] Existing Instance sample_node.

Definition easy_sample : EasyEnv := {|
  newSessionId n := padStart 22 (nat_toString (Z.of_nat n));
  sharedSecret _ := true
|}.
#[local] Existing Instance easy_sample.

Lemma easy_sample_fresh n m : newSessionId n = newSessionId m -> n = m.
Proof.
  simpl. intros E%(f_equal BigInt). rewrite !padStart_value, !nat_toString_value in E by lia. lia.
Qed.

Definition sample_id : string := newSessionId 0.

Definition easy_requests : list (mailbox unit) :=
  [discard (createSession "key"); offer sample_id "sealed" "10000"; answer_guess sample_id "20000"; answer_guess sample_id "10000"].

Definition easy_done : Mailbox := run_all easy_requests (mkMailbox ∅ [] 1000 0).

Lemma easy_sample_execution : exists l, easy_execution l easy_done.
Proof.
  destruct (pool_run_all easy_request easy_world easy_requests [] (mkMailbox ∅ [] 1000 0)) as [l Hl]; [repeat constructor|].
  exists l, (mkMailbox ∅ [] 1000 0). by split.
Qed.

Lemma easy_history : m_history easy_done =
  [Opened sample_id 1000; Offered sample_id "sealed" "10000"; GuessedWrong sample_id "20000";
   Answered sample_id "20000" (Throw (code_invalid 4)); GuessedRight sample_id "10000" "sealed" 1000;
   Answered sample_id "10000" (Ok "sealed"%string)].
Proof. vm_compute. reflexivity. Qed.

Lemma five_codes_answered_witness : exists l,
  easy_execution l easy_done /\ (length ["20000"%string; "10000"%string] <= 5)%nat.
Proof.
  destruct easy_sample_execution as [l Hl]. exists l. split; [exact Hl|].
  apply (five_codes_answered easy_sample_fresh l easy_done sample_id); [exact Hl | |].
  - apply NoDup_cons. split; [set_solver | apply NoDup_singleton].
  - rewrite easy_history. intros c [->|[->|Hc]%elem_of_cons]%elem_of_cons; [| |by apply not_elem_of_nil in Hc].
    + exists (Throw (code_invalid 4)). split; [set_solver | reflexivity].
    + exists (Ok "sealed"%string). split; [set_solver | reflexivity].
Defined.

Lemma secret_traded_once_witness : exists l at_,
  easy_execution l easy_done /\ traded (m_history easy_done) sample_id "10000" "sealed" at_.
Proof.
  destruct easy_sample_execution as [l Hl].
  assert (Hin : Answered sample_id "10000" (Ok "sealed"%string) ∈ m_history easy_done) by (rewrite easy_history; set_solver).
  revert Hl Hin. generalize easy_done. intros s Hl Hin.
  destruct (proj2 (proj2 (secret_traded_once easy_sample_fresh l s sample_id Hl)) "10000"%string "sealed"%string Hin) as [a Ha].
  exists l, a. split; [exact Hl | exact Ha].
Defined.
