(* ===== verification/Jwt.v ===== *)
(** The service's own JSON Web Tokens (src/src/common/jwt.ts): HS256 under a key
    derived per secret and purpose. *)

From S2P Require Import Prelude Text MerchantFee Tokens NodeSample.
From stdpp Require Import base tactics list option strings.
From Stdlib Require Import ZArith Lia Ascii.

Open Scope Z_scope.

(** [createHmac('sha256', key).update(text).digest()] *)
Class Hmac := hmac_sha256 : string -> string -> string.

(** Tags of different keys or texts differ. *)
Class HmacLaws `{Hmac} : Prop :=
  hmac_binds : forall key text key' text', hmac_sha256 key text = hmac_sha256 key' text' -> key' = key /\ text' = text.

Section jwt.
Context `{NODE : Node} `{HMAC : Hmac}.

Definition JWT_HEADER : string :=
  base64url (JSON_stringify (JObject [("alg"%string, JString "HS256"); ("typ"%string, JString "JWT")])).
Definition JWT_SALT : string := "cosmos-jwt".

Definition jwtKey (secret purpose : string) : res string :=
  if bool_decide (secret = ""%string) || bool_decide (purpose = ""%string) then Throw JsError
  else Ok (hkdf secret JWT_SALT purpose).

(** [jti] is what [randomBytes(16)] drew: the claims given name none. *)
Definition issueJwt (claims : list (string * json)) (jti secret purpose : string) : res string :=
  let body := claims ++ [("jti"%string, JString jti)] in
  let signingInput := (JWT_HEADER +:+ "." +:+ base64url (JSON_stringify (JObject body)))%string in
  key ← jwtKey secret purpose;
  Ok (signingInput +:+ "." +:+ base64url (hmac_sha256 key signingInput))%string.

Definition text_field (name : string) (claims : list (string * json)) : option string :=
  match field name claims with Some (JString s) => Some s | _ => None end.
Definition number_field (name : string) (claims : list (string * json)) : option jsnum :=
  match field name claims with Some (JNumber n) => Some n | _ => None end.

(** The claims a token's payload carries, when it is read at [nowSeconds]. *)
Definition readClaims (payload audience : string) (nowSeconds : Z) : option (list (string * json)) :=
  match JSON_parse (from_base64url payload) with
  | Some (JObject claims) =>
      let text := from_base64url payload in
      match text_field "sub" claims, text_field "iss" claims, text_field "jti" claims,
            number_field "iat" claims, number_field "exp" claims with
      | Some sub, Some _, Some _, Some iat, Some exp =>
          if bool_decide (sub = ""%string) || negb (is_text audience (field "aud" claims))
             || num_le text "exp" exp nowSeconds || negb (num_le text "iat" iat (nowSeconds + 60))
          then None else Some claims
      | _, _, _, _, _ => None
      end
  | _ => None
  end.

Definition readJwt (token secret purpose audience : string) (nowSeconds : Z) : res (option (list (string * json))) :=
  match split_on "." token with
  | [header; payload; signature] =>
      if negb (bool_decide (header = JWT_HEADER)) then Ok None
      else
        key ← jwtKey secret purpose;
        if negb (bool_decide (from_base64url signature = hmac_sha256 key (header +:+ "." +:+ payload)%string))
        then Ok None
        else Ok (readClaims payload audience nowSeconds)
  | _ => Ok None
  end.
End jwt.

Section laws.
Context `{NODE : Node} {LAWS : NodeLaws} `{HMAC : Hmac} {HLAWS : HmacLaws}.

Lemma jwtKey_Ok secret purpose key :
  jwtKey secret purpose = Ok key <-> secret <> ""%string /\ purpose <> ""%string /\ key = hkdf secret JWT_SALT purpose.
Proof.
  unfold jwtKey. repeat case_bool_decide; simpl; split; try done; try (by intros (? & ? & _)).
  - by intros [= <-].
  - by intros (_ & _ & ->).
Qed.

Definition signed_text (claims : list (string * json)) (jti : string) : string :=
  (JWT_HEADER +:+ "." +:+ base64url (JSON_stringify (JObject (claims ++ [("jti"%string, JString jti)]))))%string.

Lemma issueJwt_Ok claims jti secret purpose token :
  issueJwt claims jti secret purpose = Ok token <->
  secret <> ""%string /\ purpose <> ""%string
  /\ token = (signed_text claims jti +:+ "." +:+ base64url (hmac_sha256 (hkdf secret JWT_SALT purpose) (signed_text claims jti)))%string.
Proof.
  unfold issueJwt. cbv zeta. fold (signed_text claims jti). destruct (jwtKey secret purpose) as [key|e] eqn:E; simpl.
  - apply jwtKey_Ok in E as (H1 & H2 & ->). split; [by intros [= <-] | by intros (_ & _ & ->)].
  - split; [done|]. intros (H1 & H2 & _). unfold jwtKey in E. by rewrite !bool_decide_eq_false_2 in E.
Qed.

Lemma header_free : free_of "." JWT_HEADER = true.
Proof. by apply base64url_free. Qed.

(** What reading a token this service issued comes to. *)
Lemma readJwt_issued claims jti secret purpose token secret' purpose' audience now :
  issueJwt claims jti secret purpose = Ok token ->
  readJwt token secret' purpose' audience now
  = key ← jwtKey secret' purpose';
    if bool_decide (key = hkdf secret JWT_SALT purpose)
    then Ok (readClaims (base64url (JSON_stringify (JObject (claims ++ [("jti"%string, JString jti)])))) audience now)
    else Ok None.
Proof.
  intros (Hs & Hp & ->)%issueJwt_Ok. unfold readJwt, signed_text.
  rewrite <- !str_app_assoc. cbn [String.append].
  rewrite (split_on_cons "." JWT_HEADER), split_on_cons, split_on_free
    by (apply header_free || by apply base64url_free).
  rewrite bool_decide_eq_true_2 by done. cbn [negb]. cbv iota.
  destruct (jwtKey secret' purpose') as [key|e]; [|done]. simpl. rewrite base64url_back.
  destruct (decide (key = hkdf secret JWT_SALT purpose)) as [->|Hne].
  - by rewrite !bool_decide_eq_true_2.
  - rewrite (bool_decide_eq_false_2 (key = _)) by done. rewrite bool_decide_eq_false_2; [done|].
    intros E. apply hmac_binds in E as [E _]. by apply Hne.
Qed.

(** A token issued for one secret and purpose is read under no other. *)
Lemma readJwt_own claims jti secret purpose token secret' purpose' audience now c :
  issueJwt claims jti secret purpose = Ok token -> readJwt token secret' purpose' audience now = Ok (Some c) ->
  secret' = secret /\ purpose' = purpose
  /\ readClaims (base64url (JSON_stringify (JObject (claims ++ [("jti"%string, JString jti)])))) audience now = Some c.
Proof.
  intros Hi. rewrite (readJwt_issued _ _ _ _ _ _ _ _ _ Hi). destruct (jwtKey secret' purpose') as [key|e] eqn:E; [|done].
  apply jwtKey_Ok in E as (_ & _ & ->). simpl. case_bool_decide as Ek; [|done]. intros [= H].
  apply hkdf_binds in Ek as [-> ->]. done.
Qed.

(** The registered claims of a token, in the order its issuers write them. *)
Definition standard_claims (sub iss aud : string) (iat exp : Z) (extra : list (string * json)) : list (string * json) :=
  app [("sub", JString sub); ("iss", JString iss); ("aud", JString aud); ("iat", JNumber (NumInt iat));
       ("exp", JNumber (NumInt exp))]%string extra.

Lemma field_beyond name a b : field name a = None -> field name (a ++ b) = field name b.
Proof. induction a as [|[k v] a IH]; [done|]. simpl. by case_bool_decide. Qed.

Lemma readClaims_standard sub iss aud iat exp extra jti audience now :
  payload (standard_claims sub iss aud iat exp extra ++ [("jti"%string, JString jti)]) ->
  field "jti" extra = None ->
  readClaims (base64url (JSON_stringify (JObject (standard_claims sub iss aud iat exp extra ++ [("jti"%string, JString jti)]))))
    audience now
  = if bool_decide (sub = ""%string) || negb (bool_decide (aud = audience)) || (exp <=? now) || negb (iat <=? now + 60)
    then None else Some (standard_claims sub iss aud iat exp extra ++ [("jti"%string, JString jti)]).
Proof.
  intros Hp Hx. unfold readClaims. rewrite base64url_back, JSON_back by done.
  assert (Hj : text_field "jti" (standard_claims sub iss aud iat exp extra ++ [("jti"%string, JString jti)]) = Some jti).
  { unfold text_field, standard_claims. rewrite <- app_assoc. simpl. by rewrite field_beyond. }
  rewrite Hj. reflexivity.
Qed.
End laws.
