(* ===== verification/RecoveryCore.v ===== *)
(** The recovery servers' rules (src/src/recovery/recovery-core.ts and
    sep10-core.ts): which transaction one co-signs, the SEP-10 challenge, the
    tokens, and who may act for an account. *)

From S2P Require Import Prelude Text MerchantFee Intents Tokens Signatures NodeSample Jwt.
From stdpp Require Import base tactics list option strings.
From Stdlib Require Import ZArith Lia Ascii.

Open Scope Z_scope.

(** ** Constants (recovery.constants.ts) *)

Definition SEP10_CHALLENGE_TTL_S : Z := 15 * 60.
Definition SEP10_NONCE_BYTES : nat := 48.
Definition SEP10_TOKEN_TTL_S : Z := 60 * 60.
Definition IDENTITY_TOKEN_TTL_S : Z := 30 * 60.
Definition OIDC_MAX_LOGIN_AGE_S : Z := 15 * 60.
Definition RECOVERY_CODE_TTL_MS : Z := 15 * 60 * 1000.
Definition RECOVERY_CODE_MAX_ATTEMPTS : Z := 5.
Definition RECOVERY_CODE_RESEND_MS : Z := 60 * 1000.
Definition RECOVERY_CODE_DAILY_CAP : nat := 10.
Definition RECOVERY_PAGE_SIZE : nat := 100.
Definition RECOVERY_SIGN_MAX_FEE_STROOPS : Z := 10000000.
Definition RECOVERY_SIGN_MAX_OPS : nat := 8.
Definition RECOVERY_SIGN_MAX_WINDOW_S : Z := 15 * 60.
Definition RECOVERY_CLOCK_SKEW_S : Z := 5 * 60.
Definition RECOVERY_SWEEP_BATCH_SIZE : nat := 500.
Definition RECOVERY_SWEEP_GRACE_MS : Z := 24 * 60 * 60 * 1000.
Definition RECOVERY_SHARE_BYTES : nat := 32.

(** ** Transactions as the SDK reads them

    A missing source is [None]; times and fees are the decimal numbers the SDK
    answers, whatever rounding [Number] would do to those beyond 2^53 being beyond
    every bound they are compared with. *)
Inductive SignerChange :=
  | Ed25519Signer (key : string) (weight : Z)
  | OtherSigner.

Record OptionsSet := mkOptions {
  so_signer : option SignerChange;
  so_setFlags : option Z;
  so_clearFlags : option Z;
  so_homeDomain : option string;
  so_inflationDest : option string;
  so_masterWeight : option Z;
  so_thresholds : option Z * option Z * option Z
}.

Inductive StellarOp :=
  | ManageData (source : option string) (name : string) (value : option string)
  | SetOptions (source : option string) (o : OptionsSet)
  | BeginSponsoring (source : option string) (sponsoredId : string)
  | EndSponsoring (source : option string)
  | OtherOp (source : option string) (type : string).

Record StellarTx := mkStellarTx {
  st_source : string;
  st_sequence : string;
  st_fee : Z;
  st_bounds : option (Z * Z);
  st_memo : string;
  st_operations : list StellarOp;
  st_signatures : list string
}.

Inductive StellarEnvelope := PlainTx (t : StellarTx) | FeeBumpTx.

(** stellar-sdk: parsing and writing envelopes, hashes under a network's
    passphrase, and key pairs; what throws is [None]. The configured secrets are
    seeds; [to_base64] is node's. *)
Class StellarKeys := mkStellarKeys {
  fromXDR : string -> string -> option StellarEnvelope;
  txXDR : StellarTx -> string;
  txHash : string -> StellarTx -> string;
  publicKey : string -> string;
  signWith : string -> string -> string;
  to_base64 : string -> string;
  rawSecretKey : string -> string;
  seedPublicKey : string -> string;
  signWithSeed : string -> string -> string;
  Networks_PUBLIC : string;
  Networks_TESTNET : string
}.

(** ** Identities *)

Inductive IdentityRole := owner | sender | receiver.
#[export] Instance IdentityRole_eq_dec : EqDecision IdentityRole.
Proof. solve_decision. Defined.
Definition role_text (r : IdentityRole) : string :=
  match r with owner => "owner" | sender => "sender" | receiver => "receiver" end.
Definition IDENTITY_ROLES : list IdentityRole := [owner; sender; receiver].

(** [AUTH_METHOD_TYPES]: an email is the only kind. *)
Inductive AuthMethodType := email_method.
#[export] Instance AuthMethodType_eq_dec : EqDecision AuthMethodType.
Proof. solve_decision. Defined.

Record AuthMethod := mkAuthMethod { am_type : AuthMethodType; am_value : string }.
Record Identity := mkRecoveryIdentity { ri_role : IdentityRole; auth_methods : list AuthMethod }.

(** A row of [RecoveryAuthMethod]. *)
Record MethodRow := mkMethodRow { mr_role : IdentityRole; mr_type : AuthMethodType; mr_value : string }.
#[export] Instance MethodRow_eq_dec : EqDecision MethodRow.
Proof. solve_decision. Defined.

Inductive Actor :=
  | ByAddress (address : string)
  | ByIdentity (type : AuthMethodType) (value : string).
#[export] Instance Actor_eq_dec : EqDecision Actor.
Proof. solve_decision. Defined.

Inductive ServerRole := role_a | role_b.
#[export] Instance ServerRole_eq_dec : EqDecision ServerRole.
Proof. solve_decision. Defined.
Definition server_role_text (r : ServerRole) : string := match r with role_a => "a" | role_b => "b" end.

Record Sep10Config := mkSep10 {
  signingSecret : string;
  homeDomain : string;
  webAuthDomain : string;
  sep10Passphrase : string
}.

Record RecoveryRules := mkRules {
  rr_role : ServerRole;
  sep10 : Sep10Config;
  signerMaster : string;
  jwtSecret : string;
  webAuthEndpoint : string
}.

(** [value.trim().toLowerCase()] *)
Definition normalizeEmail (value : string) : string := toLowerCase (trim value).

Definition mayAct (actor : Actor) (address : string) (methods : list MethodRow) : bool :=
  match actor with
  | ByAddress a => bool_decide (a = address)
  | ByIdentity t v => existsb (fun m => bool_decide (mr_type m = t) && bool_decide (mr_value m = v)) methods
  end.

Definition authenticatesAs (actor : Actor) (address : string) (methods : list MethodRow) (role : IdentityRole) : bool :=
  match actor with
  | ByAddress a => bool_decide (a = address)
  | ByIdentity t v =>
      existsb (fun m => bool_decide (mr_role m = role) && bool_decide (mr_type m = t) && bool_decide (mr_value m = v)) methods
  end.

Section rules.
Context `{NODE : Node} `{HMAC : Hmac} `{CURVES : Curves} `{KEYS : StellarKeys}.

(** ** The signer *)

Definition signerSeed (master address : string) : string :=
  hkdf (rawSecretKey master) "cosmos-recovery-signer" address.
Definition signerFor (master address : string) : string := seedPublicKey (signerSeed master address).

(** ** The tokens *)

Definition networkOf (passphrase : string) : string :=
  if bool_decide (passphrase = Networks_PUBLIC) then "public"
  else if bool_decide (passphrase = Networks_TESTNET) then "testnet" else "other".

Definition sep10Purpose (role : ServerRole) (passphrase : string) : string :=
  ("sep10:" +:+ server_role_text role +:+ ":" +:+ networkOf passphrase)%string.
Definition identityPurpose (role : ServerRole) : string := ("recovery-identity:" +:+ server_role_text role)%string.

Definition issueSep10Token (rules : RecoveryRules) (account jti : string) (nowSeconds : Z) : res string :=
  issueJwt (standard_claims account (webAuthEndpoint rules) (webAuthDomain (sep10 rules)) nowSeconds
              (nowSeconds + SEP10_TOKEN_TTL_S) [("home_domain"%string, JString (homeDomain (sep10 rules)))])
    jti (jwtSecret rules) (sep10Purpose (rr_role rules) (sep10Passphrase (sep10 rules))).

Definition issueIdentityToken (rules : RecoveryRules) (email jti : string) (nowSeconds : Z) : res string :=
  issueJwt (standard_claims ("email:" +:+ normalizeEmail email)%string (webAuthEndpoint rules)
              (webAuthDomain (sep10 rules)) nowSeconds (nowSeconds + IDENTITY_TOKEN_TTL_S) [])
    jti (jwtSecret rules) (identityPurpose (rr_role rules)).

(** [sub.slice(0, at)] and [sub.slice(at + 1)] at the first colon; with none, [at]
    is -1. *)
Definition split_sub (sub : string) : string * string :=
  match split_on ":" sub with
  | [] | [_] => (slice_to (String.length sub - 1) sub, sub)
  | type :: _ => (type, slice_from (S (String.length type)) sub)
  end.

Definition sub_of (claims : list (string * json)) : string := default ""%string (text_field "sub" claims).

Definition actorFromToken (rules : RecoveryRules) (token : string) (nowSeconds : Z) : res (option Actor) :=
  let audience := webAuthDomain (sep10 rules) in
  sep ← readJwt token (jwtSecret rules) (sep10Purpose (rr_role rules) (sep10Passphrase (sep10 rules))) audience nowSeconds;
  match sep with
  | Some claims => Ok (Some (ByAddress (sub_of claims)))
  | None =>
      identity ← readJwt token (jwtSecret rules) (identityPurpose (rr_role rules)) audience nowSeconds;
      match identity with
      | None => Ok None
      | Some claims =>
          let '(type, value) := split_sub (sub_of claims) in
          if negb (bool_decide (type = "email"%string)) || bool_decide (value = ""%string) then Ok None
          else Ok (Some (ByIdentity email_method value))
      end
  end.

(** ** What it co-signs *)

Inductive SignRefusal :=
  | fee_bump | foreign_source | no_operations | too_many_operations | fee_too_high | no_expiry | window_too_long
  | sign_not_yet_valid | memo_not_allowed | operation_not_allowed | foreign_operation_source | unsupported_signer
  | option_not_allowed.

(** [op.source && op.source !== address] *)
Definition foreign (source : option string) (address : string) : bool :=
  truthy source && negb (bool_decide (source = Some address)).

Definition operationRefusal (address : string) (op : StellarOp) : option SignRefusal :=
  match op with
  | SetOptions source o =>
      if foreign source address then Some foreign_operation_source
      else match so_signer o with
           | Some OtherSigner => Some unsupported_signer
           | _ =>
               match so_setFlags o, so_clearFlags o, so_homeDomain o, so_inflationDest o with
               | None, None, None, None => None
               | _, _, _, _ => Some option_not_allowed
               end
           end
  | BeginSponsoring _ sponsored =>
      if bool_decide (sponsored = address) then None else Some foreign_operation_source
  | EndSponsoring source => if foreign source address then Some foreign_operation_source else None
  | ManageData _ _ _ | OtherOp _ _ => Some operation_not_allowed
  end.

Fixpoint operationsRefusal (address : string) (ops : list StellarOp) : option SignRefusal :=
  match ops with
  | [] => None
  | op :: ops => match operationRefusal address op with Some r => Some r | None => operationsRefusal address ops end
  end.

Definition signRefusal (envelope : StellarEnvelope) (address : string) (nowSeconds : Z) : option SignRefusal :=
  match envelope with
  | FeeBumpTx => Some fee_bump
  | PlainTx tx =>
      let max := match st_bounds tx with Some b => snd b | None => 0 end in
      let min := match st_bounds tx with Some b => fst b | None => 0 end in
      if negb (bool_decide (st_source tx = address)) then Some foreign_source
      else if (length (st_operations tx) =? 0)%nat then Some no_operations
      else if (RECOVERY_SIGN_MAX_OPS <? length (st_operations tx))%nat then Some too_many_operations
      else if (st_fee tx <? 0) || (RECOVERY_SIGN_MAX_FEE_STROOPS <? st_fee tx) then Some fee_too_high
      else if max <=? 0 then Some no_expiry
      else if nowSeconds + RECOVERY_SIGN_MAX_WINDOW_S + RECOVERY_CLOCK_SKEW_S <? max then Some window_too_long
      else if nowSeconds + RECOVERY_CLOCK_SKEW_S <? min then Some sign_not_yet_valid
      else if negb (bool_decide (st_memo tx = "none"%string)) then Some memo_not_allowed
      else operationsRefusal address (st_operations tx)
  end.
End rules.

(** ** An email's normal form *)

Lemma lower_space a : is_space (lower_char a) = is_space a.
Proof. by destruct a as [[] [] [] [] [] [] [] []]. Qed.

Lemma trim_start_lower s : trim_start (toLowerCase s) = toLowerCase (trim_start s).
Proof. unfold toLowerCase. induction s as [|a s IH]; [done|]. simpl. rewrite lower_space. by destruct (is_space a). Qed.

Lemma trim_end_lower s : trim_end (toLowerCase s) = toLowerCase (trim_end s).
Proof.
  unfold toLowerCase. induction s as [|a s IH]; [done|]. simpl. rewrite IH, lower_space.
  destruct (trim_end s); simpl; [by destruct (is_space a) | done].
Qed.

Lemma trim_end_idem s : trim_end (trim_end s) = trim_end s.
Proof.
  induction s as [|a s IH]; [done|]. simpl. destruct (trim_end s) as [|b r].
  - destruct (is_space a) eqn:E; [done|]. simpl. by rewrite E.
  - change (trim_end (String a (String b r))) with
      (match trim_end (String b r) with EmptyString => if is_space a then EmptyString else String a EmptyString
       | r' => String a r' end). by rewrite IH.
Qed.

Lemma trim_start_fixed a s : is_space a = false -> trim_start (trim_end (String a s)) = trim_end (String a s).
Proof. intros H. simpl. destruct (trim_end s); [rewrite H|]; simpl; by rewrite H. Qed.

Lemma trim_idem s : trim (trim s) = trim s.
Proof.
  unfold trim. assert (E : trim_start (trim_end (trim_start s)) = trim_end (trim_start s)).
  { induction s as [|a s IH]; [done|]. cbn [trim_start]. destruct (is_space a) eqn:Ea; [done|]. by apply trim_start_fixed. }
  by rewrite E, trim_end_idem.
Qed.

Lemma normalizeEmail_idem s : normalizeEmail (normalizeEmail s) = normalizeEmail s.
Proof.
  unfold normalizeEmail. unfold trim at 1. rewrite trim_start_lower, trim_end_lower, toLowerCase_idem.
  change (trim_end (trim_start (trim s))) with (trim (trim s)). by rewrite trim_idem.
Qed.

(** ** What the policy lets through, without the order of the checks *)

Definition own_source (source : option string) (address : string) : Prop :=
  source = None \/ source = Some ""%string \/ source = Some address.

(** Signers that are keys, the master weight and thresholds of the account; or the
    sponsorship of its own reserve. *)
Inductive permitted_op (address : string) : StellarOp -> Prop :=
  | permitted_options source signer master thresholds :
      own_source source address -> signer <> Some OtherSigner ->
      permitted_op address (SetOptions source (mkOptions signer None None None None master thresholds))
  | permitted_begin source : permitted_op address (BeginSponsoring source address)
  | permitted_end source : own_source source address -> permitted_op address (EndSponsoring source).

Record recovery_only (tx : StellarTx) (address : string) (now : Z) : Prop := {
  ro_source : st_source tx = address;
  ro_some : st_operations tx <> [];
  ro_few : (length (st_operations tx) <= RECOVERY_SIGN_MAX_OPS)%nat;
  ro_fee : 0 <= st_fee tx <= RECOVERY_SIGN_MAX_FEE_STROOPS;
  ro_window : exists min max, st_bounds tx = Some (min, max)
    /\ 0 < max <= now + RECOVERY_SIGN_MAX_WINDOW_S + RECOVERY_CLOCK_SKEW_S /\ min <= now + RECOVERY_CLOCK_SKEW_S;
  ro_memo : st_memo tx = "none"%string;
  ro_ops : Forall (permitted_op address) (st_operations tx)
}.

Lemma foreign_false source address : foreign source address = false <-> own_source source address.
Proof.
  unfold foreign, own_source. destruct source as [[|a r]|]; simpl; [tauto| |tauto].
  rewrite negb_false_iff, bool_decide_eq_true. split; [by right; right | by intros [?|[?|?]]].
Qed.

Lemma operation_permitted address op : operationRefusal address op = None <-> permitted_op address op.
Proof.
  split.
  - destruct op as [| source [signer f1 f2 f3 f4 m t] | source sponsored | source |]; simpl; try done.
    + destruct (foreign source address) eqn:Ef; [done|]. apply foreign_false in Ef.
      destruct signer as [[k w|]|], f1, f2, f3, f4; try done; by constructor.
    + case_bool_decide as E; [|done]. subst. constructor.
    + destruct (foreign source address) eqn:Ef; [done|]. apply foreign_false in Ef. by constructor.
  - intros []; simpl.
    + rewrite (proj2 (foreign_false source address)) by done. by destruct signer as [[|]|].
    + by rewrite bool_decide_eq_true_2.
    + by rewrite (proj2 (foreign_false source address)).
Qed.

Lemma operations_permitted address ops : operationsRefusal address ops = None <-> Forall (permitted_op address) ops.
Proof.
  induction ops as [|op ops IH]; simpl; [done|]. rewrite Forall_cons, <- operation_permitted, <- IH.
  destruct (operationRefusal address op); naive_solver.
Qed.

Lemma signRefusal_None envelope address now :
  signRefusal envelope address now = None <-> exists tx, envelope = PlainTx tx /\ recovery_only tx address now.
Proof.
  destruct envelope as [tx|]; [|split; [done | by intros (? & ? & _)]]. unfold signRefusal. split.
  - intros H. exists tx. split; [done|]. cbv zeta in H. repeat (case_match; [done|]).
    destruct (st_bounds tx) as [[min max]|] eqn:Eb; simpl in *; [|done]. bool_facts.
    repeat match goal with E : (_ =? _)%nat = false |- _ => apply Nat.eqb_neq in E
      | E : (_ <? _)%nat = false |- _ => apply Nat.ltb_ge in E end.
    split; try done; [by destruct (st_operations tx) | exists min, max; split_and!; [done|lia..] | by apply operations_permitted].
  - intros (t & [= <-] & [H1 H2 H3 H4 (min & max & Hb & H5 & H6) H7 H8]). cbv zeta. rewrite Hb. simpl.
    rewrite (bool_decide_eq_true_2 _ H1), (bool_decide_eq_true_2 _ H7). cbn [negb].
    destruct (Nat.eqb_spec (length (st_operations tx)) 0) as [E|_]; [by apply nil_length_inv in E|].
    destruct (Nat.ltb_spec RECOVERY_SIGN_MAX_OPS (length (st_operations tx))); [lia|].
    repeat match goal with |- context [ ?a <? ?b ] => destruct (Z.ltb_spec a b); [lia|] end.
    destruct (Z.leb_spec max 0); [lia|]. simpl. by apply operations_permitted.
Qed.

(** C29: What a recovery server co-signs. The check answers no refusal exactly for a
    plain transaction of the account with one to eight operations, a fee of at most
    one lumen, no memo, an end at most twenty minutes off and a beginning at most
    five, each of whose operations changes key signers, the master weight or
    thresholds of the account and no other option, or sponsors its own reserve:
    never a payment, a flag, another account's operation or a standing
    transaction. *)
Theorem co_sign_policy_exact envelope address now :
  signRefusal envelope address now = None <-> exists tx, envelope = PlainTx tx /\ recovery_only tx address now.
Proof. apply signRefusal_None. Qed.

(** ** What a token this server issued is read as *)

Section tokens.
Context `{NODE : Node} {LAWS : NodeLaws} `{HMAC : Hmac} {HLAWS : HmacLaws} `{KEYS : StellarKeys}.

Lemma sep10Purpose_inj r r' p p' : sep10Purpose r p = sep10Purpose r' p' -> r = r' /\ networkOf p = networkOf p'.
Proof. unfold sep10Purpose. destruct r, r'; simpl; intros [=]; by split. Qed.

Lemma identityPurpose_inj r r' : identityPurpose r = identityPurpose r' -> r = r'.
Proof. unfold identityPurpose. by destruct r, r'. Qed.

Lemma purposes_apart r r' p : sep10Purpose r p <> identityPurpose r'.
Proof. unfold sep10Purpose, identityPurpose. by destruct r, r'. Qed.

(** A time [JSON.stringify] writes exactly. *)
Definition exact_time (z : Z) : Prop := -9007199254740991 <= z <= 9007199254740991.

Lemma exact_flat z : exact_time z -> flat (JNumber (NumInt z)) = true.
Proof. intros [H1 H2]. simpl. by rewrite (proj2 (Z.leb_le _ _) H1), (proj2 (Z.leb_le _ _) H2). Qed.

Lemma standard_payload sub iss aud iat exp extra jti :
  exact_time iat -> exact_time exp -> extra = [] \/ (exists s, extra = [("home_domain"%string, JString s)]) ->
  payload (standard_claims sub iss aud iat exp extra ++ [("jti"%string, JString jti)]).
Proof.
  intros Hi He Hx. assert (F1 := exact_flat _ Hi). assert (F2 := exact_flat _ He).
  destruct Hx as [->|[s ->]]; (split; [apply (bool_decide_unpack _); by vm_compute | by repeat constructor
    | unfold standard_claims; simpl app; repeat (constructor; [done|]); done]).
Qed.

(** Under [rules], at [now]: the token was issued by the same server, for the same
    service, and its life covers the moment. *)
Definition same_server (rules issuing : RecoveryRules) : Prop :=
  rr_role rules = rr_role issuing /\ jwtSecret rules = jwtSecret issuing
  /\ webAuthDomain (sep10 rules) = webAuthDomain (sep10 issuing).

Definition alive (issuedAt ttl now : Z) : Prop := issuedAt <= now + 60 /\ now < issuedAt + ttl.

Lemma claims_read sub iss aud iat ttl extra jti audience now c :
  payload (standard_claims sub iss aud iat (iat + ttl) extra ++ [("jti"%string, JString jti)]) -> field "jti" extra = None ->
  readClaims (base64url (JSON_stringify (JObject (standard_claims sub iss aud iat (iat + ttl) extra ++ [("jti"%string, JString jti)]))))
    audience now = Some c ->
  sub_of c = sub /\ audience = aud /\ alive iat ttl now.
Proof.
  intros Hp Hx. rewrite readClaims_standard by done. destruct (_ || _) eqn:E; [done|]. intros [= <-].
  bool_facts. split_and!; [done|done|]. unfold alive. lia.
Qed.

Theorem sep10_token_actor rules account jti issuedAt t rules' now a :
  exact_time issuedAt -> exact_time (issuedAt + SEP10_TOKEN_TTL_S) ->
  issueSep10Token rules account jti issuedAt = Ok t -> actorFromToken rules' t now = Ok (Some a) ->
  a = ByAddress account /\ same_server rules' rules
  /\ networkOf (sep10Passphrase (sep10 rules')) = networkOf (sep10Passphrase (sep10 rules))
  /\ alive issuedAt SEP10_TOKEN_TTL_S now.
Proof.
  intros Hi He Ht. unfold actorFromToken. cbv zeta.
  assert (Hp := fun x => standard_payload account (webAuthEndpoint rules) (webAuthDomain (sep10 rules)) issuedAt
    (issuedAt + SEP10_TOKEN_TTL_S) _ jti Hi He (or_intror (ex_intro _ x eq_refl))).
  destruct (readJwt _ _ (sep10Purpose _ _) _ _) as [[c|]|] eqn:E; simpl; [| |done].
  - intros [= <-]. destruct (readJwt_own _ _ _ _ _ _ _ _ _ _ Ht E) as (E1 & E2 & E3).
    apply claims_read in E3 as (E4 & E5 & E6); [|apply Hp|done]. apply sep10Purpose_inj in E2 as [E7 E8].
    subst. done.
  - destruct (readJwt _ _ (identityPurpose _) _ _) as [[c|]|] eqn:E'; simpl; [|done|done].
    destruct (readJwt_own _ _ _ _ _ _ _ _ _ _ Ht E') as (_ & E2 & _). by destruct (purposes_apart _ _ _ (eq_sym E2)).
Qed.

Lemma split_email value : split_sub ("email:" +:+ value)%string = ("email"%string, value).
Proof.
  unfold split_sub. change ("email:" +:+ value)%string with ("email" +:+ String ":" value)%string.
  rewrite split_on_cons by done. destruct (split_on ":" value) eqn:E; [|done].
  by destruct value as [|b v]; simpl in E; [|destruct (Ascii.eqb _ _); [|destruct (split_on _ _)]].
Qed.

Theorem identity_token_actor rules email jti issuedAt t rules' now a :
  exact_time issuedAt -> exact_time (issuedAt + IDENTITY_TOKEN_TTL_S) ->
  issueIdentityToken rules email jti issuedAt = Ok t -> actorFromToken rules' t now = Ok (Some a) ->
  a = ByIdentity email_method (normalizeEmail email) /\ same_server rules' rules /\ alive issuedAt IDENTITY_TOKEN_TTL_S now.
Proof.
  intros Hi He Ht. unfold actorFromToken. cbv zeta.
  assert (Hp := standard_payload ("email:" +:+ normalizeEmail email)%string (webAuthEndpoint rules) (webAuthDomain (sep10 rules))
    issuedAt (issuedAt + IDENTITY_TOKEN_TTL_S) [] jti Hi He (or_introl eq_refl)).
  destruct (readJwt _ _ (sep10Purpose _ _) _ _) as [[c|]|] eqn:E; simpl; [| |done].
  { destruct (readJwt_own _ _ _ _ _ _ _ _ _ _ Ht E) as (_ & E2 & _). by destruct (purposes_apart _ _ _ E2). }
  destruct (readJwt _ _ (identityPurpose _) _ _) as [[c|]|] eqn:E'; simpl; [|done|done].
  destruct (readJwt_own _ _ _ _ _ _ _ _ _ _ Ht E') as (E1 & E2 & E3).
  apply claims_read in E3 as (E4 & E5 & E6); [|done|done]. apply identityPurpose_inj in E2.
  rewrite E4, split_email. cbn [fst snd]. destruct (_ || _); [done|]. intros [= <-]. subst. done.
Qed.
End tokens.
