(* ===== verification/Sep10.v ===== *)
(** SEP-10 web authentication as the recovery servers speak it
    (src/src/recovery/sep10-core.ts): the challenge a server hands out, and what a
    signed one must be to prove control of an account. *)

From S2P Require Import Prelude Text MerchantFee Tokens Signatures NodeSample Jwt RecoveryCore.
From stdpp Require Import base tactics list option strings.
From Stdlib Require Import ZArith Lia Ascii.

Open Scope Z_scope.

Inductive ChallengeFailure :=
  | not_a_transaction | wrong_server | not_a_challenge | challenge_expired | wrong_home_domain
  | wrong_web_auth_domain | wrong_account | server_signature | client_signature | below_threshold.

Inductive ChallengeStructure :=
  | Structured (account : string) (tx : StellarTx)
  | Unstructured (error : ChallengeFailure).

Inductive ChallengeResult :=
  | Proven (account : string)
  | NotProven (error : ChallengeFailure).

Section sep10.
Context `{NODE : Node} `{CURVES : Curves} `{KEYS : StellarKeys}.

(** [Operation.manageData] under [BASE_FEE] per operation; the source account's
    sequence -1 is 0 once the builder has stepped it. [nonce] is what
    [randomBytes(SEP10_NONCE_BYTES)] drew. *)
Definition challenge_tx (cfg : Sep10Config) (account nonce : string) (nowSeconds : Z) : StellarTx :=
  let server := publicKey (signingSecret cfg) in
  mkStellarTx server "0" 200 (Some (nowSeconds, nowSeconds + SEP10_CHALLENGE_TTL_S)) "none"
    [ManageData (Some account) (homeDomain cfg +:+ " auth")%string (Some (to_base64 nonce));
     ManageData (Some server) "web_auth_domain" (Some (webAuthDomain cfg))] [].

Definition add_signature (sig : string) (tx : StellarTx) : StellarTx :=
  mkStellarTx (st_source tx) (st_sequence tx) (st_fee tx) (st_bounds tx) (st_memo tx) (st_operations tx)
    (st_signatures tx ++ [sig]).

Definition buildChallenge (cfg : Sep10Config) (account nonce : string) (nowSeconds : Z) : string :=
  let tx := challenge_tx cfg account nonce nowSeconds in
  txXDR (add_signature (signWith (signingSecret cfg) (txHash (sep10Passphrase cfg) tx)) tx).

(** [op.source] and [op.value] as texts; missing ones are empty. *)
Definition present (o : option string) : string := default ""%string o.

(** The operations after the first: each a data entry of the server, and those
    named [web_auth_domain] naming this service. Answers whether one was seen. *)
Fixpoint read_rest (server domain : string) (ops : list StellarOp) (sawWebAuth : bool) : bool + ChallengeFailure :=
  match ops with
  | [] => inl sawWebAuth
  | ManageData source name value :: ops =>
      if negb (bool_decide (source = Some server)) then inr not_a_challenge
      else if bool_decide (name = "web_auth_domain"%string) then
        match value with
        | Some v => if bool_decide (v = domain) then read_rest server domain ops true else inr wrong_web_auth_domain
        | None => inr wrong_web_auth_domain
        end
      else read_rest server domain ops sawWebAuth
  | _ => inr not_a_challenge
  end.

Definition readChallenge (cfg : Sep10Config) (xdr : string) (nowSeconds : Z) : ChallengeStructure :=
  match fromXDR (trim xdr) (sep10Passphrase cfg) with
  | None | Some FeeBumpTx => Unstructured not_a_transaction
  | Some (PlainTx tx) =>
      let server := publicKey (signingSecret cfg) in
      if negb (bool_decide (st_source tx = server)) then Unstructured wrong_server
      else if negb (bool_decide (st_sequence tx = "0"%string)) then Unstructured not_a_challenge
      else
        match st_operations tx, st_bounds tx with
        | first :: ((_ :: _) as rest), Some (min, max) =>
            if max =? 0 then Unstructured not_a_challenge
            else if (nowSeconds <? min) || (max <? nowSeconds) then Unstructured challenge_expired
            else
              match first with
              | ManageData source name value =>
                  if negb (truthy source) then Unstructured not_a_challenge
                  else if negb (bool_decide (name = homeDomain cfg +:+ " auth")%string) then Unstructured wrong_home_domain
                  else if negb (String.length (from_base64 (present value)) =? SEP10_NONCE_BYTES)%nat
                  then Unstructured not_a_challenge
                  else
                    match read_rest server (webAuthDomain cfg) rest false with
                    | inr e => Unstructured e
                    | inl false => Unstructured wrong_web_auth_domain
                    | inl true =>
                        let client := present source in
                        if negb (String.prefix "G" client) || negb (isStellarAddress client)
                        then Unstructured wrong_account
                        else Structured client tx
                    end
              | _ => Unstructured not_a_challenge
              end
        | _, _ => Unstructured not_a_challenge
        end
  end.

(** [Keypair.fromPublicKey(key).verify(hash, sig)], false where it throws. *)
Definition verifies (key hash sig : string) : bool :=
  match rawPublicKey key with Some k => ed25519_verify k hash sig | None => false end.

(** The first candidate not verified yet that made [sig]. *)
Definition signer_of_signature (hash sig : string) (candidates verified : list string) : option string :=
  List.find (fun key => negb (bool_decide (key ∈ verified)) && verifies key hash sig) candidates.

Fixpoint verify_signatures (hash : string) (candidates : list string) (sigs verified : list string) : list string :=
  match sigs with
  | [] => verified
  | sig :: sigs =>
      verify_signatures hash candidates sigs
        match signer_of_signature hash sig candidates verified with
        | Some key => verified ++ [key]
        | None => verified
        end
  end.

Definition signed_weight (server : string) (verified : list string) (signers : list Signer) : Z :=
  foldr (fun s n => (if negb (bool_decide (signer_key s = server)) && bool_decide (signer_key s ∈ verified)
                     then weight s else 0) + n) 0 signers.

Definition verifyChallenge (cfg : Sep10Config) (xdr : string) (account : option AccountSigners) (nowSeconds : Z)
    : ChallengeResult :=
  match readChallenge cfg xdr nowSeconds with
  | Unstructured e => NotProven e
  | Structured client tx =>
      let server := publicKey (signingSecret cfg) in
      let hash := txHash (sep10Passphrase cfg) tx in
      let candidates := server :: match account with
                                  | Some a => List.map signer_key (account_signers a)
                                  | None => [client]
                                  end in
      let verified := verify_signatures hash candidates (st_signatures tx) [] in
      if negb (bool_decide (server ∈ verified)) then NotProven server_signature
      else
        match account with
        | None => if bool_decide (client ∈ verified) then Proven client else NotProven client_signature
        | Some a =>
            let w := signed_weight server verified (account_signers a) in
            if w =? 0 then NotProven client_signature
            else if w <? medThreshold a then NotProven below_threshold
            else Proven client
        end
  end.
End sep10.

(** ** What a challenge is, without the order of the checks *)

Section exact.
Context `{NODE : Node} `{CURVES : Curves} `{KEYS : StellarKeys}.

(** An entry of the server, which names this service if it names one. *)
Definition server_entry (server domain : string) (op : StellarOp) : Prop :=
  exists name value, op = ManageData (Some server) name value
    /\ (name = "web_auth_domain"%string -> value = Some domain).

Record is_challenge (cfg : Sep10Config) (tx : StellarTx) (client : string) (now : Z) : Prop := {
  ic_server : st_source tx = publicKey (signingSecret cfg);
  ic_sequence : st_sequence tx = "0"%string;
  ic_window : exists min max, st_bounds tx = Some (min, max) /\ max <> 0 /\ min <= now <= max;
  ic_client : String.prefix "G" client = true /\ isStellarAddress client = true;
  ic_operations : exists value rest,
    st_operations tx = ManageData (Some client) (homeDomain cfg +:+ " auth")%string value :: rest
    /\ String.length (from_base64 (present value)) = 48%nat
    /\ Forall (server_entry (publicKey (signingSecret cfg)) (webAuthDomain cfg)) rest
    /\ exists source value', ManageData source "web_auth_domain" value' ∈ rest
}.

Definition names_web_auth (op : StellarOp) : bool :=
  match op with ManageData _ name _ => bool_decide (name = "web_auth_domain"%string) | _ => false end.

Lemma read_rest_exact server domain ops saw b :
  read_rest server domain ops saw = inl b <->
  Forall (server_entry server domain) ops /\ b = saw || existsb names_web_auth ops.
Proof.
  revert saw. induction ops as [|op ops IH]; intros saw; simpl.
  { rewrite orb_false_r. split; [intros [= <-]; by split | by intros [_ ->]]. }
  rewrite Forall_cons. unfold server_entry at 1.
  destruct op as [source name value| | | |]; simpl; try (split; [done|]; by intros [[(? & ? & ? & _) _] _]).
  case_bool_decide as Es; simpl; [|split; [done|]; intros [[(? & ? & E & _) _] _]; by simplify_eq].
  subst source. case_bool_decide as En; simpl.
  - destruct value as [v|].
    + case_bool_decide as Ev; [|split; [done|]; intros [[(? & ? & E & Hv) _] _]; simplify_eq; by destruct Ev; injection (Hv eq_refl)].
      rewrite IH, orb_true_r. simpl. split; [|naive_solver]. intros [H ->]. split; [|done]. split; [|done].
      exists name, (Some v). split; [done | by intros _; subst v].
    + split; [done|]. intros [[(? & ? & E & Hv) _] _]. simplify_eq. by specialize (Hv eq_refl).
  - rewrite IH. split; [|naive_solver]. intros [H ->]. split; [|done]. split; [|done]. by exists name, value.
Qed.

Lemma names_web_auth_in ops : existsb names_web_auth ops = true <->
  exists source value, ManageData source "web_auth_domain" value ∈ ops.
Proof.
  rewrite existsb_exists. split.
  - intros (op & Hin & Hn). destruct op as [source name value| | | |]; try done. simpl in Hn.
    apply bool_decide_eq_true in Hn as ->. exists source, value. by apply list_elem_of_In.
  - intros (source & value & Hin). eexists. split; [by apply list_elem_of_In|]. by apply bool_decide_eq_true.
Qed.

Lemma readChallenge_exact cfg xdr now client tx :
  readChallenge cfg xdr now = Structured client tx <->
  fromXDR (trim xdr) (sep10Passphrase cfg) = Some (PlainTx tx) /\ is_challenge cfg tx client now.
Proof.
  unfold readChallenge. split.
  - destruct (fromXDR _ _) as [[t|]|]; try done. cbv zeta. intros H.
    destruct (bool_decide (st_source t = _)) eqn:E1; simpl in H; [|done].
    destruct (bool_decide (st_sequence t = _)) eqn:E2; simpl in H; [|done].
    destruct (st_operations t) as [|first [|second rest]] eqn:Eo; try done.
    destruct (st_bounds t) as [[min max]|] eqn:Eb; [|done].
    destruct (max =? 0) eqn:E3; [done|]. destruct (_ || _) eqn:E4; [done|].
    destruct first as [[source|] name value| | | |]; try done.
    destruct (truthy (Some source)) eqn:E5; cbn [negb] in H; [|done].
    destruct (bool_decide (name = (homeDomain cfg +:+ " auth")%string)) eqn:E6; cbn [negb] in H; [|done].
    destruct (String.length _ =? _)%nat eqn:E7; cbn [negb] in H; [|done].
    destruct (read_rest (publicKey (signingSecret cfg)) _ _ _) as [[]|] eqn:E8; [|done|done].
    destruct (negb (String.prefix _ _) || _) eqn:E9; [done|]. injection H as <- <-.
    bool_facts. apply read_rest_exact in E8 as [E8 E10]. apply Nat.eqb_eq in E7. subst name.
    split; [done|]. split; try done; [by exists min, max | ].
    exists value, (second :: rest). split_and!; try done. by apply names_web_auth_in.
  - intros [-> [H1 H2 (min & max & H3 & H4 & H5) [H6 H7] (value & rest & H8 & H9 & H10 & H11)]]. cbv zeta.
    rewrite H1, H2, H3, H8. rewrite !bool_decide_eq_true_2 by done. cbn [negb].
    destruct rest as [|second rest]; [by destruct H11 as (? & ? & ?%not_elem_of_nil)|].
    replace (max =? 0) with false by lia. replace (now <? min) with false by lia.
    replace (max <? now) with false by lia. cbn [orb].
    assert (Ht : truthy (Some client) = true) by by destruct client. rewrite Ht. cbn [negb].
    rewrite H9. cbn [Nat.eqb negb].
    rewrite (proj2 (read_rest_exact _ _ _ false true)); [|split; [done|]; symmetry; by apply names_web_auth_in].
    unfold present. simpl. rewrite H7. rewrite H6. done.
Qed.
End exact.

(** ** Who a verified challenge was signed by *)

Section control.
Context `{NODE : Node} `{CURVES : Curves} `{KEYS : StellarKeys}.

(** [keys] made one signature each of [sigs]. *)
Definition made_by (hash : string) (sigs keys : list string) : Prop :=
  NoDup keys /\ exists made, made `sublist_of` sigs /\ Forall2 (fun key sig => verifies key hash sig = true) keys made.

Lemma made_more hash sigs keys sig : made_by hash sigs keys -> made_by hash (sigs ++ [sig]) keys.
Proof. intros [Hn (made & Hs & Hf)]. split; [done|]. exists made. split; [by apply sublist_inserts_r | done]. Qed.

Lemma made_one hash sigs keys sig key :
  made_by hash sigs keys -> key ∉ keys -> verifies key hash sig = true -> made_by hash (sigs ++ [sig]) (keys ++ [key]).
Proof.
  intros [Hn (made & Hs & Hf)] Hk Hv. split.
  - apply NoDup_app. split_and!; [done | by intros x Hx ->%list_elem_of_singleton | apply NoDup_singleton].
  - exists (made ++ [sig]). split; [by apply sublist_app | by apply Forall2_app; [|constructor]].
Qed.

Lemma verify_signatures_made hash candidates sigs before verified :
  made_by hash before verified -> made_by hash (before ++ sigs) (verify_signatures hash candidates sigs verified).
Proof.
  revert before verified. induction sigs as [|sig sigs IH]; intros before verified H; simpl; [by rewrite app_nil_r|].
  rewrite (cons_middle sig), app_assoc. apply IH.
  destruct (signer_of_signature hash sig candidates verified) as [key|] eqn:E; [|by apply made_more].
  apply List.find_some in E as [_ [Hn Hv]%andb_true_iff]. apply negb_true_iff, bool_decide_eq_false in Hn.
  by apply made_one.
Qed.

(** What the signatures of a challenge show: the server's own, and the client's
    master key alone where the account does not exist, or else listed signers of
    it, other than the server, that weigh at least its medium threshold together. *)
Record controlled (cfg : Sep10Config) (tx : StellarTx) (client : string) (account : option AccountSigners) : Prop := {
  co_keys : exists keys,
    made_by (txHash (sep10Passphrase cfg) tx) (st_signatures tx) keys
    /\ publicKey (signingSecret cfg) ∈ keys
    /\ match account with
       | None => client ∈ keys
       | Some a => signed_weight (publicKey (signingSecret cfg)) keys (account_signers a) <> 0
           /\ medThreshold a <= signed_weight (publicKey (signingSecret cfg)) keys (account_signers a)
       end
}.

Lemma verifyChallenge_sound cfg xdr account now client :
  verifyChallenge cfg xdr account now = Proven client ->
  exists tx, fromXDR (trim xdr) (sep10Passphrase cfg) = Some (PlainTx tx) /\ is_challenge cfg tx client now
    /\ controlled cfg tx client account.
Proof.
  unfold verifyChallenge. destruct (readChallenge cfg xdr now) as [c tx|] eqn:Er; [|done].
  apply readChallenge_exact in Er as [Hx Hc]. cbv zeta. set (keys := verify_signatures _ _ _ _).
  assert (Hm : made_by (txHash (sep10Passphrase cfg) tx) (st_signatures tx) keys).
  { apply (verify_signatures_made _ _ _ [] []). split; [apply NoDup_nil_2|]. by exists []. }
  case_bool_decide as Hs; simpl; [|done]. intros H.
  assert (E : c = client).
  { destruct account as [a|]; [|case_bool_decide; congruence]. destruct (_ =? 0); [done|]. destruct (_ <? _); congruence. }
  subst c. exists tx. split_and!; [done..|]. split. exists keys. split_and!; [done..|].
  destruct account as [a|]; [|by case_bool_decide].
  destruct (_ =? 0) eqn:E0; [done|]. destruct (_ <? _) eqn:E1; [done|]. by bool_facts.
Qed.
End control.
