(* ===== verification/RecoveryStore.v ===== *)
(** A recovery server's tables (prisma/schema.prisma: RecoveryAccount with its
    RecoveryAuthMethod rows, RecoveryBackupShare, RecoveryEmailCode,
    RecoveryUsedIdToken), its configuration, the ledger a request names
    (recovery-network.ts), the world its methods run in and the statements they
    make. A server has its own database. *)

From S2P Require Import Prelude Text MerchantFee Programs Tokens Signatures Oidc Jwt RecoveryCore.
From stdpp Require Import base tactics list option gmap strings sorting.
From Stdlib Require Import ZArith Lia Ascii.

Open Scope Z_scope.

(** ** Ledgers (recovery-network.ts) *)

Inductive StellarNetwork := net_public | net_testnet.
#[export] Instance StellarNetwork_eq_dec : EqDecision StellarNetwork.
Proof. solve_decision. Defined.
Definition network_text (n : StellarNetwork) : string :=
  match n with net_public => "public" | net_testnet => "testnet" end.

(** What follows [p] in [s]. *)
Definition after_prefix (p s : string) : option string :=
  if String.prefix p s then Some (slice_from (String.length p) s) else None.

(** A segment ends at a slash or with the text. *)
Definition ends_segment (s : string) : bool :=
  match s with EmptyString => true | String a _ => Ascii.eqb a "/" end.

(** [SEGMENTED.exec(url)]: the prefix, the network and the rest of the URL. *)
Definition segmented (url : string) : option (string * StellarNetwork * string) :=
  let try_ (prefix : string) (n : StellarNetwork) :=
    rest ← after_prefix ("/v1/" +:+ prefix +:+ "/" +:+ network_text n)%string url;
    if ends_segment rest then Some (prefix, n, rest) else None in
  match try_ "sep10"%string net_public, try_ "sep10"%string net_testnet,
        try_ "sep30"%string net_public, try_ "sep30"%string net_testnet with
  | Some m, _, _, _ | None, Some m, _, _ | None, None, Some m, _ | None, None, None, Some m => Some m
  | None, None, None, None => None
  end.

(** The URL that is routed, and the ledger the request names. *)
Definition recoveryNetworkRewrite (url : string) : string * option StellarNetwork :=
  match segmented url with
  | Some (prefix, n, rest) => (("/v1/" +:+ prefix +:+ rest)%string, Some n)
  | None => (url, None)
  end.

(** [?network=] of the TOML: [None] is junk, [Some None] no ledger named. *)
Definition tomlNetwork (raw : option string) : option (option StellarNetwork) :=
  match raw with
  | None => Some None
  | Some r =>
      if bool_decide (r = "") then Some None
      else if bool_decide (r = "public") then Some (Some net_public)
      else if bool_decide (r = "testnet") then Some (Some net_testnet)
      else None
  end%string.

(** ** Configuration *)

Record RecoveryLedger := mkLedger { rl_passphrase : string; rl_horizonUrl : string }.

(** [exp_ms token] is what [new Date(exp * 1000)] makes of the [exp] of [token]
    where it is no integer, when that is a date. *)
Class RecoveryEnv := mkRecoveryEnv {
  rs_role : option ServerRole;
  rs_publicBaseUrl : string;
  rs_homeDomain : string;
  rs_signerMaster : string;
  rs_sep10SigningSecret : string;
  rs_jwtSecret : string;
  rs_default : RecoveryLedger;
  rs_networks : StellarNetwork -> option RecoveryLedger;
  rs_oidcIssuer : string;
  rs_oidcAudiences : list string;
  rs_emailCodes : bool;
  rs_mailer_configured : bool;
  rs_nonce : nat -> string;
  rs_jti : nat -> string;
  rs_token : nat -> string;
  rs_code : nat -> Z;
  rs_cuid : nat -> string;
  exp_ms : string -> option Z
}.

(** ** Rows *)

(** An account with its methods, in the order they were written. *)
Record AccountRow := mkAccountRow {
  ra_id : string;
  ra_createdAt : Z;
  ra_methods : list MethodRow
}.

Record ShareRow := mkShareRow { sh_share : string; sh_email : string; sh_updatedAt : Z }.

Inductive RecoveryEmailCodeStatus := R_PENDING | R_CLAIMED | R_LOCKED | R_EXPIRED.
#[export] Instance RecoveryEmailCodeStatus_eq_dec : EqDecision RecoveryEmailCodeStatus.
Proof. solve_decision. Defined.

Record RecoveryEmailCode := mkEmailCode {
  ec_role : string;
  ec_email : string;
  ec_codeHash : string;
  ec_attempts : Z;
  ec_status : RecoveryEmailCodeStatus;
  ec_sentAt : Z;
  ec_expiresAt : Z
}.

Definition set_code_guess (n : Z) (st : RecoveryEmailCodeStatus) (r : RecoveryEmailCode) : RecoveryEmailCode :=
  mkEmailCode (ec_role r) (ec_email r) (ec_codeHash r) n st (ec_sentAt r) (ec_expiresAt r).
(** With [codeHash: '']. *)
Definition set_code_spent (n : Z) (st : RecoveryEmailCodeStatus) (r : RecoveryEmailCode) : RecoveryEmailCode :=
  mkEmailCode (ec_role r) (ec_email r) "" n st (ec_sentAt r) (ec_expiresAt r).

(** ** What surrounds the service *)

Record Surroundings := mkSurroundings {
  sr_document : string -> HttpAnswer;
  sr_horizon : string -> string -> AccountResponse;
  sr_mail : string -> bool
}.

(** How an inbox was proven: the provider's token with its claims, or the code
    mailed with a claim token. *)
Inductive InboxProof :=
  | ByIdToken (idToken : string) (claims : IdTokenClaims)
  | ByEmailedCode (claimToken code : string).

(** An account's registration by server, ledger and address; a share's place by
    server and address. *)
Abbreviation account_key := (string * string * string)%type.
Abbreviation share_key := (string * string)%type.

(** What happened; no method reads it. [Recognized] is a bearer token an account
    route accepted. *)
Inductive RecoveryEvent :=
  | IssuedSep10 (rules : RecoveryRules) (account jti xdr : string) (signers : option AccountSigners) (verifiedAt issuedAt : Z)
  | IssuedIdentity (rules : RecoveryRules) (email jti : string) (issuedAt : Z) (proof : InboxProof)
  | CodeMinted (claimToken code email : string)
  | CodeClaimed (key : string)
  | Exchanged (tokenHash : string)
  | TokenChecked (idToken : string) (now : Z)
  | Recognized (rules : RecoveryRules) (token : string) (actor : Actor) (at_ : Z)
  | Filed (key : account_key) (methods : list MethodRow) (actor : Actor)
  | Forgotten (key : account_key) (actor : Actor)
  | ShareFiled (key : share_key) (share email : string) (actor : Actor)
  | ShareForgotten (key : share_key) (actor : Actor)
  | ShareReleased (key : share_key) (share : string) (actor : Actor)
  | Cosigned (rules : RecoveryRules) (address : string) (actor : Actor) (tx : StellarTx) (at_ : Z).

Record Recoveries := mkRecoveries {
  registered : gmap account_key AccountRow;
  backupShares : gmap share_key ShareRow;
  emailCodes : gmap string RecoveryEmailCode;
  usedIdTokens : gmap (string * string) Z;
  r_caches : OidcCaches;
  surroundings : Surroundings;
  r_mailed : list (string * string);
  r_history : list RecoveryEvent;
  r_clock : Z;
  r_drawn : nat
}.

Definition set_registered (f : gmap account_key AccountRow -> gmap account_key AccountRow) (s : Recoveries) : Recoveries :=
  mkRecoveries (f (registered s)) (backupShares s) (emailCodes s) (usedIdTokens s) (r_caches s) (surroundings s)
    (r_mailed s) (r_history s) (r_clock s) (r_drawn s).
Definition set_shares (f : gmap share_key ShareRow -> gmap share_key ShareRow) (s : Recoveries) : Recoveries :=
  mkRecoveries (registered s) (f (backupShares s)) (emailCodes s) (usedIdTokens s) (r_caches s) (surroundings s)
    (r_mailed s) (r_history s) (r_clock s) (r_drawn s).
Definition set_emailCodes (f : gmap string RecoveryEmailCode -> gmap string RecoveryEmailCode) (s : Recoveries) : Recoveries :=
  mkRecoveries (registered s) (backupShares s) (f (emailCodes s)) (usedIdTokens s) (r_caches s) (surroundings s)
    (r_mailed s) (r_history s) (r_clock s) (r_drawn s).
Definition set_usedIdTokens (f : gmap (string * string) Z -> gmap (string * string) Z) (s : Recoveries) : Recoveries :=
  mkRecoveries (registered s) (backupShares s) (emailCodes s) (f (usedIdTokens s)) (r_caches s) (surroundings s)
    (r_mailed s) (r_history s) (r_clock s) (r_drawn s).
Definition set_r_caches (c : OidcCaches) (s : Recoveries) : Recoveries :=
  mkRecoveries (registered s) (backupShares s) (emailCodes s) (usedIdTokens s) c (surroundings s)
    (r_mailed s) (r_history s) (r_clock s) (r_drawn s).
Definition log_r_mail (to_ code : string) (s : Recoveries) : Recoveries :=
  mkRecoveries (registered s) (backupShares s) (emailCodes s) (usedIdTokens s) (r_caches s) (surroundings s)
    (r_mailed s ++ [(to_, code)]) (r_history s) (r_clock s) (r_drawn s).
Definition r_log (e : RecoveryEvent) (s : Recoveries) : Recoveries :=
  mkRecoveries (registered s) (backupShares s) (emailCodes s) (usedIdTokens s) (r_caches s) (surroundings s)
    (r_mailed s) (r_history s ++ [e]) (r_clock s) (r_drawn s).
Definition set_r_drawn (n : nat) (s : Recoveries) : Recoveries :=
  mkRecoveries (registered s) (backupShares s) (emailCodes s) (usedIdTokens s) (r_caches s) (surroundings s)
    (r_mailed s) (r_history s) (r_clock s) n.

Abbreviation recovery := (prog Recoveries).

#[export] Instance recoveries_oidc : OidcWorld Recoveries :=
  {| caches := r_caches; set_caches := set_r_caches; oidc_get s url := sr_document (surroundings s) url;
     oidc_clock := r_clock; note_checked t now s := r_log (TokenChecked t now) s |}.

(** [Math.floor(Date.now() / 1000)] *)
Definition r_seconds (s : Recoveries) : Z := r_clock s / 1000.

(** ** Statements *)

(** The next random draw. *)
Definition r_draw : recovery nat := stmt (fun s => (set_r_drawn (S (r_drawn s)) s, Ok (r_drawn s))).

Definition log_done {A} (e : RecoveryEvent) (a : A) : svc Recoveries A := fun s => (r_log e s, Ok a).

(** [recoveryUsedIdToken.create]: role and hash are unique together. *)
Definition create_used (role tokenHash : string) (expiresAt : Z) : svc Recoveries unit := fun s =>
  match usedIdTokens s !! (role, tokenHash) with
  | Some _ => (s, Throw (UniqueViolation "role_tokenHash"))
  | None => (r_log (Exchanged tokenHash) (set_usedIdTokens (fun m => <[(role, tokenHash) := expiresAt]> m) s), Ok tt)
  end.

(** [recoveryEmailCode.create]: [claimHash] is unique, [sentAt] the moment,
    [attempts] 0. *)
Definition create_email_code `{Node} (role email claimToken code : string) (expiresAt : Z) : svc Recoveries unit := fun s =>
  match emailCodes s !! sha256Hex claimToken with
  | Some _ => (s, Throw (UniqueViolation "claimHash"))
  | None =>
      (r_log (CodeMinted claimToken code email)
         (set_emailCodes (fun m =>
            <[sha256Hex claimToken := mkEmailCode role email (sha256Hex code) 0 R_PENDING (r_clock s) expiresAt]> m) s),
       Ok tt)
  end.

(** [updateMany({ where: { id, ...where }, data })] of one code. *)
Definition update_email_code (key : string) (where_ : RecoveryEmailCode -> bool)
    (data : RecoveryEmailCode -> RecoveryEmailCode) (e : option RecoveryEvent) : svc Recoveries nat := fun s =>
  match emailCodes s !! key with
  | Some r =>
      if where_ r
      then (let s' := set_emailCodes (fun m => <[key := data r]> m) s in
            match e with Some e => r_log e s' | None => s' end, Ok 1%nat)
      else (s, Ok 0%nat)
  | None => (s, Ok 0%nat)
  end.

Definition code_rows_of (s : Recoveries) : list (string * RecoveryEmailCode) := map_to_list (emailCodes s).
Definition account_rows_of (s : Recoveries) : list (account_key * AccountRow) := map_to_list (registered s).
Definition share_rows_of (s : Recoveries) : list (share_key * ShareRow) := map_to_list (backupShares s).
