(* ===== verification/Recovery.v ===== *)
(** A recovery server: SEP-10 and SEP-30 (src/src/recovery/recovery.service.ts), the
    halves of backup keys (recovery-shares.service.ts) and the sweeper
    (recovery-sweeper.service.ts), as programs over the tables of RecoveryStore. *)

From S2P Require Import Prelude Text MerchantFee Programs Tokens Signatures Oidc WalletCore Jwt RecoveryCore Sep10 RecoveryStore.
From stdpp Require Import base tactics list option gmap strings sorting.
From Stdlib Require Import ZArith Lia Ascii.

Open Scope Z_scope.

Definition sep_notFound : exn := SepError 404.
Definition sep_unauthorized : exn := SepError 401.
Definition sep_forbidden : exn := SepError 403.
Definition sep_conflict : exn := SepError 409.
Definition sep_badRequest : exn := SepError 400.
Definition sep_unavailable : exn := SepError 503.
Definition sep_tooMany : exn := SepError 429.

(** [if (cond) throw e] *)
Definition refuse_if (cond : bool) (e : exn) : recovery unit := if cond then Raise e else Ret tt.

(** ** The caller *)

Definition lower_start (n : nat) (s : string) : string := toLowerCase (slice_to n s).

(** [/^Bearer\s+(\S+)$/i.exec(authorization?.trim() ?? '')?.[1]] *)
Definition bearer (authorization : option string) : option string :=
  let text := trim (default ""%string authorization) in
  let rest := slice_from 6 text in
  let token := trim_start rest in
  if bool_decide (lower_start 6 text = "bearer"%string) && negb (bool_decide (rest = token))
     && negb (bool_decide (token = ""%string)) && all_chars (fun a => negb (is_space a)) token
  then Some token else None.

Section service.
Context `{NODE : Node} `{VERIFY : NodeVerify} `{HMAC : Hmac} `{CURVES : Curves} `{KEYS : StellarKeys} `{ENV : RecoveryEnv}.

Definition sendsEmailCodes : bool := rs_emailCodes && rs_mailer_configured.

(** The ledger, and the path segment that names it. *)
Definition ledger (network : option StellarNetwork) : res (RecoveryLedger * string) :=
  match network with
  | None => Ok (rs_default, ""%string)
  | Some n =>
      match rs_networks n with
      | Some named => Ok (named, ("/" +:+ network_text n)%string)
      | None => Throw sep_notFound
      end
  end.

(** [new URL(...).host] *)
Definition url_host (u : Url) : string :=
  if bool_decide (port u = ""%string) then hostname u else (hostname u +:+ ":" +:+ port u)%string.

Definition rules_of (network : option StellarNetwork) : res RecoveryRules :=
  role ← res_of_option sep_notFound rs_role;
  l ← ledger network;
  url ← res_of_option JsError (new_URL rs_publicBaseUrl);
  Ok (mkRules role
    (mkSep10 rs_sep10SigningSecret rs_homeDomain (url_host url) (rl_passphrase (fst l)))
    rs_signerMaster rs_jwtSecret (rs_publicBaseUrl +:+ "/v1/sep10" +:+ snd l +:+ "/auth")%string).

Definition rowNetwork (rules : RecoveryRules) : string := networkOf (sep10Passphrase (sep10 rules)).

Definition key_of (rules : RecoveryRules) (address : string) : account_key :=
  (server_role_text (rr_role rules), rowNetwork rules, address).
Definition share_of (rules : RecoveryRules) (address : string) : share_key :=
  (server_role_text (rr_role rules), address).

(** ** The published file (recovery-core.ts, [buildStellarToml]) *)

Definition chr (n : nat) : string := String (ascii_of_nat n) "".

(** A TOML basic string: backslash, quote, line feed and carriage return escaped. *)
Definition toml_char (a : ascii) : string :=
  match nat_of_ascii a with
  | 92%nat => chr 92 +:+ chr 92
  | 34%nat => chr 92 +:+ chr 34
  | 10%nat => chr 92 +:+ "n"
  | 13%nat => chr 92 +:+ "r"
  | _ => String a ""
  end%string.
Fixpoint toml_chars (s : string) : string :=
  match s with EmptyString => "" | String a r => (toml_char a +:+ toml_chars r)%string end.
Definition q (value : string) : string := (chr 34 +:+ toml_chars value +:+ chr 34)%string.

Fixpoint join_lines (lines : list string) : string :=
  match lines with
  | [] => ""
  | [line] => line
  | line :: lines => (line +:+ chr 10 +:+ join_lines lines)%string
  end.

Definition buildStellarToml (rules : RecoveryRules) (horizonUrl sep30Endpoint : string) (oidcIssuer : option string)
    (emailCodes : bool) : string :=
  join_lines
    (app ["# Cosmos Pay - SEP-30 recovery server.";
          "VERSION = " +:+ q "2.7.0";
          "NETWORK_PASSPHRASE = " +:+ q (sep10Passphrase (sep10 rules));
          "HORIZON_URL = " +:+ q horizonUrl;
          "WEB_AUTH_ENDPOINT = " +:+ q (webAuthEndpoint rules);
          "SIGNING_KEY = " +:+ q (publicKey (signingSecret (sep10 rules)));
          "HOME_DOMAIN = " +:+ q (homeDomain (sep10 rules));
          "";
          "[[RECOVERY_SERVERS]]";
          "ENDPOINT = " +:+ q sep30Endpoint;
          "ROLE = " +:+ q (server_role_text (rr_role rules))]
       (app (match oidcIssuer with Some iss => ["OIDC_ISSUER = " +:+ q iss] | None => [] end)
          ["EMAIL_CODES = " +:+ (if emailCodes then "true" else "false"); ""]))%string.

Definition stellarToml (network : option StellarNetwork) : res string :=
  rules ← rules_of network;
  l ← ledger network;
  Ok (buildStellarToml rules (rl_horizonUrl (fst l)) (rs_publicBaseUrl +:+ "/v1/sep30" +:+ snd l)%string
        (if bool_decide (rs_oidcIssuer = ""%string) then None else Some rs_oidcIssuer) sendsEmailCodes).

(** ** SEP-10 *)

Definition challenge (account : string) (network : option StellarNetwork) : recovery (string * string) :=
  rules ← pure (rules_of network);
  _ ← refuse_if (negb (String.prefix "G" account) || negb (isStellarAddress account)) sep_badRequest;
  n ← r_draw;
  now ← asking r_seconds;
  Ret (buildChallenge (sep10 rules) account (rs_nonce n) now, sep10Passphrase (sep10 rules)).

Definition token (transaction : string) (network : option StellarNetwork) : recovery string :=
  rules ← pure (rules_of network);
  now ← asking r_seconds;
  match readChallenge (sep10 rules) transaction now with
  | Unstructured _ => Raise sep_badRequest
  | Structured account _ =>
      l ← pure (ledger network);
      signers ← catching
        (answer ← asking (fun s => fetchAccountSigners (sr_horizon (surroundings s) (rl_horizonUrl (fst l)) account));
         pure answer)
        (fun _ => Raise sep_unavailable);
      verifiedAt ← asking r_seconds;
      match verifyChallenge (sep10 rules) transaction signers verifiedAt with
      | NotProven _ => Raise sep_unauthorized
      | Proven client =>
          n ← r_draw;
          issuedAt ← asking r_seconds;
          issued ← pure (issueSep10Token rules client (rs_jti n) issuedAt);
          stmt (log_done (IssuedSep10 rules client (rs_jti n) transaction signers verifiedAt issuedAt) issued)
      end
  end.

(** ** Identities *)

Definition recovery_expectations : IdTokenExpectations :=
  mkExpectations rs_oidcIssuer rs_oidcAudiences None (Some OIDC_MAX_LOGIN_AGE_S) None false.

(** [new Date(exp * 1000)], when that is a date. *)
Definition MAX_DATE_MS : Z := 8640000000000000.
Definition token_expiry (idToken : string) (exp : jsnum) : option Z :=
  match exp with
  | NumInt z => if Z.abs (z * 1000) <=? MAX_DATE_MS then Some (z * 1000) else None
  | NumOther => exp_ms idToken
  end.

Definition issue_identity (rules : RecoveryRules) (email : string) (proof : InboxProof) : recovery string :=
  n ← r_draw;
  issuedAt ← asking r_seconds;
  issued ← pure (issueIdentityToken rules email (rs_jti n) issuedAt);
  stmt (log_done (IssuedIdentity rules email (rs_jti n) issuedAt proof) issued).

Definition exchangeIdToken (idToken : string) (network : option StellarNetwork) : recovery string :=
  rules ← pure (rules_of network);
  _ ← refuse_if (bool_decide (rs_oidcIssuer = ""%string)) sep_notFound;
  result ← catching (oidc_verify idToken recovery_expectations) (fun _ => Raise sep_unavailable);
  match result with
  | Refused _ => Raise sep_unauthorized
  | Verified claims =>
      _ ← catching
        (expiresAt ← pure (res_of_option JsError (token_expiry idToken (cl_exp claims)));
         stmt (create_used (server_role_text (rr_role rules)) (sha256Hex idToken) expiresAt))
        (fun e => if isUniqueViolation e then Raise sep_unauthorized else Raise e);
      issue_identity rules (cl_email claims) (ByIdToken idToken claims)
  end.

(** [deliver] is not awaited and answers nothing: the message leaves or it does not. *)
Definition deliver (email code : string) : recovery unit :=
  stmt (fun s => if sr_mail (surroundings s) email then (log_r_mail email code s, Ok tt) else (s, Ok tt)).

Definition startEmail (rawEmail : string) (network : option StellarNetwork) : recovery (string * Z) :=
  rules ← pure (rules_of network);
  _ ← refuse_if (negb sendsEmailCodes) sep_notFound;
  let role := server_role_text (rr_role rules) in
  let email := normalizeEmail rawEmail in
  recent ← asking (fun s =>
    existsb (fun x => bool_decide (ec_role (snd x) = role) && bool_decide (ec_email (snd x) = email)
                      && bool_decide (ec_status (snd x) = R_PENDING)
                      && (r_clock s - RECOVERY_CODE_RESEND_MS <? ec_sentAt (snd x))) (code_rows_of s));
  _ ← refuse_if recent sep_tooMany;
  today ← asking (fun s =>
    length (List.filter (fun x => bool_decide (ec_role (snd x) = role) && bool_decide (ec_email (snd x) = email)
                                  && (r_clock s - 24 * 60 * 60 * 1000 <? ec_sentAt (snd x))) (code_rows_of s)));
  _ ← refuse_if (RECOVERY_CODE_DAILY_CAP <=? today)%nat sep_tooMany;
  n ← r_draw;
  c ← r_draw;
  now ← asking r_clock;
  let claimToken := rs_token n in
  let code := sixDigitCode (rs_code c) in
  _ ← stmt (create_email_code role email claimToken code (now + RECOVERY_CODE_TTL_MS));
  named ← asking (fun s =>
    sum_list_with (fun x => if bool_decide (fst (fst (fst x)) = role)
      then length (List.filter (fun m => bool_decide (mr_type m = email_method) && bool_decide (mr_value m = email))
                     (ra_methods (snd x)))
      else 0%nat) (account_rows_of s));
  halves ← asking (fun s =>
    length (List.filter (fun x => bool_decide (fst (fst x) = role) && bool_decide (sh_email (snd x) = email))
              (share_rows_of s)));
  _ ← (if (0 <? named + halves)%nat then deliver email code else Ret tt);
  Ret (claimToken, RECOVERY_CODE_TTL_MS / 1000).

Inductive RecoveryVerifyReply :=
  | CodeExpired
  | CodeLocked
  | CodeInvalid (attempts_left : Z)
  | CodeReady (token : string).

Definition verifyEmail (claimToken code : string) (network : option StellarNetwork) : recovery RecoveryVerifyReply :=
  rules ← pure (rules_of network);
  let key := sha256Hex claimToken in
  row ← asking (fun s => emailCodes s !! key);
  match row with
  | None => Ret CodeExpired
  | Some r =>
      if negb (bool_decide (ec_role r = server_role_text (rr_role rules))) then Ret CodeExpired
      else if bool_decide (ec_status r = R_LOCKED) then Ret CodeLocked
      else
        now ← asking r_clock;
        if negb (bool_decide (ec_status r = R_PENDING)) || (ec_expiresAt r <? now) then Ret CodeExpired
        else
          let attempts := ec_attempts r + 1 in
          if negb (bool_decide (sha256Hex code = ec_codeHash r)) then
            let locked := RECOVERY_CODE_MAX_ATTEMPTS <=? attempts in
            _ ← stmt (update_email_code key (fun x => bool_decide (ec_status x = R_PENDING))
                        (set_code_guess attempts (if locked then R_LOCKED else R_PENDING)) None);
            Ret (if locked then CodeLocked else CodeInvalid (RECOVERY_CODE_MAX_ATTEMPTS - attempts))
          else
            claimed ← stmt (update_email_code key
                              (fun x => bool_decide (ec_status x = R_PENDING) && (ec_attempts x =? ec_attempts r))
                              (set_code_spent attempts R_CLAIMED) (Some (CodeClaimed key)));
            if negb (claimed =? 1)%nat then Ret CodeExpired
            else
              issued ← issue_identity rules (ec_email r) (ByEmailedCode claimToken code);
              Ret (CodeReady issued)
  end.

(** ** SEP-30 *)

(** Under [rules], [this.rules(network)] again. *)
Definition actor (authorization : option string) (network : option StellarNetwork) : recovery Actor :=
  rules ← pure (rules_of network);
  match bearer authorization with
  | None => Raise sep_unauthorized
  | Some t =>
      stmt (fun s =>
        match actorFromToken rules t (r_seconds s) with
        | Ok (Some a) => (r_log (Recognized rules t a (r_seconds s)) s, Ok a)
        | Ok None => (s, Throw sep_unauthorized)
        | Throw e => (s, Throw e)
        end)
  end.

Record AccountView := mkAccountView {
  av_address : string;
  av_identities : list (IdentityRole * bool);
  av_signer : string;
  av_addedAt : Z
}.

Fixpoint distinct_roles (seen : list IdentityRole) (l : list IdentityRole) : list IdentityRole :=
  match l with
  | [] => []
  | r :: l => if bool_decide (r ∈ seen) then distinct_roles seen l else r :: distinct_roles (r :: seen) l
  end.

Definition response (rules : RecoveryRules) (address : string) (row : AccountRow) (a : Actor) : AccountView :=
  mkAccountView address
    (List.map (fun role => (role, authenticatesAs a address (ra_methods row) role))
       (distinct_roles [] (List.map mr_role (ra_methods row))))
    (signerFor (signerMaster rules) address) (ra_createdAt row).

Definition find (rules : RecoveryRules) (address : string) : recovery (option AccountRow) :=
  asking (fun s => registered s !! key_of rules address).

Definition method_rows (identities : list Identity) : list MethodRow :=
  flat_map (fun i => List.map (fun m => mkMethodRow (ri_role i) (am_type m) (normalizeEmail (am_value m))) (auth_methods i))
    identities.

(** The transaction: the account is upserted, its methods replaced. *)
Definition write (rules : RecoveryRules) (address : string) (identities : list Identity) (a : Actor)
    : svc Recoveries AccountRow := fun s =>
  let key := key_of rules address in
  let methods := method_rows identities in
  let row := match registered s !! key with
             | Some r => mkAccountRow (ra_id r) (ra_createdAt r) methods
             | None => mkAccountRow (rs_cuid (r_drawn s)) (r_clock s) methods
             end in
  (r_log (Filed key methods a) (set_r_drawn (S (r_drawn s)) (set_registered (fun m => <[key := row]> m) s)), Ok row).

(** [actor.kind !== 'address' || actor.address !== address] *)
Definition not_key_holder (a : Actor) (address : string) : bool := negb (bool_decide (a = ByAddress address)).

Definition register (authorization : option string) (address : string) (identities : list Identity)
    (network : option StellarNetwork) : recovery AccountView :=
  rules ← pure (rules_of network);
  a ← actor authorization network;
  _ ← refuse_if (not_key_holder a address) sep_forbidden;
  known ← find rules address;
  match known with
  | Some _ => Raise sep_conflict
  | None =>
      catching
        (row ← stmt (write rules address identities a); Ret (response rules address row a))
        (fun e => if isUniqueViolation e then Raise sep_conflict else Raise e)
  end.

Definition update (authorization : option string) (address : string) (identities : list Identity)
    (network : option StellarNetwork) : recovery AccountView :=
  rules ← pure (rules_of network);
  a ← actor authorization network;
  _ ← refuse_if (not_key_holder a address) sep_forbidden;
  row ← stmt (write rules address identities a);
  Ret (response rules address row a).

Definition get (authorization : option string) (address : string) (network : option StellarNetwork) : recovery AccountView :=
  rules ← pure (rules_of network);
  a ← actor authorization network;
  known ← find rules address;
  match known with
  | Some row => if mayAct a address (ra_methods row) then Ret (response rules address row a) else Raise sep_notFound
  | None => Raise sep_notFound
  end.

(** [delete({ where: { id } })]: throws when the row is gone. *)
Definition delete_account (key : account_key) (id : string) (a : Actor) : svc Recoveries unit := fun s =>
  match registered s !! key with
  | Some r => if bool_decide (ra_id r = id) then (r_log (Forgotten key a) (set_registered (delete key) s), Ok tt) else (s, Throw JsError)
  | None => (s, Throw JsError)
  end.

Definition remove (authorization : option string) (address : string) (network : option StellarNetwork) : recovery AccountView :=
  rules ← pure (rules_of network);
  a ← actor authorization network;
  _ ← refuse_if (not_key_holder a address) sep_forbidden;
  known ← find rules address;
  match known with
  | None => Raise sep_notFound
  | Some row =>
      _ ← stmt (delete_account (key_of rules address) (ra_id row) a);
      Ret (response rules address row a)
  end.

Definition address_before (a b : string) : bool := match String.compare a b with Lt => true | _ => false end.
Definition address_first {K A} (f : K -> string) (a b : K * A) : Prop := negb (address_before (f (fst b)) (f (fst a))) = true.
#[export] Instance address_first_dec {K A} (f : K -> string) (a b : K * A) : Decision (address_first f a b).
Proof. unfold address_first. apply _. Defined.

(** [listWhere]: [after] is met beside the scope, never instead of it. *)
Definition listWhere (role network : string) (a : Actor) (after_ : option string) (x : account_key * AccountRow) : bool :=
  let '(row_role, row_network, address) := fst x in
  bool_decide (row_role = role) && bool_decide (row_network = network)
  && match a with
     | ByAddress held => bool_decide (address = held)
     | ByIdentity t v => existsb (fun m => bool_decide (mr_type m = t) && bool_decide (mr_value m = v)) (ra_methods (snd x))
     end
  && (negb (truthy after_) || address_before (default ""%string after_) address).

Definition list_accounts (authorization : option string) (after_ : option string) (network : option StellarNetwork)
    : recovery (list AccountView) :=
  rules ← pure (rules_of network);
  a ← actor authorization network;
  rows ← asking (fun s =>
    take RECOVERY_PAGE_SIZE
      (merge_sort (address_first snd)
         (List.filter (listWhere (server_role_text (rr_role rules)) (rowNetwork rules) a after_) (account_rows_of s))));
  Ret (List.map (fun x => response rules (snd (fst x)) (snd x) a) rows).

Definition sign (authorization : option string) (address signingAddress xdr : string) (network : option StellarNetwork)
    : recovery (string * string) :=
  rules ← pure (rules_of network);
  a ← actor authorization network;
  known ← find rules address;
  match known with
  | None => Raise sep_notFound
  | Some row =>
      _ ← refuse_if (negb (mayAct a address (ra_methods row))) sep_notFound;
      _ ← refuse_if (negb (bool_decide (signerFor (signerMaster rules) address = signingAddress))) sep_notFound;
      match fromXDR (trim xdr) (sep10Passphrase (sep10 rules)) with
      | None => Raise sep_badRequest
      | Some envelope =>
          stmt (fun s =>
            match envelope, signRefusal envelope address (r_seconds s) with
            | PlainTx tx, None =>
                log_done (Cosigned rules address a tx (r_seconds s))
                  (to_base64 (signWithSeed (signerSeed (signerMaster rules) address)
                                (txHash (sep10Passphrase (sep10 rules)) tx)),
                   sep10Passphrase (sep10 rules)) s
            | _, _ => (s, Throw sep_forbidden)
            end)
      end
  end.

(** ** The halves of backup keys (recovery-shares.service.ts) *)

Definition put_share (authorization : option string) (address share email : string) (network : option StellarNetwork)
    : recovery Z :=
  rules ← pure (rules_of network);
  a ← actor authorization network;
  _ ← refuse_if (not_key_holder a address) sep_forbidden;
  _ ← refuse_if (negb (String.length (from_base64 share) =? RECOVERY_SHARE_BYTES)%nat) sep_badRequest;
  stmt (fun s =>
    log_done (ShareFiled (share_of rules address) share (normalizeEmail email) a) (r_clock s)
      (set_shares (fun m => <[share_of rules address := mkShareRow share (normalizeEmail email) (r_clock s)]> m) s)).

Definition mayTake (a : Actor) (address email : string) : bool :=
  match a with
  | ByAddress held => bool_decide (held = address)
  | ByIdentity email_method v => bool_decide (v = normalizeEmail email)
  end.

(** The row is read, and what it says is handed out. *)
Definition get_share (authorization : option string) (address : string) (network : option StellarNetwork)
    : recovery (string * string) :=
  rules ← pure (rules_of network);
  a ← actor authorization network;
  stmt (fun s =>
    match backupShares s !! share_of rules address with
    | Some row =>
        if mayTake a address (sh_email row)
        then log_done (ShareReleased (share_of rules address) (sh_share row) a) (address, sh_share row) s
        else (s, Throw sep_notFound)
    | None => (s, Throw sep_notFound)
    end).

Definition share_scope (role email : string) (after_ : option string) (x : share_key * ShareRow) : bool :=
  bool_decide (fst (fst x) = role) && bool_decide (sh_email (snd x) = email)
  && (negb (truthy after_) || address_before (default ""%string after_) (snd (fst x))).

Definition list_shares (authorization : option string) (after_ : option string) (network : option StellarNetwork)
    : recovery (list (string * string)) :=
  rules ← pure (rules_of network);
  a ← actor authorization network;
  match a with
  | ByAddress _ => Raise sep_forbidden
  | ByIdentity email_method email =>
      stmt (fun s =>
        let rows := take RECOVERY_PAGE_SIZE
          (merge_sort (address_first snd)
             (List.filter (share_scope (server_role_text (rr_role rules)) email after_) (share_rows_of s))) in
        (foldr (fun x s => r_log (ShareReleased (fst x) (sh_share (snd x)) a) s) s rows,
         Ok (List.map (fun x => (snd (fst x), sh_share (snd x))) rows)))
  end.

Definition remove_share (authorization : option string) (address : string) (network : option StellarNetwork)
    : recovery string :=
  rules ← pure (rules_of network);
  a ← actor authorization network;
  _ ← refuse_if (not_key_holder a address) sep_forbidden;
  count ← stmt (fun s =>
    match backupShares s !! share_of rules address with
    | Some _ => (r_log (ShareForgotten (share_of rules address) a) (set_shares (delete (share_of rules address)) s), Ok 1%nat)
    | None => (s, Ok 0%nat)
    end);
  _ ← refuse_if (count =? 0)%nat sep_notFound;
  Ret address.
End service.

(** ** The sweeper (recovery-sweeper.service.ts) *)

Definition older_email_code (a b : string * RecoveryEmailCode) : Prop := ec_expiresAt (snd a) <= ec_expiresAt (snd b).
#[export] Instance older_email_code_dec a b : Decision (older_email_code a b).
Proof. unfold older_email_code. apply _. Defined.

Definition stale_email_code (now : Z) (r : RecoveryEmailCode) : bool :=
  bool_decide (ec_status r = R_PENDING) && (ec_expiresAt r <? now).

Definition recovery_sweep : recovery unit :=
  now ← asking r_clock;
  stale ← asking (fun s =>
    (take RECOVERY_SWEEP_BATCH_SIZE
       (merge_sort older_email_code (List.filter (fun x => stale_email_code now (snd x)) (code_rows_of s)))).*1);
  _ ← (if (length stale =? 0)%nat then Ret tt
       else stmt (fun s => (set_emailCodes (map_imap (fun k r =>
              Some (if bool_decide (k ∈ stale) then set_code_spent (ec_attempts r) R_EXPIRED r else r))) s, Ok tt)));
  _ ← stmt (fun s => (set_emailCodes (filter (fun x =>
        negb (bool_decide (ec_status (snd x) = R_PENDING)) && (ec_expiresAt (snd x) <? now - RECOVERY_SWEEP_GRACE_MS) = false)) s,
        Ok tt));
  stmt (fun s => (set_usedIdTokens (filter (fun x => (snd x <? now) = false)) s, Ok tt)).
