(* ===== verification/RecoverySafety.v ===== *)
(** A recovery server under concurrency: what stands behind every token it issued,
    every registration and share on file and every co-signature ([evidence], over a
    history no method reads), and the invariant [recoveries_ok] every method keeps
    in any interleaving. *)

From S2P Require Import Prelude Text MerchantFee Programs Tokens Signatures Oidc OidcSafety WalletCore Jwt RecoveryCore Sep10 RecoveryStore Recovery.
From stdpp Require Import base tactics list option gmap strings sorting.
From Stdlib Require Import ZArith Lia Ascii.

Open Scope Z_scope.

(** ** What is on file, by the history *)

Definition filing (key : account_key) (on : option (list MethodRow)) (e : RecoveryEvent) : option (list MethodRow) :=
  match e with
  | Filed k methods _ => if bool_decide (k = key) then Some methods else on
  | Forgotten k _ => if bool_decide (k = key) then None else on
  | _ => on
  end.
Definition standing (key : account_key) (h : list RecoveryEvent) : option (list MethodRow) := foldl (filing key) None h.

Definition share_filing (key : share_key) (on : option (string * string)) (e : RecoveryEvent) : option (string * string) :=
  match e with
  | ShareFiled k share email _ => if bool_decide (k = key) then Some (share, email) else on
  | ShareForgotten k _ => if bool_decide (k = key) then None else on
  | _ => on
  end.
Definition standing_share (key : share_key) (h : list RecoveryEvent) : option (string * string) :=
  foldl (share_filing key) None h.

Lemma standing_snoc key h e : standing key (h ++ [e]) = filing key (standing key h) e.
Proof. unfold standing. by rewrite foldl_app. Qed.
Lemma standing_share_snoc key h e : standing_share key (h ++ [e]) = share_filing key (standing_share key h) e.
Proof. unfold standing_share. by rewrite foldl_app. Qed.

Lemma standing_filed key h methods : standing key h = Some methods -> exists a, Filed key methods a ∈ h.
Proof.
  induction h as [|e h IH] using rev_ind; [done|]. rewrite standing_snoc. unfold filing.
  destruct e as [| | | | | | |k m a|k a| | | |]; try (intros (a' & Ha)%IH; exists a'; set_solver);
    case_bool_decide as Ek; try (intros (a' & Ha)%IH; exists a'; set_solver); try done.
  intros [= ->]. subst k. exists a. set_solver.
Qed.

Lemma standing_share_filed key h share email :
  standing_share key h = Some (share, email) -> exists a, ShareFiled key share email a ∈ h.
Proof.
  induction h as [|e h IH] using rev_ind; [done|]. rewrite standing_share_snoc. unfold share_filing.
  destruct e as [| | | | | | | | |k x m a|k a| |]; try (intros (a' & Ha)%IH; exists a'; set_solver);
    case_bool_decide as Ek; try (intros (a' & Ha)%IH; exists a'; set_solver); try done.
  intros [= -> ->]. subst k. exists a. set_solver.
Qed.

Section safety.
Context `{NODE : Node} `{VERIFY : NodeVerify} `{HMAC : Hmac} `{CURVES : Curves} `{KEYS : StellarKeys} `{ENV : RecoveryEnv}.

(** The states of the outside the server has met. *)
Context (moment : Surroundings -> Prop).

(** ** Evidence *)

Definition document_read (url : string) (a : HttpAnswer) : Prop := exists w, moment w /\ a = sr_document w url.

(** Rules this server runs, on the ledger [l]. *)
Definition runs (rules : RecoveryRules) (l : RecoveryLedger) : Prop :=
  exists network segment, rules_of network = Ok rules /\ ledger network = Ok (l, segment).

(** The signers Horizon answered for an account on a ledger. *)
Definition listed (l : RecoveryLedger) (account : string) (signers : option AccountSigners) : Prop :=
  exists w, moment w /\ fetchAccountSigners (sr_horizon w (rl_horizonUrl l) account) = Ok signers.

Definition inbox_evidence (h : list RecoveryEvent) (email : string) (proof : InboxProof) : Prop :=
  match proof with
  | ByIdToken t claims =>
      email = cl_email claims /\ Exchanged (sha256Hex t) ∈ h
      /\ exists ks now, TokenChecked t now ∈ h /\ published document_read rs_oidcIssuer ks
           /\ attests t ks (mkExpectations rs_oidcIssuer rs_oidcAudiences None (Some 900) None false) now claims
  | ByEmailedCode claimToken code =>
      CodeClaimed (sha256Hex claimToken) ∈ h
      /\ exists ct c, CodeMinted ct c email ∈ h /\ sha256Hex ct = sha256Hex claimToken /\ sha256Hex c = sha256Hex code
  end.

Definition recognized (h : list RecoveryEvent) (rules : RecoveryRules) (a : Actor) : Prop :=
  exists t at_, Recognized rules t a at_ ∈ h.

(** A moment that is a date, in seconds. *)
Definition dated (at_ : Z) : Prop := 0 <= at_ <= MAX_DATE_MS / 1000.

Definition evidence (h : list RecoveryEvent) (e : RecoveryEvent) : Prop :=
  match e with
  | IssuedSep10 rules account _ xdr signers verifiedAt issuedAt =>
      dated issuedAt /\ verifyChallenge (sep10 rules) xdr signers verifiedAt = Proven account
      /\ exists l, runs rules l /\ listed l account signers
  | IssuedIdentity rules email _ issuedAt proof => dated issuedAt /\ inbox_evidence h email proof
  | Recognized rules t a at_ => actorFromToken rules t at_ = Ok (Some a)
  | Filed key _ a | Forgotten key a =>
      exists rules address, key = key_of rules address /\ a = ByAddress address /\ recognized h rules a
  | ShareFiled key _ email a =>
      normalizeEmail email = email
      /\ exists rules address, key = share_of rules address /\ a = ByAddress address /\ recognized h rules a
  | ShareForgotten key a =>
      exists rules address, key = share_of rules address /\ a = ByAddress address /\ recognized h rules a
  | ShareReleased key share a =>
      exists rules address email, key = share_of rules address /\ recognized h rules a
        /\ standing_share key h = Some (share, email) /\ mayTake a address email = true
  | Cosigned rules address a tx at_ =>
      signRefusal (PlainTx tx) address at_ = None
      /\ exists h0 methods, h0 `prefix_of` h /\ recognized h0 rules a
           /\ standing (key_of rules address) h0 = Some methods /\ mayAct a address methods = true
  | CodeMinted _ _ _ | CodeClaimed _ | Exchanged _ | TokenChecked _ _ => True
  end.

(** A history each of whose events had its evidence in the part before it. *)
Inductive well_logged : list RecoveryEvent -> Prop :=
  | wl_nil : well_logged []
  | wl_snoc h e : well_logged h -> evidence h e -> well_logged (h ++ [e]).

Lemma well_logged_at h1 e h2 : well_logged (h1 ++ e :: h2) -> evidence h1 e.
Proof.
  remember (h1 ++ e :: h2) as h eqn:E. intros H. revert h2 E. induction H as [|h e' H IH He]; intros h2 E; [by destruct h1|].
  destruct h2 as [|x h2] using rev_ind.
  - apply app_inj_tail in E as [-> ->]. done.
  - clear IHh2. rewrite app_comm_cons, app_assoc in E. apply app_inj_tail in E as [-> ->]. by eapply IH.
Qed.

Definition code_minted (h : list RecoveryEvent) (key : string) (r : RecoveryEmailCode) : Prop :=
  ec_status r = R_PENDING ->
  exists ct code, CodeMinted ct code (ec_email r) ∈ h /\ key = sha256Hex ct /\ ec_codeHash r = sha256Hex code.

(** ** The invariant *)

Record recoveries_ok (s : Recoveries) : Prop := {
  rv_moment : moment (surroundings s);
  rv_clock : 0 <= r_clock s <= MAX_DATE_MS;
  rv_caches : caches_ok document_read (r_caches s);
  rv_logged : well_logged (r_history s);
  rv_accounts : forall key, ra_methods <$> registered s !! key = standing key (r_history s);
  rv_shares : forall key, (fun r => (sh_share r, sh_email r)) <$> backupShares s !! key = standing_share key (r_history s);
  rv_codes : map_Forall (code_minted (r_history s)) (emailCodes s);
  rv_mail : Forall (fun m => exists ct, CodeMinted ct (snd m) (fst m) ∈ r_history s) (r_mailed s)
}.

Definition grown (s s' : Recoveries) : Prop := r_history s `prefix_of` r_history s'.
#[export] Instance grown_preorder : PreOrder grown.
Proof. unfold grown. split; [by intros s | intros s t u; apply transitivity]. Qed.

Lemma grown_in s s' e : grown s s' -> e ∈ r_history s -> e ∈ r_history s'.
Proof. intros [k ->] H. set_solver. Qed.

Lemma recognized_mono h h' rules a : h `prefix_of` h' -> recognized h rules a -> recognized h' rules a.
Proof. intros [k ->] (t & at_ & H). exists t, at_. set_solver. Qed.

Lemma code_minted_mono h h' key r : h `prefix_of` h' -> code_minted h key r -> code_minted h' key r.
Proof. intros [k ->] H Hs. destruct (H Hs) as (ct & c & H1 & H2 & H3). exists ct, c. split_and!; [set_solver|done..]. Qed.

Lemma inbox_evidence_mono h h' email proof : h `prefix_of` h' -> inbox_evidence h email proof -> inbox_evidence h' email proof.
Proof. intros [k ->]. destruct proof; simpl; [intros (? & ? & ?) | intros (? & ct & c & ? & ?)]; [|split; [|exists ct, c]]; split_and?; set_solver. Qed.

#[local] Abbreviation ok := (safe recoveries_ok grown).
#[local] Abbreviation yields := (ensures recoveries_ok grown).

(** A statement that changes neither the history nor the rows it speaks of. *)
Lemma unlogged_ok s s' :
  registered s' = registered s -> backupShares s' = backupShares s -> r_history s' = r_history s ->
  moment (surroundings s') -> 0 <= r_clock s' <= MAX_DATE_MS -> caches_ok document_read (r_caches s') ->
  map_Forall (code_minted (r_history s)) (emailCodes s') ->
  Forall (fun m => exists ct, CodeMinted ct (snd m) (fst m) ∈ r_history s) (r_mailed s') ->
  recoveries_ok s -> recoveries_ok s' /\ grown s s'.
Proof.
  intros E1 E2 E3 Hm Hk Hc Hcodes Hmail [_ _ _ H1 H2 H3 _ _]. split; [|unfold grown; by rewrite E3].
  split; rewrite ?E1, ?E2, ?E3; done.
Qed.

(** One more event, with its evidence and the rows then. *)
Lemma logged_ok s s' e :
  r_history s' = r_history s ++ [e] -> surroundings s' = surroundings s -> r_clock s' = r_clock s ->
  r_caches s' = r_caches s -> r_mailed s' = r_mailed s ->
  evidence (r_history s) e ->
  (forall key, ra_methods <$> registered s' !! key = filing key (ra_methods <$> registered s !! key) e) ->
  (forall key, (fun r => (sh_share r, sh_email r)) <$> backupShares s' !! key
     = share_filing key ((fun r => (sh_share r, sh_email r)) <$> backupShares s !! key) e) ->
  map_Forall (code_minted (r_history s')) (emailCodes s') ->
  recoveries_ok s -> recoveries_ok s' /\ grown s s'.
Proof.
  intros Eh E1 E2 E3 E4 He Ha Hs Hc [H1 H2 H3 H4 H5 H6 _ H8].
  assert (Hp : r_history s `prefix_of` r_history s') by (rewrite Eh; by exists [e]).
  split; [|exact Hp]. split; rewrite ?E1, ?E2, ?E3, ?E4; try done.
  - rewrite Eh. by constructor.
  - intros key. by rewrite Ha, H5, Eh, standing_snoc.
  - intros key. by rewrite Hs, H6, Eh, standing_share_snoc.
  - eapply Forall_impl; [exact H8|]. intros m (ct & Hm). exists ct. rewrite Eh. set_solver.
Qed.

(** An event that files nothing, beside the rows as they are. *)
Lemma noted_ok s e :
  evidence (r_history s) e -> (forall key on, filing key on e = on) -> (forall key on, share_filing key on e = on) ->
  recoveries_ok s -> recoveries_ok (r_log e s) /\ grown s (r_log e s).
Proof.
  intros He Hf Hs V. apply (logged_ok s (r_log e s) e); try done.
  eapply map_Forall_impl; [apply V|]. intros k r. apply code_minted_mono. by exists [e].
Qed.

Lemma note_yields {A} e (a : A) (P : A -> Recoveries -> Prop) s s0 :
  grown s s0 -> (forall h, r_history s `prefix_of` h -> evidence h e) ->
  (forall key on, filing key on e = on) -> (forall key on, share_filing key on e = on) ->
  (forall s', P a s') -> yields (stmt (log_done e a)) P s0.
Proof.
  intros M He Hf Hs HP. apply (wp_stmt recoveries_ok grown). intros t Mt V. simpl.
  destruct (noted_ok t e) as [V' M']; [|done..|by split_and!]. apply He. by etransitivity.
Qed.

Lemma mono_ok {A} (p : recovery A) P s0 : yields p P s0 -> ok p s0.
Proof. apply (ensures_safe recoveries_ok grown). Qed.

Lemma step_yields {A B} (m : recovery A) (P : A -> Recoveries -> Prop) (k : A -> recovery B) Q s0 :
  yields m P s0 -> (forall a s, grown s0 s -> P a s -> yields (k a) Q s) -> yields (x ← m; k x) Q s0.
Proof. apply (ensures_bind recoveries_ok grown). Qed.

Lemma step_ok {A B} (m : recovery A) (k : A -> recovery B) Q s0 :
  ok m s0 -> (forall a s, grown s0 s -> yields (k a) Q s) -> yields (x ← m; k x) Q s0.
Proof.
  intros Hm Hk. apply (step_yields m (fun _ _ => True)); [by apply (safe_ensures recoveries_ok grown)|].
  intros a s M _. by apply Hk.
Qed.

Lemma known_yields {A B} (r : res A) (k : A -> recovery B) Q s0 :
  (forall a, r = Ok a -> yields (k a) Q s0) -> yields (x ← pure r; k x) Q s0.
Proof. apply (ensures_pure_bind recoveries_ok grown). Qed.

Lemma read_yields {A B} (f : Recoveries -> A) (k : A -> recovery B) Q s0 :
  (forall s, grown s0 s -> recoveries_ok s -> yields (k (f s)) Q s) -> yields (x ← asking f; k x) Q s0.
Proof. apply (ensures_asking_bind recoveries_ok grown). Qed.

Lemma refuse_yields {B} c e (k : unit -> recovery B) Q s0 :
  (c = false -> yields (k tt) Q s0) -> yields (x ← refuse_if c e; k x) Q s0.
Proof. destruct c; [done | by intros H; apply H]. Qed.

Lemma draw_yields {B} (k : nat -> recovery B) Q s0 :
  (forall n s, grown s0 s -> yields (k n) Q s) -> yields (n ← r_draw; k n) Q s0.
Proof.
  intros H. apply (ensures_stmt_bind recoveries_ok grown). intros s Ms V. simpl.
  destruct (unlogged_ok s (set_r_drawn (S (r_drawn s)) s)) as [V' M']; try apply V; [done..|].
  split_and!; [done|done|]. intros n [= <-]. apply H. by etransitivity.
Qed.

(** ** Proofs of control *)

Lemma challenge_ok account network s0 : ok (challenge account network) s0.
Proof.
  apply (mono_ok _ (fun _ _ => True)). unfold challenge. apply known_yields. intros rules _.
  apply refuse_yields. intros _. apply draw_yields. intros n s _. by apply read_yields.
Qed.

(** A challenge names one account, whenever it is read. *)
Lemma challenge_account cfg xdr n1 n2 a b t u :
  readChallenge cfg xdr n1 = Structured a t -> fromXDR (trim xdr) (sep10Passphrase cfg) = Some (PlainTx u) ->
  is_challenge cfg u b n2 -> a = b.
Proof.
  intros [Hx H1]%readChallenge_exact Hu H2. rewrite Hx in Hu. injection Hu as ->.
  destruct (ic_operations _ _ _ _ H1) as (v & r & E & _), (ic_operations _ _ _ _ H2) as (v' & r' & E' & _).
  rewrite E in E'. by injection E'.
Qed.

Lemma seconds_dated s : recoveries_ok s -> dated (r_seconds s).
Proof. intros [_ [H1 H2] _ _ _ _ _ _]. unfold dated, r_seconds. split; [by apply Z.div_pos | by apply Z.div_le_mono]. Qed.

Lemma token_ok transaction network s0 : ok (token transaction network) s0.
Proof.
  apply (mono_ok _ (fun _ _ => True)). unfold token. apply known_yields. intros rules Hrules.
  apply read_yields. intros s1 _ _. destruct (readChallenge _ _ _) as [account tx|] eqn:Er; [|done].
  apply known_yields. intros [l segment] Hl.
  apply (step_yields _ (fun signers _ => listed l account signers)).
  { apply (ensures_catching recoveries_ok grown); [|done]. apply read_yields. intros s M V.
    apply (ensures_pure recoveries_ok grown). intros signers Hs. exists (surroundings s). split; [apply V | done]. }
  intros signers s2 _ Hs. apply read_yields. intros s3 _ _.
  destruct (verifyChallenge _ _ _ _) as [client|] eqn:Ev; [|done].
  assert (E : account = client).
  { destruct (verifyChallenge_sound _ _ _ _ _ Ev) as (u & Hu & Hc & _). by eapply challenge_account. }
  subst client. apply draw_yields. intros n s4 _. apply read_yields. intros s5 _ V5.
  apply known_yields. intros issued _. apply (note_yields _ _ _ s5); try done. intros h _. split; [by apply seconds_dated|].
  split; [done|]. exists l. split; [by exists network, segment | done].
Qed.

(** ** Proofs of an inbox *)

Lemma caches_grown s c : caches_ok document_read c -> recoveries_ok s -> recoveries_ok (set_r_caches c s) /\ grown s (set_r_caches c s).
Proof. intros Hc V. by apply unlogged_ok; try apply V. Qed.

Lemma read_document s url : recoveries_ok s -> document_read url (sr_document (surroundings s) url).
Proof. intros V. exists (surroundings s). split; [apply V | done]. Qed.

Lemma note_token s t now : recoveries_ok s ->
  recoveries_ok (r_log (TokenChecked t now) s) /\ grown s (r_log (TokenChecked t now) s)
  /\ TokenChecked t now ∈ r_history (r_log (TokenChecked t now) s).
Proof. intros V. destruct (noted_ok s (TokenChecked t now)) as [V' M]; try done. split_and!; [done|done|]. simpl. set_solver. Qed.

Lemma recovery_verify_yields t s0 :
  yields (oidc_verify t recovery_expectations)
    (fun r s => checked document_read (fun t now => TokenChecked t now ∈ r_history s) t recovery_expectations r) s0.
Proof.
  apply (oidc_verify_yields (OW := recoveries_oidc) document_read recoveries_ok grown
    (fun s t now => TokenChecked t now ∈ r_history s) note_token rv_caches read_document caches_grown).
Qed.

Lemma issue_identity_yields rules email proof s s0 :
  grown s s0 -> inbox_evidence (r_history s) email proof -> yields (issue_identity rules email proof) (fun _ _ => True) s0.
Proof.
  intros M He. unfold issue_identity. apply draw_yields. intros n s1 M1. apply read_yields. intros s2 M2 V.
  apply known_yields. intros issued _. apply (note_yields _ _ _ s2); try done. intros h Hh. split; [by apply seconds_dated|].
  eapply inbox_evidence_mono; [|exact He]. unfold grown in *. repeat (etransitivity; [eassumption|]). reflexivity.
Qed.

Lemma create_used_yields role t expiresAt s0 :
  yields (stmt (create_used role t expiresAt)) (fun _ s => Exchanged t ∈ r_history s) s0.
Proof.
  apply (wp_stmt recoveries_ok grown). intros s _ V. unfold create_used.
  destruct (usedIdTokens s !! _); [by split_and!|]. cbn [fst snd].
  set (s1 := set_usedIdTokens _ s).
  assert (V1 : recoveries_ok s1 /\ grown s s1) by (apply unlogged_ok; try apply V; done).
  destruct (noted_ok s1 (Exchanged t)) as [V2 M2]; [done..|by apply V1|].
  split_and!; [done|done|]. simpl. set_solver.
Qed.

Lemma exchangeIdToken_ok idToken network s0 : ok (exchangeIdToken idToken network) s0.
Proof.
  apply (mono_ok _ (fun _ _ => True)). unfold exchangeIdToken. apply known_yields. intros rules _.
  apply refuse_yields. intros _.
  eapply step_yields; [apply (ensures_catching recoveries_ok grown); [apply recovery_verify_yields | done]|].
  intros [claims|] s1 _ Hr; [|done]. destruct (Hr claims eq_refl) as (ks & now & Hn & Hp & Hv).
  eapply step_yields.
  { apply (ensures_catching recoveries_ok grown).
    - apply known_yields. intros x _. apply create_used_yields.
    - intros e s _. by destruct (isUniqueViolation e). }
  intros u s2 M2 He. apply (issue_identity_yields _ _ _ s2); [done|]. split_and!; [done|done|]. exists ks, now.
  split_and!; [by eapply grown_in|done|done].
Qed.

Lemma create_email_code_yields role email ct code expiresAt s0 :
  yields (stmt (create_email_code role email ct code expiresAt)) (fun _ s => CodeMinted ct code email ∈ r_history s) s0.
Proof.
  apply (wp_stmt recoveries_ok grown). intros s _ V. unfold create_email_code.
  destruct (emailCodes s !! _) eqn:Ec; [by split_and!|]. cbn [fst snd].
  match goal with |- recoveries_ok ?x /\ _ => destruct (logged_ok s x (CodeMinted ct code email)) as [V' M'] end; try done.
  - simpl. apply map_Forall_insert_2.
    + intros _. exists ct, code. split_and!; [set_solver|done..].
    + eapply map_Forall_impl; [apply V|]. intros k r. apply code_minted_mono. by exists [CodeMinted ct code email].
  - split_and!; [done|done|]. simpl. set_solver.
Qed.

Lemma deliver_ok email code ct s s0 :
  grown s s0 -> CodeMinted ct code email ∈ r_history s -> ok (deliver email code) s0.
Proof.
  intros M Hm. apply (safe_stmt recoveries_ok grown). intros t Mt V. destruct (sr_mail _ _); [|by split]. simpl.
  apply unlogged_ok; try apply V; try done. simpl. apply Forall_app. split; [apply V|]. constructor; [|done].
  exists ct. simpl. eapply grown_in; [|exact Hm]. by etransitivity.
Qed.

Lemma recovery_startEmail_ok rawEmail network s0 : ok (startEmail rawEmail network) s0.
Proof.
  apply (mono_ok _ (fun _ _ => True)). unfold startEmail. apply known_yields. intros rules _.
  apply refuse_yields. intros _. apply read_yields. intros s1 _ _. apply refuse_yields. intros _.
  apply read_yields. intros s2 _ _. apply refuse_yields. intros _. apply draw_yields. intros n s3 _.
  apply draw_yields. intros c s4 _. apply read_yields. intros s5 _ _.
  eapply step_yields; [apply create_email_code_yields|]. intros u s6 M6 Hm.
  apply read_yields. intros s7 M7 _. apply read_yields. intros s8 M8 _.
  apply step_ok; [|done]. destruct (_ <? _)%nat; [|done]. eapply (deliver_ok _ _ _ s6); [|exact Hm]. by etransitivity.
Qed.

(** An update of a code: a row that still can be answered keeps its hash. *)
Lemma update_email_code_ok key where_ data e s0 (P : nat -> Recoveries -> Prop) :
  (forall h r, where_ r = true -> code_minted h key r -> code_minted h key (data r)) ->
  match e with
  | Some e => (forall h, evidence h e) /\ (forall k on, filing k on e = on) /\ (forall k on, share_filing k on e = on)
  | None => True
  end ->
  (forall s, P 0%nat s) -> (forall s, match e with Some e => e ∈ r_history s | None => True end -> P 1%nat s) ->
  yields (stmt (update_email_code key where_ data e)) P s0.
Proof.
  intros Hd He H0 H1. apply (wp_stmt recoveries_ok grown). intros s _ V. unfold update_email_code.
  destruct (emailCodes s !! key) as [r|] eqn:Er; [|by split_and!; [..|apply H0]].
  destruct (where_ r) eqn:Ew; [|by split_and!; [..|apply H0]]. cbn [fst snd].
  set (s1 := set_emailCodes _ s).
  assert (V1 : recoveries_ok s1 /\ grown s s1).
  { apply unlogged_ok; try apply V; try done. simpl. apply map_Forall_insert_2; [|apply V]. apply Hd; [done|].
    by apply (rv_codes _ V). }
  destruct e as [e|]; [|by split_and!; [apply V1..|apply H1]]. destruct He as (He & Hf & Hs), V1 as [V1 M1].
  destruct (noted_ok s1 e) as [V2 M2]; [apply He|done..|].
  split_and!; [done|by etransitivity|]. apply H1. simpl. set_solver.
Qed.

Lemma verifyEmail_ok claimToken code network s0 : ok (verifyEmail claimToken code network) s0.
Proof.
  apply (mono_ok _ (fun _ _ => True)). unfold verifyEmail. apply known_yields. intros rules _. cbv zeta.
  apply read_yields. intros s1 M1 V1. destruct (emailCodes s1 !! _) as [r|] eqn:Er; [|done].
  destruct (negb _); [done|]. case_bool_decide; [done|]. apply read_yields. intros s2 M2 _.
  destruct (negb (bool_decide (ec_status r = R_PENDING)) || _) eqn:Es; [done|]. bool_facts.
  destruct (bool_decide (sha256Hex code = ec_codeHash r)) eqn:Ec; cbn [negb]; cbv iota.
  - apply bool_decide_eq_true in Ec.
    apply (step_yields _ (fun n s => n = 1%nat -> CodeClaimed (sha256Hex claimToken) ∈ r_history s)).
    { apply update_email_code_ok; [|by split_and!|done|by intros s Hs]. by intros h x _ _ [=]. }
    intros n s3 M3 Hn. destruct (Nat.eqb_spec n 1) as [->|]; [|done]. cbn [negb]. cbv iota.
    eapply step_yields; [|done]. apply (issue_identity_yields _ _ _ s3); [done|]. split; [by apply Hn|].
    destruct (rv_codes _ V1 _ _ Er) as (ct & c & Hm & Hk & Hh); [done|]. exists ct, c.
    split_and!; [|done|congruence]. eapply grown_in; [|exact Hm]. by etransitivity.
  - eapply step_yields; [|done]. apply (update_email_code_ok _ _ _ _ _ (fun _ _ => True)); try done.
    intros h x Hx%bool_decide_eq_true Hm _. by apply Hm.
Qed.

(** ** SEP-30 *)

Lemma actor_yields authorization network rules s0 :
  rules_of network = Ok rules ->
  yields (actor authorization network) (fun a s => recognized (r_history s) rules a) s0.
Proof.
  intros Hr. unfold actor. apply known_yields. intros rules' Hr'. rewrite Hr in Hr'. injection Hr' as <-.
  destruct (bearer authorization) as [t|]; [|done]. apply (wp_stmt recoveries_ok grown). intros s _ V.
  destruct (actorFromToken _ _ _) as [[a|]|] eqn:Ea; [|by split_and!..]. cbn [fst snd].
  destruct (noted_ok s (Recognized rules t a (r_seconds s))) as [V' M']; [done..|].
  split_and!; [done|done|]. exists t, (r_seconds s). simpl. set_solver.
Qed.

(** The start every account route shares. *)
Lemma route_yields {B} authorization network (k : RecoveryRules -> Actor -> recovery B) Q s0 :
  (forall rules a s, rules_of network = Ok rules -> grown s0 s -> recognized (r_history s) rules a -> yields (k rules a) Q s) ->
  yields (rules ← pure (rules_of network); a ← actor authorization network; k rules a) Q s0.
Proof.
  intros H. apply known_yields. intros rules Hr. eapply step_yields; [by apply actor_yields|].
  intros a s M Ha. by apply H.
Qed.

Lemma find_yields {B} rules address (k : option AccountRow -> recovery B) Q s0 :
  (forall s, grown s0 s -> recoveries_ok s -> yields (k (registered s !! key_of rules address)) Q s) ->
  yields (row ← Recovery.find rules address; k row) Q s0.
Proof. apply read_yields. Qed.

Lemma key_holder_false a address : not_key_holder a address = false -> a = ByAddress address.
Proof. unfold not_key_holder. by intros ?%negb_false_iff%bool_decide_eq_true. Qed.

Lemma codes_later s e : recoveries_ok s -> map_Forall (code_minted (r_history s ++ [e])) (emailCodes s).
Proof. intros V. eapply map_Forall_impl; [apply V|]. intros k r. apply code_minted_mono. by exists [e]. Qed.

Lemma write_ok rules address identities s s0 :
  grown s s0 -> recognized (r_history s) rules (ByAddress address) ->
  ok (stmt (write rules address identities (ByAddress address))) s0.
Proof.
  intros M Ha. apply (safe_stmt recoveries_ok grown). intros t Mt V. unfold write. cbv zeta. cbn [fst].
  apply (logged_ok t _ (Filed (key_of rules address) (method_rows identities) (ByAddress address))); try done.
  - exists rules, address. split_and!; [done..|]. eapply recognized_mono; [|exact Ha]. by etransitivity.
  - intros key. simpl. case_bool_decide as Ek.
    + subst key. rewrite lookup_insert_eq. by destruct (registered t !! _).
    + by rewrite lookup_insert_ne.
  - by apply (codes_later t).
Qed.

Lemma register_ok authorization address identities network s0 : ok (register authorization address identities network) s0.
Proof.
  apply (mono_ok _ (fun _ _ => True)), route_yields. intros rules a s _ M Ha.
  apply refuse_yields. intros ->%key_holder_false. apply find_yields. intros s1 M1 _.
  destruct (registered s1 !! _); [done|]. apply (ensures_catching recoveries_ok grown).
  - apply step_ok; [by apply (write_ok _ _ _ s)|done].
  - intros e s2 _. by destruct (isUniqueViolation e).
Qed.

Lemma recovery_update_ok authorization address identities network s0 : ok (update authorization address identities network) s0.
Proof.
  apply (mono_ok _ (fun _ _ => True)), route_yields. intros rules a s _ M Ha.
  apply refuse_yields. intros ->%key_holder_false. apply step_ok; [by apply (write_ok _ _ _ s)|done].
Qed.

Lemma get_ok authorization address network s0 : ok (get authorization address network) s0.
Proof.
  apply (mono_ok _ (fun _ _ => True)), route_yields. intros rules a s _ M Ha. apply find_yields. intros s1 _ _.
  destruct (registered s1 !! _); [|done]. by destruct (mayAct _ _ _).
Qed.

Lemma remove_ok authorization address network s0 : ok (Recovery.remove authorization address network) s0.
Proof.
  apply (mono_ok _ (fun _ _ => True)), route_yields. intros rules a s _ M Ha.
  apply refuse_yields. intros ->%key_holder_false. apply find_yields. intros s1 M1 _.
  destruct (registered s1 !! _) as [row|]; [|done]. apply step_ok; [|done].
  apply (safe_stmt recoveries_ok grown). intros t Mt V. unfold delete_account.
  destruct (registered t !! key_of rules address) as [r|]; [|by split]. case_bool_decide; [|by split].
  apply (logged_ok t _ (Forgotten (key_of rules address) (ByAddress address))); try done.
  - exists rules, address. split_and!; [done..|]. eapply recognized_mono; [|exact Ha]. by do 2 (etransitivity; [eassumption|]).
  - intros key. simpl. case_bool_decide as Ek; [subst key; by rewrite lookup_delete_eq | by rewrite lookup_delete_ne].
  - by apply (codes_later t).
Qed.

Lemma list_accounts_ok authorization after_ network s0 : ok (list_accounts authorization after_ network) s0.
Proof. apply (mono_ok _ (fun _ _ => True)), route_yields. intros rules a s _ M Ha. by apply read_yields. Qed.

Lemma sign_ok authorization address signingAddress xdr network s0 : ok (sign authorization address signingAddress xdr network) s0.
Proof.
  apply (mono_ok _ (fun _ _ => True)), route_yields. intros rules a s _ M Ha. apply find_yields. intros s1 M1 V1.
  destruct (registered s1 !! _) as [row|] eqn:Er; [|done].
  apply refuse_yields. intros Hmay%negb_false_iff. apply refuse_yields. intros _.
  destruct (fromXDR _ _) as [envelope|]; [|done]. apply (safe_ensures recoveries_ok grown), (safe_stmt recoveries_ok grown). intros t Mt V.
  destruct envelope as [tx|]; [|by split]. destruct (signRefusal _ _ _) eqn:Ep; [by split|].
  apply (noted_ok t (Cosigned rules address a tx (r_seconds t))); try done. split; [done|].
  exists (r_history s1), (ra_methods row). split_and!; [done| |by rewrite <- (rv_accounts _ V1), Er|done].
  by eapply recognized_mono.
Qed.

(** ** Shares *)

Lemma put_share_ok authorization address share email network s0 : ok (put_share authorization address share email network) s0.
Proof.
  apply (mono_ok _ (fun _ _ => True)), route_yields. intros rules a s _ M Ha.
  apply refuse_yields. intros ->%key_holder_false. apply refuse_yields. intros _.
  apply (safe_ensures recoveries_ok grown), (safe_stmt recoveries_ok grown). intros t Mt V.
  apply (logged_ok t _ (ShareFiled (share_of rules address) share (normalizeEmail email) (ByAddress address))); try done.
  - split; [apply normalizeEmail_idem|]. exists rules, address. split_and!; [done..|]. by eapply recognized_mono.
  - intros key. simpl. case_bool_decide as Ek; [subst key; by rewrite lookup_insert_eq | by rewrite lookup_insert_ne].
  - by apply (codes_later t).
Qed.

Lemma get_share_ok authorization address network s0 : ok (get_share authorization address network) s0.
Proof.
  apply (mono_ok _ (fun _ _ => True)), route_yields. intros rules a s _ M Ha.
  apply (safe_ensures recoveries_ok grown), (safe_stmt recoveries_ok grown). intros t Mt V. destruct (backupShares t !! _) as [row|] eqn:Er; [|by split].
  destruct (mayTake _ _ _) eqn:Et; [|by split]. apply noted_ok; try done.
  exists rules, address, (sh_email row). split_and!; [done|by eapply recognized_mono| |done].
  by rewrite <- (rv_shares _ V), Er.
Qed.

(** Releases noted one after another, of rows on file. *)
Lemma released_ok (rows : list (share_key * ShareRow)) rules a s :
  recognized (r_history s) rules a ->
  Forall (fun x => backupShares s !! fst x = Some (snd x)
            /\ exists address, fst x = share_of rules address /\ mayTake a address (sh_email (snd x)) = true) rows ->
  recoveries_ok s ->
  let s' := foldr (fun x s => r_log (ShareReleased (fst x) (sh_share (snd x)) a) s) s rows in
  recoveries_ok s' /\ grown s s' /\ backupShares s' = backupShares s.
Proof.
  intros Ha H V. induction H as [|[k row] rows (Hk & address & Ek & Ht) H IH]; simpl; [done|].
  cbn [fst snd] in *. subst k.
  destruct IH as (V1 & M1 & E1). match goal with |- recoveries_ok (r_log ?e ?s1) /\ _ => destruct (noted_ok s1 e) as [V2 M2] end; try done.
  - exists rules, address, (sh_email row). split_and!; [done|by eapply recognized_mono| |done].
    rewrite <- (rv_shares _ V1), E1. by rewrite Hk.
  - split_and!; [done|by etransitivity|done].
Qed.

Lemma page_in {A} (q : A -> bool) (R : A -> A -> Prop) `{forall x y, Decision (R x y)} n (l : list A) x :
  x ∈ take n (merge_sort R (List.filter q l)) -> x ∈ l /\ q x = true.
Proof.
  intros Hx. assert (Hin : x ∈ merge_sort R (List.filter q l)).
  { rewrite <- (take_drop n). apply elem_of_app. by left. }
  rewrite (merge_sort_Permutation R) in Hin. apply list_elem_of_In, List.filter_In in Hin as [Hin Hq].
  split; [by apply list_elem_of_In | done].
Qed.

Lemma list_shares_ok authorization after_ network s0 : ok (list_shares authorization after_ network) s0.
Proof.
  apply (mono_ok _ (fun _ _ => True)), route_yields. intros rules a s _ M Ha. destruct a as [|[] email]; [done|].
  apply (safe_ensures recoveries_ok grown), (safe_stmt recoveries_ok grown). intros t Mt V. cbn [fst].
  match goal with |- context [foldr _ _ ?l] => destruct (released_ok l rules (ByIdentity email_method email) t) as (V' & M' & _) end;
    [by eapply recognized_mono| |done|done].
  apply Forall_forall. intros [[role address] row] [Hin Hq]%page_in. unfold share_rows_of in Hin.
  apply elem_of_map_to_list in Hin. split; [done|]. unfold share_scope in Hq. cbn [fst snd] in Hq. bool_facts. subst.
  exists address. split; [done|].
  destruct (standing_share_filed (server_role_text (rr_role rules), address) (r_history t) (sh_share row) (sh_email row)) as [a Hf].
  { by rewrite <- (rv_shares _ V), Hin. }
  apply list_elem_of_split in Hf as (h1 & h2 & Eh). assert (Hl := rv_logged _ V). rewrite Eh in Hl.
  apply well_logged_at in Hl as [Hn _]. simpl. apply bool_decide_eq_true. by symmetry.
Qed.

Lemma remove_share_ok authorization address network s0 : ok (remove_share authorization address network) s0.
Proof.
  apply (mono_ok _ (fun _ _ => True)), route_yields. intros rules a s _ M Ha.
  apply refuse_yields. intros ->%key_holder_false. apply step_ok; [|intros n s1 _; by apply refuse_yields].
  apply (safe_stmt recoveries_ok grown). intros t Mt V. destruct (backupShares t !! _) eqn:Er; [|by split].
  apply (logged_ok t _ (ShareForgotten (share_of rules address) (ByAddress address))); try done.
  - exists rules, address. split_and!; [done..|]. by eapply recognized_mono.
  - intros key. simpl. case_bool_decide as Ek; [subst key; by rewrite lookup_delete_eq | by rewrite lookup_delete_ne].
  - by apply (codes_later t).
Qed.

(** ** The sweeper *)

Lemma codes_changed_ok f s :
  map_Forall (code_minted (r_history s)) (f (emailCodes s)) ->
  recoveries_ok s -> recoveries_ok (set_emailCodes f s) /\ grown s (set_emailCodes f s).
Proof. intros H V. by apply unlogged_ok; try apply V. Qed.

Lemma recovery_sweep_ok s0 : ok recovery_sweep s0.
Proof.
  apply (mono_ok _ (fun _ _ => True)). unfold recovery_sweep. apply read_yields. intros s1 _ _. apply read_yields. intros s2 _ _.
  apply step_ok.
  { destruct (_ =? _)%nat; [done|]. apply (safe_stmt recoveries_ok grown). intros s _ V. apply codes_changed_ok; [|done].
    intros k r. rewrite map_lookup_imap. destruct (emailCodes s !! k) as [x|] eqn:Ex; [|done]. simpl. intros [= <-].
    case_bool_decide; [by intros [=] | by apply (rv_codes _ V)]. }
  intros u s3 _. apply step_ok.
  { apply (safe_stmt recoveries_ok grown). intros s _ V. apply codes_changed_ok; [|done].
    intros k r [Hr _]%map_lookup_filter_Some. by apply (rv_codes _ V). }
  intros u' s4 _. apply (safe_ensures recoveries_ok grown), (safe_stmt recoveries_ok grown). intros s _ V.
  apply unlogged_ok; try apply V; done.
Qed.
End safety.
