(* ===== verification/RecoveryPool.v ===== *)
(** A recovery server's routes and sweeper in any interleaving, over any number of
    replicas: whom a co-signature was made for ([cosigned_for_proven]) and to whom
    the halves of backup keys go ([shares_released_to_proven]). *)

From S2P Require Import Prelude Text MerchantFee Programs Tokens Signatures Oidc OidcSafety NodeSample WalletCore Jwt RecoveryCore Sep10 RecoveryStore Recovery RecoverySafety.
From stdpp Require Import base tactics list option gmap strings sorting.
From Stdlib Require Import ZArith Lia Ascii.

Open Scope Z_scope.

(** ** Requests *)

Inductive recovery_request `{NODE : Node} `{VERIFY : NodeVerify} `{HMAC : Hmac} `{CURVES : Curves} `{KEYS : StellarKeys}
    `{ENV : RecoveryEnv} : recovery unit -> Prop :=
  | rq_challenge account n : recovery_request (discard (challenge account n))
  | rq_token transaction n : recovery_request (discard (token transaction n))
  | rq_exchange idToken n : recovery_request (discard (exchangeIdToken idToken n))
  | rq_start_email email n : recovery_request (discard (startEmail email n))
  | rq_verify_email claimToken code n : recovery_request (discard (verifyEmail claimToken code n))
  | rq_register auth address identities n : recovery_request (discard (register auth address identities n))
  | rq_update auth address identities n : recovery_request (discard (update auth address identities n))
  | rq_get auth address n : recovery_request (discard (get auth address n))
  | rq_remove auth address n : recovery_request (discard (Recovery.remove auth address n))
  | rq_list auth after_ n : recovery_request (discard (list_accounts auth after_ n))
  | rq_sign auth address signer xdr n : recovery_request (discard (sign auth address signer xdr n))
  | rq_put_share auth address share email n : recovery_request (discard (put_share auth address share email n))
  | rq_get_share auth address n : recovery_request (discard (get_share auth address n))
  | rq_list_shares auth after_ n : recovery_request (discard (list_shares auth after_ n))
  | rq_remove_share auth address n : recovery_request (discard (remove_share auth address n))
  | rq_recovery_sweep : recovery_request recovery_sweep.

(** What else moves: the outside, within [moment], the clock, and a restart that
    empties the caches. *)
Definition recovery_world (moment : Surroundings -> Prop) (s s' : Recoveries) : Prop :=
  registered s' = registered s /\ backupShares s' = backupShares s /\ emailCodes s' = emailCodes s
  /\ usedIdTokens s' = usedIdTokens s /\ r_mailed s' = r_mailed s /\ r_history s' = r_history s
  /\ moment (surroundings s') /\ 0 <= r_clock s' <= MAX_DATE_MS
  /\ (r_caches s' = r_caches s \/ r_caches s' = mkCaches ∅ ∅).

(** From an empty database. *)
Definition recovery_start (moment : Surroundings -> Prop) (s : Recoveries) : Prop :=
  registered s = ∅ /\ backupShares s = ∅ /\ emailCodes s = ∅ /\ r_mailed s = [] /\ r_history s = []
  /\ r_caches s = mkCaches ∅ ∅ /\ moment (surroundings s) /\ 0 <= r_clock s <= MAX_DATE_MS.

Definition recovery_execution `{NODE : Node} `{VERIFY : NodeVerify} `{HMAC : Hmac} `{CURVES : Curves} `{KEYS : StellarKeys}
    `{ENV : RecoveryEnv} (moment : Surroundings -> Prop) (l : list (recovery unit)) (s : Recoveries) : Prop :=
  exists s0, recovery_start moment s0 /\ star (pool_step recovery_request (recovery_world moment)) ([], s0) (l, s).

(** ** Tokens nobody else makes *)

(** The token an event handed out. *)
Definition issue_of `{NODE : Node} `{HMAC : Hmac} `{KEYS : StellarKeys} (e : RecoveryEvent) : res string :=
  match e with
  | IssuedSep10 rules account jti _ _ _ issuedAt => issueSep10Token rules account jti issuedAt
  | IssuedIdentity rules email jti issuedAt _ => issueIdentityToken rules email jti issuedAt
  | _ => Throw JsError
  end.

(** HMAC tags are not guessed: a token that was accepted had been issued. *)
Definition unforged `{NODE : Node} `{HMAC : Hmac} `{KEYS : StellarKeys} (h : list RecoveryEvent) : Prop :=
  forall h1 rules t a at_ h2, h = h1 ++ Recognized rules t a at_ :: h2 -> exists e, e ∈ h1 /\ issue_of e = Ok t.

Section pool.
Context `{NODE : Node} {LAWS : NodeLaws} `{VERIFY : NodeVerify} `{HMAC : Hmac} {HLAWS : HmacLaws} `{CURVES : Curves}
  `{KEYS : StellarKeys} `{ENV : RecoveryEnv}.
Context (moment : Surroundings -> Prop).

#[local] Abbreviation inv := (recoveries_ok moment).

Lemma recovery_request_ok p s0 : recovery_request p -> safe inv grown p s0.
Proof.
  intros H. destruct H; try apply (safe_discard inv grown).
  - apply challenge_ok.
  - apply token_ok.
  - apply exchangeIdToken_ok.
  - apply recovery_startEmail_ok.
  - apply verifyEmail_ok.
  - apply register_ok.
  - apply recovery_update_ok.
  - apply get_ok.
  - apply remove_ok.
  - apply list_accounts_ok.
  - apply sign_ok.
  - apply put_share_ok.
  - apply get_share_ok.
  - apply list_shares_ok.
  - apply remove_share_ok.
  - apply recovery_sweep_ok.
Qed.

Lemma recovery_run l s : recovery_execution moment l s -> inv s.
Proof.
  intros (s0 & (E1 & E2 & E3 & E4 & E5 & E6 & Hm & Hc) & Hrun).
  destruct (pool_safe inv grown recovery_request (recovery_world moment) [] s0 l s) as (_ & V & _); try done.
  - intros p s1 Hp _. by apply recovery_request_ok.
  - intros s1 s2 (H1 & H2 & H3 & _ & H5 & H6 & Hm' & Hc' & Hk) V. apply unlogged_ok; try done.
    + destruct Hk as [-> | ->]; [apply V | apply empty_caches_ok].
    + rewrite H3. apply V.
    + rewrite H5. apply V.
  - split; rewrite ?E1, ?E2, ?E3, ?E4, ?E5, ?E6; try done; apply empty_caches_ok || constructor.
Qed.

(** ** Proofs behind an actor *)

(** Two passphrases that name the same ledger, or neither of Stellar's two. *)
Definition same_ledger (p p' : string) : Prop :=
  p = p' \/ p ∉ [Networks_PUBLIC; Networks_TESTNET] /\ p' ∉ [Networks_PUBLIC; Networks_TESTNET].
Definition on_ledger_of (rules rules' : RecoveryRules) : Prop :=
  rr_role rules = rr_role rules' /\ same_ledger (sep10Passphrase (sep10 rules)) (sep10Passphrase (sep10 rules')).

(** A ledger of this server, that those rules are for. *)
Definition ledger_for (rules : RecoveryRules) (l : RecoveryLedger) : Prop :=
  (l = rs_default \/ exists n, rs_networks n = Some l) /\ sep10Passphrase (sep10 rules) = rl_passphrase l.

(** What an entry of an account's signers adds, when [keys] are proven: the weight of
    an Ed25519 key among them, unless it is the server's own. *)
Definition counted (server : string) (keys : list string) (e : SignerEntry) : option Z :=
  match se_key e, se_weight e with
  | Some k, Some w =>
      if decide (se_type e ∈ [None; Some "ed25519_public_key"%string] /\ k <> server /\ k ∈ keys) then Some w else None
  | _, _ => None
  end.

(** What the signatures [sigs] of [hash] show about an account Horizon answered: one
    of each distinct key they are by, the server's among them, and the account's
    own, if there is no account, or else signers of it that weigh its medium
    threshold, and something, together. *)
Record signed_by_enough (server address hash : string) (sigs : list string) (answer : AccountResponse) : Prop := {
  sn_keys : exists keys made, NoDup keys /\ made `sublist_of` sigs
    /\ Forall2 (fun key sig => exists raw, rawPublicKey key = Some raw /\ ed25519_verify raw hash sig = true) keys made
    /\ server ∈ keys
    /\ match answer with
       | Account404 => address ∈ keys
       | AccountBody body =>
           Z.max 1 (default 1 (ha_med body)) <= foldr Z.add 0 (omap (counted server keys) (default [] (ha_signers body)))
       | AccountFails => False
       end
}.

(** At [at_], this server had issued, on that ledger and at most an hour before, a
    token for [address] to a challenge it had verified: a challenge of its own,
    signed by the server and by enough of the signers Horizon answered then. *)
Record key_proven (h : list RecoveryEvent) (rules : RecoveryRules) (address : string) (at_ : Z) : Prop := {
  kp_proof : exists issuing jti xdr signers verifiedAt issuedAt tx l w,
    IssuedSep10 issuing address jti xdr signers verifiedAt issuedAt ∈ h
    /\ issuedAt - 60 <= at_ < issuedAt + 3600 /\ same_server rules issuing /\ on_ledger_of rules issuing
    /\ ledger_for issuing l /\ moment w
    /\ fromXDR (trim xdr) (sep10Passphrase (sep10 issuing)) = Some (PlainTx tx)
    /\ is_challenge (sep10 issuing) tx address verifiedAt
    /\ signed_by_enough (publicKey (signingSecret (sep10 issuing))) address (txHash (sep10Passphrase (sep10 issuing)) tx)
         (st_signatures tx) (sr_horizon w (rl_horizonUrl l) address)
}.

(** At [at_], this server had issued, at most half an hour before, a token for the
    inbox: for an ID token its issuer's published keys sign, checked at a moment the
    history records and spent, or for the code it had minted for that inbox, spent. *)
Record inbox_proven (h : list RecoveryEvent) (rules : RecoveryRules) (inbox : string) (at_ : Z) : Prop := {
  ip_proof : exists issuing email jti issuedAt proof,
    IssuedIdentity issuing email jti issuedAt proof ∈ h /\ normalizeEmail email = inbox
    /\ issuedAt - 60 <= at_ < issuedAt + 1800 /\ same_server rules issuing /\ inbox_evidence moment h email proof
}.

(** The server recognized the actor in [h], by a bearer token it accepted at the
    moment recorded with it, and by then the actor was proven. *)
Definition proven (h : list RecoveryEvent) (rules : RecoveryRules) (a : Actor) : Prop :=
  exists h1 t at_ h2, h = h1 ++ Recognized rules t a at_ :: h2
    /\ match a with
       | ByAddress address => key_proven h1 rules address at_
       | ByIdentity _ inbox => inbox_proven h1 rules inbox at_
       end.

(** The registration of an account on file: the last word on it, said by the
    account's own proven key. *)
Definition says_registration (key : account_key) (e : RecoveryEvent) : Prop :=
  match e with Filed k _ _ | Forgotten k _ => k = key | _ => False end.
Definition registration (h : list RecoveryEvent) (rules : RecoveryRules) (address : string) (methods : list MethodRow) : Prop :=
  exists h1 h2 filer, h = h1 ++ Filed (key_of rules address) methods (ByAddress address) :: h2
    /\ Forall (fun e => ~ says_registration (key_of rules address) e) h2
    /\ on_ledger_of rules filer /\ proven h1 filer (ByAddress address).

(** The half of an account on file, likewise, and the inbox it was filed under. *)
Definition says_share (key : share_key) (e : RecoveryEvent) : Prop :=
  match e with ShareFiled k _ _ _ | ShareForgotten k _ => k = key | _ => False end.
Definition half_on_file (h : list RecoveryEvent) (rules : RecoveryRules) (address share inbox : string) : Prop :=
  exists h1 h2 filer, h = h1 ++ ShareFiled (share_of rules address) share inbox (ByAddress address) :: h2
    /\ Forall (fun e => ~ says_share (share_of rules address) e) h2
    /\ rr_role filer = rr_role rules /\ proven h1 filer (ByAddress address).

Lemma dated_exact at_ ttl : dated at_ -> 0 <= ttl <= 3600 -> exact_time at_ /\ exact_time (at_ + ttl).
Proof. unfold dated, exact_time, MAX_DATE_MS. intros [H1 H2] H. change (8640000000000000 / 1000) with 8640000000000 in H2. lia. Qed.

Lemma networkOf_same p p' : networkOf p = networkOf p' -> same_ledger p p'.
Proof. unfold networkOf, same_ledger. repeat case_bool_decide; subst; try done; try (by left). right. set_solver. Qed.

Lemma role_text_inj r r' : server_role_text r = server_role_text r' -> r = r'.
Proof. by destruct r, r'. Qed.

Lemma runs_ledger rules l : runs rules l -> ledger_for rules l.
Proof.
  intros (network & segment & Hr & Hl). unfold rules_of in Hr. destruct (rs_role); simpl in Hr; [|done]. rewrite Hl in Hr. simpl in Hr.
  destruct (new_URL _); simpl in Hr; [|done]. injection Hr as <-. split; [|done].
  unfold ledger in Hl. destruct network as [n|]; [|injection Hl as <-; by left]. right. exists n.
  by destruct (rs_networks n); simplify_eq.
Qed.

Lemma counted_signer server keys e :
  counted server keys e
  = x ← signer_of e; if negb (bool_decide (signer_key x = server)) && bool_decide (signer_key x ∈ keys) then Some (weight x) else None.
Proof.
  destruct e as [[k|] [w|] ty]; [|done..]. unfold counted, signer_of. cbn [se_key se_weight se_type].
  assert (Ht : ty ∈ [None; Some "ed25519_public_key"%string] <-> ty = None \/ ty = Some "ed25519_public_key"%string) by set_solver.
  destruct ty as [t|]; [case_bool_decide as E|]; simpl; repeat case_bool_decide; case_decide; simpl; naive_solver.
Qed.

Lemma counted_signed server keys entries :
  foldr Z.add 0 (omap (counted server keys) entries) = signed_weight server keys (omap signer_of entries).
Proof.
  induction entries as [|e entries IH]; [done|]. unfold signed_weight in *. simpl. rewrite counted_signer.
  destruct (signer_of e) as [x|]; simpl; [|done]. destruct (_ && _); simpl; [by f_equal|done].
Qed.

Lemma controlled_signed cfg tx client answer signers :
  fetchAccountSigners answer = Ok signers -> controlled cfg tx client signers ->
  signed_by_enough (publicKey (signingSecret cfg)) client (txHash (sep10Passphrase cfg) tx) (st_signatures tx) answer.
Proof.
  intros Ha [(keys & [Hn (made & Hm & Hf)] & Hs & Hk)]. split. exists keys, made. split_and!; [done|done| |done|].
  - eapply Forall2_impl; [exact Hf|]. intros key sig. unfold verifies. destruct (rawPublicKey key) as [raw|]; [|done]. by exists raw.
  - destruct answer as [body| |]; simplify_eq/=; [|done]. rewrite counted_signed. destruct Hk as [H0 H1].
    unfold threshold in H1. destruct (ha_med body) as [n|]; simpl; [destruct (Z.ltb_spec 0 n)|]; lia.
Qed.

Lemma key_proven_mono h h' rules address at_ : h `prefix_of` h' -> key_proven h rules address at_ -> key_proven h' rules address at_.
Proof. intros [k ->] [(i & j & x & sg & v & t & tx & l & w & H & ?)]. split. exists i, j, x, sg, v, t, tx, l, w. split; [set_solver|done]. Qed.

Lemma inbox_proven_mono h h' rules inbox at_ : h `prefix_of` h' -> inbox_proven h rules inbox at_ -> inbox_proven h' rules inbox at_.
Proof.
  intros Hp [(i & e & j & t & p & H & ? & ? & ? & Hi)]. split. exists i, e, j, t, p.
  split_and!; try done; try lia; [destruct Hp as [k ->]; set_solver | by eapply inbox_evidence_mono].
Qed.

Lemma proven_mono h h' rules a : h `prefix_of` h' -> proven h rules a -> proven h' rules a.
Proof. intros [k ->] (h1 & t & at_ & h2 & -> & H). exists h1, t, at_, (h2 ++ k). by rewrite <- app_assoc. Qed.

(** Whoever an account route recognized had proven it here. *)
Lemma recognized_proven h rules a :
  well_logged moment h -> unforged h -> recognized h rules a -> proven h rules a.
Proof.
  intros Hl Hu (t & at_ & Hin). apply list_elem_of_split in Hin as (h1 & h2 & E).
  destruct (Hu _ _ _ _ _ _ E) as (e & He & Hi). rewrite E in Hl. assert (Ha := well_logged_at _ _ _ _ Hl). simpl in Ha.
  exists h1, t, at_, h2. split; [done|].
  apply list_elem_of_split in He as (g1 & g2 & Eg). rewrite Eg, <- app_assoc in Hl. apply well_logged_at in Hl.
  destruct e as [r account j x sg v it|r email j it p| | | | | | | | | | |]; try done; simpl in Hi, Hl.
  - destruct Hl as (Hd & Hv & l & Hr & w & Hw & Hs). destruct (dated_exact it SEP10_TOKEN_TTL_S Hd) as [X1 X2]; [done|].
    destruct (sep10_token_actor _ _ _ _ _ _ _ _ X1 X2 Hi Ha) as (-> & S & N & [A1 A2]).
    destruct (verifyChallenge_sound _ _ _ _ _ Hv) as (tx & Hx & Hc & Hk).
    split. exists r, j, x, sg, v, it, tx, l, w. unfold SEP10_TOKEN_TTL_S in A2.
    assert (HL := runs_ledger _ _ Hr). assert (HN : on_ledger_of rules r) by (split; [apply S | by apply networkOf_same]).
    assert (HE := controlled_signed _ _ _ _ _ Hs Hk). split_and!; try done; try lia. rewrite Eg. set_solver.
  - destruct Hl as (Hd & Hv). destruct (dated_exact it IDENTITY_TOKEN_TTL_S Hd) as [X1 X2]; [done|].
    destruct (identity_token_actor _ _ _ _ _ _ _ _ X1 X2 Hi Ha) as (-> & S & [A1 A2]).
    split. exists r, email, j, it, p. unfold IDENTITY_TOKEN_TTL_S in A2. split_and!; try done; try lia; [rewrite Eg; set_solver|].
    eapply inbox_evidence_mono; [|exact Hv]. rewrite Eg. by eexists.
Qed.

Lemma well_logged_prefix h h' : well_logged moment (h ++ h') -> well_logged moment h.
Proof.
  induction h' as [|e h' IH] using rev_ind; [by rewrite app_nil_r|]. rewrite app_assoc. intros H. apply IH.
  inversion H as [E|h0 e0 H0 He E]; [by destruct h, h'|]. apply app_inj_tail in E as [<- _]. done.
Qed.

Lemma unforged_prefix h h' : unforged (h ++ h') -> unforged h.
Proof. intros H h1 r t a at_ h2 ->. apply (H h1 r t a at_ (h2 ++ h')). by rewrite <- app_assoc. Qed.

(** The last word on a registration, and on a half. *)
Lemma standing_last key h methods : standing key h = Some methods ->
  exists h1 a h2, h = h1 ++ Filed key methods a :: h2 /\ Forall (fun e => ~ says_registration key e) h2.
Proof.
  induction h as [|e h IH] using rev_ind; [done|]. rewrite standing_snoc. intros H.
  assert (Hnext : ~ says_registration key e -> standing key h = Some methods ->
    exists h1 a h2, h ++ [e] = h1 ++ Filed key methods a :: h2 /\ Forall (fun e => ~ says_registration key e) h2).
  { intros Hne (h1 & a & h2 & -> & Hf)%IH. exists h1, a, (h2 ++ [e]). rewrite <- app_assoc. split; [done|].
    apply Forall_app. by split; [|constructor]. }
  destruct e as [| | | | | | |k m a|k a| | | |]; simpl in H; try (by apply Hnext; [intros []|exact H]);
    case_bool_decide as Ek; try (by apply Hnext; [exact Ek|exact H]); try done.
  injection H as ->. subst k. by exists h, a, [].
Qed.

Lemma standing_share_last key h share inbox : standing_share key h = Some (share, inbox) ->
  exists h1 a h2, h = h1 ++ ShareFiled key share inbox a :: h2 /\ Forall (fun e => ~ says_share key e) h2.
Proof.
  induction h as [|e h IH] using rev_ind; [done|]. rewrite standing_share_snoc. intros H.
  assert (Hnext : ~ says_share key e -> standing_share key h = Some (share, inbox) ->
    exists h1 a h2, h ++ [e] = h1 ++ ShareFiled key share inbox a :: h2 /\ Forall (fun e => ~ says_share key e) h2).
  { intros Hne (h1 & a & h2 & -> & Hf)%IH. exists h1, a, (h2 ++ [e]). rewrite <- app_assoc. split; [done|].
    apply Forall_app. by split; [|constructor]. }
  destruct e as [| | | | | | | | |k x m a|k a| |]; simpl in H; try (by apply Hnext; [intros []|exact H]);
    case_bool_decide as Ek; try (by apply Hnext; [exact Ek|exact H]); try done.
  injection H as -> ->. subst k. by exists h, a, [].
Qed.

(** An account whose registration stands was registered by its key holder. *)
Lemma standing_by_holder h rules address methods :
  well_logged moment h -> unforged h -> standing (key_of rules address) h = Some methods -> registration h rules address methods.
Proof.
  intros Hl Hu (h1 & a & h2 & -> & Hlast)%standing_last.
  assert (He := well_logged_at _ _ _ _ Hl). destruct He as (r & x & Ek & -> & Hr).
  apply well_logged_prefix in Hl. apply unforged_prefix in Hu.
  assert (Hp := recognized_proven h1 r _ Hl Hu Hr). injection Ek as Er%role_text_inj En%networkOf_same <-.
  by exists h1, h2, r.
Qed.

Lemma half_by_holder h rules address share inbox :
  well_logged moment h -> unforged h -> standing_share (share_of rules address) h = Some (share, inbox) ->
  half_on_file h rules address share inbox.
Proof.
  intros Hl Hu (h1 & a & h2 & -> & Hlast)%standing_share_last.
  destruct (well_logged_at _ _ _ _ Hl) as (Hn & r & x & Ek & -> & Hr).
  apply well_logged_prefix in Hl. apply unforged_prefix in Hu.
  assert (Hp := recognized_proven h1 r _ Hl Hu Hr). injection Ek as Er%role_text_inj <-. by exists h1, h2, r.
Qed.

(** C27: A co-signature is for someone proven, and for recovery only. In any
    interleaving of the routes, the sweeper, restarts and the outside, if no token
    was forged: a transaction that was co-signed passed the policy of
    [co_sign_policy_exact] at that moment; whoever asked was recognized before, by a
    token this server had issued, at the moment the history records for it, at most
    an hour earlier to the account itself, for a challenge signed by enough of its
    signers on that ledger, or at most half an hour earlier to an inbox proven here
    that is among the methods of the registration on file at a moment of the request;
    and that registration is the last filed for the account on that ledger, filed by
    the account's own proven key. *)
Theorem cosigned_for_proven l s h1 rules address a tx at_ h2 :
  recovery_execution moment l s -> unforged (r_history s) ->
  r_history s = h1 ++ Cosigned rules address a tx at_ :: h2 ->
  recovery_only tx address at_
  /\ exists h0 methods, h0 `prefix_of` h1 /\ proven h0 rules a /\ registration h0 rules address methods
     /\ match a with ByAddress held => held = address | ByIdentity t inbox => exists role, mkMethodRow role t inbox ∈ methods end.
Proof.
  intros Hrun Hu E. assert (V := recovery_run l s Hrun). assert (Hl := rv_logged _ _ V). rewrite E in Hl, Hu.
  destruct (well_logged_at _ _ _ _ Hl) as (Hp & h0 & methods & Hpre & Hr & Hst & Hm).
  apply signRefusal_None in Hp as (tx' & [= <-] & Hp). split; [exact Hp|].
  apply well_logged_prefix in Hl as Hl1. apply unforged_prefix in Hu as Hu1. destruct Hpre as [h0' ->].
  apply well_logged_prefix in Hl1. apply unforged_prefix in Hu1.
  exists h0, methods. split_and!; [by exists h0'|by apply recognized_proven|by apply standing_by_holder|].
  destruct a as [held|t inbox]; simpl in Hm; [by apply bool_decide_eq_true in Hm|].
  apply existsb_exists in Hm as ([role t' v] & Hin%list_elem_of_In & Hm). simpl in Hm. bool_facts. subst. by exists role.
Qed.

(** C28: A half goes back to its owner. In any interleaving, if no token was forged: a
    half that was handed out is the last one filed for that address on this server,
    and the request that filed it was the account's own, its key proven by a token at
    most an hour old; it went to that account with its key proven so, or to an inbox
    proven here, by a token at most half an hour old, that is the one it was filed
    under. *)
Theorem shares_released_to_proven l s h1 key share a h2 :
  recovery_execution moment l s -> unforged (r_history s) ->
  r_history s = h1 ++ ShareReleased key share a :: h2 ->
  exists rules address email, key = share_of rules address
    /\ half_on_file h1 rules address share email /\ proven h1 rules a
    /\ match a with ByAddress held => held = address | ByIdentity _ inbox => inbox = email end.
Proof.
  intros Hrun Hu E. assert (V := recovery_run l s Hrun). assert (Hl := rv_logged _ _ V). rewrite E in Hl, Hu.
  destruct (well_logged_at _ _ _ _ Hl) as (rules & address & email & -> & Hr & Hst & Ht).
  apply well_logged_prefix in Hl. apply unforged_prefix in Hu.
  assert (Hhalf := half_by_holder _ _ _ _ _ Hl Hu Hst).
  exists rules, address, email. split_and!; [done|done|by apply recognized_proven|].
  destruct a as [held|[] inbox]; simpl in Ht; apply bool_decide_eq_true in Ht; [done|]. rewrite Ht.
  destruct Hhalf as (g1 & g2 & f & -> & _). by destruct (well_logged_at _ _ _ _ Hl) as (Hn & _).
Qed.
End pool.

(** ** A lost device replaced: the owner registers an inbox, proves it later, and has
    a new key co-signed; and fetches a half back *)

#[local] Existing Instance sample_node.
#[local] Existing Instance sample_laws.

#[local] Instance sample_hmac : Hmac := fun key text => (ser key +:+ text)%string.
#[local] Instance sample_hmac_laws : HmacLaws.
Proof. intros k t k' t' E. apply ser_inj in E as [-> ->]. by split. Qed.

#[local] Instance sample_verify : NodeVerify := fun _ _ _ _ => None.

(** A signature is its key's name and what it signs. *)
#[local] Instance sample_curves : Curves := {|
  rawPublicKey s := if String.prefix "G" s then Some s else None;
  ed25519_verify key message sig := bool_decide (sig = key +:+ message)%string;
  from_base64 s := s;
  keccak_256 s := s;
  hasHighS _ := Some false;
  recoverPublicKey _ _ _ := None
|}.

Definition sample_cfg : Sep10Config := mkSep10 "server" "wallet.example" "recovery.example" "ledger".
Definition sample_challenge : StellarTx :=
  mkStellarTx "Gserver" "0" 200 (Some (0, 900)) "none"
    [ManageData (Some "Gowner") "wallet.example auth" (Some (zeros 48));
     ManageData (Some "Gserver") "web_auth_domain" (Some "recovery.example")]%string
    ["Gserverhash"; "Gownerhash"]%string.
Definition sample_change : StellarTx :=
  mkStellarTx "Gowner" "7" 100 (Some (0, 300)) "none"
    [SetOptions None (mkOptions (Some (Ed25519Signer "Gnew" 10)) None None None None (Some 0) (None, None, None))]%string [].

#[local] Instance sample_keys : StellarKeys := {|
  fromXDR xdr _ :=
    if bool_decide (xdr = "challenge"%string) then Some (PlainTx sample_challenge)
    else if bool_decide (xdr = "change"%string) then Some (PlainTx sample_change) else None;
  txXDR _ := "challenge"%string;
  txHash _ _ := "hash"%string;
  publicKey secret := ("G" +:+ secret)%string;
  signWith secret data := ("G" +:+ secret +:+ data)%string;
  to_base64 s := s;
  rawSecretKey s := s;
  seedPublicKey s := ("G" +:+ s)%string;
  signWithSeed seed data := ("G" +:+ seed +:+ data)%string;
  Networks_PUBLIC := "ledger";
  Networks_TESTNET := "testnet"
|}.

#[local] Instance sample_recovery_env : RecoveryEnv := {|
  rs_role := Some role_a;
  rs_publicBaseUrl := "https://recovery.example";
  rs_homeDomain := "wallet.example";
  rs_signerMaster := "master";
  rs_sep10SigningSecret := "server";
  rs_jwtSecret := "secret";
  rs_default := mkLedger "ledger" "https://horizon.example";
  rs_networks _ := None;
  rs_oidcIssuer := "";
  rs_oidcAudiences := [];
  rs_emailCodes := true;
  rs_mailer_configured := true;
  rs_nonce _ := zeros 48;
  rs_jti n := nat_toString (Z.of_nat n);
  rs_token n := ("t" +:+ nat_toString (Z.of_nat n))%string;
  rs_code n := Z.of_nat n;
  rs_cuid n := ("c" +:+ nat_toString (Z.of_nat n))%string;
  exp_ms _ := None
|}.

Definition sample_surroundings : Surroundings := mkSurroundings (fun _ => NetworkError) (fun _ _ => Account404) (fun _ => true).
Definition recovery_sample_start : Recoveries :=
  mkRecoveries ∅ ∅ ∅ ∅ (mkCaches ∅ ∅) sample_surroundings [] [] 1000 0.

Definition sample_rules : RecoveryRules :=
  mkRules role_a sample_cfg "master" "secret" "https://recovery.example/v1/sep10/auth".
Definition owner_token : string := res_default "" (issueSep10Token sample_rules "Gowner" "0" 1).
Definition inbox_token : string := res_default "" (issueIdentityToken sample_rules "me@example.com" "4" 1).
Definition sample_bearer (t : string) : option string := Some ("Bearer " +:+ t)%string.
Definition sample_half : string := zeros 32.

Definition recovery_requests : list (recovery unit) :=
  [discard (token "challenge" None);
   discard (register (sample_bearer owner_token) "Gowner"
     [mkRecoveryIdentity owner [mkAuthMethod email_method " Me@example.com"]] None);
   discard (put_share (sample_bearer owner_token) "Gowner" sample_half "me@example.com" None);
   discard (startEmail "me@example.com" None);
   discard (verifyEmail "t2" "000003" None);
   discard (sign (sample_bearer inbox_token) "Gowner" (signerFor "master" "Gowner") "change" None);
   discard (get_share (sample_bearer inbox_token) "Gowner" None)]%string.

Definition recovery_sample_end : Recoveries := run_all recovery_requests recovery_sample_start.

Definition sample_moment (w : Surroundings) : Prop := w = sample_surroundings.

Lemma recovery_sample_execution : exists l, recovery_execution sample_moment l recovery_sample_end.
Proof.
  destruct (pool_run_all recovery_request (recovery_world sample_moment) recovery_requests [] recovery_sample_start) as [l Hl];
    [by repeat (apply Forall_cons; split); [apply rq_token|apply rq_register|apply rq_put_share|apply rq_start_email
      |apply rq_verify_email|apply rq_sign|apply rq_get_share|]|].
  exists l, recovery_sample_start. split; [|exact Hl]. unfold recovery_start. split_and!; try done.
Qed.

#[local] Abbreviation sample_inbox := (ByIdentity email_method "me@example.com"%string).

Definition before_cosigning : list RecoveryEvent :=
  [IssuedSep10 sample_rules "Gowner" "0" "challenge" None 1 1;
   Recognized sample_rules owner_token (ByAddress "Gowner") 1;
   Filed ("a", "public", "Gowner") [mkMethodRow owner email_method "me@example.com"] (ByAddress "Gowner");
   Recognized sample_rules owner_token (ByAddress "Gowner") 1;
   ShareFiled ("a", "Gowner") sample_half "me@example.com" (ByAddress "Gowner");
   CodeMinted "t2" "000003" "me@example.com";
   CodeClaimed (sha256Hex "t2");
   IssuedIdentity sample_rules "me@example.com" "4" 1 (ByEmailedCode "t2" "000003");
   Recognized sample_rules inbox_token sample_inbox 1]%string.
Definition before_release : list RecoveryEvent :=
  (before_cosigning ++ [Cosigned sample_rules "Gowner" sample_inbox sample_change 1;
                       Recognized sample_rules inbox_token sample_inbox 1])%list.

Lemma recovery_sample_history :
  r_history recovery_sample_end = before_release ++ [ShareReleased ("a", "Gowner")%string sample_half sample_inbox].
Proof. vm_compute. reflexivity. Qed.

(** Every accepted token of the sample was issued in it. *)
Fixpoint unforged_in (seen h : list RecoveryEvent) : bool :=
  match h with
  | [] => true
  | e :: h =>
      match e with
      | Recognized _ t _ _ => existsb (fun x => match issue_of x with Ok u => bool_decide (u = t) | Throw _ => false end) seen
      | _ => true
      end && unforged_in (seen ++ [e]) h
  end.

Lemma unforged_in_sound seen h : unforged_in seen h = true ->
  forall h1 rules t a at_ h2, h = h1 ++ Recognized rules t a at_ :: h2 -> exists e, e ∈ seen ++ h1 /\ issue_of e = Ok t.
Proof.
  revert seen. induction h as [|e h IH]; intros seen H h1 rules t a at_ h2 E; [by destruct h1|].
  simpl in H. apply andb_true_iff in H as [H1 H2]. destruct h1 as [|x h1]; simplify_eq/=.
  - apply existsb_exists in H1 as (e & Hin%list_elem_of_In & He). exists e. rewrite app_nil_r.
    split; [done|]. destruct (issue_of e); [|done]. by apply bool_decide_eq_true in He as ->.
  - destruct (IH _ H2 _ _ _ _ _ _ eq_refl) as (y & Hy & Hi). exists y. split; [|done]. by rewrite <- app_assoc in Hy.
Qed.

Lemma recovery_sample_unforged : unforged (r_history recovery_sample_end).
Proof.
  rewrite recovery_sample_history. unfold unforged. apply (unforged_in_sound [] (before_release ++ _)). vm_compute. reflexivity.
Qed.

Lemma cosigned_for_proven_witness : exists l,
  recovery_execution sample_moment l recovery_sample_end /\ recovery_only sample_change "Gowner" 1.
Proof.
  destruct recovery_sample_execution as [l Hl]. exists l.
  assert (Hu := recovery_sample_unforged). assert (E := recovery_sample_history).
  revert Hl Hu E. generalize recovery_sample_end. intros s Hl Hu E. split; [exact Hl|].
  apply (cosigned_for_proven sample_moment l s before_cosigning sample_rules "Gowner" sample_inbox sample_change 1
           [Recognized sample_rules inbox_token sample_inbox 1; ShareReleased ("a", "Gowner")%string sample_half sample_inbox]);
    [exact Hl | exact Hu | exact E].
Defined.

Lemma shares_released_to_proven_witness : exists l,
  recovery_execution sample_moment l recovery_sample_end
  /\ exists rules address email, ("a", "Gowner")%string = share_of rules address
       /\ half_on_file sample_moment before_release rules address sample_half email.
Proof.
  destruct recovery_sample_execution as [l Hl]. exists l.
  assert (Hu := recovery_sample_unforged). assert (E := recovery_sample_history).
  revert Hl Hu E. generalize recovery_sample_end. intros s Hl Hu E. split; [exact Hl|].
  destruct (shares_released_to_proven sample_moment l s before_release ("a", "Gowner")%string sample_half sample_inbox [] Hl Hu E)
    as (rules & address & email & H1 & H2 & _).
  exists rules, address, email. split; [exact H1 | exact H2].
Defined.
