(* ===== verification/AliasCore.v ===== *)
(** What an alias may be called (src/src/aliases/alias-name.ts), what a claimant
    signs (alias-signing.ts) and the constants (aliases.constants.ts). *)

From S2P Require Import Prelude Text MerchantFee Intents ChainAddress Tokens Signatures WalletCore.
From stdpp Require Import base tactics list option strings.
From Stdlib Require Import ZArith Lia Ascii.

Open Scope Z_scope.

(** ** Constants *)

Definition ALIAS_CHALLENGE_TTL_MS : Z := 5 * 60 * 1000.
Definition ALIAS_RECOVERY_TTL_MS : Z := 30 * 60 * 1000.
Definition ALIAS_RECOVERY_MAX_ATTEMPTS : Z := 5.
Definition ALIAS_RECOVERY_RESEND_MS : Z := 60 * 1000.
Definition ALIAS_MAX_ADDRESSES : nat := 20.
Definition ALIAS_MAX_PER_CONSUMER : nat := 25.
Definition ALIAS_SWEEP_GRACE_MS : Z := 24 * 60 * 60 * 1000.
Definition ALIAS_SWEEP_BATCH_SIZE : Z := 1000.
Definition ALIAS_SWEEP_MAX_PER_CYCLE : Z := 50000.

(** ** Names (alias-name.ts) *)

Definition ALIAS_MIN_LENGTH : nat := 3.
Definition ALIAS_MAX_LENGTH : nat := 32.

Definition ALIAS_RESERVED : list string :=
  ["admin"; "administrator"; "cosmos"; "cosmospay"; "cosmos_pay"; "help"; "info"; "moderator"; "null"; "undefined";
   "official"; "operator"; "owner"; "root"; "security"; "stellar"; "support"; "system"; "team"; "undefined"; "wallet";
   "xlm"]%string.

Definition is_lower (a : ascii) : bool := (97 <=? code a) && (code a <=? 122).

(** [[a-z0-9]] and [[a-z0-9_]] *)
Definition alias_end (a : ascii) : bool := is_lower a || is_digit a.
Definition alias_char (a : ascii) : bool := alias_end a || Ascii.eqb a "_".

(** [/^[a-z0-9](?:[a-z0-9_]*[a-z0-9])?$/]: [last] says the character before may end it. *)
Fixpoint shape_after (last : bool) (s : string) : bool :=
  match s with
  | EmptyString => last
  | String a r => alias_char a && shape_after (alias_end a) r
  end.
Definition SHAPE (s : string) : bool :=
  match s with EmptyString => false | String a r => alias_end a && shape_after true r end.

Inductive AliasNameError := too_short | too_long | bad_characters | reserved | address_like.
#[export] Instance AliasNameError_eq_dec : EqDecision AliasNameError.
Proof. solve_decision. Defined.

Definition normalizeAliasName (raw : string) : string := toLowerCase (trim raw).

(** [/^[gm][a-z2-7]{20,}$/] *)
Definition looksLikeStellarAddress (normalized : string) : bool :=
  match normalized with
  | EmptyString => false
  | String a r =>
      (Ascii.eqb a "g" || Ascii.eqb a "m") && (20 <=? String.length r)%nat
      && all_chars (fun c => is_lower c || ((50 <=? code c) && (code c <=? 55))) r
  end.

(** [None] is claimable. *)
Definition validateAliasName (normalized : string) : option AliasNameError :=
  if (String.length normalized <? ALIAS_MIN_LENGTH)%nat then Some too_short
  else if (ALIAS_MAX_LENGTH <? String.length normalized)%nat then Some too_long
  else if negb (SHAPE normalized) then Some bad_characters
  else if bool_decide (normalized ∈ ALIAS_RESERVED) then Some reserved
  else if looksLikeStellarAddress normalized then Some address_like
  else None.

Definition normalizeAliasEmail (raw : string) : string := toLowerCase (trim raw).

(** ** Signing (alias-signing.ts) *)

Inductive AliasChallengePurpose := CLAIM | ADD_ADDRESS | RECOVER.
#[export] Instance AliasChallengePurpose_eq_dec : EqDecision AliasChallengePurpose.
Proof. solve_decision. Defined.
Definition purpose_text (p : AliasChallengePurpose) : string :=
  match p with CLAIM => "CLAIM" | ADD_ADDRESS => "ADD_ADDRESS" | RECOVER => "RECOVER" end.

Definition ALIAS_SIGN_DOMAIN : string := "Cosmos Pay alias claim v1".

Record AliasChallengeBody := mkBody {
  cb_purpose : AliasChallengePurpose;
  cb_name : string;
  cb_chain : Chain;
  cb_address : string;
  cb_network : string;
  cb_nonce : string
}.
#[export] Instance AliasChallengeBody_eq_dec : EqDecision AliasChallengeBody.
Proof. solve_decision. Defined.

(** [lines.join('\n')] *)
Fixpoint join_newline (lines : list string) : string :=
  match lines with
  | [] => ""
  | [line] => line
  | line :: lines => (line +:+ newline +:+ join_newline lines)%string
  end.

Definition aliasChallengeMessage (b : AliasChallengeBody) : string :=
  join_newline
    (app ["domain: " +:+ ALIAS_SIGN_DOMAIN;
          "purpose: " +:+ purpose_text (cb_purpose b);
          "alias: " +:+ cb_name b]
       (app (if bool_decide (cb_chain b = stellar) then [] else ["chain: " +:+ chain_name (cb_chain b)])
          ["address: " +:+ cb_address b;
           "network: " +:+ cb_network b;
           "nonce: " +:+ cb_nonce b]))%string.

(** [writeUInt32BE]; a text is shorter than 2^32 bytes. *)
Definition uint32be (n : Z) : string :=
  bytes_of [n / 16777216 mod 256; n / 65536 mod 256; n / 256 mod 256; n mod 256].

Section signing.
Context `{NODE : Node} `{CURVES : Curves}.

(** The digest is what its hexadecimal spells. *)
Definition aliasDigest (message : string) : string :=
  from_hex (sha256Hex (ALIAS_SIGN_DOMAIN +:+ String (ascii_of_nat 0) ""
                       +:+ uint32be (Z.of_nat (String.length message)) +:+ message))%string.

Definition verifyAliasSignature (b : AliasChallengeBody) (signatureBase64 : string) : bool :=
  if negb (bool_decide (cb_chain b = stellar))
  then verifyMessageSignature (cb_chain b) (cb_address b) (aliasChallengeMessage b) signatureBase64
  else
    let digest := aliasDigest (aliasChallengeMessage b) in
    let sig := from_base64 signatureBase64 in
    if negb (String.length sig =? 64)%nat then false
    else match rawPublicKey (cb_address b) with
         | Some key => ed25519_verify key digest sig
         | None => false
         end.
End signing.

(** ** Lemmas *)

Lemma shape_after_chars last s : shape_after last s = true -> all_chars alias_char s = true.
Proof.
  revert last. induction s as [|a s IH]; intros last; simpl; [done|].
  intros [-> H]%andb_true_iff. by eapply IH.
Qed.

Lemma valid_name_chars n : validateAliasName n = None -> all_chars alias_char n = true.
Proof.
  unfold validateAliasName. repeat case_match; try done. intros _.
  match goal with H : negb (SHAPE n) = false |- _ => apply negb_false_iff in H; rename H into Hs end.
  destruct n as [|a r]; [done|]. simpl in Hs |- *. apply andb_true_iff in Hs as [Ha Hr].
  unfold alias_char at 1. rewrite Ha. simpl. by eapply shape_after_chars.
Qed.

(** A claimable name is its own normal form, so it has one spelling. *)
Lemma valid_name_normal n : validateAliasName n = None -> normalizeAliasName n = n.
Proof.
  intros H%valid_name_chars. assert (E : forall a, alias_char a = true -> lower_char a = a /\ is_space a = false).
  { intros [[] [] [] [] [] [] [] []]; vm_compute; intros [=]; by split. }
  assert (T : trim_start n = n /\ trim_end n = n /\ toLowerCase n = n).
  { induction n as [|a n IH]; [done|]. simpl in H. apply andb_true_iff in H as [Ha Hn].
    destruct (E a Ha) as [El Es], (IH Hn) as (_ & E2 & E3). simpl. rewrite Es, E2. unfold toLowerCase in *. simpl.
    rewrite El, E3. by destruct n. }
  destruct T as (T1 & T2 & T3). unfold normalizeAliasName, trim. by rewrite T1, T2.
Qed.

Lemma valid_name_line n : validateAliasName n = None -> free_of NL n = true.
Proof. intros H%valid_name_chars. eapply free_of_class; [|exact H]. done. Qed.

Lemma purpose_inj p q : purpose_text p = purpose_text q -> p = q.
Proof. by destruct p, q. Qed.

(** Names, addresses and nonces have one line; a network may be any text. *)
Record one_line (b : AliasChallengeBody) : Prop := {
  ol_name : free_of NL (cb_name b) = true;
  ol_address : free_of NL (cb_address b) = true;
  ol_nonce : free_of NL (cb_nonce b) = true
}.

(** What is signed says everything: two challenges never read the same. *)
Lemma challenge_message_inj b c :
  one_line b -> one_line c -> aliasChallengeMessage b = aliasChallengeMessage c -> b = c.
Proof.
  destruct b as [p n ch a w k], c as [p' n' ch' a' w' k']. intros [H1 H2 H3] [K1 K2 K3]. simpl in *.
  unfold aliasChallengeMessage. cbn [cb_purpose cb_name cb_chain cb_address cb_network cb_nonce app].
  assert (F : forall tail, tail <> [] -> forall l1 l2 l3, join_newline (l1 :: l2 :: l3 :: tail)
    = (l1 +:+ newline +:+ l2 +:+ newline +:+ l3 +:+ newline +:+ join_newline tail)%string).
  { intros [|t ts] Hn l1 l2 l3; [done|reflexivity]. }
  rewrite !F by (by case_bool_decide). intros E.
  apply app_cons_inj, app_cons_inj in E.
  apply first_line in E as [E1 E]; [|by destruct p|by destruct p']. apply app_cons_inj, purpose_inj in E1 as ->.
  apply first_line in E as [E1 E]; [|by apply labelled..]. apply app_cons_inj in E1 as ->.
  assert (T : forall c x y z, join_newline (app (if bool_decide (c = stellar) then [] else ["chain: " +:+ chain_name c]) [x; y; z])%string
    = (chainLine c +:+ (x +:+ newline +:+ y +:+ newline +:+ z))%string) by (by intros [] x y z).
  rewrite !T in E. apply chainLine_inj in E as [-> E]; [|by intros ? ? [= <- _]..|done|done].
  apply first_line in E as [E1 E]; [|by apply labelled..]. apply app_cons_inj in E1 as ->.
  apply last_line in E as [E1 E2]; [|by apply labelled..]. apply app_cons_inj in E1 as ->. by apply app_cons_inj in E2 as ->.
Qed.
