(* ===== verification/AliasStore.v ===== *)
(** The tables of the aliases (prisma/schema.prisma: Alias, AliasAddress,
    AliasChallenge, AliasRecovery; migrations 20260910120000_aliases and
    20260930120000_multichain), the world the service runs in and its statements. *)

From S2P Require Import Prelude Text MerchantFee Intents ChainAddress Programs Tokens Signatures WalletCore AliasCore.
From stdpp Require Import base tactics list option gmap strings sorting.
From Stdlib Require Import ZArith Lia Ascii.

Open Scope Z_scope.

(** ** Rows *)

Inductive AliasStatus := A_ACTIVE | A_SUSPENDED.
#[export] Instance AliasStatus_eq_dec : EqDecision AliasStatus.
Proof. solve_decision. Defined.

Record Alias := mkAlias {
  al_id : string;
  al_consumerId : string;
  al_name : string;
  al_displayName : string;
  al_email : string;
  al_emailVerifiedAt : option Z;
  al_status : AliasStatus;
  al_createdAt : Z
}.
Definition set_consumer (c : string) (r : Alias) : Alias :=
  mkAlias (al_id r) c (al_name r) (al_displayName r) (al_email r) (al_emailVerifiedAt r) (al_status r) (al_createdAt r).
Definition set_alias_status (st : AliasStatus) (r : Alias) : Alias :=
  mkAlias (al_id r) (al_consumerId r) (al_name r) (al_displayName r) (al_email r) (al_emailVerifiedAt r) st (al_createdAt r).

Record AliasAddress := mkAddress {
  aa_aliasId : string;
  aa_chain : Chain;
  aa_address : string;
  aa_network : string;
  aa_label : option string;
  aa_isPrimary : bool;
  aa_verifiedAt : Z;
  aa_createdAt : Z
}.
Definition set_primary (p : bool) (a : AliasAddress) : AliasAddress :=
  mkAddress (aa_aliasId a) (aa_chain a) (aa_address a) (aa_network a) (aa_label a) p (aa_verifiedAt a) (aa_createdAt a).

(** The columns [purpose] to [nonce] are the body that is signed. *)
Record AliasChallenge := mkChallenge {
  ch_aliasId : option string;
  ch_body : AliasChallengeBody;
  ch_expiresAt : Z;
  ch_consumedAt : option Z
}.
Definition set_consumed (at_ : Z) (c : AliasChallenge) : AliasChallenge :=
  mkChallenge (ch_aliasId c) (ch_body c) (ch_expiresAt c) (Some at_).

Record AliasRecovery := mkRecovery {
  ar_aliasId : string;
  ar_email : string;
  ar_expiresAt : Z;
  ar_consumedAt : option Z;
  ar_attempts : Z;
  ar_createdAt : Z
}.
Definition set_burned (at_ : Z) (r : AliasRecovery) : AliasRecovery :=
  mkRecovery (ar_aliasId r) (ar_email r) (ar_expiresAt r) (Some at_) (ar_attempts r) (ar_createdAt r).
Definition set_attempts (n : Z) (r : AliasRecovery) : AliasRecovery :=
  mkRecovery (ar_aliasId r) (ar_email r) (ar_expiresAt r) (ar_consumedAt r) n (ar_createdAt r).

(** ** Configuration and random draws *)

Class AliasEnv := mkAliasEnv {
  am_configured : bool;
  a_nonce : nat -> string;
  a_token : nat -> string;
  a_cuid : nat -> string
}.

(** Draws do not repeat: cuids, nonces and the hashes of tokens. *)
Class FreshDraws `{Node} `{AliasEnv} : Prop := mkFreshDraws {
  cuid_fresh n m : a_cuid n = a_cuid m -> n = m;
  nonce_fresh n m : a_nonce n = a_nonce m -> n = m;
  token_fresh n m : sha256Hex (a_token n) = sha256Hex (a_token m) -> n = m
}.

(** What happened; no method reads it. A [Placed] address was put on the alias for
    consumer [by_] with the challenge [b]. *)
Inductive AliasEvent :=
  | Issued (b : AliasChallengeBody) (expiresAt : Z)
  | Spent (b : AliasChallengeBody) (signature : string) (at_ : Z)
  | Claimed (aliasId name consumer email : string)
  | Placed (aliasId by_ : string) (b : AliasChallengeBody)
  | Minted (aliasId email token : string) (expiresAt : Z)
  | Counted (tokenHash : string)
  | Recovered (aliasId consumer token : string)
  | Released (aliasId by_ : string).

(** ** The world

    Consumers by their gateway name, aliases by their unique name (which never
    changes), addresses by id, challenges by their unique nonce, recoveries by
    their unique token hash; whether a message reaches an inbox, the messages sent
    with their tokens, what happened so far, the clock and the count of random
    draws. *)
Record Aliased := mkAliased {
  gateway : gmap string string;
  aliases : gmap string Alias;
  addresses : gmap string AliasAddress;
  challenges : gmap string AliasChallenge;
  recoveries : gmap string AliasRecovery;
  a_mail : string -> bool;
  a_mailed : list (string * string);
  a_history : list AliasEvent;
  a_clock : Z;
  a_drawn : nat
}.

Definition set_gateway (f : gmap string string -> gmap string string) (s : Aliased) : Aliased :=
  mkAliased (f (gateway s)) (aliases s) (addresses s) (challenges s) (recoveries s) (a_mail s) (a_mailed s) (a_history s)
    (a_clock s) (a_drawn s).
Definition set_aliases (f : gmap string Alias -> gmap string Alias) (s : Aliased) : Aliased :=
  mkAliased (gateway s) (f (aliases s)) (addresses s) (challenges s) (recoveries s) (a_mail s) (a_mailed s) (a_history s)
    (a_clock s) (a_drawn s).
Definition set_addresses (f : gmap string AliasAddress -> gmap string AliasAddress) (s : Aliased) : Aliased :=
  mkAliased (gateway s) (aliases s) (f (addresses s)) (challenges s) (recoveries s) (a_mail s) (a_mailed s) (a_history s)
    (a_clock s) (a_drawn s).
Definition set_challenges (f : gmap string AliasChallenge -> gmap string AliasChallenge) (s : Aliased) : Aliased :=
  mkAliased (gateway s) (aliases s) (addresses s) (f (challenges s)) (recoveries s) (a_mail s) (a_mailed s) (a_history s)
    (a_clock s) (a_drawn s).
Definition set_recoveries (f : gmap string AliasRecovery -> gmap string AliasRecovery) (s : Aliased) : Aliased :=
  mkAliased (gateway s) (aliases s) (addresses s) (challenges s) (f (recoveries s)) (a_mail s) (a_mailed s) (a_history s)
    (a_clock s) (a_drawn s).
Definition log_a_mail (to_ token : string) (s : Aliased) : Aliased :=
  mkAliased (gateway s) (aliases s) (addresses s) (challenges s) (recoveries s) (a_mail s) (a_mailed s ++ [(to_, token)])
    (a_history s) (a_clock s) (a_drawn s).
Definition a_log (e : AliasEvent) (s : Aliased) : Aliased :=
  mkAliased (gateway s) (aliases s) (addresses s) (challenges s) (recoveries s) (a_mail s) (a_mailed s)
    (a_history s ++ [e]) (a_clock s) (a_drawn s).
Definition set_a_drawn (n : nat) (s : Aliased) : Aliased :=
  mkAliased (gateway s) (aliases s) (addresses s) (challenges s) (recoveries s) (a_mail s) (a_mailed s) (a_history s)
    (a_clock s) n.

Abbreviation naming := (prog Aliased).

Definition address_rows (s : Aliased) : list (string * AliasAddress) := map_to_list (addresses s).
Definition alias_rows (s : Aliased) : list Alias := (map_to_list (aliases s)).*2.

(** ** Statements *)

(** The row of [r]'s name is still [r]'s. *)
Definition standing_alias (r : Alias) (s : Aliased) : option Alias :=
  row ← aliases s !! al_name r; if bool_decide (al_id row = al_id r) then Some row else None.

(** [aliasAddress]'s unique indexes: (aliasId, chain, network, address), and the
    partial (aliasId, network) of the primary rows that the first migration makes
    and none drops. *)
Definition same_address (a b : AliasAddress) : bool :=
  bool_decide (aa_aliasId a = aa_aliasId b) && bool_decide (aa_chain a = aa_chain b)
  && bool_decide (aa_network a = aa_network b) && bool_decide (aa_address a = aa_address b).
Definition both_primary (a b : AliasAddress) : bool :=
  aa_isPrimary a && aa_isPrimary b && bool_decide (aa_aliasId a = aa_aliasId b)
  && bool_decide (aa_network a = aa_network b).

Definition address_violated (key : string) (a : AliasAddress) (s : Aliased) : option string :=
  let others := (List.filter (fun x => negb (bool_decide (fst x = key))) (address_rows s)).*2 in
  if existsb (same_address a) others then Some "alias_address_aliasId_chain_network_address_key"%string
  else if existsb (both_primary a) others then Some "alias_address_one_primary_per_network"%string
  else None.

(** The row [key] becomes [a]. *)
Definition write_address (key : string) (a : AliasAddress) : svc Aliased unit := fun s =>
  match address_violated key a s with
  | Some n => (s, Throw (UniqueViolation n))
  | None => (set_addresses (fun m => <[key := a]> m) s, Ok tt)
  end.

(** [aliasAddress.create] for a body that was signed, on an alias that must stand. *)
Definition create_address `{AliasEnv} (r : Alias) (b : AliasChallengeBody) (label : option string) (primary : bool)
    : svc Aliased (string * AliasAddress) := fun s =>
  let key := a_cuid (a_drawn s) in
  let a := mkAddress (al_id r) (cb_chain b) (cb_address b) (cb_network b) label primary (a_clock s) (a_clock s) in
  match standing_alias r s, address_violated key a s with
  | None, _ => (s, Throw JsError)
  | Some _, Some n => (s, Throw (UniqueViolation n))
  | Some _, None => (set_a_drawn (S (a_drawn s)) (set_addresses (fun m => <[key := a]> m) s), Ok (key, a))
  end.

(** [alias.create] with its first address. *)
Definition create_alias `{AliasEnv} (consumer name displayName email : string) (b : AliasChallengeBody)
    (label : option string) : svc Aliased (Alias * (string * AliasAddress)) := fun s =>
  let r := mkAlias (a_cuid (a_drawn s)) consumer name displayName email None A_ACTIVE (a_clock s) in
  match aliases s !! name with
  | Some _ => (s, Throw (UniqueViolation "alias_name_key"))
  | None =>
      match create_address r b label true
              (a_log (Claimed (al_id r) name consumer email)
                 (set_a_drawn (S (a_drawn s)) (set_aliases (fun m => <[name := r]> m) s))) with
      | (s', Ok x) => (a_log (Placed (al_id r) consumer b) s', Ok (r, x))
      | (_, Throw e) => (s, Throw e)
      end
  end.

(** [alias.delete], with what references it. *)
Definition delete_alias (r : Alias) (by_ : string) : svc Aliased unit := fun s =>
  match standing_alias r s with
  | None => (s, Throw JsError)
  | Some _ =>
      (a_log (Released (al_id r) by_)
         (set_recoveries (filter (fun x => ar_aliasId (snd x) <> al_id r))
            (set_challenges (filter (fun x => ch_aliasId (snd x) <> Some (al_id r)))
               (set_addresses (filter (fun x => aa_aliasId (snd x) <> al_id r))
                  (set_aliases (delete (al_name r)) s)))), Ok tt)
  end.

(** A foreign key that would point at no alias. *)
Definition dangling (r : option Alias) (s : Aliased) : bool :=
  match r with
  | Some r => match standing_alias r s with Some _ => false | None => true end
  | None => false
  end.

(** [aliasChallenge.create] with the nonce drawn for it, which it answers. *)
Definition create_challenge `{AliasEnv} (r : option Alias) (body : string -> AliasChallengeBody) (expiresAt : Z)
    : svc Aliased string := fun s =>
  let nonce := a_nonce (a_drawn s) in
  match challenges s !! nonce with
  | Some _ => (s, Throw (UniqueViolation "alias_challenge_nonce_key"))
  | None =>
      if dangling r s then (s, Throw JsError)
      else (a_log (Issued (body nonce) expiresAt)
              (set_a_drawn (S (a_drawn s))
                 (set_challenges (fun m => <[nonce := mkChallenge (al_id <$> r) (body nonce) expiresAt None]> m) s)),
            Ok nonce)
  end.

(** [updateMany({ where: { id, consumedAt: null }, data: { consumedAt } })] of a
    challenge that was signed. *)
Definition spend (b : AliasChallengeBody) (signature : string) (at_ : Z) : svc Aliased nat := fun s =>
  match challenges s !! cb_nonce b with
  | Some c =>
      match ch_consumedAt c with
      | None => (a_log (Spent b signature at_) (set_challenges (fun m => <[cb_nonce b := set_consumed (a_clock s) c]> m) s), Ok 1%nat)
      | Some _ => (s, Ok 0%nat)
      end
  | None => (s, Ok 0%nat)
  end.

(** [updateMany({ where: { aliasId, chain, network, isPrimary: true }, data: { isPrimary: false } })] *)
Definition demote (aliasId : string) (chain : Chain) (network : string) (s : Aliased) : Aliased :=
  set_addresses (fmap (fun a =>
    if bool_decide (aa_aliasId a = aliasId) && bool_decide (aa_chain a = chain) && bool_decide (aa_network a = network)
    then set_primary false a else a)) s.

(** The transaction of [addAddress]. *)
Definition add_address `{AliasEnv} (r : Alias) (by_ : string) (b : AliasChallengeBody) (label : option string) (primary : bool)
    : svc Aliased (string * AliasAddress) := fun s =>
  let s1 := if primary then demote (al_id r) (cb_chain b) (cb_network b) s else s in
  match create_address r b label primary s1 with
  | (s2, Ok x) => (a_log (Placed (al_id r) by_ b) s2, Ok x)
  | (_, Throw e) => (s, Throw e)
  end.

Definition older_address (a b : string * AliasAddress) : Prop := aa_createdAt (snd a) <= aa_createdAt (snd b).
#[export] Instance older_address_dec a b : Decision (older_address a b).
Proof. unfold older_address. apply _. Defined.

Definition on_network (aliasId : string) (chain : Chain) (network : string) (x : string * AliasAddress) : bool :=
  bool_decide (aa_aliasId (snd x) = aliasId) && bool_decide (aa_chain (snd x) = chain)
  && bool_decide (aa_network (snd x) = network).

(** The transaction of [removeAddress]; [row] is what was read of the address. *)
Definition remove_address (r : Alias) (key : string) (row : AliasAddress) : svc Aliased unit := fun s =>
  match addresses s !! key with
  | None => (s, Throw JsError)
  | Some _ =>
      let s1 := set_addresses (delete key) s in
      if negb (aa_isPrimary row) then (s1, Ok tt)
      else match head (merge_sort older_address
                         (List.filter (on_network (al_id r) (aa_chain row) (aa_network row)) (address_rows s1))) with
           | None => (s1, Ok tt)
           | Some (k, a) =>
               match write_address k (set_primary true a) s1 with
               | (s2, Ok _) => (s2, Ok tt)
               | (_, Throw e) => (s, Throw e)
               end
           end
  end.

(** [aliasRecovery.updateMany({ where: { aliasId, consumedAt: null }, data: { consumedAt } })] *)
Definition burn_recoveries (aliasId : string) : svc Aliased unit := fun s =>
  (set_recoveries (fmap (fun v =>
     if bool_decide (ar_aliasId v = aliasId) && bool_decide (ar_consumedAt v = None) then set_burned (a_clock s) v else v)) s,
   Ok tt).

(** [aliasRecovery.create] with the token drawn for it, which it answers. *)
Definition create_recovery `{Node} `{AliasEnv} (r : Alias) (expiresAt : Z) : svc Aliased string := fun s =>
  let token := a_token (a_drawn s) in
  match recoveries s !! sha256Hex token with
  | Some _ => (s, Throw (UniqueViolation "alias_recovery_tokenHash_key"))
  | None =>
      if dangling (Some r) s then (s, Throw JsError)
      else (a_log (Minted (al_id r) (al_email r) token expiresAt)
              (set_a_drawn (S (a_drawn s))
                 (set_recoveries (fun m => <[sha256Hex token := mkRecovery (al_id r) (al_email r) expiresAt None 0 (a_clock s)]> m) s)),
            Ok token)
  end.

(** The attempt, checked and counted in one statement. *)
Definition count_attempt (key : string) (now : Z) : svc Aliased nat := fun s =>
  match recoveries s !! key with
  | Some v =>
      if bool_decide (ar_consumedAt v = None) && (now <? ar_expiresAt v) && (ar_attempts v <? ALIAS_RECOVERY_MAX_ATTEMPTS)
      then (a_log (Counted key) (set_recoveries (fun m => <[key := set_attempts (ar_attempts v + 1) v]> m) s), Ok 1%nat)
      else (s, Ok 0%nat)
  | None => (s, Ok 0%nat)
  end.

(** [where: { aliasId }, orderBy: [{ isPrimary: 'desc' }, { createdAt: 'asc' }]] *)
Definition payer_first (a b : string * AliasAddress) : Prop :=
  match aa_isPrimary (snd a), aa_isPrimary (snd b) with
  | true, false => true
  | false, true => false
  | _, _ => aa_createdAt (snd a) <=? aa_createdAt (snd b)
  end = true.
#[export] Instance payer_first_dec a b : Decision (payer_first a b).
Proof. unfold payer_first. apply _. Defined.
Definition addresses_of (aliasId : string) (s : Aliased) : list (string * AliasAddress) :=
  merge_sort payer_first (List.filter (fun x => bool_decide (aa_aliasId (snd x) = aliasId)) (address_rows s)).

(** The transaction of [completeRecovery]. *)
Definition hand_over `{Node} `{AliasEnv} (r : Alias) (consumer token : string) (b : AliasChallengeBody)
    : svc Aliased (Alias * list (string * AliasAddress)) := fun s =>
  let key := sha256Hex token in
  match recoveries s !! key with
  | Some v =>
      if bool_decide (ar_consumedAt v = None) then
        let s1 := set_addresses (filter (fun x => aa_aliasId (snd x) <> al_id r))
                    (set_recoveries (fun m => <[key := set_burned (a_clock s) v]> m) s) in
        match create_address r b None true s1, standing_alias r s with
        | (s2, Ok _), Some row =>
            let row' := set_consumer consumer row in
            let s3 := set_aliases (fun m => <[al_name r := row']> m) s2 in
            (a_log (Placed (al_id r) consumer b) (a_log (Recovered (al_id r) consumer token) s3),
             Ok (row', addresses_of (al_id r) s3))
        | (_, Throw e), _ => (s, Throw e)
        | _, None => (s, Throw JsError)
        end
      else (s, Throw (badRequest AliasRecoveryInvalid))
  | None => (s, Throw (badRequest AliasRecoveryInvalid))
  end.
