(* ===== verification/Aliases.v ===== *)
(** Claimable payment handles: src/src/aliases/aliases.service.ts, method by method,
    and the sweeper (alias-challenge-sweeper.service.ts), as programs over the
    tables of AliasStore. *)

From S2P Require Import Prelude Text MerchantFee Intents ChainAddress Programs Tokens Signatures WalletCore AliasCore AliasStore.
From stdpp Require Import base tactics list option gmap strings sorting.
From Stdlib Require Import ZArith Lia Ascii.

Open Scope Z_scope.

(** [if (cond) throw e] *)
Definition refuse_when (cond : bool) (e : exn) : naming unit := if cond then Raise e else Ret tt.

(** ** Requests *)

Record CreateAliasChallengeDto := mkCreateChallenge {
  cc_name : string;
  cc_chain : option Chain;
  cc_address : string;
  cc_network : string;
  cc_purpose : option AliasChallengePurpose
}.

Record ClaimAliasDto := mkClaimAlias {
  ca_name : string;
  ca_email : string;
  ca_nonce : string;
  ca_signature : string;
  ca_label : option string
}.

Record AddAliasAddressDto := mkAddAddress {
  ad_chain : option Chain;
  ad_address : string;
  ad_network : string;
  ad_nonce : string;
  ad_signature : string;
  ad_label : option string;
  ad_primary : option bool
}.

Record CompleteAliasRecoveryDto := mkCompleteRecovery {
  cr_token : string;
  cr_chain : option Chain;
  cr_address : string;
  cr_network : string;
  cr_nonce : string;
  cr_signature : string
}.

(** ** Answers *)

Record ChallengeReply := mkChallengeReply {
  cy_nonce : string;
  cy_message : string;
  cy_domain : string;
  cy_purpose : AliasChallengePurpose;
  cy_expiresAt : Z
}.

(** [PUBLIC_ADDRESS_SELECT] *)
Record PublicAddress := mkPublicAddress {
  pa_id : string;
  pa_chain : Chain;
  pa_address : string;
  pa_network : string;
  pa_label : option string;
  pa_isPrimary : bool;
  pa_verifiedAt : Z
}.
Definition public_address (x : string * AliasAddress) : PublicAddress :=
  mkPublicAddress (fst x) (aa_chain (snd x)) (aa_address (snd x)) (aa_network (snd x)) (aa_label (snd x))
    (aa_isPrimary (snd x)) (aa_verifiedAt (snd x)).

Record OwnedView := mkOwnedView {
  ov_id : string;
  ov_name : string;
  ov_displayName : string;
  ov_email : string;
  ov_emailVerifiedAt : option Z;
  ov_status : AliasStatus;
  ov_addresses : list PublicAddress;
  ov_createdAt : Z
}.
Definition ownedView (r : Alias) (l : list (string * AliasAddress)) : OwnedView :=
  mkOwnedView (al_id r) (al_name r) (al_displayName r) (al_email r) (al_emailVerifiedAt r) (al_status r)
    (List.map public_address l) (al_createdAt r).

Record Resolution := mkResolution {
  rn_name : string;
  rn_displayName : string;
  rn_chain : Chain;
  rn_addresses : list PublicAddress;
  rn_primaryAddress : option string
}.

Record AliasOfAddress := mkAliasOfAddress {
  ao_name : string;
  ao_displayName : string;
  ao_chain : Chain;
  ao_network : string;
  ao_isPrimary : bool
}.

(** [reason] beside [available]: the refusal of the name, taken, or null. *)
Inductive Unavailable := NameRefused (e : AliasNameError) | Taken.
Record Availability := mkAvailability { av_name : string; av_available : bool; av_reason : option Unavailable }.

Record IssuedRecovery := mkIssuedRecovery {
  ir_name : string;
  ir_email : string;
  ir_token : string;
  ir_expiresAt : Z
}.

Definition invalid_challenge : exn := badRequest AliasChallengeInvalid.
Definition recoveryTokenRefused : exn := badRequest AliasRecoveryInvalid.

(** [emailMatches]: constant in time, equality in value. *)
Definition emailMatches (stored provided : string) : bool :=
  if negb (String.length stored =? String.length provided)%nat then false else bool_decide (stored = provided).

Section service.
Context `{NODE : Node} `{CURVES : Curves} `{ENV : AliasEnv}.

Definition addressOf (chain : option Chain) (address : string) : Chain * string :=
  let c := default stellar chain in (c, stored_address c address).

(** [chainOfAddress] of the service: the first chain whose rule is met. *)
Definition chain_of_address (address : string) : option Chain :=
  List.find (fun c => isAddressForChain isStellarAddress (fun text => to_hex (keccak_256 text)) c address) CHAINS.

Definition hashToken (token : string) : string := sha256Hex token.

(** [ConsumerResolverService.resolve]; the credential it also stores is not read here. *)
Definition resolve_gateway (username : string) : svc Aliased string := fun s =>
  match gateway s !! username with
  | Some c => (s, Ok c)
  | None => let c := a_cuid (a_drawn s) in
            (set_a_drawn (S (a_drawn s)) (set_gateway (fun m => <[username := c]> m) s), Ok c)
  end.

Definition find_alias (name : string) : naming (option Alias) := asking (fun s => aliases s !! name).

(** ** Challenges *)

Definition createChallenge (dto : CreateAliasChallengeDto) : naming ChallengeReply :=
  let name := normalizeAliasName (cc_name dto) in
  match validateAliasName name with
  | Some _ => Raise (badRequest AliasNameInvalid)
  | None =>
      let purpose := default CLAIM (cc_purpose dto) in
      alias ← (if bool_decide (purpose = CLAIM) then Ret None else find_alias name);
      _ ← refuse_when (negb (bool_decide (purpose = CLAIM)) && bool_decide (al_id <$> alias = None)) notFound;
      now ← asking a_clock;
      let expiresAt := now + ALIAS_CHALLENGE_TTL_MS in
      let '(chain, address) := addressOf (cc_chain dto) (cc_address dto) in
      let body := mkBody purpose name chain address (cc_network dto) in
      nonce ← stmt (create_challenge alias body expiresAt);
      Ret (mkChallengeReply nonce (aliasChallengeMessage (body nonce)) ALIAS_SIGN_DOMAIN purpose expiresAt)
  end.

(** Every column of [c] against what is spent, the nonce apart: it is the key. *)
Definition issued_for (c : AliasChallenge) (b : AliasChallengeBody) : bool :=
  bool_decide (cb_purpose (ch_body c) = cb_purpose b) && bool_decide (cb_name (ch_body c) = cb_name b)
  && bool_decide (cb_chain (ch_body c) = cb_chain b) && bool_decide (cb_address (ch_body c) = cb_address b)
  && bool_decide (cb_network (ch_body c) = cb_network b).

Definition spendChallenge (b : AliasChallengeBody) (signature : string) : naming AliasChallenge :=
  row ← asking (fun s => challenges s !! cb_nonce b);
  now ← asking a_clock;
  match row with
  | None => Raise invalid_challenge
  | Some c =>
      if negb (issued_for c b) || negb (bool_decide (ch_consumedAt c = None)) || (ch_expiresAt c <=? now)
      then Raise invalid_challenge
      else if negb (verifyAliasSignature b signature) then Raise (badRequest AliasSignatureInvalid)
      else
        count ← stmt (spend b signature now);
        _ ← refuse_when (negb (count =? 1)%nat) invalid_challenge;
        Ret c
  end.

(** ** Claiming *)

Definition challengeCoordinates (nonce : string) : naming (Chain * string * string) :=
  row ← asking (fun s => challenges s !! nonce);
  match row with
  | None => Raise invalid_challenge
  | Some c => Ret (cb_chain (ch_body c), cb_address (ch_body c), cb_network (ch_body c))
  end.

Definition claim (username : string) (dto : ClaimAliasDto) : naming OwnedView :=
  local ← stmt (resolve_gateway username);
  let name := normalizeAliasName (ca_name dto) in
  match validateAliasName name with
  | Some _ => Raise (badRequest AliasNameInvalid)
  | None =>
      held ← asking (fun s => length (List.filter (fun r => bool_decide (al_consumerId r = local)) (alias_rows s)));
      _ ← refuse_when (ALIAS_MAX_PER_CONSUMER <=? held)%nat (badRequest AliasAddressConflict);
      at_ ← challengeCoordinates (ca_nonce dto);
      let '(chain, address, network) := at_ in
      challenge ← spendChallenge (mkBody CLAIM name chain address network (ca_nonce dto)) (ca_signature dto);
      let c := ch_body challenge in
      catching
        (created ← stmt (create_alias local name (trim (ca_name dto)) (normalizeAliasEmail (ca_email dto))
                           (mkBody CLAIM name (cb_chain c) (cb_address c) (cb_network c) (ca_nonce dto)) (ca_label dto));
         Ret (ownedView (fst created) [snd created]))
        (fun e => if isUniqueViolation e then Raise (conflict AliasTaken) else Raise e)
  end.

(** ** Addresses *)

Definition requireOwned (username name : string) : naming Alias :=
  local ← stmt (resolve_gateway username);
  alias ← find_alias (normalizeAliasName name);
  match alias with
  | None => Raise notFound
  | Some r => if negb (bool_decide (al_consumerId r = local)) then Raise notFound else Ret r
  end.

Definition count_addresses (q : string * AliasAddress -> bool) : naming nat :=
  asking (fun s => length (List.filter q (address_rows s))).
Definition of_alias (r : Alias) (x : string * AliasAddress) : bool := bool_decide (aa_aliasId (snd x) = al_id r).

Definition addAddress (username name : string) (dto : AddAliasAddressDto) : naming PublicAddress :=
  alias ← requireOwned username name;
  count ← count_addresses (of_alias alias);
  _ ← refuse_when (ALIAS_MAX_ADDRESSES <=? count)%nat (badRequest AliasAddressConflict);
  let '(chain, address) := addressOf (ad_chain dto) (ad_address dto) in
  let body := mkBody ADD_ADDRESS (al_name alias) chain address (ad_network dto) (ad_nonce dto) in
  _ ← spendChallenge body (ad_signature dto);
  existingOnNetwork ← count_addresses (on_network (al_id alias) chain (ad_network dto));
  let primary := (existingOnNetwork =? 0)%nat || bool_decide (ad_primary dto = Some true) in
  catching
    (x ← stmt (add_address alias (al_consumerId alias) body (ad_label dto) primary); Ret (public_address x))
    (fun e => if isUniqueViolation e then Raise (conflict AliasAddressConflict) else Raise e).

Definition removeAddress (username name addressId : string) : naming string :=
  alias ← requireOwned username name;
  row ← asking (fun s => match addresses s !! addressId with
                         | Some a => if bool_decide (aa_aliasId a = al_id alias) then Some a else None
                         | None => None
                         end);
  match row with
  | None => Raise notFound
  | Some row =>
      total ← count_addresses (of_alias alias);
      _ ← refuse_when (total <=? 1)%nat (badRequest AliasAddressConflict);
      _ ← stmt (remove_address alias addressId row);
      Ret addressId
  end.

(** ** Resolution *)

(** [network ? { network } : {}] *)
Definition network_is (network : option string) (n : string) : bool :=
  negb (truthy network) || bool_decide (network = Some n).

Definition resolve (name : string) (network : option string) (chain : option Chain) : naming Resolution :=
  let chain := default stellar chain in
  found ← asking (fun s =>
    r ← aliases s !! normalizeAliasName name;
    Some (r, List.filter (fun x => bool_decide (aa_chain (snd x) = chain) && network_is network (aa_network (snd x)))
               (addresses_of (al_id r) s)));
  match found with
  | None => Raise notFound
  | Some (r, l) =>
      if negb (bool_decide (al_status r = A_ACTIVE)) then Raise notFound
      else Ret (mkResolution (al_name r) (al_displayName r) chain (List.map public_address l)
                  (pa_address <$> List.find pa_isPrimary (List.map public_address l)))
  end.

Definition findByAddress (address : string) (network : option string) (chain : option Chain) : naming (list AliasOfAddress) :=
  match (match chain with Some c => Some c | None => chain_of_address address end) with
  | None => Ret []
  | Some onChain =>
      rows ← asking (fun s =>
        omap (fun x => r ← List.find (fun r => bool_decide (al_id r = aa_aliasId (snd x))) (alias_rows s); Some (r, snd x))
          (merge_sort older_address
             (List.filter (fun x => bool_decide (aa_chain (snd x) = onChain)
                                    && bool_decide (aa_address (snd x) = stored_address onChain address)
                                    && network_is network (aa_network (snd x))) (address_rows s))));
      Ret (List.map (fun x => mkAliasOfAddress (al_name (fst x)) (al_displayName (fst x)) (aa_chain (snd x))
                                (aa_network (snd x)) (aa_isPrimary (snd x)))
             (List.filter (fun x => bool_decide (al_status (fst x) = A_ACTIVE)) rows))
  end.

Definition availability (name : string) : naming Availability :=
  let normalized := normalizeAliasName name in
  match validateAliasName normalized with
  | Some e => Ret (mkAvailability normalized false (Some (NameRefused e)))
  | None =>
      taken ← find_alias normalized;
      Ret (match taken with
           | Some _ => mkAvailability normalized false (Some Taken)
           | None => mkAvailability normalized true None
           end)
  end.

(** ** Ownership *)

Definition newer_alias (a b : Alias) : Prop := al_createdAt b <= al_createdAt a.
#[export] Instance newer_alias_dec a b : Decision (newer_alias a b).
Proof. unfold newer_alias. apply _. Defined.

Definition owned_by (local : string) (s : Aliased) : list Alias :=
  List.filter (fun r => bool_decide (al_consumerId r = local)) (alias_rows s).

(** The page and the count are two statements. *)
Definition listOwned (username : string) (take_ skip : nat) : naming (list OwnedView * nat) :=
  local ← stmt (resolve_gateway username);
  rows ← asking (fun s => List.map (fun r => ownedView r (addresses_of (al_id r) s))
                            (take take_ (drop skip (merge_sort newer_alias (owned_by local s)))));
  total ← asking (fun s => length (owned_by local s));
  Ret (rows, total).

Definition release (username name : string) : naming string :=
  alias ← requireOwned username name;
  _ ← stmt (delete_alias alias (al_consumerId alias));
  Ret (al_id alias).

(** ** Recovery *)

Definition issueRecovery (name email : string) : naming (option IssuedRecovery) :=
  let normalized := normalizeAliasName name in
  alias ← find_alias normalized;
  match alias with
  | None => Ret None
  | Some r =>
      if negb (bool_decide (al_status r = A_ACTIVE)) || negb (emailMatches (al_email r) (normalizeAliasEmail email))
      then Ret None
      else
        now ← asking a_clock;
        recent ← asking (fun s => existsb (fun x => bool_decide (ar_aliasId (snd x) = al_id r)
                                     && (now - ALIAS_RECOVERY_RESEND_MS <? ar_createdAt (snd x))) (map_to_list (recoveries s)));
        if (recent : bool) then Ret None
        else
          _ ← stmt (burn_recoveries (al_id r));
          later ← asking a_clock;
          let expiresAt := later + ALIAS_RECOVERY_TTL_MS in
          token ← stmt (create_recovery r expiresAt);
          Ret (Some (mkIssuedRecovery normalized (al_email r) token expiresAt))
  end.

(** Not awaited, and a failure is only logged. *)
Definition mailRecoveryToken (i : IssuedRecovery) : naming unit :=
  stmt (fun s => (if a_mail s (ir_email i) then log_a_mail (ir_email i) (ir_token i) s else s, Ok tt)).

Definition startRecovery (name email : string) : naming unit :=
  if negb am_configured then Raise (unavailable Misconfigured)
  else
    issued ← issueRecovery name email;
    match issued with Some i => mailRecoveryToken i | None => Ret tt end.

Definition completeRecovery (username name : string) (dto : CompleteAliasRecoveryDto) : naming OwnedView :=
  local ← stmt (resolve_gateway username);
  found ← find_alias (normalizeAliasName name);
  match found with
  | None => Raise notFound
  | Some alias =>
      if negb (bool_decide (al_status alias = A_ACTIVE)) then Raise notFound
      else
        let key := hashToken (cr_token dto) in
        recovery ← asking (fun s => recoveries s !! key);
        now ← asking a_clock;
        let live := match recovery with
                    | Some v => bool_decide (ar_aliasId v = al_id alias) && bool_decide (ar_consumedAt v = None)
                                && (now <? ar_expiresAt v) && (ar_attempts v <? ALIAS_RECOVERY_MAX_ATTEMPTS)
                    | None => false
                    end in
        _ ← refuse_when (negb live) recoveryTokenRefused;
        later ← asking a_clock;
        counted ← stmt (count_attempt key later);
        _ ← refuse_when (negb (counted =? 1)%nat) recoveryTokenRefused;
        let '(chain, address) := addressOf (cr_chain dto) (cr_address dto) in
        let body := mkBody RECOVER (al_name alias) chain address (cr_network dto) (cr_nonce dto) in
        _ ← spendChallenge body (cr_signature dto);
        updated ← stmt (hand_over alias local (cr_token dto) body);
        Ret (ownedView (fst updated) (snd updated))
  end.
End service.

(** ** The sweeper *)

(** The pages it deletes: [find] answers at most [take] ids. Every full page is
    counted, so [fuel] bounds the loop at one more than the pages of a cycle. *)
Fixpoint drain_from (fuel : nat) (examined : Z) (deleted : nat) (find : nat -> naming (list string))
    (remove : list string -> naming nat) : naming nat :=
  match fuel with
  | O => Ret deleted
  | S fuel =>
      if negb (examined <? ALIAS_SWEEP_MAX_PER_CYCLE) then Ret deleted
      else
        let take := Z.to_nat (Z.min ALIAS_SWEEP_BATCH_SIZE (ALIAS_SWEEP_MAX_PER_CYCLE - examined)) in
        ids ← find take;
        if (length ids =? 0)%nat then Ret deleted
        else
          count ← remove ids;
          if (length ids <? take)%nat then Ret (deleted + count)%nat
          else drain_from fuel (examined + Z.of_nat (length ids)) (deleted + count) find remove
  end.
Definition drain : (nat -> naming (list string)) -> (list string -> naming nat) -> naming nat := drain_from 51 0 0.

(** The fuel is enough: no more of it changes a sweep. *)
Lemma drain_more fuel extra examined deleted find_ remove_ s :
  (0 < fuel)%nat -> ALIAS_SWEEP_MAX_PER_CYCLE - examined <= ALIAS_SWEEP_BATCH_SIZE * Z.of_nat (fuel - 1) ->
  run (drain_from (fuel + extra) examined deleted find_ remove_) s = run (drain_from fuel examined deleted find_ remove_) s.
Proof.
  unfold ALIAS_SWEEP_MAX_PER_CYCLE, ALIAS_SWEEP_BATCH_SIZE. revert examined deleted s.
  induction fuel as [|fuel IH]; intros examined deleted s H0 H; [lia|].
  cbn [drain_from Nat.add]. unfold ALIAS_SWEEP_MAX_PER_CYCLE, ALIAS_SWEEP_BATCH_SIZE.
  destruct (Z.ltb_spec examined 50000) as [Hlt|]; [|done]. cbn [negb]. cbv zeta.
  rewrite !run_bind. destruct (run (find_ _) s) as [s1 [ids|e]]; [|done]. destruct (length ids =? 0)%nat; [done|].
  rewrite !run_bind. destruct (run (remove_ ids) s1) as [s2 [n|e]]; [|done].
  destruct (Nat.ltb_spec (length ids) (Z.to_nat (Z.min 1000 (50000 - examined)))); [done|].
  apply IH; lia.
Qed.

Lemma drain_enough extra find_ remove_ s :
  run (drain_from (51 + extra) 0 0 find_ remove_) s = run (drain find_ remove_) s.
Proof. apply drain_more; [lia|]. by vm_compute. Qed.

Definition expires_first {A} (f : A -> Z) (a b : string * A) : Prop := f (snd a) <= f (snd b).
#[export] Instance expires_first_dec {A} (f : A -> Z) (a b : string * A) : Decision (expires_first f a b).
Proof. unfold expires_first. apply _. Defined.

(** The ids of the first [n] rows of [m] past [cutoff], by [f]. *)
Definition expired_page {A} (f : A -> Z) (cutoff : Z) (n : nat) (m : gmap string A) : list string :=
  (take n (merge_sort (expires_first f) (List.filter (fun x => f (snd x) <? cutoff) (map_to_list m)))).*1.

Definition without {A} (ids : list string) (m : gmap string A) : gmap string A := filter (fun x => fst x ∉ ids) m.

Definition alias_sweep : naming unit :=
  now ← asking a_clock;
  let cutoff := now - ALIAS_SWEEP_GRACE_MS in
  _ ← drain (fun n => asking (fun s => expired_page ch_expiresAt cutoff n (challenges s)))
        (fun ids => stmt (fun s => (set_challenges (without ids) s,
           Ok (size (challenges s) - size (without ids (challenges s)))%nat)));
  _ ← drain (fun n => asking (fun s => expired_page ar_expiresAt cutoff n (recoveries s)))
        (fun ids => stmt (fun s => (set_recoveries (without ids) s,
           Ok (size (recoveries s) - size (without ids (recoveries s)))%nat)));
  Ret tt.
