(* ===== verification/AliasSafety.v ===== *)
(** The aliases under concurrency: what stands behind every address listed, every
    owner and every token ([evidence], over a history no method reads), and the
    invariant [aliases_ok] every method keeps in any interleaving. *)

From S2P Require Import Prelude Text MerchantFee Intents ChainAddress Programs Tokens Signatures WalletCore AliasCore AliasStore Aliases.
From stdpp Require Import base tactics list option gmap strings sorting.
From Stdlib Require Import ZArith Lia Ascii.

Open Scope Z_scope.

(** ** Who holds an alias, by the history *)

Definition holding (id : string) (on : option string) (e : AliasEvent) : option string :=
  match e with
  | Claimed i _ c _ => if bool_decide (i = id) then Some c else on
  | Recovered i c _ => if bool_decide (i = id) then Some c else on
  | Released i _ => if bool_decide (i = id) then None else on
  | _ => on
  end.
Definition holder (id : string) (h : list AliasEvent) : option string := foldl (holding id) None h.

Lemma holder_snoc id h e : holder id (h ++ [e]) = holding id (holder id h) e.
Proof. unfold holder. by rewrite foldl_app. Qed.

(** ** Counts *)

Definition issued_of (nonce : string) (e : AliasEvent) : bool :=
  match e with Issued b _ => bool_decide (cb_nonce b = nonce) | _ => false end.
Definition spent_of (nonce : string) (e : AliasEvent) : bool :=
  match e with Spent b _ _ => bool_decide (cb_nonce b = nonce) | _ => false end.

Section safety.
Context `{NODE : Node} `{CURVES : Curves} `{ENV : AliasEnv}.

Definition minted_of (key : string) (e : AliasEvent) : bool :=
  match e with Minted _ _ t _ => bool_decide (sha256Hex t = key) | _ => false end.
Definition counted_of (key : string) (e : AliasEvent) : bool :=
  match e with Counted k => bool_decide (k = key) | _ => false end.
Definition recovered_of (key : string) (e : AliasEvent) : bool :=
  match e with Recovered _ _ t => bool_decide (sha256Hex t = key) | _ => false end.

(** ** Evidence *)

(** The address of [b] signed it, and the challenge was spent. *)
Definition signed (h : list AliasEvent) (b : AliasChallengeBody) : Prop := exists signature at_, Spent b signature at_ ∈ h.

Definition held_once (h : list AliasEvent) (id consumer : string) : Prop :=
  exists h0, h0 `prefix_of` h /\ holder id h0 = Some consumer.

Definition claimed_as (h : list AliasEvent) (id name email : string) : Prop :=
  exists consumer, Claimed id name consumer email ∈ h.

Definition evidence (h : list AliasEvent) (e : AliasEvent) : Prop :=
  match e with
  | Issued b _ => validateAliasName (cb_name b) = None
  | Spent b signature at_ =>
      verifyAliasSignature b signature = true /\ exists expiresAt, Issued b expiresAt ∈ h /\ at_ < expiresAt
  | Claimed id name _ _ =>
      validateAliasName name = None /\ exists b, signed h b /\ cb_purpose b = CLAIM /\ cb_name b = name
  | Placed id by_ b => signed h b /\ held_once h id by_ /\ exists email, claimed_as h id (cb_name b) email
  | Minted id email _ _ => exists name, claimed_as h id name email
  | Recovered id _ token =>
      Counted (sha256Hex token) ∈ h
      /\ (exists email minted expiresAt, Minted id email minted expiresAt ∈ h /\ sha256Hex minted = sha256Hex token)
      /\ exists b email, signed h b /\ cb_purpose b = RECOVER /\ claimed_as h id (cb_name b) email
  | Released id by_ => held_once h id by_
  | Counted _ => True
  end.

(** A history each of whose events had its evidence in the part before it. *)
Inductive well_logged : list AliasEvent -> Prop :=
  | wl_nil : well_logged []
  | wl_snoc h e : well_logged h -> evidence h e -> well_logged (h ++ [e]).

Lemma alias_well_logged_at h1 e h2 : well_logged (h1 ++ e :: h2) -> evidence h1 e.
Proof.
  remember (h1 ++ e :: h2) as h eqn:E. intros H. revert h2 E. induction H as [|h e' H IH He]; intros h2 E; [by destruct h1|].
  destruct h2 as [|x h2] using rev_ind.
  - apply app_inj_tail in E as [-> ->]. done.
  - clear IHh2. rewrite app_comm_cons, app_assoc in E. apply app_inj_tail in E as [-> ->]. by eapply IH.
Qed.

(** An event that names what was drawn names a draw between [d] and [d']. *)
Definition drawn_between (d d' : nat) (e : AliasEvent) : Prop :=
  match e with
  | Claimed id _ _ _ => exists k, (d <= k < d')%nat /\ id = a_cuid k
  | Issued b _ => exists k, (d <= k < d')%nat /\ cb_nonce b = a_nonce k
  | Minted _ _ token _ => exists k, (d <= k < d')%nat /\ token = a_token k
  | _ => True
  end.

(** ** The invariant *)

Record history_ok (h : list AliasEvent) (drawn : nat) : Prop := {
  ho_logged : well_logged h;
  ho_drawn : Forall (drawn_between 0 drawn) h;
  ho_claims : forall id n c e n' c' e', Claimed id n c e ∈ h -> Claimed id n' c' e' ∈ h -> n = n' /\ c = c' /\ e = e';
  ho_issues : forall nonce, (count_of (issued_of nonce) h <= 1)%nat;
  ho_mints : forall key, (count_of (minted_of key) h <= 1)%nat
}.

Definition named (h : list AliasEvent) (n : string) (r : Alias) : Prop :=
  al_name r = n /\ holder (al_id r) h = Some (al_consumerId r) /\ claimed_as h (al_id r) n (al_email r).

(** The alias an address is on, and the challenge it was put there with. *)
Definition placed (h : list AliasEvent) (al : gmap string Alias) (a : AliasAddress) : Prop :=
  exists r by_ b, al !! al_name r = Some r /\ al_id r = aa_aliasId a /\ Placed (al_id r) by_ b ∈ h
    /\ cb_name b = al_name r /\ cb_chain b = aa_chain a /\ cb_address b = aa_address a /\ cb_network b = aa_network a.

(** What the two unique indexes say. *)
Definition indexes_ok (m : gmap string AliasAddress) : Prop :=
  forall k k' a a', m !! k = Some a -> m !! k' = Some a' -> same_address a a' || both_primary a a' = true -> k = k'.

Definition spendable (m : gmap string AliasChallenge) (nonce : string) : nat :=
  match m !! nonce with Some c => if bool_decide (ch_consumedAt c = None) then 1 else 0 | None => 0 end.

Record challenges_ok (h : list AliasEvent) (m : gmap string AliasChallenge) : Prop := {
  co_issued : forall n c, m !! n = Some c -> cb_nonce (ch_body c) = n /\ Issued (ch_body c) (ch_expiresAt c) ∈ h;
  co_spent : forall n, (count_of (spent_of n) h + spendable m n <= count_of (issued_of n) h)%nat
}.

Definition attempts_left (m : gmap string AliasRecovery) (key : string) : Z :=
  match m !! key with Some v => ALIAS_RECOVERY_MAX_ATTEMPTS - ar_attempts v | None => 0 end.
Definition redeemable (m : gmap string AliasRecovery) (key : string) : nat :=
  match m !! key with Some v => if bool_decide (ar_consumedAt v = None) then 1 else 0 | None => 0 end.

Record recoveries_ok (h : list AliasEvent) (m : gmap string AliasRecovery) : Prop := {
  ro_minted : forall key v, m !! key = Some v ->
    ar_attempts v <= ALIAS_RECOVERY_MAX_ATTEMPTS
    /\ exists token expiresAt, Minted (ar_aliasId v) (ar_email v) token expiresAt ∈ h /\ sha256Hex token = key;
  ro_counted : forall key, Z.of_nat (count_of (counted_of key) h) + attempts_left m key
    <= ALIAS_RECOVERY_MAX_ATTEMPTS * Z.of_nat (count_of (minted_of key) h);
  ro_recovered : forall key, (count_of (recovered_of key) h + redeemable m key <= count_of (minted_of key) h)%nat
}.

Definition mail_ok (h : list AliasEvent) (m : string * string) : Prop :=
  exists id expiresAt, Minted id (fst m) (snd m) expiresAt ∈ h.

Record aliases_ok (s : Aliased) : Prop := {
  ao_history : history_ok (a_history s) (a_drawn s);
  ao_rows : map_Forall (named (a_history s)) (aliases s);
  ao_placed : map_Forall (fun _ => placed (a_history s) (aliases s)) (addresses s);
  ao_indexes : indexes_ok (addresses s);
  ao_challenges : challenges_ok (a_history s) (challenges s);
  ao_recoveries : recoveries_ok (a_history s) (recoveries s);
  ao_mail : Forall (mail_ok (a_history s)) (a_mailed s)
}.

Definition grown (s s' : Aliased) : Prop := a_history s `prefix_of` a_history s'.
#[export] Instance alias_grown_preorder : PreOrder grown.
Proof. unfold grown. split; [by intros s | intros s t u; apply transitivity]. Qed.

(** ** What lasts *)

Lemma prefix_in {A} (h h' : list A) x : h `prefix_of` h' -> x ∈ h -> x ∈ h'.
Proof. intros [k ->] H. set_solver. Qed.

Lemma signed_mono h h' b : h `prefix_of` h' -> signed h b -> signed h' b.
Proof. intros Hp (x & t & H). exists x, t. by eapply prefix_in. Qed.
Lemma held_mono h h' id c : h `prefix_of` h' -> held_once h id c -> held_once h' id c.
Proof. intros Hp (h0 & H1 & H2). exists h0. split; [by etransitivity | done]. Qed.
Lemma claimed_mono h h' id n e : h `prefix_of` h' -> claimed_as h id n e -> claimed_as h' id n e.
Proof. intros Hp (c & H). exists c. by eapply prefix_in. Qed.
Lemma placed_mono h h' al a : h `prefix_of` h' -> placed h al a -> placed h' al a.
Proof. intros Hp (r & c & b & H1 & H2 & H3 & H). exists r, c, b. split_and!; try apply H; try done. by eapply prefix_in. Qed.
Lemma alias_mail_mono h h' m : h `prefix_of` h' -> mail_ok h m -> mail_ok h' m.
Proof. intros Hp (i & x & H). exists i, x. by eapply prefix_in. Qed.

Lemma drawn_mono d d' e : (d <= d')%nat -> drawn_between 0 d e -> drawn_between 0 d' e.
Proof. intros Hd. destruct e; simpl; try done; intros (k & ? & ->) || intros (k & ? & E); exists k; split; (lia || done). Qed.

Context {FRESH : FreshDraws}.

(** One more event, with its evidence; what it names was just drawn. *)
Lemma history_snoc h e d d' :
  history_ok h d -> (d <= d')%nat -> evidence h e -> drawn_between d d' e -> history_ok (h ++ [e]) d'.
Proof.
  intros [H1 H2 H3 H4 H5] Hd He Hk. split.
  - by constructor.
  - apply Forall_app. split; [eapply Forall_impl; [exact H2 | intros x; by apply drawn_mono]|].
    constructor; [|done]. destruct e; simpl in *; try done; destruct Hk as (k & ? & E); exists k; (split; [lia | done]).
  - intros id n c x n' c' x' [Ha|Ha]%elem_of_app [Hb|Hb]%elem_of_app; [by eapply H3 | | |].
    + apply list_elem_of_singleton in Hb as <-. destruct Hk as (k & ? & ->).
      rewrite Forall_forall in H2. destruct (H2 _ Ha) as (k' & ? & E%cuid_fresh). lia.
    + apply list_elem_of_singleton in Ha as <-. destruct Hk as (k & ? & ->).
      rewrite Forall_forall in H2. destruct (H2 _ Hb) as (k' & ? & E%cuid_fresh). lia.
    + apply list_elem_of_singleton in Ha as <-. apply list_elem_of_singleton in Hb. by simplify_eq.
  - intros n. rewrite count_snoc. destruct (issued_of n e) eqn:E; [|rewrite Nat.add_0_r; apply H4].
    rewrite (count_zero (issued_of n)); [done|]. intros x Hx. destruct (issued_of n x) eqn:Ex; [|done].
    destruct e; try done. destruct x; try done. simpl in *. bool_facts. destruct Hk as (k & ? & Ek).
    rewrite Forall_forall in H2. destruct (H2 _ Hx) as (k' & ? & Ek'). simpl in Ek'.
    rewrite <- Ex in E. rewrite Ek, Ek' in E. apply nonce_fresh in E. lia.
  - intros n. rewrite count_snoc. destruct (minted_of n e) eqn:E; [|rewrite Nat.add_0_r; apply H5].
    rewrite (count_zero (minted_of n)); [done|]. intros x Hx. destruct (minted_of n x) eqn:Ex; [|done].
    destruct e; try done. destruct x; try done. simpl in *. bool_facts. destruct Hk as (k & ? & ->).
    rewrite Forall_forall in H2. destruct (H2 _ Hx) as (k' & ? & ->).
    rewrite <- Ex in E. apply token_fresh in E. lia.
Qed.

(** What an event of no concern leaves. *)
Lemma rows_later h (al : gmap string Alias) e :
  (forall id on, holding id on e = on) -> map_Forall (named h) al -> map_Forall (named (h ++ [e])) al.
Proof.
  intros He H. eapply map_Forall_impl; [exact H|]. intros n r (H1 & H2 & H3). split_and!; [done| |].
  - by rewrite holder_snoc, He.
  - eapply claimed_mono; [|exact H3]. by exists [e].
Qed.

Lemma placed_later h al (m : gmap string AliasAddress) e :
  map_Forall (fun _ => placed h al) m -> map_Forall (fun _ => placed (h ++ [e]) al) m.
Proof. intros H. eapply map_Forall_impl; [exact H|]. intros k a. apply placed_mono. by exists [e]. Qed.

Lemma challenges_later h m e : (forall n, spent_of n e = false) -> challenges_ok h m -> challenges_ok (h ++ [e]) m.
Proof.
  intros He [H1 H2]. split.
  - intros n c Hn. destruct (H1 n c Hn) as [E Hi]. split; [done|]. set_solver.
  - intros n. rewrite !count_snoc, He, Nat.add_0_r. specialize (H2 n). destruct (issued_of n e); lia.
Qed.

Lemma recoveries_later h m e :
  (forall k, counted_of k e = false) -> (forall k, recovered_of k e = false) -> recoveries_ok h m -> recoveries_ok (h ++ [e]) m.
Proof.
  intros Hc Hr [H1 H2 H3]. split.
  - intros key v Hv. destruct (H1 key v Hv) as (Ha & t & x & Hm & E). split; [done|]. exists t, x. split; [set_solver | done].
  - intros key. rewrite !count_snoc, Hc, Nat.add_0_r. specialize (H2 key). unfold ALIAS_RECOVERY_MAX_ATTEMPTS in *.
    destruct (minted_of key e); lia.
  - intros key. rewrite !count_snoc, Hr, Nat.add_0_r. specialize (H3 key). destruct (minted_of key e); lia.
Qed.

Lemma mail_later h e l : Forall (mail_ok h) l -> Forall (mail_ok (h ++ [e])) l.
Proof. intros H. eapply Forall_impl; [exact H|]. intros m. apply alias_mail_mono. by exists [e]. Qed.

(** One event, whatever tables change with it. *)
Lemma alias_logged_ok s s' e :
  a_history s' = a_history s ++ [e] -> (a_drawn s <= a_drawn s')%nat -> a_mailed s' = a_mailed s ->
  evidence (a_history s) e -> drawn_between (a_drawn s) (a_drawn s') e ->
  map_Forall (named (a_history s')) (aliases s') ->
  map_Forall (fun _ => placed (a_history s') (aliases s')) (addresses s') -> indexes_ok (addresses s') ->
  challenges_ok (a_history s') (challenges s') -> recoveries_ok (a_history s') (recoveries s') ->
  aliases_ok s -> aliases_ok s' /\ grown s s'.
Proof.
  intros Eh Hd Em He Hb H2 H3 H4 H5 H6 V. split; [|unfold grown; rewrite Eh; by exists [e]].
  split; try done; rewrite ?Em, ?Eh; [by eapply history_snoc; [apply V|..] | by apply mail_later, V].
Qed.

(** Rows change, and nothing is told. *)
Lemma alias_unlogged_ok s s' :
  a_history s' = a_history s -> (a_drawn s <= a_drawn s')%nat -> a_mailed s' = a_mailed s ->
  map_Forall (named (a_history s)) (aliases s') ->
  map_Forall (fun _ => placed (a_history s) (aliases s')) (addresses s') -> indexes_ok (addresses s') ->
  challenges_ok (a_history s) (challenges s') -> recoveries_ok (a_history s) (recoveries s') ->
  aliases_ok s -> aliases_ok s' /\ grown s s'.
Proof.
  intros Eh Hd Em H2 H3 H4 H5 H6 V. split; [|unfold grown; by rewrite Eh].
  split; rewrite ?Eh, ?Em; try done; [|apply V]. destruct (ao_history _ V) as [A1 A2 A3 A4 A5]. split; try done.
  eapply Forall_impl; [exact A2 | intros x; by apply drawn_mono].
Qed.

(** ** Statements *)

Lemma gateway_ok username s :
  aliases_ok s -> aliases_ok (fst (resolve_gateway username s)) /\ grown s (fst (resolve_gateway username s)).
Proof.
  intros V. unfold resolve_gateway. destruct (gateway s !! username); [by split|]. cbn [fst].
  apply alias_unlogged_ok; try apply V; simpl; try done. lia.
Qed.

Lemma standing_row r row s :
  aliases_ok s -> standing_alias r s = Some row ->
  aliases s !! al_name r = Some row /\ al_id row = al_id r /\ al_name row = al_name r.
Proof.
  intros V. unfold standing_alias. destruct (aliases s !! al_name r) as [x|] eqn:E; [|done]. simpl.
  case_bool_decide; [|done]. intros [= ->]. destruct (ao_rows _ V _ _ E) as [H1 _]. by split_and!.
Qed.

Lemma dangling_false r s : dangling (Some r) s = false -> exists row, standing_alias r s = Some row.
Proof. simpl. destruct (standing_alias r s) as [row|]; [by exists row | done]. Qed.

Lemma create_challenge_ok r body expiresAt s :
  (forall n, cb_nonce (body n) = n) -> (forall n, validateAliasName (cb_name (body n)) = None) -> aliases_ok s ->
  aliases_ok (fst (create_challenge r body expiresAt s)) /\ grown s (fst (create_challenge r body expiresAt s)).
Proof.
  intros Hn Hv V. unfold create_challenge. cbv zeta. set (nonce := a_nonce (a_drawn s)).
  destruct (challenges s !! nonce) eqn:Ec; [by split|]. destruct (dangling r s); [by split|]. cbn [fst].
  apply (alias_logged_ok s _ (Issued (body nonce) expiresAt)); try apply V; simpl; try done.
  - lia.
  - exists (a_drawn s). split; [lia | apply Hn].
  - by apply rows_later; [|apply V].
  - by apply placed_later, V.
  - destruct (ao_challenges _ V) as [H1 H2]. split.
    + intros n c. destruct (decide (n = nonce)) as [->|Hne].
      * rewrite lookup_insert_eq. intros [= <-]. simpl. split; [apply Hn | set_solver].
      * rewrite lookup_insert_ne by done. intros Hc. destruct (H1 n c Hc) as [E Hi]. split; [done | set_solver].
    + intros n. rewrite !count_snoc. simpl. rewrite Hn, Nat.add_0_r. specialize (H2 n). unfold spendable in *.
      case_bool_decide as E.
      * rewrite <- E, lookup_insert_eq. rewrite <- E, Ec in H2. simpl. lia.
      * rewrite lookup_insert_ne by done. lia.
  - by apply recoveries_later, V.
Qed.

Lemma spend_ok b signature at_ s :
  evidence (a_history s) (Spent b signature at_) -> aliases_ok s ->
  aliases_ok (fst (spend b signature at_ s)) /\ grown s (fst (spend b signature at_ s))
  /\ (snd (spend b signature at_ s) = Ok 1%nat -> signed (a_history (fst (spend b signature at_ s))) b).
Proof.
  intros He V. unfold spend. destruct (challenges s !! cb_nonce b) as [c|] eqn:Ec; [|by split_and!].
  destruct (ch_consumedAt c) eqn:Eu; [by split_and!|]. cbn [fst snd].
  match goal with |- aliases_ok ?s' /\ _ => destruct (alias_logged_ok s s' (Spent b signature at_)) as [V' M'] end; try apply V; simpl; try done.
  - by apply rows_later; [|apply V].
  - by apply placed_later, V.
  - destruct (ao_challenges _ V) as [H1 H2]. split.
    + intros n x. destruct (decide (n = cb_nonce b)) as [->|Hne].
      * rewrite lookup_insert_eq. intros [= <-]. destruct (H1 _ _ Ec). split; [done | set_solver].
      * rewrite lookup_insert_ne by done. intros Hx. destruct (H1 n x Hx) as [E Hi]. split; [done | set_solver].
    + intros n. rewrite !count_snoc. simpl. rewrite Nat.add_0_r. specialize (H2 n). unfold spendable in *.
      case_bool_decide as E.
      * rewrite <- E, lookup_insert_eq. rewrite <- E, Ec, Eu in H2. simpl in H2 |- *. lia.
      * rewrite lookup_insert_ne by done. lia.
  - by apply recoveries_later, V.
  - split_and!; [done..|]. intros _. exists signature, at_. simpl. set_solver.
Qed.

(** ** Addresses *)

Lemma indexes_sub m m' : m' ⊆ m -> indexes_ok m -> indexes_ok m'.
Proof. intros Hs H k k' a a' Ha Ha'. apply H; by eapply lookup_weaken. Qed.

Lemma bool_decide_sym {A} `{EqDecision A} (x y : A) : bool_decide (x = y) = bool_decide (y = x).
Proof. by apply bool_decide_ext. Qed.
Lemma same_address_sym a b : same_address a b = same_address b a.
Proof.
  unfold same_address. by rewrite (bool_decide_sym (aa_aliasId a)), (bool_decide_sym (aa_chain a)),
    (bool_decide_sym (aa_network a)), (bool_decide_sym (aa_address a)).
Qed.
Lemma both_primary_sym a b : both_primary a b = both_primary b a.
Proof.
  unfold both_primary. by rewrite (andb_comm (aa_isPrimary a)), (bool_decide_sym (aa_aliasId a)), (bool_decide_sym (aa_network a)).
Qed.

Lemma address_violated_None key a s :
  address_violated key a s = None ->
  forall k x, addresses s !! k = Some x -> k <> key -> same_address a x || both_primary a x = false.
Proof.
  unfold address_violated. destruct (existsb (same_address a) _) eqn:E1; [done|]. destruct (existsb (both_primary a) _) eqn:E2; [done|].
  intros _ k x Hx Hk. assert (Hin : x ∈ (List.filter (fun x => negb (bool_decide (fst x = key))) (address_rows s)).*2).
  { apply list_elem_of_fmap. exists (k, x). split; [done|]. apply list_elem_of_In, List.filter_In. split.
    - apply list_elem_of_In. by apply elem_of_map_to_list.
    - simpl. by rewrite bool_decide_eq_false_2. }
  rewrite existsb_false_forall in E1, E2. by rewrite (E1 x Hin), (E2 x Hin).
Qed.

(** A row the check let through. *)
Lemma indexes_insert key a s : address_violated key a s = None -> indexes_ok (addresses s) -> indexes_ok (<[key := a]> (addresses s)).
Proof.
  intros Hn H k k' x x'. assert (Hv := address_violated_None _ _ _ Hn).
  destruct (decide (k = key)) as [->|Hk], (decide (k' = key)) as [->|Hk'];
    rewrite ?lookup_insert_eq, ?(lookup_insert_ne _ key) by done; try done.
  - intros [= <-] Hx'. by rewrite (Hv _ _ Hx' Hk').
  - intros Hx [= <-]. by rewrite same_address_sym, both_primary_sym, (Hv _ _ Hx Hk).
  - apply H.
Qed.

Lemma demote_placed h al aliasId chain network s :
  map_Forall (fun _ => placed h al) (addresses s) -> map_Forall (fun _ => placed h al) (addresses (demote aliasId chain network s)).
Proof.
  intros H k a. simpl. rewrite lookup_fmap. destruct (addresses s !! k) as [x|] eqn:E; [|done]. simpl. intros [= <-].
  specialize (H k x E). by destruct (bool_decide (aa_aliasId x = aliasId) && _ && _).
Qed.

Lemma demote_indexes aliasId chain network s : indexes_ok (addresses s) -> indexes_ok (addresses (demote aliasId chain network s)).
Proof.
  intros H k k' a a'. simpl. rewrite !lookup_fmap.
  destruct (addresses s !! k) as [x|] eqn:E; [|done]. destruct (addresses s !! k') as [x'|] eqn:E'; [|done]. simpl.
  intros [= <-] [= <-] Hs. apply (H k k' x x' E E').
  repeat match type of Hs with context [if ?c then set_primary false ?x else ?x] => destruct c end;
    unfold same_address, both_primary in *; simpl in Hs;
    rewrite ?andb_false_r, ?orb_false_r in Hs; simpl in Hs; rewrite ?orb_false_r in Hs; by rewrite Hs.
Qed.

(** A new address goes on an alias that stands, under a fresh row. *)
Lemma create_address_Ok r b label primary s s' x :
  create_address r b label primary s = (s', Ok x) ->
  exists row, standing_alias r s = Some row
    /\ let a := mkAddress (al_id r) (cb_chain b) (cb_address b) (cb_network b) label primary (a_clock s) (a_clock s) in
       address_violated (a_cuid (a_drawn s)) a s = None /\ x = (a_cuid (a_drawn s), a)
       /\ s' = set_a_drawn (S (a_drawn s)) (set_addresses (fun m => <[a_cuid (a_drawn s) := a]> m) s).
Proof.
  unfold create_address. cbv zeta. destruct (standing_alias r s) as [row|]; [|done].
  destruct (address_violated _ _ s) eqn:E; [done|]. intros [= <- <-]. exists row. by split_and!.
Qed.

Lemma placed_insert h al (m : gmap string AliasAddress) key a :
  map_Forall (fun _ => placed h al) m -> placed h al a -> map_Forall (fun _ => placed h al) (<[key := a]> m).
Proof. intros H Ha. by apply map_Forall_insert_2. Qed.

(** The row an address is put on, beside the event that says so. *)
Lemma placing r b by_ h (al : gmap string Alias) a :
  al !! al_name r = Some r -> cb_name b = al_name r -> aa_aliasId a = al_id r -> cb_chain b = aa_chain a ->
  cb_address b = aa_address a -> cb_network b = aa_network a -> placed (h ++ [Placed (al_id r) by_ b]) al a.
Proof. intros H1 H2 H3 H4 H5 H6. exists r, by_, b. split_and!; try done. set_solver. Qed.

(** Fewer addresses, or one promoted, of those that were there. *)
Lemma addresses_changed_ok f s :
  map_Forall (fun _ => placed (a_history s) (aliases s)) (f (addresses s)) -> indexes_ok (f (addresses s)) ->
  aliases_ok s -> aliases_ok (set_addresses f s) /\ grown s (set_addresses f s).
Proof. intros H1 H2 V. apply alias_unlogged_ok; try apply V; done. Qed.

(** An address that the check let through, on an alias that stands. *)
Lemma place_ok r row by_ b key label primary at_ s :
  let a := mkAddress (al_id r) (cb_chain b) (cb_address b) (cb_network b) label primary at_ at_ in
  aliases s !! al_name r = Some row -> al_id row = al_id r -> al_name row = al_name r -> cb_name b = al_name r ->
  evidence (a_history s) (Placed (al_id r) by_ b) ->
  address_violated key a s = None -> aliases_ok s ->
  let s' := a_log (Placed (al_id r) by_ b) (set_a_drawn (S (a_drawn s)) (set_addresses (fun m => <[key := a]> m) s)) in
  aliases_ok s' /\ grown s s'.
Proof.
  intros a Hr Hid Hname Hn He Hv V. apply (alias_logged_ok s _ (Placed (al_id r) by_ b)); simpl; try done.
  - lia.
  - apply rows_later; [done | apply V].
  - apply placed_insert; [apply placed_later, V|]. rewrite <- Hid. rewrite <- Hname in Hr. apply placing; simpl; congruence.
  - apply indexes_insert; [done | apply V].
  - apply challenges_later; [done | apply V].
  - apply recoveries_later; [done | done | apply V].
Qed.

Lemma add_address_ok r by_ b label primary s :
  evidence (a_history s) (Placed (al_id r) by_ b) -> cb_name b = al_name r -> aliases_ok s ->
  aliases_ok (fst (add_address r by_ b label primary s)) /\ grown s (fst (add_address r by_ b label primary s)).
Proof.
  intros He Hn V. unfold add_address. cbv zeta. set (s1 := if primary then _ else s).
  assert (V1 : aliases_ok s1 /\ grown s s1 /\ a_history s1 = a_history s).
  { subst s1. destruct primary; [|by split_and!]. destruct (addresses_changed_ok (fun _ => addresses (demote (al_id r) (cb_chain b) (cb_network b) s)) s) as [V1 M1];
      [apply demote_placed, V | apply demote_indexes, V | done | by split_and!]. }
  destruct V1 as (V1 & M1 & E1). destruct (create_address r b label primary s1) as [s2 [x|e]] eqn:Ec; [|by split].
  apply create_address_Ok in Ec as (row & Hr & Hv & -> & ->). apply standing_row in Hr as (Hr & Hid & Hname); [|done].
  destruct (place_ok r row by_ b (a_cuid (a_drawn s1)) label primary (a_clock s1) s1 Hr Hid Hname Hn ltac:(by rewrite E1) Hv V1) as [V2 M2].
  split; [exact V2 | by etransitivity].
Qed.

Lemma demote_none aliasId chain network s :
  (forall k a, addresses s !! k = Some a -> aa_aliasId a <> aliasId) -> demote aliasId chain network s = s.
Proof.
  intros H. unfold demote, set_addresses. destruct s as [g al ad ch re ma ml hi cl dr]. simpl in *. f_equal.
  apply map_eq. intros k. rewrite lookup_fmap. destruct (ad !! k) as [a|] eqn:Ek; [|done]. simpl.
  by rewrite (bool_decide_eq_false_2 (aa_aliasId a = aliasId)) by (by eapply H).
Qed.

(** The next cuid names no alias yet. *)
Lemma next_alias_fresh s n row : aliases_ok s -> aliases s !! n = Some row -> al_id row <> a_cuid (a_drawn s).
Proof.
  intros V Hrow Eid. destruct (ao_rows _ V _ _ Hrow) as (_ & _ & c & Hc).
  assert (D := ho_drawn _ _ (ao_history _ V)). rewrite Forall_forall in D. destruct (D _ Hc) as (k & Hk & E).
  rewrite Eid in E. simpl in E. apply cuid_fresh in E. lia.
Qed.

(** The alias row of a claim, before its address. *)
Definition claimed_row (r : Alias) (s : Aliased) : Aliased :=
  a_log (Claimed (al_id r) (al_name r) (al_consumerId r) (al_email r))
    (set_a_drawn (S (a_drawn s)) (set_aliases (fun m => <[al_name r := r]> m) s)).

Lemma claimed_row_ok r s :
  al_id r = a_cuid (a_drawn s) -> aliases s !! al_name r = None ->
  evidence (a_history s) (Claimed (al_id r) (al_name r) (al_consumerId r) (al_email r)) -> aliases_ok s ->
  aliases_ok (claimed_row r s) /\ grown s (claimed_row r s).
Proof.
  intros Hid Ha He V. apply (alias_logged_ok s _ (Claimed (al_id r) (al_name r) (al_consumerId r) (al_email r))); simpl; try done; try apply V.
  - lia.
  - exists (a_drawn s). split; [lia | done].
  - intros n row. destruct (decide (n = al_name r)) as [->|Hne].
    + rewrite lookup_insert_eq. intros [= <-]. split_and!; [done| |exists (al_consumerId r); simpl; set_solver].
      rewrite holder_snoc. simpl. by rewrite bool_decide_eq_true_2.
    + rewrite lookup_insert_ne by done. intros Hrow. destruct (ao_rows _ V _ _ Hrow) as (H1 & H2 & H3). split_and!; [done| |].
      * rewrite holder_snoc. simpl. rewrite bool_decide_eq_false_2; [done|]. rewrite Hid. intros E. by apply (next_alias_fresh _ _ _ V Hrow).
      * eapply claimed_mono; [|exact H3]. by eexists.
  - intros k a Hka. destruct (ao_placed _ V _ _ Hka) as (r0 & c & b0 & H1 & H2 & H3 & H4).
    exists r0, c, b0. split_and!; try apply H4; try done; [|set_solver].
    rewrite lookup_insert_ne; [done|]. intros E. rewrite <- E in H1. congruence.
  - by apply challenges_later, V.
  - by apply recoveries_later, V.
Qed.

Lemma create_alias_ok consumer name displayName email b label s :
  evidence (a_history s) (Claimed (a_cuid (a_drawn s)) name consumer email) -> signed (a_history s) b -> cb_name b = name ->
  aliases_ok s ->
  aliases_ok (fst (create_alias consumer name displayName email b label s))
  /\ grown s (fst (create_alias consumer name displayName email b label s)).
Proof.
  intros He Hb Hn V. unfold create_alias. cbv zeta.
  set (r := mkAlias _ _ _ _ _ _ _ _). destruct (aliases s !! name) eqn:Ea; [by split|].
  destruct (claimed_row_ok r s) as [V1 M1]; try done.
  change (a_log _ (set_a_drawn _ _)) with (claimed_row r s). set (s1 := claimed_row r s) in *.
  destruct (create_address r b label true s1) as [s2 [x|e]] eqn:Ec; [|by split].
  assert (Ead : add_address r consumer b label true s1 = (a_log (Placed (al_id r) consumer b) s2, Ok x)).
  { unfold add_address. cbv zeta. rewrite demote_none; [by rewrite Ec|]. intros k a Hk Eal.
    destruct (ao_placed _ V _ _ Hk) as (r0 & c & b0 & H1 & H2 & _). apply (next_alias_fresh _ _ _ V H1). by rewrite H2. }
  destruct (add_address_ok r consumer b label true s1) as [V2 M2]; try done.
  - split_and!; [by eapply signed_mono; [exact M1|]| |].
    + exists (a_history s1). split; [done|]. simpl. rewrite holder_snoc. simpl. by rewrite bool_decide_eq_true_2.
    + exists email, consumer. simpl. rewrite Hn. set_solver.
  - rewrite Ead in V2, M2. cbn [fst] in *. split; [done | by etransitivity].
Qed.

Lemma delete_alias_ok r by_ s :
  held_once (a_history s) (al_id r) by_ -> aliases_ok s ->
  aliases_ok (fst (delete_alias r by_ s)) /\ grown s (fst (delete_alias r by_ s)).
Proof.
  intros Hh V. unfold delete_alias. destruct (standing_alias r s) as [row|] eqn:Es; [|by split]. cbn [fst].
  apply standing_row in Es as (Hr & Hid & Hname); [|done].
  assert (Hother : forall n x, aliases s !! n = Some x -> n <> al_name r -> al_id x <> al_id r).
  { intros n x Hx Hne Eid. destruct (ao_rows _ V _ _ Hx) as (_ & _ & c1 & H1), (ao_rows _ V _ _ Hr) as (_ & _ & c2 & H2).
    rewrite Eid in H1. rewrite Hid in H2. by destruct (ho_claims _ _ (ao_history _ V) _ _ _ _ _ _ _ H1 H2) as (-> & _). }
  apply (alias_logged_ok s _ (Released (al_id r) by_)); simpl; try done; try lia.
  - intros n x Hx. apply lookup_delete_Some in Hx as [Hne Hx]. destruct (ao_rows _ V _ _ Hx) as (H1 & H2 & H3). split_and!; [done| |].
    + rewrite holder_snoc. simpl. rewrite bool_decide_eq_false_2; [done|]. intros E. by apply (Hother n x).
    + eapply claimed_mono; [|exact H3]. by eexists.
  - intros k a [Ha Hne]%map_lookup_filter_Some. destruct (ao_placed _ V _ _ Ha) as (r0 & c & b & H1 & H2 & H3 & H4).
    exists r0, c, b. split_and!; try apply H4; try done; [|set_solver].
    rewrite lookup_delete_ne; [done|]. intros E. rewrite <- E, Hr in H1. injection H1 as <-. apply Hne. simpl. congruence.
  - eapply indexes_sub; [apply map_filter_subseteq | apply V].
  - apply challenges_later; [done|]. destruct (ao_challenges _ V) as [H1 H2]. split.
    + intros n c [Hc _]%map_lookup_filter_Some. by apply H1.
    + intros n. specialize (H2 n). unfold spendable in *. rewrite map_lookup_filter.
      destruct (challenges s !! n) as [c|]; simpl in *; [|lia]. case_guard; simpl; [done | lia].
  - apply recoveries_later; [done..|]. destruct (ao_recoveries _ V) as [H1 H2 H3]. split.
    + intros k v [Hv _]%map_lookup_filter_Some. by apply H1.
    + intros k. specialize (H2 k). unfold attempts_left in *. rewrite map_lookup_filter.
      destruct (recoveries s !! k) as [v|] eqn:Ev; simpl in *; [|lia]. destruct (H1 _ _ Ev). case_guard; simpl; [done | lia].
    + intros k. specialize (H3 k). unfold redeemable in *. rewrite map_lookup_filter.
      destruct (recoveries s !! k) as [v|]; simpl in *; [|lia]. case_guard; simpl; [done | lia].
Qed.

Lemma head_sorted_in {A} (R : A -> A -> Prop) `{forall x y, Decision (R x y)} (q : A -> bool) (l : list A) x :
  head (merge_sort R (List.filter q l)) = Some x -> x ∈ l /\ q x = true.
Proof.
  intros H1. assert (Hin : x ∈ merge_sort R (List.filter q l)).
  { destruct (merge_sort R _); [done|]. injection H1 as <-. by left. }
  rewrite (merge_sort_Permutation R) in Hin. apply list_elem_of_In, List.filter_In in Hin as [Hin Hq].
  split; [by apply list_elem_of_In | done].
Qed.

Lemma remove_address_ok r key row s :
  aliases_ok s -> aliases_ok (fst (remove_address r key row s)) /\ grown s (fst (remove_address r key row s)).
Proof.
  intros V. unfold remove_address. destruct (addresses s !! key); [|by split]. cbv zeta. set (s1 := set_addresses (delete key) s).
  assert (P : map_Forall (fun _ => placed (a_history s) (aliases s)) (delete key (addresses s)) /\ indexes_ok (delete key (addresses s))).
  { split; [apply map_Forall_delete, V | eapply indexes_sub; [apply delete_subseteq | apply V]]. }
  assert (V1 : aliases_ok s1 /\ grown s s1) by (apply addresses_changed_ok; [apply P|apply P|done]).
  destruct (negb (aa_isPrimary row)); [exact V1|].
  destruct (head _) as [[k x]|] eqn:Eh; [|exact V1]. apply head_sorted_in in Eh as [Hin%elem_of_map_to_list _].
  unfold write_address. destruct (address_violated k (set_primary true x) s1) eqn:Ev; [by split|]. cbn [fst].
  destruct V1 as [V1 M1]. destruct (addresses_changed_ok (fun m => <[k := set_primary true x]> m) s1) as [V2 M2].
  - apply placed_insert; [apply V1|]. apply (ao_placed _ V1 _ _ Hin).
  - apply (indexes_insert _ _ s1); [done | apply V1].
  - done.
  - split; [done | by etransitivity].
Qed.

(** ** Recoveries *)

Lemma recoveries_changed_ok f s :
  recoveries_ok (a_history s) (f (recoveries s)) -> aliases_ok s -> aliases_ok (set_recoveries f s) /\ grown s (set_recoveries f s).
Proof. intros H V. apply alias_unlogged_ok; try apply V; done. Qed.

(** Rows burned or gone leave what is promised about them. *)
Lemma recoveries_less h m m' :
  (forall k v', m' !! k = Some v' -> exists v, m !! k = Some v /\ ar_aliasId v' = ar_aliasId v /\ ar_email v' = ar_email v
     /\ ar_attempts v' = ar_attempts v /\ (ar_consumedAt v' = None -> ar_consumedAt v = None)) ->
  recoveries_ok h m -> recoveries_ok h m'.
Proof.
  intros Hm [H1 H2 H3]. split.
  - intros k v' (v & Hv & -> & -> & -> & _)%Hm. by apply H1.
  - intros k. specialize (H2 k). unfold attempts_left in *. destruct (m' !! k) as [v'|] eqn:E'.
    + destruct (Hm _ _ E') as (v & Hv & _ & _ & Ea & _). rewrite Hv in H2. by rewrite Ea.
    + destruct (m !! k) as [v|] eqn:Ev; [|lia]. destruct (H1 _ _ Ev). lia.
  - intros k. specialize (H3 k). unfold redeemable in *. destruct (m' !! k) as [v'|] eqn:E'; simpl in *.
    + destruct (Hm _ _ E') as (v & Hv & _ & _ & _ & Hc). rewrite Hv in H3.
      destruct (ar_consumedAt v'); simpl; [lia|]. by rewrite (Hc eq_refl) in H3.
    + lia.
Qed.

Lemma burn_ok id s : aliases_ok s -> aliases_ok (fst (burn_recoveries id s)) /\ grown s (fst (burn_recoveries id s)).
Proof.
  intros V. cbn [fst burn_recoveries]. apply recoveries_changed_ok; [|done]. eapply recoveries_less; [|apply V].
  intros k v'. rewrite lookup_fmap. destruct (recoveries s !! k) as [v|]; [|done]. simpl. intros [= <-]. exists v.
  by destruct (_ && _).
Qed.

Lemma create_recovery_ok r expiresAt s :
  claimed_as (a_history s) (al_id r) (al_name r) (al_email r) -> aliases_ok s ->
  aliases_ok (fst (create_recovery r expiresAt s)) /\ grown s (fst (create_recovery r expiresAt s))
  /\ forall token, snd (create_recovery r expiresAt s) = Ok token ->
       mail_ok (a_history (fst (create_recovery r expiresAt s))) (al_email r, token).
Proof.
  intros Hn V. unfold create_recovery. cbv zeta. set (token := a_token (a_drawn s)).
  destruct (recoveries s !! sha256Hex token) eqn:Er; [by split_and!|]. destruct (dangling _ s); [by split_and!|]. cbn [fst snd].
  match goal with |- aliases_ok ?s' /\ _ =>
    destruct (alias_logged_ok s s' (Minted (al_id r) (al_email r) token expiresAt)) as [V' M'] end; try apply V; simpl; try done.
  - lia.
  - by exists (al_name r).
  - exists (a_drawn s). split; [lia | done].
  - apply rows_later; [done | apply V].
  - by apply placed_later, V.
  - by apply challenges_later, V.
  - destruct (ao_recoveries _ V) as [H1 H2 H3]. split.
    + intros k v. destruct (decide (k = sha256Hex token)) as [->|Hne].
      * rewrite lookup_insert_eq. intros [= <-]. simpl. split; [done|]. exists token, expiresAt. split; [set_solver | done].
      * rewrite lookup_insert_ne by done. intros Hv. destruct (H1 _ _ Hv) as (Ha & t & x & Hm & E).
        split; [done|]. exists t, x. split; [set_solver | done].
    + intros k. rewrite !count_snoc. simpl. specialize (H2 k). unfold attempts_left, ALIAS_RECOVERY_MAX_ATTEMPTS in *.
      case_bool_decide as E; [rewrite <- E, lookup_insert_eq; rewrite <- E, Er in H2; simpl; lia|].
      rewrite lookup_insert_ne by done. lia.
    + intros k. rewrite !count_snoc. simpl. specialize (H3 k). unfold redeemable in *.
      case_bool_decide as E; [rewrite <- E, lookup_insert_eq; rewrite <- E, Er in H3; simpl; lia|].
      rewrite lookup_insert_ne by done. lia.
  - split_and!; [done..|]. intros t [= <-]. exists (al_id r), expiresAt. simpl. set_solver.
Qed.

Lemma count_attempt_ok key now s :
  aliases_ok s -> aliases_ok (fst (count_attempt key now s)) /\ grown s (fst (count_attempt key now s))
  /\ (snd (count_attempt key now s) = Ok 1%nat -> Counted key ∈ a_history (fst (count_attempt key now s))).
Proof.
  intros V. unfold count_attempt. destruct (recoveries s !! key) as [v|] eqn:Er; [|by split_and!].
  destruct (bool_decide (ar_consumedAt v = None) && _ && _) eqn:Ec; [|by split_and!]. cbn [fst snd].
  apply andb_true_iff in Ec as [_ Ec%Z.ltb_lt].
  match goal with |- aliases_ok ?s' /\ _ => destruct (alias_logged_ok s s' (Counted key)) as [V' M'] end; try apply V; simpl; try done.
  - apply rows_later; [done | apply V].
  - by apply placed_later, V.
  - by apply challenges_later, V.
  - destruct (ao_recoveries _ V) as [H1 H2 H3]. split.
    + intros k x. destruct (decide (k = key)) as [->|Hne].
      * rewrite lookup_insert_eq. intros [= <-]. destruct (H1 _ _ Er) as (_ & t & y & Hm & E). simpl.
        split; [lia|]. exists t, y. split; [set_solver | done].
      * rewrite lookup_insert_ne by done. intros Hv. destruct (H1 _ _ Hv) as (Ha & t & y & Hm & E).
        split; [done|]. exists t, y. split; [set_solver | done].
    + intros k. rewrite !count_snoc. simpl. rewrite Nat.add_0_r. specialize (H2 k). unfold attempts_left in *.
      case_bool_decide as E; [rewrite <- E, lookup_insert_eq; rewrite <- E, Er in H2; simpl; lia|].
      rewrite lookup_insert_ne by done. lia.
    + intros k. rewrite !count_snoc. simpl. rewrite !Nat.add_0_r. specialize (H3 k). unfold redeemable in *.
      destruct (decide (k = key)) as [->|Hne]; [rewrite lookup_insert_eq; by rewrite Er in H3 | by rewrite lookup_insert_ne].
  - split_and!; [done..|]. intros _. simpl. set_solver.
Qed.

(** The alias moves: its addresses are gone, its token is spent. *)
Definition handed_row (r row : Alias) (consumer token : string) (v : AliasRecovery) (s : Aliased) : Aliased :=
  a_log (Recovered (al_id r) consumer token)
    (set_aliases (fun m => <[al_name r := set_consumer consumer row]> m)
       (set_addresses (filter (fun x => aa_aliasId (snd x) <> al_id r))
          (set_recoveries (fun m => <[sha256Hex token := set_burned (a_clock s) v]> m) s))).

Lemma handed_row_ok r row consumer token v s :
  aliases s !! al_name r = Some row -> al_id row = al_id r -> al_name row = al_name r ->
  recoveries s !! sha256Hex token = Some v -> ar_consumedAt v = None ->
  evidence (a_history s) (Recovered (al_id r) consumer token) -> aliases_ok s ->
  aliases_ok (handed_row r row consumer token v s) /\ grown s (handed_row r row consumer token v s).
Proof.
  intros Hr Hid Hname Hv Hc He V. apply (alias_logged_ok s _ (Recovered (al_id r) consumer token)); simpl; try done.
  - intros n x. destruct (decide (n = al_name r)) as [->|Hne].
    + rewrite lookup_insert_eq. intros [= <-]. destruct (ao_rows _ V _ _ Hr) as (_ & _ & H3). split_and!; [done| |].
      * rewrite holder_snoc. simpl. by rewrite bool_decide_eq_true_2.
      * eapply claimed_mono; [|exact H3]. by eexists.
    + rewrite lookup_insert_ne by done. intros Hx. destruct (ao_rows _ V _ _ Hx) as (H1 & H2 & H3). split_and!; [done| |].
      * rewrite holder_snoc. simpl. rewrite bool_decide_eq_false_2; [done|]. intros E.
        destruct (ao_rows _ V _ _ Hr) as (_ & _ & c1 & K1). destruct H3 as [c2 K2]. rewrite Hid, E in K1.
        destruct (ho_claims _ _ (ao_history _ V) _ _ _ _ _ _ _ K1 K2) as (En & _). by apply Hne.
      * eapply claimed_mono; [|exact H3]. by eexists.
  - intros k a [Ha Hne]%map_lookup_filter_Some. destruct (ao_placed _ V _ _ Ha) as (r0 & c & b0 & H1 & H2 & H3 & H4).
    exists r0, c, b0. split_and!; try apply H4; try done; [|set_solver].
    rewrite lookup_insert_ne; [done|]. intros E. rewrite <- E, Hr in H1. injection H1 as <-. apply Hne. simpl. congruence.
  - eapply indexes_sub; [apply map_filter_subseteq | apply V].
  - apply challenges_later; [done | apply V].
  - destruct (ao_recoveries _ V) as [H1 H2 H3]. split.
    + intros k x. destruct (decide (k = sha256Hex token)) as [->|Hne].
      * rewrite lookup_insert_eq. intros [= <-]. destruct (H1 _ _ Hv) as (Ha & t & y & Hm & E). split; [done|].
        exists t, y. split; [set_solver | done].
      * rewrite lookup_insert_ne by done. intros Hx. destruct (H1 _ _ Hx) as (Ha & t & y & Hm & E). split; [done|].
        exists t, y. split; [set_solver | done].
    + intros k. rewrite !count_snoc. simpl. rewrite !Nat.add_0_r. specialize (H2 k). unfold attempts_left in *.
      destruct (decide (k = sha256Hex token)) as [->|Hne]; [rewrite lookup_insert_eq; by rewrite Hv in H2 | by rewrite lookup_insert_ne].
    + intros k. rewrite !count_snoc. simpl. rewrite !Nat.add_0_r. specialize (H3 k). unfold redeemable in *.
      case_bool_decide as E.
      * rewrite <- E, lookup_insert_eq. rewrite <- E, Hv, Hc in H3. simpl in *. lia.
      * rewrite lookup_insert_ne by done. lia.
Qed.

Lemma hand_over_ok r consumer token b s :
  evidence (a_history s) (Recovered (al_id r) consumer token) -> signed (a_history s) b -> cb_name b = al_name r ->
  aliases_ok s -> aliases_ok (fst (hand_over r consumer token b s)) /\ grown s (fst (hand_over r consumer token b s)).
Proof.
  intros He Hb Hn V. unfold hand_over. cbv zeta. destruct (recoveries s !! _) as [v|] eqn:Ev; [|by split].
  case_bool_decide as Hc; [|by split]. match goal with |- context [create_address r b None true ?x] => set (s1 := x) end.
  destruct (create_address r b None true s1) as [s2 [x|e]] eqn:Ec; [|by split].
  destruct (standing_alias r s) as [row|] eqn:Es; [|by split]. cbn [fst].
  apply create_address_Ok in Ec as (row' & Hr' & Hv & -> & ->). apply standing_row in Es as (Hr & Hid & Hname); [|done].
  destruct (handed_row_ok r row consumer token v s) as [V1 M1]; try done.
  destruct (place_ok r (set_consumer consumer row) consumer b (a_cuid (a_drawn s1)) None true (a_clock s1) (handed_row r row consumer token v s)
              ltac:(simpl; by rewrite lookup_insert_eq) Hid Hname Hn) as [V2 M2]; try done.
  - split_and!; [by eapply signed_mono| |].
    + exists (a_history (handed_row r row consumer token v s)). split; [done|]. simpl. rewrite holder_snoc. simpl. by rewrite bool_decide_eq_true_2.
    + destruct (ao_rows _ V _ _ Hr) as (_ & _ & H3). exists (al_email row). rewrite Hn, <- Hid. by eapply claimed_mono.
  - split; [exact V2 | by etransitivity].
Qed.

Lemma mail_sent_ok to_ token s :
  mail_ok (a_history s) (to_, token) -> aliases_ok s ->
  aliases_ok (log_a_mail to_ token s) /\ grown s (log_a_mail to_ token s).
Proof.
  intros Hm V. split; [|by unfold grown]. destruct V. split; try done. simpl. apply Forall_app. split; [done|]. by constructor.
Qed.

(** ** Methods *)

#[local] Abbreviation ok := (safe aliases_ok grown).
#[local] Abbreviation yields := (ensures aliases_ok grown).

Lemma alias_mono_ok {A} (p : naming A) P s0 : yields p P s0 -> ok p s0.
Proof. apply (ensures_safe aliases_ok grown). Qed.

(** A statement, and what is known after it. *)
Lemma stmt_yields {A B} (f : svc Aliased A) (P : A -> Aliased -> Prop) (k : A -> naming B) Q s0 :
  (forall s, grown s0 s -> aliases_ok s ->
     aliases_ok (fst (f s)) /\ grown s (fst (f s)) /\ forall a, snd (f s) = Ok a -> P a (fst (f s))) ->
  (forall a s, grown s0 s -> P a s -> yields (k a) Q s) -> yields (x ← stmt f; k x) Q s0.
Proof.
  intros Hf Hk. apply (ensures_stmt_bind aliases_ok grown). intros s M V. destruct (Hf s M V) as (H1 & H2 & H3).
  split_and!; [done..|]. intros a Ha. apply Hk; [by etransitivity | by apply H3].
Qed.

(** A statement of which nothing more is wanted. *)
Lemma stmt_ok {A B} (f : svc Aliased A) (k : A -> naming B) Q s0 :
  (forall s, grown s0 s -> aliases_ok s -> aliases_ok (fst (f s)) /\ grown s (fst (f s))) ->
  (forall a s, grown s0 s -> yields (k a) Q s) -> yields (x ← stmt f; k x) Q s0.
Proof.
  intros Hf Hk. apply (stmt_yields f (fun _ _ => True)); [|by intros a s M _; apply Hk].
  intros s M V. destruct (Hf s M V). by split_and!.
Qed.

Lemma alias_step_yields {A B} (m : naming A) (P : A -> Aliased -> Prop) (k : A -> naming B) Q s0 :
  yields m P s0 -> (forall a s, grown s0 s -> P a s -> yields (k a) Q s) -> yields (x ← m; k x) Q s0.
Proof. apply (ensures_bind aliases_ok grown). Qed.

Lemma alias_read_yields {A B} (f : Aliased -> A) (k : A -> naming B) Q s0 :
  (forall s, grown s0 s -> aliases_ok s -> yields (k (f s)) Q s) -> yields (x ← asking f; k x) Q s0.
Proof. apply (ensures_asking_bind aliases_ok grown). Qed.

Lemma alias_refuse_yields {B} c e (k : unit -> naming B) Q s0 :
  (c = false -> yields (k tt) Q s0) -> yields (x ← refuse_when c e; k x) Q s0.
Proof. destruct c; [done | by intros H; apply H]. Qed.

(** What a read of an alias row shows. *)
Definition known (h : list AliasEvent) (r : Alias) : Prop :=
  held_once h (al_id r) (al_consumerId r) /\ claimed_as h (al_id r) (al_name r) (al_email r).

Lemma known_mono h h' r : h `prefix_of` h' -> known h r -> known h' r.
Proof. intros Hp [H1 H2]. split; [by eapply held_mono | by eapply claimed_mono]. Qed.

Lemma row_known s n r : aliases_ok s -> aliases s !! n = Some r -> al_name r = n /\ known (a_history s) r.
Proof.
  intros V Hr. destruct (ao_rows _ V _ _ Hr) as (H1 & H2 & H3). split; [done|]. split; [|by rewrite H1].
  by exists (a_history s).
Qed.

Lemma find_alias_yields {B} n (k : option Alias -> naming B) Q s0 :
  (forall r s, grown s0 s -> aliases_ok s ->
     match r with Some r => al_name r = n /\ known (a_history s) r | None => True end -> yields (k r) Q s) ->
  yields (x ← find_alias n; k x) Q s0.
Proof.
  intros H. apply alias_read_yields. intros s M V. apply H; [done|done|].
  destruct (aliases s !! n) eqn:E; [by apply row_known | done].
Qed.

Lemma requireOwned_yields username name s0 :
  yields (requireOwned username name) (fun r s => known (a_history s) r) s0.
Proof.
  unfold requireOwned. apply stmt_ok; [intros; by apply gateway_ok|]. intros local s1 _. apply find_alias_yields.
  intros [r|] s2 _ _ Hr; [|done]. destruct (negb _); [done|]. apply Hr.
Qed.

Lemma createChallenge_ok dto s0 : ok (createChallenge dto) s0.
Proof.
  apply (alias_mono_ok _ (fun _ _ => True)). unfold createChallenge. cbv zeta.
  destruct (validateAliasName _) eqn:Ev; [done|].
  eapply alias_step_yields with (P := fun _ _ => True).
  { case_bool_decide; [done|]. apply (safe_ensures aliases_ok grown), (safe_asking aliases_ok grown). }
  intros alias s1 _ _. apply alias_refuse_yields. intros _. apply alias_read_yields. intros s2 _ _.
  destruct (addressOf _ _) as [chain address]. apply stmt_ok; [|done].
  intros s _ V. by apply create_challenge_ok.
Qed.

(** A challenge comes back spent, signed and the one asked for. *)
Lemma spendChallenge_yields b signature s0 :
  yields (spendChallenge b signature) (fun c s => signed (a_history s) b /\ issued_for c b = true) s0.
Proof.
  unfold spendChallenge. apply alias_read_yields. intros s1 M1 V1. apply alias_read_yields. intros s2 M2 _.
  destruct (challenges s1 !! cb_nonce b) as [c|] eqn:Ec; [|done].
  destruct (negb (issued_for c b) || _ || _) eqn:Em; [done|].
  destruct (negb (verifyAliasSignature b signature)) eqn:Ev; [done|].
  apply orb_false_iff in Em as [Em Ex%Z.leb_gt]. apply orb_false_iff in Em as [Ei%negb_false_iff _].
  apply negb_false_iff in Ev. destruct (co_issued _ _ (ao_challenges _ V1) _ _ Ec) as [En Hi].
  assert (Eb : ch_body c = b).
  { unfold issued_for in Ei. bool_facts. destruct (ch_body c), b. simpl in *. by subst. }
  apply (stmt_yields _ (fun n s => n = 1%nat -> signed (a_history s) b)).
  - intros s M V. destruct (spend_ok b signature (a_clock s2) s) as (H1 & H2 & H3); [|done|].
    + split; [done|]. exists (ch_expiresAt c). split; [|done]. rewrite <- Eb.
      eapply prefix_in; [|exact Hi]. etransitivity; [exact M2 | exact M].
    + split_and!; [done..|]. intros n Hn ->. by apply H3.
  - intros n s M Hn. apply alias_refuse_yields. intros Hc%negb_false_iff%Nat.eqb_eq. split; [by apply Hn | done].
Qed.

Lemma alias_claim_ok username dto s0 : ok (claim username dto) s0.
Proof.
  apply (alias_mono_ok _ (fun _ _ => True)). unfold claim. apply stmt_ok; [intros; by apply gateway_ok|]. intros local s1 _. cbv zeta.
  destruct (validateAliasName _) eqn:Ev; [done|]. apply alias_read_yields. intros s2 _ _. apply alias_refuse_yields. intros _.
  eapply alias_step_yields with (P := fun _ _ => True).
  { unfold challengeCoordinates. apply alias_read_yields. intros s _ _. by destruct (challenges s !! _). }
  intros [[chain address] network] s3 _ _. eapply alias_step_yields; [apply spendChallenge_yields|].
  intros c s4 M4 [Hs Hc]. unfold issued_for in Hc. cbn [cb_purpose cb_name cb_chain cb_address cb_network] in Hc.
  repeat match type of Hc with _ && _ = true => apply andb_true_iff in Hc as [Hc ?] end. bool_facts.
  match goal with Hs : signed _ ?b |- _ => set (b0 := b) in * end.
  apply (ensures_catching aliases_ok grown); [|intros e s5 _; by destruct (isUniqueViolation e)].
  apply stmt_ok; [|done]. intros s M V. set (b1 := mkBody _ _ _ _ _ _).
  assert (Eb : b1 = b0) by (unfold b1, b0; congruence). rewrite Eb.
  assert (Hs' : signed (a_history s) b0) by (by eapply signed_mono; [exact M|]).
  apply create_alias_ok; try done. split; [done|]. by exists b0.
Qed.

Lemma addAddress_ok username name dto s0 : ok (addAddress username name dto) s0.
Proof.
  apply (alias_mono_ok _ (fun _ _ => True)). unfold addAddress. eapply alias_step_yields; [apply requireOwned_yields|].
  intros alias s1 M1 Hk. apply alias_read_yields. intros s2 M2 _. apply alias_refuse_yields. intros _.
  destruct (addressOf _ _) as [chain address]. cbv zeta. eapply alias_step_yields; [apply spendChallenge_yields|].
  intros c s3 M3 [Hs _]. apply alias_read_yields. intros s4 M4 _.
  apply (ensures_catching aliases_ok grown); [|intros e s5 _; by destruct (isUniqueViolation e)].
  apply stmt_ok; [|done]. intros s M V.
  assert (Hk' : known (a_history s) alias) by (eapply known_mono; [|exact Hk]; by do 3 (etransitivity; [eassumption|])).
  assert (M34 : grown s3 s) by (by etransitivity).
  destruct Hk' as [Hh Hc]. apply add_address_ok; try done. split_and!; [by eapply signed_mono | done | by exists (al_email alias)].
Qed.

Lemma removeAddress_ok username name addressId s0 : ok (removeAddress username name addressId) s0.
Proof.
  apply (alias_mono_ok _ (fun _ _ => True)). unfold removeAddress. eapply alias_step_yields; [apply requireOwned_yields|].
  intros alias s1 _ _. apply alias_read_yields. intros s2 _ _. destruct (match addresses s2 !! addressId with Some _ => _ | None => _ end) as [row|]; [|done].
  apply alias_read_yields. intros s3 _ _. apply alias_refuse_yields. intros _. apply stmt_ok; [|done]. intros s _ V. by apply remove_address_ok.
Qed.

Lemma alias_resolve_ok name network chain s0 : ok (resolve name network chain) s0.
Proof.
  apply (alias_mono_ok _ (fun _ _ => True)). unfold resolve. cbv zeta. apply alias_read_yields. intros s _ _.
  destruct (aliases s !! _ ≫= _) as [[r l]|]; [|done]. by destruct (negb _).
Qed.

Lemma findByAddress_ok address network chain s0 : ok (findByAddress address network chain) s0.
Proof.
  apply (alias_mono_ok _ (fun _ _ => True)). unfold findByAddress.
  destruct (match chain with Some _ => _ | None => _ end); [|done]. by apply alias_read_yields.
Qed.

Lemma availability_ok name s0 : ok (availability name) s0.
Proof.
  apply (alias_mono_ok _ (fun _ _ => True)). unfold availability. cbv zeta. destruct (validateAliasName _); [done|]. by apply alias_read_yields.
Qed.

Lemma listOwned_ok username t k s0 : ok (listOwned username t k) s0.
Proof.
  apply (alias_mono_ok _ (fun _ _ => True)). unfold listOwned. apply stmt_ok; [intros; by apply gateway_ok|].
  intros local s _. apply alias_read_yields. intros s1 _ _. by apply alias_read_yields.
Qed.

Lemma alias_release_ok username name s0 : ok (release username name) s0.
Proof.
  apply (alias_mono_ok _ (fun _ _ => True)). unfold release. eapply alias_step_yields; [apply requireOwned_yields|].
  intros alias s1 _ [Hh _]. apply stmt_ok; [|done]. intros s M V. apply delete_alias_ok; [|done]. by eapply held_mono.
Qed.

(** A token to send is one minted for the mailbox it goes to. *)
Lemma issueRecovery_yields name email s0 :
  yields (issueRecovery name email)
    (fun i s => match i with Some i => mail_ok (a_history s) (ir_email i, ir_token i) | None => True end) s0.
Proof.
  unfold issueRecovery. cbv zeta. apply find_alias_yields. intros [r|] s1 M1 _ Hr; [|done]. destruct Hr as [_ Hk].
  destruct (_ || _); [done|]. apply alias_read_yields. intros s2 M2 _. apply alias_read_yields. intros s3 M3 _.
  destruct (existsb _ _); [done|]. apply stmt_ok; [intros s _ V; by apply burn_ok|]. intros u s4 M4.
  apply alias_read_yields. intros s5 M5 _.
  apply (stmt_yields _ (fun t s => mail_ok (a_history s) (al_email r, t))); [|done]. intros s M V.
  apply create_recovery_ok; [|done]. destruct Hk as [_ Hc].
  assert (Ms : grown s1 s) by (by do 4 (etransitivity; [eassumption|])). by eapply claimed_mono.
Qed.

Lemma startRecovery_ok name email s0 : ok (startRecovery name email) s0.
Proof.
  apply (alias_mono_ok _ (fun _ _ => True)). unfold startRecovery. destruct (negb am_configured); [done|].
  eapply alias_step_yields; [apply issueRecovery_yields|]. intros [i|] s1 _ Hm; [|done]. unfold mailRecoveryToken.
  apply (safe_ensures aliases_ok grown), (safe_stmt aliases_ok grown). intros s M V. cbn [fst].
  destruct (a_mail s (ir_email i)); [|by split]. apply mail_sent_ok; [|done]. by eapply alias_mail_mono.
Qed.

Lemma completeRecovery_ok username name dto s0 : ok (completeRecovery username name dto) s0.
Proof.
  apply (alias_mono_ok _ (fun _ _ => True)). unfold completeRecovery. apply stmt_ok; [intros; by apply gateway_ok|].
  intros local s1 M1. apply find_alias_yields. intros [alias|] s2 M2 _ Hr; [|done]. destruct Hr as [_ [_ Hk]].
  destruct (negb _); [done|]. cbv zeta. unfold hashToken. apply alias_read_yields. intros s3 M3 V3. apply alias_read_yields. intros s4 M4 _.
  apply alias_refuse_yields. intros Hl%negb_false_iff. destruct (recoveries s3 !! _) as [v|] eqn:Ev; [|done].
  do 3 (apply andb_true_iff in Hl as [Hl _]). apply bool_decide_eq_true in Hl.
  destruct (ro_minted _ _ (ao_recoveries _ V3) _ _ Ev) as (_ & t & x & Hm & Ht). rewrite Hl in Hm.
  apply alias_read_yields. intros s5 M5 _.
  apply (stmt_yields _ (fun n s => n = 1%nat -> Counted (sha256Hex (cr_token dto)) ∈ a_history s)).
  { intros s _ V. destruct (count_attempt_ok (sha256Hex (cr_token dto)) (a_clock s5) s V) as (H1 & H2 & H3). split_and!; [done..|].
    intros n Hn ->. by apply H3. }
  intros n s6 M6 Hn. apply alias_refuse_yields. intros Hc%negb_false_iff%Nat.eqb_eq. specialize (Hn Hc).
  destruct (addressOf _ _) as [chain address]. eapply alias_step_yields; [apply spendChallenge_yields|].
  intros c s7 M7 [Hs _]. apply stmt_ok; [|done]. intros s M V.
  assert (M36 : grown s3 s) by (by do 4 (etransitivity; [eassumption|])).
  assert (M26 : grown s2 s) by (by etransitivity). assert (M67 : grown s6 s) by (by etransitivity).
  assert (Hs' := signed_mono _ _ _ M Hs). apply hand_over_ok; try done. simpl. split_and!.
  - exact (prefix_in _ _ _ M67 Hn).
  - exists (ar_email v), t, x. split; [exact (prefix_in _ _ _ M36 Hm) | done].
  - eexists _, (al_email alias). split_and!; [exact Hs' | done | exact (claimed_mono _ _ _ _ _ M26 Hk)].
Qed.

(** ** The sweeper *)

Lemma drain_ok fuel examined deleted find_ remove_ s0 :
  (forall n s, ok (find_ n) s) -> (forall ids s, ok (remove_ ids) s) -> ok (drain_from fuel examined deleted find_ remove_) s0.
Proof.
  intros Hf Hr. revert examined deleted s0. induction fuel as [|fuel IH]; intros examined deleted s0; [done|].
  cbn [drain_from]. destruct (negb _); [done|]. cbv zeta.
  apply (safe_bind aliases_ok grown); [apply Hf|]. intros ids s _. destruct (length ids =? 0)%nat; [done|].
  apply (safe_bind aliases_ok grown); [apply Hr|]. intros n s' _. destruct (_ <? _)%nat; [done | apply IH].
Qed.

Lemma alias_sweep_ok s0 : ok alias_sweep s0.
Proof.
  apply (alias_mono_ok _ (fun _ _ => True)). unfold alias_sweep. apply alias_read_yields. intros s1 _ _. cbv zeta.
  eapply alias_step_yields with (P := fun _ _ => True).
  { apply (safe_ensures aliases_ok grown), drain_ok; [intros; apply (safe_asking aliases_ok grown)|].
    intros ids s. apply (safe_stmt aliases_ok grown). intros t _ V. cbn [fst]. apply alias_unlogged_ok; try apply V; try done.
    destruct (ao_challenges _ V) as [H1 H2]. split.
    - intros n c [Hc _]%map_lookup_filter_Some. by apply H1.
    - intros n. specialize (H2 n). unfold spendable, without in *. simpl. rewrite map_lookup_filter.
      destruct (challenges t !! n) as [c|]; simpl in *; [|lia]. case_guard; simpl; [done | lia]. }
  intros n s2 _ _. eapply alias_step_yields with (P := fun _ _ => True); [|done].
  apply (safe_ensures aliases_ok grown), drain_ok; [intros; apply (safe_asking aliases_ok grown)|].
  intros ids s. apply (safe_stmt aliases_ok grown). intros t _ V. cbn [fst]. apply recoveries_changed_ok; [|done].
  eapply recoveries_less; [|apply V]. intros k v [Hv _]%map_lookup_filter_Some. by exists v.
Qed.
End safety.
