(* ===== verification/AliasPool.v ===== *)
(** The aliases' routes and sweeper in any interleaving, over any number of replicas:
    whom a payer reaches by a name ([payers_reach_signers]), how a name changes
    hands ([alias_changes_hands]), and an address the database refuses
    ([second_chain_refused]). *)

From S2P Require Import Prelude Text MerchantFee Intents ChainAddress Programs Tokens Signatures NodeSample WalletCore AliasCore AliasStore Aliases AliasSafety.
From stdpp Require Import base tactics list option gmap strings sorting.
From Stdlib Require Import ZArith Lia Ascii.

Open Scope Z_scope.

(** ** Requests *)

Inductive alias_request `{NODE : Node} `{CURVES : Curves} `{ENV : AliasEnv} : naming unit -> Prop :=
  | aq_challenge dto : alias_request (discard (createChallenge dto))
  | aq_claim username dto : alias_request (discard (claim username dto))
  | aq_add username name dto : alias_request (discard (addAddress username name dto))
  | aq_remove username name id : alias_request (discard (removeAddress username name id))
  | aq_resolve name network chain : alias_request (discard (resolve name network chain))
  | aq_by_address address network chain : alias_request (discard (findByAddress address network chain))
  | aq_availability name : alias_request (discard (availability name))
  | aq_list username t k : alias_request (discard (listOwned username t k))
  | aq_release username name : alias_request (discard (release username name))
  | aq_start name email : alias_request (startRecovery name email)
  | aq_complete username name dto : alias_request (discard (completeRecovery username name dto))
  | aq_sweep : alias_request alias_sweep.

(** What else moves: other services' consumers and cuids, an operator's hold on an
    alias, inboxes and the clock. *)
Definition alias_world (s s' : Aliased) : Prop :=
  gateway s ⊆ gateway s'
  /\ (forall n, set_alias_status A_ACTIVE <$> aliases s' !! n = set_alias_status A_ACTIVE <$> aliases s !! n)
  /\ addresses s' = addresses s /\ challenges s' = challenges s /\ recoveries s' = recoveries s
  /\ a_mailed s' = a_mailed s /\ a_history s' = a_history s /\ (a_drawn s <= a_drawn s')%nat.

(** From empty tables. *)
Definition alias_start (s : Aliased) : Prop :=
  aliases s = ∅ /\ addresses s = ∅ /\ challenges s = ∅ /\ recoveries s = ∅ /\ a_mailed s = [] /\ a_history s = [].

Definition alias_execution `{NODE : Node} `{CURVES : Curves} `{ENV : AliasEnv} (l : list (naming unit)) (s : Aliased) : Prop :=
  exists s0, alias_start s0 /\ star (pool_step alias_request alias_world) ([], s0) (l, s).

Section pool.
Context `{NODE : Node} `{CURVES : Curves} `{ENV : AliasEnv} {FRESH : FreshDraws}.

Lemma alias_request_ok p s0 : alias_request p -> safe aliases_ok grown p s0.
Proof.
  intros H. destruct H; try apply (safe_discard aliases_ok grown).
  - by apply createChallenge_ok.
  - by apply alias_claim_ok.
  - by apply addAddress_ok.
  - by apply removeAddress_ok.
  - by apply alias_resolve_ok.
  - by apply findByAddress_ok.
  - by apply availability_ok.
  - by apply listOwned_ok.
  - by apply alias_release_ok.
  - by apply startRecovery_ok.
  - by apply completeRecovery_ok.
  - by apply alias_sweep_ok.
Qed.

(** An operator's hold changes no alias otherwise. *)
Lemma held_row (al al' : gmap string Alias) n r' :
  set_alias_status A_ACTIVE <$> al' !! n = set_alias_status A_ACTIVE <$> al !! n -> al' !! n = Some r' ->
  exists r, al !! n = Some r /\ al_id r' = al_id r /\ al_name r' = al_name r /\ al_consumerId r' = al_consumerId r
    /\ al_email r' = al_email r.
Proof.
  intros H Hr. rewrite Hr in H. simpl in H. destruct (al !! n) as [r|]; [|done]. simpl in H. injection H as ? ? ? ? ? ? ?.
  exists r. by split_and!.
Qed.

Lemma alias_world_ok s s' : alias_world s s' -> aliases_ok s -> aliases_ok s' /\ grown s s'.
Proof.
  intros (_ & Ha & E1 & E2 & E3 & E4 & E5 & Hd) V. apply alias_unlogged_ok; rewrite ?E1, ?E2, ?E3; try done; try apply V.
  - intros n r' Hr'. destruct (held_row _ _ _ _ (Ha n) Hr') as (r & Hr & Ei & En & Ec & Ee).
    destruct (ao_rows _ V _ _ Hr) as (H1 & H2 & H3). unfold named. rewrite Ei, En, Ec, Ee. by split_and!.
  - intros k a Hk. destruct (ao_placed _ V _ _ Hk) as (r & c & b & H1 & H2 & H3 & H4).
    specialize (Ha (al_name r)). rewrite H1 in Ha. destruct (aliases s' !! al_name r) as [r'|] eqn:Er'; [|done].
    simpl in Ha. injection Ha as Ei ? En ? ? ? ?. exists r', c, b. rewrite Ei, En. by split_and!; try apply H4.
Qed.

Lemma alias_run l s : alias_execution l s -> aliases_ok s.
Proof.
  intros (s0 & (E1 & E2 & E3 & E4 & E5 & E6) & Hrun).
  destruct (pool_safe aliases_ok grown alias_request alias_world [] s0 l s) as (_ & V & _); try done.
  - intros p s1 Hp _. by apply alias_request_ok.
  - intros s1 s2 Hw V. by apply alias_world_ok.
  - split; rewrite ?E1, ?E2, ?E3, ?E4, ?E5, ?E6; try done.
    + split; try done; [constructor | by intros ? ? ? ? ? ? ? ?%not_elem_of_nil | by intros ? ; unfold count_of; simpl; lia..].
Qed.

(** [b] was issued here, signed by its address before it expired, and spent. *)
Definition proven (h : list AliasEvent) (b : AliasChallengeBody) : Prop :=
  exists signature at_ expiresAt, Issued b expiresAt ∈ h /\ Spent b signature at_ ∈ h /\ at_ < expiresAt
    /\ verifyAliasSignature b signature = true.

Lemma well_logged_in h e : well_logged h -> e ∈ h -> exists h1, h1 `prefix_of` h /\ evidence h1 e.
Proof.
  intros Hl Hin. apply list_elem_of_split in Hin as (h1 & h2 & ->). exists h1. split; [by eexists|].
  by eapply alias_well_logged_at.
Qed.

Lemma alias_well_logged_prefix h h' : well_logged (h ++ h') -> well_logged h.
Proof.
  induction h' as [|e h' IH] using rev_ind; [by rewrite app_nil_r|]. rewrite app_assoc. intros H. apply IH.
  inversion H as [E|h0 e0 H0 He E]; [by destruct h, h'|]. apply app_inj_tail in E as [<- _]. done.
Qed.

Lemma signed_proven h b : well_logged h -> signed h b -> proven h b.
Proof.
  intros Hl (x & t & Hin). destruct (well_logged_in _ _ Hl Hin) as (h1 & Hp & Hv & e & Hi & Ht).
  exists x, t, e. split_and!; try done. by eapply prefix_in.
Qed.

Lemma count_in {E} (p : E -> bool) h e : e ∈ h -> p e = true -> (1 <= count_of p h)%nat.
Proof.
  intros Hin Hp. apply list_elem_of_split in Hin as (h1 & h2 & ->). unfold count_of. rewrite List.filter_app. simpl.
  rewrite Hp, length_app. simpl. lia.
Qed.

Lemma spent_once h m cs b : history_ok h m -> challenges_ok h cs -> signed h b -> count_of (spent_of (cb_nonce b)) h = 1%nat.
Proof.
  intros Hh Hc (x & t & Hin). assert (H1 := co_spent _ _ Hc (cb_nonce b)). assert (H2 := ho_issues _ _ Hh (cb_nonce b)).
  assert (H3 : (1 <= count_of (spent_of (cb_nonce b)) h)%nat); [|lia].
  eapply count_in; [exact Hin|]. simpl. by apply bool_decide_eq_true.
Qed.

(** ** Whom a name reaches *)

(** [p] is on the alias for the challenge [b], put there for someone who held the
    alias by then. *)
Definition answers_for (h : list AliasEvent) (p : PublicAddress) (b : AliasChallengeBody) : Prop :=
  cb_chain b = pa_chain p /\ cb_address b = pa_address p /\ cb_network b = pa_network p
  /\ proven h b /\ count_of (spent_of (cb_nonce b)) h = 1%nat
  /\ exists h1 aliasId by_ h2, h = h1 ++ Placed aliasId by_ b :: h2 /\ held_once h1 aliasId by_.

Lemma addresses_of_in x id s : x ∈ addresses_of id s -> addresses s !! fst x = Some (snd x) /\ aa_aliasId (snd x) = id.
Proof.
  unfold addresses_of. rewrite (merge_sort_Permutation payer_first).
  intros [Hin Hq]%list_elem_of_In%List.filter_In. apply list_elem_of_In in Hin. destruct x as [k a].
  apply elem_of_map_to_list in Hin. split; [done|]. by apply bool_decide_eq_true in Hq.
Qed.

Lemma resolved name network chain s v :
  snd (run (resolve name network chain) s) = Ok v ->
  exists r, aliases s !! normalizeAliasName name = Some r /\ al_status r = A_ACTIVE
    /\ rn_name v = al_name r /\ rn_primaryAddress v = pa_address <$> List.find pa_isPrimary (rn_addresses v)
    /\ forall p, p ∈ rn_addresses v -> pa_chain p = default stellar chain
         /\ exists a, p = public_address (pa_id p, a) /\ addresses s !! pa_id p = Some a /\ aa_aliasId a = al_id r.
Proof.
  unfold resolve. cbv zeta. rewrite run_bind, run_asking. destruct (aliases s !! _) as [r|] eqn:Er; [|done]. cbn [mbind option_bind].
  destruct (bool_decide (al_status r = A_ACTIVE)) eqn:Es; [|done]. apply bool_decide_eq_true in Es. cbn [negb run snd]. intros [= <-].
  exists r. split_and!; [done..|]. cbn [rn_addresses]. intros p Hp%list_elem_of_In%in_map_iff.
  destruct Hp as ([k a] & <- & Hin). apply List.filter_In in Hin as [Hin Hq]. apply list_elem_of_In, addresses_of_in in Hin as [Hk Ha].
  cbn [fst snd] in *. apply andb_true_iff in Hq as [Hq _]. apply bool_decide_eq_true in Hq. split; [done|]. by exists a.
Qed.

(** C31: A name reaches only keys that signed for it. In any interleaving of the
    routes, the sweeper, operators' holds and the clock: what [resolve] answers for a
    name is of a claimable name, and each address was put there for someone who held
    the alias then or had held it before, with a challenge of this service for exactly
    that name, chain, address and network, which that address signed before it expired
    and which was spent once; the primary address is one of them and on its network
    the only one. A request of a holder still under way when the alias is recovered is
    not refused, so the address may be a former holder's. *)
Theorem payers_reach_signers l s name network chain v :
  alias_execution l s -> snd (run (resolve name network chain) s) = Ok v ->
  validateAliasName (rn_name v) = None /\ rn_name v = normalizeAliasName name
  /\ (forall p, p ∈ rn_addresses v -> pa_chain p = default stellar chain
       /\ exists b, cb_name b = rn_name v /\ answers_for (a_history s) p b)
  /\ match rn_primaryAddress v with
     | Some address => exists p, p ∈ rn_addresses v /\ pa_isPrimary p = true /\ pa_address p = address
     | None => forall p, p ∈ rn_addresses v -> pa_isPrimary p = false
     end
  /\ forall p q, p ∈ rn_addresses v -> q ∈ rn_addresses v -> pa_isPrimary p = true -> pa_isPrimary q = true ->
       pa_network p = pa_network q -> p = q.
Proof.
  intros Hrun Hv. assert (V := alias_run l s Hrun). apply resolved in Hv as (r & Hr & _ & Hname & Hprim & Hall).
  destruct (ao_rows _ V _ _ Hr) as (Hn & _ & c & Hc). assert (Hl := ho_logged _ _ (ao_history _ V)). rewrite Hname. split_and!.
  - destruct (well_logged_in _ _ Hl Hc) as (h1 & _ & Hvalid & _). by rewrite Hn.
  - done.
  - intros p Hp. destruct (Hall p Hp) as (Hch & a & Ep & Ha & Hid). split; [done|].
    destruct (ao_placed _ V _ _ Ha) as (r0 & by_ & b & H1 & H2 & H3 & H4 & H5 & H6 & H7).
    destruct (well_logged_in _ _ Hl H3) as (h1 & Hp1 & Hs & Hh & email & d & Hd).
    assert (Hb : signed (a_history s) b) by (by eapply signed_mono).
    assert (Hd' := prefix_in _ _ _ Hp1 Hd). rewrite H2, Hid in Hd'.
    destruct (ho_claims _ _ (ao_history _ V) _ _ _ _ _ _ _ Hc Hd') as (En & _). exists b. split; [by rewrite <- En, Hn|].
    rewrite Ep. unfold answers_for. simpl. split_and!; try done; [by apply signed_proven|by eapply spent_once; [apply V..|]|].
    apply list_elem_of_split in H3 as (g1 & g2 & Eg). rewrite Eg in Hl. apply alias_well_logged_at in Hl as (_ & Hheld & _).
    by exists g1, (al_id r0), by_, g2.
  - rewrite Hprim. destruct (List.find pa_isPrimary (rn_addresses v)) as [p|] eqn:Ef; simpl.
    + apply List.find_some in Ef as [Hin%list_elem_of_In Hp]. by exists p.
    + intros p Hp. apply (List.find_none _ _ Ef). by apply list_elem_of_In.
  - intros p q Hp Hq Pp Pq Hnet. destruct (Hall p Hp) as (_ & a & Ep & Ha & Hid), (Hall q Hq) as (_ & a' & Eq & Ha' & Hid').
    assert (E : pa_id p = pa_id q).
    { eapply (ao_indexes _ V); [exact Ha | exact Ha'|]. apply orb_true_iff. right. unfold both_primary.
      rewrite Ep in Pp, Hnet. rewrite Eq in Pq, Hnet. simpl in *. rewrite Pp, Pq, Hnet, Hid, Hid'. simpl.
      by rewrite !bool_decide_eq_true_2. }
    rewrite E in Ha, Ep. rewrite Ha' in Ha. injection Ha as ->. by rewrite Ep, Eq.
Qed.

(** ** How a name changes hands *)

(** The evidence of the event that moves alias [id] in [h], where [all] is all that
    happened. *)
Definition moved (all h : list AliasEvent) (id : string) (e : AliasEvent) : Prop :=
  match e with
  | Claimed i name _ _ => i = id /\ exists b, proven h b /\ cb_purpose b = CLAIM /\ cb_name b = name
  | Recovered i _ token =>
      i = id /\ exists name email minted expiresAt b,
        claimed_as h id name email /\ Minted id email minted expiresAt ∈ h /\ sha256Hex minted = sha256Hex token
        /\ proven h b /\ cb_purpose b = RECOVER /\ cb_name b = name
        /\ (1 <= count_of (counted_of (sha256Hex token)) all <= 5)%nat
        /\ count_of (recovered_of (sha256Hex token)) all = 1%nat
  | Released i by_ => i = id /\ held_once h id by_
  | _ => False
  end.

Lemma recovery_counts h m d key : recoveries_ok h m -> history_ok h d ->
  (count_of (counted_of key) h <= 5)%nat /\ (count_of (recovered_of key) h <= 1)%nat.
Proof.
  intros [H1 H2 H3] H. specialize (H2 key). specialize (H3 key). assert (Hm := ho_mints _ _ H key).
  unfold attempts_left, ALIAS_RECOVERY_MAX_ATTEMPTS in H2. split; [|lia].
  destruct (m !! key) as [v|] eqn:E; [|lia]. destruct (H1 _ _ E) as [Ha _]. unfold ALIAS_RECOVERY_MAX_ATTEMPTS in Ha. lia.
Qed.

(** C32: A name changes hands in three ways only. In any interleaving: an alias is
    held by whoever its history says; that changes when a claim makes it, with the
    claimant's signed CLAIM challenge for that name, when someone who holds it, or held
    it before, releases it (a release under way when the alias is recovered is not
    refused), or when a recovery moves it, with a token minted for this alias and the
    mailbox its claim named and with the new address's signed RECOVER challenge for
    the name. A token moves an alias once, is tried five times at most and is mailed
    to that mailbox only. *)
Theorem alias_changes_hands l s :
  alias_execution l s ->
  (forall n r, aliases s !! n = Some r -> holder (al_id r) (a_history s) = Some (al_consumerId r))
  /\ (forall id h1 e h2, a_history s = h1 ++ e :: h2 -> holder id (h1 ++ [e]) <> holder id h1 -> moved (a_history s) h1 id e)
  /\ (forall mailbox token, (mailbox, token) ∈ a_mailed s ->
        exists id name expiresAt, Minted id mailbox token expiresAt ∈ a_history s /\ claimed_as (a_history s) id name mailbox).
Proof.
  intros Hrun. assert (V := alias_run l s Hrun). assert (Hl := ho_logged _ _ (ao_history _ V)). split_and!.
  - intros n r Hr. apply (ao_rows _ V _ _ Hr).
  - intros id h1 e h2 E Hne. rewrite E in Hl. assert (He := alias_well_logged_at _ _ _ Hl).
    assert (Hl1 : well_logged h1) by (by eapply alias_well_logged_prefix).
    assert (Hid : forall i c, holding id (holder id h1) e = (if bool_decide (i = id) then c else holder id h1) -> i = id).
    { intros i c Eh. rewrite holder_snoc, Eh in Hne. by case_bool_decide. }
    rewrite holder_snoc in Hne. destruct e as [| |i n c m|  | | |i c t|i c]; simpl in *; try done; split; try (by eapply Hid).
    + destruct He as (_ & b & Hb & H1 & H2). exists b. split_and!; [by apply signed_proven | done..].
    + specialize (Hid _ _ eq_refl). subst i. destruct He as (Hc & (email & mt & x & Hm & Ht) & b & email' & Hb & H1 & Hcl).
      destruct (well_logged_in _ _ Hl1 Hm) as (h0 & Hp & name & Hn). assert (Hn' := claimed_mono _ _ _ _ _ Hp Hn).
      exists name, email, mt, x, b. split_and!; try done; [by apply signed_proven| | | | ].
      * destruct Hn' as [c1 K1], Hcl as [c2 K2].
        assert (P : h1 `prefix_of` a_history s) by (rewrite E; by eexists).
        by destruct (ho_claims _ _ (ao_history _ V) _ _ _ _ _ _ _ (prefix_in _ _ _ P K1) (prefix_in _ _ _ P K2)) as (-> & _).
      * apply (count_in _ _ (Counted (sha256Hex t))); [rewrite E; set_solver | simpl; by apply bool_decide_eq_true].
      * apply (recovery_counts _ _ _ _ (ao_recoveries _ V) (ao_history _ V)).
      * destruct (recovery_counts _ _ _ (sha256Hex t) (ao_recoveries _ V) (ao_history _ V)) as [_ Hr].
        assert (H3 : (1 <= count_of (recovered_of (sha256Hex t)) (a_history s))%nat); [|lia].
        eapply (count_in _ _ (Recovered id c t)); [rewrite E; set_solver | simpl; by apply bool_decide_eq_true].
    + specialize (Hid _ _ eq_refl). by subst i.
  - intros mailbox token Hm. assert (Hmail := ao_mail _ V). rewrite Forall_forall in Hmail.
    destruct (Hmail _ Hm) as (id & x & Hi). destruct (well_logged_in _ _ Hl Hi) as (h1 & Hp & name & Hn).
    exists id, name, x. split; [done | by eapply claimed_mono].
Qed.
End pool.

(** ** An address the database refuses *)

Section refused.
Context `{NODE : Node} `{CURVES : Curves} `{ENV : AliasEnv}.

Definition body_to_add (r : Alias) (dto : AddAliasAddressDto) : AliasChallengeBody :=
  let '(chain, address) := addressOf (ad_chain dto) (ad_address dto) in
  mkBody ADD_ADDRESS (al_name r) chain address (ad_network dto) (ad_nonce dto).

(** Everything [addAddress] asks of a caller: the alias is theirs and has room, the
    challenge is for this address, live and signed; and the next cuid is new. *)
Record may_add (s : Aliased) (username name : string) (dto : AddAliasAddressDto) (r : Alias) (c : AliasChallenge) : Prop := {
  ma_owner : gateway s !! username = Some (al_consumerId r);
  ma_alias : aliases s !! normalizeAliasName name = Some r;
  ma_name : al_name r = normalizeAliasName name;
  ma_room : (length (List.filter (of_alias r) (address_rows s)) < ALIAS_MAX_ADDRESSES)%nat;
  ma_challenge : challenges s !! ad_nonce dto = Some c;
  ma_body : ch_body c = body_to_add r dto;
  ma_unspent : ch_consumedAt c = None;
  ma_live : a_clock s < ch_expiresAt c;
  ma_signed : verifyAliasSignature (body_to_add r dto) (ad_signature dto) = true;
  ma_cuid : addresses s !! a_cuid (a_drawn s) = None
}.

(** The challenge is spent, and that is all so far. *)
Definition spent_for (b : AliasChallengeBody) (signature : string) (c : AliasChallenge) (s : Aliased) : Aliased :=
  a_log (Spent b signature (a_clock s)) (set_challenges (fun m => <[cb_nonce b := set_consumed (a_clock s) c]> m) s).

Lemma issued_for_same c b : ch_body c = b -> issued_for c b = true.
Proof. intros <-. unfold issued_for. by rewrite !bool_decide_eq_true_2. Qed.

Lemma spendChallenge_run b signature c s :
  challenges s !! cb_nonce b = Some c -> ch_body c = b -> ch_consumedAt c = None -> a_clock s < ch_expiresAt c ->
  verifyAliasSignature b signature = true ->
  run (spendChallenge b signature) s = (spent_for b signature c s, Ok c).
Proof.
  intros Hc Hb Hu Hl Hv. unfold spendChallenge. rewrite run_bind, run_asking, run_bind, run_asking, Hc.
  rewrite (issued_for_same c b Hb), Hu, Hv. replace (ch_expiresAt c <=? a_clock s) with false by lia.
  rewrite bool_decide_eq_true_2 by done. cbn [negb orb].
  rewrite run_bind, run_stmt. unfold spend. by rewrite Hc, Hu.
Qed.

Lemma requireOwned_run username name r s :
  gateway s !! username = Some (al_consumerId r) -> aliases s !! normalizeAliasName name = Some r ->
  run (requireOwned username name) s = (s, Ok r).
Proof.
  intros Hg Ha. unfold requireOwned. rewrite run_bind, run_stmt. unfold resolve_gateway. rewrite Hg.
  unfold find_alias. rewrite run_bind, run_asking, Ha. by rewrite bool_decide_eq_true_2.
Qed.

(** A first address on its chain, beside another chain's default of the network. *)
Lemma add_address_clash r by_ b label s k a :
  (forall k a, addresses s !! k = Some a -> on_network (al_id r) (cb_chain b) (cb_network b) (k, a) = false) ->
  addresses s !! k = Some a -> aa_aliasId a = al_id r -> aa_network a = cb_network b -> aa_isPrimary a = true ->
  addresses s !! a_cuid (a_drawn s) = None -> aliases s !! al_name r = Some r ->
  exists n, add_address r by_ b label true s = (s, Throw (UniqueViolation n)).
Proof.
  intros Hnone Ha Hid Hnet Hp Hfresh Hr. unfold add_address. cbv zeta.
  assert (Hd : demote (al_id r) (cb_chain b) (cb_network b) s = s).
  { unfold demote, set_addresses. destruct s as [g al ad ch re ma ml hi cl dr]. simpl in *. f_equal. apply map_eq. intros i.
    rewrite lookup_fmap. destruct (ad !! i) as [x|] eqn:Ei; [|done]. simpl. specialize (Hnone i x Ei). unfold on_network in Hnone.
    simpl in Hnone. by rewrite Hnone. }
  rewrite Hd. unfold create_address. cbv zeta. unfold standing_alias. rewrite Hr. simpl mbind. rewrite bool_decide_eq_true_2 by done.
  destruct (address_violated _ _ s) as [n|] eqn:Ev; [by exists n|].
  assert (H := address_violated_None _ _ _ Ev k a Ha). rewrite orb_false_iff in H.
  destruct H as [_ H]; [intros ->; congruence|]. unfold both_primary in H. simpl in H.
  by rewrite Hp, Hid, Hnet, !bool_decide_eq_true_2 in H.
Qed.

(** C39: A second chain on a network an alias already uses is always refused. The
    partial unique index of the first migration knows no chain, so adding the first
    address on a chain, which becomes the default of its network, collides with the
    default of another chain of the same network name: with everything the route
    asks in place, [addAddress] answers the conflict of an address that is already
    there, adds nothing, and the challenge is spent. *)
Theorem second_chain_refused s username name dto r c k a :
  may_add s username name dto r c ->
  (forall k a, addresses s !! k = Some a ->
     on_network (al_id r) (cb_chain (body_to_add r dto)) (ad_network dto) (k, a) = false) ->
  addresses s !! k = Some a -> aa_aliasId a = al_id r -> aa_network a = ad_network dto -> aa_isPrimary a = true ->
  snd (run (addAddress username name dto) s) = Throw (conflict AliasAddressConflict)
  /\ addresses (fst (run (addAddress username name dto) s)) = addresses s
  /\ challenges (fst (run (addAddress username name dto) s)) !! ad_nonce dto = Some (set_consumed (a_clock s) c).
Proof.
  intros [H1 H2 H3 H4 H5 H6 H7 H8 H9 H10] Hnone Ha Hid Hnet Hp. set (b := body_to_add r dto) in *.
  assert (Hb : cb_nonce b = ad_nonce dto /\ cb_network b = ad_network dto) by (unfold b, body_to_add; by destruct (addressOf _ _)).
  destruct Hb as [Hb1 Hb2].
  unfold addAddress. rewrite run_bind, (requireOwned_run _ _ r) by done. unfold count_addresses. rewrite run_bind, run_asking.
  replace (ALIAS_MAX_ADDRESSES <=? _)%nat with false by (symmetry; by apply Nat.leb_gt). cbn [refuse_when].
  rewrite run_bind. cbn [run]. unfold b, body_to_add in *. destruct (addressOf _ _) as [chain address].
  set (b0 := mkBody _ _ _ _ _ _) in *.
  rewrite run_bind, (spendChallenge_run b0 (ad_signature dto) c) by done. set (s1 := spent_for b0 _ c s).
  rewrite run_bind, run_asking.
  assert (Hz : length (List.filter (on_network (al_id r) chain (ad_network dto)) (address_rows s1)) = 0%nat).
  { apply length_zero_iff_nil. destruct (List.filter (on_network _ _ _) _) as [|[k0 a0] rest] eqn:Ef; [done|].
    assert (Hin : In (k0, a0) (List.filter (on_network (al_id r) chain (ad_network dto)) (address_rows s1))) by (rewrite Ef; by left).
    apply List.filter_In in Hin as [Hin%list_elem_of_In%elem_of_map_to_list Hq]. assert (Hq' := Hnone _ _ Hin). simpl in Hq'. by rewrite Hq' in Hq. }
  rewrite Hz. cbn [Nat.eqb orb]. rewrite run_catching, run_bind, run_stmt.
  destruct (add_address_clash r (al_consumerId r) b0 (ad_label dto) s1 k a) as [n Hn]; try done.
  { unfold s1. simpl. by rewrite H3. }
  rewrite Hn. cbn. by rewrite lookup_insert_eq.
Qed.
End refused.

(** ** A handle claimed, and recovered by its mailbox *)

#[local] Existing Instance sample_node.

(** A signature is the beginning of its key's name and what it signs. *)
Definition sample_sign (key message : string) : string := slice_to 64 (key +:+ message +:+ zeros 64)%string.

#[local] Instance alias_curves : Curves := {|
  rawPublicKey s := if String.prefix "G" s then Some s else None;
  ed25519_verify key message sig := bool_decide (sig = sample_sign key message);
  from_base64 s := s;
  keccak_256 s := s;
  hasHighS _ := None;
  recoverPublicKey _ _ _ := None
|}.

Definition numbered (c : string) (n : nat) : string := (c +:+ nat_toString (Z.of_nat n))%string.

#[local] Instance alias_env : AliasEnv := {|
  am_configured := true;
  a_nonce := numbered "n";
  a_token := numbered "t";
  a_cuid := numbered "c"
|}.

Lemma numbered_inj c n m : numbered c n = numbered c m -> n = m.
Proof.
  unfold numbered. intros E. assert (E' : nat_toString (Z.of_nat n) = nat_toString (Z.of_nat m)).
  { induction c as [|x c IH]; simpl in E; [done|]. injection E as E. by apply IH. }
  apply (f_equal BigInt) in E'. rewrite !nat_toString_value in E' by lia. lia.
Qed.

#[local] Instance alias_fresh : FreshDraws.
Proof.
  split; try apply numbered_inj. intros n m E. simpl in E. injection E as E. apply (f_equal from_hex) in E.
  rewrite !hex_back in E. by apply (numbered_inj ""%string).
Qed.

Definition solana_zero : string := repeat_char 32 "1".

Definition claim_body : AliasChallengeBody := mkBody CLAIM "emanuel250" stellar "GOLD" "public" "n0".
Definition recover_body : AliasChallengeBody := mkBody RECOVER "emanuel250" stellar "GNEW" "public" "n6".
Definition solana_body : AliasChallengeBody := mkBody ADD_ADDRESS "emanuel250" solana solana_zero "public" "n4".

Definition alias_requests : list (naming unit) :=
  [discard (createChallenge (mkCreateChallenge "Emanuel250" None "GOLD" "public" None));
   discard (claim "shop" (mkClaimAlias "Emanuel250 " "Me@example.com" "n0"
     (sample_sign "GOLD" (aliasDigest (aliasChallengeMessage claim_body))) None));
   discard (createChallenge (mkCreateChallenge "emanuel250" (Some solana) solana_zero "public" (Some ADD_ADDRESS)))]%string.
Definition recovery_requests : list (naming unit) :=
  [startRecovery "emanuel250" "me@example.com";
   discard (createChallenge (mkCreateChallenge "emanuel250" None "GNEW" "public" (Some RECOVER)));
   discard (completeRecovery "heir" "emanuel250" (mkCompleteRecovery "t5" None "GNEW" "public" "n6"
     (sample_sign "GNEW" (aliasDigest (aliasChallengeMessage recover_body)))))]%string.

Definition alias_sample_start : Aliased := mkAliased ∅ ∅ ∅ ∅ ∅ (fun _ => true) [] [] 1000 0.
Definition alias_claimed : Aliased := run_all alias_requests alias_sample_start.
Definition alias_sample : Aliased := run_all (alias_requests ++ recovery_requests) alias_sample_start.

Lemma alias_sample_execution : exists l, alias_execution l alias_sample.
Proof.
  destruct (pool_run_all alias_request alias_world (alias_requests ++ recovery_requests) [] alias_sample_start) as [l Hl];
    [by repeat (apply Forall_cons; split); [apply aq_challenge|apply aq_claim|apply aq_challenge|apply aq_start|apply aq_challenge|apply aq_complete|]|].
  exists l, alias_sample_start. split; [|exact Hl]. unfold alias_start. split_and!; done.
Qed.

Definition sample_resolution : Resolution :=
  mkResolution "emanuel250" "Emanuel250" stellar
    [mkPublicAddress "c8" stellar "GNEW" "public" None true 1000] (Some "GNEW")%string.

Lemma alias_sample_resolves :
  snd (run (resolve "Emanuel250" None None) alias_sample) = Ok sample_resolution.
Proof. vm_compute. reflexivity. Qed.

Lemma payers_reach_signers_witness : exists l,
  alias_execution l alias_sample
  /\ exists b, cb_name b = "emanuel250"%string
       /\ answers_for (a_history alias_sample) (mkPublicAddress "c8" stellar "GNEW" "public" None true 1000)%string b.
Proof.
  destruct alias_sample_execution as [l Hl]. exists l. assert (Hr := alias_sample_resolves).
  revert Hl Hr. generalize alias_sample. intros s Hl Hr. split; [exact Hl|].
  destruct (payers_reach_signers l s "Emanuel250" None None sample_resolution Hl Hr) as (_ & _ & Hall & _).
  destruct (Hall (mkPublicAddress "c8" stellar "GNEW" "public" None true 1000)%string) as [_ (b & Hb & Ha)]; [by left|].
  exists b. split; [exact Hb | exact Ha].
Defined.

Lemma alias_sample_history : exists h1 h2,
  a_history alias_sample = h1 ++ Recovered "c2" "c7" "t5" :: h2
  /\ holder "c2" (h1 ++ [Recovered "c2" "c7" "t5"]) <> holder "c2" h1.
Proof.
  exists (take 9 (a_history alias_sample)), (drop 10 (a_history alias_sample)). split; vm_compute; [reflexivity|]. intros [=].
Qed.

Lemma alias_changes_hands_witness : exists l h1,
  alias_execution l alias_sample /\ moved (a_history alias_sample) h1 "c2" (Recovered "c2" "c7" "t5").
Proof.
  destruct alias_sample_execution as [l Hl]. destruct alias_sample_history as (h1 & h2 & E & Hne). exists l, h1.
  revert Hl E Hne. generalize alias_sample. intros s Hl E Hne. split; [exact Hl|].
  exact (proj1 (proj2 (alias_changes_hands l s Hl)) "c2"%string h1 (Recovered "c2" "c7" "t5") h2 E Hne).
Defined.

(** The Solana address of the same wallet, on the network of the Stellar one. *)
Definition solana_dto : AddAliasAddressDto :=
  mkAddAddress (Some solana) solana_zero "public" "n4" (sample_sign (bytes_of (repeat 0 32))
    (aliasChallengeMessage solana_body)) None None.
Definition sample_alias : Alias := mkAlias "c2" "c1" "emanuel250" "Emanuel250" "me@example.com" None A_ACTIVE 1000.
Definition solana_challenge : AliasChallenge := mkChallenge (Some "c2"%string) solana_body 301000 None.
Definition stellar_address : AliasAddress := mkAddress "c2" stellar "GOLD" "public" None true 1000 1000.

Lemma solana_may_add : may_add alias_claimed "shop" "emanuel250" solana_dto sample_alias solana_challenge.
Proof. split; vm_compute; reflexivity || lia. Qed.

Lemma alias_claimed_addresses : addresses alias_claimed = {["c3" := stellar_address]}%string.
Proof. vm_compute. reflexivity. Qed.

Lemma second_chain_refused_witness :
  snd (run (addAddress "shop" "emanuel250" solana_dto) alias_claimed) = Throw (conflict AliasAddressConflict).
Proof.
  assert (Hm := solana_may_add). assert (Ha := alias_claimed_addresses). revert Hm Ha. generalize alias_claimed. intros s Hm Ha.
  refine (proj1 (second_chain_refused s "shop" "emanuel250" solana_dto sample_alias solana_challenge "c3" stellar_address Hm _ _ eq_refl eq_refl eq_refl)).
  - intros k a. rewrite Ha. intros [<- <-]%lookup_singleton_Some. reflexivity.
  - rewrite Ha. reflexivity.
Defined.
