(* ===== verification/Rlp.v ===== *)
(** src/src/evm/rlp.ts: Recursive Length Prefix, the encoding EVM transactions are
    signed over. Bytes are lists of [Z]; [None] is a throw, always a plain Error. *)

From S2P Require Import Prelude Text Units MerchantFee Intents ChainAddress Verifier EvmVerifier SolanaVerifier Links PayLinks.
From stdpp Require Import base tactics list option strings.
From Stdlib Require Import ZArith Lia Ascii.

Open Scope Z_scope.

(** ** Bytes and hexadecimal *)

Definition is_byte (b : Z) : Prop := 0 <= b < 256.

(** [Buffer.from(hex, 'hex')]: pairs of digits, up to the first that is none. *)
Fixpoint Buffer_from_hex (s : string) : list Z :=
  match s with
  | String a (String b r) =>
      if is_hex a && is_hex b then hex_val a * 16 + hex_val b :: Buffer_from_hex r else []
  | _ => []
  end.

(** [Buffer.toString('hex')] *)
Fixpoint toString_hex (bytes : list Z) : string :=
  match bytes with
  | [] => ""
  | b :: r => String (hex_char (b / 16)) (String (hex_char (b mod 16)) (toString_hex r))
  end%string.

Definition even (n : nat) : bool := (Z.of_nat n mod 2 =? 0).

(** A non-negative integer as minimal big-endian bytes. *)
Definition bigintToBytes (v : Z) : option (list Z) :=
  if v <? 0 then None
  else if v =? 0 then Some []
  else
    let hex := toString16 v in
    let hex := if even (String.length hex) then hex else String "0" hex in
    Some (Buffer_from_hex hex).

Definition hexToBytes (hex : string) : option (list Z) :=
  let body := strip_0x hex in
  if negb (even (String.length body)) || negb (all_chars is_hex body) then None
  else Some (Buffer_from_hex body).

Definition bytesToHex (bytes : list Z) : string := ("0x" +:+ toString_hex bytes)%string.

(** [Number(n)] of a bigint at least 0: the nearest double, ties to even; [None] is
    Infinity. *)
Definition round53 (n : Z) : Z :=
  let k := Z.log2 n - 52 in
  if k <=? 0 then n
  else
    let q := n / 2 ^ k in
    let r := n mod 2 ^ k in
    if (r <? 2 ^ (k - 1)) || ((r =? 2 ^ (k - 1)) && Z.even q) then q * 2 ^ k else (q + 1) * 2 ^ k.
Definition Number_of (n : Z) : option Z := let r := round53 n in if r <? 2 ^ 1024 then Some r else None.

(** ** Items *)

#[local] Unset Elimination Schemes.
Inductive RlpItem :=
  | Bytes (b : list Z)
  | Items (l : list RlpItem).
#[local] Set Elimination Schemes.

Section item_ind.
Context (P : RlpItem -> Prop) (Hb : forall b, P (Bytes b)) (Hl : forall l, Forall P l -> P (Items l)).
Fixpoint RlpItem_ind (i : RlpItem) : P i :=
  match i with
  | Bytes b => Hb b
  | Items l => Hl l ((fix go l : Forall P l :=
                        match l with [] => Forall_nil_2 _ | x :: r => Forall_cons_2 _ _ _ (RlpItem_ind x) (go r) end) l)
  end.
End item_ind.

(** ** Encoding *)

Definition lengthPrefix (length : Z) (shortBase : Z) : list Z :=
  if length <? 56 then [shortBase + length]
  else
    let lenBytes := default [] (bigintToBytes length) in
    (shortBase + 55 + Z.of_nat (List.length lenBytes)) mod 256 :: lenBytes.

Definition len (b : list Z) : Z := Z.of_nat (length b).

Fixpoint rlpEncode (item : RlpItem) : list Z :=
  match item with
  | Bytes b =>
      match b with
      | [x] => if x <? 128 then b else lengthPrefix (len b) 128 ++ b
      | _ => lengthPrefix (len b) 128 ++ b
      end
  | Items l =>
      let body := List.concat (List.map rlpEncode l) in
      lengthPrefix (len body) 192 ++ body
  end.

(** ** Decoding *)

(** [slice]; [start] is within the input's length plus one. *)
Definition slice (bytes : list Z) (start : nat) (n : Z) : option (list Z) :=
  if len bytes <? Z.of_nat start + n then None else Some (take (Z.to_nat n) (drop start bytes)).

(** The length of a long form and where its body starts. *)
Definition longLength (bytes : list Z) (at_ : nat) (lenOfLen : Z) : option (Z * nat) :=
  lenBytes ← slice bytes (S at_) lenOfLen;
  if bool_decide (head lenBytes = Some 0) then None
  else
    n ← BigInt_text (bytesToHex lenBytes);
    l ← Number_of n;
    if l <? 56 then None else Some (l, (at_ + 1 + Z.to_nat lenOfLen)%nat).

(** Every call reads a byte or follows one that did, so twice the bytes left is
    fuel enough. [decode_items] is the loop over a list's items. *)
Fixpoint decodeAt (fuel : nat) (bytes : list Z) (at_ : nat) : option (RlpItem * nat) :=
  match fuel with
  | O => None
  | S fuel =>
      prefix ← bytes !! at_;
      if prefix <? 128 then Some (Bytes (take 1 (drop at_ bytes)), S at_)
      else if prefix <? 184 then
        let n := prefix - 128 in
        body ← slice bytes (S at_) n;
        if (n =? 1) && match body with x :: _ => x <? 128 | [] => false end then None
        else Some (Bytes body, (at_ + 1 + Z.to_nat n)%nat)
      else if prefix <? 192 then
        p ← longLength bytes at_ (prefix - 183);
        body ← slice bytes (snd p) (fst p);
        Some (Bytes body, (snd p + Z.to_nat (fst p))%nat)
      else
        p ← (if prefix <? 248 then Some (prefix - 192, S at_) else longLength bytes at_ (prefix - 247));
        if len bytes <? Z.of_nat (snd p) + fst p then None
        else
          let end_ := (snd p + Z.to_nat (fst p))%nat in
          r ← decode_items fuel bytes (snd p) end_;
          if (snd r =? end_)%nat then Some (Items (fst r), end_) else None
  end
with decode_items (fuel : nat) (bytes : list Z) (cursor end_ : nat) : option (list RlpItem * nat) :=
  match fuel with
  | O => None
  | S fuel =>
      if (end_ <=? cursor)%nat then Some ([], cursor)
      else
        x ← decodeAt fuel bytes cursor;
        r ← decode_items fuel bytes (snd x) end_;
        Some (fst x :: fst r, snd r)
  end.

Definition rlpDecode (bytes : list Z) : option RlpItem :=
  x ← decodeAt (2 * length bytes + 1) bytes 0;
  if (snd x =? length bytes)%nat then Some (fst x) else None.

(** ** Hexadecimal *)

Lemma hex_char_facts d :
  0 <= d < 16 -> is_hex (hex_char d) = true /\ hex_val (hex_char d) = d /\ is_space (hex_char d) = false.
Proof.
  intros H. assert (D : d ∈ seqZ 0 16) by (apply elem_of_seqZ; lia). clear H. revert d D.
  apply Forall_forall. vm_compute. repeat constructor.
Qed.

Lemma nibbles b : is_byte b -> 0 <= b / 16 < 16 /\ 0 <= b mod 16 < 16 /\ b / 16 * 16 + b mod 16 = b.
Proof. unfold is_byte. intros H. Z.to_euclidean_division_equations. lia. Qed.

Lemma toString_hex_all (p : ascii -> bool) bytes :
  (forall d, 0 <= d < 16 -> p (hex_char d) = true) -> Forall is_byte bytes -> all_chars p (toString_hex bytes) = true.
Proof.
  intros Hp. induction 1 as [|b r Hb _ IH]; [done|]. destruct (nibbles b Hb) as (H1 & H2 & _).
  cbn [toString_hex all_chars]. by rewrite !Hp, IH.
Qed.

Lemma toString_hex_chars bytes : Forall is_byte bytes -> all_chars is_hex (toString_hex bytes) = true.
Proof. apply toString_hex_all. intros d Hd. by apply hex_char_facts. Qed.

Lemma toString_hex_length bytes : String.length (toString_hex bytes) = (2 * length bytes)%nat.
Proof. induction bytes as [|b r IH]; [done|]. cbn [toString_hex String.length length]. lia. Qed.

Lemma bytesToHex_length bytes : String.length (bytesToHex bytes) = (2 + 2 * length bytes)%nat.
Proof. unfold bytesToHex. by rewrite str_app_length, toString_hex_length. Qed.

Lemma Buffer_from_toString bytes : Forall is_byte bytes -> Buffer_from_hex (toString_hex bytes) = bytes.
Proof.
  induction 1 as [|b r Hb _ IH]; [done|]. destruct (nibbles b Hb) as (H1 & H2 & H3).
  destruct (hex_char_facts _ H1) as (E1 & E2 & _), (hex_char_facts _ H2) as (E3 & E4 & _).
  cbn [toString_hex Buffer_from_hex]. by rewrite E1, E2, E3, E4, IH, H3.
Qed.

Lemma hex_val_range a : is_hex a = true -> 0 <= hex_val a < 16.
Proof. destruct a as [[] [] [] [] [] [] [] []]; vm_compute; intuition congruence. Qed.

Lemma Buffer_from_hex_bytes s : Forall is_byte (Buffer_from_hex s).
Proof.
  assert (forall n s, (String.length s <= n)%nat -> Forall is_byte (Buffer_from_hex s)) as H.
  { clear s. induction n as [|n IH]; intros [|a [|b r]]; simpl; intros Hn; try done; [lia|].
    destruct (is_hex a && is_hex b) eqn:E; [|done]. constructor; [|apply IH; lia].
    apply andb_true_iff in E as [Ea Eb]. unfold is_byte.
    assert (Ha := hex_val_range _ Ea). assert (Hb := hex_val_range _ Eb). lia. }
  by apply (H (String.length s)).
Qed.

Lemma even_double n : even (2 * n) = true.
Proof. unfold even. apply Z.eqb_eq. rewrite Nat2Z.inj_mul, Z.mul_comm. apply Z.mod_mul. lia. Qed.

Lemma hexToBytes_bytesToHex bytes : Forall is_byte bytes -> hexToBytes (bytesToHex bytes) = Some bytes.
Proof.
  intros H. unfold hexToBytes, bytesToHex. cbn [strip_0x String.append].
  by rewrite toString_hex_length, even_double, toString_hex_chars, Buffer_from_toString by done.
Qed.

Lemma radix_toString_hex acc bytes :
  Forall is_byte bytes -> radix_acc 16 acc (toString_hex bytes) = fold_left (fun n d => n * 256 + d) bytes acc.
Proof.
  intros H. revert acc. induction H as [|b r Hb _ IH]; intros acc; [done|].
  destruct (nibbles b Hb) as (H1 & H2 & H3).
  destruct (hex_char_facts _ H1) as (_ & E2 & _), (hex_char_facts _ H2) as (_ & E4 & _).
  cbn [toString_hex radix_acc fold_left]. rewrite E2, E4, IH. f_equal. lia.
Qed.

Lemma BigInt_bytesToHex bytes : Forall is_byte bytes -> bytes <> [] -> BigInt_text (bytesToHex bytes) = Some (value 256 bytes).
Proof.
  intros H Hne. unfold BigInt_text.
  assert (trim (bytesToHex bytes) = bytesToHex bytes) as ->.
  { apply trim_no_space. unfold bytesToHex. cbn [String.append all_chars].
    rewrite (toString_hex_all (fun a => negb (is_space a))); [done| |done].
    intros d Hd. destruct (hex_char_facts d Hd) as (_ & _ & ->). done. }
  unfold bytesToHex. cbn [String.append]. unfold radix_literal.
  destruct bytes as [|b r]; [done|]. cbn [toString_hex].
  change (String (hex_char (b / 16)) (String (hex_char (b mod 16)) (toString_hex r))) with (toString_hex (b :: r)).
  rewrite (toString_hex_all (is_radix_digit 16)); [|intros d Hd|done].
  - by rewrite radix_toString_hex.
  - destruct (hex_char_facts d Hd) as (E1 & E2 & _). unfold is_radix_digit. rewrite E1, E2. apply Z.ltb_lt. lia.
Qed.

(** Hexadecimal digits, two by two. *)
Fixpoint pairs (ds : list Z) : list Z :=
  match ds with a :: b :: r => a * 16 + b :: pairs r | _ => [] end.

Lemma pairs_spec ds : Forall (fun d => 0 <= d < 16) ds -> even (length ds) = true ->
  Buffer_from_hex (string_of_list (hex_char <$> ds)) = pairs ds /\ Forall is_byte (pairs ds)
  /\ forall acc, fold_left (fun n d => n * 256 + d) (pairs ds) acc = fold_left (fun n d => n * 16 + d) ds acc.
Proof.
  assert (forall n ds, (length ds <= n)%nat -> Forall (fun d => 0 <= d < 16) ds -> even (length ds) = true ->
    Buffer_from_hex (string_of_list (hex_char <$> ds)) = pairs ds /\ Forall is_byte (pairs ds)
    /\ forall acc, fold_left (fun n d => n * 256 + d) (pairs ds) acc = fold_left (fun n d => n * 16 + d) ds acc) as H.
  { clear ds. induction n as [|n IH]; intros [|a [|b r]] Hn; cbn [length] in Hn; try done; [lia|].
    intros Hf He. apply Forall_cons in Hf as [Ha Hf]. apply Forall_cons in Hf as [Hb Hr].
    destruct (IH r) as (E1 & E2 & E3); [lia|done| |].
    { unfold even in *. cbn [length] in He. apply Z.eqb_eq. apply Z.eqb_eq in He.
      replace (Z.of_nat (S (S (length r)))) with (Z.of_nat (length r) + 1 * 2) in He by lia. by rewrite Z.mod_add in He. }
    destruct (hex_char_facts _ Ha) as (F1 & F2 & _), (hex_char_facts _ Hb) as (F3 & F4 & _).
    cbn [fmap list_fmap string_of_list foldr Buffer_from_hex pairs fold_left].
    change (foldr String "" (hex_char <$> r))%string with (string_of_list (hex_char <$> r)).
    rewrite F1, F2, F3, F4, E1. cbn [andb]. split_and!; [done| |].
    - constructor; [unfold is_byte; lia|done].
    - intros acc. rewrite E3. f_equal. lia. }
  by apply (H (length ds)).
Qed.

Lemma value_app b l1 l2 : value b (l1 ++ l2) = fold_left (fun n d => n * b + d) l2 (value b l1).
Proof. unfold value. by rewrite fold_left_app. Qed.

Lemma even_S n : even n = negb (even (S n)).
Proof. unfold even. rewrite Nat2Z.inj_succ. destruct (Z.eqb_spec (Z.of_nat n mod 2) 0), (Z.eqb_spec (Z.succ (Z.of_nat n) mod 2) 0); [|done..|]; exfalso; Z.to_euclidean_division_equations; lia. Qed.

Lemma string_of_list_length l : String.length (string_of_list l) = length l.
Proof. induction l as [|a l IH]; [done|]. cbn. by f_equal. Qed.

Lemma toString16_digits v : 0 < v -> toString16 v = string_of_list (hex_char <$> digits 16 v).
Proof.
  intros Hv. unfold toString16. destruct (digits 16 v) eqn:E; [|done].
  destruct (digits_spec 16 ltac:(lia) v ltac:(lia)) as (_ & _ & H). rewrite E in H. unfold value in H. simpl in H. lia.
Qed.

(** The hexadecimal detour gives the digits in base 256. *)
Lemma bigintToBytes_digits v : 0 <= v -> bigintToBytes v = Some (digits 256 v).
Proof.
  intros Hv. unfold bigintToBytes. rewrite (proj2 (Z.ltb_ge _ _) Hv).
  destruct (Z.eqb_spec v 0) as [->|Hne]; [done|]. rewrite toString16_digits by lia.
  destruct (digits_spec 16 ltac:(lia) v Hv) as (Hf & Hm & Hval).
  rewrite string_of_list_length, length_fmap.
  assert (exists ds, Forall (fun d => 0 <= d < 16) ds /\ even (length ds) = true
    /\ (if even (length (digits 16 v)) then string_of_list (hex_char <$> digits 16 v)
        else String "0" (string_of_list (hex_char <$> digits 16 v))) = string_of_list (hex_char <$> ds)
    /\ value 16 ds = v /\ minimal (pairs ds)) as (ds & H1 & H2 & H3 & H4 & H5).
  { destruct (even (length (digits 16 v))) eqn:E.
    - exists (digits 16 v). split_and!; try done. destruct (digits 16 v) as [|a [|b r]]; try done.
      intros d [= <-]. specialize (Hm a eq_refl). apply Forall_cons in Hf as [Ha Hf]. apply Forall_cons in Hf as [Hb _]. lia.
    - exists (0 :: digits 16 v). split_and!; [by constructor| |done|by unfold value in *|].
      + cbn [length]. rewrite even_S in E. by destruct (even (S (length (digits 16 v)))).
      + destruct (digits 16 v) as [|b r]; [done|]. intros d [= <-]. specialize (Hm b eq_refl). lia. }
  cbv zeta. rewrite H3. destruct (pairs_spec ds H1 H2) as (E1 & E2 & E3). rewrite E1. f_equal.
  rewrite <- (digits_value 256 ltac:(lia) (pairs ds)) by done. f_equal. unfold value. rewrite E3. exact H4.
Qed.

(** ** Doubles *)

Lemma round53_small n : n < 2 ^ 53 -> round53 n = n.
Proof.
  intros H. unfold round53. destruct (Z.leb_spec (Z.log2 n - 52) 0) as [|Hl]; [done|].
  assert (0 < n) by (destruct (Z.le_gt_cases n 0); [rewrite Z.log2_nonpos in Hl by done; lia|done]).
  apply (Z.log2_lt_pow2 n 53) in H; lia.
Qed.

Lemma round53_large n : 2 ^ 53 <= n -> 2 ^ 53 <= round53 n.
Proof.
  intros H. unfold round53. assert (Hl : 53 <= Z.log2 n) by (apply Z.log2_le_pow2; lia).
  destruct (Z.leb_spec (Z.log2 n - 52) 0) as [|_]; [done|]. set (k := Z.log2 n - 52).
  assert (Hk : 1 <= k) by lia. assert (Hp : 0 < 2 ^ k) by (apply Z.pow_pos_nonneg; lia).
  assert (Hq : 2 ^ 52 <= n / 2 ^ k).
  { apply Z.div_le_lower_bound; [done|]. rewrite <- Z.pow_add_r by lia. replace (k + 52) with (Z.log2 n) by lia.
    apply Z.log2_spec. lia. }
  assert (2 ^ 53 <= 2 ^ 52 * 2 ^ k) by (rewrite <- Z.pow_add_r by lia; apply Z.pow_le_mono_r; lia).
  destruct (_ || _); nia.
Qed.

Lemma Number_of_small n : n < 2 ^ 53 -> Number_of n = Some n.
Proof.
  intros H. unfold Number_of. rewrite round53_small by done. assert (n < 2 ^ 1024); [|by rewrite (proj2 (Z.ltb_lt _ _))].
  assert (2 ^ 53 <= 2 ^ 1024) by (apply Z.pow_le_mono_r; lia). lia.
Qed.

Lemma Number_of_large n r : 2 ^ 53 <= n -> Number_of n = Some r -> 2 ^ 53 <= r.
Proof. intros H. unfold Number_of. destruct (_ <? _); [|done]. intros [= <-]. by apply round53_large. Qed.

(** ** Encodings *)

(** Every leaf of an item is made of bytes. *)
Fixpoint bytes_in (i : RlpItem) : list Z :=
  match i with Bytes b => b | Items l => List.concat (List.map bytes_in l) end.
Definition item_ok (i : RlpItem) : Prop := Forall is_byte (bytes_in i).

Lemma items_ok l : item_ok (Items l) <-> Forall item_ok l.
Proof.
  unfold item_ok. cbn [bytes_in]. induction l as [|i l IH]; [done|]. cbn [List.map List.concat].
  by rewrite Forall_app, Forall_cons, IH.
Qed.

Lemma value_ge b l : 2 <= b -> Forall (fun d => 0 <= d < b) l -> minimal l -> l <> [] -> b ^ (len l - 1) <= value b l.
Proof.
  intros Hb. unfold len. induction l as [|d l IH] using rev_ind; [done|].
  rewrite Forall_app, Forall_singleton, value_snoc, length_app. intros [H Hd] Hm _. cbn [length].
  destruct l as [|d' l].
  - specialize (Hm d eq_refl). unfold value. simpl. lia.
  - assert (IH' : b ^ (Z.of_nat (length (d' :: l)) - 1) <= value b (d' :: l)) by (apply IH; [done| |done]; intros x Hx; by apply Hm).
    replace (Z.of_nat (length (d' :: l) + 1) - 1) with (Z.succ (Z.of_nat (length (d' :: l)) - 1)) by lia.
    rewrite Z.pow_succ_r by (cbn [length]; lia). nia.
Qed.

Lemma digits_length n : 56 <= n < 2 ^ 53 -> 1 <= len (digits 256 n) <= 7.
Proof.
  intros Hn. destruct (digits_spec 256 ltac:(lia) n ltac:(lia)) as (Hf & Hm & Hv).
  assert (Hne : digits 256 n <> []) by (intros E; rewrite E in Hv; unfold value in Hv; simpl in Hv; lia).
  assert (Hge := value_ge 256 _ ltac:(lia) Hf Hm Hne). rewrite Hv in Hge.
  split; [unfold len; destruct (digits 256 n); [done|cbn [length]; lia]|].
  apply Z.le_ngt. intros Hgt. assert (2 ^ 56 <= 256 ^ (len (digits 256 n) - 1)); [|lia].
  change (2 ^ 56) with (256 ^ 7). apply Z.pow_le_mono_r; lia.
Qed.

Lemma lengthPrefix_short n base : n < 56 -> lengthPrefix n base = [base + n].
Proof. intros H. unfold lengthPrefix. by rewrite (proj2 (Z.ltb_lt _ _) H). Qed.

Lemma lengthPrefix_long n base : 56 <= n < 2 ^ 53 -> 0 <= base <= 192 ->
  lengthPrefix n base = base + 55 + len (digits 256 n) :: digits 256 n.
Proof.
  intros H Hb. unfold lengthPrefix. rewrite (proj2 (Z.ltb_ge _ _)) by lia.
  rewrite bigintToBytes_digits by lia. cbn [default option_bind from_option id]. f_equal.
  assert (Hd := digits_length n H). unfold len in *. apply Z.mod_small. lia.
Qed.

Lemma lengthPrefix_bytes n base : 0 <= n < 2 ^ 53 -> base = 128 \/ base = 192 -> Forall is_byte (lengthPrefix n base).
Proof.
  intros Hn Hb. destruct (Z.lt_ge_cases n 56).
  - rewrite lengthPrefix_short by done. repeat constructor; lia.
  - rewrite lengthPrefix_long by lia. assert (Hd := digits_length n ltac:(lia)).
    constructor; [unfold is_byte; lia|]. by apply digits_spec; lia.
Qed.

Lemma rlpEncode_Items l : rlpEncode (Items l) = lengthPrefix (len (List.concat (List.map rlpEncode l))) 192 ++ List.concat (List.map rlpEncode l).
Proof. done. Qed.

(** A byte string's encoding, by its three forms. *)
Lemma rlpEncode_Bytes b :
  (exists x, b = [x] /\ x < 128 /\ rlpEncode (Bytes b) = b)
  \/ ((len b = 1 -> exists x, b = [x] /\ 128 <= x) /\ rlpEncode (Bytes b) = lengthPrefix (len b) 128 ++ b).
Proof.
  unfold len. destruct b as [|x [|y b]]; cbn [rlpEncode].
  - right. by split.
  - destruct (Z.ltb_spec x 128); [left; by exists x|]. right. split; [|done]. intros _. by exists x.
  - right. split; [|done]. cbn [length]. lia.
Qed.

Lemma lengthPrefix_length n base : (1 <= length (lengthPrefix n base))%nat.
Proof. unfold lengthPrefix. destruct (n <? 56); cbn [length]; lia. Qed.

Lemma rlpEncode_length i : (1 <= length (rlpEncode i))%nat.
Proof.
  destruct i as [b|l].
  - destruct (rlpEncode_Bytes b) as [(x & -> & _ & ->)|(_ & ->)]; [done|]. rewrite length_app.
    assert (H := lengthPrefix_length (len b) 128). lia.
  - rewrite rlpEncode_Items, length_app. assert (H := lengthPrefix_length (len (List.concat (List.map rlpEncode l))) 192). lia.
Qed.

Lemma rlpEncode_bytes it : item_ok it -> len (rlpEncode it) < 2 ^ 53 -> Forall is_byte (rlpEncode it).
Proof.
  induction it as [b|l IH] using RlpItem_ind.
  - intros Hok Hlen. destruct (rlpEncode_Bytes b) as [(x & -> & _ & E)|(_ & E)]; rewrite E in *; [done|].
    unfold len in *. rewrite length_app in Hlen. apply Forall_app. split; [apply lengthPrefix_bytes; lia|done].
  - rewrite items_ok, rlpEncode_Items. intros Hok Hlen. unfold len in *. rewrite length_app in Hlen. apply Forall_app.
    split; [apply lengthPrefix_bytes; lia|].
    assert (Hb : Z.of_nat (length (List.concat (List.map rlpEncode l))) < 2 ^ 53) by lia. clear Hlen.
    induction IH as [|x l Hx _ IHl]; [done|]. apply Forall_cons in Hok as [Ho Hok]. cbn [List.map List.concat] in *.
    rewrite length_app in Hb. apply Forall_app. split; [apply Hx; [done|lia]|apply IHl; [done|lia]].
Qed.

(** ** Parts of the input *)

Section parts.
Context (bytes : list Z).

Definition part (a e : nat) : list Z := take (e - a) (drop a bytes).

Lemma part_length a e : (a <= e <= length bytes)%nat -> length (part a e) = (e - a)%nat.
Proof. intros H. unfold part. rewrite length_take, length_drop. lia. Qed.

Lemma part_app a b c : (a <= b <= c)%nat -> part a b ++ part b c = part a c.
Proof.
  intros H. unfold part. replace (drop b bytes) with (drop (b - a) (drop a bytes)) by (rewrite drop_drop; f_equal; lia).
  generalize (drop a bytes). intros l. rewrite <- (take_drop (b - a) (take (c - a) l)), take_take, Nat.min_l by lia. f_equal.
  rewrite skipn_firstn_comm. f_equal. lia.
Qed.

Lemma part_lookup a x : bytes !! a = Some x -> part a (S a) = [x].
Proof. intros H. unfold part. replace (S a - a)%nat with 1%nat by lia. by rewrite (drop_S _ _ _ H). Qed.

Lemma slice_part start n b : 0 <= n -> slice bytes start n = Some b ->
  (start + Z.to_nat n <= length bytes)%nat /\ b = part start (start + Z.to_nat n).
Proof.
  unfold slice, part, len. intros Hn. destruct (Z.ltb_spec (Z.of_nat (length bytes)) (Z.of_nat start + n)); [done|].
  intros [= <-]. split; [lia|]. f_equal. lia.
Qed.

Lemma part_bytes a e : Forall is_byte bytes -> Forall is_byte (part a e).
Proof. intros H. by apply Forall_take, Forall_drop. Qed.

Lemma longLength_min at_ k n start : longLength bytes at_ k = Some (n, start) -> 56 <= n.
Proof.
  unfold longLength. destruct (slice bytes (S at_) k) as [lb|]; [|done]. cbn [mbind option_bind].
  case_bool_decide; [done|]. destruct (BigInt_text _); [|done]. cbn [mbind option_bind].
  destruct (Number_of _) as [r|]; [|done]. cbn [mbind option_bind]. by destruct (Z.ltb_spec r 56); intros [= <- _].
Qed.

(** A long form's length that fits the input is the one its bytes write minimally. *)
Lemma longLength_part at_ k n start : Forall is_byte bytes -> len bytes < 2 ^ 53 -> 1 <= k ->
  longLength bytes at_ k = Some (n, start) -> n <= len bytes ->
  start = (at_ + 1 + Z.to_nat k)%nat /\ (start <= length bytes)%nat /\ 56 <= n < 2 ^ 53
  /\ part (S at_) start = digits 256 n /\ len (digits 256 n) = k.
Proof.
  intros Hf Hlen Hk. unfold longLength. destruct (slice bytes (S at_) k) as [lb|] eqn:Es; [|done]. cbn [mbind option_bind].
  apply slice_part in Es as [Hle ->]; [|lia]. case_bool_decide as Hz; [done|].
  set (l := part (S at_) (S at_ + Z.to_nat k)) in *. assert (Hl : length l = Z.to_nat k) by (unfold l; rewrite part_length; lia).
  assert (Hb : Forall is_byte l) by by apply part_bytes. assert (Hne : l <> []) by (intros E; rewrite E in Hl; simpl in Hl; lia).
  rewrite BigInt_bytesToHex by done. cbn [mbind option_bind]. destruct (Number_of _) as [r|] eqn:Er; [|done]. cbn [mbind option_bind].
  destruct (Z.ltb_spec r 56); [done|]. intros [= -> <-] Hn.
  assert (Hv : value 256 l < 2 ^ 53).
  { destruct (Z.lt_ge_cases (value 256 l) (2 ^ 53)) as [|Hge]; [done|]. assert (X := Number_of_large _ _ Hge Er). lia. }
  rewrite Number_of_small in Er by done. injection Er as Er.
  assert (El : digits 256 n = l). { rewrite <- Er. apply digits_value; [lia|done|]. intros d Hd ->. by apply Hz. }
  split_and!; try done; [lia|lia| |].
  - rewrite El. unfold l. f_equal. lia.
  - rewrite El. unfold len. lia.
Qed.
End parts.

(** ** Decoding reads encodings *)

Section sound.
Context (bytes : list Z) (Hf : Forall is_byte bytes) (Hlen : len bytes < 2 ^ 53).

(** What a reading of [at_] to [e] means. *)
Definition reads (it : RlpItem) (at_ e : nat) : Prop :=
  (at_ < e <= length bytes)%nat /\ rlpEncode it = part bytes at_ e /\ item_ok it.

Definition reads_items (its : list RlpItem) (at_ e : nat) : Prop :=
  (at_ <= e)%nat /\ List.concat (List.map rlpEncode its) = part bytes at_ e /\ Forall item_ok its.

Lemma prefixed at_ start e prefix its base :
  bytes !! at_ = Some prefix -> (S at_ <= start <= e)%nat -> (e <= length bytes)%nat ->
  lengthPrefix (Z.of_nat (e - start)) base = prefix :: part bytes (S at_) start -> its = part bytes start e ->
  lengthPrefix (Z.of_nat (e - start)) base ++ its = part bytes at_ e.
Proof.
  intros Hp H1 H2 -> ->. rewrite <- (part_app bytes at_ (S at_) e), (part_lookup _ _ _ Hp) by lia.
  rewrite <- (part_app bytes (S at_) start e) by lia. done.
Qed.

Lemma reads_bytes at_ start e prefix :
  bytes !! at_ = Some prefix -> (S at_ <= start <= e)%nat -> (e <= length bytes)%nat ->
  lengthPrefix (Z.of_nat (e - start)) 128 = prefix :: part bytes (S at_) start ->
  (Z.of_nat (e - start) = 1 -> forall x, head (part bytes start e) = Some x -> 128 <= x) ->
  reads (Bytes (part bytes start e)) at_ e.
Proof.
  intros Hp H1 H2 Hl Hone. assert (Hpl : len (part bytes start e) = Z.of_nat (e - start)).
  { unfold len. rewrite part_length; lia. }
  split_and!; [lia|lia| |by apply part_bytes].
  destruct (rlpEncode_Bytes (part bytes start e)) as [(x & Ex & Hx & _)|(_ & ->)].
  - rewrite Ex in Hpl. specialize (Hone ltac:(by rewrite <- Hpl) x). rewrite Ex in Hone. specialize (Hone eq_refl). lia.
  - rewrite Hpl. by eapply prefixed.
Qed.

Lemma string_sound fuel at_ prefix it e :
  bytes !! at_ = Some prefix -> 0 <= prefix < 192 -> decodeAt (S fuel) bytes at_ = Some (it, e) -> reads it at_ e.
Proof.
  intros Hp Hb. cbn [decodeAt]. rewrite Hp. cbn [mbind option_bind]. assert (Hat := lookup_lt_Some _ _ _ Hp).
  destruct (Z.ltb_spec prefix 128) as [H1|H1].
  { intros [= <- <-]. assert (E : take 1 (drop at_ bytes) = [prefix]) by (by rewrite (drop_S _ _ _ Hp)). rewrite E.
    split_and!; [lia|lia| |by apply Forall_singleton; unfold is_byte; lia]. rewrite (part_lookup _ _ _ Hp). cbn [rlpEncode].
    by rewrite (proj2 (Z.ltb_lt _ _) H1). }
  destruct (Z.ltb_spec prefix 184) as [H2|H2].
  { destruct (slice bytes (S at_) (prefix - 128)) as [body|] eqn:Es; [|done]. cbn [mbind option_bind].
    apply slice_part in Es as [Hle ->]; [|lia]. destruct (_ && _) eqn:Ec; [done|]. intros [= <- <-].
    replace (at_ + 1 + Z.to_nat (prefix - 128))%nat with (S at_ + Z.to_nat (prefix - 128))%nat by lia.
    apply (reads_bytes _ _ _ prefix); [done|lia|lia| |].
    - rewrite lengthPrefix_short by lia. unfold part. rewrite Nat.sub_diag, take_0. f_equal. lia.
    - intros H x Hx. apply andb_false_iff in Ec as [Ec|Ec]; [apply Z.eqb_neq in Ec; lia|].
      destruct (part bytes _ _); [done|]. injection Hx as ->. lia. }
  rewrite (proj2 (Z.ltb_lt _ _)) by lia.
  destruct (longLength bytes at_ (prefix - 183)) as [[n start]|] eqn:El; [|done]. cbn [mbind option_bind fst snd].
  destruct (slice bytes start n) as [body|] eqn:Es; [|done]. cbn [mbind option_bind]. intros [= <- <-].
  assert (Hn := longLength_min _ _ _ _ _ El).
  assert (Hn' : n <= len bytes) by (unfold slice in Es; destruct (Z.ltb_spec (len bytes) (Z.of_nat start + n)); [done|lia]).
  apply slice_part in Es as [Hle ->]; [|lia].
  destruct (longLength_part bytes _ (prefix - 183) _ _ Hf Hlen ltac:(lia) El Hn') as (E1 & E2 & E3 & E4 & E5).
  apply (reads_bytes _ _ _ prefix); [done|lia|lia| |intros ?; lia].
  replace (Z.of_nat (start + Z.to_nat n - start)) with n by lia. rewrite lengthPrefix_long, E4 by lia. f_equal. lia.
Qed.

Lemma list_sound fuel at_ prefix it e :
  bytes !! at_ = Some prefix -> 192 <= prefix < 256 ->
  (forall at_ end_ its e, decode_items fuel bytes at_ end_ = Some (its, e) -> reads_items its at_ e /\ (end_ <= e)%nat) ->
  decodeAt (S fuel) bytes at_ = Some (it, e) -> reads it at_ e.
Proof.
  intros Hp Hb IH. cbn [decodeAt]. rewrite Hp. cbn [mbind option_bind].
  rewrite (proj2 (Z.ltb_ge prefix 128)), (proj2 (Z.ltb_ge prefix 184)), (proj2 (Z.ltb_ge prefix 192)) by lia.
  destruct (if prefix <? 248 then Some (prefix - 192, S at_) else longLength bytes at_ (prefix - 247)) as [[n start]|] eqn:El; [|done].
  cbn [mbind option_bind fst snd]. destruct (Z.ltb_spec (len bytes) (Z.of_nat start + n)) as [|Hfit]; [done|].
  destruct (decode_items fuel bytes start _) as [[its c]|] eqn:Ei; [|done]. cbn [mbind option_bind fst snd].
  destruct (Nat.eqb_spec c (start + Z.to_nat n)) as [->|]; [|done]. intros [= <- <-].
  destruct (IH _ _ _ _ Ei) as [(_ & Hits & Hok) _].
  assert (Hn : 0 <= n /\ (S at_ <= start)%nat /\ lengthPrefix n 192 = prefix :: part bytes (S at_) start).
  { destruct (Z.ltb_spec prefix 248).
    - injection El as <- <-. rewrite lengthPrefix_short by lia. unfold part. rewrite Nat.sub_diag, take_0.
      split_and!; [lia|done|f_equal; lia].
    - assert (Hn : n <= len bytes) by lia.
      destruct (longLength_part bytes _ (prefix - 247) _ _ Hf Hlen ltac:(lia) El Hn) as (E1 & E2 & E3 & E4 & E5).
      rewrite lengthPrefix_long, E4 by lia. split_and!; [lia|lia|f_equal; lia]. }
  destruct Hn as (Hn & Hs & Hpre). unfold len in Hfit. split_and!; [lia|lia| |by apply items_ok].
  rewrite rlpEncode_Items, Hits. replace (len (part bytes start (start + Z.to_nat n))) with (Z.of_nat (start + Z.to_nat n - start))
    by (unfold len; rewrite part_length; lia).
  eapply prefixed; [done|lia|lia| |done]. by replace (Z.of_nat (start + Z.to_nat n - start)) with n by lia.
Qed.

Lemma decode_sound fuel :
  (forall at_ it e, decodeAt fuel bytes at_ = Some (it, e) -> reads it at_ e)
  /\ (forall at_ end_ its e, decode_items fuel bytes at_ end_ = Some (its, e) -> reads_items its at_ e /\ (end_ <= e)%nat).
Proof.
  induction fuel as [|fuel [IHa IHi]]; split; try done.
  - intros at_ it e Hd. assert (exists prefix, bytes !! at_ = Some prefix) as [prefix Hp].
    { cbn [decodeAt] in Hd. destruct (bytes !! at_) as [prefix|]; [by exists prefix|done]. }
    assert (Hb : is_byte prefix) by (eapply Forall_lookup_1; eassumption). unfold is_byte in Hb.
    destruct (Z.lt_ge_cases prefix 192); [eapply string_sound|eapply list_sound]; done || lia.
  - intros at_ end_ its e. cbn [decode_items]. destruct (Nat.leb_spec end_ at_) as [He|He].
    { intros [= <- <-]. split; [|lia]. split_and!; [lia| |done]. unfold part. by rewrite Nat.sub_diag, take_0. }
    destruct (decodeAt fuel bytes at_) as [[x next]|] eqn:Ea; [|done]. cbn [mbind option_bind fst snd].
    destruct (decode_items fuel bytes next end_) as [[r c]|] eqn:Er; [|done]. cbn [mbind option_bind fst snd]. intros [= <- <-].
    destruct (IHa _ _ _ Ea) as (H1 & H2 & H3), (IHi _ _ _ _ Er) as [(H4 & H5 & H6) H7]. split; [|done].
    split_and!; [lia| |by constructor]. cbn [List.map List.concat]. rewrite H2, H5. apply part_app. lia.
Qed.
End sound.

(** ** Encodings are read *)

Section complete.
Context (bytes : list Z) (Hlen : len bytes < 2 ^ 53).

(** [b] is in the input from [at_] on. *)
Definition lies (b : list Z) (at_ : nat) : Prop := exists rest, drop at_ bytes = b ++ rest /\ (at_ <= length bytes)%nat.

Lemma lies_length b at_ : lies b at_ -> (at_ + length b <= length bytes)%nat.
Proof. intros (rest & E & H). apply (f_equal length) in E. rewrite length_drop, length_app in E. lia. Qed.

Lemma lies_app b1 b2 at_ : lies (b1 ++ b2) at_ -> lies b1 at_ /\ lies b2 (at_ + length b1).
Proof.
  intros H. assert (Hl := lies_length _ _ H). rewrite length_app in Hl. destruct H as (rest & E & H). split.
  - exists (b2 ++ rest). by rewrite app_assoc.
  - exists rest. split; [|lia]. rewrite <- drop_drop, E, <- app_assoc. by rewrite drop_app_length.
Qed.

Lemma lies_head x b at_ : lies (x :: b) at_ -> bytes !! at_ = Some x /\ lies b (S at_).
Proof.
  intros H. change (x :: b) with ([x] ++ b) in H. apply lies_app in H as [(rest & E & H) Hb].
  split; [|by rewrite Nat.add_1_r in Hb]. rewrite <- (Nat.add_0_r at_), <- lookup_drop, E. done.
Qed.

Lemma slice_lies b at_ : lies b at_ -> slice bytes at_ (len b) = Some b.
Proof.
  intros H. assert (Hl := lies_length _ _ H). destruct H as (rest & E & H). unfold slice, len.
  destruct (Z.ltb_spec (Z.of_nat (length bytes)) (Z.of_nat at_ + Z.of_nat (length b))); [lia|].
  rewrite Nat2Z.id, E. by rewrite take_app_length.
Qed.

Lemma longLength_lies n at_ : 56 <= n < 2 ^ 53 -> lies (digits 256 n) (S at_) ->
  longLength bytes at_ (len (digits 256 n)) = Some (n, (at_ + 1 + length (digits 256 n))%nat).
Proof.
  intros Hn H. unfold longLength. rewrite slice_lies by done. cbn [mbind option_bind].
  assert (Hd := digits_length n Hn). destruct (digits_spec 256 ltac:(lia) n ltac:(lia)) as (Hb & Hm & Hv).
  rewrite bool_decide_eq_false_2 by (intros E; by apply (Hm 0 E)).
  assert (Hne : digits 256 n <> []) by (intros E; rewrite E in Hd; unfold len in Hd; simpl in Hd; lia).
  rewrite BigInt_bytesToHex by done. cbn [mbind option_bind]. rewrite Hv, Number_of_small by lia. cbn [mbind option_bind].
  rewrite (proj2 (Z.ltb_ge n 56)) by lia. unfold len. by rewrite Nat2Z.id.
Qed.

Lemma string_complete fuel b at_ : lies (rlpEncode (Bytes b)) at_ ->
  decodeAt (S fuel) bytes at_ = Some (Bytes b, (at_ + length (rlpEncode (Bytes b)))%nat).
Proof.
  intros H. assert (Hl := lies_length _ _ H). cbn [decodeAt].
  destruct (rlpEncode_Bytes b) as [(x & -> & Hx & E)|(Hone & E)]; rewrite E in *.
  { apply lies_head in H as [H _]. rewrite H. cbn [mbind option_bind]. rewrite (proj2 (Z.ltb_lt _ _) Hx), (drop_S _ _ _ H).
    do 2 f_equal. cbn [length]. lia. }
  rewrite length_app in *. unfold len in Hlen. assert (Hb : len b < 2 ^ 53) by (unfold len; lia).
  destruct (Z.lt_ge_cases (len b) 56) as [Hs|Hs].
  - rewrite lengthPrefix_short in * by done. cbn [length app] in *. apply lies_head in H as [-> H]. cbn [mbind option_bind].
    assert (0 <= len b) by (unfold len; lia).
    rewrite (proj2 (Z.ltb_ge _ 128)), (proj2 (Z.ltb_lt _ 184)) by lia. replace (128 + len b - 128) with (len b) by lia.
    rewrite slice_lies by done. cbn [mbind option_bind].
    replace ((len b =? 1) && _) with false; [do 2 f_equal; unfold len; lia|].
    destruct (Z.eqb_spec (len b) 1) as [E1|]; [|done]. destruct (Hone E1) as (x & -> & Hx). symmetry. by apply Z.ltb_ge.
  - rewrite lengthPrefix_long in * by lia. cbn [length app] in *. assert (Hd := digits_length (len b) ltac:(lia)).
    apply lies_head in H as [-> H]. cbn [mbind option_bind]. apply lies_app in H as [Hp H].
    rewrite (proj2 (Z.ltb_ge _ 128)), (proj2 (Z.ltb_ge _ 184)), (proj2 (Z.ltb_lt _ 192)) by lia.
    replace (128 + 55 + len (digits 256 (len b)) - 183) with (len (digits 256 (len b))) by lia.
    rewrite longLength_lies by (done || lia). cbn [mbind option_bind fst snd].
    rewrite Nat.add_1_r, slice_lies by done. cbn [mbind option_bind]. do 2 f_equal. unfold len. lia.
Qed.

Lemma items_complete fuel l at_ : lies (rlpEncode (Items l)) at_ ->
  (forall cursor, lies (List.concat (List.map rlpEncode l)) cursor ->
     decode_items fuel bytes cursor (cursor + length (List.concat (List.map rlpEncode l)))
     = Some (l, (cursor + length (List.concat (List.map rlpEncode l)))%nat)) ->
  decodeAt (S fuel) bytes at_ = Some (Items l, (at_ + length (rlpEncode (Items l)))%nat).
Proof.
  rewrite rlpEncode_Items. set (body := List.concat _). intros H Hi. assert (Hl := lies_length _ _ H). cbn [decodeAt].
  rewrite length_app in *. assert (Hb : 0 <= len body < 2 ^ 53) by (unfold len in *; lia).
  destruct (Z.lt_ge_cases (len body) 56) as [Hs|Hs].
  - rewrite lengthPrefix_short in * by done. cbn [length app] in *. apply lies_head in H as [-> H]. cbn [mbind option_bind].
    rewrite (proj2 (Z.ltb_ge _ 128)), (proj2 (Z.ltb_ge _ 184)), (proj2 (Z.ltb_ge _ 192)), (proj2 (Z.ltb_lt _ 248)) by lia.
    cbn [mbind option_bind fst snd]. unfold len in *.
    rewrite (proj2 (Z.ltb_ge _ _)) by lia. replace (Z.to_nat (192 + Z.of_nat (length body) - 192)) with (length body) by lia.
    rewrite Hi by done. cbn [mbind option_bind fst snd]. rewrite Nat.eqb_refl. do 2 f_equal. lia.
  - rewrite lengthPrefix_long in * by lia. cbn [length app] in *. assert (Hd := digits_length (len body) ltac:(lia)).
    apply lies_head in H as [-> H]. cbn [mbind option_bind]. apply lies_app in H as [Hp H].
    rewrite (proj2 (Z.ltb_ge _ 128)), (proj2 (Z.ltb_ge _ 184)), (proj2 (Z.ltb_ge _ 192)), (proj2 (Z.ltb_ge _ 248)) by lia.
    replace (192 + 55 + len (digits 256 (len body)) - 247) with (len (digits 256 (len body))) by lia.
    rewrite longLength_lies by (done || lia). cbn [mbind option_bind fst snd]. rewrite Nat.add_1_r.
    rewrite (proj2 (Z.ltb_ge _ _)) by (unfold len in *; lia). replace (Z.to_nat (len body)) with (length body) by (unfold len; lia).
    rewrite Hi by done. cbn [mbind option_bind fst snd]. rewrite Nat.eqb_refl. do 2 f_equal. lia.
Qed.

Lemma decode_complete it fuel at_ : lies (rlpEncode it) at_ -> (2 * length (rlpEncode it) <= fuel)%nat ->
  decodeAt fuel bytes at_ = Some (it, (at_ + length (rlpEncode it))%nat).
Proof.
  revert fuel at_. induction it as [b|l IH] using RlpItem_ind; intros fuel at_ H Hfuel.
  - assert (Hl := rlpEncode_length (Bytes b)). destruct fuel as [|fuel]; [lia|]. by apply string_complete.
  - assert (Hl := rlpEncode_length (Items l)). destruct fuel as [|fuel]; [lia|]. apply items_complete; [done|].
    assert (Hf : (2 * length (List.concat (List.map rlpEncode l)) + 1 <= fuel)%nat).
    { rewrite rlpEncode_Items, length_app in Hfuel. assert (X := lengthPrefix_length (len (List.concat (List.map rlpEncode l))) 192). lia. }
    clear H Hfuel Hl. revert fuel Hf. induction IH as [|x l Hx _ IHl]; intros fuel Hf cursor H; (destruct fuel as [|fuel]; [lia|]).
    + cbn [List.map List.concat length decode_items]. rewrite Nat.add_0_r. by rewrite (proj2 (Nat.leb_le _ _)).
    + cbn [List.map List.concat] in *. rewrite length_app in *. assert (Hl := rlpEncode_length x). cbn [decode_items].
      rewrite (proj2 (Nat.leb_gt _ _)) by lia. apply lies_app in H as [H1 H2].
      rewrite Hx by (done || lia). cbn [mbind option_bind fst snd]. rewrite Nat.add_assoc, IHl by (done || lia). done.
Qed.
End complete.

(** ** The codec *)

Lemma rlpDecode_encode it : len (rlpEncode it) < 2 ^ 53 -> rlpDecode (rlpEncode it) = Some it.
Proof.
  intros Hlen. unfold rlpDecode. rewrite (decode_complete (rlpEncode it) Hlen it); [| |lia].
  - cbn [mbind option_bind fst snd]. by rewrite Nat.add_0_l, Nat.eqb_refl.
  - exists []. rewrite app_nil_r, drop_0. split; [done|lia].
Qed.

Lemma rlpDecode_sound bytes it : Forall is_byte bytes -> len bytes < 2 ^ 53 -> rlpDecode bytes = Some it ->
  rlpEncode it = bytes /\ item_ok it.
Proof.
  intros Hf Hlen. unfold rlpDecode. destruct (decodeAt _ bytes 0) as [[x e]|] eqn:E; [|done]. cbn [mbind option_bind fst snd].
  destruct (Nat.eqb_spec e (length bytes)) as [->|]; [|done]. intros [= <-].
  destruct (proj1 (decode_sound bytes Hf Hlen _) _ _ _ E) as (_ & Henc & Hok). split; [|done].
  rewrite Henc. unfold part. by rewrite Nat.sub_0_r, drop_0, take_ge.
Qed.

(** C20: An item is read from exactly one byte string. On bytes (fewer than 2^53, as
    in any array), [rlpDecode] answers an item exactly when its leaves are bytes and the
    input is its encoding: what is encoded reads back, and trailing bytes, truncated
    or non-canonical lengths are all refused. *)
Theorem rlp_decode_exact (bytes : list Z) (it : RlpItem) :
  Forall is_byte bytes -> len bytes < 2 ^ 53 ->
  rlpDecode bytes = Some it <-> rlpEncode it = bytes /\ item_ok it.
Proof.
  intros Hf Hlen. split; [by apply rlpDecode_sound|]. intros [<- _]. by apply rlpDecode_encode.
Qed.

Lemma rlp_decode_exact_witness :
  rlpDecode [196; 129; 200; 5; 192] = Some (Items [Bytes [200]; Bytes [5]; Items []]) /\ rlpDecode [130; 0] = None
  /\ (rlpEncode (Items [Bytes [200]; Bytes [5]; Items []]) = [196; 129; 200; 5; 192] /\ item_ok (Items [Bytes [200]; Bytes [5]; Items []])).
Proof.
  split; [vm_compute; reflexivity|]. split; [vm_compute; reflexivity|].
  apply (rlp_decode_exact [196; 129; 200; 5; 192]); [|vm_compute; reflexivity|vm_compute; reflexivity].
  repeat (constructor; [unfold is_byte; lia|]). constructor.
Defined.
