(* ===== verification/EvmTransaction.v ===== *)
(** src/src/evm/evm-transaction.ts, erc20.ts, merchant-fee-swap-router.ts and the
    signing half of evm-relayer.service.ts: EIP-1559 transactions written, signed and
    read back, and the calldata this service hands to wallets. secp256k1 and keccak
    come from a library: the class [Secp]. [None] is a throw, always a plain Error. *)

From S2P Require Import Prelude Text Units MerchantFee Intents ChainAddress Verifier EvmVerifier SolanaVerifier Links PayLinks Rlp.
From stdpp Require Import base tactics list option strings.
From Stdlib Require Import ZArith Lia Ascii.

Open Scope Z_scope.

(** [secp_sign] answers recovery, r and s in 65 bytes; [secp_recover r s yParity
    digest] the uncompressed key, and nothing for numbers that are no signature. *)
Class Secp := mkSecp {
  keccak : list Z -> list Z;
  secp_public : list Z -> option (list Z);
  secp_sign : list Z -> list Z -> option (list Z);
  secp_recover : Z -> Z -> Z -> list Z -> option (list Z)
}.

(** The bytes of the signature and that recovering it gives its signer's key. *)
Class SecpLaws `{Secp} := mkSecpLaws {
  sign_bytes d k sig : secp_sign d k = Some sig -> length sig = 65%nat /\ Forall is_byte sig;
  sign_recovers d k sig : secp_sign d k = Some sig -> nth 0 sig 0 <= 1 ->
    secp_recover (value 256 (take 32 (drop 1 sig))) (value 256 (drop 33 sig)) (nth 0 sig 0) d = secp_public k
}.

Record Eip1559Transaction := mkEip1559 {
  tx_chainId : Z;
  tx_nonce : Z;
  tx_maxPriorityFeePerGas : Z;
  tx_maxFeePerGas : Z;
  tx_gasLimit : Z;
  tx_to : string;
  tx_value : Z;
  tx_data : string
}.
Record SignedTransaction := mkSigned { st_raw : string; st_hash : string }.
Record DecodedEip1559 := mkDecoded { de_tx : Eip1559Transaction; de_from : string; de_hash : string }.

(** The bytes of a text in ASCII. *)
Fixpoint codes (s : string) : list Z :=
  match s with "" => [] | String a r => code a :: codes r end%string.

Section transactions.
Context `{SECP : Secp}.

Definition keccak_hex_of (text : string) : string := toString_hex (keccak (codes text)).
Abbreviation checksummed := (toChecksumAddress keccak_hex_of).

(** An uncompressed key's address. *)
Definition address_of_public (pub : list Z) : string := checksummed (bytesToHex (drop 12 (keccak (drop 1 pub)))).

Definition addressOfSecretKey (secretKey : list Z) : option string := address_of_public <$> secp_public secretKey.

Definition fields (tx : Eip1559Transaction) : option (list RlpItem) :=
  chainId ← bigintToBytes (tx_chainId tx);
  nonce ← bigintToBytes (tx_nonce tx);
  tip ← bigintToBytes (tx_maxPriorityFeePerGas tx);
  maxFee ← bigintToBytes (tx_maxFeePerGas tx);
  gas ← bigintToBytes (tx_gasLimit tx);
  to ← hexToBytes (tx_to tx);
  v ← bigintToBytes (tx_value tx);
  data ← hexToBytes (tx_data tx);
  Some [Bytes chainId; Bytes nonce; Bytes tip; Bytes maxFee; Bytes gas; Bytes to; Bytes v; Bytes data; Items []].

Definition unsignedPayload (tx : Eip1559Transaction) : option (list Z) :=
  fs ← fields tx; Some (2 :: rlpEncode (Items fs)).

Definition signEip1559 (tx : Eip1559Transaction) (secretKey : list Z) : option SignedTransaction :=
  payload ← unsignedPayload tx;
  sig ← secp_sign (keccak payload) secretKey;
  r ← BigInt_text (bytesToHex (take 32 (drop 1 sig)));
  s ← BigInt_text (bytesToHex (take 32 (drop 33 sig)));
  fs ← fields tx;
  y ← bigintToBytes (nth 0 sig 0);
  rb ← bigintToBytes r;
  sb ← bigintToBytes s;
  let raw := 2 :: rlpEncode (Items (fs ++ [Bytes y; Bytes rb; Bytes sb])) in
  Some (mkSigned (bytesToHex raw) (bytesToHex (keccak raw))).

(** ** Reading one back *)

Definition field (x : RlpItem) : option (list Z) := match x with Bytes b => Some b | Items _ => None end.
Definition num (x : RlpItem) : option Z :=
  b ← field x; match b with [] => Some 0 | _ => BigInt_text (bytesToHex b) end.

Definition decodeSignedEip1559 (raw : string) : option DecodedEip1559 :=
  bytes ← hexToBytes raw;
  if negb (bool_decide (head bytes = Some 2)) then None
  else
    item ← rlpDecode (drop 1 bytes);
    match item with
    | Items [chainId; nonce; tip; maxFee; gas; to; v; data; access; y; r; s] =>
        toBytes ← field to;
        if negb (length toBytes =? 20)%nat then None
        else if negb (match access with Items [] => true | _ => false end) then None
        else
          chain ← num chainId;
          chain ← Number_of chain;
          nonce ← num nonce;
          tip ← num tip;
          maxFee ← num maxFee;
          gas ← num gas;
          v ← num v;
          data ← field data;
          let tx := mkEip1559 chain nonce tip maxFee gas (checksummed (bytesToHex toBytes)) v (bytesToHex data) in
          y ← num y;
          if 1 <? y then None
          else
            r ← num r;
            s ← num s;
            payload ← unsignedPayload tx;
            pub ← secp_recover r s y (keccak payload);
            Some (mkDecoded tx (address_of_public pub) (bytesToHex (keccak bytes)))
    | _ => None
    end.

(** ** The relayer's send (evm-relayer.service.ts)

    What the node answered for the sender, one call; the broadcast is the text
    answered with the hash. *)
Definition RELAYER_GAS_LIMIT_MARGIN_BPS : Z := 11500.

Definition relayer_transaction (chainId nonce maxFee tip estimate : Z) (to data : string) : Eip1559Transaction :=
  mkEip1559 chainId nonce tip maxFee (Z.quot (estimate * RELAYER_GAS_LIMIT_MARGIN_BPS) 10000) to 0 data.
End transactions.

(** ** Calldata *)

(** [word] of an address and of a bigint. *)
Definition abi_word (value : string) : string := padStart 64 (strip_0x (toLowerCase value)).
Definition word_of (n : Z) : string := padStart 64 (toString16 n).

Definition ERC20_APPROVE_SELECTOR : string := "0x095ea7b3".
Definition approveCalldata (spender : string) (amount : Z) : string :=
  (ERC20_APPROVE_SELECTOR +:+ abi_word spender +:+ word_of amount)%string.

Record MerchantFeeSwapCall := mkSwapCall {
  sc_tokenIn : string;
  sc_amountIn : Z;
  sc_tokenOut : string;
  sc_minOut : Z;
  sc_feeWallet : string;
  sc_fee : Z;
  sc_recipient : string;
  sc_data : string
}.

Definition MERCHANT_FEE_ROUTER_SWAP_SELECTOR : string := "0x6f3c6281".
Definition MERCHANT_FEE_ROUTER_AGGREGATOR_SELECTOR : string := "0x245a7bfc".

Definition merchantFeeSwapCalldata (call : MerchantFeeSwapCall) : option string :=
  let data := toLowerCase (strip_0x (sc_data call)) in
  if negb (all_chars is_hex data && even (String.length data)) then None
  else
    let padded := padEnd ((String.length data + 63) / 64 * 64) data in
    Some (MERCHANT_FEE_ROUTER_SWAP_SELECTOR +:+ abi_word (sc_tokenIn call) +:+ word_of (sc_amountIn call)
          +:+ abi_word (sc_tokenOut call) +:+ word_of (sc_minOut call) +:+ abi_word (sc_feeWallet call) +:+ word_of (sc_fee call)
          +:+ abi_word (sc_recipient call) +:+ word_of (8 * 32) +:+ word_of (Z.of_nat (String.length data) / 2) +:+ padded)%string.

Definition routerAggregatorCalldata : string := MERCHANT_FEE_ROUTER_AGGREGATOR_SELECTOR.

(** [/^0x0{24}[0-9a-fA-F]{40}$/] *)
Definition readAggregator (answer : string) : option string :=
  let body := slice_from 26 answer in
  if String.eqb (slice_to 26 answer) ("0x" +:+ zeros 24) && (String.length body =? 40)%nat && all_chars is_hex body
  then Some ("0x" +:+ body)%string else None.

(** [artifact] is the compiled router's creation code. *)
Definition routerInitCode (artifact aggregator : string) : string := (artifact +:+ abi_word aggregator)%string.

(** ** Lemmas *)

Lemma lower_hex_digit a : is_hex (lower_char a) = is_hex a /\ hex_val (lower_char a) = hex_val a.
Proof. by destruct a as [[] [] [] [] [] [] [] []]. Qed.

Lemma Buffer_from_lower s : Buffer_from_hex (toLowerCase s) = Buffer_from_hex s.
Proof.
  assert (forall n s, (String.length s <= n)%nat -> Buffer_from_hex (toLowerCase s) = Buffer_from_hex s) as H; [|by apply (H (String.length s))].
  clear s. unfold toLowerCase. induction n as [|n IH]; intros [|a [|b r]]; simpl; intros Hn; try done; [lia|].
  destruct (lower_hex_digit a) as [-> ->], (lower_hex_digit b) as [-> ->]. by rewrite IH by lia.
Qed.

Lemma hex_char_val a : is_hex a = true -> hex_char (hex_val a) = lower_char a.
Proof. destruct a as [[] [] [] [] [] [] [] []]; vm_compute; congruence. Qed.

Lemma toString_Buffer s : all_chars is_hex s = true -> even (String.length s) = true ->
  toString_hex (Buffer_from_hex s) = toLowerCase s.
Proof.
  assert (forall n s, (String.length s <= n)%nat -> all_chars is_hex s = true -> even (String.length s) = true ->
    toString_hex (Buffer_from_hex s) = toLowerCase s) as H; [|by apply (H (String.length s))].
  clear s. unfold toLowerCase. induction n as [|n IH]; intros [|a [|b r]]; cbn [String.length]; intros Hn; try done; [lia|].
  cbn [all_chars]. intros [Ha [Hb Hr]%andb_true_iff]%andb_true_iff He. cbn [Buffer_from_hex map_chars]. rewrite Ha, Hb. cbn [andb toString_hex].
  assert (Va := hex_val_range _ Ha). assert (Vb := hex_val_range _ Hb).
  rewrite Z.div_add_l, Z.div_small, Z.add_0_r by lia. rewrite Z.add_comm, Z.mod_add, Z.mod_small by lia.
  rewrite !hex_char_val, IH by (done || lia || by rewrite even_S, (even_S (S _)), negb_involutive). done.
Qed.

Lemma hexToBytes_Some s b : hexToBytes s = Some b ->
  all_chars is_hex (strip_0x s) = true /\ even (String.length (strip_0x s)) = true /\ b = Buffer_from_hex (strip_0x s).
Proof.
  unfold hexToBytes. cbv zeta. destruct (even _) eqn:E; [|done]. destruct (all_chars _ _) eqn:A; [|done]. cbn. intros [= <-]. done.
Qed.

Lemma strip_lower s : all_chars is_hex (strip_0x s) = true -> strip_0x (toLowerCase s) = toLowerCase (strip_0x s).
Proof.
  destruct s as [|a [|b r]]; try done; [by destruct a as [[] [] [] [] [] [] [] []]|].
  destruct a as [[] [] [] [] [] [] [] []]; try done; destruct b as [[] [] [] [] [] [] [] []]; try done; vm_compute; congruence.
Qed.

Lemma checksum_case_Buffer lower h : toLowerCase lower = lower -> Buffer_from_hex (checksum_case lower h) = Buffer_from_hex lower.
Proof. intros E. rewrite <- Buffer_from_lower, checksum_case_lower by done. done. Qed.

Lemma num_digits v : 0 <= v -> num (Bytes (digits 256 v)) = Some v.
Proof.
  intros Hv. destruct (digits_spec 256 ltac:(lia) v Hv) as (Hb & _ & E). unfold num. cbn [field mbind option_bind].
  destruct (digits 256 v) as [|d l] eqn:D; [by rewrite <- E|]. rewrite BigInt_bytesToHex by done. by rewrite E.
Qed.

Lemma bigintToBytes_Some v b : bigintToBytes v = Some b -> 0 <= v /\ b = digits 256 v.
Proof.
  intros E. assert (Hv : 0 <= v). { unfold bigintToBytes in E. destruct (Z.ltb_spec v 0); [done|lia]. }
  rewrite bigintToBytes_digits in E by done. by injection E.
Qed.

(** The next numbers of a computation that answered. *)
Ltac next_numbers :=
  repeat match goal with
  | |- (bigintToBytes ?v ≫= _) = Some _ -> _ =>
      let E := fresh in
      destruct (bigintToBytes v) eqn:E; [apply bigintToBytes_Some in E as [? ->]; cbn [mbind option_bind]|done]
  end.

Section read_back.
Context `{SECP : Secp} `{!SecpLaws}.

Lemma checksummed_bytes s b : hexToBytes s = Some b -> hexToBytes (toChecksumAddress keccak_hex_of s) = Some b.
Proof.
  intros (Hx & He & ->)%hexToBytes_Some. unfold toChecksumAddress. cbv zeta. rewrite strip_lower by done. unfold hexToBytes.
  cbn [strip_0x String.append]. set (c := checksum_case _ _).
  assert (El : toLowerCase c = toLowerCase (strip_0x s)) by (apply checksum_case_lower, toLowerCase_idem).
  assert (Hc : String.length c = String.length (strip_0x s)) by (by rewrite <- (toLowerCase_length c), El, toLowerCase_length).
  assert (Hh : all_chars is_hex c = true) by (apply checksum_case_hex; by apply toLowerCase_hex).
  rewrite Hc, He, Hh. cbn [negb orb]. by rewrite <- Buffer_from_lower, El, Buffer_from_lower.
Qed.

Lemma checksummed_same s b : hexToBytes s = Some b ->
  toChecksumAddress keccak_hex_of (bytesToHex b) = toChecksumAddress keccak_hex_of s.
Proof.
  intros (Hx & He & ->)%hexToBytes_Some. unfold toChecksumAddress. cbv zeta. rewrite (strip_lower s) by done.
  unfold bytesToHex. rewrite toString_Buffer by done.
  change (strip_0x (toLowerCase ("0x" +:+ toLowerCase (strip_0x s)))) with (toLowerCase (toLowerCase (strip_0x s))).
  by rewrite toLowerCase_idem.
Qed.

(** The spelling a decoded transaction comes back in. *)
Definition canonical_tx (tx : Eip1559Transaction) : Eip1559Transaction :=
  mkEip1559 (tx_chainId tx) (tx_nonce tx) (tx_maxPriorityFeePerGas tx) (tx_maxFeePerGas tx) (tx_gasLimit tx)
    (toChecksumAddress keccak_hex_of (tx_to tx)) (tx_value tx) ("0x" +:+ toLowerCase (strip_0x (tx_data tx)))%string.

Lemma canonical_fields tx fs : fields tx = Some fs -> fields (canonical_tx tx) = Some fs.
Proof.
  unfold fields. cbn [tx_chainId tx_nonce tx_maxPriorityFeePerGas tx_maxFeePerGas tx_gasLimit tx_to tx_value tx_data canonical_tx].
  next_numbers.
  destruct (hexToBytes (tx_to tx)) as [to|] eqn:Et; [|done]. rewrite (checksummed_bytes _ _ Et). cbn [mbind option_bind].
  next_numbers.
  destruct (hexToBytes (tx_data tx)) as [d|] eqn:Ed; [|done].
  assert (hexToBytes ("0x" +:+ toLowerCase (strip_0x (tx_data tx))) = Some d) as ->; [|done].
  apply hexToBytes_Some in Ed as (Hx & He & ->). unfold hexToBytes. cbn [strip_0x String.append].
  by rewrite toLowerCase_length, He, toLowerCase_hex, Buffer_from_lower by done.
Qed.

Lemma fields_shape tx fs : fields tx = Some fs ->
  exists to data, hexToBytes (tx_to tx) = Some to /\ hexToBytes (tx_data tx) = Some data
  /\ 0 <= tx_chainId tx /\ 0 <= tx_nonce tx /\ 0 <= tx_maxPriorityFeePerGas tx /\ 0 <= tx_maxFeePerGas tx /\ 0 <= tx_gasLimit tx
  /\ 0 <= tx_value tx
  /\ fs = [Bytes (digits 256 (tx_chainId tx)); Bytes (digits 256 (tx_nonce tx)); Bytes (digits 256 (tx_maxPriorityFeePerGas tx));
           Bytes (digits 256 (tx_maxFeePerGas tx)); Bytes (digits 256 (tx_gasLimit tx)); Bytes to; Bytes (digits 256 (tx_value tx));
           Bytes data; Items []].
Proof.
  unfold fields.
  next_numbers.
  destruct (hexToBytes (tx_to tx)) as [to|]; [|done]. cbn [mbind option_bind].
  next_numbers.
  destruct (hexToBytes (tx_data tx)) as [data|]; [|done]. cbn [mbind option_bind]. intros [= <-]. by exists to, data.
Qed.

Lemma fields_ok tx fs : fields tx = Some fs -> Forall item_ok fs.
Proof.
  intros (to & data & Et & Ed & ? & ? & ? & ? & ? & ? & ->)%fields_shape.
  assert (forall v, 0 <= v -> item_ok (Bytes (digits 256 v))) as Hd by (intros v Hv; by apply digits_spec).
  apply hexToBytes_Some in Et as (_ & _ & ->). apply hexToBytes_Some in Ed as (_ & _ & ->).
  repeat (apply Forall_cons; split; [first [by apply Hd | apply Buffer_from_hex_bytes | constructor]|]). done.
Qed.

(** Reading the twelve fields of a signed transaction. *)
Lemma decode_signed tx fs y r s pub payload raw :
  fields tx = Some fs -> (exists to, hexToBytes (tx_to tx) = Some to /\ length to = 20%nat) -> tx_chainId tx < 2 ^ 53 ->
  0 <= y -> 0 <= r -> 0 <= s -> unsignedPayload tx = Some payload -> (y <= 1 -> secp_recover r s y (keccak payload) = Some pub) ->
  raw = 2 :: rlpEncode (Items (fs ++ [Bytes (digits 256 y); Bytes (digits 256 r); Bytes (digits 256 s)])) ->
  len raw < 2 ^ 53 ->
  decodeSignedEip1559 (bytesToHex raw)
  = if y <=? 1 then Some (mkDecoded (canonical_tx tx) (address_of_public pub) (bytesToHex (keccak raw))) else None.
Proof.
  intros Hfs (to & Hto & H20) Hc Hy Hr Hs Hp Hrec Hraw Hlen.
  destruct (fields_shape _ _ Hfs) as (to' & data & Ht & Hd & H1 & H2 & H3 & H4 & H5 & H6 & E). rewrite Hto in Ht. injection Ht as <-.
  set (it := Items _) in Hraw. assert (Hl : len (rlpEncode it) < 2 ^ 53) by (rewrite Hraw in Hlen; unfold len in *; cbn [length] in Hlen; lia).
  assert (Hok : item_ok it).
  { apply items_ok, Forall_app. split; [by eapply fields_ok|].
    repeat (apply Forall_cons; split; [by apply digits_spec|]). done. }
  assert (Hb : Forall is_byte raw) by (rewrite Hraw; constructor; [done|by apply rlpEncode_bytes]).
  unfold decodeSignedEip1559. rewrite hexToBytes_bytesToHex by done. cbn [mbind option_bind].
  assert (head raw = Some 2 /\ drop 1 raw = rlpEncode it) as [-> ->] by (by rewrite Hraw). rewrite bool_decide_eq_true_2 by done.
  cbn [negb]. rewrite rlpDecode_encode by done. cbn [mbind option_bind]. subst it. rewrite E.
  cbn [app field mbind option_bind]. rewrite H20. cbn [Nat.eqb negb]. rewrite !num_digits by done. cbn [mbind option_bind].
  rewrite Number_of_small by done. cbn [mbind option_bind].
  assert (Etx : mkEip1559 (tx_chainId tx) (tx_nonce tx) (tx_maxPriorityFeePerGas tx) (tx_maxFeePerGas tx) (tx_gasLimit tx)
    (toChecksumAddress keccak_hex_of (bytesToHex to)) (tx_value tx) (bytesToHex data) = canonical_tx tx).
  { unfold canonical_tx. rewrite (checksummed_same _ _ Hto). apply hexToBytes_Some in Hd as (? & ? & ->).
    unfold bytesToHex. by rewrite toString_Buffer. }
  rewrite Etx, Z.ltb_antisym. destruct (Z.leb_spec y 1) as [Hy1|]; [|done]. cbn [negb].
  assert (unsignedPayload (canonical_tx tx) = unsignedPayload tx) as -> by (unfold unsignedPayload; by rewrite (canonical_fields _ _ Hfs), Hfs).
  rewrite Hp. cbn [mbind option_bind]. by rewrite Hrec.
Qed.

(** The parity byte of a transaction's signature. *)
Definition signature_parity (tx : Eip1559Transaction) (key : list Z) : option Z :=
  payload ← unsignedPayload tx; sig ← secp_sign (keccak payload) key; Some (nth 0 sig 0).

Lemma signed_reads_back tx key st pub y :
  signEip1559 tx key = Some st -> signature_parity tx key = Some y -> secp_public key = Some pub ->
  (exists to, hexToBytes (tx_to tx) = Some to /\ length to = 20%nat) -> tx_chainId tx < 2 ^ 53 ->
  Z.of_nat (String.length (st_raw st)) < 2 ^ 53 ->
  decodeSignedEip1559 (st_raw st) = if y <=? 1 then Some (mkDecoded (canonical_tx tx) (address_of_public pub) (st_hash st)) else None.
Proof.
  unfold signEip1559, signature_parity. intros Hst Hy Hpub Hto Hc Hlen.
  destruct (unsignedPayload tx) as [payload|] eqn:Hp; [|done]. cbn [mbind option_bind] in *.
  destruct (secp_sign (keccak payload) key) as [sig|] eqn:Hsig; [|done]. cbn [mbind option_bind] in *. injection Hy as <-.
  destruct (sign_bytes _ _ _ Hsig) as [H65 Hb]. rewrite (take_ge (drop 33 sig)) in Hst by (rewrite length_drop; lia).
  assert (Hr : Forall is_byte (take 32 (drop 1 sig)) /\ take 32 (drop 1 sig) <> []).
  { split; [by apply Forall_take, Forall_drop|]. intros E. apply (f_equal length) in E. by rewrite length_take, length_drop, H65 in E. }
  assert (Hs : Forall is_byte (drop 33 sig) /\ drop 33 sig <> []).
  { split; [by apply Forall_drop|]. intros E. apply (f_equal length) in E. by rewrite length_drop, H65 in E. }
  rewrite !BigInt_bytesToHex in Hst by (by destruct Hr, Hs). cbn [mbind option_bind] in Hst.
  assert (Hr0 := value_nonneg 256 ltac:(lia) _ (proj1 Hr)). assert (Hs0 := value_nonneg 256 ltac:(lia) _ (proj1 Hs)).
  assert (Hy0 : is_byte (nth 0 sig 0)) by (destruct sig; [done|by apply Forall_cons in Hb as [? _]]). destruct Hy0 as [Hy0 _].
  destruct (fields tx) as [fs|] eqn:Hfs; [|done]. cbn [mbind option_bind] in Hst.
  rewrite !bigintToBytes_digits in Hst by done. cbn [mbind option_bind] in Hst. injection Hst as <-. cbn [st_raw st_hash] in *.
  assert (Hl : len (2 :: rlpEncode (Items (fs ++ [Bytes (digits 256 (nth 0 sig 0)); Bytes (digits 256 (value 256 (take 32 (drop 1 sig))));
                                      Bytes (digits 256 (value 256 (drop 33 sig)))]))) < 2 ^ 53).
  { rewrite bytesToHex_length in Hlen. rewrite <- rlpEncode_Items in Hlen. unfold len. lia. }
  rewrite <- rlpEncode_Items.
  apply (decode_signed tx fs (nth 0 sig 0) (value 256 (take 32 (drop 1 sig))) (value 256 (drop 33 sig)) pub payload); try done.
  intros Hle. by rewrite (sign_recovers _ _ _ Hsig Hle).
Qed.

(** What the service signs reads back whole. For a transaction to an address of
    twenty bytes, on a chain whose id is a safe integer: the signed text decodes to the
    same numbers, the same call data and the checksummed address, to the hash that was
    answered with it, and to the address of the key that signed; only the rare
    signature whose recovery needs more than its parity is refused. *)
Theorem signed_transaction_read_back tx key st pub y :
  signEip1559 tx key = Some st -> signature_parity tx key = Some y -> secp_public key = Some pub ->
  (exists to, hexToBytes (tx_to tx) = Some to /\ length to = 20%nat) -> tx_chainId tx < 2 ^ 53 ->
  Z.of_nat (String.length (st_raw st)) < 2 ^ 53 ->
  decodeSignedEip1559 (st_raw st) = if y <=? 1 then Some (mkDecoded (canonical_tx tx) (address_of_public pub) (st_hash st)) else None.
Proof. apply signed_reads_back. Qed.
End read_back.

(** ** A signature scheme for examples *)

#[export] Instance sample_secp : Secp := {|
  keccak b := take 32 (b ++ repeat 0 32);
  secp_public k := Some (4 :: k);
  secp_sign d k := if (length k =? 64)%nat && forallb (fun b => (0 <=? b) && (b <? 256)) k then Some (1 :: k) else None;
  secp_recover r s y d := Some (4 :: (repeat 0 (32 - length (digits 256 r)) ++ digits 256 r) ++ (repeat 0 (32 - length (digits 256 s)) ++ digits 256 s))
|}.

Lemma padded_digits n l : Forall is_byte l -> length l = n ->
  repeat 0 (n - length (digits 256 (value 256 l))) ++ digits 256 (value 256 l) = l.
Proof.
  intros Hb <-. destruct (strip_leading l) as (m & E & Hm). assert (Hbm : Forall is_byte m).
  { rewrite E in Hb. by apply Forall_app in Hb as [_ ?]. }
  assert (digits 256 (value 256 l) = m) as ->. { rewrite E, value_zeros. by apply digits_value; [lia|..]. }
  rewrite E at 1. rewrite length_app, repeat_length, Nat.add_sub. by rewrite <- E.
Qed.

#[export] Instance sample_secp_laws : SecpLaws.
Proof.
  split.
  - intros d k sig. cbn [secp_sign sample_secp]. destruct (_ && _) eqn:E; [|done]. intros [= <-].
    apply andb_true_iff in E as [Hl Hb]. apply Nat.eqb_eq in Hl. split; [cbn [length]; lia|]. constructor; [unfold is_byte; lia|].
    apply Forall_forall. intros x Hx. rewrite forallb_forall in Hb. apply list_elem_of_In, Hb in Hx. unfold is_byte. lia.
  - intros d k sig. cbn [secp_sign secp_recover secp_public sample_secp]. destruct (_ && _) eqn:E; [|done]. intros [= <-] _.
    apply andb_true_iff in E as [Hl Hb]. apply Nat.eqb_eq in Hl.
    assert (Hf : Forall is_byte k).
    { apply Forall_forall. intros x Hx. rewrite forallb_forall in Hb. apply list_elem_of_In, Hb in Hx. unfold is_byte. lia. }
    change (drop 1 (1 :: k)) with k. change (drop 33 (1 :: k)) with (drop 32 k).
    rewrite (padded_digits 32 (take 32 k)), (padded_digits 32 (drop 32 k));
      [by rewrite take_drop|by apply Forall_drop|rewrite length_drop; lia|by apply Forall_take|rewrite length_take; lia].
Qed.

(** A call the relayer sends. *)
Definition sample_call : Eip1559Transaction :=
  relayer_transaction 143 7 100000000000 2000000000 400000 ("0x" +:+ zeros 38 +:+ "aB") "0x6f3cFF".
Definition sample_secret : list Z := seqZ 1 64.

Lemma signed_transaction_read_back_witness : exists st pub,
  signEip1559 sample_call sample_secret = Some st
  /\ decodeSignedEip1559 (st_raw st) = Some (mkDecoded (canonical_tx sample_call) (address_of_public pub) (st_hash st)).
Proof.
  destruct (signEip1559 sample_call sample_secret) as [st|] eqn:E; [|by vm_compute in E].
  exists st, (4 :: sample_secret). split; [done|]. change (Some _) with (if 1 <=? 1 then Some (mkDecoded (canonical_tx sample_call)
    (address_of_public (4 :: sample_secret)) (st_hash st)) else None) at 1.
  apply (signed_transaction_read_back sample_call sample_secret); [done|vm_compute; reflexivity|done| |vm_compute; reflexivity|].
  - exists (repeat 0 19 ++ [171]). split; vm_compute; reflexivity.
  - vm_compute in E. injection E as <-. vm_compute; reflexivity.
Defined.
