(* ===== verification/SolanaMessage.v ===== *)
(** Solana's transaction wire format: src/src/solana/solana-message.ts (read, written
    and appended to) and solana-transaction.ts (read as far as a signed swap needs).
    Bytes are lists of [Z]; [None] is a throw, always a plain Error. *)

From S2P Require Import Prelude Text Units MerchantFee Intents ChainAddress Verifier EvmVerifier SolanaVerifier Links PayLinks Rlp.
From stdpp Require Import base tactics list option gmap strings.
From Stdlib Require Import ZArith Lia Ascii.

Open Scope Z_scope.

(** ** Data *)

Record CompiledInstruction := mkCompiled { ci_programIdIndex : Z; ci_accounts : list Z; ci_data : list Z }.
Record LookupTableUse := mkLookup { lu_account : string; lu_writable : list Z; lu_readonly : list Z }.

Inductive MessageVersion := legacy | v0.
#[export] Instance MessageVersion_eq_dec : EqDecision MessageVersion.
Proof. solve_decision. Defined.

(** [header]: numRequiredSignatures, numReadonlySigned, numReadonlyUnsigned. *)
Record CompiledMessage := mkMessage {
  cm_version : MessageVersion;
  cm_header : Z * Z * Z;
  cm_staticKeys : list string;
  cm_recentBlockhash : string;
  cm_instructions : list CompiledInstruction;
  cm_lookups : list LookupTableUse
}.
Record DecodedTransaction := mkDecodedTx { dt_signatures : list (list Z); dt_message : CompiledMessage }.

(** One account an instruction reads or writes, and an instruction
    (solana-transaction-builder.ts). *)
Record SolanaAccountMeta := mkMeta { me_pubkey : string; me_isSigner : bool; me_isWritable : bool }.
Record SolanaInstruction := mkInstruction { si_programId : string; si_keys : list SolanaAccountMeta; si_data : list Z }.

(** ** compact-u16 *)

(** Three groups of seven bits at most. *)
Fixpoint shortvec_from (groups : nat) (i value : Z) (bytes : list Z) (at_ : nat) : option (Z * nat) :=
  match groups with
  | O => None
  | S groups =>
      byte ← bytes !! at_;
      let value := Z.lor value (Z.shiftl (Z.land byte 127) (7 * i)) in
      if Z.land byte 128 =? 0 then Some (value, S at_) else shortvec_from groups (i + 1) value bytes (S at_)
  end.
Definition readShortVec (bytes : list Z) (at_ : nat) : option (Z * nat) := shortvec_from 3 0 0 bytes at_.

(** Array lengths are below 2^32, so five groups are enough. *)
Fixpoint shortvec_groups (groups : nat) (rest : Z) : list Z :=
  match groups with
  | O => []
  | S groups =>
      let byte := Z.land rest 127 in
      let rest := Z.shiftr rest 7 in
      if rest =? 0 then [byte] else Z.lor byte 128 :: shortvec_groups groups rest
  end.
Definition shortVec (value : Z) : list Z := shortvec_groups 5 value.

Definition key (base58 : string) : option (list Z) :=
  bytes ← decodeBase58 base58; if (length bytes =? 32)%nat then Some bytes else None.

(** [bytes.subarray(start, end)] *)
Definition subarray (bytes : list Z) (start end_ : nat) : list Z := take (end_ - start) (drop start bytes).

(** ** Reading *)

Definition read_key (m : list Z) (at_ : nat) : string * nat := (encodeBase58 (subarray m at_ (at_ + 32)), (at_ + 32)%nat).

(** A length and as many bytes. *)
Definition read_bytes (m : list Z) (at_ : nat) : option (list Z * nat) :=
  p ← readShortVec m at_;
  let end_ := (snd p + Z.to_nat (fst p))%nat in
  Some (subarray m (snd p) end_, end_).

Definition read_instruction (m : list Z) (at_ : nat) : option (CompiledInstruction * nat) :=
  programIdIndex ← m !! at_;
  a ← read_bytes m (S at_);
  d ← read_bytes m (snd a);
  Some (mkCompiled programIdIndex (fst a) (fst d), snd d).

Definition read_lookup (m : list Z) (at_ : nat) : option (LookupTableUse * nat) :=
  let k := read_key m at_ in
  w ← read_bytes m (snd k);
  r ← read_bytes m (snd w);
  Some (mkLookup (fst k) (fst w) (fst r), snd r).

(** [count] items, one after the other. *)
Fixpoint read_many {A} (read : list Z -> nat -> option (A * nat)) (m : list Z) (count : nat) (at_ : nat) : option (list A * nat) :=
  match count with
  | O => Some ([], at_)
  | S count =>
      x ← read m at_;
      r ← read_many read m count (snd x);
      Some (fst x :: fst r, snd r)
  end.

Definition read_counted {A} (read : list Z -> nat -> option (A * nat)) (m : list Z) (at_ : nat) : option (list A * nat) :=
  p ← readShortVec m at_; read_many read m (Z.to_nat (fst p)) (snd p).

(** A header past the end is undefined in the source, and what follows it then throws. *)
Definition read_message (m : list Z) : option CompiledMessage :=
  let first := default 0 (head m) in
  v ← (if Z.land first 128 =? 0 then Some (legacy, O) else if first =? 128 then Some (v0, 1%nat) else None);
  let at_ := snd v in
  h1 ← m !! at_;
  h2 ← m !! S at_;
  h3 ← m !! S (S at_);
  keys ← read_counted (fun m a => Some (read_key m a)) m (3 + at_);
  let blockhash := read_key m (snd keys) in
  ixs ← read_counted read_instruction m (snd blockhash);
  lookups ← (match fst v with legacy => Some ([], snd ixs) | v0 => read_counted read_lookup m (snd ixs) end);
  if (snd lookups =? length m)%nat
  then Some (mkMessage (fst v) (h1, h2, h3) (fst keys) (fst blockhash) (fst ixs) (fst lookups))
  else None.

Definition signature_at (bytes : list Z) (afterCount i : nat) : list Z :=
  subarray bytes (afterCount + i * 64) (afterCount + (i + 1) * 64).

Definition decodeTransaction (bytes : list Z) : option DecodedTransaction :=
  p ← readShortVec bytes 0;
  let count := Z.to_nat (fst p) in
  message ← read_message (drop (snd p + count * 64) bytes);
  Some (mkDecodedTx (List.map (signature_at bytes (snd p)) (seq 0 count)) message).

(** ** Writing *)

(** [Uint8Array.from] *)
Definition u8 (l : list Z) : list Z := List.map (fun x => x mod 256) l.

Definition len_of {A} (l : list A) : Z := Z.of_nat (length l).

Definition write_bytes (l : list Z) : list Z := shortVec (len_of l) ++ l.

Definition write_instruction (ix : CompiledInstruction) : list Z :=
  ci_programIdIndex ix :: write_bytes (ci_accounts ix) ++ write_bytes (ci_data ix).

Definition write_lookup (l : LookupTableUse) : option (list Z) :=
  k ← key (lu_account l); Some (k ++ write_bytes (lu_writable l) ++ write_bytes (lu_readonly l)).

Definition encodeMessage (message : CompiledMessage) : option (list Z) :=
  let '(h1, h2, h3) := cm_header message in
  keys ← mapM key (cm_staticKeys message);
  blockhash ← key (cm_recentBlockhash message);
  lookups ← (match cm_version message with
             | legacy => Some []
             | v0 => ls ← mapM write_lookup (cm_lookups message); Some (shortVec (len_of (cm_lookups message)) ++ List.concat ls)
             end);
  Some (u8 ((match cm_version message with legacy => [] | v0 => [128] end) ++ [h1; h2; h3]
            ++ shortVec (len_of (cm_staticKeys message)) ++ List.concat keys ++ blockhash
            ++ shortVec (len_of (cm_instructions message)) ++ List.concat (List.map write_instruction (cm_instructions message))
            ++ lookups)).

(** [out.set(bytes, offset)], a RangeError past the end. *)
Definition set_at (bytes : list Z) (offset : nat) (out : list Z) : option (list Z) :=
  if (length out <? offset + length bytes)%nat then None
  else Some (take offset out ++ bytes ++ drop (offset + length bytes) out).

Fixpoint set_signatures (sigs : list (list Z)) (offset : nat) (out : list Z) : option (list Z) :=
  match sigs with
  | [] => Some out
  | s :: r => out ← set_at s offset out; set_signatures r (offset + 64) out
  end.

Definition encodeTransaction (tx : DecodedTransaction) : option (list Z) :=
  message ← encodeMessage (dt_message tx);
  let prefix := u8 (shortVec (len_of (dt_signatures tx))) in
  let n := length (dt_signatures tx) in
  out ← set_at prefix 0 (repeat 0 (length prefix + n * 64 + length message));
  out ← set_signatures (dt_signatures tx) (length prefix) out;
  set_at message (length prefix + n * 64) out.

(** ** compact-u16, read back *)

Lemma land_mod a k : 0 <= k -> Z.land a (2 ^ k - 1) = a mod 2 ^ k.
Proof. intros Hk. rewrite <- Z.land_ones by done. by rewrite Z.ones_equiv, Z.sub_1_r. Qed.

Lemma lor_shiftl a b k : 0 <= k -> 0 <= a < 2 ^ k -> Z.lor a (Z.shiftl b k) = a + b * 2 ^ k.
Proof.
  intros Hk Ha. rewrite <- Z.shiftl_mul_pow2 by done.
  assert (E : Z.land a (Z.shiftl b k) = 0).
  { apply Z.bits_inj'. intros n Hn. rewrite Z.land_spec, Z.bits_0. destruct (Z.lt_ge_cases n k) as [H|H].
    - by rewrite Z.shiftl_spec_low, andb_false_r.
    - rewrite <- (Z.mod_small a (2 ^ k)) by done. by rewrite Z.mod_pow2_bits_high by lia. }
  by rewrite Z.add_nocarry_lxor, Z.lxor_lor.
Qed.

(** One group with its continuation bit. *)
Lemma group_bits b : 0 <= b < 128 ->
  Z.land b 127 = b /\ Z.land b 128 = 0 /\ Z.lor b 128 = b + 128 /\ Z.land (b + 128) 127 = b /\ Z.land (b + 128) 128 = 128.
Proof.
  intros H. assert (D : b ∈ seqZ 0 128) by (apply elem_of_seqZ; lia). clear H. revert b D.
  apply Forall_forall. vm_compute. repeat constructor.
Qed.

Lemma shortVec_groups v : 0 <= v < 2 ^ 21 ->
  shortVec v = if v <? 128 then [v] else if v <? 16384 then [v mod 128 + 128; v / 128]
               else [v mod 128 + 128; v / 128 mod 128 + 128; v / 16384].
Proof.
  intros Hv. unfold shortVec. cbn [shortvec_groups]. change 127 with (2 ^ 7 - 1). rewrite !land_mod, !Z.shiftr_div_pow2 by lia.
  change (2 ^ 7) with 128. rewrite !Z.div_div by lia.
  assert (G : forall x, Z.lor (x mod 128) 128 = x mod 128 + 128)
    by (intros x; apply group_bits, Z.mod_pos_bound; lia).
  rewrite !G. destruct (Z.ltb_spec v 128) as [H|H].
  { by rewrite (Z.div_small v 128), (Z.mod_small v 128) by lia. }
  assert (1 <= v / 128) by (apply Z.div_le_lower_bound; lia). rewrite (proj2 (Z.eqb_neq (v / 128) 0)) by lia.
  destruct (Z.ltb_spec v 16384) as [H1|H1].
  { rewrite (Z.div_small v (128 * 128)) by lia. cbn [Z.eqb]. rewrite (Z.mod_small (v / 128)); [done|].
    split; [lia|]. apply Z.div_lt_upper_bound; lia. }
  assert (1 <= v / (128 * 128)) by (apply Z.div_le_lower_bound; lia). rewrite (proj2 (Z.eqb_neq (v / (128 * 128)) 0)) by lia.
  rewrite (Z.div_small v (128 * 128 * 128)) by lia. cbn [Z.eqb]. rewrite (Z.mod_small (v / (128 * 128))); [done|].
  split; [lia|]. apply Z.div_lt_upper_bound; lia.
Qed.

Lemma shortVec_bytes v : 0 <= v < 2 ^ 21 -> Forall is_byte (shortVec v).
Proof.
  intros Hv. rewrite shortVec_groups by done. assert (G := fun x => Z.mod_pos_bound x 128 ltac:(lia)).
  assert (G1 := G v). assert (G2 := G (v / 128)). unfold is_byte.
  destruct (Z.ltb_spec v 128); [repeat constructor; lia|]. destruct (Z.ltb_spec v 16384).
  - assert (0 <= v / 128 < 128) by (split; [apply Z.div_pos; lia|apply Z.div_lt_upper_bound; lia]). repeat constructor; lia.
  - assert (0 <= v / 16384 < 128) by (split; [apply Z.div_pos; lia|apply Z.div_lt_upper_bound; lia]). repeat constructor; lia.
Qed.

Section written.
Context (m : list Z).

Lemma shortVec_read v at_ : 0 <= v < 2 ^ 21 -> lies m (shortVec v) at_ -> readShortVec m at_ = Some (v, (at_ + length (shortVec v))%nat).
Proof.
  intros Hv. rewrite shortVec_groups by done. unfold readShortVec. cbn [shortvec_from].
  assert (G := fun x => Z.mod_pos_bound x 128 ltac:(lia)).
  destruct (Z.ltb_spec v 128) as [H|H].
  { intros [-> _]%lies_head. cbn [mbind option_bind]. destruct (group_bits v) as (-> & -> & _); [lia|]. cbn [Z.eqb length].
    rewrite Z.shiftl_0_r, Z.lor_0_l. do 2 f_equal. lia. }
  destruct (Z.ltb_spec v 16384) as [H1|H1].
  - intros [-> [-> _]%lies_head]%lies_head. cbn [mbind option_bind].
    assert (B : 0 <= v / 128 < 128) by (split; [apply Z.div_pos; lia|apply Z.div_lt_upper_bound; lia]).
    destruct (group_bits _ (G v)) as (_ & _ & _ & -> & ->). destruct (group_bits _ B) as (-> & -> & _). cbn [Z.eqb length].
    rewrite Z.shiftl_0_r, Z.lor_0_l, lor_shiftl by (try apply G; lia). do 2 f_equal; [|lia]. Z.to_euclidean_division_equations. lia.
  - intros [-> [-> [-> _]%lies_head]%lies_head]%lies_head. cbn [mbind option_bind].
    assert (B : 0 <= v / 16384 < 128) by (split; [apply Z.div_pos; lia|apply Z.div_lt_upper_bound; lia]).
    destruct (group_bits _ (G v)) as (_ & _ & _ & -> & ->), (group_bits _ (G (v / 128))) as (_ & _ & _ & -> & ->).
    destruct (group_bits _ B) as (-> & -> & _). cbn [Z.eqb length]. assert (G1 := G v). assert (G2 := G (v / 128)).
    rewrite Z.shiftl_0_r, Z.lor_0_l. change (7 * (0 + 1)) with 7. change (7 * (0 + 1 + 1)) with 14.
    rewrite (lor_shiftl (v mod 128)) by lia. rewrite lor_shiftl by lia. do 2 f_equal; [|lia].
    change (2 ^ 7) with 128. change (2 ^ 14) with 16384. change 16384 with (128 * 128). rewrite <- Z.div_div by lia.
    Z.to_euclidean_division_equations. lia.
Qed.

Lemma subarray_lies l at_ : lies m l at_ -> subarray m at_ (at_ + length l) = l.
Proof.
  intros (rest & E & _). unfold subarray. replace (at_ + length l - at_)%nat with (length l) by lia. rewrite E.
  by rewrite take_app_length.
Qed.

Lemma read_bytes_lies l at_ : len_of l < 2 ^ 21 -> lies m (write_bytes l) at_ ->
  read_bytes m at_ = Some (l, (at_ + length (write_bytes l))%nat).
Proof.
  unfold write_bytes, read_bytes. intros Hl [H1 H2]%lies_app. assert (Hn : 0 <= len_of l) by (unfold len_of; lia).
  rewrite (shortVec_read (len_of l)) by done. cbn [mbind option_bind fst snd]. replace (Z.to_nat (len_of l)) with (length l) by (unfold len_of; lia).
  rewrite (subarray_lies l) by done. rewrite length_app. do 2 f_equal. lia.
Qed.

Lemma read_key_lies k b at_ : key k = Some b -> lies m b at_ -> read_key m at_ = (k, (at_ + length b)%nat).
Proof.
  unfold key, read_key. destruct (decodeBase58 k) as [b'|] eqn:E; [|done]. cbn [mbind option_bind].
  destruct (Nat.eqb_spec (length b') 32) as [E32|]; [|done]. intros [= ->] H. rewrite <- E32, subarray_lies by done.
  f_equal. by apply (base58_roundtrip b k).
Qed.

(** Writings that are read back, in a row. *)
Definition read_back {A} (read : list Z -> nat -> option (A * nat)) (x : A) (b : list Z) : Prop :=
  forall at_, lies m b at_ -> read m at_ = Some (x, (at_ + length b)%nat).

Lemma read_many_lies {A} (read : list Z -> nat -> option (A * nat)) xs bs at_ : Forall2 (read_back read) xs bs ->
  lies m (List.concat bs) at_ -> read_many read m (length xs) at_ = Some (xs, (at_ + length (List.concat bs))%nat).
Proof.
  intros H. revert at_. induction H as [|x b xs bs Hx _ IH]; intros at_; cbn [List.concat length read_many].
  - intros _. by rewrite Nat.add_0_r.
  - intros [H1 H2]%lies_app. rewrite Hx by done. cbn [mbind option_bind fst snd]. rewrite IH by done. cbn [mbind option_bind fst snd].
    rewrite length_app. by rewrite Nat.add_assoc.
Qed.

Lemma read_counted_lies {A} (read : list Z -> nat -> option (A * nat)) xs bs at_ : len_of xs < 2 ^ 21 ->
  Forall2 (read_back read) xs bs -> lies m (shortVec (len_of xs) ++ List.concat bs) at_ ->
  read_counted read m at_ = Some (xs, (at_ + length (shortVec (len_of xs) ++ List.concat bs))%nat).
Proof.
  intros Hl Hf [H1 H2]%lies_app. unfold read_counted. assert (Hn : 0 <= len_of xs) by (unfold len_of; lia).
  rewrite (shortVec_read (len_of xs)) by done. cbn [mbind option_bind fst snd]. replace (Z.to_nat (len_of xs)) with (length xs) by (unfold len_of; lia).
  rewrite (read_many_lies _ _ bs) by done. by rewrite length_app, Nat.add_assoc.
Qed.
End written.

(** ** Messages, read back *)

(** A list the format can count, and bytes it can hold. *)
Definition vec_ok {A} (l : list A) : Prop := len_of l < 2 ^ 21.
Definition bytes_ok (l : list Z) : Prop := Forall is_byte l /\ vec_ok l.
Definition key_ok (k : string) : Prop := exists b, key k = Some b.
Definition instruction_ok (ix : CompiledInstruction) : Prop :=
  is_byte (ci_programIdIndex ix) /\ bytes_ok (ci_accounts ix) /\ bytes_ok (ci_data ix).
Definition lookup_ok (l : LookupTableUse) : Prop := key_ok (lu_account l) /\ bytes_ok (lu_writable l) /\ bytes_ok (lu_readonly l).

(** A legacy message has no lookups, and its first byte, the number of signers, is
    not mistaken for a version. *)
Record message_ok (m : CompiledMessage) : Prop := mkMessageOk {
  mo_header : let '(h1, h2, h3) := cm_header m in Forall is_byte [h1; h2; h3] /\ (cm_version m = legacy -> h1 < 128);
  mo_keys : Forall key_ok (cm_staticKeys m) /\ vec_ok (cm_staticKeys m);
  mo_blockhash : key_ok (cm_recentBlockhash m);
  mo_instructions : Forall instruction_ok (cm_instructions m) /\ vec_ok (cm_instructions m);
  mo_lookups : Forall lookup_ok (cm_lookups m) /\ vec_ok (cm_lookups m) /\ (cm_version m = legacy -> cm_lookups m = [])
}.
Definition transaction_ok (tx : DecodedTransaction) : Prop :=
  Forall (fun s => Forall is_byte s /\ length s = 64%nat) (dt_signatures tx) /\ vec_ok (dt_signatures tx)
  /\ message_ok (dt_message tx).

Lemma u8_bytes l : Forall is_byte l -> u8 l = l.
Proof. induction 1 as [|b l Hb _ IH]; [done|]. unfold u8 in *. cbn [List.map]. rewrite IH, Z.mod_small by done. done. Qed.

Lemma key_bytes k b : key k = Some b -> Forall is_byte b /\ length b = 32%nat.
Proof.
  unfold key. destruct (decodeBase58 k) as [c|] eqn:E; [|done]. cbn [mbind option_bind].
  destruct (Nat.eqb_spec (length c) 32); [|done]. intros [= <-]. split; [|done]. by apply (base58_roundtrip c k).
Qed.

Lemma len_of_nonneg {A} (l : list A) : 0 <= len_of l.
Proof. unfold len_of. lia. Qed.

Lemma shortVec_len_bytes {A} (l : list A) : vec_ok l -> Forall is_byte (shortVec (len_of l)).
Proof. intros H. apply shortVec_bytes. split; [apply len_of_nonneg|done]. Qed.

Lemma write_bytes_bytes l : bytes_ok l -> Forall is_byte (write_bytes l).
Proof. intros [H1 H2]. apply Forall_app. split; [by apply shortVec_len_bytes|done]. Qed.

Lemma write_instruction_bytes ix : instruction_ok ix -> Forall is_byte (write_instruction ix).
Proof. intros (H1 & H2 & H3). constructor; [done|]. apply Forall_app. split; by apply write_bytes_bytes. Qed.

Lemma concat_bytes (ls : list (list Z)) : Forall (Forall is_byte) ls -> Forall is_byte (List.concat ls).
Proof. induction 1; cbn [List.concat]; [done|]. by apply Forall_app. Qed.

Section messages.
Context (m : list Z).

Lemma instruction_back ix : instruction_ok ix -> read_back m read_instruction ix (write_instruction ix).
Proof.
  intros (_ & [_ H2] & [_ H3]) at_ H. destruct ix as [p a d]. unfold write_instruction in *. cbn [ci_programIdIndex ci_accounts ci_data] in *.
  apply lies_head in H as [Hp H]. apply lies_app in H as [Ha Hd]. unfold read_instruction. rewrite Hp. cbn [mbind option_bind].
  rewrite (read_bytes_lies m a) by done. cbn [mbind option_bind fst snd]. rewrite (read_bytes_lies m d) by done. cbn [mbind option_bind fst snd].
  cbn [length]. rewrite length_app. do 2 f_equal. lia.
Qed.

Lemma lookup_back l b : lookup_ok l -> write_lookup l = Some b -> read_back m read_lookup l b.
Proof.
  intros (_ & [_ H2] & [_ H3]) Hw at_ H. destruct l as [k w r]. unfold write_lookup in Hw. cbn [lu_account lu_writable lu_readonly] in *.
  destruct (key k) as [kb|] eqn:Ek; [|done]. cbn [mbind option_bind] in Hw. injection Hw as <-.
  apply lies_app in H as [Hk H]. apply lies_app in H as [Hw Hr]. unfold read_lookup. rewrite (read_key_lies m k kb) by done. cbv zeta. cbn [fst snd].
  rewrite (read_bytes_lies m w) by done. cbn [mbind option_bind fst snd]. rewrite (read_bytes_lies m r) by done. cbn [mbind option_bind fst snd].
  rewrite !length_app. do 2 f_equal. lia.
Qed.

Lemma key_back k b : key k = Some b -> read_back m (fun m a => Some (read_key m a)) k b.
Proof. intros Hk at_ H. by rewrite (read_key_lies m k b). Qed.
End messages.

(** The parts of an encoded message. *)
Lemma encodeMessage_parts msg out : message_ok msg -> encodeMessage msg = Some out ->
  exists h1 h2 h3 keys blockhash lookups,
    cm_header msg = (h1, h2, h3) /\ Forall2 (fun k b => key k = Some b) (cm_staticKeys msg) keys
    /\ key (cm_recentBlockhash msg) = Some blockhash
    /\ Forall2 (fun l b => write_lookup l = Some b) (cm_lookups msg) lookups
    /\ out = (match cm_version msg with legacy => [] | v0 => [128] end) ++ [h1; h2; h3]
             ++ (shortVec (len_of (cm_staticKeys msg)) ++ List.concat keys) ++ blockhash
             ++ (shortVec (len_of (cm_instructions msg)) ++ List.concat (List.map write_instruction (cm_instructions msg)))
             ++ match cm_version msg with legacy => [] | v0 => shortVec (len_of (cm_lookups msg)) ++ List.concat lookups end
    /\ Forall is_byte out.
Proof.
  intros [Hh [Hk Hkv] [bh Hbh] [Hi Hiv] (Hl & Hlv & Hleg)] He. unfold encodeMessage in He.
  destruct (cm_header msg) as [[h1 h2] h3]. destruct Hh as [Hh _]. cbv zeta in He.
  destruct (mapM key (cm_staticKeys msg)) as [keys|] eqn:Ek; [|done]. cbn [mbind option_bind] in He. apply mapM_Some in Ek.
  rewrite Hbh in He. cbn [mbind option_bind] in He.
  assert (Hw : exists lookups, Forall2 (fun l b => write_lookup l = Some b) (cm_lookups msg) lookups
    /\ Forall (Forall is_byte) lookups
    /\ match cm_version msg with
       | legacy => Some []
       | v0 => ls ← mapM write_lookup (cm_lookups msg); Some (shortVec (len_of (cm_lookups msg)) ++ List.concat ls)
       end = Some (match cm_version msg with legacy => [] | v0 => shortVec (len_of (cm_lookups msg)) ++ List.concat lookups end)).
  { destruct (cm_version msg); [exists []; by rewrite Hleg|].
    destruct (mapM write_lookup (cm_lookups msg)) as [ls|] eqn:Els; [|done]. exists ls. apply mapM_Some in Els. split_and!; [done| |done].
    clear -Els Hl. induction Els as [|l b ls bs Hb _ IH]; [done|]. apply Forall_cons in Hl as [(_ & H2 & H3) Hl]. constructor; [|by apply IH].
    unfold write_lookup in Hb. destruct (key (lu_account l)) as [kb|] eqn:E; [|done]. injection Hb as <-.
    apply key_bytes in E as [E _]. apply Forall_app. split; [done|]. apply Forall_app. split; by apply write_bytes_bytes. }
  destruct Hw as (lookups & Hf & Hlb & Ew). rewrite Ew in He. cbn [mbind option_bind] in He. apply Some_inj in He. subst out.
  exists h1, h2, h3, keys, bh, lookups.
  assert (Hall : Forall is_byte ((match cm_version msg with legacy => [] | v0 => [128] end) ++ [h1; h2; h3]
             ++ (shortVec (len_of (cm_staticKeys msg)) ++ List.concat keys) ++ bh
             ++ (shortVec (len_of (cm_instructions msg)) ++ List.concat (List.map write_instruction (cm_instructions msg)))
             ++ match cm_version msg with legacy => [] | v0 => shortVec (len_of (cm_lookups msg)) ++ List.concat lookups end)).
  { repeat (apply Forall_app; split); try by apply shortVec_len_bytes.
    - by destruct (cm_version msg); repeat constructor.
    - done.
    - apply concat_bytes. clear -Ek. induction Ek as [|k b ks bs Hb _ IH]; constructor; [by apply key_bytes in Hb as [? _]|done].
    - by apply key_bytes in Hbh as [? _].
    - apply concat_bytes. clear -Hi. induction Hi; cbn [List.map]; constructor; [by apply write_instruction_bytes|done].
    - destruct (cm_version msg); [done|]. apply Forall_app. split; [by apply shortVec_len_bytes|by apply concat_bytes]. }
  assert (Eu := u8_bytes _ Hall). rewrite <- !app_assoc in *. rewrite Eu. split_and!; try done. 
Qed.

Lemma lies_all out : lies out out 0.
Proof. exists []. rewrite app_nil_r, drop_0. split; [done|lia]. Qed.

Lemma version_read msg h1 h2 h3 body : cm_header msg = (h1, h2, h3) -> is_byte h1 -> (cm_version msg = legacy -> h1 < 128) ->
  let out := (match cm_version msg with legacy => [] | v0 => [128] end) ++ [h1; h2; h3] ++ body in
  let at_ := match cm_version msg with legacy => O | v0 => 1%nat end in
  (if Z.land (default 0 (head out)) 128 =? 0 then Some (legacy, O)
   else if default 0 (head out) =? 128 then Some (v0, 1%nat) else None) = Some (cm_version msg, at_)
  /\ out !! at_ = Some h1 /\ out !! S at_ = Some h2 /\ out !! S (S at_) = Some h3 /\ lies out body (3 + at_).
Proof.
  intros Hh Hb Hleg. cbv zeta. destruct (cm_version msg); cbn [app].
  - specialize (Hleg eq_refl). destruct (group_bits h1) as (_ & E & _); [unfold is_byte in Hb; lia|].
    change (default 0 (head (h1 :: h2 :: h3 :: body))) with h1. rewrite E. split_and!; try done. exists []. rewrite app_nil_r. split; [done|cbn [length]; lia].
  - split_and!; try done. exists []. rewrite app_nil_r. split; [done|cbn [length]; lia].
Qed.

Lemma encodeMessage_read msg out : message_ok msg -> encodeMessage msg = Some out -> read_message out = Some msg.
Proof.
  intros Hok He. destruct (encodeMessage_parts _ _ Hok He) as (h1 & h2 & h3 & keys & bh & lookups & Hh & Hk & Hbh & Hl & Hout & _).
  destruct Hok as [Hhd [_ Hkv] _ [Hi Hiv] (Hlo & Hlv & Hleg)]. rewrite Hh in Hhd. destruct Hhd as [Hb3 Hleg1].
  apply Forall_cons in Hb3 as [Hb1 _]. clear He.
  set (ks := shortVec (len_of (cm_staticKeys msg)) ++ List.concat keys) in *.
  set (iw := shortVec (len_of (cm_instructions msg)) ++ List.concat (List.map write_instruction (cm_instructions msg))) in *.
  set (ls := match cm_version msg with legacy => [] | v0 => shortVec (len_of (cm_lookups msg)) ++ List.concat lookups end) in *.
  destruct (version_read msg h1 h2 h3 (ks ++ bh ++ iw ++ ls) Hh Hb1 Hleg1) as (Ev & E1 & E2 & E3 & Hbody). rewrite <- Hout in *.
  unfold read_message. cbv zeta. rewrite Ev. cbn [mbind option_bind fst snd]. rewrite E1, E2, E3. cbn [mbind option_bind].
  set (at_ := match cm_version msg with legacy => O | v0 => 1%nat end) in *.
  assert (Hlen := lies_length _ _ _ Hbody). apply lies_app in Hbody as [Hks Hbody]. apply lies_app in Hbody as [Hb Hbody].
  apply lies_app in Hbody as [His Hls].
  rewrite (read_counted_lies out _ (cm_staticKeys msg) keys); [|done| |done].
  2: { eapply Forall2_impl; [exact Hk|]. intros k b Hkb. by apply key_back. }
  cbn [mbind option_bind fst snd]. fold ks. rewrite (read_key_lies out (cm_recentBlockhash msg) bh) by done. cbn [fst snd].
  rewrite (read_counted_lies out _ (cm_instructions msg) (List.map write_instruction (cm_instructions msg))); [|done| |done].
  2: { clear -Hi. induction Hi; cbn [List.map]; constructor; [by apply instruction_back|done]. }
  cbn [mbind option_bind fst snd]. fold iw.
  assert (Hend : (match cm_version msg with
     | legacy => Some ([], (3 + at_ + length ks + length bh + length iw)%nat)
     | v0 => read_counted read_lookup out (3 + at_ + length ks + length bh + length iw)
     end) = Some (cm_lookups msg, length out)).
  { assert (Hlen' : (3 + at_ + length ks + length bh + length iw + length ls)%nat = length out).
    { rewrite Hout. rewrite !length_app. unfold at_. destruct (cm_version msg); cbn [length]; lia. }
    destruct (cm_version msg) eqn:Ever; [rewrite Hleg by done; unfold ls in Hlen'; cbn [length] in Hlen'; do 2 f_equal; lia|].
    rewrite (read_counted_lies out _ (cm_lookups msg) lookups); [do 2 f_equal; exact Hlen'|done| |done].
    clear -Hl Hlo. induction Hl as [|l b xs bs Hlb _ IH]; [done|]. apply Forall_cons in Hlo as [? ?].
    constructor; [by apply lookup_back|by apply IH]. }
  rewrite Hend. cbn [mbind option_bind fst snd]. rewrite Nat.eqb_refl. f_equal. rewrite <- Hh. by destruct msg.
Qed.

(** ** Transactions, read back *)

Lemma set_at_app a b c l : length b = length l -> set_at l (length a) (a ++ b ++ c) = Some (a ++ l ++ c).
Proof.
  intros E. unfold set_at. rewrite (proj2 (Nat.ltb_ge _ _)) by (rewrite !length_app; lia).
  rewrite take_app_length. replace (length a + length l)%nat with (length (a ++ b)) by (rewrite length_app; lia).
  by rewrite (app_assoc a b c), drop_app_length.
Qed.

Lemma set_signatures_app sigs a c : Forall (fun s : list Z => length s = 64%nat) sigs ->
  set_signatures sigs (length a) (a ++ repeat 0 (length sigs * 64) ++ c) = Some (a ++ List.concat sigs ++ c).
Proof.
  intros H. revert a. induction H as [|s sigs Hs _ IH]; intros a; [done|]. cbn [set_signatures length List.concat].
  replace (S (length sigs) * 64)%nat with (64 + length sigs * 64)%nat by lia. rewrite repeat_app, <- app_assoc.
  rewrite set_at_app by (rewrite repeat_length; lia). cbn [mbind option_bind].
  replace (length a + 64)%nat with (length (a ++ s)) by (rewrite length_app; lia). rewrite (app_assoc a s). rewrite IH.
  by rewrite <- !app_assoc.
Qed.

Lemma concat_length64 (sigs : list (list Z)) : Forall (fun s : list Z => length s = 64%nat) sigs ->
  length (List.concat sigs) = (length sigs * 64)%nat.
Proof. induction 1 as [|s sigs Hs _ IH]; [done|]. cbn [List.concat length]. rewrite length_app. lia. Qed.

(** What an encoded transaction is. *)
Lemma encodeTransaction_shape tx out : transaction_ok tx -> encodeTransaction tx = Some out ->
  exists message, encodeMessage (dt_message tx) = Some message
    /\ out = shortVec (len_of (dt_signatures tx)) ++ List.concat (dt_signatures tx) ++ message.
Proof.
  intros (Hs & Hv & Hm). unfold encodeTransaction. destruct (encodeMessage (dt_message tx)) as [message|]; [|done].
  cbn [mbind option_bind]. rewrite u8_bytes by by apply shortVec_len_bytes. set (p := shortVec _). set (sigs := dt_signatures tx) in *.
  assert (H64 : Forall (fun s : list Z => length s = 64%nat) sigs) by (eapply Forall_impl; [exact Hs|]; by intros ? [_ ?]).
  rewrite <- Nat.add_assoc, !repeat_app. intros H. exists message. split; [done|].
  assert (E : set_at p 0 (repeat 0 (length p) ++ repeat 0 (length sigs * 64) ++ repeat 0 (length message))
              = Some (p ++ repeat 0 (length sigs * 64) ++ repeat 0 (length message))).
  { apply (set_at_app [] (repeat 0 (length p))). by rewrite repeat_length. }
  rewrite E in H. cbn [mbind option_bind] in H. rewrite set_signatures_app in H by done. cbn [mbind option_bind] in H.
  rewrite app_assoc in H. rewrite <- (concat_length64 sigs H64), <- length_app in H.
  assert (E2 := set_at_app (p ++ List.concat sigs) (repeat 0 (length message)) [] message ltac:(by rewrite repeat_length)).
  rewrite !app_nil_r in E2. rewrite E2 in H. injection H as <-. by rewrite <- app_assoc.
Qed.

Lemma signatures_back (sigs : list (list Z)) p rest : Forall (fun s : list Z => length s = 64%nat) sigs ->
  List.map (signature_at (p ++ List.concat sigs ++ rest) (length p)) (seq 0 (length sigs)) = sigs.
Proof.
  intros H. revert p. induction H as [|s sigs Hs _ IH]; intros p; [done|]. cbn [length seq List.map List.concat]. f_equal.
  - unfold signature_at, subarray. replace (length p + (0 + 1) * 64 - (length p + 0 * 64))%nat with (length s) by lia.
    rewrite Nat.mul_0_l, Nat.add_0_r, drop_app_length, <- app_assoc. by rewrite take_app_length.
  - etransitivity; [|apply (IH (p ++ s))]. rewrite <- seq_shift, List.map_map. apply List.map_ext. intros i.
    unfold signature_at. rewrite length_app, <- !app_assoc. f_equal; lia.
Qed.

Lemma decode_parts tx message : transaction_ok tx -> encodeMessage (dt_message tx) = Some message ->
  decodeTransaction (shortVec (len_of (dt_signatures tx)) ++ List.concat (dt_signatures tx) ++ message) = Some tx.
Proof.
  intros (Hs & Hv & Hmo) Hm.
  assert (H64 : Forall (fun s : list Z => length s = 64%nat) (dt_signatures tx)) by (eapply Forall_impl; [exact Hs|]; by intros ? [_ ?]).
  unfold decodeTransaction. set (p := shortVec _). set (out := p ++ _).
  assert (Hp : lies out p 0) by (eapply proj1, lies_app, lies_all).
  rewrite (shortVec_read out (len_of (dt_signatures tx))); [|split; [apply len_of_nonneg|done]|done].
  cbn [mbind option_bind fst snd]. replace (Z.to_nat (len_of (dt_signatures tx))) with (length (dt_signatures tx)) by (unfold len_of; lia).
  fold p. rewrite Nat.add_0_l, <- (concat_length64 _ H64), <- length_app. unfold out. rewrite app_assoc, drop_app_length.
  rewrite (encodeMessage_read _ _ Hmo Hm). cbn [mbind option_bind]. rewrite <- app_assoc, signatures_back by done. by destruct tx.
Qed.

(** A Solana transaction written back is the one that was read, and reads as it
    was written. For a transaction the format can hold (64-byte signatures, 32-byte
    keys, bytes within range, lists below 2^21, no lookups in a legacy message): what
    [encodeTransaction] writes, [decodeTransaction] reads as that transaction. *)
Theorem transaction_roundtrip tx out :
  transaction_ok tx -> encodeTransaction tx = Some out -> decodeTransaction out = Some tx.
Proof.
  intros Hok He. destruct (encodeTransaction_shape _ _ Hok He) as (message & Hm & ->). by apply decode_parts.
Qed.

Definition sample_key : string := "11111111111111111111111111111111".
Definition sample_transaction : DecodedTransaction :=
  mkDecodedTx [repeat 7 64]
    (mkMessage v0 (1, 0, 1) [sample_key; sample_key] sample_key [mkCompiled 1 [0; 2; 3] [9; 255]] [mkLookup sample_key [4] [0]]).


Lemma sample_transaction_ok : transaction_ok sample_transaction.
Proof.
  assert (Hk : key_ok sample_key) by (exists (repeat 0 32); vm_compute; reflexivity).
  split; [repeat constructor; vm_compute; congruence|]. split; [vm_compute; reflexivity|]. split; cbn.
  - split; [repeat constructor; unfold is_byte; lia|discriminate].
  - split; [by repeat constructor|vm_compute; reflexivity].
  - exact Hk.
  - split; [|vm_compute; reflexivity]. repeat constructor; vm_compute; congruence.
  - split_and!; [|vm_compute; reflexivity|discriminate]. constructor; [|done]. split_and!; [exact Hk|..]; split; cbn; try (vm_compute; reflexivity);
      repeat constructor; unfold is_byte; lia.
Qed.

Lemma transaction_roundtrip_witness : transaction_ok sample_transaction
  /\ exists out, encodeTransaction sample_transaction = Some out /\ decodeTransaction out = Some sample_transaction.
Proof.
  split; [exact sample_transaction_ok|]. destruct (encodeTransaction sample_transaction) as [out|] eqn:E; [|by vm_compute in E].
  exists out. split; [reflexivity|]. exact (transaction_roundtrip _ _ sample_transaction_ok E).
Defined.
