(* ===== verification/SolanaAppend.v ===== *)
(** src/src/solana/solana-message.ts, second half: the accounts a message addresses,
    instructions appended to it, and its compute limit raised. *)

From S2P Require Import Prelude Text Units MerchantFee Intents ChainAddress Verifier EvmVerifier SolanaVerifier Links PayLinks Rlp SolanaMessage.
From stdpp Require Import base tactics list option gmap strings.
From Stdlib Require Import ZArith Lia Ascii.

Open Scope Z_scope.

(** ** The accounts of a message *)

Record Account := mkAccount { ac_pubkey : string; ac_signer : bool; ac_writable : bool }.

Abbreviation tables_of := (gmap string (list string)).

(** One static key with its flags. *)
Definition static_account (header : Z * Z * Z) (n : Z) (i : nat) (pubkey : string) : Account :=
  let '(signers, readonlySigned, readonlyUnsigned) := header in
  let i := Z.of_nat i in
  mkAccount pubkey (i <? signers) (if i <? signers then i <? signers - readonlySigned else i <? n - readonlyUnsigned).
Definition statics (header : Z * Z * Z) (keys : list string) : list Account :=
  imap (static_account header (len_of keys)) keys.

(** An empty entry is falsy, like a missing one. *)
Definition loaded_account (table : list string) (writable : bool) (index : Z) : option Account :=
  pubkey ← table !! Z.to_nat index;
  if String.eqb pubkey "" then None else Some (mkAccount pubkey false writable).
Definition loaded_from (tables : tables_of) (writable : bool) (l : LookupTableUse) : option (list Account) :=
  table ← tables !! lu_account l;
  mapM (loaded_account table writable) (if writable then lu_writable l else lu_readonly l).
Definition loaded (tables : tables_of) (writable : bool) (lookups : list LookupTableUse) : option (list Account) :=
  ls ← mapM (loaded_from tables writable) lookups; Some (List.concat ls).

Definition messageAccounts (message : CompiledMessage) (tables : tables_of) : option (list Account) :=
  w ← loaded tables true (cm_lookups message);
  r ← loaded tables false (cm_lookups message);
  Some (statics (cm_header message) (cm_staticKeys message) ++ w ++ r).

(** ** Appending *)

Definition find_account (accounts : list Account) (pubkey : string) : option (nat * Account) :=
  list_find (fun a => ac_pubkey a = pubkey) accounts.

Fixpoint remove_first (k : string) (l : list string) : list string :=
  match l with [] => [] | x :: r => if bool_decide (x = k) then r else x :: remove_first k r end.

(** What an instruction asks of one account; [n] static keys. *)
Record Need := mkNeed { nd_pubkey : string; nd_writable : bool; nd_signer : bool; nd_program : bool }.

Definition need (accounts : list Account) (n : nat) (added : list string * list string) (x : Need)
    : option (list string * list string) :=
  let '(addWritable, addReadonly) := added in
  let pubkey := nd_pubkey x in
  match find_account accounts pubkey with
  | Some (at_, a) =>
      if nd_signer x && negb (ac_signer a) then None
      else if nd_writable x && negb (ac_writable a) then None
      else if nd_program x && (n <=? at_)%nat then None
      else Some added
  | None =>
      if nd_signer x then None
      else if nd_writable x then
        Some (if bool_decide (pubkey ∈ addWritable) then addWritable else addWritable ++ [pubkey], remove_first pubkey addReadonly)
      else if bool_decide (pubkey ∉ addWritable) && bool_decide (pubkey ∉ addReadonly)
      then Some (addWritable, addReadonly ++ [pubkey])
      else Some added
  end.

Definition needs_of (ix : SolanaInstruction) : list Need :=
  List.map (fun k => mkNeed (me_pubkey k) (me_isWritable k) (me_isSigner k) false) (si_keys ix)
  ++ [mkNeed (si_programId ix) false false true].

Fixpoint add_needs (accounts : list Account) (n : nat) (added : list string * list string) (l : list Need)
    : option (list string * list string) :=
  match l with
  | [] => Some added
  | x :: r => added ← need accounts n added x; add_needs accounts n added r
  end.

(** [list.slice(0, e)] and [list.slice(e)] *)
Definition slice_end {A} (l : list A) (e : Z) : nat :=
  if e <? 0 then Z.to_nat (len_of l + e) else Z.to_nat e.

Definition remap (writableEnd n w r old : Z) : Z :=
  if old <? writableEnd then old else if old <? n then old + w else old + w + r.

Definition index_of_key (keys : list string) (accounts : list Account) (w r : Z) (pubkey : string) : Z :=
  match list_find (fun k => k = pubkey) keys with
  | Some (s, _) => Z.of_nat s
  | None => (match find_account accounts pubkey with Some (at_, _) => Z.of_nat at_ | None => -1 end) + w + r
  end.

Definition appendInstructions (message : CompiledMessage) (extra : list SolanaInstruction) (tables : tables_of)
    : option CompiledMessage :=
  accounts ← messageAccounts message tables;
  let keys := cm_staticKeys message in
  let '(signers, readonlySigned, readonlyUnsigned) := cm_header message in
  added ← add_needs accounts (length keys) ([], []) (List.concat (List.map needs_of extra));
  let '(addWritable, addReadonly) := added in
  let w := len_of addWritable in
  let r := len_of addReadonly in
  let writableEnd := len_of keys - readonlyUnsigned in
  let move := remap writableEnd (len_of keys) w r in
  let staticKeys := take (slice_end keys writableEnd) keys ++ addWritable ++ drop (slice_end keys writableEnd) keys ++ addReadonly in
  let index := index_of_key staticKeys accounts w r in
  Some (mkMessage (cm_version message) (signers, readonlySigned, readonlyUnsigned + r) staticKeys (cm_recentBlockhash message)
          (List.map (fun ix => mkCompiled (move (ci_programIdIndex ix)) (List.map move (ci_accounts ix)) (ci_data ix))
             (cm_instructions message)
           ++ List.map (fun ix => mkCompiled (index (si_programId ix)) (List.map (fun k => index (me_pubkey k)) (si_keys ix)) (si_data ix))
             extra)
          (cm_lookups message)).

(** ** The compute limit *)

Definition u32_at (data : list Z) : Z :=
  nth 1 data 0 + nth 2 data 0 * 2 ^ 8 + nth 3 data 0 * 2 ^ 16 + nth 4 data 0 * 2 ^ 24.
(** [setUint32(1, n, true)] in five bytes. *)
Definition with_u32 (first n : Z) : list Z :=
  let n := n mod 2 ^ 32 in [first; n mod 2 ^ 8; n / 2 ^ 8 mod 2 ^ 8; n / 2 ^ 16 mod 2 ^ 8; n / 2 ^ 24].

Definition raiseComputeUnitLimit (message : CompiledMessage) (units : Z) (computeBudgetProgram : string) : CompiledMessage :=
  match list_find (fun k => k = computeBudgetProgram) (cm_staticKeys message) with
  | None => message
  | Some (program, _) =>
      mkMessage (cm_version message) (cm_header message) (cm_staticKeys message) (cm_recentBlockhash message)
        (List.map (fun ix =>
           if negb (ci_programIdIndex ix =? Z.of_nat program) || negb (nth 0 (ci_data ix) (-1) =? 2) || negb (length (ci_data ix) =? 5)%nat
           then ix
           else mkCompiled (ci_programIdIndex ix) (ci_accounts ix) (with_u32 2 (u32_at (ci_data ix) + units)))
           (cm_instructions message))
        (cm_lookups message)
  end.

(** ** What a message's instructions mean *)

(** [accounts[i]] *)
Definition account_at (accounts : list Account) (i : Z) : option Account := if i <? 0 then None else accounts !! Z.to_nat i.

(** An instruction with its accounts looked up. *)
Definition resolve_instruction (accounts : list Account) (ix : CompiledInstruction) : option (string * list Account * list Z) :=
  p ← account_at accounts (ci_programIdIndex ix);
  l ← mapM (account_at accounts) (ci_accounts ix);
  Some (ac_pubkey p, l, ci_data ix).

(** [a] is the account [k] names, with at least the rights it asks for. *)
Definition grants (k : SolanaAccountMeta) (a : Account) : Prop :=
  ac_pubkey a = me_pubkey k /\ (me_isWritable k = true -> ac_writable a = true) /\ (me_isSigner k = true -> ac_signer a = true).

(** A header that fits its keys. *)
Definition header_ok (message : CompiledMessage) : Prop :=
  let '(signers, readonlySigned, readonlyUnsigned) := cm_header message in
  0 <= readonlySigned <= signers /\ 0 <= readonlyUnsigned /\ signers + readonlyUnsigned <= len_of (cm_staticKeys message).

(** ** What needs leave *)

Lemma account_at_nat accounts i : account_at accounts (Z.of_nat i) = accounts !! i.
Proof. unfold account_at. rewrite (proj2 (Z.ltb_ge _ _)) by lia. by rewrite Nat2Z.id. Qed.

Section needs.
Context (accounts : list Account) (n : nat).

Definition served (added : list string * list string) (x : Need) : Prop :=
  match find_account accounts (nd_pubkey x) with
  | Some (at_, a) =>
      (nd_signer x = true -> ac_signer a = true) /\ (nd_writable x = true -> ac_writable a = true)
      /\ (nd_program x = true -> (at_ < n)%nat)
  | None => nd_signer x = false /\ (nd_pubkey x ∈ added.1 \/ (nd_pubkey x ∈ added.2 /\ nd_writable x = false))
  end.

Record added_ok (added : list string * list string) (seen : list Need) : Prop := mkAddedOk {
  ad_nodup : NoDup (added.1 ++ added.2);
  ad_new : Forall (fun k => find_account accounts k = None) (added.1 ++ added.2);
  ad_served : Forall (served added) seen
}.

Lemma remove_first_notin k l : k ∉ l -> remove_first k l = l.
Proof.
  induction l as [|x l IH]; [done|]. cbn [remove_first]. rewrite not_elem_of_cons. intros [Hx Hl].
  rewrite bool_decide_eq_false_2 by done. by rewrite IH.
Qed.

Lemma remove_first_elem k l x : NoDup l -> x ∈ remove_first k l <-> x ∈ l /\ x <> k.
Proof.
  induction 1 as [|y l Hy Hl IH]; [set_solver|]. cbn [remove_first]. case_bool_decide as E; set_solver.
Qed.

Lemma remove_first_nodup k l : NoDup l -> NoDup (remove_first k l).
Proof.
  induction 1 as [|y l Hy Hl IH]; [constructor|]. cbn [remove_first]. case_bool_decide; [done|].
  constructor; [|done]. by rewrite remove_first_elem by done; intros [? _].
Qed.

Lemma served_more added added' x :
  (forall k, k ∈ added.1 -> k ∈ added'.1) -> (forall k, k ∈ added.2 -> k ∈ added'.1 \/ k ∈ added'.2) ->
  served added x -> served added' x.
Proof.
  unfold served. intros H1 H2. destruct (find_account _ _) as [[at_ a]|]; [done|].
  intros [Hs [Hk|[Hk Hw]]]; split; try done; [left; by apply H1|]. destruct (H2 _ Hk); [by left|by right].
Qed.

Lemma need_ok added seen x added' : added_ok added seen -> need accounts n added x = Some added' -> added_ok added' (x :: seen).
Proof.
  intros [Hn Hnew Hs]. destruct added as [W R]. unfold need. cbn [fst snd] in *. apply NoDup_app in Hn as (HW & Hdis & HR).
  assert (Hx : forall added', added' = (W, R) -> served added' x -> added_ok added' (x :: seen)).
  { intros ? -> H. split; cbn [fst snd]; [by apply NoDup_app|done|by constructor]. }
  destruct (find_account accounts (nd_pubkey x)) as [[at_ a]|] eqn:E.
  - destruct (nd_signer x && negb (ac_signer a)) eqn:E1; [done|]. destruct (nd_writable x && negb (ac_writable a)) eqn:E2; [done|].
    destruct (nd_program x && (n <=? at_)%nat) eqn:E3; [done|]. intros [= <-]. apply Hx; [done|]. unfold served. rewrite E.
    apply andb_false_iff in E3. rewrite Nat.leb_gt in E3.
    destruct (nd_signer x), (ac_signer a), (nd_writable x), (ac_writable a), (nd_program x); try done; naive_solver.
  - destruct (nd_signer x) eqn:Es; [done|]. destruct (nd_writable x) eqn:Ew.
    + intros [= <-]. set (W' := if bool_decide _ then _ else _). assert (HW' : forall k, k ∈ W' <-> k ∈ W \/ k = nd_pubkey x).
      { intros k. unfold W'. case_bool_decide; set_solver. }
      split; cbn [fst snd].
      * apply NoDup_app. split_and!; [| |by apply remove_first_nodup].
        -- unfold W'. case_bool_decide; [done|]. apply NoDup_app. split_and!; [done|set_solver|apply NoDup_singleton].
        -- intros k [Hk| ->]%HW' (Hk' & Hne)%remove_first_elem; [by apply (Hdis k)|done..].
      * apply Forall_forall. intros k [[Hk| ->]%HW'|(Hk & _)%remove_first_elem]%elem_of_app; [|done| |done];
          rewrite Forall_forall in Hnew; apply Hnew; set_solver.
      * constructor.
        -- unfold served. rewrite E. split; [done|]. left. apply HW'. by right.
        -- eapply Forall_impl; [exact Hs|]. intros y. apply served_more; cbn [fst snd]; intros k Hk; [by apply HW'; left|].
           destruct (decide (k = nd_pubkey x)) as [->|Hne]; [left; apply HW'; by right|]. right. by apply remove_first_elem.
    + destruct (bool_decide (nd_pubkey x ∉ W) && bool_decide (nd_pubkey x ∉ R)) eqn:Eb; intros [= <-].
      * apply andb_true_iff in Eb as [H1%bool_decide_eq_true H2%bool_decide_eq_true]. split; cbn [fst snd].
        -- apply NoDup_app. split_and!; [done|set_solver|]. apply NoDup_app. split_and!; [done|set_solver|apply NoDup_singleton].
        -- rewrite Forall_forall in *. intros k Hk. destruct (decide (k = nd_pubkey x)) as [->|]; [done|]. apply Hnew. set_solver.
        -- constructor; [unfold served; rewrite E; split; [done|]; right; cbn [snd]; split; [set_solver|done]|].
           eapply Forall_impl; [exact Hs|]. intros y. apply served_more; cbn [fst snd]; set_solver.
      * apply Hx; [done|]. unfold served. rewrite E. split; [done|]. cbn [fst snd].
        apply andb_false_iff in Eb as [Eb|Eb]; apply bool_decide_eq_false in Eb; apply dec_stable in Eb; [by left|by right].
Qed.

Lemma add_needs_ok added l added' seen : added_ok added seen -> add_needs accounts n added l = Some added' ->
  added_ok added' (reverse l ++ seen).
Proof.
  revert added seen. induction l as [|x l IH]; intros added seen H; cbn [add_needs].
  - by intros [= <-].
  - destruct (need accounts n added x) as [a|] eqn:E; [|done]. cbn [mbind option_bind]. intros Ha.
    rewrite reverse_cons, <- app_assoc. apply (IH a); [by eapply need_ok|done].
Qed.

Lemma needs_served l added : add_needs accounts n ([], []) l = Some added -> added_ok added l.
Proof.
  intros H. assert (H0 : added_ok ([], []) []) by (split; cbn; constructor). destruct (add_needs_ok _ _ _ _ H0 H) as [H1 H2 H3].
  split; [done|done|]. rewrite app_nil_r in H3. rewrite Forall_forall in *. intros x Hx. apply H3. by apply elem_of_reverse.
Qed.
End needs.

(** ** Accounts after an append *)

Ltac split_ltb := repeat match goal with |- context [?a <? ?b] => destruct (Z.ltb_spec a b) end.

Lemma find_account_None accounts k : find_account accounts k = None <-> k ∉ ac_pubkey <$> accounts.
Proof.
  unfold find_account. rewrite list_find_None, Forall_forall. setoid_rewrite list_elem_of_fmap. naive_solver.
Qed.

Lemma find_account_Some accounts k i a : find_account accounts k = Some (i, a) -> accounts !! i = Some a /\ ac_pubkey a = k.
Proof. unfold find_account. intros (H1 & H2 & _)%list_find_Some. done. Qed.

Lemma length_statics h keys : length (statics h keys) = length keys.
Proof. apply length_imap. Qed.

Lemma lookup_statics h keys i : statics h keys !! i = static_account h (len_of keys) i <$> keys !! i.
Proof. apply list_lookup_imap. Qed.

Section append.
Context (signers readonlySigned readonlyUnsigned : Z) (keys W R : list string) (L : list Account).
Context (Hs : 0 <= readonlySigned <= signers) (Hr : 0 <= readonlyUnsigned) (Hn : signers + readonlyUnsigned <= len_of keys).

Abbreviation cut := (Z.to_nat (len_of keys - readonlyUnsigned)).
Abbreviation accounts := (statics (signers, readonlySigned, readonlyUnsigned) keys ++ L).
Abbreviation keys' := (take cut keys ++ W ++ drop cut keys ++ R).
Abbreviation accounts' := (statics (signers, readonlySigned, readonlyUnsigned + len_of R) keys' ++ L).
Abbreviation move := (remap (len_of keys - readonlyUnsigned) (len_of keys) (len_of W) (len_of R)).

Lemma cut_le : (cut <= length keys)%nat.
Proof. unfold len_of in *. lia. Qed.

Lemma keys'_length : length keys' = (length keys + length W + length R)%nat.
Proof. assert (H := cut_le). rewrite !length_app, length_take, length_drop. lia. Qed.

Lemma lookup_added i k : keys' !! i = Some k ->
  (exists j, keys !! j = Some k /\ Z.of_nat i = move (Z.of_nat j))
  \/ (exists j, W !! j = Some k /\ i = (cut + j)%nat) \/ (exists j, R !! j = Some k /\ i = (length keys + length W + j)%nat).
Proof.
  assert (Hc := cut_le). unfold remap. assert (Htl : length (take cut keys) = cut) by (rewrite length_take; lia).
  assert (Hz : Z.of_nat cut = len_of keys - readonlyUnsigned) by (unfold len_of in *; lia).
  rewrite lookup_app_Some, Htl. intros [H|[H0 H]].
  { apply lookup_take_Some in H as [H Hi]. left. exists i. split; [done|]. destruct (Z.ltb_spec (Z.of_nat i) (len_of keys - readonlyUnsigned)); lia. }
  rewrite lookup_app_Some in H. destruct H as [H|[H1 H]]; [right; left; eexists; split; [done|lia]|].
  rewrite lookup_app_Some, length_drop in H. destruct H as [H|[H2 H]].
  - rewrite lookup_drop in H. left. eexists. split; [done|]. assert (Hlt := lookup_lt_Some _ _ _ H). unfold len_of in *.
    split_ltb; lia.
  - right. right. eexists. split; [done|lia].
Qed.

Lemma lookup_moved j k : keys !! j = Some k -> keys' !! Z.to_nat (move (Z.of_nat j)) = Some k.
Proof.
  intros H. assert (Hlt := lookup_lt_Some _ _ _ H). assert (Hc := cut_le). unfold remap.
  assert (Htl : length (take cut keys) = cut) by (rewrite length_take; lia). unfold len_of in *.
  destruct (Z.ltb_spec (Z.of_nat j) (Z.of_nat (length keys) - readonlyUnsigned)) as [H1|H1].
  - rewrite lookup_app_l by lia. rewrite Nat2Z.id, lookup_take_lt by lia. done.
  - rewrite (proj2 (Z.ltb_lt (Z.of_nat j) _)) by lia. rewrite lookup_app_r, Htl by lia. rewrite lookup_app_r by lia.
    rewrite lookup_app_l by (rewrite length_drop; lia). rewrite lookup_drop, <- H. f_equal. lia.
Qed.

Lemma moved_account i a : accounts !! i = Some a -> accounts' !! Z.to_nat (move (Z.of_nat i)) = Some a.
Proof.
  assert (Hc := cut_le). assert (Hl := keys'_length). rewrite lookup_app_Some, length_statics. intros [H|[Hi H]].
  - rewrite lookup_statics in H. destruct (keys !! i) as [k|] eqn:E; [|done]. cbn in H. injection H as <-.
    assert (Hlt := lookup_lt_Some _ _ _ E). assert (Hk := lookup_moved i k E).
    rewrite lookup_app_l by (rewrite length_statics; by eapply lookup_lt_Some).
    rewrite lookup_statics, Hk. cbn [fmap option_fmap option_map static_account]. unfold remap, len_of in *. rewrite Hl.
    rewrite (proj2 (Z.ltb_lt (Z.of_nat i) (Z.of_nat (length keys)))) by lia.
    destruct (Z.ltb_spec (Z.of_nat i) (Z.of_nat (length keys) - readonlyUnsigned)); do 2 f_equal; split_ltb; first [done | lia].
  - assert (Hst : length (statics (signers, readonlySigned, readonlyUnsigned + len_of R) keys') = (length keys + length W + length R)%nat)
      by (by rewrite length_statics).
    assert (Hm : move (Z.of_nat i) = Z.of_nat i + len_of W + len_of R) by (unfold remap, len_of in *; split_ltb; lia).
    rewrite Hm, lookup_app_r, Hst by (rewrite Hst; unfold len_of; lia). rewrite <- H. f_equal. unfold len_of. lia.
Qed.

Lemma added_at i k : keys' !! i = Some k -> (cut <= i)%nat -> (i < cut + length W)%nat \/ (length keys + length W <= i)%nat ->
  accounts' !! i = Some (mkAccount k false (bool_decide (i < cut + length W)%nat)).
Proof.
  assert (Hc := cut_le). assert (Hl := keys'_length). intros Hi H1 H2. assert (Hlt := lookup_lt_Some _ _ _ Hi).
  rewrite lookup_app_l by (by rewrite length_statics). rewrite lookup_statics, Hi. cbn [fmap option_fmap option_map static_account].
  unfold len_of in *. rewrite Hl. do 2 f_equal; [|case_bool_decide]; split_ltb; first [done | lia].
Qed.

(** The added accounts never sign; the writable ones are writable. *)
Lemma added_writable k : k ∈ W -> exists i, accounts' !! i = Some (mkAccount k false true).
Proof.
  assert (Hc := cut_le). intros [j Hj]%list_elem_of_lookup. assert (Hlt := lookup_lt_Some _ _ _ Hj). exists (cut + j)%nat.
  rewrite (added_at _ k); [by rewrite bool_decide_eq_true_2 by lia| |lia|lia].
  rewrite lookup_app_r, length_take by (rewrite length_take; lia). rewrite lookup_app_l by lia. rewrite <- Hj. f_equal. lia.
Qed.

Lemma added_readonly k : k ∈ R -> exists i, accounts' !! i = Some (mkAccount k false false).
Proof.
  assert (Hc := cut_le). intros [j Hj]%list_elem_of_lookup. assert (Hlt := lookup_lt_Some _ _ _ Hj).
  exists (length keys + length W + j)%nat. rewrite (added_at _ k); [by rewrite bool_decide_eq_false_2 by lia| |lia|lia].
  rewrite lookup_app_r, length_take by (rewrite length_take; lia). rewrite lookup_app_r by lia.
  rewrite lookup_app_r; rewrite length_drop; [|lia]. rewrite <- Hj. f_equal. lia.
Qed.

Lemma pubkeys_statics h l : ac_pubkey <$> statics h l = l.
Proof.
  unfold statics. rewrite fmap_imap. apply list_eq. intros i. rewrite list_lookup_imap. destruct (l !! i); [|done]. cbn.
  by destruct h as [[? ?] ?].
Qed.

Lemma pubkeys_permuted : ac_pubkey <$> accounts' ≡ₚ (ac_pubkey <$> accounts) ++ W ++ R.
Proof.
  rewrite !fmap_app, !pubkeys_statics. trans ((take cut keys ++ drop cut keys) ++ (ac_pubkey <$> L) ++ W ++ R).
  - solve_Permutation.
  - by rewrite take_drop, app_assoc.
Qed.

Context (Huniq : NoDup (ac_pubkey <$> accounts)) (Hadded : NoDup (W ++ R))
  (Hnew : Forall (fun k => find_account accounts k = None) (W ++ R)).

Lemma accounts'_nodup : NoDup (ac_pubkey <$> accounts').
Proof.
  rewrite pubkeys_permuted. apply NoDup_app. split_and!; [done| |done]. intros k Hk Hk'.
  rewrite Forall_forall in Hnew. by apply Hnew, find_account_None in Hk'.
Qed.

Lemma same_account i j a b : accounts' !! i = Some a -> accounts' !! j = Some b -> ac_pubkey a = ac_pubkey b -> i = j.
Proof.
  intros Ha Hb E. apply (NoDup_lookup _ _ _ (ac_pubkey a) accounts'_nodup); rewrite list_lookup_fmap; [by rewrite Ha|by rewrite Hb, E].
Qed.

Abbreviation index := (index_of_key keys' accounts (len_of W) (len_of R)).

(** The index written for a key is that of its account. *)
Lemma index_account k i a : accounts' !! i = Some a -> ac_pubkey a = k -> index k = Z.of_nat i.
Proof.
  intros Hi Hk. unfold index_of_key. destruct (list_find (fun x => x = k) keys') as [[s x]|] eqn:E.
  - apply list_find_Some in E as (Hx & -> & _).
    assert (Hs' : exists b, accounts' !! s = Some b /\ ac_pubkey b = k).
    { eexists. rewrite lookup_app_l by (rewrite length_statics; by eapply lookup_lt_Some).
      rewrite lookup_statics, Hx. by split. }
    destruct Hs' as (b & Hb & Hbk). f_equal. apply (same_account _ _ b a); [done|done|congruence].
  - apply list_find_None in E. rewrite Forall_forall in E.
    assert (Hnk : k ∉ keys') by (intros H; by apply (E k)).
    assert (Hold : k ∈ ac_pubkey <$> accounts).
    { assert (H : k ∈ ac_pubkey <$> accounts') by (apply list_elem_of_fmap; exists a; split; [done|by eapply list_elem_of_lookup_2]).
      rewrite pubkeys_permuted in H. apply elem_of_app in H as [|H]; [done|]. exfalso. apply Hnk. set_solver. }
    destruct (find_account accounts k) as [[at_ b]|] eqn:Ef; [|by apply find_account_None in Ef].
    apply find_account_Some in Ef as [Hat Hbk]. assert (Hm := moved_account _ _ Hat).
    assert (Hge : (length keys <= at_)%nat).
    { destruct (Nat.le_gt_cases (length keys) at_) as [|Hlt]; [done|]. exfalso. apply Hnk.
      rewrite lookup_app_l in Hat by (by rewrite length_statics). rewrite lookup_statics in Hat.
      destruct (keys !! at_) as [k0|] eqn:E0; [|done]. cbn in Hat. injection Hat as <-. simpl in Hbk. subst k0.
      eapply list_elem_of_lookup_2, lookup_moved; exact E0. }
    assert (Hmv : move (Z.of_nat at_) = Z.of_nat at_ + len_of W + len_of R) by (unfold remap, len_of in *; split_ltb; lia).
    rewrite <- Hmv. rewrite Hmv in Hm |- *. rewrite <- (same_account _ _ _ _ Hm Hi) by congruence. unfold len_of. lia.
Qed.

(** What was asked of an account is what the new message grants. *)
Lemma served_granted x : served accounts (length keys) (W, R) x ->
  exists i a, index (nd_pubkey x) = Z.of_nat i /\ accounts' !! i = Some a /\ ac_pubkey a = nd_pubkey x
    /\ (nd_writable x = true -> ac_writable a = true) /\ (nd_signer x = true -> ac_signer a = true).
Proof.
  unfold served. destruct (find_account accounts (nd_pubkey x)) as [[at_ a]|] eqn:E.
  - intros (H1 & H2 & _). apply find_account_Some in E as [Hat Hk]. assert (Hm := moved_account _ _ Hat).
    exists (Z.to_nat (move (Z.of_nat at_))), a. split_and!; try done. by apply (index_account _ _ a).
  - cbn [fst snd]. intros [Hns [[i Hi]%added_writable|[[i Hi]%added_readonly Hw]]].
    + exists i, (mkAccount (nd_pubkey x) false true). split_and!; try done; [by eapply index_account|by rewrite Hns].
    + exists i, (mkAccount (nd_pubkey x) false false). split_and!; try done; [by eapply index_account|by rewrite Hw|by rewrite Hns].
Qed.

Lemma signer_old a : a ∈ accounts' -> ac_signer a = true -> a ∈ accounts.
Proof.
  assert (Hc := cut_le). intros [i Hi]%list_elem_of_lookup Hsig. apply lookup_app_Some in Hi as [Hi|[_ Hi]].
  2: { apply elem_of_app. right. by eapply list_elem_of_lookup_2. }
  assert (Hi' := Hi). rewrite lookup_statics in Hi'. destruct (keys' !! i) as [k|] eqn:Ek; [|done]. clear Hi'.
  assert (Ha : accounts' !! i = Some a) by (by apply lookup_app_l_Some).
  destruct (lookup_added _ _ Ek) as [(j & Hj & Em)|[(j & Hj & ->)|(j & Hj & ->)]]; [|assert (Hlt := lookup_lt_Some _ _ _ Hj); exfalso..].
  - assert (Hold : accounts !! j = Some (static_account (signers, readonlySigned, readonlyUnsigned) (len_of keys) j k)).
    { apply lookup_app_l_Some. by rewrite lookup_statics, Hj. }
    assert (Hm := moved_account _ _ Hold). rewrite <- Em, Nat2Z.id, Ha in Hm. injection Hm as ->. by eapply list_elem_of_lookup_2.
  - rewrite (added_at _ k) in Ha by (done || lia). by injection Ha as <-.
  - rewrite (added_at _ k) in Ha by (done || lia). by injection Ha as <-.
Qed.

(** An old instruction, its indexes moved, means what it did. *)
Lemma moved_at i a : account_at accounts i = Some a -> account_at accounts' (move i) = Some a.
Proof.
  unfold account_at. destruct (Z.ltb_spec i 0); [done|]. intros Ha. rewrite <- (Z2Nat.id i) in Ha by done. rewrite Nat2Z.id in Ha.
  apply moved_account in Ha. rewrite Z2Nat.id in Ha by done. rewrite (proj2 (Z.ltb_ge _ _)); [done|].
  unfold remap, len_of. split_ltb; lia.
Qed.

Lemma moved_instruction ix res : resolve_instruction accounts ix = Some res ->
  resolve_instruction accounts' (mkCompiled (move (ci_programIdIndex ix)) (List.map move (ci_accounts ix)) (ci_data ix)) = Some res.
Proof.
  unfold resolve_instruction. cbn [ci_programIdIndex ci_accounts ci_data].
  destruct (account_at accounts (ci_programIdIndex ix)) as [p|] eqn:Ep; [|done]. rewrite (moved_at _ _ Ep). cbn [mbind option_bind].
  destruct (mapM _ (ci_accounts ix)) as [l|] eqn:El; [|done]. cbn [mbind option_bind]. intros <-.
  assert (mapM (account_at accounts') (List.map move (ci_accounts ix)) = Some l) as ->; [|done].
  apply mapM_Some in El. apply mapM_Some. induction El as [|i a is_ l Hi _ IH]; cbn [List.map]; [done|].
  constructor; [by apply moved_at|by apply IH].
Qed.

(** An appended instruction means what was asked. *)
Lemma appended_instruction e : Forall (served accounts (length keys) (W, R)) (needs_of e) ->
  exists l, resolve_instruction accounts' (mkCompiled (index (si_programId e)) (List.map (fun k => index (me_pubkey k)) (si_keys e)) (si_data e))
      = Some (si_programId e, l, si_data e) /\ Forall2 grants (si_keys e) l.
Proof.
  unfold needs_of. rewrite Forall_app, Forall_singleton, List.Forall_map. intros [Hk Hp].
  apply served_granted in Hp as (i & p & Ei & Hi & Hpk & _ & _). cbn [nd_pubkey] in *.
  assert (Hl : exists l, mapM (account_at accounts') (List.map (fun k => index (me_pubkey k)) (si_keys e)) = Some l
    /\ Forall2 grants (si_keys e) l).
  { setoid_rewrite mapM_Some. induction Hk as [|k ks Hk _ (l & IH1 & IH2)]; [by exists []|].
    apply served_granted in Hk as (j & a & Ej & Hj & Hjk & Hw & Hsg). cbn [nd_pubkey nd_writable nd_signer] in *.
    exists (a :: l). cbn [List.map]. split; constructor; try done. by rewrite Ej, account_at_nat. }
  destruct Hl as (l & Hm & Hg). exists l. split; [|done]. unfold resolve_instruction. cbn [ci_programIdIndex ci_accounts ci_data].
  rewrite Ei, account_at_nat, Hi. cbn [mbind option_bind]. rewrite Hm. cbn [mbind option_bind]. by rewrite Hpk.
Qed.
End append.

Lemma appended_resolves msg extra tables accounts next :
  messageAccounts msg tables = Some accounts -> NoDup (ac_pubkey <$> accounts) -> header_ok msg ->
  appendInstructions msg extra tables = Some next ->
  exists accounts', messageAccounts next tables = Some accounts' /\ NoDup (ac_pubkey <$> accounts') /\ header_ok next
  /\ length (cm_instructions next) = (length (cm_instructions msg) + length extra)%nat
  /\ (forall j ix res, cm_instructions msg !! j = Some ix -> resolve_instruction accounts ix = Some res ->
        exists ix', cm_instructions next !! j = Some ix' /\ resolve_instruction accounts' ix' = Some res)
  /\ (forall j e, extra !! j = Some e ->
        exists ix' l, cm_instructions next !! (length (cm_instructions msg) + j)%nat = Some ix'
          /\ resolve_instruction accounts' ix' = Some (si_programId e, l, si_data e) /\ Forall2 grants (si_keys e) l)
  /\ (forall a, a ∈ accounts' -> ac_signer a = true -> a ∈ accounts).
Proof.
  intros Hacc Huniq Hok. unfold appendInstructions. rewrite Hacc. cbn [mbind option_bind].
  unfold messageAccounts, header_ok in *. destruct (cm_header msg) as [[signers ros] rou]. destruct Hok as (Hs & Hr & Hn).
  destruct (loaded tables true (cm_lookups msg)) as [lw|] eqn:Ew; [|done]. destruct (loaded tables false (cm_lookups msg)) as [lr|] eqn:Er; [|done].
  cbn [mbind option_bind] in Hacc. injection Hacc as <-. set (keys := cm_staticKeys msg) in *.
  destruct (add_needs _ _ _ _) as [[W R]|] eqn:Ea; [|done]. cbn [mbind option_bind]. intros [= <-]. cbn [cm_lookups cm_header cm_staticKeys cm_instructions].
  apply needs_served in Ea as [Hnd Hnew Hserved]. cbn [fst snd] in Hnd, Hnew.
  assert (Hcut : slice_end keys (len_of keys - rou) = Z.to_nat (len_of keys - rou)).
  { unfold slice_end. rewrite (proj2 (Z.ltb_ge _ _)) by lia. done. }
  rewrite Hcut, Ew, Er. cbn [mbind option_bind]. eexists. split; [done|]. split_and!.
  - by apply accounts'_nodup.
  - lia.
  - unfold len_of. lia.
  - unfold len_of. lia.
  - unfold len_of in *. rewrite !length_app, length_take, length_drop. lia.
  - by rewrite length_app, !length_map.
  - intros j ix res Hj Hres. eexists. split.
    + rewrite lookup_app_l by (rewrite length_map; by eapply lookup_lt_Some). rewrite list_lookup_fmap, Hj. done.
    + by apply moved_instruction.
  - intros j e Hj. destruct (appended_instruction signers ros rou keys W R (lw ++ lr) Hs Hr Hn Huniq Hnd Hnew e) as (l & H1 & H2).
    { rewrite Forall_forall in *. intros x Hx. apply Hserved. apply list_elem_of_In, List.in_concat.
      exists (needs_of e). split; [apply List.in_map, list_elem_of_In; by eapply list_elem_of_lookup_2|by apply list_elem_of_In]. }
    eexists _, l. split; [|split; [exact H1|done]].
    rewrite lookup_app_r, length_map by (rewrite length_map; lia). rewrite Nat.add_comm, Nat.add_sub. by rewrite list_lookup_fmap, Hj.
  - intros a Ha Hsig. by eapply signer_old.
Qed.

(** Appending instructions changes what they add and nothing else. Over a message
    whose header fits its keys and that loads no account twice, with the lookup tables
    it names: in what [appendInstructions] answers, every instruction that was there
    runs the same program on the same accounts with the same rights and data; each
    appended one runs its program on exactly the accounts it names, with at least the
    rights it asks for; no account is loaded twice, the header still fits, and nobody
    signs who did not sign before. *)
Theorem appended_instructions_resolve msg extra tables accounts next :
  messageAccounts msg tables = Some accounts -> NoDup (ac_pubkey <$> accounts) -> header_ok msg ->
  appendInstructions msg extra tables = Some next ->
  exists accounts', messageAccounts next tables = Some accounts' /\ NoDup (ac_pubkey <$> accounts') /\ header_ok next
  /\ length (cm_instructions next) = (length (cm_instructions msg) + length extra)%nat
  /\ (forall j ix res, cm_instructions msg !! j = Some ix -> resolve_instruction accounts ix = Some res ->
        exists ix', cm_instructions next !! j = Some ix' /\ resolve_instruction accounts' ix' = Some res)
  /\ (forall j e, extra !! j = Some e ->
        exists ix' l, cm_instructions next !! (length (cm_instructions msg) + j)%nat = Some ix'
          /\ resolve_instruction accounts' ix' = Some (si_programId e, l, si_data e) /\ Forall2 grants (si_keys e) l)
  /\ (forall a, a ∈ accounts' -> ac_signer a = true -> a ∈ accounts).
Proof. apply appended_resolves. Qed.

(** A transfer appended to a swap that loads a pool from a lookup table. *)
Definition sample_swap : CompiledMessage :=
  mkMessage v0 (1, 0, 1) ["payer"; "pool"; "swap"]%string "hash"
    [mkCompiled 2 [0; 1; 3; 4] [9]] [mkLookup "table" [1] [0]].
Definition sample_tables : tables_of := {["table"%string := ["mint"; "vault"]%string]}.
Definition sample_transfer : SolanaInstruction :=
  mkInstruction "system" [mkMeta "payer" true true; mkMeta "merchant" false true; mkMeta "vault" false true; mkMeta "mint" false false] [2].

Lemma appended_instructions_resolve_witness : exists next accounts',
  appendInstructions sample_swap [sample_transfer] sample_tables = Some next
  /\ messageAccounts next sample_tables = Some accounts' /\ NoDup (ac_pubkey <$> accounts')
  /\ exists ix' l, cm_instructions next !! 1%nat = Some ix'
       /\ resolve_instruction accounts' ix' = Some ("system"%string, l, [2]) /\ Forall2 grants (si_keys sample_transfer) l.
Proof.
  destruct (appendInstructions sample_swap [sample_transfer] sample_tables) as [next|] eqn:E; [|by vm_compute in E].
  destruct (messageAccounts sample_swap sample_tables) as [accounts|] eqn:Ea; [|by vm_compute in Ea].
  destruct (appended_instructions_resolve sample_swap [sample_transfer] sample_tables accounts next) as (accounts' & H1 & H2 & _ & _ & _ & H3 & _).
  - exact Ea.
  - vm_compute in Ea. injection Ea as <-. apply (bool_decide_eq_true_1 _). vm_compute. reflexivity.
  - vm_compute. repeat split; discriminate.
  - exact E.
  - exists next, accounts'. split; [done|]. split; [done|]. split; [done|]. apply (H3 0%nat sample_transfer). reflexivity.
Defined.
