(* ===== verification/SolanaWire.v ===== *)
(** What the service reads of a signed Solana transaction (src/src/solana/solana-transaction.ts),
    the instructions and legacy transactions it builds (solana-transaction-builder.ts),
    token account addresses (associated-token-account.ts) and the transaction of a
    Solana Pay link (payment-intents/solana-pay-transaction.builder.ts). sha256 and the
    curve come from a library: the class [SolanaCrypto]. *)

From S2P Require Import Prelude Text Units MerchantFee Intents ChainAddress Verifier EvmVerifier SolanaVerifier Links PayLinks Rlp EvmTransaction SolanaMessage SolanaAppend.
From stdpp Require Import base tactics list option gmap strings.
From Stdlib Require Import ZArith Lia Ascii.

Open Scope Z_scope.

(** [ed25519_valid signature message publicKey] is false also where the library throws. *)
Class SolanaCrypto := mkSolanaCrypto {
  sha256 : list Z -> list Z;
  isOnCurve : list Z -> bool;
  ed25519_valid : list Z -> list Z -> list Z -> bool
}.

(** ** A signed transaction (solana-transaction.ts) *)

Record ParsedSolanaTransaction := mkParsed {
  pt_signatures : list (list Z);
  pt_message : list Z;
  pt_numRequiredSignatures : Z;
  pt_signers : list string
}.

(** Bytes past the end are undefined in the source: [& 0x80] of one is 0, and what
    follows then throws. *)
Definition parseSolanaTransaction (bytes : list Z) : option ParsedSolanaTransaction :=
  p ← readShortVec bytes 0;
  let count := Z.to_nat (fst p) in
  let sigEnd := (snd p + count * 64)%nat in
  if (count =? 0)%nat || (length bytes <? sigEnd)%nat then None
  else
    let signatures := List.map (signature_at bytes (snd p)) (seq 0 count) in
    let message := drop sigEnd bytes in
    let first := default 0 (head message) in
    at_ ← (if Z.land first 128 =? 0 then Some O else if first =? 128 then Some 1%nat else None);
    numRequiredSignatures ← message !! at_;
    k ← readShortVec message (3 + at_);
    let keyCount := Z.to_nat (fst k) in
    if (length message <? snd k + keyCount * 32)%nat then None
    else if negb (numRequiredSignatures =? Z.of_nat count) || (fst k <? numRequiredSignatures) then None
    else Some (mkParsed signatures message numRequiredSignatures
                 (List.map (fun i => encodeBase58 (subarray message (snd k + i * 32) (snd k + (i + 1) * 32)))
                    (seq 0 (Z.to_nat numRequiredSignatures)))).

Definition hasValidSignatures `{SolanaCrypto} (tx : ParsedSolanaTransaction) (publicKeys : list (list Z)) : bool :=
  forallb (fun x : nat * list Z =>
    let '(i, sig) := x in
    negb (forallb (fun b => b =? 0) sig)
    && match publicKeys !! i with Some k => ed25519_valid sig (pt_message tx) k | None => false end)
    (imap pair (pt_signatures tx)).

Definition transactionId (tx : ParsedSolanaTransaction) : string := encodeBase58 (nth 0 (pt_signatures tx) []).

(** ** Instructions (solana-transaction-builder.ts) *)

Definition SYSTEM_PROGRAM_ID : string := "11111111111111111111111111111111".
Definition ASSOCIATED_TOKEN_PROGRAM_ID : string := "ATokenGPvbdGVxr1b2hvZbsiqW5xWH25efTNsLJA8knL".
Definition SPL_MEMO_PROGRAM_ID : string := "MemoSq4gqABAXKb96qnH8TysNcWxMyWCqXgDLGmfcHr".

(** Little-endian digits. *)
Fixpoint le_bytes (n : nat) (value : Z) : list Z :=
  match n with O => [] | S n => value mod 256 :: le_bytes n (value / 256) end.

Definition u64le (value : Z) : option (list Z) :=
  if (value <? 0) || (18446744073709551615 <? value) then None else Some (le_bytes 8 value).

Definition systemTransfer (from to : string) (lamports : Z) : option SolanaInstruction :=
  amount ← u64le lamports;
  Some (mkInstruction SYSTEM_PROGRAM_ID [mkMeta from true true; mkMeta to false true] (le_bytes 4 2 ++ amount)).

Definition tokenTransferChecked (tokenProgram source mint destination owner : string) (amount decimals : Z) : option SolanaInstruction :=
  a ← u64le amount;
  Some (mkInstruction tokenProgram
          [mkMeta source false true; mkMeta mint false false; mkMeta destination false true; mkMeta owner true false]
          (12 :: a ++ [decimals mod 256])).

Definition createAssociatedTokenAccountIdempotent (payer account owner mint tokenProgram : string) : SolanaInstruction :=
  mkInstruction ASSOCIATED_TOKEN_PROGRAM_ID
    [mkMeta payer true true; mkMeta account false true; mkMeta owner false false; mkMeta mint false false;
     mkMeta SYSTEM_PROGRAM_ID false false; mkMeta tokenProgram false false] [1].

Definition memoInstruction (text : string) : SolanaInstruction := mkInstruction SPL_MEMO_PROGRAM_ID [] (codes text).

Definition withReference (ix : SolanaInstruction) (reference : string) : SolanaInstruction :=
  mkInstruction (si_programId ix) (si_keys ix ++ [mkMeta reference false false]) (si_data ix).

(** ** A legacy transaction *)

(** [metas]: a Map keeps its keys in order of first insertion. *)
Fixpoint add_meta (k : string) (s w : bool) (metas : list SolanaAccountMeta) : list SolanaAccountMeta :=
  match metas with
  | [] => [mkMeta k s w]
  | m :: r => if bool_decide (me_pubkey m = k) then mkMeta k (me_isSigner m || s) (me_isWritable m || w) :: r else m :: add_meta k s w r
  end.

Definition merged_metas (feePayer : string) (instructions : list SolanaInstruction) : list SolanaAccountMeta :=
  fold_left (fun metas m => add_meta (me_pubkey m) (me_isSigner m) (me_isWritable m) metas)
    (mkMeta feePayer true true :: List.concat (List.map si_keys instructions)
     ++ List.map (fun ix => mkMeta (si_programId ix) false false) instructions) [].

Definition meta_rank (feePayer : string) (m : SolanaAccountMeta) : nat :=
  if bool_decide (me_pubkey m = feePayer) then 0
  else if me_isSigner m then (if me_isWritable m then 1 else 2)
  else if me_isWritable m then 3 else 4.

(** A stable sort by the five ranks. *)
Definition ordered_metas (feePayer : string) (instructions : list SolanaInstruction) : list SolanaAccountMeta :=
  let all := merged_metas feePayer instructions in
  List.concat (List.map (fun r => List.filter (fun m => (meta_rank feePayer m =? r)%nat) all) (seq 0 5)).

Definition key_index (keys : list string) (k : string) : Z :=
  match list_find (fun x => x = k) keys with Some (i, _) => Z.of_nat i | None => -1 end.

Definition buildLegacyTransaction (feePayer recentBlockhash : string) (instructions : list SolanaInstruction) : option (list Z) :=
  let ordered := ordered_metas feePayer instructions in
  let keys := List.map me_pubkey ordered in
  let index := key_index keys in
  let signers := List.filter me_isSigner ordered in
  let readonlySigned := List.filter (fun m => negb (me_isWritable m)) signers in
  let readonlyUnsigned := List.filter (fun m => negb (me_isSigner m) && negb (me_isWritable m)) ordered in
  bytes ← mapM key keys;
  blockhash ← key recentBlockhash;
  let message := [len_of signers; len_of readonlySigned; len_of readonlyUnsigned] ++ shortVec (len_of keys) ++ List.concat bytes
    ++ blockhash ++ shortVec (len_of instructions)
    ++ List.concat (List.map (fun ix => index (si_programId ix) :: shortVec (len_of (si_keys ix))
          ++ List.map (fun k => index (me_pubkey k)) (si_keys ix) ++ shortVec (len_of (si_data ix)) ++ si_data ix) instructions) in
  Some (u8 (shortVec (len_of signers) ++ List.concat (List.map (fun _ => repeat 0 64) signers) ++ message)).

(** ** Token accounts (associated-token-account.ts) *)

(** "ProgramDerivedAddress" *)
Definition pda_marker : list Z := codes "ProgramDerivedAddress".

Fixpoint find_bump `{SolanaCrypto} (bumps : nat) (seeds program : list Z) : option string :=
  match bumps with
  | O => None
  | S bump =>
      let hash := sha256 (seeds ++ [Z.of_nat bump] ++ program ++ pda_marker) in
      if negb (isOnCurve hash) then Some (encodeBase58 hash) else find_bump bump seeds program
  end.

Definition findProgramAddress `{SolanaCrypto} (seeds : list (list Z)) (programId : string) : option string :=
  program ← key programId; find_bump 256 (List.concat seeds) program.

Definition associatedTokenAddress `{SolanaCrypto} (owner mint tokenProgram : string) : option string :=
  o ← key owner;
  t ← key tokenProgram;
  m ← key mint;
  findProgramAddress [o; t; m] ASSOCIATED_TOKEN_PROGRAM_ID.

(** ** The transaction of a Solana Pay link (solana-pay-transaction.builder.ts) *)

(** [Buffer.from(text, 'base64')] and [toString('base64')]. *)
Class Base64 := mkBase64 { from_b64 : string -> list Z; to_b64 : list Z -> string }.
Class Base64Laws `{Base64} : Prop := mkBase64Laws { b64_back b : Forall is_byte b -> from_b64 (to_b64 b) = b }.

Definition SPL_TOKEN_PROGRAM_ID : string := "TokenkegQfeZyiNwAJbNbGKPFXCWuBvf9Ss623VQ5DA".
Definition SPL_TOKEN_2022_PROGRAM_ID : string := "TokenzQdBNbLqP5VEhdkAS6EPFLC1PHnBqCXEpPxuEb".
Definition SPL_TOKEN_PROGRAM_IDS : list string := [SPL_TOKEN_PROGRAM_ID; SPL_TOKEN_2022_PROGRAM_ID].

Record SolanaPayLink := mkSolanaPayLink {
  sl_network : string;
  sl_destination : string;
  sl_chainReference : option string;
  sl_asset : string;
  sl_assetIssuer : option string;
  sl_assetDecimals : option nat;
  sl_amount : option string;
  sl_memo : string;
  sl_merchantFee : json
}.

Section pay_link.
Context `{SolanaCrypto} `{Base64}.
Context (getAccountOwner : string -> string -> res (option string)) (getLatestBlockhash : string -> res string).

Definition or_throw {A} (o : option A) : res A := res_of_option JsError o.

Definition tokenProgramOf (network mint : string) (refusal : exn) : res string :=
  program ← getAccountOwner network mint;
  match program with
  | Some p => if bool_decide (p ∈ SPL_TOKEN_PROGRAM_IDS) && negb (String.eqb p "") then Ok p else Throw refusal
  | None => Throw refusal
  end.

Definition native_transfers (payer destination wallet reference : string) (toMerchant toFee : Z) : res (list SolanaInstruction) :=
  merchant ← or_throw (systemTransfer payer destination toMerchant);
  fee ← or_throw (systemTransfer payer wallet toFee);
  Ok [withReference merchant reference; fee].

Definition token_transfers (payer destination wallet mint tokenProgram reference : string) (toMerchant toFee : Z) (decimals : nat)
    : res (list SolanaInstruction) :=
  source ← or_throw (associatedTokenAddress payer mint tokenProgram);
  merchantAccount ← or_throw (associatedTokenAddress destination mint tokenProgram);
  feeAccount ← or_throw (associatedTokenAddress wallet mint tokenProgram);
  merchant ← or_throw (tokenTransferChecked tokenProgram source mint merchantAccount payer toMerchant (Z.of_nat decimals));
  fee ← or_throw (tokenTransferChecked tokenProgram source mint feeAccount payer toFee (Z.of_nat decimals));
  Ok [createAssociatedTokenAccountIdempotent payer merchantAccount destination mint tokenProgram;
      createAssociatedTokenAccountIdempotent payer feeAccount wallet mint tokenProgram;
      withReference merchant reference; fee].

(** What [build] puts in the transaction. *)
Definition pay_instructions (link : SolanaPayLink) (payer : string) : res (list SolanaInstruction) :=
  let native := bool_decide (sl_asset link = "native"%string) in
  let decimals := if native then NATIVE_DECIMALS solana else default (NATIVE_DECIMALS solana) (sl_assetDecimals link) in
  legs ← paymentLegs (sl_amount link) (sl_merchantFee link) decimals;
  match sl_chainReference link, destinationAmount legs, legs_fee legs with
  | Some reference, Some destination, Some (wallet, amount) =>
      if String.eqb reference "" then Throw (badRequest ValidationFailed)
      else
        toMerchant ← parseUnits destination decimals;
        toFee ← parseUnits amount decimals;
        transfers ← (if native then native_transfers payer (sl_destination link) wallet reference toMerchant toFee
                     else
                       let mint := default ""%string (sl_assetIssuer link) in
                       program ← tokenProgramOf (sl_network link) mint (badGateway ProviderError);
                       token_transfers payer (sl_destination link) wallet mint program reference toMerchant toFee decimals);
        Ok (memoInstruction (sl_memo link) :: transfers)
  | _, _, _ => Throw (badRequest ValidationFailed)
  end.

Definition pay_transaction (link : SolanaPayLink) (payer : string) : res string :=
  instructions ← pay_instructions link payer;
  blockhash ← getLatestBlockhash (sl_network link);
  bytes ← or_throw (buildLegacyTransaction payer blockhash instructions);
  Ok (to_b64 bytes).
End pay_link.

(** ** The accounts of a legacy transaction *)

Lemma add_meta_pubkeys k s w metas : me_pubkey <$> add_meta k s w metas =
  (me_pubkey <$> metas) ++ (if decide (k ∈ me_pubkey <$> metas) then [] else [k]).
Proof.
  induction metas as [|m r IH]; [by rewrite decide_False by set_solver|]. cbn [add_meta]. case_bool_decide as E.
  - rewrite decide_True by set_solver. cbn. by rewrite E, app_nil_r.
  - cbn. rewrite IH. f_equal. f_equal. destruct (decide (k ∈ me_pubkey <$> r)), (decide (k ∈ me_pubkey m :: _)); set_solver.
Qed.

Lemma add_meta_elem k s w metas m : NoDup (me_pubkey <$> metas) -> m ∈ add_meta k s w metas ->
  (me_pubkey m <> k /\ m ∈ metas)
  \/ (exists m0, m0 ∈ metas /\ me_pubkey m0 = k /\ m = mkMeta k (me_isSigner m0 || s) (me_isWritable m0 || w))
  \/ (k ∉ (me_pubkey <$> metas) /\ m = mkMeta k s w).
Proof.
  induction metas as [|x r IH]; cbn [add_meta fmap list_fmap]; [set_solver|]. intros [Hx Hr]%NoDup_cons. case_bool_decide as E.
  - intros [->|H]%elem_of_cons; [right; left; exists x; set_solver|]. left. split; [|set_solver]. intros Em. apply Hx. rewrite E, <- Em. set_solver.
  - intros [->|H]%elem_of_cons; [left; set_solver|]. destruct (IH Hr H) as [[? ?]|[(m0 & ? & ? & ?)|[? ?]]]; [left; set_solver|right; left; exists m0; set_solver|].
    right. right. split; [set_solver|done].
Qed.

(** The flags of a key are what any of its uses says. *)
Definition uses (k : string) (l : list SolanaAccountMeta) : list SolanaAccountMeta := List.filter (fun m => bool_decide (me_pubkey m = k)) l.
Definition merged_from (l metas : list SolanaAccountMeta) : Prop :=
  NoDup (me_pubkey <$> metas) /\ (forall k, k ∈ me_pubkey <$> metas <-> k ∈ me_pubkey <$> l)
  /\ forall m, m ∈ metas -> me_isSigner m = existsb me_isSigner (uses (me_pubkey m) l)
       /\ me_isWritable m = existsb me_isWritable (uses (me_pubkey m) l).

Lemma uses_snoc k l m : uses k (l ++ [m]) = uses k l ++ (if bool_decide (me_pubkey m = k) then [m] else []).
Proof. unfold uses. rewrite List.filter_app. cbn. by destruct (bool_decide _). Qed.

Lemma uses_none k l : k ∉ me_pubkey <$> l -> uses k l = [].
Proof.
  induction l as [|m l IH]; [done|]. cbn. intros [H1 H2]%not_elem_of_cons. rewrite bool_decide_eq_false_2 by done. by apply IH.
Qed.

Lemma merged_snoc l metas x : merged_from l metas -> merged_from (l ++ [x]) (add_meta (me_pubkey x) (me_isSigner x) (me_isWritable x) metas).
Proof.
  intros (Hnd & Hk & Hf). split_and!.
  - rewrite add_meta_pubkeys. destruct (decide _) as [|Hn]; [by rewrite app_nil_r|]. apply NoDup_app. split_and!; [done|set_solver|apply NoDup_singleton].
  - intros k. rewrite add_meta_pubkeys, fmap_app. specialize (Hk k). destruct (decide _) as [Hin|]; [|set_solver]. rewrite app_nil_r. set_solver.
  - intros m Hm. destruct (add_meta_elem _ _ _ _ _ Hnd Hm) as [[Hne Hin]|[(m0 & Hin & E & ->)|[Hn ->]]]; rewrite !uses_snoc; cbn [me_pubkey me_isSigner me_isWritable].
    + rewrite bool_decide_eq_false_2 by congruence. rewrite !app_nil_r. by apply Hf.
    + rewrite bool_decide_eq_true_2 by done. rewrite !existsb_app. cbn [existsb]. rewrite !orb_false_r. destruct (Hf m0 Hin) as [-> ->]. by rewrite E.
    + rewrite bool_decide_eq_true_2 by done. rewrite !existsb_app. cbn [existsb]. rewrite !orb_false_r.
      rewrite uses_none; [done|]. by rewrite <- Hk.
Qed.

(** Every use of an account: the payer's, the instructions', the programs'. *)
Definition all_uses (feePayer : string) (instructions : list SolanaInstruction) : list SolanaAccountMeta :=
  mkMeta feePayer true true :: List.concat (List.map si_keys instructions) ++ List.map (fun ix => mkMeta (si_programId ix) false false) instructions.

Lemma merged_metas_spec feePayer instructions : merged_from (all_uses feePayer instructions) (merged_metas feePayer instructions).
Proof.
  unfold merged_metas. fold (all_uses feePayer instructions).
  assert (forall l pre metas, merged_from pre metas ->
    merged_from (pre ++ l) (fold_left (fun metas m => add_meta (me_pubkey m) (me_isSigner m) (me_isWritable m) metas) l metas)) as H.
  { induction l as [|x l IH]; intros pre metas Hm; cbn [fold_left]; [by rewrite app_nil_r|].
    rewrite cons_middle, app_assoc. by apply IH, merged_snoc. }
  apply (H _ [] []). split_and!; [constructor|set_solver|set_solver].
Qed.

(** ** Their order *)

Definition group (feePayer : string) (all : list SolanaAccountMeta) (r : nat) : list SolanaAccountMeta :=
  List.filter (fun m => (meta_rank feePayer m =? r)%nat) all.

Lemma group_elem feePayer all r m : m ∈ group feePayer all r <-> m ∈ all /\ meta_rank feePayer m = r.
Proof. unfold group. rewrite !list_elem_of_In, List.filter_In, Nat.eqb_eq. done. Qed.

Lemma groups_permuted feePayer all :
  List.concat (List.map (group feePayer all) (seq 0 5)) ≡ₚ all.
Proof.
  induction all as [|m l IH]; [done|]. cbn [seq List.map List.concat] in *. unfold group in *. cbn [List.filter].
  etrans; [|apply perm_skip, IH]. clear IH. assert (Hr : (meta_rank feePayer m < 5)%nat).
  { unfold meta_rank. case_bool_decide; [lia|]. destruct (me_isSigner m), (me_isWritable m); lia. }
  generalize dependent (meta_rank feePayer m). intros r Hr.
  destruct r as [|[|[|[|[|?]]]]]; [..|lia]; cbn [Nat.eqb]; solve_Permutation.
Qed.

Definition account_of (m : SolanaAccountMeta) : Account := mkAccount (me_pubkey m) (me_isSigner m) (me_isWritable m).
Definition flagged (s w : bool) (l : list SolanaAccountMeta) : Prop := Forall (fun m => me_isSigner m = s /\ me_isWritable m = w) l.

Lemma statics_flagged a b c d : flagged true true a -> flagged true false b -> flagged false true c -> flagged false false d ->
  statics (len_of (a ++ b), len_of b, len_of d) (List.map me_pubkey (a ++ b ++ c ++ d)) = List.map account_of (a ++ b ++ c ++ d).
Proof.
  intros Ha Hb Hc Hd. apply list_eq. intros i. rewrite lookup_statics.
  rewrite (list_lookup_fmap me_pubkey), (list_lookup_fmap account_of). destruct ((a ++ b ++ c ++ d) !! i) as [m|] eqn:E; [|done].
  assert (Hlen : len_of (List.map me_pubkey (a ++ b ++ c ++ d)) = Z.of_nat (length a + length b + length c + length d))
    by (unfold len_of; rewrite length_map, !length_app; lia).
  cbn [fmap option_fmap option_map]. unfold static_account, account_of, len_of in *. rewrite Hlen, length_app. do 2 f_equal.
  all: rewrite !lookup_app_Some in E;
    destruct E as [E|[H1 [E|[H2 [E|[H3 E]]]]]]; assert (Hlt := lookup_lt_Some _ _ _ E);
    unfold flagged in *; rewrite Forall_forall in *; apply list_elem_of_lookup_2 in E;
    first [destruct (Ha _ E) as [F1 F2]|destruct (Hb _ E) as [F1 F2]|destruct (Hc _ E) as [F1 F2]|destruct (Hd _ E) as [F1 F2]];
    rewrite ?F1, ?F2;
    split_ltb; first [done | lia].
Qed.

Section legacy.
Context (feePayer : string) (instructions : list SolanaInstruction).
Abbreviation all := (merged_metas feePayer instructions).
Abbreviation ordered := (ordered_metas feePayer instructions).
Abbreviation uses_all := (all_uses feePayer instructions).

Lemma ordered_permuted : ordered ≡ₚ all.
Proof. apply groups_permuted. Qed.

Lemma ordered_nodup : NoDup (me_pubkey <$> ordered).
Proof. rewrite ordered_permuted. apply merged_metas_spec. Qed.

Lemma payer_meta m : m ∈ all -> me_pubkey m = feePayer -> me_isSigner m = true /\ me_isWritable m = true.
Proof.
  intros Hm E. destruct (merged_metas_spec feePayer instructions) as (_ & _ & Hf). destruct (Hf m Hm) as [-> ->]. rewrite E.
  unfold all_uses, uses. cbn [List.filter me_pubkey]. rewrite bool_decide_eq_true_2 by done. done.
Qed.

Lemma group_flagged r s w : (r = 1 /\ s = true /\ w = true \/ r = 2 /\ s = true /\ w = false \/ r = 3 /\ s = false /\ w = true
    \/ r = 4 /\ s = false /\ w = false)%nat -> flagged s w (group feePayer all r).
Proof.
  intros H. apply Forall_forall. intros m [_ Hr]%group_elem. unfold meta_rank in Hr. case_bool_decide; [lia|].
  destruct (me_isSigner m), (me_isWritable m); naive_solver lia.
Qed.

(** The payer comes first. *)
Lemma group_payer : exists m, group feePayer all 0 = [m] /\ me_pubkey m = feePayer /\ me_isSigner m = true /\ me_isWritable m = true.
Proof.
  destruct (merged_metas_spec feePayer instructions) as (Hnd & Hk & _).
  assert (Hin : feePayer ∈ me_pubkey <$> all) by (apply Hk; unfold all_uses; cbn; set_solver).
  apply list_elem_of_fmap in Hin as (m & E & Hm).
  assert (Hg : forall x, x ∈ group feePayer all 0 <-> x = m).
  { intros x. rewrite group_elem. unfold meta_rank. split.
    - intros [Hx Hr]. case_bool_decide as Ex; [|by destruct (me_isSigner x), (me_isWritable x)].
      apply list_elem_of_lookup in Hx as [i Hi]. apply list_elem_of_lookup in Hm as [j Hj].
      assert (i = j) as ->; [|congruence]. apply (NoDup_lookup _ _ _ feePayer Hnd); rewrite list_lookup_fmap; [by rewrite Hi, <- Ex|by rewrite Hj, E].
    - intros ->. split; [done|]. by rewrite bool_decide_eq_true_2. }
  exists m. split; [|split; [done|by apply payer_meta]].
  assert (Hndg : NoDup (group feePayer all 0)).
  { assert (Hn : NoDup all) by (by eapply NoDup_fmap_1). unfold group. apply NoDup_ListNoDup, List.NoDup_filter, NoDup_ListNoDup, Hn. }
  destruct (group feePayer all 0) as [|x [|y l]]; [by specialize (proj2 (Hg m) eq_refl); set_solver|f_equal; apply Hg; set_solver|].
  exfalso. assert (x = m) by (apply Hg; set_solver). assert (y = m) by (apply Hg; set_solver). apply NoDup_cons in Hndg as [Hx _]. set_solver.
Qed.

Abbreviation A := (group feePayer all 0 ++ group feePayer all 1).
Abbreviation B := (group feePayer all 2).
Abbreviation C := (group feePayer all 3).
Abbreviation D := (group feePayer all 4).

Lemma ordered_groups : ordered = A ++ B ++ C ++ D.
Proof. unfold ordered_metas. cbn [seq List.map List.concat]. unfold group. by rewrite app_nil_r, <- app_assoc. Qed.

Lemma groups_flagged : flagged true true A /\ flagged true false B /\ flagged false true C /\ flagged false false D.
Proof.
  split_and!; [|by apply group_flagged; naive_solver..]. apply Forall_app. split; [|apply group_flagged; naive_solver].
  destruct group_payer as (m & -> & _ & H). by apply Forall_singleton.
Qed.

Lemma filter_flags (p : SolanaAccountMeta -> bool) s w l : flagged s w l -> (forall k, p (mkMeta k s w) = p (mkMeta "" s w)) ->
  List.filter p l = if p (mkMeta "" s w) then l else [].
Proof.
  intros H Hp. induction H as [|m l [Hs Hw] _ IH]; cbn [List.filter]; [by destruct (p _)|].
  assert (p m = p (mkMeta "" s w)) as -> by (rewrite <- (Hp (me_pubkey m)); destruct m; cbn in *; by subst). rewrite IH. by destruct (p _).
Qed.

Abbreviation signers := (List.filter me_isSigner ordered).
Abbreviation header := (len_of signers, len_of (List.filter (fun m => negb (me_isWritable m)) signers),
  len_of (List.filter (fun m => negb (me_isSigner m) && negb (me_isWritable m)) ordered)).

Lemma header_groups : signers = A ++ B /\ header = (len_of (A ++ B), len_of B, len_of D).
Proof.
  destruct groups_flagged as (HA & HB & HC & HD).
  assert (E : signers = A ++ B).
  { rewrite ordered_groups, !List.filter_app. rewrite <- List.filter_app.
    rewrite (filter_flags me_isSigner _ _ A HA), (filter_flags me_isSigner _ _ B HB), (filter_flags me_isSigner _ _ C HC),
      (filter_flags me_isSigner _ _ D HD) by done. cbn. by rewrite app_nil_r. }
  split; [done|]. rewrite E, ordered_groups, !(List.filter_app _ A), !(List.filter_app _ B), !(List.filter_app _ C).
  rewrite (filter_flags (fun m => negb (me_isWritable m)) _ _ A HA), (filter_flags (fun m => negb (me_isWritable m)) _ _ B HB) by done.
  rewrite (filter_flags (fun m => negb (me_isSigner m) && negb (me_isWritable m)) _ _ A HA),
    (filter_flags (fun m => negb (me_isSigner m) && negb (me_isWritable m)) _ _ B HB),
    (filter_flags (fun m => negb (me_isSigner m) && negb (me_isWritable m)) _ _ C HC),
    (filter_flags (fun m => negb (me_isSigner m) && negb (me_isWritable m)) _ _ D HD) by done. cbn. done.
Qed.

(** The accounts the built message addresses, with their flags. *)
Abbreviation keys := (List.map me_pubkey ordered).

Lemma built_accounts : statics header keys = List.map account_of ordered.
Proof.
  destruct header_groups as [_ ->], groups_flagged as (HA & HB & HC & HD). rewrite ordered_groups. by apply statics_flagged.
Qed.

Lemma use_index m : m ∈ uses_all -> exists i x, key_index keys (me_pubkey m) = Z.of_nat i /\ ordered !! i = Some x
  /\ me_pubkey x = me_pubkey m /\ (me_isSigner m = true -> me_isSigner x = true) /\ (me_isWritable m = true -> me_isWritable x = true).
Proof.
  intros Hm. destruct (merged_metas_spec feePayer instructions) as (_ & Hk & Hf).
  assert (Hin : me_pubkey m ∈ me_pubkey <$> ordered) by (rewrite ordered_permuted; apply Hk; by apply list_elem_of_fmap_2).
  unfold key_index. destruct (list_find (fun x => x = me_pubkey m) keys) as [[i x]|] eqn:E.
  - apply list_find_Some in E as (Hi & -> & _). rewrite (list_lookup_fmap me_pubkey) in Hi.
    destruct (ordered !! i) as [x|] eqn:Ex; [|done]. injection Hi as Hxk. exists i, x. split_and!; try done.
    all: assert (Hx : x ∈ all) by (rewrite <- ordered_permuted; by eapply list_elem_of_lookup_2);
      destruct (Hf x Hx) as [F1 F2]; rewrite ?F1, ?F2, Hxk; intros Hflag; apply existsb_exists; exists m; split; [|done];
      apply List.filter_In; split; [by apply list_elem_of_In|by apply bool_decide_eq_true].
  - apply list_find_None in E. rewrite Forall_forall in E. by destruct (E _ Hin).
Qed.
End legacy.

(** Sizes the format can hold: accounts by a byte, signers below the version bit. *)
Record fits (feePayer : string) (instructions : list SolanaInstruction) : Prop := mkFits {
  fi_keys : (length (ordered_metas feePayer instructions) <= 256)%nat;
  fi_signers : (length (List.filter me_isSigner (ordered_metas feePayer instructions)) < 128)%nat;
  fi_instructions : Forall (fun ix => vec_ok (si_keys ix) /\ bytes_ok (si_data ix)) instructions /\ vec_ok instructions
}.

Section built.
Context (feePayer recentBlockhash : string) (instructions : list SolanaInstruction) (F : fits feePayer instructions).
Abbreviation ordered := (ordered_metas feePayer instructions).
Abbreviation keys := (List.map me_pubkey ordered).
Abbreviation signers := (List.filter me_isSigner ordered).
Abbreviation header := (len_of signers, len_of (List.filter (fun m => negb (me_isWritable m)) signers),
  len_of (List.filter (fun m => negb (me_isSigner m) && negb (me_isWritable m)) ordered)).

Definition built_instruction (ix : SolanaInstruction) : CompiledInstruction :=
  mkCompiled (key_index keys (si_programId ix)) (List.map (fun k => key_index keys (me_pubkey k)) (si_keys ix)) (si_data ix).
Definition built_message : CompiledMessage :=
  mkMessage legacy header keys recentBlockhash (List.map built_instruction instructions) [].

Lemma key_use ix k : ix ∈ instructions -> k ∈ si_keys ix -> k ∈ all_uses feePayer instructions.
Proof.
  intros Hi Hk. unfold all_uses. apply elem_of_cons. right. apply elem_of_app. left. apply list_elem_of_In, List.in_concat.
  exists (si_keys ix). split; [by apply List.in_map, list_elem_of_In|by apply list_elem_of_In].
Qed.

Lemma program_use ix : ix ∈ instructions -> mkMeta (si_programId ix) false false ∈ all_uses feePayer instructions.
Proof.
  intros Hi. unfold all_uses. apply elem_of_cons. right. apply elem_of_app. right.
  by apply list_elem_of_In, (List.in_map (fun ix => mkMeta (si_programId ix) false false)), list_elem_of_In.
Qed.

Lemma use_byte m : m ∈ all_uses feePayer instructions -> is_byte (key_index keys (me_pubkey m)).
Proof.
  intros (i & x & -> & Hi & _)%use_index. apply lookup_lt_Some in Hi. assert (H := fi_keys _ _ F). unfold is_byte. lia.
Qed.

Lemma filter_le {T} (p : T -> bool) l : (length (List.filter p l) <= length l)%nat.
Proof. induction l as [|x l IH]; [done|]. cbn [List.filter]. destruct (p x); cbn [length]; lia. Qed.

Lemma built_ok bytes blockhash : mapM key keys = Some bytes -> key recentBlockhash = Some blockhash ->
  transaction_ok (mkDecodedTx (List.map (fun _ => repeat 0 64) signers) built_message).
Proof.
  intros Hk Hb. assert (Hn := fi_keys _ _ F). assert (Hs := fi_signers _ _ F). destruct (fi_instructions _ _ F) as [Hi Hv].
  assert (Hlen : len_of keys <= 256) by (unfold len_of; rewrite length_map; lia).
  assert (H1 := filter_le (fun m => negb (me_isWritable m)) signers).
  destruct (header_groups feePayer instructions) as [E1 E2]. split_and!; cbn [dt_signatures dt_message].
  - apply List.Forall_map, Forall_forall. intros m _. split; [|by rewrite repeat_length].
    apply Forall_forall. intros x Hx%list_elem_of_In%repeat_spec. subst. unfold is_byte. lia.
  - unfold vec_ok, len_of. rewrite length_map. lia.
  - split; cbn [built_message cm_header cm_version cm_staticKeys cm_recentBlockhash cm_instructions cm_lookups].
    + split; [|unfold len_of; lia].
      assert (H2 := filter_le (fun m => negb (me_isSigner m) && negb (me_isWritable m)) ordered).
      assert (H3 : (length (List.filter (fun m => negb (me_isSigner m) && negb (me_isWritable m)) ordered) < length ordered)%nat).
      { destruct (group_payer feePayer instructions) as (m & Em & _).
        assert (X : (length ordered = length (group feePayer (merged_metas feePayer instructions) 0 ++ group feePayer (merged_metas feePayer instructions) 1)
          + length (group feePayer (merged_metas feePayer instructions) 2) + length (group feePayer (merged_metas feePayer instructions) 3)
          + length (group feePayer (merged_metas feePayer instructions) 4))%nat)
          by (rewrite ordered_groups, !length_app; lia).
        rewrite Em in X. cbn [app length] in X. injection E2 as _ _ E2. unfold len_of in E2. lia. }
      unfold len_of. repeat constructor; lia.
    + split; [|unfold vec_ok; lia]. apply mapM_Some in Hk. apply Forall_forall. intros k Hin.
      apply list_elem_of_lookup in Hin as [i Hin]. destruct (Forall2_lookup_l _ _ _ _ _ Hk Hin) as (b & _ & Hkb). by exists b.
    + by exists blockhash.
    + split; [|unfold vec_ok, len_of in *; by rewrite length_map]. apply List.Forall_map, Forall_forall. intros ix Hix.
      rewrite Forall_forall in Hi. destruct (Hi ix Hix) as [Hkv Hd]. split_and!; cbn [built_instruction ci_programIdIndex ci_accounts ci_data]; [| |done].
      * apply (use_byte (mkMeta (si_programId ix) false false)), program_use, Hix.
      * split; [|unfold vec_ok, len_of in *; by rewrite length_map]. apply List.Forall_map, Forall_forall. intros k Hkin.
        by eapply use_byte, key_use.
    + done.
Qed.

Lemma built_decodes out : buildLegacyTransaction feePayer recentBlockhash instructions = Some out ->
  decodeTransaction out = Some (mkDecodedTx (List.map (fun _ => repeat 0 64) signers) built_message).
Proof.
  unfold buildLegacyTransaction. cbv zeta. destruct (mapM key keys) as [bytes|] eqn:Ek; [|done]. cbn [mbind option_bind].
  destruct (key recentBlockhash) as [bh|] eqn:Eb; [|done]. cbn [mbind option_bind]. intros H. apply Some_inj in H. subst out.
  assert (Hok := built_ok _ _ Ek Eb). destruct Hok as (H1 & H2 & H3). unfold u8. rewrite !List.map_app. fold (u8 (shortVec (len_of signers))).
  assert (H64 := proj1 (conj H1 H2)). cbn [dt_signatures] in *.
  rewrite u8_bytes. 2: { unfold vec_ok in H2. unfold len_of in H2. rewrite length_map in H2. by apply shortVec_len_bytes. }
  fold (u8 (List.concat (List.map (fun _ : SolanaAccountMeta => repeat 0 64) signers))).
  rewrite (u8_bytes (List.concat _)). 2: { apply concat_bytes. eapply Forall_impl; [exact H1|]. by intros ? [? _]. }
  assert (Hm : encodeMessage built_message = Some (u8 ([len_of signers; len_of (List.filter (fun m => negb (me_isWritable m)) signers);
      len_of (List.filter (fun m => negb (me_isSigner m) && negb (me_isWritable m)) ordered)] ++ shortVec (len_of keys) ++ List.concat bytes
    ++ bh ++ shortVec (len_of instructions)
    ++ List.concat (List.map (fun ix => key_index keys (si_programId ix) :: shortVec (len_of (si_keys ix))
          ++ List.map (fun k => key_index keys (me_pubkey k)) (si_keys ix) ++ shortVec (len_of (si_data ix)) ++ si_data ix) instructions)))).
  { unfold encodeMessage. cbn [built_message cm_header cm_version cm_staticKeys cm_recentBlockhash cm_instructions cm_lookups].
    cbv zeta. rewrite Ek. cbn [mbind option_bind]. rewrite Eb. cbn [mbind option_bind app]. rewrite app_nil_r. do 2 f_equal. do 3 f_equal.
    assert (len_of (List.map built_instruction instructions) = len_of instructions) as -> by (unfold len_of; by rewrite length_map).
    do 4 f_equal. rewrite List.map_map. f_equal. apply List.map_ext. intros ix. unfold write_instruction, write_bytes, built_instruction.
    cbn [ci_programIdIndex ci_accounts ci_data]. f_equal. rewrite <- app_assoc. unfold len_of. by rewrite length_map. }
  unfold u8 in Hm. rewrite !List.map_app in Hm.
  rewrite <- (decode_parts (mkDecodedTx (List.map (fun _ => repeat 0 64) signers) built_message) _ (conj H1 (conj H2 H3)) Hm).
  cbn [dt_signatures]. do 2 f_equal. unfold len_of. by rewrite length_map.
Qed.
End built.

(** C19: The legacy transaction the service builds says what it was asked to. For
    instructions the format can hold, the bytes of [buildLegacyTransaction] decode; the
    accounts of the message have no duplicate, the fee payer first, signing and paying;
    each account signs or is writable exactly when some use of it asks for that; there
    is one empty signature slot per signer; and every instruction runs its program on
    the accounts it names, with at least the rights it asks for, and its data. *)
Theorem built_transaction_resolves feePayer recentBlockhash instructions out :
  fits feePayer instructions -> buildLegacyTransaction feePayer recentBlockhash instructions = Some out ->
  exists tx accounts, decodeTransaction out = Some tx /\ messageAccounts (dt_message tx) ∅ = Some accounts
  /\ NoDup (ac_pubkey <$> accounts) /\ head accounts = Some (mkAccount feePayer true true)
  /\ (forall a, a ∈ accounts ->
        ac_signer a = existsb me_isSigner (uses (ac_pubkey a) (all_uses feePayer instructions))
        /\ ac_writable a = existsb me_isWritable (uses (ac_pubkey a) (all_uses feePayer instructions)))
  /\ dt_signatures tx = List.map (fun _ => repeat 0 64) (List.filter ac_signer accounts)
  /\ Forall2 (fun ix c => exists l, resolve_instruction accounts c = Some (si_programId ix, l, si_data ix) /\ Forall2 grants (si_keys ix) l)
       instructions (cm_instructions (dt_message tx)).
Proof.
  intros F Hout. set (ordered := ordered_metas feePayer instructions). eexists _, (List.map account_of ordered).
  split; [by apply built_decodes|]. cbn [dt_message dt_signatures]. split_and!.
  - unfold messageAccounts. cbn [built_message cm_lookups cm_header cm_staticKeys loaded mapM mbind option_bind mret option_ret List.concat].
    change (loaded ∅ true []) with (Some ([] : list Account)). change (loaded ∅ false []) with (Some ([] : list Account)).
    cbn [mbind option_bind app]. by rewrite built_accounts, app_nil_r.
  - assert (ac_pubkey <$> List.map account_of ordered = me_pubkey <$> ordered) as -> by (rewrite <- list_fmap_compose; by apply list_fmap_ext).
    apply ordered_nodup.
  - destruct (group_payer feePayer instructions) as (m & Em & E1 & E2 & E3). unfold ordered. rewrite ordered_groups, Em. cbn. unfold account_of. by rewrite E1, E2, E3.
  - intros a Ha. apply list_elem_of_In, List.in_map_iff in Ha as (m & <- & Hm%list_elem_of_In).
    unfold ordered in Hm. rewrite ordered_permuted in Hm. by apply merged_metas_spec.
  - assert (List.filter ac_signer (List.map account_of ordered) = List.map account_of (List.filter me_isSigner ordered)) as ->.
    { clear. induction ordered as [|m l IH]; [done|]. cbn [List.map List.filter]. destruct m as [k [] w]; cbn; by rewrite ?IH. }
    by rewrite List.map_map.
  - cbn [built_message cm_instructions]. apply Forall2_fmap_r, Forall_Forall2_diag, Forall_forall. intros ix Hix. cbv beta.
    assert (Hk := fun k Hk => use_index _ _ _ (key_use feePayer instructions ix k Hix Hk)).
    destruct (use_index _ _ _ (program_use feePayer instructions ix Hix)) as (p & px & Ep & Hp & Epk & _). cbn [me_pubkey] in *.
    assert (Hl : exists l, mapM (account_at (List.map account_of ordered))
        (List.map (fun k => key_index (List.map me_pubkey ordered) (me_pubkey k)) (si_keys ix)) = Some l /\ Forall2 grants (si_keys ix) l).
    { setoid_rewrite mapM_Some. clear -Hk. induction (si_keys ix) as [|k ks IH]; [by exists []|].
      destruct (Hk k ltac:(set_solver)) as (i & x & Ei & Hi & Exk & Hs & Hw). destruct IH as (l & H1 & H2); [set_solver|].
      exists (account_of x :: l). cbn [List.map]. split; constructor; try done.
      fold ordered in Ei, Hi. by rewrite Ei, account_at_nat, (list_lookup_fmap account_of), Hi. }
    destruct Hl as (l & Hm & Hg). exists l. split; [|done]. unfold resolve_instruction, built_instruction. cbn [ci_programIdIndex ci_accounts ci_data].
    fold ordered in Ep, Hp |- *. rewrite Ep, account_at_nat, (list_lookup_fmap account_of), Hp. cbn [fmap option_fmap option_map mbind option_bind]. rewrite Hm. cbn [mbind option_bind].
    unfold account_of. cbn [ac_pubkey]. by rewrite Epk.
Qed.


(** The system program transfers SOL to a merchant, with the reference of the link. *)
Definition sample_payer : string := "4Nd1mBQtrMJVYVfKf2PJy9NZUZdTAsp7D4xWLs4gDB4T".
Definition sample_merchant : string := "9xQeWvG816bUx9EPjHmaT23yvVM2ZWbrrpZb9PusVFin".
Definition sample_pay : list SolanaInstruction :=
  [memoInstruction "order"; mkInstruction SYSTEM_PROGRAM_ID
     [mkMeta sample_payer true true; mkMeta sample_merchant false true; mkMeta ASSOCIATED_TOKEN_PROGRAM_ID false false] (le_bytes 4 2 ++ le_bytes 8 5000)].

Lemma sample_fits : fits sample_payer sample_pay.
Proof.
  split; [vm_compute; lia|vm_compute; lia|]. split; [|vm_compute; reflexivity].
  repeat constructor; vm_compute; try reflexivity; repeat constructor; discriminate.
Qed.

Lemma built_transaction_resolves_witness : fits sample_payer sample_pay
  /\ exists out tx, buildLegacyTransaction sample_payer SYSTEM_PROGRAM_ID sample_pay = Some out /\ decodeTransaction out = Some tx
     /\ exists accounts, messageAccounts (dt_message tx) ∅ = Some accounts /\ NoDup (ac_pubkey <$> accounts)
          /\ head accounts = Some (mkAccount sample_payer true true).
Proof.
  split; [exact sample_fits|]. destruct (buildLegacyTransaction sample_payer SYSTEM_PROGRAM_ID sample_pay) as [out|] eqn:E; [|by vm_compute in E].
  destruct (built_transaction_resolves _ _ _ _ sample_fits E) as (tx & accounts & H1 & H2 & H3 & H4 & _).
  exists out, tx. exact (conj eq_refl (conj H1 (ex_intro _ accounts (conj H2 (conj H3 H4))))).
Defined.
