(* ===== verification/ChainSwapStore.v ===== *)
(** Swaps on Solana and Monad, their data: what a venue takes and answers
    (src/src/swaps/venues/chain-swap-venue.ts), the aggregators' answers
    (src/src/jupiter/jupiter.client.ts, src/src/kuru/kuru.client.ts), the row
    (prisma/schema.prisma: ChainSwap) and its statements, and the world the service
    runs in: its tables, what the nodes and aggregators would answer now, what was
    broadcast. *)

From S2P Require Import Prelude Text Units MerchantFee Intents ChainAddress Webhooks Programs IntentService Settlement EscrowStore.
From stdpp Require Import base tactics list option gmap strings.
From Stdlib Require Import ZArith Lia Ascii.

Open Scope Z_scope.

(** ** What a venue takes and answers *)

Inductive OtherChain := Solana | Monad.
#[export] Instance OtherChain_eq_dec : EqDecision OtherChain.
Proof. solve_decision. Defined.
Definition chain_of (c : OtherChain) : Chain := match c with Solana => solana | Monad => monad end.

Record VenueAsset := mkVenueAsset { va_asset : string; va_decimals : nat }.

Record VenueRequest := mkVenueRequest {
  vr_source : option string;
  vr_send : VenueAsset;
  vr_dest : VenueAsset;
  vr_amount : Z;
  vr_slippageBps : Z;
  vr_feeBps : Z;
  vr_feeWallet : option string;
  vr_merchantFee : option (string * Z)
}.

(** The answers of the aggregators that the service reads; the rest of a Jupiter
    quote is kept whole. An absent platform fee is [None]. *)
Record JupiterQuote := mkJupiterQuote {
  jq_outAmount : string;
  jq_otherAmountThreshold : string;
  jq_platformFee : option string;
  jq_hops : list string;
  jq_whole : json
}.
Record KuruQuote := mkKuruQuote {
  kq_output : string;
  kq_minOut : string;
  kq_to : string;
  kq_calldata : string;
  kq_value : option string
}.
Inductive VenueRaw := FromJupiter (q : JupiterQuote) | FromKuru (q : KuruQuote).

Record VenueQuote := mkVenueQuote {
  vq_destEstimated : Z;
  vq_destMin : Z;
  vq_feeAmount : Z;
  vq_path : list string;
  vq_raw : VenueRaw
}.

(** What a wallet signs: a transaction in base64 with the last block it is valid at,
    or a call on a chain. *)
Record MonadCall := mkMonadCall { mc_to : string; mc_data : string; mc_value : string; mc_chainId : Z }.
Inductive VenueTransaction :=
  | SolanaBase64 (data : string) (lastValidBlockHeight : Z)
  | MonadSigns (call : MonadCall).

Record VenueBuild := mkVenueBuild {
  vb_quote : VenueQuote;
  vb_transaction : VenueTransaction;
  vb_approval : option MonadCall
}.

Inductive VenueSettlement := V_SUCCEEDED | V_FAILED.
#[export] Instance VenueSettlement_eq_dec : EqDecision VenueSettlement.
Proof. solve_decision. Defined.

(** ** The row *)

(** The columns no statement changes. [path] holds the codes of its hops. *)
Record SwapTerms := mkSwapTerms {
  st_id : string;
  st_consumerId : string;
  st_chain : OtherChain;
  st_source : string;
  st_sendAsset : string;
  st_sendDecimals : nat;
  st_sendAmount : string;
  st_destAsset : string;
  st_destDecimals : nat;
  st_destEstimated : string;
  st_destMin : string;
  st_feeBps : Z;
  st_feeAmount : string;
  st_slippageBps : Z;
  st_path : list string;
  st_transaction : VenueTransaction;
  st_approval : option MonadCall;
  st_quote : VenueRaw;
  st_idempotencyKey : option string;
  st_expiresAt : Z;
  st_merchantFee : json;
  st_createdAt : Z
}.
Record ChainSwap := mkChainSwap {
  cs_terms : SwapTerms;
  cs_status : SwapStatus;
  cs_txHash : option string;
  cs_lastCheckedAt : option Z;
  cs_updatedAt : Z
}.

Definition CHAIN_SWAP_PROVIDERS (c : OtherChain) : string := match c with Solana => "jupiter" | Monad => "kuru" end.

Definition status_name (s : SwapStatus) : string :=
  match s with S_PENDING => "PENDING" | S_SUBMITTED => "SUBMITTED" | S_SUCCEEDED => "SUCCEEDED" | S_FAILED => "FAILED" | S_EXPIRED => "EXPIRED" end.

Definition call_json (c : MonadCall) : json :=
  JObject [("to", JString (mc_to c)); ("data", JString (mc_data c)); ("value", JString (mc_value c)); ("chainId", json_of_int (mc_chainId c))]%string.
Definition transaction_json (t : VenueTransaction) : json :=
  match t with
  | SolanaBase64 data height =>
      JObject [("encoding", JString "base64"); ("data", JString data); ("lastValidBlockHeight", json_of_int height)]
  | MonadSigns c => call_json c
  end%string.

(** What is drawn, and a date's text in JSON. *)
Class SwapDraws := mkSwapDraws { sw_cuid : nat -> string; sw_draw : nat -> Draw; sw_iso : Z -> string }.

(** The columns but the raw quote, which leaves the service nowhere. *)
Definition row_json `{SwapDraws} (r : ChainSwap) : list (string * json) :=
  let t := cs_terms r in
  [("id", JString (st_id t)); ("consumerId", JString (st_consumerId t)); ("chain", JString (chain_name (chain_of (st_chain t))));
   ("network", JString "public"); ("provider", JString (CHAIN_SWAP_PROVIDERS (st_chain t))); ("status", JString (status_name (cs_status r)));
   ("source", JString (st_source t)); ("sendAsset", JString (st_sendAsset t)); ("sendDecimals", json_of_int (Z.of_nat (st_sendDecimals t)));
   ("sendAmount", JString (st_sendAmount t)); ("destAsset", JString (st_destAsset t)); ("destDecimals", json_of_int (Z.of_nat (st_destDecimals t)));
   ("destEstimated", JString (st_destEstimated t)); ("destMin", JString (st_destMin t)); ("feeBps", json_of_int (st_feeBps t));
   ("feeAmount", JString (st_feeAmount t)); ("slippageBps", json_of_int (st_slippageBps t));
   ("path", JArray (List.map (fun c => JObject [("code", JString c); ("issuer", JNull)]) (st_path t)));
   ("transaction", transaction_json (st_transaction t)); ("approval", match st_approval t with Some c => call_json c | None => JNull end);
   ("txHash", json_of_option (cs_txHash r)); ("idempotencyKey", json_of_option (st_idempotencyKey t));
   ("expiresAt", json_of_option (Some (sw_iso (st_expiresAt t)))); ("lastCheckedAt", json_of_option (sw_iso <$> cs_lastCheckedAt r));
   ("merchantFee", st_merchantFee t); ("createdAt", json_of_option (Some (sw_iso (st_createdAt t))));
   ("updatedAt", json_of_option (Some (sw_iso (cs_updatedAt r))))]%string.

Definition CHAIN_SWAP_PUBLIC_SELECT : list string :=
  ["id"; "chain"; "network"; "provider"; "status"; "source"; "sendAsset"; "sendAmount"; "destAsset"; "destEstimated"; "destMin";
   "feeBps"; "feeAmount"; "merchantFee"; "slippageBps"; "path"; "transaction"; "approval"; "txHash"; "idempotencyKey"; "expiresAt";
   "createdAt"; "updatedAt"]%string.

(** [present] *)
Definition present `{SwapDraws} (r : ChainSwap) : json := JObject (project (row_json r) CHAIN_SWAP_PUBLIC_SELECT).

(** ** What is outside

    What the nodes and the aggregators would answer now; a fault is thrown. *)

Record KuruBody := mkKuruBody {
  kb_userAddress : string;
  kb_tokenIn : string;
  kb_tokenOut : string;
  kb_amount : string;
  kb_slippageTolerance : Z;
  kb_referrer : option (string * Z)
}.
(** A field that is absent or empty is falsy either way. *)
Record KuruAnswer := mkKuruAnswer {
  ka_status : option string;
  ka_output : option string;
  ka_minOut : option string;
  ka_to : option string;
  ka_calldata : string;
  ka_value : option string
}.
Record JupiterParams := mkJupiterParams {
  jp_inputMint : string;
  jp_outputMint : string;
  jp_amount : string;
  jp_slippageBps : Z;
  jp_platformFeeBps : option Z;
  jp_maxAccounts : option Z
}.
Record JupiterSwapTransaction := mkJupiterSwap {
  js_swapTransaction : string;
  js_lastValidBlockHeight : Z;
  js_simulationError : bool
}.
Record SignatureStatus := mkSignatureStatus { ss_err : bool; ss_confirmationStatus : option string }.

Record Outside := mkOutside {
  o_erc20Decimals : string -> res (option nat);
  o_erc20Allowance : string -> string -> string -> res Z;
  o_ethCall : option string -> string -> res string;
  o_getCode : string -> res string;
  o_sendRawTransaction : string -> res unit;
  o_getReceipt : string -> res (option string);
  o_kuru : KuruBody -> res KuruAnswer;
  o_getMintDecimals : string -> res (option nat);
  o_getAccountOwner : string -> res (option string);
  o_getAddressLookupTable : string -> res (option (list string));
  o_sendTransaction : string -> res unit;
  o_getSignatureStatus : string -> res (option SignatureStatus);
  o_jupiterQuote : JupiterParams -> res JupiterQuote;
  o_jupiterSwap : JupiterQuote -> string -> option string -> res JupiterSwapTransaction
}.

(** ** The world

    Consumers by their gateway name, swaps by id, the webhooks' tables, what is
    outside, the router whose check passed in this process, the clock, the count of
    draws; and what happened, which no method reads: every text handed to a node, and
    what the nodes answered about a signature or a receipt, as they answered it. *)

Record VerifiedRouter := mkRouter { router_address : string; router_aggregator : string }.

Inductive SwapEvent :=
  | Sent (chain : OtherChain) (signed : string)
  | SignatureSeen (txHash : string) (status : option SignatureStatus)
  | ReceiptSeen (txHash : string) (status : option string).

Record SwapWorld := mkSwapWorld {
  sw_consumers : gmap string string;
  chain_swaps : gmap string ChainSwap;
  sw_hooks : Hooks;
  outside : Outside;
  verified : option VerifiedRouter;
  sw_history : list SwapEvent;
  sw_clock : Z;
  sw_drawn : nat
}.
Definition set_sw_consumers (f : gmap string string -> gmap string string) (s : SwapWorld) : SwapWorld :=
  mkSwapWorld (f (sw_consumers s)) (chain_swaps s) (sw_hooks s) (outside s) (verified s) (sw_history s) (sw_clock s) (sw_drawn s).
Definition set_chain_swaps (f : gmap string ChainSwap -> gmap string ChainSwap) (s : SwapWorld) : SwapWorld :=
  mkSwapWorld (sw_consumers s) (f (chain_swaps s)) (sw_hooks s) (outside s) (verified s) (sw_history s) (sw_clock s) (sw_drawn s).
Definition set_sw_hooks (h : Hooks) (s : SwapWorld) : SwapWorld :=
  mkSwapWorld (sw_consumers s) (chain_swaps s) h (outside s) (verified s) (sw_history s) (sw_clock s) (sw_drawn s).
Definition set_verified (r : VerifiedRouter) (s : SwapWorld) : SwapWorld :=
  mkSwapWorld (sw_consumers s) (chain_swaps s) (sw_hooks s) (outside s) (Some r) (sw_history s) (sw_clock s) (sw_drawn s).
Definition sw_log (e : SwapEvent) (s : SwapWorld) : SwapWorld :=
  mkSwapWorld (sw_consumers s) (chain_swaps s) (sw_hooks s) (outside s) (verified s) (sw_history s ++ [e]) (sw_clock s) (sw_drawn s).
Definition set_sw_drawn (n : nat) (s : SwapWorld) : SwapWorld :=
  mkSwapWorld (sw_consumers s) (chain_swaps s) (sw_hooks s) (outside s) (verified s) (sw_history s) (sw_clock s) n.

Abbreviation swapping := (prog SwapWorld).

(** One call to a node or an aggregator. *)
Definition outward {A} (f : Outside -> res A) : swapping A := r ← asking (fun s => f (outside s)); pure r.

(** ** Statements *)

(** [@@unique([consumerId, idempotencyKey])] and [@@unique([chain, txHash])]; null is
    equal to nothing. *)
Definition same_key (a b : ChainSwap) : bool :=
  bool_decide (st_consumerId (cs_terms a) = st_consumerId (cs_terms b))
  && match st_idempotencyKey (cs_terms a), st_idempotencyKey (cs_terms b) with Some k, Some k' => bool_decide (k = k') | _, _ => false end.
Definition same_hash (a b : ChainSwap) : bool :=
  bool_decide (st_chain (cs_terms a) = st_chain (cs_terms b))
  && match cs_txHash a, cs_txHash b with Some h, Some h' => bool_decide (h = h') | _, _ => false end.
Definition swap_violated (i : string) (r : ChainSwap) (s : SwapWorld) : option string :=
  let others := (map_to_list (delete i (chain_swaps s))).*2 in
  if existsb (same_key r) others then Some "chain_swap_consumerId_idempotencyKey_key"%string
  else if existsb (same_hash r) others then Some "chain_swap_chain_txHash_key"%string
  else None.

(** [chainSwap.create]: the id and the instants are the database's. *)
Definition create_swap `{SwapDraws} (terms : string -> Z -> SwapTerms) : svc SwapWorld ChainSwap := fun s =>
  let i := sw_cuid (sw_drawn s) in
  let r := mkChainSwap (terms i (sw_clock s)) S_PENDING None None (sw_clock s) in
  match chain_swaps s !! i, swap_violated i r s with
  | Some _, _ => (s, Throw (UniqueViolation "chain_swap_pkey"))
  | None, Some n => (s, Throw (UniqueViolation n))
  | None, None => (set_sw_drawn (S (sw_drawn s)) (set_chain_swaps (fun m => <[i := r]> m) s), Ok r)
  end.

(** [updateMany({ where: { id, ... }, data })] *)
Definition update_swap (i : string) (guard : ChainSwap -> bool) (data : Z -> ChainSwap -> ChainSwap) : svc SwapWorld nat := fun s =>
  match chain_swaps s !! i with
  | Some r =>
      if guard r then
        let r' := data (sw_clock s) r in
        match swap_violated i r' s with
        | Some n => (s, Throw (UniqueViolation n))
        | None => (set_chain_swaps (fun m => <[i := r']> m) s, Ok 1%nat)
        end
      else (s, Ok 0%nat)
  | None => (s, Ok 0%nat)
  end.

Definition find_swap (i : string) : swapping ChainSwap := r ← asking (fun s => chain_swaps s !! i); pure (res_of_option JsError r).

(** [data: { status: 'SUBMITTED', txHash }], [{ status, lastCheckedAt }], [{ lastCheckedAt }] *)
Definition to_submitted (txHash : string) (now : Z) (r : ChainSwap) : ChainSwap :=
  mkChainSwap (cs_terms r) S_SUBMITTED (Some txHash) (cs_lastCheckedAt r) now.
Definition to_status (st : SwapStatus) (now : Z) (r : ChainSwap) : ChainSwap :=
  mkChainSwap (cs_terms r) st (cs_txHash r) (Some now) now.
Definition touched (now : Z) (r : ChainSwap) : ChainSwap :=
  mkChainSwap (cs_terms r) (cs_status r) (cs_txHash r) (Some now) now.

(** [consumers.resolve]; the credential it also stores is not read here. *)
Definition resolve_consumer `{SwapDraws} (username : string) : svc SwapWorld string := fun s =>
  match sw_consumers s !! username with
  | Some c => (s, Ok c)
  | None => let c := sw_cuid (sw_drawn s) in
            (set_sw_drawn (S (sw_drawn s)) (set_sw_consumers (fun m => <[username := c]> m) s), Ok c)
  end.

(** [webhooks.emit] of a swap. *)
Definition emit_swap `{SwapDraws} (username : string) (type : WebhookEventType) (r : ChainSwap) : swapping bool :=
  stmt (fun s => let '(h, o) := Webhooks.emit username type (present r) (sw_draw (sw_drawn s)) (sw_hooks s) in
                 (set_sw_drawn (S (sw_drawn s)) (set_sw_hooks h s), o)).
