(* ===== verification/ChainSwapVenues.v ===== *)
(** The two venues of same-chain swaps: src/src/swaps/venues/solana-swap.venue.ts over
    Jupiter (src/src/jupiter/jupiter.client.ts) and monad-swap.venue.ts over Kuru Flow
    (src/src/kuru/kuru.client.ts). [ChainSwapVenue] is the interface the service
    uses them through. *)

From S2P Require Import Prelude Text Units MerchantFee Intents ChainAddress Webhooks Programs PayLinks Rlp EvmTransaction SolanaMessage SolanaAppend SolanaWire IntentService Settlement ChainSwapStore.
From stdpp Require Import base tactics list option gmap strings.
From Stdlib Require Import ZArith Lia Ascii.

Open Scope Z_scope.

(** ** The interface (chain-swap-venue.ts) *)

Record ChainSwapVenue := mkVenue {
  ve_resolveAsset : string -> swapping VenueAsset;
  ve_merchantFeeUnsupported : bool;
  ve_quote : VenueRequest -> swapping VenueQuote;
  ve_build : VenueRequest -> string -> swapping VenueBuild;
  ve_verify : SwapTerms -> string -> res string;
  ve_broadcast : string -> swapping unit;
  ve_settlement : string -> swapping (option VenueSettlement)
}.

Definition invalid : exn := badRequest ValidationFailed.
Definition is_native (a : VenueAsset) : bool := bool_decide (va_asset a = "native"%string).
Definition BigInt_js (text : string) : res Z := res_of_option JsError (BigInt_text text).

(** A text that is present and not empty. *)
Definition given (o : option string) : option string := if truthy o then o else None.

(** ** Solana *)

Definition WRAPPED_SOL_MINT : string := "So11111111111111111111111111111111111111112".
Definition COMPUTE_BUDGET_PROGRAM_ID : string := "ComputeBudget111111111111111111111111111111".
Definition SOLANA_TRANSACTION_MAX_BYTES : nat := 1232.
Definition MERCHANT_FEE_COMPUTE_UNITS : Z := 50000.
Definition JUPITER_MAX_ACCOUNTS_WITH_MERCHANT_FEE : Z := 40.

Definition mintOf (a : VenueAsset) : string := if is_native a then WRAPPED_SOL_MINT else va_asset a.

Section solana.
Context `{SolanaCrypto} `{Base64}.

Definition solana_resolveAsset (asset : string) : swapping VenueAsset :=
  let lower := toLowerCase asset in
  if bool_decide (lower = "native"%string) || bool_decide (lower = "sol"%string)
  then Ret (mkVenueAsset "native" (NATIVE_DECIMALS solana))
  else
    decimals ← outward (fun o => o_getMintDecimals o asset);
    match decimals with
    | None => Raise (badRequest AssetUnsupported)
    | Some d => Ret (mkVenueAsset asset d)
    end.

(** [jupiter.quote] with what the venue asks of it. *)
Definition jupiterQuote (request : VenueRequest) : swapping JupiterQuote :=
  outward (fun o => o_jupiterQuote o
    (mkJupiterParams (mintOf (vr_send request)) (mintOf (vr_dest request)) (toString (vr_amount request)) (vr_slippageBps request)
       (if 0 <? vr_feeBps request then Some (vr_feeBps request) else None)
       (match vr_merchantFee request with Some _ => Some JUPITER_MAX_ACCOUNTS_WITH_MERCHANT_FEE | None => None end))).

(** [jupiter.swapTransaction] *)
Definition swapTransaction (quote : JupiterQuote) (userPublicKey : string) (feeAccount : option string) : swapping JupiterSwapTransaction :=
  built ← outward (fun o => o_jupiterSwap o quote userPublicKey (given feeAccount));
  if js_simulationError built then Raise (badRequest ProviderError) else Ret built.

(** The hops of a set, in order of first insertion. *)
Fixpoint distinct (seen l : list string) : list string :=
  match l with
  | [] => []
  | x :: r => if bool_decide (x ∈ seen) then distinct seen r else x :: distinct (x :: seen) r
  end.

Definition solana_toVenueQuote (quote : JupiterQuote) (request : VenueRequest) : res VenueQuote :=
  let outputMint := mintOf (vr_dest request) in
  estimated ← BigInt_js (jq_outAmount quote);
  least ← BigInt_js (jq_otherAmountThreshold quote);
  fee ← BigInt_js (default "0"%string (jq_platformFee quote));
  Ok (mkVenueQuote estimated least fee
        (distinct [] (List.filter (fun m => negb (bool_decide (m = outputMint))) (jq_hops quote))) (FromJupiter quote)).

(** The owner of a mint, when it is a token program. *)
Definition token_program (mint : string) : swapping string :=
  program ← outward (fun o => o_getAccountOwner o mint);
  match given program with
  | Some p => if bool_decide (p ∈ SPL_TOKEN_PROGRAM_IDS) then Ret p else Raise (badRequest AssetUnsupported)
  | None => Raise (badRequest AssetUnsupported)
  end.

Definition feeAccount (owner mint : string) : swapping string :=
  program ← token_program mint;
  account ← pure (or_throw (associatedTokenAddress owner mint program));
  held ← outward (fun o => o_getAccountOwner o account);
  match given held with
  | None => Raise (unavailable Misconfigured)
  | Some _ => Ret account
  end.

Fixpoint lookupTables (lookups : list LookupTableUse) (tables : tables_of) : swapping tables_of :=
  match lookups with
  | [] => Ret tables
  | l :: r =>
      table ← outward (fun o => o_getAddressLookupTable o (lu_account l));
      match table with
      | None => Raise (badGateway ProviderError)
      | Some t => lookupTables r (<[lu_account l := t]> tables)
      end
  end.

(** The token instructions of a fee, for accounts that have an address. *)
Definition fee_transfer (program source : string) (send : VenueAsset) (wallet : string) (amount : Z) : option (list SolanaInstruction) :=
  from ← associatedTokenAddress source (va_asset send) program;
  to ← associatedTokenAddress wallet (va_asset send) program;
  transfer ← tokenTransferChecked program from (va_asset send) to source amount (Z.of_nat (va_decimals send));
  Some [createAssociatedTokenAccountIdempotent source to wallet (va_asset send) program; transfer].

Definition merchantFeeInstructions (source : string) (send : VenueAsset) (fee : string * Z) : swapping (list SolanaInstruction) :=
  let '(wallet, amount) := fee in
  if is_native send then
    owner ← outward (fun o => o_getAccountOwner o wallet);
    match owner with
    | None => Raise (badRequest ValidationFailed)
    | Some _ => ix ← pure (or_throw (systemTransfer source wallet amount)); Ret [ix]
    end
  else
    program ← token_program (va_asset send);
    pure (or_throw (fee_transfer program source send wallet amount)).

(** What is computed of Jupiter's transaction once everything is read. *)
Definition carry_fee (tx : DecodedTransaction) (tables : tables_of) (instructions : list SolanaInstruction) : res string :=
  match appendInstructions (dt_message tx) instructions tables with
  | None => Throw (badGateway ProviderError)
  | Some message =>
      bytes ← or_throw (encodeTransaction
                (mkDecodedTx (dt_signatures tx) (raiseComputeUnitLimit message MERCHANT_FEE_COMPUTE_UNITS COMPUTE_BUDGET_PROGRAM_ID)));
      if (SOLANA_TRANSACTION_MAX_BYTES <? length bytes)%nat then Throw (badGateway ProviderError) else Ok (to_b64 bytes)
  end.

Definition withMerchantFee (base64 source : string) (send : VenueAsset) (fee : string * Z) : swapping string :=
  tx ← pure (or_throw (decodeTransaction (from_b64 base64)));
  tables ← lookupTables (cm_lookups (dt_message tx)) ∅;
  instructions ← merchantFeeInstructions source send fee;
  pure (carry_fee tx tables instructions).

Definition solana_quote (request : VenueRequest) : swapping VenueQuote :=
  quote ← jupiterQuote request; pure (solana_toVenueQuote quote request).

Definition solana_build (request : VenueRequest) (source : string) : swapping VenueBuild :=
  account ← match given (vr_feeWallet request) with
            | Some w => if 0 <? vr_feeBps request then a ← feeAccount w (mintOf (vr_dest request)); Ret (Some a) else Ret None
            | None => Ret None
            end;
  quote ← jupiterQuote request;
  built ← swapTransaction quote source account;
  data ← match vr_merchantFee request with
         | Some fee => withMerchantFee (js_swapTransaction built) source (vr_send request) fee
         | None => Ret (js_swapTransaction built)
         end;
  q ← pure (solana_toVenueQuote quote request);
  Ret (mkVenueBuild q (SolanaBase64 data (js_lastValidBlockHeight built)) None).

Definition parse (base64 : string) : res ParsedSolanaTransaction :=
  match parseSolanaTransaction (from_b64 base64) with Some tx => Ok tx | None => Throw invalid end.

Definition solana_verify (swap : SwapTerms) (signed : string) : res string :=
  signedTx ← parse signed;
  builtTx ← match st_transaction swap with SolanaBase64 data _ => parse data | MonadSigns _ => Throw invalid end;
  if negb (bool_decide (pt_message signedTx = pt_message builtTx)) then Throw invalid
  else if negb (bool_decide (head (pt_signers signedTx) = Some (st_source swap))) then Throw invalid
  else
    keys ← res_of_option JsError (mapM decodeBase58 (pt_signers signedTx));
    if negb (hasValidSignatures signedTx keys) then Throw invalid
    else Ok (transactionId signedTx).

(** Handed to a node, whatever the node answers. *)
Definition handing (chain : OtherChain) (signed : string) (send : Outside -> string -> res unit) : swapping unit :=
  stmt (fun s => (sw_log (Sent chain signed) s, send (outside s) signed)).

(** What a node answers is remembered ([seen]) and made a verdict of. *)
Definition judged {A} (read : Outside -> res A) (seen : A -> SwapEvent) (verdict : A -> option VenueSettlement)
    : swapping (option VenueSettlement) :=
  stmt (fun s => match read (outside s) with
                 | Ok a => (sw_log (seen a) s, Ok (verdict a))
                 | Throw e => (s, Throw e)
                 end).

Definition solana_broadcast (signed : string) : swapping unit := handing Solana signed o_sendTransaction.

Definition signature_verdict (status : option SignatureStatus) : option VenueSettlement :=
  match status with
  | None => None
  | Some st =>
      if ss_err st then Some V_FAILED
      else if bool_decide (ss_confirmationStatus st = Some "confirmed"%string)
              || bool_decide (ss_confirmationStatus st = Some "finalized"%string)
      then Some V_SUCCEEDED else None
  end.
Definition solana_settlement (txHash : string) : swapping (option VenueSettlement) :=
  judged (fun o => o_getSignatureStatus o txHash) (SignatureSeen txHash) signature_verdict.

Definition solana_venue : ChainSwapVenue :=
  mkVenue solana_resolveAsset false solana_quote solana_build solana_verify solana_broadcast solana_settlement.
End solana.

(** ** Monad *)

Definition CHAIN_ID : Z := MONAD_CHAIN_IDS "public".
Definition KURU_NATIVE_TOKEN : string := ("0x" +:+ zeros 40)%string.
Definition KURU_QUOTE_ADDRESS : string := ("0x" +:+ zeros 39 +:+ "1")%string.

Definition tokenOf (a : VenueAsset) : string := if is_native a then KURU_NATIVE_TOKEN else va_asset a.

(** [routerAddress] and the router's compiled code (an artifact of the build). *)
Class RouterConfig := mkRouterConfig { merchantFeeRouter : option string; router_artifact : string }.

Section monad.
Context `{Secp} `{RouterConfig}.
Abbreviation checksummed := (toChecksumAddress keccak_hex_of).

Definition monad_merchantFeeUnsupported : bool := negb (truthy merchantFeeRouter).

Definition monad_resolveAsset (asset : string) : swapping VenueAsset :=
  let lower := toLowerCase asset in
  if bool_decide (lower = "native"%string) || bool_decide (lower = "mon"%string)
  then Ret (mkVenueAsset "native" (NATIVE_DECIMALS monad))
  else
    decimals ← outward (fun o => o_erc20Decimals o asset);
    match decimals with
    | None => Raise (badRequest AssetUnsupported)
    | Some d => Ret (mkVenueAsset (checksummed asset) d)
    end.

(** [kuru.quote]: the referrer only with a fee, and what is refused of the answer. *)
Definition kuru_quote (userAddress : string) (request : VenueRequest) : swapping KuruQuote :=
  answer ← outward (fun o => o_kuru o
    (mkKuruBody userAddress (tokenOf (vr_send request)) (tokenOf (vr_dest request)) (toString (vr_amount request))
       (Z.max (vr_slippageBps request) 1)
       (match given (vr_feeWallet request) with
        | Some w => if 0 <? vr_feeBps request then Some (w, vr_feeBps request) else None
        | None => None
        end)));
  match given (ka_output answer), given (ka_minOut answer), given (ka_to answer) with
  | Some output, Some minOut, Some to =>
      if bool_decide (ka_status answer = Some "success"%string)
      then Ret (mkKuruQuote output minOut to (ka_calldata answer) (ka_value answer))
      else Raise (badRequest ProviderError)
  | _, _, _ => Raise (badRequest ProviderError)
  end.

Definition kuruQuote (request : VenueRequest) (user : option string) : swapping KuruQuote :=
  kuru_quote (default (default KURU_QUOTE_ADDRESS (vr_source request)) user) request.

Definition monad_toVenueQuote (quote : KuruQuote) (request : VenueRequest) : res VenueQuote :=
  output ← BigInt_js (kq_output quote);
  least ← BigInt_js (kq_minOut quote);
  fee ← (if 0 <? vr_feeBps request then
           if vr_feeBps request =? 10000 then Throw RangeError
           else Ok (Z.quot (output * vr_feeBps request) (10000 - vr_feeBps request))
         else Ok 0);
  Ok (mkVenueQuote output least fee [] (FromKuru quote)).

Definition approval (send : VenueAsset) (source spender : string) (needed : Z) : swapping (option MonadCall) :=
  if is_native send then Ret None
  else
    allowance ← outward (fun o => o_erc20Allowance o (va_asset send) source spender);
    if needed <=? allowance then Ret None
    else Ret (Some (mkMonadCall (va_asset send) (approveCalldata spender needed) "0" CHAIN_ID)).

(** The code a creation of the artifact for the router's own aggregator would leave. *)
Definition verifyRouter (address : string) : swapping VerifiedRouter :=
  answer ← catching (outward (fun o => o_ethCall o (Some address) routerAggregatorCalldata)) (fun _ => Ret "0x"%string);
  match readAggregator answer with
  | None => Raise (unavailable Misconfigured)
  | Some aggregator =>
      deployed ← outward (fun o => o_getCode o address);
      expected ← outward (fun o => o_ethCall o None (routerInitCode router_artifact aggregator));
      if negb (bool_decide (toLowerCase deployed = toLowerCase expected)) then Raise (unavailable Misconfigured)
      else Ret (mkRouter (checksummed address) (checksummed aggregator))
  end.

(** The check that passed is kept for the life of the process (the address is
    configuration); one that failed is asked again. A request that finds a check in
    flight awaits that one; here it makes its own. *)
Definition router : swapping VerifiedRouter :=
  match given merchantFeeRouter with
  | None => Raise (badRequest MerchantFeeUnsupported)
  | Some address =>
      kept ← asking verified;
      match kept with
      | Some r => Ret r
      | None =>
          r ← verifyRouter address;
          _ ← stmt (fun s => (set_verified r s, Ok tt));
          Ret r
      end
  end.

Definition monad_quote (request : VenueRequest) : swapping VenueQuote :=
  user ← match vr_merchantFee request with Some _ => r ← router; Ret (Some (router_address r)) | None => Ret None end;
  quote ← kuruQuote request user;
  pure (monad_toVenueQuote quote request).

(** [BigInt(value || '0')] *)
Definition wei (value : option string) : res Z := BigInt_js (default "0"%string (given value)).

(** What is computed of Kuru's quote for the router: the call the wallet signs. *)
Definition router_call (r : VerifiedRouter) (quote : KuruQuote) (request : VenueRequest) (source : string) (merchantFee : string * Z) : res MonadCall :=
  let '(feeWallet, fee) := merchantFee in
  let native := is_native (vr_send request) in
  if negb (bool_decide (toLowerCase (kq_to quote) = toLowerCase (router_aggregator r))) then Throw (unavailable Misconfigured)
  else
    value ← wei (kq_value quote);
    if negb (value =? (if native then vr_amount request else 0)) then Throw (badRequest ProviderError)
    else
      minOut ← BigInt_js (kq_minOut quote);
      data ← or_throw (merchantFeeSwapCalldata
               (mkSwapCall (tokenOf (vr_send request)) (vr_amount request) (tokenOf (vr_dest request)) minOut feeWallet fee source (kq_calldata quote)));
      Ok (mkMonadCall (router_address r) data (toString (if native then vr_amount request + fee else 0)) CHAIN_ID).

Definition buildWithMerchantFee (request : VenueRequest) (source : string) (merchantFee : string * Z) : swapping VenueBuild :=
  r ← router;
  quote ← kuruQuote request (Some (router_address r));
  call ← pure (router_call r quote request source merchantFee);
  q ← pure (monad_toVenueQuote quote request);
  a ← approval (vr_send request) source (router_address r) (vr_amount request + snd merchantFee);
  Ret (mkVenueBuild q (MonadSigns call) a).

Definition kuru_call (quote : KuruQuote) : res MonadCall :=
  value ← wei (kq_value quote);
  Ok (mkMonadCall (checksummed (kq_to quote)) ("0x" +:+ toLowerCase (strip_0x (kq_calldata quote)))%string (toString value) CHAIN_ID).

Definition monad_build (request : VenueRequest) (source : string) : swapping VenueBuild :=
  match vr_merchantFee request with
  | Some fee => buildWithMerchantFee request source fee
  | None =>
      quote ← kuruQuote request None;
      call ← pure (kuru_call quote);
      q ← pure (monad_toVenueQuote quote request);
      a ← approval (vr_send request) source (mc_to call) (vr_amount request);
      Ret (mkVenueBuild q (MonadSigns call) a)
  end.

Definition monad_verify (swap : SwapTerms) (signed : string) : res string :=
  match decodeSignedEip1559 signed with
  | None => Throw invalid
  | Some d =>
      let tx := de_tx d in
      match st_transaction swap with
      | SolanaBase64 _ _ => Throw invalid
      | MonadSigns built =>
          if negb (tx_chainId tx =? mc_chainId built)
             || negb (bool_decide (toLowerCase (tx_to tx) = toLowerCase (mc_to built)))
             || negb (bool_decide (toLowerCase (tx_data tx) = toLowerCase (mc_data built)))
          then Throw invalid
          else
            value ← BigInt_js (mc_value built);
            if negb (tx_value tx =? value) then Throw invalid
            else if negb (bool_decide (de_from d = checksummed (st_source swap))) then Throw invalid
            else Ok (toLowerCase (de_hash d))
      end
  end.

Definition monad_broadcast (signed : string) : swapping unit := handing Monad signed o_sendRawTransaction.

Definition receipt_verdict (status : option string) : option VenueSettlement :=
  status ← status; Some (if String.eqb status "0x1" then V_SUCCEEDED else V_FAILED).
Definition monad_settlement (txHash : string) : swapping (option VenueSettlement) :=
  judged (fun o => o_getReceipt o txHash) (ReceiptSeen txHash) receipt_verdict.

Definition monad_venue : ChainSwapVenue :=
  mkVenue monad_resolveAsset monad_merchantFeeUnsupported monad_quote monad_build monad_verify monad_broadcast monad_settlement.
End monad.

(** [ChainSwapsService.venues] *)
Definition venues `{SolanaCrypto} `{Base64} `{Secp} `{RouterConfig} (c : OtherChain) : ChainSwapVenue :=
  match c with Solana => solana_venue | Monad => monad_venue end.
