(* ===== verification/ChainSwapSigning.v ===== *)
(** What a wallet signs and what a venue accepts back: the two readers of a Solana
    transaction agree, a signed transaction is accepted exactly when it is the one
    handed out with its signers' signatures, and a merchant fee rides in it. *)

From S2P Require Import Prelude Text Units MerchantFee Intents ChainAddress Webhooks Programs PayLinks Rlp EvmTransaction SolanaMessage SolanaAppend SolanaWire IntentService Settlement ChainSwapStore ChainSwapVenues.
From stdpp Require Import base tactics list option gmap strings.
From Stdlib Require Import ZArith Lia Ascii.

Open Scope Z_scope.

(** ** The two readers of a Solana transaction *)

Lemma signers_lie m ks bs at_ n : Forall2 (fun k b => key k = Some b) ks bs -> lies m (List.concat bs) at_ -> (n <= length ks)%nat ->
  List.map (fun i => encodeBase58 (subarray m (at_ + i * 32) (at_ + (i + 1) * 32))) (seq 0 n) = take n ks.
Proof.
  intros H. revert at_ n. induction H as [|k b ks bs Hk _ IH]; intros at_ [|n] Hl Hn; try done; [by cbn [length] in Hn; lia|].
  cbn [List.concat] in Hl. apply lies_app in Hl as [H1 H2]. assert (H32 := proj2 (key_bytes _ _ Hk)). cbn [seq List.map take]. f_equal.
  - assert (R := read_key_lies m k b at_ Hk H1). unfold read_key in R. injection R as R _. etransitivity; [|exact R]. do 2 f_equal; lia.
  - rewrite <- seq_shift, List.map_map. etransitivity; [|apply (IH (at_ + length b)%nat n); [done|cbn [length] in Hn; lia]].
    apply List.map_ext. intros i. do 2 f_equal; lia.
Qed.

Lemma encoded_parses tx out h2 h3 :
  transaction_ok tx -> cm_header (dt_message tx) = (len_of (dt_signatures tx), h2, h3) -> dt_signatures tx <> [] ->
  (length (dt_signatures tx) <= length (cm_staticKeys (dt_message tx)))%nat -> encodeTransaction tx = Some out ->
  exists message, encodeMessage (dt_message tx) = Some message
  /\ parseSolanaTransaction out = Some (mkParsed (dt_signatures tx) message (len_of (dt_signatures tx))
                                          (take (length (dt_signatures tx)) (cm_staticKeys (dt_message tx)))).
Proof.
  intros Hok Hh Hne Hle He. destruct (encodeTransaction_shape _ _ Hok He) as (message & Hm & ->). exists message. split; [done|].
  destruct Hok as (Hs & Hv & Hmo). destruct (encodeMessage_parts _ _ Hmo Hm) as (h1 & h2' & h3' & keys & bh & lookups & Hh' & Hk & _ & _ & Hout & _).
  rewrite Hh in Hh'. injection Hh' as <- <- <-. set (sigs := dt_signatures tx) in *.
  assert (H64 : Forall (fun s : list Z => length s = 64%nat) sigs) by (eapply Forall_impl; [exact Hs|]; by intros ? [_ ?]).
  unfold parseSolanaTransaction. set (p := shortVec _). set (out := p ++ _).
  assert (Hp : lies out p 0) by (eapply proj1, lies_app, lies_all).
  rewrite (shortVec_read out (len_of sigs)); [|split; [apply len_of_nonneg|done]|done]. cbn [mbind option_bind fst snd].
  replace (Z.to_nat (len_of sigs)) with (length sigs) by (unfold len_of; lia). fold p. rewrite Nat.add_0_l, <- (concat_length64 _ H64), <- length_app.
  unfold out. rewrite (app_assoc p), drop_app_length, length_app.
  assert ((length sigs =? 0)%nat = false) as -> by (destruct sigs; [done|reflexivity]).
  assert (((length (p ++ List.concat sigs) + length message <? length (p ++ List.concat sigs))%nat = false)) as -> by (apply Nat.ltb_ge; lia).
  cbn [orb]. rewrite <- app_assoc, signatures_back by done.
  destruct Hmo as [Hhd [_ Hkv] _ _ _]. rewrite Hh in Hhd. destruct Hhd as [Hb3 Hleg1]. apply Forall_cons in Hb3 as [Hb1 _].
  match type of Hout with _ = _ ++ [_; _; _] ++ ?r => set (rest := r) in * end.
  destruct (version_read (dt_message tx) _ _ _ rest Hh Hb1 Hleg1) as (Ev & E1 & _ & _ & Hbody). rewrite <- Hout in *.
  assert (Ev' : (if Z.land (default 0 (head message)) 128 =? 0 then Some O else if default 0 (head message) =? 128 then Some 1%nat else None)
    = Some (match cm_version (dt_message tx) with legacy => O | v0 => 1%nat end)).
  { destruct (Z.land _ _ =? 0); [injection Ev as <- ?; done|]. destruct (_ =? 128); [injection Ev as <- ?; done|done]. }
  rewrite Ev'. cbn [mbind option_bind]. rewrite E1. cbn [mbind option_bind]. set (at_ := match cm_version _ with legacy => O | v0 => 1%nat end) in *.
  assert (Hlen := lies_length _ _ _ Hbody). apply lies_app in Hbody as [Hks _]. apply lies_app in Hks as [Hkn Hkc].
  rewrite (shortVec_read message (len_of (cm_staticKeys (dt_message tx)))); [|split; [apply len_of_nonneg|done]|done].
  cbn [mbind option_bind fst snd]. assert (Hkl := lies_length _ _ _ Hkc).
  assert (Hc32 : length (List.concat keys) = (length (cm_staticKeys (dt_message tx)) * 32)%nat).
  { clear -Hk. induction Hk as [|k b ks bs Hb _ IH]; [done|]. cbn [List.concat length]. rewrite length_app. apply key_bytes in Hb as [_ ->]. lia. }
  replace (Z.to_nat (len_of (cm_staticKeys (dt_message tx)))) with (length (cm_staticKeys (dt_message tx))) by (unfold len_of; lia).
  rewrite (proj2 (Nat.ltb_ge _ _)) by lia. rewrite Z.eqb_refl, (proj2 (Z.ltb_ge _ _)) by (unfold len_of; lia). cbn [negb orb].
  replace (Z.to_nat (len_of sigs)) with (length sigs) by (unfold len_of; lia).
  by rewrite (signers_lie message (cm_staticKeys (dt_message tx)) keys).
Qed.

(** A message is written one way. *)
Lemma encodeMessage_inj m m' out : message_ok m -> message_ok m' -> encodeMessage m = Some out -> encodeMessage m' = Some out -> m = m'.
Proof. intros H H' E E'. apply encodeMessage_read in E, E'; try done. congruence. Qed.

(** ** A signed Solana transaction *)

Section solana.
Context `{CRYPTO : SolanaCrypto} `{B64 : Base64} {LAWS : Base64Laws}.

(** [sig] is no empty slot and signs [message] by the key [k] names. *)
Definition signs (message : list Z) (sig : list Z) (k : string) : Prop :=
  (exists b, b ∈ sig /\ b <> 0) /\ exists pub, key k = Some pub /\ ed25519_valid sig message pub = true.

(** A transaction with a slot per signer, whose accounts come first. *)
Definition slotted (tx : DecodedTransaction) : Prop :=
  transaction_ok tx /\ dt_signatures tx <> []
  /\ (length (dt_signatures tx) <= length (cm_staticKeys (dt_message tx)))%nat
  /\ exists ros rou, cm_header (dt_message tx) = (len_of (dt_signatures tx), ros, rou).

Definition signers_of (tx : DecodedTransaction) : list string := take (length (dt_signatures tx)) (cm_staticKeys (dt_message tx)).

Lemma nonzero_iff sig : negb (forallb (fun b => b =? 0) sig) = true <-> exists b, b ∈ sig /\ b <> 0.
Proof.
  induction sig as [|x sig IH]; [split; [done|intros (b & Hb & _); by apply not_elem_of_nil in Hb]|]. cbn [forallb].
  destruct (Z.eqb_spec x 0) as [->|Hx]; cbn [andb negb].
  - rewrite IH. split; intros (b & Hb & Hn); exists b; (split; [|done]); set_solver.
  - split; [|done]. intros _. exists x. set_solver.
Qed.

Lemma imap_forallb {A B} (f : A -> B -> bool) (l : list A) (before ks : list B) : length l = length ks ->
  forallb (fun x : nat * A => match (before ++ ks) !! fst x with Some k => f (snd x) k | None => false end)
    (imap (fun i a => (length before + i, a)%nat) l) = true
  <-> Forall2 (fun a k => f a k = true) l ks.
Proof.
  revert before ks. induction l as [|a l IH]; intros before [|k ks] Hlen; try done.
  rewrite imap_cons. cbn [forallb fst snd]. rewrite Nat.add_0_r, list_lookup_middle by done. rewrite andb_true_iff, Forall2_cons.
  injection Hlen as Hlen. specialize (IH (before ++ [k]) ks Hlen). rewrite <- IH, <- app_assoc. cbn [app].
  assert (imap ((fun i a0 => (length before + i, a0)%nat) ∘ S) l = imap (fun i a0 => (length (before ++ [k]) + i, a0)%nat) l) as ->; [|done].
  apply imap_ext. intros i x _. cbn. rewrite length_app. cbn [length]. f_equal. lia.
Qed.

Lemma valid_iff sigs message n signers pubs : Forall2 (fun k b => key k = Some b) signers pubs -> length sigs = length signers ->
  hasValidSignatures (mkParsed sigs message n signers) pubs = true <-> Forall2 (signs message) sigs signers.
Proof.
  intros Hk Hlen. assert (Hl : length sigs = length pubs) by (by rewrite Hlen, (Forall2_length _ _ _ Hk)).
  unfold hasValidSignatures. cbn [pt_signatures pt_message].
  assert (E := imap_forallb (fun sig k => negb (forallb (fun b => b =? 0) sig) && ed25519_valid sig message k) sigs [] pubs Hl).
  cbn [app length] in E. transitivity (Forall2 (fun sig k => negb (forallb (fun b => b =? 0) sig) && ed25519_valid sig message k = true) sigs pubs).
  - rewrite <- E. clear E. match goal with |- ?a = true <-> ?b = true => assert (a = b) as ->; [|done] end.
    induction (imap _ sigs) as [|[i sig] l IH]; [done|]. cbn [forallb fst snd]. rewrite IH. f_equal.
    destruct (pubs !! i); [done|by rewrite andb_false_r].
  - clear E Hl. revert sigs Hlen. induction Hk as [|k b ks bs Hkb Hk IH]; intros [|sig sigs] Hlen; try done.
    rewrite !Forall2_cons, IH by (by injection Hlen). rewrite andb_true_iff, nonzero_iff. unfold signs.
    split; intros [[H1 H2] H3]; split; try done; split; try done; [by exists b|]. destruct H2 as (b' & Hb' & Hv). congruence.
Qed.

Lemma static_keys tx : slotted tx -> exists pubs, Forall2 (fun k b => key k = Some b) (signers_of tx) pubs.
Proof.
  intros ((_ & _ & Hm) & _). destruct (mo_keys _ Hm) as [Hk _]. unfold signers_of. apply (Forall_take _ (length (dt_signatures tx))) in Hk.
  induction Hk as [|k ks (b & Hb) _ (bs & IH)]; [by exists []|]. exists (b :: bs). by constructor.
Qed.

Lemma decoded_keys ks bs : Forall2 (fun k b => key k = Some b) ks bs -> mapM decodeBase58 ks = Some bs.
Proof.
  intros H. apply mapM_Some. eapply Forall2_impl; [exact H|]. intros k b Hk. unfold key in Hk.
  destruct (decodeBase58 k) as [c|]; [|done]. cbn [mbind option_bind] in Hk. destruct (_ =? _)%nat; [done|done].
Qed.

Lemma slotted_parses tx out : slotted tx -> encodeTransaction tx = Some out ->
  exists message, encodeMessage (dt_message tx) = Some message
  /\ parse (to_b64 out) = Ok (mkParsed (dt_signatures tx) message (len_of (dt_signatures tx)) (signers_of tx)).
Proof.
  intros (Hok & Hne & Hle & ros & rou & Hh) He. destruct (encoded_parses tx out ros rou Hok Hh Hne Hle He) as (m & Hm & Hp).
  exists m. split; [done|]. unfold parse. rewrite b64_back; [by rewrite Hp|].
  destruct (encodeTransaction_shape _ _ Hok He) as (m' & Hm' & ->). rewrite Hm in Hm'. injection Hm' as <-.
  destruct Hok as (Hs & Hv & Hmo). destruct (encodeMessage_parts _ _ Hmo Hm) as (_ & _ & _ & _ & _ & _ & _ & _ & _ & _ & _ & Hb).
  apply Forall_app. split; [by apply shortVec_len_bytes|]. apply Forall_app. split; [|done]. apply concat_bytes.
  eapply Forall_impl; [exact Hs|]. by intros ? [? _].
Qed.

(** C16: A signed Solana transaction is accepted exactly when it is the one handed out
    and all its signers signed it. For the transaction [tx] stored for a swap, in the
    wire format, and any other [tx'] a wallet sends back: [verify] accepts it with the
    id [h] if and only if its message is the stored one, unchanged, its fee payer is
    the swap's source, every signer's slot holds a valid signature of that message,
    and [h] is the first signature in base58. *)
Theorem signed_solana_exact swap tx out height tx' out' h :
  slotted tx -> encodeTransaction tx = Some out -> st_transaction swap = SolanaBase64 (to_b64 out) height ->
  slotted tx' -> encodeTransaction tx' = Some out' ->
  solana_verify swap (to_b64 out') = Ok h
  <-> dt_message tx' = dt_message tx /\ head (signers_of tx') = Some (st_source swap)
      /\ (exists message, encodeMessage (dt_message tx) = Some message /\ Forall2 (signs message) (dt_signatures tx') (signers_of tx'))
      /\ h = encodeBase58 (nth 0 (dt_signatures tx') []).
Proof.
  intros Ht He Hst Ht' He'. destruct (slotted_parses _ _ Ht He) as (m & Hm & Hp). destruct (slotted_parses _ _ Ht' He') as (m' & Hm' & Hp').
  destruct (static_keys _ Ht') as (pubs & Hpubs). unfold solana_verify. rewrite Hp', Hst, Hp. cbn [mbind res_bind pt_message pt_signers].
  assert (Hlen : length (dt_signatures tx') = length (signers_of tx')).
  { destruct Ht' as (_ & _ & Hle & _). unfold signers_of. rewrite length_take. lia. }
  rewrite (decoded_keys _ _ Hpubs). cbn [res_of_option mbind res_bind].
  assert (V := valid_iff (dt_signatures tx') m' (len_of (dt_signatures tx')) _ _ Hpubs Hlen).
  assert (Hmsg : m' = m <-> dt_message tx' = dt_message tx).
  { split; [|intros E; rewrite E in Hm'; congruence]. intros ->. apply (encodeMessage_inj _ _ m); [apply Ht'|apply Ht|done|done]. }
  case_bool_decide as E1; cbn [negb]; [|split; [done|]; intros (E & _); tauto].
  case_bool_decide as E2; cbn [negb]; [|split; [done|]; intros (_ & E & _); done].
  destruct (hasValidSignatures _ _) eqn:Ev; cbn [negb].
  - split; [intros [= <-]|by intros (_ & _ & _ & ->)]. split; [by apply Hmsg|]. split; [done|]. split; [|done]. exists m. split; [done|].
    subst m'. by apply V.
  - split; [done|]. intros (_ & _ & (m1 & Hm1 & Hs) & _). rewrite Hm in Hm1. injection Hm1 as <-. subst m'. apply V in Hs. congruence.
Qed.
End solana.

(** ** A signed Monad call *)

Section monad.
Context `{SECP : Secp} {LAWS : SecpLaws} `{ROUTER : RouterConfig}.
Abbreviation checksummed := (toChecksumAddress keccak_hex_of).

(** [s] spells the bytes [b], after 0x. *)
Definition spells (s : string) (b : list Z) : Prop := (exists r, s = ("0x" +:+ r)%string) /\ hexToBytes s = Some b.

Lemma spells_lower s b : spells s b -> toLowerCase s = bytesToHex b.
Proof.
  intros [[r ->] (Hx & He & ->)%hexToBytes_Some]. cbn [strip_0x String.append] in *. unfold bytesToHex. rewrite toString_Buffer by done. done.
Qed.

Lemma spells_same s b s' b' : spells s b -> spells s' b' -> toLowerCase s = toLowerCase s' <-> b = b'.
Proof.
  intros H H'. rewrite (spells_lower _ _ H), (spells_lower _ _ H'). split; [|by intros ->]. intros E. apply (f_equal hexToBytes) in E.
  destruct H as [_ (_ & _ & ->)%hexToBytes_Some], H' as [_ (_ & _ & ->)%hexToBytes_Some].
  rewrite !hexToBytes_bytesToHex in E by apply Buffer_from_hex_bytes. by injection E.
Qed.

Lemma canonical_spells tx to data : hexToBytes (tx_to tx) = Some to -> hexToBytes (tx_data tx) = Some data ->
  spells (tx_to (canonical_tx tx)) to /\ spells (tx_data (canonical_tx tx)) data.
Proof.
  intros Ht Hd. cbn [canonical_tx tx_to tx_data]. split; [split; [by eexists|by apply checksummed_bytes]|]. split; [by eexists|].
  apply hexToBytes_Some in Hd as (Hx & He & ->). unfold hexToBytes. cbn [strip_0x String.append].
  by rewrite toLowerCase_length, He, toLowerCase_hex, Buffer_from_lower by done.
Qed.

(** C17: A signed Monad transaction is accepted exactly when it makes the call handed
    out and the swap's source signed it. For the call stored for a swap and a
    transaction signed with any key (whose signature its parity recovers): [verify]
    accepts the signed text with the id [h] if and only if its chain, its recipient,
    its calldata and the wei it sends are the call's, the key's address is the source,
    and [h] is the transaction's hash in lower case; nonce and gas are the wallet's. *)
Theorem signed_monad_exact swap call tx key st pub y to data v h :
  st_transaction swap = MonadSigns call -> spells (mc_to call) to -> spells (mc_data call) data -> BigInt_text (mc_value call) = Some v ->
  signEip1559 tx key = Some st -> signature_parity tx key = Some y -> y <= 1 -> secp_public key = Some pub ->
  (exists to, hexToBytes (tx_to tx) = Some to /\ length to = 20%nat) -> tx_chainId tx < 2 ^ 53 ->
  Z.of_nat (String.length (st_raw st)) < 2 ^ 53 ->
  monad_verify swap (st_raw st) = Ok h
  <-> tx_chainId tx = mc_chainId call /\ hexToBytes (tx_to tx) = Some to /\ hexToBytes (tx_data tx) = Some data
      /\ tx_value tx = v /\ address_of_public pub = checksummed (st_source swap) /\ h = toLowerCase (st_hash st).
Proof.
  intros Hst Hto Hdata Hv Hsign Hy Hy1 Hpub Hto' Hc Hlen. unfold monad_verify.
  rewrite (signed_reads_back tx key st pub y) by done. rewrite (proj2 (Z.leb_le y 1) Hy1). cbn [de_tx de_from de_hash]. rewrite Hst.
  destruct Hto' as (to' & Ht' & _). assert (Hf : exists data', hexToBytes (tx_data tx) = Some data').
  { unfold signEip1559, unsignedPayload in Hsign. destruct (fields tx) as [fs|] eqn:Ef; [|done].
    destruct (fields_shape _ _ Ef) as (? & data' & _ & Hd & _). by exists data'. }
  destruct Hf as (data' & Hd'). destruct (canonical_spells tx to' data' Ht' Hd') as [S1 S2]. rewrite Ht', Hd'.
  assert (E1 := spells_same _ _ _ _ S1 Hto). assert (E2 := spells_same _ _ _ _ S2 Hdata).
  change (tx_chainId (canonical_tx tx)) with (tx_chainId tx). change (tx_value (canonical_tx tx)) with (tx_value tx).
  unfold BigInt_js. rewrite Hv. cbn [res_of_option mbind res_bind].
  destruct (Z.eqb_spec (tx_chainId tx) (mc_chainId call)) as [Ec|Ec]; cbn [negb orb]; [|split; [done|tauto]].
  case_bool_decide as F1; cbn [negb orb]; [|split; [done|]; intros (_ & [= ->] & _); by destruct F1; apply E1].
  case_bool_decide as F2; cbn [negb orb]; [|split; [done|]; intros (_ & _ & [= ->] & _); by destruct F2; apply E2].
  destruct (Z.eqb_spec (tx_value tx) v) as [F3|F3]; cbn [negb]; [|split; [done|tauto]].
  case_bool_decide as F4; cbn [negb]; [|split; [done|tauto]].
  split; [intros [= <-]|by intros (_ & _ & _ & _ & _ & ->)]. apply E1 in F1. apply E2 in F2. subst. done.
Qed.
End monad.

(** A signature scheme and a text encoding for examples. *)
#[export] Instance sample_solana : SolanaCrypto := {|
  sha256 b := take 32 (b ++ repeat 0 32);
  isOnCurve _ := false;
  ed25519_valid sig message pub := bool_decide (sig = take 64 (pub ++ repeat 7 64))
|}.

Fixpoint text_of (l : list Z) : string :=
  match l with [] => "" | b :: r => String (ascii_of_nat (Z.to_nat b)) (text_of r) end%string.
#[export] Instance sample_base64 : Base64 := {| from_b64 := codes; to_b64 := text_of |}.
#[export] Instance sample_base64_laws : Base64Laws.
Proof.
  split. intros b H. cbn [from_b64 to_b64 sample_base64]. induction H as [|x b Hx _ IH]; [done|]. cbn [text_of codes]. rewrite IH. f_equal.
  unfold code. unfold is_byte in Hx. rewrite nat_ascii_embedding by lia. lia.
Qed.

Definition sample_signed : DecodedTransaction := mkDecodedTx [take 64 (repeat 0 32 ++ repeat 7 64)] (dt_message sample_transaction).
Definition sample_terms (source : string) (t : VenueTransaction) : SwapTerms :=
  mkSwapTerms "s1" "c1" Solana source "native" 9 "1" "mint" 6 "2" "1.9" 0 "0" 50 [] t None
    (FromJupiter (mkJupiterQuote "2000000" "1900000" None [] JNull)) None 1000 JNull 0.

Lemma sample_slotted : slotted sample_transaction /\ slotted sample_signed.
Proof.
  assert (Hm := proj2 (proj2 sample_transaction_ok)).
  split; (split; [split; [repeat constructor; vm_compute; congruence|split; [vm_compute; reflexivity|exact Hm]]|
    split; [done|split; [cbn; lia|exists 0, 1; reflexivity]]]).
Qed.

Lemma signed_solana_exact_witness : exists out out',
  encodeTransaction sample_transaction = Some out /\ encodeTransaction sample_signed = Some out'
  /\ solana_verify (sample_terms sample_key (SolanaBase64 (to_b64 out) 5)) (to_b64 out')
     = Ok (encodeBase58 (take 64 (repeat 0 32 ++ repeat 7 64))).
Proof.
  destruct sample_slotted as [S1 S2].
  destruct (encodeTransaction sample_transaction) as [out|] eqn:E1; [|by vm_compute in E1].
  destruct (encodeTransaction sample_signed) as [out'|] eqn:E2; [|by vm_compute in E2].
  exists out, out'. split; [reflexivity|]. split; [reflexivity|].
  apply (signed_solana_exact (sample_terms sample_key (SolanaBase64 (to_b64 out) 5)) sample_transaction out 5 sample_signed out' _ S1 E1 eq_refl S2 E2).
  split; [reflexivity|]. split; [reflexivity|]. split; [|reflexivity].
  destruct (encodeMessage (dt_message sample_transaction)) as [m|] eqn:Em; [|by vm_compute in Em]. exists m. split; [reflexivity|].
  constructor; [|constructor]. split; [exists 7; split; [|lia]; apply list_elem_of_In; vm_compute; tauto|].
  exists (repeat 0 32). split; vm_compute; reflexivity.
Defined.

#[export] Instance sample_router : RouterConfig := {| merchantFeeRouter := None; router_artifact := "0x" |}.
Definition sample_monad_call : MonadCall :=
  mkMonadCall (toChecksumAddress keccak_hex_of ("0x" +:+ zeros 38 +:+ "ab")) "0x6f3cff" "0" 143.
Definition sample_wallet : string := address_of_public (4 :: sample_secret).

Lemma signed_monad_exact_witness : exists st,
  signEip1559 sample_call sample_secret = Some st
  /\ monad_verify (sample_terms sample_wallet (MonadSigns sample_monad_call)) (st_raw st) = Ok (toLowerCase (st_hash st)).
Proof.
  destruct (signEip1559 sample_call sample_secret) as [st|] eqn:E; [|by vm_compute in E]. exists st. split; [reflexivity|].
  apply (signed_monad_exact (sample_terms sample_wallet (MonadSigns sample_monad_call)) sample_monad_call sample_call sample_secret st
           (4 :: sample_secret) 1 (repeat 0 19 ++ [171]) [111; 60; 255] 0).
  - reflexivity.
  - split; [by eexists|vm_compute; reflexivity].
  - split; [by eexists|vm_compute; reflexivity].
  - vm_compute. reflexivity.
  - exact E.
  - vm_compute. reflexivity.
  - lia.
  - reflexivity.
  - exists (repeat 0 19 ++ [171]). split; vm_compute; reflexivity.
  - vm_compute. reflexivity.
  - vm_compute in E. injection E as <-. vm_compute. reflexivity.
  - split; [reflexivity|]. split; [vm_compute; reflexivity|]. split; [vm_compute; reflexivity|]. split; [reflexivity|].
    split; [vm_compute; reflexivity|reflexivity].
Defined.
