(* ===== verification/ChainSwapFee.v ===== *)
(** A merchant fee in a Solana swap ([withMerchantFee] of
    src/src/swaps/venues/solana-swap.venue.ts): what the aggregator's transaction says
    stays, the fee's instructions come after it, and it still fits one packet. *)

From S2P Require Import Prelude Text Units MerchantFee Intents ChainAddress Webhooks Programs PayLinks Rlp EvmTransaction SolanaMessage SolanaAppend SolanaWire IntentService Settlement ChainSwapStore ChainSwapVenues ChainSwapSigning.
From stdpp Require Import base tactics list option gmap strings.
From Stdlib Require Import ZArith Lia Ascii.

Open Scope Z_scope.

(** ** The compute limit *)

Lemma with_u32_bytes first n : is_byte first -> Forall is_byte (with_u32 first n) /\ length (with_u32 first n) = 5%nat.
Proof.
  intros Hf. unfold with_u32. cbv zeta. set (m := n mod 2 ^ 32). assert (Hm : 0 <= m < 2 ^ 32) by (apply Z.mod_pos_bound; lia). split; [|done].
  repeat constructor; unfold is_byte in *; try done; try (change (2 ^ 8) with 256; Z.to_euclidean_division_equations; lia);
    change (2 ^ 8) with 256; change (2 ^ 24) with 16777216; change (2 ^ 32) with 4294967296 in Hm; Z.to_euclidean_division_equations; lia.
Qed.

Lemma with_u32_read first n : u32_at (with_u32 first n) = n mod 2 ^ 32.
Proof.
  unfold u32_at, with_u32. cbv zeta. cbn [nth]. set (m := n mod 2 ^ 32). assert (Hm : 0 <= m < 2 ^ 32) by (apply Z.mod_pos_bound; lia).
  change (2 ^ 8) with 256. change (2 ^ 16) with 65536. change (2 ^ 24) with 16777216. change (2 ^ 32) with 4294967296 in Hm.
  Z.to_euclidean_division_equations. lia.
Qed.

(** What becomes of one instruction's data. *)
Definition limit_data (static : list string) (units : Z) (budget program : string) (data : list Z) : list Z :=
  if bool_decide (program = budget) && bool_decide (budget ∈ static) && (nth 0 data (-1) =? 2) && (length data =? 5)%nat
  then with_u32 2 (u32_at data + units) else data.

Definition raised (m : CompiledMessage) (units : Z) (budget : string) (ix : CompiledInstruction) : CompiledInstruction :=
  match list_find (fun k => k = budget) (cm_staticKeys m) with
  | None => ix
  | Some (program, _) =>
      if negb (ci_programIdIndex ix =? Z.of_nat program) || negb (nth 0 (ci_data ix) (-1) =? 2) || negb (length (ci_data ix) =? 5)%nat
      then ix
      else mkCompiled (ci_programIdIndex ix) (ci_accounts ix) (with_u32 2 (u32_at (ci_data ix) + units))
  end.

Lemma raise_shape m units budget :
  raiseComputeUnitLimit m units budget
  = mkMessage (cm_version m) (cm_header m) (cm_staticKeys m) (cm_recentBlockhash m) (List.map (raised m units budget) (cm_instructions m)) (cm_lookups m).
Proof.
  unfold raiseComputeUnitLimit, raised. destruct (list_find _ _) as [[p k]|]; [done|]. rewrite List.map_id. by destruct m.
Qed.

Lemma raised_index m units budget ix : ci_programIdIndex (raised m units budget ix) = ci_programIdIndex ix
  /\ ci_accounts (raised m units budget ix) = ci_accounts ix.
Proof. unfold raised. destruct (list_find _ _) as [[p k]|]; [|done]. by destruct (_ || _). Qed.

(** The accounts of a message begin with its static keys. *)
Lemma messageAccounts_statics m tables accounts : messageAccounts m tables = Some accounts ->
  exists more, accounts = statics (cm_header m) (cm_staticKeys m) ++ more.
Proof.
  unfold messageAccounts. destruct (loaded tables true _) as [w|]; [|done]. destruct (loaded tables false _) as [r|]; [|done].
  intros [= <-]. by exists (w ++ r).
Qed.

Lemma static_pubkey m tables accounts i k : messageAccounts m tables = Some accounts -> cm_staticKeys m !! i = Some k ->
  exists a, accounts !! i = Some a /\ ac_pubkey a = k.
Proof.
  intros (more & ->)%messageAccounts_statics Hk. eexists. rewrite lookup_app_l by (rewrite length_statics; by eapply lookup_lt_Some).
  rewrite lookup_statics, Hk. split; [done|]. by destruct (cm_header m) as [[? ?] ?].
Qed.

Lemma raised_resolves m units budget tables accounts ix p l d :
  messageAccounts m tables = Some accounts -> NoDup (ac_pubkey <$> accounts) -> resolve_instruction accounts ix = Some (p, l, d) ->
  resolve_instruction accounts (raised m units budget ix) = Some (p, l, limit_data (cm_staticKeys m) units budget p d).
Proof.
  intros Hm Hnd Hr. unfold resolve_instruction in *. destruct (raised_index m units budget ix) as [-> ->].
  destruct (account_at accounts (ci_programIdIndex ix)) as [a|] eqn:Ea; [|done]. cbn [mbind option_bind] in *.
  destruct (mapM _ _) as [l'|]; [|done]. cbn [mbind option_bind] in *. injection Hr as <- <- <-. do 2 f_equal.
  unfold raised, limit_data, account_at in *. destruct (Z.ltb_spec (ci_programIdIndex ix) 0); [done|].
  destruct (list_find (fun k => k = budget) (cm_staticKeys m)) as [[i k]|] eqn:Ef.
  - apply list_find_Some in Ef as (Hi & -> & _). destruct (static_pubkey _ _ _ _ _ Hm Hi) as (b & Hb & Hbk).
    rewrite (bool_decide_eq_true_2 (budget ∈ _)) by (by eapply list_elem_of_lookup_2).
    assert (E : (ci_programIdIndex ix =? Z.of_nat i) = bool_decide (ac_pubkey a = budget)).
    { case_bool_decide as E; [apply Z.eqb_eq|apply Z.eqb_neq]; [|intros E'; rewrite E', Nat2Z.id in Ea; congruence].
      assert (Z.to_nat (ci_programIdIndex ix) = i); [|lia].
      apply (NoDup_lookup _ _ _ budget Hnd); rewrite list_lookup_fmap; [by rewrite Ea, <- E|by rewrite Hb, <- Hbk]. }
    rewrite E, andb_true_r. destruct (bool_decide _), (nth 0 _ _ =? 2), (_ =? 5)%nat; done.
  - apply list_find_None in Ef. rewrite (bool_decide_eq_false_2 (budget ∈ _)); [by rewrite andb_false_r|].
    intros Hin. rewrite Forall_forall in Ef. by apply (Ef _ Hin).
Qed.

(** ** Sizes *)

Lemma concat_map_le {A} (f : A -> list Z) x l : x ∈ l -> (length (f x) <= length (List.concat (List.map f l)))%nat.
Proof.
  induction l as [|y l IH]; [by intros ?%not_elem_of_nil|]. cbn [List.map List.concat]. rewrite length_app.
  intros [->|H]%elem_of_cons; [lia|]. specialize (IH H). lia.
Qed.

Lemma concat_map_count {A} (f : A -> list Z) l : (forall x, (1 <= length (f x))%nat) -> (length l <= length (List.concat (List.map f l)))%nat.
Proof.
  intros Hf. induction l as [|y l IH]; [done|]. cbn [List.map List.concat length]. rewrite length_app. specialize (Hf y). lia.
Qed.

(** What a message of [n] bytes can hold. *)
Lemma encodeMessage_sizes m out : encodeMessage m = Some out ->
  Forall key_ok (cm_staticKeys m) /\ key_ok (cm_recentBlockhash m)
  /\ (length (cm_staticKeys m) * 32 <= length out)%nat /\ (length (cm_instructions m) <= length out)%nat
  /\ Forall (fun ix => (length (ci_accounts ix) <= length out)%nat /\ (length (ci_data ix) <= length out)%nat) (cm_instructions m).
Proof.
  unfold encodeMessage. destruct (cm_header m) as [[h1 h2] h3]. cbv zeta.
  destruct (mapM key (cm_staticKeys m)) as [keys|] eqn:Ek; [|done]. cbn [mbind option_bind].
  destruct (key (cm_recentBlockhash m)) as [bh|] eqn:Eb; [|done]. cbn [mbind option_bind].
  match goal with |- (?o ≫= _) = _ -> _ => destruct o as [ls|]; [|done] end. cbn [mbind option_bind]. intros [= <-].
  apply mapM_Some in Ek. assert (Hc : length (List.concat keys) = (length (cm_staticKeys m) * 32)%nat).
  { clear -Ek. induction Ek as [|k b ks bs Hb _ IH]; [done|]. cbn [List.concat length]. rewrite length_app. apply key_bytes in Hb as [_ ->]. lia. }
  set (out := u8 _). assert (Hlen : (length (cm_staticKeys m) * 32 + length (List.concat (List.map write_instruction (cm_instructions m))) <= length out)%nat).
  { unfold out, u8. rewrite length_map, length_app. cbn [app length]. rewrite !length_app, Hc. lia. }
  assert (Hn := concat_map_count write_instruction (cm_instructions m) ltac:(intros; cbn [write_instruction length]; lia)).
  split_and!; [|by exists bh|lia|lia|].
  - clear -Ek. induction Ek as [|k b ks bs Hb _ IH]; constructor; [by exists b|done].
  - apply Forall_forall. intros ix Hix. assert (Hle := concat_map_le write_instruction ix _ Hix).
    assert (length (ci_accounts ix) + length (ci_data ix) <= length (write_instruction ix))%nat; [|lia].
    unfold write_instruction, write_bytes. cbn [length]. rewrite !length_app. lia.
Qed.

Lemma set_at_length b o out out' : set_at b o out = Some out' -> length out' = length out.
Proof.
  unfold set_at. destruct (Nat.ltb_spec (length out) (o + length b)); [done|]. intros [= <-].
  rewrite !length_app, length_take, length_drop. lia.
Qed.

Lemma encodeTransaction_size tx out : encodeTransaction tx = Some out ->
  exists m, encodeMessage (dt_message tx) = Some m /\ (length m <= length out)%nat.
Proof.
  unfold encodeTransaction. destruct (encodeMessage (dt_message tx)) as [m|]; [|done]. cbn [mbind option_bind]. intros H. exists m. split; [done|].
  destruct (set_at _ 0 _) as [o1|] eqn:E1; [|done]. cbn [mbind option_bind] in H. destruct (set_signatures _ _ o1) as [o2|] eqn:E2; [|done].
  cbn [mbind option_bind] in H. apply set_at_length in E1, H.
  assert (E3 : length o2 = length o1).
  { clear -E2. revert o1 E2. generalize (length (u8 (shortVec (len_of (dt_signatures tx))))). induction (dt_signatures tx) as [|s l IH]; intros n o1 E2;
      cbn [set_signatures] in E2; [by injection E2 as ->|]. destruct (set_at s n o1) as [o|] eqn:E; [|done]. cbn [mbind option_bind] in E2.
    apply set_at_length in E. apply IH in E2. congruence. }
  rewrite H, E3, E1, repeat_length. lia.
Qed.

(** An index that resolves among at most 256 accounts is a byte. *)
Lemma resolved_bytes accounts ix res : (length accounts <= 256)%nat -> resolve_instruction accounts ix = Some res ->
  is_byte (ci_programIdIndex ix) /\ Forall is_byte (ci_accounts ix) /\ ci_data ix = snd res.
Proof.
  intros Hl. assert (B : forall i a, account_at accounts i = Some a -> is_byte i).
  { intros i a. unfold account_at, is_byte. destruct (Z.ltb_spec i 0); [done|]. intros Ha%lookup_lt_Some. lia. }
  unfold resolve_instruction. destruct (account_at accounts _) as [p|] eqn:Ep; [|done]. cbn [mbind option_bind].
  destruct (mapM _ _) as [l|] eqn:El; [|done]. cbn [mbind option_bind]. intros [= <-]. split; [by eapply B|]. split; [|done].
  apply mapM_Some in El. induction El as [|i a is_ l Hi _ IH]; constructor; [by eapply B|done].
Qed.

Lemma limit_data_bytes static units budget p d : Forall is_byte d ->
  Forall is_byte (limit_data static units budget p d) /\ length (limit_data static units budget p d) = length d.
Proof.
  intros Hd. unfold limit_data. destruct (_ && _) eqn:E; [|done]. apply andb_true_iff in E as [_ E]. apply Nat.eqb_eq in E.
  destruct (with_u32_bytes 2 (u32_at d + units)) as [H1 H2]; [unfold is_byte; lia|]. by rewrite H2, E.
Qed.

(** A message made of another's version, header class, blockhash and lookups, whose
    instructions resolve and that was written within a packet, is one the format holds. *)
Lemma rewritten_ok m m' accounts out n : message_ok m -> cm_version m' = cm_version m -> cm_lookups m' = cm_lookups m ->
  fst (cm_header m') = fst (cm_header m) -> header_ok m' -> encodeMessage m' = Some out -> (length out <= n)%nat -> Z.of_nat n < 2 ^ 13 ->
  (length accounts <= 256)%nat ->
  (forall ix, ix ∈ cm_instructions m' -> exists res, resolve_instruction accounts ix = Some res /\ Forall is_byte (snd res)) -> message_ok m'.
Proof.
  intros [Hh _ _ _ Hl] Ev El Eh Hok He Hn Hb Ha Hr. destruct (encodeMessage_sizes _ _ He) as (H1 & H2 & H3 & H4 & H5). split.
  - unfold header_ok in Hok. destruct (cm_header m) as [[h1 h2] h3], (cm_header m') as [[h1' h2'] h3']. cbn [fst] in Eh. injection Eh as -> ->.
    destruct Hh as [Hh Hv]. rewrite !Forall_cons in Hh. destruct Hh as (B1 & B2 & _). split; [|by rewrite Ev].
    repeat constructor; try apply B1; try apply B2; unfold len_of in Hok; lia.
  - split; [done|]. unfold vec_ok, len_of. lia.
  - done.
  - split; [|unfold vec_ok, len_of; lia]. apply Forall_forall. intros ix Hix. destruct (Hr ix Hix) as (res & Hres & Hd).
    destruct (resolved_bytes _ _ _ Ha Hres) as (R1 & R2 & R3). rewrite Forall_forall in H5. destruct (H5 _ Hix) as [L1 L2].
    split; [done|]. split; [split; [done|unfold vec_ok, len_of; lia]|]. split; [by rewrite R3|unfold vec_ok, len_of; lia].
  - by rewrite El, Ev.
Qed.

Lemma appended_shape m extra tables next : appendInstructions m extra tables = Some next ->
  cm_version next = cm_version m /\ cm_lookups next = cm_lookups m /\ fst (cm_header next) = fst (cm_header m).
Proof.
  unfold appendInstructions. destruct (messageAccounts m tables) as [accounts|]; [|done]. cbn [mbind option_bind].
  destruct (cm_header m) as [[h1 h2] h3]. destruct (add_needs _ _ _ _) as [[W R]|]; [|done]. cbn [mbind option_bind]. by intros [= <-].
Qed.

(** ** The transaction with the fee *)

Section fee.
Context `{CRYPTO : SolanaCrypto} `{B64 : Base64} {LAWS : Base64Laws}.

(** What the aggregator's transaction must be: in the wire format, its accounts loaded
    once each, its header within them, each of its instructions over them. *)
Record carries (tx : DecodedTransaction) (tables : tables_of) (accounts : list Account) : Prop := mkCarries {
  ca_ok : transaction_ok tx;
  ca_accounts : messageAccounts (dt_message tx) tables = Some accounts;
  ca_once : NoDup (ac_pubkey <$> accounts);
  ca_header : header_ok (dt_message tx);
  ca_resolves : forall ix, ix ∈ cm_instructions (dt_message tx) -> exists res, resolve_instruction accounts ix = Some res
}.

Abbreviation with_limit static p d := (limit_data static MERCHANT_FEE_COMPUTE_UNITS COMPUTE_BUDGET_PROGRAM_ID p d).

Lemma split_index {A} (l l' : list A) n m j : length l' = (n + m)%nat -> j ∈ l' ->
  exists i, l' !! i = Some j /\ ((i < n)%nat \/ exists k, i = (n + k)%nat /\ (k < m)%nat).
Proof.
  intros Hl [i Hi]%list_elem_of_lookup. exists i. split; [done|]. apply lookup_lt_Some in Hi.
  destruct (Nat.lt_ge_cases i n); [by left|]. right. exists (i - n)%nat. lia.
Qed.

(** C18: A merchant fee rides in the aggregator's own transaction. Given a transaction
    as [carries] says, and instructions whose data are bytes: if [withMerchantFee]
    answers a text, and what it says loads at most 256 accounts, then the text decodes
    to a transaction of at most 1232 bytes with the same signature slots, where every
    instruction of the aggregator runs the same program on the same accounts with the
    same data, but for the compute limit, raised by the fee's units; each instruction
    of the fee comes after them, on exactly the accounts it names, with at least the
    rights it asks for; no account is loaded twice; and nobody signs who did not. *)
Theorem merchant_fee_rides tx tables instructions accounts base64 :
  carries tx tables accounts -> Forall (fun e => Forall is_byte (si_data e)) instructions ->
  carry_fee tx tables instructions = Ok base64 ->
  (forall next accounts', appendInstructions (dt_message tx) instructions tables = Some next ->
     messageAccounts next tables = Some accounts' -> (length accounts' <= 256)%nat) ->
  exists tx' accounts', decodeTransaction (from_b64 base64) = Some tx' /\ (length (from_b64 base64) <= SOLANA_TRANSACTION_MAX_BYTES)%nat
  /\ dt_signatures tx' = dt_signatures tx
  /\ messageAccounts (dt_message tx') tables = Some accounts' /\ NoDup (ac_pubkey <$> accounts')
  /\ length (cm_instructions (dt_message tx')) = (length (cm_instructions (dt_message tx)) + length instructions)%nat
  /\ (forall j ix p l d, cm_instructions (dt_message tx) !! j = Some ix -> resolve_instruction accounts ix = Some (p, l, d) ->
        exists ix', cm_instructions (dt_message tx') !! j = Some ix'
          /\ resolve_instruction accounts' ix' = Some (p, l, with_limit (cm_staticKeys (dt_message tx')) p d))
  /\ (forall j e, instructions !! j = Some e ->
        exists ix' l, cm_instructions (dt_message tx') !! (length (cm_instructions (dt_message tx)) + j)%nat = Some ix'
          /\ resolve_instruction accounts' ix'
             = Some (si_programId e, l, with_limit (cm_staticKeys (dt_message tx')) (si_programId e) (si_data e))
          /\ Forall2 grants (si_keys e) l)
  /\ (forall a, a ∈ accounts' -> ac_signer a = true -> a ∈ accounts).
Proof.
  intros [Hok Hacc Hnd Hhd Hres] Hdata. unfold carry_fee.
  destruct (appendInstructions (dt_message tx) instructions tables) as [next|] eqn:Ea; [|done]. rewrite raise_shape.
  set (m' := mkMessage _ _ _ _ _ _). destruct (encodeTransaction _) as [bytes|] eqn:Ee; [|done]. cbn [or_throw res_of_option mbind res_bind].
  destruct (Nat.ltb_spec SOLANA_TRANSACTION_MAX_BYTES (length bytes)) as [|Hsize]; [done|]. intros [= <-] Hroom.
  destruct (appended_resolves _ _ _ _ _ Hacc Hnd Hhd Ea) as (accounts' & Hacc' & Hnd' & Hhd' & Hlen & Hold & Hnew & Hsig).
  specialize (Hroom _ _ eq_refl Hacc'). destruct (appended_shape _ _ _ _ Ea) as (Ev & El & Eh).
  assert (Hacc2 : messageAccounts m' tables = Some accounts') by exact Hacc'.
  assert (Hold' : forall j ix p l d, cm_instructions (dt_message tx) !! j = Some ix -> resolve_instruction accounts ix = Some (p, l, d) ->
    exists ix', cm_instructions m' !! j = Some ix' /\ resolve_instruction accounts' ix' = Some (p, l, with_limit (cm_staticKeys m') p d)).
  { intros j ix p l d Hj Hr. destruct (Hold _ _ _ Hj Hr) as (ix' & Hj' & Hr'). eexists. cbn [m' cm_instructions].
    rewrite list_lookup_fmap, Hj'. split; [done|]. exact (raised_resolves next _ _ tables _ _ _ _ _ Hacc' Hnd' Hr'). }
  assert (Hnew' : forall j e, instructions !! j = Some e ->
    exists ix' l, cm_instructions m' !! (length (cm_instructions (dt_message tx)) + j)%nat = Some ix'
      /\ resolve_instruction accounts' ix' = Some (si_programId e, l, with_limit (cm_staticKeys m') (si_programId e) (si_data e))
      /\ Forall2 grants (si_keys e) l).
  { intros j e Hj. destruct (Hnew _ _ Hj) as (ix' & l & Hj' & Hr & Hg). eexists _, l. cbn [m' cm_instructions].
    rewrite list_lookup_fmap, Hj'. split; [done|]. split; [exact (raised_resolves next _ _ tables _ _ _ _ _ Hacc' Hnd' Hr)|done]. }
  assert (Hm' : message_ok m').
  { destruct (encodeTransaction_size _ _ Ee) as (out & Hout & Hle). cbn [dt_message] in Hout. destruct Hok as (_ & _ & Hmo).
    apply (rewritten_ok (dt_message tx) m' accounts' out SOLANA_TRANSACTION_MAX_BYTES); try done; [lia|]. intros ix Hix.
    destruct (split_index (cm_instructions (dt_message tx)) _ (length (cm_instructions (dt_message tx))) (length instructions) ix ltac:(cbn [m' cm_instructions]; by rewrite length_map) Hix)
      as (i & Hi & [Hi1|(k & -> & Hk)]).
    - destruct (lookup_lt_is_Some_2 _ _ Hi1) as [ix0 H0]. assert (Hin := list_elem_of_lookup_2 _ _ _ H0). destruct (Hres _ Hin) as ([[p l] d] & Hr).
      destruct (Hold' _ _ _ _ _ H0 Hr) as (ix' & Hi' & Hr'). assert (ix' = ix) as -> by exact (Some_inj _ _ (eq_trans (eq_sym Hi') Hi)). eexists. split; [exact Hr'|]. cbn [snd].
      apply limit_data_bytes. destruct (mo_instructions _ Hmo) as [Hio _]. rewrite Forall_forall in Hio. destruct (Hio _ Hin) as (_ & _ & [Hb _]).
      unfold resolve_instruction in Hr. destruct (account_at _ _); [|done]. destruct (mapM _ _); [|done]. injection Hr as _ _ <-. done.
    - destruct (lookup_lt_is_Some_2 _ _ Hk) as [e He]. destruct (Hnew' _ _ He) as (ix' & l & Hi' & Hr' & _). assert (ix' = ix) as -> by exact (Some_inj _ _ (eq_trans (eq_sym Hi') Hi)).
      eexists. split; [exact Hr'|]. cbn [snd]. apply limit_data_bytes. rewrite Forall_forall in Hdata. by eapply Hdata, list_elem_of_lookup_2. }
  assert (Htx : transaction_ok (mkDecodedTx (dt_signatures tx) m')) by (destruct Hok as (? & ? & _); by split).
  destruct (encodeTransaction_shape _ _ Htx Ee) as (out & Hout & Eb). cbn [dt_message dt_signatures] in Hout, Eb.
  assert (Hbytes : Forall is_byte bytes).
  { destruct (encodeMessage_parts _ _ Hm' Hout) as (_ & _ & _ & _ & _ & _ & _ & _ & _ & _ & _ & Hb). destruct Hok as (Hs & Hv & _). rewrite Eb.
    apply Forall_app. split; [by apply shortVec_len_bytes|]. apply Forall_app. split; [|done]. apply concat_bytes.
    eapply Forall_impl; [exact Hs|]. by intros ? [? _]. }
  exists (mkDecodedTx (dt_signatures tx) m'), accounts'. rewrite b64_back by done. cbn [dt_message dt_signatures]. split_and!; try done.
  - rewrite Eb. by apply (decode_parts (mkDecodedTx (dt_signatures tx) m')).
  - cbn [m' cm_instructions]. by rewrite length_map.
Qed.
End fee.

(** A swap that sets its compute limit and loads a pool from a lookup table; the fee
    is a transfer of SOL. *)
Definition sample_pool : string := "Vote111111111111111111111111111111111111111".
Definition sample_route : DecodedTransaction :=
  mkDecodedTx [repeat 0 64]
    (mkMessage v0 (1, 0, 2) [sample_payer; COMPUTE_BUDGET_PROGRAM_ID; SYSTEM_PROGRAM_ID] sample_merchant
       [mkCompiled 1 [] [2; 64; 13; 3; 0]; mkCompiled 2 [0; 3] [9]] [mkLookup ASSOCIATED_TOKEN_PROGRAM_ID [0] []]).
Definition sample_route_tables : tables_of := {[ASSOCIATED_TOKEN_PROGRAM_ID := [sample_pool]]}.
Definition sample_fee : list SolanaInstruction :=
  [mkInstruction SYSTEM_PROGRAM_ID [mkMeta sample_payer true true; mkMeta sample_merchant false true] (le_bytes 4 2 ++ le_bytes 8 5000)].
Definition sample_route_accounts : list Account :=
  [mkAccount sample_payer true true; mkAccount COMPUTE_BUDGET_PROGRAM_ID false false; mkAccount SYSTEM_PROGRAM_ID false false;
   mkAccount sample_pool false true].

Lemma sample_carries : carries sample_route sample_route_tables sample_route_accounts.
Proof.
  assert (Hk : forall k, k ∈ [sample_payer; COMPUTE_BUDGET_PROGRAM_ID; SYSTEM_PROGRAM_ID; sample_merchant; ASSOCIATED_TOKEN_PROGRAM_ID] -> key_ok k).
  { apply Forall_forall. repeat (apply Forall_cons; split; [by eexists; vm_compute|]). constructor. }
  split.
  - split; [repeat constructor; vm_compute; congruence|]. split; [vm_compute; reflexivity|]. split; cbn.
    + split; [repeat constructor; unfold is_byte; lia|discriminate].
    + split; [|vm_compute; reflexivity]. repeat (apply Forall_cons; split; [apply Hk; set_solver|]). constructor.
    + apply Hk. set_solver.
    + split; [|vm_compute; reflexivity]. repeat constructor; vm_compute; congruence.
    + split_and!; [|vm_compute; reflexivity|discriminate]. constructor; [|done]. split_and!; [apply Hk; set_solver|..]; split; cbn;
        try (vm_compute; reflexivity); repeat constructor; unfold is_byte; lia.
  - vm_compute. reflexivity.
  - apply (bool_decide_eq_true_1 _). vm_compute. reflexivity.
  - vm_compute. repeat split; discriminate.
  - apply Forall_forall. repeat constructor; eexists; vm_compute; reflexivity.
Qed.

Lemma merchant_fee_rides_witness : exists base64 tx',
  carry_fee sample_route sample_route_tables sample_fee = Ok base64 /\ decodeTransaction (from_b64 base64) = Some tx'
  /\ exists accounts', messageAccounts (dt_message tx') sample_route_tables = Some accounts' /\ NoDup (ac_pubkey <$> accounts')
     /\ exists ix' l, cm_instructions (dt_message tx') !! 2%nat = Some ix'
          /\ resolve_instruction accounts' ix' = Some (SYSTEM_PROGRAM_ID, l, le_bytes 4 2 ++ le_bytes 8 5000).
Proof.
  destruct (carry_fee sample_route sample_route_tables sample_fee) as [base64|e] eqn:E; [|by vm_compute in E].
  destruct (merchant_fee_rides sample_route sample_route_tables sample_fee sample_route_accounts base64 sample_carries)
    as (tx' & accounts' & H1 & _ & _ & H2 & H3 & _ & _ & H4 & _).
  - repeat constructor; discriminate.
  - exact E.
  - intros next accounts' Hn Ha. vm_compute in Hn. injection Hn as <-. vm_compute in Ha. injection Ha as <-. vm_compute. lia.
  - destruct (H4 0%nat _ eq_refl) as (ix' & l & H5 & H6 & _).
    exists base64, tx'. split; [reflexivity|]. split; [exact H1|]. exists accounts'. split; [exact H2|]. split; [exact H3|]. exists ix', l.
    split; [exact H5|exact H6].
Defined.
