(* ===== verification/ChainSwaps.v ===== *)
(** Swaps on Solana and Monad: src/src/swaps/chain-swaps.service.ts, the observer that
    settles them (chain-swap-observer.service.ts), the record tokens of the shared
    public key (src/src/common/public-record-token.ts, shared-public-key.ts) and the
    slippage policy (src/src/stellar/stellar-operation-policy.ts). *)

From S2P Require Import Prelude Text Units MerchantFee Intents ChainAddress Webhooks Programs PayLinks Rlp EvmTransaction SolanaMessage SolanaAppend SolanaWire IntentService Settlement EscrowStore EscrowJobs ChainSwapStore ChainSwapVenues.
From stdpp Require Import base tactics list option gmap strings sorting.
From Stdlib Require Import ZArith Lia Ascii.

Open Scope Z_scope.

(** ** Requests and configuration *)

(** What the gateway says of a request; [cl_public] is the role of the shared key. *)
Record Caller := mkCaller {
  cl_consumer : GatewayConsumer;
  cl_public : bool;
  cl_planSwapFeeBps : option Z
}.

(** A quote's fields, and those of a create; a quote has no source. *)
Record SwapDto := mkSwapDto {
  sd_chain : OtherChain;
  sd_sourceAssetCode : option string;
  sd_sourceAssetIssuer : option string;
  sd_amount : string;
  sd_destAssetCode : string;
  sd_destAssetIssuer : option string;
  sd_slippageBps : option Z;
  sd_merchantFee : option MerchantFeeDto;
  sd_source : option string;
  sd_destination : option string;
  sd_memo : option string;
  sd_idempotencyKey : option string
}.

(** [record_mac] is the base64url HMAC under the key derived for record tokens. *)
Class SwapConfig := mkSwapConfig {
  swap_env : Env;
  defaultSlippageBps : Z;
  maxSlippageBps : Z;
  commission : CommissionConfig;
  swapFeeWallet : OtherChain -> string;
  publicConsumer : string;
  requiredOnLegacy : bool;
  record_mac : string -> string
}.

(** ** Record tokens (public-record-token.ts) *)

Section tokens.
Context `{SwapConfig}.

(** [isSharedPublicKey] of shared-public-key.ts *)
Definition isSharedPublicKey (c : Caller) : bool :=
  cl_public c || (truthy (Some publicConsumer) && String.eqb (username (cl_consumer c)) publicConsumer).

Definition recordToken (kind id : string) : string := record_mac (kind +:+ ":" +:+ id).

Definition recordTokenMatches (kind id : string) (presented : option string) : bool :=
  match given presented with None => false | Some p => String.eqb p (recordToken kind id) end.

Definition issueFor (c : Caller) (kind id : string) : option string :=
  if isSharedPublicKey c then Some (recordToken kind id) else None.

Definition admits (c : Caller) (kind id : string) (presented : option string) (legacyRoute : bool) : bool :=
  if negb (isSharedPublicKey c) then true
  else match given presented with
       | None => legacyRoute && negb requiredOnLegacy
       | Some _ => recordTokenMatches kind id presented
       end.
End tokens.

(** ** Pricing *)

(** [resolveSlippage] of stellar-operation-policy.ts *)
Definition resolveSlippage (requested : option Z) (policy maximum : Z) : res Z :=
  let bps := default policy requested in
  if maximum <? bps then Throw (badRequest SlippageExceeded) else Ok bps.

Record Priced := mkPriced {
  pr_chain : OtherChain;
  pr_amount : Z;
  pr_merchantFee : option (MerchantFeeTerms * MerchantFeeRecord);
  pr_request : VenueRequest
}.

Section service.
Context `{CRYPTO : SolanaCrypto} `{B64 : Base64} `{SECP : Secp} `{ROUTER : RouterConfig} `{CONFIG : SwapConfig} `{DRAWS : SwapDraws}.

Definition rules (c : OtherChain) : MerchantFeeWalletRule := CHAIN_ADDRESS_RULES (isValidEd25519PublicKey swap_env) keccak_hex_of (chain_of c).
Definition normalized (c : OtherChain) (a : string) : string := normalize (rules c) a.

Definition refuseStellarOnlyFields (c : OtherChain) (dto : SwapDto) : res unit :=
  if existsb (fun o => match o with Some _ => true | None => false end) [sd_sourceAssetIssuer dto; sd_destAssetIssuer dto; sd_memo dto]
  then Throw (badRequest ValidationFailed)
  else match sd_destination dto, sd_source dto with
       | Some d, Some s => if bool_decide (normalized c d = normalized c s) then Ok tt else Throw (badRequest ValidationFailed)
       | _, _ => Ok tt
       end.

Definition baseUnits (amount : string) (asset : VenueAsset) : res Z :=
  match parseUnits amount (va_decimals asset) with
  | Throw _ => Throw (badRequest InvalidAmount)
  | Ok units => if units <=? 0 then Throw (badRequest InvalidAmount) else Ok units
  end.

(** What is computed once both assets are resolved. *)
Definition price_assets (caller : Caller) (dto : SwapDto) (send dest : VenueAsset) : res Priced :=
  let c := sd_chain dto in
  _ ← throw_if (String.eqb (toLowerCase (va_asset send)) (toLowerCase (va_asset dest))) (badRequest ValidationFailed);
  amount ← baseUnits (sd_amount dto) send;
  merchant ← resolveMerchantFee (sd_merchantFee dto) (va_decimals send) (rules c);
  _ ← throw_if (match merchant, given (sd_source dto) with
                | Some m, Some s => bool_decide (normalized c s = wallet m)
                | _, _ => false
                end) (badRequest ValidationFailed);
  let split := splitMerchantFee amount merchant in
  _ ← assertMerchantFeeCovered split merchant;
  slippageBps ← resolveSlippage (sd_slippageBps dto) defaultSlippageBps maxSlippageBps;
  let feeWallet := swapFeeWallet c in
  plan ← resolvePlanCommissionBps commission (cl_planSwapFeeBps caller);
  feeBps ← commissionWithRecipient commission plan feeWallet;
  Ok (mkPriced c amount
        (match merchant with
         | Some m => Some (m, merchantFeeRecord m (fee split) (va_decimals send) (va_asset send))
         | None => None
         end)
        (mkVenueRequest (normalized c <$> given (sd_source dto)) send dest (net split) slippageBps feeBps
           (if 0 <? feeBps then Some feeWallet else None)
           (match merchant with Some m => Some (wallet m, fee split) | None => None end))).

Definition price (caller : Caller) (dto : SwapDto) : swapping Priced :=
  let c := sd_chain dto in
  let venue := venues c in
  if negb (String.eqb (resolveNetwork swap_env (cl_consumer caller)) "public") then Raise (badRequest NetworkUnsupported)
  else
    _ ← pure (refuseStellarOnlyFields c dto);
    if (match sd_merchantFee dto with Some _ => true | None => false end) && ve_merchantFeeUnsupported venue
    then Raise (badRequest MerchantFeeUnsupported)
    else
      match given (sd_sourceAssetCode dto) with
      | None => Raise (badRequest ValidationFailed)
      | Some code =>
          send ← ve_resolveAsset venue code;
          dest ← ve_resolveAsset venue (sd_destAssetCode dto);
          pure (price_assets caller dto send dest)
      end.

(** ** Quote *)

Record SwapQuoteView := mkSwapQuoteView {
  qv_chain : OtherChain;
  qv_sourceAmount : string;
  qv_feeAmount : string;
  qv_feeBps : Z;
  qv_feeWallet : option string;
  qv_routed : string;
  qv_merchantFee : option MerchantFeeRecord;
  qv_estimated : string;
  qv_minimum : string;
  qv_slippageBps : Z;
  qv_path : list string
}.

Definition quote (caller : Caller) (dto : SwapDto) : swapping SwapQuoteView :=
  priced ← price caller dto;
  let request := pr_request priced in
  q ← ve_quote (venues (pr_chain priced)) request;
  let '(send, dest) := (va_decimals (vr_send request), va_decimals (vr_dest request)) in
  Ret (mkSwapQuoteView (pr_chain priced) (formatUnits (pr_amount priced) send) (formatUnits (vq_feeAmount q) dest) (vr_feeBps request)
         (vr_feeWallet request) (formatUnits (vr_amount request) send) (snd <$> pr_merchantFee priced)
         (formatUnits (vq_destEstimated q) dest) (formatUnits (vq_destMin q) dest) (vr_slippageBps request) (vq_path q)).

(** ** Create *)

Definition CHAIN_SWAP_TX_TTL_MS (c : OtherChain) : Z := match c with Solana => 60 * 1000 | Monad => 2 * 60 * 1000 end.

Record ChainSwapTerms := mkChainSwapTerms {
  ct_chain : OtherChain;
  ct_source : string;
  ct_sendAsset : string;
  ct_sendAmount : string;
  ct_destAsset : string;
  ct_slippageBps : Z
}.
#[export] Instance ChainSwapTerms_eq_dec : EqDecision ChainSwapTerms.
Proof. solve_decision. Defined.

Definition termsOf (p : Priced) : ChainSwapTerms :=
  let r := pr_request p in
  mkChainSwapTerms (pr_chain p) (default ""%string (vr_source r)) (va_asset (vr_send r)) (formatUnits (pr_amount p) (va_decimals (vr_send r)))
    (va_asset (vr_dest r)) (vr_slippageBps r).
Definition stored_terms (t : SwapTerms) : ChainSwapTerms :=
  mkChainSwapTerms (st_chain t) (st_source t) (st_sendAsset t) (st_sendAmount t) (st_destAsset t) (st_slippageBps t).

Definition replay (existing : ChainSwap) (terms : ChainSwapTerms) (priced : Priced) : res ChainSwap :=
  if bool_decide (stored_terms (cs_terms existing) = terms)
     && sameMerchantFee (st_merchantFee (cs_terms existing)) (fst <$> pr_merchantFee priced) (va_decimals (vr_send (pr_request priced)))
  then Ok existing
  else Throw (conflict IdempotencyConflict).

(** [findUnique({ where: { consumerId_idempotencyKey } })] *)
Definition findByKey (consumerId key : string) : swapping (option ChainSwap) :=
  asking (fun s => head (List.filter (fun r => bool_decide (st_consumerId (cs_terms r) = consumerId)
                                               && bool_decide (st_idempotencyKey (cs_terms r) = Some key)) (map_to_list (chain_swaps s)).*2)).

(** The row's columns, but for its id and instants. *)
Definition row_of (consumerId : string) (priced : Priced) (source : string) (built : VenueBuild) (key : option string) (expiresAt : Z)
    (i : string) (createdAt : Z) : SwapTerms :=
  let r := pr_request priced in
  let q := vb_quote built in
  let d := va_decimals (vr_dest r) in
  mkSwapTerms i consumerId (pr_chain priced) source (va_asset (vr_send r)) (va_decimals (vr_send r)) (ct_sendAmount (termsOf priced))
    (va_asset (vr_dest r)) d (formatUnits (vq_destEstimated q) d) (formatUnits (vq_destMin q) d) (vr_feeBps r) (formatUnits (vq_feeAmount q) d)
    (vr_slippageBps r) (vq_path q) (vb_transaction built) (vb_approval built) (vq_raw q) key expiresAt
    (match pr_merchantFee priced with Some (_, record) => record_json record | None => JNull end) createdAt.

(** [persist]: a unique violation is no row, when there is a key. *)
Definition persist (key : option string) (terms : string -> Z -> SwapTerms) : swapping (option ChainSwap) :=
  catching (r ← stmt (create_swap terms); Ret (Some r))
    (fun err => if isUniqueViolation err && truthy key then Ret None else Raise err).

(** The swap's read token goes with it, for the shared public key. *)
Definition attach (caller : Caller) (r : ChainSwap) : json * option string :=
  (present r, issueFor caller "chain-swap" (st_id (cs_terms r))).

Definition build (caller : Caller) (dto : SwapDto) (header : option string) : swapping ChainSwap :=
  priced ← price caller dto;
  consumerId ← stmt (resolve_consumer (username (cl_consumer caller)));
  let key := resolveIdempotencyKey header (sd_idempotencyKey dto) in
  existing ← match key with Some k => findByKey consumerId k | None => Ret None end;
  match existing with
  | Some e => pure (replay e (termsOf priced) priced)
  | None =>
      let source := default ""%string (vr_source (pr_request priced)) in
      built ← ve_build (venues (pr_chain priced)) (pr_request priced) source;
      now ← asking sw_clock;
      row ← persist key (row_of consumerId priced source built key (now + CHAIN_SWAP_TX_TTL_MS (pr_chain priced)));
      match row with
      | None =>
          raced ← match key with Some k => findByKey consumerId k | None => Ret None end;
          match raced with
          | Some e => pure (replay e (termsOf priced) priced)
          | None => Raise (conflict IdempotencyConflict)
          end
      | Some r => _ ← emit_swap (username (cl_consumer caller)) SWAP_CREATED r; Ret r
      end
  end.

Definition create (caller : Caller) (dto : SwapDto) (header : option string) : swapping (json * option string) :=
  r ← build caller dto header; Ret (attach caller r).

(** ** Read *)

Definition owned_by (user : string) (s : SwapWorld) (r : ChainSwap) : bool := bool_decide (sw_consumers s !! user = Some (st_consumerId (cs_terms r))).

Definition newer_swap (a b : ChainSwap) : Prop := st_createdAt (cs_terms b) <= st_createdAt (cs_terms a).
#[export] Instance newer_swap_dec a b : Decision (newer_swap a b).
Proof. unfold newer_swap. apply _. Defined.

Definition listed (caller : Caller) (c : OtherChain) (status : option SwapStatus) (s : SwapWorld) : list ChainSwap :=
  if String.eqb (resolveNetwork swap_env (cl_consumer caller)) "public" then
    List.filter (fun r => bool_decide (st_chain (cs_terms r) = c) && owned_by (username (cl_consumer caller)) s r
                          && match status with Some st => bool_decide (cs_status r = st) | None => true end) (map_to_list (chain_swaps s)).*2
  else [].

(** The page and the count are two statements. *)
Definition findAll (caller : Caller) (c : OtherChain) (status : option SwapStatus) (take_ skip : nat) : swapping (list json * nat) :=
  data ← asking (fun s => List.map present (take take_ (drop skip (merge_sort newer_swap (listed caller c status s)))));
  total ← asking (fun s => length (listed caller c status s));
  Ret (data, total).

Definition findOwned (caller : Caller) (i : string) (token : option string) (legacyRoute : bool) : swapping (option ChainSwap) :=
  if negb (admits caller "chain-swap" i token legacyRoute) then Ret None
  else asking (fun s => r ← chain_swaps s !! i; if owned_by (username (cl_consumer caller)) s r then Some r else None).

(** ** Submit *)

Record SubmitOutcome := mkSubmitOutcome { so_status : SwapStatus; so_txHash : string; so_swap : ChainSwap }.

Definition submit (caller : Caller) (swap : ChainSwap) (signedTransaction : option string) : swapping SubmitOutcome :=
  match given signedTransaction with
  | None => Raise (badRequest ValidationFailed)
  | Some signed =>
      let t := cs_terms swap in
      let venue := venues (st_chain t) in
      txHash ← pure (ve_verify venue t signed);
      if negb (bool_decide (cs_status swap = S_PENDING)) && negb (bool_decide (cs_status swap = S_SUBMITTED))
      then Raise (badRequest InvalidStateTransition)
      else
        now ← asking sw_clock;
        if bool_decide (cs_status swap = S_PENDING) && (st_expiresAt t <=? now) then Raise (badRequest InvalidStateTransition)
        else
          _ ← ve_broadcast venue signed;
          count ← stmt (update_swap (st_id t) (fun r => bool_decide (cs_status r = S_PENDING)) (to_submitted txHash));
          row ← find_swap (st_id t);
          _ ← (if (count =? 1)%nat then discard (emit_swap (username (cl_consumer caller)) SWAP_SUBMITTED row) else Ret tt);
          Ret (mkSubmitOutcome (cs_status row) txHash row)
  end.

(** The submit route of the controller, for a swap of this table. *)
Definition submit_route (caller : Caller) (i : string) (token signedTransaction : option string) : swapping (option SubmitOutcome) :=
  swap ← findOwned caller i token true;
  match swap with None => Ret None | Some swap => o ← submit caller swap signedTransaction; Ret (Some o) end.

(** ** Settlement *)

(** The statuses [settle] moves a swap to. *)
Inductive Settling := To_SUCCEEDED | To_FAILED | To_EXPIRED.
#[export] Instance Settling_eq_dec : EqDecision Settling.
Proof. solve_decision. Defined.
Definition status_of_settling (n : Settling) : SwapStatus :=
  match n with To_SUCCEEDED => S_SUCCEEDED | To_FAILED => S_FAILED | To_EXPIRED => S_EXPIRED end.
Definition settling_of (v : VenueSettlement) : Settling := match v with V_SUCCEEDED => To_SUCCEEDED | V_FAILED => To_FAILED end.

Definition settle (swap : ChainSwap) (user : string) (next : Settling) : swapping unit :=
  let i := st_id (cs_terms swap) in
  count ← stmt (update_swap i (fun r => bool_decide (cs_status r = cs_status swap)) (to_status (status_of_settling next)));
  if negb (count =? 1)%nat then Ret tt
  else if bool_decide (next = To_EXPIRED) then Ret tt
  else
    row ← find_swap i;
    discard (emit_swap user (if bool_decide (next = To_SUCCEEDED) then SWAP_SUCCEEDED else SWAP_FAILED) row).

Definition touch (i : string) : swapping unit :=
  n ← stmt (update_swap i (fun _ => true) touched); if (n =? 1)%nat then Ret tt else Raise JsError.

(** ** The observer (chain-swap-observer.service.ts) *)

Definition CHAIN_SWAP_LANDING_WINDOW_MS (c : OtherChain) : Z := match c with Solana => 3 * 60 * 1000 | Monad => 30 * 60 * 1000 end.
Definition CHAIN_SWAP_RESCUE_WINDOW_MS : Z := 24 * 60 * 60 * 1000.
Definition CHAIN_SWAP_OBSERVER_BATCH : nat := 50.

Definition due (now : Z) (r : ChainSwap) : bool :=
  match cs_status r with
  | S_PENDING => st_expiresAt (cs_terms r) <=? now
  | S_SUBMITTED => true
  | S_EXPIRED => (match cs_txHash r with Some _ => true | None => false end) && (now - CHAIN_SWAP_RESCUE_WINDOW_MS <=? st_expiresAt (cs_terms r))
  | S_SUCCEEDED | S_FAILED => false
  end.

(** [lastCheckedAt] ascending, nulls first. *)
Definition checked_before (a b : ChainSwap) : Prop :=
  match cs_lastCheckedAt a, cs_lastCheckedAt b with
  | None, _ => True
  | Some _, None => False
  | Some x, Some y => x <= y
  end.
#[export] Instance checked_before_dec a b : Decision (checked_before a b).
Proof. unfold checked_before. destruct (cs_lastCheckedAt a), (cs_lastCheckedAt b); apply _. Defined.

Definition username_of (s : SwapWorld) (consumerId : string) : string :=
  match List.find (fun x => String.eqb (snd x) consumerId) (map_to_list (sw_consumers s)) with Some (u, _) => u | None => "" end.

Definition batch (now : Z) (s : SwapWorld) : list (ChainSwap * string) :=
  List.map (fun r => (r, username_of s (st_consumerId (cs_terms r))))
    (take CHAIN_SWAP_OBSERVER_BATCH (merge_sort checked_before (List.filter (due now) (map_to_list (chain_swaps s)).*2))).

Definition observe (now : Z) (swap : ChainSwap) (user : string) : swapping unit :=
  let c := st_chain (cs_terms swap) in
  match cs_status swap, given (cs_txHash swap) with
  | S_PENDING, _ | _, None => settle swap user To_EXPIRED
  | _, Some txHash =>
      outcome ← ve_settlement (venues c) txHash;
      match outcome with
      | Some v => settle swap user (settling_of v)
      | None =>
          if bool_decide (cs_status swap = S_SUBMITTED) && (st_expiresAt (cs_terms swap) + CHAIN_SWAP_LANDING_WINDOW_MS c <? now)
          then settle swap user To_EXPIRED
          else touch (st_id (cs_terms swap))
      end
  end.

Definition tick : swapping unit :=
  now ← asking sw_clock;
  rows ← asking (batch now);
  for_each rows (fun x => catching (observe now (fst x) (snd x)) (fun _ => Ret tt)).
End service.
