(* ===== verification/ChainSwapSafety.v ===== *)
(** Swaps on Solana and Monad under concurrency: what the service relies on of a venue
    ([VenueLaws], which both venues keep), and the invariant [swaps_ok] and the relation
    [advanced] between worlds that every method keeps in any interleaving. *)

From S2P Require Import Prelude Text Units MerchantFee Intents ChainAddress Webhooks Programs PayLinks Rlp EvmTransaction SolanaMessage SolanaAppend SolanaWire IntentService Settlement EscrowStore EscrowJobs ChainSwapStore ChainSwapVenues ChainSwaps.
From stdpp Require Import base tactics list option gmap strings sorting.
From Stdlib Require Import ZArith Lia Ascii.

Open Scope Z_scope.

(** ** Programs that touch no table *)

(** Only the router's check and the draws may move. *)
Definition same_tables (s s' : SwapWorld) : Prop :=
  sw_consumers s' = sw_consumers s /\ chain_swaps s' = chain_swaps s /\ sw_hooks s' = sw_hooks s /\ outside s' = outside s
  /\ sw_history s' = sw_history s /\ sw_clock s' = sw_clock s.
#[export] Instance same_tables_preorder : PreOrder same_tables.
Proof. unfold same_tables. split; [by intros s|]. intros s t u (? & ? & ? & ? & ? & ?) (? & ? & ? & ? & ? & ?). split_and!; congruence. Qed.

Fixpoint quiet {A} (p : swapping A) : Prop :=
  match p with
  | Ret _ | Raise _ => True
  | Stmt w k => (forall s, same_tables s (w s)) /\ forall s, quiet (k s)
  end.

Lemma quiet_bind {A B} (f : A -> swapping B) p : quiet p -> (forall a, quiet (f a)) -> quiet (p ≫= f).
Proof. unfold mbind, prog_mbind. intros Hp Hf. induction p as [a|e|w k IH]; [apply Hf|done|]. destruct Hp as [H1 H2]. split; [done|]. intros s. by apply IH. Qed.

Lemma quiet_catching {A} (p : swapping A) h : quiet p -> (forall e, quiet (h e)) -> quiet (catching p h).
Proof. intros Hp Hh. induction p as [a|e|w k IH]; [done|apply Hh|]. destruct Hp as [H1 H2]. split; [done|]. intros s. by apply IH. Qed.

Lemma quiet_pure {A} (r : res A) : quiet (pure r).
Proof. by destruct r. Qed.

Lemma quiet_asking {A} (f : SwapWorld -> A) : quiet (asking f).
Proof. split; [|done]. intros s. reflexivity. Qed.

Lemma quiet_outward {A} (f : Outside -> res A) : quiet (outward f).
Proof. apply quiet_bind; [apply quiet_asking|]. intros a. apply quiet_pure. Qed.

Ltac quieten :=
  repeat first
    [ done
    | apply quiet_outward | apply quiet_asking | apply quiet_pure
    | apply quiet_bind; [|intros ?] | apply quiet_catching; [|intros ?]
    | match goal with
      | |- quiet (if ?b then _ else _) => destruct b
      | |- quiet (match ?o with Some _ => _ | None => _ end) => destruct o
      | |- quiet (let '(_, _) := ?o in _) => destruct o
      end ].

(** ** What a node's answer shows

    A signature that carries no error and is confirmed or finalized, or a receipt
    whose status is one, has landed; one with an error, or another status, was
    reverted. *)

Definition landed (c : OtherChain) (h : string) (e : SwapEvent) : Prop :=
  match c with
  | Solana => exists st, e = SignatureSeen h (Some st) /\ ss_err st = false
      /\ (ss_confirmationStatus st = Some "confirmed" \/ ss_confirmationStatus st = Some "finalized")
  | Monad => e = ReceiptSeen h (Some "0x1")
  end%string.
Definition reverted (c : OtherChain) (h : string) (e : SwapEvent) : Prop :=
  match c with
  | Solana => exists st, e = SignatureSeen h (Some st) /\ ss_err st = true
  | Monad => exists st, e = ReceiptSeen h (Some st) /\ st <> "0x1"%string
  end.
Definition shows (v : VenueSettlement) : OtherChain -> string -> SwapEvent -> Prop :=
  match v with V_SUCCEEDED => landed | V_FAILED => reverted end.

(** ** What the service relies on of a venue *)

(** It hands a text to its node, and its verdict on a hash is what the node's
    answer, remembered, shows. *)
Record VenueLaws (c : OtherChain) (v : ChainSwapVenue) : Prop := mkVenueLaws {
  vl_resolveAsset a : quiet (ve_resolveAsset v a);
  vl_quote r : quiet (ve_quote v r);
  vl_build r source : quiet (ve_build v r source);
  vl_broadcast signed : exists send, ve_broadcast v signed = handing c signed send;
  vl_settlement h : exists (A : Type) (read : Outside -> res A) seen verdict, ve_settlement v h = judged read seen verdict
    /\ (forall a c' t, seen a <> Sent c' t) /\ (forall a x, verdict a = Some x -> shows x c h (seen a))
}.

Section laws.
Context `{CRYPTO : SolanaCrypto} `{B64 : Base64} `{SECP : Secp} `{ROUTER : RouterConfig}.

Lemma lookupTables_quiet lookups tables : quiet (lookupTables lookups tables).
Proof. revert tables. induction lookups as [|l r IH]; intros tables; [done|]. cbn [lookupTables]. quieten. Qed.

Lemma token_program_quiet mint : quiet (token_program mint).
Proof. unfold token_program. quieten. Qed.

Lemma signature_shows h a v : signature_verdict a = Some v -> shows v Solana h (SignatureSeen h a).
Proof.
  destruct a as [st|]; [|done]. cbn. destruct (ss_err st) eqn:Ee; [intros [= <-]; by exists st|].
  destruct (_ || _) eqn:Ec; [|done]. intros [= <-]. exists st. split; [done|]. split; [done|].
  apply orb_true_iff in Ec as [E|E]; apply bool_decide_eq_true in E; auto.
Qed.

Lemma receipt_shows h a v : receipt_verdict a = Some v -> shows v Monad h (ReceiptSeen h a).
Proof.
  destruct a as [st|]; [|done]. cbn. destruct (String.eqb_spec st "0x1") as [->|Hne]; intros [= <-]; [done|by exists st].
Qed.

Lemma solana_laws : VenueLaws Solana solana_venue.
Proof.
  split; intros; cbn [solana_venue ve_resolveAsset ve_quote ve_build ve_broadcast ve_settlement]; [| | |by eexists|].
  - unfold solana_resolveAsset. quieten.
  - unfold solana_quote, jupiterQuote. quieten.
  - unfold solana_build, feeAccount, jupiterQuote, swapTransaction. quieten; try apply token_program_quiet.
    all: unfold withMerchantFee, merchantFeeInstructions; quieten; first [apply lookupTables_quiet|apply token_program_quiet].
  - unfold solana_settlement. eexists _, _, _, _. split; [reflexivity|]. split; [done|]. intros a x. apply signature_shows.
Qed.

Lemma router_quiet : quiet router.
Proof.
  unfold router, verifyRouter. quieten.
Qed.

Lemma kuruQuote_quiet r user : quiet (kuruQuote r user).
Proof. unfold kuruQuote, kuru_quote. quieten. Qed.

Lemma monad_laws : VenueLaws Monad monad_venue.
Proof.
  split; intros; cbn [monad_venue ve_resolveAsset ve_quote ve_build ve_broadcast ve_settlement]; [| | |by eexists|].
  - unfold monad_resolveAsset. quieten.
  - unfold monad_quote. quieten; first [apply router_quiet|apply kuruQuote_quiet].
  - unfold monad_build, buildWithMerchantFee, approval. quieten; first [apply router_quiet|apply kuruQuote_quiet].
  - unfold monad_settlement. eexists _, _, _, _. split; [reflexivity|]. split; [done|]. intros a x. apply receipt_shows.
Qed.

Lemma venue_laws c : VenueLaws c (venues c).
Proof. destruct c; [apply solana_laws|apply monad_laws]. Qed.
End laws.

(** ** The invariant *)

(** The moves of a swap's status. *)
Definition follows (a b : SwapStatus) : bool :=
  match a, b with
  | S_PENDING, _ => true
  | S_SUBMITTED, (S_SUBMITTED | S_SUCCEEDED | S_FAILED | S_EXPIRED) => true
  | S_EXPIRED, (S_EXPIRED | S_SUCCEEDED | S_FAILED) => true
  | S_SUCCEEDED, S_SUCCEEDED | S_FAILED, S_FAILED => true
  | _, _ => false
  end.

(** What a row keeps as it changes. *)
Record evolves (r r' : ChainSwap) : Prop := mkEvolves {
  ev_terms : cs_terms r' = cs_terms r;
  ev_hash : forall h, cs_txHash r = Some h -> cs_txHash r' = Some h;
  ev_status : follows (cs_status r) (cs_status r') = true
}.
#[export] Instance evolves_preorder : PreOrder evolves.
Proof.
  split; [intros r; split; [done|done|by destruct (cs_status r)]|]. intros a b c [H1 H2 H3] [H4 H5 H6]. split; [congruence|auto|].
  destruct (cs_status a), (cs_status b), (cs_status c); done.
Qed.

(** How the world moves. *)
Record advanced (s s' : SwapWorld) : Prop := mkAdvanced {
  ad_history : sw_history s `prefix_of` sw_history s';
  ad_rows : forall i r, chain_swaps s !! i = Some r -> exists r', chain_swaps s' !! i = Some r' /\ evolves r r';
  ad_clock : sw_clock s <= sw_clock s'
}.
#[export] Instance advanced_preorder : PreOrder advanced.
Proof.
  split.
  - intros s. split; [done|intros i r H; by exists r|lia].
  - intros s t u [H1 H2 H3] [H4 H5 H6]. split; [by etransitivity| |lia].
    intros i r H. destruct (H2 _ _ H) as (r1 & K1 & E1). destruct (H5 _ _ K1) as (r2 & K2 & E2). exists r2. split; [done|]. by etransitivity.
Qed.

Section safety.
Context `{CRYPTO : SolanaCrypto} `{B64 : Base64} `{SECP : Secp} `{ROUTER : RouterConfig} `{CONFIG : SwapConfig} `{DRAWS : SwapDraws}.

(** [text] is the stored transaction of [t], signed by its source, with the id [h]. *)
Definition verifies (t : SwapTerms) (text h : string) : Prop := ve_verify (venues (st_chain t)) t text = Ok h.

(** A row's hash was handed to a node of its chain, and its verdict is what a node
    answered about the hash. *)
Definition handed (h : list SwapEvent) (r : ChainSwap) : Prop :=
  forall x, cs_txHash r = Some x -> exists text, Sent (st_chain (cs_terms r)) text ∈ h /\ verifies (cs_terms r) text x.
Definition judged_as (h : list SwapEvent) (r : ChainSwap) (v : VenueSettlement) : Prop :=
  exists x e, cs_txHash r = Some x /\ e ∈ h /\ shows v (st_chain (cs_terms r)) x e.
Definition standing (h : list SwapEvent) (r : ChainSwap) : Prop :=
  match cs_status r with
  | S_PENDING => cs_txHash r = None
  | S_SUBMITTED => cs_txHash r <> None
  | S_SUCCEEDED => judged_as h r V_SUCCEEDED
  | S_FAILED => judged_as h r V_FAILED
  | S_EXPIRED => True
  end.
Definition row_ok (h : list SwapEvent) (r : ChainSwap) : Prop := handed h r /\ standing h r.

Record swaps_ok (s : SwapWorld) : Prop := mkSwapsOk {
  so_id : forall i r, chain_swaps s !! i = Some r -> st_id (cs_terms r) = i;
  so_rows : forall i r, chain_swaps s !! i = Some r -> row_ok (sw_history s) r;
  so_unique : forall i j r r', chain_swaps s !! i = Some r -> chain_swaps s !! j = Some r' -> i <> j ->
    same_key r r' = false /\ same_hash r r' = false;
  so_sent : forall c text, Sent c text ∈ sw_history s ->
    exists i r h, chain_swaps s !! i = Some r /\ st_chain (cs_terms r) = c /\ verifies (cs_terms r) text h
}.

Abbreviation safe := (safe swaps_ok advanced).

Lemma prefix_elem {A} (h h' : list A) x : h `prefix_of` h' -> x ∈ h -> x ∈ h'.
Proof. intros [k ->] H. set_solver. Qed.

Lemma row_ok_mono h h' r : h `prefix_of` h' -> row_ok h r -> row_ok h' r.
Proof.
  intros Hp [H1 H2]. split.
  - intros x Hx. destruct (H1 x Hx) as (t & Ht & Hv). exists t. split; [by eapply prefix_elem|done].
  - unfold standing in *. destruct (cs_status r); try done; destruct H2 as (x & e & Hx & He & Hv); exists x, e; (split_and!; [done|by eapply prefix_elem|done]).
Qed.

Lemma same_key_sym a b : same_key a b = same_key b a.
Proof.
  unfold same_key. f_equal; [by apply bool_decide_ext|]. destruct (st_idempotencyKey _), (st_idempotencyKey _); try done. by apply bool_decide_ext.
Qed.
Lemma same_hash_sym a b : same_hash a b = same_hash b a.
Proof.
  unfold same_hash. f_equal; [by apply bool_decide_ext|]. destruct (cs_txHash _), (cs_txHash _); try done. by apply bool_decide_ext.
Qed.

Lemma swap_not_violated i r s : swap_violated i r s = None <->
  forall j r', j <> i -> chain_swaps s !! j = Some r' -> same_key r r' = false /\ same_hash r r' = false.
Proof.
  unfold swap_violated. set (others := _.*2).
  assert (Hin : forall r', r' ∈ others <-> exists j, j <> i /\ chain_swaps s !! j = Some r').
  { intros r'. unfold others. rewrite list_elem_of_fmap. split.
    - intros ([j x] & -> & H%elem_of_map_to_list). apply lookup_delete_Some in H as [? ?]. by exists j.
    - intros (j & Hj & H). exists (j, r'). split; [done|]. apply elem_of_map_to_list, lookup_delete_Some. by split. }
  split.
  - destruct (existsb (same_key r) others) eqn:E1; [done|]. destruct (existsb (same_hash r) others) eqn:E2; [done|]. intros _ j r' Hj Hr.
    assert (Hr' : r' ∈ others) by (apply Hin; by exists j). apply list_elem_of_In in Hr'.
    split; apply not_true_iff_false; intros K; [rewrite <- not_true_iff_false, existsb_exists in E1; apply E1|rewrite <- not_true_iff_false, existsb_exists in E2; apply E2]; by exists r'.
  - intros H. assert (existsb (same_key r) others = false /\ existsb (same_hash r) others = false) as [-> ->]; [|done].
    split; apply not_true_iff_false; rewrite existsb_exists; intros (r' & Hr'%list_elem_of_In & K); apply Hin in Hr' as (j & Hj & Hr'); by destruct (H _ _ Hj Hr') as [? ?]; congruence.
Qed.

(** A row written, its uniqueness checked. *)
Lemma written_ok s i r : swaps_ok s -> st_id (cs_terms r) = i -> row_ok (sw_history s) r -> swap_violated i r s = None ->
  (forall r0, chain_swaps s !! i = Some r0 -> evolves r0 r) ->
  let s' := set_chain_swaps (fun m => <[i := r]> m) s in swaps_ok s' /\ advanced s s'.
Proof.
  intros [K1 K2 K3 K4] Hid Hrow Hv Hev. rewrite swap_not_violated in Hv. cbv zeta. split; [split|split]; cbn [set_chain_swaps chain_swaps sw_history sw_clock].
  - intros j r' [[<- <-]|[? ?]]%lookup_insert_Some; auto.
  - intros j r' [[<- <-]|[? ?]]%lookup_insert_Some; eauto.
  - intros j k a b [[<- <-]|[Hj Ha]]%lookup_insert_Some [[<- <-]|[Hk Hb]]%lookup_insert_Some Hne; try done.
    + by apply (Hv k).
    + rewrite same_key_sym, same_hash_sym. by apply (Hv j).
    + by eapply K3.
  - intros c text H. destruct (K4 _ _ H) as (j & r' & h & Hj & Hc & Hver). destruct (decide (i = j)) as [<-|Hne].
    + exists i, r, h. rewrite lookup_insert_eq. destruct (Hev _ Hj) as [Ht _ _]. by rewrite Ht.
    + exists j, r', h. by rewrite lookup_insert_ne.
  - done.
  - intros j r' Hj. destruct (decide (i = j)) as [<-|Hne]; [exists r; rewrite lookup_insert_eq; by auto|]. exists r'. by rewrite lookup_insert_ne.
  - lia.
Qed.

(** The swaps, the history and the clock stay. *)
Definition untouched (s s' : SwapWorld) : Prop :=
  chain_swaps s' = chain_swaps s /\ sw_history s' = sw_history s /\ sw_clock s' = sw_clock s.

Lemma untouched_ok s s' : untouched s s' -> swaps_ok s -> swaps_ok s' /\ advanced s s'.
Proof.
  intros (E1 & E2 & E3) [K1 K2 K3 K4]. split; [split; rewrite ?E1, ?E2; done|]. split; rewrite ?E1, ?E2, ?E3; [done| |lia].
  intros i r H. by exists r.
Qed.

Lemma untouched_stmt {A} (f : svc SwapWorld A) s0 : (forall s, untouched s (fst (f s))) -> safe (stmt f) s0.
Proof. intros H. apply safe_stmt. intros s _ Hi. by apply untouched_ok. Qed.

Lemma swap_quiet_safe {A} (p : swapping A) s0 : quiet p -> safe p s0.
Proof.
  revert s0. induction p as [a|e|w k IH]; intros s0 H; [done|done|]. destruct H as [H1 H2]. intros s Hs Hi.
  destruct (untouched_ok s (w s)) as [K1 K2]; [by destruct (H1 s) as (_ & ? & _ & _ & ? & ?)|done|]. split; [done|]. split; [done|]. by apply IH.
Qed.

(** An event remembered, with the reason for a text handed to a node. *)
Lemma swap_logged_ok s e : swaps_ok s ->
  (forall c text, e = Sent c text -> exists i r h, chain_swaps s !! i = Some r /\ st_chain (cs_terms r) = c /\ verifies (cs_terms r) text h) ->
  swaps_ok (sw_log e s) /\ advanced s (sw_log e s).
Proof.
  intros [K1 K2 K3 K4] He. assert (Hp : sw_history s `prefix_of` sw_history s ++ [e]) by (by eexists).
  split; [split|split]; cbn [sw_log chain_swaps sw_history sw_clock]; try done; try lia.
  - intros i r H. eapply row_ok_mono; [exact Hp|eauto].
  - intros c text [H|H%list_elem_of_singleton]%elem_of_app; [by apply K4|by apply He].
  - intros i r H. by exists r.
Qed.

(** ** The methods *)

Lemma emit_swap_safe user t r s0 : safe (emit_swap user t r) s0.
Proof. apply untouched_stmt. intros s. by destruct (Webhooks.emit _ _ _ _ _) as [h o]. Qed.

Lemma swap_resolve_safe user s0 : safe (stmt (resolve_consumer user)) s0.
Proof. apply untouched_stmt. intros s. unfold resolve_consumer. by destruct (sw_consumers s !! user). Qed.

Lemma price_quiet caller dto : quiet (price caller dto).
Proof. unfold price. quieten; apply vl_resolveAsset with (c := sd_chain dto), venue_laws. Qed.

Lemma quote_safe caller dto s0 : safe (quote caller dto) s0.
Proof.
  apply swap_quiet_safe. unfold quote. apply quiet_bind; [apply price_quiet|]. intros p. apply quiet_bind; [|by intros ?].
  apply vl_quote with (c := pr_chain p), venue_laws.
Qed.

(** The row a create writes. *)
Lemma create_swap_safe terms s0 : (forall i t, st_id (terms i t) = i) -> safe (stmt (create_swap terms)) s0.
Proof.
  intros Hid. apply safe_stmt. intros s _ Hi. unfold create_swap. cbv zeta. destruct (chain_swaps s !! _) eqn:E; [done|].
  destruct (swap_violated _ _ s) eqn:Ev; [done|]. cbn [fst].
  set (i := sw_cuid (sw_drawn s)) in *. set (r := mkChainSwap _ _ _ _ _) in *.
  assert (Hrow : row_ok (sw_history s) r) by (split; [intros x Hx; discriminate Hx|reflexivity]).
  assert (Hev : forall r0, chain_swaps s !! i = Some r0 -> evolves r0 r) by (intros r0; rewrite E; discriminate).
  destruct (written_ok s i r Hi (Hid _ _) Hrow Ev Hev) as [K1 K2].
  edestruct untouched_ok as [L1 L2]; [|exact K1|split; [exact L1|etransitivity; [exact K2|exact L2]]]. by split_and!.
Qed.

Lemma build_safe caller dto header s0 : safe (build caller dto header) s0.
Proof.
  apply (safe_bind swaps_ok advanced); [apply swap_quiet_safe, price_quiet|]. intros p s1 _. apply (safe_bind swaps_ok advanced); [apply swap_resolve_safe|]. intros c s2 _.
  apply (safe_bind swaps_ok advanced); [destruct (resolveIdempotencyKey _ _); [apply (safe_asking swaps_ok advanced)|done]|]. intros [e|] s3 _; [apply (safe_pure swaps_ok advanced)|].
  apply (safe_bind swaps_ok advanced); [apply swap_quiet_safe, vl_build with (c := pr_chain p), venue_laws|]. intros b s4 _.
  apply (safe_bind swaps_ok advanced); [apply (safe_asking swaps_ok advanced)|]. intros now s5 _.
  apply (safe_bind swaps_ok advanced).
  - apply (safe_catching swaps_ok advanced); [apply (safe_bind swaps_ok advanced); [by apply create_swap_safe|done]|]. intros e s6 _. by destruct (_ && _).
  - intros [r|] s6 _; [apply (safe_bind swaps_ok advanced); [apply emit_swap_safe|done]|].
    apply (safe_bind swaps_ok advanced); [destruct (resolveIdempotencyKey _ _); [apply (safe_asking swaps_ok advanced)|done]|]. intros [e|] s7 _; [apply (safe_pure swaps_ok advanced)|done].
Qed.

Lemma find_swap_safe i s0 : safe (find_swap i) s0.
Proof. apply (safe_bind swaps_ok advanced); [apply (safe_asking swaps_ok advanced)|]. intros o s _. apply (safe_pure swaps_ok advanced). Qed.

(** The row of a swap that was read. *)
Definition of_row (swap : ChainSwap) (s : SwapWorld) : Prop :=
  exists r, chain_swaps s !! st_id (cs_terms swap) = Some r /\ evolves swap r.

Lemma of_row_mono swap s s' : of_row swap s -> advanced s s' -> of_row swap s'.
Proof. intros (r & Hr & He) [_ Hrows _]. destruct (Hrows _ _ Hr) as (r' & Hr' & He'). exists r'. split; [done|]. by etransitivity. Qed.

(** An update that keeps the terms and leaves a row that is in order. *)
Lemma update_swap_safe swap guard data s0 : of_row swap s0 ->
  (forall s r, advanced s0 s -> chain_swaps s !! st_id (cs_terms swap) = Some r -> evolves swap r -> swaps_ok s -> guard r = true ->
     evolves r (data (sw_clock s) r) /\ row_ok (sw_history s) (data (sw_clock s) r)) ->
  safe (stmt (update_swap (st_id (cs_terms swap)) guard data)) s0.
Proof.
  intros Hrow H. apply safe_stmt. intros s Hs Hi. unfold update_swap. destruct (of_row_mono _ _ _ Hrow Hs) as (r & Hr & He). rewrite Hr.
  destruct (guard r) eqn:Eg; [|done]. cbv zeta. destruct (swap_violated _ _ s) eqn:Ev; [done|]. cbn [fst].
  destruct (H s r Hs Hr He Hi Eg) as [H1 H2].
  assert (Hid : st_id (cs_terms (data (sw_clock s) r)) = st_id (cs_terms swap)) by (rewrite (ev_terms _ _ H1); exact (so_id _ Hi _ _ Hr)).
  apply (written_ok s _ _ Hi Hid H2 Ev). intros r0 Hr0. rewrite Hr in Hr0. injection Hr0 as <-. exact H1.
Qed.

Lemma swap_settle_safe swap user next s0 : of_row swap s0 -> follows (cs_status swap) (status_of_settling next) = true ->
  (next = To_SUCCEEDED -> judged_as (sw_history s0) swap V_SUCCEEDED) -> (next = To_FAILED -> judged_as (sw_history s0) swap V_FAILED) ->
  safe (settle swap user next) s0.
Proof.
  intros Hrow Hf Hs Hfl. unfold settle. apply (safe_bind swaps_ok advanced).
  - apply (update_swap_safe swap); [done|]. intros s r Ha Hr He Hi Hg. apply bool_decide_eq_true in Hg.
    destruct (so_rows _ Hi _ _ Hr) as [R1 R2]. split; [split; cbn [to_status cs_terms cs_txHash cs_status]; try done; by rewrite Hg|].
    split; [exact R1|]. unfold standing. cbn [to_status cs_status].
    assert (J : forall v, judged_as (sw_history s0) swap v -> judged_as (sw_history s) (to_status (status_of_settling next) (sw_clock s) r) v).
    { intros v (x & e & Hx & Hin & Hv). exists x, e. cbn [to_status cs_txHash cs_terms]. split; [by apply (ev_hash _ _ He)|]. rewrite (ev_terms _ _ He).
      split; [|done]. eapply prefix_elem; [apply (ad_history _ _ Ha)|done]. }
    destruct next; cbn [status_of_settling]; [by apply J, Hs|by apply J, Hfl|done].
  - intros n s1 _. destruct (negb _); [done|]. case_bool_decide; [done|]. apply (safe_bind swaps_ok advanced); [apply find_swap_safe|]. intros r s2 _.
    apply (safe_discard swaps_ok advanced), emit_swap_safe.
Qed.

Lemma touch_safe swap s0 : of_row swap s0 -> safe (touch (st_id (cs_terms swap))) s0.
Proof.
  intros Hrow. apply (safe_bind swaps_ok advanced); [|by intros n s1 _; destruct (_ =? _)%nat].
  apply (update_swap_safe swap); [done|]. intros s r _ Hr _ Hi _. split; [split; [done|done|by cbn [touched cs_status]; destruct (cs_status r)]|].
  exact (so_rows _ Hi _ _ Hr).
Qed.

(** The venue hands over what was verified for a stored swap. *)
Lemma broadcast_ensures swap signed h s0 : of_row swap s0 -> verifies (cs_terms swap) signed h ->
  ensures swaps_ok advanced (ve_broadcast (venues (st_chain (cs_terms swap))) signed)
    (fun _ s => Sent (st_chain (cs_terms swap)) signed ∈ sw_history s) s0.
Proof.
  intros Hrow Hv. destruct (vl_broadcast _ _ (venue_laws (st_chain (cs_terms swap))) signed) as [send ->]. apply wp_stmt. intros s Hs Hi. cbn [fst snd].
  destruct (swap_logged_ok s (Sent (st_chain (cs_terms swap)) signed) Hi) as [K1 K2].
  { intros c text [= <- <-]. destruct (of_row_mono _ _ _ Hrow Hs) as (r & Hr & He). exists (st_id (cs_terms swap)), r, h.
    rewrite (ev_terms _ _ He). done. }
  split; [done|]. split; [done|]. destruct (send (outside s) signed); [|done]. cbn [sw_log sw_history]. set_solver.
Qed.

Lemma swap_submit_safe caller swap signed s0 : of_row swap s0 -> safe (submit caller swap signed) s0.
Proof.
  intros Hrow. unfold submit. destruct (given signed) as [text|]; [|done]. apply (safe_pure_bind swaps_ok advanced). intros h Hv.
  destruct (_ && _); [done|]. apply (safe_bind swaps_ok advanced); [apply (safe_asking swaps_ok advanced)|]. intros now s1 H1.
  destruct (_ && _); [done|]. assert (Hrow1 := of_row_mono _ _ _ Hrow H1).
  eapply (ensures_safe swaps_ok advanced). eapply (ensures_bind swaps_ok advanced); [by apply (broadcast_ensures _ _ h)|].
  intros u s2 H2 Hsent. cbv beta in Hsent. apply (safe_ensures swaps_ok advanced). apply (safe_bind swaps_ok advanced).
  - apply (update_swap_safe swap); [by eapply of_row_mono|]. intros s r Hs Hr He Hi Hg. apply bool_decide_eq_true in Hg.
    destruct (so_rows _ Hi _ _ Hr) as [_ R2]. unfold standing in R2. rewrite Hg in R2.
    split; [split; cbn [to_submitted cs_terms cs_txHash cs_status]; [done|by rewrite R2|by rewrite Hg]|].
    split; [|done]. intros x [= <-]. exists text. cbn [to_submitted cs_terms]. rewrite (ev_terms _ _ He). split; [|done].
    eapply prefix_elem; [apply (ad_history _ _ Hs)|done].
  - intros n s3 _. apply (safe_bind swaps_ok advanced); [apply find_swap_safe|]. intros r s4 _. apply (safe_bind swaps_ok advanced); [|done].
    destruct (n =? 1)%nat; [|done]. apply (safe_discard swaps_ok advanced), emit_swap_safe.
Qed.

Lemma in_table i r s : swaps_ok s -> chain_swaps s !! i = Some r -> of_row r s.
Proof. intros Hi Hr. exists r. split; [|done]. by rewrite (so_id _ Hi _ _ Hr). Qed.

Lemma submit_route_safe caller i token signed s0 : safe (submit_route caller i token signed) s0.
Proof.
  unfold submit_route, findOwned. destruct (negb _); [done|].
  apply (safe_asking_bind swaps_ok advanced). intros s _ Hi. cbv beta.
  destruct (chain_swaps s !! i) as [r|] eqn:E; [|done]. cbn [mbind option_bind]. destruct (owned_by _ _ _); [|done].
  apply (safe_bind swaps_ok advanced); [by eapply swap_submit_safe, in_table|done].
Qed.

Lemma settlement_ensures c h s0 :
  ensures swaps_ok advanced (ve_settlement (venues c) h) (fun o s => forall v, o = Some v -> exists e, e ∈ sw_history s /\ shows v c h e) s0.
Proof.
  destruct (vl_settlement _ _ (venue_laws c) h) as (A & read & seen & verdict & -> & Hsent & Hshows). apply wp_stmt. intros s Hs Hi.
  destruct (read (outside s)) as [a|e]; cbn [fst snd]; [|by split; [|split; [reflexivity|]]].
  destruct (swap_logged_ok s (seen a) Hi) as [K1 K2]; [by intros c' t E; destruct (Hsent _ _ _ E)|]. split; [done|]. split; [done|].
  intros v Hv. exists (seen a). split; [cbn [sw_log sw_history]; set_solver|by apply Hshows].
Qed.

(** A swap with a hash is moved where the chain says. *)
Lemma observe_hash_safe now swap user h s0 : of_row swap s0 -> cs_status swap = S_SUBMITTED \/ cs_status swap = S_EXPIRED -> cs_txHash swap = Some h ->
  safe (outcome ← ve_settlement (venues (st_chain (cs_terms swap))) h;
        match outcome with
        | Some v => settle swap user (settling_of v)
        | None =>
            if bool_decide (cs_status swap = S_SUBMITTED)
               && (st_expiresAt (cs_terms swap) + CHAIN_SWAP_LANDING_WINDOW_MS (st_chain (cs_terms swap)) <? now)
            then settle swap user To_EXPIRED else touch (st_id (cs_terms swap))
        end) s0.
Proof.
  intros Hrow Hst Hh. apply (wp_bind swaps_ok advanced). eapply (wp_mono swaps_ok advanced); [apply settlement_ensures|]. intros [o|e] s1 H1 Ho; [|done].
  assert (Hrow1 := of_row_mono _ _ _ Hrow H1). destruct o as [v|].
  - destruct (Ho v eq_refl) as (e & He & Hv). apply swap_settle_safe; [done|by destruct Hst as [-> | ->], v|..]; intros Ev; exists h, e; (split; [done|]); by destruct v.
  - destruct (_ && _); [apply swap_settle_safe; try done; by destruct Hst as [-> | ->]|by apply touch_safe].
Qed.

Lemma observe_safe now swap user s0 : of_row swap s0 -> due now swap = true -> safe (observe now swap user) s0.
Proof.
  intros Hrow Hdue. unfold observe.
  assert (Hx : follows (cs_status swap) S_EXPIRED = true) by (unfold due in Hdue; by destruct (cs_status swap)).
  assert (Hexp : safe (settle swap user To_EXPIRED) s0) by (apply swap_settle_safe; done).
  assert (Hh : forall h, given (cs_txHash swap) = Some h -> cs_txHash swap = Some h)
    by (intros h; unfold given; destruct (truthy _); [done|discriminate]).
  assert (Hobs := fun h Hst Eg => observe_hash_safe now swap user h s0 Hrow Hst (Hh h Eg)).
  destruct (cs_status swap) eqn:Est; [exact Hexp| |by unfold due in Hdue; rewrite Est in Hdue..|];
    (destruct (given (cs_txHash swap)) as [h|]; [|exact Hexp]); apply Hobs; auto.
Qed.

Lemma tick_safe s0 : safe tick s0.
Proof.
  unfold tick. apply (safe_bind swaps_ok advanced); [apply (safe_asking swaps_ok advanced)|]. intros now s1 _.
  apply (safe_asking_bind swaps_ok advanced). intros s Hs Hi. apply (for_each_safe swaps_ok advanced _ _ s); [reflexivity|].
  intros [r u] s2 Hin H2. apply (safe_catching swaps_ok advanced); [|done]. cbn [fst snd].
  unfold batch in Hin. apply list_elem_of_In, List.in_map_iff in Hin as (r' & [= -> <-] & Hin).
  apply list_elem_of_In, elem_of_take in Hin as (k & Hk & _). apply list_elem_of_lookup_2 in Hk. rewrite merge_sort_Permutation in Hk.
  apply list_elem_of_In, List.filter_In in Hk as [Hk Hdue]. apply list_elem_of_In, list_elem_of_fmap in Hk as ([i x] & -> & Hx).
  apply elem_of_map_to_list in Hx. apply observe_safe; [|done]. eapply of_row_mono; [by eapply in_table|done].
Qed.
End safety.
