(* ===== verification/ChainSwapPool.v ===== *)
(** Swaps on Solana and Monad in a pool of requests and ticks: the safety of what is
    broadcast and of every row, the status machine, what a create answers, and what a
    tick of the observer comes to. *)

From S2P Require Import Prelude Text Units MerchantFee Intents ChainAddress Webhooks Programs PayLinks Rlp EvmTransaction SolanaMessage SolanaAppend SolanaWire IntentService Settlement EscrowStore EscrowJobs ChainSwapStore ChainSwapVenues ChainSwapSigning ChainSwaps ChainSwapSafety.
From stdpp Require Import base tactics list option gmap strings sorting.
From Stdlib Require Import ZArith Lia Ascii.

Open Scope Z_scope.

Section pool.
Context `{CRYPTO : SolanaCrypto} `{B64 : Base64} `{SECP : Secp} `{ROUTER : RouterConfig} `{CONFIG : SwapConfig} `{DRAWS : SwapDraws}.

(** What the routes and the schedule run. *)
Inductive swap_request : swapping unit -> Prop :=
  | sq_quote caller dto : swap_request (discard (quote caller dto))
  | sq_create caller dto header : swap_request (discard (create caller dto header))
  | sq_list caller c status t k : swap_request (discard (findAll caller c status t k))
  | sq_find caller i token : swap_request (discard (findOwned caller i token false))
  | sq_submit caller i token signed : swap_request (discard (submit_route caller i token signed))
  | sq_tick : swap_request tick.

(** What else happens: time passes, the nodes and the aggregators answer otherwise,
    other parts of the server work on the webhooks and the consumers. *)
Definition swap_world (s s' : SwapWorld) : Prop :=
  chain_swaps s' = chain_swaps s /\ sw_history s' = sw_history s /\ sw_clock s <= sw_clock s'.

Definition swap_execution (l : list (swapping unit)) (s : SwapWorld) : Prop :=
  exists s0, chain_swaps s0 = ∅ /\ sw_history s0 = [] /\ star (pool_step swap_request swap_world) ([], s0) (l, s).

Lemma swap_request_safe p s0 : swap_request p -> safe swaps_ok advanced p s0.
Proof.
  intros H. destruct H; try apply (safe_discard swaps_ok advanced).
  - apply quote_safe.
  - apply (safe_bind swaps_ok advanced); [apply build_safe|done].
  - apply swap_quiet_safe. unfold findAll. quieten.
  - apply swap_quiet_safe. unfold findOwned. quieten.
  - apply submit_route_safe.
  - apply tick_safe.
Qed.

Lemma swap_world_ok s s' : swap_world s s' -> swaps_ok s -> swaps_ok s' /\ advanced s s'.
Proof.
  intros (E1 & E2 & E3) [K1 K2 K3 K4]. split; [split; rewrite ?E1, ?E2; done|]. split; rewrite ?E1, ?E2; [done| |done].
  intros i r H. by exists r.
Qed.

Lemma swap_steps_ok l0 s0 l s : swaps_ok s0 -> Forall (fun p => safe swaps_ok advanced p s0) l0 ->
  star (pool_step swap_request swap_world) (l0, s0) (l, s) ->
  Forall (fun p => safe swaps_ok advanced p s) l /\ swaps_ok s /\ advanced s0 s.
Proof.
  intros Hi Hl H. eapply (pool_safe swaps_ok advanced swap_request swap_world); try exact H; try done.
  - intros p s1 Hp _. by apply swap_request_safe.
  - intros s1 s2 Hw Hs. by apply swap_world_ok.
Qed.

Lemma swap_execution_ok l s : swap_execution l s -> Forall (fun p => safe swaps_ok advanced p s) l /\ swaps_ok s.
Proof.
  intros (s0 & E1 & E2 & H). destruct (swap_steps_ok [] s0 l s) as (K1 & K2 & _); try done.
  split; rewrite ?E1, ?E2; [by intros i r; rewrite lookup_empty..|by intros i j r r'; rewrite lookup_empty|by intros c t ?%not_elem_of_nil].
Qed.

(** C12: Only what was handed out and signed is broadcast, and a row says what the chain
    said. In any execution, for any texts, keys and answers of the nodes: every text
    given to a node is the stored transaction of a swap of that chain, signed by its
    source ([verifies]); a row with a hash had such a text of its own given to its
    chain's node under that hash; a pending row has none, a submitted one does; for a
    succeeded row a node of its chain answered about its hash that it [landed] (a
    confirmed or finalized signature without an error, a receipt of status one), and
    for a failed row that it was [reverted]; no two rows share a consumer's
    idempotency key, nor a hash on a chain. *)
Theorem chain_swaps_safe l s : swap_execution l s ->
  (forall c text, Sent c text ∈ sw_history s ->
     exists i r h, chain_swaps s !! i = Some r /\ st_chain (cs_terms r) = c /\ verifies (cs_terms r) text h)
  /\ (forall i r, chain_swaps s !! i = Some r ->
        (forall h, cs_txHash r = Some h -> exists text, Sent (st_chain (cs_terms r)) text ∈ sw_history s /\ verifies (cs_terms r) text h)
        /\ match cs_status r with
           | S_PENDING => cs_txHash r = None
           | S_SUBMITTED => cs_txHash r <> None
           | S_SUCCEEDED => exists h e, cs_txHash r = Some h /\ e ∈ sw_history s /\ landed (st_chain (cs_terms r)) h e
           | S_FAILED => exists h e, cs_txHash r = Some h /\ e ∈ sw_history s /\ reverted (st_chain (cs_terms r)) h e
           | S_EXPIRED => True
           end)
  /\ (forall i j r r', chain_swaps s !! i = Some r -> chain_swaps s !! j = Some r' ->
        (st_consumerId (cs_terms r) = st_consumerId (cs_terms r')
           /\ (exists k, st_idempotencyKey (cs_terms r) = Some k /\ st_idempotencyKey (cs_terms r') = Some k)
         \/ st_chain (cs_terms r) = st_chain (cs_terms r') /\ (exists h, cs_txHash r = Some h /\ cs_txHash r' = Some h))
        -> i = j).
Proof.
  intros [_ [_ K2 K3 K4]]%swap_execution_ok. split; [exact K4|]. split.
  - intros i r Hr. destruct (K2 _ _ Hr) as [H1 H2]. split; [exact H1|]. unfold standing, judged_as in H2. by destruct (cs_status r).
  - intros i j r r' Hr Hr' Hsame. destruct (decide (i = j)) as [|Hne]; [done|]. exfalso. destruct (K3 _ _ _ _ Hr Hr' Hne) as [N1 N2].
    destruct Hsame as [[Ec (k & E1 & E2)]|[Ec (h & E1 & E2)]].
    + unfold same_key in N1. by rewrite Ec, E1, E2, !bool_decide_eq_true_2 in N1.
    + unfold same_hash in N2. by rewrite Ec, E1, E2, !bool_decide_eq_true_2 in N2.
Qed.

(** A swap only moves forward. Between any two moments of an execution, whatever
    runs in between: no row disappears, its terms never change, a hash once stored
    stays, and its status follows the machine: from pending anywhere, from submitted
    to succeeded, failed or expired, from expired to succeeded or failed, and from
    succeeded and failed nowhere. *)
Theorem chain_swap_moves_forward l0 s0 l s i r :
  swap_execution l0 s0 -> star (pool_step swap_request swap_world) (l0, s0) (l, s) -> chain_swaps s0 !! i = Some r ->
  exists r', chain_swaps s !! i = Some r' /\ cs_terms r' = cs_terms r
    /\ (forall h, cs_txHash r = Some h -> cs_txHash r' = Some h) /\ follows (cs_status r) (cs_status r') = true.
Proof.
  intros [Hl Hi]%swap_execution_ok Hsteps Hr. destruct (swap_steps_ok _ _ _ _ Hi Hl Hsteps) as (_ & _ & [_ Hrows _]).
  destruct (Hrows _ _ Hr) as (r' & Hr' & [E1 E2 E3]). by exists r'.
Qed.

(** ** Alone *)

Lemma quiet_run {A} (p : swapping A) s : quiet p -> same_tables s (fst (run p s)).
Proof.
  revert s. induction p as [a|e|w k IH]; intros s H; [reflexivity|reflexivity|]. destruct H as [H1 H2]. cbn [run].
  etransitivity; [apply H1|by apply IH].
Qed.

Definition node_accepts (o : Outside) (c : OtherChain) (text : string) : Prop :=
  match c with Solana => o_sendTransaction o text | Monad => o_sendRawTransaction o text end = Ok tt.

Lemma broadcast_run c text s : node_accepts (outside s) c text ->
  run (ve_broadcast (venues c) text) s = (sw_log (Sent c text) s, Ok tt).
Proof.
  intros H. destruct c; cbn [venues ve_broadcast solana_venue monad_venue]; unfold solana_broadcast, monad_broadcast, handing; rewrite run_stmt; by rewrite H.
Qed.

(** A second signed transaction of a submitted swap is sent and forgotten. A wallet
    that signs the stored call again (with another nonce, or a higher fee to replace
    the first) has it verified and broadcast, and is answered its hash [h], but the
    row keeps the first hash: only that one is ever looked for, and a swap that
    settled under the second ends as expired. *)
Theorem second_hash_dropped s caller swap text h h0 :
  chain_swaps s !! st_id (cs_terms swap) = Some swap -> cs_status swap = S_SUBMITTED -> cs_txHash swap = Some h0 ->
  verifies (cs_terms swap) text h -> text <> ""%string -> node_accepts (outside s) (st_chain (cs_terms swap)) text ->
  run (submit caller swap (Some text)) s
  = (sw_log (Sent (st_chain (cs_terms swap)) text) s, Ok (mkSubmitOutcome S_SUBMITTED h swap)).
Proof.
  intros Hr Hst Hh Hv Ht Ha. unfold submit.
  assert (given (Some text) = Some text) as -> by (unfold given, truthy; by destruct text). unfold verifies in Hv. rewrite Hv, Hst.
  rewrite run_bind. cbn [run pure]. rewrite bool_decide_eq_false_2, bool_decide_eq_true_2 by done. cbn [negb andb].
  rewrite run_bind, run_asking, run_bind, broadcast_run by done. rewrite run_bind, run_stmt. unfold update_swap. cbn [sw_log chain_swaps].
  rewrite Hr, Hst, bool_decide_eq_false_2 by done. unfold find_swap. rewrite run_bind, run_bind, run_asking. cbn [sw_log chain_swaps].
  rewrite Hr. cbn [res_of_option pure run Nat.eqb]. rewrite run_bind. cbn [run]. by rewrite Hst.
Qed.

(** ** What a create answers *)

Lemma price_run caller dto s s' p : run (price caller dto) s = (s', Ok p) ->
  same_tables s s' /\ pr_chain p = sd_chain dto /\ vr_source (pr_request p) = normalized (sd_chain dto) <$> given (sd_source dto)
  /\ parseUnits (sd_amount dto) (va_decimals (vr_send (pr_request p))) = Ok (pr_amount p) /\ 0 < pr_amount p
  /\ vr_slippageBps (pr_request p) <= maxSlippageBps.
Proof.
  intros H. assert (Hq := quiet_run (price caller dto) s (price_quiet caller dto)). rewrite H in Hq. split; [exact Hq|]. clear Hq.
  unfold price in H. destruct (negb _); [done|]. rewrite run_bind in H. destruct (refuseStellarOnlyFields _ _) as [[]|]; [|done]. cbn [pure run] in H.
  destruct (_ && _); [done|]. destruct (given (sd_sourceAssetCode dto)) as [code|]; [|done]. rewrite run_bind in H.
  destruct (run _ s) as [s1 [send|]]; [|done]. rewrite run_bind in H. destruct (run _ s1) as [s2 [dest|]]; [|done].
  rewrite run_pure in H. injection H as _ H. unfold price_assets in H. destruct (throw_if _ _); [|done]. cbn [mbind res_bind] in H.
  unfold baseUnits in H. destruct (parseUnits (sd_amount dto) (va_decimals send)) as [units|] eqn:Eu; [|done].
  destruct (Z.leb_spec units 0); [done|]. cbn [mbind res_bind] in H. destruct (resolveMerchantFee _ _ _) as [m|]; [|done]. cbn [mbind res_bind] in H.
  destruct (throw_if _ _); [|done]. cbn [mbind res_bind] in H. destruct (assertMerchantFeeCovered _ _); [|done]. cbn [mbind res_bind] in H.
  unfold resolveSlippage in H. destruct (Z.ltb_spec maxSlippageBps (default defaultSlippageBps (sd_slippageBps dto))); [done|]. cbn [mbind res_bind] in H.
  destruct (resolvePlanCommissionBps _ _); [|done]. cbn [mbind res_bind] in H. destruct (commissionWithRecipient _ _ _); [|done]. injection H as <-.
  cbn. split_and!; done.
Qed.

(** [r] is a row for the request [dto]. *)
Definition answers (dto : SwapDto) (r : ChainSwap) : Prop :=
  st_chain (cs_terms r) = sd_chain dto
  /\ st_source (cs_terms r) = default ""%string (normalized (sd_chain dto) <$> given (sd_source dto))
  /\ (exists d amount, parseUnits (sd_amount dto) d = Ok amount /\ 0 < amount /\ st_sendAmount (cs_terms r) = formatUnits amount d)
  /\ st_slippageBps (cs_terms r) <= maxSlippageBps.

Lemma replay_answers e dto p r s s' caller : run (price caller dto) s = (s', Ok p) -> replay e (termsOf p) p = Ok r -> r = e /\ answers dto r.
Proof.
  intros (_ & E1 & E2 & E3 & E4 & E5)%price_run H. unfold replay in H. case_bool_decide as E; [|done]. cbn [andb] in H.
  destruct (sameMerchantFee _ _ _); [|done]. injection H as <-. split; [done|]. unfold stored_terms, termsOf in E. injection E as F1 F2 F3 F4 F5 F6.
  split; [congruence|]. split; [by rewrite F2, E2|]. split; [|by rewrite F6]. by eexists _, (pr_amount p).
Qed.

Lemma findByKey_found c k s e : snd (run (findByKey c k) s) = Ok (Some e) ->
  st_consumerId (cs_terms e) = c /\ st_idempotencyKey (cs_terms e) = Some k /\ exists i, chain_swaps s !! i = Some e.
Proof.
  unfold findByKey. rewrite run_asking. cbn [snd]. intros [= H].
  assert (Hin : e ∈ List.filter (fun r => bool_decide (st_consumerId (cs_terms r) = c) && bool_decide (st_idempotencyKey (cs_terms r) = Some k)) (map_to_list (chain_swaps s)).*2).
  { destruct (List.filter _ _); [done|]. injection H as <-. set_solver. }
  apply list_elem_of_In, List.filter_In in Hin as [Hin Hq]. apply andb_true_iff in Hq as [Q1%bool_decide_eq_true Q2%bool_decide_eq_true].
  split; [done|]. split; [done|]. apply list_elem_of_In, list_elem_of_fmap in Hin as ([i x] & -> & Hx%elem_of_map_to_list). by exists i.
Qed.

Lemma findByKey_state c k s : fst (run (findByKey c k) s) = s.
Proof. reflexivity. Qed.

Lemma resolve_run user s : exists c s', run (stmt (resolve_consumer user)) s = (s', Ok c) /\ untouched s s' /\ sw_consumers s' !! user = Some c.
Proof.
  rewrite run_stmt. unfold resolve_consumer. destruct (sw_consumers s !! user) as [c|] eqn:E; [by exists c, s|].
  eexists _, _. split; [reflexivity|]. split; [done|]. cbn. by rewrite lookup_insert_eq.
Qed.

Lemma create_run terms s s' r : run (stmt (create_swap terms)) s = (s', Ok r) ->
  let i := sw_cuid (sw_drawn s) in
  r = mkChainSwap (terms i (sw_clock s)) S_PENDING None None (sw_clock s) /\ chain_swaps s !! i = None
  /\ chain_swaps s' = <[i := r]> (chain_swaps s) /\ sw_history s' = sw_history s /\ sw_consumers s' = sw_consumers s.
Proof.
  rewrite run_stmt. unfold create_swap. cbv zeta. destruct (chain_swaps s !! _) eqn:E; [done|]. destruct (swap_violated _ _ s); [done|].
  intros [= <- <-]. done.
Qed.

Lemma emit_run user t r s : untouched s (fst (run (emit_swap user t r) s)) /\ sw_consumers (fst (run (emit_swap user t r) s)) = sw_consumers s
  /\ outside (fst (run (emit_swap user t r) s)) = outside s.
Proof. unfold emit_swap. rewrite run_stmt. by destruct (Webhooks.emit _ _ _ _ _) as [h o]. Qed.

(** [key] was used: the row of that key, and nothing changed; or the row is new. *)
Definition answered (key : option string) (s s' : SwapWorld) (r : ChainSwap) : Prop :=
  (chain_swaps s' = chain_swaps s /\ key <> None)
  \/ (chain_swaps s !! st_id (cs_terms r) = None /\ chain_swaps s' = <[st_id (cs_terms r) := r]> (chain_swaps s)
      /\ cs_status r = S_PENDING /\ cs_txHash r = None
      /\ st_expiresAt (cs_terms r) = sw_clock s + CHAIN_SWAP_TX_TTL_MS (st_chain (cs_terms r))).

(** A key that has a row answers that row. *)
Lemma replayed caller dto key p c s0 s1 s2 s' e r : swaps_ok s2 -> run (price caller dto) s0 = (s1, Ok p) -> chain_swaps s2 = chain_swaps s0 ->
  sw_history s2 = sw_history s0 -> sw_consumers s2 !! username (cl_consumer caller) = Some c ->
  match key with Some k => run (findByKey c k) s2 | None => (s2, Ok None) end = (s2, Ok (Some e)) ->
  run (pure (replay e (termsOf p) p)) s2 = (s', Ok r) ->
  answers dto r /\ sw_history s' = sw_history s0 /\ sw_consumers s' !! username (cl_consumer caller) = Some (st_consumerId (cs_terms r))
  /\ st_idempotencyKey (cs_terms r) = key /\ chain_swaps s' !! st_id (cs_terms r) = Some r /\ answered key s0 s' r.
Proof.
  intros Hok Hp Es Eh Hc Hf Hr. rewrite run_pure in Hr. injection Hr as <- Hr. destruct key as [k|]; [|done].
  destruct (replay_answers _ _ _ _ _ _ _ Hp Hr) as [-> Ha].
  destruct (findByKey_found c k s2 e) as (F1 & F2 & i & F3); [by rewrite Hf|]. split; [done|]. split; [done|]. split; [by rewrite F1|].
  split; [done|]. split; [by rewrite (so_id _ Hok _ _ F3)|]. left. by split.
Qed.

(** A create answers a swap on the terms it asked for, and one per key. When
    [create] answers a row [r]: it is in the table, under the caller's consumer and the
    request's idempotency key, on its chain, of its source, for the amount its text
    says, within the slippage allowed; nothing was broadcast; and either the key was
    used before and nothing changed, or [r] is the one row added, pending, without a
    hash, good for its chain's lifetime from now. *)
Theorem create_answers s caller dto header s' r :
  swaps_ok s -> run (build caller dto header) s = (s', Ok r) ->
  answers dto r /\ sw_history s' = sw_history s /\ sw_consumers s' !! username (cl_consumer caller) = Some (st_consumerId (cs_terms r))
  /\ st_idempotencyKey (cs_terms r) = resolveIdempotencyKey header (sd_idempotencyKey dto)
  /\ chain_swaps s' !! st_id (cs_terms r) = Some r /\ answered (resolveIdempotencyKey header (sd_idempotencyKey dto)) s s' r.
Proof.
  intros Hok H. unfold build in H. rewrite run_bind in H. destruct (run (price caller dto) s) as [s1 [p|]] eqn:Hp; [|done].
  assert (Hpf := Hp). apply price_run in Hpf as ((P1 & P2 & _ & _ & P3 & P4) & E1 & E2 & E3 & E4 & E5).
  rewrite run_bind in H. destruct (resolve_run (username (cl_consumer caller)) s1) as (c & s2 & Hc & (U1 & U2 & U3) & Hcons). rewrite Hc in H.
  cbv zeta in H. set (key := resolveIdempotencyKey _ _) in *. rewrite run_bind in H.
  assert (Hs2 : chain_swaps s2 = chain_swaps s /\ sw_history s2 = sw_history s /\ sw_clock s2 = sw_clock s) by (split_and!; congruence).
  destruct Hs2 as (V1 & V2 & V3).
  assert (Hok2 : swaps_ok s2) by (by apply (untouched_ok s s2)).
  assert (Hfind : run (match key with Some k => findByKey c k | None => Ret None end) s2
    = match key with Some k => run (findByKey c k) s2 | None => (s2, Ok None) end) by by destruct key.
  rewrite Hfind in H. destruct (match key with Some k => _ | None => _ end) as [s3 [[e|]|]] eqn:Ef; [| |by destruct key].
  { assert (s3 = s2) as -> by (destruct key; by injection Ef). eapply replayed; eauto. }
  assert (s3 = s2) as -> by (destruct key; by injection Ef). rewrite run_bind in H.
  assert (Hb := quiet_run (ve_build (venues (pr_chain p)) (pr_request p) (default ""%string (vr_source (pr_request p)))) s2
                  (vl_build _ _ (venue_laws _) _ _)).
  destruct (run (ve_build _ _ _) s2) as [s4 [b|]]; [|done]. cbn [fst] in Hb. destruct Hb as (B1 & B2 & _ & _ & B3 & B4).
  rewrite run_bind, run_asking, run_bind in H. unfold persist in H. rewrite run_catching, run_bind in H.
  destruct (run (stmt (create_swap _)) s4) as [s5 [r0|e0]] eqn:Ecr.
  - cbn [run] in H. apply create_run in Ecr. cbv zeta in Ecr. destruct Ecr as (-> & C1 & C2 & C3 & C4).
    rewrite run_bind in H. set (r0 := mkChainSwap _ _ _ _ _) in *.
    assert (He := emit_run (username (cl_consumer caller)) SWAP_CREATED r0 s5). destruct (run (emit_swap _ _ _) s5) as [s6 [o|]]; [|done].
    cbn [fst] in He. destruct He as ((D1 & D2 & D3) & D4 & _). cbn [run] in H. injection H as <- <-.
    split; [|split; [congruence|split; [by rewrite D4, C4, B1|split; [done|split]]]].
    + split; [exact E1|]. split; [cbn; by rewrite E2|]. split; [by eexists _, (pr_amount p)|exact E5].
    + rewrite D1, C2. cbn. by rewrite lookup_insert_eq.
    + right. cbn [r0 row_of cs_terms st_id cs_status cs_txHash st_expiresAt st_chain]. split; [by rewrite <- V1, <- B2|].
      split; [rewrite D1, C2, B2, V1; done|]. split; [done|]. split; [done|]. congruence.
  - destruct (_ && _) eqn:Ek; [|done]. cbn [run] in H. rewrite run_bind in H.
    assert (Hsame : s5 = s4).
    { rewrite run_stmt in Ecr. unfold create_swap in Ecr. cbv zeta in Ecr. destruct (chain_swaps s4 !! _); [by injection Ecr|].
      destruct (swap_violated _ _ s4); by injection Ecr. }
    subst s5. assert (Hfind4 : run (match key with Some k => findByKey c k | None => Ret None end) s4
      = match key with Some k => run (findByKey c k) s4 | None => (s4, Ok None) end) by by destruct key.
    rewrite Hfind4 in H. destruct (match key with Some k => _ | None => _ end) as [s6 [[e|]|]] eqn:Ef4; [|done|done].
    assert (s6 = s4) as -> by (destruct key; by injection Ef4).
    eapply (replayed caller dto key p c s s1 s4); eauto; [|congruence|congruence|by rewrite B1].
    apply (untouched_ok s2 s4); [done|done].
Qed.

(** ** What a tick comes to *)

(** What a chain's node says of a hash. *)
Definition chain_verdict (o : Outside) (c : OtherChain) (h : string) : res (option VenueSettlement) :=
  match c with
  | Solana => signature_verdict <$> o_getSignatureStatus o h
  | Monad => receipt_verdict <$> o_getReceipt o h
  end.

(** Where a tick at [now] leaves a row that is due. *)
Definition expected (now : Z) (o : Outside) (r : ChainSwap) : SwapStatus :=
  match cs_status r, given (cs_txHash r) with
  | S_PENDING, _ | _, None => S_EXPIRED
  | st, Some h =>
      match chain_verdict o (st_chain (cs_terms r)) h with
      | Ok (Some V_SUCCEEDED) => S_SUCCEEDED
      | Ok (Some V_FAILED) => S_FAILED
      | Ok None =>
          if bool_decide (st = S_SUBMITTED) && (st_expiresAt (cs_terms r) + CHAIN_SWAP_LANDING_WINDOW_MS (st_chain (cs_terms r)) <? now)
          then S_EXPIRED else st
      | Throw _ => st
      end
  end.

Lemma settlement_run c h s :
  let x := run (ve_settlement (venues c) h) s in
  snd x = chain_verdict (outside s) c h /\ chain_swaps (fst x) = chain_swaps s /\ outside (fst x) = outside s.
Proof.
  destruct c; cbn [venues ve_settlement solana_venue monad_venue]; unfold solana_settlement, monad_settlement, judged; rewrite run_stmt; cbn [chain_verdict].
  - by destruct (o_getSignatureStatus (outside s) h).
  - by destruct (o_getReceipt (outside s) h).
Qed.

Lemma update_run swap guard data s : swaps_ok s -> chain_swaps s !! st_id (cs_terms swap) = Some swap -> guard swap = true ->
  cs_terms (data (sw_clock s) swap) = cs_terms swap -> cs_txHash (data (sw_clock s) swap) = cs_txHash swap ->
  run (stmt (update_swap (st_id (cs_terms swap)) guard data)) s
  = (set_chain_swaps (fun m => <[st_id (cs_terms swap) := data (sw_clock s) swap]> m) s, Ok 1%nat).
Proof.
  intros Hok Hr Hg Et Eh. rewrite run_stmt. unfold update_swap. rewrite Hr, Hg. cbv zeta.
  assert (swap_violated (st_id (cs_terms swap)) (data (sw_clock s) swap) s = None) as ->; [|done].
  apply swap_not_violated. intros j r' Hj Hr'. unfold same_key, same_hash. rewrite Et, Eh. apply (so_unique _ Hok _ _ _ _ Hr Hr'). congruence.
Qed.

(** [swap] has moved to [st], and nothing else has. *)
Definition moved_to (st : SwapStatus) (swap : ChainSwap) (s s' : SwapWorld) : Prop :=
  outside s' = outside s /\ exists r', chain_swaps s' = <[st_id (cs_terms swap) := r']> (chain_swaps s)
    /\ cs_terms r' = cs_terms swap /\ cs_txHash r' = cs_txHash swap /\ cs_status r' = st.

Lemma settle_run swap user next s : swaps_ok s -> chain_swaps s !! st_id (cs_terms swap) = Some swap ->
  moved_to (status_of_settling next) swap s (fst (run (settle swap user next) s)).
Proof.
  intros Hok Hr. unfold settle. rewrite run_bind, (update_run swap) by (done || by apply bool_decide_eq_true_2). cbn [Nat.eqb negb].
  set (s1 := set_chain_swaps _ s). assert (M : moved_to (status_of_settling next) swap s s1) by (split; [done|]; by eexists).
  case_bool_decide; [exact M|]. unfold find_swap. rewrite run_bind, run_bind, run_asking, run_pure.
  destruct (chain_swaps s1 !! _) as [r|]; [|exact M]. cbn [res_of_option]. rewrite run_discard.
  assert (He := emit_run user (if bool_decide (next = To_SUCCEEDED) then SWAP_SUCCEEDED else SWAP_FAILED) r s1).
  destruct (run (emit_swap _ _ _) s1) as [s2 [o|e]]; cbn [fst] in *; destruct He as ((E1 & _) & _ & E2);
    (split; [by rewrite E2|]; rewrite E1; apply M).
Qed.

Lemma touch_run swap s : swaps_ok s -> chain_swaps s !! st_id (cs_terms swap) = Some swap ->
  moved_to (cs_status swap) swap s (fst (run (touch (st_id (cs_terms swap))) s)).
Proof.
  intros Hok Hr. unfold touch. rewrite run_bind, (update_run swap) by done. cbn [Nat.eqb run fst]. split; [done|]. by eexists.
Qed.

Lemma moved_from st swap s s1 s' : chain_swaps s1 = chain_swaps s -> outside s1 = outside s -> moved_to st swap s1 s' -> moved_to st swap s s'.
Proof. intros E1 E2 [M1 M2]. split; [congruence|]. by rewrite <- E1. Qed.

Lemma observe_run now swap user s : swaps_ok s -> chain_swaps s !! st_id (cs_terms swap) = Some swap ->
  moved_to (expected now (outside s) swap) swap s (fst (run (observe now swap user) s)).
Proof.
  intros Hok Hr. unfold observe, expected. assert (Hs := settle_run swap user To_EXPIRED s Hok Hr).
  destruct (given (cs_txHash swap)) as [h|]; [|by destruct (cs_status swap)].
  destruct (cs_status swap) eqn:Est; [exact Hs|..]; rewrite run_bind; destruct (settlement_run (st_chain (cs_terms swap)) h s) as (X1 & X2 & X3);
    (assert (Hok1 := proj1 (wp_run swaps_ok advanced _ _ s (settlement_ensures (st_chain (cs_terms swap)) h s) Hok)));
    destruct (run (ve_settlement _ _) s) as [s1 [[v|]|e]]; cbn [fst snd] in *; rewrite <- X1; rewrite <- X2 in Hr;
    (apply (moved_from _ _ s s1); [done|done|]).
  all: try (destruct v; [apply (settle_run swap user To_SUCCEEDED s1)|apply (settle_run swap user To_FAILED s1)]; done).
  all: try (split; [done|]; exists swap; rewrite insert_id by done; split_and!; done).
  all: destruct (_ && _); [by apply (settle_run swap user To_EXPIRED s1)|rewrite <- Est; by apply touch_run].
Qed.

(** A list of rows, observed one after another. *)
Definition ids_of (rows : list (ChainSwap * string)) : list string := List.map (fun x => st_id (cs_terms (fst x))) rows.

Lemma observe_all now rows s : swaps_ok s -> NoDup (ids_of rows) ->
  (forall r u, (r, u) ∈ rows -> chain_swaps s !! st_id (cs_terms r) = Some r /\ due now r = true) ->
  let x := run (for_each rows (fun x => catching (observe now (fst x) (snd x)) (fun _ => Ret tt))) s in
  snd x = Ok tt /\ forall i r, chain_swaps s !! i = Some r -> exists r', chain_swaps (fst x) !! i = Some r'
    /\ cs_terms r' = cs_terms r /\ cs_txHash r' = cs_txHash r
    /\ cs_status r' = if bool_decide (i ∈ ids_of rows) then expected now (outside s) r else cs_status r.
Proof.
  revert s. induction rows as [|[r0 u] rows IH]; intros s Hok Hnd Hrows; cbv zeta.
  { split; [done|]. intros i r Hr. exists r. by rewrite bool_decide_eq_false_2 by apply not_elem_of_nil. }
  cbn [for_each]. change (prog_bind ?f ?p) with (p ≫= f). rewrite run_bind. unfold ids_of in Hnd. cbn [List.map fst] in Hnd. apply NoDup_cons in Hnd as [Hn Hnd].
  destruct (Hrows r0 u ltac:(by left)) as [Hr0 Hd0]. cbn [fst snd].
  assert (Hm := observe_run now r0 u s Hok Hr0).
  assert (Hsafe := wp_run swaps_ok advanced (catching (observe now r0 u) (fun _ => Ret tt)) (fun _ _ => True) s
    ltac:(apply (safe_catching swaps_ok advanced); [apply observe_safe; [by eexists|done]|done]) Hok).
  assert (Hrun : run (catching (observe now r0 u) (fun _ => Ret tt)) s = (fst (run (observe now r0 u) s), Ok tt)).
  { rewrite run_catching. by destruct (run (observe now r0 u) s) as [s1 [[]|e]]. }
  rewrite Hrun in *. cbn [fst] in Hsafe. destruct Hsafe as [Hok1 _]. set (s1 := fst (run (observe now r0 u) s)) in *.
  destruct Hm as [Ho (r1 & Ec & Et & Eh & Es)].
  assert (Hkeep : forall i r, chain_swaps s !! i = Some r -> i <> st_id (cs_terms r0) -> chain_swaps s1 !! i = Some r)
    by (intros i r Hr Hi; rewrite Ec, lookup_insert_ne by done; done).
  destruct (IH s1 Hok1 Hnd) as [R1 R2].
  { intros r u' Hin. destruct (Hrows r u' ltac:(by right)) as [H1 H2]. split; [|done]. apply Hkeep; [done|].
    intros E. apply Hn. rewrite <- E. apply list_elem_of_In, List.in_map_iff. exists (r, u'). split; [done|by apply list_elem_of_In]. }
  split; [exact R1|]. intros i r Hr. rewrite Ho in R2. destruct (decide (i = st_id (cs_terms r0))) as [->|Hi].
  - rewrite Hr0 in Hr. injection Hr as <-. destruct (R2 (st_id (cs_terms r0)) r1) as (r' & K1 & K2 & K3 & K4); [by rewrite Ec, lookup_insert_eq|].
    exists r'. split; [done|]. split; [congruence|]. split; [congruence|]. rewrite K4.
    rewrite (bool_decide_eq_true_2 (_ ∈ ids_of ((r0, u) :: rows))) by (cbn; by left). by rewrite bool_decide_eq_false_2.
  - destruct (R2 i r (Hkeep _ _ Hr Hi)) as (r' & K1 & K2 & K3 & K4). exists r'. split; [done|]. split; [done|]. split; [done|]. rewrite K4.
    assert (bool_decide (i ∈ ids_of rows) = bool_decide (i ∈ ids_of ((r0, u) :: rows))) as ->; [|done].
    apply bool_decide_ext. unfold ids_of. cbn [List.map fst]. rewrite elem_of_cons. split; [by right|]. by intros [?|H].
Qed.

Lemma filter_NoDup_ids (q : ChainSwap -> bool) s : swaps_ok s ->
  NoDup (List.map (fun r => st_id (cs_terms r)) (List.filter q (map_to_list (chain_swaps s)).*2)).
Proof.
  intros Hok. assert (H : NoDup ((map_to_list (chain_swaps s)).*1)) by apply NoDup_fst_map_to_list.
  assert (E : (map_to_list (chain_swaps s)).*1 = List.map (fun r => st_id (cs_terms r)) (map_to_list (chain_swaps s)).*2).
  { change (List.map ?f ?l) with (f <$> l). rewrite <- list_fmap_compose. apply list_fmap_ext. intros k [i r] Hk%list_elem_of_lookup_2%elem_of_map_to_list.
    cbn. by rewrite (so_id _ Hok _ _ Hk). }
  rewrite E in H. clear E. induction (map_to_list (chain_swaps s)).*2 as [|r l IH]; [constructor|]. cbn [List.map List.filter] in *.
  apply NoDup_cons in H as [Hn H]. destruct (q r); [|by apply IH]. cbn [List.map]. apply NoDup_cons. split; [|by apply IH].
  intros Hin. apply Hn. apply list_elem_of_In, List.in_map_iff in Hin as (r' & E & Hin). apply List.filter_In in Hin as [Hin _].
  apply list_elem_of_In, List.in_map_iff. by exists r'.
Qed.

Lemma tick_run s :
  swaps_ok s -> (length (List.filter (due (sw_clock s)) (map_to_list (chain_swaps s)).*2) <= CHAIN_SWAP_OBSERVER_BATCH)%nat ->
  snd (run tick s) = Ok tt
  /\ forall i r, chain_swaps s !! i = Some r -> exists r', chain_swaps (fst (run tick s)) !! i = Some r'
       /\ cs_terms r' = cs_terms r /\ cs_txHash r' = cs_txHash r
       /\ cs_status r' = if due (sw_clock s) r then expected (sw_clock s) (outside s) r else cs_status r.
Proof.
  intros Hok Hle. unfold tick. rewrite run_bind, run_asking, run_bind, run_asking. unfold batch.
  rewrite take_ge by (rewrite merge_sort_Permutation; exact Hle). set (l := merge_sort _ _). set (rows := List.map _ l).
  assert (Hl : l ≡ₚ List.filter (due (sw_clock s)) (map_to_list (chain_swaps s)).*2) by apply merge_sort_Permutation.
  assert (Hin : forall r, r ∈ l <-> exists i, chain_swaps s !! i = Some r /\ due (sw_clock s) r = true).
  { intros r. rewrite Hl, list_elem_of_In, List.filter_In, <- list_elem_of_In, list_elem_of_fmap. split.
    - intros [([i x] & -> & Hx%elem_of_map_to_list) Hd]. by exists i.
    - intros (i & Hi & Hd). split; [|done]. exists (i, r). split; [done|by apply elem_of_map_to_list]. }
  assert (Hfst : List.map fst rows = l) by (unfold rows; rewrite List.map_map; apply List.map_id).
  assert (Hids : ids_of rows = (fun r => st_id (cs_terms r)) <$> l) by (unfold ids_of, rows; by rewrite List.map_map).
  destruct (observe_all (sw_clock s) rows s Hok) as [R1 R2].
  - rewrite Hids, Hl. by apply filter_NoDup_ids.
  - intros r u Hr. assert (Hrl : r ∈ l) by (rewrite <- Hfst; apply list_elem_of_In, List.in_map_iff; exists (r, u); split; [done|by apply list_elem_of_In]).
    apply Hin in Hrl as (i & Hi & Hd). split; [|done]. by rewrite (so_id _ Hok _ _ Hi).
  - split; [exact R1|]. intros i r Hr. destruct (R2 i r Hr) as (r' & K1 & K2 & K3 & K4). exists r'. split; [done|]. split; [done|]. split; [done|].
    rewrite K4, Hids. destruct (due (sw_clock s) r) eqn:Ed.
    + rewrite bool_decide_eq_true_2; [done|]. apply list_elem_of_fmap. exists r. split; [by rewrite (so_id _ Hok _ _ Hr)|]. apply Hin. by exists i.
    + rewrite bool_decide_eq_false_2; [done|]. intros (r1 & E1 & (j & Hj & Hd)%Hin)%list_elem_of_fmap.
      rewrite (so_id _ Hok _ _ Hj) in E1. subst j. congruence.
Qed.

(** *** What a tick owes each swap, stated on its own *)

(** It is the observer's turn to look at a swap: its deadline passed unsigned, it
    was sent, or it expired with a hash less than a day ago. *)
Definition awaits (now : Z) (r : ChainSwap) : Prop :=
  match cs_status r with
  | S_PENDING => st_expiresAt (cs_terms r) <= now
  | S_SUBMITTED => True
  | S_EXPIRED => is_Some (cs_txHash r) /\ now - 86400000 <= st_expiresAt (cs_terms r)
  | S_SUCCEEDED | S_FAILED => False
  end.
#[export] Instance awaits_dec now r : Decision (awaits now r).
Proof. unfold awaits. destruct (cs_status r); apply _. Defined.

(** What the node of a chain answers about a hash now. *)
Definition node_answers (o : Outside) (c : OtherChain) (h : string) : res SwapEvent :=
  match c with
  | Solana => SignatureSeen h <$> o_getSignatureStatus o h
  | Monad => ReceiptSeen h <$> o_getReceipt o h
  end.

(** A sent transaction has three minutes on Solana, thirty on Monad, after its
    swap's deadline to be seen. *)
Definition overdue (now : Z) (r : ChainSwap) : Prop :=
  cs_status r = S_SUBMITTED
  /\ st_expiresAt (cs_terms r) + match st_chain (cs_terms r) with Solana => 180000 | Monad => 1800000 end < now.

Definition looked_for (now : Z) (r : ChainSwap) (h : string) : Prop :=
  awaits now r /\ cs_status r <> S_PENDING /\ cs_txHash r = Some h /\ h <> ""%string.

(** Where a tick leaves a swap. *)
Inductive ends_as (now : Z) (o : Outside) (r : ChainSwap) : SwapStatus -> Prop :=
  | ends_idle : ~ awaits now r -> ends_as now o r (cs_status r)
  | ends_unsigned : awaits now r -> cs_status r = S_PENDING -> ends_as now o r S_EXPIRED
  | ends_hashless : awaits now r -> cs_txHash r = None \/ cs_txHash r = Some ""%string -> ends_as now o r S_EXPIRED
  | ends_landed h e : looked_for now r h -> node_answers o (st_chain (cs_terms r)) h = Ok e ->
      landed (st_chain (cs_terms r)) h e -> ends_as now o r S_SUCCEEDED
  | ends_reverted h e : looked_for now r h -> node_answers o (st_chain (cs_terms r)) h = Ok e ->
      reverted (st_chain (cs_terms r)) h e -> ends_as now o r S_FAILED
  | ends_unanswered h x : looked_for now r h -> node_answers o (st_chain (cs_terms r)) h = Throw x -> ends_as now o r (cs_status r)
  | ends_unseen h e : looked_for now r h -> node_answers o (st_chain (cs_terms r)) h = Ok e ->
      ~ landed (st_chain (cs_terms r)) h e -> ~ reverted (st_chain (cs_terms r)) h e ->
      ends_as now o r (if decide (overdue now r) then S_EXPIRED else cs_status r).

Lemma due_awaits now r : due now r = true <-> awaits now r.
Proof.
  unfold due, awaits, CHAIN_SWAP_RESCUE_WINDOW_MS. destruct (cs_status r); try done.
  - apply Z.leb_le.
  - rewrite andb_true_iff, Z.leb_le. destruct (cs_txHash r) as [h|]; [by split; intros [_ ?]|]. split; [by intros [? _]|by intros [[? ?] _]].
Qed.

Lemma verdict_shown o c h v :
  chain_verdict o c h = Ok v <-> exists e, node_answers o c h = Ok e
    /\ match v with
       | Some V_SUCCEEDED => landed c h e
       | Some V_FAILED => reverted c h e
       | None => ~ landed c h e /\ ~ reverted c h e
       end.
Proof.
  destruct c; cbn [chain_verdict node_answers].
  - destruct (o_getSignatureStatus o h) as [a|x]; [|split; [done|by intros (? & ? & _)]]. split.
    + intros [= <-]. eexists. split; [reflexivity|]. destruct (signature_verdict a) as [x|] eqn:Ev.
      * apply (signature_shows h) in Ev. by destruct x.
      * destruct a as [st|]; [|by split; [intros (? & [=] & _)|intros (? & [=] & _)]]. cbn in Ev.
        destruct (ss_err st) eqn:Ee; [done|]. destruct (_ || _) eqn:Ec; [done|]. apply orb_false_iff in Ec as [E1%bool_decide_eq_false E2%bool_decide_eq_false].
        split; [intros (? & [= <-] & _ & [?|?]); done|intros (? & [= <-] & ?); congruence].
    + intros (e & [= <-] & He). cbn. f_equal. destruct v as [[|]|].
      * destruct He as (st & [= ->] & He & Hc). cbn. rewrite He. by destruct Hc as [-> | ->].
      * destruct He as (st & [= ->] & He). cbn. by rewrite He.
      * destruct a as [st|]; [|done]. cbn. destruct He as [Hl Hr]. destruct (ss_err st) eqn:Ee; [by destruct Hr; exists st|].
        destruct (_ || _) eqn:Ec; [|done]. destruct Hl. exists st. split; [done|]. split; [done|].
        apply orb_true_iff in Ec as [E|E]; apply bool_decide_eq_true in E; auto.
  - destruct (o_getReceipt o h) as [a|x]; [|split; [done|by intros (? & ? & _)]]. split.
    + intros [= <-]. eexists. split; [reflexivity|]. destruct (receipt_verdict a) as [x|] eqn:Ev.
      * apply (receipt_shows h) in Ev. by destruct x.
      * destruct a as [st|]; [done|]. by split; [intros [=]|intros (? & [=] & _)].
    + intros (e & [= <-] & He). cbn. f_equal. destruct v as [[|]|].
      * injection He as ->. done.
      * destruct He as (st & [= ->] & He). cbn. by destruct (String.eqb_spec st "0x1").
      * destruct a as [st|]; [|done]. destruct He as [Hl Hr]. destruct (decide (st = "0x1"%string)) as [->|Hne]; [done|].
        by destruct Hr; exists st.
Qed.

Lemma expected_ends now o r : ends_as now o r (if due now r then expected now o r else cs_status r).
Proof.
  destruct (due now r) eqn:Ed.
  2: { apply ends_idle. intros H%due_awaits. congruence. }
  apply due_awaits in Ed. unfold expected.
  assert (Hblank : given (cs_txHash r) = None -> cs_txHash r = None \/ cs_txHash r = Some ""%string).
  { unfold given. destruct (cs_txHash r) as [[|a k]|]; cbn; auto. }
  assert (Hgiven : forall h, given (cs_txHash r) = Some h -> cs_txHash r = Some h /\ h <> ""%string).
  { unfold given. destruct (cs_txHash r) as [[|a k]|]; cbn; try done. intros h [= <-]. done. }
  destruct (decide (cs_status r = S_PENDING)) as [Ep|Ep]; [rewrite Ep; by apply ends_unsigned|].
  destruct (given (cs_txHash r)) as [h|] eqn:Eg.
  2: { destruct (cs_status r); by apply ends_hashless, Hblank. }
  destruct (Hgiven h eq_refl) as [Eh Hne]. assert (Hl : looked_for now r h) by by split.
  assert (ends_as now o r (match chain_verdict o (st_chain (cs_terms r)) h with
      | Ok (Some V_SUCCEEDED) => S_SUCCEEDED
      | Ok (Some V_FAILED) => S_FAILED
      | Ok None =>
          if bool_decide (cs_status r = S_SUBMITTED) && (st_expiresAt (cs_terms r) + CHAIN_SWAP_LANDING_WINDOW_MS (st_chain (cs_terms r)) <? now)
          then S_EXPIRED else cs_status r
      | Throw _ => cs_status r
      end)) as H; [|by destruct (cs_status r)].
  destruct (chain_verdict _ _ _) as [v|x] eqn:Ev.
  - apply verdict_shown in Ev as (e & Ea & He). destruct v as [[|]|]; [by eapply ends_landed|by eapply ends_reverted|].
    destruct He as [H1 H2]. assert (bool_decide (cs_status r = S_SUBMITTED) && (st_expiresAt (cs_terms r) + CHAIN_SWAP_LANDING_WINDOW_MS (st_chain (cs_terms r)) <? now)
      = bool_decide (overdue now r)) as ->.
    { apply eq_true_iff_eq. rewrite andb_true_iff, !bool_decide_eq_true, Z.ltb_lt. unfold overdue. by destruct (st_chain (cs_terms r)). }
    pose proof (ends_unseen now o r h e Hl Ea H1 H2) as H. case_bool_decide; case_decide; done.
  - eapply (ends_unanswered now o r h x Hl). destruct (st_chain (cs_terms r)); cbn in *.
    + destruct (o_getSignatureStatus o h); [done|]. injection Ev as ->. done.
    + destruct (o_getReceipt o h); [done|]. injection Ev as ->. done.
Qed.

Lemma filter_due now (l : list ChainSwap) : List.filter (due now) l = base.filter (awaits now) l.
Proof.
  induction l as [|r l IH]; [done|]. cbn [List.filter]. rewrite filter_cons, IH. destruct (decide (awaits now r)) as [H|H].
  - by rewrite (proj2 (due_awaits now r) H).
  - destruct (due now r) eqn:E; [by apply due_awaits in E|done].
Qed.

(** C13: A tick settles every swap it looks at. In any reachable state with at most
    fifty swaps awaiting the observer, one tick, alone, ends normally and leaves
    every row where [ends_as] says: unsigned past its deadline expired; sent, or
    expired with a hash less than a day ago, succeeded or failed as the chain's node
    answers about the hash; sent and unseen past the landing window expired; a row
    whose node failed where it was, however the others fare; terms and hashes stay,
    and any other row is as it was. *)
Theorem tick_settles l s :
  swap_execution l s -> (length (base.filter (awaits (sw_clock s)) (map_to_list (chain_swaps s)).*2) <= 50)%nat ->
  snd (run tick s) = Ok tt
  /\ forall i r, chain_swaps s !! i = Some r -> exists r', chain_swaps (fst (run tick s)) !! i = Some r'
       /\ cs_terms r' = cs_terms r /\ cs_txHash r' = cs_txHash r
       /\ ends_as (sw_clock s) (outside s) r (cs_status r').
Proof.
  intros [_ Hok]%swap_execution_ok Hle. assert (Hrun := tick_run s Hok). rewrite filter_due in Hrun. destruct (Hrun Hle) as [H1 H2].
  split; [exact H1|]. intros i r Hr. destruct (H2 i r Hr) as (r' & K1 & K2 & K3 & K4). exists r'. split; [exact K1|]. split; [exact K2|].
  split; [exact K3|]. rewrite K4. apply expected_ends.
Qed.
End pool.

(** ** A swap of MON, built, signed, submitted and settled *)

#[local] Existing Instance sample_secp.
#[local] Existing Instance sample_solana.
#[local] Existing Instance sample_base64.
#[local] Existing Instance sample_router.

#[local] Instance sample_swap_config : SwapConfig := {|
  swap_env := mkEnv (fun n => nat_toString (Z.of_nat n)) "testnet" 0 "" None (fun _ => false) (fun s => s) (fun a _ => a) (fun _ => Throw JsError);
  defaultSlippageBps := 50;
  maxSlippageBps := 500;
  commission := mkCommissionConfig "test" "" 0 false;
  swapFeeWallet _ := "";
  publicConsumer := "public";
  requiredOnLegacy := true;
  record_mac s := s
|}.
#[local] Instance sample_draws : SwapDraws := {|
  sw_cuid n := ("c" +:+ nat_toString (Z.of_nat n))%string;
  sw_draw n := mkDraw ("e" +:+ nat_toString (Z.of_nat n)) (fun k => "d" +:+ nat_toString (Z.of_nat k)) 0 "now";
  sw_iso _ := "now"
|}%string.

Definition sample_router_address : string := ("0x" +:+ zeros 38 +:+ "ab")%string.
Definition sample_outside : Outside := {|
  o_erc20Decimals _ := Ok (Some 6%nat);
  o_erc20Allowance _ _ _ := Ok 0;
  o_ethCall _ _ := Throw JsError;
  o_getCode _ := Throw JsError;
  o_sendRawTransaction _ := Ok tt;
  o_getReceipt _ := Ok (Some "0x1"%string);
  o_kuru _ := Ok (mkKuruAnswer (Some "success") (Some "2000000") (Some "1900000") (Some sample_router_address) "0x6f3cff" (Some "1000"))%string;
  o_getMintDecimals _ := Ok None;
  o_getAccountOwner _ := Ok None;
  o_getAddressLookupTable _ := Ok None;
  o_sendTransaction _ := Ok tt;
  o_getSignatureStatus _ := Ok None;
  o_jupiterQuote _ := Throw JsError;
  o_jupiterSwap _ _ _ := Throw JsError
|}.
Definition sample_swap_start : SwapWorld := mkSwapWorld ∅ ∅ (mkHooks [] [] [] []) sample_outside None [] 1000 0.

Definition sample_caller : Caller := mkCaller (mkConsumer "shop" (Some "prod"%string)) false (Some 0).
Definition sample_swap_dto : SwapDto :=
  mkSwapDto Monad (Some "MON") None "0.000000000000001" ("0x" +:+ zeros 38 +:+ "cd") None None None (Some sample_wallet) None None (Some "k1")%string.

(** Two transactions of the wallet that make the call, one with a later nonce. *)
Definition swap_tx (nonce : Z) : Eip1559Transaction :=
  mkEip1559 143 nonce 2000000000 100000000000 400000 sample_router_address 1000 "0x6f3cff".
Definition swap_raw (nonce : Z) : string := match signEip1559 (swap_tx nonce) sample_secret with Some st => st_raw st | None => "" end.

Definition swap_sample_requests : list (swapping unit) :=
  [discard (create sample_caller sample_swap_dto None); discard (submit_route sample_caller "c1" None (Some (swap_raw 7)))]%string.
Definition swap_submitted : SwapWorld := run_all swap_sample_requests sample_swap_start.
Definition swap_settled : SwapWorld := run_all [tick] swap_submitted.

Lemma swap_submitted_execution : exists l, swap_execution l swap_submitted.
Proof.
  destruct (pool_run_all swap_request swap_world swap_sample_requests [] sample_swap_start) as [l Hl].
  { apply Forall_cons; split; [apply sq_create|]. apply Forall_cons; split; [apply sq_submit|constructor]. }
  exists l, sample_swap_start. split; [reflexivity|]. split; [reflexivity|exact Hl].
Qed.

Lemma swap_settled_steps l : exists l', star (pool_step swap_request swap_world) (l, swap_submitted) (l', swap_settled).
Proof. apply pool_run_all. apply Forall_cons; split; [apply sq_tick|constructor]. Qed.

Lemma swap_submitted_row : exists r h h', chain_swaps swap_submitted !! "c1"%string = Some r /\ st_id (cs_terms r) = "c1"%string
  /\ cs_status r = S_SUBMITTED /\ cs_txHash r = Some h /\ st_chain (cs_terms r) = Monad
  /\ verifies (cs_terms r) (swap_raw 8) h' /\ bool_decide (h' = h) = false.
Proof. eexists _, _, _. do 6 (split; [vm_compute; reflexivity|]). vm_compute. reflexivity. Qed.

Lemma chain_swaps_safe_witness : exists l r h text,
  swap_execution l swap_submitted /\ chain_swaps swap_submitted !! "c1"%string = Some r /\ cs_txHash r = Some h
  /\ Sent (st_chain (cs_terms r)) text ∈ sw_history swap_submitted /\ verifies (cs_terms r) text h.
Proof.
  destruct swap_submitted_execution as [l Hl]. destruct swap_submitted_row as (r & h & _ & Hr & _ & _ & Hh & _).
  revert Hl Hr. generalize swap_submitted. intros s Hl Hr.
  destruct (chain_swaps_safe l s Hl) as (_ & H & _). destruct (proj1 (H _ _ Hr) _ Hh) as (text & H1 & H2).
  exists l, r, h, text. exact (conj Hl (conj Hr (conj Hh (conj H1 H2)))).
Defined.

Lemma chain_swap_moves_forward_witness : exists r r',
  chain_swaps swap_submitted !! "c1"%string = Some r /\ chain_swaps swap_settled !! "c1"%string = Some r' /\ cs_txHash r' = cs_txHash r.
Proof.
  destruct swap_submitted_execution as [l Hl]. destruct (swap_settled_steps l) as [l' Hl'].
  destruct swap_submitted_row as (r & h & _ & Hr & _ & _ & Hh & _). exists r. revert Hl Hl' Hr. generalize swap_submitted swap_settled.
  intros s s' Hl Hl' Hr. destruct (chain_swap_moves_forward l s l' s' _ r Hl Hl' Hr) as (r' & K1 & _ & K2 & _).
  exists r'. split; [exact Hr|]. split; [exact K1|]. rewrite Hh. exact (K2 _ Hh).
Defined.

Lemma second_hash_dropped_witness : exists r h h', chain_swaps swap_submitted !! "c1"%string = Some r /\ cs_txHash r = Some h /\ h' <> h
  /\ run (submit sample_caller r (Some (swap_raw 8))) swap_submitted
     = (sw_log (Sent Monad (swap_raw 8)) swap_submitted, Ok (mkSubmitOutcome S_SUBMITTED h' r)).
Proof.
  destruct swap_submitted_row as (r & h & h' & Hr & Hid & Hst & Hh & Hc & Hv & Hne). apply bool_decide_eq_false in Hne. exists r, h, h'.
  split; [exact Hr|]. split; [exact Hh|]. split; [exact Hne|]. rewrite <- Hc.
  assert (Ht : bool_decide (swap_raw 8 = ""%string) = false) by (vm_compute; reflexivity). apply bool_decide_eq_false in Ht.
  assert (Ho : node_accepts (outside swap_submitted) Monad (swap_raw 8)) by (vm_compute; reflexivity). rewrite <- Hc in Ho. rewrite <- Hid in Hr.
  revert Hr Hv Ht Ho. generalize swap_submitted (swap_raw 8). intros s text Hr Hv Ht Ho.
  exact (second_hash_dropped s sample_caller r text h' h Hr Hst Hh Hv Ht Ho).
Defined.

Lemma sample_start_ok : swaps_ok sample_swap_start.
Proof. by apply (swap_execution_ok []); exists sample_swap_start; split; [|split; [|apply star_refl]]. Qed.

Lemma create_answers_witness : exists s' r,
  run (build sample_caller sample_swap_dto None) sample_swap_start = (s', Ok r)
  /\ chain_swaps s' = {[st_id (cs_terms r) := r]} /\ st_idempotencyKey (cs_terms r) = Some "k1"%string.
Proof.
  destruct (run (build sample_caller sample_swap_dto None) sample_swap_start) as [s' [r|e]] eqn:E; [|by vm_compute in E].
  destruct (create_answers sample_swap_start sample_caller sample_swap_dto None s' r sample_start_ok E) as (_ & _ & _ & Hk & Hr & Ha).
  exists s', r. split; [reflexivity|]. split; [|exact Hk]. destruct Ha as [[Ha _]|(_ & Ha & _)]; [|exact Ha].
  rewrite Ha in Hr. discriminate Hr.
Defined.

Lemma tick_settles_witness : exists r r',
  chain_swaps swap_submitted !! "c1"%string = Some r /\ chain_swaps (fst (run tick swap_submitted)) !! "c1"%string = Some r'
  /\ ends_as (sw_clock swap_submitted) (outside swap_submitted) r (cs_status r') /\ cs_status r' = S_SUCCEEDED.
Proof.
  destruct swap_submitted_execution as [l Hl].
  assert (Hlen : (length (base.filter (awaits (sw_clock swap_submitted)) (map_to_list (chain_swaps swap_submitted)).*2) <= 50)%nat)
    by (apply Nat.leb_le; vm_compute; reflexivity).
  assert (Hst : cs_status <$> chain_swaps (fst (run tick swap_submitted)) !! "c1"%string = Some S_SUCCEEDED) by (vm_compute; reflexivity).
  destruct swap_submitted_row as (r & _ & _ & Hr & _). exists r. revert Hl Hlen Hst Hr. generalize swap_submitted.
  intros s Hl Hlen Hst Hr. destruct (tick_settles l s Hl Hlen) as [_ H]. destruct (H _ _ Hr) as (r' & K1 & _ & _ & K2).
  exists r'. split; [exact Hr|]. split; [exact K1|]. split; [exact K2|]. rewrite K1 in Hst. injection Hst as Hst. exact Hst.
Defined.
