(* ===== verification/Regex.v ===== *)
(** Regular expressions as the server's patterns use them, anchored at both ends:
    what a text must be ([in_lang]), a matcher by derivatives ([matches]) that decides
    it, and closure of a pattern under lower case. *)

From S2P Require Import Prelude Text.
From stdpp Require Import base tactics list option strings.
From Stdlib Require Import ZArith Lia Ascii.

Open Scope Z_scope.

Inductive regex :=
  | RNone
  | REps
  | RChar (p : ascii -> bool)
  | RCat (r s : regex)
  | RAlt (r s : regex)
  | RStar (r : regex).

Inductive in_lang : regex -> string -> Prop :=
  | L_eps : in_lang REps ""
  | L_char p a : p a = true -> in_lang (RChar p) (String a "")
  | L_cat r s x y : in_lang r x -> in_lang s y -> in_lang (RCat r s) (x +:+ y)
  | L_left r s x : in_lang r x -> in_lang (RAlt r s) x
  | L_right r s x : in_lang s x -> in_lang (RAlt r s) x
  | L_stop r : in_lang (RStar r) ""
  | L_more r x y : in_lang r x -> in_lang (RStar r) y -> in_lang (RStar r) (x +:+ y).

(** ** Patterns *)

Fixpoint lit (s : string) : regex :=
  match s with "" => REps | String a r => RCat (RChar (Ascii.eqb a)) (lit r) end%string.
Definition opt (r : regex) : regex := RAlt REps r.
Definition many (r : regex) : regex := RCat r (RStar r).
(** [r{n}], [r{0,n}] and [r{n,m}] *)
Fixpoint times (n : nat) (r : regex) : regex := match n with O => REps | S n => RCat r (times n r) end.
Fixpoint upto (n : nat) (r : regex) : regex := match n with O => REps | S n => opt (RCat r (upto n r)) end.
Definition repeats (n m : nat) (r : regex) : regex := RCat (times n r) (upto (m - n) r).

(** ** The matcher *)

Fixpoint nullable (r : regex) : bool :=
  match r with
  | RNone | RChar _ => false
  | REps | RStar _ => true
  | RCat r s => nullable r && nullable s
  | RAlt r s => nullable r || nullable s
  end.

Definition cat (r s : regex) : regex :=
  match r, s with RNone, _ | _, RNone => RNone | REps, _ => s | _, _ => RCat r s end.
Definition alt (r s : regex) : regex :=
  match r, s with RNone, _ => s | _, RNone => r | _, _ => RAlt r s end.

Fixpoint deriv (a : ascii) (r : regex) : regex :=
  match r with
  | RNone | REps => RNone
  | RChar p => if p a then REps else RNone
  | RCat r s => if nullable r then alt (cat (deriv a r) s) (deriv a s) else cat (deriv a r) s
  | RAlt r s => alt (deriv a r) (deriv a s)
  | RStar r => cat (deriv a r) (RStar r)
  end.

Fixpoint matches (r : regex) (s : string) : bool :=
  match s with "" => nullable r | String a s => matches (deriv a r) s end%string.

(** ** The matcher decides *)

Lemma lang_cat r s x : in_lang (cat r s) x <-> in_lang (RCat r s) x.
Proof.
  destruct r, s; cbn [cat]; try done; split; intros H; try by inversion H; subst; match goal with K : in_lang RNone _ |- _ => inversion K end.
  all: first [change x with ("" +:+ x)%string; by apply L_cat; [constructor|]
             |inversion H as [| |? ? y z Hy Hz| | | |]; subst; inversion Hy; subst; exact Hz].
Qed.

Lemma lang_alt r s x : in_lang (alt r s) x <-> in_lang (RAlt r s) x.
Proof.
  destruct r, s; cbn [alt]; try done; split; intros H;
    first [by apply L_right|by apply L_left|inversion H; subst; first [done|match goal with K : in_lang RNone _ |- _ => inversion K end]].
Qed.

Lemma nullable_spec r : nullable r = true <-> in_lang r "".
Proof.
  assert (Hnil : forall x y, (x +:+ y)%string = ""%string -> x = ""%string /\ y = ""%string) by (by intros [] []).
  induction r as [| |p|r IHr s IHs|r IHr s IHs|r IH]; cbn [nullable].
  - split; [done|intros H; inversion H].
  - split; [constructor|done].
  - split; [done|intros H; inversion H].
  - rewrite andb_true_iff, IHr, IHs. split; [intros [H1 H2]; by apply (L_cat r s "" "")|]. intros H.
    inversion H as [| |? ? x y Hx Hy E1 E2| | | |]; subst. by destruct (Hnil _ _ E2) as [-> ->].
  - rewrite orb_true_iff, IHr, IHs. split; [intros [H|H]; by constructor|]. intros H; inversion H; subst; auto.
  - split; [intros _; constructor|done].
Qed.

(** A nonempty text of a star starts with a nonempty repetition. *)
Lemma star_head r a s : in_lang (RStar r) (String a s) -> exists x y, s = (x +:+ y)%string /\ in_lang r (String a x) /\ in_lang (RStar r) y.
Proof.
  remember (RStar r) as q eqn:Eq. remember (String a s) as t eqn:Et. intros H. revert r a s Eq Et.
  induction H as [| | | | | |r x y Hx _ Hy IH]; intros r0 b t Eq Et; try done. injection Eq as <-. destruct x as [|c x].
  - by apply IH.
  - cbn in Et. injection Et as -> <-. by exists x, y.
Qed.

Lemma deriv_spec r a s : in_lang (deriv a r) s <-> in_lang r (String a s).
Proof.
  assert (Hcons : forall x y, (String a x +:+ y)%string = String a (x +:+ y)) by done.
  revert s. induction r as [| |p|r IHr t IHt|r IHr t IHt|r IH]; intros s; cbn [deriv].
  1,2: split; intros H; inversion H.
  - destruct (p a) eqn:E; (split; intros H; inversion H; subst); [by constructor|constructor|congruence].
  - assert (Hc : forall s, in_lang (cat (deriv a r) t) s <-> exists x y, s = (x +:+ y)%string /\ in_lang r (String a x) /\ in_lang t y).
    { intros s'. rewrite lang_cat. split.
      - intros H. inversion H as [| |? ? x y Hx Hy| | | |]; subst. exists x, y. by rewrite <- IHr.
      - intros (x & y & -> & Hx & Hy). apply L_cat; [by apply IHr|done]. }
    assert (Hr : in_lang (RCat r t) (String a s) <->
                 (exists x y, s = (x +:+ y)%string /\ in_lang r (String a x) /\ in_lang t y) \/ in_lang r "" /\ in_lang t (String a s)).
    { split.
      - intros H. inversion H as [| |? ? x y Hx Hy E1 E2| | | |]; subst. destruct x as [|b x]; [right|left].
        + cbn in E2. by subst y.
        + cbn in E2. injection E2 as -> <-. by exists x, y.
      - intros [(x & y & -> & Hx & Hy)|[H1 H2]]; [rewrite <- Hcons; by apply L_cat|by apply (L_cat r t "")]. }
    rewrite Hr. destruct (nullable r) eqn:En.
    + rewrite lang_alt. apply nullable_spec in En. split.
      * intros H. inversion H as [| | |? ? ? Hx|? ? ? Hx| |]; subst; [left; by apply Hc|right; by rewrite <- IHt].
      * intros [H|[_ H]]; [apply L_left; by apply Hc|apply L_right; by apply IHt].
    + rewrite Hc. split; [by left|]. intros [H|[H _]]; [done|]. apply nullable_spec in H. congruence.
  - rewrite lang_alt. split; intros H; inversion H as [| | |? ? ? Hx|? ? ? Hx| |]; subst.
    + apply L_left. by apply IHr.
    + apply L_right. by apply IHt.
    + apply L_left. by apply IHr.
    + apply L_right. by apply IHt.
  - rewrite lang_cat. split.
    + intros H. inversion H as [| |? ? x y Hx Hy| | | |]; subst. rewrite <- Hcons. apply L_more; [by apply IH|done].
    + intros (x & y & -> & Hx & Hy)%star_head. apply L_cat; [by apply IH|done].
Qed.

Theorem matches_spec r s : matches r s = true <-> in_lang r s.
Proof.
  revert r. induction s as [|a s IH]; intros r; cbn [matches]; [apply nullable_spec|]. by rewrite IH, deriv_spec.
Qed.

(** ** Lower case *)

(** The characters of a pattern are closed under lower case. *)
Fixpoint lower_closed (r : regex) : Prop :=
  match r with
  | RNone | REps => True
  | RChar p => forall a, p a = true -> p (lower_char a) = true
  | RCat r s | RAlt r s => lower_closed r /\ lower_closed s
  | RStar r => lower_closed r
  end.

Lemma toLowerCase_app x y : toLowerCase (x +:+ y) = (toLowerCase x +:+ toLowerCase y)%string.
Proof. unfold toLowerCase. induction x as [|a x IH]; [done|]. cbn. by f_equal. Qed.

Lemma lower_in_lang r s : lower_closed r -> in_lang r s -> in_lang r (toLowerCase s).
Proof.
  intros Hc H. induction H; cbn [lower_closed] in Hc; rewrite ?toLowerCase_app; try (by constructor; naive_solver).
  all: naive_solver (eauto using in_lang).
Qed.

Lemma lower_matches r s : lower_closed r -> matches r s = true -> matches r (toLowerCase s) = true.
Proof. rewrite !matches_spec. apply lower_in_lang. Qed.

Lemma lower_closed_times n r : lower_closed r -> lower_closed (times n r).
Proof. intros H. by induction n. Qed.
Lemma lower_closed_upto n r : lower_closed r -> lower_closed (upto n r).
Proof. intros H. induction n; cbn; auto. Qed.
Lemma lower_closed_repeats n m r : lower_closed r -> lower_closed (repeats n m r).
Proof. split; [by apply lower_closed_times|by apply lower_closed_upto]. Qed.

(** A predicate on characters, decided on all of them. *)
Definition all_ascii : list ascii := List.map ascii_of_nat (seq 0 256).
Lemma all_ascii_complete a : a ∈ all_ascii.
Proof.
  unfold all_ascii. apply list_elem_of_In, List.in_map_iff. exists (nat_of_ascii a). split; [apply ascii_nat_embedding|].
  apply List.in_seq. pose proof (nat_ascii_bounded a). lia.
Qed.
Lemma char_closed (p : ascii -> bool) :
  forallb (fun a => implb (p a) (p (lower_char a))) all_ascii = true -> forall a, p a = true -> p (lower_char a) = true.
Proof.
  rewrite forallb_forall. intros H a Ha. specialize (H a (proj1 (list_elem_of_In _ _) (all_ascii_complete a))).
  rewrite Ha in H. exact H.
Qed.

(** [p{n,m}] on characters is a bound on the length. *)
Lemma times_chars n p s : in_lang (times n (RChar p)) s <-> String.length s = n /\ all_chars p s = true.
Proof.
  revert s. induction n as [|n IH]; intros s; cbn [times].
  - split; [intros H; inversion H; done|]. destruct s; [constructor|intros [? _]; done].
  - split.
    + intros H. inversion H as [| |? ? x y Hx Hy| | | |]; subst. inversion Hx as [|? a Ha| | | | |]; subst. apply IH in Hy as [<- Hy].
      split; [done|]. cbn. by rewrite Ha, Hy.
    + destruct s as [|a s]; [intros [? _]; done|]. cbn [String.length all_chars]. intros [[= Hl] [Ha Hs]%andb_true_iff].
      change (String a s) with (String a "" +:+ s)%string. apply L_cat; [by constructor|by apply IH].
Qed.

Lemma upto_chars n p s : in_lang (upto n (RChar p)) s <-> (String.length s <= n)%nat /\ all_chars p s = true.
Proof.
  revert s. induction n as [|n IH]; intros s; cbn [upto].
  - split; [intros H; inversion H; done|]. destruct s; [constructor|]. cbn. intros [? _]. lia.
  - split.
    + intros H. inversion H as [| | |? ? ? Hx|? ? ? Hx| |]; subst; [inversion Hx; subst; split; [cbn; lia|done]|].
      inversion Hx as [| |? ? x y Hc Hy| | | |]; subst. inversion Hc as [|? a Ha| | | | |]; subst. apply IH in Hy as [Hl Hy].
      split; [cbn; lia|]. cbn. by rewrite Ha, Hy.
    + destruct s as [|a s]; [intros _; apply L_left; constructor|]. cbn [String.length all_chars]. intros [Hl [Ha Hs]%andb_true_iff].
      apply L_right. change (String a s) with (String a "" +:+ s)%string. apply L_cat; [by constructor|]. apply IH. split; [lia|done].
Qed.

Lemma exactly_chars n p s : matches (repeats n n (RChar p)) s = (String.length s =? n)%nat && all_chars p s.
Proof.
  apply eq_true_iff_eq. rewrite matches_spec, andb_true_iff, Nat.eqb_eq. unfold repeats. rewrite Nat.sub_diag. split.
  - intros H. inversion H as [| |? ? x y Hx Hy| | | |]; subst. inversion Hy; subst. rewrite str_app_nil_r. by apply times_chars.
  - intros Hs. rewrite <- (str_app_nil_r s). apply L_cat; [by apply times_chars|constructor].
Qed.
