(* ===== verification/CrossChainNetworks.v ===== *)
(** The networks cross-chain swaps reach (src/src/cross-chain-swaps/cross-chain-networks.ts
    and the patterns of cross-chain-swaps.constants.ts): how addresses and transaction
    ids are spelled, how a deposit is paid (deposit-request.ts),
    and which of the tokens 1Click lists a request names (cross-chain-assets.ts). *)

From S2P Require Import Prelude Text Units MerchantFee Intents ChainAddress Links PayLinks Regex.
From stdpp Require Import base tactics list option sets strings.
From Stdlib Require Import ZArith QArith_base Lia Ascii.

Open Scope Z_scope.

(** ** Network ids *)

(** The three chains this service settles on, and 1Click's other networks. *)
Inductive CrossChainNetworkId :=
  | On (c : Chain)
  | N_eth | N_base | N_arb | N_op | N_bsc | N_pol | N_avax | N_gnosis | N_bera | N_scroll | N_xlayer | N_abs | N_plasma | N_hood | N_hypercore
  | N_btc | N_ltc | N_doge | N_bch | N_dash | N_zec
  | N_xrp | N_tron | N_ton | N_near | N_sui | N_aptos | N_movement | N_starknet | N_cardano | N_aleo | N_fogo.
#[export] Instance CrossChainNetworkId_eq_dec : EqDecision CrossChainNetworkId.
Proof. solve_decision. Defined.

Definition CROSS_CHAIN_NETWORK_IDS : list CrossChainNetworkId :=
  [On stellar; On solana; On monad;
   N_eth; N_base; N_arb; N_op; N_bsc; N_pol; N_avax; N_gnosis; N_bera; N_scroll; N_xlayer; N_abs; N_plasma; N_hood; N_hypercore;
   N_btc; N_ltc; N_doge; N_bch; N_dash; N_zec;
   N_xrp; N_tron; N_ton; N_near; N_sui; N_aptos; N_movement; N_starknet; N_cardano; N_aleo; N_fogo].

Definition network_id (n : CrossChainNetworkId) : string :=
  match n with
  | On c => chain_name c
  | N_eth => "eth" | N_base => "base" | N_arb => "arb" | N_op => "op" | N_bsc => "bsc" | N_pol => "pol" | N_avax => "avax"
  | N_gnosis => "gnosis" | N_bera => "bera" | N_scroll => "scroll" | N_xlayer => "xlayer" | N_abs => "abs" | N_plasma => "plasma"
  | N_hood => "hood" | N_hypercore => "hypercore"
  | N_btc => "btc" | N_ltc => "ltc" | N_doge => "doge" | N_bch => "bch" | N_dash => "dash" | N_zec => "zec"
  | N_xrp => "xrp" | N_tron => "tron" | N_ton => "ton" | N_near => "near" | N_sui => "sui" | N_aptos => "aptos"
  | N_movement => "movement" | N_starknet => "starknet" | N_cardano => "cardano" | N_aleo => "aleo" | N_fogo => "fogo"
  end%string.

(** ** Patterns *)

Definition in_range (lo hi : ascii) (a : ascii) : bool := (code lo <=? code a) && (code a <=? code hi).
Definition one_of (s : string) (a : ascii) : bool := existsb (Ascii.eqb a) (String.list_ascii_of_string s).

(** [[02-9ac-hj-np-z]] *)
Definition bech32_char (a : ascii) : bool :=
  one_of "0a" a || in_range "2" "9" a || in_range "c" "h" a || in_range "j" "n" a || in_range "p" "z" a.
Definition alnum (a : ascii) : bool := in_range "A" "Z" a || in_range "a" "z" a || is_digit a.
Definition lower_alnum (a : ascii) : bool := in_range "a" "z" a || is_digit a.

Definition hexes (n m : nat) : regex := repeats n m (RChar is_hex).
Definition bech32s (n m : nat) : regex := repeats n m (RChar bech32_char).
Definition base58s (n m : nat) : regex := repeats n m (RChar is_base58).

Definition BTC_BECH32_RE : regex := RCat (lit "bc1") (bech32s 39 59).
Definition BTC_BASE58_RE : regex := RCat (RChar (one_of "13")) (base58s 25 34).
Definition LTC_BECH32_RE : regex := RCat (lit "ltc1") (bech32s 39 59).
Definition LTC_BASE58_RE : regex := RCat (RChar (one_of "LM3")) (base58s 26 33).
Definition DOGE_BASE58_RE : regex := RCat (RChar (one_of "DA9")) (base58s 25 33).
Definition BCH_CASHADDR_RE : regex :=
  RCat (opt (lit "bitcoincash:")) (RCat (RChar (one_of "qp")) (RAlt (bech32s 41 41) (bech32s 60 60))).
Definition DASH_BASE58_RE : regex := RCat (RChar (one_of "X7")) (base58s 33 33).
Definition ZEC_TRANSPARENT_RE : regex := RCat (lit "t") (RCat (RChar (one_of "13")) (base58s 33 33)).
Definition ZEC_UNIFIED_RE : regex := RCat (lit "u1") (bech32s 100 1000).
Definition XRP_ADDRESS_RE : regex := RCat (lit "r") (base58s 24 34).
Definition TRON_ADDRESS_RE : regex := RCat (lit "T") (base58s 33 33).
Definition TON_FRIENDLY_ADDRESS_RE : regex :=
  RAlt (repeats 48 48 (RChar (fun a => alnum a || one_of "_-" a))) (repeats 48 48 (RChar (fun a => alnum a || one_of "+/" a))).
Definition TON_RAW_ADDRESS_RE : regex := RCat (RAlt (lit "0") (lit "-1")) (RCat (lit ":") (hexes 64 64)).
(** The look-ahead [.{2,64}$] is the bound on the length. *)
Definition NEAR_ACCOUNT_ID_RE : regex :=
  let word := many (RChar lower_alnum) in
  let joined := RStar (RCat word (RChar (one_of "-_"))) in
  RCat (RStar (RCat joined (RCat word (lit ".")))) (RCat joined word).
Definition NEAR_ACCOUNT_ID_RE_test (s : string) : bool :=
  (2 <=? String.length s)%nat && (String.length s <=? 64)%nat && matches NEAR_ACCOUNT_ID_RE s.
Definition SUI_ADDRESS_RE : regex := RCat (lit "0x") (hexes 64 64).
Definition SHORT_HEX_ADDRESS_RE : regex := RCat (lit "0x") (hexes 1 64).
Definition CARDANO_ADDRESS_RE : regex := RCat (lit "addr1") (bech32s 50 200).
Definition ALEO_ADDRESS_RE : regex := RCat (lit "aleo1") (bech32s 58 58).
Definition BASE58_DIGEST_RE : regex := base58s 43 44.
Definition TON_TX_ID_RE : regex :=
  RAlt (hexes 64 64) (RCat (repeats 43 43 (RChar (fun a => alnum a || one_of "+/_-" a))) (opt (lit "="))).
Definition STARKNET_TX_ID_RE : regex := RCat (lit "0x") (hexes 1 64).
Definition ALEO_TX_ID_RE : regex := RCat (lit "at1") (bech32s 58 58).

(** [/_?\(DEPRECATED\)$/i]: nothing anchors its start. *)
Definition DEPRECATED_TOKEN_RE : regex :=
  RCat (RStar (RChar (fun _ => true)))
    (RCat (opt (lit "_")) (foldr (fun a r => RCat (RChar (fun b => Ascii.eqb (lower_char b) a)) r) REps (String.list_ascii_of_string "(deprecated)"))).

(** ** Rules *)

Record CrossChainAddressRule := mkAddressRule { ar_rule : MerchantFeeWalletRule; ar_caseInsensitive : bool }.
Record CrossChainTxIdRule := mkTxIdRule { tr_isValid : string -> bool; tr_normalize : string -> string }.

(** Lowercased, when its letters are of one case. *)
Definition singleCase (value : string) : option string :=
  let lower := toLowerCase value in
  if String.eqb value lower || String.eqb value (toUpperCase value) then Some lower else None.

Definition hexTxId (test : string -> bool) : CrossChainTxIdRule := mkTxIdRule test toLowerCase.
Definition exactTxId (test : string -> bool) : CrossChainTxIdRule := mkTxIdRule test (fun s => s).
Definition EVM_TX_ID : CrossChainTxIdRule := hexTxId EVM_TX_ID_RE_test.
Definition HEX_TX_ID : CrossChainTxIdRule := hexTxId TX_HASH_RE_test.

Definition isBech32 (bech32 : option regex) (address : string) : bool :=
  match bech32, singleCase address with Some re, Some lower => matches re lower | _, _ => false end.
Definition utxoAddress (bech32 : option regex) (base58 : regex) : CrossChainAddressRule :=
  mkAddressRule (mkWalletRule (fun address => matches base58 address || isBech32 bech32 address)
                   (fun address => if isBech32 bech32 address then toLowerCase address else address)) false.
Definition hexAddress (re : regex) : CrossChainAddressRule := mkAddressRule (mkWalletRule (matches re) toLowerCase) true.
Definition exactAddress (test : string -> bool) : CrossChainAddressRule := mkAddressRule (mkWalletRule test (fun s => s)) false.

(** ** Assets and deposit links *)

Record CrossChainAsset := mkCrossChainAsset {
  ca_chain : CrossChainNetworkId;
  ca_chainName : string;
  ca_symbol : string;
  ca_assetId : string;
  ca_decimals : nat;
  ca_contract : option string;
  ca_priceUsd : option Q
}.

Record DepositTerms := mkDeposit {
  dt_address : string;
  dt_memo : option string;
  dt_amount : string;
  dt_asset : CrossChainAsset
}.

Definition DepositLinkBuilder := DepositTerms -> res (option string).

Definition eip681DepositLink (chain : Z) : DepositLinkBuilder := fun t =>
  v ← parseUnits (dt_amount t) (ca_decimals (dt_asset t));
  Ok (Some (eip681Uri (mkEip681 chain (dt_address t) (Some v) (ca_contract (dt_asset t))))).

Definition DEPOSIT_LINK_BUILDERS (c : Chain) : DepositLinkBuilder :=
  match c with
  | stellar => fun t =>
      match dt_memo t with
      | Some (String _ _ as memo) =>
          asset ← match ca_contract (dt_asset t) with
                  | Some issuer => Intents.resolveAsset (Some (ca_symbol (dt_asset t))) (Some issuer)
                  | None => Intents.resolveAsset None None
                  end;
          Ok (Some (sep7PayUri (mkSep7PayTerms (dt_address t) (Some (dt_amount t)) asset memo (Some MEMO_TEXT) None None)))
      | _ => Throw JsError
      end
  | solana => fun t => Ok (Some (solanaPayUri (mkSolanaPay (dt_address t) (Some (dt_amount t)) (ca_contract (dt_asset t)) None None None)))
  | monad => eip681DepositLink (MONAD_CHAIN_IDS "public")
  end.

Definition memoless (build : DepositLinkBuilder) : DepositLinkBuilder := fun t =>
  if truthy (dt_memo t) then Ok None else build t.

Definition startsWith (prefix s : string) : bool := String.eqb (slice_to (String.length prefix) s) prefix.

Definition bip21DepositLink (scheme : string) : DepositLinkBuilder := fun t =>
  match ca_contract (dt_asset t) with
  | Some _ => Ok None
  | None =>
      let prefix := (scheme +:+ ":")%string in
      let address := if startsWith prefix (toLowerCase (dt_address t)) then slice_from (String.length prefix) (dt_address t) else dt_address t in
      Ok (Some (prefix +:+ address +:+ "?amount=" +:+ dt_amount t)%string)
  end.

Definition TON_TRANSFER_URI_PREFIX : string := "ton://transfer/".
Definition CARDANO_URI_SCHEME : string := "web+cardano:".

Definition tonDepositLink : DepositLinkBuilder := fun t =>
  match ca_contract (dt_asset t) with
  | Some _ => Ok None
  | None => v ← parseUnits (dt_amount t) (ca_decimals (dt_asset t));
            Ok (Some (TON_TRANSFER_URI_PREFIX +:+ dt_address t +:+ "?amount=" +:+ toString v)%string)
  end.
Definition cardanoDepositLink : DepositLinkBuilder := fun t =>
  match ca_contract (dt_asset t) with
  | Some _ => Ok None
  | None => Ok (Some (CARDANO_URI_SCHEME +:+ dt_address t +:+ "?amount=" +:+ dt_amount t)%string)
  end.

(** ** The networks *)

Record CrossChainNetwork := mkNetwork {
  cn_id : CrossChainNetworkId;
  cn_blockchain : string;
  cn_name : string;
  cn_nativeSymbol : string;
  cn_address : CrossChainAddressRule;
  cn_txId : CrossChainTxIdRule;
  cn_evmChainId : option Z;
  cn_depositLink : option DepositLinkBuilder
}.

Definition NEAR_INTENTS_BLOCKCHAINS (c : Chain) : string := match c with stellar => "stellar" | solana => "sol" | monad => "monad" end.

(** [StrKey.isValidEd25519PublicKey] and the lower-case hex of [keccak_256]. *)
Class CrossChainCrypto := mkCrossChainCrypto { cc_isStellarKey : string -> bool; cc_keccak : string -> string }.

Section networks.
Context `{CC : CrossChainCrypto}.

Definition settledChain (c : Chain) (name : string) (txId : CrossChainTxIdRule) (caseInsensitive : bool) (evmChainId : option Z)
    (link : DepositLinkBuilder) : CrossChainNetwork :=
  mkNetwork (On c) (NEAR_INTENTS_BLOCKCHAINS c) name (NATIVE_ASSET_CODES c)
    (mkAddressRule (CHAIN_ADDRESS_RULES cc_isStellarKey cc_keccak c) caseInsensitive) txId evmChainId (Some link).
Definition evmNetwork (n : CrossChainNetworkId) (name nativeSymbol : string) (chain : option Z) : CrossChainNetwork :=
  mkNetwork n (network_id n) name nativeSymbol (mkAddressRule (mkWalletRule isEvmAddress (toChecksumAddress cc_keccak)) true) EVM_TX_ID chain
    (match chain with Some c => Some (memoless (eip681DepositLink c)) | None => None end).
Definition network (n : CrossChainNetworkId) (name nativeSymbol : string) (address : CrossChainAddressRule) (txId : CrossChainTxIdRule)
    (link : option DepositLinkBuilder) : CrossChainNetwork :=
  mkNetwork n (network_id n) name nativeSymbol address txId None (match link with Some l => Some (memoless l) | None => None end).

Definition CROSS_CHAIN_EVM_CHAIN_IDS (n : CrossChainNetworkId) : option Z :=
  match n with
  | N_eth => Some 1 | N_base => Some 8453 | N_arb => Some 42161 | N_op => Some 10 | N_bsc => Some 56 | N_pol => Some 137
  | N_avax => Some 43114 | N_gnosis => Some 100 | N_bera => Some 80094 | N_scroll => Some 534352 | N_xlayer => Some 196
  | N_abs => Some 2741 | N_plasma => Some 9745
  | _ => None
  end.

Definition CROSS_CHAIN_NETWORKS (n : CrossChainNetworkId) : CrossChainNetwork :=
  let evm name symbol := evmNetwork n name symbol (CROSS_CHAIN_EVM_CHAIN_IDS n) in
  match n with
  | On stellar => settledChain stellar "Stellar" (hexTxId TX_HASH_RE_test) false None (DEPOSIT_LINK_BUILDERS stellar)
  | On solana => settledChain solana "Solana" (exactTxId SOLANA_TX_ID_RE_test) false None (memoless (DEPOSIT_LINK_BUILDERS solana))
  | On monad => settledChain monad "Monad" EVM_TX_ID true (Some (MONAD_CHAIN_IDS "public")) (memoless (DEPOSIT_LINK_BUILDERS monad))
  | N_eth => evm "Ethereum" "ETH" | N_base => evm "Base" "ETH" | N_arb => evm "Arbitrum" "ETH" | N_op => evm "Optimism" "ETH"
  | N_bsc => evm "BNB Chain" "BNB" | N_pol => evm "Polygon" "POL" | N_avax => evm "Avalanche" "AVAX" | N_gnosis => evm "Gnosis" "xDAI"
  | N_bera => evm "Berachain" "BERA" | N_scroll => evm "Scroll" "ETH" | N_xlayer => evm "X Layer" "OKB" | N_abs => evm "Abstract" "ETH"
  | N_plasma => evm "Plasma" "XPL"
  | N_hood => evmNetwork n "Robinhood Chain" "ETH" None
  | N_hypercore => evmNetwork n "Hyperliquid" "HYPE" None
  | N_btc => network n "Bitcoin" "BTC" (utxoAddress (Some BTC_BECH32_RE) BTC_BASE58_RE) HEX_TX_ID (Some (bip21DepositLink "bitcoin"))
  | N_ltc => network n "Litecoin" "LTC" (utxoAddress (Some LTC_BECH32_RE) LTC_BASE58_RE) HEX_TX_ID (Some (bip21DepositLink "litecoin"))
  | N_doge => network n "Dogecoin" "DOGE" (utxoAddress None DOGE_BASE58_RE) HEX_TX_ID (Some (bip21DepositLink "dogecoin"))
  | N_bch => network n "Bitcoin Cash" "BCH" (utxoAddress (Some BCH_CASHADDR_RE) BTC_BASE58_RE) HEX_TX_ID (Some (bip21DepositLink "bitcoincash"))
  | N_dash => network n "Dash" "DASH" (utxoAddress None DASH_BASE58_RE) HEX_TX_ID (Some (bip21DepositLink "dash"))
  | N_zec => network n "Zcash" "ZEC" (utxoAddress (Some ZEC_UNIFIED_RE) ZEC_TRANSPARENT_RE) HEX_TX_ID (Some (bip21DepositLink "zcash"))
  | N_xrp => network n "XRP Ledger" "XRP" (exactAddress (matches XRP_ADDRESS_RE)) HEX_TX_ID None
  | N_tron => network n "Tron" "TRX" (exactAddress (matches TRON_ADDRESS_RE)) HEX_TX_ID None
  | N_ton =>
      network n "TON" "TON"
        (mkAddressRule (mkWalletRule (fun a => matches TON_FRIENDLY_ADDRESS_RE a || matches TON_RAW_ADDRESS_RE a)
                          (fun a => if matches TON_RAW_ADDRESS_RE a then toLowerCase a else a)) false)
        (mkTxIdRule (matches TON_TX_ID_RE) (fun i => if TX_HASH_RE_test i then toLowerCase i else i)) (Some tonDepositLink)
  | N_near => network n "NEAR" "NEAR" (exactAddress NEAR_ACCOUNT_ID_RE_test) (exactTxId (matches BASE58_DIGEST_RE)) None
  | N_sui => network n "Sui" "SUI" (hexAddress SUI_ADDRESS_RE) (exactTxId (matches BASE58_DIGEST_RE)) None
  | N_aptos => network n "Aptos" "APT" (hexAddress SHORT_HEX_ADDRESS_RE) (hexTxId EVM_TX_ID_RE_test) None
  | N_movement => network n "Movement" "MOVE" (hexAddress SHORT_HEX_ADDRESS_RE) (hexTxId EVM_TX_ID_RE_test) None
  | N_starknet => network n "Starknet" "STRK" (hexAddress SHORT_HEX_ADDRESS_RE) (hexTxId (matches STARKNET_TX_ID_RE)) None
  | N_cardano => network n "Cardano" "ADA" (exactAddress (matches CARDANO_ADDRESS_RE)) HEX_TX_ID (Some cardanoDepositLink)
  | N_aleo => network n "Aleo" "ALEO" (exactAddress (matches ALEO_ADDRESS_RE)) (exactTxId (matches ALEO_TX_ID_RE)) None
  | N_fogo => network n "Fogo" "FOGO" (exactAddress isSolanaAddress) (exactTxId SOLANA_TX_ID_RE_test) None
  end%string.

(** [NETWORK_BY_BLOCKCHAIN]; the blockchains are distinct ([blockchains_distinct]). *)
Definition networkByBlockchain (blockchain : string) : option CrossChainNetwork :=
  List.find (fun n => String.eqb (cn_blockchain n) blockchain) (List.map CROSS_CHAIN_NETWORKS CROSS_CHAIN_NETWORK_IDS).

Definition depositLink (t : DepositTerms) : res (option string) :=
  match cn_depositLink (CROSS_CHAIN_NETWORKS (ca_chain (dt_asset t))) with Some build => build t | None => Ok None end.

(** [IsCrossChainAddress] *)
Definition isCrossChainAddress (n : CrossChainNetworkId) (address : string) : bool := isValid (ar_rule (cn_address (CROSS_CHAIN_NETWORKS n))) address.
Definition normalizedAddress (n : CrossChainNetworkId) (address : string) : string := normalize (ar_rule (cn_address (CROSS_CHAIN_NETWORKS n))) address.
End networks.

(** ** One spelling *)

Lemma range_closed : lower_closed (RChar is_hex) /\ lower_closed (RChar bech32_char) /\ lower_closed (RChar is_digit).
Proof. split_and!; cbn; apply char_closed; vm_compute; reflexivity. Qed.

Lemma lit_lower_closed s : toLowerCase s = s -> lower_closed (lit s).
Proof.
  induction s as [|a s IH]; [done|]. cbn. intros [= Ha Hs]. split; [|by apply IH].
  intros b Hb%Ascii.eqb_eq. subst b. rewrite Ha. apply Ascii.eqb_refl.
Qed.

Lemma hex_closed n m : lower_closed (hexes n m).
Proof. apply lower_closed_repeats, range_closed. Qed.

Lemma lower_TX_HASH s : TX_HASH_RE_test s = true -> TX_HASH_RE_test (toLowerCase s) = true.
Proof. apply TX_HASH_lower. Qed.

Lemma lower_EVM_TX s : EVM_TX_ID_RE_test s = true -> EVM_TX_ID_RE_test (toLowerCase s) = true.
Proof.
  destruct s as [|x [|y r]]; [done|by destruct x as [[] [] [] [] [] [] [] []]|]. intros H.
  assert (x = "0"%char /\ y = "x"%char) as [-> ->]
    by (destruct x as [[] [] [] [] [] [] [] []]; try done; destruct y as [[] [] [] [] [] [] [] []]; done).
  cbn in *. by apply TX_HASH_lower.
Qed.

(** [rule] keeps one spelling of what [test] accepts: accepted, stable, and the same
    letters. *)
Definition one_spelling (test : string -> bool) (rule : string -> string) : Prop :=
  forall a, test a = true -> test (rule a) = true /\ rule (rule a) = rule a /\ toLowerCase (rule a) = toLowerCase a.

Lemma kept_spelling test : one_spelling test (fun a => a).
Proof. by intros a Ha. Qed.

Lemma lowered_spelling test : (forall a, test a = true -> test (toLowerCase a) = true) -> one_spelling test toLowerCase.
Proof. intros H a Ha. rewrite !toLowerCase_idem. auto. Qed.

(** A spelling that some inputs are lowered to. *)
Lemma lowered_if_spelling test (low : string -> bool) :
  (forall a, low a = true -> test (toLowerCase a) = true /\ low (toLowerCase a) = true) ->
  one_spelling test (fun a => if low a then toLowerCase a else a).
Proof.
  intros H a Ha. destruct (low a) eqn:E; [|by rewrite E]. destruct (H a E) as [H1 H2]. rewrite H2, !toLowerCase_idem. done.
Qed.

Lemma isBech32_lower re a : isBech32 re a = true -> isBech32 re (toLowerCase a) = true.
Proof.
  unfold isBech32, singleCase. destruct re as [re|]; [|done]. destruct (_ || _); [|done].
  by rewrite toLowerCase_idem, String.eqb_refl.
Qed.

Lemma utxo_spelling bech32 base58 :
  one_spelling (isValid (ar_rule (utxoAddress bech32 base58))) (normalize (ar_rule (utxoAddress bech32 base58))).
Proof.
  apply lowered_if_spelling. intros a Ha%isBech32_lower. cbn. by rewrite Ha, orb_true_r.
Qed.

Section spelling.
Context `{CC : CrossChainCrypto}.

Lemma evm_spelling : one_spelling isEvmAddress (toChecksumAddress cc_keccak).
Proof. intros a Ha. destruct (checksum_canonical cc_keccak a a Ha Ha) as (H1 & H2 & H3 & _). done. Qed.

Lemma blockchains_distinct : NoDup (List.map (fun n => cn_blockchain (CROSS_CHAIN_NETWORKS n)) CROSS_CHAIN_NETWORK_IDS).
Proof. apply (bool_decide_unpack _). vm_compute. exact I. Qed.

Lemma address_spelling (n : CrossChainNetworkId) : one_spelling (isCrossChainAddress n) (normalizedAddress n).
Proof.
  assert (Hs : lower_closed SUI_ADDRESS_RE) by (split; [by apply lit_lower_closed|apply hex_closed]).
  assert (Hh : lower_closed SHORT_HEX_ADDRESS_RE) by (split; [by apply lit_lower_closed|apply hex_closed]).
  assert (Hr : lower_closed TON_RAW_ADDRESS_RE)
    by (split; [split; by apply lit_lower_closed|split; [by apply lit_lower_closed|apply hex_closed]]).
  destruct n as [[]| | | | | | | | | | | | | | | | | | | | | | | | | | | | | | | |]; try apply evm_spelling; try apply kept_spelling; try apply utxo_spelling;
    try (apply lowered_spelling; intros a; by apply lower_matches).
  apply lowered_if_spelling. intros a Ha. apply (lower_matches _ _ Hr) in Ha. split; [|exact Ha]. apply orb_true_iff. by right.
Qed.

Lemma txId_spelling (n : CrossChainNetworkId) :
  one_spelling (tr_isValid (cn_txId (CROSS_CHAIN_NETWORKS n))) (tr_normalize (cn_txId (CROSS_CHAIN_NETWORKS n))).
Proof.
  assert (Hh : lower_closed SHORT_HEX_ADDRESS_RE) by (split; [by apply lit_lower_closed|apply hex_closed]).
  destruct n as [[]| | | | | | | | | | | | | | | | | | | | | | | | | | | | | | | |]; try apply kept_spelling;
    try (apply lowered_spelling; intros a; first [apply lower_EVM_TX|apply lower_TX_HASH|by apply lower_matches]).
  apply lowered_if_spelling. intros a Ha%TX_HASH_lower. split; [|done]. apply matches_spec, L_left, matches_spec.
  unfold hexes. by rewrite exactly_chars.
Qed.

(** An address and a transaction id have one stored spelling on every network. What a
    network accepts as an address stays accepted when normalized, normalizing is
    stable, and it changes the case of letters at most; likewise for the transaction
    ids its deposits are reported with. *)
Theorem network_spellings (n : CrossChainNetworkId) :
  one_spelling (isCrossChainAddress n) (normalizedAddress n)
  /\ one_spelling (tr_isValid (cn_txId (CROSS_CHAIN_NETWORKS n))) (tr_normalize (cn_txId (CROSS_CHAIN_NETWORKS n))).
Proof. split; [apply address_spelling|apply txId_spelling]. Qed.
End spelling.

(** ** Tokens (cross-chain-assets.ts, near-intents.types.ts) *)

(** A price is absent, no number, infinite (too large a literal) or finite. *)
Inductive JsPrice := NoNumber | Infinite | Finite (q : Q).

Record NearIntentsToken := mkToken {
  tk_assetId : string;
  tk_decimals : nat;
  tk_blockchain : string;
  tk_symbol : string;
  tk_contractAddress : option string;
  tk_price : JsPrice
}.

Section assets.
Context `{CC : CrossChainCrypto}.

Definition asset_of (n : CrossChainNetwork) (t : NearIntentsToken) : CrossChainAsset :=
  mkCrossChainAsset (cn_id n) (cn_name n) (tk_symbol t) (tk_assetId t) (tk_decimals t)
    (if truthy (tk_contractAddress t) then tk_contractAddress t else None)
    (match tk_price t with Finite q => Some q | _ => None end).

Definition supportedAssets (tokens : list NearIntentsToken) : list CrossChainAsset :=
  omap (fun t => n ← networkByBlockchain (tk_blockchain t); Some (asset_of n t)) tokens.

Definition isDeprecatedToken (symbol : string) : bool := matches DEPRECATED_TOKEN_RE (trim symbol).

Definition tradableAssets (tokens : list NearIntentsToken) : list CrossChainAsset :=
  List.filter (fun a => match ca_priceUsd a with Some q => bool_decide (0 < Qnum q) | None => false end
                        && negb (isDeprecatedToken (ca_symbol a))) (supportedAssets tokens).

Definition same_letters (a b : string) : bool := String.eqb (toLowerCase a) (toLowerCase b).

Definition nativeCoin (onChain : list CrossChainAsset) (nativeSymbol : string) : option CrossChainAsset :=
  let natives := List.filter (fun a => negb (bool_decide (is_Some (ca_contract a)))) onChain in
  match natives with
  | [] => None
  | [a] => Some a
  | _ => List.find (fun a => same_letters (ca_symbol a) nativeSymbol) natives
  end.

(** What may be named on [n]. *)
Definition on_chain (tokens : list NearIntentsToken) (n : CrossChainNetworkId) : list CrossChainAsset :=
  List.filter (fun a => bool_decide (ca_chain a = n) && negb (isDeprecatedToken (ca_symbol a))) (supportedAssets tokens).

Definition unsupported : exn := badRequest AssetUnsupported.

(** A contract's spelling, in any case where addresses are hex. *)
Definition names_contract (n : CrossChainNetworkId) (wanted : string) (a : CrossChainAsset) : bool :=
  match ca_contract a with
  | None => false
  | Some c => if ar_caseInsensitive (cn_address (CROSS_CHAIN_NETWORKS n)) then String.eqb (toLowerCase c) (toLowerCase wanted) else String.eqb c wanted
  end.

Definition by_name (n : CrossChainNetworkId) (onChain : list CrossChainAsset) (wanted : string) : res CrossChainAsset :=
  match List.find (names_contract n wanted) onChain with
  | Some a => Ok a
  | None =>
      match List.filter (fun a => same_letters (ca_symbol a) wanted) onChain with
      | [a] => Ok a
      | [] => Throw unsupported
      | _ => Throw (badRequest ValidationFailed)
      end
  end.

(** [CODE:ISSUER] on Stellar, or a contract, or a symbol. *)
Definition named (n : CrossChainNetworkId) (onChain : list CrossChainAsset) (wanted : string) : res CrossChainAsset :=
  match split_on ":" wanted with
  | code :: issuer :: _ =>
      if bool_decide (n = On stellar) && truthy (Some issuer)
      then match List.find (fun a => same_letters (ca_symbol a) code && bool_decide (ca_contract a = Some issuer)) onChain with
           | Some a => Ok a
           | None => Throw unsupported
           end
      else by_name n onChain wanted
  | _ => by_name n onChain wanted
  end.

Definition resolveCrossChainAsset (tokens : list NearIntentsToken) (n : CrossChainNetworkId) (requested : string) : res CrossChainAsset :=
  let symbol := cn_nativeSymbol (CROSS_CHAIN_NETWORKS n) in
  let onChain := on_chain tokens n in
  let wanted := trim requested in
  let native := nativeCoin onChain symbol in
  if String.eqb (toLowerCase wanted) "native" then match native with Some a => Ok a | None => Throw unsupported end
  else
    match native with
    | Some a => if same_letters wanted symbol || same_letters wanted (ca_symbol a) then Ok a else named n onChain wanted
    | None => named n onChain wanted
    end.

(** ** The answer is what was named *)

Lemma find_asset {A} (f : A -> bool) l a : List.find f l = Some a -> a ∈ l /\ f a = true.
Proof. intros [H1 H2]%find_some. split; [by apply list_elem_of_In|done]. Qed.

Lemma single_asset {A} (f : A -> bool) l a : List.filter f l = [a] ->
  a ∈ l /\ f a = true /\ forall b, b ∈ l -> f b = true -> b = a.
Proof.
  intros H. assert (Hin : forall b, b ∈ l /\ f b = true <-> b = a).
  { intros b. rewrite !list_elem_of_In, <- filter_In, H. cbn. naive_solver. }
  destruct (proj2 (Hin a) eq_refl) as [H1 H2]. split; [done|]. split; [done|]. intros b Hb Hf. apply Hin. done.
Qed.

(** Why [wanted] names the coin [a] without a contract: it is the only one, or carries
    the network's ticker. *)
Definition is_coin (onChain : list CrossChainAsset) (symbol : string) (a : CrossChainAsset) : Prop :=
  ca_contract a = None
  /\ ((forall b, b ∈ onChain -> ca_contract b = None -> b = a) \/ same_letters (ca_symbol a) symbol = true).

Lemma nativeCoin_spec onChain symbol a : nativeCoin onChain symbol = Some a -> a ∈ onChain /\ is_coin onChain symbol a.
Proof.
  unfold nativeCoin, is_coin. set (f := fun a : CrossChainAsset => _). intros H.
  assert (Hf : forall b, f b = true <-> ca_contract b = None) by (intros b; unfold f; rewrite negb_true_iff, bool_decide_eq_false; destruct (ca_contract b); naive_solver).
  destruct (List.filter f onChain) as [|b [|c l]] eqn:E; [done| |].
  - injection H as <-. apply single_asset in E as (H1 & H2 & H3). split; [done|]. split; [by apply Hf|]. left. intros c Hc Hn. by apply H3, Hf.
  - apply find_asset in H as [H1 H2]. rewrite <- E in H1. apply list_elem_of_In, filter_In in H1 as [H1 H3]. apply list_elem_of_In in H1.
    split; [done|]. split; [by apply Hf|by right].
Qed.

(** Why [by_name] answers [a]. *)
Definition is_named (n : CrossChainNetworkId) (onChain : list CrossChainAsset) (wanted : string) (a : CrossChainAsset) : Prop :=
  names_contract n wanted a = true
  \/ (same_letters (ca_symbol a) wanted = true /\ forall b, b ∈ onChain -> same_letters (ca_symbol b) wanted = true -> b = a).

Lemma by_name_spec n onChain wanted a : by_name n onChain wanted = Ok a -> a ∈ onChain /\ is_named n onChain wanted a.
Proof.
  unfold by_name, is_named. destruct (List.find _ _) as [b|] eqn:E.
  - intros [= <-]. apply find_asset in E as [H1 H2]. split; [done|by left].
  - destruct (List.filter _ _) as [|b [|c l]] eqn:F; try done. intros [= <-]. apply single_asset in F as (H1 & H2 & H3). split; [done|by right].
Qed.

Lemma on_chain_in tokens n b : b ∈ on_chain tokens n ->
  b ∈ supportedAssets tokens /\ ca_chain b = n /\ isDeprecatedToken (ca_symbol b) = false.
Proof.
  intros [Hb Hq]%list_elem_of_In%filter_In. apply list_elem_of_In in Hb. apply andb_true_iff in Hq as [Hq%bool_decide_eq_true Hd%negb_true_iff]. done.
Qed.

Lemma named_on_chain tokens n wanted a : named n (on_chain tokens n) wanted = Ok a -> a ∈ on_chain tokens n.
Proof.
  unfold named. destruct (split_on ":" wanted) as [|code [|issuer rest]]; [by intros [??]%by_name_spec..|].
  destruct (_ && _); [|by intros [??]%by_name_spec]. destruct (List.find _ _) as [b|] eqn:F; [|done]. intros [= <-]. by apply find_asset in F as [??].
Qed.

(** Where the asset of a request is. *)
Lemma resolved_on tokens n requested a : resolveCrossChainAsset tokens n requested = Ok a -> a ∈ supportedAssets tokens /\ ca_chain a = n.
Proof.
  unfold resolveCrossChainAsset. intros H. assert (Hin : a ∈ on_chain tokens n); [|apply on_chain_in in Hin; tauto].
  destruct (nativeCoin _ _) as [b|] eqn:E; [apply nativeCoin_spec in E as [E _]|].
  - destruct (String.eqb _ "native"); [by injection H as <-|]. destruct (_ || _); [by injection H as <-|by apply named_on_chain in H].
  - destruct (String.eqb _ "native"); [done|by apply named_on_chain in H].
Qed.

(** A token is never guessed. Whatever 1Click lists: the asset a request resolves to is
    one it lists on the network asked for, not one it is retiring; and the request named
    it: as the network's coin (the only one without a contract, or the one carrying the
    ticker), on Stellar by code and issuer, by its contract, or by a symbol that no other
    token of the network carries. *)
Theorem asset_never_guessed tokens n requested a :
  resolveCrossChainAsset tokens n requested = Ok a ->
  a ∈ supportedAssets tokens /\ ca_chain a = n /\ isDeprecatedToken (ca_symbol a) = false
  /\ (is_coin (on_chain tokens n) (cn_nativeSymbol (CROSS_CHAIN_NETWORKS n)) a
         /\ toLowerCase (trim requested) ∈ ["native"%string; toLowerCase (cn_nativeSymbol (CROSS_CHAIN_NETWORKS n)); toLowerCase (ca_symbol a)]
       \/ (n = On stellar /\ exists code issuer rest, split_on ":" (trim requested) = code :: issuer :: rest
             /\ same_letters (ca_symbol a) code = true /\ ca_contract a = Some issuer)
       \/ is_named n (on_chain tokens n) (trim requested) a).
Proof.
  set (onChain := on_chain tokens n). set (symbol := cn_nativeSymbol _). set (wanted := trim requested).
  assert (Hon := on_chain_in tokens n). fold onChain in Hon.
  assert (Hnamed : named n onChain wanted = Ok a -> a ∈ onChain /\
            ((n = On stellar /\ exists code issuer rest, split_on ":" wanted = code :: issuer :: rest
               /\ same_letters (ca_symbol a) code = true /\ ca_contract a = Some issuer) \/ is_named n onChain wanted a)).
  { unfold named. destruct (split_on ":" wanted) as [|code [|issuer rest]] eqn:E; [intros [??]%by_name_spec; auto..|].
    destruct (bool_decide (n = On stellar)) eqn:En; cbn [andb]; [|intros [??]%by_name_spec; auto]. apply bool_decide_eq_true in En.
    destruct (truthy (Some issuer)); [|intros [??]%by_name_spec; auto]. destruct (List.find _ _) as [b|] eqn:F; [|done]. intros [= <-].
    apply find_asset in F as [H1 [H2 H3%bool_decide_eq_true]%andb_true_iff]. split; [done|]. left. split; [done|]. by exists code, issuer, rest. }
  unfold resolveCrossChainAsset. fold onChain symbol wanted. destruct (String.eqb_spec (toLowerCase wanted) "native") as [Ew|_].
  - destruct (nativeCoin onChain symbol) as [b|] eqn:E; [|done]. intros [= <-]. apply nativeCoin_spec in E as [H1 H2].
    destruct (Hon _ H1) as (K1 & K2 & K3). split_and!; try done. left. split; [done|]. rewrite Ew. left.
  - destruct (nativeCoin onChain symbol) as [b|] eqn:E.
    + destruct (_ || _) eqn:Es.
      * intros [= <-]. apply nativeCoin_spec in E as [H1 H2]. destruct (Hon _ H1) as (K1 & K2 & K3). split_and!; try done. left. split; [done|].
        apply orb_true_iff in Es as [Es%String.eqb_eq|Es%String.eqb_eq]; rewrite Es; set_solver.
      * intros [H1 H2]%Hnamed. destruct (Hon _ H1) as (K1 & K2 & K3). split_and!; auto.
    + intros [H1 H2]%Hnamed. destruct (Hon _ H1) as (K1 & K2 & K3). split_and!; auto.
Qed.
End assets.
