(* ===== verification/CrossChainStore.v ===== *)
(** Cross-chain swaps, their data: what 1Click is asked and answers
    (src/src/near-intents/near-intents.types.ts), the row (prisma/schema.prisma:
    CrossChainSwap) and its statements, and the world the service runs in: its tables,
    the token list it keeps, what 1Click and Horizon would answer now. *)

From S2P Require Import Prelude Text Units MerchantFee Intents ChainAddress Webhooks Programs IntentService EscrowStore CrossChainNetworks.
From stdpp Require Import base tactics list option gmap strings.
From Stdlib Require Import ZArith QArith_base Lia Ascii.

Open Scope Z_scope.

(** ** What 1Click is asked and answers *)

(** The fields that are the same on every quote are left out. [nq_memo] is the
    deposit mode MEMO; a deadline is an instant. *)
Record NearIntentsQuoteRequest := mkQuoteRequest {
  nq_dry : bool;
  nq_memo : bool;
  nq_slippageTolerance : Z;
  nq_originAsset : string;
  nq_destinationAsset : string;
  nq_amount : string;
  nq_refundTo : string;
  nq_recipient : string;
  nq_deadline : Z;
  nq_appFees : list (string * Z)
}.

(** What is read of an answer; a deadline [Some None] is no date. *)
Record NearIntentsQuote := mkNearQuote {
  qu_depositAddress : option string;
  qu_depositMemo : option string;
  qu_amountInUsd : option string;
  qu_amountOutFormatted : string;
  qu_amountOutUsd : option string;
  qu_minAmountOut : string;
  qu_deadline : option (option Z);
  qu_timeEstimate : Z
}.
Record NearIntentsQuoteResponse := mkQuoteResponse { qr_correlationId : string; qr_signature : string; qr_quote : NearIntentsQuote }.

Record NearIntentsSwapDetails := mkDetails {
  sd_amountOut : option string;
  sd_amountOutFormatted : option string;
  sd_refundedAmount : option string;
  sd_refundedAmountFormatted : option string;
  sd_originTxHashes : list json;
  sd_destinationTxHashes : list json
}.
(** The status is whatever word 1Click writes. *)
Record NearIntentsStatusResponse := mkStatusResponse { sr_status : string; sr_swapDetails : option NearIntentsSwapDetails }.

(** Balances of a Stellar account, by code and issuer; a load may fail. *)
Inductive AccountAnswer := AccountLoaded (balances : list (option string * option string)) | AccountNotFound | AccountFailed.

Record NearOutside := mkNearOutside {
  n_tokens : res (list NearIntentsToken);
  n_quote : NearIntentsQuoteRequest -> res NearIntentsQuoteResponse;
  n_status : string -> option string -> res (option NearIntentsStatusResponse);
  n_submitDeposit : string -> string -> option string -> res NearIntentsStatusResponse;
  n_loadAccount : string -> AccountAnswer
}.

(** ** The row *)

Inductive CrossChainSwapStatus := AWAITING_DEPOSIT | DEPOSIT_DETECTED | INCOMPLETE_DEPOSIT | PROCESSING | X_SUCCEEDED | X_REFUNDED | X_FAILED | X_EXPIRED.
#[export] Instance CrossChainSwapStatus_eq_dec : EqDecision CrossChainSwapStatus.
Proof. solve_decision. Defined.
Definition cross_status_name (s : CrossChainSwapStatus) : string :=
  match s with
  | AWAITING_DEPOSIT => "AWAITING_DEPOSIT" | DEPOSIT_DETECTED => "DEPOSIT_DETECTED" | INCOMPLETE_DEPOSIT => "INCOMPLETE_DEPOSIT"
  | PROCESSING => "PROCESSING" | X_SUCCEEDED => "SUCCEEDED" | X_REFUNDED => "REFUNDED" | X_FAILED => "FAILED" | X_EXPIRED => "EXPIRED"
  end%string.

(** One side of a swap. *)
Record SwapLeg := mkSwapLeg {
  lg_chain : CrossChainNetworkId;
  lg_asset : string;
  lg_assetId : string;
  lg_contract : option string;
  lg_decimals : nat
}.

(** The columns no statement changes. *)
Record CrossTerms := mkCrossTerms {
  xt_id : string;
  xt_consumerId : string;
  xt_origin : SwapLeg;
  xt_destination : SwapLeg;
  xt_amountIn : string;
  xt_feeBps : Z;
  xt_feeAmount : string;
  xt_merchantFee : json;
  xt_amountOutEstimated : string;
  xt_amountOutMin : string;
  xt_slippageBps : Z;
  xt_recipient : string;
  xt_refundTo : string;
  xt_depositAddress : string;
  xt_depositMemo : option string;
  xt_depositUri : option string;
  xt_timeEstimateSeconds : Z;
  xt_correlationId : string;
  xt_quoteSignature : string;
  xt_quote : NearIntentsQuoteResponse;
  xt_idempotencyKey : option string;
  xt_expiresAt : Z;
  xt_createdAt : Z
}.
Record CrossChainSwap := mkCrossSwap {
  xs_terms : CrossTerms;
  xs_status : CrossChainSwapStatus;
  xs_providerStatus : string;
  xs_depositTxHash : option string;
  xs_amountOut : option string;
  xs_refundedAmount : option string;
  xs_originTxHashes : option (list json);
  xs_destinationTxHashes : option (list json);
  xs_lastCheckedAt : option Z;
  xs_updatedAt : Z
}.

(** What is drawn, and a date's text in JSON. *)
Class CrossDraws := mkCrossDraws { xw_cuid : nat -> string; xw_draw : nat -> Draw; xw_iso : Z -> string }.

Definition leg_json (side : string) (l : SwapLeg) : list (string * json) :=
  [(side +:+ "Chain", JString (network_id (lg_chain l))); (side +:+ "Asset", JString (lg_asset l)); (side +:+ "AssetId", JString (lg_assetId l));
   (side +:+ "Contract", json_of_option (lg_contract l)); (side +:+ "Decimals", json_of_int (Z.of_nat (lg_decimals l)))]%string.
Definition hashes_json (l : option (list json)) : json := match l with Some l => JArray l | None => JNull end.

(** The columns but the raw quote, which leaves the service nowhere. *)
Definition cross_json `{CrossDraws} (r : CrossChainSwap) : list (string * json) :=
  let t := xs_terms r in
  [("id", JString (xt_id t)); ("consumerId", JString (xt_consumerId t)); ("network", JString "public");
   ("status", JString (cross_status_name (xs_status r))); ("providerStatus", JString (xs_providerStatus r))]
  ++ leg_json "origin" (xt_origin t) ++ leg_json "destination" (xt_destination t) ++
  [("amountIn", JString (xt_amountIn t)); ("feeBps", json_of_int (xt_feeBps t)); ("feeAmount", JString (xt_feeAmount t));
   ("merchantFee", xt_merchantFee t); ("amountOutEstimated", JString (xt_amountOutEstimated t)); ("amountOutMin", JString (xt_amountOutMin t));
   ("slippageBps", json_of_int (xt_slippageBps t)); ("recipient", JString (xt_recipient t)); ("refundTo", JString (xt_refundTo t));
   ("depositAddress", JString (xt_depositAddress t)); ("depositMemo", json_of_option (xt_depositMemo t));
   ("depositUri", json_of_option (xt_depositUri t)); ("depositTxHash", json_of_option (xs_depositTxHash r));
   ("amountOut", json_of_option (xs_amountOut r)); ("refundedAmount", json_of_option (xs_refundedAmount r));
   ("originTxHashes", hashes_json (xs_originTxHashes r)); ("destinationTxHashes", hashes_json (xs_destinationTxHashes r));
   ("timeEstimateSeconds", json_of_int (xt_timeEstimateSeconds t)); ("correlationId", JString (xt_correlationId t));
   ("quoteSignature", JString (xt_quoteSignature t)); ("idempotencyKey", json_of_option (xt_idempotencyKey t));
   ("expiresAt", JString (xw_iso (xt_expiresAt t))); ("lastCheckedAt", json_of_option (xw_iso <$> xs_lastCheckedAt r));
   ("createdAt", JString (xw_iso (xt_createdAt t))); ("updatedAt", JString (xw_iso (xs_updatedAt r)))]%string.

Definition CROSS_CHAIN_SWAP_PUBLIC_SELECT : list string :=
  ["id"; "status"; "providerStatus"; "network"; "originChain"; "originAsset"; "originContract"; "destinationChain"; "destinationAsset";
   "destinationContract"; "amountIn"; "feeBps"; "feeAmount"; "merchantFee"; "amountOutEstimated"; "amountOutMin"; "slippageBps";
   "recipient"; "refundTo"; "depositAddress"; "depositMemo"; "depositUri"; "depositTxHash"; "amountOut"; "refundedAmount";
   "originTxHashes"; "destinationTxHashes"; "timeEstimateSeconds"; "correlationId"; "quoteSignature"; "idempotencyKey"; "expiresAt";
   "createdAt"; "updatedAt"]%string.
Definition public_cross `{CrossDraws} (r : CrossChainSwap) : json := JObject (project (cross_json r) CROSS_CHAIN_SWAP_PUBLIC_SELECT).

(** [present]: the public row, its merchant fee read back, the text of its QR code. *)
Record CrossChainSwapView := mkCrossView { cv_swap : json; cv_merchantFee : option MerchantFeeRecord; cv_qr : string }.
Definition present_cross `{CrossDraws} (r : CrossChainSwap) : CrossChainSwapView :=
  mkCrossView (public_cross r) (readMerchantFeeRecord (xt_merchantFee (xs_terms r)))
    (default (xt_depositAddress (xs_terms r)) (xt_depositUri (xs_terms r))).

(** ** The world

    Consumers by their gateway name, swaps by id, the webhooks' tables, what is
    outside, the token list kept in this process and when it came, the clock, the
    count of draws; and what 1Click answered, which no method reads. *)

Inductive CrossEvent :=
  | Quoted (request : NearIntentsQuoteRequest) (response : NearIntentsQuoteResponse)
  | Reported (depositAddress : string) (depositMemo : option string) (status : NearIntentsStatusResponse).

Record CrossWorld := mkCrossWorld {
  xw_consumers : gmap string string;
  cross_swaps : gmap string CrossChainSwap;
  xw_hooks : Hooks;
  near : NearOutside;
  tokensCache : option (Z * list NearIntentsToken);
  xw_history : list CrossEvent;
  xw_clock : Z;
  xw_drawn : nat
}.
Definition set_xw_consumers (f : gmap string string -> gmap string string) (s : CrossWorld) : CrossWorld :=
  mkCrossWorld (f (xw_consumers s)) (cross_swaps s) (xw_hooks s) (near s) (tokensCache s) (xw_history s) (xw_clock s) (xw_drawn s).
Definition set_cross_swaps (f : gmap string CrossChainSwap -> gmap string CrossChainSwap) (s : CrossWorld) : CrossWorld :=
  mkCrossWorld (xw_consumers s) (f (cross_swaps s)) (xw_hooks s) (near s) (tokensCache s) (xw_history s) (xw_clock s) (xw_drawn s).
Definition set_xw_hooks (h : Hooks) (s : CrossWorld) : CrossWorld :=
  mkCrossWorld (xw_consumers s) (cross_swaps s) h (near s) (tokensCache s) (xw_history s) (xw_clock s) (xw_drawn s).
Definition set_tokensCache (c : Z * list NearIntentsToken) (s : CrossWorld) : CrossWorld :=
  mkCrossWorld (xw_consumers s) (cross_swaps s) (xw_hooks s) (near s) (Some c) (xw_history s) (xw_clock s) (xw_drawn s).
Definition xw_log (e : CrossEvent) (s : CrossWorld) : CrossWorld :=
  mkCrossWorld (xw_consumers s) (cross_swaps s) (xw_hooks s) (near s) (tokensCache s) (xw_history s ++ [e]) (xw_clock s) (xw_drawn s).
Definition set_xw_drawn (n : nat) (s : CrossWorld) : CrossWorld :=
  mkCrossWorld (xw_consumers s) (cross_swaps s) (xw_hooks s) (near s) (tokensCache s) (xw_history s) (xw_clock s) n.

Abbreviation crossing := (prog CrossWorld).

(** A call to 1Click, its answer remembered. *)
Definition calling {A} (f : NearOutside -> res A) (event : A -> option CrossEvent) : svc CrossWorld A := fun s =>
  match f (near s) with
  | Throw e => (s, Throw e)
  | Ok a => (match event a with Some e => xw_log e s | None => s end, Ok a)
  end.

(** ** Statements *)

(** [@@unique([consumerId, idempotencyKey])] and [@@unique([depositAddress,
    depositMemo])]; null is equal to nothing. *)
Definition same_cross_key (a b : CrossTerms) : bool :=
  bool_decide (xt_consumerId a = xt_consumerId b)
  && match xt_idempotencyKey a, xt_idempotencyKey b with Some k, Some k' => bool_decide (k = k') | _, _ => false end.
Definition same_deposit (a b : CrossTerms) : bool :=
  bool_decide (xt_depositAddress a = xt_depositAddress b)
  && match xt_depositMemo a, xt_depositMemo b with Some m, Some m' => bool_decide (m = m') | _, _ => false end.

Definition cross_violated (t : CrossTerms) (s : CrossWorld) : option string :=
  let others := (map_to_list (cross_swaps s)).*2 in
  if existsb (fun r => same_cross_key t (xs_terms r)) others then Some "cross_chain_swap_consumerId_idempotencyKey_key"%string
  else if existsb (fun r => same_deposit t (xs_terms r)) others then Some "cross_chain_swap_depositAddress_depositMemo_key"%string
  else None.

(** [crossChainSwap.create]: the id and the instants are the database's. *)
Definition create_cross `{CrossDraws} (terms : string -> Z -> CrossTerms) : svc CrossWorld CrossChainSwap := fun s =>
  let i := xw_cuid (xw_drawn s) in
  let t := terms i (xw_clock s) in
  let r := mkCrossSwap t AWAITING_DEPOSIT "PENDING_DEPOSIT" None None None None None None (xw_clock s) in
  match cross_swaps s !! i, cross_violated t s with
  | Some _, _ => (s, Throw (UniqueViolation "cross_chain_swap_pkey"))
  | None, Some n => (s, Throw (UniqueViolation n))
  | None, None => (set_xw_drawn (S (xw_drawn s)) (set_cross_swaps (fun m => <[i := r]> m) s), Ok r)
  end.

(** [updateMany({ where: { id, ... }, data })], which changes no unique column. *)
Definition update_cross (i : string) (guard : CrossChainSwap -> bool) (data : Z -> CrossChainSwap -> CrossChainSwap) : svc CrossWorld nat := fun s =>
  match cross_swaps s !! i with
  | Some r => if guard r then (set_cross_swaps (fun m => <[i := data (xw_clock s) r]> m) s, Ok 1%nat) else (s, Ok 0%nat)
  | None => (s, Ok 0%nat)
  end.

Definition find_cross (i : string) : crossing CrossChainSwap := r ← asking (fun s => cross_swaps s !! i); pure (res_of_option JsError r).

(** [consumers.resolve]; the credential it also stores is not read here. *)
Definition resolve_payer `{CrossDraws} (username : string) : svc CrossWorld string := fun s =>
  match xw_consumers s !! username with
  | Some c => (s, Ok c)
  | None => let c := xw_cuid (xw_drawn s) in
            (set_xw_drawn (S (xw_drawn s)) (set_xw_consumers (fun m => <[username := c]> m) s), Ok c)
  end.

(** [webhooks.emit] of a swap. *)
Definition emit_cross `{CrossDraws} (username : string) (type : WebhookEventType) (r : CrossChainSwap) : crossing bool :=
  stmt (fun s => let '(h, o) := Webhooks.emit username type (public_cross r) (xw_draw (xw_drawn s)) (xw_hooks s) in
                 (set_xw_drawn (S (xw_drawn s)) (set_xw_hooks h s), o)).
