(* ===== verification/CrossChainSwaps.v ===== *)
(** Cross-chain swaps settled by NEAR Intents: the status machine
    (src/src/cross-chain-swaps/cross-chain-swap-transitions.ts), the client's token list
    (src/src/near-intents/near-intents.client.ts), the service
    (cross-chain-swaps.service.ts) and its observer
    (cross-chain-swap-observer.service.ts). *)

From S2P Require Import Prelude Text Units MerchantFee Intents ChainAddress Webhooks Programs IntentService EscrowStore EscrowJobs ChainSwapVenues ChainSwaps CrossChainNetworks CrossChainStore.
From stdpp Require Import base tactics list option gmap strings sorting.
From Stdlib Require Import ZArith QArith_base Lia Ascii.

Open Scope Z_scope.

(** ** The status machine *)

Inductive NearIntentsStatus := PENDING_DEPOSIT | KNOWN_DEPOSIT_TX | NI_INCOMPLETE_DEPOSIT | NI_PROCESSING | SUCCESS | NI_REFUNDED | NI_FAILED.
#[export] Instance NearIntentsStatus_eq_dec : EqDecision NearIntentsStatus.
Proof. solve_decision. Defined.

Definition NEAR_INTENTS_STATUSES : list (string * NearIntentsStatus) :=
  [("PENDING_DEPOSIT", PENDING_DEPOSIT); ("KNOWN_DEPOSIT_TX", KNOWN_DEPOSIT_TX); ("INCOMPLETE_DEPOSIT", NI_INCOMPLETE_DEPOSIT);
   ("PROCESSING", NI_PROCESSING); ("SUCCESS", SUCCESS); ("REFUNDED", NI_REFUNDED); ("FAILED", NI_FAILED)]%string.

(** The status a word names, when it is one. *)
Definition isProviderStatus (word : string) : option NearIntentsStatus :=
  snd <$> List.find (fun x => String.eqb (fst x) word) NEAR_INTENTS_STATUSES.

Definition CROSS_CHAIN_OPEN_STATUSES : list CrossChainSwapStatus := [AWAITING_DEPOSIT; DEPOSIT_DETECTED; INCOMPLETE_DEPOSIT; PROCESSING].
Definition CROSS_CHAIN_TERMINAL_STATUSES : list CrossChainSwapStatus := [X_SUCCEEDED; X_REFUNDED; X_FAILED].

Definition PROVIDER_STATUS_MAP (p : NearIntentsStatus) : CrossChainSwapStatus :=
  match p with
  | PENDING_DEPOSIT => AWAITING_DEPOSIT | KNOWN_DEPOSIT_TX => DEPOSIT_DETECTED | NI_INCOMPLETE_DEPOSIT => INCOMPLETE_DEPOSIT
  | NI_PROCESSING => PROCESSING | SUCCESS => X_SUCCEEDED | NI_REFUNDED => X_REFUNDED | NI_FAILED => X_FAILED
  end.

Definition CROSS_CHAIN_STATUS_EVENTS (s : CrossChainSwapStatus) : WebhookEventType :=
  match s with
  | AWAITING_DEPOSIT | DEPOSIT_DETECTED | INCOMPLETE_DEPOSIT | PROCESSING => CROSS_CHAIN_SWAP_UPDATED
  | X_SUCCEEDED => CROSS_CHAIN_SWAP_SUCCEEDED | X_REFUNDED => CROSS_CHAIN_SWAP_REFUNDED
  | X_FAILED => CROSS_CHAIN_SWAP_FAILED | X_EXPIRED => CROSS_CHAIN_SWAP_EXPIRED
  end.

Definition isTerminal (s : CrossChainSwapStatus) : bool := bool_decide (s ∈ CROSS_CHAIN_TERMINAL_STATUSES).

Definition nextStatus (current : CrossChainSwapStatus) (word : string) (now expiresAt : Z) : option CrossChainSwapStatus :=
  match isTerminal current, isProviderStatus word with
  | true, _ | _, None => None
  | false, Some p =>
      let next := PROVIDER_STATUS_MAP p in
      let next := if bool_decide (next = AWAITING_DEPOSIT) && (expiresAt <? now) then X_EXPIRED else next in
      if bool_decide (next = current) then None else Some next
  end.

(** ** The token list *)

Definition NEAR_INTENTS_TOKENS_TTL_MS : Z := 5 * 60 * 1000.
Definition NEAR_INTENTS_TOKENS_STALE_MS : Z := 60 * 60 * 1000.

(** The list arrives and is kept. Callers that ask meanwhile share the one fetch; here
    each makes its own. *)
Definition refreshTokens : crossing (list NearIntentsToken) :=
  stmt (fun s => match n_tokens (near s) with Ok l => (set_tokensCache (xw_clock s, l) s, Ok l) | Throw e => (s, Throw e) end).

(** A stale list is answered at once; the refresh it starts is a program of its own. *)
Definition tokens : crossing (list NearIntentsToken) :=
  cached ← asking (fun s => (at_ ← tokensCache s; Some (xw_clock s - fst at_, snd at_)));
  match cached with
  | Some (age, l) =>
      if age <? NEAR_INTENTS_TOKENS_TTL_MS then Ret l
      else if age <? NEAR_INTENTS_TOKENS_STALE_MS then Ret l
      else refreshTokens
  | None => refreshTokens
  end.

(** ** Requests *)

Record CrossDto := mkCrossDto {
  xd_originChain : CrossChainNetworkId;
  xd_originAsset : string;
  xd_destinationChain : CrossChainNetworkId;
  xd_destinationAsset : string;
  xd_amount : string;
  xd_recipient : string;
  xd_refundTo : string;
  xd_slippageBps : option Z;
  xd_merchantFee : option MerchantFeeDto;
  xd_idempotencyKey : option string
}.

Class NearIntentsConfig := mkNearConfig { near_slippageBps : Z; near_maxSlippageBps : Z; deadlineSeconds : Z; feeRecipient : string }.

Record PricedCrossChainSwap := mkPricedCross {
  pc_origin : CrossChainAsset;
  pc_destination : CrossChainAsset;
  pc_amountIn : string;
  pc_feeBps : Z;
  pc_feeAmount : string;
  pc_merchantFee : option (MerchantFeeTerms * MerchantFeeRecord);
  pc_slippageBps : Z;
  pc_recipient : string;
  pc_refundTo : string;
  pc_request : NearIntentsQuoteRequest
}.

(** The terms a stored row is compared on, but for its merchant fee. *)
Record CrossChainRequestTerms := mkCrossRequestTerms {
  rt_originChain : CrossChainNetworkId;
  rt_originAssetId : string;
  rt_destinationChain : CrossChainNetworkId;
  rt_destinationAssetId : string;
  rt_amountIn : string;
  rt_recipient : string;
  rt_refundTo : string;
  rt_slippageBps : Z
}.
#[export] Instance CrossChainRequestTerms_eq_dec : EqDecision CrossChainRequestTerms.
Proof. solve_decision. Defined.

Section service.
Context `{CC : CrossChainCrypto} `{CONFIG : SwapConfig} `{NI : NearIntentsConfig} `{DRAWS : CrossDraws}.

(** [IsCrossChainAddress] on the request's two addresses. *)
Definition valid_addresses (dto : CrossDto) : bool :=
  isCrossChainAddress (xd_destinationChain dto) (xd_recipient dto) && isCrossChainAddress (xd_originChain dto) (xd_refundTo dto).

Definition assets : crossing (list CrossChainAsset) := l ← tokens; Ret (tradableAssets l).

(** ** Pricing *)

Definition baseUnits (amount : string) (asset : CrossChainAsset) : res Z :=
  match parseUnits amount (ca_decimals asset) with
  | Throw _ => Throw (badRequest InvalidAmount)
  | Ok units => if units <=? 0 then Throw (badRequest InvalidAmount) else Ok units
  end.

Definition merchantFeeTerms (dto : CrossDto) (origin : CrossChainAsset) : res (option MerchantFeeTerms) :=
  resolveMerchantFee (xd_merchantFee dto) (ca_decimals origin) (ar_rule (cn_address (CROSS_CHAIN_NETWORKS N_near))).

Definition merchantAppFeeBps (split : MerchantFeeSplit) (merchant : option MerchantFeeTerms) : res Z :=
  match merchant with
  | None => Ok 0
  | Some _ =>
      let bps := Z.quot (MerchantFee.fee split * 10000) (MerchantFee.total split) in
      if bps =? 0 then Throw (badRequest InvalidAmount) else Ok bps
  end.

(** What is computed from the token list, up to the request to 1Click. *)
Definition price_request (caller : Caller) (dto : CrossDto) (live : bool) (now : Z) (tokens : list NearIntentsToken) : res PricedCrossChainSwap :=
  origin ← resolveCrossChainAsset tokens (xd_originChain dto) (xd_originAsset dto);
  destination ← resolveCrossChainAsset tokens (xd_destinationChain dto) (xd_destinationAsset dto);
  _ ← throw_if (bool_decide (ca_assetId origin = ca_assetId destination)) (badRequest ValidationFailed);
  amountUnits ← baseUnits (xd_amount dto) origin;
  merchant ← merchantFeeTerms dto origin;
  let split := splitMerchantFee amountUnits merchant in
  _ ← assertMerchantFeeCovered split merchant;
  let base := MerchantFee.total split in
  merchantBps ← merchantAppFeeBps split merchant;
  slippageBps ← resolveSlippage (xd_slippageBps dto) near_slippageBps near_maxSlippageBps;
  plan ← resolvePlanCommissionBps commission (cl_planSwapFeeBps caller);
  feeBps ← commissionWithRecipient commission plan feeRecipient;
  let recipient := normalizedAddress (xd_destinationChain dto) (xd_recipient dto) in
  let refundTo := normalizedAddress (xd_originChain dto) (xd_refundTo dto) in
  Ok (mkPricedCross origin destination (formatUnits base (ca_decimals origin)) feeBps
        (formatUnits (Z.quot (base * feeBps) 10000) (ca_decimals origin))
        (match merchant with
         | Some m => Some (m, merchantFeeRecord m (Z.quot (base * merchantBps) 10000) (ca_decimals origin) (ca_symbol origin))
         | None => None
         end)
        slippageBps recipient refundTo
        (mkQuoteRequest (negb live) (bool_decide (ca_chain origin = On stellar)) slippageBps (ca_assetId origin) (ca_assetId destination)
           (toString base) refundTo recipient (now + deadlineSeconds * 1000)
           ((if 0 <? feeBps then [(feeRecipient, feeBps)] else [])
            ++ match merchant with Some m => [(wallet m, merchantBps)] | None => [] end))).

(** A pair on one of the chains this service settles on. *)
Definition same_chain (dto : CrossDto) : bool :=
  bool_decide (xd_originChain dto = xd_destinationChain dto) && match xd_originChain dto with On _ => true | _ => false end.

Definition price (caller : Caller) (dto : CrossDto) (live : bool) : crossing (PricedCrossChainSwap * NearIntentsQuoteResponse) :=
  if same_chain dto then Raise (badRequest ValidationFailed)
  else
    l ← tokens;
    now ← asking xw_clock;
    p ← pure (price_request caller dto live now l);
    response ← stmt (calling (fun o => n_quote o (pc_request p)) (fun r => Some (Quoted (pc_request p) r)));
    Ret (p, response).

Definition minimumOut (p : PricedCrossChainSwap) (r : NearIntentsQuoteResponse) : res string :=
  least ← BigInt_js (qu_minAmountOut (qr_quote r)); Ok (formatUnits least (ca_decimals (pc_destination p))).

(** ** Quote *)

Record CrossChainQuote := mkCrossQuote {
  xq_origin : SwapLeg;
  xq_amount : string;
  xq_amountUsd : option string;
  xq_destination : SwapLeg;
  xq_estimated : string;
  xq_estimatedUsd : option string;
  xq_minimum : string;
  xq_feeBps : Z;
  xq_feeAmount : string;
  xq_merchantFee : option MerchantFeeRecord;
  xq_slippageBps : Z;
  xq_timeEstimateSeconds : Z
}.

Definition leg_of (a : CrossChainAsset) : SwapLeg := mkSwapLeg (ca_chain a) (ca_symbol a) (ca_assetId a) (ca_contract a) (ca_decimals a).

Definition quote (caller : Caller) (dto : CrossDto) : crossing CrossChainQuote :=
  x ← price caller dto false;
  let '(p, r) := x in
  let q := qr_quote r in
  least ← pure (minimumOut p r);
  Ret (mkCrossQuote (leg_of (pc_origin p)) (pc_amountIn p) (qu_amountInUsd q) (leg_of (pc_destination p)) (qu_amountOutFormatted q)
         (qu_amountOutUsd q) least (pc_feeBps p) (pc_feeAmount p) (snd <$> pc_merchantFee p) (pc_slippageBps p) (qu_timeEstimate q)).

(** ** Create *)

(** [hasTrustline] and [assertCanReceive] of src/src/stellar/account-loader.service.ts *)
Definition hasTrustline (balances : list (option string * option string)) (asset : ResolvedAsset) (holder : string) : bool :=
  match asset_issuer asset with
  | None => true
  | Some issuer =>
      bool_decide (asset_code asset = "native"%string) || String.eqb issuer "" || String.eqb holder issuer
      || existsb (fun b => bool_decide (fst b = Some (asset_code asset)) && bool_decide (snd b = Some issuer)) balances
  end.

Definition assertRecipientCanReceive (p : PricedCrossChainSwap) : crossing unit :=
  let d := pc_destination p in
  match ca_contract d with
  | Some issuer =>
      if bool_decide (ca_chain d = On stellar) then
        account ← asking (fun s => n_loadAccount (near s) (pc_recipient p));
        match account with
        | AccountNotFound => Raise (badRequest ValidationFailed)
        | AccountFailed => Raise (unavailable ProviderUnavailable)
        | AccountLoaded balances =>
            asset ← pure (resolveAsset (Some (ca_symbol d)) (Some issuer));
            if hasTrustline balances asset (pc_recipient p) then Ret tt else Raise (badRequest TrustlineMissing)
        end
      else Ret tt
  | None => Ret tt
  end.

Definition requestTerms (dto : CrossDto) : crossing (CrossChainRequestTerms * option MerchantFeeTerms) :=
  l ← tokens;
  pure (
    origin ← resolveCrossChainAsset l (xd_originChain dto) (xd_originAsset dto);
    destination ← resolveCrossChainAsset l (xd_destinationChain dto) (xd_destinationAsset dto);
    units ← baseUnits (xd_amount dto) origin;
    merchant ← merchantFeeTerms dto origin;
    slippageBps ← resolveSlippage (xd_slippageBps dto) near_slippageBps near_maxSlippageBps;
    Ok (mkCrossRequestTerms (ca_chain origin) (ca_assetId origin) (ca_chain destination) (ca_assetId destination)
          (formatUnits (MerchantFee.total (splitMerchantFee units merchant)) (ca_decimals origin))
          (normalizedAddress (xd_destinationChain dto) (xd_recipient dto)) (normalizedAddress (xd_originChain dto) (xd_refundTo dto)) slippageBps,
        merchant)).

(** The columns of a row a request is compared with. *)
Definition stored_terms (t : CrossTerms) : CrossChainRequestTerms :=
  mkCrossRequestTerms (lg_chain (xt_origin t)) (lg_assetId (xt_origin t)) (lg_chain (xt_destination t)) (lg_assetId (xt_destination t))
    (xt_amountIn t) (xt_recipient t) (xt_refundTo t) (xt_slippageBps t).

Definition replay (existing : CrossChainSwap) (terms : CrossChainRequestTerms * option MerchantFeeTerms) : res CrossChainSwap :=
  let t := xs_terms existing in
  if bool_decide (stored_terms t = fst terms) && sameMerchantFee (xt_merchantFee t) (snd terms) (lg_decimals (xt_origin t))
  then Ok existing
  else Throw (conflict IdempotencyConflict).

Definition findByIdempotencyKey (consumerId key : string) : crossing (option CrossChainSwap) :=
  asking (fun s => head (List.filter (fun r => bool_decide (xt_consumerId (xs_terms r) = consumerId)
                                               && bool_decide (xt_idempotencyKey (xs_terms r) = Some key)) (map_to_list (cross_swaps s)).*2)).

(** [new Date(quote.deadline ?? request.deadline)], which the database refuses when it is
    no date. *)
Definition expires_at (p : PricedCrossChainSwap) (r : NearIntentsQuoteResponse) : res Z :=
  match qu_deadline (qr_quote r) with
  | None => Ok (nq_deadline (pc_request p))
  | Some d => res_of_option JsError d
  end.

(** The row's columns, but for its id and instants. *)
Definition row_of (consumerId : string) (p : PricedCrossChainSwap) (r : NearIntentsQuoteResponse) (address : string) (uri : option string)
    (least : string) (key : option string) (expiresAt : Z) (i : string) (createdAt : Z) : CrossTerms :=
  let q := qr_quote r in
  mkCrossTerms i consumerId (leg_of (pc_origin p)) (leg_of (pc_destination p)) (pc_amountIn p) (pc_feeBps p) (pc_feeAmount p)
    (match pc_merchantFee p with Some (_, record) => record_json record | None => JNull end)
    (qu_amountOutFormatted q) least (pc_slippageBps p) (pc_recipient p) (pc_refundTo p) address (qu_depositMemo q) uri
    (qu_timeEstimate q) (qr_correlationId r) (qr_signature r) r key expiresAt createdAt.

(** [persist]: a unique violation is no row, when there is a key. *)
Definition persist (key : option string) (terms : string -> Z -> CrossTerms) : crossing (option CrossChainSwap) :=
  catching (r ← stmt (create_cross terms); Ret (Some r))
    (fun err => if isUniqueViolation err && truthy key then Ret None else Raise err).

(** The stored swap of a key, when the request is the one it was stored for. *)
Definition replayed_swap (dto : CrossDto) (e : CrossChainSwap) : crossing CrossChainSwap :=
  terms ← requestTerms dto; pure (replay e terms).

Definition find_by_key (consumerId : string) (key : option string) : crossing (option CrossChainSwap) :=
  match key with Some k => findByIdempotencyKey consumerId k | None => Ret None end.

(** A live quote, and its row. *)
Definition open_swap (caller : Caller) (dto : CrossDto) (consumerId : string) (key : option string) : crossing CrossChainSwap :=
  x ← price caller dto true;
  let '(p, r) := x in
  _ ← assertRecipientCanReceive p;
  match given (qu_depositAddress (qr_quote r)) with
  | None => Raise (badGateway ProviderError)
  | Some address =>
      uri ← pure (depositLink (mkDeposit address (qu_depositMemo (qr_quote r)) (pc_amountIn p) (pc_origin p)));
      least ← pure (minimumOut p r);
      expiresAt ← pure (expires_at p r);
      row ← persist key (row_of consumerId p r address uri least key expiresAt);
      match row with
      | None =>
          raced ← find_by_key consumerId key;
          match raced with Some e => replayed_swap dto e | None => Raise (conflict IdempotencyConflict) end
      | Some swap => _ ← emit_cross (username (cl_consumer caller)) CROSS_CHAIN_SWAP_CREATED swap; Ret swap
      end
  end.

Definition build (caller : Caller) (dto : CrossDto) (header : option string) : crossing CrossChainSwap :=
  if negb (String.eqb (resolveNetwork swap_env (cl_consumer caller)) "public") then Raise (badRequest NetworkUnsupported)
  else
    consumerId ← stmt (resolve_payer (username (cl_consumer caller)));
    let key := resolveIdempotencyKey header (xd_idempotencyKey dto) in
    existing ← find_by_key consumerId key;
    match existing with
    | Some e => replayed_swap dto e
    | None => open_swap caller dto consumerId key
    end.

(** The view, and the swap's read token for the shared public key. *)
Definition create (caller : Caller) (dto : CrossDto) (header : option string) : crossing (CrossChainSwapView * option string) :=
  r ← build caller dto header;
  Ret (present_cross r, issueFor caller "cross-chain-swap" (xt_id (xs_terms r))).

(** ** Read *)

Definition owned_by (user : string) (s : CrossWorld) (r : CrossChainSwap) : bool := bool_decide (xw_consumers s !! user = Some (xt_consumerId (xs_terms r))).

Definition newer_cross (a b : CrossChainSwap) : Prop := xt_createdAt (xs_terms b) <= xt_createdAt (xs_terms a).
#[export] Instance newer_cross_dec a b : Decision (newer_cross a b).
Proof. unfold newer_cross. apply _. Defined.

(** Every row is of the public network. *)
Definition listed (caller : Caller) (status : option CrossChainSwapStatus) (s : CrossWorld) : list CrossChainSwap :=
  if String.eqb (resolveNetwork swap_env (cl_consumer caller)) "public" then
    List.filter (fun r => owned_by (username (cl_consumer caller)) s r
                          && match status with Some st => bool_decide (xs_status r = st) | None => true end) (map_to_list (cross_swaps s)).*2
  else [].

(** The page and the count are two statements. *)
Definition findAll (caller : Caller) (status : option CrossChainSwapStatus) (take_ skip : nat) : crossing (list json * nat) :=
  data ← asking (fun s => List.map public_cross (take take_ (drop skip (merge_sort newer_cross (listed caller status s)))));
  count ← asking (fun s => length (listed caller status s));
  Ret (data, count).

Definition findOwned (caller : Caller) (i : string) (token : option string) (legacyRoute : bool) : crossing CrossChainSwap :=
  if negb (admits caller "cross-chain-swap" i token legacyRoute) then Raise notFound
  else
    r ← asking (fun s => r ← cross_swaps s !! i; if owned_by (username (cl_consumer caller)) s r then Some r else None);
    pure (res_of_option notFound r).

Definition findOne (caller : Caller) (i : string) (token : option string) : crossing CrossChainSwapView :=
  r ← findOwned caller i token false; Ret (present_cross r).

(** ** Settlement *)

(** A detail is kept when it is there and not nothing. *)
Definition settled_amount (units formatted : option string) : option string :=
  if truthy formatted && negb (bool_decide (units = Some "0"%string)) then formatted else None.
Definition seen_hashes (l : list json) : option (list json) := match l with [] => None | _ => Some l end.
Definition or_else {A} (new old : option A) : option A := match new with Some _ => new | None => old end.

(** The [data] of the two updates: what 1Click reports and, on a move, the status. *)
Definition recorded (now : Z) (status : option NearIntentsStatusResponse) (next : option CrossChainSwapStatus) (updatedAt : Z) (r : CrossChainSwap) : CrossChainSwap :=
  let details := status ≫= sr_swapDetails in
  mkCrossSwap (xs_terms r) (default (xs_status r) next) (match status with Some a => sr_status a | None => xs_providerStatus r end) (xs_depositTxHash r)
    (or_else (d ← details; settled_amount (sd_amountOut d) (sd_amountOutFormatted d)) (xs_amountOut r))
    (or_else (d ← details; settled_amount (sd_refundedAmount d) (sd_refundedAmountFormatted d)) (xs_refundedAmount r))
    (or_else (d ← details; seen_hashes (sd_originTxHashes d)) (xs_originTxHashes r))
    (or_else (d ← details; seen_hashes (sd_destinationTxHashes d)) (xs_destinationTxHashes r))
    (Some now) updatedAt.

(** Where the answer moves a row that was read; none is an address 1Click does not
    know. *)
Definition next_of (now : Z) (swap : CrossChainSwap) (status : option NearIntentsStatusResponse) : option CrossChainSwapStatus :=
  match status with
  | Some a => nextStatus (xs_status swap) (sr_status a) now (xt_expiresAt (xs_terms swap))
  | None => if bool_decide (xs_status swap = AWAITING_DEPOSIT) && (xt_expiresAt (xs_terms swap) <? now) then Some X_EXPIRED else None
  end.

Definition applyProviderStatus (swap : CrossChainSwap) (status : option NearIntentsStatusResponse) (user : string) : crossing CrossChainSwap :=
  now ← asking xw_clock;
  let i := xt_id (xs_terms swap) in
  let as_read r := bool_decide (xs_status r = xs_status swap) in
  match next_of now swap status with
  | None => _ ← stmt (update_cross i as_read (recorded now status None)); Ret (recorded now status None (xs_updatedAt swap) swap)
  | Some next =>
      count ← stmt (update_cross i as_read (recorded now status (Some next)));
      row ← find_cross i;
      _ ← (if (count =? 1)%nat then discard (emit_cross user (CROSS_CHAIN_STATUS_EVENTS next) row) else Ret tt);
      Ret row
  end.

(** ** Deposit *)

Definition with_deposit (hash : string) (updatedAt : Z) (r : CrossChainSwap) : CrossChainSwap :=
  mkCrossSwap (xs_terms r) (xs_status r) (xs_providerStatus r) (Some hash) (xs_amountOut r) (xs_refundedAmount r)
    (xs_originTxHashes r) (xs_destinationTxHashes r) (xs_lastCheckedAt r) updatedAt.

(** The answer to a status, remembered under its address. *)
Definition reported (t : CrossTerms) (a : NearIntentsStatusResponse) : CrossEvent := Reported (xt_depositAddress t) (given (xt_depositMemo t)) a.

Definition submitDeposit (caller : Caller) (i : string) (txHash : string) (token : option string) : crossing CrossChainSwapView :=
  swap ← findOwned caller i token true;
  let t := xs_terms swap in
  let rule := cn_txId (CROSS_CHAIN_NETWORKS (lg_chain (xt_origin t))) in
  if negb (tr_isValid rule txHash) then Raise (badRequest ValidationFailed)
  else if isTerminal (xs_status swap) then Raise (badRequest InvalidStateTransition)
  else
    let hash := tr_normalize rule txHash in
    status ← stmt (calling (fun o => n_submitDeposit o hash (xt_depositAddress t) (given (xt_depositMemo t))) (fun a => Some (reported t a)));
    count ← stmt (update_cross (xt_id t) (fun _ => true) (with_deposit hash));
    if (count =? 1)%nat then
      row ← applyProviderStatus (with_deposit hash (xs_updatedAt swap) swap) (Some status) (username (cl_consumer caller));
      Ret (present_cross row)
    else Raise JsError.

(** ** The observer *)

Definition CROSS_CHAIN_OBSERVER_BATCH : nat := 50.
Definition CROSS_CHAIN_RESCUE_WINDOW_MS : Z := 24 * 60 * 60 * 1000.

Definition due (now : Z) (r : CrossChainSwap) : bool :=
  bool_decide (xs_status r ∈ CROSS_CHAIN_OPEN_STATUSES)
  || bool_decide (xs_status r = X_EXPIRED) && (now - CROSS_CHAIN_RESCUE_WINDOW_MS <=? xt_expiresAt (xs_terms r)).

(** [lastCheckedAt] ascending, nulls first. *)
Definition checked_before (a b : CrossChainSwap) : Prop :=
  match xs_lastCheckedAt a, xs_lastCheckedAt b with
  | None, _ => True
  | Some _, None => False
  | Some x, Some y => x <= y
  end.
#[export] Instance cross_checked_before_dec a b : Decision (checked_before a b).
Proof. unfold checked_before. destruct (xs_lastCheckedAt a), (xs_lastCheckedAt b); apply _. Defined.

Definition username_of (s : CrossWorld) (consumerId : string) : string :=
  match List.find (fun x => String.eqb (snd x) consumerId) (map_to_list (xw_consumers s)) with Some (u, _) => u | None => "" end.

Definition batch (now : Z) (s : CrossWorld) : list (CrossChainSwap * string) :=
  List.map (fun r => (r, username_of s (xt_consumerId (xs_terms r))))
    (take CROSS_CHAIN_OBSERVER_BATCH (merge_sort checked_before (List.filter (due now) (map_to_list (cross_swaps s)).*2))).

Definition observe (swap : CrossChainSwap) (user : string) : crossing unit :=
  let t := xs_terms swap in
  status ← stmt (calling (fun o => n_status o (xt_depositAddress t) (given (xt_depositMemo t))) (fun a => reported t <$> a));
  discard (applyProviderStatus swap status user).

Definition tick : crossing unit :=
  now ← asking xw_clock;
  rows ← asking (batch now);
  for_each rows (fun x => catching (observe (fst x) (snd x)) (fun _ => Ret tt)).
End service.
