(* ===== verification/CrossChainSafety.v ===== *)
(** Cross-chain swaps under concurrency: what the service writes on a row comes from
    1Click's answers. The invariant [cross_ok] and the relation [cross_advanced]
    between worlds that every method keeps in any interleaving. *)

From S2P Require Import Prelude Text Units MerchantFee Intents ChainAddress Webhooks Programs IntentService EscrowStore EscrowJobs ChainSwapVenues ChainSwaps CrossChainNetworks CrossChainStore CrossChainSwaps.
From stdpp Require Import base tactics list option sets gmap strings sorting.
From Stdlib Require Import ZArith QArith_base Lia Ascii.

Open Scope Z_scope.

(** ** What a row keeps as it changes *)

(** A swap that ended keeps all but the hash its payer may still report. *)
Definition frozen (r r' : CrossChainSwap) : Prop :=
  xs_status r' = xs_status r /\ xs_providerStatus r' = xs_providerStatus r /\ xs_amountOut r' = xs_amountOut r
  /\ xs_refundedAmount r' = xs_refundedAmount r /\ xs_originTxHashes r' = xs_originTxHashes r
  /\ xs_destinationTxHashes r' = xs_destinationTxHashes r.
#[export] Instance frozen_preorder : PreOrder frozen.
Proof. unfold frozen. split; [by intros r|]. intros a b c H1 H2. naive_solver congruence. Qed.

Record cross_evolves (r r' : CrossChainSwap) : Prop := mkCrossEvolves {
  ce_terms : xs_terms r' = xs_terms r;
  ce_ended : isTerminal (xs_status r) = true -> frozen r r'
}.
#[export] Instance cross_evolves_preorder : PreOrder cross_evolves.
Proof.
  split; [intros r; by split|]. intros a b c [H1 H2] [H3 H4]. split; [congruence|]. intros H. specialize (H2 H).
  etransitivity; [exact H2|]. apply H4. destruct H2 as [-> _]. exact H.
Qed.

Record cross_advanced (s s' : CrossWorld) : Prop := mkCrossAdvanced {
  ca_history : xw_history s `prefix_of` xw_history s';
  ca_rows : forall i r, cross_swaps s !! i = Some r -> exists r', cross_swaps s' !! i = Some r' /\ cross_evolves r r';
  ca_clock : xw_clock s <= xw_clock s'
}.
#[export] Instance cross_advanced_preorder : PreOrder cross_advanced.
Proof.
  split.
  - intros s. split; [done|intros i r H; by exists r|lia].
  - intros s t u [H1 H2 H3] [H4 H5 H6]. split; [by etransitivity| |lia].
    intros i r H. destruct (H2 _ _ H) as (r1 & K1 & E1). destruct (H5 _ _ K1) as (r2 & K2 & E2). exists r2. split; [done|]. by etransitivity.
Qed.

Section safety.
Context `{CC : CrossChainCrypto} `{CONFIG : SwapConfig} `{NI : NearIntentsConfig} `{DRAWS : CrossDraws}.

(** ** What a row says *)

(** The row's deposit is what 1Click answered to a live quote on the row's terms. *)
Definition backed (h : list CrossEvent) (t : CrossTerms) : Prop :=
  exists q asset, Quoted q (xt_quote t) ∈ h
    /\ nq_dry q = false /\ nq_recipient q = xt_recipient t /\ nq_refundTo q = xt_refundTo t /\ nq_slippageTolerance q = xt_slippageBps t
    /\ nq_originAsset q = lg_assetId (xt_origin t) /\ nq_destinationAsset q = lg_assetId (xt_destination t)
    /\ (exists units, nq_amount q = toString units /\ xt_amountIn t = formatUnits units (lg_decimals (xt_origin t)))
    /\ qu_depositAddress (qr_quote (xt_quote t)) = Some (xt_depositAddress t) /\ qu_depositMemo (qr_quote (xt_quote t)) = xt_depositMemo t
    /\ leg_of asset = xt_origin t
    /\ depositLink (mkDeposit (xt_depositAddress t) (xt_depositMemo t) (xt_amountIn t) asset) = Ok (xt_depositUri t)
    /\ isCrossChainAddress (lg_chain (xt_destination t)) (xt_recipient t) = true
    /\ isCrossChainAddress (lg_chain (xt_origin t)) (xt_refundTo t) = true.

(** 1Click answered [a] of the row's deposit. *)
Definition answered_of (h : list CrossEvent) (t : CrossTerms) (a : NearIntentsStatusResponse) : Prop := reported t a ∈ h.

Definition told (h : list CrossEvent) (r : CrossChainSwap) (st : CrossChainSwapStatus) : Prop :=
  exists a p, answered_of h (xs_terms r) a /\ isProviderStatus (sr_status a) = Some p /\ PROVIDER_STATUS_MAP p = st.

Definition cross_standing (h : list CrossEvent) (clock : Z) (r : CrossChainSwap) : Prop :=
  match xs_status r with
  | AWAITING_DEPOSIT => True
  | X_EXPIRED => xt_expiresAt (xs_terms r) < clock
  | st => told h r st
  end.

(** An amount on the row is one 1Click gave. *)
Definition detailed (h : list CrossEvent) (t : CrossTerms) (units formatted : NearIntentsSwapDetails -> option string) (o : option string) : Prop :=
  forall v, o = Some v -> exists a d, answered_of h t a /\ sr_swapDetails a = Some d /\ formatted d = Some v /\ units d <> Some "0"%string.

Record cross_row_ok (h : list CrossEvent) (clock : Z) (r : CrossChainSwap) : Prop := mkCrossRowOk {
  cr_backed : backed h (xs_terms r);
  cr_standing : cross_standing h clock r;
  cr_amountOut : detailed h (xs_terms r) sd_amountOut sd_amountOutFormatted (xs_amountOut r);
  cr_refunded : detailed h (xs_terms r) sd_refundedAmount sd_refundedAmountFormatted (xs_refundedAmount r);
  cr_deposit : forall x, xs_depositTxHash r = Some x -> tr_isValid (cn_txId (CROSS_CHAIN_NETWORKS (lg_chain (xt_origin (xs_terms r))))) x = true
}.

Record cross_ok (s : CrossWorld) : Prop := mkCrossOk {
  co_id : forall i r, cross_swaps s !! i = Some r -> xt_id (xs_terms r) = i;
  co_rows : forall i r, cross_swaps s !! i = Some r -> cross_row_ok (xw_history s) (xw_clock s) r;
  co_unique : forall i j r r', cross_swaps s !! i = Some r -> cross_swaps s !! j = Some r' -> i <> j ->
    same_cross_key (xs_terms r) (xs_terms r') = false /\ same_deposit (xs_terms r) (xs_terms r') = false
}.

Abbreviation safe := (safe cross_ok cross_advanced).
Abbreviation ensures := (ensures cross_ok cross_advanced).

Lemma event_prefix (h h' : list CrossEvent) e : h `prefix_of` h' -> e ∈ h -> e ∈ h'.
Proof. intros [k ->] H. set_solver. Qed.

Lemma told_mono h h' r st : h `prefix_of` h' -> told h r st -> told h' r st.
Proof. intros Hp (a & p & H & ?). exists a, p. split; [by eapply event_prefix|done]. Qed.

Lemma detailed_mono h h' t units formatted o : h `prefix_of` h' -> detailed h t units formatted o -> detailed h' t units formatted o.
Proof. intros Hp H v Hv. destruct (H v Hv) as (a & d & Ha & ?). exists a, d. split; [by eapply event_prefix|done]. Qed.

Lemma cross_row_mono h h' c c' r : h `prefix_of` h' -> c <= c' -> cross_row_ok h c r -> cross_row_ok h' c' r.
Proof.
  intros Hp Hc [(q & asset & Hq & K) H2 H3 H4 H5]. split; try (eapply detailed_mono; [exact Hp|done]); [|..|done].
  - exists q, asset. split; [by eapply event_prefix|exact K].
  - unfold cross_standing in *. destruct (xs_status r); try done; try (by eapply told_mono). lia.
Qed.

(** ** Statements *)

Lemma same_cross_key_sym a b : same_cross_key a b = same_cross_key b a.
Proof.
  unfold same_cross_key. f_equal; [by apply bool_decide_ext|]. destruct (xt_idempotencyKey a), (xt_idempotencyKey b); try done. by apply bool_decide_ext.
Qed.
Lemma same_deposit_sym a b : same_deposit a b = same_deposit b a.
Proof.
  unfold same_deposit. f_equal; [by apply bool_decide_ext|]. destruct (xt_depositMemo a), (xt_depositMemo b); try done. by apply bool_decide_ext.
Qed.

Lemma cross_not_violated t s : cross_violated t s = None ->
  forall j r, cross_swaps s !! j = Some r -> same_cross_key t (xs_terms r) = false /\ same_deposit t (xs_terms r) = false.
Proof.
  unfold cross_violated. set (others := _.*2). destruct (existsb (fun r => same_cross_key t _) others) eqn:E1; [done|].
  destruct (existsb (fun r => same_deposit t _) others) eqn:E2; [done|]. intros _ j r Hj.
  assert (Hr : In r others) by (apply list_elem_of_In, list_elem_of_fmap; exists (j, r); split; [done|by apply elem_of_map_to_list]).
  split; apply not_true_iff_false; intros K; [rewrite <- not_true_iff_false, existsb_exists in E1; apply E1|rewrite <- not_true_iff_false, existsb_exists in E2; apply E2]; by exists r.
Qed.

(** The swaps, the history and the clock stay. *)
Definition cross_untouched (s s' : CrossWorld) : Prop :=
  cross_swaps s' = cross_swaps s /\ xw_history s' = xw_history s /\ xw_clock s' = xw_clock s.

Lemma cross_untouched_ok s s' : cross_untouched s s' -> cross_ok s -> cross_ok s' /\ cross_advanced s s'.
Proof.
  intros (E1 & E2 & E3) [K1 K2 K3]. split; [split; rewrite ?E1, ?E2, ?E3; done|]. split; rewrite ?E1, ?E2, ?E3; [done| |lia].
  intros i r H. by exists r.
Qed.

Lemma cross_untouched_stmt {A} (f : svc CrossWorld A) s0 : (forall s, cross_untouched s (fst (f s))) -> safe (stmt f) s0.
Proof. intros H. apply safe_stmt. intros s _ Hi. by apply cross_untouched_ok. Qed.

(** 1Click is asked; what it answers is remembered. *)
Lemma cross_logged_ok s e : cross_ok s -> cross_ok (xw_log e s) /\ cross_advanced s (xw_log e s).
Proof.
  intros [K1 K2 K3]. assert (Hp : xw_history s `prefix_of` xw_history s ++ [e]) by (by eexists).
  split; [split|split]; cbn [xw_log cross_swaps xw_history xw_clock]; try done.
  - intros i r H. eapply cross_row_mono; [exact Hp|reflexivity|eauto].
  - intros i r H. by exists r.
Qed.

Lemma calling_ensures {A} (f : NearOutside -> res A) (event : A -> option CrossEvent) s0 :
  ensures (stmt (calling f event)) (fun a s => forall e, event a = Some e -> e ∈ xw_history s) s0.
Proof.
  apply wp_stmt. intros s _ Hi. unfold calling. destruct (f (near s)) as [a|e]; [|done]. destruct (event a) as [e|] eqn:E; [|split; [done|split; [reflexivity|cbn; intros ??; congruence]]].
  destruct (cross_logged_ok s e Hi) as [H1 H2]. split; [exact H1|]. split; [exact H2|]. intros e' He. injection (eq_trans (eq_sym E) He) as <-.
  cbn. set_solver.
Qed.

(** A row written, its uniqueness kept. *)
Lemma cross_written_ok s i r : cross_ok s -> xt_id (xs_terms r) = i -> cross_row_ok (xw_history s) (xw_clock s) r ->
  (forall j r', j <> i -> cross_swaps s !! j = Some r' -> same_cross_key (xs_terms r) (xs_terms r') = false /\ same_deposit (xs_terms r) (xs_terms r') = false) ->
  (forall r0, cross_swaps s !! i = Some r0 -> cross_evolves r0 r) ->
  let s' := set_cross_swaps (fun m => <[i := r]> m) s in cross_ok s' /\ cross_advanced s s'.
Proof.
  intros [K1 K2 K3] Hid Hrow Hv Hev. cbv zeta. split; [split|split]; cbn [set_cross_swaps cross_swaps xw_history xw_clock].
  - intros j r' [[<- <-]|[? ?]]%lookup_insert_Some; auto.
  - intros j r' [[<- <-]|[? ?]]%lookup_insert_Some; eauto.
  - intros j k a b [[<- <-]|[Hj Ha]]%lookup_insert_Some [[<- <-]|[Hk Hb]]%lookup_insert_Some Hne; try done.
    + by apply (Hv k).
    + rewrite same_cross_key_sym, same_deposit_sym. by apply (Hv j).
    + by eapply K3.
  - done.
  - intros j r' Hj. destruct (decide (i = j)) as [<-|Hne]; [exists r; rewrite lookup_insert_eq; by auto|]. exists r'. by rewrite lookup_insert_ne.
  - lia.
Qed.

(** The row of a swap that was read. *)
Definition cross_of (swap : CrossChainSwap) (s : CrossWorld) : Prop :=
  exists r, cross_swaps s !! xt_id (xs_terms swap) = Some r /\ cross_evolves swap r.

Lemma cross_of_mono swap s s' : cross_of swap s -> cross_advanced s s' -> cross_of swap s'.
Proof. intros (r & Hr & He) [_ Hrows _]. destruct (Hrows _ _ Hr) as (r' & Hr' & He'). exists r'. split; [done|]. by etransitivity. Qed.

Lemma cross_in_table i r s : cross_ok s -> cross_swaps s !! i = Some r -> cross_of r s.
Proof. intros Hi Hr. exists r. split; [|done]. by rewrite (co_id _ Hi _ _ Hr). Qed.

(** An update that keeps the terms and leaves a row that is in order. *)
Lemma update_cross_safe swap guard data s0 : cross_of swap s0 ->
  (forall s r, cross_advanced s0 s -> cross_ok s -> xs_terms r = xs_terms swap -> cross_row_ok (xw_history s) (xw_clock s) r -> guard r = true ->
     cross_evolves r (data (xw_clock s) r) /\ cross_row_ok (xw_history s) (xw_clock s) (data (xw_clock s) r)) ->
  safe (stmt (update_cross (xt_id (xs_terms swap)) guard data)) s0.
Proof.
  intros Hrow H. apply safe_stmt. intros s Hs Hi. unfold update_cross. destruct (cross_of_mono _ _ _ Hrow Hs) as (r & Hr & He). rewrite Hr.
  destruct (guard r) eqn:Eg; [|done]. cbn [fst].
  destruct (H s r Hs Hi (ce_terms _ _ He) (co_rows _ Hi _ _ Hr) Eg) as [H1 H2].
  apply (cross_written_ok s _ _ Hi); [|exact H2| |].
  - rewrite (ce_terms _ _ H1). exact (co_id _ Hi _ _ Hr).
  - intros j r' Hj Hr'. rewrite (ce_terms _ _ H1). apply (co_unique _ Hi _ _ _ _ Hr Hr'). congruence.
  - intros r0 Hr0. rewrite Hr in Hr0. by injection Hr0 as <-.
Qed.

(** ** Pricing *)

(** What [price] settles before it asks 1Click. *)
Record priced_for (dto : CrossDto) (live : bool) (p : PricedCrossChainSwap) : Prop := mkPricedFor {
  pf_origin : ca_chain (pc_origin p) = xd_originChain dto;
  pf_destination : ca_chain (pc_destination p) = xd_destinationChain dto;
  pf_recipient : pc_recipient p = normalizedAddress (xd_destinationChain dto) (xd_recipient dto);
  pf_refundTo : pc_refundTo p = normalizedAddress (xd_originChain dto) (xd_refundTo dto);
  pf_dry : nq_dry (pc_request p) = negb live;
  pf_request : nq_recipient (pc_request p) = pc_recipient p /\ nq_refundTo (pc_request p) = pc_refundTo p
    /\ nq_originAsset (pc_request p) = ca_assetId (pc_origin p) /\ nq_destinationAsset (pc_request p) = ca_assetId (pc_destination p)
    /\ nq_slippageTolerance (pc_request p) = pc_slippageBps p;
  pf_amount : exists units merchant, parseUnits (xd_amount dto) (ca_decimals (pc_origin p)) = Ok units /\ 0 < units
    /\ merchantFeeTerms dto (pc_origin p) = Ok merchant
    /\ nq_amount (pc_request p) = toString (MerchantFee.total (splitMerchantFee units merchant))
    /\ pc_amountIn p = formatUnits (MerchantFee.total (splitMerchantFee units merchant)) (ca_decimals (pc_origin p));
  pf_slippage : pc_slippageBps p <= near_maxSlippageBps
}.

Lemma baseUnits_spec amount asset units : baseUnits amount asset = Ok units -> parseUnits amount (ca_decimals asset) = Ok units /\ 0 < units.
Proof.
  unfold baseUnits. destruct (parseUnits _ _) as [u|]; [|done]. destruct (Z.leb_spec u 0); [done|]. intros [= <-]. done.
Qed.

Lemma slippage_spec requested policy maximum bps : resolveSlippage requested policy maximum = Ok bps -> bps <= maximum.
Proof. unfold resolveSlippage. destruct (Z.ltb_spec maximum (default policy requested)); [done|]. intros [= <-]. lia. Qed.

Lemma price_request_spec caller dto live now l p : price_request caller dto live now l = Ok p -> priced_for dto live p.
Proof.
  unfold price_request. intros H. destruct (resolveCrossChainAsset l (xd_originChain dto) _) as [o|] eqn:Eo; [|done]. cbn [mbind res_bind] in H.
  destruct (resolveCrossChainAsset l (xd_destinationChain dto) _) as [d|] eqn:Ed; [|done]. cbn [mbind res_bind] in H.
  apply resolved_on in Eo as [_ Eo], Ed as [_ Ed]. destruct (throw_if _ _); [|done]. cbn [mbind res_bind] in H.
  destruct (baseUnits (xd_amount dto) o) as [units|] eqn:Eu; [|done]. apply baseUnits_spec in Eu as [Eu Hu]. cbn [mbind res_bind] in H.
  destruct (merchantFeeTerms dto o) as [m|] eqn:Em; [|done]. cbn [mbind res_bind] in H.
  destruct (assertMerchantFeeCovered _ _); [|done]. cbn [mbind res_bind] in H. destruct (merchantAppFeeBps _ _) as [mb|]; [|done]. cbn [mbind res_bind] in H.
  destruct (resolveSlippage _ _ _) as [sl|] eqn:Es; [|done]. apply slippage_spec in Es. cbn [mbind res_bind] in H.
  destruct (resolvePlanCommissionBps _ _) as [plan|]; [|done]. cbn [mbind res_bind] in H. destruct (commissionWithRecipient _ _ _) as [fb|]; [|done].
  injection H as <-. split; cbn; try done. by exists units, m.
Qed.

Lemma price_request_assets caller dto live now l p : price_request caller dto live now l = Ok p ->
  resolveCrossChainAsset l (xd_originChain dto) (xd_originAsset dto) = Ok (pc_origin p)
  /\ resolveCrossChainAsset l (xd_destinationChain dto) (xd_destinationAsset dto) = Ok (pc_destination p).
Proof.
  unfold price_request. intros H. destruct (resolveCrossChainAsset l (xd_originChain dto) _) as [o|]; [|done]. cbn [mbind res_bind] in H.
  destruct (resolveCrossChainAsset l (xd_destinationChain dto) _) as [d|]; [|done]. cbn [mbind res_bind] in H.
  destruct (throw_if _ _); [|done]. cbn [mbind res_bind] in H. destruct (baseUnits _ _); [|done]. cbn [mbind res_bind] in H.
  destruct (merchantFeeTerms dto o); [|done]. cbn [mbind res_bind] in H. destruct (assertMerchantFeeCovered _ _); [|done]. cbn [mbind res_bind] in H.
  destruct (merchantAppFeeBps _ _); [|done]. cbn [mbind res_bind] in H. destruct (resolveSlippage _ _ _); [|done]. cbn [mbind res_bind] in H.
  destruct (resolvePlanCommissionBps _ _); [|done]. cbn [mbind res_bind] in H. destruct (commissionWithRecipient _ _ _); [|done]. by injection H as <-.
Qed.

Lemma tokens_safe s0 : safe tokens s0.
Proof.
  assert (Hr : forall s, safe refreshTokens s) by (intros s; apply cross_untouched_stmt; intros s'; by destruct (n_tokens (near s'))).
  unfold tokens. apply (safe_bind cross_ok cross_advanced); [apply (safe_asking cross_ok cross_advanced)|]. intros [[age l]|] s _; [|apply Hr].
  destruct (_ <? _); [done|]. by destruct (_ <? _).
Qed.

Lemma price_ensures caller dto live s0 :
  ensures (price caller dto live) (fun x s => priced_for dto live (fst x) /\ Quoted (pc_request (fst x)) (snd x) ∈ xw_history s) s0.
Proof.
  unfold price. destruct (same_chain dto); [done|]. eapply (ensures_bind cross_ok cross_advanced); [apply (safe_ensures cross_ok cross_advanced), tokens_safe|].
  intros l s1 _ _. apply (ensures_asking_bind cross_ok cross_advanced). intros s _ _. apply (ensures_pure_bind cross_ok cross_advanced). intros p Hp.
  eapply (ensures_bind cross_ok cross_advanced); [apply calling_ensures|]. intros r s2 _ Hr. cbn. split; [by eapply price_request_spec|by apply Hr].
Qed.

Lemma cross_quote_safe caller dto s0 : safe (quote caller dto) s0.
Proof.
  unfold quote. apply (safe_bind cross_ok cross_advanced); [by eapply (ensures_safe cross_ok cross_advanced), price_ensures|]. intros [p r] s _.
  apply (safe_bind cross_ok cross_advanced); [apply (safe_pure cross_ok cross_advanced)|done].
Qed.

(** ** The methods *)

Lemma emit_cross_safe user t r s0 : safe (emit_cross user t r) s0.
Proof. apply cross_untouched_stmt. intros s. by destruct (Webhooks.emit _ _ _ _ _) as [h o]. Qed.

Lemma resolve_payer_safe user s0 : safe (stmt (resolve_payer user)) s0.
Proof. apply cross_untouched_stmt. intros s. unfold resolve_payer. by destruct (xw_consumers s !! user). Qed.

Lemma find_by_key_safe c key s0 : safe (find_by_key c key) s0.
Proof. destruct key; [apply (safe_asking cross_ok cross_advanced)|done]. Qed.

Lemma replayed_safe dto e s0 : safe (replayed_swap dto e) s0.
Proof.
  apply (safe_bind cross_ok cross_advanced); [|intros t s _; apply (safe_pure cross_ok cross_advanced)].
  apply (safe_bind cross_ok cross_advanced); [apply tokens_safe|]. intros l s _. apply (safe_pure cross_ok cross_advanced).
Qed.

Lemma receive_safe p s0 : safe (assertRecipientCanReceive p) s0.
Proof.
  unfold assertRecipientCanReceive. destruct (ca_contract _) as [issuer|]; [|done]. destruct (bool_decide _); [|done].
  apply (safe_bind cross_ok cross_advanced); [apply (safe_asking cross_ok cross_advanced)|]. intros [b| |] s _; [|done|done].
  apply (safe_bind cross_ok cross_advanced); [apply (safe_pure cross_ok cross_advanced)|]. intros a s1 _. by destruct (hasTrustline _ _ _).
Qed.

(** The row a create writes. *)
Lemma create_cross_safe terms s0 : (forall i t, xt_id (terms i t) = i) -> (forall i t, backed (xw_history s0) (terms i t)) ->
  safe (stmt (create_cross terms)) s0.
Proof.
  intros Hid Hb. apply safe_stmt. intros s Hs Hi. unfold create_cross. cbv zeta. destruct (cross_swaps s !! _) eqn:E; [done|].
  destruct (cross_violated _ s) eqn:Ev; [done|]. cbn [fst].
  set (i := xw_cuid (xw_drawn s)) in *. set (r := mkCrossSwap _ _ _ _ _ _ _ _ _ _) in *.
  assert (Hrow : cross_row_ok (xw_history s) (xw_clock s) r).
  { split; [|exact I|by intros x Hx..]. destruct (Hb i (xw_clock s)) as (q & a & Hq & K). exists q, a. split; [|exact K].
    eapply event_prefix; [apply (ca_history _ _ Hs)|exact Hq]. }
  edestruct (cross_written_ok s i r) as [K1 K2]; [exact Hi|apply Hid|exact Hrow| |by intros r0; rewrite E|].
  { intros j r' _ Hr'. by apply (cross_not_violated _ s Ev j). }
  edestruct cross_untouched_ok as [L1 L2]; [|exact K1|split; [exact L1|etransitivity; [exact K2|exact L2]]]. by split_and!.
Qed.

Lemma given_some o x : given o = Some x -> o = Some x.
Proof. unfold given. by destruct (truthy o). Qed.

Lemma open_swap_safe caller dto c key s0 : valid_addresses dto = true -> safe (open_swap caller dto c key) s0.
Proof.
  intros [Hv1 Hv2]%andb_true_iff. unfold open_swap. eapply (ensures_safe cross_ok cross_advanced). eapply (ensures_bind cross_ok cross_advanced); [apply price_ensures|].
  intros [p r] s1 _ [Hp Hq]. cbn [fst snd] in *. apply (safe_ensures cross_ok cross_advanced).
  apply (wp_bind cross_ok cross_advanced). eapply (wp_mono cross_ok cross_advanced); [apply receive_safe|]. intros [u|] s2 H2 _; [|done].
  destruct (given (qu_depositAddress (qr_quote r))) as [address|] eqn:Ea; [|done]. apply given_some in Ea.
  apply (safe_pure_bind cross_ok cross_advanced). intros uri Huri. apply (safe_pure_bind cross_ok cross_advanced). intros least Hleast.
  apply (safe_pure_bind cross_ok cross_advanced). intros expiresAt Hexp. apply (safe_bind cross_ok cross_advanced).
  - apply (safe_catching cross_ok cross_advanced); [|by intros e s _; destruct (_ && _)]. apply (safe_bind cross_ok cross_advanced); [|done].
    apply create_cross_safe; [done|]. intros i t. destruct Hp as [P1 P2 P3 P4 P5 (P6 & P7 & P8 & P9 & P10) (units & m & _ & _ & _ & P11 & P12) _].
    exists (pc_request p), (pc_origin p). cbn. split; [eapply event_prefix; [apply (ca_history _ _ H2)|exact Hq]|].
    destruct (address_spelling _ _ Hv1) as [V1 _], (address_spelling _ _ Hv2) as [V2 _].
    split; [exact P5|]. do 5 (split; [done|]). split; [by eexists|]. do 4 (split; [done|]). rewrite P1, P2, P3, P4. done.
  - intros [swap|] s3 _.
    + apply (safe_bind cross_ok cross_advanced); [apply emit_cross_safe|done].
    + apply (safe_bind cross_ok cross_advanced); [apply find_by_key_safe|]. intros [e|] s4 _; [apply replayed_safe|done].
Qed.

Lemma cross_build_safe caller dto header s0 : valid_addresses dto = true -> safe (build caller dto header) s0.
Proof.
  intros Hv. unfold build. destruct (negb _); [done|]. apply (safe_bind cross_ok cross_advanced); [apply resolve_payer_safe|]. intros c s1 _. cbv zeta.
  apply (safe_bind cross_ok cross_advanced); [apply find_by_key_safe|]. intros [e|] s2 _; [apply replayed_safe|by apply open_swap_safe].
Qed.

Lemma find_cross_safe i s0 : safe (find_cross i) s0.
Proof. apply (safe_bind cross_ok cross_advanced); [apply (safe_asking cross_ok cross_advanced)|]. intros o s _. apply (safe_pure cross_ok cross_advanced). Qed.

(** ** What 1Click's answer does to a row *)

(** A row that has not ended is known by its terms. *)
Lemma cross_of_open swap swap' s : xs_terms swap' = xs_terms swap -> isTerminal (xs_status swap') = false -> cross_of swap s -> cross_of swap' s.
Proof. intros Et Hn (r & Hr & [E1 _]). exists r. rewrite Et. split; [exact Hr|]. split; [congruence|]. by rewrite Hn. Qed.

Lemma nextStatus_spec st word now e n : nextStatus st word now e = Some n ->
  exists p, isProviderStatus word = Some p
    /\ (n = X_EXPIRED /\ PROVIDER_STATUS_MAP p = AWAITING_DEPOSIT /\ e < now \/ n = PROVIDER_STATUS_MAP p /\ n <> X_EXPIRED) /\ n <> st.
Proof.
  unfold nextStatus. destruct (isTerminal st); [done|]. destruct (isProviderStatus word) as [p|]; [|done]. intros H. exists p. split; [done|].
  assert (Hx : PROVIDER_STATUS_MAP p <> X_EXPIRED) by by destruct p.
  destruct (bool_decide (PROVIDER_STATUS_MAP p = AWAITING_DEPOSIT)) eqn:E; cbn [andb] in H.
  - apply bool_decide_eq_true in E. destruct (Z.ltb_spec e now); (case_bool_decide; [done|]); injection H as <-; split; auto.
  - case_bool_decide; [done|]. injection H as <-. split; auto.
Qed.

Lemma next_of_standing h clock now swap status n : next_of now swap status = Some n -> now <= clock ->
  (forall a, status = Some a -> answered_of h (xs_terms swap) a) ->
  forall r, xs_terms r = xs_terms swap -> xs_status r = n -> cross_standing h clock r.
Proof.
  intros H Hc Ha r Et <-. unfold cross_standing. destruct status as [a|]; cbn [next_of] in H.
  - destruct (nextStatus_spec _ _ _ _ _ H) as (p & Hp & [(-> & _ & He)|[-> Hx]] & _); [rewrite Et; lia|].
    assert (Ht : told h r (PROVIDER_STATUS_MAP p)) by (exists a, p; rewrite Et; auto). by destruct (PROVIDER_STATUS_MAP p).
  - destruct (bool_decide _); [|done]. destruct (Z.ltb_spec (xt_expiresAt (xs_terms swap)) now); [|done]. injection H as <-. rewrite Et. lia.
Qed.

Lemma detailed_recorded h t units formatted status old :
  (forall a, status = Some a -> answered_of h t a) -> detailed h t units formatted old ->
  detailed h t units formatted (or_else (d ← status ≫= sr_swapDetails; settled_amount (units d) (formatted d)) old).
Proof.
  intros Ha Hold v Hv. unfold or_else in Hv. destruct (_ ≫= _) as [w|] eqn:E; [|by apply Hold]. injection Hv as ->.
  destruct status as [a|]; [|done]. cbn in E. destruct (sr_swapDetails a) as [d|] eqn:Ed; [|done]. cbn in E.
  exists a, d. split; [by apply Ha|]. split; [done|]. unfold settled_amount in E. destruct (truthy _); [|done]. cbn [andb] in E.
  destruct (bool_decide _) eqn:Eb; [done|]. apply bool_decide_eq_false in Eb. split; [done|congruence].
Qed.

Lemma recorded_ok h clock now swap status r updatedAt : xs_terms r = xs_terms swap -> xs_status r = xs_status swap -> now <= clock ->
  (forall a, status = Some a -> answered_of h (xs_terms swap) a) -> cross_row_ok h clock r ->
  cross_row_ok h clock (recorded now status (next_of now swap status) updatedAt r).
Proof.
  intros Et Es Hc Ha [K1 K2 K3 K4 K5]. assert (Ha' : forall a, status = Some a -> answered_of h (xs_terms r) a) by (rewrite Et; exact Ha).
  split; cbn [recorded xs_terms xs_amountOut xs_refundedAmount xs_depositTxHash]; [done| |by apply detailed_recorded..|done].
  destruct (next_of now swap status) as [n|] eqn:En; [by eapply next_of_standing|exact K2].
Qed.

Lemma apply_safe swap status user s0 : cross_of swap s0 -> isTerminal (xs_status swap) = false ->
  (forall a, status = Some a -> answered_of (xw_history s0) (xs_terms swap) a) -> safe (applyProviderStatus swap status user) s0.
Proof.
  intros Hrow Hopen Ha. unfold applyProviderStatus. apply (safe_asking_bind cross_ok cross_advanced). intros s1 H1 _. cbv zeta.
  set (now := xw_clock s1).
  assert (Hupd : safe (stmt (update_cross (xt_id (xs_terms swap)) (fun r => bool_decide (xs_status r = xs_status swap)) (recorded now status (next_of now swap status)))) s1).
  { apply update_cross_safe; [by eapply cross_of_mono|]. intros s r Hs _ Et Hr Hg. apply bool_decide_eq_true in Hg. split.
    - split; [done|]. rewrite Hg, Hopen. done.
    - apply recorded_ok; try done; [apply (ca_clock _ _ Hs)|]. intros a Hst. eapply event_prefix; [|by apply Ha].
      etransitivity; [apply (ca_history _ _ H1)|apply (ca_history _ _ Hs)]. }
  destruct (next_of now swap status) as [n|]; (apply (safe_bind cross_ok cross_advanced); [exact Hupd|]); [|done].
  intros c s2 _. apply (safe_bind cross_ok cross_advanced); [apply find_cross_safe|]. intros row s3 _.
  apply (safe_bind cross_ok cross_advanced); [|done]. destruct (c =? 1)%nat; [|done]. apply (safe_discard cross_ok cross_advanced), emit_cross_safe.
Qed.

Lemma findOwned_ensures caller i token legacy s0 :
  ensures (findOwned caller i token legacy) (fun r s => cross_of r s) s0.
Proof.
  unfold findOwned. destruct (negb _); [done|]. apply (ensures_asking_bind cross_ok cross_advanced). intros s _ Hi. apply (ensures_pure cross_ok cross_advanced).
  intros r H. destruct (cross_swaps s !! i) as [r'|] eqn:E; [|done]. cbn in H. destruct (owned_by _ _ _); [|done]. injection H as <-. by eapply cross_in_table.
Qed.

Lemma deposit_safe caller i txHash token s0 : safe (submitDeposit caller i txHash token) s0.
Proof.
  unfold submitDeposit. eapply (ensures_safe cross_ok cross_advanced). eapply (ensures_bind cross_ok cross_advanced); [apply findOwned_ensures|].
  intros swap s1 _ Hrow. cbv beta in Hrow. apply (safe_ensures cross_ok cross_advanced). cbv zeta. set (t := xs_terms swap) in *.
  destruct (tr_isValid _ txHash) eqn:Hx; [|done]. destruct (isTerminal _) eqn:Ht; [done|]. cbn [negb].
  eapply (ensures_safe cross_ok cross_advanced). eapply (ensures_bind cross_ok cross_advanced); [apply calling_ensures|]. intros a s2 H2 Ha. cbv beta in Ha.
  apply (safe_ensures cross_ok cross_advanced). assert (Hrow2 := cross_of_mono _ _ _ Hrow H2).
  apply (wp_bind cross_ok cross_advanced). eapply (wp_mono cross_ok cross_advanced); [apply (update_cross_safe swap); [exact Hrow2|]|].
  - intros s r _ _ Et [K1 K2 K3 K4 K5] _. split; [split; [done|intros _; by split_and!]|]. split; try done. intros x [= <-]. cbn [with_deposit xs_terms].
    rewrite Et. by apply txId_spelling.
  - intros [c|] s3 H3 _; [|done]. destruct (c =? 1)%nat; [|done]. apply (safe_bind cross_ok cross_advanced); [|done].
    apply apply_safe; [|done|].
    + apply (cross_of_open swap); [done|done|by eapply cross_of_mono].
    + intros a' [= <-]. eapply event_prefix; [apply (ca_history _ _ H3)|by apply Ha].
Qed.

Lemma observe_swap_safe swap user s0 : cross_of swap s0 -> isTerminal (xs_status swap) = false -> safe (observe swap user) s0.
Proof.
  intros Hrow Ht. unfold observe. cbv zeta. eapply (ensures_safe cross_ok cross_advanced). eapply (ensures_bind cross_ok cross_advanced); [apply calling_ensures|].
  intros status s1 H1 Ha. cbv beta in Ha. apply (safe_ensures cross_ok cross_advanced), (safe_discard cross_ok cross_advanced).
  apply apply_safe; [by eapply cross_of_mono|done|]. intros a ->. by apply Ha.
Qed.

Lemma due_open now r : due now r = true -> isTerminal (xs_status r) = false.
Proof. unfold due, isTerminal. by destruct (xs_status r). Qed.

Lemma cross_tick_safe s0 : safe tick s0.
Proof.
  unfold tick. apply (safe_bind cross_ok cross_advanced); [apply (safe_asking cross_ok cross_advanced)|]. intros now s1 _.
  apply (safe_asking_bind cross_ok cross_advanced). intros s Hs Hi. apply (for_each_safe cross_ok cross_advanced _ _ s); [reflexivity|].
  intros [r u] s2 Hin H2. apply (safe_catching cross_ok cross_advanced); [|done]. cbn [fst snd].
  unfold batch in Hin. apply list_elem_of_In, List.in_map_iff in Hin as (r' & [= -> <-] & Hin).
  apply list_elem_of_In, elem_of_take in Hin as (k & Hk & _). apply list_elem_of_lookup_2 in Hk. rewrite merge_sort_Permutation in Hk.
  apply list_elem_of_In, List.filter_In in Hk as [Hk Hdue]. apply list_elem_of_In, list_elem_of_fmap in Hk as ([i x] & -> & Hx).
  apply elem_of_map_to_list in Hx. apply observe_swap_safe; [|by eapply due_open]. eapply cross_of_mono; [by eapply cross_in_table|done].
Qed.

Lemma cross_list_safe caller status t k s0 : safe (findAll caller status t k) s0.
Proof.
  apply (safe_bind cross_ok cross_advanced); [apply (safe_asking cross_ok cross_advanced)|]. intros d s _.
  apply (safe_bind cross_ok cross_advanced); [apply (safe_asking cross_ok cross_advanced)|done].
Qed.
End safety.
