(* ===== verification/CrossChainPool.v ===== *)
(** Cross-chain swaps in a pool of requests and ticks: what a row says came from 1Click,
    a swap that ended stays as it ended, what a create answers, what a tick of the
    observer comes to, and the merchant fee in whole basis points. *)

From S2P Require Import Prelude Text Units MerchantFee Intents ChainAddress Webhooks Programs IntentService EscrowStore EscrowJobs ChainSwapVenues ChainSwaps CrossChainNetworks CrossChainStore CrossChainSwaps CrossChainSafety.
From stdpp Require Import base tactics list option sets gmap strings sorting.
From Stdlib Require Import ZArith QArith_base Lia Ascii.

Open Scope Z_scope.

Section pool.
Context `{CC : CrossChainCrypto} `{CONFIG : SwapConfig} `{NI : NearIntentsConfig} `{DRAWS : CrossDraws}.

(** What the routes and the schedule run; a refresh of the token list is started by a
    caller and goes on without it. *)
Inductive cross_request : crossing unit -> Prop :=
  | xr_assets : cross_request (discard assets)
  | xr_refresh : cross_request (discard refreshTokens)
  | xr_quote caller dto : cross_request (discard (quote caller dto))
  | xr_create caller dto header : valid_addresses dto = true -> cross_request (discard (create caller dto header))
  | xr_list caller status t k : cross_request (discard (findAll caller status t k))
  | xr_find caller i token : cross_request (discard (findOne caller i token))
  | xr_deposit caller i txHash token : cross_request (discard (submitDeposit caller i txHash token))
  | xr_tick : cross_request tick.

(** What else happens: time passes, 1Click and Horizon answer otherwise, the process
    restarts without its token list, other parts of the server work on the webhooks and
    the consumers. *)
Definition cross_world (s s' : CrossWorld) : Prop :=
  cross_swaps s' = cross_swaps s /\ xw_history s' = xw_history s /\ xw_clock s <= xw_clock s'.

Definition cross_execution (l : list (crossing unit)) (s : CrossWorld) : Prop :=
  exists s0, cross_swaps s0 = ∅ /\ xw_history s0 = [] /\ star (pool_step cross_request cross_world) ([], s0) (l, s).

Lemma cross_request_safe p s0 : cross_request p -> safe cross_ok cross_advanced p s0.
Proof.
  intros H. destruct H; try apply (safe_discard cross_ok cross_advanced).
  - apply (safe_bind cross_ok cross_advanced); [apply tokens_safe|done].
  - apply cross_untouched_stmt. intros s. by destruct (n_tokens (near s)).
  - apply cross_quote_safe.
  - apply (safe_bind cross_ok cross_advanced); [by apply cross_build_safe|done].
  - apply cross_list_safe.
  - apply (safe_bind cross_ok cross_advanced); [by eapply (ensures_safe cross_ok cross_advanced), findOwned_ensures|done].
  - apply deposit_safe.
  - apply cross_tick_safe.
Qed.

Lemma cross_world_ok s s' : cross_world s s' -> cross_ok s -> cross_ok s' /\ cross_advanced s s'.
Proof.
  intros (E1 & E2 & E3) [K1 K2 K3]. split; [split; rewrite ?E1, ?E2; try done|split; rewrite ?E1, ?E2; [done| |done]].
  - intros i r H. eapply cross_row_mono; [reflexivity|exact E3|eauto].
  - intros i r H. by exists r.
Qed.

Lemma cross_steps_ok l0 s0 l s : cross_ok s0 -> Forall (fun p => safe cross_ok cross_advanced p s0) l0 ->
  star (pool_step cross_request cross_world) (l0, s0) (l, s) ->
  Forall (fun p => safe cross_ok cross_advanced p s) l /\ cross_ok s /\ cross_advanced s0 s.
Proof.
  intros Hi Hl H. eapply (pool_safe cross_ok cross_advanced cross_request cross_world); try exact H; try done.
  - intros p s1 Hp _. by apply cross_request_safe.
  - intros s1 s2 Hw Hs. by apply cross_world_ok.
Qed.

Lemma cross_execution_ok l s : cross_execution l s -> Forall (fun p => safe cross_ok cross_advanced p s) l /\ cross_ok s.
Proof.
  intros (s0 & E1 & E2 & H). destruct (cross_steps_ok [] s0 l s) as (K1 & K2 & _); try done.
  split; rewrite ?E1, ?E2; [by intros i r; rewrite lookup_empty..|by intros i j r r'; rewrite lookup_empty].
Qed.

(** The word 1Click has for a status; expiry is the service's own. *)
Definition word_for (st : CrossChainSwapStatus) : option string :=
  match st with
  | AWAITING_DEPOSIT => Some "PENDING_DEPOSIT"
  | DEPOSIT_DETECTED => Some "KNOWN_DEPOSIT_TX"
  | INCOMPLETE_DEPOSIT => Some "INCOMPLETE_DEPOSIT"
  | PROCESSING => Some "PROCESSING"
  | X_SUCCEEDED => Some "SUCCESS"
  | X_REFUNDED => Some "REFUNDED"
  | X_FAILED => Some "FAILED"
  | X_EXPIRED => None
  end%string.

Lemma told_word h r st : told h r st -> exists a, reported (xs_terms r) a ∈ h /\ Some (sr_status a) = word_for st.
Proof.
  intros (a & p & Ha & Hp & <-). exists a. split; [done|]. unfold isProviderStatus in Hp.
  destruct (List.find _ _) as [[w p']|] eqn:Ef; [|done]. injection Hp as ->. apply List.find_some in Ef as [Hin Hw].
  apply String.eqb_eq in Hw. cbn in Hw. subst w. cbn in Hin.
  repeat (destruct Hin as [[= <- <-]|Hin]; [done|]). done.
Qed.


(** A swap that ended stays as it ended. Between any two moments of an execution,
    whatever runs in between: no row disappears, its terms never change, and once
    succeeded, refunded or failed neither its status nor 1Click's word for it, the
    amounts and the transactions recorded ever change. *)
Theorem cross_swap_ends_once l0 s0 l s i r :
  cross_execution l0 s0 -> star (pool_step cross_request cross_world) (l0, s0) (l, s) -> cross_swaps s0 !! i = Some r ->
  exists r', cross_swaps s !! i = Some r' /\ xs_terms r' = xs_terms r /\ (isTerminal (xs_status r) = true -> frozen r r').
Proof.
  intros [Hl Hi]%cross_execution_ok Hsteps Hr. destruct (cross_steps_ok _ _ _ _ Hi Hl Hsteps) as (_ & _ & [_ Hrows _]).
  destruct (Hrows _ _ Hr) as (r' & Hr' & [E1 E2]). by exists r'.
Qed.

(** ** The merchant fee *)

(** The merchant fee is rounded in the payer's favour. When a request with a merchant
    fee is priced, what 1Click is asked to pay the merchant's wallet is a whole number of
    basis points, at least one and less than all; what that comes to, which is what the
    row records, is at most the fee the terms ask of the amount and short of it by less
    than one basis point of the deposit and one unit. *)
Theorem app_fee_rounds_down caller dto live now l p m record :
  price_request caller dto live now l = Ok p -> pc_merchantFee p = Some (m, record) ->
  exists units bps, parseUnits (xd_amount dto) (ca_decimals (pc_origin p)) = Ok units
    /\ let split := splitMerchantFee units (Some m) in
       let charged := Z.quot (MerchantFee.total split * bps) 10000 in
       nq_amount (pc_request p) = toString (MerchantFee.total split) /\ (wallet m, bps) ∈ nq_appFees (pc_request p) /\ 1 <= bps < 10000
       /\ rec_amount record = formatUnits charged (ca_decimals (pc_origin p))
       /\ 0 <= charged <= MerchantFee.fee split /\ (MerchantFee.fee split - charged) * 10000 < MerchantFee.total split + 10000.
Proof.
  unfold price_request. intros H Hm. destruct (resolveCrossChainAsset l (xd_originChain dto) _) as [o|] eqn:Eo; [|done]. cbn [mbind res_bind] in H.
  destruct (resolveCrossChainAsset l (xd_destinationChain dto) _) as [d|] eqn:Ed; [|done]. cbn [mbind res_bind] in H.
  destruct (throw_if _ _); [|done]. cbn [mbind res_bind] in H.
  destruct (baseUnits (xd_amount dto) o) as [units|] eqn:Eu; [|done]. apply baseUnits_spec in Eu as [Eu Hu]. cbn [mbind res_bind] in H.
  destruct (merchantFeeTerms dto o) as [m'|] eqn:Em; [|done]. cbn [mbind res_bind] in H.
  destruct (assertMerchantFeeCovered _ _) eqn:Ecov; [|done]. cbn [mbind res_bind] in H. destruct (merchantAppFeeBps _ _) as [mb|] eqn:Eb; [|done]. cbn [mbind res_bind] in H.
  destruct (resolveSlippage _ _ _) as [sl|]; [|done]. cbn [mbind res_bind] in H.
  destruct (resolvePlanCommissionBps _ _) as [plan|]; [|done]. cbn [mbind res_bind] in H. destruct (commissionWithRecipient _ _ _) as [fb|]; [|done].
  injection H as <-. cbn [pc_merchantFee pc_origin pc_request nq_amount nq_appFees] in Hm |- *. destruct m' as [m'|]; [|done]. injection Hm as -> <-. exists units, mb. split; [exact Eu|].
  set (split := splitMerchantFee units (Some m)) in *. unfold assertMerchantFeeCovered in Ecov.
  destruct (Z.leb_spec (MerchantFee.fee split) 0) as [|Hf]; [done|]. destruct (Z.leb_spec (MerchantFee.net split) 0) as [|Hn]; [done|].
  assert (Ht : MerchantFee.total split = MerchantFee.fee split + MerchantFee.net split) by (unfold split, splitMerchantFee; destruct (paidBy m); cbn; lia).
  unfold merchantAppFeeBps in Eb. destruct (Z.eqb_spec (Z.quot (MerchantFee.fee split * 10000) (MerchantFee.total split)) 0) as [|Hb]; [done|]. injection Eb as <-.
  cbv zeta. fold split. set (T := MerchantFee.total split) in *. set (F := MerchantFee.fee split) in *. set (b := Z.quot (F * 10000) T) in *.
  assert (Eb : b = F * 10000 / T) by (apply Z.quot_div_nonneg; lia).
  assert (D1 := Z.div_mod (F * 10000) T ltac:(lia)). assert (D2 := Z.mod_pos_bound (F * 10000) T ltac:(lia)). rewrite <- Eb in D1.
  assert (0 <= b) by (rewrite Eb; apply Z.div_pos; lia). assert (b < 10000) by nia.
  assert (Ec : Z.quot (T * b) 10000 = T * b / 10000) by (apply Z.quot_div_nonneg; nia).
  assert (D3 := Z.div_mod (T * b) 10000 ltac:(lia)). assert (D4 := Z.mod_pos_bound (T * b) 10000 ltac:(lia)). rewrite <- Ec in D3.
  split; [done|]. split; [set_solver|]. split; [lia|]. split; [done|]. nia.
Qed.

(** ** What a create answers *)

(** The token list a caller is answered now. *)
Definition offered (s : CrossWorld) (l : list NearIntentsToken) : Prop := n_tokens (near s) = Ok l \/ snd <$> tokensCache s = Some l.

(** The tables but for the token list; the history is another matter. *)
Definition same_rows (s s' : CrossWorld) : Prop :=
  cross_swaps s' = cross_swaps s /\ xw_clock s' = xw_clock s /\ near s' = near s /\ xw_consumers s' = xw_consumers s.
#[local] Instance same_rows_preorder : PreOrder same_rows.
Proof. unfold same_rows. split; [by intros s|]. intros a b c (? & ? & ? & ?) (? & ? & ? & ?). split_and!; congruence. Qed.

Lemma tokens_run s s' l : run tokens s = (s', Ok l) -> same_rows s s' /\ xw_history s' = xw_history s /\ offered s l.
Proof.
  assert (Hr : forall s l, run refreshTokens s = (s', Ok l) -> same_rows s s' /\ xw_history s' = xw_history s /\ offered s l).
  { intros s1 l1 H. unfold refreshTokens in H. rewrite run_stmt in H. destruct (n_tokens (near s1)) as [l2|] eqn:E; [|done]. injection H as <- <-.
    split; [done|]. split; [done|by left]. }
  unfold tokens. rewrite run_bind, run_asking. destruct (tokensCache s) as [[at_ l1]|] eqn:E; cbn [mbind option_bind fst snd]; [|apply Hr].
  assert (Hc : run (Ret l1) s = (s', Ok l) -> same_rows s s' /\ xw_history s' = xw_history s /\ offered s l).
  { intros H. injection H as <- <-. split; [done|]. split; [done|]. right. by rewrite E. }
  destruct (_ <? _); [apply Hc|]. destruct (_ <? _); [apply Hc|apply Hr].
Qed.

Lemma cross_price_run caller dto live s s' p r : run (price caller dto live) s = (s', Ok (p, r)) ->
  same_rows s s' /\ xw_history s' = xw_history s ++ [Quoted (pc_request p) r]
  /\ exists l, offered s l /\ price_request caller dto live (xw_clock s) l = Ok p.
Proof.
  unfold price. destruct (same_chain dto); [done|]. rewrite run_bind. destruct (run tokens s) as [s1 [l|]] eqn:Et; [|done].
  apply tokens_run in Et as (T1 & T2 & T3). rewrite run_bind, run_asking, run_bind, run_pure.
  destruct (price_request _ _ _ _ _) as [p'|] eqn:Ep; [|done]. rewrite run_bind, run_stmt. unfold calling.
  destruct (n_quote _ _) as [r'|]; [|done]. cbn [run]. intros [= <- -> ->]. destruct T1 as (E1 & E2 & E3 & E4).
  split; [done|]. cbn [xw_log xw_history]. rewrite T2. split; [done|]. exists l. by rewrite <- E2.
Qed.

(** [r] is a row for the request [dto], its assets among the tokens offered. *)
Definition answers (s : CrossWorld) (dto : CrossDto) (r : CrossChainSwap) : Prop :=
  let t := xs_terms r in
  xt_recipient t = normalizedAddress (xd_destinationChain dto) (xd_recipient dto)
  /\ xt_refundTo t = normalizedAddress (xd_originChain dto) (xd_refundTo dto)
  /\ lg_chain (xt_origin t) = xd_originChain dto /\ lg_chain (xt_destination t) = xd_destinationChain dto
  /\ xt_slippageBps t <= near_maxSlippageBps
  /\ exists l o d units merchant, offered s l
       /\ resolveCrossChainAsset l (xd_originChain dto) (xd_originAsset dto) = Ok o /\ lg_assetId (xt_origin t) = ca_assetId o
       /\ resolveCrossChainAsset l (xd_destinationChain dto) (xd_destinationAsset dto) = Ok d /\ lg_assetId (xt_destination t) = ca_assetId d
       /\ parseUnits (xd_amount dto) (ca_decimals o) = Ok units /\ 0 < units /\ merchantFeeTerms dto o = Ok merchant
       /\ xt_amountIn t = formatUnits (MerchantFee.total (splitMerchantFee units merchant)) (ca_decimals o).

Lemma replayed_run dto e s s' r : run (replayed_swap dto e) s = (s', Ok r) ->
  r = e /\ same_rows s s' /\ xw_history s' = xw_history s /\ answers s dto r.
Proof.
  unfold replayed_swap, requestTerms. rewrite run_bind, run_bind. destruct (run tokens s) as [s1 [l|]] eqn:Et; [|done].
  apply tokens_run in Et as (T1 & T2 & T3). rewrite run_pure.
  destruct (resolveCrossChainAsset l (xd_originChain dto) _) as [o|] eqn:Eo; [|done]. cbn [mbind res_bind].
  destruct (resolveCrossChainAsset l (xd_destinationChain dto) _) as [d|] eqn:Ed; [|done]. cbn [mbind res_bind].
  destruct (baseUnits _ _) as [units|] eqn:Eu; [|done]. apply baseUnits_spec in Eu as [Eu Hu]. cbn [mbind res_bind].
  destruct (merchantFeeTerms dto o) as [m|] eqn:Em; [|done]. cbn [mbind res_bind].
  destruct (resolveSlippage _ _ _) as [sl|] eqn:Es; [|done]. apply slippage_spec in Es. cbn [mbind res_bind]. rewrite run_pure. intros [= <- H].
  unfold replay in H. cbn [fst snd] in H. case_bool_decide as E; [|done]. cbn [andb] in H. destruct (sameMerchantFee _ _ _); [|done]. injection H as <-.
  split; [done|]. split; [done|]. split; [done|]. unfold stored_terms in E. injection E as F1 F2 F3 F4 F5 F6 F7 F8.
  destruct (resolved_on _ _ _ _ Eo) as [_ G1], (resolved_on _ _ _ _ Ed) as [_ G2]. unfold answers. cbv zeta.
  split; [exact F6|]. split; [exact F7|]. split; [congruence|]. split; [congruence|]. split; [by rewrite F8|].
  exists l, o, d, units, m. done.
Qed.

Lemma find_by_key_run c key s s' o : run (find_by_key c key) s = (s', Ok o) -> s' = s
  /\ match o with
     | Some e => xt_consumerId (xs_terms e) = c /\ xt_idempotencyKey (xs_terms e) = key /\ key <> None /\ exists i, cross_swaps s !! i = Some e
     | None => True
     end.
Proof.
  destruct key as [k|]; cbn [find_by_key]; [|by intros [= <- <-]]. unfold findByIdempotencyKey. rewrite run_asking. intros [= <- H]. split; [done|].
  destruct o as [e|]; [|done].
  assert (Hin : e ∈ List.filter (fun r => bool_decide (xt_consumerId (xs_terms r) = c) && bool_decide (xt_idempotencyKey (xs_terms r) = Some k)) (map_to_list (cross_swaps s)).*2).
  { destruct (List.filter _ _); [done|]. injection H as <-. set_solver. }
  apply list_elem_of_In, List.filter_In in Hin as [Hin Hq]. apply andb_true_iff in Hq as [Q1%bool_decide_eq_true Q2%bool_decide_eq_true].
  split; [done|]. split; [done|]. split; [done|]. apply list_elem_of_In, list_elem_of_fmap in Hin as ([i x] & -> & Hx%elem_of_map_to_list). by exists i.
Qed.

Lemma find_by_key_total c key s : exists o, run (find_by_key c key) s = (s, Ok o).
Proof. destruct key; by eexists. Qed.

Lemma receive_run p s s' x : run (assertRecipientCanReceive p) s = (s', x) -> s' = s.
Proof.
  unfold assertRecipientCanReceive. destruct (ca_contract _) as [issuer|]; [|by intros [= <- _]]. destruct (bool_decide _); [|by intros [= <- _]].
  rewrite run_bind, run_asking. destruct (n_loadAccount _ _) as [b| |]; [|by intros [= <- _]..].
  rewrite run_bind, run_pure. destruct (resolveAsset _ _); [|by intros [= <- _]]. destruct (hasTrustline _ _ _); by intros [= <- _].
Qed.

Lemma create_cross_run terms s s' x : run (stmt (create_cross terms)) s = (s', x) ->
  match x with
  | Ok r => let i := xw_cuid (xw_drawn s) in
      xs_terms r = terms i (xw_clock s) /\ xs_status r = AWAITING_DEPOSIT /\ xs_depositTxHash r = None
      /\ cross_swaps s !! i = None /\ cross_swaps s' = <[i := r]> (cross_swaps s) /\ xw_history s' = xw_history s /\ xw_consumers s' = xw_consumers s
  | Throw _ => s' = s
  end.
Proof.
  rewrite run_stmt. unfold create_cross. cbv zeta. destruct (cross_swaps s !! _) eqn:E; [by intros [= <- <-]|]. destruct (cross_violated _ s); by intros [= <- <-].
Qed.

Lemma emit_cross_run user t r s : same_rows s (fst (run (emit_cross user t r) s)) /\ xw_history (fst (run (emit_cross user t r) s)) = xw_history s.
Proof. unfold emit_cross. rewrite run_stmt. by destruct (Webhooks.emit _ _ _ _ _) as [h o]. Qed.

(** The row is new: one live quote was asked for, and its deposit address is the row's. *)
Definition opened (s s' : CrossWorld) (r : CrossChainSwap) : Prop :=
  cross_swaps s !! xt_id (xs_terms r) = None /\ cross_swaps s' = <[xt_id (xs_terms r) := r]> (cross_swaps s)
  /\ xs_status r = AWAITING_DEPOSIT /\ xs_depositTxHash r = None
  /\ exists q, xw_history s' = xw_history s ++ [Quoted q (xt_quote (xs_terms r))] /\ nq_dry q = false
       /\ qu_depositAddress (qr_quote (xt_quote (xs_terms r))) = Some (xt_depositAddress (xs_terms r)).

Lemma open_swap_run caller dto c key s s' r : run (find_by_key c key) s = (s, Ok None) -> run (open_swap caller dto c key) s = (s', Ok r) ->
  answers s dto r /\ xt_consumerId (xs_terms r) = c /\ xt_idempotencyKey (xs_terms r) = key /\ xw_consumers s' = xw_consumers s
  /\ cross_swaps s' !! xt_id (xs_terms r) = Some r /\ opened s s' r.
Proof.
  intros Hnone H. unfold open_swap in H. rewrite run_bind in H. destruct (run (price caller dto true) s) as [s1 [[p q]|]] eqn:Ep; [|done].
  apply cross_price_run in Ep as ((P1 & P2 & P3 & P4) & P5 & l & Hl & Hp). rewrite run_bind in H.
  destruct (run (assertRecipientCanReceive p) s1) as [s2 x] eqn:Er. apply receive_run in Er as ->. destruct x as [u|]; [|done].
  destruct (given (qu_depositAddress (qr_quote q))) as [address|] eqn:Ea; [|done]. apply given_some in Ea.
  rewrite run_bind, run_pure in H. destruct (depositLink _) as [uri|]; [|done]. rewrite run_bind, run_pure in H. destruct (minimumOut p q) as [least|]; [|done].
  rewrite run_bind, run_pure in H. destruct (expires_at p q) as [ex|]; [|done]. rewrite run_bind in H. unfold persist in H. rewrite run_catching, run_bind in H.
  destruct (run (stmt (create_cross _)) s1) as [s3 x] eqn:Ec. apply create_cross_run in Ec. destruct x as [r0|e].
  - cbn [run] in H. cbv zeta in Ec. destruct Ec as (C1 & C2 & C3 & C4 & C5 & C6 & C7). rewrite run_bind in H.
    destruct (emit_cross_run (username (cl_consumer caller)) CROSS_CHAIN_SWAP_CREATED r0 s3) as [(D1 & D2 & D3 & D4) D5].
    destruct (run (emit_cross _ _ _) s3) as [s4 [o|]]; [|done]. cbn [fst] in *. cbn [run] in H. injection H as <- <-.
    assert (Hi : xt_id (xs_terms r0) = xw_cuid (xw_drawn s1)) by by rewrite C1.
    destruct (price_request_spec _ _ _ _ _ _ Hp) as [Q1 Q2 Q3 Q4 Q5 Q6 Q7 Q8]. split; [|split; [by rewrite C1|split; [by rewrite C1|split; [congruence|split]]]].
    + unfold answers. cbv zeta. rewrite C1. cbn [row_of xt_recipient xt_refundTo xt_origin xt_destination xt_slippageBps xt_amountIn leg_of lg_chain lg_assetId].
      split; [exact Q3|]. split; [exact Q4|]. split; [exact Q1|]. split; [exact Q2|]. split; [exact Q8|].
      destruct Q7 as (units & m & U1 & U2 & U3 & _ & U4). destruct (price_request_assets _ _ _ _ _ _ Hp) as [A1 A2].
      exists l, (pc_origin p), (pc_destination p), units, m. done.
    + rewrite D1, C5, Hi. by rewrite lookup_insert_eq.
    + split; [by rewrite Hi, <- P1|]. split; [by rewrite D1, C5, P1, Hi|]. split; [done|]. split; [done|].
      exists (pc_request p). rewrite C1. cbn [row_of xt_quote xt_depositAddress]. split; [congruence|]. done.
  - destruct (_ && _); [|done]. cbn [run] in H. rewrite run_bind in H. subst s3.
    assert (Hn1 : run (find_by_key c key) s1 = (s1, Ok None)).
    { destruct key as [k|]; [|done]. cbn [find_by_key] in *. unfold findByIdempotencyKey in *. rewrite run_asking in *. rewrite P1. by injection Hnone as ->. }
    rewrite Hn1 in H. done.
Qed.

(** C15: A create answers the swap it was asked for, and one per key. When [build] answers
    a row [r]: it is in the table under the caller's consumer and the request's
    idempotency key; its chains, recipient, refund address, assets and deposit are the
    request's, read against the tokens offered now; and either the key was used before,
    no quote was taken from 1Click and no row changed, or [r] is the one row added and its
    deposit address is that of the one live quote asked for. *)
Theorem cross_create_answers s caller dto header s' r :
  cross_ok s -> run (build caller dto header) s = (s', Ok r) ->
  let key := resolveIdempotencyKey header (xd_idempotencyKey dto) in
  answers s dto r /\ xw_consumers s' !! username (cl_consumer caller) = Some (xt_consumerId (xs_terms r)) /\ xt_idempotencyKey (xs_terms r) = key
  /\ cross_swaps s' !! xt_id (xs_terms r) = Some r
  /\ (cross_swaps s' = cross_swaps s /\ xw_history s' = xw_history s /\ key <> None \/ opened s s' r).
Proof.
  intros Hok H. cbv zeta. unfold build in H. destruct (negb _); [done|]. rewrite run_bind, run_stmt in H.
  assert (Hres : exists c s1, resolve_payer (username (cl_consumer caller)) s = (s1, Ok c) /\ cross_untouched s s1 /\ near s1 = near s
    /\ tokensCache s1 = tokensCache s /\ xw_consumers s1 !! username (cl_consumer caller) = Some c).
  { unfold resolve_payer. destruct (xw_consumers s !! _) as [c|] eqn:E; [by exists c, s|]. eexists _, _. split; [reflexivity|].
    cbn. by rewrite lookup_insert_eq. }
  destruct Hres as (c & s1 & Hc & (U1 & U2 & U3) & U4 & U5 & U6). rewrite Hc in H. cbv zeta in H. set (key := resolveIdempotencyKey _ _) in *.
  assert (Hans : forall r, answers s1 dto r -> answers s dto r).
  { intros r0 (A1 & A2 & A3 & A4 & A5 & l & A6). do 5 (split; [done|]). exists l. unfold offered in *. rewrite <- U4, <- U5. exact A6. }
  rewrite run_bind in H. destruct (find_by_key_total c key s1) as [o Ho]. rewrite Ho in H. destruct o as [e|].
  - apply find_by_key_run in Ho as (_ & F1 & F2 & F3 & i & F4). apply replayed_run in H as (-> & (R1 & R2 & R3 & R4) & R5 & R6).
    rewrite U1 in F4. split; [by apply Hans|]. split; [by rewrite R4, F1|]. split; [done|]. split; [by rewrite R1, U1, (co_id _ Hok _ _ F4)|].
    left. split; [congruence|]. split; [congruence|done].
  - destruct (open_swap_run _ _ _ _ _ _ _ Ho H) as (O1 & O2 & O3 & O4 & O5 & O6 & O7 & O8 & O9 & q & O10 & O11). split; [by apply Hans|].
    split; [by rewrite O4, O2|]. split; [done|]. split; [done|]. right. unfold opened. rewrite <- U1, <- U2. split_and!; try done. by exists q.
Qed.

(** ** What a tick comes to *)

(** Where an answer read at [now] leaves a row; an answer that fails leaves it alone. *)
Definition after (now : Z) (o : NearOutside) (r : CrossChainSwap) : CrossChainSwap :=
  match n_status o (xt_depositAddress (xs_terms r)) (given (xt_depositMemo (xs_terms r))) with
  | Ok status => recorded now status (next_of now r status) now r
  | Throw _ => r
  end.

Definition set_row (r : CrossChainSwap) (s s' : CrossWorld) : Prop :=
  near s' = near s /\ xw_clock s' = xw_clock s /\ cross_swaps s' = <[xt_id (xs_terms r) := r]> (cross_swaps s).

Lemma update_cross_run i guard data r s : cross_swaps s !! i = Some r -> guard r = true ->
  run (stmt (update_cross i guard data)) s = (set_cross_swaps (fun m => <[i := data (xw_clock s) r]> m) s, Ok 1%nat).
Proof. intros Hr Hg. rewrite run_stmt. unfold update_cross. by rewrite Hr, Hg. Qed.

Lemma apply_run swap status user s : cross_swaps s !! xt_id (xs_terms swap) = Some swap ->
  set_row (recorded (xw_clock s) status (next_of (xw_clock s) swap status) (xw_clock s) swap) s (fst (run (applyProviderStatus swap status user) s)).
Proof.
  intros Hr. unfold applyProviderStatus. rewrite run_bind, run_asking. cbv zeta. set (now := xw_clock s).
  assert (Hg : bool_decide (xs_status swap = xs_status swap) = true) by by apply bool_decide_eq_true_2.
  destruct (next_of now swap status) as [n|]; rewrite run_bind, (update_cross_run _ _ _ swap) by done; set (s1 := set_cross_swaps _ s).
  - assert (M : set_row (recorded now status (Some n) now swap) s s1) by by split_and!.
    unfold find_cross. rewrite run_bind, run_bind, run_asking, run_pure. destruct (cross_swaps s1 !! _) as [row|]; [|exact M].
    cbn [res_of_option Nat.eqb]. rewrite run_bind, run_discard.
    destruct (emit_cross_run user (CROSS_CHAIN_STATUS_EVENTS n) row s1) as [(E1 & E2 & E3 & _) _].
    destruct (run (emit_cross _ _ _) s1) as [s2 [o|e]]; cbn [fst run] in *; destruct M as (M1 & M2 & M3); split_and!; congruence.
  - cbn [run fst]. by split_and!.
Qed.

Lemma observe_swap_run swap user s : cross_swaps s !! xt_id (xs_terms swap) = Some swap ->
  set_row (after (xw_clock s) (near s) swap) s (fst (run (observe swap user) s)).
Proof.
  intros Hr. unfold observe, after. cbv zeta. rewrite run_bind, run_stmt. unfold calling. destruct (n_status _ _ _) as [status|e].
  - set (s1 := match reported (xs_terms swap) <$> status with Some _ => _ | None => _ end). rewrite run_discard.
    assert (Hs1 : cross_swaps s1 = cross_swaps s /\ near s1 = near s /\ xw_clock s1 = xw_clock s) by (unfold s1; by destruct status).
    destruct Hs1 as (E1 & E2 & E3). assert (Hm := apply_run swap status user s1). rewrite E1, E3 in Hm. specialize (Hm Hr).
    destruct (run (applyProviderStatus _ _ _) s1) as [s2 [o|e]]; cbn [fst] in *; destruct Hm as (M1 & M2 & M3); split_and!; congruence.
  - cbn [fst]. split; [done|]. split; [done|]. by rewrite insert_id.
Qed.

Definition cross_ids (rows : list (CrossChainSwap * string)) : list string := List.map (fun x => xt_id (xs_terms (fst x))) rows.

Lemma after_id now o r : xt_id (xs_terms (after now o r)) = xt_id (xs_terms r).
Proof. unfold after. by destruct (n_status _ _ _). Qed.

Lemma observe_list_run rows s : NoDup (cross_ids rows) -> (forall r u, (r, u) ∈ rows -> cross_swaps s !! xt_id (xs_terms r) = Some r) ->
  (forall i r, cross_swaps s !! i = Some r -> xt_id (xs_terms r) = i) ->
  let x := run (for_each rows (fun x => catching (observe (fst x) (snd x)) (fun _ => Ret tt))) s in
  snd x = Ok tt /\ forall i r, cross_swaps s !! i = Some r ->
    cross_swaps (fst x) !! i = Some (if bool_decide (i ∈ cross_ids rows) then after (xw_clock s) (near s) r else r).
Proof.
  revert s. induction rows as [|[r0 u] rows IH]; intros s Hnd Hrows Hids; cbv zeta.
  { split; [done|]. intros i r Hr. by rewrite bool_decide_eq_false_2 by apply not_elem_of_nil. }
  cbn [for_each]. change (prog_bind ?f ?p) with (p ≫= f). rewrite run_bind. unfold cross_ids in Hnd. cbn [List.map fst] in Hnd. apply NoDup_cons in Hnd as [Hn Hnd].
  assert (Hr0 := Hrows r0 u ltac:(by left)). cbn [fst snd]. destruct (observe_swap_run r0 u s Hr0) as (M1 & M2 & M3). rewrite after_id in M3.
  assert (Hrun : run (catching (observe r0 u) (fun _ => Ret tt)) s = (fst (run (observe r0 u) s), Ok tt)).
  { rewrite run_catching. by destruct (run (observe r0 u) s) as [s1 [[]|e]]. }
  rewrite Hrun. set (s1 := fst (run (observe r0 u) s)) in *.
  destruct (IH s1 Hnd) as [R1 R2].
  - intros r u' Hin. rewrite M3, lookup_insert_ne; [by apply (Hrows r u'); right|]. intros E. apply Hn. rewrite E.
    apply list_elem_of_In, List.in_map_iff. exists (r, u'). split; [done|by apply list_elem_of_In].
  - intros i r. rewrite M3, lookup_insert_Some. intros [[<- <-]|[_ Hr]]; [by apply after_id|by apply Hids].
  - split; [exact R1|]. intros i r Hr. rewrite M1, M2 in R2. destruct (decide (i = xt_id (xs_terms r0))) as [->|Hi].
    + rewrite Hr0 in Hr. injection Hr as <-. rewrite (R2 _ (after (xw_clock s) (near s) r0)) by by rewrite M3, lookup_insert_eq.
      rewrite bool_decide_eq_false_2 by done. rewrite bool_decide_eq_true_2; [done|]. cbn. by left.
    + rewrite (R2 i r) by by rewrite M3, lookup_insert_ne. f_equal.
      assert (bool_decide (i ∈ cross_ids rows) = bool_decide (i ∈ cross_ids ((r0, u) :: rows))) as ->; [|done].
      apply bool_decide_ext. unfold cross_ids. cbn [List.map fst]. rewrite elem_of_cons. split; [by right|]. by intros [?|H].
Qed.

Lemma cross_filter_ids (q : CrossChainSwap -> bool) s : cross_ok s ->
  NoDup (List.map (fun r => xt_id (xs_terms r)) (List.filter q (map_to_list (cross_swaps s)).*2)).
Proof.
  intros Hok. assert (H : NoDup ((map_to_list (cross_swaps s)).*1)) by apply NoDup_fst_map_to_list.
  assert (E : (map_to_list (cross_swaps s)).*1 = List.map (fun r => xt_id (xs_terms r)) (map_to_list (cross_swaps s)).*2).
  { change (List.map ?f ?l) with (f <$> l). rewrite <- list_fmap_compose. apply list_fmap_ext. intros k [i r] Hk%list_elem_of_lookup_2%elem_of_map_to_list.
    cbn. by rewrite (co_id _ Hok _ _ Hk). }
  rewrite E in H. clear E. induction (map_to_list (cross_swaps s)).*2 as [|r l IH]; [constructor|]. cbn [List.map List.filter] in *.
  apply NoDup_cons in H as [Hn H]. destruct (q r); [|by apply IH]. cbn [List.map]. apply NoDup_cons. split; [|by apply IH].
  intros Hin. apply Hn. apply list_elem_of_In, List.in_map_iff in Hin as (r' & E & Hin). apply List.filter_In in Hin as [Hin _].
  apply list_elem_of_In, List.in_map_iff. by exists r'.
Qed.

(** A tick mirrors 1Click. With at most a batch of swaps to ask about, one tick of the
    observer, alone, ends normally and leaves every row that is due as [after] says, all
    its columns: moved, detailed and stamped by 1Click's answer, or as it was when its
    answer failed, however the others fare; a row that is not due is as it was. *)
Theorem cross_tick_follows s :
  cross_ok s -> (length (List.filter (due (xw_clock s)) (map_to_list (cross_swaps s)).*2) <= CROSS_CHAIN_OBSERVER_BATCH)%nat ->
  snd (run tick s) = Ok tt
  /\ forall i r, cross_swaps s !! i = Some r ->
       cross_swaps (fst (run tick s)) !! i = Some (if due (xw_clock s) r then after (xw_clock s) (near s) r else r).
Proof.
  intros Hok Hle. unfold tick. rewrite run_bind, run_asking, run_bind, run_asking. unfold batch.
  rewrite take_ge by (rewrite merge_sort_Permutation; exact Hle). set (l := merge_sort _ _). set (rows := List.map _ l).
  assert (Hl : l ≡ₚ List.filter (due (xw_clock s)) (map_to_list (cross_swaps s)).*2) by apply merge_sort_Permutation.
  assert (Hin : forall r, r ∈ l <-> exists i, cross_swaps s !! i = Some r /\ due (xw_clock s) r = true).
  { intros r. rewrite Hl, list_elem_of_In, List.filter_In, <- list_elem_of_In, list_elem_of_fmap. split.
    - intros [([i x] & -> & Hx%elem_of_map_to_list) Hd]. by exists i.
    - intros (i & Hi & Hd). split; [|done]. exists (i, r). split; [done|by apply elem_of_map_to_list]. }
  assert (Hfst : List.map fst rows = l) by (unfold rows; rewrite List.map_map; apply List.map_id).
  assert (Hids : cross_ids rows = (fun r => xt_id (xs_terms r)) <$> l) by (unfold cross_ids, rows; by rewrite List.map_map).
  destruct (observe_list_run rows s) as [R1 R2].
  - rewrite Hids, Hl. by apply cross_filter_ids.
  - intros r u Hr. assert (Hrl : r ∈ l) by (rewrite <- Hfst; apply list_elem_of_In, List.in_map_iff; exists (r, u); split; [done|by apply list_elem_of_In]).
    apply Hin in Hrl as (i & Hi & _). by rewrite (co_id _ Hok _ _ Hi).
  - apply (co_id _ Hok).
  - split; [exact R1|]. intros i r Hr. rewrite (R2 i r Hr), Hids. destruct (due (xw_clock s) r) eqn:Ed.
    + rewrite bool_decide_eq_true_2; [done|]. apply list_elem_of_fmap. exists r. split; [by rewrite (co_id _ Hok _ _ Hr)|]. apply Hin. by exists i.
    + rewrite bool_decide_eq_false_2; [done|]. intros (r1 & E1 & (j & Hj & Hd)%Hin)%list_elem_of_fmap.
      rewrite (co_id _ Hok _ _ Hj) in E1. subst j. congruence.
Qed.

(** A batch 1Click fails on is asked about again, and nothing else is. A row whose
    answer fails keeps its place in the order, so when every row of a batch fails, the
    tick ends normally and changes nothing, and the next one takes the same batch: the
    rows behind it are not asked about while those last. *)
Theorem failing_batch_starves s :
  (forall r u, (r, u) ∈ batch (xw_clock s) s ->
     exists e, n_status (near s) (xt_depositAddress (xs_terms r)) (given (xt_depositMemo (xs_terms r))) = Throw e) ->
  run tick s = (s, Ok tt).
Proof.
  intros H. unfold tick. rewrite run_bind, run_asking, run_bind, run_asking. revert H. generalize (batch (xw_clock s) s) as rows.
  induction rows as [|[r u] rows IH]; intros H; [done|]. cbn [for_each]. change (prog_bind ?f ?p) with (p ≫= f). rewrite run_bind, run_catching.
  cbn [fst snd]. unfold observe at 1. cbv zeta. rewrite run_bind, run_stmt. unfold calling at 1. destruct (H r u ltac:(by left)) as [e ->]. cbn [run].
  apply IH. intros r' u' Hin. apply (H r' u'). by right.
Qed.
End pool.

(** ** Bitcoin for NEAR, with a merchant's fee on top *)

#[local] Instance sample_cross_crypto : CrossChainCrypto := {| cc_isStellarKey _ := false; cc_keccak s := s |}.
#[local] Instance sample_cross_config : SwapConfig := {|
  swap_env := mkEnv (fun n => nat_toString (Z.of_nat n)) "testnet" 0 "" None (fun _ => false) (fun s => s) (fun a _ => a) (fun _ => Throw JsError);
  defaultSlippageBps := 50;
  maxSlippageBps := 500;
  commission := mkCommissionConfig "test" "" 0 false;
  swapFeeWallet _ := "";
  publicConsumer := "public";
  requiredOnLegacy := true;
  record_mac s := s
|}.
#[local] Instance sample_near_config : NearIntentsConfig := {| near_slippageBps := 100; near_maxSlippageBps := 500; deadlineSeconds := 600; feeRecipient := "cosmos.near" |}.
#[local] Instance sample_cross_draws : CrossDraws := {|
  xw_cuid n := ("c" +:+ nat_toString (Z.of_nat n))%string;
  xw_draw n := mkDraw ("e" +:+ nat_toString (Z.of_nat n)) (fun k => "d" +:+ nat_toString (Z.of_nat k)) 0 "now";
  xw_iso _ := "now"
|}%string.

Definition sample_tokens : list NearIntentsToken :=
  [mkToken "nep141:btc.omft.near" 8 "btc" "BTC" None (Finite 1); mkToken "nep141:wrap.near" 24 "near" "wNEAR" None (Finite 1)]%string.
Definition sample_bitcoin : string := "bc1qw508d6qejxtdg4y5r3zarvary0c5xw7kv8f3t4".
Definition sample_near_outside : NearOutside := {|
  n_tokens := Ok sample_tokens;
  n_quote q := Ok (mkQuoteResponse "corr" "sig" (mkNearQuote (if nq_dry q then None else Some sample_bitcoin) None None "9.5" None "9400000" None 300));
  n_status _ _ := Ok (Some (mkStatusResponse "SUCCESS" (Some (mkDetails (Some "9500000") (Some "9.5") (Some "0") (Some "0") [] []))));
  n_submitDeposit _ _ _ := Throw JsError;
  n_loadAccount _ := AccountFailed
|}%string.
Definition cross_sample_start : CrossWorld := mkCrossWorld ∅ ∅ (mkHooks [] [] [] []) sample_near_outside None [] 1000 0.

Definition cross_sample_caller : Caller := mkCaller (mkConsumer "shop" (Some "prod"%string)) false (Some 50).
Definition cross_sample_fee : MerchantFeeDto := mkMerchantFeeDto (Some (NumInt 101)) (Some "0.00000007") "shop.near" (Some payer)%string.
Definition cross_sample_dto : CrossDto :=
  mkCrossDto N_btc "BTC" N_near "near" "0.5" "bob.near" "BC1QW508D6QEJXTDG4Y5R3ZARVARY0C5XW7KV8F3T4" None (Some cross_sample_fee) (Some "k1")%string.

Definition cross_opened : CrossWorld := run_all [discard (create cross_sample_caller cross_sample_dto None)] cross_sample_start.
Definition cross_settled : CrossWorld := run_all [tick] cross_opened.

Lemma sample_dto_valid : valid_addresses cross_sample_dto = true.
Proof. vm_compute. reflexivity. Qed.

Lemma cross_opened_execution : exists l, cross_execution l cross_opened.
Proof.
  destruct (pool_run_all cross_request cross_world [discard (create cross_sample_caller cross_sample_dto None)] [] cross_sample_start) as [l Hl].
  { apply Forall_cons; split; [apply xr_create, sample_dto_valid|constructor]. }
  exists l, cross_sample_start. split; [reflexivity|]. split; [reflexivity|exact Hl].
Qed.

Lemma cross_settled_steps l : exists l', star (pool_step cross_request cross_world) (l, cross_opened) (l', cross_settled).
Proof. apply pool_run_all. apply Forall_cons; split; [apply xr_tick|constructor]. Qed.

Lemma cross_settled_execution : exists l, cross_execution l cross_settled.
Proof.
  destruct cross_opened_execution as (l & s0 & E1 & E2 & H). destruct (cross_settled_steps l) as [l' H']. exists l', s0.
  split; [exact E1|]. split; [exact E2|]. exact (star_trans _ _ _ _ H H').
Qed.

Lemma cross_settled_row : exists r, cross_swaps cross_settled !! "c1"%string = Some r /\ xs_status r = X_SUCCEEDED /\ xs_amountOut r = Some "9.5"%string.
Proof. eexists. split; [vm_compute; reflexivity|]. split; vm_compute; reflexivity. Qed.


Lemma cross_swap_ends_once_witness : exists r r', cross_swaps cross_settled !! "c1"%string = Some r
  /\ cross_swaps (run_all [tick] cross_settled) !! "c1"%string = Some r' /\ frozen r r'.
Proof.
  destruct cross_settled_execution as [l Hl]. destruct cross_settled_row as (r & Hr & Hst & _).
  destruct (pool_run_all cross_request cross_world [tick] l cross_settled) as [l' Hl']; [apply Forall_cons; split; [apply xr_tick|constructor]|].
  revert Hl Hl' Hr. generalize cross_settled. intros s. generalize (run_all [tick] s). intros s' Hl Hl' Hr.
  destruct (cross_swap_ends_once l s l' s' _ r Hl Hl' Hr) as (r' & K1 & _ & K2). exists r, r'. split; [exact Hr|]. split; [exact K1|].
  apply K2. rewrite Hst. reflexivity.
Defined.

Lemma app_fee_rounds_down_witness : exists p m record bps,
  price_request cross_sample_caller cross_sample_dto true 1000 sample_tokens = Ok p /\ pc_merchantFee p = Some (m, record)
  /\ (wallet m, bps) ∈ nq_appFees (pc_request p) /\ 1 <= bps < 10000.
Proof.
  assert (H : exists p m record, price_request cross_sample_caller cross_sample_dto true 1000 sample_tokens = Ok p /\ pc_merchantFee p = Some (m, record))
    by (eexists _, _, _; split; vm_compute; reflexivity).
  destruct H as (p & m & record & H1 & H2). destruct (app_fee_rounds_down _ _ _ _ _ _ _ _ H1 H2) as (units & bps & _ & _ & H3 & H4 & _).
  exists p, m, record, bps. exact (conj H1 (conj H2 (conj H3 H4))).
Defined.

Lemma cross_start_ok : cross_ok cross_sample_start.
Proof. by apply (cross_execution_ok []); exists cross_sample_start; split; [|split; [|apply star_refl]]. Qed.

Lemma cross_create_answers_witness : exists s' r,
  run (build cross_sample_caller cross_sample_dto None) cross_sample_start = (s', Ok r)
  /\ xt_idempotencyKey (xs_terms r) = Some "k1"%string /\ opened cross_sample_start s' r.
Proof.
  assert (H : exists s' r, run (build cross_sample_caller cross_sample_dto None) cross_sample_start = (s', Ok r)) by (eexists _, _; vm_compute; reflexivity).
  destruct H as (s' & r & E). destruct (cross_create_answers cross_sample_start cross_sample_caller cross_sample_dto None s' r cross_start_ok E) as (_ & _ & Hk & Hr & Ha).
  exists s', r. split; [exact E|]. split; [exact Hk|]. destruct Ha as [(Ha & _)|Ha]; [|exact Ha]. rewrite Ha in Hr. discriminate Hr.
Defined.

Lemma cross_tick_follows_witness : exists r, cross_swaps cross_opened !! "c1"%string = Some r
  /\ cross_swaps (fst (run tick cross_opened)) !! "c1"%string = Some (after 1000 sample_near_outside r) /\ xs_status (after 1000 sample_near_outside r) = X_SUCCEEDED.
Proof.
  destruct cross_opened_execution as [l Hl]. apply cross_execution_ok in Hl as [_ Hok].
  assert (Hlen : (length (List.filter (due (xw_clock cross_opened)) (map_to_list (cross_swaps cross_opened)).*2) <= CROSS_CHAIN_OBSERVER_BATCH)%nat)
    by (apply Nat.leb_le; vm_compute; reflexivity).
  assert (Hr : exists r, cross_swaps cross_opened !! "c1"%string = Some r /\ due (xw_clock cross_opened) r = true
    /\ xs_status (after 1000 sample_near_outside r) = X_SUCCEEDED) by (eexists; split; [vm_compute; reflexivity|]; split; vm_compute; reflexivity).
  assert (Ec : xw_clock cross_opened = 1000) by (vm_compute; reflexivity). assert (En : near cross_opened = sample_near_outside) by (vm_compute; reflexivity).
  destruct Hr as (r & Hr & Hd & Hst). exists r. revert Hok Hlen Hr Hd Ec En. generalize cross_opened.
  intros s Hok Hlen Hr Hd Ec En. destruct (cross_tick_follows s Hok Hlen) as [_ H]. specialize (H _ _ Hr). rewrite Hd, Ec, En in H.
  split; [exact Hr|]. split; [exact H|exact Hst].
Defined.

(** 1Click down: a tick over the open swap. *)
Definition near_down : NearOutside := {|
  n_tokens := Throw JsError; n_quote _ := Throw JsError; n_status _ _ := Throw JsError; n_submitDeposit _ _ _ := Throw JsError; n_loadAccount _ := AccountFailed |}.
Definition cross_down : CrossWorld :=
  mkCrossWorld (xw_consumers cross_opened) (cross_swaps cross_opened) (xw_hooks cross_opened) near_down None (xw_history cross_opened) 2000 2.

Lemma failing_batch_starves_witness : length (batch (xw_clock cross_down) cross_down) = 1%nat /\ run tick cross_down = (cross_down, Ok tt).
Proof. split; [vm_compute; reflexivity|]. apply (failing_batch_starves cross_down). intros r u _. exists JsError. reflexivity. Defined.

Lemma asset_never_guessed_witness : exists a, resolveCrossChainAsset sample_tokens N_btc "BTC" = Ok a /\ ca_chain a = N_btc.
Proof.
  assert (H : exists a, resolveCrossChainAsset sample_tokens N_btc "BTC" = Ok a) by (eexists; vm_compute; reflexivity). destruct H as [a H].
  destruct (asset_never_guessed _ _ _ _ H) as (_ & Hc & _). exists a. exact (conj H Hc).
Defined.

Lemma network_spellings_witness : isCrossChainAddress N_btc "BC1QW508D6QEJXTDG4Y5R3ZARVARY0C5XW7KV8F3T4" = true
  /\ isCrossChainAddress N_btc (normalizedAddress N_btc "BC1QW508D6QEJXTDG4Y5R3ZARVARY0C5XW7KV8F3T4") = true.
Proof.
  assert (H : isCrossChainAddress N_btc "BC1QW508D6QEJXTDG4Y5R3ZARVARY0C5XW7KV8F3T4" = true) by (vm_compute; reflexivity).
  split; [exact H|]. exact (proj1 (proj1 (network_spellings N_btc) _ H)).
Defined.
